(* ===== verification/_CoqProject ===== *)
-Q . S2P
Prelude.v
Text.v
Sysctl.v
Lwp.v
Lpsched.v
LpschedFacts.v
LpschedInv.v
LpschedIdle.v
Circq.v
Callout.v
CalloutWheel.v
CalloutInv.v
CalloutNext.v
CalloutThms.v
CalloutEx.v
Runq.v
RunqInv.v
RunqThms.v
RunqPack.v
Timecounter.v
Lapic.v
LapicThms.v
Heartbeat.v
Cidle.v
CidleThms.v
CidleMod.v
Hwp.v
HwpThms.v
Governor.v
GovKernel.v
GovernorThms.v
GovSession.v
GovPolicy.v
Mount.v
MountFacts.v
S2idle.v
S2Facts.v
S2Steps.v
S2Thms.v
S2Session.v
S2Claims.v
AcpiPower.v
AcpiFacts.v
AcpiOps.v
AcpiSet.v
AcpiThms.v
AcpiState.v
AcpiLit.v
AcpiWake.v
AdrPower.v
AdrThms.v
Device.v
DeviterThms.v
Pmf.v
PmfFacts.v
PmfThms.v
PmfInv.v
LwpSusp.v
Lps0.v
Freeze.v
FreezeFacts.v
FreezeDev.v
FreezeTrace.v
FreezeThms.v
FreezeReq.v
SuspendEx.v
Vmem.v
VmemFit.v
VmemBooks.v
VmemInv.v
VmemSearch.v
VmemOps.v
VmemThms.v
Memfd.v
MemfdRef.v
MemfdThms.v
Tasklet.v
TaskletInv.v
TaskletThms.v
Wg.v
