(* ===== verification/Prelude.v ===== *)
(** * nanobsd: the laptop power core

    A verification of the code with which this NetBSD tree keeps a laptop's
    idle power low: the power aware scheduler (lpsched), the callout wheel it
    coalesces, the tickless idle loop (cidle) with the timer, clock and
    heartbeat it has to keep right, the hardware P-state module (hwp), the
    governor daemon (lpschedd) that drives them, and suspend to idle: the
    all-mount barrier, the ACPI power resources and wake devices, device power
    management, the userspace freezer and the transaction over them; and of the
    resource arenas (vmem) under the kernel's memory and of the sealable memory
    files (memfd) that graphics clients share, the tasklets that the graphics
    driver runs its interrupt work in, and the transport data of WireGuard.
    Sources are named relative to src/.

    ** How the parts interact

    Run queues (kernel/kern/kern_runq.c) place LWPs; with packing on they ask
    lpsched (kernel/kern/kern_lpsched.c, kernel/sys/lpsched.h) for the wake
    cost of a CPU, and they report switches to its accounting.  Callouts
    (kernel/kern/kern_timeout.c) keep timers on a four level wheel per CPU and
    tell an idle CPU how far away its next deadline is.  cidle
    (kernel/modules/cidle/cidle.c) uses that distance: it suspends the
    heartbeat (kernel/kern/kern_heartbeat.c), programs the local APIC timer as
    a one-shot (kernel/arch/x86/x86/lapic.c, lapic_tl.h), sleeps, and replays
    the ticks the sleep covered; the timecounter (kernel/kern/kern_tc.c) bounds
    the sleep of the primary CPU.  hwp (kernel/modules/hwp/hwp.c) writes the
    request and power limit registers.  lpschedd (userland/lpschedd.c) samples
    load, input and supply and writes the knobs of lpsched and hwp through
    sysctl.  For suspend-to-idle kernel/kern/vfs_s2idle.c suspends and flushes
    every mount of the list of kernel/kern/vfs_mount.c, and
    kernel/dev/acpi/acpi_power.c moves devices between D-states while counting
    who needs which power resource.  acpi_enter_freeze of
    kernel/dev/acpi/acpi.c puts these together: it freezes the LWPs
    (kernel/kern/kern_lwp.c, kern_synch.c), takes the barrier, walks the device
    list (kernel/kern/subr_autoconf.c) from the leaves and suspends devices
    through PMF (kernel/kern/kern_pmf.c), prepares the wake devices
    (kernel/dev/acpi/acpi_wakedev.c), turns a table of devices off by their PCI
    address, tells the firmware, holds until a wake, and undoes all of it.
    kernel/kern/subr_vmem.c hands out address ranges to the rest of the kernel;
    an arena may import its spans from another one.
    kernel/kern/sys_memfd.c keeps a file in an anonymous memory object which
    processes map and seal.
    kernel/external/bsd/common/linux/linux_tasklet.c runs deferred functions in
    a soft interrupt of each CPU, from a queue per CPU, and parks the disabled
    ones.  kernel/net/if_wg.c authenticates, checks against replay and hands
    over the packets of an encrypted tunnel.

    ** Files

    Shared: Prelude (machine integers with explicit wrap, flags, sums, map and
    list lemmas, tactics, hint databases kern and kernw), Text (decimal
    printing and parsing, sbuf and snprintf into bounded buffers, register
    fields), Sysctl (the integer node protocol and errno values), Lwp (the
    machine constants as a class, struct lwp, lwp_eprio).

    - lpsched: Lpsched is the model of kern_lpsched.c and lpsched.h (state
      [lpsys], one record per CPU); LpschedFacts, LpschedInv and LpschedIdle
      its theorems and witnesses.
    - callouts: Circq has the CIRCQ pointer macros on a heap and their
      refinement of lists; Callout is the model of kern_timeout.c on lists
      (state [csys], a callout and a callout_cpu record per object and CPU);
      CalloutWheel, CalloutInv (with every entry point as a step of a
      transition relation), CalloutNext, CalloutThms, CalloutEx.
    - run queues: Runq is the model of kern_runq.c (state [sched]: CPUs and
      LWPs in two maps); RunqInv, RunqThms, RunqPack
      (packing, with the witnesses).
    - clock and idle: Timecounter, Lapic with LapicThms, Heartbeat, Cidle (the
      idle routine on the models of callouts, LAPIC, heartbeat and lpsched;
      state [isys] holds them all), CidleThms, CidleMod (knobs, loading and the
      switch of the idle routine under concurrency; with the witnesses).
    - hwp: Hwp, HwpThms.  The registers of every CPU are state.
    - governor: Governor runs on the models of lpsched and hwp through the same
      sysctl handlers; GovKernel (effect of its writes), GovernorThms (runs of
      the main loop), GovSession, GovPolicy (with the witnesses).
    - barrier: Mount (references, busy holds, mount list iterators, the
      admission gate), S2idle (vfs_suspend_all and vfs_resume_all);
      MountFacts (effects on references and resources that add up along a
      run), S2Facts (the steps of a session, lower mount chains), S2Steps,
      S2Thms, S2Session (the session as a whole), S2Claims (with the threads at
      the gate as a transition system, and the witnesses).
    - power resources: AcpiPower is the model of acpi_power.c (state [power]);
      AcpiFacts (elementary steps, well-formedness, every routine as a run of
      steps), AcpiOps (the interface), AcpiSet, AcpiThms, AcpiState, AcpiLit
      (with the witnesses).
    - suspend to idle: AcpiWake (wake devices), AdrPower and AdrThms (power
      groups by PCI address), Device and DeviterThms (the device list and its
      iterators, any interleaving of walks with attachment and detachment),
      Pmf with PmfFacts, PmfThms and PmfInv (suspensors, the three levels, the
      device lock, subtrees, the system), LwpSusp (suspension, continuation and
      lwp_userret, with the freezer over all processes), Lps0 (the firmware's _DSM), Freeze (acpi_enter_freeze; state
      [freeze] holds the states of all of these) with FreezeFacts, FreezeDev,
      FreezeTrace and FreezeThms, FreezeReq (the request sysctls and the
      thread), SuspendEx.  FreezeFacts uses the barrier through
      the class [BarrierOk], which S2Session discharges.
    - resource arenas: Vmem is the model of subr_vmem.c (state [vsys]: one arena
      [vmem] with its segment list, free lists, hash and tags, and what other
      threads hold); VmemFit (the arithmetic of fitting), VmemBooks (free lists
      and hash as one kind of index, counters, identities of tags, the shape of
      the segment list), VmemInv (the invariant, taking a block, release),
      VmemSearch (the search, and the routines that drop the lock, against the
      class [VmemRely] of what others and the source may do), VmemOps (lookup,
      release, rehashing, runs), VmemThms (with the witnesses).
    - memory files: Memfd is the model of sys_memfd.c (state [mstate]: a file
      with its memfd, and the mappings of it) over the class [Uao] of anonymous
      objects, with [UaoOk] what uvm documents of them; MemfdRef (the abstract
      file of bytes, and each call as a step of it), MemfdThms (runs, seals, an
      object to run them on, witnesses and corners).
    - tasklets: Tasklet is the model of linux_tasklet.c, a transition system in
      which every access to shared memory is a step and a CPU or client is a
      program counter; TaskletInv has the invariant that says who holds which
      bit of a tasklet, TaskletThms the theorems and witnesses.
    - WireGuard: Wg is the model of the sliding window, of the receive path of
      data messages and of the counters and limits of a session in if_wg.c, with
      their theorems and witnesses; the cipher is a parameter.

    ** What the theorems show

    - Callouts: for timeouts that fit an int after coalescing, queued callouts
      are on exactly the queue the flags say and are never late in the wheel; a callout is on the worklist at its tick; halt
      and the soft interrupt end; the next-deadline answer is exact or early
      except in the wrap-around case exhibited in CalloutEx; coalescing only
      delays; the pointer queues implement the lists.
    - Run queues: bitmap, maximum and counts agree with the queues under every
      operation, the next LWP is the first of the highest priority, CPU choice
      is allowed by affinity, equals the stock choice with packing off and is
      the cheapest idle CPU with packing on.
    - Idle: a pass of cidle_idle restores interrupts, timer, heartbeat and
      accounting on every path, skips at most the bounds of all its clients,
      and over any number of sleeps credits exactly the ticks that passed.
      Idle time accounting refines a log of intervals, also for readers that
      race with the writer.
    - hwp and governor: what is written reads back, locked limits are never
      written, after any history the kernel's knobs are those of the current
      profile, down-shifts wait for confirmation, a session restores what it
      found.
    - Barrier: for any answers of file systems, locks and allocator
      vfs_suspend_all ends, and fails with everything given back or succeeds
      with every mount held, suspended and flushed exactly once; resume is its
      inverse; mount operations and barriers exclude each other.
    - Power resources: for any firmware the lists stay well formed, nothing
      done for one device takes power from another, a transition evaluates
      _ON, _PSx and _OFF in the required order and on success holds exactly the
      resources of its state, failures are remembered, a query never mistakes a
      shared rail for a device's state; with firmware that changes a resource
      only by its own methods every held resource is on.
    - Suspend to idle: with a timeout or a wake the transaction ends for any
      answers, in one order, and
      on every path leaves the system as it found it, the devices too if no
      resume failed; a wake at any time ends the hold; storage goes down only
      under the barrier; the thread serves one request at a time.  Device
      walks are exact under concurrent attachment and detachment, device
      suspension and resumption are inverse and wait for all suspensors, the
      levels of a device stay in order, a thawed LWP is not suspended again
      and gets back to user mode or to its exit, a power group restores what it moved.
    - Arenas: vmem_fit finds the least placement or there is none; an
      allocation fails for want of space exactly if no free block has a
      placement; over any history, other threads and imports included, the
      segment list tiles the spans, allocated regions are disjoint and counted
      and no assertion fails; releasing restores the list, releasing everything
      ends, rehashing changes no lookup.
    - Memory files: every run of calls, faults, mappings and stores refines a
      file that is a list of bytes; seals never come off and hold against every
      call and mapping, and a file sealed against writing, growing and shrinking
      has the same bytes for ever.
    - Tasklets: in any interleaving a tasklet that is scheduled is on exactly
      one list or in the hands of one thread and runs on one CPU at a time; no
      function runs after tasklet_disable has returned and before an enable; a
      tasklet that stays scheduled is never forgotten, and the soft interrupt
      handler ends.
    - WireGuard: the bitmap window refines the set of sequence numbers received;
      with any number of receivers and senders at once a packet is handed over
      only if it authenticates and at most once, a packet is dropped for the
      reason given, and message counters do not repeat.

    ** Modelling choices

    C integers are [Z] with u32, u64 and i32 written where the hardware wraps.
    A routine that runs under a lock is one atomic step; where the code relies
    on unlocked order (the idle generation counter, the switch of the idle
    routine, the callout soft interrupt, threads at the gate, tasklets) the
    single accesses are the steps of a relation, in one order for all CPUs (atomic
    operations are full barriers on x86).  A panic or KASSERT failure is an
    outcome, or a flag of the state that theorems show to stay set.  Code
    outside the repository (file systems, fstrans, mutexes, ACPICA and AML,
    hardware counters, the rounding of doubles) is a parameter: an argument or
    a class whose answers may depend on the whole history of calls, and a
    theorem that needs more of it says so in a hypothesis.

    Fuel: loops that are not structural take as much fuel as the list they walk
    is long, plus one (mount iteration, collection), the size of the store plus
    two for the two-pointer walk over lower mounts, the length of the worklist for the
    soft interrupt, the timeout in seconds for the hold of a freeze or, without
    one, any number from the pause of the wake on, two turns
    for an allocation that does not sleep or import and six for the tags it may
    need, the number of allocated regions for vmem_xfreeall; each is shown to
    be enough where it is used, so results are of the code and not of the
    bound.  Decimal printing has 20 digits, enough
    for 64 bits.

    ** Not modelled

    Stock NetBSD code the patches only touch (the rest of kern_tc.c,
    kern_lwp.c, kern_clock.c, lapic.c, vfs_mount.c, pmap and machine dependent
    code), device drivers, the vendored i915 and DRM tree, the rest of
    networking (of if_wg.c handshakes, cookies and configuration), the
    remaining userland tools, tests and documentation. Of vmem the pools of the
    quantum cache, bootstrap, VM_POPULATING, printing and the self checks;
    struct vmem and the tag type are not in the repository, their fields are
    those the code uses, and VMEM_MAXORDER is taken to be at least 64. DDB
    printers and debug output have no effect on state and are left out. *)

From Stdlib Require Import ZArith Lia.
From stdpp Require Import base numbers list gmap.

Declare Scope kern_scope.
Delimit Scope kern_scope with kern.
#[global] Open Scope Z_scope.

Create HintDb kern discriminated.
Create Rewrite HintDb kernw.

(** ** Machine integers

    A C integer of width [w] is the [Z] it denotes; every operation that the
    hardware truncates is written with an explicit wrap. *)

Definition u32 (x : Z) : Z := x mod 2 ^ 32.
Definition u64 (x : Z) : Z := x mod 2 ^ 64.
Definition i32 (x : Z) : Z := (x + 2 ^ 31) mod 2 ^ 32 - 2 ^ 31.

Definition INT_MAX : Z := 2 ^ 31 - 1.
Definition UINT32_MAX : Z := 2 ^ 32 - 1.
Definition UINT64_MAX : Z := 2 ^ 64 - 1.

Definition in_u32 (x : Z) : Prop := 0 <= x < 2 ^ 32.
Definition in_u64 (x : Z) : Prop := 0 <= x < 2 ^ 64.
Definition in_i32 (x : Z) : Prop := - 2 ^ 31 <= x < 2 ^ 31.

(** Conditions of the C code read a flag word through a mask. *)
Definition has_flag (flags mask : Z) : bool := negb (Z.land flags mask =? 0).
Definition set_flag (flags mask : Z) : Z := Z.lor flags mask.
Definition clr_flag (flags mask : Z) : Z := Z.land flags (Z.lnot mask).

(** The C tests [e != 0] on an [int]. *)
Definition nz (x : Z) : bool := negb (x =? 0).

(** [lia] after turning divisions and remainders into equations. *)
Ltac zdm := Z.to_euclidean_division_equations; lia.

(** Case analysis on the boolean comparisons of the goal and hypotheses. *)
Ltac cmp_case :=
  match goal with
  | |- context [Z.ltb ?a ?b] => destruct (Z.ltb_spec a b)
  | |- context [Z.leb ?a ?b] => destruct (Z.leb_spec a b)
  | |- context [Z.eqb ?a ?b] => destruct (Z.eqb_spec a b)
  | H : context [Z.ltb ?a ?b] |- _ => destruct (Z.ltb_spec a b)
  | H : context [Z.leb ?a ?b] |- _ => destruct (Z.leb_spec a b)
  | H : context [Z.eqb ?a ?b] |- _ => destruct (Z.eqb_spec a b)
  end.
Ltac cmp_cases := repeat (cmp_case; simpl in *).

Section words.

Lemma u32_range x : in_u32 (u32 x).
Proof. unfold in_u32, u32. apply Z.mod_pos_bound. lia. Qed.

Lemma u64_range x : in_u64 (u64 x).
Proof. unfold in_u64, u64. apply Z.mod_pos_bound. lia. Qed.

Lemma i32_range x : in_i32 (i32 x).
Proof.
  unfold in_i32, i32. pose proof (Z.mod_pos_bound (x + 2 ^ 31) (2 ^ 32)). lia.
Qed.

Lemma u32_id x : in_u32 x -> u32 x = x.
Proof. apply Z.mod_small. Qed.

Lemma u64_id x : in_u64 x -> u64 x = x.
Proof. apply Z.mod_small. Qed.

Lemma i32_id x : in_i32 x -> i32 x = x.
Proof. unfold in_i32, i32. intros H. rewrite Z.mod_small; lia. Qed.

(** Two integers have the same 32-bit pattern iff they are congruent. *)
Lemma i32_cong x y : (x - y) mod 2 ^ 32 = 0 -> i32 x = i32 y.
Proof.
  unfold i32. intros H. f_equal.
  replace (x + 2 ^ 31) with ((x - y) + (y + 2 ^ 31)) by lia.
  rewrite Z.add_mod, H, Z.add_0_l, Z.mod_mod by lia. reflexivity.
Qed.

Lemma i32_u32 x : i32 (u32 x) = i32 x.
Proof. apply i32_cong. unfold u32. zdm. Qed.

Lemma i32_i32 x : i32 (i32 x) = i32 x.
Proof. apply i32_cong. unfold i32. zdm. Qed.

Lemma u32_i32 x : u32 (i32 x) = u32 x.
Proof. unfold u32, i32. zdm. Qed.

Lemma u32_u32 x : u32 (u32 x) = u32 x.
Proof. unfold u32. apply Z.mod_mod. lia. Qed.

(** The idiom [(int)((unsigned)a - (unsigned)b)]. *)
Lemma i32_sub_u32 a b : i32 (u32 a - u32 b) = i32 (a - b).
Proof. apply i32_cong. unfold u32. zdm. Qed.

Lemma i32_sub_i32_l a b : i32 (i32 a - b) = i32 (a - b).
Proof. apply i32_cong. unfold i32. zdm. Qed.

Lemma i32_sub_u32_r a b : i32 (a - u32 b) = i32 (a - b).
Proof. apply i32_cong. unfold u32. zdm. Qed.

Lemma i32_add_i32_l a b : i32 (i32 a + b) = i32 (a + b).
Proof. apply i32_cong. unfold i32. zdm. Qed.

End words.

#[export] Hint Resolve u32_range u64_range i32_range : kern.
#[export] Hint Rewrite i32_u32 i32_i32 u32_i32 u32_u32 i32_sub_u32
  i32_sub_i32_l i32_sub_u32_r i32_add_i32_l : kernw.

(** ** Flag words

    A mask of constant bits read after bits were set or cleared: the side
    conditions compute. *)

Section flags.

Lemma has_flag_set_disj f m m' : Z.land m m' = 0 ->
  has_flag (set_flag f m) m' = has_flag f m'.
Proof. intros E. unfold has_flag, set_flag. by rewrite Z.land_lor_distr_l, E, Z.lor_0_r. Qed.

Lemma has_flag_clr_disj f m m' : Z.land (Z.lnot m) m' = m' ->
  has_flag (clr_flag f m) m' = has_flag f m'.
Proof. intros E. unfold has_flag, clr_flag. by rewrite <-Z.land_assoc, E. Qed.

Lemma has_flag_clr_sub f m m' : Z.land (Z.lnot m) m' = 0 ->
  has_flag (clr_flag f m) m' = false.
Proof. intros E. unfold has_flag, clr_flag. by rewrite <-Z.land_assoc, E, Z.land_0_r. Qed.

Lemma has_flag_set_sub f m m' : Z.land m m' <> 0 -> has_flag (set_flag f m) m' = true.
Proof.
  intros E. unfold has_flag, set_flag. rewrite Z.land_lor_distr_l.
  apply negb_true_iff, Z.eqb_neq. intros [_ H]%Z.lor_eq_0_iff. done.
Qed.

End flags.

(** Evaluates every [has_flag] of a [set_flag] or [clr_flag] with constant masks. *)
Ltac flags :=
  repeat first
    [ rewrite has_flag_clr_disj by reflexivity
    | rewrite has_flag_clr_sub by reflexivity
    | rewrite has_flag_set_disj by reflexivity
    | rewrite has_flag_set_sub by discriminate ].

(** ** Sums of machine counters *)

Definition zsum (l : list Z) : Z := foldr Z.add 0 l.

Lemma zsum_app a b : zsum (a ++ b) = zsum a + zsum b.
Proof. unfold zsum. induction a; simpl; lia. Qed.

Lemma zsum_nonneg l : Forall (fun x => 0 <= x) l -> 0 <= zsum l.
Proof. unfold zsum. induction 1; simpl; lia. Qed.

Lemma zsum_take_le n l : Forall (fun x => 0 <= x) l -> zsum (take n l) <= zsum l.
Proof.
  intros H. rewrite <-(take_drop n l) at 2. rewrite zsum_app.
  pose proof (zsum_nonneg (drop n l) (Forall_drop _ _ _ H)). lia.
Qed.
