(* ===== verification/Text.v ===== *)
(** * Text: decimal output and snprintf(3) into a fixed buffer

    The read-only sysctl nodes format counters with [snprintf] into static
    buffers, advancing an offset by the returned length.  [sbuf_printf] is that
    step; it is undefined ([None]) when the offset is past the end of the
    buffer, where [sizeof(buf) - len] wraps around. *)

From Stdlib Require Import Ascii.
From stdpp Require Import base numbers list strings.
From S2P Require Import Prelude.

(** [%u], [%PRIu64]: at most [fuel] digits. *)
Fixpoint dec_aux (fuel : nat) (n : Z) (acc : string) : string :=
  match fuel with
  | O => acc
  | S f =>
      let acc := String (ascii_of_nat (48 + Z.to_nat (n mod 10))) acc in
      if n / 10 =? 0 then acc else dec_aux f (n / 10) acc
  end.

Definition dec (n : Z) : string := dec_aux 20 n EmptyString.

(** The number a digit string denotes, to state what [dec] prints. *)
Fixpoint dec_value (acc : Z) (s : string) : Z :=
  match s with
  | EmptyString => acc
  | String c s => dec_value (acc * 10 + (Z.of_nat (nat_of_ascii c) - 48)) s
  end.

Lemma dec_aux_length f n acc k : 0 <= n < 10 ^ Z.of_nat (S k) ->
  (String.length (dec_aux f n acc) <= S k + String.length acc)%nat.
Proof.
  revert n acc k. induction f as [|f IH]; intros n acc k Hn; simpl; [lia|].
  destruct (Z.eqb_spec (n / 10) 0) as [E|E]; simpl; [lia|].
  destruct k as [|k].
  - rewrite Z.div_small in E by (simpl in Hn; lia). done.
  - etrans; [apply (IH _ _ k)|simpl; lia].
    split; [apply Z.div_pos; lia|].
    apply Z.div_lt_upper_bound; [lia|].
    rewrite <-Z.pow_succ_r by lia.
    replace (Z.succ (Z.of_nat (S k))) with (Z.of_nat (S (S k))) by lia. lia.
Qed.

Lemma dec_length n k : 0 <= n < 10 ^ Z.of_nat (S k) ->
  (String.length (dec n) <= S k)%nat.
Proof.
  intros H. unfold dec. pose proof (dec_aux_length 20 n EmptyString k H) as L.
  change (String.length EmptyString) with 0%nat in L. lia.
Qed.

Lemma dec_u64_length n : in_u64 n -> (String.length (dec n) <= 20)%nat.
Proof.
  unfold in_u64. intros H. apply (dec_length n 19).
  change (10 ^ Z.of_nat 20) with 100000000000000000000. lia.
Qed.

Lemma dec_u32_length n : in_u32 n -> (String.length (dec n) <= 10)%nat.
Proof.
  unfold in_u32. intros H. apply (dec_length n 9).
  change (10 ^ Z.of_nat 10) with 10000000000. lia.
Qed.

Lemma digit_value d : 0 <= d < 10 ->
  Z.of_nat (nat_of_ascii (ascii_of_nat (48 + Z.to_nat d))) - 48 = d.
Proof. intros H. rewrite nat_ascii_embedding by lia. lia. Qed.

Lemma dec_aux_value f n acc a : 0 <= n < 10 ^ Z.of_nat f ->
  exists k, dec_value a (dec_aux f n acc) = dec_value (a * 10 ^ k + n) acc /\ 0 <= k.
Proof.
  revert n acc a. induction f as [|f IH]; intros n acc a Hn.
  { exists 0. simpl. split; [|lia]. f_equal. simpl in Hn. lia. }
  cbn [dec_aux].
  pose proof (Z.mod_pos_bound n 10 ltac:(lia)) as Hd.
  destruct (Z.eqb_spec (n / 10) 0) as [E|E].
  - exists 1. cbn [dec_value]. rewrite digit_value by done. split; [|lia]. f_equal.
    pose proof (Z.div_mod n 10). lia.
  - destruct (IH (n / 10) (String (ascii_of_nat (48 + Z.to_nat (n mod 10))) acc) a)
      as (k & -> & Hk).
    { split; [apply Z.div_pos; lia|]. apply Z.div_lt_upper_bound; [lia|].
      rewrite <-Z.pow_succ_r by lia.
      replace (Z.succ (Z.of_nat f)) with (Z.of_nat (S f)) by lia. lia. }
    exists (k + 1). cbn [dec_value]. rewrite digit_value by done. split; [|lia]. f_equal.
    rewrite Z.pow_add_r by lia. pose proof (Z.div_mod n 10). lia.
Qed.

(** [dec] prints the number it is given. *)
Lemma dec_roundtrip n : in_u64 n -> dec_value 0 (dec n) = n.
Proof.
  intros H. unfold in_u64 in H. unfold dec.
  destruct (dec_aux_value 20 n EmptyString 0) as (k & -> & _).
  { change (10 ^ Z.of_nat 20) with 100000000000000000000. lia. }
  simpl. lia.
Qed.

(** ** A static buffer being filled *)

Record sbuf := mk_sbuf {
  sb_len : nat;     (* the running offset [len] *)
  sb_text : string  (* contents up to the terminating NUL *)
}.

Definition sbuf_empty : sbuf := mk_sbuf 0 EmptyString.

(** [len += snprintf(buf + len, sizeof(buf) - len, ...)] *)
Definition sbuf_printf (size : nat) (text : string) (b : sbuf) : option sbuf :=
  if (size <? sb_len b)%nat then None
  else if (sb_len b =? size)%nat
  then Some (mk_sbuf (sb_len b + String.length text) (sb_text b))
  else Some (mk_sbuf (sb_len b + String.length text)
         (String.substring 0 (size - 1) (String.append (sb_text b) text))).

(** The buffer holds all that was printed so far, with room for the NUL. *)
Definition sbuf_exact (size : nat) (b : sbuf) : Prop :=
  sb_len b = String.length (sb_text b) /\ (sb_len b < size)%nat.

Lemma string_length_app (a b : string) :
  String.length (String.append a b) = (String.length a + String.length b)%nat.
Proof.
  induction a as [|x a IH]; [done|].
  change (String.append (String x a) b) with (String x (String.append a b)).
  simpl. congruence.
Qed.

Lemma string_app_assoc (a b c : string) :
  String.append (String.append a b) c = String.append a (String.append b c).
Proof.
  induction a as [|x a IH]; [done|].
  change (String x (String.append (String.append a b) c) =
          String x (String.append a (String.append b c))). congruence.
Qed.

Lemma substring_all (s : string) n : (String.length s <= n)%nat ->
  String.substring 0 n s = s.
Proof.
  revert n. induction s as [|c s IH]; intros [|n] H; simpl in *; try done; [lia|].
  f_equal. apply IH. lia.
Qed.

Lemma sbuf_printf_exact size text b : sbuf_exact size b ->
  (sb_len b + String.length text < size)%nat ->
  sbuf_printf size text b =
    Some (mk_sbuf (sb_len b + String.length text) (String.append (sb_text b) text)).
Proof.
  intros [Hl Hs] Ht. unfold sbuf_printf.
  destruct (Nat.ltb_spec size (sb_len b)); [lia|].
  destruct (Nat.eqb_spec (sb_len b) size); [lia|].
  rewrite substring_all; [done|]. rewrite string_length_app. lia.
Qed.

Lemma sbuf_exact_step size text b : sbuf_exact size b ->
  (sb_len b + String.length text < size)%nat ->
  sbuf_exact size
    (mk_sbuf (sb_len b + String.length text) (String.append (sb_text b) text)).
Proof. intros [Hl Hs] Ht. split; simpl; [|lia]. rewrite string_length_app. lia. Qed.

(** A printing step that appends at most [k] characters whenever they fit:
    nothing is truncated and the offset never passes the buffer. *)
Definition sb_grows (size k : nat) (f : sbuf -> option sbuf) : Prop :=
  forall b, sbuf_exact size b -> (sb_len b + k < size)%nat ->
  exists t, (String.length t <= k)%nat /\
    f b = Some (mk_sbuf (sb_len b + String.length t) (String.append (sb_text b) t)).

Lemma sb_grows_skip size : sb_grows size 0 Some.
Proof.
  intros b [Hl Hs] _. exists EmptyString. split; [simpl; lia|]. f_equal.
  destruct b as [n t]; simpl in *. f_equal; [lia|].
  clear. induction t as [|c t IH]; [done|].
  change (String c t = String c (String.append t EmptyString)). by f_equal.
Qed.

Lemma sb_grows_printf size k text : (String.length text <= k)%nat ->
  sb_grows size k (sbuf_printf size text).
Proof.
  intros Hk b Hb Hs. exists text. split; [done|]. apply sbuf_printf_exact; [done|lia].
Qed.

Lemma sb_grows_weaken size k k' f : (k <= k')%nat ->
  sb_grows size k f -> sb_grows size k' f.
Proof.
  intros Hk Hf b Hb Hs. destruct (Hf b Hb) as (t & Ht & E); [lia|].
  exists t. split; [lia|done].
Qed.

Lemma sb_grows_bind size k1 k2 f g :
  sb_grows size k1 f -> sb_grows size k2 g ->
  sb_grows size (k1 + k2) (fun b => f b ≫= g).
Proof.
  intros Hf Hg b Hb Hs. destruct (Hf b Hb) as (t & Ht & E); [lia|].
  assert (sbuf_exact size (mk_sbuf (sb_len b + String.length t) (String.append (sb_text b) t)))
    as Hb' by (apply sbuf_exact_step; [done|lia]).
  destruct (Hg _ Hb') as (t' & Ht' & E'); [simpl; lia|].
  exists (String.append t t'). rewrite string_length_app. split; [lia|].
  rewrite E. simpl. rewrite E'. simpl. do 2 f_equal; [lia|apply string_app_assoc].
Qed.

(** The guard [len < sizeof(buf)] of the loops holds while there is room. *)
Lemma sb_grows_guard size k f :
  sb_grows size k f ->
  sb_grows size k (fun b => if (sb_len b <? size)%nat then f b else Some b).
Proof.
  intros Hf b Hb Hs. destruct (Nat.ltb_spec (sb_len b) size); [by apply Hf|lia].
Qed.

Lemma sb_grows_from_empty size k f : sb_grows size k f -> (k < size)%nat ->
  exists t, (String.length t <= k)%nat /\ f sbuf_empty = Some (mk_sbuf (String.length t) t).
Proof.
  intros Hf Hk. destruct (Hf sbuf_empty) as (t & Ht & E); [split; simpl; lia|simpl; lia|].
  exists t. split; [done|]. exact E.
Qed.

#[export] Hint Resolve sb_grows_skip sb_grows_printf sb_grows_bind sb_grows_guard : kern.

(** * Bit fields of a register

    Equations between masks, shifts and fields, bit by bit. *)

Lemma testbit_above x n i : 0 <= x < 2 ^ n -> n <= i -> Z.testbit x i = false.
Proof.
  intros Hx Hi. destruct (Z.eq_dec x 0) as [->|]; [apply Z.bits_0|].
  apply Z.bits_above_log2; [lia|]. apply (Z.lt_le_trans _ n); [|done].
  apply Z.log2_lt_pow2; lia.
Qed.

(** [bitwise] compares two integers bit by bit: operations are pushed to the
    bits, ranges decided.  [in_field] hypotheses bound the symbolic fields. *)
Definition in_field (n x : Z) : Prop := 0 <= x < 2 ^ n.

Ltac bit_push :=
  repeat first
    [ rewrite Z.land_spec | rewrite Z.lor_spec | rewrite Z.lnot_spec by lia
    | rewrite Z.shiftr_spec by lia | rewrite Z.shiftl_spec by lia
    | rewrite Z.testbit_ones by lia | rewrite Z.pow2_bits_eqb by lia
    | rewrite Z.bits_0 ].

Ltac bit_ranges :=
  repeat match goal with
    | H : in_field ?n ?x |- context [Z.testbit ?x ?i] =>
        first [ rewrite (testbit_above x n i H) by lia
              | rewrite (Z.testbit_neg_r x i) by lia ]
    | |- context [Z.testbit ?x ?i] => rewrite (Z.testbit_neg_r x i) by lia
    end.

Ltac bit_cases :=
  repeat match goal with
    | |- context [Z.leb ?a ?b] => destruct (Z.leb_spec a b)
    | |- context [Z.ltb ?a ?b] => destruct (Z.ltb_spec a b)
    | |- context [Z.eqb ?a ?b] => destruct (Z.eqb_spec a b)
    end; try lia.

Ltac bit_bools :=
  rewrite ?andb_true_r, ?andb_false_r, ?andb_true_l, ?andb_false_l,
    ?orb_true_r, ?orb_false_r, ?orb_true_l, ?orb_false_l.

Ltac bitwise :=
  apply Z.bits_inj'; intros ? ?; bit_push; bit_cases; bit_ranges; simpl; bit_bools;
  first [ reflexivity | repeat (f_equal; try lia) | idtac ].
