(* ===== verification/Sysctl.v ===== *)
(** * The sysctl(9) handler protocol

    Every knob of the power core is a sysctl node with a handler of the same
    shape: copy the node, point its data at a local variable, call
    [sysctl_lookup] and, if a new value came in, check and store it.
    [sysctl_lookup] belongs to the kernel outside this repository: it is a
    parameter here, and [SysctlOk] states what sysctl(9) documents of it. *)

From stdpp Require Import base strings list.
From S2P Require Import Prelude.

(** Error numbers the handlers return (errno(2)). *)
Definition EPERM : Z := 1.
Definition ENOENT : Z := 2.
Definition EIO : Z := 5.
Definition ENXIO : Z := 6.
Definition ENOMEM : Z := 12.
Definition EBUSY : Z := 16.
Definition ENODEV : Z := 19.
Definition EINVAL : Z := 22.
Definition ENOTTY : Z := 25.
Definition EOPNOTSUPP : Z := 45.
Definition ELOOP : Z := 62.

(** One access: whether the node is writable, and the new value if the caller
    passed one ([newp != NULL]). *)
Record sysctl_req := mk_req {
  rq_readwrite : bool;
  rq_newp : option Z
}.

(** What a handler leaves behind: its error, the data the caller reads and the
    state afterwards. *)
Record sysctl_res (O S : Type) := mk_res {
  res_err : Z;
  res_out : O;
  res_post : S
}.
Arguments mk_res {O S}.
Arguments res_err {O S}.
Arguments res_out {O S}.
Arguments res_post {O S}.

(** [sysctl_lookup(node)]: the error and the contents of [node.sysctl_data]
    afterwards, from the contents before. *)
Class Sysctl := sysctl_lookup : sysctl_req -> Z -> Z * Z.

Class SysctlOk (SC : Sysctl) : Prop := {
  lookup_read : forall rq v, rq_newp rq = None ->
    sysctl_lookup rq v = (0, v);
  lookup_write : forall rw x v, fst (sysctl_lookup (mk_req rw (Some x)) v) = 0 ->
    snd (sysctl_lookup (mk_req rw (Some x)) v) = x;
  lookup_readonly : forall x v,
    fst (sysctl_lookup (mk_req false (Some x)) v) <> 0;
  lookup_root_write : forall x v,
    fst (sysctl_lookup (mk_req true (Some x)) v) = 0
}.

(** The documented behaviour for a privileged caller, as a function. *)
#[export] Instance root_sysctl : Sysctl := fun rq v =>
  match rq_newp rq with
  | None => (0, v)
  | Some x => if rq_readwrite rq then (0, x) else (EPERM, v)
  end.

#[export] Instance root_sysctl_ok : SysctlOk root_sysctl.
Proof.
  split; intros; unfold sysctl_lookup, root_sysctl in *; simpl in *.
  - by rewrite H.
  - by destruct rw.
  - done.
  - done.
Qed.

(** Node descriptions as [sysctl_createv] receives them. *)
Inductive ctltype := CTLTYPE_NODE | CTLTYPE_INT | CTLTYPE_STRING | CTLTYPE_QUAD
  | CTLTYPE_STRUCT.

Record sysctl_node (H D : Type) := mk_node {
  nd_permanent : bool;
  nd_readwrite : bool;
  nd_type : ctltype;
  nd_name : string;
  nd_handler : option H;  (* NULL: the generic handler on the data *)
  nd_data : option D
}.
Arguments mk_node {H D}.
Arguments nd_permanent {H D}.
Arguments nd_readwrite {H D}.
Arguments nd_type {H D}.
Arguments nd_name {H D}.
Arguments nd_handler {H D}.
Arguments nd_data {H D}.

Definition find_node {H D} (name : string) (t : list (sysctl_node H D)) :
    option (sysctl_node H D) :=
  List.find (fun n => String.eqb (nd_name n) name) t.

(** A handler that checks a range before storing: the common body of the
    integer knobs.  [get]/[put] stand for the variable behind
    [rnode->sysctl_data]. *)
Section ranged.
Context `{SC : Sysctl} {S : Type} (get : S -> Z) (put : Z -> S -> S).

Definition ranged_handler (lo hi : Z) (rq : sysctl_req) (s : S) : sysctl_res Z S :=
  let v0 := get s in
  let '(error, val) := sysctl_lookup rq v0 in
  match rq_newp rq with
  | None => mk_res error v0 s
  | Some _ =>
      if negb (error =? 0) then mk_res error v0 s
      else if (val <? lo) || (hi <? val) then mk_res EINVAL v0 s
      else mk_res 0 v0 (put val s)
  end.

(** Whatever the lookup does, the stored value is the old one or in range. *)
Lemma ranged_handler_post lo hi rq s :
  res_post (ranged_handler lo hi rq s) = s \/
  exists v, lo <= v <= hi /\ res_post (ranged_handler lo hi rq s) = put v s.
Proof.
  unfold ranged_handler. destruct (sysctl_lookup rq (get s)) as [e v].
  destruct (rq_newp rq); [|by left].
  destruct (e =? 0); simpl; [|by left].
  destruct (Z.ltb_spec v lo), (Z.ltb_spec hi v); simpl; auto.
  right. exists v. split; [lia|done].
Qed.

Lemma ranged_handler_write `{!SysctlOk SC} lo hi x s :
  ranged_handler lo hi (mk_req true (Some x)) s =
  if (x <? lo) || (hi <? x) then mk_res EINVAL (get s) s
  else mk_res 0 (get s) (put x s).
Proof.
  unfold ranged_handler.
  pose proof (lookup_root_write x (get s)) as He.
  pose proof (lookup_write true x (get s) He) as Hv.
  destruct (sysctl_lookup _ _) as [e v]; simpl in *; subst. done.
Qed.

Lemma ranged_handler_read `{!SysctlOk SC} lo hi rw s :
  ranged_handler lo hi (mk_req rw None) s = mk_res 0 (get s) s.
Proof. unfold ranged_handler. by rewrite lookup_read. Qed.

End ranged.
