(* ===== verification/Lwp.v ===== *)
(** * LWPs and the constants of the machine

    The part of [struct lwp] (kernel/sys/lwp.h) the scheduler hooks use, with
    [lwp_eprio] (kern_lwp.c), and the machine constants that come from headers
    outside this repository, as the fields of a class. *)

From stdpp Require Import base numbers list gmap.
From S2P Require Import Prelude.

(** Constants of <sys/param.h> and variables of <sys/kernel.h>. *)
Class Machine := {
  MAXPRI_USER : Z;      (* highest timeshare priority *)
  hz : Z;               (* ticks per second *)
  mstohz : Z -> Z       (* milliseconds to ticks *)
}.

Class MachineOk (M : Machine) : Prop := {
  maxpri_user_nonneg : 0 <= MAXPRI_USER;
  hz_pos : 0 < hz;
  mstohz_nonneg : forall ms, 0 <= ms -> 0 <= mstohz ms
}.

(** A NetBSD/amd64 machine at hz = 100. *)
#[export] Instance netbsd_amd64 : Machine := {
  MAXPRI_USER := 63;
  hz := 100;
  mstohz := fun ms => u32 (ms * 100) / 1000
}.

#[export] Instance netbsd_amd64_ok : MachineOk netbsd_amd64.
Proof.
  split; simpl; try lia. intros ms _.
  apply Z.div_pos; [|lia]. apply u32_range.
Qed.

Inductive sched_class := SCHED_NONE | SCHED_OTHER | SCHED_FIFO | SCHED_RR.

#[export] Instance sched_class_eq_dec : EqDecision sched_class.
Proof. solve_decision. Defined.

(** [l_stat] values. *)
Definition LSIDL : Z := 1.
Definition LSRUN : Z := 2.
Definition LSSLEEP : Z := 3.
Definition LSSTOP : Z := 4.
Definition LSSUSPENDED : Z := 8.

(** [l_flag] and [l_pflag] bits. *)
Definition LW_IDLE : Z := 0x1.
Definition LW_SYSTEM : Z := 0x200.
Definition LW_BATCH : Z := 0x40000.
Definition LP_INTR : Z := 0x40.
Definition LP_PREEMPTING : Z := 0x20000.
Definition LP_TELEPORT : Z := 0x40000000.
Definition LP_BOUND : Z := 0x80000000.

Definition DOPREEMPT_ACTIVE : Z := 0x1.

(** CPUs and LWPs are named by their index. *)
Abbreviation cpuid := nat (only parsing).
Abbreviation lwpid := nat (only parsing).

Record lwp := mk_lwp {
  l_cpu : nat;
  l_stat : Z;
  l_flag : Z;
  l_pflag : Z;
  l_rticks : Z;
  l_rticksum : Z;
  l_slpticksum : Z;
  l_class : sched_class;
  l_boostpri : Z;
  l_priority : Z;
  l_auxprio : Z;
  l_psid : Z;
  l_estcpu : Z;
  l_target_cpu : option nat;
  l_affinity : option (gset nat);
  l_slptime : Z;
  l_vforkwaiting : bool;
  l_pid : Z;
  l_proc0 : bool;
  l_dopreempt : Z;
  l_lp_runnable : Z;
  l_lp_oncpu : Z;
  l_lp_burst_us : Z;
  l_lp_wait_us : Z
}.

Definition set_l_cpu (v : nat) (r : lwp) : lwp :=
  mk_lwp v (l_stat r) (l_flag r) (l_pflag r) (l_rticks r) (l_rticksum r)
    (l_slpticksum r) (l_class r) (l_boostpri r) (l_priority r) (l_auxprio r)
    (l_psid r) (l_estcpu r) (l_target_cpu r) (l_affinity r) (l_slptime r)
    (l_vforkwaiting r) (l_pid r) (l_proc0 r) (l_dopreempt r) (l_lp_runnable r)
    (l_lp_oncpu r) (l_lp_burst_us r) (l_lp_wait_us r).
Definition set_l_stat (v : Z) (r : lwp) : lwp :=
  mk_lwp (l_cpu r) v (l_flag r) (l_pflag r) (l_rticks r) (l_rticksum r)
    (l_slpticksum r) (l_class r) (l_boostpri r) (l_priority r) (l_auxprio r)
    (l_psid r) (l_estcpu r) (l_target_cpu r) (l_affinity r) (l_slptime r)
    (l_vforkwaiting r) (l_pid r) (l_proc0 r) (l_dopreempt r) (l_lp_runnable r)
    (l_lp_oncpu r) (l_lp_burst_us r) (l_lp_wait_us r).
Definition set_l_flag (v : Z) (r : lwp) : lwp :=
  mk_lwp (l_cpu r) (l_stat r) v (l_pflag r) (l_rticks r) (l_rticksum r)
    (l_slpticksum r) (l_class r) (l_boostpri r) (l_priority r) (l_auxprio r)
    (l_psid r) (l_estcpu r) (l_target_cpu r) (l_affinity r) (l_slptime r)
    (l_vforkwaiting r) (l_pid r) (l_proc0 r) (l_dopreempt r) (l_lp_runnable r)
    (l_lp_oncpu r) (l_lp_burst_us r) (l_lp_wait_us r).
Definition set_l_pflag (v : Z) (r : lwp) : lwp :=
  mk_lwp (l_cpu r) (l_stat r) (l_flag r) v (l_rticks r) (l_rticksum r)
    (l_slpticksum r) (l_class r) (l_boostpri r) (l_priority r) (l_auxprio r)
    (l_psid r) (l_estcpu r) (l_target_cpu r) (l_affinity r) (l_slptime r)
    (l_vforkwaiting r) (l_pid r) (l_proc0 r) (l_dopreempt r) (l_lp_runnable r)
    (l_lp_oncpu r) (l_lp_burst_us r) (l_lp_wait_us r).
Definition set_l_rticks (v : Z) (r : lwp) : lwp :=
  mk_lwp (l_cpu r) (l_stat r) (l_flag r) (l_pflag r) v (l_rticksum r)
    (l_slpticksum r) (l_class r) (l_boostpri r) (l_priority r) (l_auxprio r)
    (l_psid r) (l_estcpu r) (l_target_cpu r) (l_affinity r) (l_slptime r)
    (l_vforkwaiting r) (l_pid r) (l_proc0 r) (l_dopreempt r) (l_lp_runnable r)
    (l_lp_oncpu r) (l_lp_burst_us r) (l_lp_wait_us r).
Definition set_l_rticksum (v : Z) (r : lwp) : lwp :=
  mk_lwp (l_cpu r) (l_stat r) (l_flag r) (l_pflag r) (l_rticks r) v
    (l_slpticksum r) (l_class r) (l_boostpri r) (l_priority r) (l_auxprio r)
    (l_psid r) (l_estcpu r) (l_target_cpu r) (l_affinity r) (l_slptime r)
    (l_vforkwaiting r) (l_pid r) (l_proc0 r) (l_dopreempt r) (l_lp_runnable r)
    (l_lp_oncpu r) (l_lp_burst_us r) (l_lp_wait_us r).
Definition set_l_slpticksum (v : Z) (r : lwp) : lwp :=
  mk_lwp (l_cpu r) (l_stat r) (l_flag r) (l_pflag r) (l_rticks r) (l_rticksum
    r) v (l_class r) (l_boostpri r) (l_priority r) (l_auxprio r) (l_psid r)
    (l_estcpu r) (l_target_cpu r) (l_affinity r) (l_slptime r) (l_vforkwaiting
    r) (l_pid r) (l_proc0 r) (l_dopreempt r) (l_lp_runnable r) (l_lp_oncpu r)
    (l_lp_burst_us r) (l_lp_wait_us r).
Definition set_l_target_cpu (v : option nat) (r : lwp) : lwp :=
  mk_lwp (l_cpu r) (l_stat r) (l_flag r) (l_pflag r) (l_rticks r) (l_rticksum
    r) (l_slpticksum r) (l_class r) (l_boostpri r) (l_priority r) (l_auxprio
    r) (l_psid r) (l_estcpu r) v (l_affinity r) (l_slptime r) (l_vforkwaiting
    r) (l_pid r) (l_proc0 r) (l_dopreempt r) (l_lp_runnable r) (l_lp_oncpu r)
    (l_lp_burst_us r) (l_lp_wait_us r).
Definition set_l_slptime (v : Z) (r : lwp) : lwp :=
  mk_lwp (l_cpu r) (l_stat r) (l_flag r) (l_pflag r) (l_rticks r) (l_rticksum
    r) (l_slpticksum r) (l_class r) (l_boostpri r) (l_priority r) (l_auxprio
    r) (l_psid r) (l_estcpu r) (l_target_cpu r) (l_affinity r) v
    (l_vforkwaiting r) (l_pid r) (l_proc0 r) (l_dopreempt r) (l_lp_runnable r)
    (l_lp_oncpu r) (l_lp_burst_us r) (l_lp_wait_us r).
Definition set_l_dopreempt (v : Z) (r : lwp) : lwp :=
  mk_lwp (l_cpu r) (l_stat r) (l_flag r) (l_pflag r) (l_rticks r) (l_rticksum
    r) (l_slpticksum r) (l_class r) (l_boostpri r) (l_priority r) (l_auxprio
    r) (l_psid r) (l_estcpu r) (l_target_cpu r) (l_affinity r) (l_slptime r)
    (l_vforkwaiting r) (l_pid r) (l_proc0 r) v (l_lp_runnable r) (l_lp_oncpu
    r) (l_lp_burst_us r) (l_lp_wait_us r).
Definition set_l_lp_runnable (v : Z) (r : lwp) : lwp :=
  mk_lwp (l_cpu r) (l_stat r) (l_flag r) (l_pflag r) (l_rticks r) (l_rticksum
    r) (l_slpticksum r) (l_class r) (l_boostpri r) (l_priority r) (l_auxprio
    r) (l_psid r) (l_estcpu r) (l_target_cpu r) (l_affinity r) (l_slptime r)
    (l_vforkwaiting r) (l_pid r) (l_proc0 r) (l_dopreempt r) v (l_lp_oncpu r)
    (l_lp_burst_us r) (l_lp_wait_us r).
Definition set_l_lp_oncpu (v : Z) (r : lwp) : lwp :=
  mk_lwp (l_cpu r) (l_stat r) (l_flag r) (l_pflag r) (l_rticks r) (l_rticksum
    r) (l_slpticksum r) (l_class r) (l_boostpri r) (l_priority r) (l_auxprio
    r) (l_psid r) (l_estcpu r) (l_target_cpu r) (l_affinity r) (l_slptime r)
    (l_vforkwaiting r) (l_pid r) (l_proc0 r) (l_dopreempt r) (l_lp_runnable r)
    v (l_lp_burst_us r) (l_lp_wait_us r).
Definition set_l_lp_burst_us (v : Z) (r : lwp) : lwp :=
  mk_lwp (l_cpu r) (l_stat r) (l_flag r) (l_pflag r) (l_rticks r) (l_rticksum
    r) (l_slpticksum r) (l_class r) (l_boostpri r) (l_priority r) (l_auxprio
    r) (l_psid r) (l_estcpu r) (l_target_cpu r) (l_affinity r) (l_slptime r)
    (l_vforkwaiting r) (l_pid r) (l_proc0 r) (l_dopreempt r) (l_lp_runnable r)
    (l_lp_oncpu r) v (l_lp_wait_us r).
Definition set_l_lp_wait_us (v : Z) (r : lwp) : lwp :=
  mk_lwp (l_cpu r) (l_stat r) (l_flag r) (l_pflag r) (l_rticks r) (l_rticksum
    r) (l_slpticksum r) (l_class r) (l_boostpri r) (l_priority r) (l_auxprio
    r) (l_psid r) (l_estcpu r) (l_target_cpu r) (l_affinity r) (l_slptime r)
    (l_vforkwaiting r) (l_pid r) (l_proc0 r) (l_dopreempt r) (l_lp_runnable r)
    (l_lp_oncpu r) (l_lp_burst_us r) v.

#[export] Instance lwp_inhabited : Inhabited lwp :=
  populate (mk_lwp 0 LSRUN 0 0 0 0 0 SCHED_OTHER 0 0 0 0 0 None None 0 false 0
    false 0 0 0 0 0).

(** The heap of LWPs: two pointers to one LWP see each other's updates. *)
Abbreviation lwps := (gmap nat lwp) (only parsing).

Section eprio.
Context `{M : Machine}.

(** lwp_eprio(): the boost for blocking in the kernel, then the inherited or
    protected priority. *)
Definition lwp_eprio (l : lwp) : Z :=
  let pri := l_priority l in
  let pri := if (pri <=? MAXPRI_USER) && (MAXPRI_USER <? l_boostpri l)
             then Z.shiftr pri 1 + l_boostpri l else pri in
  Z.max (l_auxprio l) pri.

End eprio.
