(* ===== verification/Lpsched.v ===== *)
(** * lpsched: demand, latency and idle accounting, and its knobs

    kernel/kern/kern_lpsched.c and the inline functions of
    kernel/sys/lpsched.h.  [cpu_counter()], [getticks()], [cpu_frequency()]
    and the index of the running CPU are inputs of the operations that read
    them.  The per-CPU arrays have [MAXCPUS] entries: an index is checked
    against the length of the list. *)

From stdpp Require Import base numbers list gmap strings.
From S2P Require Import Prelude Text Sysctl Lwp.

(** ** Data *)

Definition LPSCHED_IDLE_ACTIVE : Z := 0.
Definition LPSCHED_IDLE_SHALLOW : Z := 1.
Definition LPSCHED_IDLE_DEEP : Z := 2.
Definition LPSCHED_ESTCPU_SHIFT : Z := 11.

(** Counters of [lpsched_cpu.st], in the order of the enum. *)
Inductive lpsched_stat_idx :=
  | LPSCHED_ST_CONSIDERED | LPSCHED_ST_EXEMPT_CLASS | LPSCHED_ST_EXEMPT_FG
  | LPSCHED_ST_EXEMPT_ESTCPU | LPSCHED_ST_PACK_SIBLING
  | LPSCHED_ST_PACK_SHALLOW | LPSCHED_ST_PACK_DEEP | LPSCHED_ST_PACK_BUSY
  | LPSCHED_ST_PACK_NONE | LPSCHED_ST_PACK_HELD | LPSCHED_ST_CATCH_HELD
  | LPSCHED_ST_COAL_APPLIED | LPSCHED_ST_COAL_NOSLACK
  | LPSCHED_ST_COAL_SHORT | LPSCHED_ST_COAL_PRECISE | LPSCHED_ST_PACK_GUARD
  | LPSCHED_ST_PACK_LONGBURST | LPSCHED_ST_CATCH_ESCAPE.

Definition stat_num (i : lpsched_stat_idx) : nat :=
  match i with
  | LPSCHED_ST_CONSIDERED => 0 | LPSCHED_ST_EXEMPT_CLASS => 1
  | LPSCHED_ST_EXEMPT_FG => 2 | LPSCHED_ST_EXEMPT_ESTCPU => 3
  | LPSCHED_ST_PACK_SIBLING => 4 | LPSCHED_ST_PACK_SHALLOW => 5
  | LPSCHED_ST_PACK_DEEP => 6 | LPSCHED_ST_PACK_BUSY => 7
  | LPSCHED_ST_PACK_NONE => 8 | LPSCHED_ST_PACK_HELD => 9
  | LPSCHED_ST_CATCH_HELD => 10 | LPSCHED_ST_COAL_APPLIED => 11
  | LPSCHED_ST_COAL_NOSLACK => 12 | LPSCHED_ST_COAL_SHORT => 13
  | LPSCHED_ST_COAL_PRECISE => 14 | LPSCHED_ST_PACK_GUARD => 15
  | LPSCHED_ST_PACK_LONGBURST => 16 | LPSCHED_ST_CATCH_ESCAPE => 17
  end%nat.
Definition LPSCHED_NSTAT : nat := 18.

(** Accounting classes and histogram buckets. *)
Definition LPSCHED_CL_FG : nat := 0.
Definition LPSCHED_CL_USER : nat := 1.
Definition LPSCHED_CL_KERNEL : nat := 2.
Definition LPSCHED_CL_RT : nat := 3.
Definition LPSCHED_NCLASS : nat := 4.
Definition LPSCHED_NBUCKET : nat := 16.

Record lpsched_cpu := mk_lpsched_cpu {
  depth : Z;
  critical : Z;
  cur_burst_us : Z;
  q_since : Z;
  st : list Z;
  lat : list (list Z);
  wait_us : list Z;
  run_us : list Z;
  wait_max_us : list Z
}.

Definition set_depth (v : Z) (r : lpsched_cpu) : lpsched_cpu :=
  mk_lpsched_cpu v (critical r) (cur_burst_us r) (q_since r) (st r) (lat r)
    (wait_us r) (run_us r) (wait_max_us r).
Definition set_critical (v : Z) (r : lpsched_cpu) : lpsched_cpu :=
  mk_lpsched_cpu (depth r) v (cur_burst_us r) (q_since r) (st r) (lat r)
    (wait_us r) (run_us r) (wait_max_us r).
Definition set_cur_burst_us (v : Z) (r : lpsched_cpu) : lpsched_cpu :=
  mk_lpsched_cpu (depth r) (critical r) v (q_since r) (st r) (lat r) (wait_us
    r) (run_us r) (wait_max_us r).
Definition set_q_since (v : Z) (r : lpsched_cpu) : lpsched_cpu :=
  mk_lpsched_cpu (depth r) (critical r) (cur_burst_us r) v (st r) (lat r)
    (wait_us r) (run_us r) (wait_max_us r).
Definition set_st (v : list Z) (r : lpsched_cpu) : lpsched_cpu :=
  mk_lpsched_cpu (depth r) (critical r) (cur_burst_us r) (q_since r) v (lat r)
    (wait_us r) (run_us r) (wait_max_us r).
Definition set_lat (v : list (list Z)) (r : lpsched_cpu) : lpsched_cpu :=
  mk_lpsched_cpu (depth r) (critical r) (cur_burst_us r) (q_since r) (st r) v
    (wait_us r) (run_us r) (wait_max_us r).
Definition set_wait_us (v : list Z) (r : lpsched_cpu) : lpsched_cpu :=
  mk_lpsched_cpu (depth r) (critical r) (cur_burst_us r) (q_since r) (st r)
    (lat r) v (run_us r) (wait_max_us r).
Definition set_run_us (v : list Z) (r : lpsched_cpu) : lpsched_cpu :=
  mk_lpsched_cpu (depth r) (critical r) (cur_burst_us r) (q_since r) (st r)
    (lat r) (wait_us r) v (wait_max_us r).
Definition set_wait_max_us (v : list Z) (r : lpsched_cpu) : lpsched_cpu :=
  mk_lpsched_cpu (depth r) (critical r) (cur_burst_us r) (q_since r) (st r)
    (lat r) (wait_us r) (run_us r) v.

Record lpsched_idle := mk_lpsched_idle {
  gen : Z;
  since : Z;
  cc : Z
}.

Definition set_gen (v : Z) (r : lpsched_idle) : lpsched_idle :=
  mk_lpsched_idle v (since r) (cc r).
Definition set_since (v : Z) (r : lpsched_idle) : lpsched_idle :=
  mk_lpsched_idle (gen r) v (cc r).
Definition set_cc (v : Z) (r : lpsched_idle) : lpsched_idle :=
  mk_lpsched_idle (gen r) (since r) v.

Record lpsched := mk_lpsched {
  lpsched_enabled : Z;
  lpsched_pack : Z;
  lpsched_coalesce_ms : Z;
  lpsched_fgpid : Z;
  lpsched_estcpu_thresh : Z;
  lpsched_last_input : Z;
  lpsched_stats_enabled : Z;
  lpsched_latency : Z;
  lpsched_wait_budget_us : Z;
  lpsched_idle_acct : Z;
  lpsched_idle_hooked : Z;
  lpsched_tsc_mhz : Z;
  lp_cpu : list lpsched_cpu;
  lp_idle : list lpsched_idle
}.

Definition set_lpsched_enabled (v : Z) (r : lpsched) : lpsched :=
  mk_lpsched v (lpsched_pack r) (lpsched_coalesce_ms r) (lpsched_fgpid r)
    (lpsched_estcpu_thresh r) (lpsched_last_input r) (lpsched_stats_enabled r)
    (lpsched_latency r) (lpsched_wait_budget_us r) (lpsched_idle_acct r)
    (lpsched_idle_hooked r) (lpsched_tsc_mhz r) (lp_cpu r) (lp_idle r).
Definition set_lpsched_pack (v : Z) (r : lpsched) : lpsched :=
  mk_lpsched (lpsched_enabled r) v (lpsched_coalesce_ms r) (lpsched_fgpid r)
    (lpsched_estcpu_thresh r) (lpsched_last_input r) (lpsched_stats_enabled r)
    (lpsched_latency r) (lpsched_wait_budget_us r) (lpsched_idle_acct r)
    (lpsched_idle_hooked r) (lpsched_tsc_mhz r) (lp_cpu r) (lp_idle r).
Definition set_lpsched_coalesce_ms (v : Z) (r : lpsched) : lpsched :=
  mk_lpsched (lpsched_enabled r) (lpsched_pack r) v (lpsched_fgpid r)
    (lpsched_estcpu_thresh r) (lpsched_last_input r) (lpsched_stats_enabled r)
    (lpsched_latency r) (lpsched_wait_budget_us r) (lpsched_idle_acct r)
    (lpsched_idle_hooked r) (lpsched_tsc_mhz r) (lp_cpu r) (lp_idle r).
Definition set_lpsched_fgpid (v : Z) (r : lpsched) : lpsched :=
  mk_lpsched (lpsched_enabled r) (lpsched_pack r) (lpsched_coalesce_ms r) v
    (lpsched_estcpu_thresh r) (lpsched_last_input r) (lpsched_stats_enabled r)
    (lpsched_latency r) (lpsched_wait_budget_us r) (lpsched_idle_acct r)
    (lpsched_idle_hooked r) (lpsched_tsc_mhz r) (lp_cpu r) (lp_idle r).
Definition set_lpsched_estcpu_thresh (v : Z) (r : lpsched) : lpsched :=
  mk_lpsched (lpsched_enabled r) (lpsched_pack r) (lpsched_coalesce_ms r)
    (lpsched_fgpid r) v (lpsched_last_input r) (lpsched_stats_enabled r)
    (lpsched_latency r) (lpsched_wait_budget_us r) (lpsched_idle_acct r)
    (lpsched_idle_hooked r) (lpsched_tsc_mhz r) (lp_cpu r) (lp_idle r).
Definition set_lpsched_last_input (v : Z) (r : lpsched) : lpsched :=
  mk_lpsched (lpsched_enabled r) (lpsched_pack r) (lpsched_coalesce_ms r)
    (lpsched_fgpid r) (lpsched_estcpu_thresh r) v (lpsched_stats_enabled r)
    (lpsched_latency r) (lpsched_wait_budget_us r) (lpsched_idle_acct r)
    (lpsched_idle_hooked r) (lpsched_tsc_mhz r) (lp_cpu r) (lp_idle r).
Definition set_lpsched_stats_enabled (v : Z) (r : lpsched) : lpsched :=
  mk_lpsched (lpsched_enabled r) (lpsched_pack r) (lpsched_coalesce_ms r)
    (lpsched_fgpid r) (lpsched_estcpu_thresh r) (lpsched_last_input r) v
    (lpsched_latency r) (lpsched_wait_budget_us r) (lpsched_idle_acct r)
    (lpsched_idle_hooked r) (lpsched_tsc_mhz r) (lp_cpu r) (lp_idle r).
Definition set_lpsched_latency (v : Z) (r : lpsched) : lpsched :=
  mk_lpsched (lpsched_enabled r) (lpsched_pack r) (lpsched_coalesce_ms r)
    (lpsched_fgpid r) (lpsched_estcpu_thresh r) (lpsched_last_input r)
    (lpsched_stats_enabled r) v (lpsched_wait_budget_us r) (lpsched_idle_acct
    r) (lpsched_idle_hooked r) (lpsched_tsc_mhz r) (lp_cpu r) (lp_idle r).
Definition set_lpsched_wait_budget_us (v : Z) (r : lpsched) : lpsched :=
  mk_lpsched (lpsched_enabled r) (lpsched_pack r) (lpsched_coalesce_ms r)
    (lpsched_fgpid r) (lpsched_estcpu_thresh r) (lpsched_last_input r)
    (lpsched_stats_enabled r) (lpsched_latency r) v (lpsched_idle_acct r)
    (lpsched_idle_hooked r) (lpsched_tsc_mhz r) (lp_cpu r) (lp_idle r).
Definition set_lpsched_idle_acct (v : Z) (r : lpsched) : lpsched :=
  mk_lpsched (lpsched_enabled r) (lpsched_pack r) (lpsched_coalesce_ms r)
    (lpsched_fgpid r) (lpsched_estcpu_thresh r) (lpsched_last_input r)
    (lpsched_stats_enabled r) (lpsched_latency r) (lpsched_wait_budget_us r) v
    (lpsched_idle_hooked r) (lpsched_tsc_mhz r) (lp_cpu r) (lp_idle r).
Definition set_lpsched_idle_hooked (v : Z) (r : lpsched) : lpsched :=
  mk_lpsched (lpsched_enabled r) (lpsched_pack r) (lpsched_coalesce_ms r)
    (lpsched_fgpid r) (lpsched_estcpu_thresh r) (lpsched_last_input r)
    (lpsched_stats_enabled r) (lpsched_latency r) (lpsched_wait_budget_us r)
    (lpsched_idle_acct r) v (lpsched_tsc_mhz r) (lp_cpu r) (lp_idle r).
Definition set_lpsched_tsc_mhz (v : Z) (r : lpsched) : lpsched :=
  mk_lpsched (lpsched_enabled r) (lpsched_pack r) (lpsched_coalesce_ms r)
    (lpsched_fgpid r) (lpsched_estcpu_thresh r) (lpsched_last_input r)
    (lpsched_stats_enabled r) (lpsched_latency r) (lpsched_wait_budget_us r)
    (lpsched_idle_acct r) (lpsched_idle_hooked r) v (lp_cpu r) (lp_idle r).
Definition set_lp_cpu (v : list lpsched_cpu) (r : lpsched) : lpsched :=
  mk_lpsched (lpsched_enabled r) (lpsched_pack r) (lpsched_coalesce_ms r)
    (lpsched_fgpid r) (lpsched_estcpu_thresh r) (lpsched_last_input r)
    (lpsched_stats_enabled r) (lpsched_latency r) (lpsched_wait_budget_us r)
    (lpsched_idle_acct r) (lpsched_idle_hooked r) (lpsched_tsc_mhz r) v
    (lp_idle r).
Definition set_lp_idle (v : list lpsched_idle) (r : lpsched) : lpsched :=
  mk_lpsched (lpsched_enabled r) (lpsched_pack r) (lpsched_coalesce_ms r)
    (lpsched_fgpid r) (lpsched_estcpu_thresh r) (lpsched_last_input r)
    (lpsched_stats_enabled r) (lpsched_latency r) (lpsched_wait_budget_us r)
    (lpsched_idle_acct r) (lpsched_idle_hooked r) (lpsched_tsc_mhz r) (lp_cpu
    r) v.

Definition zero_cpu : lpsched_cpu :=
  mk_lpsched_cpu 0 0 0 0 (replicate LPSCHED_NSTAT 0)
    (replicate LPSCHED_NCLASS (replicate LPSCHED_NBUCKET 0))
    (replicate LPSCHED_NCLASS 0) (replicate LPSCHED_NCLASS 0)
    (replicate LPSCHED_NCLASS 0).
Definition zero_idle : lpsched_idle := mk_lpsched_idle 0 0 0.

#[export] Instance lpsched_cpu_inhabited : Inhabited lpsched_cpu := populate zero_cpu.
#[export] Instance lpsched_idle_inhabited : Inhabited lpsched_idle := populate zero_idle.

(** The variables' initial values, with [maxcpus] array entries. *)
Definition lpsched_boot (maxcpus : nat) : lpsched :=
  mk_lpsched 0 0 0 0 0 0 1 1 2000 1 0 0
    (replicate maxcpus zero_cpu) (replicate maxcpus zero_idle).

(** In-place update of one CPU's record. *)
Definition on_cpu (i : nat) (f : lpsched_cpu -> lpsched_cpu) (s : lpsched) : lpsched :=
  set_lp_cpu (alter f i (lp_cpu s)) s.
Definition on_idle (i : nat) (f : lpsched_idle -> lpsched_idle) (s : lpsched) : lpsched :=
  set_lp_idle (alter f i (lp_idle s)) s.
Definition add64 (d x : Z) : Z := u64 (x + d).

(** fls64(3): one more than the index of the highest set bit, 0 for 0. *)
Definition fls64 (x : Z) : Z := if x =? 0 then 0 else Z.log2 x + 1.

(** ** lpsched.h *)

Definition lpsched_accounting (s : lpsched) : bool :=
  nz (lpsched_enabled s) && nz (lpsched_latency s).

Definition lpsched_stat_bump (self : nat) (idx : nat) (s : lpsched) : lpsched :=
  if (LPSCHED_NSTAT <=? idx)%nat then s
  else if (self <? length (lp_cpu s))%nat
  then on_cpu self (fun pc => set_st (alter (add64 1) idx (st pc)) pc) s
  else s.

Definition lpsched_stat (self : nat) (idx : lpsched_stat_idx) (s : lpsched) : lpsched :=
  if nz (lpsched_stats_enabled s) then lpsched_stat_bump self (stat_num idx) s
  else s.

Definition lpsched_packing (s : lpsched) : bool :=
  nz (lpsched_enabled s) && (0 <? lpsched_pack s).

Definition lpsched_input_activity (ticks : Z) (s : lpsched) : lpsched :=
  set_lpsched_last_input ticks s.

(** Closing an idle interval at [now], and opening one; [gen] is odd between
    the two increments, which the writer of one CPU never interrupts. *)
Definition idle_close (now : Z) (li : lpsched_idle) : lpsched_idle :=
  let li := set_gen (u32 (gen li + 1)) li in
  let li := if since li <? now then set_cc (u64 (cc li + (now - since li))) li else li in
  let li := set_since 0 li in
  set_gen (u32 (gen li + 1)) li.

Definition idle_open (now : Z) (li : lpsched_idle) : lpsched_idle :=
  let li := set_gen (u32 (gen li + 1)) li in
  let li := set_since (Z.lor now 1) li in
  set_gen (u32 (gen li + 1)) li.

Definition lpsched_set_idle_depth (now : Z) (cpuidx : nat) (d : Z) (s : lpsched) :
    lpsched :=
  let s := if nz (lpsched_enabled s) && (cpuidx <? length (lp_cpu s))%nat
           then on_cpu cpuidx (set_depth d) s else s in
  if (cpuidx <? length (lp_idle s))%nat then
    let li := lp_idle s !!! cpuidx in
    if d =? LPSCHED_IDLE_ACTIVE then
      if nz (since li) then on_idle cpuidx (idle_close now) s else s
    else if nz (lpsched_idle_acct s) && (since li =? 0)
    then on_idle cpuidx (idle_open now) s
    else s
  else s.

Definition lpsched_idle_depth (s : lpsched) (cpuidx : nat) : Z :=
  if (cpuidx <? length (lp_cpu s))%nat then depth (lp_cpu s !!! cpuidx)
  else LPSCHED_IDLE_ACTIVE.

(** ** kern_lpsched.c: demand and latency accounting *)

Definition lpsched_tsc_init (freq : Z) (s : lpsched) : lpsched :=
  if lpsched_tsc_mhz s =? 0
  then set_lpsched_tsc_mhz (Z.max 1 (freq / 1000000)) s else s.

Definition lpsched_us (freq : Z) (s : lpsched) (from to : Z) : Z * lpsched :=
  let s := lpsched_tsc_init freq s in
  (if from <? to then (to - from) / lpsched_tsc_mhz s else 0, s).

Definition lpsched_class (s : lpsched) (l : lwp) : nat :=
  if negb (bool_decide (l_class l = SCHED_OTHER)) then LPSCHED_CL_RT
  else if has_flag (l_flag l) LW_SYSTEM || l_proc0 l then LPSCHED_CL_KERNEL
  else if nz (lpsched_fgpid s) && (l_pid l =? lpsched_fgpid s) then LPSCHED_CL_FG
  else LPSCHED_CL_USER.

Definition lpsched_ewma (avg sample : Z) : Z :=
  let sample := if UINT32_MAX <? sample then UINT32_MAX else sample in
  if avg =? 0 then sample else u32 (avg - avg / 4 + sample / 4).

Definition lpsched_enqueued (now : Z) (l : nat) (ci : nat) (was_empty : bool)
    (hs : gmap nat lwp * lpsched) : gmap nat lwp * lpsched :=
  let '(h, s) := hs in
  let h := if l_lp_runnable (h !!! l) =? 0
           then alter (set_l_lp_runnable now) l h else h in
  (h, if was_empty && (ci <? length (lp_cpu s))%nat
      then on_cpu ci (set_q_since now) s else s).

Definition lpsched_dequeued (ci : nat) (now_empty : bool) (s : lpsched) : lpsched :=
  if now_empty && (ci <? length (lp_cpu s))%nat
  then on_cpu ci (set_q_since 0) s else s.

(** The histogram bucket of a wait of [us] microseconds. *)
Definition lpsched_bucket (us : Z) : nat :=
  let b := if Z.shiftr us 3 =? 0 then 0 else fls64 (Z.shiftr us 3) in
  Z.to_nat (Z.min b (Z.of_nat LPSCHED_NBUCKET - 1)).

(** The end of [prev]'s burst. *)
Definition lpsched_switch_prev (freq now : Z) (self prev : nat)
    (hs : gmap nat lwp * lpsched) : gmap nat lwp * lpsched :=
  let '(h, s) := hs in
  let l := h !!! prev in
  if negb (has_flag (l_flag l) LW_IDLE) && nz (l_lp_oncpu l) then
    let '(us, s) := lpsched_us freq s (l_lp_oncpu l) now in
    let h := alter (set_l_lp_burst_us (lpsched_ewma (l_lp_burst_us l) us)) prev h in
    let s := on_cpu self (fun pc =>
      set_run_us (alter (add64 us) (lpsched_class s l) (run_us pc)) pc) s in
    (alter (set_l_lp_oncpu 0) prev h, s)
  else (h, s).

(** The end of [next]'s wait, if one was running. *)
Definition lpsched_switch_wait (freq now : Z) (self next cl : nat)
    (hs : gmap nat lwp * lpsched) : gmap nat lwp * lpsched :=
  let '(h, s) := hs in
  let l := h !!! next in
  if nz (l_lp_runnable l) then
    let '(us, s) := lpsched_us freq s (l_lp_runnable l) now in
    let '(h, s) :=
      if us <? 60 * 1000000 then
        (alter (set_l_lp_wait_us (lpsched_ewma (l_lp_wait_us l) us)) next h,
         on_cpu self (fun pc =>
           let pc := set_lat (alter (alter (add64 1) (lpsched_bucket us)) cl
                       (lat pc)) pc in
           let pc := set_wait_us (alter (add64 us) cl (wait_us pc)) pc in
           if wait_max_us pc !!! cl <? us
           then set_wait_max_us (<[cl := u32 us]> (wait_max_us pc)) pc else pc) s)
      else (h, s) in
    (alter (set_l_lp_runnable 0) next h, s)
  else (h, s).

Definition lpsched_switch (freq now : Z) (self : nat) (prev next : option nat)
    (hs : gmap nat lwp * lpsched) : gmap nat lwp * lpsched :=
  if negb (self <? length (lp_cpu hs.2))%nat then hs else
  let hs := match prev with
            | Some p => lpsched_switch_prev freq now self p hs
            | None => hs
            end in
  match next with
  | None =>
      (hs.1, on_cpu self (fun pc => set_cur_burst_us 0 (set_critical 0 pc)) hs.2)
  | Some n =>
      let cl := lpsched_class hs.2 (hs.1 !!! n) in
      let '(h, s) := lpsched_switch_wait freq now self n cl hs in
      let h := alter (set_l_lp_oncpu now) n h in
      (h, on_cpu self (fun pc =>
        set_cur_burst_us (l_lp_burst_us (h !!! n))
          (set_critical (if ((cl =? LPSCHED_CL_FG) || (cl =? LPSCHED_CL_RT))%nat
                         then 1 else 0) pc)) s)
  end.

Definition lpsched_queue_overdue (freq now : Z) (ci : nat) (s : lpsched) :
    bool * lpsched :=
  if negb (ci <? length (lp_cpu s))%nat then (false, s) else
  let since := q_since (lp_cpu s !!! ci) in
  if since =? 0 then (false, s) else
  let '(us, s) := lpsched_us freq s since now in
  (u64 (lpsched_wait_budget_us s) <? us, s).

#[global] Arguments lpsched_us : simpl never.
#[global] Arguments lpsched_switch_prev : simpl never.
#[global] Arguments lpsched_switch_wait : simpl never.
#[global] Arguments lpsched_switch : simpl never.
#[global] Arguments on_cpu : simpl never.
#[global] Arguments on_idle : simpl never.

(** ** kern_lpsched.c: sysctl machdep.lpsched *)

(** The variables the integer nodes point at. *)
Inductive lp_knob := K_enabled | K_pack | K_coalesce_ms | K_fgpid
  | K_estcpu_thresh | K_stats_enabled | K_latency | K_wait_budget_us
  | K_idle_acct.

#[export] Instance lp_knob_eq_dec : EqDecision lp_knob.
Proof. solve_decision. Defined.

Definition knob_get (k : lp_knob) (s : lpsched) : Z :=
  match k with
  | K_enabled => lpsched_enabled s | K_pack => lpsched_pack s
  | K_coalesce_ms => lpsched_coalesce_ms s | K_fgpid => lpsched_fgpid s
  | K_estcpu_thresh => lpsched_estcpu_thresh s
  | K_stats_enabled => lpsched_stats_enabled s
  | K_latency => lpsched_latency s
  | K_wait_budget_us => lpsched_wait_budget_us s
  | K_idle_acct => lpsched_idle_acct s
  end.

Definition knob_set (k : lp_knob) (v : Z) (s : lpsched) : lpsched :=
  match k with
  | K_enabled => set_lpsched_enabled v s | K_pack => set_lpsched_pack v s
  | K_coalesce_ms => set_lpsched_coalesce_ms v s
  | K_fgpid => set_lpsched_fgpid v s
  | K_estcpu_thresh => set_lpsched_estcpu_thresh v s
  | K_stats_enabled => set_lpsched_stats_enabled v s
  | K_latency => set_lpsched_latency v s
  | K_wait_budget_us => set_lpsched_wait_budget_us v s
  | K_idle_acct => set_lpsched_idle_acct v s
  end.

Section sysctl.
Context `{SC : Sysctl}.

Definition lpsched_sysctl_clamp (k : lp_knob) (lo hi : Z) (rq : sysctl_req)
    (s : lpsched) : sysctl_res Z lpsched :=
  ranged_handler (knob_get k) (knob_set k) lo hi rq s.

Definition lpsched_sysctl_enabled := lpsched_sysctl_clamp K_enabled 0 1.
Definition lpsched_sysctl_pack := lpsched_sysctl_clamp K_pack 0 2.
Definition lpsched_sysctl_coalesce := lpsched_sysctl_clamp K_coalesce_ms 0 200.
Definition lpsched_sysctl_fgpid := lpsched_sysctl_clamp K_fgpid 0 INT_MAX.
Definition lpsched_sysctl_estcpu := lpsched_sysctl_clamp K_estcpu_thresh 0 64.
Definition lpsched_sysctl_latency := lpsched_sysctl_clamp K_latency 0 1.
Definition lpsched_sysctl_budget := lpsched_sysctl_clamp K_wait_budget_us 100 1000000.
Definition lpsched_sysctl_stats_enabled := lpsched_sysctl_clamp K_stats_enabled 0 1.
Definition lpsched_sysctl_idle_acct := lpsched_sysctl_clamp K_idle_acct 0 1.

(** Milliseconds since the last input, the subtraction at [int] width. *)
Definition lpsched_sysctl_idle_ms `{M : Machine} (ticks : Z) (rq : sysctl_req)
    (s : lpsched) : sysctl_res Z lpsched :=
  let idle := i32 (ticks - lpsched_last_input s) in
  let idle := if idle <? 0 then 0 else idle in
  let val := Z.min (idle * 1000 / hz) INT_MAX in
  mk_res (sysctl_lookup rq val).1 val s.

(** machdep.lpsched.stats: the counters summed over the CPUs, as text. *)
Definition lpsched_stat_name : list string :=
  ["considered"; "exempt_class"; "exempt_fg"; "exempt_estcpu"; "pack_sibling";
   "pack_shallow"; "pack_deep"; "pack_busy"; "pack_none"; "pack_held";
   "catch_held"; "coal_applied"; "coal_noslack"; "coal_short"; "coal_precise";
   "pack_guard"; "pack_longburst"; "catch_escape"]%string.

Definition vec_add (a b : list Z) : list Z := zip_with (fun x y => u64 (x + y)) a b.

Definition stats_total (s : lpsched) : list Z :=
  fold_left (fun tot pc => vec_add tot (st pc)) (lp_cpu s) (replicate LPSCHED_NSTAT 0).

Definition STATS_BUF : nat := 768.
Definition LATENCY_BUF : nat := 2048.

Fixpoint stats_print (i : nat) (items : list (string * Z)) (b : sbuf) : option sbuf :=
  match items with
  | [] => Some b
  | (name, v) :: items =>
      if (sb_len b <? STATS_BUF)%nat then
        b ← sbuf_printf STATS_BUF
          ((if (i =? 0)%nat then "" else " ") +:+ name +:+ "=" +:+ dec v) b;
        stats_print (S i) items b
      else Some b
  end.

Definition lpsched_sysctl_stats (rq : sysctl_req) (s : lpsched) :
    option (sysctl_res string lpsched) :=
  b ← stats_print 0 (zip lpsched_stat_name (stats_total s)) sbuf_empty;
  Some (mk_res (sysctl_lookup rq 0).1 (sb_text b) s).

(** machdep.lpsched.latency_hist: one line per class. *)
Definition lpsched_class_name : list string := ["fg"; "user"; "kernel"; "rt"]%string.

Definition class_hist (s : lpsched) (cl : nat) : list Z :=
  fold_left (fun h pc => vec_add h (lat pc !!! cl)) (lp_cpu s)
    (replicate LPSCHED_NBUCKET 0).
Definition class_wait (s : lpsched) (cl : nat) : Z :=
  fold_left (fun a pc => u64 (a + wait_us pc !!! cl)) (lp_cpu s) 0.
Definition class_run (s : lpsched) (cl : nat) : Z :=
  fold_left (fun a pc => u64 (a + run_us pc !!! cl)) (lp_cpu s) 0.
Definition class_max (s : lpsched) (cl : nat) : Z :=
  fold_left (fun a pc => Z.max a (wait_max_us pc !!! cl)) (lp_cpu s) 0.
Definition hist_count (h : list Z) : Z := fold_left (fun n x => u64 (n + x)) h 0.

(** The first bucket at which the running count reaches the percentile, or
    the last one. *)
Fixpoint pct_bucket (n p acc : Z) (b : nat) (h : list Z) : nat :=
  match h with
  | [] => b
  | x :: h =>
      let acc := u64 (acc + x) in
      if nz n && (u64 (n * p) <=? u64 (acc * 100)) then b
      else pct_bucket n p acc (S b) h
  end.

Definition hist_pct (h : list Z) (p : Z) : nat :=
  pct_bucket (hist_count h) p 0 0 (take (LPSCHED_NBUCKET - 1) h).

Definition pct_text (h : list Z) (p : Z) : string :=
  let b := hist_pct h p in
  let last := (b =? LPSCHED_NBUCKET - 1)%nat in
  (if last then " p" +:+ dec p +:+ ">" else " p" +:+ dec p +:+ "<") +:+
  dec (if last then Z.shiftl 8 (Z.of_nat LPSCHED_NBUCKET - 2)
       else Z.shiftl 8 (Z.of_nat b)) +:+ "us".

Fixpoint print_pcts (h : list Z) (ps : list Z) (b : sbuf) : option sbuf :=
  match ps with
  | [] => Some b
  | p :: ps =>
      if nz (hist_count h) && (sb_len b <? LATENCY_BUF)%nat then
        b ← sbuf_printf LATENCY_BUF (pct_text h p) b; print_pcts h ps b
      else Some b
  end.

Fixpoint print_buckets (i : nat) (h : list Z) (b : sbuf) : option sbuf :=
  match h with
  | [] => Some b
  | x :: h =>
      if (sb_len b <? LATENCY_BUF)%nat then
        b ← sbuf_printf LATENCY_BUF ((if (i =? 0)%nat then "" else ",") +:+ dec x) b;
        print_buckets (S i) h b
      else Some b
  end.

Definition newline : string := String (Ascii.ascii_of_nat 10) EmptyString.

Definition print_class (s : lpsched) (cl : nat) (b : sbuf) : option sbuf :=
  let hist := class_hist s cl in
  let n := hist_count hist in
  b ← sbuf_printf LATENCY_BUF
    ((if (cl =? 0)%nat then "" else newline) +:+ (lpsched_class_name !!! cl) +:+
     ": n=" +:+ dec n +:+ " mean=" +:+
     dec (if nz n then class_wait s cl / n else 0) +:+
     "us max=" +:+ dec (class_max s cl) +:+ "us") b;
  b ← print_pcts hist [50; 90; 99] b;
  b ← (if (sb_len b <? LATENCY_BUF)%nat
       then sbuf_printf LATENCY_BUF
              (" run=" +:+ dec (class_run s cl / 1000) +:+ "ms hist=") b
       else Some b);
  print_buckets 0 hist b.

Fixpoint print_classes (s : lpsched) (cls : list nat) (b : sbuf) : option sbuf :=
  match cls with
  | [] => Some b
  | cl :: cls =>
      b ← print_class s cl b;
      if (LATENCY_BUF <=? sb_len b)%nat then Some b else print_classes s cls b
  end.

Definition lpsched_sysctl_latency_hist (rq : sysctl_req) (s : lpsched) :
    option (sysctl_res string lpsched) :=
  b ← print_classes s (seq 0 LPSCHED_NCLASS) sbuf_empty;
  Some (mk_res (sysctl_lookup rq 0).1 (sb_text b) s).

(** Writing anything clears the histograms. *)
Definition clear_latency (pc : lpsched_cpu) : lpsched_cpu :=
  set_wait_max_us (replicate LPSCHED_NCLASS 0)
    (set_run_us (replicate LPSCHED_NCLASS 0)
      (set_wait_us (replicate LPSCHED_NCLASS 0)
        (set_lat (replicate LPSCHED_NCLASS (replicate LPSCHED_NBUCKET 0)) pc))).

Definition lpsched_sysctl_latency_reset (rq : sysctl_req) (s : lpsched) :
    sysctl_res Z lpsched :=
  let '(error, _) := sysctl_lookup rq 0 in
  match rq_newp rq with
  | None => mk_res error 0 s
  | Some _ => if negb (error =? 0) then mk_res error 0 s
              else mk_res 0 0 (set_lp_cpu (map clear_latency (lp_cpu s)) s)
  end.

(** machdep.lpsched.cpu_idle: the time and each CPU's idle time, in us.  A
    reader that finds [gen] odd retries: with no writer to finish the update
    it would not return ([None]). *)
Definition idle_read (li : lpsched_idle) : option (Z * Z) :=
  if Z.odd (gen li) then None else Some (since li, cc li).

Definition idle_total (now : Z) (sc : Z * Z) : Z :=
  let '(since, cc) := sc in
  if nz since && (since <? now) then u64 (cc + (now - since)) else cc.

Inductive cpu_idle_out := OldLen (len : Z) | OldData (buf : list Z).

Definition lpsched_sysctl_cpu_idle (freq now : Z) (ncpu : nat) (oldp_null : bool)
    (rq : sysctl_req) (s : lpsched) : option (sysctl_res cpu_idle_out lpsched) :=
  if negb (nz (lpsched_idle_hooked s) && nz (lpsched_idle_acct s))
  then Some (mk_res EOPNOTSUPP (OldLen 0) s) else
  let s := lpsched_tsc_init freq s in
  let n := (ncpu `min` length (lp_idle s))%nat in
  let len := (1 + Z.of_nat n) * 8 in
  if oldp_null then Some (mk_res 0 (OldLen len) s) else
  scs ← mapM idle_read (take n (lp_idle s));
  Some (mk_res (sysctl_lookup rq 0).1
    (OldData (now / lpsched_tsc_mhz s ::
       map (fun sc => idle_total now sc / lpsched_tsc_mhz s) scs)) s).

(** ** sysctl_lpsched_setup *)

Inductive lp_handler := H_enabled | H_pack | H_coalesce | H_fgpid | H_estcpu
  | H_idle_ms | H_stats_enabled | H_latency | H_budget | H_latency_hist
  | H_latency_reset | H_cpu_idle | H_idle_acct | H_stats.

Definition sysctl_lpsched_setup : list (sysctl_node lp_handler lp_knob) :=
  [mk_node true true CTLTYPE_INT "enabled" (Some H_enabled) (Some K_enabled);
   mk_node true true CTLTYPE_INT "pack" (Some H_pack) (Some K_pack);
   mk_node true true CTLTYPE_INT "coalesce_ms" (Some H_coalesce) (Some K_coalesce_ms);
   mk_node true true CTLTYPE_INT "fgpid" (Some H_fgpid) (Some K_fgpid);
   mk_node true true CTLTYPE_INT "estcpu_thresh" (Some H_estcpu) (Some K_estcpu_thresh);
   mk_node true false CTLTYPE_INT "idle_ms" (Some H_idle_ms) None;
   mk_node true true CTLTYPE_INT "stats_enabled" (Some H_stats_enabled) (Some K_stats_enabled);
   mk_node true true CTLTYPE_INT "latency" (Some H_latency) (Some K_latency);
   mk_node true true CTLTYPE_INT "wait_budget_us" (Some H_budget) (Some K_wait_budget_us);
   mk_node true false CTLTYPE_STRING "latency_hist" (Some H_latency_hist) None;
   mk_node true true CTLTYPE_INT "latency_reset" (Some H_latency_reset) None;
   mk_node true false CTLTYPE_STRUCT "cpu_idle" (Some H_cpu_idle) None;
   mk_node true true CTLTYPE_INT "idle_acct" (Some H_idle_acct) (Some K_idle_acct);
   mk_node true false CTLTYPE_STRING "stats" (Some H_stats) None]%string.

(** The integer nodes' handlers, by the table; the text and struct nodes are
    read only. *)
Definition lpsched_int_handler `{M : Machine} (ticks : Z) (h : lp_handler)
    (rq : sysctl_req) (s : lpsched) : option (sysctl_res Z lpsched) :=
  match h with
  | H_enabled => Some (lpsched_sysctl_enabled rq s)
  | H_pack => Some (lpsched_sysctl_pack rq s)
  | H_coalesce => Some (lpsched_sysctl_coalesce rq s)
  | H_fgpid => Some (lpsched_sysctl_fgpid rq s)
  | H_estcpu => Some (lpsched_sysctl_estcpu rq s)
  | H_idle_ms => Some (lpsched_sysctl_idle_ms ticks rq s)
  | H_stats_enabled => Some (lpsched_sysctl_stats_enabled rq s)
  | H_latency => Some (lpsched_sysctl_latency rq s)
  | H_budget => Some (lpsched_sysctl_budget rq s)
  | H_latency_reset => Some (lpsched_sysctl_latency_reset rq s)
  | H_idle_acct => Some (lpsched_sysctl_idle_acct rq s)
  | H_latency_hist | H_cpu_idle | H_stats => None
  end.

(** sysctlbyname("machdep.lpsched.<name>") on an integer node. *)
Definition lpsched_sysctl `{M : Machine} (ticks : Z) (name : string)
    (newp : option Z) (s : lpsched) : sysctl_res Z lpsched :=
  match find_node name sysctl_lpsched_setup with
  | None => mk_res ENOENT 0 s
  | Some nd =>
      match nd_handler nd with
      | None => mk_res ENOENT 0 s
      | Some h => default (mk_res EINVAL 0 s)
                    (lpsched_int_handler ticks h (mk_req (nd_readwrite nd) newp) s)
      end
  end.

End sysctl.
