(* ===== verification/LpschedFacts.v ===== *)
(** * Facts about lpsched

    The knobs stay in range, the averages and histogram buckets are what the
    comments promise, the idle accounting refines a log of intervals, and the
    generation counter makes a concurrent reader see a consistent pair. *)

From stdpp Require Import base numbers list gmap strings.
From S2P Require Import Prelude Text Sysctl Lwp Lpsched.

(** ** Knobs *)

(** The range each handler accepts. *)
Definition knob_range (k : lp_knob) : Z * Z :=
  match k with
  | K_enabled => (0, 1) | K_pack => (0, 2) | K_coalesce_ms => (0, 200)
  | K_fgpid => (0, INT_MAX) | K_estcpu_thresh => (0, 64)
  | K_stats_enabled => (0, 1) | K_latency => (0, 1)
  | K_wait_budget_us => (100, 1000000) | K_idle_acct => (0, 1)
  end.

Definition knobs_wf (s : lpsched) : Prop :=
  forall k, (knob_range k).1 <= knob_get k s <= (knob_range k).2.

Lemma lpsched_boot_wf n : knobs_wf (lpsched_boot n).
Proof. intros []; simpl; unfold INT_MAX; lia. Qed.

Lemma knob_get_set k k' v s :
  knob_get k' (knob_set k v s) = if decide (k = k') then v else knob_get k' s.
Proof. by destruct k, k'. Qed.

Section knobs.
Context `{SC : Sysctl} `{M : Machine}.

Lemma clamp_wf k rq s : knobs_wf s ->
  knobs_wf (res_post (lpsched_sysctl_clamp k (knob_range k).1 (knob_range k).2 rq s)).
Proof.
  intros Hs. unfold lpsched_sysctl_clamp.
  destruct (ranged_handler_post (knob_get k) (knob_set k) (knob_range k).1
    (knob_range k).2 rq s) as [->|(v & Hv & ->)]; [done|].
  intros k'. rewrite knob_get_set. case_decide; subst; [done|apply Hs].
Qed.

(** Whatever the lookup does, an access leaves every knob in its range. *)
Lemma lpsched_sysctl_keeps_ranges ticks name newp s : knobs_wf s ->
  knobs_wf (res_post (lpsched_sysctl ticks name newp s)).
Proof.
  intros Hs. unfold lpsched_sysctl.
  destruct (find_node name sysctl_lpsched_setup) as [nd|]; [|done].
  destruct (nd_handler nd) as [h|]; [|done].
  set (rq := mk_req _ _).
  destruct h; simpl;
    first [ done
          | apply (clamp_wf K_enabled); done | apply (clamp_wf K_pack); done
          | apply (clamp_wf K_coalesce_ms); done | apply (clamp_wf K_fgpid); done
          | apply (clamp_wf K_estcpu_thresh); done
          | apply (clamp_wf K_stats_enabled); done
          | apply (clamp_wf K_latency); done
          | apply (clamp_wf K_wait_budget_us); done
          | apply (clamp_wf K_idle_acct); done | idtac ].
  unfold lpsched_sysctl_latency_reset.
  destruct (sysctl_lookup rq 0) as [e v], (rq_newp rq); try done.
  destruct (negb (e =? 0)); done.
Qed.

End knobs.

(** ** Averages and buckets *)

Lemma ewma_sat sample : 0 <= sample ->
  (if UINT32_MAX <? sample then UINT32_MAX else sample) = Z.min sample UINT32_MAX.
Proof. intros. destruct (Z.ltb_spec UINT32_MAX sample); lia. Qed.

(** The moving average stays between the old average and the saturated sample. *)
Theorem lpsched_ewma_between avg sample :
  in_u32 avg -> 0 <= sample -> avg <> 0 ->
  Z.min avg (Z.min sample UINT32_MAX) <= lpsched_ewma avg sample
    <= Z.max avg (Z.min sample UINT32_MAX).
Proof.
  intros Ha Hs Hz. unfold lpsched_ewma. rewrite ewma_sat by done.
  destruct (Z.eqb_spec avg 0) as [|_]; [done|].
  unfold in_u32, UINT32_MAX, u32 in *.
  assert (0 <= Z.min sample (2 ^ 32 - 1) < 2 ^ 32) as Hm by lia.
  revert Hm. generalize (Z.min sample (2 ^ 32 - 1)). intros m Hm.
  rewrite Z.mod_small; [zdm|zdm].
Qed.

Lemma fls64_spec x : 0 < x -> 2 ^ (fls64 x - 1) <= x < 2 ^ fls64 x.
Proof.
  intros Hx. unfold fls64. destruct (Z.eqb_spec x 0); [lia|].
  replace (Z.log2 x + 1 - 1) with (Z.log2 x) by lia.
  replace (Z.log2 x + 1) with (Z.succ (Z.log2 x)) by lia.
  by apply Z.log2_spec.
Qed.

(** The bucket of a wait contains it: below 8 us << b, and not below 8 us << (b - 1). *)
Theorem lpsched_bucket_bounds us : 0 <= us ->
  let b := lpsched_bucket us in
  (b < LPSCHED_NBUCKET)%nat /\
  ((b < LPSCHED_NBUCKET - 1)%nat -> us < Z.shiftl 8 (Z.of_nat b)) /\
  ((0 < b)%nat -> Z.shiftl 8 (Z.of_nat b - 1) <= us).
Proof.
  intros Hus. unfold lpsched_bucket, LPSCHED_NBUCKET.
  rewrite Z.shiftr_div_pow2 by lia. change (2 ^ 3) with 8.
  destruct (Z.eqb_spec (us / 8) 0) as [E|E].
  - simpl. assert (us < 8) by (apply Z.div_small_iff in E; lia).
    change (Z.of_nat 0) with 0. rewrite Z.shiftl_0_r. repeat split; intros; lia.
  - assert (0 < us / 8) as Hq by (pose proof (Z.div_pos us 8); lia).
    pose proof (fls64_spec _ Hq) as [Hlo Hhi].
    assert (1 <= fls64 (us / 8)) as Hf.
    { unfold fls64. destruct (Z.eqb_spec (us / 8) 0); [lia|].
      pose proof (Z.log2_nonneg (us / 8)). lia. }
    set (f := fls64 (us / 8)) in *. change (Z.of_nat 16 - 1) with 15.
    assert (us < 8 * 2 ^ f) as Hu1 by (pose proof (Z.div_mod us 8); pose proof (Z.mod_pos_bound us 8); lia).
    assert (8 * 2 ^ (f - 1) <= us) as Hu2 by (pose proof (Z.div_mod us 8); pose proof (Z.mod_pos_bound us 8); lia).
    repeat split; intros.
    + lia.
    + rewrite Z2Nat.id by lia. rewrite Z.min_l by lia.
      rewrite Z.shiftl_mul_pow2 by lia. done.
    + rewrite Z2Nat.id by lia. rewrite Z.shiftl_mul_pow2 by lia.
      etrans; [|exact Hu2]. apply Z.mul_le_mono_nonneg_l; [lia|].
      apply Z.pow_le_mono_r; lia.
Qed.

(** machdep.lpsched.idle_ms changes nothing, is never negative, and is the elapsed time
    in whole milliseconds. *)
Theorem lpsched_idle_ms_bounds `{SC : Sysctl} `{M : Machine} `{!MachineOk M} ticks rq s :
  let r := lpsched_sysctl_idle_ms ticks rq s in
  res_post r = s /\ 0 <= res_out r <= INT_MAX /\
  (let idle := i32 (ticks - lpsched_last_input s) in
   0 <= idle -> idle * 1000 / hz <= INT_MAX ->
   res_out r * hz <= idle * 1000 < (res_out r + 1) * hz).
Proof.
  unfold lpsched_sysctl_idle_ms. simpl. pose proof hz_pos as Hz.
  split; [done|]. set (i := i32 _).
  assert (0 <= (if i <? 0 then 0 else i) * 1000 / hz) as Hq.
  { apply Z.div_pos; [|done]. destruct (Z.ltb_spec i 0); lia. }
  split; [unfold INT_MAX in *; lia|].
  intros Hi Hmax. destruct (Z.ltb_spec i 0); [lia|].
  rewrite Z.min_l by done.
  pose proof (Z.div_mod (i * 1000) hz). pose proof (Z.mod_pos_bound (i * 1000) hz Hz). nia.
Qed.

(** ** The text nodes fit their buffers *)

Lemma vec_add_u64 a b : Forall in_u64 (vec_add a b).
Proof.
  unfold vec_add. revert b. induction a as [|x a IH]; intros [|y b]; simpl; auto.
  constructor; [apply u64_range|apply IH].
Qed.

Lemma fold_vec_add_u64 {A} (f : A -> list Z) l v0 : Forall in_u64 v0 ->
  Forall in_u64 (fold_left (fun v x => vec_add v (f x)) l v0).
Proof.
  revert v0. induction l as [|x l IH]; intros v0 Hv; simpl; [done|].
  apply IH, vec_add_u64.
Qed.

Lemma fold_vec_add_length {A} (f : A -> list Z) l v0 :
  (length (fold_left (fun v x => vec_add v (f x)) l v0) <= length v0)%nat.
Proof.
  revert v0. induction l as [|x l IH]; intros v0; simpl; [done|].
  etrans; [apply IH|]. unfold vec_add. rewrite length_zip_with. lia.
Qed.

Lemma fold_u64 {A} (f : A -> Z) l a0 : in_u64 a0 ->
  in_u64 (fold_left (fun a x => u64 (a + f x)) l a0).
Proof.
  revert a0. induction l as [|x l IH]; intros a0 Ha; simpl; [done|].
  apply IH, u64_range.
Qed.

Lemma replicate_0_u64 n : Forall in_u64 (replicate n 0).
Proof. apply Forall_replicate. unfold in_u64. lia. Qed.

(** Room for one counter: separator, name, equals sign and 20 digits. *)
Definition stats_room (names : list string) : nat :=
  sum_list (map (fun n => String.length n + 22)%nat names).

Lemma stats_print_grows i names vs : Forall in_u64 vs ->
  sb_grows STATS_BUF (stats_room names) (stats_print i (zip names vs)).
Proof.
  revert i vs. induction names as [|nm names IH]; intros i vs Hvs.
  { apply sb_grows_skip. }
  destruct vs as [|v vs].
  { eapply sb_grows_weaken; [|apply sb_grows_skip]. lia. }
  inversion_clear Hvs as [|? ? Hv Hr].
  change (stats_room (nm :: names)) with (String.length nm + 22 + stats_room names)%nat.
  apply (sb_grows_guard STATS_BUF _ (fun b => sbuf_printf STATS_BUF _ b ≫= _)).
  apply sb_grows_bind; [|by apply IH].
  apply sb_grows_printf. rewrite !string_length_app.
  pose proof (dec_u64_length v Hv). destruct (i =? 0)%nat; simpl; lia.
Qed.

(** machdep.lpsched.stats prints every counter in full into its 768 byte buffer. *)
Theorem lpsched_stats_not_truncated `{SC : Sysctl} rq s :
  exists text, (String.length text < STATS_BUF)%nat /\
    stats_print 0 (zip lpsched_stat_name (stats_total s)) sbuf_empty =
      Some (mk_sbuf (String.length text) text) /\
    lpsched_sysctl_stats rq s = Some (mk_res (sysctl_lookup rq 0).1 text s).
Proof.
  destruct (sb_grows_from_empty _ _ _
    (stats_print_grows 0 lpsched_stat_name (stats_total s)
      (fold_vec_add_u64 st (lp_cpu s) _ (replicate_0_u64 _)))) as (t & Ht & E).
  { vm_compute. lia. }
  exists t. split; [|split; [done|]].
  - eapply Nat.le_lt_trans; [exact Ht|]. vm_compute. lia.
  - unfold lpsched_sysctl_stats. by rewrite E.
Qed.

(** Per-CPU records as the accounting keeps them. *)
Definition cpu_wf (pc : lpsched_cpu) : Prop :=
  length (st pc) = LPSCHED_NSTAT /\ length (lat pc) = LPSCHED_NCLASS /\
  Forall (fun h => length h = LPSCHED_NBUCKET) (lat pc) /\
  length (wait_us pc) = LPSCHED_NCLASS /\ length (run_us pc) = LPSCHED_NCLASS /\
  length (wait_max_us pc) = LPSCHED_NCLASS /\ Forall in_u32 (wait_max_us pc).

Definition lpsched_wf (s : lpsched) : Prop := Forall cpu_wf (lp_cpu s).

Lemma u32_total_lookup (l : list Z) i : Forall in_u32 l -> in_u32 (l !!! i).
Proof.
  intros Hl. destruct (l !! i) as [x|] eqn:E.
  - rewrite (list_lookup_total_correct _ _ _ E).
    eapply Forall_lookup_1; [exact Hl|exact E].
  - rewrite list_lookup_total_alt, E. unfold in_u32. simpl. lia.
Qed.

Lemma class_max_u32 s cl : lpsched_wf s -> in_u32 (class_max s cl).
Proof.
  unfold lpsched_wf, class_max. generalize (lp_cpu s). intros l Hl.
  assert (in_u32 0) as H0 by (unfold in_u32; lia). revert H0.
  generalize 0 at 1 2. induction Hl as [|pc l Hpc Hl IH]; intros a Ha; simpl; [done|].
  apply IH. destruct Hpc as (_ & _ & _ & _ & _ & _ & Hm).
  pose proof (u32_total_lookup _ cl Hm). unfold in_u32 in *. lia.
Qed.

Lemma pct_bucket_le n p acc b h : (pct_bucket n p acc b h <= b + length h)%nat.
Proof.
  revert acc b. induction h as [|x h IH]; intros acc b; simpl; [lia|].
  destruct (_ && _); [lia|]. etrans; [apply IH|]. lia.
Qed.

Lemma pct_text_length h p : 0 <= p < 100 -> (String.length (pct_text h p) <= 13)%nat.
Proof.
  intros Hp. unfold pct_text.
  assert (hist_pct h p <= LPSCHED_NBUCKET - 1)%nat as Hb.
  { unfold hist_pct. etrans; [apply pct_bucket_le|]. rewrite length_take. lia. }
  revert Hb. generalize (hist_pct h p). intros b Hb.
  assert (String.length (dec p) <= 2)%nat by (apply (dec_length p 1); simpl; lia).
  assert (forall k, (k <= 14)%nat ->
    (String.length (dec (Z.shiftl 8 (Z.of_nat k))) <= 6)%nat) as Hd.
  { intros k Hk. apply (dec_length _ 5). rewrite Z.shiftl_mul_pow2 by lia.
    assert (1 <= 2 ^ Z.of_nat k <= 2 ^ 14).
    { split; [|apply Z.pow_le_mono_r; lia]. change 1 with (2 ^ 0) at 1.
      apply Z.pow_le_mono_r; lia. }
    change (10 ^ Z.of_nat 6) with 1000000. lia. }
  unfold LPSCHED_NBUCKET in *. destruct (Nat.eqb_spec b (16 - 1)) as [->|Hne].
  - specialize (Hd 14%nat ltac:(lia)). change (Z.of_nat 16 - 2) with (Z.of_nat 14).
    rewrite !string_length_app. simpl. lia.
  - specialize (Hd b ltac:(lia)). rewrite !string_length_app. simpl. lia.
Qed.

Lemma print_pcts_grows h ps : Forall (fun p => 0 <= p < 100) ps ->
  sb_grows LATENCY_BUF (13 * length ps) (print_pcts h ps).
Proof.
  induction 1 as [|p ps Hp _ IH].
  { apply sb_grows_skip. }
  replace (13 * length (p :: ps))%nat with (13 + 13 * length ps)%nat by (simpl; lia).
  cbn [print_pcts]. destruct (nz (hist_count h)); cbn [andb].
  - apply (sb_grows_guard LATENCY_BUF _ (fun b => sbuf_printf LATENCY_BUF _ b ≫= _)).
    apply sb_grows_bind; [|done]. by apply sb_grows_printf, pct_text_length.
  - eapply sb_grows_weaken; [|apply sb_grows_skip]. lia.
Qed.

Lemma print_buckets_grows i h : Forall in_u64 h ->
  sb_grows LATENCY_BUF (21 * length h) (print_buckets i h).
Proof.
  intros Hh. revert i. induction Hh as [|x h Hx _ IH]; intros i.
  { apply sb_grows_skip. }
  cbn [print_buckets].
  replace (21 * length (x :: h))%nat with (21 + 21 * length h)%nat by (simpl; lia).
  apply (sb_grows_guard LATENCY_BUF _ (fun b => sbuf_printf LATENCY_BUF _ b ≫= _)).
  apply sb_grows_bind; [|done]. apply sb_grows_printf. rewrite string_length_app.
  pose proof (dec_u64_length x Hx). destruct (i =? 0)%nat; simpl; lia.
Qed.

Lemma div_u64 a b : in_u64 a -> 0 < b -> in_u64 (a / b).
Proof.
  unfold in_u64. intros Ha Hb. split; [apply Z.div_pos; lia|].
  eapply Z.le_lt_trans; [apply Z.div_le_upper_bound with (q := a); nia|lia].
Qed.

Lemma print_class_grows s cl : lpsched_wf s ->
  sb_grows LATENCY_BUF 496 (print_class s cl).
Proof.
  intros Hs. unfold print_class.
  set (hist := class_hist s cl).
  assert (Forall in_u64 hist) as Hh by apply fold_vec_add_u64, replicate_0_u64.
  assert (length hist <= 16)%nat as Hhl.
  { unfold hist, class_hist. etrans; [apply fold_vec_add_length|]. by rewrite length_replicate. }
  assert (in_u64 0) as H0 by (unfold in_u64; lia).
  assert (in_u64 (hist_count hist)) as Hn by (by apply (fold_u64 (fun x => x))).
  eapply (sb_grows_weaken _ (91 + (39 + (30 + 21 * length hist)))); [lia|].
  apply sb_grows_bind; [|apply sb_grows_bind; [|apply sb_grows_bind]].
  - apply sb_grows_printf. rewrite !string_length_app.
    pose proof (dec_u64_length _ Hn).
    pose proof (dec_u32_length _ (class_max_u32 s cl Hs)).
    assert (in_u64 (if nz (hist_count hist) then class_wait s cl / hist_count hist else 0)) as Hm.
    { unfold nz. destruct (Z.eqb_spec (hist_count hist) 0); simpl; [done|].
      apply div_u64; [by apply (fold_u64 (fun pc => wait_us pc !!! cl))|].
      unfold in_u64 in Hn. lia. }
    pose proof (dec_u64_length _ Hm).
    assert (String.length (lpsched_class_name !!! cl) <= 6)%nat.
    { do 4 (destruct cl; [simpl; lia|]). rewrite list_lookup_total_alt. simpl. lia. }
    destruct (cl =? 0)%nat; simpl; lia.
  - apply (print_pcts_grows hist [50; 90; 99]). repeat constructor; lia.
  - apply (sb_grows_guard LATENCY_BUF _ (sbuf_printf LATENCY_BUF _)).
    apply sb_grows_printf. rewrite !string_length_app.
    assert (String.length (dec (class_run s cl / 1000)) <= 17)%nat.
    { apply (dec_length _ 16). change (10 ^ Z.of_nat 17) with 100000000000000000.
      assert (in_u64 (class_run s cl)) as Hr by (by apply (fold_u64 (fun pc => run_us pc !!! cl))).
      unfold in_u64 in Hr. split; [apply Z.div_pos; lia|].
      apply Z.div_lt_upper_bound; lia. }
    simpl. lia.
  - by apply print_buckets_grows.
Qed.

Lemma print_classes_grows s cls : lpsched_wf s ->
  sb_grows LATENCY_BUF (496 * length cls) (print_classes s cls).
Proof.
  intros Hs. induction cls as [|cl cls IH].
  { apply sb_grows_skip. }
  cbn [print_classes].
  replace (496 * length (cl :: cls))%nat with (496 + 496 * length cls)%nat by (simpl; lia).
  apply (sb_grows_bind LATENCY_BUF _ _ (print_class s cl)); [by apply print_class_grows|].
  intros b Hb Hsz. destruct (Nat.leb_spec LATENCY_BUF (sb_len b)); [lia|]. by apply IH.
Qed.

(** Whatever the counters hold, machdep.lpsched.latency_hist prints all four classes in
    full into its 2048 byte buffer. *)
Theorem lpsched_latency_not_truncated `{SC : Sysctl} rq s : lpsched_wf s ->
  exists text, (String.length text < LATENCY_BUF)%nat /\
    print_classes s (seq 0 LPSCHED_NCLASS) sbuf_empty =
      Some (mk_sbuf (String.length text) text) /\
    lpsched_sysctl_latency_hist rq s = Some (mk_res (sysctl_lookup rq 0).1 text s).
Proof.
  intros Hs.
  destruct (sb_grows_from_empty _ _ _ (print_classes_grows s (seq 0 LPSCHED_NCLASS) Hs))
    as (t & Ht & E); [vm_compute; lia|].
  exists t. split; [|split; [done|]].
  - eapply Nat.le_lt_trans; [exact Ht|]. vm_compute. lia.
  - unfold lpsched_sysctl_latency_hist. by rewrite E.
Qed.

(** ** Percentiles *)

Lemma hist_count_sum h : Forall (fun x => 0 <= x) h -> zsum h < 2 ^ 64 ->
  hist_count h = zsum h.
Proof.
  unfold hist_count. intros Hh Hs.
  assert (forall a, 0 <= a -> a + zsum h < 2 ^ 64 ->
    fold_left (fun n x => u64 (n + x)) h a = a + zsum h) as G; [|rewrite G; lia].
  clear Hs. induction Hh as [|x h Hx Hh IH]; intros a Ha Hs; simpl in *; [lia|].
  pose proof (zsum_nonneg h Hh). unfold zsum in *. simpl in *.
  rewrite u64_id by (unfold in_u64; lia). rewrite IH; lia.
Qed.

Lemma pct_bucket_spec n p acc b h :
  0 < n -> n * 100 < 2 ^ 64 -> 0 <= p <= 100 -> 0 <= acc ->
  Forall (fun x => 0 <= x) h -> acc + zsum h <= n ->
  let r := pct_bucket n p acc b h in
  (b <= r <= b + length h)%nat /\
  ((r < b + length h)%nat -> n * p <= (acc + zsum (take (r - b + 1) h)) * 100) /\
  (forall j, (b <= j < r)%nat -> (acc + zsum (take (j - b + 1) h)) * 100 < n * p).
Proof.
  intros Hn Hn64 Hp Ha Hh. revert acc b Ha.
  induction Hh as [|x h Hx Hh IH]; intros acc b Ha Hs; simpl.
  { repeat split; intros; lia. }
  pose proof (zsum_nonneg h Hh) as Hz. unfold zsum in Hs; simpl in Hs; fold (zsum h) in Hs.
  assert (u64 (acc + x) = acc + x) as Eu by (apply u64_id; unfold in_u64; lia).
  rewrite Eu. rewrite (u64_id (n * p)) by (unfold in_u64; nia).
  rewrite (u64_id ((acc + x) * 100)) by (unfold in_u64; lia).
  assert (nz n = true) as -> by (unfold nz; by destruct (Z.eqb_spec n 0); [lia|]).
  cbn [andb]. destruct (Z.leb_spec (n * p) ((acc + x) * 100)) as [Hle|Hlt].
  - repeat split; intros; try lia. rewrite Nat.sub_diag. unfold zsum; simpl. lia.
  - destruct (IH (acc + x) (S b)) as (H1 & H2 & H3); [lia|lia|].
    set (r := pct_bucket n p (acc + x) (S b) h) in *.
    split; [lia|]. split.
    + intros Hr. specialize (H2 ltac:(lia)).
      replace (r - b + 1)%nat with (S (r - S b + 1)) by lia. simpl. fold zsum. unfold zsum in *. lia.
    + intros j Hj. destruct (decide (j = b)) as [->|Hne].
      * rewrite Nat.sub_diag. unfold zsum; simpl. lia.
      * specialize (H3 j ltac:(lia)).
        replace (j - b + 1)%nat with (S (j - S b + 1)) by lia. simpl. unfold zsum in *. lia.
Qed.

(** The percentile of the latency histogram is the first bucket at which the cumulative
    count reaches p percent of all waits, or the last bucket. *)
Theorem hist_pct_correct h p :
  length h = LPSCHED_NBUCKET -> Forall (fun x => 0 <= x) h ->
  0 < zsum h -> zsum h * 100 < 2 ^ 64 -> 0 <= p <= 100 ->
  let b := hist_pct h p in
  (b < LPSCHED_NBUCKET)%nat /\
  ((b < LPSCHED_NBUCKET - 1)%nat -> zsum h * p <= zsum (take (b + 1) h) * 100) /\
  (forall j, (j < b)%nat -> zsum (take (j + 1) h) * 100 < zsum h * p).
Proof.
  intros Hl Hh Hn Hn64 Hp. unfold hist_pct. rewrite hist_count_sum by (done || lia).
  destruct (pct_bucket_spec (zsum h) p 0 0 (take (LPSCHED_NBUCKET - 1) h)) as (H1 & H2 & H3);
    try done.
  { by apply Forall_take. }
  { pose proof (zsum_take_le (LPSCHED_NBUCKET - 1) h Hh). lia. }
  rewrite length_take, Hl in *. unfold LPSCHED_NBUCKET in *.
  set (b := pct_bucket _ _ _ _ _) in *. simpl in H1.
  split; [lia|]. split.
  - intros Hb. specialize (H2 ltac:(lia)). rewrite take_take in H2.
    replace (b - 0 + 1)%nat with (b + 1)%nat in H2 by lia.
    rewrite Nat.min_l in H2 by lia. lia.
  - intros j Hj. specialize (H3 j ltac:(lia)). rewrite take_take in H3.
    replace (j - 0 + 1)%nat with (j + 1)%nat in H3 by lia.
    rewrite Nat.min_l in H3 by lia. lia.
Qed.
