(* ===== verification/LpschedInv.v ===== *)
(** * lpsched over time: invariant, histogram, idle log and concurrent readers

    [lp_step] is one operation of the running kernel on the accounting state;
    the shape of the per-CPU records and the knob ranges hold in every
    reachable state.  The idle accounting is compared with an abstract log,
    and the generation counter with a reader that interleaves with a writer. *)

From stdpp Require Import base numbers list gmap strings relations.
From S2P Require Import Prelude Text Sysctl Lwp Lpsched LpschedFacts.

(** ** One operation of the kernel *)

Inductive lp_step `{SC : Sysctl} `{M : Machine} :
    gmap nat lwp * lpsched -> gmap nat lwp * lpsched -> Prop :=
  | step_stat h s self idx : lp_step (h, s) (h, lpsched_stat self idx s)
  | step_input h s ticks : lp_step (h, s) (h, lpsched_input_activity ticks s)
  | step_depth h s now i d : lp_step (h, s) (h, lpsched_set_idle_depth now i d s)
  | step_enqueued h s now l ci e :
      lp_step (h, s) (lpsched_enqueued now l ci e (h, s))
  | step_dequeued h s ci e : lp_step (h, s) (h, lpsched_dequeued ci e s)
  | step_switch h s freq now self prev next :
      lp_step (h, s) (lpsched_switch freq now self prev next (h, s))
  | step_overdue h s freq now ci :
      lp_step (h, s) (h, (lpsched_queue_overdue freq now ci s).2)
  | step_sysctl h s ticks name newp :
      lp_step (h, s) (h, res_post (lpsched_sysctl ticks name newp s))
  | step_hooked h s v : lp_step (h, s) (h, set_lpsched_idle_hooked v s).

Lemma alter_forall {A} (P : A -> Prop) f i (l : list A) :
  Forall P l -> (forall x, P x -> P (f x)) -> Forall P (alter f i l).
Proof. intros Hl Hf. apply Forall_alter; auto. Qed.

Lemma on_cpu_wf i f s : (forall pc, cpu_wf pc -> cpu_wf (f pc)) ->
  lpsched_wf s -> lpsched_wf (on_cpu i f s).
Proof. intros Hf Hs. apply alter_forall; done. Qed.

Lemma on_cpu_knob i f s k : knob_get k (on_cpu i f s) = knob_get k s.
Proof. by destruct k. Qed.

Lemma on_cpu_length i f s : length (lp_cpu (on_cpu i f s)) = length (lp_cpu s).
Proof. apply length_alter. Qed.

Lemma lpsched_us_cpu freq s from to : lp_cpu (lpsched_us freq s from to).2 = lp_cpu s.
Proof. unfold lpsched_us, lpsched_tsc_init. simpl. by destruct (_ =? 0). Qed.

Lemma lpsched_us_knob freq s from to k :
  knob_get k (lpsched_us freq s from to).2 = knob_get k s.
Proof. unfold lpsched_us, lpsched_tsc_init. simpl. destruct (_ =? 0); by destruct k. Qed.

Ltac cpu_wf_tac :=
  intros ? (?&?&?&?&?&?&?); repeat split; simpl;
  rewrite ?length_alter, ?length_insert; auto.

Lemma record_wait_wf us cl pc : cpu_wf pc -> cpu_wf
  (let pc := set_lat (alter (alter (add64 1) (lpsched_bucket us)) cl (lat pc)) pc in
   let pc := set_wait_us (alter (add64 us) cl (wait_us pc)) pc in
   if wait_max_us pc !!! cl <? us
   then set_wait_max_us (<[cl := u32 us]> (wait_max_us pc)) pc else pc).
Proof.
  intros (H1 & H2 & H3 & H4 & H5 & H6 & H7). cbv zeta.
  assert (Forall (fun h => length h = LPSCHED_NBUCKET)
    (alter (alter (add64 1) (lpsched_bucket us)) cl (lat pc))) as Hl.
  { apply alter_forall; [done|]. intros h <-. apply length_alter. }
  destruct (_ <? _); repeat split; simpl; rewrite ?length_alter, ?length_insert; auto.
  apply Forall_insert; [done|apply u32_range].
Qed.

Lemma lpsched_switch_prev_ok freq now self p h s :
  let s' := (lpsched_switch_prev freq now self p (h, s)).2 in
  (lpsched_wf s -> lpsched_wf s') /\ (forall k, knob_get k s' = knob_get k s) /\
  length (lp_cpu s') = length (lp_cpu s).
Proof.
  unfold lpsched_switch_prev. cbv zeta.
  destruct (_ && _); [|done].
  pose proof (lpsched_us_cpu freq s (l_lp_oncpu (h !!! p)) now) as Hc.
  pose proof (lpsched_us_knob freq s (l_lp_oncpu (h !!! p)) now) as Hk.
  destruct (lpsched_us _ _ _ _) as [us s1]; simpl in *.
  split; [|split].
  - intros Hs. apply on_cpu_wf; [cpu_wf_tac|]. unfold lpsched_wf. by rewrite Hc.
  - intros k. by rewrite on_cpu_knob.
  - by rewrite length_alter, Hc.
Qed.

Lemma lpsched_switch_wait_ok freq now self n cl h s :
  let s' := (lpsched_switch_wait freq now self n cl (h, s)).2 in
  (lpsched_wf s -> lpsched_wf s') /\ (forall k, knob_get k s' = knob_get k s).
Proof.
  unfold lpsched_switch_wait. cbv zeta.
  destruct (nz _); [|done].
  pose proof (lpsched_us_cpu freq s (l_lp_runnable (h !!! n)) now) as Hc.
  pose proof (lpsched_us_knob freq s (l_lp_runnable (h !!! n)) now) as Hk.
  destruct (lpsched_us _ _ _ _) as [us s1]; simpl in *.
  destruct (us <? _); simpl; split; auto.
  - intros Hs. apply on_cpu_wf; [apply record_wait_wf|]. unfold lpsched_wf. by rewrite Hc.
  - unfold lpsched_wf. by rewrite Hc.
Qed.

Lemma lpsched_switch_ok freq now self prev next h s :
  let s' := (lpsched_switch freq now self prev next (h, s)).2 in
  (lpsched_wf s -> lpsched_wf s') /\ (forall k, knob_get k s' = knob_get k s).
Proof.
  unfold lpsched_switch. cbv zeta. simpl. destruct (negb _); [done|].
  set (hs1 := match prev with Some _ => _ | None => _ end).
  assert ((lpsched_wf s -> lpsched_wf hs1.2) /\
          (forall k, knob_get k hs1.2 = knob_get k s)) as [Hw Hk].
  { unfold hs1. destruct prev as [p|]; [|done].
    destruct (lpsched_switch_prev_ok freq now self p h s) as (? & ? & _). auto. }
  destruct hs1 as [h1 s1]. simpl in *. destruct next as [n|].
  - set (cl := lpsched_class s1 (h1 !!! n)).
    destruct (lpsched_switch_wait_ok freq now self n cl h1 s1) as [Hw2 Hk2].
    destruct (lpsched_switch_wait freq now self n cl (h1, s1)) as [h2 s2]; simpl in *.
    split; [intros Hs; apply on_cpu_wf; [cpu_wf_tac|auto]|].
    intros k. by rewrite on_cpu_knob, Hk2.
  - simpl. split; [intros Hs; apply on_cpu_wf; [cpu_wf_tac|auto]|].
    intros k. by rewrite on_cpu_knob.
Qed.

Lemma clear_latency_wf pc : cpu_wf pc -> cpu_wf (clear_latency pc).
Proof.
  intros (H1 & _). unfold clear_latency. repeat split; simpl; auto;
    repeat constructor; unfold in_u32; lia.
Qed.

Lemma knob_set_cpu k v s : lp_cpu (knob_set k v s) = lp_cpu s.
Proof. by destruct k. Qed.

Lemma lpsched_sysctl_wf `{SC : Sysctl} `{M : Machine} ticks name newp s :
  lpsched_wf s -> lpsched_wf (res_post (lpsched_sysctl ticks name newp s)).
Proof.
  intros Hs. unfold lpsched_sysctl. destruct (find_node _ _) as [nd|]; [|done].
  destruct (nd_handler nd) as [h|]; [|done]. set (rq := mk_req _ _).
  assert (forall k lo hi, lpsched_wf (res_post (lpsched_sysctl_clamp k lo hi rq s))) as Hc.
  { intros k lo hi. unfold lpsched_sysctl_clamp.
    destruct (ranged_handler_post (knob_get k) (knob_set k) lo hi rq s)
      as [->|(v & _ & ->)]; [done|]. unfold lpsched_wf. by rewrite knob_set_cpu. }
  destruct h; simpl; try done; try apply Hc.
  unfold lpsched_sysctl_latency_reset.
  destruct (sysctl_lookup rq 0) as [e v], (rq_newp rq); try done.
  destruct (negb (e =? 0)); [done|]. apply Forall_fmap.
  eapply Forall_impl; [exact Hs|]. apply clear_latency_wf.
Qed.

(** The invariant of the accounting state. *)
Definition lp_inv (hs : gmap nat lwp * lpsched) : Prop :=
  lpsched_wf hs.2 /\ knobs_wf hs.2.

Lemma knobs_wf_eq s s' : (forall k, knob_get k s' = knob_get k s) ->
  knobs_wf s -> knobs_wf s'.
Proof. intros E Hs k. rewrite E. apply Hs. Qed.

Lemma lpsched_set_idle_depth_ok now i d s :
  let s' := lpsched_set_idle_depth now i d s in
  (lpsched_wf s -> lpsched_wf s') /\ (forall k, knob_get k s' = knob_get k s).
Proof.
  unfold lpsched_set_idle_depth. cbv zeta.
  set (s1 := if nz (lpsched_enabled s) && _ then _ else _).
  assert ((lpsched_wf s -> lpsched_wf s1) /\ (forall k, knob_get k s1 = knob_get k s))
    as [Hw Hk].
  { unfold s1. destruct (_ && _); [|done]. split; [|by intros []].
    intros Hs. apply on_cpu_wf; [cpu_wf_tac|done]. }
  revert Hw Hk. generalize s1. clear s1. intros s1 Hw Hk.
  destruct (_ <? _)%nat; [|done]. 
  assert (forall f, (lpsched_wf s -> lpsched_wf (on_idle i f s1)) /\
    (forall k, knob_get k (on_idle i f s1) = knob_get k s)) as Hi.
  { intros f. split; [exact Hw|]. intros k. rewrite <-Hk. by destruct k. }
  destruct (d =? _); [destruct (nz _)|destruct (_ && _)]; auto.
Qed.

Lemma lp_step_inv `{SC : Sysctl} `{M : Machine} x y :
  lp_step x y -> lp_inv x -> lp_inv y.
Proof.
  intros Hst [Hw Hk]; destruct Hst; unfold lp_inv; simpl in *.
  - unfold lpsched_stat, lpsched_stat_bump.
    destruct (nz _); [|done]. destruct (_ <=? _)%nat; [done|].
    destruct (_ <? _)%nat; [|done].
    split; [apply on_cpu_wf; [cpu_wf_tac|done]|by eapply knobs_wf_eq; [intros []|]].
  - split; [done|by eapply knobs_wf_eq; [intros []|]].
  - destruct (lpsched_set_idle_depth_ok now i d s) as [H1 H2].
    split; [auto|by eapply knobs_wf_eq].
  - destruct (_ && _); [|done].
    split; [apply on_cpu_wf; [cpu_wf_tac|done]|by eapply knobs_wf_eq; [intros []|]].
  - unfold lpsched_dequeued. destruct (_ && _); [|done].
    split; [apply on_cpu_wf; [cpu_wf_tac|done]|by eapply knobs_wf_eq; [intros []|]].
  - destruct (lpsched_switch_ok freq now self prev next h s) as [H1 H2].
    split; [auto|by eapply knobs_wf_eq].
  - unfold lpsched_queue_overdue. destruct (negb _); [done|]. destruct (_ =? 0); [done|].
    pose proof (lpsched_us_cpu freq s (q_since (lp_cpu s !!! ci)) now) as Hc.
    pose proof (lpsched_us_knob freq s (q_since (lp_cpu s !!! ci)) now) as Hk'.
    destruct (lpsched_us _ _ _ _) as [us s1]; simpl in *.
    split; [unfold lpsched_wf; by rewrite Hc|by eapply knobs_wf_eq].
  - split; [by apply lpsched_sysctl_wf|by apply lpsched_sysctl_keeps_ranges].
  - split; [done|by eapply knobs_wf_eq; [intros []|]].
Qed.

(** Every operation of the accounting code keeps the per-CPU records well formed and the
    knobs within the ranges their sysctl handlers allow, from boot on. *)
Theorem lp_reachable_inv `{SC : Sysctl} `{M : Machine} maxcpus h x :
  rtc lp_step (h, lpsched_boot maxcpus) x -> lp_inv x.
Proof.
  intros Hr. assert (lp_inv (h, lpsched_boot maxcpus)) as H0.
  { split; [|apply lpsched_boot_wf]. simpl. apply Forall_replicate.
    repeat split; repeat constructor; unfold in_u32; lia. }
  revert H0. induction Hr as [|x y z Hst _ IH]; [done|].
  intros Hx. eapply IH, lp_step_inv; done.
Qed.

(** ** What a switch records *)

Lemma tsc_init_idem freq s :
  lpsched_tsc_init freq (lpsched_tsc_init freq s) = lpsched_tsc_init freq s.
Proof.
  unfold lpsched_tsc_init. destruct (Z.eqb_spec (lpsched_tsc_mhz s) 0) as [E|E].
  - simpl. destruct (Z.eqb_spec (Z.max 1 (freq / 1000000)) 0); [lia|done].
  - by destruct (Z.eqb_spec (lpsched_tsc_mhz s) 0).
Qed.

Lemma lookup_on_cpu_ne i j f s : i <> j -> lp_cpu (on_cpu i f s) !! j = lp_cpu s !! j.
Proof. intros. by apply list_lookup_alter_ne. Qed.

Lemma lookup_on_cpu i f s : (i < length (lp_cpu s))%nat ->
  lp_cpu (on_cpu i f s) !!! i = f (lp_cpu s !!! i).
Proof. intros Hi. by apply list_lookup_total_alter_eq. Qed.

Lemma lpsched_us_fst freq s s' from to :
  lpsched_tsc_mhz (lpsched_tsc_init freq s') = lpsched_tsc_mhz (lpsched_tsc_init freq s) ->
  (lpsched_us freq s' from to).1 = (lpsched_us freq s from to).1.
Proof. intros E. unfold lpsched_us. simpl. by rewrite E. Qed.

(** What the first half of a switch leaves alone. *)
Lemma lpsched_switch_prev_frame freq now self p h s :
  let hs := lpsched_switch_prev freq now self p (h, s) in
  (self < length (lp_cpu s))%nat ->
  lat (lp_cpu hs.2 !!! self) = lat (lp_cpu s !!! self) /\
  (forall j, j <> self -> lp_cpu hs.2 !! j = lp_cpu s !! j) /\
  lpsched_tsc_mhz (lpsched_tsc_init freq hs.2) = lpsched_tsc_mhz (lpsched_tsc_init freq s) /\
  lpsched_fgpid hs.2 = lpsched_fgpid s /\
  (forall n l, h !! n = Some l -> exists l', hs.1 !! n = Some l' /\
    l_lp_runnable l' = l_lp_runnable l /\
    forall s, lpsched_class s l' = lpsched_class s l).
Proof.
  intros hs Hself. subst hs. unfold lpsched_switch_prev.
  destruct (_ && _); [|by repeat split; eauto].
  pose proof (lpsched_us_cpu freq s (l_lp_oncpu (h !!! p)) now) as Hc.
  assert (lpsched_tsc_init freq (lpsched_us freq s (l_lp_oncpu (h !!! p)) now).2 =
          lpsched_tsc_init freq s) as Ht by apply tsc_init_idem.
  pose proof (lpsched_us_knob freq s (l_lp_oncpu (h !!! p)) now K_fgpid) as Hf.
  destruct (lpsched_us _ _ _ _) as [us s1]; simpl in *.
  split; [|split; [|split; [|split]]].
  - rewrite list_lookup_total_alter_eq by (by rewrite Hc). by rewrite Hc.
  - intros j Hj. rewrite list_lookup_alter_ne by done. by rewrite Hc.
  - rewrite <-Ht. unfold lpsched_tsc_init. simpl. by destruct (_ =? 0).
  - done.
  - intros n l Hn. destruct (decide (p = n)) as [->|Hpn].
    + rewrite !lookup_alter_eq, Hn. by eexists.
    + rewrite !lookup_alter_ne by done. by eexists.
Qed.

Lemma lpsched_switch_wait_frame freq now self n cl h s l :
  (self < length (lp_cpu s))%nat -> h !! n = Some l ->
  let us := (lpsched_us freq s (l_lp_runnable l) now).1 in
  let hs := lpsched_switch_wait freq now self n cl (h, s) in
  length (lp_cpu hs.2) = length (lp_cpu s) /\
  lat (lp_cpu hs.2 !!! self) =
    (if nz (l_lp_runnable l) && (us <? 60 * 1000000)
     then alter (alter (add64 1) (lpsched_bucket us)) cl (lat (lp_cpu s !!! self))
     else lat (lp_cpu s !!! self)) /\
  (forall j, j <> self -> lp_cpu hs.2 !! j = lp_cpu s !! j) /\
  (exists l', hs.1 !! n = Some l' /\ l_lp_runnable l' = 0).
Proof.
  intros Hself Hn us hs. subst hs. unfold lpsched_switch_wait.
  rewrite (lookup_total_correct h n l Hn). fold us.
  destruct (nz (l_lp_runnable l)) eqn:Hz; last first.
  { split; [done|]. split; [done|]. split; [done|]. exists l. split; [done|].
    unfold nz in Hz. destruct (Z.eqb_spec (l_lp_runnable l) 0); done. }
  pose proof (lpsched_us_cpu freq s (l_lp_runnable l) now) as Hc.
  subst us. destruct (lpsched_us _ _ _ _) as [us s1]; simpl in *.
  destruct (us <? _); simpl.
  - split; [by rewrite length_alter, Hc|]. split; [|split].
    + rewrite list_lookup_total_alter_eq by (by rewrite Hc). rewrite Hc. by destruct (_ <? _).
    + intros j Hj. rewrite list_lookup_alter_ne by done. by rewrite Hc.
    + rewrite !lookup_alter_eq, Hn. simpl. by eexists.
  - split; [by rewrite Hc|]. split; [by rewrite Hc|]. split; [by rewrite Hc|].
    rewrite lookup_alter_eq, Hn. simpl. by eexists.
Qed.

(** A switch to an LWP that waited less than a minute adds one to the histogram bucket
    of its wait in its class on this CPU and to nothing else, touches no other CPU's
    record, and starts its burst clock. *)
Theorem lpsched_switch_records freq now self prev n h s l :
  (self < length (lp_cpu s))%nat -> h !! n = Some l ->
  let us := (lpsched_us freq s (l_lp_runnable l) now).1 in
  let cl := lpsched_class s l in
  let hs := lpsched_switch freq now self prev (Some n) (h, s) in
  lat (lp_cpu hs.2 !!! self) =
    (if nz (l_lp_runnable l) && (us <? 60 * 1000000)
     then alter (alter (add64 1) (lpsched_bucket us)) cl (lat (lp_cpu s !!! self))
     else lat (lp_cpu s !!! self)) /\
  (forall j, j <> self -> lp_cpu hs.2 !! j = lp_cpu s !! j) /\
  (exists l', hs.1 !! n = Some l' /\ l_lp_runnable l' = 0 /\ l_lp_oncpu l' = now).
Proof.
  intros Hself Hn us cl hs. subst hs. unfold lpsched_switch. simpl.
  destruct (Nat.ltb_spec self (length (lp_cpu s))); [|lia]. simpl.
  set (hs1 := match prev with Some _ => _ | None => _ end).
  assert (exists l1, (self < length (lp_cpu hs1.2))%nat /\
    lat (lp_cpu hs1.2 !!! self) = lat (lp_cpu s !!! self) /\
    (forall j, j <> self -> lp_cpu hs1.2 !! j = lp_cpu s !! j) /\
    (lpsched_us freq hs1.2 (l_lp_runnable l1) now).1 = us /\
    lpsched_class hs1.2 l1 = cl /\ l_lp_runnable l1 = l_lp_runnable l /\
    hs1.1 !! n = Some l1) as (l1 & Hlen & Hlat & Hoth & Hus & Hcl & Hrun & Hn1).
  { unfold hs1. destruct prev as [p|]; [|by exists l].
    destruct (lpsched_switch_prev_frame freq now self p h s Hself)
      as (H1 & H2 & H3 & H4 & H5).
    destruct (lpsched_switch_prev_ok freq now self p h s) as (_ & _ & H6).
    destruct (H5 n l Hn) as (l1 & E1 & E2 & E3). exists l1.
    split; [by rewrite H6|]. split; [done|]. split; [done|].
    split; [rewrite E2; by apply lpsched_us_fst|].
    split; [rewrite E3; unfold lpsched_class; by rewrite H4|]. done. }
  destruct hs1 as [h1 s1]; simpl in *.
  rewrite (lookup_total_correct h1 n l1 Hn1), Hcl.
  destruct (lpsched_switch_wait_frame freq now self n cl h1 s1 l1 Hlen Hn1)
    as (Hl & Hlat2 & Hoth2 & (l2 & El2 & Er2)).
  destruct (lpsched_switch_wait freq now self n cl (h1, s1)) as [h2 s2]; simpl in *.
  rewrite lookup_alter_eq, El2. simpl.
  split; [|split].
  - rewrite list_lookup_total_alter_eq by (by rewrite Hl). simpl. by rewrite Hlat2, Hus, Hrun, Hlat.
  - intros j Hj. rewrite list_lookup_alter_ne by done. by rewrite Hoth2, Hoth.
  - by eexists.
Qed.
