(* ===== verification/LpschedIdle.v ===== *)
(** * lpsched idle time: a log of intervals, and its concurrent readers

    [lpsched_set_idle_depth] is compared with an abstract log that keeps the
    open interval and the exact sum of the closed ones.  [sl_step] interleaves
    the individual stores of a writing CPU with the loads of
    [lpsched_sysctl_cpu_idle] running elsewhere. *)

From stdpp Require Import base numbers list gmap relations strings.
From S2P Require Import Prelude Text Sysctl Lwp Lpsched LpschedFacts LpschedInv.

(** ** The abstract log *)

Record idle_log := mk_log {
  il_open : option Z;   (* when the interval in progress began *)
  il_total : Z          (* cycles of the closed intervals *)
}.

Definition log_step (now d : Z) (g : idle_log) : idle_log :=
  match il_open g with
  | Some t => if d =? LPSCHED_IDLE_ACTIVE
              then mk_log None (il_total g + Z.max 0 (now - t)) else g
  | None => if d =? LPSCHED_IDLE_ACTIVE then g
            else mk_log (Some (Z.lor now 1)) (il_total g)
  end.

(** The idle time of the log as seen at [now]. *)
Definition log_at (now : Z) (g : idle_log) : Z :=
  il_total g + match il_open g with Some t => Z.max 0 (now - t) | None => 0 end.

Definition log_run (evs : list (Z * Z)) (g : idle_log) : idle_log :=
  fold_left (fun g e => log_step e.1 e.2 g) evs g.

(** The implementation run on the same events. *)
Definition depth_run (i : nat) (evs : list (Z * Z)) (s : lpsched) : lpsched :=
  fold_left (fun s e => lpsched_set_idle_depth e.1 i e.2 s) evs s.

Definition idle_refines (li : lpsched_idle) (g : idle_log) : Prop :=
  Z.even (gen li) = true /\ since li = default 0 (il_open g) /\
  (forall t, il_open g = Some t -> 0 < t) /\ cc li = u64 (il_total g).

Lemma even_u32 x : Z.even (u32 x) = Z.even x.
Proof.
  unfold u32. rewrite (Z.div_mod x (2 ^ 32)) at 2 by lia.
  rewrite Z.add_comm, Z.even_add_mul_even; [done|].
  by exists (2 ^ 31).
Qed.

Lemma even_gen1 g : Z.even (u32 (g + 1)) = negb (Z.even g).
Proof. by rewrite even_u32, Z.add_1_r, Z.even_succ, <-Z.negb_even. Qed.

Lemma even_gen2 g : Z.even (u32 (u32 (g + 1) + 1)) = Z.even g.
Proof. by rewrite even_gen1, even_gen1, negb_involutive. Qed.

Lemma lor1_pos now : 0 <= now -> 0 < Z.lor now 1.
Proof.
  intros H. assert (0 <= Z.lor now 1) by (apply Z.lor_nonneg; lia).
  assert (Z.lor now 1 <> 0) as Hz; [|lia].
  intros E. apply Z.lor_eq_0_iff in E. lia.
Qed.

Lemma u64_add_l a b : u64 (u64 a + b) = u64 (a + b).
Proof. unfold u64. by rewrite Z.add_mod_idemp_l by lia. Qed.

Lemma idle_step_refines now d li g :
  0 <= now -> idle_refines li g ->
  idle_refines (if d =? LPSCHED_IDLE_ACTIVE
                then if nz (since li) then idle_close now li else li
                else if since li =? 0 then idle_open now li else li)
    (log_step now d g).
Proof.
  intros Hn (He & Hs & Hp & Hc). unfold log_step, nz. rewrite Hs.
  destruct (il_open g) as [t|] eqn:Eo; simpl.
  - assert (0 < t) by (by apply Hp). destruct (Z.eqb_spec t 0); [lia|]. simpl.
    destruct (d =? _); [|by repeat split; auto; rewrite Eo].
    unfold idle_close, idle_refines. simpl. rewrite Hs. simpl.
    destruct (Z.ltb_spec t now); simpl; rewrite ?Hs; simpl; rewrite even_gen2, Hc.
    + repeat split; try done. rewrite u64_add_l. f_equal. lia.
    + repeat split; try done. f_equal. lia.
  - destruct (d =? _); [by repeat split; auto; rewrite Eo|].
    unfold idle_open, idle_refines. simpl. rewrite even_gen2.
    repeat split; try done. intros t [= <-]. by apply lor1_pos.
Qed.

Lemma on_idle_self i f s li : lp_idle s !! i = Some li ->
  lp_idle (on_idle i f s) !! i = Some (f li).
Proof. intros H. unfold on_idle; simpl. by rewrite list_lookup_alter_eq, H. Qed.

Lemma set_idle_depth_lookup now i d s li :
  lpsched_idle_acct s <> 0 -> lp_idle s !! i = Some li ->
  lp_idle (lpsched_set_idle_depth now i d s) !! i =
    Some (if d =? LPSCHED_IDLE_ACTIVE
          then if nz (since li) then idle_close now li else li
          else if since li =? 0 then idle_open now li else li) /\
  lpsched_idle_acct (lpsched_set_idle_depth now i d s) = lpsched_idle_acct s.
Proof.
  intros Ha Hi. unfold lpsched_set_idle_depth.
  set (s1 := if nz (lpsched_enabled s) && _ then _ else _).
  assert (lp_idle s1 = lp_idle s /\ lpsched_idle_acct s1 = lpsched_idle_acct s) as [E1 E2]
    by (unfold s1; by destruct (_ && _)).
  clearbody s1. assert (i < length (lp_idle s))%nat by (eapply lookup_lt_Some; done).
  rewrite E1. destruct (Nat.ltb_spec i (length (lp_idle s))); [|lia].
  rewrite (list_lookup_total_correct _ _ _ Hi), E2.
  assert (nz (lpsched_idle_acct s) = true) as ->
    by (unfold nz; by destruct (Z.eqb_spec (lpsched_idle_acct s) 0)).
  cbn [andb].
  destruct (d =? _); [destruct (nz _)|destruct (since li =? 0)];
    (split; [|exact E2]); first [by rewrite E1|apply on_idle_self; by rewrite E1].
Qed.

Lemma depth_run_refines i evs s li g :
  lpsched_idle_acct s <> 0 -> lp_idle s !! i = Some li -> idle_refines li g ->
  Forall (fun e => 0 <= e.1) evs ->
  exists li', lp_idle (depth_run i evs s) !! i = Some li' /\
    idle_refines li' (log_run evs g).
Proof.
  intros Ha Hi Hr He. revert s li g Ha Hi Hr.
  induction He as [|[now d] evs Hn _ IH]; intros s li g Ha Hi Hr; simpl; [by exists li|].
  destruct (set_idle_depth_lookup now i d s li Ha Hi) as [E1 E2].
  eapply IH; [by rewrite E2|exact E1|by apply idle_step_refines].
Qed.

Lemma idle_total_refines now li g : idle_refines li g ->
  idle_read li = Some (since li, cc li) /\
  idle_total now (since li, cc li) = u64 (log_at now g).
Proof.
  intros (He & Hs & Hp & Hc). unfold idle_read.
  rewrite <-Z.negb_even, He. split; [done|].
  unfold idle_total, log_at, nz. rewrite Hs, Hc.
  destruct (il_open g) as [t|]; simpl.
  - assert (0 < t) by (by apply Hp). destruct (Z.eqb_spec t 0); [lia|]. simpl.
    destruct (Z.ltb_spec t now); [rewrite u64_add_l; f_equal; lia|].
    rewrite Z.max_l by lia. by rewrite Z.add_0_r.
  - by rewrite Z.add_0_r.
Qed.

(** C39. For any sequence of idle depth changes of a CPU, what machdep.lpsched.cpu_idle
    computes at any time is, modulo 2^64, the idle time of the abstract log of
    intervals, the open one included. *)
Theorem idle_accounting_refines i evs s now :
  lpsched_idle_acct s <> 0 -> lp_idle s !! i = Some zero_idle ->
  Forall (fun e => 0 <= e.1) evs ->
  exists li, lp_idle (depth_run i evs s) !! i = Some li /\
    idle_read li = Some (since li, cc li) /\
    idle_total now (since li, cc li) = u64 (log_at now (log_run evs (mk_log None 0))).
Proof.
  intros Ha Hi He.
  destruct (depth_run_refines i evs s zero_idle (mk_log None 0) Ha Hi) as (li & Hl & Hr).
  - repeat split; try done.
  - done.
  - exists li. split; [done|]. by apply idle_total_refines.
Qed.

(** Times that never go back, from [t0] to [now]. *)
Fixpoint times_between (t0 : Z) (evs : list (Z * Z)) (now : Z) : Prop :=
  match evs with
  | [] => t0 <= now
  | e :: evs => t0 <= e.1 /\ times_between e.1 evs now
  end.

Lemma times_between_le t0 evs now : times_between t0 evs now -> t0 <= now.
Proof.
  revert t0. induction evs as [|e evs IH]; intros t0; simpl; [done|].
  intros [H1 H2%IH]. lia.
Qed.

Lemma lor1_ge now : 0 <= now -> now <= Z.lor now 1.
Proof.
  intros H. pose proof (Z.add_lor_land now 1) as E.
  assert (Z.land now 1 <= 1).
  { change 1 with (Z.ones 1) at 1. rewrite Z.land_ones by lia.
    pose proof (Z.mod_pos_bound now (2 ^ 1)). lia. }
  lia.
Qed.

Lemma log_run_bounds t0 evs now g base :
  0 <= t0 -> times_between t0 evs now ->
  0 <= il_total g -> (forall t, il_open g = Some t -> base <= t - il_total g) ->
  il_total g <= t0 - base ->
  0 <= log_at now (log_run evs g) <= now - base.
Proof.
  revert t0 g. induction evs as [|[t d] evs IH]; intros t0 g H0 Ht Hg Ho Hb; simpl in *.
  - unfold log_at. destruct (il_open g) as [t|]; [|lia]. specialize (Ho t eq_refl). lia.
  - destruct Ht as [Ht Hr]. unfold log_step.
    destruct (il_open g) as [u|] eqn:Eo; simpl.
    + specialize (Ho u eq_refl). destruct (d =? _); eapply (IH t); try done; simpl; try lia.
      intros t' [= <-] || (intros t' E; rewrite Eo in E; injection E as <-); lia.
    + destruct (d =? _); eapply (IH t); try done; simpl; try lia.
      * intros t' E. by rewrite Eo in E.
      * intros t' [= <-]. pose proof (lor1_ge t ltac:(lia)). lia.
Qed.

(** The idle time reported for a CPU is never negative and never more than the time
    since accounting began, for time stamps that do not go back. *)
Theorem idle_never_exceeds_elapsed i evs s t0 now :
  lpsched_idle_acct s <> 0 -> lp_idle s !! i = Some zero_idle ->
  0 <= t0 -> times_between t0 evs now -> now < 2 ^ 64 ->
  exists li, lp_idle (depth_run i evs s) !! i = Some li /\
    0 <= idle_total now (since li, cc li) <= now - t0.
Proof.
  intros Ha Hi H0 Ht Hnow.
  assert (Forall (fun e => 0 <= e.1) evs) as He.
  { clear Hi. revert t0 H0 Ht. induction evs as [|e evs IH]; intros t0 H0; simpl; [done|].
    intros [H1 H2]. constructor; [lia|]. eapply (IH e.1); [lia|done]. }
  destruct (depth_run_refines i evs s zero_idle (mk_log None 0) Ha Hi) as (li & Hl & Hr);
    [by repeat split|done|].
  exists li. split; [done|]. rewrite (proj2 (idle_total_refines now li _ Hr)).
  pose proof (log_run_bounds t0 evs now (mk_log None 0) t0 H0 Ht) as B.
  simpl in B. rewrite u64_id; [apply B; try done; lia|].
  unfold in_u64. pose proof (times_between_le _ _ _ Ht).
  assert (0 <= log_at now (log_run evs (mk_log None 0)) <= now - t0) by (apply B; try done; lia).
  lia.
Qed.

(** ** A reader on another CPU

    The stores of one update, in program order.  [membar_producer] and
    [membar_consumer] keep the loads and stores in the order written, so an
    interleaving of single accesses is what another CPU can see. *)

Inductive wr := WGen | WCc (v : Z) | WSince (v : Z).

Definition exec_wr (w : wr) (li : lpsched_idle) : lpsched_idle :=
  match w with
  | WGen => set_gen (u32 (gen li + 1)) li
  | WCc v => set_cc v li
  | WSince v => set_since v li
  end.

Definition close_stores (now : Z) (li : lpsched_idle) : list wr :=
  WGen :: ((if since li <? now then [WCc (u64 (cc li + (now - since li)))] else [])
           ++ [WSince 0]) ++ [WGen].
Definition open_stores (now : Z) : list wr := WGen :: [WSince (Z.lor now 1)] ++ [WGen].

Lemma close_stores_run now li :
  fold_left (fun li w => exec_wr w li) (close_stores now li) li = idle_close now li.
Proof. unfold close_stores, idle_close. simpl. by destruct (_ <? _). Qed.

Lemma open_stores_run now li :
  fold_left (fun li w => exec_wr w li) (open_stores now) li = idle_open now li.
Proof. done. Qed.

(** The reader's loop: [g1], [since], [cc] in turn, then the second load of
    [gen].  [n1] counts the generations without wrap-around; the code cannot
    see it. *)
Inductive reader :=
  | RStart
  | RGen (n1 g1 : Z)
  | RSince (n1 g1 s : Z)
  | RCc (n1 g1 s c : Z)
  | RRet (s c : Z).

Record seqlock := mk_sl {
  sl_li : lpsched_idle;
  sl_n : Z;              (* generations so far *)
  sl_todo : list wr;     (* stores the writer still owes *)
  sl_rd : reader
}.

Definition seq_accept (g1 g2 : Z) : bool := (g1 =? g2) && Z.even g1.

Inductive sl_step : seqlock -> seqlock -> Prop :=
  | w_close li n rd now :
      sl_step (mk_sl li n [] rd) (mk_sl li n (close_stores now li) rd)
  | w_open li n rd now :
      sl_step (mk_sl li n [] rd) (mk_sl li n (open_stores now) rd)
  | w_gen li n ws rd :
      sl_step (mk_sl li n (WGen :: ws) rd) (mk_sl (exec_wr WGen li) (n + 1) ws rd)
  | w_store li n w ws rd : w <> WGen ->
      sl_step (mk_sl li n (w :: ws) rd) (mk_sl (exec_wr w li) n ws rd)
  | r_gen li n ws :
      sl_step (mk_sl li n ws RStart) (mk_sl li n ws (RGen n (gen li)))
  | r_since li n ws n1 g1 :
      sl_step (mk_sl li n ws (RGen n1 g1)) (mk_sl li n ws (RSince n1 g1 (since li)))
  | r_cc li n ws n1 g1 s :
      sl_step (mk_sl li n ws (RSince n1 g1 s)) (mk_sl li n ws (RCc n1 g1 s (cc li)))
  | r_retry li n ws n1 g1 s c : seq_accept g1 (gen li) = false ->
      sl_step (mk_sl li n ws (RCc n1 g1 s c)) (mk_sl li n ws RStart)
  | r_accept li n ws n1 g1 s c : seq_accept g1 (gen li) = true ->
      sl_step (mk_sl li n ws (RCc n1 g1 s c)) (mk_sl li n ws (RRet s c)).

Definition sl_init : seqlock := mk_sl zero_idle 0 [] RStart.

(** No generation bump among the stores. *)
Definition plain_stores (ws : list wr) : Prop := Forall (fun w => w <> WGen) ws.

Definition todo_ok (n : Z) (ws : list wr) : Prop :=
  if Z.even n
  then ws = [] \/ exists vs, plain_stores vs /\ ws = WGen :: vs ++ [WGen]
  else exists vs, plain_stores vs /\ ws = vs ++ [WGen].

Definition reader_ok (li : lpsched_idle) (n : Z) (rd : reader) : Prop :=
  match rd with
  | RStart | RRet _ _ => True
  | RGen n1 g1 => g1 = u32 n1 /\ n1 <= n
  | RSince n1 g1 s => g1 = u32 n1 /\ n1 <= n /\
      (n = n1 -> Z.even n1 = true -> s = since li)
  | RCc n1 g1 s c => g1 = u32 n1 /\ n1 <= n /\
      (n = n1 -> Z.even n1 = true -> s = since li /\ c = cc li)
  end.

Definition sl_inv (x : seqlock) : Prop :=
  gen (sl_li x) = u32 (sl_n x) /\ todo_ok (sl_n x) (sl_todo x) /\
  reader_ok (sl_li x) (sl_n x) (sl_rd x).

Lemma even_succ_Z n : Z.even (n + 1) = negb (Z.even n).
Proof. by rewrite Z.add_1_r, Z.even_succ, <-Z.negb_even. Qed.

Lemma begin_ok n vs : Z.even n = true -> plain_stores vs -> todo_ok n (WGen :: vs ++ [WGen]).
Proof. intros He Hv. unfold todo_ok. rewrite He. right. by exists vs. Qed.

Lemma gen_todo_ok n ws : todo_ok n (WGen :: ws) -> todo_ok (n + 1) ws.
Proof.
  unfold todo_ok. rewrite even_succ_Z. destruct (Z.even n); simpl.
  - intros [?|(vs & Hv & [= ->])]; [done|]. by exists vs.
  - intros (vs & Hv & E). destruct vs as [|v vs].
    + injection E as ->. by left.
    + injection E as <- _. by inversion Hv.
Qed.

Lemma store_todo_ok n w ws : w <> WGen -> todo_ok n (w :: ws) ->
  Z.even n = false /\ todo_ok n ws.
Proof.
  intros Hw. unfold todo_ok. destruct (Z.even n).
  - intros [?|(vs & _ & E)]; [done|]. injection E. done.
  - intros (vs & Hv & E). split; [done|]. destruct vs as [|v vs]; [by injection E|].
    injection E as <- ->. inversion Hv. by exists vs.
Qed.

Lemma reader_ok_gen li n rd : reader_ok li n rd -> reader_ok (exec_wr WGen li) (n + 1) rd.
Proof. destruct rd; simpl; intros H; repeat split; try lia; try done; naive_solver lia. Qed.

Lemma reader_ok_store li n w rd : Z.even n = false ->
  reader_ok li n rd -> reader_ok (exec_wr w li) n rd.
Proof.
  intros He. destruct rd; simpl; try done; intros (H1 & H2 & H3);
    repeat split; try done; intros; subst; congruence.
Qed.

Lemma todo_empty_even n : todo_ok n [] -> Z.even n = true.
Proof.
  unfold todo_ok. destruct (Z.even n); [done|]. intros ([|v vs] & _ & E); discriminate.
Qed.

Lemma sl_step_inv x y : sl_step x y -> sl_inv x -> sl_inv y.
Proof.
  intros Hst (Hg & Ht & Hr). destruct Hst; unfold sl_inv in *; simpl in *.
  - split; [done|]. split; [|done]. apply todo_empty_even in Ht.
    apply begin_ok; [done|]. unfold plain_stores. destruct (_ <? _); repeat constructor; done.
  - split; [done|]. split; [|done]. apply todo_empty_even in Ht.
    apply (begin_ok _ [_]); [done|]. by repeat constructor.
  - split; [rewrite Hg; unfold u32; apply Z.add_mod_idemp_l; lia|].
    split; [by apply gen_todo_ok|]. by apply reader_ok_gen.
  - destruct (store_todo_ok _ _ _ H Ht) as [He Ht'].
    split; [by destruct w|]. split; [done|]. by apply reader_ok_store.
  - repeat split; auto; lia.
  - destruct Hr. repeat split; auto.
  - destruct Hr as (H1 & H2 & H3). repeat split; auto.
  - done.
  - done.
Qed.

(** C40. A reader on another CPU that interleaves with the writer's single stores and
    accepts its generation check has read since and cc of one state between updates
    (less than 2^32 generations passing during the read). *)
Theorem seqlock_reader_consistent x n1 g1 s c :
  rtc sl_step sl_init x ->
  sl_rd x = RCc n1 g1 s c -> seq_accept g1 (gen (sl_li x)) = true ->
  sl_n x - n1 < 2 ^ 32 ->
  s = since (sl_li x) /\ c = cc (sl_li x) /\
  (sl_todo x = [] \/ exists ws, sl_todo x = WGen :: ws).
Proof.
  intros Hr Hrd Hacc Hw.
  assert (sl_inv sl_init) as H0 by (repeat split; by left).
  assert (sl_inv x) as (Hg & Ht & Hok).
  { revert H0. clear Hrd Hacc Hw. induction Hr; [done|]. eauto using sl_step_inv. }
  rewrite Hrd in Hok. destruct Hok as (-> & Hle & Hv).
  unfold seq_accept in Hacc. apply andb_prop in Hacc as [E He].
  apply Z.eqb_eq in E. rewrite Hg in E. rewrite even_u32 in He.
  assert (sl_n x = n1) as Hn by (unfold u32 in E; zdm).
  destruct (Hv Hn He) as [-> ->]. split; [done|]. split; [done|].
  unfold todo_ok in Ht. rewrite Hn, He in Ht.
  destruct Ht as [|(vs & _ & ->)]; [by left|right; by eexists].
Qed.

(** * lpsched scenarios

    The accounting theorems at work on concrete states. *)

Definition rd : sysctl_req := mk_req false None.

(** A user LWP of pid 42 that became runnable at cycle 2,000,000. *)
Definition waiting_lwp : lwp :=
  mk_lwp 0 LSRUN 0 0 0 0 0 SCHED_OTHER 0 30 (-1) 0 0 None None 0 false 42 false 0 2000000 0 0 0.

(** A histogram of 100 waits, one beyond the last bucket bound. *)
Definition hist100 : list Z := [50; 0; 0; 40; 0; 0; 9; 0; 0; 0; 0; 0; 0; 0; 0; 1].

(** Idle from 1000 to 3000 and again from 5000 on. *)
Definition idle_events : list (Z * Z) :=
  [(1000, LPSCHED_IDLE_SHALLOW); (3000, LPSCHED_IDLE_ACTIVE); (5000, LPSCHED_IDLE_DEEP)].

Lemma lpsched_ewma_between_witness :
  Z.min 100 (Z.min 500 UINT32_MAX) <= lpsched_ewma 100 500 <= Z.max 100 (Z.min 500 UINT32_MAX).
Proof. apply (lpsched_ewma_between 100 500); [split|..]; lia. Defined.

Lemma lpsched_bucket_bounds_witness :
  let b := lpsched_bucket 1500 in
  (b < LPSCHED_NBUCKET)%nat /\
  ((b < LPSCHED_NBUCKET - 1)%nat -> 1500 < Z.shiftl 8 (Z.of_nat b)) /\
  ((0 < b)%nat -> Z.shiftl 8 (Z.of_nat b - 1) <= 1500).
Proof. apply (lpsched_bucket_bounds 1500). lia. Defined.

Lemma lpsched_idle_ms_bounds_witness :
  let r := lpsched_sysctl_idle_ms 12345 rd (lpsched_boot 1) in
  res_post r = lpsched_boot 1 /\ 0 <= res_out r <= INT_MAX /\
  (let idle := i32 (12345 - lpsched_last_input (lpsched_boot 1)) in
   0 <= idle -> idle * 1000 / 100 <= INT_MAX ->
   res_out r * 100 <= idle * 1000 < (res_out r + 1) * 100).
Proof. exact (lpsched_idle_ms_bounds (MachineOk0 := netbsd_amd64_ok) 12345 rd (lpsched_boot 1)). Defined.

Lemma lpsched_latency_not_truncated_witness :
  exists text, (String.length text < LATENCY_BUF)%nat /\
    print_classes (lpsched_boot 2) (seq 0 LPSCHED_NCLASS) sbuf_empty =
      Some (mk_sbuf (String.length text) text) /\
    lpsched_sysctl_latency_hist rd (lpsched_boot 2) = Some (mk_res (sysctl_lookup rd 0).1 text (lpsched_boot 2)).
Proof.
  apply (lpsched_latency_not_truncated rd (lpsched_boot 2)).
  apply (Forall_replicate _ 2). repeat split; repeat constructor; unfold in_u32; lia.
Defined.

Lemma hist_pct_correct_witness :
  hist_pct hist100 99 = 6%nat /\
  (let b := hist_pct hist100 99 in
   (b < LPSCHED_NBUCKET)%nat /\
   ((b < LPSCHED_NBUCKET - 1)%nat -> zsum hist100 * 99 <= zsum (take (b + 1) hist100) * 100) /\
   (forall j, (j < b)%nat -> zsum (take (j + 1) hist100) * 100 < zsum hist100 * 99)).
Proof.
  split; [reflexivity|]. apply (hist_pct_correct hist100 99).
  - reflexivity.
  - repeat constructor; lia.
  - reflexivity.
  - reflexivity.
  - lia.
Defined.

Lemma lp_reachable_inv_witness :
  lp_inv (∅, res_post (lpsched_sysctl 0 "pack" (Some 2) (lpsched_boot 2))).
Proof.
  apply (lp_reachable_inv 2 ∅). apply rtc_once. apply step_sysctl.
Defined.

Lemma lpsched_switch_records_witness :
  lat (lp_cpu (lpsched_switch 2000000000 5000000 0 None (Some 5%nat)
         ({[5%nat := waiting_lwp]}, lpsched_boot 1)).2 !!! 0%nat) =
    alter (alter (add64 1) 8%nat) LPSCHED_CL_USER (lat zero_cpu).
Proof.
  exact (proj1 (lpsched_switch_records 2000000000 5000000 0 None 5 {[5%nat := waiting_lwp]}
    (lpsched_boot 1) waiting_lwp ltac:(simpl; lia) eq_refl)).
Defined.

Lemma idle_accounting_refines_witness :
  exists li, lp_idle (depth_run 0 idle_events (lpsched_boot 1)) !! 0%nat = Some li /\
    idle_read li = Some (since li, cc li) /\ idle_total 6000 (since li, cc li) = 2998.
Proof.
  apply (idle_accounting_refines 0 idle_events (lpsched_boot 1) 6000).
  - discriminate.
  - reflexivity.
  - repeat constructor; simpl; lia.
Defined.

Lemma idle_never_exceeds_elapsed_witness :
  exists li, lp_idle (depth_run 0 idle_events (lpsched_boot 1)) !! 0%nat = Some li /\
    0 <= idle_total 6000 (since li, cc li) <= 6000 - 500.
Proof.
  apply (idle_never_exceeds_elapsed 0 idle_events (lpsched_boot 1) 500 6000).
  - discriminate.
  - reflexivity.
  - lia.
  - simpl. lia.
  - lia.
Defined.

(** The reader overlaps the opening of an interval and has just read the
    fields of the new one. *)
Definition sl_example : seqlock :=
  mk_sl (mk_lpsched_idle 2 1001 0) 2 [] (RCc 2 2 1001 0).

Lemma sl_example_reachable : rtc sl_step sl_init sl_example.
Proof.
  eapply rtc_l; [apply (w_open zero_idle 0 RStart 1000)|].
  eapply rtc_l; [apply w_gen|].
  eapply rtc_l; [apply w_store; discriminate|].
  eapply rtc_l; [apply w_gen|].
  eapply rtc_l; [apply r_gen|].
  eapply rtc_l; [apply r_since|].
  apply rtc_once. apply (r_cc (mk_lpsched_idle 2 1001 0) 2 [] 2 2 1001).
Qed.

Lemma seqlock_reader_consistent_witness :
  1001 = since (sl_li sl_example) /\ 0 = cc (sl_li sl_example) /\
  (sl_todo sl_example = [] \/ exists ws, sl_todo sl_example = WGen :: ws).
Proof.
  apply (seqlock_reader_consistent sl_example 2 2 1001 0).
  - exact sl_example_reachable.
  - reflexivity.
  - reflexivity.
  - simpl. lia.
Defined.
