(* ===== verification/Circq.v ===== *)
(** * The circular queues of kern_timeout.c

    The CIRCQ macros on a heap of [next]/[prev] pointers, and the list each
    queue denotes.  [circq h l xs]: starting at the head [l], [next] runs
    through [xs] and back, and [prev] is its inverse.  Every macro implements
    the list operation the callout code uses it for. *)

From stdpp Require Import base numbers list gmap.
From S2P Require Import Prelude.

Record links := mk_links {
  nx : gmap nat nat;
  pv : gmap nat nat
}.

Definition cq_next (h : links) (p : nat) : nat := nx h !!! p.
Definition cq_prev (h : links) (p : nat) : nat := pv h !!! p.
Definition set_next (p q : nat) (h : links) : links := mk_links (<[p := q]> (nx h)) (pv h).
Definition set_prev (p q : nat) (h : links) : links := mk_links (nx h) (<[p := q]> (pv h)).

(** ** The macros *)

Definition CIRCQ_INIT (l : nat) (h : links) : links := set_prev l l (set_next l l h).

Definition CIRCQ_INSERT (elem l : nat) (h : links) : links :=
  let h := set_prev elem (cq_prev h l) h in
  let h := set_next elem l h in
  let h := set_next (cq_prev h l) elem h in
  set_prev l elem h.

Definition CIRCQ_EMPTY (l : nat) (h : links) : bool := (cq_next h l =? l)%nat.

Definition CIRCQ_APPEND (fst snd : nat) (h : links) : links :=
  if CIRCQ_EMPTY snd h then h else
  let h := set_next (cq_prev h fst) (cq_next h snd) h in
  let h := set_prev (cq_next h snd) (cq_prev h fst) h in
  let h := set_next (cq_prev h snd) fst h in
  let h := set_prev fst (cq_prev h snd) h in
  CIRCQ_INIT snd h.

Definition CIRCQ_REMOVE (elem : nat) (h : links) : links :=
  let h := set_prev (cq_next h elem) (cq_prev h elem) h in
  set_next (cq_prev h elem) (cq_next h elem) h.

Definition CIRCQ_FIRST (l : nat) (h : links) : nat := cq_next h l.
Definition CIRCQ_LAST (elem l : nat) (h : links) : bool := (cq_next h elem =? l)%nat.

(** ** What a queue denotes *)

Fixpoint path (h : links) (a : nat) (xs : list nat) (b : nat) : Prop :=
  match xs with
  | [] => cq_next h a = b /\ cq_prev h b = a
  | x :: xs => cq_next h a = x /\ cq_prev h x = a /\ path h x xs b
  end.

Definition circq (h : links) (l : nat) (xs : list nat) : Prop :=
  NoDup (l :: xs) /\ path h l xs l.

Lemma path_app h a xs x ys b :
  path h a (xs ++ x :: ys) b <-> path h a xs x /\ path h x ys b.
Proof. revert a. induction xs as [|y xs IH]; intros a; simpl; [tauto|]. rewrite IH. tauto. Qed.

Lemma path_frame h h' a xs b :
  (forall p, p ∈ a :: xs -> cq_next h' p = cq_next h p) ->
  (forall p, p ∈ xs ++ [b] -> cq_prev h' p = cq_prev h p) ->
  path h a xs b -> path h' a xs b.
Proof.
  revert a. induction xs as [|x xs IH]; intros a Hn Hp; simpl.
  - rewrite Hn, Hp by set_solver. done.
  - intros (H1 & H2 & H3). rewrite Hn, Hp by set_solver. repeat split; auto.
    apply IH; [intros; apply Hn; set_solver|intros; apply Hp; set_solver|done].
Qed.

(** Queues elsewhere do not notice. *)
Lemma circq_frame h h' l xs :
  (forall p, p ∈ l :: xs -> cq_next h' p = cq_next h p /\ cq_prev h' p = cq_prev h p) ->
  circq h l xs -> circq h' l xs.
Proof.
  intros Hf [Hd Hp]. split; [done|]. eapply path_frame; [| |exact Hp].
  - intros p Hin. by apply Hf.
  - intros p Hin. apply Hf. set_solver.
Qed.

Lemma next_set_next p q r h :
  cq_next (set_next p q h) r = if decide (p = r) then q else cq_next h r.
Proof. unfold cq_next; simpl. rewrite lookup_total_insert. done. Qed.
Lemma prev_set_prev p q r h :
  cq_prev (set_prev p q h) r = if decide (p = r) then q else cq_prev h r.
Proof. unfold cq_prev; simpl. rewrite lookup_total_insert. done. Qed.
Lemma next_set_prev p q r h : cq_next (set_prev p q h) r = cq_next h r.
Proof. done. Qed.
Lemma prev_set_next p q r h : cq_prev (set_next p q h) r = cq_prev h r.
Proof. done. Qed.
#[local] Hint Rewrite next_set_next prev_set_prev next_set_prev prev_set_next : kernw.

(** The last node of a path that starts at [a]. *)
Abbreviation tail_of a xs := (default a (last xs)).

Lemma tail_of_cons (a x : nat) xs : tail_of a (x :: xs) = tail_of x xs.
Proof. rewrite last_cons. by destruct (last xs). Qed.

Lemma tail_of_in (a : nat) xs : tail_of a xs ∈ a :: xs.
Proof.
  revert a. induction xs as [|x xs IH]; intros a; [by left|].
  rewrite tail_of_cons. right. apply IH.
Qed.

(** Redirecting the last link of a path. *)
Lemma path_retarget h h' a xs b b' :
  NoDup (a :: xs) -> path h a xs b ->
  (forall p, p ∈ a :: xs -> p <> tail_of a xs -> cq_next h' p = cq_next h p) ->
  (forall p, p ∈ xs -> cq_prev h' p = cq_prev h p) ->
  cq_next h' (tail_of a xs) = b' -> cq_prev h' b' = tail_of a xs ->
  path h' a xs b'.
Proof.
  revert a. induction xs as [|x xs IH]; intros a Hd; [done|].
  rewrite tail_of_cons. intros (H1 & H2 & H3) Hn Hp Ht Ht'.
  apply NoDup_cons in Hd as [Ha Hd]. simpl. rewrite Hn, Hp.
  - repeat split; [done..|]. apply IH; auto.
    + intros p Hin. apply Hn. by right.
    + intros p Hin. apply Hp. by right.
  - by left.
  - by left.
  - intros E. apply Ha. rewrite E. apply tail_of_in.
Qed.

Lemma circq_prev_head h l xs : circq h l xs -> cq_prev h l = tail_of l xs.
Proof.
  intros [_ Hp]. destruct xs as [|z xs _] using rev_ind; [apply Hp|].
  apply path_app in Hp. rewrite last_snoc. apply Hp.
Qed.

Lemma circq_next_head h l xs : circq h l xs -> cq_next h l = default l (head xs).
Proof. intros [_ Hp]. destruct xs; apply Hp. Qed.

Lemma circq_init h l : circq (CIRCQ_INIT l h) l [].
Proof.
  split; [apply NoDup_singleton|]. unfold CIRCQ_INIT. split; autorewrite with kernw;
    by rewrite decide_True.
Qed.

Lemma circq_last h l pre e post : circq h l (pre ++ e :: post) -> CIRCQ_LAST e l h = bool_decide (post = []).
Proof.
  intros [Hd Hp]. apply path_app in Hp as [_ Hp]. unfold CIRCQ_LAST. destruct post as [|x post]; destruct Hp as [Hn _]; rewrite Hn.
  - by rewrite Nat.eqb_refl.
  - apply Nat.eqb_neq. intros ->. apply NoDup_cons in Hd as [Hl _]. apply Hl. set_solver.
Qed.

Lemma circq_empty h l xs : circq h l xs -> CIRCQ_EMPTY l h = bool_decide (xs = []).
Proof.
  intros Hc. unfold CIRCQ_EMPTY. rewrite (circq_next_head _ _ _ Hc). destruct Hc as [Hd _].
  destruct xs as [|x xs]; simpl; [apply Nat.eqb_refl|].
  apply Nat.eqb_neq. intros ->. apply NoDup_cons in Hd as [Hd _]. apply Hd. by left.
Qed.

(** Pointer reads through updates whose targets are known to differ. *)
Ltac links :=
  autorewrite with kernw;
  repeat match goal with
  | |- context [decide (?a = ?b)] =>
      (rewrite (decide_False (P := a = b)) by congruence) ||
      (rewrite (decide_True (P := a = b)) by congruence)
  | E : cq_next ?h ?a = _ |- context [cq_next ?h ?a] => rewrite E
  | E : cq_prev ?h ?a = _ |- context [cq_prev ?h ?a] => rewrite E
  end; try done.

Lemma in_notin_ne (x y : nat) (l : list nat) : x ∈ l -> y ∉ l -> x <> y.
Proof. congruence. Qed.

Lemma circq_insert h l xs e : circq h l xs -> e ∉ l :: xs ->
  circq (CIRCQ_INSERT e l h) l (xs ++ [e]).
Proof.
  intros Hc He. pose proof (circq_prev_head _ _ _ Hc) as Hz. destruct Hc as [Hd Hp].
  pose proof (tail_of_in l xs) as Ht.
  assert (tail_of l xs <> e) as Hte by (by eapply in_notin_ne).
  assert (l <> e) as Hle by (eapply in_notin_ne; [|done]; by left).
  assert (cq_prev (set_next e l (set_prev e (cq_prev h l) h)) l = tail_of l xs) as Ep by (links).
  unfold CIRCQ_INSERT. rewrite Ep, Hz. split.
  - change (NoDup ((l :: xs) ++ [e])). apply NoDup_app. split; [done|].
    split; [|apply NoDup_singleton]. intros p Hin ->%list_elem_of_singleton. done.
  - apply path_app. split; [|split; links].
    eapply path_retarget; [done|exact Hp| | |links|links].
    + intros p Hin Hne. assert (p <> e) by (by eapply in_notin_ne). links.
    + intros p Hin. apply NoDup_cons in Hd as [Hl _].
      assert (p <> e) by (eapply in_notin_ne; [right; exact Hin|done]).
      assert (p <> l) by (by eapply in_notin_ne). links.
Qed.

Lemma NoDup_mid (xs : list nat) e ys : NoDup (xs ++ e :: ys) ->
  NoDup (xs ++ ys) /\ e ∉ xs /\ e ∉ ys.
Proof.
  intros (H1 & H2 & [H3 H4]%NoDup_cons)%NoDup_app. repeat split; auto.
  - apply NoDup_app. repeat split; auto. intros x Hx Hy. apply (H2 x Hx). by right.
  - intros Hin. apply (H2 e Hin). by left.
Qed.

Lemma circq_remove h l xs e ys : circq h l (xs ++ e :: ys) ->
  circq (CIRCQ_REMOVE e h) l (xs ++ ys).
Proof.
  intros [Hd Hp]. apply path_app in Hp as [Hp1 Hp2].
  change (NoDup ((l :: xs) ++ e :: ys)) in Hd.
  pose proof (NoDup_mid _ _ _ Hd) as (Hd' & Hex & Hey).
  assert (cq_prev h e = tail_of l xs) as Ep.
  { destruct xs as [|z xs _] using rev_ind; [apply Hp1|]. apply path_app in Hp1.
    rewrite last_snoc. apply Hp1. }
  assert (cq_next h e = default l (head ys)) as En by (destruct ys; apply Hp2).
  assert (e <> default l (head ys)) as Hne.
  { destruct ys as [|y ys]; simpl; intros ->; [apply Hex|apply Hey]; by left. }
  assert (cq_next (set_prev (cq_next h e) (cq_prev h e) h) e = default l (head ys)) as En' by links.
  assert (cq_prev (set_prev (cq_next h e) (cq_prev h e) h) e = tail_of l xs) as Ep' by links.
  pose proof (tail_of_in l xs) as Ht.
  apply NoDup_app in Hd' as Hd''. destruct Hd'' as (Hdx & Hxy & Hdy).
  unfold CIRCQ_REMOVE. rewrite En', Ep', En, Ep. split; [done|].
  assert (path (set_next (tail_of l xs) (default l (head ys))
    (set_prev (default l (head ys)) (tail_of l xs) h)) l xs (default l (head ys))) as Hfst.
  { eapply path_retarget; [done|exact Hp1| | |links|links].
    - intros p Hin Hpt. links.
    - intros p Hin. assert (p <> default l (head ys)); [|links].
      apply NoDup_cons in Hdx as [Hl _].
      destruct ys as [|y ys]; simpl; [by eapply in_notin_ne|]. intros ->.
      apply (Hxy y); [by right|by left]. }
  destruct ys as [|y ys]; simpl in *; [by rewrite app_nil_r|].
  apply path_app. split; [done|]. eapply path_frame; [| |apply Hp2].
  - intros p Hin. assert (p <> tail_of l xs); [|links]. intros ->. by apply (Hxy _ Ht).
  - intros p Hin. apply NoDup_cons in Hdy as [Hy _]. assert (p <> y); [|links].
    intros ->. apply elem_of_app in Hin as [Hin|Hin%list_elem_of_singleton]; [done|].
    subst l. apply (Hxy y); by left.
Qed.

(** Two disjoint queues: the second is emptied at the end of the first. *)
Lemma circq_append h f s xs ys : circq h f xs -> circq h s ys ->
  (forall p, p ∈ f :: xs -> p ∉ s :: ys) ->
  circq (CIRCQ_APPEND f s h) f (xs ++ ys) /\ circq (CIRCQ_APPEND f s h) s [].
Proof.
  intros Hf Hs Hdis. unfold CIRCQ_APPEND. rewrite (circq_empty _ _ _ Hs).
  destruct ys as [|y ys]; [rewrite bool_decide_true by done; rewrite app_nil_r; done|].
  rewrite bool_decide_false by done. split; [|apply circq_init].
  pose proof (circq_prev_head _ _ _ Hf) as Ef. pose proof (circq_next_head _ _ _ Hs) as Es.
  pose proof (circq_prev_head _ _ _ Hs) as Ez. rewrite tail_of_cons in Ez. simpl in Es.
  destruct Hf as [Hdf Hpf], Hs as [Hds (_ & _ & Hps)].
  pose proof (tail_of_in f xs) as Ha. pose proof (tail_of_in y ys) as Hz.
  set (a := tail_of f xs) in *. set (z := tail_of y ys) in *.
  apply NoDup_cons in Hds as Hds'. destruct Hds' as [Hsy Hdy].
  assert (forall p, p ∈ f :: xs -> p <> s /\ p <> y /\ p <> z) as Hfx.
  { intros p Hin. pose proof (Hdis p Hin) as Hn. repeat split; intros ->; apply Hn; set_solver. }
  assert (forall p, p ∈ y :: ys -> p <> s /\ p <> f /\ p <> a) as Hyx.
  { intros p Hin. repeat split; intros ->; [done|apply (Hdis f)|apply (Hdis a)]; set_solver. }
  destruct (Hfx f) as (? & ? & ?); [by left|]. destruct (Hfx a Ha) as (? & ? & ?).
  destruct (Hyx z Hz) as (? & ? & ?). destruct (Hyx y) as (? & ? & ?); [by left|].
  split.
  { change (NoDup ((f :: xs) ++ y :: ys)). apply NoDup_app. repeat split; [done| |done].
    intros p Hp Hin. apply (Hdis p Hp). by right. }
  unfold CIRCQ_INIT. rewrite Ef, Es. apply path_app. split.
  - eapply path_retarget; [done|exact Hpf| | | |]; fold a; [| |links|links].
    + intros p Hin Hne. destruct (Hfx p Hin) as (? & ? & ?). links.
    + intros p Hin. apply NoDup_cons in Hdf as [Hf _]. destruct (Hfx p) as (? & ? & ?); [by right|].
      assert (p <> f) by (by eapply in_notin_ne). links.
  - eapply path_retarget; [done|exact Hps| | | |]; fold z; [| |links|links].
    + intros p Hin Hne. destruct (Hyx p Hin) as (? & ? & ?). links.
    + intros p Hin. apply NoDup_cons in Hdy as [Hy _]. destruct (Hyx p) as (? & ? & ?); [by right|].
      assert (p <> y) by (by eapply in_notin_ne). links.
Qed.

(** ** Families of queues

    The wheel buckets and the todo list of one CPU live in the same pointers.
    [queues h qs]: every head of [qs] denotes its list, and no node is on two
    of them. *)

Definition queues (h : links) (qs : gmap nat (list nat)) : Prop :=
  (forall l xs, qs !! l = Some xs -> circq h l xs) /\
  (forall l xs l' xs' p, qs !! l = Some xs -> qs !! l' = Some xs' -> l <> l' ->
     p ∈ l :: xs -> p ∉ l' :: xs').

Definition off_queue (e : nat) (qs : gmap nat (list nat)) : Prop :=
  map_Forall (fun l xs => e ∉ l :: xs) qs.

(** A node other than those of the queue at hand keeps its pointers. *)
Definition untouched (h h' : links) (p : nat) : Prop :=
  cq_next h' p = cq_next h p /\ cq_prev h' p = cq_prev h p.

Lemma insert_local h l xs e p : circq h l xs -> p ∉ l :: xs -> p <> e ->
  untouched h (CIRCQ_INSERT e l h) p.
Proof.
  intros Hc Hp Hpe. pose proof (circq_prev_head _ _ _ Hc) as Hz.
  pose proof (tail_of_in l xs) as Ht.
  assert (p <> tail_of l xs) by (intros ->; done).
  assert (p <> l) by (intros ->; apply Hp; by left).
  unfold CIRCQ_INSERT, untouched.
  assert (cq_prev (set_next e l (set_prev e (cq_prev h l) h)) l = tail_of l xs) as ->.
  { autorewrite with kernw. case_decide; congruence. }
  split; links.
Qed.

Lemma remove_local h l xs e ys p : circq h l (xs ++ e :: ys) -> p ∉ l :: xs ++ e :: ys ->
  untouched h (CIRCQ_REMOVE e h) p.
Proof.
  intros [Hd Hc] Hp. apply path_app in Hc as [Hp1 Hp2].
  assert (cq_prev h e ∈ l :: xs ++ e :: ys) as H1.
  { destruct xs as [|z xs _] using rev_ind; [destruct Hp1 as [_ ->]; by left|].
    apply path_app in Hp1 as [_ [_ ->]]. set_solver. }
  assert (cq_next h e ∈ l :: xs ++ e :: ys) as H2.
  { destruct ys as [|y ys]; [destruct Hp2 as [-> _]; by left|]. destruct Hp2 as [-> _]. set_solver. }
  assert (cq_next h e <> e) as H3.
  { change (NoDup ((l :: xs) ++ e :: ys)) in Hd. apply NoDup_mid in Hd as (_ & He & Hy).
    destruct ys as [|y ys]; destruct Hp2 as [-> _]; intros ->; [apply He|apply Hy]; by left. }
  assert (p <> cq_prev h e) by congruence. assert (p <> cq_next h e) by congruence.
  unfold CIRCQ_REMOVE, untouched. split; links.
Qed.

Lemma append_local h f s xs ys p : circq h f xs -> circq h s ys ->
  p ∉ f :: xs -> p ∉ s :: ys -> f <> s -> f ∉ ys -> s ∉ xs ->
  untouched h (CIRCQ_APPEND f s h) p.
Proof.
  intros Hf Hs Hpf Hps Hfs Hfy Hsx. unfold CIRCQ_APPEND. destruct (CIRCQ_EMPTY s h); [done|].
  assert (cq_prev h f ∈ f :: xs) as H1 by (rewrite (circq_prev_head _ _ _ Hf); apply tail_of_in).
  assert (cq_prev h s ∈ s :: ys) as H2 by (rewrite (circq_prev_head _ _ _ Hs); apply tail_of_in).
  assert (cq_next h s ∈ s :: ys) as H3.
  { rewrite (circq_next_head _ _ _ Hs). destruct ys; simpl; set_solver. }
  assert (p <> cq_prev h f) by congruence. assert (p <> cq_prev h s) by congruence.
  assert (p <> cq_next h s) by congruence.
  assert (p <> f) by (intros ->; apply Hpf; by left). assert (p <> s) by (intros ->; apply Hps; by left).
  assert (s <> cq_prev h f) as Hsf.
  { intros E. rewrite <-E in H1. apply elem_of_cons in H1 as [?|?]; congruence. }
  unfold CIRCQ_INIT, untouched. split; autorewrite with kernw; repeat case_decide; congruence.
Qed.

Lemma circq_untouched h h' l xs :
  (forall p, p ∈ l :: xs -> untouched h h' p) -> circq h l xs -> circq h' l xs.
Proof. apply circq_frame. Qed.

(** The steps the callout code makes on its queues, by pointers and by lists. *)
Inductive cq_op :=
| OpInit (l : nat)
| OpInsert (e l : nat)
| OpRemove (e l : nat)
| OpAppend (f s : nat).

Definition op_links (o : cq_op) (h : links) : links :=
  match o with
  | OpInit l => CIRCQ_INIT l h
  | OpInsert e l => CIRCQ_INSERT e l h
  | OpRemove e _ => CIRCQ_REMOVE e h
  | OpAppend f s => CIRCQ_APPEND f s h
  end.

Definition op_lists (o : cq_op) (qs : gmap nat (list nat)) : gmap nat (list nat) :=
  match o with
  | OpInit l => <[l := []]> qs
  | OpInsert e l => <[l := qs !!! l ++ [e]]> qs
  | OpRemove e l => <[l := filter (fun x => x <> e) (qs !!! l)]> qs
  | OpAppend f s => <[s := []]> (<[f := qs !!! f ++ qs !!! s]> qs)
  end.

(** What the callers guarantee: INIT and INSERT of a node on no queue, REMOVE
    of a node from the queue it is on, APPEND of two distinct queues. *)
Definition op_ok (o : cq_op) (qs : gmap nat (list nat)) : Prop :=
  match o with
  | OpInit l => off_queue l qs
  | OpInsert e l => is_Some (qs !! l) /\ off_queue e qs
  | OpRemove e l => is_Some (qs !! l) /\ e ∈ qs !!! l
  | OpAppend f s => is_Some (qs !! f) /\ is_Some (qs !! s) /\ f <> s
  end.

Fixpoint ops_ok (os : list cq_op) (qs : gmap nat (list nat)) : Prop :=
  match os with
  | [] => True
  | o :: os => op_ok o qs /\ ops_ok os (op_lists o qs)
  end.

#[export] Instance op_ok_dec o qs : Decision (op_ok o qs).
Proof. destruct o; simpl; unfold off_queue; apply _. Defined.
#[export] Instance ops_ok_dec os qs : Decision (ops_ok os qs).
Proof. revert qs. induction os; intros qs; simpl; apply _. Defined.

Definition run_links (os : list cq_op) (h : links) : links := fold_left (fun h o => op_links o h) os h.
Definition run_lists (os : list cq_op) (qs : gmap nat (list nat)) : gmap nat (list nat) :=
  fold_left (fun qs o => op_lists o qs) os qs.

Lemma queues_update h h' qs l ys : queues h qs -> circq h' l ys ->
  (forall l' xs' p, l <> l' -> qs !! l' = Some xs' -> p ∈ l' :: xs' ->
     untouched h h' p /\ p ∉ l :: ys) ->
  queues h' (<[l := ys]> qs).
Proof.
  intros [Hq Hd] Hc Hl. split.
  - intros l' xs' [[<- <-]|[Hne E]]%lookup_insert_Some; [done|].
    eapply circq_untouched; [|by apply Hq]. intros p Hin. by eapply Hl.
  - intros l1 xs1 l2 xs2 p [[<- <-]|[Hne1 E1]]%lookup_insert_Some
      [[<- <-]|[Hne2 E2]]%lookup_insert_Some Hne Hin Hin2; try done.
    + by destruct (Hl _ _ _ Hne E2 Hin2).
    + by destruct (Hl _ _ _ Hne1 E1 Hin).
    + exact (Hd _ _ _ _ _ E1 E2 Hne Hin Hin2).
Qed.

Lemma queues_delete h qs l : queues h qs -> queues h (delete l qs).
Proof.
  intros [Hq Hd]. split.
  - intros l' xs' [_ E]%lookup_delete_Some. by apply Hq.
  - intros l1 xs1 l2 xs2 p [_ E1]%lookup_delete_Some [_ E2]%lookup_delete_Some. by eapply Hd.
Qed.

Lemma filter_ne_app (e : nat) xs ys : e ∉ xs -> e ∉ ys ->
  filter (fun x => x <> e) (xs ++ e :: ys) = xs ++ ys.
Proof.
  assert (forall l : list nat, e ∉ l -> filter (fun x => x <> e) l = l) as Hid.
  { induction l as [|x l IH]; intros [Hx Hl]%not_elem_of_cons || intros _; [done|].
    rewrite filter_cons, decide_True by congruence. by rewrite IH. }
  intros Hx Hy. rewrite filter_app, filter_cons, decide_False by tauto. by rewrite !Hid.
Qed.

Lemma op_refines o h qs : queues h qs -> op_ok o qs -> queues (op_links o h) (op_lists o qs).
Proof.
  intros HQ Hok. pose proof HQ as [Hq Hd]. destruct o as [l|e l|e l|f s]; simpl in *.
  - eapply queues_update; [done|apply circq_init|]. intros l' xs' p Hne E Hin.
    assert (p <> l) by (intros ->; exact (Hok _ _ E Hin)).
    split; [|set_solver]. unfold untouched, CIRCQ_INIT. split; links.
  - destruct Hok as [[xs E] Hoff]. rewrite (lookup_total_correct _ _ _ E).
    eapply queues_update; [done|apply circq_insert; eauto|]. intros l' xs' p Hne E' Hin.
    assert (p <> e) by (intros ->; exact (Hoff _ _ E' Hin)).
    assert (p ∉ l :: xs) by (eapply Hd; eauto).
    split; [eapply insert_local; eauto|]. set_solver.
  - destruct Hok as ([xs E] & Hin). rewrite (lookup_total_correct _ _ _ E) in *.
    pose proof (Hq _ _ E) as Hc. apply list_elem_of_split in Hin as (a & b & ->).
    pose proof Hc as [[_ Hnd]%NoDup_cons _]. apply NoDup_mid in Hnd as (_ & ? & ?).
    rewrite filter_ne_app by done.
    eapply queues_update; [done|eapply circq_remove, Hc|]. intros l' xs' p Hne E' Hin.
    assert (p ∉ l :: a ++ e :: b) by (eapply Hd; eauto).
    split; [eapply remove_local; eauto|]. set_solver.
  - destruct Hok as ([xs Ef] & [ys Es] & Hne).
    rewrite (lookup_total_correct _ _ _ Ef), (lookup_total_correct _ _ _ Es).
    assert (forall p, p ∈ f :: xs -> p ∉ s :: ys) as Hdis by (intros p; eapply Hd; eauto).
    destruct (circq_append h f s xs ys) as [Hc1 Hc2]; eauto.
    assert (forall p, p ∈ s :: ys -> p ∉ f :: xs) as Hdis' by (intros p Hp Hp'; by apply (Hdis p)).
    assert (forall l' xs' p, f <> l' -> s <> l' -> qs !! l' = Some xs' -> p ∈ l' :: xs' ->
      untouched h (CIRCQ_APPEND f s h) p /\ p ∉ f :: xs ++ ys /\ p ∉ s :: ys) as Hout.
    { intros l' xs' p H1 H2 E' Hin.
      assert (p ∉ f :: xs) by (eapply Hd; eauto). assert (p ∉ s :: ys) by (eapply Hd; eauto).
      split; [eapply append_local; eauto; [set_solver|]|set_solver].
      intros Hs. apply (Hdis' s); set_solver. }
    replace (<[s:=[]]> (<[f:=xs ++ ys]> qs)) with (<[s:=[]]> (<[f:=xs ++ ys]> (delete s qs)));
      [|by rewrite insert_insert_ne, insert_delete_eq, insert_insert_ne by done].
    apply (queues_update (CIRCQ_APPEND f s h)); [|done|].
    + eapply queues_update; [apply queues_delete, HQ|done|].
      intros l' xs' p H1 [H2 E']%lookup_delete_Some Hin.
      destruct (Hout l' xs' p) as (? & ? & _); auto.
    + intros l' xs' p H1 E' Hin. split; [done|]. intros ->%list_elem_of_singleton.
      apply lookup_insert_Some in E' as [[<- <-]|[H2 [_ E']%lookup_delete_Some]].
      * pose proof (Hq _ _ Es) as [[Hsy _]%NoDup_cons _].
        apply elem_of_cons in Hin as [->|[Hin|Hin]%elem_of_app]; [done| |done].
        apply (Hdis s); [by right|by left].
      * eapply (Hd l' xs' s ys s); eauto. by left.
Qed.

Lemma run_refines os h qs : queues h qs -> ops_ok os qs ->
  queues (run_links os h) (run_lists os qs).
Proof.
  revert h qs. induction os as [|o os IH]; intros h qs HQ Hok; [done|].
  destruct Hok as [Ho Hok]. apply IH; [by apply op_refines|done].
Qed.

Lemma queues_empty h : queues h ∅.
Proof. split; intros *; rewrite lookup_empty; done. Qed.

(** C38. The CIRCQ pointer macros implement lists: any sequence of INIT, INSERT, REMOVE
    and APPEND within their preconditions keeps the links a circular representation of
    the lists the same operations build; EMPTY says whether the list is empty, FIRST
    gives its head, and LAST says of an element of the list whether it is the last one.
    *)
Theorem circq_refines_lists os h :
  ops_ok os ∅ ->
  queues (run_links os h) (run_lists os ∅) /\
  forall l xs, run_lists os ∅ !! l = Some xs ->
    CIRCQ_EMPTY l (run_links os h) = bool_decide (xs = []) /\
    CIRCQ_FIRST l (run_links os h) = default l (head xs) /\
    forall pre e post, xs = pre ++ e :: post -> CIRCQ_LAST e l (run_links os h) = bool_decide (post = []).
Proof.
  intros Hok. pose proof (run_refines os h ∅ (queues_empty h) Hok) as HQ.
  split; [done|]. intros l xs E. pose proof (proj1 HQ _ _ E) as Hc. repeat split.
  - by apply circq_empty.
  - by apply circq_next_head.
  - intros pre e post ->. by apply (circq_last _ _ pre).
Qed.

Definition circq_demo : list cq_op :=
  [OpInit 0; OpInit 1; OpInsert 5 0; OpInsert 6 0; OpInsert 7 1; OpRemove 5 0; OpAppend 1 0]%nat.

Lemma circq_refines_lists_witness :
  run_lists circq_demo ∅ = {[ 0%nat := []; 1%nat := [7; 6]%nat ]} /\
  queues (run_links circq_demo (mk_links ∅ ∅)) (run_lists circq_demo ∅).
Proof.
  split; [vm_compute; reflexivity|]. apply circq_refines_lists.
  apply (bool_decide_unpack _). vm_compute. exact I.
Defined.
