(* ===== verification/Callout.v ===== *)
(** * Callouts

    kernel/kern/kern_timeout.c and kernel/sys/callout.h.  Each CPU has a
    worklist [cc_todo] and four wheels of 256 buckets; [Circq] shows that the
    pointer queues are the lists used here.  Every operation runs under the
    CPU's [cc_lock], so it is one atomic step; [callout_softclock] drops the
    lock around the callback and is split there.  [curcpu()], [curlwp],
    [getticks()] and the outcome of [mutex_tryenter] are inputs. *)

From stdpp Require Import base numbers list gmap strings.
From S2P Require Import Prelude Text Sysctl Lwp Lpsched.

Definition BUCKETS : nat := 1024.
Definition WHEELSIZE : nat := 256.
Definition WHEELMASK : Z := 255.
Definition WHEELBITS : Z := 8.

Definition CALLOUT_BOUND : Z := 0x0001.
Definition CALLOUT_PENDING : Z := 0x0002.
Definition CALLOUT_FIRED : Z := 0x0004.
Definition CALLOUT_INVOKING : Z := 0x0008.
Definition CALLOUT_MPSAFE : Z := 0x0100.
Definition CALLOUT_PRECISE : Z := 0x0200.
Definition CALLOUT_SLACK : Z := 0x0400.
Definition CALLOUT_DEFERRABLE : Z := 0x0800.
Definition CALLOUT_FLAGMASK : Z := 0xff00.
Definition CALLOUT_MAGIC : Z := 0x11deeba1.

(** [callout_impl_t]: the queue linkage is the queue's list; [c_cpu] names
    the CPU whose [callout_cpu] it points at. *)
Record callout_impl := mk_callout {
  c_func : option nat;
  c_arg : Z;
  c_cpu : nat;
  c_time : Z;
  c_flags : Z;
  c_magic : Z
}.

Definition set_c_func (v : option nat) (r : callout_impl) : callout_impl :=
  mk_callout v (c_arg r) (c_cpu r) (c_time r) (c_flags r) (c_magic r).
Definition set_c_arg (v : Z) (r : callout_impl) : callout_impl :=
  mk_callout (c_func r) v (c_cpu r) (c_time r) (c_flags r) (c_magic r).
Definition set_c_cpu (v : nat) (r : callout_impl) : callout_impl :=
  mk_callout (c_func r) (c_arg r) v (c_time r) (c_flags r) (c_magic r).
Definition set_c_time (v : Z) (r : callout_impl) : callout_impl :=
  mk_callout (c_func r) (c_arg r) (c_cpu r) v (c_flags r) (c_magic r).
Definition set_c_flags (v : Z) (r : callout_impl) : callout_impl :=
  mk_callout (c_func r) (c_arg r) (c_cpu r) (c_time r) v (c_magic r).
Definition set_c_magic (v : Z) (r : callout_impl) : callout_impl :=
  mk_callout (c_func r) (c_arg r) (c_cpu r) (c_time r) (c_flags r) v.

Record callout_cpu := mk_callout_cpu {
  cc_sleepq : list nat;
  cc_nwait : Z;
  cc_ticks : Z;
  cc_lwp : option nat;
  cc_active : option nat;
  cc_ev_late : Z;
  cc_ev_block : Z;
  cc_todo : list nat;
  cc_wheel : list (list nat);
  cc_next_gen : Z;
  cc_next_none : bool;
  cc_next_time : Z;
  cc_next_hits : Z;
  cc_next_scans : Z;
  cc_deferred_skips : Z
}.

Definition set_cc_sleepq (v : list nat) (r : callout_cpu) : callout_cpu :=
  mk_callout_cpu v (cc_nwait r) (cc_ticks r) (cc_lwp r) (cc_active r)
    (cc_ev_late r) (cc_ev_block r) (cc_todo r) (cc_wheel r) (cc_next_gen r)
    (cc_next_none r) (cc_next_time r) (cc_next_hits r) (cc_next_scans r)
    (cc_deferred_skips r).
Definition set_cc_nwait (v : Z) (r : callout_cpu) : callout_cpu :=
  mk_callout_cpu (cc_sleepq r) v (cc_ticks r) (cc_lwp r) (cc_active r)
    (cc_ev_late r) (cc_ev_block r) (cc_todo r) (cc_wheel r) (cc_next_gen r)
    (cc_next_none r) (cc_next_time r) (cc_next_hits r) (cc_next_scans r)
    (cc_deferred_skips r).
Definition set_cc_ticks (v : Z) (r : callout_cpu) : callout_cpu :=
  mk_callout_cpu (cc_sleepq r) (cc_nwait r) v (cc_lwp r) (cc_active r)
    (cc_ev_late r) (cc_ev_block r) (cc_todo r) (cc_wheel r) (cc_next_gen r)
    (cc_next_none r) (cc_next_time r) (cc_next_hits r) (cc_next_scans r)
    (cc_deferred_skips r).
Definition set_cc_lwp (v : option nat) (r : callout_cpu) : callout_cpu :=
  mk_callout_cpu (cc_sleepq r) (cc_nwait r) (cc_ticks r) v (cc_active r)
    (cc_ev_late r) (cc_ev_block r) (cc_todo r) (cc_wheel r) (cc_next_gen r)
    (cc_next_none r) (cc_next_time r) (cc_next_hits r) (cc_next_scans r)
    (cc_deferred_skips r).
Definition set_cc_active (v : option nat) (r : callout_cpu) : callout_cpu :=
  mk_callout_cpu (cc_sleepq r) (cc_nwait r) (cc_ticks r) (cc_lwp r) v
    (cc_ev_late r) (cc_ev_block r) (cc_todo r) (cc_wheel r) (cc_next_gen r)
    (cc_next_none r) (cc_next_time r) (cc_next_hits r) (cc_next_scans r)
    (cc_deferred_skips r).
Definition set_cc_ev_late (v : Z) (r : callout_cpu) : callout_cpu :=
  mk_callout_cpu (cc_sleepq r) (cc_nwait r) (cc_ticks r) (cc_lwp r) (cc_active
    r) v (cc_ev_block r) (cc_todo r) (cc_wheel r) (cc_next_gen r)
    (cc_next_none r) (cc_next_time r) (cc_next_hits r) (cc_next_scans r)
    (cc_deferred_skips r).
Definition set_cc_ev_block (v : Z) (r : callout_cpu) : callout_cpu :=
  mk_callout_cpu (cc_sleepq r) (cc_nwait r) (cc_ticks r) (cc_lwp r) (cc_active
    r) (cc_ev_late r) v (cc_todo r) (cc_wheel r) (cc_next_gen r) (cc_next_none
    r) (cc_next_time r) (cc_next_hits r) (cc_next_scans r) (cc_deferred_skips
    r).
Definition set_cc_todo (v : list nat) (r : callout_cpu) : callout_cpu :=
  mk_callout_cpu (cc_sleepq r) (cc_nwait r) (cc_ticks r) (cc_lwp r) (cc_active
    r) (cc_ev_late r) (cc_ev_block r) v (cc_wheel r) (cc_next_gen r)
    (cc_next_none r) (cc_next_time r) (cc_next_hits r) (cc_next_scans r)
    (cc_deferred_skips r).
Definition set_cc_wheel (v : list (list nat)) (r : callout_cpu) : callout_cpu :=
  mk_callout_cpu (cc_sleepq r) (cc_nwait r) (cc_ticks r) (cc_lwp r) (cc_active
    r) (cc_ev_late r) (cc_ev_block r) (cc_todo r) v (cc_next_gen r)
    (cc_next_none r) (cc_next_time r) (cc_next_hits r) (cc_next_scans r)
    (cc_deferred_skips r).
Definition set_cc_next_gen (v : Z) (r : callout_cpu) : callout_cpu :=
  mk_callout_cpu (cc_sleepq r) (cc_nwait r) (cc_ticks r) (cc_lwp r) (cc_active
    r) (cc_ev_late r) (cc_ev_block r) (cc_todo r) (cc_wheel r) v (cc_next_none
    r) (cc_next_time r) (cc_next_hits r) (cc_next_scans r) (cc_deferred_skips
    r).
Definition set_cc_next_none (v : bool) (r : callout_cpu) : callout_cpu :=
  mk_callout_cpu (cc_sleepq r) (cc_nwait r) (cc_ticks r) (cc_lwp r) (cc_active
    r) (cc_ev_late r) (cc_ev_block r) (cc_todo r) (cc_wheel r) (cc_next_gen r)
    v (cc_next_time r) (cc_next_hits r) (cc_next_scans r) (cc_deferred_skips
    r).
Definition set_cc_next_time (v : Z) (r : callout_cpu) : callout_cpu :=
  mk_callout_cpu (cc_sleepq r) (cc_nwait r) (cc_ticks r) (cc_lwp r) (cc_active
    r) (cc_ev_late r) (cc_ev_block r) (cc_todo r) (cc_wheel r) (cc_next_gen r)
    (cc_next_none r) v (cc_next_hits r) (cc_next_scans r) (cc_deferred_skips
    r).
Definition set_cc_next_hits (v : Z) (r : callout_cpu) : callout_cpu :=
  mk_callout_cpu (cc_sleepq r) (cc_nwait r) (cc_ticks r) (cc_lwp r) (cc_active
    r) (cc_ev_late r) (cc_ev_block r) (cc_todo r) (cc_wheel r) (cc_next_gen r)
    (cc_next_none r) (cc_next_time r) v (cc_next_scans r) (cc_deferred_skips
    r).
Definition set_cc_next_scans (v : Z) (r : callout_cpu) : callout_cpu :=
  mk_callout_cpu (cc_sleepq r) (cc_nwait r) (cc_ticks r) (cc_lwp r) (cc_active
    r) (cc_ev_late r) (cc_ev_block r) (cc_todo r) (cc_wheel r) (cc_next_gen r)
    (cc_next_none r) (cc_next_time r) (cc_next_hits r) v (cc_deferred_skips
    r).
Definition set_cc_deferred_skips (v : Z) (r : callout_cpu) : callout_cpu :=
  mk_callout_cpu (cc_sleepq r) (cc_nwait r) (cc_ticks r) (cc_lwp r) (cc_active
    r) (cc_ev_late r) (cc_ev_block r) (cc_todo r) (cc_wheel r) (cc_next_gen r)
    (cc_next_none r) (cc_next_time r) (cc_next_hits r) (cc_next_scans r) v.

(** All callout state: the callouts by address, the CPUs whose [cpu_callout]
    is not NULL ([callout_cpu0] is CPU 0's), the deferrable policy with its
    generation, and the lpsched variables the coalescing reads. *)
Record csys := mk_csys {
  cs_callouts : gmap nat callout_impl;
  cs_cpus : gmap nat callout_cpu;
  callout_deferrable_enabled : Z;
  callout_next_gen : Z;
  cs_lp : lpsched
}.

Definition set_cs_callouts (v : gmap nat callout_impl) (r : csys) : csys :=
  mk_csys v (cs_cpus r) (callout_deferrable_enabled r) (callout_next_gen r)
    (cs_lp r).
Definition set_cs_cpus (v : gmap nat callout_cpu) (r : csys) : csys :=
  mk_csys (cs_callouts r) v (callout_deferrable_enabled r) (callout_next_gen
    r) (cs_lp r).
Definition set_callout_deferrable_enabled (v : Z) (r : csys) : csys :=
  mk_csys (cs_callouts r) (cs_cpus r) v (callout_next_gen r) (cs_lp r).
Definition set_callout_next_gen (v : Z) (r : csys) : csys :=
  mk_csys (cs_callouts r) (cs_cpus r) (callout_deferrable_enabled r) v (cs_lp
    r).
Definition set_cs_lp (v : lpsched) (r : csys) : csys :=
  mk_csys (cs_callouts r) (cs_cpus r) (callout_deferrable_enabled r)
    (callout_next_gen r) v.

Definition zero_cc : callout_cpu :=
  mk_callout_cpu [] 0 0 None None 0 0 [] (replicate BUCKETS []) 0 false 0 0 0 0.
Definition zero_callout : callout_impl := mk_callout None 0 0 0 0 0.

#[export] Instance callout_cpu_inhabited : Inhabited callout_cpu := populate zero_cc.
#[export] Instance callout_impl_inhabited : Inhabited callout_impl := populate zero_callout.

Definition cof (s : csys) (c : nat) : callout_impl := cs_callouts s !!! c.
Definition ccof (s : csys) (k : nat) : callout_cpu := cs_cpus s !!! k.
Definition on_callout (c : nat) (f : callout_impl -> callout_impl) (s : csys) : csys :=
  set_cs_callouts (alter f c (cs_callouts s)) s.
Definition on_cc (k : nat) (f : callout_cpu -> callout_cpu) (s : csys) : csys :=
  set_cs_cpus (alter f k (cs_cpus s)) s.

(** What the calling thread is: its CPU, its LWP, the shared tick count and
    whether [mutex_tryenter(cc->cc_lock)] succeeds. *)
Record caller := mk_caller {
  e_cpu : nat;
  e_lwp : nat;
  e_ticks : Z;
  e_trylock : bool
}.

(** ** The wheel macros *)

Definition MASKWHEEL (wheel : Z) (time : Z) : Z :=
  Z.land (Z.shiftr time (wheel * WHEELBITS)) WHEELMASK.

Definition bucket_index (wheel : Z) (time : Z) : nat :=
  Z.to_nat (MASKWHEEL wheel time + wheel * Z.of_nat WHEELSIZE).

Definition BUCKET (rel abs : Z) : nat :=
  if rel <=? Z.shiftl 1 (2 * WHEELBITS)
  then if rel <=? Z.shiftl 1 WHEELBITS then bucket_index 0 abs else bucket_index 1 abs
  else if rel <=? Z.shiftl 1 (3 * WHEELBITS) then bucket_index 2 abs
       else bucket_index 3 abs.

Definition MOVEBUCKET (wheel time : Z) (k : callout_cpu) : callout_cpu :=
  let b := bucket_index wheel time in
  set_cc_wheel (<[b := []]> (cc_wheel k))
    (set_cc_todo (cc_todo k ++ cc_wheel k !!! b) k).

(** CIRCQ_REMOVE: from the queue the callout is on. *)
Definition queue_remove (c : nat) (k : callout_cpu) : callout_cpu :=
  set_cc_wheel (map (filter (fun x => x <> c)) (cc_wheel k))
    (set_cc_todo (filter (fun x => x <> c) (cc_todo k)) k).

Definition todo_insert (c : nat) (k : callout_cpu) : callout_cpu :=
  set_cc_todo (cc_todo k ++ [c]) k.

Definition wheel_insert (c : nat) (b : nat) (k : callout_cpu) : callout_cpu :=
  set_cc_wheel (alter (fun q => q ++ [c]) b (cc_wheel k)) k.

(** ** Initialisation *)

Definition callout_startup (s : csys) : csys :=
  set_cs_cpus (<[0%nat := zero_cc]> (cs_cpus s)) s.

(** kmem_zalloc and CIRCQ_INIT for a secondary CPU; the boot CPU only
    establishes the soft interrupt.  [sleepq_init] empties the sleep queue. *)
Definition callout_init_cpu (ci : nat) (s : csys) : csys :=
  let k := match cs_cpus s !! ci with None => zero_cc | Some k => k end in
  set_cs_cpus (<[ci := set_cc_sleepq [] k]> (cs_cpus s)) s.

Definition callout_init (e : caller) (c : nat) (flags : Z) (s : csys) : csys :=
  let old := cof s c in
  let '(fl, cpu) :=
    match cs_cpus s !! e_cpu e with
    | Some _ => if has_flag flags CALLOUT_MPSAFE then (flags, e_cpu e)
                else (set_flag flags CALLOUT_BOUND, 0%nat)
    | None => (set_flag flags CALLOUT_BOUND, 0%nat)
    end in
  set_cs_callouts
    (<[c := mk_callout None (c_arg old) cpu (c_time old) fl CALLOUT_MAGIC]>
      (cs_callouts s)) s.

Definition callout_running_somewhere_else (e : caller) (s : csys) (c : nat) : bool :=
  let k := ccof s (c_cpu (cof s c)) in
  bool_decide (cc_active k = Some c) && negb (bool_decide (cc_lwp k = Some (e_lwp e))).

Definition callout_destroy (c : nat) (s : csys) : csys := on_callout c (set_c_magic 0) s.

(** ** Scheduling *)

Section schedule.
Context `{M : Machine}.

Definition lpsched_coalesce (e : caller) (c : callout_impl) (to_ticks now : Z)
    (lp : lpsched) : Z * lpsched :=
  let abs := i32 (to_ticks + now) in
  if ((lpsched_enabled lp =? 0) || (lpsched_coalesce_ms lp =? 0)) || (to_ticks =? 0)
  then (abs, lp)
  else if has_flag (c_flags c) CALLOUT_PRECISE
  then (abs, lpsched_stat (e_cpu e) LPSCHED_ST_COAL_PRECISE lp)
  else if negb (has_flag (c_flags c) CALLOUT_SLACK)
  then (abs, lpsched_stat (e_cpu e) LPSCHED_ST_COAL_NOSLACK lp)
  else
    let grid := mstohz (lpsched_coalesce_ms lp) in
    if grid <=? 1 then (abs, lp)
    else if to_ticks <? 2 * grid
    then (abs, lpsched_stat (e_cpu e) LPSCHED_ST_COAL_SHORT lp)
    else
      let rem := u32 (e_ticks e + to_ticks) mod u32 grid in
      let delta := if nz rem then grid - rem else 0 in
      (i32 (abs + delta),
       if nz delta then lpsched_stat (e_cpu e) LPSCHED_ST_COAL_APPLIED lp else lp).

(** [c->c_time = lpsched_coalesce(c, to_ticks, cc->cc_ticks)] *)
Definition assign_time (e : caller) (c : nat) (to_ticks : Z) (cpu : nat) (s : csys) : csys :=
  let '(t, lp) := lpsched_coalesce e (cof s c) to_ticks (i32 (cc_ticks (ccof s cpu))) (cs_lp s) in
  on_callout c (set_c_time t) (set_cs_lp lp s).

Definition callout_schedule_locked (e : caller) (c : nat) (to_ticks : Z) (s : csys) : csys :=
  let occ := c_cpu (cof s c) in
  let s := on_callout c (fun i => set_c_flags
             (clr_flag (c_flags i) (Z.lor CALLOUT_FIRED CALLOUT_INVOKING)) i) s in
  if has_flag (c_flags (cof s c)) CALLOUT_PENDING then
    let old_time := c_time (cof s c) in
    let s := assign_time e c to_ticks occ s in
    if i32 (c_time (cof s c) - old_time) <? 0
    then on_cc occ (fun k => todo_insert c (queue_remove c k)) s
    else s
  else
    let cc := e_cpu e in
    let pend i := set_c_flags (set_flag (c_flags i) CALLOUT_PENDING) i in
    if has_flag (c_flags (cof s c)) CALLOUT_BOUND || (cc =? occ)%nat || negb (e_trylock e)
    then on_cc occ (todo_insert c) (on_callout c pend (assign_time e c to_ticks occ s))
    else
      let s := on_callout c (set_c_cpu cc) s in
      on_cc cc (todo_insert c) (on_callout c pend (assign_time e c to_ticks cc s)).

Definition callout_setfunc (c : nat) (func : nat) (arg : Z) (s : csys) : csys :=
  on_callout c (fun i => set_c_arg arg (set_c_func (Some func) i)) s.

Definition callout_reset (e : caller) (c : nat) (to_ticks : Z) (func : nat) (arg : Z)
    (s : csys) : csys :=
  callout_schedule_locked e c to_ticks
    (on_callout c (fun i => set_c_arg arg (set_c_func (Some func) i)) s).

Definition callout_schedule (e : caller) (c : nat) (to_ticks : Z) (s : csys) : csys :=
  callout_schedule_locked e c to_ticks s.

End schedule.

(** ** Stopping *)

Definition clear_pending (c : nat) (s : csys) : csys :=
  let i := cof s c in
  let s := if has_flag (c_flags i) CALLOUT_PENDING
           then on_cc (c_cpu i) (queue_remove c) s else s in
  on_callout c (fun i => set_c_flags
    (clr_flag (c_flags i) (Z.lor CALLOUT_PENDING CALLOUT_FIRED)) i) s.

Definition callout_stop (c : nat) (s : csys) : bool * csys :=
  (has_flag (c_flags (cof s c)) CALLOUT_FIRED, clear_pending c s).

(** One turn of the loop of [callout_wait]: done, the interlock dropped, or
    asleep on the CPU's sleep queue. *)
Inductive wait_turn := WaitDone | WaitUnlocked | WaitAsleep.

Definition callout_wait_turn (e : caller) (c : nat) (interlock : bool) (s : csys) :
    wait_turn * csys :=
  if negb (callout_running_somewhere_else e s c) then (WaitDone, s)
  else if interlock then (WaitUnlocked, s)
  else (WaitAsleep, on_cc (c_cpu (cof s c)) (fun k =>
          set_cc_sleepq (cc_sleepq k ++ [e_lwp e])
            (set_cc_ev_block (u64 (cc_ev_block k + 1))
              (set_cc_nwait (u32 (cc_nwait k + 1)) k))) s).

(** [callout_wait]: [world n] is what the other threads do while the [n]th
    turn has the callout unlocked.  [None]: still waiting after [fuel] turns. *)
Fixpoint callout_wait (world : nat -> csys -> csys) (fuel : nat) (e : caller) (c : nat)
    (interlock : bool) (s : csys) : option csys :=
  match fuel with
  | O => None
  | S f =>
      match callout_wait_turn e c interlock s with
      | (WaitDone, s) => Some s
      | (WaitUnlocked, s) =>
          callout_wait world f e c false (clear_pending c (world f s))
      | (WaitAsleep, s) =>
          callout_wait world f e c interlock (clear_pending c (world f s))
      end
  end.

Definition callout_halt (world : nat -> csys -> csys) (fuel : nat) (e : caller) (c : nat)
    (interlock : bool) (s : csys) : option (bool * csys) :=
  let s := clear_pending c s in
  if callout_running_somewhere_else e s c
  then s ← callout_wait world fuel e c interlock s; Some (true, s)
  else Some (false, s).

(** ** Queries *)

Definition callout_expired (s : csys) (c : nat) : bool :=
  has_flag (c_flags (cof s c)) CALLOUT_FIRED.
Definition callout_active (s : csys) (c : nat) : bool :=
  has_flag (c_flags (cof s c)) (Z.lor CALLOUT_PENDING CALLOUT_FIRED).
Definition callout_pending (s : csys) (c : nat) : bool :=
  has_flag (c_flags (cof s c)) CALLOUT_PENDING.
Definition callout_invoking (s : csys) (c : nat) : bool :=
  has_flag (c_flags (cof s c)) CALLOUT_INVOKING.
Definition callout_ack (c : nat) (s : csys) : csys :=
  on_callout c (fun i => set_c_flags (clr_flag (c_flags i) CALLOUT_INVOKING) i) s.

(** ** The clock interrupt *)

(** [ticks] is an [int]; the result says whether the soft interrupt is
    scheduled. *)
Definition hardclock_cc (k : callout_cpu) : callout_cpu :=
  let t := u32 (cc_ticks k + 1) in
  let k := set_cc_ticks t k in
  let ticks := i32 t in
  let k := MOVEBUCKET 0 ticks k in
  if MASKWHEEL 0 ticks =? 0 then
    let k := MOVEBUCKET 1 ticks k in
    if MASKWHEEL 1 ticks =? 0 then
      let k := MOVEBUCKET 2 ticks k in
      if MASKWHEEL 2 ticks =? 0 then MOVEBUCKET 3 ticks k else k
    else k
  else k.

Definition callout_hardclock (self : nat) (s : csys) : bool * csys :=
  let s := on_cc self hardclock_cc s in
  (negb (bool_decide (cc_todo (ccof s self) = [])), s).

(** ** The tickless idle's next deadline *)

Definition CALLOUT_NO_NEXT : Z := 0x3fffffff.

Definition callout_next_honoured (defer : Z) (c : callout_impl) : bool :=
  (defer =? 0) || negb (has_flag (c_flags c) CALLOUT_DEFERRABLE).

Definition callout_setdeferrable (c : nat) (deferrable : bool) (s : csys) : csys :=
  if deferrable
  then on_callout c (fun i => set_c_flags (set_flag (c_flags i) CALLOUT_DEFERRABLE) i) s
  else on_cc (c_cpu (cof s c)) (set_cc_next_gen 0)
         (on_callout c (fun i =>
            set_c_flags (clr_flag (c_flags i) CALLOUT_DEFERRABLE) i) s).

Definition callout_next_note (s : csys) (c : callout_impl) (k : callout_cpu) : callout_cpu :=
  if negb (cc_next_gen k =? callout_next_gen s) ||
     negb (callout_next_honoured (callout_deferrable_enabled s) c)
  then k
  else if cc_next_none k || (i32 (u32 (c_time c) - u32 (cc_next_time k)) <? 0)
  then set_cc_next_time (c_time c) (set_cc_next_none false k)
  else k.

(** The wheel walk: best delta, its time, whether none was seen, and the
    deferrable callouts passed over. *)
Record scan := mk_scan {
  sc_best : Z;
  sc_earliest : Z;
  sc_none : bool;
  sc_skipped : Z
}.

Definition scan_one (s : csys) (ticks : Z) (a : scan) (p : nat) : scan :=
  let c := cof s p in
  if negb (callout_next_honoured (callout_deferrable_enabled s) c)
  then mk_scan (sc_best a) (sc_earliest a) (sc_none a) (u64 (sc_skipped a + 1))
  else
    let delta := i32 (u32 (c_time c) - u32 ticks) in
    if sc_none a || (delta <? sc_best a)
    then mk_scan delta (c_time c) false (sc_skipped a)
    else a.

Definition scan_wheel (s : csys) (k : callout_cpu) : scan :=
  fold_left (fun a q => fold_left (scan_one s (cc_ticks k)) q a) (cc_wheel k)
    (mk_scan CALLOUT_NO_NEXT 0 true 0).

Definition bump_hits (k : callout_cpu) : callout_cpu :=
  set_cc_next_hits (u64 (cc_next_hits k + 1)) k.

(** The walk with its bookkeeping. *)
Definition next_rescan (s : csys) (k : callout_cpu) : Z * callout_cpu :=
  let a := scan_wheel s k in
  (sc_best a,
   set_cc_next_time (sc_earliest a) (set_cc_next_none (sc_none a)
     (set_cc_next_gen (callout_next_gen s)
       (set_cc_deferred_skips (u64 (cc_deferred_skips k + sc_skipped a))
         (set_cc_next_scans (u64 (cc_next_scans k + 1)) k))))).

Definition next_cc (s : csys) (k : callout_cpu) : Z * callout_cpu :=
  if negb (bool_decide (cc_todo k = [])) then (0, k)
  else if cc_next_gen k =? callout_next_gen s then
    if cc_next_none k then (CALLOUT_NO_NEXT, bump_hits k)
    else
      let delta := i32 (u32 (cc_next_time k) - u32 (cc_ticks k)) in
      if 0 <? delta then (delta, bump_hits k) else next_rescan s k
  else next_rescan s k.

Definition callout_next_ticks (self : nat) (s : csys) : Z * csys :=
  let '(best, k) := next_cc s (ccof s self) in
  (if best <? 0 then 0 else best, on_cc self (fun _ => k) s).

(** ** The soft interrupt *)

(** One turn of the loop up to the callback, with the lock held. *)
Inductive soft_turn :=
| SoftIdle                                  (* the worklist is empty *)
| SoftRequeued                              (* not due: into the wheel *)
| SoftInvoke (c : nat) (func : option nat) (arg : Z) (mpsafe : bool).

Definition fire_flags (flags : Z) : Z :=
  set_flag (clr_flag flags CALLOUT_PENDING) (Z.lor CALLOUT_FIRED CALLOUT_INVOKING).

Definition softclock_turn (self : nat) (s : csys) : soft_turn * csys :=
  let k := ccof s self in
  match cc_todo k with
  | [] => (SoftIdle, s)
  | c :: _ =>
      let s := on_cc self (queue_remove c) s in
      let i := cof s c in
      let delta := i32 (u32 (c_time i) - u32 (cc_ticks k)) in
      if 0 <? delta then
        let s := on_cc self (wheel_insert c (BUCKET delta (c_time i))) s in
        (SoftRequeued, on_cc self (callout_next_note s (cof s c)) s)
      else
        let s := if delta <? 0
                 then on_cc self (fun k => set_cc_ev_late (u64 (cc_ev_late k + 1)) k) s
                 else s in
        let s := on_callout c (fun i => set_c_flags (fire_flags (c_flags i)) i) s in
        let i := cof s c in
        (SoftInvoke c (c_func i) (c_arg i) (has_flag (c_flags i) CALLOUT_MPSAFE),
         on_cc self (set_cc_active (Some c)) s)
  end.

(** After the callback: [cc_active] is cleared and the waiters are woken;
    [sleepq_wake] takes the first [count] of the queue. *)
Definition softclock_return (self : nat) (s : csys) : csys :=
  on_cc self (fun k =>
    let k := set_cc_active None k in
    if nz (cc_nwait k)
    then set_cc_sleepq (drop (Z.to_nat (cc_nwait k)) (cc_sleepq k)) (set_cc_nwait 0 k)
    else k) s.

Definition softclock_enter (self l : nat) (s : csys) : csys :=
  on_cc self (set_cc_lwp (Some l)) s.
Definition softclock_exit (self : nat) (s : csys) : csys :=
  on_cc self (set_cc_lwp None) s.

(** The loop: [run c func arg] is what the callback (and whatever else runs
    while the lock is dropped) does to the state; the trace lists the
    callouts invoked.  [None]: the worklist is not empty after [fuel] turns. *)
Fixpoint softclock_loop (run : nat -> option nat -> Z -> csys -> csys) (fuel : nat)
    (self : nat) (s : csys) : option (list nat * csys) :=
  match softclock_turn self s with
  | (SoftIdle, s) => Some ([], s)
  | (turn, s) =>
      match fuel with
      | O => None
      | S f =>
          match turn with
          | SoftInvoke c func arg _ =>
              '(tr, s) ← softclock_loop run f self (softclock_return self (run c func arg s));
              Some (c :: tr, s)
          | _ => softclock_loop run f self s
          end
      end
  end.

Definition callout_softclock (run : nat -> option nat -> Z -> csys -> csys) (fuel : nat)
    (self l : nat) (s : csys) : option (list nat * csys) :=
  '(tr, s) ← softclock_loop run fuel self (softclock_enter self l s);
  Some (tr, softclock_exit self s).

(** ** sysctl kern.callout_* *)

Section sysctl.
Context `{SC : Sysctl}.

Definition sysctl_kern_callout_deferrable (rq : sysctl_req) (s : csys) :
    sysctl_res Z csys :=
  let v0 := callout_deferrable_enabled s in
  let '(error, t) := sysctl_lookup rq v0 in
  match rq_newp rq with
  | None => mk_res error v0 s
  | Some _ =>
      if nz error then mk_res error v0 s
      else
        let s := set_callout_deferrable_enabled (if nz t then 1 else 0) s in
        let g := u32 (callout_next_gen s + 1) in
        mk_res 0 v0 (set_callout_next_gen (if g =? 0 then u32 (g + 1) else g) s)
  end.

Definition callout_cpu_sum (field : callout_cpu -> Z) (s : csys) : Z :=
  fold_left (fun sum k => u64 (sum + field k)) (map snd (map_to_list (cs_cpus s))) 0.

Definition sysctl_kern_callout_deferred (rq : sysctl_req) (s : csys) : sysctl_res Z csys :=
  let v := callout_cpu_sum cc_deferred_skips s in
  mk_res (sysctl_lookup rq v).1 v s.

Definition NEXTCACHE_BUF : nat := 64.

Definition sysctl_kern_callout_nextcache (rq : sysctl_req) (s : csys) :
    option (sysctl_res string csys) :=
  b ← sbuf_printf NEXTCACHE_BUF
    ("hits=" +:+ dec (callout_cpu_sum cc_next_hits s) +:+ " scans=" +:+
     dec (callout_cpu_sum cc_next_scans s)) sbuf_empty;
  Some (mk_res (sysctl_lookup rq 0).1 (sb_text b) s).

Inductive co_handler := H_deferrable | H_deferred | H_nextcache.

Definition sysctl_kern_callout_setup : list (sysctl_node co_handler unit) :=
  [mk_node true true CTLTYPE_INT "callout_deferrable" (Some H_deferrable) None;
   mk_node true false CTLTYPE_QUAD "callout_deferred" (Some H_deferred) None;
   mk_node true false CTLTYPE_STRING "callout_nextcache" (Some H_nextcache) None]%string.

End sysctl.
