(* ===== verification/CalloutWheel.v ===== *)
(** * The arithmetic of the callout wheel

    [dist b ticks] is the number of clock interrupts until bucket [b] is
    emptied into the worklist.  A callout is put into a bucket that is emptied
    no later than it is due, and every interrupt either empties a bucket or
    brings it one tick nearer. *)

From stdpp Require Import base numbers list.
From S2P Require Import Prelude Callout.

Definition wheel_of (b : nat) : Z := Z.of_nat b / 256.
Definition slot_of (b : nat) : Z := Z.of_nat b mod 256.

Definition dist (b : nat) (ticks : Z) : Z :=
  (slot_of b * 256 ^ wheel_of b - ticks - 1) mod 256 ^ (wheel_of b + 1) + 1.

Lemma MASKWHEEL_eq w t : 0 <= w -> MASKWHEEL w t = (t / 256 ^ w) mod 256.
Proof.
  intros Hw. unfold MASKWHEEL, WHEELMASK, WHEELBITS. change 255 with (Z.ones 8).
  rewrite Z.land_ones by lia. rewrite Z.shiftr_div_pow2 by lia.
  change 256 with (2 ^ 8). rewrite <-Z.pow_mul_r by lia. do 2 f_equal. f_equal. lia.
Qed.

Lemma MASKWHEEL_range w t : 0 <= w -> 0 <= MASKWHEEL w t < 256.
Proof. intros. rewrite MASKWHEEL_eq by done. apply Z.mod_pos_bound. lia. Qed.

Lemma bucket_index_val w t : 0 <= w ->
  Z.of_nat (bucket_index w t) = MASKWHEEL w t + w * 256.
Proof.
  intros Hw. unfold bucket_index, WHEELSIZE. pose proof (MASKWHEEL_range w t Hw). lia.
Qed.

Lemma bucket_index_wheel w t : 0 <= w -> wheel_of (bucket_index w t) = w.
Proof.
  intros Hw. unfold wheel_of. rewrite bucket_index_val by done.
  pose proof (MASKWHEEL_range w t Hw). zdm.
Qed.

Lemma bucket_index_slot w t : 0 <= w -> slot_of (bucket_index w t) = (t / 256 ^ w) mod 256.
Proof.
  intros Hw. unfold slot_of. rewrite bucket_index_val, <-MASKWHEEL_eq by done.
  pose proof (MASKWHEEL_range w t Hw). rewrite Z.mod_add, Z.mod_small; lia.
Qed.

Lemma bucket_index_lt w t : 0 <= w <= 3 -> (bucket_index w t < BUCKETS)%nat.
Proof.
  intros Hw. pose proof (bucket_index_val w t ltac:(lia)).
  pose proof (MASKWHEEL_range w t ltac:(lia)). unfold BUCKETS. lia.
Qed.

Lemma dist_pos b ticks : 1 <= dist b ticks.
Proof.
  unfold dist. assert (0 <= wheel_of b) by (unfold wheel_of; zdm).
  pose proof (Z.mod_pos_bound (slot_of b * 256 ^ wheel_of b - ticks - 1)
    (256 ^ (wheel_of b + 1)) ltac:(lia)). lia.
Qed.

(** The digits of [t] in base [P] and [256 * P]. *)
Lemma mod_step t P : 0 < P -> t mod (256 * P) = P * ((t / P) mod 256) + t mod P.
Proof. intros HP. rewrite (Z.mul_comm 256), Z.rem_mul_r; lia. Qed.

(** [x / P * P mod 256 P] is [x] with its low digits cleared. *)
Lemma slot_time t P : 0 < P -> (t / P) mod 256 * P = t mod (256 * P) - t mod P.
Proof. intros HP. rewrite mod_step by done. lia. Qed.

(** ** Insertion *)

Lemma insert_dist_gen P time ticks delta :
  0 < P -> 0 < delta -> (P = 1 \/ P < delta) ->
  (time - ticks - delta) mod (256 * P) = 0 ->
  ((time / P) mod 256 * P - ticks - 1) mod (256 * P) + 1 <= delta.
Proof.
  intros HP Hd HPd Hc. rewrite slot_time by done.
  pose proof (Z.mod_pos_bound time P HP) as Hr.
  assert (time mod P < delta) as Hlt by (destruct HPd; lia).
  replace ((time mod (256 * P) - time mod P - ticks - 1) mod (256 * P))
    with ((delta - time mod P - 1) mod (256 * P)).
  - pose proof (Z.mod_le (delta - time mod P - 1) (256 * P) ltac:(lia) ltac:(lia)). lia.
  - apply Z.mod_divide in Hc; [|lia]. destruct Hc as [q Hq].
    rewrite (Z.mod_eq time (256 * P)) by lia.
    replace (time - 256 * P * (time / (256 * P)) - time mod P - ticks - 1)
      with ((delta - time mod P - 1) + (q - time / (256 * P)) * (256 * P)) by lia.
    by rewrite Z.mod_add by lia.
Qed.

Lemma i32_delta_cong a b P : (P | 2 ^ 32) -> 0 < P -> (a - b - i32 (a - b)) mod P = 0.
Proof.
  intros Hd HP. apply Z.mod_divide; [lia|]. etrans; [exact Hd|].
  apply Z.mod_divide; [lia|]. unfold i32. zdm.
Qed.

(** A callout [delta] ticks away goes into a bucket emptied within [delta]. *)
Lemma BUCKET_dist time ticks :
  let delta := i32 (time - ticks) in
  0 < delta ->
  (BUCKET delta time < BUCKETS)%nat /\ dist (BUCKET delta time) ticks <= delta.
Proof.
  intros delta Hd.
  assert (forall w, 0 <= w <= 3 -> (w = 0 \/ 256 ^ w < delta) ->
    (bucket_index w time < BUCKETS)%nat /\ dist (bucket_index w time) ticks <= delta) as G.
  { intros w Hw Hwd. split; [by apply bucket_index_lt|]. unfold dist.
    rewrite bucket_index_wheel, bucket_index_slot by lia.
    rewrite Z.pow_add_r, Z.pow_1_r by lia. rewrite (Z.mul_comm (256 ^ w) 256).
    apply insert_dist_gen; [lia|lia| |].
    - destruct Hwd as [->|?]; [by left|by right].
    - apply i32_delta_cong; [|lia].
      exists (256 ^ (3 - w)). replace (256 * 256 ^ w) with (256 ^ (w + 1))
        by (rewrite Z.pow_add_r by lia; lia).
      rewrite <-Z.pow_add_r by lia. replace (3 - w + (w + 1)) with 4 by lia. reflexivity. }
  unfold BUCKET, WHEELBITS. change (Z.shiftl 1 (2 * 8)) with (256 ^ 2).
  change (Z.shiftl 1 8) with (256 ^ 1). change (Z.shiftl 1 (3 * 8)) with (256 ^ 3).
  destruct (Z.leb_spec delta (256 ^ 2)).
  - destruct (Z.leb_spec delta (256 ^ 1)); apply G; lia.
  - destruct (Z.leb_spec delta (256 ^ 3)); apply G; lia.
Qed.

(** ** The clock interrupt *)

(** The buckets the interrupt at tick [t] empties, in order. *)
Definition moved (t : Z) : list nat :=
  bucket_index 0 t ::
  if MASKWHEEL 0 t =? 0 then
    bucket_index 1 t ::
    if MASKWHEEL 1 t =? 0 then
      bucket_index 2 t :: (if MASKWHEEL 2 t =? 0 then [bucket_index 3 t] else [])
    else []
  else [].

Lemma hits_iff P t i : 0 < P ->
  (t mod (256 * P) = i * P <-> (t / P) mod 256 = i /\ t mod P = 0).
Proof.
  intros HP. rewrite mod_step by done. pose proof (Z.mod_pos_bound t P HP).
  split; [|intros [<- ->]; lia]. intros E.
  assert ((t / P) mod 256 = i) as Ei; [|split; [done|rewrite Ei in E; lia]].
  destruct (Z.lt_trichotomy ((t / P) mod 256) i) as [|[|]]; [nia|done|nia].
Qed.

Lemma bucket_index_iff w t b : 0 <= w ->
  b = bucket_index w t <-> wheel_of b = w /\ slot_of b = (t / 256 ^ w) mod 256.
Proof.
  intros Hw. split.
  - intros ->. split; [by apply bucket_index_wheel|by apply bucket_index_slot].
  - intros [H1 H2]. apply Nat2Z.inj. rewrite bucket_index_val, MASKWHEEL_eq by done.
    unfold wheel_of, slot_of in *. rewrite <-H2, <-H1. pose proof (Z.div_mod (Z.of_nat b) 256). lia.
Qed.

Lemma pow256_split t w : 0 <= w ->
  t mod 256 ^ (w + 1) = 0 <-> t mod 256 ^ w = 0 /\ MASKWHEEL w t = 0.
Proof.
  intros Hw. rewrite MASKWHEEL_eq, Z.pow_add_r, Z.pow_1_r, (Z.mul_comm (256 ^ w)) by lia.
  pose proof (hits_iff (256 ^ w) t 0 ltac:(lia)). tauto.
Qed.

Lemma elem_of_moved t b :
  b ∈ moved t <-> exists w, 0 <= w <= 3 /\ b = bucket_index w t /\ t mod 256 ^ w = 0.
Proof.
  assert (t mod 256 ^ 0 = 0) as H0 by apply Z.mod_1_r.
  pose proof (pow256_split t 0 ltac:(lia)) as H1. pose proof (pow256_split t 1 ltac:(lia)) as H2.
  pose proof (pow256_split t 2 ltac:(lia)) as H3. simpl (_ + 1) in *.
  unfold moved. split.
  - destruct (Z.eqb_spec (MASKWHEEL 0 t) 0), (Z.eqb_spec (MASKWHEEL 1 t) 0),
      (Z.eqb_spec (MASKWHEEL 2 t) 0); rewrite !elem_of_cons, ?elem_of_nil; intros Hb;
      repeat destruct Hb as [Hb|Hb]; try done; eexists; (split; [|split; [exact Hb|]]);
      try lia; tauto.
  - intros (w & Hw & -> & Hm).
    assert (w = 0 \/ w = 1 \/ w = 2 \/ w = 3) as Hc by lia.
    destruct (Z.eqb_spec (MASKWHEEL 0 t) 0), (Z.eqb_spec (MASKWHEEL 1 t) 0),
      (Z.eqb_spec (MASKWHEEL 2 t) 0); rewrite !elem_of_cons, ?elem_of_nil;
      destruct Hc as [E|[E|[E|E]]]; subst w; tauto.
Qed.

Lemma moved_iff t b : (b < BUCKETS)%nat ->
  b ∈ moved t <-> t mod 256 ^ (wheel_of b + 1) = slot_of b * 256 ^ wheel_of b.
Proof.
  intros Hb. assert (0 <= wheel_of b <= 3) as Hw by (unfold wheel_of, BUCKETS in *; zdm).
  rewrite Z.pow_add_r, Z.pow_1_r, (Z.mul_comm (256 ^ _) 256), hits_iff, elem_of_moved by lia.
  split.
  - intros (w & Hw' & E & Hm). apply bucket_index_iff in E as [<- ->]; [done|lia].
  - intros [H1 H2]. exists (wheel_of b). split; [lia|]. split; [|done].
    apply bucket_index_iff; [lia|done].
Qed.

(** The same buckets whatever the representative of the 32-bit tick. *)
Lemma mod_i32_u32 x w : 0 <= w <= 3 -> i32 (u32 x) mod 256 ^ (w + 1) = x mod 256 ^ (w + 1).
Proof.
  intros Hw. rewrite i32_u32.
  replace (i32 x) with (x + (- ((x + 2 ^ 31) / 2 ^ 32)) * 2 ^ 32) by (unfold i32; zdm).
  replace (2 ^ 32) with (256 ^ (3 - w) * 256 ^ (w + 1)) at 2.
  - rewrite Z.mul_assoc. apply Z.mod_add. lia.
  - rewrite <-Z.pow_add_r by lia. replace (3 - w + (w + 1)) with 4 by lia. reflexivity.
Qed.

(** An interrupt empties exactly the buckets at distance one ... *)
Lemma moved_dist ticks b : (b < BUCKETS)%nat ->
  b ∈ moved (i32 (u32 (ticks + 1))) <-> dist b ticks = 1.
Proof.
  intros Hb. assert (0 <= wheel_of b <= 3) as Hw by (unfold wheel_of, BUCKETS in *; zdm).
  rewrite moved_iff, mod_i32_u32 by done. unfold dist.
  set (P := 256 ^ wheel_of b). assert (0 < P) by (unfold P; lia).
  rewrite Z.pow_add_r, Z.pow_1_r by lia. fold P. rewrite (Z.mul_comm P 256).
  assert (0 <= slot_of b < 256) by (unfold slot_of; apply Z.mod_pos_bound; lia).
  assert (slot_of b * P = (slot_of b * P) mod (256 * P)) as E by (rewrite Z.mod_small; nia).
  split.
  - intros H'. rewrite <-H'. replace ((ticks + 1) mod (256 * P) - ticks - 1)
      with (((ticks + 1) mod (256 * P) - (ticks + 1))) by lia.
    rewrite <-Zminus_mod_idemp_r, Z.sub_diag, Z.mod_0_l by lia. done.
  - intros H'. assert ((slot_of b * P - (ticks + 1)) mod (256 * P) = 0) as H2
      by (replace (slot_of b * P - (ticks + 1)) with (slot_of b * P - ticks - 1); lia).
    rewrite E. apply Z.mod_divide in H2; [|lia]. destruct H2 as [q Hq].
    replace (slot_of b * P) with ((ticks + 1) + q * (256 * P)) by lia. by rewrite Z.mod_add by lia.
Qed.

(** ... and brings the others one tick nearer. *)
Lemma dist_tick ticks b : (b < BUCKETS)%nat -> dist b ticks <> 1 ->
  dist b (u32 (ticks + 1)) = dist b ticks - 1.
Proof.
  intros Hb Hd. assert (0 <= wheel_of b <= 3) as Hw by (unfold wheel_of, BUCKETS in *; zdm).
  unfold dist in *. set (Q := 256 ^ (wheel_of b + 1)) in *.
  assert (0 < Q) by (unfold Q; lia). set (x := slot_of b * _ - ticks - 1) in *.
  pose proof (Z.mod_pos_bound x Q ltac:(done)) as Hx.
  replace ((slot_of b * 256 ^ wheel_of b - u32 (ticks + 1) - 1) mod Q) with ((x - 1) mod Q).
  - replace ((x - 1) mod Q) with (x mod Q - 1); [lia|].
    rewrite <-Zminus_mod_idemp_l. symmetry. apply Z.mod_small. lia.
  - replace (u32 (ticks + 1)) with (ticks + 1 + (- ((ticks + 1) / 2 ^ 32)) * 256 ^ (3 - wheel_of b) * Q).
    + replace (slot_of b * _ - _ - 1) with (x - 1 + ((ticks + 1) / 2 ^ 32 * 256 ^ (3 - wheel_of b)) * Q)
        by (unfold x; lia). by rewrite Z.mod_add by lia.
    + unfold u32. rewrite <-Z.mul_assoc. unfold Q. rewrite <-Z.pow_add_r by lia.
      replace (3 - wheel_of b + (wheel_of b + 1)) with 4 by lia.
      change (256 ^ 4) with (2 ^ 32). zdm.
Qed.
