(* ===== verification/CalloutInv.v ===== *)
(** * The callout invariant

    A callout is pending exactly when it is on one queue of its CPU, and a
    callout in a wheel bucket is due no earlier than the bucket is emptied.
    Every operation of kern_timeout.c preserves this, in any interleaving. *)

From stdpp Require Import base numbers list gmap strings relations.
From S2P Require Import Prelude Text Sysctl Lwp Lpsched Callout CalloutWheel.

Definition queued (k : callout_cpu) : list nat := cc_todo k ++ concat (cc_wheel k).

Definition pending (i : callout_impl) : Prop := has_flag (c_flags i) CALLOUT_PENDING = true.
Definition fired (i : callout_impl) : Prop := has_flag (c_flags i) CALLOUT_FIRED = true.

(** The ticks until a callout is due, on its CPU. *)
Definition due_in (i : callout_impl) (k : callout_cpu) : Z := i32 (c_time i - cc_ticks k).

(** The queues of CPU [n]. *)
Record cpu_inv (s : csys) (n : nat) (k : callout_cpu) : Prop := {
  ci_buckets : length (cc_wheel k) = BUCKETS;
  ci_nodup : NoDup (queued k);
  ci_member : forall c, c ∈ queued k -> exists i, cs_callouts s !! c = Some i /\
    c_cpu i = n /\ pending i /\ ~ fired i;
  ci_wheel : forall b q c, cc_wheel k !! b = Some q -> c ∈ q ->
    dist b (cc_ticks k) <= due_in (cof s c) k
}.

Record csys_inv (s : csys) : Prop := {
  inv_cpus : forall n k, cs_cpus s !! n = Some k -> cpu_inv s n k;
  inv_pending : forall c i, cs_callouts s !! c = Some i -> pending i ->
    exists k, cs_cpus s !! c_cpu i = Some k /\ c ∈ queued k
}.

(** ** Queue lemmas *)

Lemma elem_of_queued c k :
  c ∈ queued k <-> c ∈ cc_todo k \/ exists b q, cc_wheel k !! b = Some q /\ c ∈ q.
Proof.
  unfold queued. rewrite elem_of_app, (list_elem_of_In (concat _)), in_concat.
  setoid_rewrite <-list_elem_of_In.
  split; (intros [H|H]; [by left|right]).
  - destruct H as (q & Hq & Hc). apply list_elem_of_lookup in Hq as [b Hb]. eauto.
  - destruct H as (b & q & Hb & Hc). exists q. split; [|done]. by eapply list_elem_of_lookup_2.
Qed.

Lemma concat_filter (P : nat -> Prop) `{!forall x, Decision (P x)} (l : list (list nat)) :
  concat (map (filter P) l) = filter P (concat l).
Proof. induction l as [|q l IH]; [done|]. simpl. by rewrite filter_app, IH. Qed.

Lemma queued_remove c k : queued (queue_remove c k) = filter (fun x => x <> c) (queued k).
Proof. unfold queued, queue_remove. simpl. by rewrite filter_app, concat_filter. Qed.

Lemma queued_todo_insert c k : queued (todo_insert c k) ≡ₚ c :: queued k.
Proof. unfold queued, todo_insert. simpl. rewrite <-app_assoc. symmetry. apply Permutation_middle. Qed.

Lemma concat_alter_snoc (c : nat) b (l : list (list nat)) : (b < length l)%nat ->
  concat (alter (fun q => q ++ [c]) b l) ≡ₚ c :: concat l.
Proof.
  revert b. induction l as [|q l IH]; intros [|b] Hb; simpl in *; try lia.
  - rewrite <-app_assoc. symmetry. apply Permutation_middle.
  - etrans; [apply Permutation_app_head, IH; lia|]. symmetry. apply Permutation_middle.
Qed.

Lemma queued_wheel_insert c b k : (b < length (cc_wheel k))%nat ->
  queued (wheel_insert c b k) ≡ₚ c :: queued k.
Proof.
  intros Hb. unfold queued, wheel_insert. simpl. rewrite concat_alter_snoc by done.
  symmetry. apply Permutation_middle.
Qed.

Lemma concat_insert_nil b (l : list (list nat)) : (b < length l)%nat ->
  (l !!! b) ++ concat (<[b := []]> l) ≡ₚ concat l.
Proof.
  revert b. induction l as [|q l IH]; intros [|b] Hb; simpl in *; try lia; [done|].
  rewrite <-(IH b) by lia. rewrite !app_assoc. f_equiv. apply Permutation_app_comm.
Qed.

Lemma queued_MOVEBUCKET w t k : (bucket_index w t < length (cc_wheel k))%nat ->
  queued (MOVEBUCKET w t k) ≡ₚ queued k.
Proof.
  intros Hb. unfold queued, MOVEBUCKET. simpl. rewrite <-app_assoc.
  by rewrite concat_insert_nil.
Qed.

(** The queue [c] is taken from and put on again loses and gains nothing. *)
Lemma queued_requeue c k : NoDup (queued k) -> c ∈ queued k ->
  c :: filter (fun x => x <> c) (queued k) ≡ₚ queued k.
Proof.
  intros Hd Hc. apply NoDup_Permutation; [| done |].
  - apply NoDup_cons. split; [|by apply NoDup_filter].
    rewrite list_elem_of_filter. tauto.
  - intros x. rewrite elem_of_cons, list_elem_of_filter. split.
    + intros [->|[_ ?]]; done.
    + intros Hx. destruct (decide (x = c)); auto.
Qed.

Lemma cof_lookup s c i : cs_callouts s !! c = Some i -> cof s c = i.
Proof. apply lookup_total_correct. Qed.
Lemma ccof_lookup s n k : cs_cpus s !! n = Some k -> ccof s n = k.
Proof. apply lookup_total_correct. Qed.

Lemma on_cc_cpus s n k f : cs_cpus s !! n = Some k ->
  cs_cpus (on_cc n f s) = <[n := f k]> (cs_cpus s).
Proof.
  intros E. simpl. apply map_eq. intros m. destruct (decide (n = m)) as [<-|].
  - by rewrite lookup_alter_eq, lookup_insert_eq, E.
  - by rewrite lookup_alter_ne, lookup_insert_ne.
Qed.
Lemma on_callout_callouts s c i f : cs_callouts s !! c = Some i ->
  cs_callouts (on_callout c f s) = <[c := f i]> (cs_callouts s).
Proof.
  intros E. simpl. apply map_eq. intros m. destruct (decide (c = m)) as [<-|].
  - by rewrite lookup_alter_eq, lookup_insert_eq, E.
  - by rewrite lookup_alter_ne, lookup_insert_ne.
Qed.

Lemma on_callout_cpus s c f : cs_cpus (on_callout c f s) = cs_cpus s.
Proof. done. Qed.
Lemma on_cc_callouts s n f : cs_callouts (on_cc n f s) = cs_callouts s.
Proof. done. Qed.

(** A callout on a queue of one CPU is on no other CPU's. *)
Lemma queued_cpu s n k c i : csys_inv s -> cs_cpus s !! n = Some k -> c ∈ queued k ->
  cs_callouts s !! c = Some i -> c_cpu i = n /\ pending i /\ ~ fired i.
Proof.
  intros Hs Hk Hc Hi. destruct (ci_member _ _ _ (inv_cpus _ Hs _ _ Hk) c Hc) as (i' & Hi' & H).
  rewrite Hi in Hi'. by injection Hi' as <-.
Qed.

(** ** Preservation *)

(** A step that changes CPU [n] and callout [c] only. *)
Lemma inv_step s s' n k k' c i' :
  csys_inv s -> cs_cpus s !! n = Some k ->
  cs_cpus s' = <[n := k']> (cs_cpus s) ->
  cs_callouts s' = <[c := i']> (cs_callouts s) ->
  length (cc_wheel k') = BUCKETS -> NoDup (queued k') ->
  (forall x, x <> c -> x ∈ queued k' <-> x ∈ queued k) ->
  (pending i' -> c_cpu i' = n /\ c ∈ queued k') ->
  (c ∈ queued k' -> c_cpu i' = n /\ pending i' /\ ~ fired i') ->
  (forall m k2, m <> n -> cs_cpus s !! m = Some k2 -> c ∉ queued k2) ->
  (forall b q x, cc_wheel k' !! b = Some q -> x ∈ q ->
     dist b (cc_ticks k') <= due_in (cof s' x) k') ->
  csys_inv s'.
Proof.
  intros Hs Hk Ecp Eco Hlen Hnd Hq Hp Hc Hother Hw. split.
  - intros m k2. rewrite Ecp. intros [[<- <-]|[Hne Hm]]%lookup_insert_Some.
    + split; auto. intros x Hx. rewrite Eco. destruct (decide (c = x)) as [<-|Hxc].
      * rewrite lookup_insert_eq. exists i'. split; [done|]. by apply Hc.
      * rewrite lookup_insert_ne by done. apply Hq in Hx; [|done].
        exact (ci_member _ _ _ (inv_cpus _ Hs _ _ Hk) x Hx).
    + pose proof (inv_cpus _ Hs _ _ Hm) as [L1 L2 L3 L4].
      assert (forall x, x ∈ queued k2 -> c <> x) as Hcx.
      { intros x Hx ->. exact (Hother m k2 (not_eq_sym Hne) Hm Hx). }
      split; auto.
      * intros x Hx. rewrite Eco, lookup_insert_ne by auto. by apply L3.
      * intros b q x Hb Hx. unfold cof. rewrite Eco, lookup_total_insert_ne; [by eapply L4|].
        apply Hcx. apply elem_of_queued. right. eauto.
  - intros x i. rewrite Eco, Ecp. intros [[<- <-]|[Hne Hx]]%lookup_insert_Some Hpx.
    + destruct (Hp Hpx) as [-> Hin]. exists k'. by rewrite lookup_insert_eq.
    + destruct (inv_pending _ Hs _ _ Hx Hpx) as (k2 & Hk2 & Hin).
      destruct (decide (c_cpu i = n)) as [E|Hn]; [rewrite E in *|].
      * exists k'. rewrite lookup_insert_eq. split; [done|]. apply Hq; [done|].
        rewrite Hk in Hk2. by injection Hk2 as <-.
      * exists k2. by rewrite lookup_insert_ne.
Qed.

(** A step that changes CPU [n] only and moves nothing off its queues. *)
Lemma inv_cpu s s' n k k' :
  csys_inv s -> cs_cpus s !! n = Some k ->
  cs_cpus s' = <[n := k']> (cs_cpus s) -> cs_callouts s' = cs_callouts s ->
  length (cc_wheel k') = BUCKETS -> queued k' ≡ₚ queued k ->
  (forall b q x, cc_wheel k' !! b = Some q -> x ∈ q ->
     dist b (cc_ticks k') <= due_in (cof s x) k') ->
  csys_inv s'.
Proof.
  intros Hs Hk Ecp Eco Hlen Hq Hw. unfold cof in Hw. split.
  - intros m k2. rewrite Ecp. intros [[<- <-]|[Hne Hm]]%lookup_insert_Some.
    + pose proof (inv_cpus _ Hs _ _ Hk) as [L1 L2 L3 L4]. split.
      * done.
      * by rewrite Hq.
      * intros x. rewrite Hq, Eco. apply L3.
      * unfold cof. by rewrite Eco.
    + pose proof (inv_cpus _ Hs _ _ Hm) as [L1 L2 L3 L4]. split; auto; [by rewrite Eco|].
      unfold cof. by rewrite Eco.
  - intros x i. rewrite Eco, Ecp. intros Hx Hpx.
    destruct (inv_pending _ Hs _ _ Hx Hpx) as (k2 & Hk2 & Hin).
    destruct (decide (c_cpu i = n)) as [E|Hn]; [rewrite E in *|].
    + exists k'. rewrite lookup_insert_eq, Hq. rewrite Hk in Hk2. by injection Hk2 as <-.
    + exists k2. by rewrite lookup_insert_ne.
Qed.

(** A step that changes fields of callout [c] the invariant does not read. *)
Lemma inv_callout s s' c i i' :
  csys_inv s -> cs_callouts s !! c = Some i -> cs_cpus s' = cs_cpus s ->
  cs_callouts s' = <[c := i']> (cs_callouts s) ->
  (pending i' <-> pending i) -> (fired i' -> fired i) -> c_cpu i' = c_cpu i ->
  c_time i' = c_time i -> csys_inv s'.
Proof.
  intros Hs Hi Ecp Eco Hp Hf Hcpu Ht. split.
  - intros n k. rewrite Ecp. intros Hk. pose proof (inv_cpus _ Hs _ _ Hk) as [L1 L2 L3 L4].
    split; auto.
    + intros x Hx. rewrite Eco. destruct (decide (c = x)) as [<-|Hne].
      * rewrite lookup_insert_eq. destruct (L3 c Hx) as (j & Hj & ? & ? & ?).
        rewrite Hi in Hj. injection Hj as <-. exists i'. rewrite Hcpu. tauto.
      * rewrite lookup_insert_ne by done. auto.
    + intros b q x Hb Hx. unfold cof, due_in. rewrite Eco. destruct (decide (c = x)) as [<-|Hne].
      * rewrite lookup_total_insert_eq, Ht. specialize (L4 b q c Hb Hx).
        by rewrite (cof_lookup _ _ _ Hi) in L4.
      * rewrite lookup_total_insert_ne by done. by apply (L4 b q x).
  - intros x j. rewrite Eco, Ecp. intros [[<- <-]|[Hne Hx]]%lookup_insert_Some Hpx.
    + rewrite Hcpu. apply (inv_pending _ Hs c i Hi). tauto.
    + by apply (inv_pending _ Hs).
Qed.

Lemma on_cc_absent s n f : cs_cpus s !! n = None -> on_cc n f s = s.
Proof.
  intros E. destruct s as [a m d g l]. unfold on_cc, set_cs_cpus. simpl in *. f_equal.
  apply map_eq. intros j. destruct (decide (n = j)) as [<-|].
  - by rewrite lookup_alter_eq, E.
  - by rewrite lookup_alter_ne.
Qed.

Definition same_queues (k k' : callout_cpu) : Prop :=
  cc_todo k' = cc_todo k /\ cc_wheel k' = cc_wheel k /\ cc_ticks k' = cc_ticks k.

(** Fields of a CPU other than its queues and clock. *)
Lemma inv_on_cc_same s n f : (forall k, cs_cpus s !! n = Some k -> same_queues k (f k)) ->
  csys_inv s -> csys_inv (on_cc n f s).
Proof.
  intros Hf Hs. destruct (cs_cpus s !! n) as [k|] eqn:Hk; [|by rewrite on_cc_absent].
  destruct (Hf k eq_refl) as (H1 & H2 & H3). pose proof (inv_cpus _ Hs _ _ Hk) as [L1 L2 L3 L4].
  eapply inv_cpu; [exact Hs|exact Hk|by apply on_cc_cpus|done|by rewrite H2| |].
  - unfold queued. by rewrite H1, H2.
  - unfold due_in. rewrite H2, H3. exact L4.
Qed.

Lemma inv_ext s s' : cs_callouts s' = cs_callouts s -> cs_cpus s' = cs_cpus s ->
  csys_inv s -> csys_inv s'.
Proof.
  destruct s as [a m d g l], s' as [a' m' d' g' l']. simpl. intros -> ->.
  intros [H1 H2]. split; [|exact H2]. intros n k Hk. destruct (H1 n k Hk). by split.
Qed.

(** *** callout_hardclock *)

Definition empty_bucket (b : nat) (k : callout_cpu) : callout_cpu :=
  set_cc_wheel (<[b := []]> (cc_wheel k)) (set_cc_todo (cc_todo k ++ cc_wheel k !!! b) k).

Lemma hardclock_fold k :
  let t := u32 (cc_ticks k + 1) in
  hardclock_cc k = fold_left (fun k b => empty_bucket b k) (moved (i32 t)) (set_cc_ticks t k).
Proof.
  intros t. unfold hardclock_cc, moved. fold t. set (j := i32 t).
  destruct (MASKWHEEL 0 j =? 0), (MASKWHEEL 1 j =? 0), (MASKWHEEL 2 j =? 0); reflexivity.
Qed.

Lemma fold_empty_bucket bs k : Forall (fun b => b < length (cc_wheel k))%nat bs ->
  let k' := fold_left (fun k b => empty_bucket b k) bs k in
  cc_ticks k' = cc_ticks k /\ length (cc_wheel k') = length (cc_wheel k) /\
  queued k' ≡ₚ queued k /\
  (forall b q, cc_wheel k' !! b = Some q ->
     (b ∈ bs /\ q = nil) \/ ((b ∉ bs) /\ cc_wheel k !! b = Some q)).
Proof.
  revert k. induction bs as [|b0 bs IH]; intros k Hbs; simpl.
  { repeat split; try done. intros b q Hb. right. split; [apply not_elem_of_nil | done]. }
  apply Forall_cons in Hbs as [Hb0 Hbs].
  destruct (IH (empty_bucket b0 k)) as (H1 & H2 & H3 & H4).
  { simpl. by rewrite length_insert. }
  simpl in H1, H2. rewrite length_insert in H2. repeat split; auto.
  - rewrite H3. unfold queued. simpl. rewrite <-app_assoc. by rewrite concat_insert_nil.
  - intros b q Hb. destruct (H4 b q Hb) as [[Hin ->]|[Hn Hl]]; [left; split; [by right|done]|].
    simpl in Hl. destruct (decide (b = b0)) as [->|Hne].
    + rewrite list_lookup_insert_eq in Hl by done. injection Hl as <-. left. split; [by left|done].
    + rewrite list_lookup_insert_ne in Hl by done. right. split; [|done].
      by apply not_elem_of_cons.
Qed.

Lemma moved_lt t : Forall (fun b => b < BUCKETS)%nat (moved t).
Proof.
  apply Forall_forall. intros b Hb. apply elem_of_moved in Hb as (w & Hw & -> & _).
  by apply bucket_index_lt.
Qed.

(** A tick later a callout is due one tick sooner. *)
Lemma due_in_tick i k k' : cc_ticks k' = u32 (cc_ticks k + 1) -> 1 <= due_in i k ->
  due_in i k' = due_in i k - 1.
Proof.
  unfold due_in. intros -> Hd. rewrite i32_sub_u32_r.
  rewrite (i32_cong _ (i32 (c_time i - cc_ticks k) - 1)).
  - apply i32_id. pose proof (i32_range (c_time i - cc_ticks k)). unfold in_i32 in *. lia.
  - unfold i32. zdm.
Qed.

Lemma hardclock_inv self s : csys_inv s -> csys_inv (callout_hardclock self s).2.
Proof.
  intros Hs. unfold callout_hardclock. cbn [snd].
  destruct (cs_cpus s !! self) as [k|] eqn:Hk; [|by rewrite on_cc_absent].
  pose proof (inv_cpus _ Hs _ _ Hk) as [L1 L2 L3 L4].
  pose proof (hardclock_fold k) as Hf. cbv zeta in Hf.
  destruct (fold_empty_bucket (moved (i32 (u32 (cc_ticks k + 1))))
    (set_cc_ticks (u32 (cc_ticks k + 1)) k)) as (H1 & H2 & H3 & H4).
  { cbn [cc_wheel set_cc_ticks]. rewrite L1. apply moved_lt. }
  rewrite <-Hf in *. cbn [cc_wheel cc_ticks set_cc_ticks] in *.
  eapply inv_cpu; [exact Hs|exact Hk|by apply on_cc_cpus|done|by rewrite H2|exact H3|].
  intros b q x Hb Hx. destruct (H4 b q Hb) as [[_ ->]|[Hn Hq]]; [by apply not_elem_of_nil in Hx|].
  assert (b < BUCKETS)%nat as Hlt by (rewrite <-L1; by eapply lookup_lt_Some).
  assert (dist b (cc_ticks k) <> 1) as Hd by (by rewrite <-moved_dist).
  pose proof (dist_pos b (cc_ticks k)). specialize (L4 b q x Hq Hx).
  rewrite (due_in_tick _ k) by (done || lia). rewrite H1, dist_tick by done. lia.
Qed.

(** *** callout_stop, callout_halt *)

Lemma clear_pending_inv c s : is_Some (cs_callouts s !! c) -> csys_inv s ->
  csys_inv (clear_pending c s).
Proof.
  intros [i Hi] Hs. unfold clear_pending. rewrite (cof_lookup _ _ _ Hi).
  set (f := fun i : callout_impl => _).
  assert (~ pending (f i)) as Hnp.
  { unfold pending, f. cbn [c_flags set_c_flags]. flags. done. }
  destruct (has_flag (c_flags i) CALLOUT_PENDING) eqn:Hp.
  - destruct (inv_pending _ Hs _ _ Hi Hp) as (k & Hk & Hin).
    pose proof (inv_cpus _ Hs _ _ Hk) as [L1 L2 L3 L4].
    eapply (inv_step s _ (c_cpu i) k (queue_remove c k) c (f i)); [done|done| | | | | | | | |].
    + cbn [on_callout cs_cpus set_cs_callouts]. by apply on_cc_cpus.
    + exact (on_callout_callouts (on_cc _ _ s) c i f Hi).
    + simpl. by rewrite length_map.
    + rewrite queued_remove. by apply NoDup_filter.
    + intros x Hx. rewrite queued_remove, list_elem_of_filter. tauto.
    + done.
    + rewrite queued_remove, list_elem_of_filter. tauto.
    + intros m k2 Hm Hk2 Hc. by destruct (queued_cpu _ _ _ _ _ Hs Hk2 Hc Hi) as [? _].
    + intros b q x Hb Hx. simpl in Hb. apply list_lookup_fmap_Some in Hb as (q' & -> & Hq').
      apply list_elem_of_filter in Hx as [Hne Hx]. unfold cof, due_in.
      rewrite (on_callout_callouts (on_cc _ _ s) c i f Hi).
      rewrite lookup_total_insert_ne by done. apply (L4 b q' x Hq' Hx).
  - eapply (inv_callout s _ c i (f i)); [done|done|done|by apply on_callout_callouts| | |done|done].
    + unfold pending in *. rewrite Hp. split; [done|discriminate].
    + unfold fired, f. cbn [c_flags set_c_flags]. flags. done.
Qed.

(** *** callout_softclock *)

Lemma due_in_u32 i k : i32 (u32 (c_time i) - u32 (cc_ticks k)) = due_in i k.
Proof. apply i32_sub_u32. Qed.

Lemma note_same s i k : same_queues k (callout_next_note s i k).
Proof. unfold callout_next_note. repeat case_match; done. Qed.

Lemma next_cc_same s k : same_queues k (next_cc s k).2.
Proof. unfold next_cc, next_rescan, bump_hits. repeat case_match; done. Qed.

(** Moving [c] to a bucket emptied before it is due. *)
Lemma requeue_wheel_inv s n k c b :
  csys_inv s -> cs_cpus s !! n = Some k -> c ∈ queued k ->
  (b < BUCKETS)%nat -> dist b (cc_ticks k) <= due_in (cof s c) k ->
  csys_inv (on_cc n (fun k => wheel_insert c b (queue_remove c k)) s).
Proof.
  intros Hs Hk Hin Hb Hd. pose proof (inv_cpus _ Hs _ _ Hk) as [L1 L2 L3 L4].
  eapply inv_cpu; [exact Hs|exact Hk|by apply on_cc_cpus|done| | |].
  - simpl. by rewrite length_alter, length_map.
  - rewrite queued_wheel_insert by (simpl; rewrite length_map, L1; done).
    rewrite queued_remove. by apply queued_requeue.
  - intros b' q x Hq Hx. simpl in Hq.
    assert (x <> c -> exists q', cc_wheel k !! b' = Some q' /\ x ∈ q') as Hold.
    { intros Hxc. destruct (decide (b = b')) as [<-|Hne].
      - rewrite list_lookup_alter_eq in Hq. apply fmap_Some in Hq as (q1 & Hq1 & ->).
        apply list_lookup_fmap_Some in Hq1 as (q' & -> & Hq').
        apply elem_of_app in Hx as [[_ Hx]%list_elem_of_filter| ->%list_elem_of_singleton]; [eauto|done].
      - rewrite list_lookup_alter_ne in Hq by done.
        apply list_lookup_fmap_Some in Hq as (q' & -> & Hq').
        apply list_elem_of_filter in Hx as [_ Hx]. eauto. }
    unfold due_in. simpl. destruct (decide (x = c)) as [->|Hxc].
    + destruct (decide (b = b')) as [<-|Hne]; [done|]. exfalso.
      rewrite list_lookup_alter_ne in Hq by done.
      apply list_lookup_fmap_Some in Hq as (q' & -> & Hq').
      apply list_elem_of_filter in Hx as [? _]. done.
    + destruct (Hold Hxc) as (q' & Hq' & Hx'). by apply (L4 b' q' x).
Qed.

Lemma on_cc_compose n f g s : on_cc n f (on_cc n g s) = on_cc n (fun k => f (g k)) s.
Proof.
  destruct s as [a m d ge l]. unfold on_cc, set_cs_cpus; simpl. f_equal.
  apply map_eq. intros j. destruct (decide (n = j)) as [<-|].
  - rewrite !lookup_alter_eq. by destruct (m !! n).
  - by rewrite !lookup_alter_ne.
Qed.

Lemma on_cc_on_callout n c f g s : on_cc n f (on_callout c g s) = on_callout c g (on_cc n f s).
Proof. done. Qed.

(** Taking [c] off its queue and clearing its pending bit. *)
Lemma unqueue_inv s n k c i i' :
  csys_inv s -> cs_cpus s !! n = Some k -> c ∈ queued k -> cs_callouts s !! c = Some i ->
  ~ pending i' ->
  csys_inv (on_callout c (fun _ => i') (on_cc n (queue_remove c) s)).
Proof.
  intros Hs Hk Hin Hi Hnp. pose proof (inv_cpus _ Hs _ _ Hk) as [L1 L2 L3 L4].
  destruct (queued_cpu _ _ _ _ _ Hs Hk Hin Hi) as (Hcpu & _).
  pose proof (on_callout_callouts (on_cc n (queue_remove c) s) c i (fun _ => i') Hi) as Eco.
  eapply (inv_step s _ n k (queue_remove c k) c i'); [done|done| |exact Eco| | | | | | |].
  - by apply on_cc_cpus.
  - simpl. by rewrite length_map.
  - rewrite queued_remove. by apply NoDup_filter.
  - intros x Hx. rewrite queued_remove, list_elem_of_filter. tauto.
  - done.
  - rewrite queued_remove, list_elem_of_filter. tauto.
  - intros m k2 Hm Hk2 Hc. destruct (queued_cpu _ _ _ _ _ Hs Hk2 Hc Hi) as [? _]. congruence.
  - intros b q x Hb Hx. simpl in Hb. apply list_lookup_fmap_Some in Hb as (q' & -> & Hq').
    apply list_elem_of_filter in Hx as [Hne Hx]. unfold cof, due_in. rewrite Eco.
    rewrite lookup_total_insert_ne by done. apply (L4 b q' x Hq' Hx).
Qed.

Lemma on_callout_const s c i f : cs_callouts s !! c = Some i ->
  on_callout c f s = on_callout c (fun _ => f i) s.
Proof.
  intros Hi. destruct s as [a m d ge l]. unfold on_callout, set_cs_callouts; simpl in *. f_equal.
  apply map_eq. intros j. destruct (decide (c = j)) as [<-|].
  - by rewrite !lookup_alter_eq, Hi.
  - by rewrite !lookup_alter_ne.
Qed.

Lemma softclock_turn_inv self s : csys_inv s -> csys_inv (softclock_turn self s).2.
Proof.
  intros Hs. unfold softclock_turn.
  destruct (cc_todo (ccof s self)) as [|c todo] eqn:Et; [done|].
  assert (exists k, cs_cpus s !! self = Some k) as [k Hk].
  { destruct (cs_cpus s !! self) as [k|] eqn:E; [eauto|]. unfold ccof in Et.
    by rewrite lookup_total_alt, E in Et. }
  rewrite (ccof_lookup _ _ _ Hk) in *.
  assert (c ∈ queued k) as Hin by (apply elem_of_queued; left; rewrite Et; by left).
  destruct (ci_member _ _ _ (inv_cpus _ Hs _ _ Hk) c Hin) as (i & Hi & Hcpu & Hp & Hf).
  assert (forall f, cof (on_cc self f s) c = i) as Ei by (intros; by apply cof_lookup).
  rewrite !Ei, due_in_u32. destruct (Z.ltb_spec 0 (due_in i k)) as [Hd|Hd]; cbn [snd].
  - apply inv_on_cc_same; [intros; apply note_same|]. rewrite on_cc_compose.
    destruct (BUCKET_dist (c_time i) (cc_ticks k) Hd) as [Hb Hdist].
    eapply requeue_wheel_inv; eauto. by rewrite (cof_lookup _ _ _ Hi).
  - apply inv_on_cc_same; [intros; done|].
    assert (csys_inv (on_callout c (fun i => set_c_flags (fire_flags (c_flags i)) i)
      (on_cc self (queue_remove c) s))) as Hu.
    { rewrite (on_callout_const _ _ i) by done. eapply unqueue_inv; eauto.
      unfold pending, fire_flags. cbn [c_flags set_c_flags]. flags. done. }
    destruct (due_in i k <? 0); [|done].
    rewrite <-on_cc_on_callout. by apply inv_on_cc_same.
Qed.

(** *** callout_schedule_locked *)

Section schedule.
Context `{M : Machine} `{!MachineOk M}.

(** The requested delay and the grid fit an [int]. *)
Definition ticks_ok (to_ticks : Z) (lp : lpsched) : Prop :=
  0 <= to_ticks /\ 0 <= lpsched_coalesce_ms lp /\
  to_ticks + mstohz (lpsched_coalesce_ms lp) <= INT_MAX.

(** The delay coalescing adds: none, or less than one grid step of at most
    half the request. *)
Lemma coalesce_delay e c to_ticks now lp : ticks_ok to_ticks lp ->
  exists d, 0 <= d < Z.max 1 (mstohz (lpsched_coalesce_ms lp)) /\
    (lpsched_coalesce e c to_ticks now lp).1 = i32 (to_ticks + d + now) /\
    (0 < d -> 2 * mstohz (lpsched_coalesce_ms lp) <= to_ticks /\
       lpsched_enabled lp <> 0 /\
       has_flag (c_flags c) CALLOUT_SLACK = true /\
       has_flag (c_flags c) CALLOUT_PRECISE = false /\
       (u32 (e_ticks e + to_ticks) + d) mod mstohz (lpsched_coalesce_ms lp) = 0).
Proof.
  intros (Ht & Hms & Hmax). unfold lpsched_coalesce.
  pose proof (mstohz_nonneg _ Hms) as Hg. set (grid := mstohz _) in *.
  assert (exists d, 0 <= d < Z.max 1 grid /\ i32 (to_ticks + now) = i32 (to_ticks + d + now) /\
    (0 < d -> 2 * grid <= to_ticks /\ lpsched_enabled lp <> 0 /\
       has_flag (c_flags c) CALLOUT_SLACK = true /\ has_flag (c_flags c) CALLOUT_PRECISE = false /\
       (u32 (e_ticks e + to_ticks) + d) mod grid = 0)) as H0.
  { exists 0. split; [lia|]. split; [f_equal; lia|lia]. }
  destruct (Z.eqb_spec (lpsched_enabled lp) 0) as [|He]; [done|].
  destruct (lpsched_coalesce_ms lp =? 0); [done|]. destruct (to_ticks =? 0); [done|].
  cbn [orb]. destruct (has_flag (c_flags c) CALLOUT_PRECISE) eqn:Hp; [done|].
  destruct (has_flag (c_flags c) CALLOUT_SLACK) eqn:Hsl; [|done]. simpl negb. cbv iota.
  destruct (Z.leb_spec grid 1); [done|].
  destruct (Z.ltb_spec to_ticks (2 * grid)); [done|]. clear H0. cbv zeta. cbn [fst].
  assert (u32 grid = grid) as Eg by (apply u32_id; unfold in_u32, INT_MAX in *; lia).
  rewrite Eg. set (m := u32 (e_ticks e + to_ticks)).
  pose proof (Z.mod_pos_bound m grid ltac:(lia)) as Hm.
  unfold nz. destruct (Z.eqb_spec (m mod grid) 0) as [E|E]; cbn [negb].
  - exists 0. split; [lia|]. split; [rewrite Z.add_0_r, i32_i32; f_equal; lia|lia].
  - exists (grid - m mod grid). split; [lia|]. split.
    + rewrite i32_add_i32_l. f_equal. lia.
    + intros _. repeat split; auto.
      replace (m + (grid - m mod grid)) with ((m - m mod grid) + 1 * grid) by lia.
      rewrite Z.mod_add by lia. rewrite <-Zminus_mod_idemp_l, Z.sub_diag. apply Z.mod_0_l. lia.
Qed.

(** The ticks the callout is then away. *)
Lemma coalesce_due e c to_ticks now lp : ticks_ok to_ticks lp ->
  to_ticks <= i32 ((lpsched_coalesce e c to_ticks now lp).1 - now) <= INT_MAX.
Proof.
  intros Hok. destruct (coalesce_delay e c to_ticks now lp Hok) as (d & Hd & -> & _).
  rewrite i32_sub_i32_l. replace (to_ticks + d + now - now) with (to_ticks + d) by lia.
  destruct Hok as (H1 & H2 & H3).
  pose proof (mstohz_nonneg _ H2). unfold INT_MAX in *. rewrite i32_id; [lia|].
  unfold in_i32. lia.
Qed.

Lemma assign_time_spec e c to_ticks n k s i :
  cs_callouts s !! c = Some i -> cs_cpus s !! n = Some k -> ticks_ok to_ticks (cs_lp s) ->
  exists t, cs_callouts (assign_time e c to_ticks n s) = <[c := set_c_time t i]> (cs_callouts s) /\
    cs_cpus (assign_time e c to_ticks n s) = cs_cpus s /\
    to_ticks <= due_in (set_c_time t i) k <= INT_MAX.
Proof.
  intros Hi Hk Hok. unfold assign_time. rewrite (cof_lookup _ _ _ Hi), (ccof_lookup _ _ _ Hk).
  pose proof (coalesce_due e i to_ticks (i32 (cc_ticks k)) _ Hok) as Hd.
  destruct (lpsched_coalesce _ _ _ _ _) as [t lp]. exists t. split; [|split; [done|]].
  - by apply (on_callout_callouts (set_cs_lp lp s)).
  - unfold due_in. simpl in *. rewrite (i32_cong _ (t - i32 (cc_ticks k))); [done|].
    unfold i32. zdm.
Qed.

(** Putting a callout that is on no queue on the worklist of CPU [n]. *)
Lemma enqueue_inv s s' n k c i i' :
  csys_inv s -> cs_cpus s !! n = Some k -> cs_callouts s !! c = Some i -> ~ pending i ->
  cs_cpus s' = <[n := todo_insert c k]> (cs_cpus s) ->
  cs_callouts s' = <[c := i']> (cs_callouts s) ->
  c_cpu i' = n -> pending i' -> ~ fired i' -> csys_inv s'.
Proof.
  intros Hs Hk Hi Hnp Ecp Eco Hcpu Hp Hf.
  pose proof (inv_cpus _ Hs _ _ Hk) as [L1 L2 L3 L4].
  assert (forall m k2, cs_cpus s !! m = Some k2 -> c ∉ queued k2) as Hoff.
  { intros m k2 Hk2 Hin. by destruct (queued_cpu _ _ _ _ _ Hs Hk2 Hin Hi) as (_ & ? & _). }
  pose proof (queued_todo_insert c k) as Hq.
  eapply (inv_step s _ n k (todo_insert c k) c i'); eauto.
  - rewrite Hq. apply NoDup_cons. eauto.
  - intros x Hx. rewrite Hq, elem_of_cons. tauto.
  - intros _. split; [done|]. rewrite Hq. by left.
  - intros b q x Hb Hx. simpl in Hb. unfold cof, due_in. rewrite Eco.
    rewrite lookup_total_insert_ne; [by apply (L4 b q x)|].
    intros ->. apply (Hoff n k Hk). apply elem_of_queued. right. eauto.
Qed.

(** Moving a pending callout in time. *)
Lemma retime_inv s s' n k c i t :
  csys_inv s -> cs_callouts s !! c = Some i -> c_cpu i = n -> cs_cpus s !! n = Some k ->
  pending i -> ~ fired i ->
  cs_callouts s' = <[c := set_c_time t i]> (cs_callouts s) -> cs_cpus s' = cs_cpus s ->
  0 <= due_in (set_c_time t i) k <= INT_MAX ->
  csys_inv (if i32 (t - c_time i) <? 0
            then on_cc n (fun k => todo_insert c (queue_remove c k)) s' else s').
Proof.
  intros Hs Hi Hcpu Hk Hp Hf Eco Ecp Hdue.
  destruct (inv_pending _ Hs _ _ Hi Hp) as (k2 & Hk2 & Hin). rewrite Hcpu, Hk in Hk2.
  injection Hk2 as <-. pose proof (inv_cpus _ Hs _ _ Hk) as [L1 L2 L3 L4].
  assert (forall m k2, m <> n -> cs_cpus s !! m = Some k2 -> c ∉ queued k2) as Hoff.
  { intros m k2 Hm Hk2 Hc. destruct (queued_cpu _ _ _ _ _ Hs Hk2 Hc Hi) as (? & _ & _). congruence. }
  destruct (Z.ltb_spec (i32 (t - c_time i)) 0) as [Hlt|Hge].
  - set (k' := todo_insert c (queue_remove c k)).
    assert (queued k' ≡ₚ queued k) as Hq.
    { unfold k'. rewrite queued_todo_insert, queued_remove. by apply queued_requeue. }
    eapply (inv_step s _ n k k' c (set_c_time t i)); eauto.
    + rewrite (on_cc_cpus s' n k) by (by rewrite Ecp). by rewrite Ecp.
    + unfold k'. simpl. by rewrite length_map.
    + by rewrite Hq.
    + intros x _. by rewrite Hq.
    + intros _. by rewrite Hq.
    + intros b q x Hb Hx. unfold k' in Hb. simpl in Hb.
      apply list_lookup_fmap_Some in Hb as (q' & -> & Hq').
      apply list_elem_of_filter in Hx as [Hne Hx]. unfold cof, due_in. simpl. rewrite Eco.
      rewrite lookup_total_insert_ne by done. apply (L4 b q' x Hq' Hx).
  - eapply (inv_step s _ n k k c (set_c_time t i)); eauto.
    + by rewrite Ecp, insert_id.
    + intros b q x Hb Hx. unfold cof. rewrite Eco. destruct (decide (c = x)) as [<-|Hne].
      * rewrite lookup_total_insert_eq. specialize (L4 b q c Hb Hx).
        rewrite (cof_lookup _ _ _ Hi) in L4. pose proof (dist_pos b (cc_ticks k)).
        assert (i32 (t - c_time i) = due_in (set_c_time t i) k - due_in i k) as E.
        { rewrite (i32_cong _ (due_in (set_c_time t i) k - due_in i k)).
          - apply i32_id. unfold in_i32, INT_MAX in *.
            pose proof (i32_range (c_time i - cc_ticks k)) as Hr. unfold in_i32, due_in in *. lia.
          - unfold due_in, i32. simpl. zdm. }
        lia.
      * rewrite lookup_total_insert_ne by done. by apply (L4 b q x).
Qed.

End schedule.

(** * The callout operations as steps

    Every entry point of kern_timeout.c is a step of one transition relation,
    with the conditions its KASSERTs and its documentation put on the caller;
    the interleavings of all CPUs and callers are its sequences. *)

Section steps.
Context `{M : Machine} `{!MachineOk M}.

(** What the KASSERTs of [callout_schedule] and the type of its argument ask of
    a caller; [ok] restricts the timeouts further, where a theorem needs it. *)
Definition may_schedule (ok : Z -> lpsched -> Prop) (e : caller) (c : nat) (to_ticks : Z) (s : csys) : Prop :=
  is_Some (cs_callouts s !! c) /\ is_Some (cs_cpus s !! c_cpu (cof s c)) /\
  is_Some (cs_cpus s !! e_cpu e) /\ 0 <= to_ticks <= INT_MAX /\ ok to_ticks (cs_lp s).

Lemma schedule_inv e c to_ticks s : may_schedule ticks_ok e c to_ticks s -> csys_inv s ->
  csys_inv (callout_schedule_locked e c to_ticks s).
Proof.
  intros ([i Hi] & [ko Hko] & [kc Hkc] & _ & Hok) Hs. unfold callout_schedule_locked.
  rewrite (cof_lookup _ _ _ Hi) in *.
  set (f := fun i : callout_impl => set_c_flags _ i).
  assert (~ fired (f i)) as Hnf by (unfold fired, f; cbn [c_flags set_c_flags]; flags; done).
  assert (has_flag (c_flags (f i)) CALLOUT_PENDING = has_flag (c_flags i) CALLOUT_PENDING) as Ep
    by (unfold f; cbn [c_flags set_c_flags]; flags; done).
  set (s1 := on_callout c f s).
  pose proof (on_callout_callouts s c i f Hi) as Eco1. fold s1 in Eco1.
  assert (csys_inv s1) as Hs1.
  { eapply (inv_callout s s1 c i (f i)); eauto; [unfold pending; by rewrite Ep|done]. }
  assert (cs_callouts s1 !! c = Some (f i)) as Hi1 by (by rewrite Eco1, lookup_insert_eq).
  rewrite (cof_lookup _ _ _ Hi1), Ep.
  destruct (has_flag (c_flags i) CALLOUT_PENDING) eqn:Hp.
  - destruct (assign_time_spec e c to_ticks (c_cpu i) ko s1 (f i) Hi1 Hko Hok)
      as (t & Ec & Ecp & Hdue).
    assert (cof (assign_time e c to_ticks (c_cpu i) s1) c = set_c_time t (f i)) as ->.
    { apply cof_lookup. by rewrite Ec, lookup_insert_eq. }
    eapply (retime_inv s1 _ (c_cpu i) ko c (f i) t); eauto.
    destruct Hok as [H0 _]. lia.
  - assert (~ pending (f i)) as Hnp by (unfold pending; congruence).
    set (pend := fun i : callout_impl => set_c_flags (set_flag _ _) i). destruct (_ || _ || _).
    + destruct (assign_time_spec e c to_ticks (c_cpu i) ko s1 (f i) Hi1 Hko Hok)
        as (t & Ec & Ecp & _).
      set (s2 := assign_time e c to_ticks (c_cpu i) s1) in *.
      eapply (enqueue_inv s1 _ (c_cpu i) ko c (f i) (pend (set_c_time t (f i)))); eauto.
      * rewrite (on_cc_cpus (on_callout c _ s2) _ ko); by rewrite on_callout_cpus, Ecp.
      * rewrite on_cc_callouts.
        rewrite (on_callout_callouts s2 c (set_c_time t (f i))) by (by rewrite Ec, lookup_insert_eq).
        rewrite Ec, insert_insert_eq. reflexivity.
      * unfold pending, pend. cbn [c_flags set_c_flags]. by flags.
      * unfold fired, pend, f. cbn [c_flags set_c_flags set_c_time]. flags. done.
    + set (s1' := on_callout c (set_c_cpu (e_cpu e)) s1).
      assert (cs_callouts s1' = <[c := set_c_cpu (e_cpu e) (f i)]> (cs_callouts s1)) as Eco1'
        by (by apply on_callout_callouts).
      assert (cs_callouts s1' !! c = Some (set_c_cpu (e_cpu e) (f i))) as Hi2
        by (by rewrite Eco1', lookup_insert_eq).
      destruct (assign_time_spec e c to_ticks (e_cpu e) kc s1' _ Hi2 Hkc Hok) as (t & Ec & Ecp & _).
      set (s2 := assign_time e c to_ticks (e_cpu e) s1') in *.
      eapply (enqueue_inv s1 _ (e_cpu e) kc c (f i) (pend (set_c_time t (set_c_cpu (e_cpu e) (f i))))); eauto.
      * rewrite (on_cc_cpus (on_callout c _ s2) _ kc); by rewrite on_callout_cpus, Ecp.
      * rewrite on_cc_callouts.
        rewrite (on_callout_callouts s2 c (set_c_time t (set_c_cpu (e_cpu e) (f i))))
          by (by rewrite Ec, lookup_insert_eq).
        rewrite Ec, Eco1', !insert_insert_eq. reflexivity.
      * unfold pending, pend. cbn [c_flags set_c_flags]. by flags.
      * unfold fired, pend, f. cbn [c_flags set_c_flags set_c_time set_c_cpu]. flags. done.
Qed.

Lemma on_callout_inv c f s :
  (forall i, (pending (f i) <-> pending i) /\ (fired (f i) -> fired i) /\
     c_cpu (f i) = c_cpu i /\ c_time (f i) = c_time i) ->
  csys_inv s -> csys_inv (on_callout c f s).
Proof.
  intros Hf Hs. destruct (cs_callouts s !! c) as [i|] eqn:Hi.
  - destruct (Hf i) as (? & ? & ? & ?).
    eapply (inv_callout s _ c i (f i)); eauto. by apply on_callout_callouts.
  - eapply inv_ext; [| |exact Hs]; [|done]. simpl. apply map_eq. intros j.
    destruct (decide (c = j)) as [<-|]; [by rewrite lookup_alter_eq, Hi|by rewrite lookup_alter_ne].
Qed.

(** [callout_init] on memory that is not on a queue. *)
Lemma init_inv e c flags s :
  (forall i, cs_callouts s !! c = Some i -> ~ pending i) ->
  Z.land flags (Z.lnot CALLOUT_FLAGMASK) = 0 ->
  csys_inv s -> csys_inv (callout_init e c flags s).
Proof.
  intros Hnp Hfl Hs.
  assert (forall m k, cs_cpus s !! m = Some k -> c ∉ queued k) as Hoff.
  { intros m k Hk Hin. destruct (ci_member _ _ _ (inv_cpus _ Hs _ _ Hk) c Hin) as (i & Hi & _ & Hp & _).
    by apply (Hnp i). }
  assert (has_flag flags CALLOUT_PENDING = false) as Hf1.
  { unfold has_flag. change CALLOUT_PENDING with (Z.land (Z.lnot CALLOUT_FLAGMASK) CALLOUT_PENDING).
    by rewrite Z.land_assoc, Hfl. }
  unfold callout_init. set (p := match cs_cpus s !! e_cpu e with Some _ => _ | None => _ end).
  assert (has_flag p.1 CALLOUT_PENDING = false) as Hp.
  { unfold p. destruct (cs_cpus s !! e_cpu e); [destruct (has_flag flags CALLOUT_MPSAFE)|];
      cbn [fst]; flags; done. }
  destruct p as [fl cpu]. cbn [fst] in Hp. split.
  - intros n k Hk. pose proof (inv_cpus _ Hs _ _ Hk) as [L1 L2 L3 L4].
    assert (forall x, x ∈ queued k -> c <> x) as Hne by (intros x Hx ->; by apply (Hoff n k)).
    split; auto.
    + intros x Hx. simpl. rewrite lookup_insert_ne by auto. by apply L3.
    + intros b q x Hb Hx. unfold cof. simpl. rewrite lookup_total_insert_ne; [by apply (L4 b q x)|].
      apply Hne, elem_of_queued. right. eauto.
  - intros x i. simpl. intros [[<- <-]|[Hne Hx]]%lookup_insert_Some Hpx.
    + exfalso. unfold pending in Hpx. simpl in Hpx. congruence.
    + by apply (inv_pending _ Hs).
Qed.

(** A CPU that comes up with empty queues. *)
Lemma new_cpu_inv n s : cs_cpus s !! n = None -> csys_inv s ->
  csys_inv (set_cs_cpus (<[n := zero_cc]> (cs_cpus s)) s).
Proof.
  assert (concat (cc_wheel zero_cc) = []) as Ew by (vm_compute; done).
  assert (queued zero_cc = []) as Eq by (unfold queued; rewrite Ew; done).
  intros Hn Hs. split.
  - intros m k. cbn [cs_cpus set_cs_cpus].
    intros [[<- <-]|[Hne Hk]]%lookup_insert_Some; [|by destruct (inv_cpus _ Hs _ _ Hk)].
    split; [vm_compute; done|rewrite Eq; constructor|rewrite Eq; by intros c ?%elem_of_nil|].
    intros b q c Hb Hc. exfalso. assert (c ∈ queued zero_cc) as Hq; [apply elem_of_queued; eauto|].
    rewrite Eq in Hq. by apply elem_of_nil in Hq.
  - intros c i Hc Hp. destruct (inv_pending _ Hs _ _ Hc Hp) as (k & Hk & Hin).
    exists k. simpl. rewrite lookup_insert_ne; [done|]. intros E. rewrite E in Hn. congruence.
Qed.

(** ** The transition relation *)

Context `{SC : Sysctl}.

Inductive cstep_with (ok : Z -> lpsched -> Prop) (s : csys) : csys -> Prop :=
| step_startup : cs_cpus s !! 0%nat = None -> cstep_with ok s (callout_startup s)
| step_init_cpu ci :
    (forall k, cs_cpus s !! ci = Some k -> cc_sleepq k = []) ->
    cstep_with ok s (callout_init_cpu ci s)
| step_init e c flags :
    (forall i, cs_callouts s !! c = Some i -> ~ pending i) ->
    Z.land flags (Z.lnot CALLOUT_FLAGMASK) = 0 ->
    cstep_with ok s (callout_init e c flags s)
| step_destroy c : cstep_with ok s (callout_destroy c s)
| step_reset e c to_ticks func arg :
    may_schedule ok e c to_ticks s -> cstep_with ok s (callout_reset e c to_ticks func arg s)
| step_schedule e c to_ticks :
    may_schedule ok e c to_ticks s -> cstep_with ok s (callout_schedule e c to_ticks s)
| step_setfunc c func arg : cstep_with ok s (callout_setfunc c func arg s)
| step_stop c : is_Some (cs_callouts s !! c) -> cstep_with ok s (callout_stop c s).2
| step_wait e c interlock : cstep_with ok s (callout_wait_turn e c interlock s).2
| step_ack c : cstep_with ok s (callout_ack c s)
| step_setdeferrable c d : cstep_with ok s (callout_setdeferrable c d s)
| step_hardclock self : cstep_with ok s (callout_hardclock self s).2
| step_next_ticks self : cstep_with ok s (callout_next_ticks self s).2
| step_soft_enter self l : cstep_with ok s (softclock_enter self l s)
| step_soft_turn self : cstep_with ok s (softclock_turn self s).2
| step_soft_return self : cstep_with ok s (softclock_return self s)
| step_soft_exit self : cstep_with ok s (softclock_exit self s)
| step_sysctl rq : cstep_with ok s (res_post (sysctl_kern_callout_deferrable rq s))
| step_lpsched lp : cstep_with ok s (set_cs_lp lp s).

(** Every timeout an int holds, and those that still fit one with a step of the
    coalescing grid added. *)
Definition cstep : csys -> csys -> Prop := cstep_with (fun _ _ => True).
Definition cstep_fits : csys -> csys -> Prop := cstep_with ticks_ok.

Lemma cstep_with_any ok s s' : cstep_with ok s s' -> cstep s s'.
Proof.
  unfold cstep. intros []; econstructor; eauto; unfold may_schedule in *; tauto.
Qed.

Lemma cstep_inv s s' : cstep_fits s s' -> csys_inv s -> csys_inv s'.
Proof.
  intros Hst Hs. destruct Hst.
  - by apply new_cpu_inv.
  - unfold callout_init_cpu. destruct (cs_cpus s !! ci) as [k|] eqn:Hk.
    + pose proof (inv_on_cc_same s ci (set_cc_sleepq []) (fun _ _ => conj eq_refl (conj eq_refl eq_refl)) Hs).
      eapply inv_ext; [| |done]; [done|]. by rewrite (on_cc_cpus s ci k).
    + by apply (new_cpu_inv ci s).
  - by apply init_inv.
  - by apply on_callout_inv.
  - unfold callout_reset. apply schedule_inv; [|by apply on_callout_inv].
    destruct H as ([i Hi] & Hc & He & Hto & Hok). unfold may_schedule, cof in *.
    rewrite (on_callout_callouts s c i) by done. rewrite lookup_insert_eq, lookup_total_insert_eq.
    rewrite (lookup_total_correct _ _ _ Hi) in Hc. eauto.
  - by apply schedule_inv.
  - by apply on_callout_inv.
  - by apply clear_pending_inv.
  - unfold callout_wait_turn. repeat case_match; try done. by apply inv_on_cc_same.
  - apply on_callout_inv; [|done]. intros i. unfold pending, fired. cbn [c_flags set_c_flags].
    flags. done.
  - unfold callout_setdeferrable. destruct d.
    + apply on_callout_inv; [|done]. intros i. unfold pending, fired. cbn [c_flags set_c_flags]. flags. done.
    + apply inv_on_cc_same; [done|]. apply on_callout_inv; [|done].
      intros i. unfold pending, fired. cbn [c_flags set_c_flags]. flags. done.
  - by apply hardclock_inv.
  - unfold callout_next_ticks. pose proof (next_cc_same s (ccof s self)) as Hn.
    destruct (next_cc s (ccof s self)) as [best k']. cbn [snd] in *.
    apply inv_on_cc_same; [|done]. intros k Hk. by rewrite (ccof_lookup _ _ _ Hk) in Hn.
  - by apply inv_on_cc_same.
  - by apply softclock_turn_inv.
  - apply inv_on_cc_same; [|done]. intros k _. cbv zeta. by destruct (nz _).
  - by apply inv_on_cc_same.
  - unfold sysctl_kern_callout_deferrable. repeat case_match; simpl; try done;
      by eapply inv_ext; [| |exact Hs].
  - by eapply inv_ext; [| |exact Hs].
Qed.

End steps.
