(* ===== verification/CalloutNext.v ===== *)
(** * The next deadline of an idle CPU

    [callout_next_ticks] bounds how long the tickless idle may stop the clock.
    It answers from a cache that is meant to be exact or early; this file says
    when it is, and exhibits the case where it is not. *)

From stdpp Require Import base numbers list gmap strings relations.
From S2P Require Import Prelude Text Sysctl Lwp Lpsched Callout CalloutWheel CalloutInv.

Definition honoured (s : csys) (c : nat) : Prop :=
  callout_next_honoured (callout_deferrable_enabled s) (cof s c) = true.

(** The callouts in the wheel of [k]. *)
Definition in_wheel (k : callout_cpu) (c : nat) : Prop :=
  exists b q, cc_wheel k !! b = Some q /\ c ∈ q.

(** The ticks from now to the cached deadline. *)
Definition lead (k : callout_cpu) : Z := i32 (cc_next_time k - cc_ticks k).

(** The cache is current and exact or early. *)
Definition cache_ok (s : csys) (k : callout_cpu) : Prop :=
  cc_next_gen k = callout_next_gen s ->
  forall c, in_wheel k c -> honoured s c ->
    cc_next_none k = false /\ lead k <= due_in (cof s c) k.

(** ** The wheel walk *)

Lemma fold_left_concat {A B} (f : A -> B -> A) (ls : list (list B)) a :
  fold_left (fun a q => fold_left f q a) ls a = fold_left f (concat ls) a.
Proof. revert a. induction ls as [|q ls IH]; intros a; [done|]. simpl. by rewrite IH, fold_left_app. Qed.

Lemma scan_fold s k cs a :
  let r := fold_left (scan_one s (cc_ticks k)) cs a in
  (sc_none r = true -> sc_none a = true /\ sc_best r = sc_best a /\ sc_earliest r = sc_earliest a /\
     forall c, c ∈ cs -> ~ honoured s c) /\
  (sc_none r = false ->
     (forall c, c ∈ cs -> honoured s c -> sc_best r <= due_in (cof s c) k) /\
     (sc_none a = false -> sc_best r <= sc_best a) /\
     ((sc_none a = false /\ sc_best r = sc_best a /\ sc_earliest r = sc_earliest a) \/
      exists c, c ∈ cs /\ honoured s c /\ sc_best r = due_in (cof s c) k /\
        sc_earliest r = c_time (cof s c))).
Proof.
  revert a. induction cs as [|c cs IH]; intros a; cbn [fold_left].
  { split; intros Hn.
    - repeat split; auto. by intros c ?%elem_of_nil.
    - split; [by intros c ?%elem_of_nil|]. split; [done|]. left. done. }
  destruct (IH (scan_one s (cc_ticks k) a c)) as [IH1 IH2]. clear IH.
  set (r := fold_left _ cs _) in *. unfold scan_one in IH1, IH2. rewrite due_in_u32 in *.
  destruct (callout_next_honoured (callout_deferrable_enabled s) (cof s c)) eqn:Hh; cbn [negb] in *.
  - destruct (sc_none a || (due_in (cof s c) k <? sc_best a)) eqn:Hc; cbn in IH1, IH2.
    + split; [intros Hn; by destruct (IH1 Hn)|]. intros Hn. destruct (IH2 Hn) as (H1 & H2 & H3).
      specialize (H2 eq_refl). split; [|split].
      * intros x [->|Hx]%elem_of_cons Hhx; [done|]. by apply H1.
      * intros Ha. rewrite Ha in Hc. cbn in Hc. lia.
      * right. destruct H3 as [(_ & ? & ?)|(x & ? & ? & ? & ?)]; [exists c|exists x];
          (split; [by constructor|done]).
    + apply orb_false_iff in Hc as [Ha Hc]. apply Z.ltb_ge in Hc. split.
      * intros Hn. destruct (IH1 Hn). congruence.
      * intros Hn. destruct (IH2 Hn) as (H1 & H2 & H3). specialize (H2 Ha). split; [|split].
        -- intros x [->|Hx]%elem_of_cons Hhx; [lia|by apply H1].
        -- done.
        -- destruct H3 as [?|(x & ? & ? & ? & ?)]; [by left|right; exists x].
           split; [by right|done].
  - cbn in IH1, IH2. assert (~ honoured s c) as Hnh by (unfold honoured; congruence). split.
    + intros Hn. destruct (IH1 Hn) as (? & ? & ? & ?). repeat split; auto.
      intros x [->|Hx]%elem_of_cons; auto.
    + intros Hn. destruct (IH2 Hn) as (H1 & H2 & H3). split; [|split]; [|done|].
      * intros x [->|Hx]%elem_of_cons Hhx; [done|by apply H1].
      * destruct H3 as [?|(x & ? & ? & ? & ?)]; [by left|right; exists x].
        split; [by right|done].
Qed.

Lemma in_wheel_concat k c : in_wheel k c <-> c ∈ concat (cc_wheel k).
Proof.
  unfold in_wheel. rewrite (list_elem_of_In (concat _)), in_concat. setoid_rewrite <-list_elem_of_In.
  split.
  - intros (b & q & Hb & Hc). exists q. split; [|done]. by eapply list_elem_of_lookup_2.
  - intros (q & Hq & Hc). apply list_elem_of_lookup in Hq as [b Hb]. eauto.
Qed.

Lemma scan_wheel_spec s k :
  let r := scan_wheel s k in
  (sc_none r = true -> sc_best r = CALLOUT_NO_NEXT /\ forall c, in_wheel k c -> ~ honoured s c) /\
  (sc_none r = false ->
     (forall c, in_wheel k c -> honoured s c -> sc_best r <= due_in (cof s c) k) /\
     exists c, in_wheel k c /\ honoured s c /\ sc_best r = due_in (cof s c) k /\
       sc_earliest r = c_time (cof s c)).
Proof.
  unfold scan_wheel. rewrite fold_left_concat. cbv zeta.
  destruct (scan_fold s k (concat (cc_wheel k)) (mk_scan CALLOUT_NO_NEXT 0 true 0)) as [H1 H2].
  setoid_rewrite in_wheel_concat. split.
  - intros Hn. destruct (H1 Hn) as (_ & -> & _ & ?). done.
  - intros Hn. destruct (H2 Hn) as (Ha & _ & [(? & _)|Hc]); done.
Qed.

(** A walk leaves a cache that is exact. *)
Lemma rescan_cache s k s' : cs_callouts s' = cs_callouts s ->
  callout_deferrable_enabled s' = callout_deferrable_enabled s ->
  cache_ok s' (next_rescan s k).2.
Proof.
  intros Ec Ed _ c Hc Hh. unfold honoured, cof in Hh. rewrite Ec, Ed in Hh.
  destruct (scan_wheel_spec s k) as [H1 H2]. unfold next_rescan in *. cbn in *.
  unfold lead, due_in, cof. cbn. rewrite Ec. destruct (sc_none (scan_wheel s k)).
  - exfalso. destruct (H1 eq_refl) as [_ H]. by apply (H c).
  - split; [done|]. destruct (H2 eq_refl) as [H (x & Hx & Hhx & Eb & ->)].
    specialize (H c Hc Hh). rewrite Eb in H. exact H.
Qed.

(** ** The answer *)

(** What [callout_next_ticks] answers, on every branch. *)
Lemma next_cc_spec s k : cache_ok s k ->
  let '(r, k') := next_cc s k in
  (cc_todo k <> [] -> r = 0) /\
  (cc_todo k = [] ->
     (forall c, in_wheel k c -> honoured s c -> r <= due_in (cof s c) k) \/
     (r = CALLOUT_NO_NEXT /\ forall c, in_wheel k c -> ~ honoured s c)) /\
  cache_ok s k'.
Proof.
  intros Hok. unfold next_cc. destruct (decide (cc_todo k = [])) as [Et|Et];
    [rewrite bool_decide_true by done|rewrite bool_decide_false by done; done]. cbn [negb].
  assert (let '(r, k') := next_rescan s k in (cc_todo k <> [] -> r = 0) /\
    (cc_todo k = [] -> (forall c, in_wheel k c -> honoured s c -> r <= due_in (cof s c) k) \/
     (r = CALLOUT_NO_NEXT /\ forall c, in_wheel k c -> ~ honoured s c)) /\ cache_ok s k') as Hre.
  { pose proof (rescan_cache s k s eq_refl eq_refl) as Hc.
    unfold next_rescan in *. split; [done|]. split; [|exact Hc]. intros _.
    destruct (scan_wheel_spec s k) as [H1 H2]. destruct (sc_none (scan_wheel s k)); [by auto|].
    left. by destruct (H2 eq_refl). }
  destruct (Z.eqb_spec (cc_next_gen k) (callout_next_gen s)) as [Eg|]; [|exact Hre].
  destruct (cc_next_none k) eqn:En.
  - split; [done|]. split; [|exact Hok]. intros _. right. split; [done|].
    intros c Hc Hh. destruct (Hok Eg c Hc Hh). congruence.
  - rewrite i32_sub_u32. fold (lead k). destruct (Z.ltb_spec 0 (lead k)); [|exact Hre].
    split; [done|]. split; [|exact Hok]. intros _. left. intros c Hc Hh.
    by destruct (Hok Eg c Hc Hh).
Qed.

(** ** Exact or early, step by step *)

Record next_inv (s : csys) : Prop := {
  ni_gen : 0 < callout_next_gen s;
  ni_gens : forall n k, cs_cpus s !! n = Some k -> 0 <= cc_next_gen k <= callout_next_gen s;
  ni_cache : forall n k, cs_cpus s !! n = Some k -> cache_ok s k
}.

(** Where the wrap-around of 32-bit time and generations does not bite: the
    policy was not changed 2^32 times, and a current cached deadline is not
    2^31 ticks in the past, nor that far before a callout on the worklist. *)
Definition nowrap (s : csys) : Prop :=
  callout_next_gen s < UINT32_MAX /\
  forall n k, cs_cpus s !! n = Some k -> cc_next_gen k = callout_next_gen s ->
    cc_next_none k = false ->
    - 2 ^ 31 < lead k /\
    forall c, c ∈ cc_todo k -> due_in (cof s c) k - lead k <= INT_MAX.

(** A step that keeps the policy and, on every CPU with a current cache, adds
    nothing to the wheel and moves no honoured deadline before the cached one. *)
Lemma next_step s s' : next_inv s -> callout_next_gen s' = callout_next_gen s ->
  (forall n k', cs_cpus s' !! n = Some k' -> 0 <= cc_next_gen k' <= callout_next_gen s /\
     (cc_next_gen k' = callout_next_gen s -> exists k, cs_cpus s !! n = Some k /\
        cc_next_gen k = cc_next_gen k' /\ cc_next_none k' = cc_next_none k /\
        forall c, in_wheel k' c -> honoured s' c -> in_wheel k c /\ honoured s c /\
          (cc_next_none k = false -> lead k <= due_in (cof s c) k ->
             lead k' <= due_in (cof s' c) k'))) ->
  next_inv s'.
Proof.
  intros [G1 G2 G3] Eg Hk. split; [by rewrite Eg| |].
  - intros n k' Hk'. rewrite Eg. by destruct (Hk n k' Hk').
  - intros n k' Hk' E c Hc Hh. rewrite Eg in E. destruct (Hk n k' Hk') as [_ (k & Hkn & E1 & E2 & H)]; [done|].
    destruct (H c Hc Hh) as (Hc' & Hh' & Hle). destruct (G3 n k Hkn ltac:(congruence) c Hc' Hh') as [H1 H2].
    rewrite E2. auto.
Qed.

(** The callout part of a step, by the fields the cache reads. *)
Definition same_deadline (i i' : callout_impl) : Prop :=
  c_time i' = c_time i /\
  (has_flag (c_flags i') CALLOUT_DEFERRABLE = false -> has_flag (c_flags i) CALLOUT_DEFERRABLE = false).

Lemma cof_on_callout s c f x : (forall i, same_deadline i (f i)) -> same_deadline (cof s x) (cof (on_callout c f s) x).
Proof.
  intros Hf. unfold cof. simpl. destruct (decide (c = x)) as [<-|Hne].
  - rewrite !lookup_total_alt, lookup_alter_eq. destruct (cs_callouts s !! c); simpl; [apply Hf|done].
  - rewrite !lookup_total_alt, lookup_alter_ne by done. done.
Qed.

Lemma honoured_deadline s s' c : callout_deferrable_enabled s' = callout_deferrable_enabled s ->
  same_deadline (cof s c) (cof s' c) -> honoured s' c -> honoured s c.
Proof.
  unfold honoured, callout_next_honoured. intros -> [_ Hd].
  destruct (callout_deferrable_enabled s =? 0); [done|]. cbn [orb].
  rewrite !negb_true_iff. exact Hd.
Qed.

Lemma due_deadline i i' k : same_deadline i i' -> due_in i' k = due_in i k.
Proof. intros [E _]. unfold due_in. by rewrite E. Qed.

(** The CPU part: the wheel may shrink, the clock stands. *)
Definition shrinks (s : csys) (k k' : callout_cpu) : Prop :=
  cc_ticks k' = cc_ticks k /\ cc_next_none k' = cc_next_none k /\ cc_next_time k' = cc_next_time k /\
  (cc_next_gen k' = cc_next_gen k \/ cc_next_gen k' = 0) /\
  (forall c, in_wheel k' c -> in_wheel k c).

Lemma next_update s s' n f g c :
  next_inv s -> s' = on_cc n f (on_callout c g s) ->
  (forall i, same_deadline i (g i)) -> (forall k, shrinks s k (f k)) -> next_inv s'.
Proof.
  intros HI -> Hg Hf. pose proof HI as [G1 G2 G3].
  apply (next_step s); [done|done|]. intros m k' Hk'.
  set (s' := on_cc n f (on_callout c g s)).
  assert (exists k, cs_cpus s !! m = Some k /\ shrinks s k k') as (k & Hk & Hsh).
  { simpl in Hk'. destruct (decide (n = m)) as [<-|Hne].
    - rewrite lookup_alter_eq in Hk'. destruct (cs_cpus s !! n) as [k|]; [|done].
      injection Hk' as <-. eauto.
    - rewrite lookup_alter_ne in Hk' by done. exists k'. split; [done|].
      unfold shrinks. repeat split; auto. }
  destruct Hsh as (E1 & E2 & E3 & E4 & E5). specialize (G2 m k Hk). split.
  { destruct E4 as [-> | ->]; lia. }
  intros E. exists k. split; [done|]. split; [destruct E4 as [|E4]; [congruence|lia]|].
  split; [done|]. intros x Hx Hh.
  pose proof (cof_on_callout s c g x Hg) as Hd. change (cof (on_callout c g s) x) with (cof s' x) in Hd.
  split; [by apply E5|]. split; [by eapply (honoured_deadline s s')|].
  intros _ Hle. unfold lead, due_in in *. rewrite E1, E3. destruct Hd as [-> _]. done.
Qed.

Lemma shrinks_refl s k : shrinks s k k.
Proof. unfold shrinks. repeat split; auto. Qed.

Lemma same_deadline_refl i : same_deadline i i.
Proof. done. Qed.

Lemma on_callout_id s c : on_callout c id s = s.
Proof.
  destruct s as [a m d ge l]. unfold on_callout, set_cs_callouts; simpl. f_equal.
  apply map_eq. intros j. destruct (decide (c = j)) as [<-|].
  - rewrite lookup_alter_eq. by destruct (a !! c).
  - by rewrite lookup_alter_ne.
Qed.

Lemma on_cc_id s n : on_cc n id s = s.
Proof.
  destruct s as [a m d ge l]. unfold on_cc, set_cs_cpus; simpl. f_equal.
  apply map_eq. intros j. destruct (decide (n = j)) as [<-|].
  - rewrite lookup_alter_eq. by destruct (m !! n).
  - by rewrite lookup_alter_ne.
Qed.

Lemma next_on_callout s c g : next_inv s -> (forall i, same_deadline i (g i)) ->
  next_inv (on_callout c g s).
Proof.
  intros HI Hg. eapply (next_update s _ 0 id g c); [done| |done|intros; apply shrinks_refl].
  by rewrite on_cc_id.
Qed.

Lemma next_on_cc s n f : next_inv s -> (forall k, shrinks s k (f k)) -> next_inv (on_cc n f s).
Proof.
  intros HI Hf. eapply (next_update s _ n f id 0); [done| |done|done]. by rewrite on_callout_id.
Qed.

Lemma remove_shrinks s c k : shrinks s k (queue_remove c k).
Proof.
  unfold shrinks. repeat split; auto. intros x (b & q & Hb & Hx). simpl in Hb.
  apply list_lookup_fmap_Some in Hb as (q' & -> & Hq'). apply list_elem_of_filter in Hx as [_ Hx].
  by exists b, q'.
Qed.

(** The flags an operation touches, none of them [CALLOUT_DEFERRABLE]. *)
Ltac deadline := intros ?i; unfold same_deadline, fire_flags; cbn [c_flags c_time set_c_flags]; flags; done.

(** A CPU update that leaves the wheel, the clock and the cache alone. *)
Ltac shrink := intros; unfold shrinks; repeat split; auto.

Lemma next_clear_pending c s : next_inv s -> next_inv (clear_pending c s).
Proof.
  intros HI. unfold clear_pending. apply next_on_callout; [|deadline].
  destruct (has_flag _ _); [|done]. apply next_on_cc; [done|]. intros. apply remove_shrinks.
Qed.

Lemma next_hardclock self s : nowrap s -> csys_inv s -> next_inv s -> next_inv (callout_hardclock self s).2.
Proof.
  intros [_ Hw] Hs HI. pose proof HI as [G1 G2 G3]. unfold callout_hardclock. cbn [snd].
  destruct (cs_cpus s !! self) as [k|] eqn:Hk; [|by rewrite on_cc_absent].
  apply (next_step s); [done|done|]. rewrite (on_cc_cpus s self k) by done.
  intros m k' [[<- <-]|[Hne Hk']]%lookup_insert_Some.
  - pose proof (inv_cpus _ Hs _ _ Hk) as [L1 L2 L3 L4].
    pose proof (hardclock_fold k) as Hf. cbv zeta in Hf.
    destruct (fold_empty_bucket (moved (i32 (u32 (cc_ticks k + 1))))
      (set_cc_ticks (u32 (cc_ticks k + 1)) k)) as (H1 & H2 & H3 & H4).
    { cbn [cc_wheel set_cc_ticks]. rewrite L1. apply moved_lt. }
    rewrite <-Hf in *. cbn [cc_wheel cc_ticks set_cc_ticks] in *.
    assert (cc_next_gen (hardclock_cc k) = cc_next_gen k /\ cc_next_none (hardclock_cc k) = cc_next_none k /\
      cc_next_time (hardclock_cc k) = cc_next_time k) as (E1 & E2 & E3).
    { rewrite Hf. generalize (moved (i32 (u32 (cc_ticks k + 1)))). intros bs.
      set (k0 := set_cc_ticks _ k). change (cc_next_gen k) with (cc_next_gen k0).
      change (cc_next_none k) with (cc_next_none k0). change (cc_next_time k) with (cc_next_time k0).
      generalize k0. clear. induction bs as [|b bs IH]; intros k; [done|]. exact (IH (empty_bucket b k)). }
    rewrite E1. split; [by apply (G2 self)|]. intros Eg. exists k. repeat split; auto.
    + destruct H as (b & q & Hb & Hc). destruct (H4 b q Hb) as [[_ ->]|[_ Hq]]; [|by exists b, q].
      by apply elem_of_nil in Hc.
    + intros Hn Hle. destruct (Hw self k Hk Eg Hn) as [Hlow _].
      assert (in_wheel k c) as (b & q & Hb & Hc).
      { destruct H as (b & q & Hb & Hc). destruct (H4 b q Hb) as [[_ ->]|[_ Hq]]; [|by exists b, q].
        by apply elem_of_nil in Hc. }
      specialize (L4 b q c Hb Hc). pose proof (dist_pos b (cc_ticks k)).
      change (cof (on_cc self hardclock_cc s) c) with (cof s c).
      rewrite (due_in_tick _ k) by (done || lia).
      assert (lead (hardclock_cc k) = lead k - 1) as ->; [|lia].
      unfold lead in *. rewrite E3, H1, i32_sub_u32_r.
      rewrite (i32_cong _ (i32 (cc_next_time k - cc_ticks k) - 1)).
      * apply i32_id. pose proof (i32_range (cc_next_time k - cc_ticks k)). unfold in_i32 in *. lia.
      * unfold i32. zdm.
  - split; [by apply (G2 m)|]. intros _. exists k'. repeat split; auto.
Qed.

(** Comparing a deadline with the cached one, when their distance fits. *)
Lemma note_compare i k : 0 < due_in i k -> due_in i k - lead k <= INT_MAX ->
  i32 (u32 (c_time i) - u32 (cc_next_time k)) = due_in i k - lead k.
Proof.
  intros Hd Hw. rewrite i32_sub_u32.
  rewrite (i32_cong _ (due_in i k - lead k)).
  - apply i32_id. pose proof (i32_range (cc_next_time k - cc_ticks k)).
    unfold in_i32, lead, INT_MAX in *. lia.
  - unfold due_in, lead, i32. zdm.
Qed.

Lemma in_wheel_insert c b k x : in_wheel (wheel_insert c b (queue_remove c k)) x ->
  x = c \/ (x <> c /\ in_wheel k x).
Proof.
  intros (b' & q & Hb & Hx). simpl in Hb. destruct (decide (x = c)) as [->|Hne]; [by left|right].
  split; [done|]. destruct (decide (b = b')) as [<-|Hbb].
  - rewrite list_lookup_alter_eq in Hb. apply fmap_Some in Hb as (q1 & Hq1 & ->).
    apply list_lookup_fmap_Some in Hq1 as (q' & -> & Hq').
    apply elem_of_app in Hx as [[_ Hx]%list_elem_of_filter|Hx%list_elem_of_singleton]; [|done].
    by exists b, q'.
  - rewrite list_lookup_alter_ne in Hb by done.
    apply list_lookup_fmap_Some in Hb as (q' & -> & Hq').
    apply list_elem_of_filter in Hx as [_ Hx]. by exists b', q'.
Qed.

(** A callout that enters the wheel is noted. *)
Lemma note_cache s k c b :
  cache_ok s k -> 0 < due_in (cof s c) k ->
  (cc_next_gen k = callout_next_gen s -> cc_next_none k = false ->
     due_in (cof s c) k - lead k <= INT_MAX) ->
  cache_ok s (callout_next_note s (cof s c) (wheel_insert c b (queue_remove c k))).
Proof.
  intros Hok Hd Hw. unfold callout_next_note. cbn [cc_next_gen wheel_insert queue_remove set_cc_wheel set_cc_todo].
  destruct (Z.eqb_spec (cc_next_gen k) (callout_next_gen s)) as [Eg|Ng]; cbn [negb orb].
  2:{ intros E. done. }
  destruct (callout_next_honoured _ (cof s c)) eqn:Hh; cbn [negb].
  2:{ intros _ x Hx Hhx. apply in_wheel_insert in Hx as [->|[_ Hx]]; [unfold honoured in Hhx; congruence|].
      by apply (Hok Eg x). }
  cbn [cc_next_none cc_next_time set_cc_wheel set_cc_todo wheel_insert queue_remove].
  destruct (cc_next_none k) eqn:En; cbn [orb].
  - intros _ x Hx Hhx. split; [done|].
    assert (in_wheel (wheel_insert c b (queue_remove c k)) x) as [->|[_ Hx']]%in_wheel_insert by done.
    + unfold lead, due_in. simpl. done.
    + destruct (Hok Eg x Hx' Hhx). congruence.
  - specialize (Hw Eg eq_refl). rewrite (note_compare _ k) by done.
    destruct (Z.ltb_spec (due_in (cof s c) k - lead k) 0) as [Hlt|Hge].
    + intros _ x Hx Hhx. split; [done|].
      change (due_in (cof s c) k <= due_in (cof s x) k).
      assert (in_wheel (wheel_insert c b (queue_remove c k)) x) as [->|[_ Hx']]%in_wheel_insert by done.
      * lia.
      * destruct (Hok Eg x Hx' Hhx). lia.
    + intros _ x Hx Hhx. split; [done|]. change (lead k <= due_in (cof s x) k).
      apply in_wheel_insert in Hx as [->|[_ Hx']]; [lia|]. by destruct (Hok Eg x Hx' Hhx).
Qed.

Lemma note_gen s i k : cc_next_gen (callout_next_note s i k) = cc_next_gen k.
Proof. unfold callout_next_note. repeat case_match; done. Qed.

Lemma callout_next_note_ext s s' i k :
  callout_next_gen s' = callout_next_gen s ->
  callout_deferrable_enabled s' = callout_deferrable_enabled s ->
  callout_next_note s' i k = callout_next_note s i k.
Proof. unfold callout_next_note. by intros -> ->. Qed.

Lemma cache_ok_ext s s' k : cs_callouts s' = cs_callouts s ->
  callout_next_gen s' = callout_next_gen s ->
  callout_deferrable_enabled s' = callout_deferrable_enabled s -> cache_ok s k -> cache_ok s' k.
Proof.
  destruct s, s'. simpl. intros -> -> ->. done.
Qed.

Lemma next_softclock_turn self s : nowrap s -> csys_inv s -> next_inv s ->
  next_inv (softclock_turn self s).2.
Proof.
  intros [_ Hw] Hs HI. pose proof HI as [G1 G2 G3]. unfold softclock_turn.
  destruct (cc_todo (ccof s self)) as [|c todo] eqn:Et; [done|].
  assert (exists k, cs_cpus s !! self = Some k) as [k Hk].
  { destruct (cs_cpus s !! self) as [k|] eqn:E; [eauto|]. unfold ccof in Et.
    by rewrite lookup_total_alt, E in Et. }
  rewrite (ccof_lookup _ _ _ Hk) in *. change (cof (on_cc _ _ s) c) with (cof s c).
  rewrite due_in_u32. destruct (Z.ltb_spec 0 (due_in (cof s c) k)) as [Hd|Hd]; cbn [snd].
  - rewrite !on_cc_compose. change (cof (on_cc _ _ s) c) with (cof s c). split; [done| |].
    + rewrite (on_cc_cpus s self k) by done.
      intros m k' [[<- <-]|[Hne Hk']]%lookup_insert_Some; [|by apply (G2 m)].
      rewrite note_gen. exact (G2 self k Hk).
    + rewrite (on_cc_cpus s self k) by done. intros m k' Hk'.
      eapply (cache_ok_ext s); [done|done|done|].
      apply lookup_insert_Some in Hk' as [[<- <-]|[Hne Hk']]; [|by apply (G3 m)].
      rewrite (callout_next_note_ext s) by done. apply note_cache; [by apply (G3 self)|done|].
      intros Eg En. destruct (Hw self k Hk Eg En) as [_ H]. apply H. rewrite Et. by left.
  - apply next_on_cc; [|shrink]. apply next_on_callout; [|deadline].
    destruct (_ <? 0); (repeat apply next_on_cc); try done; intros;
      first [apply remove_shrinks | shrink].
Qed.

(** A callout whose time changes is off the wheels or moves later. *)
Lemma next_retime s s' c i i' :
  next_inv s -> cs_callouts s !! c = Some i ->
  cs_callouts s' = <[c := i']> (cs_callouts s) -> cs_cpus s' = cs_cpus s ->
  callout_next_gen s' = callout_next_gen s ->
  callout_deferrable_enabled s' = callout_deferrable_enabled s ->
  has_flag (c_flags i') CALLOUT_DEFERRABLE = has_flag (c_flags i) CALLOUT_DEFERRABLE ->
  (forall n k, cs_cpus s !! n = Some k -> in_wheel k c -> due_in i k <= due_in i' k) ->
  next_inv s'.
Proof.
  intros HI Hi Eco Ecp Eg Ed Ef Hdue. pose proof HI as [G1 G2 G3].
  apply (next_step s); [done|done|]. rewrite Ecp. intros n k Hk. split; [by apply (G2 n)|].
  intros _. exists k. repeat split; auto.
  - revert H0. unfold honoured, callout_next_honoured, cof. rewrite Ed, Eco.
    destruct (decide (c = c0)) as [<-|Hne].
    + by rewrite lookup_total_insert_eq, (lookup_total_correct _ _ _ Hi), Ef.
    + by rewrite lookup_total_insert_ne.
  - intros _ Hle. unfold cof in *. rewrite Eco. destruct (decide (c = c0)) as [<-|Hne].
    + rewrite lookup_total_insert_eq. rewrite (lookup_total_correct _ _ _ Hi) in Hle.
      etrans; [exact Hle|]. by eapply Hdue.
    + by rewrite lookup_total_insert_ne.
Qed.

Section schedule.
Context `{M : Machine} `{!MachineOk M}.

Lemma assign_time_policy e c to_ticks n s :
  callout_next_gen (assign_time e c to_ticks n s) = callout_next_gen s /\
  callout_deferrable_enabled (assign_time e c to_ticks n s) = callout_deferrable_enabled s.
Proof. unfold assign_time. by destruct (lpsched_coalesce _ _ _ _ _). Qed.

Lemma in_wheel_queued k c : in_wheel k c -> c ∈ queued k.
Proof. intros H. apply elem_of_queued. by right. Qed.

(** The new deadline of a pending callout that is not moved is later. *)
Lemma later_due t i k : 0 <= due_in (set_c_time t i) k <= INT_MAX -> 0 <= due_in i k ->
  0 <= i32 (t - c_time i) -> due_in i k <= due_in (set_c_time t i) k.
Proof.
  intros H1 H2 H3. rewrite (i32_cong _ (due_in (set_c_time t i) k - due_in i k)) in H3.
  - rewrite i32_id in H3; [lia|]. pose proof (i32_range (c_time i - cc_ticks k)).
    unfold in_i32, INT_MAX, due_in in *. lia.
  - unfold due_in, i32. simpl. zdm.
Qed.

Lemma next_assign_pending e c to_ticks s i k : csys_inv s -> next_inv s ->
  cs_callouts s !! c = Some i -> cs_cpus s !! c_cpu i = Some k -> pending i -> ~ fired i ->
  ticks_ok to_ticks (cs_lp s) ->
  let s' := assign_time e c to_ticks (c_cpu i) s in
  next_inv (if i32 (c_time (cof s' c) - c_time i) <? 0
            then on_cc (c_cpu i) (fun k => todo_insert c (queue_remove c k)) s' else s').
Proof.
  intros Hs HI Hi Hk Hp Hf Hok s'.
  destruct (assign_time_spec e c to_ticks (c_cpu i) k s i Hi Hk Hok) as (t & Ec & Ecp & Hdue).
  destruct (assign_time_policy e c to_ticks (c_cpu i) s) as [Eg Ed]. fold s' in Ec, Ecp, Eg, Ed.
  assert (cof s' c = set_c_time t i) as -> by (apply cof_lookup; by rewrite Ec, lookup_insert_eq).
  assert (forall n k2, cs_cpus s !! n = Some k2 -> in_wheel k2 c -> n = c_cpu i /\ k2 = k) as Hon.
  { intros n k2 Hk2 Hc%in_wheel_queued. destruct (queued_cpu _ _ _ _ _ Hs Hk2 Hc Hi) as (<- & _).
    rewrite Hk in Hk2. by injection Hk2 as <-. }
  destruct (Z.ltb_spec (i32 (c_time (set_c_time t i) - c_time i)) 0) as [Hlt|Hge].
  - set (g := fun k : callout_cpu => todo_insert c (queue_remove c k)).
    assert (next_inv (on_cc (c_cpu i) g s)) as HI2.
    { apply next_on_cc; [done|]. intros k2. exact (remove_shrinks s c k2). }
    eapply (next_retime (on_cc (c_cpu i) g s) _ c i (set_c_time t i)); eauto.
    + unfold on_cc. simpl. by rewrite Ecp.
    + rewrite (on_cc_cpus s _ k) by done.
      intros n k2 [[<- <-]|[Hne Hk2]]%lookup_insert_Some Hc.
      * exfalso. destruct Hc as (b & q & Hb & Hc). simpl in Hb.
        apply list_lookup_fmap_Some in Hb as (q' & -> & _).
        apply list_elem_of_filter in Hc as [? _]. done.
      * destruct (Hon n k2 Hk2 Hc). congruence.
  - eapply (next_retime s _ c i (set_c_time t i)); eauto.
    intros n k2 Hk2 Hc. destruct (Hon n k2 Hk2 Hc) as [-> ->]. apply later_due; [destruct Hok; lia| |done].
    destruct Hc as (b & q & Hb & Hc). pose proof (ci_wheel _ _ _ (inv_cpus _ Hs _ _ Hk) b q c Hb Hc) as L.
    rewrite (cof_lookup _ _ _ Hi) in L. pose proof (dist_pos b (cc_ticks k)). lia.
Qed.

Lemma next_schedule e c to_ticks s : may_schedule ticks_ok e c to_ticks s -> csys_inv s -> next_inv s ->
  next_inv (callout_schedule_locked e c to_ticks s).
Proof.
  intros ([i Hi] & [ko Hko] & [kc Hkc] & _ & Hok) Hs HI. unfold callout_schedule_locked.
  rewrite (cof_lookup _ _ _ Hi) in *. set (f := fun i : callout_impl => set_c_flags _ i).
  assert (forall i, has_flag (c_flags (f i)) CALLOUT_PENDING = has_flag (c_flags i) CALLOUT_PENDING) as Ep
    by (intros; unfold f; cbn [c_flags set_c_flags]; flags; done).
  assert (~ fired (f i)) as Hnf by (unfold fired, f; cbn [c_flags set_c_flags]; flags; done).
  set (s1 := on_callout c f s).
  assert (csys_inv s1) as Hs1.
  { apply on_callout_inv; [|done]. intros j. unfold pending, fired. rewrite Ep.
    unfold f. cbn [c_flags c_cpu c_time set_c_flags]. flags. done. }
  assert (next_inv s1) as HI1 by (apply next_on_callout; [done|unfold f; deadline]).
  assert (cs_callouts s1 !! c = Some (f i)) as Hi1
    by (unfold s1; by rewrite (on_callout_callouts s c i f Hi), lookup_insert_eq).
  rewrite (cof_lookup _ _ _ Hi1), Ep. destruct (has_flag (c_flags i) CALLOUT_PENDING) eqn:Hp.
  - eapply (next_assign_pending e c to_ticks s1 (f i)); eauto. unfold pending. by rewrite Ep.
  - assert (forall n k, cs_cpus s1 !! n = Some k -> ~ in_wheel k c) as Hoff.
    { intros n k Hk Hc%in_wheel_queued. destruct (queued_cpu _ _ _ _ _ Hs1 Hk Hc Hi1) as (_ & Hp1 & _).
      unfold pending in Hp1. rewrite Ep in Hp1. congruence. }
    destruct (_ || _ || _).
    + apply next_on_cc; [|shrink]. apply next_on_callout; [|deadline].
      destruct (assign_time_spec e c to_ticks (c_cpu i) ko s1 (f i) Hi1 Hko Hok) as (t & Ec & Ecp & _).
      destruct (assign_time_policy e c to_ticks (c_cpu i) s1) as [Eg Ed].
      eapply (next_retime s1 _ c (f i) (set_c_time t (f i))); eauto.
      intros n k Hk Hc. by destruct (Hoff n k Hk).
    + apply next_on_cc; [|shrink]. apply next_on_callout; [|deadline].
      set (s1' := on_callout c (set_c_cpu (e_cpu e)) s1).
      assert (cs_callouts s1' !! c = Some (set_c_cpu (e_cpu e) (f i))) as Hi2
        by (unfold s1'; by rewrite (on_callout_callouts s1 c (f i)), lookup_insert_eq).
      destruct (assign_time_spec e c to_ticks (e_cpu e) kc s1' _ Hi2 Hkc Hok) as (t & Ec & Ecp & _).
      destruct (assign_time_policy e c to_ticks (e_cpu e) s1') as [Eg Ed].
      eapply (next_retime s1' _ c _ (set_c_time t (set_c_cpu (e_cpu e) (f i)))); eauto.
      * apply next_on_callout; [done|]. done.
      * intros n k Hk Hc. by destruct (Hoff n k Hk).
Qed.

End schedule.
