(* ===== verification/CalloutThms.v ===== *)
(** * What the callout subsystem guarantees *)

From stdpp Require Import base numbers list gmap strings relations.
From S2P Require Import Prelude Text Sysctl Lwp Lpsched Callout CalloutWheel CalloutInv CalloutNext.

(** The state before [callout_startup]. *)
Definition callout_boot (lp : lpsched) : csys := mk_csys ∅ ∅ 1 1 lp.

Section thms.
Context `{M : Machine} `{!MachineOk M} `{SC : Sysctl}.

Lemma boot_inv lp : csys_inv (callout_boot lp).
Proof. split; intros *; simpl; rewrite lookup_empty; done. Qed.

Lemma reachable_inv lp s : rtc cstep_fits (callout_boot lp) s -> csys_inv s.
Proof.
  intros H. cut (forall s0, rtc cstep_fits s0 s -> csys_inv s0 -> csys_inv s).
  { intros G. by apply (G _ H), boot_inv. }
  clear H. induction 1 as [|a b d Hab _ IH]; [done|]. intros Hs. apply IH. by eapply cstep_inv.
Qed.

(** C1. In every state the callout code can reach from boot with timeouts that, a step
    of the coalescing grid added, still fit an int, a queued callout is on the queues of
    its own CPU only, once, marked pending and not fired; and a pending callout is on
    the worklist or in a wheel bucket whose next turn is at least one tick away and not
    after the callout is due. (Without the condition on timeouts it fails:
    CalloutEx.callout_overflow_overdue.) *)
Theorem callout_never_overdue_in_wheel lp s :
  rtc cstep_fits (callout_boot lp) s ->
  forall c i, cs_callouts s !! c = Some i ->
  (forall n k, cs_cpus s !! n = Some k -> c ∈ queued k ->
     n = c_cpu i /\ pending i /\ ~ fired i /\ NoDup (queued k)) /\
  (pending i -> exists k, cs_cpus s !! c_cpu i = Some k /\
     (c ∈ cc_todo k \/
      exists b q, cc_wheel k !! b = Some q /\ c ∈ q /\
        1 <= dist b (cc_ticks k) <= due_in i k)).
Proof.
  intros Hr%reachable_inv c i Hi. split.
  - intros n k Hk Hc. destruct (queued_cpu _ _ _ _ _ Hr Hk Hc Hi) as (? & ? & ?).
    repeat split; auto. apply (ci_nodup _ _ _ (inv_cpus _ Hr _ _ Hk)).
  - intros Hp. destruct (inv_pending _ Hr _ _ Hi Hp) as (k & Hk & Hc). exists k. split; [done|].
    apply elem_of_queued in Hc as [?|(b & q & Hb & Hq)]; [by left|right]. exists b, q.
    pose proof (ci_wheel _ _ _ (inv_cpus _ Hr _ _ Hk) b q c Hb Hq) as L.
    rewrite (cof_lookup _ _ _ Hi) in L. pose proof (dist_pos b (cc_ticks k)). auto.
Qed.

(** *** The clock alone brings a callout to the worklist on time *)

Fixpoint hardclocks (n : nat) (self : nat) (s : csys) : csys :=
  match n with
  | O => s
  | S n => hardclocks n self (callout_hardclock self s).2
  end.

Lemma hardclock_keeps self s k : csys_inv s -> cs_cpus s !! self = Some k ->
  exists k', cs_cpus (callout_hardclock self s).2 !! self = Some k' /\
    cs_callouts (callout_hardclock self s).2 = cs_callouts s /\
    queued k' ≡ₚ queued k /\ cc_ticks k' = u32 (cc_ticks k + 1) /\
    (forall c, c ∈ cc_todo k -> c ∈ cc_todo k').
Proof.
  intros Hs Hk. exists (hardclock_cc k). unfold callout_hardclock. cbn [snd].
  rewrite (on_cc_cpus s self k) by done. rewrite lookup_insert_eq.
  pose proof (hardclock_fold k) as Hf. cbv zeta in Hf.
  destruct (fold_empty_bucket (moved (i32 (u32 (cc_ticks k + 1))))
    (set_cc_ticks (u32 (cc_ticks k + 1)) k)) as (H1 & _ & H3 & _).
  { cbn [cc_wheel set_cc_ticks]. rewrite (ci_buckets _ _ _ (inv_cpus _ Hs _ _ Hk)). apply moved_lt. }
  rewrite <-Hf in *. repeat split; auto. rewrite Hf.
  generalize (moved (i32 (u32 (cc_ticks k + 1)))). intros bs c Hc.
  assert (c ∈ cc_todo (set_cc_ticks (u32 (cc_ticks k + 1)) k)) as Hc' by done. revert Hc'.
  generalize (set_cc_ticks (u32 (cc_ticks k + 1)) k). clear.
  induction bs as [|b bs IH]; intros k Hc; [done|]. apply IH. simpl. apply elem_of_app. by left.
Qed.


(** *** The next deadline *)

Lemma next_unset_deferrable c s : csys_inv s -> next_inv s ->
  next_inv (callout_setdeferrable c false s).
Proof.
  intros Hs HI. pose proof HI as [G1 G2 G3]. unfold callout_setdeferrable.
  apply (next_step s); [done|done|]. intros n k' Hk'. set (n0 := c_cpu (cof s c)) in *.
  simpl in Hk'. destruct (decide (n0 = n)) as [<-|Hne].
  { rewrite lookup_alter_eq in Hk'. destruct (cs_cpus s !! n0); [|done]. injection Hk' as <-.
    simpl. lia. }
  rewrite lookup_alter_ne in Hk' by done. split; [by apply (G2 n)|]. intros _. exists k'.
  repeat split; auto.
  all: assert (c <> c0) as Hcc by (intros <-;
    destruct (ci_member _ _ _ (inv_cpus _ Hs _ _ Hk') c (in_wheel_queued _ _ H)) as (j & Hj & Hn & _);
    apply Hne; unfold n0; by rewrite (cof_lookup _ _ _ Hj)).
  - revert H0. unfold honoured, cof. simpl. by rewrite !lookup_total_alt, lookup_alter_ne.
  - intros _. unfold cof. simpl. by rewrite !lookup_total_alt, lookup_alter_ne.
Qed.

Lemma next_next_ticks self s : next_inv s -> next_inv (callout_next_ticks self s).2.
Proof.
  intros HI. pose proof HI as [G1 G2 G3]. unfold callout_next_ticks.
  destruct (cs_cpus s !! self) as [k|] eqn:Hk.
  2:{ destruct (next_cc _ _). cbn [snd]. by rewrite on_cc_absent. }
  rewrite (ccof_lookup _ _ _ Hk). pose proof (next_cc_spec s k (G3 _ _ Hk)) as Hn.
  assert (0 <= cc_next_gen (next_cc s k).2 <= callout_next_gen s) as Hg.
  { pose proof (G2 _ _ Hk). unfold next_cc, next_rescan, bump_hits. repeat case_match; simpl; lia. }
  destruct (next_cc s k) as [r k']. cbn [snd] in *. destruct Hn as (_ & _ & Hc). split; [done| |].
  - rewrite (on_cc_cpus s self k) by done.
    intros m k2 [[<- <-]|[_ Hk2]]%lookup_insert_Some; [done|by apply (G2 m)].
  - rewrite (on_cc_cpus s self k) by done. intros m k2 Hk2. eapply (cache_ok_ext s); [done..|].
    apply lookup_insert_Some in Hk2 as [[<- <-]|[_ Hk2]]; [done|by apply (G3 m)].
Qed.

Lemma next_sysctl rq s : nowrap s -> next_inv s ->
  next_inv (res_post (sysctl_kern_callout_deferrable rq s)).
Proof.
  intros [Hw _] HI. pose proof HI as [G1 G2 G3]. unfold sysctl_kern_callout_deferrable.
  destruct (sysctl_lookup _ _) as [error t]. destruct (rq_newp rq); [|done].
  destruct (nz error); [done|]. cbn [res_post callout_next_gen set_callout_deferrable_enabled].
  assert (u32 (callout_next_gen s + 1) = callout_next_gen s + 1) as ->
    by (apply u32_id; unfold in_u32, UINT32_MAX in *; lia).
  destruct (Z.eqb_spec (callout_next_gen s + 1) 0); [lia|]. split; simpl; [lia| |].
  - intros m k Hk. specialize (G2 m k Hk). lia.
  - intros m k Hk E. specialize (G2 m k Hk). simpl in E. lia.
Qed.

Lemma cstep_next s s' : nowrap s -> csys_inv s -> cstep_fits s s' -> next_inv s -> next_inv s'.
Proof.
  intros Hw Hs Hst HI. pose proof HI as [G1 G2 G3].
  assert (forall n, cs_cpus s !! n = None -> next_inv (set_cs_cpus (<[n := zero_cc]> (cs_cpus s)) s)) as Hnew.
  { intros n Hn. split; [done| |].
    - intros m k'. simpl. intros [[<- <-]|[_ Hk']]%lookup_insert_Some; [simpl; lia|by apply (G2 m)].
    - intros m k'. cbn [cs_cpus set_cs_cpus]. intros [[<- <-]|[_ Hk']]%lookup_insert_Some.
      + intros E. simpl in E. lia.
      + by apply (G3 m k'). }
  destruct Hst.
  - by apply Hnew.
  - unfold callout_init_cpu. destruct (cs_cpus s !! ci) as [k|] eqn:Hk; [|by apply Hnew].
    rewrite <-(on_cc_cpus s ci k (set_cc_sleepq [])) by done.
    assert (next_inv (on_cc ci (set_cc_sleepq []) s)) by (apply next_on_cc; [done|shrink]). done.
  - unfold callout_init. destruct (match cs_cpus s !! e_cpu e with Some _ => _ | None => _ end) as [fl cpu].
    apply (next_step s); [done|done|]. intros n k Hk. simpl in Hk. split; [by apply (G2 n)|].
    intros _. exists k. repeat split; auto.
    all: assert (c <> c0) as Hne by (intros <-;
      destruct (ci_member _ _ _ (inv_cpus _ Hs _ _ Hk) c (in_wheel_queued _ _ H1)) as (j & Hj & _ & Hp & _);
      by apply (H j)).
    + revert H2. unfold honoured, cof. simpl. by rewrite lookup_total_insert_ne.
    + intros _. unfold cof. simpl. by rewrite lookup_total_insert_ne.
  - by apply next_on_callout.
  - unfold callout_reset. apply next_schedule; [| |by apply next_on_callout]; [|by apply on_callout_inv].
    destruct H as ([i Hi] & Hc & He & Hto & Hok). unfold may_schedule, cof in *.
    rewrite (on_callout_callouts s c i) by done. rewrite lookup_insert_eq, lookup_total_insert_eq.
    rewrite (lookup_total_correct _ _ _ Hi) in Hc. eauto.
  - by apply next_schedule.
  - by apply next_on_callout.
  - by apply next_clear_pending.
  - unfold callout_wait_turn. repeat case_match; try done. apply next_on_cc; [done|shrink].
  - apply next_on_callout; [done|deadline].
  - unfold callout_setdeferrable. destruct d.
    + apply next_on_callout; [done|]. intros i. unfold same_deadline. cbn [c_flags c_time set_c_flags].
      flags. done.
    + by apply next_unset_deferrable.
  - by apply next_hardclock.
  - by apply next_next_ticks.
  - apply next_on_cc; [done|shrink].
  - by apply next_softclock_turn.
  - apply next_on_cc; [done|]. intros k. cbv zeta. destruct (nz _); shrink.
  - apply next_on_cc; [done|shrink].
  - by apply next_sysctl.
  - apply (next_step s); [done|done|]. intros n k Hk. split; [by apply (G2 n)|]. intros _. by exists k.
Qed.

Lemma next_cc_pos s n k : csys_inv s -> cs_cpus s !! n = Some k -> cc_todo k = [] ->
  0 < (next_cc s k).1.
Proof.
  intros Hs Hk Et. unfold next_cc. rewrite bool_decide_true by done. cbn [negb].
  assert (0 < (next_rescan s k).1) as Hre.
  { unfold next_rescan. cbn [fst]. destruct (scan_wheel_spec s k) as [H1 H2].
    destruct (sc_none (scan_wheel s k)).
    - destruct (H1 eq_refl) as [-> _]. done.
    - destruct (H2 eq_refl) as [_ (c & (b & q & Hb & Hc) & _ & -> & _)].
      pose proof (ci_wheel _ _ _ (inv_cpus _ Hs _ _ Hk) b q c Hb Hc).
      pose proof (dist_pos b (cc_ticks k)). lia. }
  destruct (_ =? _); [|done]. destruct (cc_next_none k); [done|].
  destruct (Z.ltb_spec 0 (i32 (u32 (cc_next_time k) - u32 (cc_ticks k)))); done.
Qed.

(** The tickless idle is proved against this statement. *)
Lemma next_ticks_bound lp s n k :
  rtc (fun a b => nowrap a /\ cstep_fits a b) (callout_boot lp) s ->
  cs_cpus s !! n = Some k ->
  let r := (callout_next_ticks n s).1 in
  (cc_todo k <> [] -> r = 0) /\
  (cc_todo k = [] -> 0 < r /\
     forall c, c ∈ queued k -> honoured s c -> r <= due_in (cof s c) k).
Proof.
  intros Hr Hk.
  assert (csys_inv s /\ next_inv s) as [Hs HI].
  { cut (forall s0, rtc (fun a b => nowrap a /\ cstep_fits a b) s0 s -> csys_inv s0 /\ next_inv s0 ->
      csys_inv s /\ next_inv s).
    { intros G. apply (G _ Hr). split; [apply boot_inv|]. split; simpl; [lia|..];
        intros m k'; rewrite lookup_empty; done. }
    clear Hr Hk. induction 1 as [|a b d [Hw Hab] _ IH]; [done|]. intros [Ha Ha']. apply IH.
    split; [by eapply cstep_inv|by eapply cstep_next]. }
  unfold callout_next_ticks. rewrite (ccof_lookup _ _ _ Hk).
  pose proof (next_cc_pos s n k Hs Hk) as Hpos.
  pose proof (next_cc_spec s k (ni_cache _ HI _ _ Hk)) as Hn.
  destruct (next_cc s k) as [r k']. cbn [fst] in *. destruct Hn as (H1 & H2 & _). split.
  - intros Et. by rewrite (H1 Et).
  - intros Et. specialize (Hpos Et). destruct (Z.ltb_spec r 0); [lia|]. split; [done|].
    intros c Hc Hh. assert (in_wheel k c) as Hw.
    { apply elem_of_queued in Hc as [Hc|Hc]; [|done]. rewrite Et in Hc. by apply elem_of_nil in Hc. }
    destruct (H2 Et) as [H3|[_ H3]]; [by apply H3|]. by destruct (H3 c Hw).
Qed.

(** C14. The distance callout_next_ticks gives the tickless idle is 0 while the worklist
    is not empty; otherwise it is positive and never beyond the deadline of any queued
    callout that the deferrable policy honours. This holds in every state reached from
    boot with timeouts that, a step of the coalescing grid added, fit an int, as long as
    the policy was not changed 2^32 times and no current cached deadline was 2^31 ticks
    in the past or that far before a callout on the worklist. *)
Theorem callout_next_exact_or_early lp s n k :
  rtc (fun a b => nowrap a /\ cstep_fits a b) (callout_boot lp) s ->
  cs_cpus s !! n = Some k ->
  let r := (callout_next_ticks n s).1 in
  (cc_todo k <> [] -> r = 0) /\
  (cc_todo k = [] -> 0 < r /\
     forall c, c ∈ queued k -> honoured s c -> r <= due_in (cof s c) k).
Proof. apply next_ticks_bound. Qed.

(** *** Coalescing *)

(** Within the range of an int, coalescing never fires a callout early; it delays only a
    callout that opted in, by less than half its timeout, onto the grid. *)
Theorem lpsched_coalesce_only_delays e c to_ticks now lp :
  ticks_ok to_ticks lp ->
  let t := (lpsched_coalesce e c to_ticks now lp).1 in
  let d := i32 (t - now) - to_ticks in
  0 <= d /\
  (0 < d ->
     2 * d < to_ticks /\ lpsched_enabled lp <> 0 /\
     has_flag (c_flags c) CALLOUT_SLACK = true /\
     has_flag (c_flags c) CALLOUT_PRECISE = false /\
     (u32 (e_ticks e + to_ticks) + d) mod mstohz (lpsched_coalesce_ms lp) = 0).
Proof.
  intros Hok t d. destruct (coalesce_delay e c to_ticks now lp Hok) as (d' & Hd & Et & H).
  assert (d = d') as ->.
  { subst d t. rewrite Et, i32_sub_i32_l. destruct Hok as (H1 & H2 & H3).
    pose proof (mstohz_nonneg _ H2). unfold INT_MAX in *.
    rewrite i32_id; [lia|]. unfold in_i32. lia. }
  split; [lia|]. intros Hd0. destruct (H Hd0) as (? & ? & ? & ? & ?). repeat split; auto. lia.
Qed.

(** *** The soft interrupt drains the worklist *)

Lemma filter_ne_head (c : nat) rest : c ∉ rest -> filter (fun x => x <> c) (c :: rest) = rest.
Proof.
  intros Hc. rewrite filter_cons, decide_False by tauto.
  induction rest as [|x rest IH]; [done|]. apply not_elem_of_cons in Hc as [Hx Hr].
  rewrite filter_cons, decide_True by congruence. by rewrite IH.
Qed.

Lemma in_wheel_remove k c x : x <> c -> in_wheel k x -> in_wheel (queue_remove c k) x.
Proof.
  intros Hne (b & q & Hb & Hx). exists b, (filter (fun x => x <> c) q). simpl.
  rewrite list_lookup_fmap, Hb. split; [done|]. by apply list_elem_of_filter.
Qed.

(** One turn, by whether the first callout of the worklist is due. *)
Lemma softclock_turn_spec s self k c rest i :
  csys_inv s -> cs_cpus s !! self = Some k -> cc_todo k = c :: rest ->
  cs_callouts s !! c = Some i ->
  exists s' k', cs_cpus s' !! self = Some k' /\ csys_inv s' /\ cc_todo k' = rest /\
    cc_ticks k' = cc_ticks k /\ (forall x, in_wheel k x -> in_wheel k' x) /\
    ((0 < due_in i k /\ softclock_turn self s = (SoftRequeued, s') /\
        cs_callouts s' = cs_callouts s /\ in_wheel k' c) \/
     (due_in i k <= 0 /\
        softclock_turn self s = (SoftInvoke c (c_func i) (c_arg i) (has_flag (c_flags i) CALLOUT_MPSAFE), s') /\
        cs_callouts s' = <[c := set_c_flags (fire_flags (c_flags i)) i]> (cs_callouts s))).
Proof.
  intros Hs Hk Et Hi. pose proof (softclock_turn_inv self s Hs) as Hs'.
  pose proof (inv_cpus _ Hs _ _ Hk) as [L1 L2 _ _].
  unfold queued in L2. rewrite Et in L2. simpl in L2. apply NoDup_cons in L2 as [Hcn _].
  assert (c ∉ rest) as Hcr by (intros H; apply Hcn, elem_of_app; by left).
  assert (forall x, in_wheel k x -> x <> c) as Hwc.
  { intros x Hx ->. apply Hcn, elem_of_app. right. by apply in_wheel_concat. }
  revert Hs'. unfold softclock_turn. rewrite (ccof_lookup _ _ _ Hk), Et.
  change (cof (on_cc _ _ s) c) with (cof s c). rewrite (cof_lookup _ _ _ Hi), due_in_u32.
  destruct (Z.ltb_spec 0 (due_in i k)) as [Hd|Hd]; cbn [snd]; intros Hs'.
  - match type of Hs' with csys_inv ?x => exists x end. eexists. split; [rewrite !on_cc_compose, (on_cc_cpus s self k) by done; apply lookup_insert_eq|].
    split; [exact Hs'|].
    match goal with |- cc_todo (callout_next_note ?x ?y ?z) = _ /\ _ =>
      destruct (note_same x y z) as (E1 & E2 & E3) end.
    destruct (BUCKET_dist (c_time i) (cc_ticks k) Hd) as [Hb _].
    assert (forall x, in_wheel k x \/ x = c -> in_wheel (wheel_insert c (BUCKET (due_in i k) (c_time i)) (queue_remove c k)) x) as Hin.
    { intros x Hx. apply in_wheel_concat. unfold wheel_insert. cbn [cc_wheel set_cc_wheel].
      rewrite concat_alter_snoc by (simpl; rewrite length_map, L1; done).
      destruct Hx as [Hx| ->]; [right|by left]. apply (in_wheel_concat (queue_remove c k)).
      apply in_wheel_remove; auto. }
    repeat split.
    + rewrite E1. simpl. rewrite Et. by apply filter_ne_head.
    + by rewrite E3.
    + intros x Hx. unfold in_wheel. rewrite E2. apply Hin. by left.
    + left. repeat split; auto. unfold in_wheel. rewrite E2. apply Hin. by right.
  - set (s0 := if due_in i k <? 0 then _ else _) in *.
    assert (exists k0, cs_cpus s0 !! self = Some k0 /\ same_queues (queue_remove c k) k0 /\
      cs_callouts s0 = cs_callouts s) as (k0 & Hk0 & (E1 & E2 & E3) & Ec).
    { subst s0. destruct (due_in i k <? 0); eexists;
        (split; [rewrite ?on_cc_compose, (on_cc_cpus s self k) by done; apply lookup_insert_eq|done]). }
    assert (cs_callouts s0 !! c = Some i) as Hi0 by (by rewrite Ec).
    pose proof (on_callout_callouts s0 c i (fun i => set_c_flags (fire_flags (c_flags i)) i) Hi0) as Ec0.
    assert (cof (on_callout c (fun i => set_c_flags (fire_flags (c_flags i)) i) s0) c =
      set_c_flags (fire_flags (c_flags i)) i) as Ef by (apply cof_lookup; by rewrite Ec0, lookup_insert_eq).
    rewrite Ef in *. exists (on_cc self (set_cc_active (Some c))
      (on_callout c (fun i => set_c_flags (fire_flags (c_flags i)) i) s0)), (set_cc_active (Some c) k0).
    split; [rewrite (on_cc_cpus _ self k0) by done; apply lookup_insert_eq|].
    split; [exact Hs'|]. cbn [cc_todo cc_ticks set_cc_active]. repeat split.
    + rewrite E1. simpl. rewrite Et. by apply filter_ne_head.
    + by rewrite E3.
    + intros x Hx. unfold in_wheel. cbn [cc_wheel set_cc_active]. rewrite E2.
      apply (in_wheel_remove k); auto.
    + right. split; [done|]. split.
      * cbn [c_func c_arg c_flags set_c_flags]. unfold fire_flags at 1. flags. done.
      * rewrite on_cc_callouts, Ec0, Ec. done.
Qed.

Lemma filter_ext_in (P Q : nat -> Prop) `{!forall x, Decision (P x)} `{!forall x, Decision (Q x)} (l : list nat) :
  (forall x, x ∈ l -> P x <-> Q x) -> filter P l = filter Q l.
Proof.
  induction l as [|x l IH]; intros Hpq; [done|]. rewrite !filter_cons, IH by (intros; apply Hpq; by right).
  specialize (Hpq x ltac:(by left)). repeat case_decide; tauto.
Qed.

(** A callback that leaves the callouts alone. *)
Definition quiet (run : nat -> option nat -> Z -> csys -> csys) : Prop :=
  forall c f a s, cs_callouts (run c f a s) = cs_callouts s /\ cs_cpus (run c f a s) = cs_cpus s.

Lemma return_after run c f a s self k : quiet run -> csys_inv s -> cs_cpus s !! self = Some k ->
  exists k', cs_cpus (softclock_return self (run c f a s)) !! self = Some k' /\ same_queues k k' /\
    csys_inv (softclock_return self (run c f a s)) /\
    cs_callouts (softclock_return self (run c f a s)) = cs_callouts s.
Proof.
  intros Hq Hs Hk. destruct (Hq c f a s) as [E1 E2].
  assert (csys_inv (run c f a s)) as Hr by (by eapply inv_ext).
  assert (cs_cpus (run c f a s) !! self = Some k) as Hk' by (by rewrite E2).
  unfold softclock_return. eexists. rewrite (on_cc_cpus _ self k) by done.
  split; [apply lookup_insert_eq|]. cbv zeta. split; [by destruct (nz _)|]. split; [|done].
  apply inv_on_cc_same; [|done]. intros k2 _. by destruct (nz _).
Qed.

(** The soft interrupt loop ends within as many turns as the worklist is long: it runs
    exactly the callouts that are due, in order, marks them fired, and puts the others
    into the wheel. *)
Theorem softclock_drains run self todo s k fuel :
  quiet run -> csys_inv s -> cs_cpus s !! self = Some k -> cc_todo k = todo ->
  (length todo <= fuel)%nat ->
  exists s' k', softclock_loop run fuel self s =
      Some (filter (fun c => due_in (cof s c) k <= 0) todo, s') /\
    cs_cpus s' !! self = Some k' /\ csys_inv s' /\ cc_todo k' = [] /\
    (forall x, in_wheel k x -> in_wheel k' x) /\
    (forall x, x ∉ todo -> cof s' x = cof s x) /\
    (forall c, c ∈ todo -> 0 < due_in (cof s c) k -> in_wheel k' c) /\
    (forall c, c ∈ todo -> due_in (cof s c) k <= 0 -> fired (cof s' c) /\ ~ pending (cof s' c)).
Proof.
  intros Hq. revert s k fuel. induction todo as [|c rest IH]; intros s k fuel Hs Hk Et Hf.
  { exists s, k. split; [|do 5 (split; [auto|]); split; by intros c ?%elem_of_nil].
    destruct fuel; simpl; unfold softclock_turn; by rewrite (ccof_lookup _ _ _ Hk), Et. }
  assert (c ∈ queued k) as Hc by (apply elem_of_queued; left; rewrite Et; by left).
  pose proof (inv_cpus _ Hs _ _ Hk) as [_ Hnd L3 _]. destruct (L3 c Hc) as (i & Hi & _).
  unfold queued in Hnd. rewrite Et in Hnd. simpl in Hnd. apply NoDup_cons in Hnd as [Hcn _].
  assert (c ∉ rest) as Hcr by (intros ?; apply Hcn, elem_of_app; by left).
  pose proof (cof_lookup _ _ _ Hi) as Ei.
  destruct (softclock_turn_spec s self k c rest i Hs Hk Et Hi)
    as (s1 & k1 & Hk1 & Hs1 & Et1 & Ett & Hw1 & Hcase).
  destruct fuel as [|fuel]; [simpl in Hf; lia|]. cbn [length] in Hf. cbn [softclock_loop].
  destruct Hcase as [(Hd & -> & Ec & Hin)|(Hd & -> & Ec)].
  - destruct (IH s1 k1 fuel Hs1 Hk1 Et1 ltac:(lia)) as (s' & k' & -> & H1 & H2 & H3 & H4 & H5 & H6 & H7).
    assert (forall x, cof s1 x = cof s x) as Ex by (intros; unfold cof; by rewrite Ec).
    assert (forall j, due_in j k1 = due_in j k) as Ej by (intros; unfold due_in; by rewrite Ett).
    setoid_rewrite Ex in H6. setoid_rewrite Ex in H7. setoid_rewrite Ej in H6. setoid_rewrite Ej in H7.
    exists s', k'. refine (conj _ (conj H1 (conj H2 (conj H3 (conj _ (conj _ (conj _ _))))))).
    + f_equal. f_equal. rewrite filter_cons, Ei, decide_False by lia.
      apply list_filter_iff. intros x. by rewrite Ex, Ej.
    + auto.
    + intros x Hx. apply not_elem_of_cons in Hx as [_ Hx]. rewrite H5 by done. apply Ex.
    + intros x [->|Hx]%elem_of_cons Hdx; auto.
    + intros x [->|Hx]%elem_of_cons Hdx; [rewrite Ei in *; lia|by apply H7].
  - destruct (return_after run c (c_func i) (c_arg i) s1 self k1 Hq Hs1 Hk1)
      as (k2 & Hk2 & (E1 & E2 & E3) & Hs2 & Ec2).
    set (s2 := softclock_return self _) in *.
    destruct (IH s2 k2 fuel Hs2 Hk2 ltac:(congruence) ltac:(lia))
      as (s' & k' & -> & H1 & H2 & H3 & H4 & H5 & H6 & H7).
    assert (forall x, x <> c -> cof s2 x = cof s x) as Ex.
    { intros x Hx. unfold cof. by rewrite Ec2, Ec, lookup_total_insert_ne. }
    assert (forall j, due_in j k2 = due_in j k) as Ej by (intros; unfold due_in; by rewrite E3, Ett).
    assert (forall x, x ∈ rest -> x <> c) as Hrc by (intros x Hx ->; done).
    assert (cof s' c = set_c_flags (fire_flags (c_flags i)) i) as Efc.
    { rewrite H5 by done. unfold cof. by rewrite Ec2, Ec, lookup_total_insert_eq. }
    exists s', k'. refine (conj _ (conj H1 (conj H2 (conj H3 (conj _ (conj _ (conj _ _))))))).
    + simpl. f_equal. f_equal. rewrite filter_cons, Ei, decide_True by lia. f_equal.
      apply filter_ext_in. intros x Hx. by rewrite Ex, Ej by auto.
    + intros x Hx. apply H4. unfold in_wheel. rewrite E2. by apply Hw1.
    + intros x Hx. apply not_elem_of_cons in Hx as [Hxc Hx]. rewrite H5 by done. by apply Ex.
    + intros x [->|Hx]%elem_of_cons Hdx; [rewrite Ei in *; lia|]. apply H6; [done|].
      rewrite Ex, Ej by auto. done.
    + intros x [->|Hx]%elem_of_cons Hdx.
      * rewrite Efc. unfold fired, pending, fire_flags. cbn [c_flags set_c_flags]. flags. done.
      * apply H7; [done|]. rewrite Ex, Ej by auto. done.
Qed.

(** *** callout_halt *)

Lemma clear_pending_flags c s : ~ pending (cof (clear_pending c s) c) /\ ~ fired (cof (clear_pending c s) c).
Proof.
  unfold clear_pending. set (s1 := if has_flag _ _ then _ else _).
  unfold pending, fired, cof. simpl. rewrite lookup_total_alt, lookup_alter_eq.
  destruct (cs_callouts s1 !! c) as [i|]; simpl; [|done]. flags. done.
Qed.

Lemma wait_stopped world fuel e c interlock s s' :
  callout_wait world fuel e c interlock s = Some s' ->
  ~ pending (cof s c) /\ ~ fired (cof s c) ->
  ~ pending (cof s' c) /\ ~ fired (cof s' c) /\ callout_running_somewhere_else e s' c = false.
Proof.
  revert interlock s. induction fuel as [|f IH]; intros interlock s; [done|].
  cbn [callout_wait]. unfold callout_wait_turn.
  destruct (callout_running_somewhere_else e s c) eqn:Hr; cbn [negb].
  - destruct interlock; intros H _; eapply IH; eauto using clear_pending_flags.
  - intros [= <-]. tauto.
Qed.

Lemma wait_returns world fuel m e c interlock s : (0 < m < fuel)%nat ->
  (forall s, callout_running_somewhere_else e (clear_pending c (world m s)) c = false) ->
  is_Some (callout_wait world fuel e c interlock s).
Proof.
  intros Hm Hw. revert interlock s. induction fuel as [|f IH]; intros interlock s; [lia|].
  cbn [callout_wait].
  assert (forall il s1, is_Some (callout_wait world f e c il (clear_pending c (world f s1)))) as Hrec.
  { intros il s1. destruct (decide (m = f)) as [<-|]; [|apply IH; lia].
    destruct m as [|m]; [lia|]. cbn [callout_wait]. unfold callout_wait_turn. rewrite Hw. by eexists. }
  unfold callout_wait_turn. destruct (callout_running_somewhere_else e s c); cbn [negb]; [|by eexists].
  destruct interlock; apply Hrec.
Qed.

(** callout_halt returns once the callback has stopped running elsewhere: the callout is
    then neither pending nor fired nor running on another CPU, and the result says
    whether it had been running. *)
Theorem callout_halt_stops world fuel m e c interlock s :
  (0 < m < fuel)%nat ->
  (forall s, callout_running_somewhere_else e (clear_pending c (world m s)) c = false) ->
  exists r s', callout_halt world fuel e c interlock s = Some (r, s') /\
    ~ pending (cof s' c) /\ ~ fired (cof s' c) /\
    callout_running_somewhere_else e s' c = false /\
    r = callout_running_somewhere_else e (clear_pending c s) c.
Proof.
  intros Hm Hw. unfold callout_halt. pose proof (clear_pending_flags c s) as Hf.
  destruct (callout_running_somewhere_else e (clear_pending c s) c) eqn:Hr.
  - destruct (wait_returns world fuel m e c interlock (clear_pending c s) Hm Hw) as [s' Es'].
    rewrite Es'. exists true, s'. split; [done|].
    destruct (wait_stopped _ _ _ _ _ _ _ Es' Hf) as (? & ? & ?). auto.
  - exists false, (clear_pending c s). destruct Hf. auto.
Qed.

(** *** No waiter is left behind *)

Definition nwait_ok (k : callout_cpu) : Prop := cc_nwait k = u32 (Z.of_nat (length (cc_sleepq k))).

Definition waits_ok (s : csys) : Prop := forall n k, cs_cpus s !! n = Some k -> nwait_ok k.

Lemma waits_on_cc s n f : (forall k, nwait_ok k -> nwait_ok (f k)) -> waits_ok s -> waits_ok (on_cc n f s).
Proof.
  intros Hf Hs m k. destruct (cs_cpus s !! n) as [k0|] eqn:Hk;
    [|rewrite on_cc_absent by done; apply Hs].
  rewrite (on_cc_cpus s n k0) by done. intros [[<- <-]|[_ H]]%lookup_insert_Some; eauto.
Qed.

(** Updates of other fields. *)
Lemma waits_same s n f : (forall k, cc_nwait (f k) = cc_nwait k /\ cc_sleepq (f k) = cc_sleepq k) ->
  waits_ok s -> waits_ok (on_cc n f s).
Proof. intros Hf. apply waits_on_cc. intros k. unfold nwait_ok. destruct (Hf k) as [E1 E2]. by rewrite E1, E2. Qed.

Lemma hardclock_waits k : cc_nwait (hardclock_cc k) = cc_nwait k /\ cc_sleepq (hardclock_cc k) = cc_sleepq k.
Proof. unfold hardclock_cc. cbv zeta. set (j := i32 _).
  by destruct (MASKWHEEL 0 j =? 0), (MASKWHEEL 1 j =? 0), (MASKWHEEL 2 j =? 0). Qed.

Lemma note_waits s i k : cc_nwait (callout_next_note s i k) = cc_nwait k /\
  cc_sleepq (callout_next_note s i k) = cc_sleepq k.
Proof. unfold callout_next_note. repeat case_match; done. Qed.

Lemma next_cc_waits s k : cc_nwait (next_cc s k).2 = cc_nwait k /\ cc_sleepq (next_cc s k).2 = cc_sleepq k.
Proof. unfold next_cc, next_rescan, bump_hits. repeat case_match; done. Qed.

Lemma assign_time_waits e c t n s : waits_ok s -> waits_ok (assign_time e c t n s).
Proof. unfold assign_time. by destruct (lpsched_coalesce _ _ _ _ _). Qed.

Lemma schedule_waits e c t s : waits_ok s -> waits_ok (callout_schedule_locked e c t s).
Proof.
  intros Hs. unfold callout_schedule_locked. cbv zeta.
  assert (forall e c t n s, waits_ok s -> waits_ok (assign_time e c t n s)) as Ha
    by (intros; by apply assign_time_waits).
  destruct (has_flag _ CALLOUT_PENDING).
  - destruct (_ <? 0); [apply waits_same; [done|]|]; by apply Ha.
  - destruct (_ || _ || _); (apply waits_same; [done|]); by apply Ha.
Qed.

Lemma return_waits k : nwait_ok k ->
  nwait_ok (if nz (cc_nwait k)
    then set_cc_sleepq (drop (Z.to_nat (cc_nwait k)) (cc_sleepq k)) (set_cc_nwait 0 k) else k).
Proof.
  unfold nwait_ok. intros E. destruct (nz (cc_nwait k)); [|done]. simpl. rewrite length_drop, E.
  set (n := Z.of_nat (length (cc_sleepq k))). unfold u32.
  assert (0 <= n mod 2 ^ 32 <= n) by (split; [apply Z.mod_pos_bound; lia|apply Z.mod_le; lia]).
  replace (Z.of_nat (length (cc_sleepq k) - Z.to_nat (n mod 2 ^ 32))) with (n - n mod 2 ^ 32) by lia.
  rewrite <-Zminus_mod_idemp_l, Z.sub_diag. done.
Qed.

Lemma cstep_waits s s' : cstep s s' -> waits_ok s -> waits_ok s'.
Proof.
  intros Hst Hs.
  assert (forall n, waits_ok (set_cs_cpus (<[n := zero_cc]> (cs_cpus s)) s)) as Hnew.
  { intros n m k. simpl. intros [[<- <-]|[_ H]]%lookup_insert_Some; [done|by eapply Hs]. }
  destruct Hst; try done; try (by apply schedule_waits); try (by apply waits_same).
  - apply Hnew.
  - unfold callout_init_cpu. destruct (cs_cpus s !! ci) as [k|] eqn:Hk; [|apply Hnew].
    intros m k'. simpl. intros [[<- <-]|[_ H']]%lookup_insert_Some; [|by eapply Hs].
    specialize (Hs ci k Hk). unfold nwait_ok in *. simpl. by rewrite Hs, H.
  - unfold callout_init. by destruct (match cs_cpus s !! e_cpu e with Some _ => _ | None => _ end).
  - unfold callout_stop, clear_pending. cbn [snd]. destruct (has_flag _ _); [|done].
    by apply (waits_same s _ (queue_remove c)).
  - unfold callout_wait_turn. repeat case_match; try done. apply waits_on_cc; [|done].
    intros k. unfold nwait_ok. simpl. rewrite length_app. simpl. intros ->. unfold u32. zdm.
  - unfold callout_setdeferrable. destruct d; [done|]. by apply (waits_same s).
  - apply waits_same; [apply hardclock_waits|done].
  - unfold callout_next_ticks. pose proof (next_cc_waits s (ccof s self)) as [E1 E2].
    destruct (next_cc s (ccof s self)) as [r k']. cbn [snd] in *.
    destruct (cs_cpus s !! self) as [k|] eqn:Hk; [|by rewrite on_cc_absent].
    rewrite (ccof_lookup _ _ _ Hk) in *. intros m k2. rewrite (on_cc_cpus s self k) by done.
    intros [[<- <-]|[_ H]]%lookup_insert_Some; [|by eapply Hs].
    unfold nwait_ok. rewrite E1, E2. by apply (Hs self).
  - unfold softclock_turn. destruct (cc_todo _) as [|c ?]; [done|]. cbv zeta.
    destruct (0 <? _); cbn [snd].
    + apply waits_same; [intros; apply note_waits|]. by do 2 (apply waits_same; [done|]).
    + apply waits_same; [done|]. destruct (_ <? 0); [apply waits_same; [done|]|];
        by apply (waits_same s).
  - apply waits_on_cc; [|done]. intros k Hk. exact (return_waits (set_cc_active None k) Hk).
  - unfold sysctl_kern_callout_deferrable. repeat case_match; done.
Qed.

(** In every reachable state the waiter count of a CPU equals the LWPs on its sleep
    queue, and the end of a callback wakes all of them and clears the active callout. *)
Theorem callout_no_lost_wakeup lp s self k :
  rtc cstep (callout_boot lp) s -> cs_cpus s !! self = Some k ->
  Z.of_nat (length (cc_sleepq k)) < 2 ^ 32 ->
  cc_nwait k = Z.of_nat (length (cc_sleepq k)) /\
  exists k', cs_cpus (softclock_return self s) !! self = Some k' /\
    cc_active k' = None /\ cc_nwait k' = 0 /\ cc_sleepq k' = [].
Proof.
  intros Hr Hk Hlt.
  assert (waits_ok s) as Hs.
  { cut (forall s0, rtc cstep s0 s -> waits_ok s0 -> waits_ok s).
    { intros G. apply (G _ Hr). intros m k2. simpl. by rewrite lookup_empty. }
    clear Hr Hk. induction 1 as [|a b d Hab _ IH]; [done|]. intros Ha. apply IH. by eapply cstep_waits. }
  specialize (Hs self k Hk). unfold nwait_ok in Hs. rewrite u32_id in Hs by (unfold in_u32; lia).
  split; [done|]. unfold softclock_return. rewrite (on_cc_cpus s self k) by done.
  rewrite lookup_insert_eq. eexists. split; [done|]. cbv zeta. cbn [cc_nwait set_cc_active].
  unfold nz. destruct (Z.eqb_spec (cc_nwait k) 0) as [E|E]; cbn [negb].
  - simpl. repeat split; auto. apply nil_length_inv. lia.
  - simpl. repeat split; auto. rewrite Hs, Nat2Z.id. apply drop_all.
Qed.

End thms.
