(* ===== verification/CalloutEx.v ===== *)
(** * Callout scenarios

    A small run of the callout code: it instantiates the theorems, and shows
    the wrap-around of [callout_next_note]. *)

From stdpp Require Import base numbers list gmap strings relations.
From S2P Require Import Prelude Text Sysctl Lwp Lpsched Callout CalloutWheel CalloutInv CalloutNext CalloutThms.

Definition me : caller := mk_caller 0 7 0 true.
Definition nop : nat -> option nat -> Z -> csys -> csys := fun _ _ _ s => s.

(** Boot, callouts 1, 2 and 3, the first due in 5 ticks, the second in 20. *)
Definition ex0 : csys := callout_boot (lpsched_boot 1).
Definition ex1 : csys := callout_startup ex0.
Definition ex2 : csys := callout_init me 1 CALLOUT_MPSAFE ex1.
Definition ex3 : csys := callout_init me 2 CALLOUT_MPSAFE ex2.
Definition ex4 : csys := callout_init me 3 CALLOUT_MPSAFE ex3.
Definition ex5 : csys := callout_reset me 1 5 11 0 ex4.
Definition ex6 : csys := callout_reset me 2 20 12 0 ex5.
Definition ex7 : csys := (softclock_turn 0 ex6).2.
Definition ex8 : csys := (softclock_turn 0 ex7).2.

Ltac compute_some := eexists; vm_compute; reflexivity.

Lemma may_schedule_1 : may_schedule ticks_ok me 1 5 ex4.
Proof. repeat split; try compute_some; vm_compute; done. Qed.
Lemma may_schedule_2 : may_schedule ticks_ok me 2 20 ex5.
Proof. repeat split; try compute_some; vm_compute; done. Qed.

Lemma fresh_callout s c : bool_decide (cs_callouts s !! c = None) = true ->
  forall i, cs_callouts s !! c = Some i -> ~ pending i.
Proof. intros H%bool_decide_eq_true i. by rewrite H. Qed.

(** The steps of the run. *)
Lemma st1 : cstep_fits ex0 ex1.
Proof. unfold ex1. apply step_startup. reflexivity. Qed.
Lemma st2 : cstep_fits ex1 ex2.
Proof. unfold ex2. apply step_init; [apply fresh_callout|]; vm_compute; reflexivity. Qed.
Lemma st3 : cstep_fits ex2 ex3.
Proof. unfold ex3. apply step_init; [apply fresh_callout|]; vm_compute; reflexivity. Qed.
Lemma st4 : cstep_fits ex3 ex4.
Proof. unfold ex4. apply step_init; [apply fresh_callout|]; vm_compute; reflexivity. Qed.
Lemma st5 : cstep_fits ex4 ex5.
Proof. unfold ex5. apply step_reset. apply may_schedule_1. Qed.
Lemma st6 : cstep_fits ex5 ex6.
Proof. unfold ex6. apply step_reset. apply may_schedule_2. Qed.
Lemma st7 : cstep_fits ex6 ex7.
Proof. unfold ex7. apply step_soft_turn. Qed.
Lemma st8 : cstep_fits ex7 ex8.
Proof. unfold ex8. apply step_soft_turn. Qed.

Lemma ex_run6 : rtc cstep_fits ex0 ex6.
Proof.
  apply (rtc_l _ _ _ _ st1), (rtc_l _ _ _ _ st2), (rtc_l _ _ _ _ st3), (rtc_l _ _ _ _ st4).
  apply (rtc_l _ _ _ _ st5), (rtc_once _ _ st6).
Qed.

Lemma ex_run8 : rtc cstep_fits ex0 ex8.
Proof.
  transitivity ex6; [apply ex_run6|]. apply (rtc_l _ _ _ _ st7), (rtc_once _ _ st8).
Qed.

Lemma callout_never_overdue_in_wheel_witness :
  exists i, cs_callouts ex8 !! 2%nat = Some i /\ pending i /\
  exists k, cs_cpus ex8 !! c_cpu i = Some k /\
     (2%nat ∈ cc_todo k \/ exists b q, cc_wheel k !! b = Some q /\ 2%nat ∈ q /\
        1 <= dist b (cc_ticks k) <= due_in i k).
Proof.
  eexists. split; [vm_compute; reflexivity|]. split; [vm_compute; reflexivity|].
  apply (callout_never_overdue_in_wheel _ ex8 ex_run8); vm_compute; reflexivity.
Defined.


(** Before the first idle entry no cache is current. *)
Lemma nowrap_no_cache s : callout_next_gen s < UINT32_MAX ->
  bool_decide (map_Forall (fun _ k => cc_next_gen k <> callout_next_gen s) (cs_cpus s)) = true ->
  nowrap s.
Proof.
  intros Hg Hf%bool_decide_eq_true. split; [done|]. intros n k Hk E. by destruct (Hf n k Hk).
Qed.

Ltac nowrap_compute := apply nowrap_no_cache; vm_compute; reflexivity.

Lemma ex_run_nowrap : rtc (fun a b => nowrap a /\ cstep_fits a b) ex0 ex8.
Proof.
  eapply rtc_l; [split; [nowrap_compute|apply st1]|]. eapply rtc_l; [split; [nowrap_compute|apply st2]|].
  eapply rtc_l; [split; [nowrap_compute|apply st3]|]. eapply rtc_l; [split; [nowrap_compute|apply st4]|].
  eapply rtc_l; [split; [nowrap_compute|apply st5]|]. eapply rtc_l; [split; [nowrap_compute|apply st6]|].
  eapply rtc_l; [split; [nowrap_compute|apply st7]|].
  apply rtc_once. split; [nowrap_compute|apply st8].
Qed.

Lemma callout_next_exact_or_early_witness :
  (callout_next_ticks 0 ex8).1 = 5 /\
  ((cc_todo (ccof ex8 0) <> [] -> (callout_next_ticks 0 ex8).1 = 0) /\
   (cc_todo (ccof ex8 0) = [] -> 0 < (callout_next_ticks 0 ex8).1 /\
     forall c, c ∈ queued (ccof ex8 0) -> honoured ex8 c ->
       (callout_next_ticks 0 ex8).1 <= due_in (cof ex8 c) (ccof ex8 0))).
Proof.
  split; [vm_compute; reflexivity|].
  apply (callout_next_exact_or_early (lpsched_boot 1) ex8 0 (ccof ex8 0) ex_run_nowrap).
  vm_compute; reflexivity.
Defined.

(** The run goes on: an idle entry caches tick 5, callout 1 fires there, and
    at tick 6 a callout of the longest delay is scheduled. *)
Definition ex9 : csys := (callout_next_ticks 0 ex8).2.
Definition ex10 : csys := hardclocks 5 0 ex9.
Definition ex10b : csys := (softclock_turn 0 ex10).2.
Definition ex11 : csys := softclock_return 0 ex10b.
Definition ex12 : csys := (callout_hardclock 0 ex11).2.
Definition ex13 : csys := callout_reset me 3 INT_MAX 13 0 ex12.
Definition ex14 : csys := (softclock_turn 0 ex13).2.

Lemma hardclocks_steps n self s : rtc cstep_fits s (hardclocks n self s).
Proof.
  revert s. induction n as [|n IH]; intros s; [apply rtc_refl|].
  eapply rtc_l; [apply (step_hardclock _ s self)|]. apply IH.
Qed.

Lemma may_schedule_3 : may_schedule ticks_ok me 3 INT_MAX ex12.
Proof. repeat split; try compute_some; vm_compute; done. Qed.

Lemma st9 : cstep_fits ex8 ex9.
Proof. unfold ex9. apply step_next_ticks. Qed.
Lemma st10 : rtc cstep_fits ex9 ex10.
Proof. unfold ex10. apply hardclocks_steps. Qed.
Lemma st10b : cstep_fits ex10 ex10b.
Proof. unfold ex10b. apply step_soft_turn. Qed.
Lemma st11 : cstep_fits ex10b ex11.
Proof. unfold ex11. apply step_soft_return. Qed.
Lemma st12 : cstep_fits ex11 ex12.
Proof. unfold ex12. apply step_hardclock. Qed.
Lemma st13 : cstep_fits ex12 ex13.
Proof. unfold ex13. apply step_reset. apply may_schedule_3. Qed.
Lemma st14 : cstep_fits ex13 ex14.
Proof. unfold ex14. apply step_soft_turn. Qed.

Lemma ex_run10b : rtc cstep_fits ex0 ex10b.
Proof.
  transitivity ex8; [apply ex_run8|]. apply (rtc_l _ _ _ _ st9).
  transitivity ex10; [apply st10|]. apply (rtc_once _ _ st10b).
Qed.

Lemma ex_run14 : rtc cstep_fits ex0 ex14.
Proof.
  transitivity ex10b; [apply ex_run10b|]. apply (rtc_l _ _ _ _ st11), (rtc_l _ _ _ _ st12).
  apply (rtc_l _ _ _ _ st13), (rtc_once _ _ st14).
Qed.

(** The cached deadline is not always exact or early: in a reachable state, after a
    stale cache and a callout of INT_MAX ticks, the idle bound is INT_MAX although an
    honoured callout is due in 14 ticks. *)
Theorem callout_next_cache_can_be_late :
  rtc cstep_fits ex0 ex14 /\ cc_todo (ccof ex14 0) = [] /\
  2%nat ∈ queued (ccof ex14 0) /\ honoured ex14 2 /\
  due_in (cof ex14 2) (ccof ex14 0) = 14 /\
  (callout_next_ticks 0 ex14).1 = INT_MAX.
Proof.
  split; [apply ex_run14|]. split; [vm_compute; reflexivity|].
  split; [apply (bool_decide_unpack _); vm_compute; exact I|].
  repeat split; vm_compute; reflexivity.
Qed.

Lemma softclock_drains_witness :
  exists s' k', softclock_loop nop 2 0 ex6 =
      Some (filter (fun c => due_in (cof ex6 c) (ccof ex6 0) <= 0) [1; 2]%nat, s') /\
    cs_cpus s' !! 0%nat = Some k' /\ csys_inv s' /\ cc_todo k' = [] /\
    (forall x, in_wheel (ccof ex6 0) x -> in_wheel k' x) /\
    (forall x, x ∉ [1; 2]%nat -> cof s' x = cof ex6 x) /\
    (forall c, c ∈ [1; 2]%nat -> 0 < due_in (cof ex6 c) (ccof ex6 0) -> in_wheel k' c) /\
    (forall c, c ∈ [1; 2]%nat -> due_in (cof ex6 c) (ccof ex6 0) <= 0 ->
       fired (cof s' c) /\ ~ pending (cof s' c)).
Proof.
  apply (softclock_drains nop 0 [1; 2]%nat ex6 (ccof ex6 0) 2).
  - done.
  - apply (reachable_inv _ _ ex_run6).
  - vm_compute; reflexivity.
  - vm_compute; reflexivity.
  - simpl. lia.
Defined.

(** Callout 1 is being run by LWP 9 when LWP 7 halts it; the callback ends
    while LWP 7 sleeps. *)
Definition callback_ends (_ : nat) (s : csys) : csys :=
  set_cs_cpus (set_cc_active None <$> cs_cpus s) s.

Lemma callback_ends_idle e c s : callout_running_somewhere_else e (clear_pending c (callback_ends 0 s)) c = false.
Proof.
  assert (forall n, cc_active (ccof (clear_pending c (callback_ends 0 s)) n) = None) as H.
  { intros n. unfold ccof, clear_pending. destruct (has_flag _ _); simpl;
      rewrite lookup_total_alt.
    - set (n0 := c_cpu _). destruct (decide (n0 = n)) as [<-|Hne].
      + rewrite lookup_alter_eq, lookup_fmap. by destruct (cs_cpus s !! n0).
      + rewrite lookup_alter_ne, lookup_fmap by done. by destruct (cs_cpus s !! n).
    - rewrite lookup_fmap. by destruct (cs_cpus s !! n). }
  unfold callout_running_somewhere_else. by rewrite H.
Qed.

Lemma callout_halt_stops_witness :
  exists r s', callout_halt callback_ends 3 me 1 false (softclock_enter 0 9 ex10b) = Some (r, s') /\
    ~ pending (cof s' 1) /\ ~ fired (cof s' 1) /\
    callout_running_somewhere_else me s' 1 = false /\
    r = callout_running_somewhere_else me (clear_pending 1 (softclock_enter 0 9 ex10b)) 1.
Proof.
  apply (callout_halt_stops callback_ends 3 1 me 1 false (softclock_enter 0 9 ex10b)).
  - lia.
  - intros s. apply callback_ends_idle.
Defined.

Lemma callout_no_lost_wakeup_witness :
  cc_nwait (ccof ex10b 0) = Z.of_nat (length (cc_sleepq (ccof ex10b 0))) /\
  exists k', cs_cpus (softclock_return 0 ex10b) !! 0%nat = Some k' /\
    cc_active k' = None /\ cc_nwait k' = 0 /\ cc_sleepq k' = [].
Proof.
  apply (callout_no_lost_wakeup (lpsched_boot 1) ex10b 0 (ccof ex10b 0)).
  - eapply rtc_subrel; [apply cstep_with_any|]. apply ex_run10b.
  - vm_compute; reflexivity.
  - vm_compute; reflexivity.
Defined.

(** A slack callout of 100 ticks on a 200 ms grid. *)
Lemma lpsched_coalesce_only_delays_witness :
  let lp := set_lpsched_enabled 1 (set_lpsched_coalesce_ms 200 (lpsched_boot 1)) in
  let c := set_c_flags CALLOUT_SLACK zero_callout in
  let d := i32 ((lpsched_coalesce me c 107 0 lp).1 - 0) - 107 in
  d = 13 /\ 0 <= d /\
  (0 < d -> 2 * d < 107 /\ lpsched_enabled lp <> 0 /\
     has_flag (c_flags c) CALLOUT_SLACK = true /\ has_flag (c_flags c) CALLOUT_PRECISE = false /\
     (u32 (e_ticks me + 107) + d) mod mstohz (lpsched_coalesce_ms lp) = 0).
Proof.
  split; [vm_compute; reflexivity|].
  apply (lpsched_coalesce_only_delays me (set_c_flags CALLOUT_SLACK zero_callout) 107 0
    (set_lpsched_enabled 1 (set_lpsched_coalesce_ms 200 (lpsched_boot 1)))).
  vm_compute. done.
Defined.

(** Coalescing a callout of INT_MAX ticks overflows the int: the callout's time lies in
    the past. *)
Theorem lpsched_coalesce_overflows :
  let lp := set_lpsched_enabled 1 (set_lpsched_coalesce_ms 200 (lpsched_boot 1)) in
  let c := set_c_flags CALLOUT_SLACK zero_callout in
  i32 ((lpsched_coalesce me c INT_MAX 0 lp).1 - 0) < 0.
Proof. vm_compute. reflexivity. Qed.

(** With timeouts that do not fit, the bound of callouts in the wheel fails: a slack callout is pending in
    the wheel when it is put off by INT_MAX ticks; its time wraps into the past
    and it stays in its bucket. *)
Definition ov0 : csys := callout_boot (set_lpsched_enabled 1 (set_lpsched_coalesce_ms 200 (lpsched_boot 1))).
Definition ov1 : csys := callout_startup ov0.
Definition ov2 : csys := callout_init me 1 (set_flag CALLOUT_MPSAFE CALLOUT_SLACK) ov1.
Definition ov3 : csys := callout_reset me 1 100 11 0 ov2.
Definition ov4 : csys := (softclock_turn 0 ov3).2.
Definition ov5 : csys := callout_schedule me 1 INT_MAX ov4.

Theorem callout_overflow_overdue :
  rtc cstep ov0 ov5 /\ pending (cof ov5 1) /\ in_wheel (ccof ov5 0) 1%nat /\
  due_in (cof ov5 1) (ccof ov5 0) < 0.
Proof.
  split.
  { eapply rtc_l; [by apply (step_startup _ ov0)|].
    eapply rtc_l; [apply (step_init _ ov1 me 1 (set_flag CALLOUT_MPSAFE CALLOUT_SLACK));
      [apply fresh_callout|]; vm_compute; reflexivity|].
    eapply rtc_l; [apply (step_reset _ ov2 me 1 100 11 0); repeat split; try compute_some; vm_compute; done|].
    eapply rtc_l; [apply (step_soft_turn _ ov3 0)|].
    apply rtc_once, (step_schedule _ ov4 me 1 INT_MAX). repeat split; try compute_some; vm_compute; done. }
  split; [vm_compute; reflexivity|]. split; [|vm_compute; reflexivity].
  exists 100%nat. vm_compute. eexists. split; [reflexivity|]. by left.
Qed.
