(* ===== verification/Runq.v ===== *)
(** * The run queues and CPU selection

    kernel/kern/kern_runq.c with the lpsched packing.  A CPU's
    [schedstate_percpu] and the fields of [cpu_info] the scheduler uses are one
    record; CPUs and LWPs are named by index and live in two maps, so two
    references to one of them see each other's updates.  [spc_lock] makes every
    operation one step.  The scheduling class hooks ([sched_newts],
    [sched_oncpu], [sched_pstats_hook]) and the CPU predicates of <sys/cpu.h>
    are outside this repository: they are parameters. *)

From stdpp Require Import base numbers list gmap strings.
From S2P Require Import Prelude Text Sysctl Lwp Lpsched.

Definition BITMAP_BITS : Z := 32.
Definition BITMAP_SHIFT : Z := 5.
Definition BITMAP_MSB : Z := 0x80000000.
Definition BITMAP_MASK : Z := BITMAP_BITS - 1.

(** One CPU: [ci_schedstate] and the links of [cpu_info].  [spc_flags] is kept
    as the three bits the run queue code reads. *)
Record cpu_info := mk_cpu_info {
  spc_queue : list (list nat);
  spc_bitmap : list Z;
  spc_maxpriority : Z;
  spc_count : Z;
  spc_mcount : Z;
  spc_idle : bool;
  spc_offline : bool;
  spc_1stclass : bool;
  spc_migrating : option nat;
  spc_psid : Z;
  spc_curpriority : Z;
  spc_nextskim : Z;
  spc_nextpkg : nat;
  ci_onproc : nat;
  ci_want_resched : Z;
  ci_sib_core : nat;
  ci_sib_package : nat;
  ci_sib_package1st : nat;
  ci_package1st : nat;
  ci_nsibling_core : Z
}.

Definition set_spc_queue (v : list (list nat)) (r : cpu_info) : cpu_info :=
  mk_cpu_info v (spc_bitmap r) (spc_maxpriority r) (spc_count r) (spc_mcount
    r) (spc_idle r) (spc_offline r) (spc_1stclass r) (spc_migrating r)
    (spc_psid r) (spc_curpriority r) (spc_nextskim r) (spc_nextpkg r)
    (ci_onproc r) (ci_want_resched r) (ci_sib_core r) (ci_sib_package r)
    (ci_sib_package1st r) (ci_package1st r) (ci_nsibling_core r).
Definition set_spc_bitmap (v : list Z) (r : cpu_info) : cpu_info :=
  mk_cpu_info (spc_queue r) v (spc_maxpriority r) (spc_count r) (spc_mcount r)
    (spc_idle r) (spc_offline r) (spc_1stclass r) (spc_migrating r) (spc_psid
    r) (spc_curpriority r) (spc_nextskim r) (spc_nextpkg r) (ci_onproc r)
    (ci_want_resched r) (ci_sib_core r) (ci_sib_package r) (ci_sib_package1st
    r) (ci_package1st r) (ci_nsibling_core r).
Definition set_spc_maxpriority (v : Z) (r : cpu_info) : cpu_info :=
  mk_cpu_info (spc_queue r) (spc_bitmap r) v (spc_count r) (spc_mcount r)
    (spc_idle r) (spc_offline r) (spc_1stclass r) (spc_migrating r) (spc_psid
    r) (spc_curpriority r) (spc_nextskim r) (spc_nextpkg r) (ci_onproc r)
    (ci_want_resched r) (ci_sib_core r) (ci_sib_package r) (ci_sib_package1st
    r) (ci_package1st r) (ci_nsibling_core r).
Definition set_spc_count (v : Z) (r : cpu_info) : cpu_info :=
  mk_cpu_info (spc_queue r) (spc_bitmap r) (spc_maxpriority r) v (spc_mcount
    r) (spc_idle r) (spc_offline r) (spc_1stclass r) (spc_migrating r)
    (spc_psid r) (spc_curpriority r) (spc_nextskim r) (spc_nextpkg r)
    (ci_onproc r) (ci_want_resched r) (ci_sib_core r) (ci_sib_package r)
    (ci_sib_package1st r) (ci_package1st r) (ci_nsibling_core r).
Definition set_spc_mcount (v : Z) (r : cpu_info) : cpu_info :=
  mk_cpu_info (spc_queue r) (spc_bitmap r) (spc_maxpriority r) (spc_count r) v
    (spc_idle r) (spc_offline r) (spc_1stclass r) (spc_migrating r) (spc_psid
    r) (spc_curpriority r) (spc_nextskim r) (spc_nextpkg r) (ci_onproc r)
    (ci_want_resched r) (ci_sib_core r) (ci_sib_package r) (ci_sib_package1st
    r) (ci_package1st r) (ci_nsibling_core r).
Definition set_spc_idle (v : bool) (r : cpu_info) : cpu_info :=
  mk_cpu_info (spc_queue r) (spc_bitmap r) (spc_maxpriority r) (spc_count r)
    (spc_mcount r) v (spc_offline r) (spc_1stclass r) (spc_migrating r)
    (spc_psid r) (spc_curpriority r) (spc_nextskim r) (spc_nextpkg r)
    (ci_onproc r) (ci_want_resched r) (ci_sib_core r) (ci_sib_package r)
    (ci_sib_package1st r) (ci_package1st r) (ci_nsibling_core r).
Definition set_spc_migrating (v : option nat) (r : cpu_info) : cpu_info :=
  mk_cpu_info (spc_queue r) (spc_bitmap r) (spc_maxpriority r) (spc_count r)
    (spc_mcount r) (spc_idle r) (spc_offline r) (spc_1stclass r) v (spc_psid
    r) (spc_curpriority r) (spc_nextskim r) (spc_nextpkg r) (ci_onproc r)
    (ci_want_resched r) (ci_sib_core r) (ci_sib_package r) (ci_sib_package1st
    r) (ci_package1st r) (ci_nsibling_core r).
Definition set_spc_nextskim (v : Z) (r : cpu_info) : cpu_info :=
  mk_cpu_info (spc_queue r) (spc_bitmap r) (spc_maxpriority r) (spc_count r)
    (spc_mcount r) (spc_idle r) (spc_offline r) (spc_1stclass r)
    (spc_migrating r) (spc_psid r) (spc_curpriority r) v (spc_nextpkg r)
    (ci_onproc r) (ci_want_resched r) (ci_sib_core r) (ci_sib_package r)
    (ci_sib_package1st r) (ci_package1st r) (ci_nsibling_core r).
Definition set_spc_nextpkg (v : nat) (r : cpu_info) : cpu_info :=
  mk_cpu_info (spc_queue r) (spc_bitmap r) (spc_maxpriority r) (spc_count r)
    (spc_mcount r) (spc_idle r) (spc_offline r) (spc_1stclass r)
    (spc_migrating r) (spc_psid r) (spc_curpriority r) (spc_nextskim r) v
    (ci_onproc r) (ci_want_resched r) (ci_sib_core r) (ci_sib_package r)
    (ci_sib_package1st r) (ci_package1st r) (ci_nsibling_core r).
Definition set_ci_want_resched (v : Z) (r : cpu_info) : cpu_info :=
  mk_cpu_info (spc_queue r) (spc_bitmap r) (spc_maxpriority r) (spc_count r)
    (spc_mcount r) (spc_idle r) (spc_offline r) (spc_1stclass r)
    (spc_migrating r) (spc_psid r) (spc_curpriority r) (spc_nextskim r)
    (spc_nextpkg r) (ci_onproc r) v (ci_sib_core r) (ci_sib_package r)
    (ci_sib_package1st r) (ci_package1st r) (ci_nsibling_core r).

Record sched := mk_sched {
  sc_cpus : gmap nat cpu_info;
  sc_lwps : gmap nat lwp;
  sc_lp : lpsched;
  cacheht_time : Z;
  min_catch : Z;
  skim_interval : Z;
  sched_kpreempt_pri : Z;
  mp_online : bool
}.

Definition set_sc_cpus (v : gmap nat cpu_info) (r : sched) : sched :=
  mk_sched v (sc_lwps r) (sc_lp r) (cacheht_time r) (min_catch r)
    (skim_interval r) (sched_kpreempt_pri r) (mp_online r).
Definition set_sc_lwps (v : gmap nat lwp) (r : sched) : sched :=
  mk_sched (sc_cpus r) v (sc_lp r) (cacheht_time r) (min_catch r)
    (skim_interval r) (sched_kpreempt_pri r) (mp_online r).
Definition set_sc_lp (v : lpsched) (r : sched) : sched :=
  mk_sched (sc_cpus r) (sc_lwps r) v (cacheht_time r) (min_catch r)
    (skim_interval r) (sched_kpreempt_pri r) (mp_online r).
Definition set_cacheht_time (v : Z) (r : sched) : sched :=
  mk_sched (sc_cpus r) (sc_lwps r) (sc_lp r) v (min_catch r) (skim_interval r)
    (sched_kpreempt_pri r) (mp_online r).
Definition set_min_catch (v : Z) (r : sched) : sched :=
  mk_sched (sc_cpus r) (sc_lwps r) (sc_lp r) (cacheht_time r) v (skim_interval
    r) (sched_kpreempt_pri r) (mp_online r).
Definition set_skim_interval (v : Z) (r : sched) : sched :=
  mk_sched (sc_cpus r) (sc_lwps r) (sc_lp r) (cacheht_time r) (min_catch r) v
    (sched_kpreempt_pri r) (mp_online r).
Definition set_sched_kpreempt_pri (v : Z) (r : sched) : sched :=
  mk_sched (sc_cpus r) (sc_lwps r) (sc_lp r) (cacheht_time r) (min_catch r)
    (skim_interval r) v (mp_online r).

(** Constants and predicates of <sys/sched.h>, <sys/cpu.h> and the
    scheduling class. *)
Class SchedParams := {
  PRI_COUNT : Z;
  PS_NONE : Z;
  sched_rrticks : Z;
  RESCHED_REMOTE : Z;
  RESCHED_IDLE : Z;
  RESCHED_UPREEMPT : Z;
  RESCHED_KPREEMPT : Z;
  HAVE_PREEMPTION : bool;
  (* wanted: idle, first class *)
  cpu_is_type : cpu_info -> bool * bool -> bool;
  cpu_is_idle_1stclass : cpu_info -> bool;
  cpu_is_1stclass : cpu_info -> bool;
  cpu_is_better : cpu_info -> cpu_info -> bool;
  sched_newts : lwp -> lwp;
  sched_oncpu : lwp -> lwp;
  sched_pstats_hook : lwp -> Z -> lwp
}.

(** The fields by which an LWP sits on a run queue. *)
Definition runq_id (l : lwp) : nat * Z * Z * Z * Z * sched_class :=
  (l_cpu l, l_pflag l, l_priority l, l_boostpri l, l_auxprio l, l_class l).

Class SchedParamsOk (P : SchedParams) : Prop := {
  pri_count_pos : 0 < PRI_COUNT;
  pri_count_words : PRI_COUNT mod BITMAP_BITS = 0;
  sched_newts_id : forall l, runq_id (sched_newts l) = runq_id l;
  sched_oncpu_id : forall l, runq_id (sched_oncpu l) = runq_id l
}.

(** What a thread in the scheduler knows of itself. *)
Record senv := mk_senv {
  v_self : nat;    (* curcpu() *)
  v_curlwp : nat;
  v_ticks : Z;     (* getticks() *)
  v_now : Z;       (* cpu_counter() *)
  v_freq : Z;      (* cpu_frequency() *)
  v_intr : bool    (* cpu_intr_p() *)
}.

Definition zero_ci : cpu_info :=
  mk_cpu_info [] [] 0 0 0 true false true None 0 0 0 0 0 0 0 0 0 0 1.
#[export] Instance cpu_info_inhabited : Inhabited cpu_info := populate zero_ci.

Definition ciof (s : sched) (c : nat) : cpu_info := sc_cpus s !!! c.
Definition lof (s : sched) (l : nat) : lwp := sc_lwps s !!! l.
Definition on_ci (c : nat) (f : cpu_info -> cpu_info) (s : sched) : sched :=
  set_sc_cpus (alter f c (sc_cpus s)) s.
Definition on_lwp (l : nat) (f : lwp -> lwp) (s : sched) : sched :=
  set_sc_lwps (alter f l (sc_lwps s)) s.
Definition stat (e : senv) (i : lpsched_stat_idx) (s : sched) : sched :=
  set_sc_lp (lpsched_stat (v_self e) i (sc_lp s)) s.

(** ffs(3): one more than the index of the lowest set bit, 0 for 0. *)
Fixpoint ffs_from (fuel : nat) (i x : Z) : Z :=
  match fuel with
  | O => 0
  | S f => if Z.testbit x i then i + 1 else ffs_from f (i + 1) x
  end.
Definition ffs (x : Z) : Z := ffs_from 32 0 x.

Definition runq_init (s : sched) : sched :=
  set_skim_interval 10 (set_min_catch 1 (set_cacheht_time 10 s)).

Section runq.
Context `{M : Machine} `{P : SchedParams}.

Definition npri : nat := Z.to_nat PRI_COUNT.
Definition nword : nat := Z.to_nat (PRI_COUNT / BITMAP_BITS).

(** sched_cpuattach(): [attached] is [spc_mutex != NULL]. *)
Definition sched_cpuattach (ci : nat) (attached : bool) (s : sched) : sched :=
  let s := on_ci ci (set_spc_nextpkg ci) s in
  if attached then s else on_ci ci (set_spc_queue (replicate npri [])) s.

(** ** Queues *)

Definition word_of (pri : Z) : nat := Z.to_nat (Z.shiftr pri BITMAP_SHIFT).
Definition bit_of (pri : Z) : Z := Z.shiftr BITMAP_MSB (Z.land pri BITMAP_MASK).
Definition sched_getrq (k : cpu_info) (pri : Z) : list nat := spc_queue k !!! Z.to_nat pri.

(** Where an LWP enters its queue. *)
Inductive rq_pos := Head | Tail.

Definition enqueue_pos (e : senv) (l : lwp) : option rq_pos :=
  if has_flag (l_pflag l) LP_PREEMPTING then
    match l_class l with
    | SCHED_OTHER => Some Tail
    | SCHED_FIFO => Some Head
    | SCHED_RR => Some (if sched_rrticks <=? u32 (v_ticks e - l_rticks l) then Tail else Head)
    | SCHED_NONE => None  (* panic *)
    end
  else Some Tail.

Definition mark_bit (pri : Z) (k : cpu_info) : cpu_info :=
  set_spc_bitmap (alter (fun w => Z.lor w (bit_of pri)) (word_of pri) (spc_bitmap k)) k.
Definition unmark_bit (pri : Z) (k : cpu_info) : cpu_info :=
  set_spc_bitmap (alter (fun w => clr_flag w (bit_of pri)) (word_of pri) (spc_bitmap k)) k.

Definition put (pos : rq_pos) (l : nat) (q : list nat) : list nat :=
  match pos with Head => l :: q | Tail => q ++ [l] end.

(** The queue part of sched_enqueue(). *)
Definition enqueue_cpu (l : nat) (pri : Z) (pos : rq_pos) (bound : bool) (k : cpu_info) : cpu_info :=
  let k := if bool_decide (sched_getrq k pri = []) then mark_bit pri k else k in
  let k := set_spc_queue (alter (put pos l) (Z.to_nat pri) (spc_queue k)) k in
  let k := set_spc_idle false k in
  let k := set_spc_count (u32 (spc_count k + 1)) k in
  let k := if bound then k else set_spc_mcount (u32 (spc_mcount k + 1)) k in
  if spc_maxpriority k <? pri then set_spc_maxpriority pri k else k.

(** [None]: panic, unknown class. *)
Definition sched_enqueue (e : senv) (l : nat) (s : sched) : option sched :=
  let lw := lof s l in
  let eprio := lwp_eprio lw in
  let ci := l_cpu lw in
  pos ← enqueue_pos e lw;
  let was_empty := spc_count (ciof s ci) =? 0 in
  let s := on_ci ci (enqueue_cpu l eprio pos (has_flag (l_pflag lw) LP_BOUND)) s in
  let s := if lpsched_accounting (sc_lp s)
           then let '(h, lp) := lpsched_enqueued (v_now e) l ci was_empty (sc_lwps s, sc_lp s) in
                set_sc_lp lp (set_sc_lwps h s)
           else s in
  Some (on_lwp l sched_newts s).

(** The highest priority with a bit in words [i], [i-1], ..., 0. *)
Fixpoint max_scan (bitmap : list Z) (i : nat) : Z :=
  if negb (bitmap !!! i =? 0)
  then Z.shiftl (Z.of_nat i) BITMAP_SHIFT + (BITMAP_BITS - ffs (bitmap !!! i))
  else match i with O => 0 | S i => max_scan bitmap i end.

Definition dequeue_cpu (l : nat) (pri : Z) (bound : bool) (k : cpu_info) : cpu_info :=
  let k := if bool_decide (spc_migrating k = Some l) then set_spc_migrating None k else k in
  let k := set_spc_count (u32 (spc_count k - 1)) k in
  let k := if bound then k else set_spc_mcount (u32 (spc_mcount k - 1)) k in
  let k := set_spc_queue (alter (filter (fun x => x <> l)) (Z.to_nat pri) (spc_queue k)) k in
  if bool_decide (sched_getrq k pri = []) then
    let k := unmark_bit pri k in
    if negb (pri =? spc_maxpriority k) then k
    else set_spc_maxpriority (max_scan (spc_bitmap k) (word_of pri)) k
  else k.

Definition sched_dequeue (l : nat) (s : sched) : sched :=
  let lw := lof s l in
  let ci := l_cpu lw in
  let s := on_ci ci (dequeue_cpu l (lwp_eprio lw) (has_flag (l_pflag lw) LP_BOUND)) s in
  if lpsched_accounting (sc_lp s)
  then set_sc_lp (lpsched_dequeued ci (spc_count (ciof s ci) =? 0) (sc_lp s)) s
  else s.

(** ** Preemption *)

(** The update of [ci_want_resched]: what is stored, and whether this call is
    the one that notifies.  The compare-and-swap loop retries on the newest
    value, so this is its effect on the value it finally sees. *)
Definition want_resched (w f : Z) : Z * bool :=
  let mask := Z.lor RESCHED_KPREEMPT RESCHED_UPREEMPT in
  if w =? 0 then (f, true)
  else if Z.land f mask <=? Z.land w mask then (w, false)
  else (Z.lor w f, true).

(** The result also holds the [cpu_need_resched] call made, if any. *)
Definition sched_resched_cpu (e : senv) (ci : nat) (pri : Z) (s : sched) :
    option (nat * nat * Z) * sched :=
  let k := ciof s ci in
  if (pri <=? spc_curpriority k) || negb (mp_online s) then (None, s)
  else
    let l := ci_onproc k in
    let lw := lof s l in
    let '(f, s) :=
      if has_flag (l_flag lw) LW_IDLE then (Z.lor RESCHED_IDLE RESCHED_UPREEMPT, s)
      else if (sched_kpreempt_pri s <=? pri) && negb (has_flag (l_pflag lw) LP_INTR)
      then (if HAVE_PREEMPTION then RESCHED_KPREEMPT else RESCHED_UPREEMPT,
            on_lwp l (fun l => set_l_dopreempt (set_flag (l_dopreempt l) DOPREEMPT_ACTIVE) l) s)
      else (RESCHED_UPREEMPT, s) in
    let f := if (ci =? v_self e)%nat then f else Z.lor f RESCHED_REMOTE in
    let '(w, notify) := want_resched (ci_want_resched (ciof s ci)) f in
    (if notify && (negb (l =? v_curlwp e)%nat || v_intr e) then Some (ci, l, f) else None,
     on_ci ci (set_ci_want_resched w) s).

Definition sched_resched_lwp (e : senv) (l : nat) (s : sched) : option (nat * nat * Z) * sched :=
  sched_resched_cpu e (l_cpu (lof s l)) (lwp_eprio (lof s l)) s.

(** ** Walking the topology

    The sibling links form rings: [ring next start] lists the CPUs a
    [do ... while (ci = next, ci != start)] loop visits. *)

Fixpoint ring_from (fuel : nat) (next : nat -> nat) (start cur : nat) : list nat :=
  match fuel with
  | O => []
  | S f => if (cur =? start)%nat then [] else cur :: ring_from f next start (next cur)
  end.
Definition ring (s : sched) (next : nat -> nat) (start : nat) : list nat :=
  start :: ring_from (size (sc_cpus s)) next start (next start).

Definition core_of (s : sched) (ci : nat) : list nat := ring s (fun c => ci_sib_core (ciof s c)) ci.
Definition core_siblings (s : sched) (ci : nat) : list nat := tail (core_of s ci).
Definition package_of (s : sched) (ci : nat) : list nat := ring s (fun c => ci_sib_package (ciof s c)) ci.

(** All CPUs, package by package, the pivot's package first. *)
Definition all_cpus (s : sched) (pivot : nat) : list nat :=
  concat (map (package_of s)
    (ring s (fun c => ci_sib_package1st (ciof s c)) (ci_package1st (ciof s pivot)))).

(** ** Migration *)

Definition lwp_cache_hot (e : senv) (s : sched) (l : lwp) : bool :=
  if l_stat l =? LSIDL then true
  else if nz (l_slptime l) || (l_rticks l =? 0) then false
  else u32 (v_ticks e - l_rticks l) <? u32 (mstohz (cacheht_time s)).

Definition sched_migratable (s : sched) (l : lwp) (ci : nat) : bool :=
  let k := ciof s ci in
  if spc_offline k then false
  else match l_affinity l with
       | Some a => bool_decide (ci ∈ a)
       | None => spc_psid k =? l_psid l
       end.

Definition sched_nextpkg (e : senv) (s : sched) : nat * sched :=
  let n := ci_sib_package1st (ciof s (spc_nextpkg (ciof s (v_self e)))) in
  (n, on_ci (v_self e) (set_spc_nextpkg n) s).

Definition cpu_pri (s : sched) (ci : nat) : Z :=
  Z.max (spc_curpriority (ciof s ci)) (spc_maxpriority (ciof s ci)).

Fixpoint bestcpu_scan (s : sched) (l : lwp) (cpus : list nat) (best : nat) (bestpri : Z) : nat :=
  match cpus with
  | [] => best
  | cur :: cpus =>
      if negb (sched_migratable s l cur) then bestcpu_scan s l cpus best bestpri
      else if cpu_is_idle_1stclass (ciof s cur) then cur
      else
        let curpri := cpu_pri s cur in
        if bestpri <? curpri then bestcpu_scan s l cpus best bestpri
        else if (curpri =? bestpri) &&
                (cpu_is_better (ciof s best) (ciof s cur) ||
                 (spc_count (ciof s best) <? spc_count (ciof s cur)))
        then bestcpu_scan s l cpus best bestpri
        else bestcpu_scan s l cpus cur curpri
  end.

Definition sched_bestcpu (s : sched) (l : lwp) (pivot : nat) : nat :=
  bestcpu_scan s l (all_cpus s pivot) pivot
    (if sched_migratable s l pivot then cpu_pri s pivot else PRI_COUNT).

(** ** lpsched packing *)

Definition lpsched_exempt (e : senv) (l : lwp) (s : sched) : bool * sched :=
  let s := stat e LPSCHED_ST_CONSIDERED s in
  let lp := sc_lp s in
  if negb (bool_decide (l_class l = SCHED_OTHER)) then (true, stat e LPSCHED_ST_EXEMPT_CLASS s)
  else if nz (lpsched_fgpid lp) && (l_pid l =? lpsched_fgpid lp)
  then (true, stat e LPSCHED_ST_EXEMPT_FG s)
  else if (0 <? lpsched_estcpu_thresh lp) &&
          (Z.shiftr (l_estcpu l) LPSCHED_ESTCPU_SHIFT <? lpsched_estcpu_thresh lp)
  then (true, stat e LPSCHED_ST_EXEMPT_ESTCPU s)
  else (false, s).

(** The walk over the siblings of a core; [cost] is -1 or 0 so far. *)
Fixpoint wake_cost_scan (e : senv) (ci : nat) (sibs : list nat) (cost : Z) (s : sched) : Z * sched :=
  match sibs with
  | [] => (if cost =? 0 then 0 else 1 + lpsched_idle_depth (sc_lp s) ci, s)
  | t :: sibs =>
      if spc_idle (ciof s t) then wake_cost_scan e ci sibs cost s
      else if lpsched_accounting (sc_lp s) && nz (critical (lp_cpu (sc_lp s) !!! t))
      then (1 + LPSCHED_IDLE_SHALLOW, stat e LPSCHED_ST_PACK_GUARD s)
      else wake_cost_scan e ci sibs 0 s
  end.

Definition lpsched_wake_cost (e : senv) (ci : nat) (s : sched) : Z * sched :=
  wake_cost_scan e ci (core_siblings s ci) (-1) s.

Definition lpsched_same_core (s : sched) (a b : nat) : bool :=
  (a =? b)%nat || existsb (Nat.eqb b) (core_siblings s a).

Definition lpsched_is_packed (s : sched) (ci : nat) : bool :=
  existsb (fun t => negb (spc_idle (ciof s t))) (core_siblings s ci).

(** The first pass: the cheapest idle CPU. *)
Fixpoint pack_idle_scan (e : senv) (l : lwp) (cpus : list nat) (best : option nat) (bestcost : Z)
    (s : sched) : option nat * Z * sched :=
  match cpus with
  | [] => (best, bestcost, s)
  | ci :: cpus =>
      if negb (sched_migratable s l ci) || negb (spc_idle (ciof s ci))
      then pack_idle_scan e l cpus best bestcost s
      else
        let '(cost, s) := lpsched_wake_cost e ci s in
        if (cost <? bestcost) || ((cost =? bestcost) && (ci =? l_cpu l)%nat)
        then pack_idle_scan e l cpus (Some ci) cost s
        else pack_idle_scan e l cpus best bestcost s
  end.

(** The second pass, with pack >= 2: an awake CPU with an empty run queue. *)
Fixpoint pack_busy_scan (e : senv) (l : lwp) (cpus : list nat) (s : sched) : option nat * sched :=
  match cpus with
  | [] => (None, s)
  | ci :: cpus =>
      let k := ciof s ci in
      if negb (sched_migratable s l ci) || spc_idle k || negb (spc_count k =? 0) ||
         (MAXPRI_USER <? spc_curpriority k)
      then pack_busy_scan e l cpus s
      else
        let pc := lp_cpu (sc_lp s) !!! ci in
        if lpsched_accounting (sc_lp s) &&
           (nz (critical pc) || (cur_burst_us pc =? 0) ||
            (u32 (lpsched_wait_budget_us (sc_lp s)) <? cur_burst_us pc))
        then pack_busy_scan e l cpus (stat e LPSCHED_ST_PACK_LONGBURST s)
        else (Some ci, stat e LPSCHED_ST_PACK_BUSY s)
  end.

Definition lpsched_pack_pick (e : senv) (l : lwp) (pivot : nat) (s : sched) : option nat * sched :=
  let cpus := all_cpus s pivot in
  let '(best, bestcost, s) := pack_idle_scan e l cpus None INT_MAX s in
  let last s :=
    match best with
    | None => (best, stat e LPSCHED_ST_PACK_NONE s)
    | Some _ => (best, stat e (if 1 + LPSCHED_IDLE_SHALLOW <? bestcost
                               then LPSCHED_ST_PACK_DEEP else LPSCHED_ST_PACK_SHALLOW) s)
    end in
  if negb (bool_decide (best = None)) && (bestcost =? 0)
  then (best, stat e LPSCHED_ST_PACK_SIBLING s)
  else if 2 <=? lpsched_pack (sc_lp s) then
    match pack_busy_scan e l cpus s with
    | (Some ci, s) => (Some ci, s)
    | (None, s) => last s
    end
  else last s.

Definition lpsched_min_catch (e : senv) (local remote : nat) (s : sched) : Z * sched :=
  if negb (lpsched_packing (sc_lp s)) then (min_catch s, s)
  else if MAXPRI_USER <? spc_maxpriority (ciof s remote) then (min_catch s, s)
  else
    let '(overdue, s) :=
      if lpsched_accounting (sc_lp s) then
        let '(o, lp) := lpsched_queue_overdue (v_freq e) (v_now e) remote (sc_lp s) in
        (o, set_sc_lp lp s)
      else (false, s) in
    if overdue then (min_catch s, stat e LPSCHED_ST_CATCH_ESCAPE s)
    else if existsb (fun t => negb (spc_idle (ciof s t))) (core_siblings s local)
    then (min_catch s, s)
    else
      let raised := u32 (min_catch s + lpsched_pack (sc_lp s)) in
      let have := spc_mcount (ciof s remote) in
      (raised, if (0 <? have) && (have <? raised) then stat e LPSCHED_ST_CATCH_HELD s else s).

(** ** sched_takecpu *)

Definition find_type (s : sched) (l : lwp) (want : bool * bool) (ci : nat) : option nat :=
  List.find (fun t => cpu_is_type (ciof s t) want && sched_migratable s l t) (core_of s ci).

(** Below the packing: the placement of the stock scheduler. *)
Definition takecpu_rest (e : senv) (s : sched) (l : lwp) (want : bool * bool) : nat :=
  let ci := l_cpu l in
  match find_type s l want ci with
  | Some t => t
  | None =>
      if sched_migratable s l ci &&
         ((spc_curpriority (ciof s ci) <? lwp_eprio l) ||
          (lwp_cache_hot e s l && bool_decide (l_class l = SCHED_OTHER)))
      then ci
      else match find_type s l want (v_self e) with
           | Some t => t
           | None => sched_bestcpu s l (l_cpu l)
           end
  end.

Definition takecpu_stock (e : senv) (l : nat) (s : sched) : nat * sched :=
  let lw := lof s l in
  let cur := lof s (v_curlwp e) in
  if l_stat lw =? LSIDL then
    if l_vforkwaiting cur && bool_decide (l_class lw = SCHED_OTHER) then
      if sched_migratable s lw (l_cpu cur) &&
         (spc_maxpriority (ciof s (l_cpu cur)) <? lwp_eprio lw)
      then (l_cpu cur, s)
      else (takecpu_rest e s lw (true, false), s)
    else
      let '(pkg, s) := sched_nextpkg e s in (sched_bestcpu s lw pkg, s)
  else (takecpu_rest e s lw (true, true), s).

Definition sched_takecpu (e : senv) (l : nat) (s : sched) : nat * sched :=
  let lw := lof s l in
  if has_flag (l_pflag lw) LP_BOUND then (l_cpu lw, s)
  else if lpsched_packing (sc_lp s) then
    let '(exempt, s) := lpsched_exempt e lw s in
    if exempt then takecpu_stock e l s
    else match lpsched_pack_pick e lw (l_cpu lw) s with
         | (Some t, s) => (t, s)
         | (None, s) => takecpu_stock e l s
         end
  else takecpu_stock e l s.

(** ** Stealing *)

(** The first LWP of the queue that may move to [cur]. *)
Definition catch_candidate (e : senv) (s : sched) (gentle : bool) (cur : nat) (q : list nat) : option nat :=
  List.find (fun l => negb (has_flag (l_pflag (lof s l)) LP_BOUND ||
                            (gentle && lwp_cache_hot e s (lof s l)) ||
                            negb (sched_migratable s (lof s l) cur))) q.

Definition move_lwp (e : senv) (l : nat) (to : nat) (s : sched) : option sched :=
  sched_enqueue e l (on_lwp l (set_l_cpu to) (sched_dequeue l s)).

(** [None]: panic in sched_enqueue. *)
Definition sched_catchlwp (e : senv) (ci : nat) (s : sched) : option (option nat * sched) :=
  let cur := v_self e in
  let gentle := negb (cpu_is_better (ciof s cur) (ciof s ci)) in
  let '(need, s) := if gentle then lpsched_min_catch e cur ci s else (1, s) in
  let k := ciof s ci in
  if (spc_mcount k <? need) || negb (spc_psid (ciof s cur) =? spc_psid k) then Some (None, s)
  else
    match catch_candidate e s gentle cur (sched_getrq k (spc_maxpriority k)) with
    | None => Some (None, s)
    | Some l => s ← move_lwp e l cur s; Some (Some l, s)
    end.

Definition sched_steal (e : senv) (ci tci : nat) (s : sched) : option (bool * sched) :=
  if negb (spc_mcount (ciof s tci) =? 0) && (spc_psid (ciof s ci) =? spc_psid (ciof s tci))
  then '(l, s) ← sched_catchlwp e tci s; Some (negb (bool_decide (l = None)), s)
  else Some (false, s).

(** Outcome of sched_idle_migrate(). *)
Inductive migrated := Pushed (tci : nat) | NotPushed | RetriesExhausted.

(** [lock n]: whether the target's queue is locked at the [n]th turn without
    dropping ours; [gap n]: what other CPUs do while it was dropped. *)
Fixpoint idle_migrate_loop (lock : nat -> bool) (gap : nat -> sched -> sched) (fuel : nat)
    (e : senv) (dlock : option nat) (s : sched) : option (migrated * sched) :=
  match fuel with
  | O => Some (RetriesExhausted, s)
  | S f =>
      let ci := v_self e in
      match spc_migrating (ciof s ci) with
      | None => Some (NotPushed, s)
      | Some l =>
          let dlock := if bool_decide (dlock = l_target_cpu (lof s l)) then dlock else None in
          match l_target_cpu (lof s l) with
          | None => Some (NotPushed, on_lwp l (set_l_target_cpu None) (on_ci ci (set_spc_migrating None) s))
          | Some tci =>
              if (tci =? ci)%nat
              then Some (NotPushed, on_lwp l (set_l_target_cpu None) (on_ci ci (set_spc_migrating None) s))
              else if bool_decide (dlock = None) && negb (lock f)
              then idle_migrate_loop lock gap f e (Some tci) (gap f s)
              else
                let s := on_lwp l (set_l_target_cpu None) (on_ci ci (set_spc_migrating None) s) in
                s ← move_lwp e l tci s;
                Some (Pushed tci, (sched_resched_lwp e l s).2)
          end
      end
  end.

Definition sched_idle_migrate (lock : nat -> bool) (gap : nat -> sched -> sched) (fuel : nat)
    (e : senv) (s : sched) : option (migrated * sched) :=
  idle_migrate_loop lock gap fuel e None s.

(** [mci]: the CPU sched_idle() just pushed an LWP to. *)
Definition idle_push (lock : nat -> bool) (gap : nat -> sched -> sched) (fuel : nat)
    (e : senv) (s : sched) : option (option nat * sched) :=
  match spc_migrating (ciof s (v_self e)) with
  | Some _ =>
      match sched_idle_migrate lock gap fuel e s with
      | Some (Pushed t, s) => Some (Some t, s)
      | Some (_, s) => Some (None, s)
      | None => None
      end
  | None => Some (None, s)
  end.

(** The SMT siblings, then every CPU. *)
Fixpoint steal_siblings (e : senv) (mci : option nat) (sibs : list nat) (s : sched) : option (bool * sched) :=
  match sibs with
  | [] => Some (false, s)
  | t :: sibs =>
      if bool_decide (mci = Some t) then steal_siblings e mci sibs s
      else match sched_steal e (v_self e) t s with
           | Some (true, s) => Some (true, s)
           | Some (false, s) => steal_siblings e mci sibs s
           | None => None
           end
  end.

Fixpoint steal_anywhere (e : senv) (mci : option nat) (cpus : list nat) (s : sched) : option sched :=
  match cpus with
  | [] => Some s
  | inner :: cpus =>
      let ci := v_self e in
      if (ci =? inner)%nat || bool_decide (mci = Some ci) ||
         negb (spc_psid (ciof s ci) =? spc_psid (ciof s inner))
      then steal_anywhere e mci cpus s
      else
        let have := spc_mcount (ciof s inner) in
        let '(need, s) := lpsched_min_catch e ci inner s in
        if have <? need then steal_anywhere e mci cpus s
        else
          match sched_catchlwp e inner s with
          | Some (Some _, s) => Some s
          | Some (None, s) => steal_anywhere e mci cpus s
          | None => None
          end
  end.

Definition sched_idle (lock : nat -> bool) (gap : nat -> sched -> sched) (fuel : nat)
    (e : senv) (s : sched) : option sched :=
  let ci := v_self e in
  match idle_push lock gap fuel e s with
  | None => None
  | Some (mci, s) =>
      if spc_offline (ciof s ci) || negb (spc_count (ciof s ci) =? 0) then Some s
      else
        let smt := 1 <? ci_nsibling_core (ciof s ci) in
        match (if smt then steal_siblings e mci (core_siblings s ci) s else Some (false, s)) with
        | None => None
        | Some (true, s) => Some s
        | Some (false, s) =>
            if smt && negb (spc_1stclass (ciof s ci)) && (spc_psid (ciof s ci) =? PS_NONE)
            then Some s
            else if v_ticks e <? spc_nextskim (ciof s ci) then Some s
            else
              let s := on_ci ci (set_spc_nextskim (i32 (v_ticks e + mstohz (skim_interval s)))) s in
              steal_anywhere e mci (all_cpus s ci) s
        end
  end.

(** ** Preempted LWPs *)

Definition sched_preempted (e : senv) (l : nat) (s : sched) : sched :=
  let lw := lof s l in
  let ci := l_cpu lw in
  let teleport := has_flag (l_pflag lw) LP_TELEPORT in
  let untele l := set_l_pflag (clr_flag (l_pflag l) LP_TELEPORT) l in
  if negb (bool_decide (l_target_cpu lw = None)) ||
     (cpu_is_1stclass (ciof s ci) && negb teleport) then s
  else
    match List.find (fun t => cpu_is_idle_1stclass (ciof s t) && sched_migratable s lw t)
            (core_siblings s ci) with
    | Some t => on_lwp l (fun l => untele (set_l_target_cpu (Some t) l)) s
    | None =>
        if teleport then
          let s := on_lwp l untele s in
          let '(pkg, s) := sched_nextpkg e s in
          let t := sched_bestcpu s (lof s l) pkg in
          if (t =? ci)%nat then s else on_lwp l (set_l_target_cpu (Some t)) s
        else
          let t := sched_bestcpu s lw ci in
          if negb (t =? ci)%nat && cpu_is_idle_1stclass (ciof s t) then
            if lpsched_packing (sc_lp s) && negb (lpsched_same_core s ci t) && lpsched_is_packed s ci
            then
              let '(exempt, s) := lpsched_exempt e lw s in
              if exempt then on_lwp l (set_l_target_cpu (Some t)) s
              else stat e LPSCHED_ST_PACK_HELD s
            else on_lwp l (set_l_target_cpu (Some t)) s
          else s
    end.

(** sched_vforkexec(): the result says whether preempt() is called. *)
Definition sched_vforkexec (l : nat) (samecpu : bool) (ncpu : Z) (s : sched) : bool * sched :=
  if (samecpu && (1 <? ncpu)) || negb (cpu_is_1stclass (ciof s (l_cpu (lof s l))))
  then (true, on_lwp l (fun l => set_l_pflag (set_flag (l_pflag l) LP_TELEPORT) l) s)
  else (false, s).

(** ** Statistics and the mill *)

Definition lwp_stats (l : lwp) : lwp :=
  let l := if (l_stat l =? LSSLEEP) || (l_stat l =? LSSTOP) || (l_stat l =? LSSUSPENDED)
           then set_l_slptime (u32 (l_slptime l + 1)) l else l in
  let batch := l_slpticksum l <? l_rticksum l in
  let '(batch, l) :=
    if batch
    then (if has_flag (l_flag l) LW_BATCH then 1 else 0, set_l_flag (set_flag (l_flag l) LW_BATCH) l)
    else (0, set_l_flag (clr_flag (l_flag l) LW_BATCH) l) in
  sched_pstats_hook (set_l_rticksum 0 (set_l_slpticksum 0 l)) batch.

Definition sched_lwp_stats (l : nat) (s : sched) : sched := on_lwp l lwp_stats s.

Definition account_switch (e : senv) (prev : nat) (next : option nat) (s : sched) : sched :=
  if lpsched_accounting (sc_lp s)
  then let '(h, lp) := lpsched_switch (v_freq e) (v_now e) (v_self e) (Some prev) next
                         (sc_lwps s, sc_lp s) in
       set_sc_lp lp (set_sc_lwps h s)
  else s.

Definition sched_nextlwp (e : senv) (s : sched) : option nat * sched :=
  let cur := v_curlwp e in
  let s := on_lwp cur (fun l => set_l_rticksum
             (u32 (l_rticksum l + u32 (v_ticks e - l_rticks l))) l) s in
  let k := ciof s (v_self e) in
  match spc_migrating k with
  | Some _ => (None, account_switch e cur None s)
  | None =>
      if spc_count k =? 0 then (None, account_switch e cur None s)
      else
        let next := head (sched_getrq k (spc_maxpriority k)) in
        let s := account_switch e cur next s in
        (next, match next with
               | Some l => on_lwp l (fun l => set_l_rticks (u32 (v_ticks e)) (sched_oncpu l)) s
               | None => s
               end)
  end.

(** [fast]: __HAVE_FAST_SOFTINTS; [softints]: ci_data.cpu_softints. *)
Definition sched_curcpu_runnable_p (e : senv) (fast : bool) (softints : Z) (s : sched) : bool :=
  negb (spc_count (ciof s (v_self e)) =? 0) || (negb fast && nz softints).

(** ** sysctl kern.sched: generic handlers on the variables *)

Inductive sched_var := V_cacheht_time | V_skim_interval | V_min_catch | V_softint_timing
  | V_kpreempt_pri.

Definition sysctl_sched_setup : list (sysctl_node unit sched_var) :=
  [mk_node true true CTLTYPE_INT "cacheht_time" None (Some V_cacheht_time);
   mk_node true true CTLTYPE_INT "skim_interval" None (Some V_skim_interval);
   mk_node true true CTLTYPE_INT "min_catch" None (Some V_min_catch);
   mk_node true true CTLTYPE_INT "timesoftints" None (Some V_softint_timing);
   mk_node true true CTLTYPE_INT "kpreempt_pri" None (Some V_kpreempt_pri)]%string.

End runq.
