(* ===== verification/RunqInv.v ===== *)
(** * The run queue invariant

    The bitmap has a bit for exactly the non-empty queues, [spc_maxpriority]
    is the highest of them, the counters count.  Enqueuing and dequeuing keep
    this, so [sched_nextlwp] runs the first LWP of the highest queue. *)

From stdpp Require Import base numbers list gmap strings.
From S2P Require Import Prelude Text Sysctl Lwp Lpsched Runq.

(** ** Bits *)

Section bits.

Lemma bit_of_eq p : bit_of p = 2 ^ (31 - p mod 32).
Proof.
  unfold bit_of, BITMAP_MSB, BITMAP_MASK, BITMAP_BITS. change (32 - 1) with (Z.ones 5).
  rewrite Z.land_ones by lia. change (2 ^ 5) with 32. change 0x80000000 with (2 ^ 31).
  pose proof (Z.mod_pos_bound p 32 ltac:(lia)). rewrite Z.shiftr_div_pow2 by lia.
  rewrite Z.pow_sub_r by lia. done.
Qed.

Lemma word_of_eq p : word_of p = Z.to_nat (p / 32).
Proof. unfold word_of, BITMAP_SHIFT. rewrite Z.shiftr_div_pow2 by lia. done. Qed.

(** The bit of priority [p]. *)
Definition marked (bm : list Z) (p : Z) : bool := Z.testbit (bm !!! word_of p) (31 - p mod 32).

Lemma marked_mark bm p p' : (word_of p < length bm)%nat -> 0 <= p -> 0 <= p' ->
  marked (alter (fun w => Z.lor w (bit_of p)) (word_of p) bm) p' = (p =? p') || marked bm p'.
Proof.
  intros Hl Hp Hp'. unfold marked. rewrite bit_of_eq.
  pose proof (Z.mod_pos_bound p 32 ltac:(lia)). pose proof (Z.mod_pos_bound p' 32 ltac:(lia)).
  destruct (decide (word_of p = word_of p')) as [E|Hne].
  - rewrite <-E, list_lookup_total_alter_eq by done. rewrite Z.lor_spec, Z.pow2_bits_eqb, orb_comm by lia.
    f_equal. rewrite !word_of_eq in E.
    assert (p / 32 = p' / 32) as E' by (pose proof (Z.div_pos p 32); pose proof (Z.div_pos p' 32); lia).
    pose proof (Z.div_mod p 32). pose proof (Z.div_mod p' 32).
    destruct (Z.eqb_spec (31 - p mod 32) (31 - p' mod 32)), (Z.eqb_spec p p'); try done; lia.
  - rewrite list_lookup_total_alter_ne by done. destruct (Z.eqb_spec p p'); [congruence|done].
Qed.

Lemma marked_unmark bm p p' : (word_of p < length bm)%nat -> 0 <= p -> 0 <= p' ->
  marked (alter (fun w => clr_flag w (bit_of p)) (word_of p) bm) p' = negb (p =? p') && marked bm p'.
Proof.
  intros Hl Hp Hp'. unfold marked. rewrite bit_of_eq.
  pose proof (Z.mod_pos_bound p 32 ltac:(lia)). pose proof (Z.mod_pos_bound p' 32 ltac:(lia)).
  destruct (decide (word_of p = word_of p')) as [E|Hne].
  - rewrite <-E, list_lookup_total_alter_eq by done. unfold clr_flag.
    rewrite Z.land_spec, Z.lnot_spec, Z.pow2_bits_eqb, andb_comm by lia. f_equal. f_equal.
    rewrite !word_of_eq in E.
    assert (p / 32 = p' / 32) as E' by (pose proof (Z.div_pos p 32); pose proof (Z.div_pos p' 32); lia).
    pose proof (Z.div_mod p 32). pose proof (Z.div_mod p' 32).
    destruct (Z.eqb_spec (31 - p mod 32) (31 - p' mod 32)), (Z.eqb_spec p p'); try done; lia.
  - rewrite list_lookup_total_alter_ne by done. destruct (Z.eqb_spec p p'); [congruence|done].
Qed.

Lemma mark_u32 w p : in_u32 w -> in_u32 (Z.lor w (bit_of p)).
Proof.
  intros [H1 H2]. rewrite bit_of_eq. pose proof (Z.mod_pos_bound p 32 ltac:(lia)). split.
  - apply Z.lor_nonneg. split; [lia|]. apply Z.pow_nonneg. lia.
  - destruct (decide (Z.lor w (2 ^ (31 - p mod 32)) = 0)) as [->|Hne]; [lia|].
    assert (0 <= Z.lor w (2 ^ (31 - p mod 32))) by (apply Z.lor_nonneg; split; [lia|apply Z.pow_nonneg; lia]).
    apply Z.log2_lt_pow2; [lia|]. rewrite Z.log2_lor by (lia || (apply Z.pow_nonneg; lia)).
    rewrite Z.log2_pow2 by lia. destruct (decide (w = 0)) as [->|]; [simpl; lia|].
    assert (Z.log2 w < 32) by (apply Z.log2_lt_pow2; lia). lia.
Qed.

Lemma unmark_u32 w p : in_u32 w -> in_u32 (clr_flag w (bit_of p)).
Proof.
  intros [H1 H2]. unfold clr_flag. split.
  - apply Z.land_nonneg. by left.
  - assert (Z.land w (Z.lnot (bit_of p)) <= w); [|lia].
    destruct (decide (w = 0)) as [->|]; [rewrite Z.land_0_l; lia|].
    rewrite <-Z.ldiff_land. apply Z.ldiff_le; [lia|].
    apply Z.bits_inj'. intros b Hb. rewrite Z.ldiff_spec, Z.ldiff_spec, Z.bits_0.
    by destruct (Z.testbit w b), (Z.testbit (bit_of p) b).
Qed.

(** ffs(3) finds the lowest bit. *)
Lemma ffs_from_spec f i x : 0 <= i ->
  (exists j, i <= j < i + Z.of_nat f /\ ffs_from f i x = j + 1 /\ Z.testbit x j = true /\
     forall j', i <= j' < j -> Z.testbit x j' = false) \/
  (ffs_from f i x = 0 /\ forall j, i <= j < i + Z.of_nat f -> Z.testbit x j = false).
Proof.
  revert i. induction f as [|f IH]; intros i Hi; cbn [ffs_from]; [right; split; [done|lia]|].
  destruct (Z.testbit x i) eqn:E.
  - left. exists i. split; [lia|]. repeat split; auto. lia.
  - destruct (IH (i + 1) ltac:(lia)) as [(j & H1 & H2 & H3 & H4)|[H1 H2]].
    + left. exists j. split; [lia|]. split; [done|]. split; [done|]. intros j' Hj'.
      destruct (decide (j' = i)) as [->|]; [done|]. apply H4. lia.
    + right. split; [done|]. intros j Hj. destruct (decide (j = i)) as [->|]; [done|]. apply H2. lia.
Qed.

Lemma u32_bit x : in_u32 x -> x <> 0 -> exists j, 0 <= j < 32 /\ Z.testbit x j = true.
Proof.
  intros [H1 H2] Hne. exists (Z.log2 x). split.
  - split; [apply Z.log2_nonneg|apply Z.log2_lt_pow2; lia].
  - apply Z.bit_log2. lia.
Qed.

(** The highest marked priority of a word. *)
Lemma max_word bm i : in_u32 (bm !!! i) -> bm !!! i <> 0 ->
  let m := Z.shiftl (Z.of_nat i) BITMAP_SHIFT + (BITMAP_BITS - ffs (bm !!! i)) in
  m / 32 = Z.of_nat i /\ marked bm m = true /\
  (forall p, p / 32 = Z.of_nat i -> marked bm p = true -> p <= m).
Proof.
  intros Hw Ew. set (w := bm !!! i) in *. destruct (u32_bit w Hw Ew) as (j0 & Hj0 & Hbit).
  destruct (ffs_from_spec 32 0 w ltac:(lia)) as [(j & Hj & Ef & Hjb & Hjl)|[_ Hno]];
    [|rewrite Hno in Hbit by lia; done].
  unfold ffs. rewrite Ef. unfold BITMAP_BITS, BITMAP_SHIFT. rewrite Z.shiftl_mul_pow2 by lia.
  change (2 ^ 5) with 32. cbv zeta. set (m := Z.of_nat i * 32 + (32 - (j + 1))).
  assert (m / 32 = Z.of_nat i /\ m mod 32 = 31 - j) as [Hm1 Hm2] by (unfold m; split; zdm).
  split; [done|]. split.
  - unfold marked. rewrite word_of_eq, Hm1, Hm2, Nat2Z.id. by replace (31 - (31 - j)) with j by lia.
  - intros p Ep Hpm. unfold marked in Hpm. rewrite word_of_eq, Ep, Nat2Z.id in Hpm. fold w in Hpm.
    pose proof (Z.mod_pos_bound p 32 ltac:(lia)). pose proof (Z.div_mod p 32).
    destruct (Z_lt_le_dec (31 - p mod 32) j); [rewrite Hjl in Hpm by lia; done|]. unfold m. lia.
Qed.

Lemma marked_zero_word bm i p : bm !!! i = 0 -> p / 32 = Z.of_nat i -> marked bm p = false.
Proof. intros Ew Ep. unfold marked. by rewrite word_of_eq, Ep, Nat2Z.id, Ew, Z.bits_0. Qed.

(** [m] is the highest marked priority below [n], or 0 if none is. *)
Definition is_max (bm : list Z) (n m : Z) : Prop :=
  0 <= m < n /\ (forall p, 0 <= p < n -> marked bm p = true -> p <= m) /\
  (m = 0 \/ marked bm m = true).

Lemma max_scan_step bm i rest : in_u32 (bm !!! i) ->
  (bm !!! i = 0 -> is_max bm (32 * (Z.of_nat i + 1)) rest) ->
  is_max bm (32 * (Z.of_nat i + 1))
    (if negb (bm !!! i =? 0)
     then Z.shiftl (Z.of_nat i) BITMAP_SHIFT + (BITMAP_BITS - ffs (bm !!! i)) else rest).
Proof.
  intros Hw Hrest. destruct (Z.eqb_spec (bm !!! i) 0) as [Ew|Ew]; cbn [negb]; [by apply Hrest|].
  destruct (max_word bm i Hw Ew) as (Hm & Hmm & Hmax). set (m := Z.shiftl _ _ + _) in *.
  split; [zdm|]. split; [|by right]. intros p Hp Hpm.
  destruct (decide (p / 32 = Z.of_nat i)) as [Ep|Ep]; [by apply Hmax|zdm].
Qed.

(** The scan finds the highest marked priority of the words up to [i]. *)
Lemma max_scan_spec bm i : (i < length bm)%nat -> Forall in_u32 bm ->
  is_max bm (32 * (Z.of_nat i + 1)) (max_scan bm i).
Proof.
  intros Hi Hb. rewrite Forall_lookup in Hb.
  assert (forall j, (j < length bm)%nat -> in_u32 (bm !!! j)) as Hw.
  { intros j Hj. by apply (Hb j), list_lookup_lookup_total_lt. }
  induction i as [|i IH]; cbn [max_scan]; (apply max_scan_step; [by apply Hw|intros Ew]).
  - split; [lia|]. split; [|by left]. intros p Hp Hpm. exfalso.
    rewrite (marked_zero_word bm 0) in Hpm; [done|done|]. rewrite Z.div_small; [done|lia].
  - destruct (IH ltac:(lia)) as (H1 & H2 & H3). split; [lia|]. split; [|done].
    intros p Hp Hpm. apply H2; [|done]. split; [lia|].
    destruct (Z_lt_le_dec p (32 * (Z.of_nat i + 1))); [done|exfalso].
    rewrite (marked_zero_word bm (S i)) in Hpm; [done|done|]. zdm.
Qed.

End bits.

(** ** The invariant of one CPU's queues *)

Section inv.
Context `{M : Machine} `{P : SchedParams} `{!SchedParamsOk P}.

(** The bitmap and the highest priority describe the queues. *)
Record bits_inv (k : cpu_info) : Prop := {
  bi_len : length (spc_queue k) = npri;
  bi_words : length (spc_bitmap k) = nword;
  bi_u32 : Forall in_u32 (spc_bitmap k);
  bi_bits : forall p, 0 <= p < PRI_COUNT ->
    marked (spc_bitmap k) p = negb (bool_decide (sched_getrq k p = []));
  bi_range : 0 <= spc_maxpriority k < PRI_COUNT;
  bi_max : forall p, 0 <= p < PRI_COUNT -> sched_getrq k p <> [] -> p <= spc_maxpriority k;
  bi_top : spc_maxpriority k = 0 \/ sched_getrq k (spc_maxpriority k) <> []
}.

Definition on_runq (k : cpu_info) : list nat := concat (spc_queue k).
Definition is_bound (h : gmap nat lwp) (l : nat) : Prop := has_flag (l_pflag (h !!! l)) LP_BOUND = true.
#[global] Instance is_bound_dec h l : Decision (is_bound h l).
Proof. unfold is_bound. apply _. Defined.

(** The LWPs on the queues of CPU [ci], and how many they are. *)
Record lwps_inv (h : gmap nat lwp) (ci : nat) (k : cpu_info) : Prop := {
  li_nodup : NoDup (on_runq k);
  li_member : forall p l, 0 <= p < PRI_COUNT -> l ∈ sched_getrq k p ->
    exists lw, h !! l = Some lw /\ l_cpu lw = ci /\ lwp_eprio lw = p;
  li_count : spc_count k = u32 (Z.of_nat (length (on_runq k)));
  li_mcount : spc_mcount k = u32 (Z.of_nat (length (filter (fun l => ~ is_bound h l) (on_runq k))))
}.

Lemma npri_words : npri = (32 * nword)%nat /\ Z.of_nat npri = PRI_COUNT.
Proof.
  pose proof pri_count_pos. pose proof pri_count_words as Hw. unfold npri, nword, BITMAP_BITS in *.
  pose proof (Z.div_mod PRI_COUNT 32). lia.
Qed.

Lemma word_of_lt p : 0 <= p < PRI_COUNT -> (word_of p < nword)%nat.
Proof.
  intros Hp. rewrite word_of_eq. destruct npri_words.
  assert (p / 32 < Z.of_nat nword) by (apply Z.div_lt_upper_bound; lia).
  pose proof (Z.div_pos p 32). lia.
Qed.

(** Changing one queue, seen through [sched_getrq]. *)
Lemma getrq_alter k f p p' : length (spc_queue k) = npri -> 0 <= p < PRI_COUNT -> 0 <= p' < PRI_COUNT ->
  sched_getrq (set_spc_queue (alter f (Z.to_nat p) (spc_queue k)) k) p' =
  if p =? p' then f (sched_getrq k p) else sched_getrq k p'.
Proof.
  intros Hl Hp Hp'. unfold sched_getrq. simpl. destruct npri_words.
  destruct (Z.eqb_spec p p') as [<-|Hne].
  - rewrite list_lookup_total_alter_eq by lia. done.
  - rewrite list_lookup_total_alter_ne by lia. done.
Qed.

Lemma put_nonempty pos l q : put pos l q <> [].
Proof. destruct pos; simpl; [done|]. by destruct q. Qed.

(** The fields an enqueue and a dequeue leave. *)
Lemma enqueue_fields l pri pos bound k :
  let k' := enqueue_cpu l pri pos bound k in
  spc_queue k' = alter (put pos l) (Z.to_nat pri) (spc_queue k) /\
  spc_bitmap k' = (if bool_decide (sched_getrq k pri = []) then spc_bitmap (mark_bit pri k) else spc_bitmap k) /\
  spc_maxpriority k' = Z.max (spc_maxpriority k) pri /\
  spc_count k' = u32 (spc_count k + 1) /\
  spc_mcount k' = (if bound then spc_mcount k else u32 (spc_mcount k + 1)).
Proof.
  cbv zeta. unfold enqueue_cpu. cbv zeta. case_bool_decide; destruct bound; cbn;
    (destruct (Z.ltb_spec (spc_maxpriority k) pri); repeat split; cbn; lia).
Qed.

Lemma dequeue_fields l pri bound k : length (spc_queue k) = npri -> 0 <= pri < PRI_COUNT ->
  let k' := dequeue_cpu l pri bound k in
  let empty := bool_decide (filter (fun x => x <> l) (sched_getrq k pri) = []) in
  spc_queue k' = alter (filter (fun x => x <> l)) (Z.to_nat pri) (spc_queue k) /\
  spc_bitmap k' = (if empty then spc_bitmap (unmark_bit pri k) else spc_bitmap k) /\
  spc_maxpriority k' = (if empty && (pri =? spc_maxpriority k)
    then max_scan (spc_bitmap (unmark_bit pri k)) (word_of pri) else spc_maxpriority k) /\
  spc_count k' = u32 (spc_count k - 1) /\
  spc_mcount k' = (if bound then spc_mcount k else u32 (spc_mcount k - 1)).
Proof.
  intros Hl Hp. cbv zeta.
  assert (forall k1, spc_queue k1 = alter (filter (fun x => x <> l)) (Z.to_nat pri) (spc_queue k) ->
    sched_getrq k1 pri = filter (fun x => x <> l) (sched_getrq k pri)) as Hg.
  { intros k1 E. unfold sched_getrq. rewrite E.
    by rewrite list_lookup_total_alter_eq by (destruct npri_words; lia). }
  unfold dequeue_cpu. cbv zeta.
  destruct (bool_decide (spc_migrating k = Some l)), bound; cbn;
    (rewrite Hg by done; destruct (bool_decide (filter _ _ = [])); cbn;
     [destruct (pri =? spc_maxpriority k); done|done]).
Qed.

Lemma getrq_of k k' f p p' : spc_queue k' = alter f (Z.to_nat p) (spc_queue k) ->
  length (spc_queue k) = npri -> 0 <= p < PRI_COUNT -> 0 <= p' < PRI_COUNT ->
  sched_getrq k' p' = if p =? p' then f (sched_getrq k p) else sched_getrq k p'.
Proof. intros E Hl Hp Hp'. rewrite <-getrq_alter by done. unfold sched_getrq. by rewrite E. Qed.

Lemma enqueue_bits l pri pos bound k : bits_inv k -> 0 <= pri < PRI_COUNT ->
  bits_inv (enqueue_cpu l pri pos bound k).
Proof.
  intros [H1 H2 H3 H4 H5 H6 H7] Hp. pose proof (word_of_lt pri Hp) as Hw.
  destruct (enqueue_fields l pri pos bound k) as (Eq & Eb & Em & _ & _).
  set (k' := enqueue_cpu l pri pos bound k) in *. pose proof (fun p' => getrq_of k k' _ pri p' Eq H1 Hp) as Hq.
 
  assert (length (spc_bitmap k') = nword /\ Forall in_u32 (spc_bitmap k') /\ forall p, 0 <= p < PRI_COUNT ->
    marked (spc_bitmap k') p = (pri =? p) || marked (spc_bitmap k) p) as (B1 & B2 & B3).
  { rewrite Eb. case_bool_decide as He; simpl.
    - rewrite length_alter. split; [done|]. split.
      + apply Forall_alter; [done|]. intros w _. apply mark_u32.
      + intros p Hr. by rewrite marked_mark by (lia || by rewrite H2).
    - split; [done|]. split; [done|]. intros p Hr. destruct (Z.eqb_spec pri p) as [<-|]; [|done].
      by rewrite H4, bool_decide_false by done. }
  split; auto; [by rewrite Eq, length_alter|..].
  - intros p Hr. rewrite B3, Hq, H4 by done. destruct (Z.eqb_spec pri p); [|done].
    cbn [orb]. by rewrite bool_decide_false by apply put_nonempty.
  - rewrite Em. lia.
  - intros p Hr. rewrite Em, Hq by done. destruct (Z.eqb_spec pri p); [lia|].
    intros Hne. specialize (H6 p Hr Hne). lia.
  - rewrite Em, Hq by lia. destruct (Z.eqb_spec pri (spc_maxpriority k `max` pri)); [right; apply put_nonempty|].
    replace (spc_maxpriority k `max` pri) with (spc_maxpriority k) by lia. done.
Qed.

Lemma dequeue_bits l pri bound k : bits_inv k -> 0 <= pri < PRI_COUNT -> l ∈ sched_getrq k pri ->
  bits_inv (dequeue_cpu l pri bound k).
Proof.
  intros [H1 H2 H3 H4 H5 H6 H7] Hp Hin. pose proof (word_of_lt pri Hp) as Hw.
  destruct (dequeue_fields l pri bound k H1 Hp) as (Eq & Eb & Em & _ & _).
  set (k' := dequeue_cpu l pri bound k) in *. pose proof (fun p' => getrq_of k k' _ pri p' Eq H1 Hp) as Hq.
  set (q := filter _ (sched_getrq k pri)) in *.
  assert (length (spc_bitmap k') = nword /\ Forall in_u32 (spc_bitmap k') /\ forall p, 0 <= p < PRI_COUNT ->
    marked (spc_bitmap k') p = negb (bool_decide (sched_getrq k' p = []))) as (B1 & B2 & B3).
  { rewrite Eb. destruct (bool_decide (q = [])) eqn:Ee; simpl.
    - rewrite length_alter. split; [done|]. split.
      + apply Forall_alter; [done|]. intros w _. apply unmark_u32.
      + intros p Hr. rewrite marked_unmark, H4, Hq by (lia || by rewrite H2).
        destruct (Z.eqb_spec pri p); [|done]. by rewrite Ee.
    - split; [done|]. split; [done|]. intros p Hr. rewrite H4, Hq by done.
      destruct (Z.eqb_spec pri p) as [<-|]; [|done]. rewrite Ee.
      rewrite bool_decide_false; [done|]. intros E. rewrite E in Hin. by apply elem_of_nil in Hin. }
  assert (forall p, 0 <= p < PRI_COUNT -> marked (spc_bitmap k') p = true <-> sched_getrq k' p <> []) as B4.
  { intros p Hr. rewrite B3 by done. rewrite negb_true_iff. apply bool_decide_eq_false. }
  assert (forall p, 0 <= p < PRI_COUNT -> sched_getrq k' p <> [] -> p <= spc_maxpriority k) as Hle.
  { intros p Hr Hne. apply H6; [done|]. intros E. apply Hne. rewrite Hq by done.
    destruct (Z.eqb_spec pri p) as [<-|]; [|done]. unfold q. by rewrite E. }
  assert (pri <= spc_maxpriority k) as Hpm.
  { apply H6; [done|]. intros E. rewrite E in Hin. by apply elem_of_nil in Hin. }
  assert (0 <= spc_maxpriority k' < PRI_COUNT /\
    (forall p, 0 <= p < PRI_COUNT -> sched_getrq k' p <> [] -> p <= spc_maxpriority k') /\
    (spc_maxpriority k' = 0 \/ sched_getrq k' (spc_maxpriority k') <> [])) as (M1 & M2 & M3).
  { rewrite Em. destruct (bool_decide (q = [])) eqn:Ee; cbn [andb] in *.
    2:{ split; [done|]. split; [done|]. rewrite Hq by done.
        destruct (Z.eqb_spec pri (spc_maxpriority k)); [|done]. right.
        by apply bool_decide_eq_false in Ee. }
    destruct (Z.eqb_spec pri (spc_maxpriority k)) as [Epm|Hne].
    2:{ split; [done|]. split; [done|]. rewrite Hq by done. by destruct (Z.eqb_spec pri (spc_maxpriority k)). }
    rewrite <-Eb. destruct (max_scan_spec (spc_bitmap k') (word_of pri)) as (S1 & S2 & S3);
      [by rewrite B1|done|]. set (m := max_scan _ _) in *.
    assert (pri < 32 * (Z.of_nat (word_of pri) + 1) <= PRI_COUNT) as Hpw.
    { rewrite word_of_eq in *. destruct npri_words. pose proof (Z.div_pos pri 32).
      rewrite Z2Nat.id by lia. zdm. }
    split; [lia|]. split.
    - intros p Hr Hne. apply S2; [|by apply B4]. specialize (Hle p Hr Hne). lia.
    - destruct S3 as [?|S3]; [by left|right]. apply B4; [lia|done]. }
  split; auto. by rewrite Eq, length_alter.
Qed.

(** ** The LWPs on the queues *)

Lemma concat_alter_add {A} (f : list A -> list A) (a : list A) i (ls : list (list A)) : (i < length ls)%nat ->
  f (ls !!! i) ≡ₚ a ++ (ls !!! i) -> concat (alter f i ls) ≡ₚ a ++ concat ls.
Proof.
  revert i. induction ls as [|q ls IH]; intros [|i] Hi H; simpl in *; try lia.
  - rewrite H. by rewrite app_assoc.
  - etrans; [apply Permutation_app_head, IH; [lia|exact H]|].
    rewrite !app_assoc. apply Permutation_app_tail, Permutation_app_comm.
Qed.

Lemma concat_alter_sub {A} (f : list A -> list A) (a : list A) i (ls : list (list A)) : (i < length ls)%nat ->
  ls !!! i ≡ₚ a ++ f (ls !!! i) -> concat ls ≡ₚ a ++ concat (alter f i ls).
Proof.
  revert i. induction ls as [|q ls IH]; intros [|i] Hi H; simpl in *; try lia.
  - rewrite H at 1. by rewrite app_assoc.
  - etrans; [apply Permutation_app_head, (IH i); [lia|exact H]|].
    rewrite !app_assoc. apply Permutation_app_tail, Permutation_app_comm.
Qed.

Lemma put_perm pos l q : put pos l q ≡ₚ [l] ++ q.
Proof. destruct pos; simpl; [done|]. symmetry. apply Permutation_cons_append. Qed.

Lemma getrq_in_runq k p l : length (spc_queue k) = npri -> 0 <= p < PRI_COUNT ->
  l ∈ sched_getrq k p -> l ∈ on_runq k.
Proof.
  intros Hl Hp Hin. destruct npri_words. unfold on_runq, sched_getrq in *.
  apply list_elem_of_In, in_concat. exists (spc_queue k !!! Z.to_nat p).
  split; [|by apply list_elem_of_In]. apply list_elem_of_In, list_elem_of_lookup.
  exists (Z.to_nat p). apply list_lookup_lookup_total_lt. lia.
Qed.

Lemma runq_getrq k l : length (spc_queue k) = npri -> l ∈ on_runq k ->
  exists p, 0 <= p < PRI_COUNT /\ l ∈ sched_getrq k p.
Proof.
  intros Hl Hin. destruct npri_words. unfold on_runq in Hin.
  apply list_elem_of_In, in_concat in Hin as (q & Hq & Hin).
  apply list_elem_of_In, list_elem_of_lookup in Hq as [i Hi]. exists (Z.of_nat i).
  pose proof (lookup_lt_Some _ _ _ Hi). split; [lia|]. unfold sched_getrq.
  rewrite Nat2Z.id, (list_lookup_total_correct _ _ _ Hi). by apply list_elem_of_In.
Qed.

Lemma queue_nodup k p : length (spc_queue k) = npri -> 0 <= p < PRI_COUNT ->
  NoDup (on_runq k) -> NoDup (sched_getrq k p).
Proof.
  intros Hl Hp Hd. destruct npri_words. unfold on_runq, sched_getrq in *.
  rewrite (concat_alter_sub (fun _ => []) (spc_queue k !!! Z.to_nat p) (Z.to_nat p)) in Hd;
    [|lia|by rewrite app_nil_r].
  by apply NoDup_app in Hd as [? _].
Qed.

Lemma filter_ne_perm (l : nat) q : NoDup q -> l ∈ q -> q ≡ₚ [l] ++ filter (fun x => x <> l) q.
Proof.
  intros Hd Hin. apply NoDup_Permutation; [done| |].
  - apply NoDup_cons. split; [|by apply NoDup_filter]. rewrite list_elem_of_filter. tauto.
  - intros x. simpl. rewrite elem_of_cons, list_elem_of_filter. destruct (decide (x = l)) as [->|]; [|tauto].
    split; auto.
Qed.

Lemma u32_succ n : u32 (u32 (Z.of_nat n) + 1) = u32 (Z.of_nat (S n)).
Proof. unfold u32. zdm. Qed.
Lemma u32_pred n : u32 (u32 (Z.of_nat (S n)) - 1) = u32 (Z.of_nat n).
Proof. unfold u32. zdm. Qed.

Lemma is_bound_flag h l lw : h !! l = Some lw -> is_bound h l <-> has_flag (l_pflag lw) LP_BOUND = true.
Proof. intros Hl. unfold is_bound. by rewrite (lookup_total_correct _ _ _ Hl). Qed.

(** An LWP that joins the queues of its CPU. *)
Lemma enqueue_lwps h ci l lw pos k : bits_inv k -> lwps_inv h ci k ->
  h !! l = Some lw -> l_cpu lw = ci -> 0 <= lwp_eprio lw < PRI_COUNT -> l ∉ on_runq k ->
  let k' := enqueue_cpu l (lwp_eprio lw) pos (has_flag (l_pflag lw) LP_BOUND) k in
  lwps_inv h ci k' /\ on_runq k' ≡ₚ l :: on_runq k.
Proof.
  intros Hb [L1 L2 L3 L4] Hl Hc Hp Hn k'. pose proof (bi_len _ Hb) as Hlen.
  destruct (enqueue_fields l (lwp_eprio lw) pos (has_flag (l_pflag lw) LP_BOUND) k) as (Eq & _ & _ & Ec & Em).
  fold k' in Eq, Ec, Em.
  assert (on_runq k' ≡ₚ l :: on_runq k) as Hperm.
  { unfold on_runq. rewrite Eq. apply (concat_alter_add _ [l]); [destruct npri_words; lia|apply put_perm]. }
  split; [|done]. split.
  - rewrite Hperm. by apply NoDup_cons.
  - intros p x Hr Hx. rewrite (getrq_of k k' _ _ p Eq Hlen Hp Hr) in Hx.
    destruct (Z.eqb_spec (lwp_eprio lw) p) as [<-|]; [|by apply L2].
    rewrite put_perm in Hx. apply elem_of_cons in Hx as [->|Hx]; [by exists lw|by apply L2].
  - rewrite Ec, L3, Hperm. simpl. apply u32_succ.
  - pose proof (is_bound_flag h l lw Hl) as Hib. rewrite Em, Hperm, filter_cons.
    destruct (has_flag (l_pflag lw) LP_BOUND); case_decide as Hd;
      try (exfalso; intuition congruence); simpl; rewrite L4; [done|apply u32_succ].
Qed.

(** An LWP that leaves them. *)
Lemma dequeue_lwps h ci l lw k : bits_inv k -> lwps_inv h ci k ->
  h !! l = Some lw -> 0 <= lwp_eprio lw < PRI_COUNT -> l ∈ sched_getrq k (lwp_eprio lw) ->
  let k' := dequeue_cpu l (lwp_eprio lw) (has_flag (l_pflag lw) LP_BOUND) k in
  lwps_inv h ci k' /\ on_runq k ≡ₚ l :: on_runq k'.
Proof.
  intros Hb [L1 L2 L3 L4] Hl Hp Hin k'. pose proof (bi_len _ Hb) as Hlen.
  destruct (dequeue_fields l (lwp_eprio lw) (has_flag (l_pflag lw) LP_BOUND) k Hlen Hp) as (Eq & _ & _ & Ec & Em).
  fold k' in Eq, Ec, Em.
  assert (on_runq k ≡ₚ l :: on_runq k') as Hperm.
  { unfold on_runq at 2. rewrite Eq. apply (concat_alter_sub _ [l]); [destruct npri_words; lia|].
    apply filter_ne_perm; [by apply queue_nodup|done]. }
  split; [|done]. rewrite Hperm in L1, L3, L4. simpl in L3. apply NoDup_cons in L1 as [_ L1]. split.
  - done.
  - intros p x Hr Hx. rewrite (getrq_of k k' _ _ p Eq Hlen Hp Hr) in Hx.
    destruct (Z.eqb_spec (lwp_eprio lw) p) as [<-|]; [|by apply L2].
    apply list_elem_of_filter in Hx as [_ Hx]. by apply L2.
  - rewrite Ec, L3. apply u32_pred.
  - pose proof (is_bound_flag h l lw Hl) as Hib. rewrite Em, L4, filter_cons.
    destruct (has_flag (l_pflag lw) LP_BOUND); case_decide as Hd;
      try (exfalso; intuition congruence); [done|]. simpl. apply u32_pred.
Qed.

(** The queues do not see changes outside [runq_id]. *)
Lemma lwps_inv_ext h h' ci k : length (spc_queue k) = npri ->
  (forall l lw, l ∈ on_runq k -> h !! l = Some lw -> exists lw', h' !! l = Some lw' /\ runq_id lw' = runq_id lw) ->
  lwps_inv h ci k -> lwps_inv h' ci k.
Proof.
  intros Hlen Hh [L1 L2 L3 L4].
  assert (forall l, l ∈ on_runq k -> is_bound h' l <-> is_bound h l) as Hbd.
  { intros l Hin. destruct (runq_getrq k l Hlen Hin) as (p & Hr & Hq).
    destruct (L2 p l Hr Hq) as (lw & Hl & _ & _). destruct (Hh l lw Hin Hl) as (lw' & Hl' & E).
    unfold is_bound. rewrite (lookup_total_correct _ _ _ Hl), (lookup_total_correct _ _ _ Hl').
    by injection E as _ -> _ _ _ _. }
  split; [done| |done|].
  - intros p l Hr Hq. destruct (L2 p l Hr Hq) as (lw & Hl & Hc & Hp).
    destruct (Hh l lw (getrq_in_runq _ _ _ Hlen Hr Hq) Hl) as (lw' & Hl' & E). exists lw'.
    unfold lwp_eprio in *. injection E as E1 _ E2 E3 E4 _. rewrite E1, E2, E3, E4. done.
  - rewrite L4. do 3 f_equal. clear L1 L2 L3 L4 Hh. revert Hbd. generalize (on_runq k).
    induction l as [|x l IH]; intros Hbd; [done|]. rewrite !filter_cons.
    rewrite IH by (intros; apply Hbd; by right). specialize (Hbd x ltac:(by left)).
    repeat case_decide; tauto.
Qed.

End inv.
