(* ===== verification/RunqThms.v ===== *)
(** * What the run queue code guarantees *)

From stdpp Require Import base numbers list gmap strings.
From S2P Require Import Prelude Text Sysctl Lwp Lpsched Runq RunqInv.

Section thms.
Context `{M : Machine} `{P : SchedParams} `{!SchedParamsOk P}.

Record sched_inv (s : sched) : Prop := {
  si_cpu : forall c k, sc_cpus s !! c = Some k -> bits_inv k /\ lwps_inv (sc_lwps s) c k;
  si_lwp : forall l lw, sc_lwps s !! l = Some lw ->
    0 <= lwp_eprio lw < PRI_COUNT /\ l_class lw <> SCHED_NONE
}.

Definition same_ids (h h' : gmap nat lwp) : Prop := forall l, runq_id <$> h' !! l = runq_id <$> h !! l.
Definition same_rq (k k' : cpu_info) : Prop :=
  spc_queue k' = spc_queue k /\ spc_bitmap k' = spc_bitmap k /\
  spc_maxpriority k' = spc_maxpriority k /\ spc_count k' = spc_count k /\ spc_mcount k' = spc_mcount k.

Lemma same_ids_eprio lw lw' : runq_id lw' = runq_id lw ->
  lwp_eprio lw' = lwp_eprio lw /\ l_class lw' = l_class lw /\ l_cpu lw' = l_cpu lw /\ l_pflag lw' = l_pflag lw.
Proof. intros E. unfold lwp_eprio. by injection E as -> -> -> -> -> ->. Qed.

Lemma same_ids_lookup h h' l lw : same_ids h h' -> h !! l = Some lw ->
  exists lw', h' !! l = Some lw' /\ runq_id lw' = runq_id lw.
Proof.
  intros Hh Hl. specialize (Hh l). rewrite Hl in Hh. destruct (h' !! l) as [lw'|]; [|done].
  simpl in Hh. exists lw'. split; [done|congruence].
Qed.

Lemma same_ids_sym h h' : same_ids h h' -> same_ids h' h.
Proof. intros H l. by rewrite H. Qed.
Lemma same_ids_trans h h' h'' : same_ids h h' -> same_ids h' h'' -> same_ids h h''.
Proof. intros H1 H2 l. by rewrite H2, H1. Qed.
Lemma same_ids_refl h : same_ids h h.
Proof. done. Qed.

Lemma same_ids_alter h l f : (forall lw, runq_id (f lw) = runq_id lw) -> same_ids h (alter f l h).
Proof.
  intros Hf x. destruct (decide (l = x)) as [<-|].
  - rewrite lookup_alter_eq. destruct (h !! l); simpl; [by rewrite Hf|done].
  - by rewrite lookup_alter_ne.
Qed.

Lemma same_rq_getrq k k' p : same_rq k k' -> sched_getrq k' p = sched_getrq k p.
Proof. intros (E & _). unfold sched_getrq. by rewrite E. Qed.

Lemma bits_inv_same k k' : same_rq k k' -> bits_inv k -> bits_inv k'.
Proof.
  intros Hs [H1 H2 H3 H4 H5 H6 H7]. pose proof (fun p => same_rq_getrq k k' p Hs) as Hq.
  destruct Hs as (E1 & E2 & E3 & E4 & E5). split; rewrite ?E1, ?E2, ?E3; auto.
  - intros p Hp. rewrite Hq. auto.
  - intros p Hp. rewrite Hq. auto.
  - rewrite Hq. done.
Qed.

Lemma lwps_inv_same h ci k k' : same_rq k k' -> lwps_inv h ci k -> lwps_inv h ci k'.
Proof.
  intros Hs [L1 L2 L3 L4]. pose proof (fun p => same_rq_getrq k k' p Hs) as Hq.
  destruct Hs as (E1 & E2 & E3 & E4 & E5). unfold on_runq in *. split; unfold on_runq; rewrite ?E1, ?E4, ?E5; auto.
  intros p l. rewrite Hq. auto.
Qed.

Lemma sched_inv_ext s s' : same_ids (sc_lwps s) (sc_lwps s') ->
  (forall c k', sc_cpus s' !! c = Some k' -> exists k, sc_cpus s !! c = Some k /\ same_rq k k') ->
  sched_inv s -> sched_inv s'.
Proof.
  intros Hh Hc [S1 S2]. split.
  - intros c k' Hk'. destruct (Hc c k' Hk') as (k & Hk & Hs). destruct (S1 c k Hk) as [B L].
    pose proof (bits_inv_same _ _ Hs B) as B'. split; [done|].
    apply (lwps_inv_ext (sc_lwps s)); [apply (bi_len _ B')|..].
    + intros l lw _ Hl. by eapply same_ids_lookup.
    + by eapply lwps_inv_same.
  - intros l lw Hl. destruct (same_ids_lookup _ _ l lw (same_ids_sym _ _ Hh) Hl) as (lw0 & Hl0 & E).
    destruct (same_ids_eprio _ _ E) as (E1 & E2 & _). rewrite <-E1, <-E2. by apply (S2 l).
Qed.

Lemma on_ci_cpus s c k f : sc_cpus s !! c = Some k -> sc_cpus (on_ci c f s) = <[c := f k]> (sc_cpus s).
Proof.
  intros E. simpl. apply map_eq. intros j. destruct (decide (c = j)) as [<-|].
  - by rewrite lookup_alter_eq, lookup_insert_eq, E.
  - by rewrite lookup_alter_ne, lookup_insert_ne.
Qed.

Lemma ciof_lookup s c k : sc_cpus s !! c = Some k -> ciof s c = k.
Proof. apply lookup_total_correct. Qed.
Lemma lof_lookup s l lw : sc_lwps s !! l = Some lw -> lof s l = lw.
Proof. apply lookup_total_correct. Qed.

(** An LWP on a queue is on its own CPU's. *)
Lemma runq_owner s c k l : sched_inv s -> sc_cpus s !! c = Some k -> l ∈ on_runq k ->
  exists lw, sc_lwps s !! l = Some lw /\ l_cpu lw = c /\ l ∈ sched_getrq k (lwp_eprio lw).
Proof.
  intros [S1 S2] Hk Hin. destruct (S1 c k Hk) as [B L].
  destruct (runq_getrq k l (bi_len _ B) Hin) as (p & Hp & Hq).
  destruct (li_member _ _ _ L p l Hp Hq) as (lw & Hl & Hc & <-). eauto.
Qed.

Lemma enqueued_ids now l ci b h lp : same_ids h (lpsched_enqueued now l ci b (h, lp)).1.
Proof.
  unfold lpsched_enqueued. cbn [fst]. destruct (_ =? 0); [|apply same_ids_refl].
  by apply same_ids_alter.
Qed.

(** The tail of sched_enqueue(): accounting and the class hook. *)
Lemma enqueue_tail_inv e l ci b s : sched_inv s ->
  sched_inv (on_lwp l sched_newts
    (if lpsched_accounting (sc_lp s)
     then let '(h, lp) := lpsched_enqueued (v_now e) l ci b (sc_lwps s, sc_lp s) in
          set_sc_lp lp (set_sc_lwps h s)
     else s)).
Proof.
  intros Hs. pose proof (enqueued_ids (v_now e) l ci b (sc_lwps s) (sc_lp s)) as Hi.
  destruct (lpsched_accounting (sc_lp s)).
  - destruct (lpsched_enqueued _ _ _ _ _) as [h lp]. cbn [fst] in Hi.
    eapply sched_inv_ext; [| |exact Hs].
    + eapply same_ids_trans; [exact Hi|]. apply same_ids_alter, sched_newts_id.
    + intros c k' Hk'. exists k'. done.
  - eapply sched_inv_ext; [| |exact Hs].
    + apply same_ids_alter, sched_newts_id.
    + intros c k' Hk'. exists k'. done.
Qed.

Lemma enqueue_pos_some e lw : l_class lw <> SCHED_NONE -> exists pos, enqueue_pos e lw = Some pos.
Proof. unfold enqueue_pos. intros H. destruct (has_flag _ _); [|eauto]. destruct (l_class lw); eauto. done. Qed.

(** A CPU map with one entry replaced by one of the invariant. *)
Lemma sched_inv_cpu s c k' : sched_inv s -> bits_inv k' -> lwps_inv (sc_lwps s) c k' ->
  sched_inv (set_sc_cpus (<[c := k']> (sc_cpus s)) s).
Proof.
  intros [S1 S2] B L. split; [|exact S2]. intros c2 k2. cbn [sc_cpus sc_lwps set_sc_cpus].
  intros [[<- <-]|[Hne Hk2]]%lookup_insert_Some; [done|by apply S1].
Qed.

Lemma sched_enqueue_ok e l lw k s :
  sched_inv s -> sc_lwps s !! l = Some lw -> sc_cpus s !! l_cpu lw = Some k -> l ∉ on_runq k ->
  exists s' k', sched_enqueue e l s = Some s' /\ sched_inv s' /\
    sc_cpus s' !! l_cpu lw = Some k' /\ on_runq k' ≡ₚ l :: on_runq k /\
    l ∈ sched_getrq k' (lwp_eprio lw) /\ spc_maxpriority k' = Z.max (spc_maxpriority k) (lwp_eprio lw) /\
    (forall c, c <> l_cpu lw -> sc_cpus s' !! c = sc_cpus s !! c).
Proof.
  intros Hs Hl Hk Hn. destruct (si_lwp _ Hs l lw Hl) as [Hp Hcl]. destruct (si_cpu _ Hs _ _ Hk) as [B L].
  destruct (enqueue_pos_some e lw Hcl) as [pos Epos].
  unfold sched_enqueue. rewrite (lof_lookup _ _ _ Hl), Epos. cbn [mbind option_bind].
  set (f := enqueue_cpu l (lwp_eprio lw) pos (has_flag (l_pflag lw) LP_BOUND)).
  destruct (enqueue_lwps _ _ l lw pos k B L Hl eq_refl Hp Hn) as [L' Hperm]. fold (f k) in L', Hperm.
  pose proof (enqueue_bits l _ pos (has_flag (l_pflag lw) LP_BOUND) k B Hp) as B'. fold (f k) in B'.
  pose proof (on_ci_cpus s _ k f Hk) as Ecp.
  assert (sched_inv (on_ci (l_cpu lw) f s)) as Hs1.
  { pose proof (sched_inv_cpu s (l_cpu lw) (f k) Hs B' L') as H. by rewrite <-Ecp in H. }
  eexists _, (f k). split; [reflexivity|]. split; [by apply enqueue_tail_inv|].
  assert (forall b h lp, sc_cpus (on_lwp l sched_newts (if (b : bool) then set_sc_lp lp (set_sc_lwps h (on_ci (l_cpu lw) f s))
    else on_ci (l_cpu lw) f s)) = <[l_cpu lw := f k]> (sc_cpus s)) as Ecp2 by (by intros []).
  assert (sc_cpus (on_lwp l sched_newts (if lpsched_accounting (sc_lp (on_ci (l_cpu lw) f s))
     then let '(h, lp) := lpsched_enqueued (v_now e) l (l_cpu lw) (spc_count (ciof s (l_cpu lw)) =? 0)
            (sc_lwps (on_ci (l_cpu lw) f s), sc_lp (on_ci (l_cpu lw) f s)) in
          set_sc_lp lp (set_sc_lwps h (on_ci (l_cpu lw) f s))
     else on_ci (l_cpu lw) f s)) = <[l_cpu lw := f k]> (sc_cpus s)) as ->.
  { destruct (lpsched_enqueued _ _ _ _ _) as [h lp]. destruct (lpsched_accounting _); [apply (Ecp2 true)|apply (Ecp2 false h lp)]. }
  rewrite lookup_insert_eq. split; [done|]. split; [done|].
  destruct (enqueue_fields l (lwp_eprio lw) pos (has_flag (l_pflag lw) LP_BOUND) k) as (Eq & _ & Em & _).
  split; [|split; [exact Em|intros c Hc; by rewrite lookup_insert_ne]].
  rewrite (getrq_of k (f k) _ _ _ Eq (bi_len _ B) Hp Hp), Z.eqb_refl, put_perm. by left.
Qed.

Lemma sched_dequeue_ok l lw k s :
  sched_inv s -> sc_lwps s !! l = Some lw -> sc_cpus s !! l_cpu lw = Some k -> l ∈ on_runq k ->
  exists k', sched_inv (sched_dequeue l s) /\ sc_cpus (sched_dequeue l s) !! l_cpu lw = Some k' /\
    on_runq k ≡ₚ l :: on_runq k' /\ sc_lwps (sched_dequeue l s) = sc_lwps s /\
    (forall c, c <> l_cpu lw -> sc_cpus (sched_dequeue l s) !! c = sc_cpus s !! c).
Proof.
  intros Hs Hl Hk Hin. destruct (si_lwp _ Hs l lw Hl) as [Hp Hcl]. destruct (si_cpu _ Hs _ _ Hk) as [B L].
  destruct (runq_owner s _ k l Hs Hk Hin) as (lw0 & Hl0 & _ & Hq). rewrite Hl in Hl0. injection Hl0 as <-.
  unfold sched_dequeue. rewrite (lof_lookup _ _ _ Hl).
  set (f := dequeue_cpu l (lwp_eprio lw) (has_flag (l_pflag lw) LP_BOUND)).
  destruct (dequeue_lwps _ _ l lw k B L Hl Hp Hq) as [L' Hperm]. fold (f k) in L', Hperm.
  pose proof (dequeue_bits l _ (has_flag (l_pflag lw) LP_BOUND) k B Hp Hq) as B'. fold (f k) in B'.
  pose proof (on_ci_cpus s _ k f Hk) as Ecp.
  assert (sched_inv (on_ci (l_cpu lw) f s)) as Hs1.
  { pose proof (sched_inv_cpu s (l_cpu lw) (f k) Hs B' L') as H. by rewrite <-Ecp in H. }
  set (s1 := if lpsched_accounting _ then _ else _).
  assert (sc_cpus s1 = <[l_cpu lw := f k]> (sc_cpus s) /\ sc_lwps s1 = sc_lwps s) as [Ecp1 Elw].
  { unfold s1. destruct (lpsched_accounting _); simpl; by rewrite <-Ecp. }
  exists (f k). split.
  { eapply sched_inv_ext; [| |exact Hs1]; [by rewrite Elw|]. rewrite Ecp1. intros c k' Hk'.
    exists k'. by rewrite Ecp. }
  rewrite Ecp1, lookup_insert_eq. repeat split; auto. intros c Hc. by rewrite lookup_insert_ne.
Qed.

(** C15. Under the run queue invariant (bitmap, highest priority and count agree with
    the queues), sched_enqueue succeeds on an LWP that is not queued and adds exactly it
    at its effective priority, sched_dequeue removes exactly the LWP given, and both
    preserve the invariant. *)
Theorem sched_queue_ops_inv e l lw k s :
  sched_inv s -> sc_lwps s !! l = Some lw -> sc_cpus s !! l_cpu lw = Some k ->
  (l ∉ on_runq k -> exists s' k', sched_enqueue e l s = Some s' /\ sched_inv s' /\
     sc_cpus s' !! l_cpu lw = Some k' /\ on_runq k' ≡ₚ l :: on_runq k /\
     l ∈ sched_getrq k' (lwp_eprio lw) /\
     spc_maxpriority k' = Z.max (spc_maxpriority k) (lwp_eprio lw)) /\
  (l ∈ on_runq k -> exists k', sched_inv (sched_dequeue l s) /\
     sc_cpus (sched_dequeue l s) !! l_cpu lw = Some k' /\ on_runq k ≡ₚ l :: on_runq k').
Proof.
  intros Hs Hl Hk. split; intros Hin.
  - destruct (sched_enqueue_ok e l lw k s Hs Hl Hk Hin) as (s' & k' & ? & ? & ? & ? & ? & ? & _).
    exists s', k'. auto 10.
  - destruct (sched_dequeue_ok l lw k s Hs Hl Hk Hin) as (k' & ? & ? & ? & _). eauto.
Qed.

(** *** The next LWP to run *)

Lemma head_highest k : bits_inv k -> on_runq k <> [] ->
  exists l, head (sched_getrq k (spc_maxpriority k)) = Some l /\
    forall p x, 0 <= p < PRI_COUNT -> x ∈ sched_getrq k p -> p <= spc_maxpriority k.
Proof.
  intros B Hne. destruct (on_runq k) as [|x xs] eqn:E; [done|].
  destruct (runq_getrq k x (bi_len _ B)) as (p & Hp & Hx); [rewrite E; by left|].
  assert (forall p x, 0 <= p < PRI_COUNT -> x ∈ sched_getrq k p -> p <= spc_maxpriority k) as Hmax.
  { intros q y Hq Hy. apply (bi_max _ B q Hq). intros E'. rewrite E' in Hy. by apply elem_of_nil in Hy. }
  assert (sched_getrq k (spc_maxpriority k) <> []) as Hm.
  { destruct (bi_top _ B) as [E0|]; [|done]. specialize (Hmax p x Hp Hx).
    assert (p = spc_maxpriority k) as <- by lia. intros E'. rewrite E' in Hx. by apply elem_of_nil in Hx. }
  destruct (sched_getrq k (spc_maxpriority k)) as [|l q]; [done|]. eauto.
Qed.

(** sched_nextlwp answers no LWP exactly when the run queue is empty, and otherwise the
    head of the queue of the highest effective priority present. *)
Theorem sched_nextlwp_highest e s k :
  sched_inv s -> sc_cpus s !! v_self e = Some k -> spc_migrating k = None ->
  Z.of_nat (length (on_runq k)) < 2 ^ 32 ->
  (on_runq k = [] -> (sched_nextlwp e s).1 = None) /\
  (on_runq k <> [] -> exists l lw q, (sched_nextlwp e s).1 = Some l /\
     sc_lwps s !! l = Some lw /\ sched_getrq k (lwp_eprio lw) = l :: q /\
     forall x lx, x ∈ on_runq k -> sc_lwps s !! x = Some lx -> lwp_eprio lx <= lwp_eprio lw).
Proof.
  intros Hs Hk Hm Hlt. destruct (si_cpu _ Hs _ _ Hk) as [B L].
  assert (ciof (on_lwp (v_curlwp e) (fun l => set_l_rticksum
    (u32 (l_rticksum l + u32 (v_ticks e - l_rticks l))) l) s) (v_self e) = k) as Ek by (by apply ciof_lookup).
  assert (spc_count k = Z.of_nat (length (on_runq k))) as Ec.
  { rewrite (li_count _ _ _ L). apply u32_id. unfold in_u32. lia. }
  unfold sched_nextlwp. rewrite Ek, Hm. split.
  - intros E. rewrite Ec, E. done.
  - intros Hne. destruct (Z.eqb_spec (spc_count k) 0) as [E0|_].
    { rewrite Ec in E0. destruct (on_runq k); simpl in *; [done|lia]. }
    destruct (head_highest k B Hne) as (l & Eh & Hmax). cbv zeta. cbn [fst]. rewrite Eh.
    destruct (sched_getrq k (spc_maxpriority k)) as [|l' q] eqn:Eq; [done|]. injection Eh as ->.
    destruct (li_member _ _ _ L (spc_maxpriority k) l) as (lw & Hl & Hc & Hp);
      [apply (bi_range _ B)|rewrite Eq; by left|].
    exists l, lw, q. rewrite Hp. repeat split; auto. intros x lx Hx Hlx.
    destruct (runq_owner s _ k x Hs Hk Hx) as (lw' & Hl' & _ & Hq). rewrite Hlx in Hl'. injection Hl' as <-.
    apply (Hmax _ x); [|done]. by apply (si_lwp _ Hs x).
Qed.

(** *** Stealing *)

Lemma move_lwp_ok e l lw k to kt s :
  sched_inv s -> sc_lwps s !! l = Some lw -> sc_cpus s !! l_cpu lw = Some k -> l ∈ on_runq k ->
  sc_cpus s !! to = Some kt -> to <> l_cpu lw ->
  exists s' k' kt', move_lwp e l to s = Some s' /\ sched_inv s' /\
    sc_cpus s' !! l_cpu lw = Some k' /\ sc_cpus s' !! to = Some kt' /\
    on_runq k ≡ₚ l :: on_runq k' /\ on_runq kt' ≡ₚ l :: on_runq kt /\
    (forall c, c <> l_cpu lw -> c <> to -> sc_cpus s' !! c = sc_cpus s !! c).
Proof.
  intros Hs Hl Hk Hin Hkt Hne.
  destruct (sched_dequeue_ok l lw k s Hs Hl Hk Hin) as (k' & Hs1 & Hk1 & Hp1 & El & Hoth1).
  set (s1 := sched_dequeue l s) in *. set (s2 := on_lwp l (set_l_cpu to) s1).
  assert (forall c k, sc_cpus s1 !! c = Some k -> l ∉ on_runq k) as Hoff.
  { intros c k2 Hk2 Hin2. destruct (runq_owner s1 c k2 l Hs1 Hk2 Hin2) as (lw2 & Hl2 & Hc2 & _).
    rewrite El, Hl in Hl2. injection Hl2 as <-. rewrite <-Hc2, Hk1 in Hk2. injection Hk2 as <-.
    destruct (si_cpu _ Hs _ _ Hk) as [_ L]. pose proof (li_nodup _ _ _ L) as Hd. rewrite Hp1 in Hd.
    apply NoDup_cons in Hd as [? _]. done. }
  assert (sc_lwps s2 !! l = Some (set_l_cpu to lw)) as Hl2.
  { unfold s2. simpl. by rewrite lookup_alter_eq, El, Hl. }
  assert (sched_inv s2) as Hs2.
  { destruct Hs1 as [S1 S2]. split.
    - intros c k2 Hk2. destruct (S1 c k2 Hk2) as [B2 L2]. split; [done|].
      eapply lwps_inv_ext; [apply (bi_len _ B2)| |exact L2]. intros x lx Hx Hlx.
      exists lx. unfold s2. simpl. rewrite lookup_alter_ne; [done|]. intros <-. by apply (Hoff c k2).
    - intros x lx. unfold s2. simpl. destruct (decide (l = x)) as [<-|Hx].
      + rewrite lookup_alter_eq, El, Hl. intros [= <-]. apply (si_lwp _ Hs l lw Hl).
      + rewrite lookup_alter_ne by done. apply S2. }
  assert (sc_cpus s2 !! to = Some kt) as Hkt2 by (change (sc_cpus s1 !! to = Some kt); by rewrite Hoth1).
  destruct (sched_enqueue_ok e l (set_l_cpu to lw) kt s2 Hs2 Hl2 Hkt2) as (s' & kt' & E & Hs' & Hk' & Hp' & _ & _ & Hoth').
  { by apply (Hoff to). }
  cbn [l_cpu set_l_cpu] in *. exists s', k', kt'. split; [exact E|]. split; [done|].
  split; [rewrite Hoth' by auto; exact Hk1|]. repeat split; auto.
  intros c H1 H2. rewrite Hoth' by done. by apply Hoth1.
Qed.

Lemma stat_frame e i s : sc_cpus (stat e i s) = sc_cpus s /\ sc_lwps (stat e i s) = sc_lwps s /\
  min_catch (stat e i s) = min_catch s /\ cacheht_time (stat e i s) = cacheht_time s.
Proof. done. Qed.

Lemma min_catch_frame e a b s : let s' := (lpsched_min_catch e a b s).2 in
  sc_cpus s' = sc_cpus s /\ sc_lwps s' = sc_lwps s /\ min_catch s' = min_catch s /\ cacheht_time s' = cacheht_time s.
Proof.
  cbv zeta. unfold lpsched_min_catch. destruct (negb _); [done|]. destruct (_ <? _); [done|].
  destruct (lpsched_queue_overdue _ _ _ _) as [o lp].
  destruct (lpsched_accounting _), o; try done;
    (destruct (existsb _ _); [done|]); cbv zeta; cbn [snd]; destruct (_ && _); done.
Qed.

(** sched_catchlwp either changes no queue or moves exactly one unbound, migratable LWP
    of the remote CPU's highest priority to this CPU, inside one processor set,
    preserving the run queue invariant. *)
Theorem sched_catchlwp_moves e ci s k0 k :
  sched_inv s -> sc_cpus s !! v_self e = Some k0 -> sc_cpus s !! ci = Some k -> ci <> v_self e ->
  exists r s', sched_catchlwp e ci s = Some (r, s') /\ sched_inv s' /\
  match r with
  | None => sc_cpus s' = sc_cpus s
  | Some l => exists lw k0' k', sc_lwps s !! l = Some lw /\
      has_flag (l_pflag lw) LP_BOUND = false /\ sched_migratable s lw (v_self e) = true /\
      spc_psid k0 = spc_psid k /\ lwp_eprio lw = spc_maxpriority k /\
      sc_cpus s' !! v_self e = Some k0' /\ sc_cpus s' !! ci = Some k' /\
      on_runq k ≡ₚ l :: on_runq k' /\ on_runq k0' ≡ₚ l :: on_runq k0
  end.
Proof.
  intros Hs Hk0 Hk Hne. unfold sched_catchlwp. rewrite (ciof_lookup _ _ _ Hk0), (ciof_lookup _ _ _ Hk).
  set (gentle := negb _).
  assert (exists need s1, (if gentle then lpsched_min_catch e (v_self e) ci s else (1, s)) = (need, s1) /\
    sc_cpus s1 = sc_cpus s /\ sc_lwps s1 = sc_lwps s) as (need & s1 & -> & Ecp & Elw).
  { pose proof (min_catch_frame e (v_self e) ci s) as (H1 & H2 & _).
    destruct gentle; [|eauto]. destruct (lpsched_min_catch _ _ _ _) as [need s1]. eauto. }
  assert (sched_inv s1) as Hs1.
  { eapply sched_inv_ext; [| |exact Hs]; [by rewrite Elw|]. rewrite Ecp. intros c k' Hk'. by exists k'. }
  rewrite <-Ecp in Hk0, Hk. rewrite (ciof_lookup _ _ _ Hk0), (ciof_lookup _ _ _ Hk).
  destruct ((spc_mcount k <? need) || negb (spc_psid k0 =? spc_psid k)) eqn:Hno.
  { exists None, s1. rewrite Ecp. done. }
  apply orb_false_iff in Hno as [_ Hpsid]. apply negb_false_iff, Z.eqb_eq in Hpsid.
  destruct (catch_candidate e s1 gentle (v_self e) _) as [l|] eqn:Ec; [|exists None, s1; rewrite Ecp; done].
  apply List.find_some in Ec as [Hin Hcond]. apply list_elem_of_In in Hin.
  destruct (si_cpu _ Hs1 _ _ Hk) as [B L].
  destruct (li_member _ _ _ L (spc_maxpriority k) l) as (lw & Hl & Hc & Hp); [apply (bi_range _ B)|done|].
  rewrite (lof_lookup _ _ _ Hl) in Hcond. apply negb_true_iff in Hcond.
  apply orb_false_iff in Hcond as [Hcond Hmig]. apply orb_false_iff in Hcond as [Hbd _].
  apply negb_false_iff in Hmig.
  assert (l ∈ on_runq k) as Hinq by (eapply getrq_in_runq; [apply (bi_len _ B)|apply (bi_range _ B)|done]).
  destruct (move_lwp_ok e l lw k (v_self e) k0 s1 Hs1 Hl) as (s' & k' & k0' & E & Hs' & H1 & H2 & H3 & H4 & _);
    [by rewrite Hc|done|done|by rewrite Hc; auto|].
  rewrite E. cbn [mbind option_bind]. exists (Some l), s'. split; [done|]. split; [done|].
  rewrite Hc in H1. exists lw, k0', k'. rewrite <-Elw. repeat split; auto.
  unfold sched_migratable, ciof in *. by rewrite <-Ecp.
Qed.

End thms.
