(* ===== verification/RunqPack.v ===== *)
(** * CPU selection and packing

    The sibling walks visit their ring once; the packing only changes where a
    non-exempt timeshare LWP goes, and then to the cheapest CPU to wake. *)

From stdpp Require Import base numbers list gmap strings.
From S2P Require Import Prelude Text Sysctl Lwp Lpsched Runq RunqInv RunqThms.

Section rings.

Lemma ring_from_iter fuel next start cur n : (n <= fuel)%nat ->
  Nat.iter n next cur = start -> (forall j, (j < n)%nat -> Nat.iter j next cur <> start) ->
  ring_from fuel next start cur = map (fun j => Nat.iter j next cur) (seq 0 n).
Proof.
  revert cur n. induction fuel as [|f IH]; intros cur n Hn Hend Hbefore.
  - replace n with 0%nat by lia. done.
  - cbn [ring_from]. destruct n as [|n].
    + simpl in Hend. by rewrite Hend, Nat.eqb_refl.
    + destruct (Nat.eqb_spec cur start) as [E|_]; [exfalso; exact (Hbefore 0%nat ltac:(lia) E)|].
      assert (forall j, Nat.iter j next (next cur) = Nat.iter (S j) next cur) as Hs.
      { intros j. by rewrite Nat.iter_succ_r. }
      cbn [seq map]. f_equal. rewrite <-seq_shift, map_map.
      rewrite (IH (next cur) n); [|lia|by rewrite Hs|intros j Hj; rewrite Hs; apply Hbefore; lia].
      apply map_ext. intros j. apply Hs.
Qed.

End rings.

(** A ring walk visits the CPUs of the cycle once each, in order. *)
Theorem ring_visits_cycle s next start n :
  (0 < n <= S (size (sc_cpus s)))%nat -> Nat.iter n next start = start ->
  (forall j, (0 < j < n)%nat -> Nat.iter j next start <> start) ->
  ring s next start = map (fun j => Nat.iter j next start) (seq 0 n).
Proof.
  intros Hn Hend Hmin. unfold ring. destruct n as [|n]; [lia|]. cbn [seq map]. f_equal.
  assert (forall j, Nat.iter j next (next start) = Nat.iter (S j) next start) as Hs
    by (intros j; by rewrite Nat.iter_succ_r).
  rewrite (ring_from_iter _ _ _ _ n); [|lia|by rewrite Hs|intros j Hj; rewrite Hs; apply Hmin; lia].
  rewrite <-seq_shift, map_map. apply map_ext. intros j. apply Hs.
Qed.

Section pack.
Context `{M : Machine} `{P : SchedParams}.

(** ** Packing off, or an exempt LWP: the stock placement *)

Lemma bestcpu_scan_ext s s' l cpus best pri : sc_cpus s' = sc_cpus s ->
  bestcpu_scan s' l cpus best pri = bestcpu_scan s l cpus best pri.
Proof.
  intros E. revert best pri. induction cpus as [|c cpus IH]; intros best pri; cbn [bestcpu_scan]; [done|].
  unfold sched_migratable, cpu_pri, ciof. rewrite E. by rewrite !IH.
Qed.

Lemma bestcpu_ext s s' l p : sc_cpus s' = sc_cpus s -> sched_bestcpu s' l p = sched_bestcpu s l p.
Proof.
  intros E. unfold sched_bestcpu. rewrite (bestcpu_scan_ext s s') by done.
  unfold all_cpus, package_of, ring, sched_migratable, cpu_pri, ciof. by rewrite E.
Qed.

Lemma takecpu_stock_ext e l s s' : sc_cpus s' = sc_cpus s -> sc_lwps s' = sc_lwps s ->
  cacheht_time s' = cacheht_time s -> (takecpu_stock e l s').1 = (takecpu_stock e l s).1.
Proof.
  intros Ec El Eh.
  assert (forall l w, takecpu_rest e s' l w = takecpu_rest e s l w) as Hr.
  { intros lw w. unfold takecpu_rest. rewrite (bestcpu_ext s s') by done.
    unfold find_type, core_of, ring, sched_migratable, lwp_cache_hot, ciof. by rewrite Ec, Eh. }
  unfold takecpu_stock, lof. rewrite !Hr, El. unfold sched_migratable, ciof. rewrite Ec.
  destruct (_ =? LSIDL); [|done]. destruct (_ && _); [by destruct (_ && _)|].
  unfold sched_nextpkg. cbn [fst].
  assert (sc_cpus (on_ci (v_self e) (set_spc_nextpkg (ci_sib_package1st (ciof s' (spc_nextpkg (ciof s' (v_self e)))))) s')
    = sc_cpus (on_ci (v_self e) (set_spc_nextpkg (ci_sib_package1st (ciof s (spc_nextpkg (ciof s (v_self e)))))) s)) as E
    by (unfold ciof; simpl; by rewrite Ec).
  rewrite (bestcpu_ext _ _ _ _ E). unfold ciof. by rewrite Ec.
Qed.

(** With packing off, or for an LWP exempt from packing, sched_takecpu chooses the CPU
    the stock algorithm chooses. *)
Theorem sched_takecpu_stock e l s :
  has_flag (l_pflag (lof s l)) LP_BOUND = false ->
  lpsched_packing (sc_lp s) = false \/ (lpsched_exempt e (lof s l) s).1 = true ->
  (sched_takecpu e l s).1 = (takecpu_stock e l s).1.
Proof.
  intros Hb Hor. unfold sched_takecpu. rewrite Hb. destruct (lpsched_packing (sc_lp s)) eqn:Hp; [|done].
  destruct Hor as [?|Hex]; [done|]. revert Hex. unfold lpsched_exempt.
  destruct (negb _); cbn [fst]; [intros _; by apply takecpu_stock_ext|].
  destruct (nz _ && _); cbn [fst]; [intros _; by apply takecpu_stock_ext|].
  destruct ((0 <? _) && _); cbn [fst]; [intros _; by apply takecpu_stock_ext|done].
Qed.

(** ** The cost of a CPU, and the cheapest one *)

(** States that differ in the statistics counters only. *)
Definition pc_view (pc : lpsched_cpu) : Z * Z * Z := (depth pc, critical pc, cur_burst_us pc).
Definition lp_view (lp : lpsched) : Z * Z * Z * Z * list (Z * Z * Z) :=
  (lpsched_enabled lp, lpsched_pack lp, lpsched_latency lp, lpsched_wait_budget_us lp,
   map pc_view (lp_cpu lp)).
Definition same_view (s s' : sched) : Prop :=
  sc_cpus s' = sc_cpus s /\ sc_lwps s' = sc_lwps s /\ lp_view (sc_lp s') = lp_view (sc_lp s) /\
  cacheht_time s' = cacheht_time s.

Lemma same_view_refl s : same_view s s.
Proof. done. Qed.
Lemma same_view_trans a b c : same_view a b -> same_view b c -> same_view a c.
Proof. unfold same_view. intros (-> & -> & -> & ->) (-> & -> & -> & ->). done. Qed.

Lemma stat_view e i s : same_view s (stat e i s).
Proof.
  unfold same_view, stat. simpl. repeat split. unfold lpsched_stat, lpsched_stat_bump.
  destruct (nz _); [|done]. repeat case_match; try done. unfold lp_view, on_cpu; simpl. f_equal.
  apply list_eq. intros j. rewrite !list_lookup_fmap. destruct (decide (v_self e = j)) as [<-|].
  - rewrite list_lookup_alter_eq. by destruct (lp_cpu (sc_lp s) !! v_self e).
  - by rewrite list_lookup_alter_ne.
Qed.

Lemma view_cpu s s' t : same_view s s' -> pc_view (lp_cpu (sc_lp s') !!! t) = pc_view (lp_cpu (sc_lp s) !!! t).
Proof.
  intros (_ & _ & E & _). injection E as _ _ _ _ E.
  rewrite !list_lookup_total_alt. apply (f_equal (fun l => l !! t)) in E. rewrite !list_lookup_fmap in E.
  destruct (lp_cpu (sc_lp s') !! t), (lp_cpu (sc_lp s) !! t); simpl in *; congruence.
Qed.

Lemma view_accounting s s' : same_view s s' -> lpsched_accounting (sc_lp s') = lpsched_accounting (sc_lp s).
Proof. intros (_ & _ & E & _). unfold lpsched_accounting. by injection E as -> _ -> _ _. Qed.

Lemma view_depth s s' c : same_view s s' -> lpsched_idle_depth (sc_lp s') c = lpsched_idle_depth (sc_lp s) c.
Proof.
  intros Hv. pose proof (view_cpu s s' c Hv) as E. destruct Hv as (_ & _ & E2 & _). injection E2 as _ _ _ _ E2.
  apply (f_equal length) in E2. rewrite !length_map in E2. unfold lpsched_idle_depth. rewrite E2.
  destruct (_ <? _)%nat; [|done]. by injection E as ->.
Qed.

Lemma wake_scan_view e ci sibs cost s s' : same_view s s' ->
  (wake_cost_scan e ci sibs cost s').1 = (wake_cost_scan e ci sibs cost s).1 /\
  same_view s' (wake_cost_scan e ci sibs cost s').2.
Proof.
  intros Hv. revert cost. induction sibs as [|t sibs IH]; intros cost; cbn [wake_cost_scan].
  - rewrite (view_depth s s' ci Hv). done.
  - assert (ciof s' t = ciof s t) as -> by (unfold ciof; by destruct Hv as (-> & _)).
    destruct (spc_idle (ciof s t)); [apply IH|].
    rewrite (view_accounting s s' Hv). pose proof (view_cpu s s' t Hv) as E. injection E as _ -> _.
    destruct (_ && _); [split; [done|apply stat_view]|apply IH].
Qed.

Lemma core_siblings_view s s' c : same_view s s' -> core_siblings s' c = core_siblings s c.
Proof. intros (E & _). unfold core_siblings, core_of, ring, ciof. by rewrite E. Qed.

Lemma wake_cost_view e c s s' : same_view s s' ->
  (lpsched_wake_cost e c s').1 = (lpsched_wake_cost e c s).1 /\ same_view s' (lpsched_wake_cost e c s').2.
Proof.
  intros Hv. unfold lpsched_wake_cost. rewrite (core_siblings_view s s' c Hv). by apply wake_scan_view.
Qed.

(** A CPU the first pass may choose. *)
Definition idle_candidate (s : sched) (l : lwp) (c : nat) : Prop :=
  sched_migratable s l c = true /\ spc_idle (ciof s c) = true.
Definition wake_cost (e : senv) (s : sched) (c : nat) : Z := (lpsched_wake_cost e c s).1.

Lemma idle_scan_spec e l cpus best bestcost s0 s : same_view s0 s ->
  (forall c, wake_cost e s0 c < INT_MAX) ->
  (match best with None => bestcost = INT_MAX | Some b => bestcost = wake_cost e s0 b end) ->
  let '(r, rc, s') := pack_idle_scan e l cpus best bestcost s in
  same_view s0 s' /\
  (match r with None => rc = INT_MAX | Some b => rc = wake_cost e s0 b end) /\
  (match r with
   | None => best = None /\ forall c, c ∈ cpus -> ~ idle_candidate s0 l c
   | Some b => (best = Some b \/ (b ∈ cpus /\ idle_candidate s0 l b)) /\ rc <= bestcost /\
       forall c, c ∈ cpus -> idle_candidate s0 l c -> rc <= wake_cost e s0 c
   end).
Proof.
  intros Hv Hmax. revert best bestcost s Hv. induction cpus as [|c cpus IH]; intros best bestcost s Hv Hbest; cbn [pack_idle_scan].
  { destruct best; (split; [done|]; split; [done|]).
    - split; [by left|]. split; [lia|]. by intros x ?%elem_of_nil.
    - split; [done|]. by intros x ?%elem_of_nil. }
  assert (ciof s c = ciof s0 c) as Eci by (unfold ciof; by destruct Hv as (-> & _)).
  assert (sched_migratable s l c = sched_migratable s0 l c) as Em by (unfold sched_migratable; by rewrite Eci).
  rewrite Em, Eci. destruct (sched_migratable s0 l c) eqn:Hm, (spc_idle (ciof s0 c)) eqn:Hi; cbn [negb orb].
  2,3,4: assert (~ idle_candidate s0 l c) as Hnc by (unfold idle_candidate; intros [? ?]; congruence);
    specialize (IH best bestcost s Hv Hbest);
    destruct (pack_idle_scan e l cpus best bestcost s) as [[r rc] s'];
    destruct IH as (I1 & I2 & I3); (split; [done|]; split; [done|]); destruct r as [b|];
    [destruct I3 as (Ha & Hb & Hc); split; [destruct Ha as [?|[? ?]]; [by left|right; split; [by right|done]]|];
       split; [done|]; intros x [->|Hx]%elem_of_cons Hix; [done|by apply Hc]
    |destruct I3 as [Ha Hb]; split; [done|]; intros x [->|Hx]%elem_of_cons; [done|by apply Hb]].
  destruct (wake_cost_view e c s0 s Hv) as [Ec Hv'].
  destruct (lpsched_wake_cost e c s) as [cost s1] eqn:Ewc. cbn [fst snd] in *.
  assert (cost = wake_cost e s0 c) as Ecost by (unfold wake_cost; congruence).
  assert (same_view s0 s1) as Hv1 by (by eapply same_view_trans).
  assert (idle_candidate s0 l c) as Hcand by done.
  destruct ((cost <? bestcost) || ((cost =? bestcost) && (c =? l_cpu l)%nat)) eqn:Hpick.
  - specialize (IH (Some c) cost s1 Hv1 Ecost).
    destruct (pack_idle_scan e l cpus (Some c) cost s1) as [[r rc] s'].
    destruct IH as (I1 & I2 & I3). split; [done|]. split; [done|].
    assert (cost <= bestcost) as Hle by (destruct (Z.ltb_spec cost bestcost), (Z.eqb_spec cost bestcost); simpl in *; lia || done).
    destruct r as [b|].
    + destruct I3 as (Ha & Hb & Hc). split.
      { right. destruct Ha as [[= <-]|[? ?]]; [split; [by left|done]|split; [by right|done]]. }
      split; [lia|]. intros x [->|Hx]%elem_of_cons Hix; [lia|by apply Hc].
    + by destruct I3 as [? _].
  - specialize (IH best bestcost s1 Hv1 Hbest).
    destruct (pack_idle_scan e l cpus best bestcost s1) as [[r rc] s'].
    destruct IH as (I1 & I2 & I3). split; [done|]. split; [done|].
    apply orb_false_iff in Hpick as [Hge%Z.ltb_ge _].
    destruct r as [b|].
    + destruct I3 as (Ha & Hb & Hc). split.
      { destruct Ha as [?|[? ?]]; [by left|right; split; [by right|done]]. }
      split; [done|]. intros x [->|Hx]%elem_of_cons Hix; [lia|by apply Hc].
    + destruct I3 as [-> Hb]. exfalso. specialize (Hmax c). rewrite Hbest in Hge. lia.
Qed.

(** An awake CPU the second pass may queue behind. *)
Definition busy_candidate (s : sched) (l : lwp) (c : nat) : Prop :=
  sched_migratable s l c = true /\ spc_idle (ciof s c) = false /\ spc_count (ciof s c) = 0 /\
  spc_curpriority (ciof s c) <= MAXPRI_USER /\
  (lpsched_accounting (sc_lp s) = true ->
     critical (lp_cpu (sc_lp s) !!! c) = 0 /\
     cur_burst_us (lp_cpu (sc_lp s) !!! c) <> 0 /\
     cur_burst_us (lp_cpu (sc_lp s) !!! c) <= u32 (lpsched_wait_budget_us (sc_lp s))).

Lemma busy_scan_spec e l cpus s0 s : same_view s0 s ->
  let '(r, s') := pack_busy_scan e l cpus s in
  same_view s0 s' /\ match r with None => True | Some c => c ∈ cpus /\ busy_candidate s0 l c end.
Proof.
  revert s. induction cpus as [|c cpus IH]; intros s Hv; cbn [pack_busy_scan]; [done|].
  assert (ciof s c = ciof s0 c) as Eci by (unfold ciof; by destruct Hv as (-> & _)).
  assert (sched_migratable s l c = sched_migratable s0 l c) as Em by (unfold sched_migratable; by rewrite Eci).
  assert (forall s1, same_view s0 s1 -> let '(r, s') := pack_busy_scan e l cpus s1 in
    same_view s0 s' /\ match r with None => True | Some c' => c' ∈ c :: cpus /\ busy_candidate s0 l c' end) as Hrec.
  { intros s1 Hv1. specialize (IH s1 Hv1). destruct (pack_busy_scan e l cpus s1) as [[c'|] s']; [|done].
    destruct IH as (? & ? & ?). split; [done|]. split; [by right|done]. }
  rewrite Em, Eci. destruct (sched_migratable s0 l c) eqn:Hm; cbn [negb orb]; [|by apply Hrec].
  destruct (spc_idle (ciof s0 c)) eqn:Hi; cbn [orb]; [by apply Hrec|].
  destruct (Z.eqb_spec (spc_count (ciof s0 c)) 0) as [Hc|]; cbn [negb orb]; [|by apply Hrec].
  destruct (Z.ltb_spec MAXPRI_USER (spc_curpriority (ciof s0 c))); [by apply Hrec|].
  rewrite (view_accounting s0 s Hv). pose proof (view_cpu s0 s c Hv) as E. injection E as _ -> ->.
  assert (lpsched_wait_budget_us (sc_lp s) = lpsched_wait_budget_us (sc_lp s0)) as ->
    by (destruct Hv as (_ & _ & E2 & _); by injection E2 as _ _ _ -> _).
  destruct (lpsched_accounting (sc_lp s0) && _) eqn:Hacc.
  - apply Hrec. eapply same_view_trans; [exact Hv|apply stat_view].
  - split; [eapply same_view_trans; [exact Hv|apply stat_view]|]. split; [by left|].
    repeat split; auto.
    all: rewrite H0 in Hacc; cbn [andb] in Hacc; apply orb_false_iff in Hacc as [[Ha Hb]%orb_false_iff Hc'];
      unfold nz in Ha; apply negb_false_iff, Z.eqb_eq in Ha; apply Z.eqb_neq in Hb; apply Z.ltb_ge in Hc'; auto.
Qed.

(** An awake core is free, a sleeping one costs more the deeper it sleeps. *)
Lemma wake_cost_bounds e s c : 0 <= lpsched_idle_depth (sc_lp s) c < INT_MAX - 1 ->
  0 <= wake_cost e s c < INT_MAX.
Proof.
  intros Hd. unfold wake_cost, lpsched_wake_cost. generalize (core_siblings s c), (-1). intros sibs.
  induction sibs as [|t sibs IH]; intros cost; cbn [wake_cost_scan].
  - cbn [fst]. destruct (cost =? 0); unfold INT_MAX in *; lia.
  - destruct (spc_idle _); [apply IH|]. destruct (_ && _); [cbn [fst]; unfold LPSCHED_IDLE_SHALLOW, INT_MAX; lia|apply IH].
Qed.

Lemma pack_pick_spec e l pivot s :
  (forall c, 0 <= lpsched_idle_depth (sc_lp s) c < INT_MAX - 1) ->
  let cpus := all_cpus s pivot in
  match (lpsched_pack_pick e l pivot s).1 with
  | None => same_view s (lpsched_pack_pick e l pivot s).2 /\
      forall c, c ∈ cpus -> ~ idle_candidate s l c
  | Some b => b ∈ cpus /\
      ((idle_candidate s l b /\
        forall c, c ∈ cpus -> idle_candidate s l c -> wake_cost e s b <= wake_cost e s c) \/
       (2 <= lpsched_pack (sc_lp s) /\ busy_candidate s l b /\
        forall c, c ∈ cpus -> idle_candidate s l c -> wake_cost e s c <> 0))
  end.
Proof.
  intros Hdepth cpus. pose proof (fun c => wake_cost_bounds e s c (Hdepth c)) as Hb.
  assert (forall c, wake_cost e s c < INT_MAX) as Hmax by (intros c; apply Hb).
  unfold lpsched_pack_pick. fold cpus.
  pose proof (idle_scan_spec e l cpus None INT_MAX s s (same_view_refl s) Hmax eq_refl) as Hscan.
  destruct (pack_idle_scan e l cpus None INT_MAX s) as [[best rc] s1]. destruct Hscan as (Hv & Hrc & Hsp).
  pose proof (busy_scan_spec e l cpus s s1 Hv) as Hbusy.
  assert (lpsched_pack (sc_lp s1) = lpsched_pack (sc_lp s)) as ->
    by (destruct Hv as (_ & _ & E & _); by injection E as _ -> _ _ _).
  set (last := fun s2 => match best with
      | None => (best, stat e LPSCHED_ST_PACK_NONE s2)
      | Some _ => (best, stat e (if 1 + LPSCHED_IDLE_SHALLOW <? rc
          then LPSCHED_ST_PACK_DEEP else LPSCHED_ST_PACK_SHALLOW) s2) end).
  assert (forall s2, same_view s s2 -> match (last s2).1 with
    | None => same_view s (last s2).2 /\ forall c, c ∈ cpus -> ~ idle_candidate s l c
    | Some b => b ∈ cpus /\ ((idle_candidate s l b /\
        forall c, c ∈ cpus -> idle_candidate s l c -> wake_cost e s b <= wake_cost e s c) \/
       (2 <= lpsched_pack (sc_lp s) /\ busy_candidate s l b /\
        forall c, c ∈ cpus -> idle_candidate s l c -> wake_cost e s c <> 0)) end) as Hlast.
  { intros s2 Hv2. unfold last. destruct best as [b|]; cbn [fst snd].
    - destruct Hsp as ([?|[Hbin Hbc]] & _ & Hall); [done|]. split; [done|]. left. split; [done|].
      intros c Hin Hic. rewrite <-Hrc. by apply Hall.
    - destruct Hsp. split; [eapply same_view_trans; [exact Hv2|apply stat_view]|done]. }
  destruct best as [b|].
  - rewrite bool_decide_false by done. cbn [negb andb].
    destruct (Z.eqb_spec rc 0) as [E0|Hn0]; cbn [fst snd]; [exact (Hlast s1 Hv)|].
    destruct (Z.leb_spec 2 (lpsched_pack (sc_lp s))) as [Hp|]; [|by apply Hlast].
    destruct (pack_busy_scan e l cpus s1) as [[c|] s2]; [|apply Hlast, Hbusy]. cbn [fst].
    destruct Hbusy as (_ & Hin & Hc). split; [done|]. right. split; [done|]. split; [done|].
    destruct Hsp as (_ & _ & Hall). intros c' Hin' Hic'. specialize (Hall c' Hin' Hic').
    pose proof (Hb c'). pose proof (Hb b). lia.
  - cbn [bool_decide negb andb]. rewrite bool_decide_true by done. cbn [negb andb].
    destruct (Z.leb_spec 2 (lpsched_pack (sc_lp s))) as [Hp|]; [|by apply Hlast].
    destruct (pack_busy_scan e l cpus s1) as [[c|] s2]; [|apply Hlast, Hbusy]. cbn [fst].
    destruct Hbusy as (_ & Hin & Hc). split; [done|]. right. split; [done|]. split; [done|].
    destruct Hsp as [_ Hno]. intros c' Hin' Hic'. by destruct (Hno c' Hin').
Qed.

(** C33. The packing choice is a CPU the LWP may use and idle with the lowest wake cost
    among all such CPUs, or (pack 2, no free sibling of an awake core) a busy CPU fit to
    queue behind; without any idle candidate nothing is chosen at pack 1. *)
Theorem lpsched_pack_pick_cheapest e l pivot s :
  (forall c, 0 <= lpsched_idle_depth (sc_lp s) c < INT_MAX - 1) ->
  let cpus := all_cpus s pivot in
  match (lpsched_pack_pick e l pivot s).1 with
  | None => forall c, c ∈ cpus -> ~ idle_candidate s l c
  | Some b => b ∈ cpus /\
      ((idle_candidate s l b /\
        forall c, c ∈ cpus -> idle_candidate s l c -> wake_cost e s b <= wake_cost e s c) \/
       (2 <= lpsched_pack (sc_lp s) /\ busy_candidate s l b /\
        forall c, c ∈ cpus -> idle_candidate s l c -> wake_cost e s c <> 0))
  end.
Proof.
  intros Hd cpus. pose proof (pack_pick_spec e l pivot s Hd) as H. cbv zeta in H. fold cpus in H.
  destruct (lpsched_pack_pick e l pivot s) as [[b|] s']; cbn [fst snd] in *; [exact H|apply H].
Qed.

(** The number of queued LWPs needed before stealing is raised by the packing level only
    while packing is on, the remote work is timeshared and not overdue, and every thread
    of the local core is idle. *)
Theorem lpsched_min_catch_protects e local remote s :
  let r := (lpsched_min_catch e local remote s).1 in
  (r = min_catch s \/ r = u32 (min_catch s + lpsched_pack (sc_lp s))) /\
  (r <> min_catch s ->
     lpsched_packing (sc_lp s) = true /\
     spc_maxpriority (ciof s remote) <= MAXPRI_USER /\
     (lpsched_accounting (sc_lp s) = true ->
        (lpsched_queue_overdue (v_freq e) (v_now e) remote (sc_lp s)).1 = false) /\
     forall t, t ∈ core_siblings s local -> spc_idle (ciof s t) = true).
Proof.
  cbv zeta. unfold lpsched_min_catch. destruct (lpsched_packing (sc_lp s)) eqn:Hp; cbn [negb]; [|split; [by left|done]].
  destruct (Z.ltb_spec MAXPRI_USER (spc_maxpriority (ciof s remote))) as [|Hpri]; [split; [by left|done]|].
  assert (forall lp s1, lpsched_pack lp = lpsched_pack (sc_lp s) -> s1 = set_sc_lp lp s ->
    (lpsched_accounting (sc_lp s) = true ->
       (lpsched_queue_overdue (v_freq e) (v_now e) remote (sc_lp s)).1 = false) ->
    let r := (if existsb (fun t => negb (spc_idle (ciof s1 t))) (core_siblings s1 local)
              then (min_catch s1, s1)
              else (u32 (min_catch s1 + lpsched_pack (sc_lp s1)),
                    if (0 <? spc_mcount (ciof s1 remote)) &&
                       (spc_mcount (ciof s1 remote) <? u32 (min_catch s1 + lpsched_pack (sc_lp s1)))
                    then stat e LPSCHED_ST_CATCH_HELD s1 else s1)).1 in
    (r = min_catch s \/ r = u32 (min_catch s + lpsched_pack (sc_lp s))) /\
    (r <> min_catch s -> true = true /\ spc_maxpriority (ciof s remote) <= MAXPRI_USER /\
       (lpsched_accounting (sc_lp s) = true ->
          (lpsched_queue_overdue (v_freq e) (v_now e) remote (sc_lp s)).1 = false) /\
       forall t, t ∈ core_siblings s local -> spc_idle (ciof s t) = true)) as Hrest.
  { intros lp s1 Ep -> Hov. change (ciof (set_sc_lp lp s)) with (ciof s).
    change (core_siblings (set_sc_lp lp s) local) with (core_siblings s local). cbn [sc_lp set_sc_lp min_catch].
    destruct (existsb _ _) eqn:Hex; cbn [fst]; [split; [by left|done]|]. rewrite Ep. split; [by right|]. intros _.
    repeat split; auto. intros t Ht. destruct (spc_idle (ciof s t)) eqn:Hi; [done|].
    assert (existsb (fun t => negb (spc_idle (ciof s t))) (core_siblings s local) = true) as Hx; [|congruence].
    apply existsb_exists. exists t. split; [by apply list_elem_of_In|]. by rewrite Hi. }
  destruct (lpsched_accounting (sc_lp s)) eqn:Ha.
  - destruct (lpsched_queue_overdue (v_freq e) (v_now e) remote (sc_lp s)) as [o lp] eqn:Eo.
    destruct o; [split; [by left|done]|]. apply (Hrest lp); [|done|done].
    revert Eo. unfold lpsched_queue_overdue. destruct (negb _); [by intros [= <-]|].
    destruct (_ =? 0); [by intros [= <-]|]. unfold lpsched_us, lpsched_tsc_init. cbv zeta.
    destruct (lpsched_tsc_mhz (sc_lp s) =? 0); by intros [= _ <-].
  - apply (Hrest (sc_lp s)); [done| |done]. by destruct s.
Qed.

Lemma exempt_view e l s : same_view s (lpsched_exempt e l s).2.
Proof.
  unfold lpsched_exempt. cbv zeta.
  destruct (negb _); [eapply same_view_trans; apply stat_view|].
  destruct (nz _ && _); [eapply same_view_trans; apply stat_view|].
  destruct ((0 <? _) && _); [eapply same_view_trans; apply stat_view|apply stat_view].
Qed.

(** ** The chosen CPU may run the LWP *)

Lemma bestcpu_scan_migratable s l cpus best pri :
  (forall c, cpu_pri s c < PRI_COUNT) ->
  (sched_migratable s l best = true \/ (pri = PRI_COUNT /\ exists c, c ∈ cpus /\ sched_migratable s l c = true)) ->
  sched_migratable s l (bestcpu_scan s l cpus best pri) = true.
Proof.
  intros Hp. revert best pri. induction cpus as [|c cpus IH]; intros best pri Hor; cbn [bestcpu_scan].
  { destruct Hor as [?|(_ & c & Hc & _)]; [done|by apply elem_of_nil in Hc]. }
  destruct (sched_migratable s l c) eqn:Hm; cbn [negb].
  - destruct (cpu_is_idle_1stclass (ciof s c)); [done|]. pose proof (Hp c).
    destruct (Z.ltb_spec pri (cpu_pri s c)).
    { destruct Hor as [?|[-> _]]; [|lia]. apply IH. by left. }
    destruct (Z.eqb_spec (cpu_pri s c) pri) as [E|Hne]; cbn [andb]; [|apply IH; by left].
    destruct (_ || _); apply IH; [|by left]. destruct Hor as [?|[-> _]]; [by left|lia].
  - apply IH. destruct Hor as [?|(-> & x & [->|Hx]%elem_of_cons & Hxm)]; [by left|congruence|right; eauto].
Qed.

Lemma bestcpu_migratable s l pivot :
  (forall c, cpu_pri s c < PRI_COUNT) -> (exists c, c ∈ all_cpus s pivot /\ sched_migratable s l c = true) ->
  sched_migratable s l (sched_bestcpu s l pivot) = true.
Proof.
  intros Hp Hex. unfold sched_bestcpu. apply bestcpu_scan_migratable; [done|].
  destruct (sched_migratable s l pivot); [by left|by right].
Qed.

Lemma find_type_migratable s l want c t : find_type s l want c = Some t -> sched_migratable s l t = true.
Proof. unfold find_type. intros [_ [_ H]%andb_true_iff]%List.find_some. done. Qed.

Lemma takecpu_rest_migratable e s l want :
  (forall c, cpu_pri s c < PRI_COUNT) ->
  (exists c, c ∈ all_cpus s (l_cpu l) /\ sched_migratable s l c = true) ->
  sched_migratable s l (takecpu_rest e s l want) = true.
Proof.
  intros Hp Hex. unfold takecpu_rest.
  destruct (find_type s l want (l_cpu l)) as [t|] eqn:E1; [by eapply find_type_migratable|].
  destruct (sched_migratable s l (l_cpu l) && _) eqn:E2; [by apply andb_true_iff in E2 as [? _]|].
  destruct (find_type s l want (v_self e)) as [t|] eqn:E3; [by eapply find_type_migratable|].
  by apply bestcpu_migratable.
Qed.

(** Advancing the round robin changes no CPU's place or state. *)
Definition same_place (k k' : cpu_info) : Prop :=
  spc_curpriority k' = spc_curpriority k /\ spc_maxpriority k' = spc_maxpriority k /\
  spc_offline k' = spc_offline k /\ spc_psid k' = spc_psid k /\
  ci_sib_package k' = ci_sib_package k /\ ci_sib_package1st k' = ci_sib_package1st k /\
  ci_package1st k' = ci_package1st k.

Lemma nextpkg_frame e s c : same_place (ciof s c) (ciof (sched_nextpkg e s).2 c).
Proof.
  unfold sched_nextpkg, ciof, same_place. cbn [snd]. simpl. rewrite !lookup_total_alt.
  destruct (decide (v_self e = c)) as [<-|].
  - rewrite lookup_alter_eq. by destruct (sc_cpus s !! v_self e).
  - by rewrite lookup_alter_ne.
Qed.

Lemma ring_from_ext fuel f g start cur : (forall c, f c = g c) -> ring_from fuel f start cur = ring_from fuel g start cur.
Proof.
  intros H. revert cur. induction fuel as [|n IH]; intros cur; cbn [ring_from]; [done|].
  destruct (_ =? _)%nat; [done|]. by rewrite H, IH.
Qed.

Lemma nextpkg_all_cpus e s p : all_cpus (sched_nextpkg e s).2 p = all_cpus s p.
Proof.
  assert (size (sc_cpus (sched_nextpkg e s).2) = size (sc_cpus s)) as Hsz.
  { unfold sched_nextpkg. cbn [snd]. simpl. rewrite <-!size_dom. by rewrite dom_alter. }
  assert (forall c, package_of (sched_nextpkg e s).2 c = package_of s c) as Hpk.
  { intros c. unfold package_of, ring. rewrite Hsz.
    destruct (nextpkg_frame e s c) as (_ & _ & _ & _ & -> & _). f_equal. apply ring_from_ext.
    intros x. by destruct (nextpkg_frame e s x) as (_ & _ & _ & _ & -> & _). }
  unfold all_cpus. destruct (nextpkg_frame e s p) as (_ & _ & _ & _ & _ & _ & ->).
  set (q := ci_package1st (ciof s p)). f_equal. unfold ring. rewrite Hsz.
  destruct (nextpkg_frame e s q) as (_ & _ & _ & _ & _ & -> & _).
  rewrite (ring_from_ext _ (fun c => ci_sib_package1st (ciof (sched_nextpkg e s).2 c)) (fun c => ci_sib_package1st (ciof s c))).
  - apply map_ext. apply Hpk.
  - intros x. by destruct (nextpkg_frame e s x) as (_ & _ & _ & _ & _ & -> & _).
Qed.

(** For an LWP that is not bound, sched_takecpu answers a CPU the LWP may migrate to
    (processor set and affinity), packed or stock, whenever each CPU ring offers one. *)
Theorem sched_takecpu_migratable e l s :
  has_flag (l_pflag (lof s l)) LP_BOUND = false ->
  (forall c, cpu_pri s c < PRI_COUNT) ->
  (forall c, 0 <= lpsched_idle_depth (sc_lp s) c < INT_MAX - 1) ->
  (forall p, exists c, c ∈ all_cpus s p /\ sched_migratable s (lof s l) c = true) ->
  sched_migratable s (lof s l) (sched_takecpu e l s).1 = true.
Proof.
  intros Hb Hp Hd Hex.
  assert (sched_migratable s (lof s l) (takecpu_stock e l s).1 = true) as Hstock.
  { unfold takecpu_stock. destruct (l_stat (lof s l) =? LSIDL); [|by apply takecpu_rest_migratable].
    destruct (_ && bool_decide _).
    - destruct (sched_migratable s (lof s l) _ && _) eqn:E; [by apply andb_true_iff in E as [? _]|].
      by apply takecpu_rest_migratable.
    - pose proof (nextpkg_frame e s) as Hf. pose proof (nextpkg_all_cpus e s) as Ha.
      destruct (sched_nextpkg e s) as [pkg s1]. cbn [snd fst] in *.
      assert (forall c, sched_migratable s1 (lof s l) c = sched_migratable s (lof s l) c) as Hm.
      { intros c. unfold sched_migratable. by destruct (Hf c) as (_ & _ & -> & -> & _). }
      rewrite <-Hm. change (lof s1 l) with (lof s l). apply bestcpu_migratable.
      + intros c. unfold cpu_pri. destruct (Hf c) as (-> & -> & _). apply Hp.
      + destruct (Hex pkg) as (c & Hc & Hcm). exists c. by rewrite Ha, Hm. }
  destruct (lpsched_packing (sc_lp s)) eqn:Hpk.
  2:{ unfold sched_takecpu. by rewrite Hb, Hpk. }
  unfold sched_takecpu. rewrite Hb, Hpk.
  pose proof (exempt_view e (lof s l) s) as Hv1.
  destruct (lpsched_exempt e (lof s l) s) as [exempt s1]. cbn [snd] in Hv1.
  assert (forall s2, same_view s s2 -> (takecpu_stock e l s2).1 = (takecpu_stock e l s).1) as Es.
  { intros s2 (? & ? & _ & ?). by apply takecpu_stock_ext. }
  destruct exempt; [by rewrite Es|].
  assert (forall c, sched_migratable s1 (lof s l) c = sched_migratable s (lof s l) c) as Hm.
  { intros c. unfold sched_migratable, ciof. by destruct Hv1 as (-> & _). }
  pose proof (pack_pick_spec e (lof s l) (l_cpu (lof s l)) s1) as Hpick. cbv zeta in Hpick.
  destruct (lpsched_pack_pick e (lof s l) (l_cpu (lof s l)) s1) as [[b|] s2]; cbn [fst snd] in Hpick |- *.
  - destruct Hpick as (_ & [[[H _] _]|(_ & [H _] & _)]);
      [intros c; rewrite (view_depth s s1 c Hv1); apply Hd|by rewrite <-Hm|by rewrite <-Hm].
  - destruct Hpick as [Hv2 _]; [intros c; rewrite (view_depth s s1 c Hv1); apply Hd|].
    rewrite Es; [done|]. by eapply same_view_trans.
Qed.

End pack.

(** * Run queue scenarios

    Two single-thread packages; the theorems at work on them, and the case in
    which [sched_idle] takes back the LWP it has just sent away. *)

(** 224 priorities, flags as in <sys/sched.h>, a scheduling class without
    hooks. *)
#[export] Instance plain_sched : SchedParams := {
  PRI_COUNT := 224;
  PS_NONE := 0;
  sched_rrticks := 10;
  RESCHED_REMOTE := 1;
  RESCHED_IDLE := 2;
  RESCHED_UPREEMPT := 4;
  RESCHED_KPREEMPT := 8;
  HAVE_PREEMPTION := true;
  cpu_is_type := fun k w => implb w.1 (spc_idle k) && implb w.2 (spc_1stclass k);
  cpu_is_idle_1stclass := fun k => spc_idle k && spc_1stclass k;
  cpu_is_1stclass := spc_1stclass;
  cpu_is_better := fun a b => spc_1stclass a && negb (spc_1stclass b);
  sched_newts := fun l => l;
  sched_oncpu := fun l => l;
  sched_pstats_hook := fun l _ => l
}.
#[export] Instance plain_sched_ok : SchedParamsOk plain_sched.
Proof. by split. Qed.

Definition idle_cpu (n next : nat) : cpu_info :=
  mk_cpu_info (replicate npri []) (replicate nword 0) 0 0 0 true false true None 0 0 0 n 9 0
    n n next n 1.

Definition lwp5 : lwp :=
  mk_lwp 0 LSRUN 0 0 0 0 0 SCHED_OTHER 0 30 (-1) 0 0 None None 0 false 42 false 0 0 0 0 0.

Definition env0 : senv := mk_senv 0 9 1000 5000 2000000000 false.

Definition two_cpus : sched :=
  mk_sched {[0%nat := idle_cpu 0 1; 1%nat := idle_cpu 1 0]} {[5%nat := lwp5]} (lpsched_boot 2)
    10 1 10 100 true.

Section empty.
Context `{M : Machine}.

Lemma empty_queue p : 0 <= p < 224 -> (replicate npri ([] : list nat)) !!! Z.to_nat p = [].
Proof. intros Hp. apply lookup_total_replicate_2. unfold npri. simpl. lia. Qed.

Lemma idle_cpu_inv n next h : bits_inv (idle_cpu n next) /\ lwps_inv h n (idle_cpu n next).
Proof.
  assert (forall p, 0 <= p < 224 -> sched_getrq (idle_cpu n next) p = []) as Hq by apply empty_queue.
  split; split.
  - apply length_replicate.
  - apply length_replicate.
  - apply Forall_replicate. done.
  - intros p Hp. rewrite Hq by done. rewrite bool_decide_true by done. unfold marked. cbn [spc_bitmap idle_cpu].
    rewrite lookup_total_replicate_2; [apply Z.bits_0|]. apply word_of_lt. done.
  - done.
  - intros p Hp Hne. by rewrite Hq in Hne.
  - by left.
  - replace (on_runq (idle_cpu n next)) with (@nil nat) by (vm_compute; reflexivity). constructor.
  - intros p l Hp Hl. rewrite Hq in Hl by done. by apply elem_of_nil in Hl.
  - vm_compute. reflexivity.
  - replace (on_runq (idle_cpu n next)) with (@nil nat) by (vm_compute; reflexivity). reflexivity.
Qed.

End empty.

Lemma two_cpus_inv : sched_inv two_cpus.
Proof.
  split.
  - intros c k. unfold two_cpus; simpl. intros [[<- <-]|[_ Hk]]%lookup_insert_Some; [apply idle_cpu_inv|].
    apply lookup_singleton_Some in Hk as [<- <-]. apply idle_cpu_inv.
  - intros l lw. unfold two_cpus; simpl. intros [<- <-]%lookup_singleton_Some. by vm_compute.
Qed.

(** LWP 5 on the queue of CPU 0. *)
Definition queued5 : sched := default two_cpus (sched_enqueue env0 5 two_cpus).

Lemma lwp5_cpu0 : sc_lwps two_cpus !! 5%nat = Some lwp5 /\ sc_cpus two_cpus !! 0%nat = Some (idle_cpu 0 1).
Proof. split; reflexivity. Qed.

Lemma queued5_inv : sched_inv queued5 /\ exists k, sc_cpus queued5 !! 0%nat = Some k /\ on_runq k ≡ₚ [5%nat].
Proof.
  destruct (sched_enqueue_ok env0 5 lwp5 (idle_cpu 0 1) two_cpus two_cpus_inv) as (s' & k' & E & Hs & Hk & Hp & _);
    [reflexivity|reflexivity|vm_compute; apply not_elem_of_nil|].
  unfold queued5. rewrite E. simpl. split; [done|]. exists k'. split; [exact Hk|]. rewrite Hp. by vm_compute.
Qed.

Lemma sched_queue_ops_inv_witness :
  exists s' k', sched_enqueue env0 5 two_cpus = Some s' /\ sched_inv s' /\
     sc_cpus s' !! 0%nat = Some k' /\ on_runq k' ≡ₚ [5%nat] /\
     5%nat ∈ sched_getrq k' 30 /\ spc_maxpriority k' = 30.
Proof.
  destruct (sched_queue_ops_inv env0 5 lwp5 (idle_cpu 0 1) two_cpus two_cpus_inv eq_refl eq_refl) as [H _].
  destruct H as (s' & k' & H); [vm_compute; apply not_elem_of_nil|]. exists s', k'. exact H.
Defined.

Lemma sched_nextlwp_highest_witness :
  exists k, sc_cpus queued5 !! 0%nat = Some k /\ on_runq k ≡ₚ [5%nat] /\
  exists l lw q, (sched_nextlwp env0 queued5).1 = Some l /\
     sc_lwps queued5 !! l = Some lw /\ sched_getrq k (lwp_eprio lw) = l :: q /\
     forall x lx, x ∈ on_runq k -> sc_lwps queued5 !! x = Some lx -> lwp_eprio lx <= lwp_eprio lw.
Proof.
  destruct queued5_inv as [Hs (k & Hk & Hp)]. exists k. split; [exact Hk|]. split; [exact Hp|].
  apply (sched_nextlwp_highest env0 queued5 k Hs Hk).
  - assert (spc_migrating <$> (sc_cpus queued5 !! 0%nat) = Some None) as E by (vm_compute; reflexivity).
    rewrite Hk in E. by injection E.
  - rewrite Hp. reflexivity.
  - intros E. rewrite E in Hp. by apply Permutation_nil_cons in Hp.
Defined.

(** CPU 1 takes it. *)
Definition env1 : senv := mk_senv 1 9 1000 5000 2000000000 false.

Lemma sched_catchlwp_moves_witness :
  exists r s', sched_catchlwp env1 0 queued5 = Some (r, s') /\ sched_inv s' /\ r = Some 5%nat /\
    l_cpu (lof s' 5) = 1%nat.
Proof.
  destruct queued5_inv as [Hs (k & Hk & Hp)].
  destruct (sched_catchlwp_moves env1 0 queued5 (idle_cpu 1 0) k Hs) as (r & s' & E & Hs' & H);
    [vm_compute; reflexivity|exact Hk|done|].
  exists r, s'. split; [exact E|]. split; [exact Hs'|].
  assert (option_map (fun p => (p.1, l_cpu (lof p.2 5))) (sched_catchlwp env1 0 queued5) = Some (Some 5%nat, 1%nat))
    as E2 by (vm_compute; reflexivity).
  rewrite E in E2. by injection E2.
Defined.

(** CPU 0 is to push LWP 5 to CPU 1. *)
Definition pushing : sched :=
  on_lwp 5 (set_l_target_cpu (Some 1%nat)) (on_ci 0 (set_spc_migrating (Some 5%nat)) queued5).
Definition at_once (_ : nat) : bool := true.
Definition no_gap (_ : nat) (s : sched) : sched := s.

(** sched_idle can push an LWP to another CPU and steal it back in the same call: the
    loop over the packages compares the local CPU, not the CPU examined, with the one
    the LWP was sent to. *)
Theorem sched_idle_takes_back :
  (exists s1, idle_push at_once no_gap 1 env0 pushing = Some (Some 1%nat, s1) /\ l_cpu (lof s1 5) = 1%nat) /\
  (exists s', sched_idle at_once no_gap 1 env0 pushing = Some s' /\ l_cpu (lof s' 5) = 0%nat).
Proof.
  split.
  - destruct (idle_push at_once no_gap 1 env0 pushing) as [[m s1]|] eqn:E; [|by vm_compute in E].
    assert (option_map (fun p => (p.1, l_cpu (lof p.2 5))) (idle_push at_once no_gap 1 env0 pushing)
      = Some (Some 1%nat, 1%nat)) as E2 by (vm_compute; reflexivity).
    rewrite E in E2. injection E2 as -> E2. by exists s1.
  - destruct (sched_idle at_once no_gap 1 env0 pushing) as [s'|] eqn:E; [|by vm_compute in E].
    exists s'. split; [done|].
    assert (option_map (fun p => l_cpu (lof p 5)) (sched_idle at_once no_gap 1 env0 pushing) = Some 0%nat)
      as E2 by (vm_compute; reflexivity).
    rewrite E in E2. by injection E2.
Qed.

(** The packages of the two CPUs form a ring of two. *)
Lemma ring_visits_cycle_witness :
  ring two_cpus (fun c => ci_sib_package1st (ciof two_cpus c)) 0 = [0; 1]%nat.
Proof.
  rewrite (ring_visits_cycle two_cpus (fun c => ci_sib_package1st (ciof two_cpus c)) 0 2).
  - vm_compute. reflexivity.
  - change (size (sc_cpus two_cpus)) with 2%nat. lia.
  - vm_compute. reflexivity.
  - intros j Hj. replace j with 1%nat by lia. vm_compute. done.
Defined.

Lemma sched_takecpu_stock_witness :
  (sched_takecpu env0 5 two_cpus).1 = (takecpu_stock env0 5 two_cpus).1.
Proof. apply (sched_takecpu_stock env0 5 two_cpus); [vm_compute; reflexivity|left; vm_compute; reflexivity]. Defined.

Lemma all_active c : 0 <= lpsched_idle_depth (sc_lp two_cpus) c < INT_MAX - 1.
Proof.
  unfold lpsched_idle_depth. destruct (Nat.ltb_spec c (length (lp_cpu (sc_lp two_cpus)))); [|by vm_compute].
  simpl in H. destruct c as [|[|c]]; [by vm_compute|by vm_compute|lia].
Qed.

Lemma lpsched_pack_pick_cheapest_witness :
  (lpsched_pack_pick env0 lwp5 0 two_cpus).1 = Some 0%nat /\
  0%nat ∈ all_cpus two_cpus 0 /\
      ((idle_candidate two_cpus lwp5 0 /\
        forall c, c ∈ all_cpus two_cpus 0 -> idle_candidate two_cpus lwp5 c ->
          wake_cost env0 two_cpus 0 <= wake_cost env0 two_cpus c) \/
       (2 <= lpsched_pack (sc_lp two_cpus) /\ busy_candidate two_cpus lwp5 0 /\
        forall c, c ∈ all_cpus two_cpus 0 -> idle_candidate two_cpus lwp5 c -> wake_cost env0 two_cpus c <> 0)).
Proof.
  assert ((lpsched_pack_pick env0 lwp5 0 two_cpus).1 = Some 0%nat) as E by (vm_compute; reflexivity).
  split; [exact E|]. pose proof (lpsched_pack_pick_cheapest env0 lwp5 0 two_cpus all_active) as H.
  cbv zeta in H. rewrite E in H. exact H.
Defined.

Lemma sched_takecpu_migratable_witness :
  sched_migratable two_cpus (lof two_cpus 5) (sched_takecpu env0 5 two_cpus).1 = true.
Proof.
  apply (sched_takecpu_migratable env0 5 two_cpus).
  - vm_compute. reflexivity.
  - intros c. unfold cpu_pri, ciof. destruct c as [|[|c]]; [by vm_compute|by vm_compute|].
    rewrite lookup_total_alt. unfold two_cpus; simpl.
    rewrite lookup_insert_ne, lookup_singleton_ne by lia. by vm_compute.
  - apply all_active.
  - intros p. exists (ci_package1st (ciof two_cpus p)). split; [by left|].
    destruct p as [|[|p]]; [by vm_compute|by vm_compute|]. unfold ciof. rewrite lookup_total_alt.
    unfold two_cpus; simpl. rewrite lookup_insert_ne, lookup_singleton_ne by lia. by vm_compute.
Defined.
