(* ===== verification/Timecounter.v ===== *)
(** * Reading time across a long tickless sleep

    The pieces of kernel/kern/kern_tc.c that the tickless idle relies on: the
    bound on how long the primary CPU may go without a windup, the scaled
    addition that does not lose whole seconds, and [binuptime].
    [tc_get_timecount] is a function pointer: the value read is an input. *)

From stdpp Require Import base numbers list.
From S2P Require Import Prelude Lwp.

Record timecounter := mk_tc {
  tc_counter_mask : Z;   (* u_int *)
  tc_frequency : Z       (* uint64_t, Hz *)
}.

(** struct bintime: seconds and a 64-bit binary fraction. *)
Record bintime := mk_bt {
  bt_sec : Z;
  bt_frac : Z
}.

Record timehands := mk_th {
  th_counter : timecounter;
  th_offset : bintime;
  th_scale : Z;
  th_offset_count : Z;
  th_generation : Z
}.

Section tc.
Context `{M : Machine}.

Definition tc_half_wrap_ticks (tc : option timecounter) : Z :=
  match tc with
  | None => UINT64_MAX
  | Some tc => if tc_frequency tc =? 0 then UINT64_MAX
               else u64 (tc_counter_mask tc * hz) / tc_frequency tc / 2
  end.

(** The active counter (of the timehands) and the selected one. *)
Definition tc_max_windup_ticks (th : timehands) (selected : option timecounter) : Z :=
  let a := tc_half_wrap_ticks (Some (th_counter th)) in
  let b := tc_half_wrap_ticks selected in
  let a := if b <? a then b else a in
  if INT_MAX <? a then INT_MAX else a.

(** bintime_addx of <sys/time.h>: add [x] to the fraction, with carry. *)
Definition bintime_addx (bt : bintime) (x : Z) : bintime :=
  let frac := u64 (bt_frac bt + x) in
  mk_bt (if frac <? bt_frac bt then bt_sec bt + 1 else bt_sec bt) frac.

Definition tc_bintime_addscaled (bt : bintime) (scale delta : Z) : bintime :=
  let x := u64 (Z.shiftr scale 32 * delta) in
  let bt := mk_bt (bt_sec bt + Z.shiftr x 32) (bt_frac bt) in
  let bt := bintime_addx bt (u64 (Z.shiftl x 32)) in
  bintime_addx bt (u64 (Z.land scale 0xffffffff * delta)).

(** [count] is what the counter reads. *)
Definition tc_delta (th : timehands) (count : Z) : Z :=
  Z.land (u32 (count - th_offset_count th)) (tc_counter_mask (th_counter th)).

(** One turn of the loop: the timehands found, what the counter read and the
    generation found afterwards. *)
Record tc_attempt := mk_attempt {
  at_th : timehands;
  at_count : Z;
  at_gen2 : Z
}.

Definition binuptime_turn (a : tc_attempt) : option bintime :=
  let th := at_th a in
  let gen := th_generation th in
  let bt := tc_bintime_addscaled (th_offset th) (th_scale th) (tc_delta th (at_count a)) in
  if (gen =? 0) || negb (gen =? at_gen2 a) then None else Some bt.

(** The result with the LWP's [l_tcgen] during and after the loop; [None]
    while every turn so far was disturbed. *)
Fixpoint binuptime_loop (turns : list tc_attempt) : option bintime :=
  match turns with
  | [] => None
  | a :: turns => match binuptime_turn a with
                  | Some bt => Some bt
                  | None => binuptime_loop turns
                  end
  end.

Definition binuptime (removals l_tcgen : Z) (turns : list tc_attempt) :
    option (bintime * Z * Z) :=
  let lgen := l_tcgen in
  let during := if lgen =? 0 then removals else lgen in
  bt ← binuptime_loop turns; Some (bt, during, lgen).

(** ** The scaled addition is exact *)

(** A bintime in units of 2^-64 seconds. *)
Definition bt_val (bt : bintime) : Z := bt_sec bt * 2 ^ 64 + bt_frac bt.

Definition bt_ok (bt : bintime) : Prop := in_u64 (bt_frac bt).

Lemma bintime_addx_val bt x : bt_ok bt -> in_u64 x ->
  bt_val (bintime_addx bt x) = bt_val bt + x /\ bt_ok (bintime_addx bt x).
Proof.
  unfold bt_ok, in_u64, bt_val, bintime_addx, u64. intros Hb Hx. simpl.
  destruct (Z_lt_dec (bt_frac bt + x) (2 ^ 64)) as [H|H].
  - rewrite Z.mod_small by lia. destruct (Z.ltb_spec (bt_frac bt + x) (bt_frac bt)); lia.
  - assert ((bt_frac bt + x) mod 2 ^ 64 = bt_frac bt + x - 2 ^ 64) as ->.
    { symmetry. apply (Z.mod_unique _ _ 1); lia. }
    destruct (Z.ltb_spec (bt_frac bt + x - 2 ^ 64) (bt_frac bt)); lia.
Qed.

Lemma split_scale scale : 0 <= scale ->
  scale = Z.shiftr scale 32 * 2 ^ 32 + Z.land scale 0xffffffff.
Proof.
  intros H. change 0xffffffff with (Z.ones 32). rewrite Z.land_ones, Z.shiftr_div_pow2 by lia.
  rewrite (Z.div_mod scale (2 ^ 32)) at 1 by lia. lia.
Qed.

(** tc_bintime_addscaled adds scale * delta to the bintime exactly, for every 64-bit
    scale and 32-bit delta, also when the product needs more than 64 bits. *)
Theorem tc_bintime_addscaled_exact bt scale delta :
  bt_ok bt -> in_u64 scale -> in_u32 delta ->
  bt_val (tc_bintime_addscaled bt scale delta) = bt_val bt + scale * delta /\
  bt_ok (tc_bintime_addscaled bt scale delta).
Proof.
  intros Hb Hs Hd. pose proof (split_scale scale (proj1 Hs)) as E.
  assert (0 <= Z.shiftr scale 32 < 2 ^ 32) as Hh.
  { rewrite Z.shiftr_div_pow2 by lia. unfold in_u64 in Hs. zdm. }
  assert (0 <= Z.land scale 0xffffffff < 2 ^ 32) as Hl.
  { change 0xffffffff with (Z.ones 32). rewrite Z.land_ones by lia. apply Z.mod_pos_bound. lia. }
  unfold tc_bintime_addscaled. revert E Hh Hl. generalize (Z.shiftr scale 32) (Z.land scale 0xffffffff).
  intros h l E Hh Hl. unfold in_u32, in_u64 in *.
  rewrite (u64_id (h * delta)) by (unfold in_u64; nia).
  rewrite (u64_id (l * delta)) by (unfold in_u64; nia).
  assert (0 <= h * delta < 2 ^ 64) as Hx by nia. revert Hx E.
  set (x := h * delta). intros Hx E.
  assert (u64 (Z.shiftl x 32) = (x mod 2 ^ 32) * 2 ^ 32) as ->.
  { unfold u64. rewrite Z.shiftl_mul_pow2 by lia. zdm. }
  rewrite Z.shiftr_div_pow2 by lia.
  set (b1 := mk_bt (bt_sec bt + x / 2 ^ 32) (bt_frac bt)).
  destruct (bintime_addx_val b1 (x mod 2 ^ 32 * 2 ^ 32)) as [E1 O1];
    [exact Hb|unfold in_u64; zdm|].
  destruct (bintime_addx_val (bintime_addx b1 (x mod 2 ^ 32 * 2 ^ 32)) (l * delta))
    as [E2 O2]; [done|unfold in_u64; nia|].
  split; [|done]. rewrite E2, E1. unfold b1, bt_val. simpl.
  pose proof (Z.div_mod x (2 ^ 32) ltac:(lia)). subst x. rewrite E. nia.
Qed.

(** ** The counter does not wrap before the windup *)

Context `{!MachineOk M}.

(** A counter of [k] bits. *)
Definition mask_ok (k : Z) (tc : timecounter) : Prop :=
  0 < k <= 32 /\ tc_counter_mask tc = 2 ^ k - 1.

Lemma max_windup_le_half th sel tc :
  tc = th_counter th \/ sel = Some tc ->
  tc_max_windup_ticks th sel <= tc_half_wrap_ticks (Some tc).
Proof.
  unfold tc_max_windup_ticks. intros [-> | ->]; repeat cmp_case; lia.
Qed.

Lemma half_wrap_counts tc k n counts :
  mask_ok k tc -> 0 < tc_frequency tc -> hz < 2 ^ 32 ->
  0 <= n <= tc_half_wrap_ticks (Some tc) ->
  counts * hz <= n * tc_frequency tc ->
  2 * counts <= tc_counter_mask tc.
Proof.
  intros [Hk Hm] Hf Hhz Hn Hc. unfold tc_half_wrap_ticks in Hn.
  destruct (Z.eqb_spec (tc_frequency tc) 0); [lia|].
  pose proof hz_pos.
  assert (2 ^ k <= 2 ^ 32) by (apply Z.pow_le_mono_r; lia).
  assert (0 < 2 ^ k) by (apply Z.pow_pos_nonneg; lia).
  rewrite u64_id in Hn by (unfold in_u64; rewrite Hm; nia).
  set (m := tc_counter_mask tc) in *. set (f := tc_frequency tc) in *.
  assert (2 * n * f <= m * hz).
  { assert (n * 2 <= m * hz / f) by (Z.to_euclidean_division_equations; lia).
    assert (m * hz / f * f <= m * hz) by (Z.to_euclidean_division_equations; nia). nia. }
  nia.
Qed.

(** If the primary CPU sleeps no longer than tc_max_windup_ticks, neither the active nor
    the selected counter wraps: tc_delta is exactly the counts that passed; and the
    bound fits an int. *)
Theorem tc_windup_bound_no_wrap th sel tc k n counts base :
  tc = th_counter th \/ sel = Some tc ->
  mask_ok k tc -> 0 < tc_frequency tc -> hz < 2 ^ 32 ->
  0 <= n <= tc_max_windup_ticks th sel ->
  0 <= counts -> counts * hz <= n * tc_frequency tc ->
  0 <= tc_max_windup_ticks th sel <= INT_MAX /\
  tc_delta (mk_th tc (th_offset th) (th_scale th) base (th_generation th))
    (u32 (base + counts)) = counts.
Proof.
  intros Htc Hm Hf Hhz Hn Hc0 Hc.
  pose proof (max_windup_le_half th sel tc Htc) as Hle.
  pose proof (half_wrap_counts tc k n counts Hm Hf Hhz ltac:(lia) Hc) as H2.
  split.
  { split; [lia|]. unfold tc_max_windup_ticks. repeat cmp_case; unfold INT_MAX in *; lia. }
  unfold tc_delta. simpl. destruct Hm as [Hk Hm]. rewrite Hm in *.
  replace (2 ^ k - 1) with (Z.ones k) by (rewrite Z.ones_equiv; lia).
  rewrite Z.land_ones by lia.
  assert (2 ^ k <= 2 ^ 32) by (apply Z.pow_le_mono_r; lia).
  assert (u32 (u32 (base + counts) - base) = counts) as ->.
  { unfold u32. rewrite Zminus_mod_idemp_l. replace (base + counts - base) with counts by lia.
    apply Z.mod_small. lia. }
  apply Z.mod_small. lia.
Qed.

End tc.

(** A 2.112 GHz TSC, 32 bits used, read a second and a half after the windup. *)
Definition tsc_tc : timecounter := mk_tc (2 ^ 32 - 1) 2112000000.
Definition tsc_th : timehands := mk_th tsc_tc (mk_bt 1000 0) (2 ^ 64 / 2112000000) 4000000000 7.

Lemma tc_bintime_addscaled_exact_witness :
  bt_val (tc_bintime_addscaled (mk_bt 1000 (2 ^ 63)) (2 ^ 64 / 2112000000) 3168000000) =
    bt_val (mk_bt 1000 (2 ^ 63)) + 2 ^ 64 / 2112000000 * 3168000000 /\
  bt_ok (tc_bintime_addscaled (mk_bt 1000 (2 ^ 63)) (2 ^ 64 / 2112000000) 3168000000).
Proof.
  apply (tc_bintime_addscaled_exact (mk_bt 1000 (2 ^ 63)) (2 ^ 64 / 2112000000) 3168000000).
  - split; simpl; lia.
  - split; vm_compute; congruence.
  - split; lia.
Defined.

Lemma tc_windup_bound_no_wrap_witness :
  tc_max_windup_ticks tsc_th (Some tsc_tc) = 101 /\
  tc_delta (mk_th tsc_tc (mk_bt 1000 0) (2 ^ 64 / 2112000000) 4000000000 7)
    (u32 (4000000000 + 2112000000)) = 2112000000.
Proof.
  split; [reflexivity|].
  apply (tc_windup_bound_no_wrap tsc_th (Some tsc_tc) tsc_tc 32 100 2112000000 4000000000).
  - left. reflexivity.
  - split; [lia|reflexivity].
  - reflexivity.
  - reflexivity.
  - split; vm_compute; congruence.
  - lia.
  - vm_compute. congruence.
Defined.
