(* ===== verification/Lapic.v ===== *)
(** * The local APIC timer as a one-shot

    kernel/arch/x86/x86/lapic_tl.h and the timer routines of lapic.c, for the
    CPU they run on.  What the hardware answers (the interrupt request bit, the
    current count, the time stamp counter) is an input; what is written to the
    timer's registers is state. *)

From stdpp Require Import base numbers list.
From S2P Require Import Prelude.

(** ** lapic_tl.h *)

Definition lapic_tl_counts (tsc_delta tsc_hz lapic_hz : Z) : Z :=
  if tsc_hz =? 0 then 0 else
  let whole := tsc_delta / tsc_hz in
  let rest := tsc_delta mod tsc_hz in
  u64 (u64 (whole * lapic_hz) + u64 (rest * lapic_hz) / tsc_hz).

Definition LAPIC_TL_SLOP (tval : Z) : Z := tval / 1024 + 1.

Record tl_credit := mk_credit {
  cr_elapsed : Z;
  cr_frac : Z;
  cr_manual : Z
}.

Definition b2z (b : bool) : Z := if b then 1 else 0.

Definition lapic_tl_credit (carried since tval : Z) (pending : bool) : tl_credit :=
  let counted := u64 (carried + since) in
  let counted := if pending && (counted <? tval) &&
                    (tval <=? u64 (counted + LAPIC_TL_SLOP tval))
                 then tval else counted in
  let elapsed := u32 (counted / tval) in
  mk_credit elapsed (u32 (counted mod tval))
    (if b2z pending <? elapsed then elapsed - b2z pending else 0).

(** ** lapic.c *)

Record lapic_tlstate := mk_tlstate {
  frac : Z;
  entry_tsc : Z
}.

#[export] Instance lapic_tlstate_inhabited : Inhabited lapic_tlstate :=
  populate (mk_tlstate 0 0).

(** Mode bits of the timer's local vector table entry and the DIV1 divisor, of
    <machine/i82489reg.h>. *)
Class LapicRegs := {
  LAPIC_LVT_TMM_PERIODIC : Z;
  LAPIC_LVT_MASKED : Z;
  LAPIC_TIMER_VECTOR : Z;
  LAPIC_DCRT_DIV1 : Z
}.

Record lapic := mk_lapic {
  lapic_tval : Z;  (* counts of one tick *)
  lapic_per_second : Z;  (* counts of one second *)
  cpu_cc_freq : Z;  (* TSC rate, 0 if unknown *)
  ci_index : nat;
  ci_lapic_counter : Z;  (* uint32_t *)
  timer_ev_count : Z;  (* uint64_t *)
  ci_ipending_timer : bool;
  tlstate : list lapic_tlstate;
  LVT_TIMER : Z;
  DCR_TIMER : Z;
  ICR_TIMER : Z
}.

Definition set_lapic_tval (v : Z) (r : lapic) : lapic :=
  mk_lapic v (lapic_per_second r) (cpu_cc_freq r) (ci_index r)
    (ci_lapic_counter r) (timer_ev_count r) (ci_ipending_timer r) (tlstate r)
    (LVT_TIMER r) (DCR_TIMER r) (ICR_TIMER r).
Definition set_lapic_per_second (v : Z) (r : lapic) : lapic :=
  mk_lapic (lapic_tval r) v (cpu_cc_freq r) (ci_index r) (ci_lapic_counter r)
    (timer_ev_count r) (ci_ipending_timer r) (tlstate r) (LVT_TIMER r)
    (DCR_TIMER r) (ICR_TIMER r).
Definition set_cpu_cc_freq (v : Z) (r : lapic) : lapic :=
  mk_lapic (lapic_tval r) (lapic_per_second r) v (ci_index r)
    (ci_lapic_counter r) (timer_ev_count r) (ci_ipending_timer r) (tlstate r)
    (LVT_TIMER r) (DCR_TIMER r) (ICR_TIMER r).
Definition set_ci_index (v : nat) (r : lapic) : lapic :=
  mk_lapic (lapic_tval r) (lapic_per_second r) (cpu_cc_freq r) v
    (ci_lapic_counter r) (timer_ev_count r) (ci_ipending_timer r) (tlstate r)
    (LVT_TIMER r) (DCR_TIMER r) (ICR_TIMER r).
Definition set_ci_lapic_counter (v : Z) (r : lapic) : lapic :=
  mk_lapic (lapic_tval r) (lapic_per_second r) (cpu_cc_freq r) (ci_index r) v
    (timer_ev_count r) (ci_ipending_timer r) (tlstate r) (LVT_TIMER r)
    (DCR_TIMER r) (ICR_TIMER r).
Definition set_timer_ev_count (v : Z) (r : lapic) : lapic :=
  mk_lapic (lapic_tval r) (lapic_per_second r) (cpu_cc_freq r) (ci_index r)
    (ci_lapic_counter r) v (ci_ipending_timer r) (tlstate r) (LVT_TIMER r)
    (DCR_TIMER r) (ICR_TIMER r).
Definition set_ci_ipending_timer (v : bool) (r : lapic) : lapic :=
  mk_lapic (lapic_tval r) (lapic_per_second r) (cpu_cc_freq r) (ci_index r)
    (ci_lapic_counter r) (timer_ev_count r) v (tlstate r) (LVT_TIMER r)
    (DCR_TIMER r) (ICR_TIMER r).
Definition set_tlstate (v : list lapic_tlstate) (r : lapic) : lapic :=
  mk_lapic (lapic_tval r) (lapic_per_second r) (cpu_cc_freq r) (ci_index r)
    (ci_lapic_counter r) (timer_ev_count r) (ci_ipending_timer r) v (LVT_TIMER
    r) (DCR_TIMER r) (ICR_TIMER r).
Definition set_LVT_TIMER (v : Z) (r : lapic) : lapic :=
  mk_lapic (lapic_tval r) (lapic_per_second r) (cpu_cc_freq r) (ci_index r)
    (ci_lapic_counter r) (timer_ev_count r) (ci_ipending_timer r) (tlstate r)
    v (DCR_TIMER r) (ICR_TIMER r).
Definition set_DCR_TIMER (v : Z) (r : lapic) : lapic :=
  mk_lapic (lapic_tval r) (lapic_per_second r) (cpu_cc_freq r) (ci_index r)
    (ci_lapic_counter r) (timer_ev_count r) (ci_ipending_timer r) (tlstate r)
    (LVT_TIMER r) v (ICR_TIMER r).
Definition set_ICR_TIMER (v : Z) (r : lapic) : lapic :=
  mk_lapic (lapic_tval r) (lapic_per_second r) (cpu_cc_freq r) (ci_index r)
    (ci_lapic_counter r) (timer_ev_count r) (ci_ipending_timer r) (tlstate r)
    (LVT_TIMER r) (DCR_TIMER r) v.

(** [idx < MAXCPUS]: the array has [MAXCPUS] entries. *)
Definition tl_has (s : lapic) : bool := (ci_index s <? length (tlstate s))%nat.
Definition tl_of (s : lapic) : lapic_tlstate := tlstate s !!! ci_index s.
Definition tl_put (t : lapic_tlstate) (s : lapic) : lapic :=
  set_tlstate (<[ci_index s := t]> (tlstate s)) s.

Section lapic.
Context `{LR : LapicRegs}.

(** [tick1], [tick2]: the reads of the current count; [irr]: the request bit. *)
Definition lapic_get_timecount (tick1 tick2 : Z) (irr : bool) (s : lapic) : Z :=
  let cur_timer :=
    if u32 (lapic_tval s - 1) <=? tick1 then
      if irr then u32 (tick1 - lapic_tval s) else tick1
    else if ci_ipending_timer s then u32 (tick2 - lapic_tval s)
    else tick1 in
  u32 (ci_lapic_counter s - cur_timer).

(** The bookkeeping of a timer interrupt; it then calls [hardclock]. *)
Definition lapic_clockintr (s : lapic) : lapic :=
  set_timer_ev_count (u64 (timer_ev_count s + 1))
    (set_ci_lapic_counter (u32 (ci_lapic_counter s + lapic_tval s)) s).

Definition lapic_reset (s : lapic) : lapic :=
  let s := set_LVT_TIMER (Z.lor LAPIC_LVT_TMM_PERIODIC LAPIC_LVT_MASKED) s in
  let s := set_DCR_TIMER LAPIC_DCRT_DIV1 s in
  let s := set_ICR_TIMER (lapic_tval s) s in
  set_LVT_TIMER (Z.lor LAPIC_LVT_TMM_PERIODIC LAPIC_TIMER_VECTOR) s.

(** What [lapic_oneshot] reads. *)
Record oneshot_hw := mk_oneshot_hw {
  os_irr : bool;
  os_t0 : Z;
  os_ccr : Z;
  os_t1 : Z
}.

Definition oneshot_used (tval ccr : Z) : Z := if ccr <? tval then tval - ccr else 0.

Definition oneshot_count (tval nticks : Z) : Z :=
  let count := u64 (tval * nticks) in
  let count := if count =? 0 then 1 else count in
  if 0xffffffff <? count then 0xffffffff else count.

Definition tsc_mid (t0 t1 : Z) : Z := u64 (t0 + u64 (t1 - t0) / 2).

Definition lapic_oneshot (hw : oneshot_hw) (nticks : Z) (s : lapic) : bool * lapic :=
  if os_irr hw then (false, s) else
  let s := if tl_has s
           then tl_put (mk_tlstate (u32 (frac (tl_of s) + oneshot_used (lapic_tval s) (os_ccr hw)))
                                   (tsc_mid (os_t0 hw) (os_t1 hw))) s
           else s in
  let s := set_LVT_TIMER LAPIC_TIMER_VECTOR s in
  let s := set_DCR_TIMER LAPIC_DCRT_DIV1 s in
  (true, set_ICR_TIMER (u32 (oneshot_count (lapic_tval s) nticks)) s).

(** What [lapic_oneshot_done] reads. *)
Record done_hw := mk_done_hw {
  dn_rem : Z;
  dn_t0 : Z;
  dn_t1 : Z;
  dn_irr : bool
}.

Definition done_uses_tsc (s : lapic) : bool := negb (cpu_cc_freq s =? 0) && tl_has s.

(** The time since the entry sample, in timer counts. *)
Definition done_since (hw : done_hw) (nticks : Z) (s : lapic) : Z :=
  if done_uses_tsc s
  then lapic_tl_counts (u64 (tsc_mid (dn_t0 hw) (dn_t1 hw) - entry_tsc (tl_of s)))
         (cpu_cc_freq s) (lapic_per_second s)
  else
    let counted := u64 (lapic_tval s * nticks) in
    if dn_irr hw then counted
    else if dn_rem hw <=? counted then counted - dn_rem hw else 0.

Definition lapic_oneshot_done (hw : done_hw) (nticks : Z) (s : lapic) :
    Z * bool * lapic :=
  let carried := if tl_has s then frac (tl_of s) else 0 in
  let since := done_since hw nticks s in
  let cr := lapic_tl_credit carried since (lapic_tval s) (dn_irr hw) in
  let s := set_LVT_TIMER (Z.lor LAPIC_LVT_TMM_PERIODIC LAPIC_TIMER_VECTOR) s in
  let s := set_DCR_TIMER LAPIC_DCRT_DIV1 s in
  let s := set_ICR_TIMER (lapic_tval s) s in
  let s := if tl_has s then tl_put (mk_tlstate (cr_frac cr) (entry_tsc (tl_of s))) s else s in
  let s := set_ci_lapic_counter (u32 (ci_lapic_counter s + u64 (cr_manual cr * lapic_tval s))) s in
  (cr_elapsed cr, dn_irr hw, s).

End lapic.

#[global] Arguments lapic_tl_credit : simpl never.
#[global] Arguments lapic_tl_counts : simpl never.
#[global] Arguments tl_of : simpl never.
#[global] Arguments tl_has : simpl never.
#[global] Arguments oneshot_count : simpl never.
