(* ===== verification/LapicThms.v ===== *)
(** * Tickless sleeps keep the tick rate exact

    The conversion of TSC cycles, the credit of one sleep, and what a sequence
    of sleeps adds up to. *)

From stdpp Require Import base numbers list.
From S2P Require Import Prelude Lapic.

(** ** The arithmetic of lapic_tl.h *)

Lemma tl_counts_val d T L :
  0 < T -> in_u64 d -> 0 <= L -> T * L <= 2 ^ 64 -> d * L / T < 2 ^ 64 ->
  lapic_tl_counts d T L = d * L / T.
Proof.
  unfold in_u64, lapic_tl_counts. intros HT Hd HL Hov Hres.
  destruct (Z.eqb_spec T 0); [lia|].
  pose proof (Z.div_mod d T ltac:(lia)) as E.
  pose proof (Z.mod_pos_bound d T ltac:(lia)) as Hr.
  set (w := d / T) in *. set (r := d mod T) in *.
  assert (d * L / T = w * L + r * L / T) as Eq.
  { rewrite E. replace ((T * w + r) * L) with (r * L + (w * L) * T) by lia.
    rewrite Z.div_add by lia. lia. }
  assert (0 <= w) by (apply Z.div_pos; lia).
  assert (0 <= r * L / T) by (apply Z.div_pos; nia).
  rewrite (u64_id (r * L)).
  2:{ unfold in_u64. split; [nia|]. destruct (Z.eq_dec L 0); nia. }
  rewrite (u64_id (w * L)) by (unfold in_u64; nia).
  rewrite u64_id; [by rewrite Eq|]. unfold in_u64. nia.
Qed.

(** The conversion of TSC cycles to timer counts is the exact quotient, rounded down. *)
Theorem lapic_tl_counts_exact d T L :
  0 < T -> in_u64 d -> 0 <= L -> T * L <= 2 ^ 64 -> d * L / T < 2 ^ 64 ->
  lapic_tl_counts d T L = d * L / T.
Proof. apply tl_counts_val. Qed.

(** The counts the rounding rule adds. *)
Definition tl_slop (counted tval : Z) (pending : bool) : Z :=
  if pending && (counted <? tval) && (tval <=? counted + LAPIC_TL_SLOP tval)
  then tval - counted else 0.

Lemma slop_range0 tval : 0 < tval < 2 ^ 31 -> 0 <= 0 <= LAPIC_TL_SLOP tval.
Proof. intros H. unfold LAPIC_TL_SLOP. pose proof (Z.div_pos tval 1024). lia. Qed.

Lemma tl_slop_range c tval p : 0 < tval -> 0 <= tl_slop c tval p <= LAPIC_TL_SLOP tval.
Proof.
  intros Ht. unfold tl_slop. destruct (p && _ && _) eqn:E.
  - apply andb_prop in E as [E E2]. apply andb_prop in E as [_ E1].
    apply Z.ltb_lt in E1. apply Z.leb_le in E2. lia.
  - unfold LAPIC_TL_SLOP. pose proof (Z.div_pos tval 1024). lia.
Qed.

Lemma tl_credit_val carried since tval p :
  0 < tval < 2 ^ 31 -> 0 <= carried -> 0 <= since -> carried + since < tval * 2 ^ 32 ->
  let c := carried + since + tl_slop (carried + since) tval p in
  lapic_tl_credit carried since tval p =
    mk_credit (c / tval) (c mod tval) (Z.max 0 (c / tval - b2z p)).
Proof.
  intros Ht H1 H2 H3. unfold lapic_tl_credit, tl_slop. cbv zeta.
  assert (LAPIC_TL_SLOP tval <= 2 ^ 31) as Hs.
  { unfold LAPIC_TL_SLOP. zdm. }
  assert (0 <= LAPIC_TL_SLOP tval) by (unfold LAPIC_TL_SLOP; zdm).
  set (x := carried + since) in *.
  rewrite (u64_id x) by (unfold in_u64; nia).
  rewrite (u64_id (x + _)) by (unfold in_u64; nia).
  destruct (p && (x <? tval) && (tval <=? x + LAPIC_TL_SLOP tval)).
  - replace (x + (tval - x)) with tval by lia.
    rewrite Z.div_same, Z.mod_same by lia. change (u32 1) with 1. change (u32 0) with 0.
    by destruct p.
  - rewrite Z.add_0_r.
    assert (0 <= x / tval < 2 ^ 32) as Hq.
    { split; [apply Z.div_pos; lia|]. apply Z.div_lt_upper_bound; nia. }
    pose proof (Z.mod_pos_bound x tval ltac:(lia)).
    rewrite !u32_id by (unfold in_u32; lia). f_equal.
    destruct (Z.ltb_spec (b2z p) (x / tval)); lia.
Qed.

(** ** One sleep *)

Section sleeps.
Context `{LR : LapicRegs}.

Record sleep := mk_sleep {
  sl_os : oneshot_hw;
  sl_dn : done_hw;
  sl_ticks : Z
}.

(** The ticks credited, the ticks delivered (replayed by the caller, or by the
    pending interrupt) and the state when the pending interrupt has run. *)
Definition one_sleep (w : sleep) (s : lapic) : Z * Z * lapic :=
  match lapic_oneshot (sl_os w) (sl_ticks w) s with
  | (false, s) => (0, 0, s)
  | (true, s) =>
      let '(elapsed, pending, s) := lapic_oneshot_done (sl_dn w) (sl_ticks w) s in
      let manual := if b2z pending <=? elapsed then elapsed - b2z pending else 0 in
      (elapsed, manual + b2z pending, if pending then lapic_clockintr s else s)
  end.

Fixpoint run_sleeps (ws : list sleep) (s : lapic) : Z * Z * lapic :=
  match ws with
  | [] => (0, 0, s)
  | w :: ws =>
      let '(e, d, s) := one_sleep w s in
      let '(e', d', s) := run_sleeps ws s in (e + e', d + d', s)
  end.

(** The time of a sleep in timer counts: the part of the periodic interval
    already used at entry, and the TSC time from there to the restart. *)
Definition measured (s : lapic) (w : sleep) : Z :=
  if os_irr (sl_os w) then 0 else
  oneshot_used (lapic_tval s) (os_ccr (sl_os w)) +
  lapic_tl_counts
    (u64 (tsc_mid (dn_t0 (sl_dn w)) (dn_t1 (sl_dn w)) -
          tsc_mid (os_t0 (sl_os w)) (os_t1 (sl_os w))))
    (cpu_cc_freq s) (lapic_per_second s).

(** A CPU inside the accounting array, with a known TSC rate and less than a
    tick carried. *)
Definition tl_inv (s : lapic) : Prop :=
  tl_has s = true /\ cpu_cc_freq s <> 0 /\ 0 < lapic_tval s < 2 ^ 31 /\
  0 <= frac (tl_of s) < lapic_tval s /\ in_u32 (ci_lapic_counter s).

Definition sleep_ok (s : lapic) (w : sleep) : Prop :=
  0 <= os_ccr (sl_os w) /\ measured s w < lapic_tval s * (2 ^ 32 - 1).

(** Constants of a run. *)
Definition tl_same (s s' : lapic) : Prop :=
  lapic_tval s' = lapic_tval s /\ cpu_cc_freq s' = cpu_cc_freq s /\
  lapic_per_second s' = lapic_per_second s /\ ci_index s' = ci_index s /\
  length (tlstate s') = length (tlstate s).

Lemma measured_same s s' w : tl_same s s' -> measured s' w = measured s w.
Proof. intros (E1 & E2 & E3 & _). unfold measured. by rewrite E1, E2, E3. Qed.

Lemma tl_counts_nonneg d T L : 0 <= lapic_tl_counts d T L.
Proof. unfold lapic_tl_counts. destruct (T =? 0); [lia|]. apply u64_range. Qed.

Lemma oneshot_used_range tval ccr : 0 < tval -> 0 <= ccr -> 0 <= oneshot_used tval ccr <= tval.
Proof. intros. unfold oneshot_used. destruct (Z.ltb_spec ccr tval); lia. Qed.

Lemma tl_of_put t s : tl_has s = true -> tl_of (tl_put t s) = t.
Proof.
  unfold tl_has, tl_of, tl_put. intros H%Nat.ltb_lt. simpl.
  by apply list_lookup_total_insert_eq.
Qed.

Lemma tl_has_put t s : tl_has (tl_put t s) = tl_has s.
Proof. unfold tl_has, tl_put. simpl. by rewrite length_insert. Qed.

Lemma lapic_oneshot_refused hw n s : os_irr hw = true -> lapic_oneshot hw n s = (false, s).
Proof. intros E. unfold lapic_oneshot. by rewrite E. Qed.

(** The entry: the used part of the interval is banked. *)
Lemma lapic_oneshot_banks hw n s : tl_inv s -> 0 <= os_ccr hw -> os_irr hw = false ->
  exists s', lapic_oneshot hw n s = (true, s') /\ tl_same s s' /\ tl_has s' = true /\
    tl_of s' = mk_tlstate (frac (tl_of s) + oneshot_used (lapic_tval s) (os_ccr hw))
                 (tsc_mid (os_t0 hw) (os_t1 hw)) /\
    ci_lapic_counter s' = ci_lapic_counter s /\
    LVT_TIMER s' = LAPIC_TIMER_VECTOR /\
    ICR_TIMER s' = u32 (oneshot_count (lapic_tval s) n).
Proof.
  intros (Hh & Hf & Ht & Hfr & Hc) Hccr Hirr. unfold lapic_oneshot. rewrite Hirr, Hh.
  pose proof (oneshot_used_range (lapic_tval s) (os_ccr hw) ltac:(lia) Hccr).
  rewrite (u32_id (frac _ + _)) by (unfold in_u32; lia). eexists. split; [reflexivity|].
  split; [repeat split; simpl; by rewrite ?length_insert|].
  split; [by rewrite <-Hh; apply tl_has_put|].
  split; [by apply (tl_of_put _ s)|]. done.
Qed.

Lemma add_u32_u64 a b : u32 (a + u64 b) = u32 (a + b).
Proof.
  unfold u32, u64. rewrite <-(Zplus_mod_idemp_r (b mod _)), <-(Zplus_mod_idemp_r b).
  do 2 f_equal. symmetry. apply Znumtheory.Zmod_div_mod; [lia|lia|]. by exists (2 ^ 32).
Qed.

(** The exit: the periodic tick is back, the remainder carried. *)
Lemma lapic_oneshot_done_spec hw n s : tl_has s = true ->
  let cr := lapic_tl_credit (frac (tl_of s)) (done_since hw n s) (lapic_tval s) (dn_irr hw) in
  exists s', lapic_oneshot_done hw n s = (cr_elapsed cr, dn_irr hw, s') /\
    tl_same s s' /\ tl_has s' = true /\
    tl_of s' = mk_tlstate (cr_frac cr) (entry_tsc (tl_of s)) /\
    ci_lapic_counter s' = u32 (ci_lapic_counter s + cr_manual cr * lapic_tval s) /\
    LVT_TIMER s' = Z.lor LAPIC_LVT_TMM_PERIODIC LAPIC_TIMER_VECTOR /\
    ICR_TIMER s' = lapic_tval s.
Proof.
  intros Hh cr. unfold lapic_oneshot_done. rewrite Hh. fold cr. clearbody cr.
  set (s1 := set_ICR_TIMER _ _).
  assert (tl_has s1 = true) as Hh1 by exact Hh.
  assert (tl_of s1 = tl_of s) as E1 by done. rewrite Hh1, E1.
  set (s2 := tl_put _ s1).
  assert (tl_of s2 = mk_tlstate (cr_frac cr) (entry_tsc (tl_of s))) as E2 by (by apply tl_of_put).
  assert (tl_has s2 = true) as Hh2 by (rewrite <-Hh1; apply tl_has_put).
  eexists. split; [reflexivity|].
  split; [repeat split; simpl; by rewrite ?length_insert|].
  split; [exact Hh2|]. split; [exact E2|]. split; [apply add_u32_u64|]. done.
Qed.

Lemma clockintr_counter (p : bool) s : in_u32 (ci_lapic_counter s) ->
  ci_lapic_counter (if p then lapic_clockintr s else s) =
    u32 (ci_lapic_counter s + b2z p * lapic_tval s).
Proof.
  intros H. destruct p; cbn [b2z]; [by rewrite Z.mul_1_l|].
  rewrite Z.mul_0_l, Z.add_0_r. symmetry. by apply u32_id.
Qed.

(** The measured time, credited. *)
Definition sleep_total (s : lapic) (w : sleep) : Z :=
  let c := frac (tl_of s) + measured s w in c + tl_slop c (lapic_tval s) (dn_irr (sl_dn w)).

Lemma one_sleep_val w s : tl_inv s -> sleep_ok s w -> os_irr (sl_os w) = false ->
  let q := sleep_total s w / lapic_tval s in
  let p := dn_irr (sl_dn w) in
  exists s', one_sleep w s = (q, Z.max 0 (q - b2z p) + b2z p, s') /\
    tl_same s s' /\ tl_has s' = true /\ 0 <= q /\
    frac (tl_of s') = sleep_total s w mod lapic_tval s /\
    ci_lapic_counter s' =
      u32 (ci_lapic_counter s + (Z.max 0 (q - b2z p) + b2z p) * lapic_tval s).
Proof.
  intros Hi [Hccr Hm] Hirr. pose proof Hi as (Hh & Hf & Ht & Hfr & Hc). unfold one_sleep.
  destruct (lapic_oneshot_banks (sl_os w) (sl_ticks w) s Hi Hccr Hirr)
    as (s1 & -> & (E1 & E2 & E3 & E4 & E5) & Hh1 & Et & Ec & _).
  destruct (lapic_oneshot_done_spec (sl_dn w) (sl_ticks w) s1 Hh1)
    as (s2 & -> & (F1 & F2 & F3 & F4 & F5) & Hh2 & Et2 & Ec2 & _).
  assert (done_since (sl_dn w) (sl_ticks w) s1 =
    measured s w - oneshot_used (lapic_tval s) (os_ccr (sl_os w))) as Es.
  { unfold done_since, done_uses_tsc, measured. rewrite Hh1, Hirr, E2, E3, Et.
    destruct (Z.eqb_spec (cpu_cc_freq s) 0); [done|]. simpl. lia. }
  pose proof (oneshot_used_range (lapic_tval s) (os_ccr (sl_os w)) ltac:(lia) Hccr) as Hu.
  assert (0 <= done_since (sl_dn w) (sl_ticks w) s1) as Hs0.
  { rewrite Es. unfold measured. rewrite Hirr. pose proof tl_counts_nonneg. 
    match goal with |- context [lapic_tl_counts ?a ?b ?c] => specialize (H a b c) end. lia. }
  rewrite Et, E1 in Et2, Ec2. rewrite Et, E1. cbn [frac] in *.
  pose proof (tl_credit_val (frac (tl_of s) + oneshot_used (lapic_tval s) (os_ccr (sl_os w)))
    (done_since (sl_dn w) (sl_ticks w) s1) (lapic_tval s) (dn_irr (sl_dn w)) Ht
    ltac:(lia) Hs0 ltac:(rewrite Es; nia)) as Ecr.
  cbv zeta in Ecr. rewrite Ecr in *. clear Ecr. simpl in Et2, Ec2. cbn [cr_elapsed].
  set (us := oneshot_used _ _) in *.
  replace (frac (tl_of s) + us + done_since (sl_dn w) (sl_ticks w) s1)
    with (frac (tl_of s) + measured s w) in * by lia.
  fold (sleep_total s w) in *.
  assert (0 <= sleep_total s w / lapic_tval s) as Hq.
  { apply Z.div_pos; [|lia]. unfold sleep_total.
    pose proof (tl_slop_range (frac (tl_of s) + measured s w) (lapic_tval s) (dn_irr (sl_dn w))).
    lia. }
  cbv zeta. set (q := sleep_total s w / lapic_tval s) in *. set (p := dn_irr (sl_dn w)) in *.
  assert ((if b2z p <=? q then q - b2z p else 0) = Z.max 0 (q - b2z p)) as ->.
  { destruct (Z.leb_spec (b2z p) q); lia. }
  eexists. split; [reflexivity|].
  split; [destruct p; repeat split; simpl; congruence|].
  split; [by destruct p|]. split; [done|].
  split; [by destruct p; unfold tl_of in *; simpl; rewrite Et2|].
  rewrite clockintr_counter by (rewrite Ec2; apply u32_range). rewrite F1, E1, Ec2, Ec.
  unfold u32. rewrite Zplus_mod_idemp_l. f_equal. lia.
Qed.

(** What one sleep does to the accounting. *)
Lemma one_sleep_spec w s : tl_inv s -> sleep_ok s w ->
  exists e d s' slop, one_sleep w s = (e, d, s') /\ tl_same s s' /\ tl_inv s' /\
    e * lapic_tval s + frac (tl_of s') = frac (tl_of s) + measured s w + slop /\
    0 <= slop <= LAPIC_TL_SLOP (lapic_tval s) /\
    (0 <= e <= d /\ d <= e + 1 /\ (0 < e -> d = e) /\
     (dn_irr (sl_dn w) = false -> d = e)) /\
    ci_lapic_counter s' = u32 (ci_lapic_counter s + d * lapic_tval s).
Proof.
  intros Hi Hw. pose proof Hi as (Hh & Hf & Ht & Hfr & Hc).
  destruct (os_irr (sl_os w)) eqn:Hirr.
  { unfold one_sleep, measured. rewrite lapic_oneshot_refused, Hirr by done. exists 0, 0, s, 0.
    split; [done|]. split; [by repeat split|]. split; [done|]. split; [lia|].
    split; [by apply slop_range0|]. split; [lia|].
    rewrite Z.mul_0_l, Z.add_0_r. symmetry. by apply u32_id. }
  destruct (one_sleep_val w s Hi Hw Hirr) as (s' & -> & Hsm & Hh' & Hq & Efr & Ec).
  set (q := sleep_total s w / lapic_tval s) in *. set (p := dn_irr (sl_dn w)) in *.
  pose proof (Z.div_mod (sleep_total s w) (lapic_tval s) ltac:(lia)) as Edm.
  pose proof (Z.mod_pos_bound (sleep_total s w) (lapic_tval s) ltac:(lia)) as Hmod.
  do 3 eexists. exists (tl_slop (frac (tl_of s) + measured s w) (lapic_tval s) p).
  split; [reflexivity|]. split; [done|]. split.
  { destruct Hsm as (Et & Ef & _). unfold tl_inv. rewrite Et, Ef, Efr, Ec. repeat split; auto; try lia; apply u32_range. }
  fold q in Edm. rewrite Efr. 
  assert (sleep_total s w = frac (tl_of s) + measured s w +
    tl_slop (frac (tl_of s) + measured s w) (lapic_tval s) p) as Est by done.
  split; [lia|].
  split; [apply tl_slop_range; lia|]. split; [destruct p; simpl; lia|]. done.
Qed.

Lemma tl_same_trans a b c : tl_same a b -> tl_same b c -> tl_same a c.
Proof. intros (?&?&?&?&?) (?&?&?&?&?). repeat split; congruence. Qed.

Lemma sleep_ok_same s s' w : tl_same s s' -> sleep_ok s w -> sleep_ok s' w.
Proof.
  intros Hs [H1 H2]. split; [done|]. rewrite (measured_same s s' w Hs).
  destruct Hs as (-> & _). done.
Qed.

(** C3. Over any sequence of tickless sleeps on a CPU with a known TSC rate, the ticks
    credited times the tick length plus the remainder carried equal the remainder before
    plus all the time measured, up to the rounding slop of one per sleep; at most one
    tick more than credited is delivered per sleep, and the LAPIC timecounter base
    advances by exactly the ticks delivered. *)
Theorem lapic_sleeps_rate_exact ws s :
  tl_inv s -> Forall (sleep_ok s) ws ->
  exists e d s' slop, run_sleeps ws s = (e, d, s') /\ tl_inv s' /\
    e * lapic_tval s + frac (tl_of s') =
      frac (tl_of s) + zsum (map (measured s) ws) + slop /\
    0 <= slop <= Z.of_nat (length ws) * LAPIC_TL_SLOP (lapic_tval s) /\
    e <= d <= e + Z.of_nat (length ws) /\
    ci_lapic_counter s' = u32 (ci_lapic_counter s + d * lapic_tval s).
Proof.
  intros Hi Hok. revert s Hi Hok. induction ws as [|w ws IH]; intros s Hi Hok.
  { exists 0, 0, s, 0. simpl. unfold zsum; simpl.
    repeat split; try lia; try apply Hi. rewrite Z.add_0_r. symmetry. apply u32_id, Hi. }
  apply Forall_cons_1 in Hok as [Hw Hws].
  destruct (one_sleep_spec w s Hi Hw)
    as (e1 & d1 & s1 & sl1 & E1 & Hs1 & Hi1 & Eq1 & B1 & (D1 & D2 & _) & C1).
  pose proof Hs1 as (Ht & _).
  assert (Forall (sleep_ok s1) ws) as Hws1.
  { eapply Forall_impl; [exact Hws|]. intros v. by apply sleep_ok_same. }
  destruct (IH s1 Hi1 Hws1) as (e2 & d2 & s2 & sl2 & E2 & Hi2 & Eq2 & B2 & D & C2).
  assert (map (measured s1) ws = map (measured s) ws) as Em.
  { apply map_ext. intros v. by apply measured_same. }
  rewrite Em, Ht in *.
  exists (e1 + e2), (d1 + d2), s2, (sl1 + sl2). cbn [run_sleeps]. rewrite E1, E2.
  split; [done|]. split; [done|]. cbn [map]. unfold zsum in *. cbn [foldr length].
  split; [lia|]. split; [lia|]. split; [lia|].
  rewrite C2, C1. unfold u32. rewrite Zplus_mod_idemp_l. f_equal. lia.
Qed.

(** In one sleep each elapsed tick is delivered exactly once, by the caller's replay or
    by the pending interrupt; only a pending interrupt with less than a tick measured
    brings one more, and the credit exceeds the measured time by at most the slop. *)
Theorem lapic_sleep_ticks_delivered_once w s :
  tl_inv s -> sleep_ok s w -> os_irr (sl_os w) = false ->
  exists e d s', one_sleep w s = (e, d, s') /\
    (lapic_tval s <= frac (tl_of s) + measured s w -> d = e) /\
    (dn_irr (sl_dn w) = false -> d = e) /\ d <= e + 1 /\
    e * lapic_tval s <= frac (tl_of s) + measured s w + LAPIC_TL_SLOP (lapic_tval s).
Proof.
  intros Hi Hw Hirr. destruct (one_sleep_spec w s Hi Hw)
    as (e & d & s' & sl & E & Hsm & Hi' & Eq & B & (D1 & D2 & D3 & D4) & _).
  destruct Hi' as (_ & _ & _ & Hfr & _). destruct Hsm as (Ht & _). rewrite Ht in Hfr.
  exists e, d, s'. split; [done|]. split; [intros H; apply D3; nia|]. split; [done|].
  split; [lia|nia].
Qed.

End sleeps.

(** ** Examples *)

#[export] Instance i82489 : LapicRegs := {
  LAPIC_LVT_TMM_PERIODIC := 0x20000;
  LAPIC_LVT_MASKED := 0x10000;
  LAPIC_TIMER_VECTOR := 0xe0;
  LAPIC_DCRT_DIV1 := 0xb
}.

(** A 24 MHz timer at 100 Hz beside a 2.4 GHz TSC. *)
Definition lapic24 : lapic :=
  mk_lapic 240000 24000000 2400000000 0 5 0 false [mk_tlstate 1000 0] 0x200e0 0xb 240000.

(** Entered with a quarter of the interval left; ended 95 ms later by the
    one-shot, then by a device interrupt after half a tick. *)
Definition sleep1 : sleep :=
  mk_sleep (mk_oneshot_hw false 1000 60000 1200) (mk_done_hw 0 228001000 228001200 true) 9.
Definition sleep2 : sleep :=
  mk_sleep (mk_oneshot_hw false 300000000 200000 300000000)
    (mk_done_hw 0 312000000 312000000 false) 50.

Lemma lapic24_inv : tl_inv lapic24 /\ Forall (sleep_ok lapic24) [sleep1; sleep2].
Proof.
  split; [repeat split; try reflexivity; simpl; try lia; vm_compute; congruence|].
  repeat constructor; vm_compute; congruence.
Qed.

Lemma lapic_tl_counts_exact_witness :
  lapic_tl_counts 228000000 2400000000 24000000 = 228000000 * 24000000 / 2400000000.
Proof.
  apply (lapic_tl_counts_exact 228000000 2400000000 24000000).
  - reflexivity.
  - split; vm_compute; congruence.
  - vm_compute; congruence.
  - vm_compute; congruence.
  - reflexivity.
Defined.

Lemma lapic_sleeps_rate_exact_witness :
  (exists e d s' slop, run_sleeps [sleep1; sleep2] lapic24 = (e, d, s') /\ tl_inv s' /\
    e * lapic_tval lapic24 + frac (tl_of s') =
      frac (tl_of lapic24) + zsum (map (measured lapic24) [sleep1; sleep2]) + slop /\
    0 <= slop <= 2 * LAPIC_TL_SLOP (lapic_tval lapic24) /\
    e <= d <= e + 2 /\
    ci_lapic_counter s' = u32 (ci_lapic_counter lapic24 + d * lapic_tval lapic24)) /\
  (run_sleeps [sleep1; sleep2] lapic24).1 = (10, 10).
Proof.
  split; [|reflexivity].
  apply (lapic_sleeps_rate_exact [sleep1; sleep2] lapic24); apply lapic24_inv.
Defined.

Lemma lapic_sleep_ticks_delivered_once_witness :
  exists e d s', one_sleep sleep1 lapic24 = (e, d, s') /\
    (lapic_tval lapic24 <= frac (tl_of lapic24) + measured lapic24 sleep1 -> d = e) /\
    (dn_irr (sl_dn sleep1) = false -> d = e) /\ d <= e + 1 /\
    e * lapic_tval lapic24 <=
      frac (tl_of lapic24) + measured lapic24 sleep1 + LAPIC_TL_SLOP (lapic_tval lapic24).
Proof.
  apply (lapic_sleep_ticks_delivered_once sleep1 lapic24).
  - apply lapic24_inv.
  - exact (Forall_inv (proj2 lapic24_inv)).
  - reflexivity.
Defined.

(** A 1 GHz timer (as virtual machines have) without a known TSC rate. *)
Definition lapic1g : lapic :=
  mk_lapic 10000000 1000000000 0 0 0 0 false [mk_tlstate 0 0] 0x200e0 0xb 10000000.

(** Without a known TSC rate and with a fast timer, the one-shot is clamped to 429 ticks
    but its expiry is credited as all 1400 requested. *)
Theorem lapic_fallback_overcredits :
  let '(ok, s) := lapic_oneshot (mk_oneshot_hw false 0 10000000 0) 1400 lapic1g in
  ok = true /\ ICR_TIMER s / lapic_tval s = 429 /\
  (lapic_oneshot_done (mk_done_hw 0 0 0 true) 1400 s).1 = (1400, true).
Proof. vm_compute. auto. Qed.
