(* ===== verification/Heartbeat.v ===== *)
(** * Heartbeat monitoring

    kernel/kern/kern_heartbeat.c.  A tickless CPU takes no timer interrupts:
    it suspends its heartbeat for the sleep, and resuming must neither leave
    the CPU unmonitored nor look like a heart attack.  The CPUs are listed in
    the order of [CPU_INFO_FOREACH]; a panic is an outcome. *)

From stdpp Require Import base numbers list.
From S2P Require Import Prelude Sysctl Lwp.

Record hb_cpu := mk_hb_cpu {
  hb_count : Z;
  hb_uptime_cache : Z;
  hb_uptime_stamp : Z;
  hb_suspend : Z
}.

Definition set_hb_count (v : Z) (r : hb_cpu) : hb_cpu :=
  mk_hb_cpu v (hb_uptime_cache r) (hb_uptime_stamp r) (hb_suspend r).
Definition set_hb_uptime_cache (v : Z) (r : hb_cpu) : hb_cpu :=
  mk_hb_cpu (hb_count r) v (hb_uptime_stamp r) (hb_suspend r).
Definition set_hb_uptime_stamp (v : Z) (r : hb_cpu) : hb_cpu :=
  mk_hb_cpu (hb_count r) (hb_uptime_cache r) v (hb_suspend r).
Definition set_hb_suspend (v : Z) (r : hb_cpu) : hb_cpu :=
  mk_hb_cpu (hb_count r) (hb_uptime_cache r) (hb_uptime_stamp r) v.

#[export] Instance hb_cpu_inhabited : Inhabited hb_cpu := populate (mk_hb_cpu 0 0 0 0).

Record hb := mk_hb {
  heartbeat_max_period_secs : Z;
  heartbeat_max_period_ticks : Z;
  hb_cpus : list hb_cpu;
  hb_primary : option nat;  (* the CPU with CPU_IS_PRIMARY *)
  hb_sih : bool  (* the soft interrupt is established *)
}.

Definition set_heartbeat_max_period_secs (v : Z) (r : hb) : hb :=
  mk_hb v (heartbeat_max_period_ticks r) (hb_cpus r) (hb_primary r) (hb_sih
    r).
Definition set_heartbeat_max_period_ticks (v : Z) (r : hb) : hb :=
  mk_hb (heartbeat_max_period_secs r) v (hb_cpus r) (hb_primary r) (hb_sih r).
Definition set_hb_cpus (v : list hb_cpu) (r : hb) : hb :=
  mk_hb (heartbeat_max_period_secs r) (heartbeat_max_period_ticks r) v
    (hb_primary r) (hb_sih r).
Definition set_hb_primary (v : option nat) (r : hb) : hb :=
  mk_hb (heartbeat_max_period_secs r) (heartbeat_max_period_ticks r) (hb_cpus
    r) v (hb_sih r).
Definition set_hb_sih (v : bool) (r : hb) : hb :=
  mk_hb (heartbeat_max_period_secs r) (heartbeat_max_period_ticks r) (hb_cpus
    r) (hb_primary r) v.

Definition EOVERFLOW : Z := 84.
Definition UINT_MAX : Z := 2 ^ 32 - 1.

Definition on_hb (i : nat) (f : hb_cpu -> hb_cpu) (s : hb) : hb :=
  set_hb_cpus (alter f i (hb_cpus s)) s.
Definition hb_of (s : hb) (i : nat) : hb_cpu := hb_cpus s !!! i.

(** ** Suspending and resuming *)

Definition heartbeat_suspend (self : nat) (s : hb) : hb :=
  on_hb self (fun c => set_hb_suspend (u32 (hb_suspend c + 1)) c) s.

(** [uptime] is [time_uptime32]. *)
Definition heartbeat_resume_cpu (uptime : Z) (c : hb_cpu) : hb_cpu :=
  set_hb_uptime_stamp 0 (set_hb_uptime_cache uptime (set_hb_count 0 c)).

Definition heartbeat_resume (uptime : Z) (self : nat) (s : hb) : hb :=
  let s := on_hb self (heartbeat_resume_cpu uptime) s in
  on_hb self (fun c => set_hb_suspend (u32 (hb_suspend c - 1)) c) s.

(** [None] is the panic "no primary CPU". *)
Definition heartbeat_timecounter_suspended (s : hb) : option bool :=
  p ← hb_primary s; Some (nz (hb_suspend (hb_of s p))).

(** ** The period *)

Section period.
Context `{M : Machine} `{SC : Sysctl}.

Definition max_period_limit : Z := UINT_MAX / 4 / hz.

(** While cold every CPU is reset in place, later by a cross-call: both reset
    all of them. *)
Definition set_max_period (uptime max_period : Z) (s : hb) : hb :=
  let s := if (heartbeat_max_period_secs s =? 0) && nz max_period
           then set_hb_cpus (map (heartbeat_resume_cpu uptime) (hb_cpus s)) s
           else s in
  set_heartbeat_max_period_ticks (u32 (max_period * hz))
    (set_heartbeat_max_period_secs max_period s).

Definition heartbeat_max_period_sysctl (uptime : Z) (rq : sysctl_req) (s : hb) :
    sysctl_res Z hb :=
  let old := heartbeat_max_period_secs s in
  let '(error, v) := sysctl_lookup rq old in
  match rq_newp rq with
  | None => mk_res error old s
  | Some _ =>
      if negb (error =? 0) then mk_res error old s else
      let max_period := u32 v in
      if max_period_limit <? max_period then mk_res EOVERFLOW old s
      else mk_res 0 old (set_max_period uptime max_period s)
  end.

(** [default_period] is HEARTBEAT_MAX_PERIOD_DEFAULT of opt_heartbeat.h. *)
Definition heartbeat_start (uptime default_period : Z) (s : hb) : hb :=
  set_max_period uptime default_period (set_hb_sih true s).

End period.

(** ** Beating *)

(** The soft interrupt: the local view of the uptime catches up. *)
Definition heartbeat_intr (uptime : Z) (self : nat) (s : hb) : hb :=
  on_hb self (fun c => set_hb_uptime_cache uptime (set_hb_uptime_stamp (hb_count c) c)) s.

(** The loop of [select_patient] over the CPUs from index [i] on. *)
Fixpoint patient_loop (cur i : nat) (cpus : list hb_cpu) (passedcur : bool)
    (first : option nat) : option nat * option nat * bool :=
  match cpus with
  | [] => (None, first, passedcur)
  | c :: cpus =>
      if nz (hb_suspend c) then patient_loop cur (S i) cpus passedcur first
      else if passedcur then (Some i, first, passedcur)
      else if (i =? cur)%nat then patient_loop cur (S i) cpus true first
      else patient_loop cur (S i) cpus passedcur
             (match first with None => Some i | Some f => Some f end)
  end.

Definition select_patient (cur : nat) (s : hb) : option nat :=
  match patient_loop cur 0 (hb_cpus s) false None with
  | (Some p, _, _) => Some p
  | (None, first, _) => first
  end.

Inductive hb_outcome :=
  | HbOk (softint : bool)              (* and whether the softint was scheduled *)
  | HbTimeStuck (d : Z)                (* panic: time has not advanced *)
  | HbSoftintsStuck (d : Z)            (* panic: softints stuck *)
  | HbDefibrillate (patient : nat) (d : Z)
  | HbNoPrimary.

Definition heartbeat (uptime : Z) (panicking : bool) (self : nat) (s : hb) :
    hb_outcome * hb :=
  let period_ticks := heartbeat_max_period_ticks s in
  let period_secs := heartbeat_max_period_secs s in
  if (period_ticks =? 0) || (period_secs =? 0) || nz (hb_suspend (hb_of s self)) || panicking
  then (HbOk false, s) else
  let count := hb_count (hb_of s self) in
  let s := on_hb self (fun c => set_hb_count (u32 (hb_count c + 1)) c) s in
  let cache := hb_uptime_cache (hb_of s self) in
  if cache =? uptime then
    let d := u32 (count - hb_uptime_stamp (hb_of s self)) in
    if period_ticks <? d then
      match heartbeat_timecounter_suspended s with
      | None => (HbNoPrimary, s)
      | Some true => (HbOk false, s)
      | Some false => (HbTimeStuck d, s)
      end
    else (HbOk false, s)
  else
    let d := u32 (uptime - cache) in
    if period_secs <? d then (HbSoftintsStuck d, s) else
    match select_patient self s with
    | None => (HbOk true, s)
    | Some p =>
        let d := u32 (uptime - hb_uptime_cache (hb_of s p)) in
        if (period_secs <? d) && (d <? UINT_MAX / 2) && (hb_suspend (hb_of s p) =? 0)
        then (HbDefibrillate p d, s) else (HbOk true, s)
    end.

(** ** The patient

    The next monitored CPU after the current one in iteration order, wrapping
    around: the reference the loop is compared with. *)

Definition monitored (s : hb) (i : nat) : bool := hb_suspend (hb_of s i) =? 0.

Definition next_monitored (cur : nat) (s : hb) : option nat :=
  List.find (monitored s)
    (seq (S cur) (length (hb_cpus s) - S cur) ++ seq 0 cur).

Lemma find_app {A} (P : A -> bool) l k :
  List.find P (l ++ k) = match List.find P l with Some x => Some x | None => List.find P k end.
Proof. induction l as [|x l IH]; simpl; [done|]. by destruct (P x). Qed.

Section patient.
Context (cur : nat) (s : hb).

Lemma nz_monitored i c : hb_cpus s !! i = Some c -> nz (hb_suspend c) = negb (monitored s i).
Proof.
  intros H. unfold monitored, hb_of, nz. by rewrite (list_lookup_total_correct _ _ _ H).
Qed.

(** After the current CPU: the first monitored one. *)
Lemma patient_loop_after i cpus first :
  (forall j c, cpus !! j = Some c -> hb_cpus s !! (i + j)%nat = Some c) ->
  patient_loop cur i cpus true first =
    (List.find (monitored s) (seq i (length cpus)), first, true).
Proof.
  revert i. induction cpus as [|c cpus IH]; intros i Hc; simpl; [done|].
  pose proof (Hc 0%nat c eq_refl) as H0. rewrite Nat.add_0_r in H0.
  rewrite (nz_monitored i c H0). destruct (monitored s i); simpl; [done|].
  apply IH. intros j d Hj. replace (S i + j)%nat with (i + S j)%nat by lia. by apply Hc.
Qed.

(** Before it: the first monitored one is remembered. *)
Lemma patient_loop_before i cpus first :
  monitored s cur = true -> (i <= cur < i + length cpus)%nat ->
  (forall j c, cpus !! j = Some c -> hb_cpus s !! (i + j)%nat = Some c) ->
  patient_loop cur i cpus false first =
    (List.find (monitored s) (seq (S cur) (i + length cpus - S cur)),
     match first with Some f => Some f | None => List.find (monitored s) (seq i (cur - i)) end,
     true).
Proof.
  intros Hm. revert i first. induction cpus as [|c cpus IH]; intros i first Hi Hc; simpl in *; [lia|].
  pose proof (Hc 0%nat c eq_refl) as H0. rewrite Nat.add_0_r in H0.
  assert (forall j d, cpus !! j = Some d -> hb_cpus s !! (S i + j)%nat = Some d) as Hc'.
  { intros j d Hj. replace (S i + j)%nat with (i + S j)%nat by lia. by apply Hc. }
  rewrite (nz_monitored i c H0). destruct (Nat.eqb_spec i cur) as [->|Hne].
  - rewrite Hm. simpl. rewrite patient_loop_after by done. rewrite Nat.sub_diag. simpl.
    replace (cur + S (length cpus) - S cur)%nat with (length cpus) by lia. by destruct first.
  - replace (cur - i)%nat with (S (cur - S i)) by lia. simpl.
    replace (i + S (length cpus))%nat with (S i + length cpus)%nat by lia.
    destruct (monitored s i) eqn:Ei; simpl; rewrite IH by (done || lia); by destruct first.
Qed.

Lemma select_patient_next : monitored s cur = true -> (cur < length (hb_cpus s))%nat ->
  select_patient cur s = next_monitored cur s.
Proof.
  intros Hm Hl. unfold select_patient, next_monitored. rewrite find_app.
  rewrite (patient_loop_before 0 (hb_cpus s) None) by (done || lia). simpl.
  rewrite Nat.sub_0_r. by destruct (List.find _ _).
Qed.

Lemma next_monitored_spec p : next_monitored cur s = Some p -> (cur < length (hb_cpus s))%nat ->
  p <> cur /\ (p < length (hb_cpus s))%nat /\ hb_suspend (hb_of s p) = 0.
Proof.
  unfold next_monitored. intros [Hin Hm]%List.find_some Hl.
  apply Z.eqb_eq in Hm. rewrite List.in_app_iff, !List.in_seq in Hin. lia.
Qed.

Lemma next_monitored_none : next_monitored cur s = None ->
  forall i, (i < length (hb_cpus s))%nat -> i <> cur -> hb_suspend (hb_of s i) <> 0.
Proof.
  intros Hn i Hi Hne. eapply List.find_none in Hn; [by apply Z.eqb_neq, Hn|].
  rewrite List.in_app_iff, !List.in_seq. lia.
Qed.

End patient.

(** select_patient answers the next monitored CPU after the current one in iteration
    order, wrapping around, never itself and never a suspended one, and none only if no
    other is monitored. *)
Theorem select_patient_correct cur s :
  hb_suspend (hb_of s cur) = 0 -> (cur < length (hb_cpus s))%nat ->
  select_patient cur s = next_monitored cur s /\
  match select_patient cur s with
  | Some p => p <> cur /\ (p < length (hb_cpus s))%nat /\ hb_suspend (hb_of s p) = 0
  | None => forall i, (i < length (hb_cpus s))%nat -> i <> cur -> hb_suspend (hb_of s i) <> 0
  end.
Proof.
  intros Hm%Z.eqb_eq Hl. rewrite select_patient_next by done. split; [done|].
  destruct (next_monitored cur s) eqn:E; [by apply next_monitored_spec|by apply next_monitored_none].
Qed.

(** ** No false alarm *)

(** The local view of a monitored CPU is fresh: at most the period behind, or
    a little ahead. *)
Definition cpu_fresh (period uptime : Z) (c : hb_cpu) : Prop :=
  hb_suspend c = 0 -> u32 (uptime - hb_uptime_cache c) <= period \/
                      UINT_MAX / 2 <= u32 (uptime - hb_uptime_cache c).

Definition self_fresh (s : hb) (uptime : Z) (c : hb_cpu) : Prop :=
  hb_suspend c = 0 ->
  (hb_uptime_cache c = uptime ->
     u32 (hb_count c - hb_uptime_stamp c) <= heartbeat_max_period_ticks s) /\
  u32 (uptime - hb_uptime_cache c) <= heartbeat_max_period_secs s.

Lemma on_hb_self i f s c : hb_cpus s !! i = Some c -> hb_of (on_hb i f s) i = f c.
Proof.
  intros H. unfold hb_of, on_hb. simpl. rewrite list_lookup_total_alter_eq; [|by eapply lookup_lt_Some].
  by rewrite (list_lookup_total_correct _ _ _ H).
Qed.

Lemma on_hb_ne i j f s : i <> j -> hb_of (on_hb i f s) j = hb_of s j.
Proof. intros H. unfold hb_of, on_hb. simpl. by apply list_lookup_total_alter_ne. Qed.

Lemma on_hb_length i f s : length (hb_cpus (on_hb i f s)) = length (hb_cpus s).
Proof. apply length_alter. Qed.

Lemma heartbeat_quiet uptime panicking self s c :
  hb_cpus s !! self = Some c -> self_fresh s uptime c ->
  Forall (cpu_fresh (heartbeat_max_period_secs s) uptime) (hb_cpus s) ->
  exists b, (heartbeat uptime panicking self s).1 = HbOk b.
Proof.
  intros Hc Hs Hall. unfold heartbeat.
  assert (hb_of s self = c) as -> by (by apply list_lookup_total_correct).
  destruct (_ || _ || _ || _) eqn:E; [by eexists|].
  apply orb_false_elim in E as [E _]. apply orb_false_elim in E as [_ Esus].
  assert (hb_suspend c = 0) as Hz by (unfold nz in Esus; apply negb_false_iff, Z.eqb_eq in Esus; done).
  destruct (Hs Hz) as [H1 H2].
  set (s1 := on_hb self _ s).
  assert (hb_of s1 self = set_hb_count (u32 (hb_count c + 1)) c) as Es
    by (by apply (on_hb_self self (fun c => set_hb_count (u32 (hb_count c + 1)) c))).
  rewrite Es. simpl. destruct (Z.eqb_spec (hb_uptime_cache c) uptime) as [Eu|Eu].
  - destruct (Z.ltb_spec (heartbeat_max_period_ticks s) (u32 (hb_count c - hb_uptime_stamp c))).
    + specialize (H1 Eu). lia.
    + by eexists.
  - destruct (Z.ltb_spec (heartbeat_max_period_secs s) (u32 (uptime - hb_uptime_cache c))); [lia|].
    assert (self < length (hb_cpus s1))%nat as Hl
      by (unfold s1; rewrite on_hb_length; by eapply lookup_lt_Some).
    destruct (select_patient self s1) as [p|] eqn:Ep; [|by eexists].
    rewrite select_patient_next in Ep; [|unfold monitored; rewrite Es; simpl; by apply Z.eqb_eq|done].
    destruct (next_monitored_spec self s1 p Ep Hl) as (Hne & Hpl & Hps).
    unfold s1 in Hpl. rewrite on_hb_length in Hpl.
    unfold s1 in *. rewrite on_hb_ne in * by done.
    rewrite Forall_forall in Hall.
    destruct (Hall (hb_of s p)) with (2 := Hps) as [H3|H3].
    { apply list_elem_of_lookup. exists p. by apply list_lookup_lookup_total_lt. }
    + destruct (Z.ltb_spec (heartbeat_max_period_secs s) (u32 (uptime - hb_uptime_cache (hb_of s p))));
        [lia|]. by eexists.
    + destruct (Z.ltb_spec (u32 (uptime - hb_uptime_cache (hb_of s p))) (UINT_MAX / 2)); [lia|].
      rewrite andb_false_r. by eexists.
Qed.

(** If this CPU and every monitored CPU have a local view of the uptime within the
    period (or ahead), heartbeat neither panics nor defibrillates a CPU; suspended CPUs
    are never examined. *)
Theorem heartbeat_no_false_alarm uptime panicking self s c :
  hb_cpus s !! self = Some c -> self_fresh s uptime c ->
  Forall (cpu_fresh (heartbeat_max_period_secs s) uptime) (hb_cpus s) ->
  exists b, (heartbeat uptime panicking self s).1 = HbOk b.
Proof. apply heartbeat_quiet. Qed.

(** Suspend, any delay, resume: the CPU is monitored as before and fresh. *)
Lemma suspend_resume_self self t s c :
  hb_cpus s !! self = Some c -> in_u32 (hb_suspend c) ->
  hb_cpus (heartbeat_resume t self (heartbeat_suspend self s)) =
    <[self := mk_hb_cpu 0 t 0 (hb_suspend c)]> (hb_cpus s).
Proof.
  intros Hc Hs. unfold heartbeat_resume, heartbeat_suspend, on_hb. simpl.
  apply list_eq. intros i. destruct (decide (i = self)) as [->|Hne].
  - rewrite !list_lookup_alter_eq, Hc, list_lookup_insert_eq by (by eapply lookup_lt_Some). simpl.
    unfold u32. rewrite Zminus_mod_idemp_l.
    replace (hb_suspend c + 1 - 1) with (hb_suspend c) by lia. fold (u32 (hb_suspend c)).
    by rewrite u32_id.
  - by rewrite !list_lookup_alter_ne, list_lookup_insert_ne by done.
Qed.

(** Suspending and resuming the heartbeat around a sleep of any length leaves the
    suspension count as it was, and the next heartbeat raises no alarm if the other
    monitored CPUs are fresh. *)
Theorem heartbeat_survives_tickless_sleep self t s c panicking :
  hb_cpus s !! self = Some c -> in_u32 (hb_suspend c) ->
  0 <= heartbeat_max_period_secs s -> 0 <= heartbeat_max_period_ticks s ->
  Forall (cpu_fresh (heartbeat_max_period_secs s) t) (delete self (hb_cpus s)) ->
  let s' := heartbeat_resume t self (heartbeat_suspend self s) in
  hb_suspend (hb_of s' self) = hb_suspend c /\
  exists b, (heartbeat t panicking self s').1 = HbOk b.
Proof.
  intros Hc Hs Hp1 Hp2 Hall s'.
  assert (self < length (hb_cpus s))%nat as Hl by (by eapply lookup_lt_Some).
  assert (hb_cpus s' = <[self := mk_hb_cpu 0 t 0 (hb_suspend c)]> (hb_cpus s)) as Es
    by (by apply suspend_resume_self).
  split; [unfold hb_of; by rewrite Es, list_lookup_total_insert_eq|].
  assert (cpu_fresh (heartbeat_max_period_secs s) t (mk_hb_cpu 0 t 0 (hb_suspend c))) as Hf.
  { intros _. left. simpl. rewrite Z.sub_diag. done. }
  apply (heartbeat_quiet t panicking self s' (mk_hb_cpu 0 t 0 (hb_suspend c))).
  - by rewrite Es, list_lookup_insert_eq.
  - intros _. simpl. split; [intros _; exact Hp2|]. rewrite Z.sub_diag. exact Hp1.
  - rewrite Es. change (heartbeat_max_period_secs s') with (heartbeat_max_period_secs s).
    rewrite delete_take_drop in Hall. apply Forall_app in Hall as [Ha Hb].
    rewrite insert_take_drop by done. apply Forall_app. split; [done|]. by constructor.
Qed.

(** ** Examples *)

(** Three CPUs, the second asleep, 15 seconds allowed. *)
Definition hb3 : hb :=
  mk_hb 15 1500 [mk_hb_cpu 900 1000 800 0; mk_hb_cpu 5 100 0 1; mk_hb_cpu 700 999 600 0]
    (Some 0%nat) true.

Lemma select_patient_correct_witness :
  select_patient 0 hb3 = Some 2%nat /\
  select_patient 0 hb3 = next_monitored 0 hb3 /\
  match select_patient 0 hb3 with
  | Some p => p <> 0%nat /\ (p < length (hb_cpus hb3))%nat /\ hb_suspend (hb_of hb3 p) = 0
  | None => forall i, (i < length (hb_cpus hb3))%nat -> i <> 0%nat -> hb_suspend (hb_of hb3 i) <> 0
  end.
Proof.
  split; [reflexivity|]. apply (select_patient_correct 0 hb3); [reflexivity|simpl; lia].
Defined.

Lemma heartbeat_no_false_alarm_witness :
  exists b, (heartbeat 1001 false 0 hb3).1 = HbOk b.
Proof.
  apply (heartbeat_no_false_alarm 1001 false 0 hb3 (mk_hb_cpu 900 1000 800 0)).
  - reflexivity.
  - intros _. split; [discriminate|vm_compute; congruence].
  - repeat constructor; intros Hs; try discriminate; left; vm_compute; congruence.
Defined.

Lemma heartbeat_survives_tickless_sleep_witness :
  let s' := heartbeat_resume 1001 0 (heartbeat_suspend 0 hb3) in
  hb_suspend (hb_of s' 0) = 0 /\ exists b, (heartbeat 1001 false 0 s').1 = HbOk b.
Proof.
  apply (heartbeat_survives_tickless_sleep 0 1001 hb3 (mk_hb_cpu 900 1000 800 0) false).
  - reflexivity.
  - split; simpl; lia.
  - simpl; lia.
  - simpl; lia.
  - repeat constructor; intros Hs; try discriminate; left; vm_compute; congruence.
Defined.
