(* ===== verification/Cidle.v ===== *)
(** * cidle: the tickless idle routine

    kernel/modules/cidle/cidle.c on the components it calls: the callout wheel
    of the idling CPU, its LAPIC timer, its heartbeat and the idle accounting
    of lpsched.  What the hardware and other CPUs decide during one pass (a
    wanted reschedule, the reads of the timer and of the cycle counter) is an
    input, [idle_hw].  Each pass leaves a trace of what it did to the machine. *)

From Stdlib Require Import Ascii.
From stdpp Require Import base numbers list gmap strings.
From S2P Require Import Prelude Text Sysctl Lwp Lpsched Callout Timecounter Lapic Heartbeat.

(** ** State *)

(** What [x86_cpu_idle_set] installs. *)
Inductive idle_routine := IdleCidle | IdleOther (n : nat).

#[export] Instance idle_routine_eq_dec : EqDecision idle_routine.
Proof. solve_decision. Defined.

Record cidle := mk_cidle {
  cidle_hint : Z;
  cidle_active : Z;
  cidle_tickless : Z;
  cidle_maxskip : Z;
  cidle_minskip : Z;
  cidle_forceskip : Z;
  cidle_prev_func : idle_routine;
  cidle_prev_text : string;
  cidle_cpuid5_edx : Z;
  cidle_cpuid5_ecx : Z;
  cidle_tc_bound : bool;  (* tc_max_windup_ticks was found *)
  cidle_tl_entries : Z;
  cidle_tl_ticks : Z;
  cidle_tl_pending : Z;
  cidle_tl_early : Z;
  cidle_tl_full : Z
}.

Definition set_cidle_hint (v : Z) (r : cidle) : cidle :=
  mk_cidle v (cidle_active r) (cidle_tickless r) (cidle_maxskip r)
    (cidle_minskip r) (cidle_forceskip r) (cidle_prev_func r) (cidle_prev_text
    r) (cidle_cpuid5_edx r) (cidle_cpuid5_ecx r) (cidle_tc_bound r)
    (cidle_tl_entries r) (cidle_tl_ticks r) (cidle_tl_pending r)
    (cidle_tl_early r) (cidle_tl_full r).
Definition set_cidle_active (v : Z) (r : cidle) : cidle :=
  mk_cidle (cidle_hint r) v (cidle_tickless r) (cidle_maxskip r)
    (cidle_minskip r) (cidle_forceskip r) (cidle_prev_func r) (cidle_prev_text
    r) (cidle_cpuid5_edx r) (cidle_cpuid5_ecx r) (cidle_tc_bound r)
    (cidle_tl_entries r) (cidle_tl_ticks r) (cidle_tl_pending r)
    (cidle_tl_early r) (cidle_tl_full r).
Definition set_cidle_tickless (v : Z) (r : cidle) : cidle :=
  mk_cidle (cidle_hint r) (cidle_active r) v (cidle_maxskip r) (cidle_minskip
    r) (cidle_forceskip r) (cidle_prev_func r) (cidle_prev_text r)
    (cidle_cpuid5_edx r) (cidle_cpuid5_ecx r) (cidle_tc_bound r)
    (cidle_tl_entries r) (cidle_tl_ticks r) (cidle_tl_pending r)
    (cidle_tl_early r) (cidle_tl_full r).
Definition set_cidle_maxskip (v : Z) (r : cidle) : cidle :=
  mk_cidle (cidle_hint r) (cidle_active r) (cidle_tickless r) v (cidle_minskip
    r) (cidle_forceskip r) (cidle_prev_func r) (cidle_prev_text r)
    (cidle_cpuid5_edx r) (cidle_cpuid5_ecx r) (cidle_tc_bound r)
    (cidle_tl_entries r) (cidle_tl_ticks r) (cidle_tl_pending r)
    (cidle_tl_early r) (cidle_tl_full r).
Definition set_cidle_minskip (v : Z) (r : cidle) : cidle :=
  mk_cidle (cidle_hint r) (cidle_active r) (cidle_tickless r) (cidle_maxskip
    r) v (cidle_forceskip r) (cidle_prev_func r) (cidle_prev_text r)
    (cidle_cpuid5_edx r) (cidle_cpuid5_ecx r) (cidle_tc_bound r)
    (cidle_tl_entries r) (cidle_tl_ticks r) (cidle_tl_pending r)
    (cidle_tl_early r) (cidle_tl_full r).
Definition set_cidle_forceskip (v : Z) (r : cidle) : cidle :=
  mk_cidle (cidle_hint r) (cidle_active r) (cidle_tickless r) (cidle_maxskip
    r) (cidle_minskip r) v (cidle_prev_func r) (cidle_prev_text r)
    (cidle_cpuid5_edx r) (cidle_cpuid5_ecx r) (cidle_tc_bound r)
    (cidle_tl_entries r) (cidle_tl_ticks r) (cidle_tl_pending r)
    (cidle_tl_early r) (cidle_tl_full r).
Definition set_cidle_prev_func (v : idle_routine) (r : cidle) : cidle :=
  mk_cidle (cidle_hint r) (cidle_active r) (cidle_tickless r) (cidle_maxskip
    r) (cidle_minskip r) (cidle_forceskip r) v (cidle_prev_text r)
    (cidle_cpuid5_edx r) (cidle_cpuid5_ecx r) (cidle_tc_bound r)
    (cidle_tl_entries r) (cidle_tl_ticks r) (cidle_tl_pending r)
    (cidle_tl_early r) (cidle_tl_full r).
Definition set_cidle_prev_text (v : string) (r : cidle) : cidle :=
  mk_cidle (cidle_hint r) (cidle_active r) (cidle_tickless r) (cidle_maxskip
    r) (cidle_minskip r) (cidle_forceskip r) (cidle_prev_func r) v
    (cidle_cpuid5_edx r) (cidle_cpuid5_ecx r) (cidle_tc_bound r)
    (cidle_tl_entries r) (cidle_tl_ticks r) (cidle_tl_pending r)
    (cidle_tl_early r) (cidle_tl_full r).
Definition set_cidle_cpuid5_edx (v : Z) (r : cidle) : cidle :=
  mk_cidle (cidle_hint r) (cidle_active r) (cidle_tickless r) (cidle_maxskip
    r) (cidle_minskip r) (cidle_forceskip r) (cidle_prev_func r)
    (cidle_prev_text r) v (cidle_cpuid5_ecx r) (cidle_tc_bound r)
    (cidle_tl_entries r) (cidle_tl_ticks r) (cidle_tl_pending r)
    (cidle_tl_early r) (cidle_tl_full r).
Definition set_cidle_cpuid5_ecx (v : Z) (r : cidle) : cidle :=
  mk_cidle (cidle_hint r) (cidle_active r) (cidle_tickless r) (cidle_maxskip
    r) (cidle_minskip r) (cidle_forceskip r) (cidle_prev_func r)
    (cidle_prev_text r) (cidle_cpuid5_edx r) v (cidle_tc_bound r)
    (cidle_tl_entries r) (cidle_tl_ticks r) (cidle_tl_pending r)
    (cidle_tl_early r) (cidle_tl_full r).
Definition set_cidle_tc_bound (v : bool) (r : cidle) : cidle :=
  mk_cidle (cidle_hint r) (cidle_active r) (cidle_tickless r) (cidle_maxskip
    r) (cidle_minskip r) (cidle_forceskip r) (cidle_prev_func r)
    (cidle_prev_text r) (cidle_cpuid5_edx r) (cidle_cpuid5_ecx r) v
    (cidle_tl_entries r) (cidle_tl_ticks r) (cidle_tl_pending r)
    (cidle_tl_early r) (cidle_tl_full r).
Definition set_cidle_tl_entries (v : Z) (r : cidle) : cidle :=
  mk_cidle (cidle_hint r) (cidle_active r) (cidle_tickless r) (cidle_maxskip
    r) (cidle_minskip r) (cidle_forceskip r) (cidle_prev_func r)
    (cidle_prev_text r) (cidle_cpuid5_edx r) (cidle_cpuid5_ecx r)
    (cidle_tc_bound r) v (cidle_tl_ticks r) (cidle_tl_pending r)
    (cidle_tl_early r) (cidle_tl_full r).
Definition set_cidle_tl_ticks (v : Z) (r : cidle) : cidle :=
  mk_cidle (cidle_hint r) (cidle_active r) (cidle_tickless r) (cidle_maxskip
    r) (cidle_minskip r) (cidle_forceskip r) (cidle_prev_func r)
    (cidle_prev_text r) (cidle_cpuid5_edx r) (cidle_cpuid5_ecx r)
    (cidle_tc_bound r) (cidle_tl_entries r) v (cidle_tl_pending r)
    (cidle_tl_early r) (cidle_tl_full r).
Definition set_cidle_tl_pending (v : Z) (r : cidle) : cidle :=
  mk_cidle (cidle_hint r) (cidle_active r) (cidle_tickless r) (cidle_maxskip
    r) (cidle_minskip r) (cidle_forceskip r) (cidle_prev_func r)
    (cidle_prev_text r) (cidle_cpuid5_edx r) (cidle_cpuid5_ecx r)
    (cidle_tc_bound r) (cidle_tl_entries r) (cidle_tl_ticks r) v
    (cidle_tl_early r) (cidle_tl_full r).
Definition set_cidle_tl_early (v : Z) (r : cidle) : cidle :=
  mk_cidle (cidle_hint r) (cidle_active r) (cidle_tickless r) (cidle_maxskip
    r) (cidle_minskip r) (cidle_forceskip r) (cidle_prev_func r)
    (cidle_prev_text r) (cidle_cpuid5_edx r) (cidle_cpuid5_ecx r)
    (cidle_tc_bound r) (cidle_tl_entries r) (cidle_tl_ticks r)
    (cidle_tl_pending r) v (cidle_tl_full r).
Definition set_cidle_tl_full (v : Z) (r : cidle) : cidle :=
  mk_cidle (cidle_hint r) (cidle_active r) (cidle_tickless r) (cidle_maxskip
    r) (cidle_minskip r) (cidle_forceskip r) (cidle_prev_func r)
    (cidle_prev_text r) (cidle_cpuid5_edx r) (cidle_cpuid5_ecx r)
    (cidle_tc_bound r) (cidle_tl_entries r) (cidle_tl_ticks r)
    (cidle_tl_pending r) (cidle_tl_early r) v.

(** The module's variables as loaded. *)
Definition cidle_loaded : cidle :=
  mk_cidle 0x60 0 0 100 4 0 (IdleOther 0) "" 0 0 false 0 0 0 0 0.

Definition CPUID5_ECX_IBE : Z := 2.

(** The privileged instructions and calls of a pass, in order. *)
Inductive idle_ev :=
  | EvIntr (on : bool)
  | EvMonitor
  | EvMwait (hint ecx : Z)
  | EvDepth (d : Z)
  | EvSuspend
  | EvResume
  | EvOneshot (nticks : Z) (started : bool)
  | EvDone (elapsed : Z) (pending : bool)
  | EvHardclock (o : hb_outcome).

Record isys := mk_isys {
  i_cidle : cidle;
  i_co : csys;  (* callouts, and lpsched *)
  i_lapic : lapic;  (* this CPU's timer *)
  i_hb : hb;
  i_ticks : Z;  (* hardclock_ticks *)
  i_intr : bool;  (* interrupts enabled *)
  i_idle : idle_routine;  (* x86_cpu_idle *)
  i_idle_text : string;
  i_nodes : bool;  (* machdep.cidle exists *)
  i_trace : list idle_ev  (* latest first *)
}.

Definition set_i_cidle (v : cidle) (r : isys) : isys :=
  mk_isys v (i_co r) (i_lapic r) (i_hb r) (i_ticks r) (i_intr r) (i_idle r)
    (i_idle_text r) (i_nodes r) (i_trace r).
Definition set_i_co (v : csys) (r : isys) : isys :=
  mk_isys (i_cidle r) v (i_lapic r) (i_hb r) (i_ticks r) (i_intr r) (i_idle r)
    (i_idle_text r) (i_nodes r) (i_trace r).
Definition set_i_lapic (v : lapic) (r : isys) : isys :=
  mk_isys (i_cidle r) (i_co r) v (i_hb r) (i_ticks r) (i_intr r) (i_idle r)
    (i_idle_text r) (i_nodes r) (i_trace r).
Definition set_i_hb (v : hb) (r : isys) : isys :=
  mk_isys (i_cidle r) (i_co r) (i_lapic r) v (i_ticks r) (i_intr r) (i_idle r)
    (i_idle_text r) (i_nodes r) (i_trace r).
Definition set_i_ticks (v : Z) (r : isys) : isys :=
  mk_isys (i_cidle r) (i_co r) (i_lapic r) (i_hb r) v (i_intr r) (i_idle r)
    (i_idle_text r) (i_nodes r) (i_trace r).
Definition set_i_intr (v : bool) (r : isys) : isys :=
  mk_isys (i_cidle r) (i_co r) (i_lapic r) (i_hb r) (i_ticks r) v (i_idle r)
    (i_idle_text r) (i_nodes r) (i_trace r).
Definition set_i_idle (v : idle_routine) (r : isys) : isys :=
  mk_isys (i_cidle r) (i_co r) (i_lapic r) (i_hb r) (i_ticks r) (i_intr r) v
    (i_idle_text r) (i_nodes r) (i_trace r).
Definition set_i_idle_text (v : string) (r : isys) : isys :=
  mk_isys (i_cidle r) (i_co r) (i_lapic r) (i_hb r) (i_ticks r) (i_intr r)
    (i_idle r) v (i_nodes r) (i_trace r).
Definition set_i_nodes (v : bool) (r : isys) : isys :=
  mk_isys (i_cidle r) (i_co r) (i_lapic r) (i_hb r) (i_ticks r) (i_intr r)
    (i_idle r) (i_idle_text r) v (i_trace r).
Definition set_i_trace (v : list idle_ev) (r : isys) : isys :=
  mk_isys (i_cidle r) (i_co r) (i_lapic r) (i_hb r) (i_ticks r) (i_intr r)
    (i_idle r) (i_idle_text r) (i_nodes r) v.

Definition emit (e : idle_ev) (s : isys) : isys := set_i_trace (e :: i_trace s) s.
Definition on_cidle (f : cidle -> cidle) (s : isys) : isys := set_i_cidle (f (i_cidle s)) s.
Definition on_lp (f : lpsched -> lpsched) (s : isys) : isys :=
  set_i_co (set_cs_lp (f (cs_lp (i_co s))) (i_co s)) s.

Definition x86_disable_intr (s : isys) : isys := emit (EvIntr false) (set_i_intr false s).
Definition x86_enable_intr (s : isys) : isys := emit (EvIntr true) (set_i_intr true s).
Definition x86_monitor (s : isys) : isys := emit EvMonitor s.
Definition x86_mwait (hint ecx : Z) (s : isys) : isys := emit (EvMwait hint ecx) s.

(** What one pass meets. *)
Record idle_hw := mk_idle_hw {
  ih_resched : Z;                      (* ci_want_resched *)
  ih_primary : bool;                   (* CPU_IS_PRIMARY *)
  ih_shutting_down : bool;
  ih_th : timehands;
  ih_timecounter : option timecounter; (* the selected one *)
  ih_now1 : Z;                         (* cpu_counter() going down *)
  ih_now2 : Z;                         (* cpu_counter() coming up *)
  ih_os : oneshot_hw;
  ih_dn : done_hw;
  ih_uptime : Z                        (* time_uptime32 after the sleep *)
}.

Section cidle.
Context `{M : Machine} `{SC : Sysctl} `{LR : LapicRegs}.

Definition set_depth_at (now : Z) (self : nat) (d : Z) (s : isys) : isys :=
  emit (EvDepth d) (on_lp (lpsched_set_idle_depth now self d) s).

(** The part of [hardclock] that concerns these components: the tick counter
    of the primary CPU, the heartbeat and the callout wheel. *)
Definition hardclock (hw : idle_hw) (self : nat) (s : isys) : isys :=
  let s := if ih_primary hw then set_i_ticks (u32 (i_ticks s + 1)) s else s in
  let '(o, h) := heartbeat (ih_uptime hw) false self (i_hb s) in
  let s := set_i_hb h s in
  emit (EvHardclock o) (set_i_co (callout_hardclock self (i_co s)).2 s).

Fixpoint replay_ticks (n : nat) (hw : idle_hw) (self : nat) (s : isys) : isys :=
  match n with
  | O => s
  | S n => replay_ticks n hw self (hardclock hw self s)
  end.

(** ** The idle loop *)

Definition cidle_windup_ticks (hw : idle_hw) (s : isys) : Z :=
  if cidle_tc_bound (i_cidle s)
  then tc_max_windup_ticks (ih_th hw) (ih_timecounter hw)
  else match ih_timecounter hw with
       | None => INT_MAX
       | Some tc =>
           if tc_frequency tc =? 0 then INT_MAX else
           let wrap := u64 (tc_counter_mask tc * hz) / tc_frequency tc / 2 in
           if INT_MAX <? wrap then INT_MAX else wrap
       end.

(** How many ticks the pass may skip, from the next callout's distance. *)
Definition cidle_skip (hw : idle_hw) (next : Z) (s : isys) : Z :=
  let c := i_cidle s in
  let skip := next in
  let skip := if 0 <? cidle_forceskip c then cidle_forceskip c else skip in
  let skip := if cidle_maxskip c <? skip then cidle_maxskip c else skip in
  if ih_primary hw then
    let cap := cidle_windup_ticks hw s in
    if cap <? skip then cap else skip
  else skip.

Definition cidle_count (pending : bool) (elapsed : Z) (c : cidle) : cidle :=
  let c := set_cidle_tl_entries (u64 (cidle_tl_entries c + 1)) c in
  let c := set_cidle_tl_ticks (u64 (cidle_tl_ticks c + elapsed)) c in
  if pending then set_cidle_tl_full (u64 (cidle_tl_full c + 1)) c
  else set_cidle_tl_early (u64 (cidle_tl_early c + 1)) c.

(** The sleep proper, once the one-shot is running. *)
Definition cidle_sleep (hw : idle_hw) (self : nat) (skip : Z) (s : isys) : isys :=
  let s := x86_mwait (u32 (cidle_hint (i_cidle s))) 1 s in
  let s := set_depth_at (ih_now2 hw) self LPSCHED_IDLE_ACTIVE s in
  let '(elapsed, pending, la) := lapic_oneshot_done (ih_dn hw) (u32 skip) (i_lapic s) in
  let s := emit (EvDone elapsed pending) (set_i_lapic la s) in
  let manual := if b2z pending <=? elapsed then elapsed - b2z pending else 0 in
  let s := if 0 <? manual then replay_ticks (Z.to_nat manual) hw self s else s in
  let s := emit EvResume (set_i_hb (heartbeat_resume (ih_uptime hw) self (i_hb s)) s) in
  let s := on_cidle (cidle_count pending elapsed) s in
  x86_enable_intr s.

Definition cidle_idle_tickless (hw : idle_hw) (self : nat) (s : isys) : isys :=
  let s := x86_monitor (x86_disable_intr s) in
  if nz (ih_resched hw) then x86_enable_intr s else
  let '(next, co) := callout_next_ticks self (i_co s) in
  let s := set_i_co co s in
  let skip := cidle_skip hw next s in
  if skip <? cidle_minskip (i_cidle s) then
    let s := set_depth_at (ih_now1 hw) self LPSCHED_IDLE_SHALLOW s in
    let s := x86_mwait (u32 (cidle_hint (i_cidle s))) 1 s in
    let s := set_depth_at (ih_now2 hw) self LPSCHED_IDLE_ACTIVE s in
    x86_enable_intr s
  else
    let s := emit EvSuspend (set_i_hb (heartbeat_suspend self (i_hb s)) s) in
    let s := set_depth_at (ih_now1 hw) self LPSCHED_IDLE_DEEP s in
    let '(started, la) := lapic_oneshot (ih_os hw) (u32 skip) (i_lapic s) in
    let s := emit (EvOneshot skip started) (set_i_lapic la s) in
    if negb started then
      let s := set_depth_at (ih_now2 hw) self LPSCHED_IDLE_ACTIVE s in
      let s := emit EvResume (set_i_hb (heartbeat_resume (ih_uptime hw) self (i_hb s)) s) in
      let s := on_cidle (fun c => set_cidle_tl_pending (u64 (cidle_tl_pending c + 1)) c) s in
      x86_enable_intr s
    else cidle_sleep hw self skip s.

Definition cidle_idle (hw : idle_hw) (self : nat) (s : isys) : isys :=
  if nz (cidle_tickless (i_cidle s)) && negb (ih_shutting_down hw)
  then cidle_idle_tickless hw self s
  else
    let s := x86_monitor s in
    if nz (ih_resched hw) then s else
    let s := set_depth_at (ih_now1 hw) self LPSCHED_IDLE_SHALLOW s in
    let s := x86_mwait (u32 (cidle_hint (i_cidle s))) 0 s in
    set_depth_at (ih_now2 hw) self LPSCHED_IDLE_ACTIVE s.

(** ** Installing *)

Definition x86_cpu_idle_set (f : idle_routine) (text : string) (s : isys) : isys :=
  set_i_idle_text text (set_i_idle f s).

Definition cidle_install (on : bool) (s : isys) : isys :=
  if eqb on (nz (cidle_active (i_cidle s))) then s else
  let s := if negb on then on_lp (set_lpsched_idle_hooked 0) s else s in
  let s := if on then x86_cpu_idle_set IdleCidle "cidle" s
           else x86_cpu_idle_set (cidle_prev_func (i_cidle s)) (cidle_prev_text (i_cidle s)) s in
  let s := on_cidle (set_cidle_active (b2z on)) s in
  if on then on_lp (set_lpsched_idle_hooked 1) s else s.

(** ** sysctl machdep.cidle *)

(** The shape of the integer handlers: [check] is the error for a new value. *)
Definition cidle_handler (get : cidle -> Z) (check : Z -> cidle -> Z)
    (apply : Z -> isys -> isys) (rq : sysctl_req) (s : isys) : sysctl_res Z isys :=
  let v0 := get (i_cidle s) in
  let '(error, val) := sysctl_lookup rq v0 in
  match rq_newp rq with
  | Some _ =>
      if error =? 0 then
        let e := check val (i_cidle s) in
        if e =? 0 then mk_res 0 v0 (apply val s) else mk_res e v0 s
      else mk_res error v0 s
  | None => mk_res error v0 s
  end.

Definition cidle_sysctl_hint :=
  cidle_handler cidle_hint
    (fun v _ => if (v <? 0) || (0xff <? v) || (0x0f <? Z.land v 0x0f) then EINVAL else 0)
    (fun v => on_cidle (set_cidle_hint v)).
Definition cidle_sysctl_active :=
  cidle_handler cidle_active
    (fun v _ => if negb (v =? 0) && negb (v =? 1) then EINVAL else 0)
    (fun v => cidle_install (nz v)).
Definition cidle_sysctl_tickless :=
  cidle_handler cidle_tickless
    (fun v c => if negb (v =? 0) && negb (v =? 1) then EINVAL
                else if (v =? 1) && negb (has_flag (cidle_cpuid5_ecx c) CPUID5_ECX_IBE)
                then ENODEV else 0)
    (fun v => on_cidle (set_cidle_tickless v)).
Definition cidle_sysctl_maxskip :=
  cidle_handler cidle_maxskip
    (fun v _ => if (v <? 1) || (1400 <? v) then EINVAL else 0)
    (fun v => on_cidle (set_cidle_maxskip v)).
Definition cidle_sysctl_minskip :=
  cidle_handler cidle_minskip
    (fun v _ => if (v <? 1) || (1000 <? v) then EINVAL else 0)
    (fun v => on_cidle (set_cidle_minskip v)).
Definition cidle_sysctl_forceskip :=
  cidle_handler cidle_forceskip
    (fun v _ => if (v <? 0) || (1400 <? v) then EINVAL else 0)
    (fun v => on_cidle (set_cidle_forceskip v)).

(** ** The text nodes *)

(** [rdmsr_safe]: the value, or none where the register is absent. *)
Definition cidle_rdmsr (rdmsr_safe : Z -> option Z) (msr : Z) : Z :=
  match rdmsr_safe msr with Some v => v | None => 0 end.

Definition MSR_CORE_C3_RES : Z := 0x3fc.
Definition MSR_CORE_C6_RES : Z := 0x3fd.
Definition MSR_CORE_C7_RES : Z := 0x3fe.
Definition MSR_PKG_C2_RES : Z := 0x60d.
Definition MSR_PKG_C3_RES : Z := 0x3f8.
Definition MSR_PKG_C6_RES : Z := 0x3f9.
Definition MSR_PKG_C7_RES : Z := 0x3fa.
Definition MSR_PKG_C8_RES : Z := 0x630.
Definition MSR_PKG_C9_RES : Z := 0x631.
Definition MSR_PKG_C10_RES : Z := 0x632.
Definition MSR_PKG_CST_CFG : Z := 0x0e2.
Definition MSR_SMI_COUNT : Z := 0x34.
Definition MSR_RAPL_POWER_UNIT : Z := 0x606.
Definition MSR_PKG_ENERGY_STATUS : Z := 0x611.
Definition MSR_PP1_ENERGY_STATUS : Z := 0x641.

(** [%#x]: hexadecimal with its prefix, except for zero. *)
Definition hex_digit (d : Z) : ascii :=
  ascii_of_nat (if d <? 10 then 48 + Z.to_nat d else 87 + Z.to_nat d).
Fixpoint hex_aux (fuel : nat) (n : Z) (acc : string) : string :=
  match fuel with
  | O => acc
  | S f =>
      let acc := String (hex_digit (n mod 16)) acc in
      if n / 16 =? 0 then acc else hex_aux f (n / 16) acc
  end.
Definition hex (n : Z) : string := if n =? 0 then "0" else "0x" +:+ hex_aux 16 n EmptyString.

Definition RESID_BUF : nat := 512.
Definition RAPL_BUF : nat := 128.
Definition TLSTATS_BUF : nat := 256.

Definition resid_text (tsc : Z) (rd : Z -> Z) : string :=
  "tsc=" +:+ dec tsc +:+ " c3=" +:+ dec (rd MSR_CORE_C3_RES) +:+
  " c6=" +:+ dec (rd MSR_CORE_C6_RES) +:+ " c7=" +:+ dec (rd MSR_CORE_C7_RES) +:+
  " pc2=" +:+ dec (rd MSR_PKG_C2_RES) +:+ " pc3=" +:+ dec (rd MSR_PKG_C3_RES) +:+
  " pc6=" +:+ dec (rd MSR_PKG_C6_RES) +:+ " pc7=" +:+ dec (rd MSR_PKG_C7_RES) +:+
  " pc8=" +:+ dec (rd MSR_PKG_C8_RES) +:+ " pc9=" +:+ dec (rd MSR_PKG_C9_RES) +:+
  " pc10=" +:+ dec (rd MSR_PKG_C10_RES) +:+ " cstcfg=" +:+ hex (rd MSR_PKG_CST_CFG) +:+
  " smi=" +:+ dec (rd MSR_SMI_COUNT).

Definition cidle_xc_resid (tsc : Z) (rdmsr_safe : Z -> option Z) : option sbuf :=
  sbuf_printf RESID_BUF (resid_text tsc (cidle_rdmsr rdmsr_safe)) sbuf_empty.

Definition cidle_sysctl_resid (tsc : Z) (rdmsr_safe : Z -> option Z) (rq : sysctl_req)
    (s : isys) : option (sysctl_res string isys) :=
  b ← cidle_xc_resid tsc rdmsr_safe;
  Some (mk_res (sysctl_lookup rq 0).1 (sb_text b) s).

Definition cidle_sysctl_rapl (rdmsr_safe : Z -> option Z) (rq : sysctl_req) (s : isys) :
    option (sysctl_res string isys) :=
  let rd := cidle_rdmsr rdmsr_safe in
  let units := rd MSR_RAPL_POWER_UNIT in
  let esu := u32 (Z.land (Z.shiftr units 8) 0x1f) in
  let raw := u32 (rd MSR_PKG_ENERGY_STATUS) in
  let pp1 := u32 (rd MSR_PP1_ENERGY_STATUS) in
  b ← sbuf_printf RAPL_BUF
    ("raw=" +:+ dec raw +:+ " esu=" +:+ dec esu +:+ " uj_per_unit=" +:+
     dec (if esu <? 31 then Z.shiftr 1000000 esu else 0) +:+ " pp1=" +:+ dec pp1) sbuf_empty;
  Some (mk_res (sysctl_lookup rq 0).1 (sb_text b) s).

Definition cidle_sysctl_tlstats (rq : sysctl_req) (s : isys) :
    option (sysctl_res string isys) :=
  let c := i_cidle s in
  b ← sbuf_printf TLSTATS_BUF
    ("entries=" +:+ dec (cidle_tl_entries c) +:+ " ticks_skipped=" +:+ dec (cidle_tl_ticks c) +:+
     " deep=" +:+ dec (cidle_tl_full c) +:+ " woke_early=" +:+ dec (cidle_tl_early c) +:+
     " refused_pending=" +:+ dec (cidle_tl_pending c)) sbuf_empty;
  Some (mk_res (sysctl_lookup rq 0).1 (sb_text b) s).

(** ** The nodes *)

Inductive ci_handler := HC_hint | HC_active | HC_tickless | HC_maxskip | HC_minskip
  | HC_forceskip | HC_tlstats | HC_rapl | HC_resid.

Definition cidle_sysctl_setup : list (sysctl_node ci_handler string) :=
  [mk_node true true CTLTYPE_INT "hint" (Some HC_hint) None;
   mk_node true true CTLTYPE_INT "active" (Some HC_active) None;
   mk_node true true CTLTYPE_INT "tickless" (Some HC_tickless) None;
   mk_node true true CTLTYPE_INT "maxskip" (Some HC_maxskip) None;
   mk_node true true CTLTYPE_INT "minskip" (Some HC_minskip) None;
   mk_node true true CTLTYPE_INT "forceskip" (Some HC_forceskip) None;
   mk_node true false CTLTYPE_STRING "tlstats" (Some HC_tlstats) None;
   mk_node true false CTLTYPE_STRING "rapl" (Some HC_rapl) None;
   mk_node true false CTLTYPE_STRING "residency" (Some HC_resid) None;
   mk_node true false CTLTYPE_STRING "previous" None (Some "cidle_prev_text")]%string.

Definition cidle_int_handler (h : ci_handler) (rq : sysctl_req) (s : isys) :
    option (sysctl_res Z isys) :=
  match h with
  | HC_hint => Some (cidle_sysctl_hint rq s)
  | HC_active => Some (cidle_sysctl_active rq s)
  | HC_tickless => Some (cidle_sysctl_tickless rq s)
  | HC_maxskip => Some (cidle_sysctl_maxskip rq s)
  | HC_minskip => Some (cidle_sysctl_minskip rq s)
  | HC_forceskip => Some (cidle_sysctl_forceskip rq s)
  | HC_tlstats | HC_rapl | HC_resid => None
  end.

(** sysctlbyname("machdep.cidle.<name>") on an integer node. *)
Definition cidle_sysctl (name : string) (newp : option Z) (s : isys) : sysctl_res Z isys :=
  if negb (i_nodes s) then mk_res ENOENT 0 s else
  match find_node name cidle_sysctl_setup with
  | None => mk_res ENOENT 0 s
  | Some nd =>
      match nd_handler nd with
      | None => mk_res ENOENT 0 s
      | Some h => default (mk_res EINVAL 0 s)
                    (cidle_int_handler h (mk_req (nd_readwrite nd) newp) s)
      end
  end.

(** ** Loading and unloading *)

Inductive modcmd := MODULE_CMD_INIT | MODULE_CMD_FINI | MODULE_CMD_OTHER.

(** [cpuid5]: ECX and EDX of CPUID leaf 5; [found]: the kernel exports
    [tc_max_windup_ticks]. *)
Definition cidle_modcmd (cmd : modcmd) (has_monitor : bool) (cpuid5 : Z * Z) (found : bool)
    (s : isys) : Z * isys :=
  match cmd with
  | MODULE_CMD_INIT =>
      if negb has_monitor then (ENODEV, s) else
      let s := on_cidle (fun c => set_cidle_cpuid5_ecx cpuid5.1 (set_cidle_cpuid5_edx cpuid5.2 c)) s in
      let s := if found then on_cidle (set_cidle_tc_bound true) s else s in
      let s := on_cidle (fun c => set_cidle_prev_text (String.substring 0 15 (i_idle_text s))
                                    (set_cidle_prev_func (i_idle s) c)) s in
      let s := cidle_install true s in
      (0, set_i_nodes true s)
  | MODULE_CMD_FINI =>
      let s := on_cidle (set_cidle_tickless 0) s in
      let s := cidle_install false s in
      (0, set_i_nodes false s)
  | MODULE_CMD_OTHER => (ENOTTY, s)
  end.

End cidle.
