(* ===== verification/CidleThms.v ===== *)
(** * The tickless idle routine leaves the machine as it found it

    What a pass through [cidle_idle] does to the timer, the heartbeat, the
    callouts and the idle accounting; the bound on the ticks it skips; the
    ranges of the knobs; loading and unloading. *)

From stdpp Require Import base numbers list gmap strings relations.
From S2P Require Import Prelude Text Sysctl Lwp Lpsched Callout CalloutInv CalloutNext CalloutThms Timecounter Lapic LapicThms Heartbeat Cidle.

Lemma replicate_shift {A} n (x : A) l : replicate n x ++ x :: l = x :: replicate n x ++ l.
Proof. induction n as [|n IH]; simpl; [done|]. by rewrite IH. Qed.

Lemma rev_replicate {A} n (x : A) : rev (replicate n x) = replicate n x.
Proof.
  induction n as [|n IH]; simpl; [done|]. rewrite IH.
  by rewrite (replicate_shift n x []), app_nil_r.
Qed.

Section thms.
Context `{M : Machine} `{!MachineOk M} `{SC : Sysctl} `{LR : LapicRegs}.

Definition PERIODIC : Z := Z.lor LAPIC_LVT_TMM_PERIODIC LAPIC_TIMER_VECTOR.

(** Before and after a pass: interrupts on, the periodic tick running, the
    heartbeat's suspensions counted. *)
Record machine_ok (self : nat) (susp : Z) (s : isys) : Prop := {
  mo_intr : i_intr s = true;
  mo_lvt : LVT_TIMER (i_lapic s) = PERIODIC;
  mo_icr : ICR_TIMER (i_lapic s) = lapic_tval (i_lapic s);
  mo_hb : exists c, hb_cpus (i_hb s) !! self = Some c /\ hb_suspend c = susp
}.

(** The trace of each step. *)
Lemma tr_enable s : i_trace (x86_enable_intr s) = EvIntr true :: i_trace s.
Proof. done. Qed.
Lemma tr_disable s : i_trace (x86_disable_intr s) = EvIntr false :: i_trace s.
Proof. done. Qed.
Lemma tr_monitor s : i_trace (x86_monitor s) = EvMonitor :: i_trace s.
Proof. done. Qed.
Lemma tr_mwait h e s : i_trace (x86_mwait h e s) = EvMwait h e :: i_trace s.
Proof. done. Qed.
Lemma tr_depth now self d s : i_trace (set_depth_at now self d s) = EvDepth d :: i_trace s.
Proof. done. Qed.
Lemma tr_emit e s : i_trace (emit e s) = e :: i_trace s.
Proof. done. Qed.
Lemma tr_co co s : i_trace (set_i_co co s) = i_trace s.
Proof. done. Qed.
Lemma tr_hb h s : i_trace (set_i_hb h s) = i_trace s.
Proof. done. Qed.
Lemma tr_lapic la s : i_trace (set_i_lapic la s) = i_trace s.
Proof. done. Qed.
Lemma tr_cidle f s : i_trace (on_cidle f s) = i_trace s.
Proof. done. Qed.

(** ** Replaying ticks with the heartbeat suspended *)

Lemma heartbeat_suspended t p self s : hb_suspend (hb_of s self) <> 0 ->
  heartbeat t p self s = (HbOk false, s).
Proof.
  intros H. unfold heartbeat, nz.
  destruct (Z.eqb_spec (hb_suspend (hb_of s self)) 0); [done|]. simpl. by rewrite orb_true_r.
Qed.

(** [n] replayed ticks. *)
Lemma replay_spec n hw self s : hb_suspend (hb_of (i_hb s) self) <> 0 ->
  let s' := replay_ticks n hw self s in
  i_cidle s' = i_cidle s /\ i_lapic s' = i_lapic s /\ i_hb s' = i_hb s /\
  i_intr s' = i_intr s /\ i_idle s' = i_idle s /\ i_nodes s' = i_nodes s /\
  i_co s' = hardclocks n self (i_co s) /\
  i_trace s' = replicate n (EvHardclock (HbOk false)) ++ i_trace s.
Proof.
  revert s. induction n as [|n IH]; intros s Hs; [done|].
  cbn [replay_ticks hardclocks].
  assert (hardclock hw self s = emit (EvHardclock (HbOk false))
    (set_i_co (callout_hardclock self (i_co s)).2
      (if ih_primary hw then set_i_ticks (u32 (i_ticks s + 1)) s else s))) as E.
  { unfold hardclock. destruct (ih_primary hw); rewrite heartbeat_suspended by exact Hs; done. }
  assert (i_hb (hardclock hw self s) = i_hb s) as Eh by (rewrite E; by destruct (ih_primary hw)).
  destruct (IH (hardclock hw self s)) as (H1 & H2 & H3 & H4 & H5 & H6 & H7 & H8);
    [by rewrite Eh|]. clear IH. cbv zeta.
  rewrite H1, H2, H3, H4, H5, H6, H7, H8, E.
  destruct (ih_primary hw); simpl; (repeat split; try done);
    apply (replicate_shift n).
Qed.

(** ** The sleep *)

Definition manual_ticks (elapsed : Z) (pending : bool) : Z :=
  if b2z pending <=? elapsed then elapsed - b2z pending else 0.

Lemma cidle_sleep_spec hw self skip s e p la :
  hb_suspend (hb_of (i_hb s) self) <> 0 ->
  lapic_oneshot_done (ih_dn hw) (u32 skip) (i_lapic s) = (e, p, la) ->
  let n := Z.to_nat (manual_ticks e p) in
  let s' := cidle_sleep hw self skip s in
  i_intr s' = true /\ i_lapic s' = la /\
  i_hb s' = heartbeat_resume (ih_uptime hw) self (i_hb s) /\
  i_cidle s' = cidle_count p e (i_cidle s) /\
  i_co s' = hardclocks n self (set_cs_lp
    (lpsched_set_idle_depth (ih_now2 hw) self LPSCHED_IDLE_ACTIVE (cs_lp (i_co s))) (i_co s)) /\
  i_trace s' = EvIntr true :: EvResume :: replicate n (EvHardclock (HbOk false)) ++
    EvDone e p :: EvDepth LPSCHED_IDLE_ACTIVE ::
    EvMwait (u32 (cidle_hint (i_cidle s))) 1 :: i_trace s.
Proof.
  intros Hs Hd. unfold cidle_sleep. cbv zeta.
  set (s1 := set_depth_at (ih_now2 hw) self LPSCHED_IDLE_ACTIVE _).
  change (i_lapic s1) with (i_lapic s). rewrite Hd. fold (manual_ticks e p).
  set (s2 := emit (EvDone e p) (set_i_lapic la s1)).
  assert ((if 0 <? manual_ticks e p then replay_ticks (Z.to_nat (manual_ticks e p)) hw self s2 else s2)
    = replay_ticks (Z.to_nat (manual_ticks e p)) hw self s2) as ->.
  { destruct (Z.ltb_spec 0 (manual_ticks e p)); [done|]. by rewrite Z2Nat.nonpos. }
  destruct (replay_spec (Z.to_nat (manual_ticks e p)) hw self s2 Hs)
    as (H1 & H2 & H3 & H4 & H5 & H6 & H7 & H8).
  set (s3 := replay_ticks _ _ _ _) in *. clearbody s3.
  unfold x86_enable_intr, on_cidle, emit. simpl. rewrite H1, H2, H3, H7, H8. done.
Qed.

(** The state as the one-shot is tried. *)
Definition going_down (hw : idle_hw) (self : nat) (s : isys) : isys :=
  let s := set_i_co (callout_next_ticks self (i_co s)).2 (x86_monitor (x86_disable_intr s)) in
  set_depth_at (ih_now1 hw) self LPSCHED_IDLE_DEEP
    (emit EvSuspend (set_i_hb (heartbeat_suspend self (i_hb s)) s)).

(** The ticks a pass in [s] would skip. *)
Definition pass_skip (hw : idle_hw) (self : nat) (s : isys) : Z :=
  cidle_skip hw (callout_next_ticks self (i_co s)).1 s.

(** The four ways through [cidle_idle_tickless]. *)
Lemma tickless_cases hw self s :
  let skip := pass_skip hw self s in
  let co := (callout_next_ticks self (i_co s)).2 in
  let lp d now := lpsched_set_idle_depth now self d in
  cidle_idle_tickless hw self s =
  if nz (ih_resched hw) then x86_enable_intr (x86_monitor (x86_disable_intr s))
  else if skip <? cidle_minskip (i_cidle s) then
    x86_enable_intr (set_depth_at (ih_now2 hw) self LPSCHED_IDLE_ACTIVE
      (x86_mwait (u32 (cidle_hint (i_cidle s))) 1
        (set_depth_at (ih_now1 hw) self LPSCHED_IDLE_SHALLOW
          (set_i_co co (x86_monitor (x86_disable_intr s))))))
  else
    let s1 := going_down hw self s in
    let r := lapic_oneshot (ih_os hw) (u32 skip) (i_lapic s) in
    let s2 := emit (EvOneshot skip r.1) (set_i_lapic r.2 s1) in
    if negb r.1 then
      let s3 := set_depth_at (ih_now2 hw) self LPSCHED_IDLE_ACTIVE s2 in
      let s4 := emit EvResume (set_i_hb (heartbeat_resume (ih_uptime hw) self (i_hb s3)) s3) in
      x86_enable_intr (on_cidle (fun c => set_cidle_tl_pending (u64 (cidle_tl_pending c + 1)) c) s4)
    else cidle_sleep hw self skip s2.
Proof.
  cbv zeta. unfold cidle_idle_tickless, pass_skip, going_down.
  destruct (nz (ih_resched hw)); [done|].
  change (i_co (x86_monitor (x86_disable_intr s))) with (i_co s).
  destruct (callout_next_ticks self (i_co s)) as [next co]. cbn [fst snd].
  change (cidle_skip hw next (set_i_co co (x86_monitor (x86_disable_intr s))))
    with (cidle_skip hw next s).
  destruct (_ <? _); [done|].
  change (i_lapic (set_depth_at (ih_now1 hw) self LPSCHED_IDLE_DEEP _)) with (i_lapic s).
  destruct (lapic_oneshot _ _ _) as [st la]. done.
Qed.

(** ** The machine after a pass *)

Lemma oneshot_done_timer hw n s :
  let la := (lapic_oneshot_done hw n s).2 in
  LVT_TIMER la = PERIODIC /\ ICR_TIMER la = lapic_tval la.
Proof. unfold lapic_oneshot_done. simpl. by destruct (tl_has _). Qed.

Lemma oneshot_refused_same hw n s : (lapic_oneshot hw n s).1 = false ->
  (lapic_oneshot hw n s).2 = s.
Proof. unfold lapic_oneshot. by destruct (os_irr hw). Qed.

Lemma suspended_nonzero self susp hb' :
  in_u32 (susp + 1) -> 0 <= susp ->
  (exists c, hb_cpus hb' !! self = Some c /\ hb_suspend c = susp) ->
  hb_suspend (hb_of (heartbeat_suspend self hb') self) <> 0.
Proof.
  intros Hr H0 (c & Hc & <-). unfold heartbeat_suspend.
  rewrite (on_hb_self self _ hb' c Hc). simpl. rewrite u32_id by done. lia.
Qed.

Lemma suspend_resume_balanced self t susp hb' :
  in_u32 susp -> (exists c, hb_cpus hb' !! self = Some c /\ hb_suspend c = susp) ->
  exists c, hb_cpus (heartbeat_resume t self (heartbeat_suspend self hb')) !! self = Some c /\
    hb_suspend c = susp.
Proof.
  intros Hr (c & Hc & <-). rewrite (suspend_resume_self self t hb' c Hc Hr).
  rewrite list_lookup_insert_eq by (by eapply lookup_lt_Some). by eexists.
Qed.

Lemma emit_frame e la (s : isys) :
  let s2 := emit e (set_i_lapic la s) in
  i_hb s2 = i_hb s /\ i_lapic s2 = la /\ i_cidle s2 = i_cidle s /\ i_trace s2 = e :: i_trace s.
Proof. done. Qed.

Lemma going_down_trace hw self s :
  i_trace (going_down hw self s) =
    EvDepth LPSCHED_IDLE_DEEP :: EvSuspend :: EvMonitor :: EvIntr false :: i_trace s.
Proof. reflexivity. Qed.

Lemma going_down_frame hw self s la skip :
  let s1 := going_down hw self s in
  let s2 := emit (EvOneshot skip true) (set_i_lapic la s1) in
  i_hb s2 = i_hb s1 /\ i_lapic s2 = la /\ i_cidle s2 = i_cidle s /\
  i_trace s2 = EvOneshot skip true :: EvDepth LPSCHED_IDLE_DEEP :: EvSuspend :: EvMonitor ::
    EvIntr false :: i_trace s.
Proof.
  intros s1 s2. destruct (emit_frame (EvOneshot skip true) la s1) as (H1 & H2 & H3 & H4).
  fold s2 in H1, H2, H3, H4.
  split; [exact H1|]. split; [exact H2|]. split; [rewrite H3; reflexivity|].
  rewrite H4. reflexivity.
Qed.

(** C4. Every path through the idle routine, with the tick stopped, refused or left
    running, returns with interrupts enabled, the LAPIC timer periodic at one tick, and
    the heartbeat suspension count of the CPU as it was. *)
Theorem cidle_idle_restores hw self susp s :
  0 <= susp -> in_u32 (susp + 1) -> machine_ok self susp s ->
  machine_ok self susp (cidle_idle hw self s).
Proof.
  intros H0 H1 [Mi Ml Mc Mh]. unfold cidle_idle.
  destruct (_ && _); [|destruct (nz _); by split].
  rewrite tickless_cases. cbv zeta.
  destruct (nz _); [by split|]. destruct (_ <? _); [by split|].
  set (skip := pass_skip hw self s). set (s1 := going_down hw self s).
  assert (hb_suspend (hb_of (i_hb s1) self) <> 0) as Hs1 by (by apply (suspended_nonzero self susp)).
  destruct (lapic_oneshot (ih_os hw) (u32 skip) (i_lapic s)) as [st la] eqn:Eo. cbn [fst snd].
  destruct st; cbn [negb].
  - destruct (lapic_oneshot_done (ih_dn hw) (u32 skip) la) as [[e p] la'] eqn:Ed.
    destruct (going_down_frame hw self s la skip) as (G1 & G2 & _). fold s1 in G1, G2.
    set (s2 := emit (EvOneshot skip true) (set_i_lapic la s1)) in *. clearbody s2.
    rewrite <-G2 in Ed. destruct (cidle_sleep_spec hw self skip s2 e p la')
      as (F1 & F2 & F3 & _); [by rewrite G1|done|]. rewrite G2 in Ed. rewrite G1 in F3.
    destruct (oneshot_done_timer (ih_dn hw) (u32 skip) la) as [T1 T2].
    rewrite Ed in T1, T2. simpl in T1, T2.
    split; [done|by rewrite F2|by rewrite F2|]. rewrite F3.
    apply (suspend_resume_balanced self _ susp (i_hb s)); [unfold in_u32 in *; lia|done].
  - assert (la = i_lapic s) as ->.
    { pose proof (oneshot_refused_same (ih_os hw) (u32 skip) (i_lapic s)) as R.
      rewrite Eo in R. by apply R. }
    split; [done|done|done|].
    apply (suspend_resume_balanced self _ susp (i_hb s)); [unfold in_u32 in *; lia|done].
Qed.

(** A pass that stops the tick does exactly this, in order: interrupts off, MONITOR,
    heartbeat suspended, depth deep, one-shot, MWAIT, depth active, tick restored, the
    elapsed ticks less the pending one replayed one by one with no heartbeat alarm,
    heartbeat resumed, interrupts on; and counts the pass. *)
Theorem cidle_sleep_trace hw self susp s :
  0 <= susp -> in_u32 (susp + 1) -> machine_ok self susp s ->
  ih_resched hw = 0 -> cidle_minskip (i_cidle s) <= pass_skip hw self s ->
  os_irr (ih_os hw) = false ->
  let skip := pass_skip hw self s in
  let la := (lapic_oneshot (ih_os hw) (u32 skip) (i_lapic s)).2 in
  let '(elapsed, pending, la') := lapic_oneshot_done (ih_dn hw) (u32 skip) la in
  let n := Z.to_nat (manual_ticks elapsed pending) in
  let s' := cidle_idle_tickless hw self s in
  i_lapic s' = la' /\ i_cidle s' = cidle_count pending elapsed (i_cidle s) /\
  rev (i_trace s') = rev (i_trace s) ++
    [EvIntr false; EvMonitor; EvSuspend; EvDepth LPSCHED_IDLE_DEEP; EvOneshot skip true;
     EvMwait (u32 (cidle_hint (i_cidle s))) 1; EvDepth LPSCHED_IDLE_ACTIVE;
     EvDone elapsed pending] ++
    replicate n (EvHardclock (HbOk false)) ++ [EvResume; EvIntr true].
Proof.
  intros H0 H1 [Mi Ml Mc Mh] Hr Hk Hirr. rewrite tickless_cases. cbv zeta.
  set (skip := pass_skip hw self s) in *. set (s1 := going_down hw self s).
  assert (hb_suspend (hb_of (i_hb s1) self) <> 0) as Hs1 by (by apply (suspended_nonzero self susp)).
  rewrite Hr. cbn [nz Z.eqb negb]. destruct (Z.ltb_spec skip (cidle_minskip (i_cidle s))); [lia|].
  assert ((lapic_oneshot (ih_os hw) (u32 skip) (i_lapic s)).1 = true) as Est
    by (unfold lapic_oneshot; by rewrite Hirr).
  destruct (lapic_oneshot (ih_os hw) (u32 skip) (i_lapic s)) as [st la]. cbn [fst snd] in *. subst st.
  cbn [negb]. destruct (lapic_oneshot_done (ih_dn hw) (u32 skip) la) as [[e p] la'] eqn:Ed.
  destruct (going_down_frame hw self s la skip) as (G1 & G2 & G3 & G4). fold s1 in G1, G2, G3, G4.
  set (s2 := emit (EvOneshot skip true) (set_i_lapic la s1)) in *. clearbody s2.
  rewrite <-G2 in Ed. destruct (cidle_sleep_spec hw self skip s2 e p la')
    as (_ & F2 & _ & F4 & _ & F6); [by rewrite G1|done|].
  split; [done|]. split; [by rewrite F4, G3|]. rewrite F6, G3, G4. simpl.
  rewrite !rev_app_distr. simpl. rewrite rev_replicate, <-!app_assoc. simpl. done.
Qed.

(** ** How long it sleeps *)

(** The ranges of the knobs, as the sysctl handlers keep them. *)
Record cidle_wf (c : cidle) : Prop := {
  wf_hint : 0 <= cidle_hint c <= 0xff;
  wf_active : cidle_active c = 0 \/ cidle_active c = 1;
  wf_tickless : cidle_tickless c = 0 \/
    cidle_tickless c = 1 /\ has_flag (cidle_cpuid5_ecx c) CPUID5_ECX_IBE = true;
  wf_maxskip : 1 <= cidle_maxskip c <= 1400;
  wf_minskip : 1 <= cidle_minskip c <= 1000;
  wf_forceskip : 0 <= cidle_forceskip c <= 1400
}.

Lemma cidle_skip_le hw next s :
  cidle_skip hw next s <= cidle_maxskip (i_cidle s) /\
  (cidle_forceskip (i_cidle s) <= 0 -> cidle_skip hw next s <= next) /\
  (ih_primary hw = true -> cidle_skip hw next s <= cidle_windup_ticks hw s).
Proof.
  unfold cidle_skip.
  destruct (Z.ltb_spec 0 (cidle_forceskip (i_cidle s)));
    destruct (Z.ltb_spec (cidle_maxskip (i_cidle s))
      (if 0 <? cidle_forceskip (i_cidle s) then cidle_forceskip (i_cidle s) else next));
    destruct (ih_primary hw); repeat cmp_case; split; try lia; split; intros; try lia; try done.
Qed.

Lemma replay_oneshot k hw self s n st :
  EvOneshot n st ∈ i_trace (replay_ticks k hw self s) -> EvOneshot n st ∈ i_trace s.
Proof.
  revert s. induction k as [|k IH]; intros s; [done|]. intros H%IH. revert H.
  unfold hardclock. destruct (ih_primary hw), (heartbeat _ _ _ _); simpl;
    rewrite elem_of_cons; naive_solver.
Qed.

Lemma cidle_sleep_oneshot hw self skip s n st :
  EvOneshot n st ∈ i_trace (cidle_sleep hw self skip s) -> EvOneshot n st ∈ i_trace s.
Proof.
  unfold cidle_sleep. destruct (lapic_oneshot_done _ _ _) as [[e p] la].
  unfold x86_enable_intr, on_cidle, emit. simpl. rewrite !elem_of_cons.
  intros [?|[?|H]]; [done|done|]. revert H.
  destruct (_ <? _); [intros H%replay_oneshot; revert H|]; simpl; rewrite !elem_of_cons;
    naive_solver.
Qed.

(** The one-shots a pass starts. *)
Lemma pass_oneshot hw self s n st :
  i_trace s = [] -> EvOneshot n st ∈ i_trace (cidle_idle hw self s) ->
  n = pass_skip hw self s /\ cidle_minskip (i_cidle s) <= n.
Proof.
  intros Et. unfold cidle_idle. destruct (_ && _); last first.
  { destruct (nz _); rewrite ?tr_depth, ?tr_mwait, ?tr_depth, tr_monitor, Et,
      ?elem_of_cons, ?elem_of_nil; naive_solver. }
  rewrite tickless_cases. cbv zeta. destruct (nz _).
  { rewrite tr_enable, tr_monitor, tr_disable, Et, !elem_of_cons, elem_of_nil. naive_solver. }
  destruct (Z.ltb_spec (pass_skip hw self s) (cidle_minskip (i_cidle s))).
  { rewrite tr_enable, tr_depth, tr_mwait, tr_depth, tr_co, tr_monitor, tr_disable, Et,
      !elem_of_cons, elem_of_nil. naive_solver. }
  set (skip := pass_skip hw self s) in *.
  destruct (lapic_oneshot (ih_os hw) (u32 skip) (i_lapic s)) as [started la]. cbn [fst snd].
  set (s2 := emit (EvOneshot skip started) _).
  assert (i_trace s2 = [EvOneshot skip started; EvDepth LPSCHED_IDLE_DEEP; EvSuspend; EvMonitor;
    EvIntr false]) as E2 by (unfold s2; by rewrite tr_emit, tr_lapic, going_down_trace, Et).
  clearbody s2. intros Hin. cut (EvOneshot n st ∈ i_trace s2).
  { rewrite E2, !elem_of_cons, elem_of_nil. intros Hc. destruct_or?; simplify_eq; lia. }
  destruct started; cbn [negb] in Hin; [by apply cidle_sleep_oneshot in Hin|].
  rewrite tr_enable, tr_cidle, tr_emit, tr_hb, tr_depth, !elem_of_cons in Hin. naive_solver.
Qed.


(** ** Callouts and idle accounting across a pass *)

Lemma co_depth now self d s : i_co (set_depth_at now self d s) =
  set_cs_lp (lpsched_set_idle_depth now self d (cs_lp (i_co s))) (i_co s).
Proof. done. Qed.

Lemma hardclocks_csteps n self co : rtc cstep_fits co (hardclocks n self co).
Proof.
  revert co. induction n as [|n IH]; intros co; simpl; [done|].
  eapply rtc_l; [apply (step_hardclock _ _ self)|]. apply IH.
Qed.

Lemma hardclocks_lp n self co : cs_lp (hardclocks n self co) = cs_lp co.
Proof. revert co. induction n as [|n IH]; intros co; simpl; [done|]. by rewrite IH. Qed.

Lemma next_ticks_lp self co : cs_lp (callout_next_ticks self co).2 = cs_lp co.
Proof. unfold callout_next_ticks. by destruct (next_cc _ _). Qed.

(** The callout system after a pass: unchanged, or the next deadline was asked
    for, the depth of the sleep entered and left, and ticks replayed. *)
Lemma pass_callouts hw self susp s :
  0 <= susp -> in_u32 (susp + 1) -> machine_ok self susp s ->
  let co' := i_co (cidle_idle hw self s) in
  let lp := cs_lp (i_co s) in
  co' = i_co s \/
  exists co1 d n,
    (co1 = i_co s \/ co1 = (callout_next_ticks self (i_co s)).2) /\
    co' = hardclocks n self (set_cs_lp
      (lpsched_set_idle_depth (ih_now2 hw) self LPSCHED_IDLE_ACTIVE
        (lpsched_set_idle_depth (ih_now1 hw) self d lp)) co1).
Proof.
  intros H0 H1 [Mi Ml Mc Mh]. cbv zeta. unfold cidle_idle.
  destruct (_ && _); last first.
  { destruct (nz _); [by left|right].
    exists (i_co s), LPSCHED_IDLE_SHALLOW, 0%nat. split; [by left|]. by rewrite !co_depth. }
  rewrite tickless_cases. cbv zeta. destruct (nz _); [by left|right].
  pose proof (next_ticks_lp self (i_co s)) as Elp.
  destruct (callout_next_ticks self (i_co s)) as [next co1] eqn:En. cbn [fst snd] in *.
  exists co1. destruct (_ <? _).
  { exists LPSCHED_IDLE_SHALLOW, 0%nat. split; [by right|]. cbn [hardclocks].
    rewrite <-Elp. reflexivity. }
  set (skip := pass_skip hw self s).
  assert (i_co (going_down hw self s) = set_cs_lp
    (lpsched_set_idle_depth (ih_now1 hw) self LPSCHED_IDLE_DEEP (cs_lp (i_co s))) co1) as Eg.
  { unfold going_down. rewrite co_depth, En, <-Elp. reflexivity. }
  assert (hb_suspend (hb_of (i_hb (going_down hw self s)) self) <> 0) as Hs1
    by (by apply (suspended_nonzero self susp)).
  revert Eg Hs1. generalize (going_down hw self s). intros s1 Eg Hs1.
  destruct (lapic_oneshot (ih_os hw) (u32 skip) (i_lapic s)) as [st la]. cbn [fst snd].
  exists LPSCHED_IDLE_DEEP. destruct st; cbn [negb].
  - destruct (lapic_oneshot_done (ih_dn hw) (u32 skip) la) as [[e p] la'] eqn:Ed.
    destruct (cidle_sleep_spec hw self skip (emit (EvOneshot skip true) (set_i_lapic la s1)) e p la'
      Hs1 Ed) as (_ & _ & _ & _ & F5 & _).
    exists (Z.to_nat (manual_ticks e p)). split; [by right|]. rewrite F5.
    change (i_co (emit (EvOneshot skip true) (set_i_lapic la s1))) with (i_co s1).
    by rewrite Eg.
  - exists 0%nat. split; [by right|]. cbn [hardclocks].
    change (i_co (x86_enable_intr _)) with
      (i_co (set_depth_at (ih_now2 hw) self LPSCHED_IDLE_ACTIVE
        (emit (EvOneshot skip false) (set_i_lapic la s1)))).
    rewrite co_depth. change (i_co (emit _ (set_i_lapic la s1))) with (i_co s1). by rewrite Eg.
Qed.

(** To the callouts a pass of the idle routine is a sequence of ordinary callout
    operations, so all invariants of the callout code hold across it. *)
Theorem cidle_idle_callout_steps hw self susp s :
  0 <= susp -> in_u32 (susp + 1) -> machine_ok self susp s ->
  rtc cstep_fits (i_co s) (i_co (cidle_idle hw self s)).
Proof.
  intros H0 H1 Hm. destruct (pass_callouts hw self susp s H0 H1 Hm)
    as [->|(co1 & d & n & Hco & ->)]; [done|].
  etrans; [|apply hardclocks_csteps].
  eapply rtc_r; [|apply step_lpsched].
  destruct Hco as [-> | ->]; [done|]. apply rtc_once, (step_next_ticks _ _ self).
Qed.

(** The CPU is not reported idle and no idle interval is open. *)
Definition idle_closed (self : nat) (lp : lpsched) : Prop :=
  (lpsched_enabled lp <> 0 -> lpsched_idle_depth lp self = LPSCHED_IDLE_ACTIVE) /\
  (forall li, lp_idle lp !! self = Some li -> since li = 0).

Lemma set_active_closes now self lp :
  idle_closed self (lpsched_set_idle_depth now self LPSCHED_IDLE_ACTIVE lp).
Proof.
  unfold lpsched_set_idle_depth.
  set (lp1 := if nz (lpsched_enabled lp) && _ then _ else _).
  assert (lpsched_enabled lp1 <> 0 -> lpsched_idle_depth lp1 self = LPSCHED_IDLE_ACTIVE) as Hd.
  { unfold lp1, lpsched_idle_depth, nz. destruct (Z.eqb_spec (lpsched_enabled lp) 0) as [E|E]; [done|].
    intros _. simpl. destruct (Nat.ltb_spec self (length (lp_cpu lp))) as [L|L].
    - unfold on_cpu. simpl. rewrite length_alter. destruct (Nat.ltb_spec self (length (lp_cpu lp))); [|lia].
      by rewrite list_lookup_total_alter_eq.
    - destruct (Nat.ltb_spec self (length (lp_cpu lp))); [lia|done]. }
  clearbody lp1. change (LPSCHED_IDLE_ACTIVE =? LPSCHED_IDLE_ACTIVE) with true. cbv iota.
  destruct (Nat.ltb_spec self (length (lp_idle lp1))) as [L|L].
  - destruct (nz (since (lp_idle lp1 !!! self))) eqn:Ez.
    + split; [exact Hd|]. intros li. unfold on_idle. simpl. rewrite list_lookup_alter_eq.
      intros (x & _ & ->)%fmap_Some_1. done.
    + split; [exact Hd|]. intros li Hli. rewrite (list_lookup_total_correct _ _ _ Hli) in Ez.
      unfold nz in Ez. by apply negb_false_iff, Z.eqb_eq in Ez.
  - split; [exact Hd|]. intros li Hli%lookup_lt_Some. lia.
Qed.

(** A pass leaves the CPU reported active and no idle interval open, on every path. *)
Theorem cidle_idle_closes_interval hw self susp s :
  0 <= susp -> in_u32 (susp + 1) -> machine_ok self susp s ->
  idle_closed self (cs_lp (i_co s)) ->
  idle_closed self (cs_lp (i_co (cidle_idle hw self s))).
Proof.
  intros H0 H1 Hm Hc. destruct (pass_callouts hw self susp s H0 H1 Hm)
    as [->|(co1 & d & n & _ & ->)]; [done|].
  rewrite hardclocks_lp. apply set_active_closes.
Qed.

End thms.
