(* ===== verification/CidleMod.v ===== *)
(** * cidle: knobs, loading, and the switch of the idle routine

    The ranges of machdep.cidle, what loading and unloading leave behind, the
    text nodes, and [cidle_install] interleaved with CPUs that enter and leave
    their idle routine. *)

From stdpp Require Import base numbers list gmap strings relations.
From S2P Require Import Prelude Text Sysctl Lwp Lpsched Callout CalloutInv CalloutNext CalloutThms CalloutEx Timecounter Lapic LapicThms Heartbeat Cidle CidleThms.

Section knobs.
Context `{M : Machine} `{SC : Sysctl} `{LR : LapicRegs}.

(** ** Knob ranges *)

Lemma cidle_handler_post (get : cidle -> Z) check apply rq s :
  let s' := res_post (cidle_handler get check apply rq s) in
  s' = s \/ exists v, check v (i_cidle s) = 0 /\ s' = apply v s.
Proof.
  unfold cidle_handler. destruct (sysctl_lookup rq (get (i_cidle s))) as [e v].
  destruct (rq_newp rq); [|by left]. destruct (e =? 0); [|by left].
  destruct (Z.eqb_spec (check v (i_cidle s)) 0); [right; eauto|by left].
Qed.

Lemma cidle_install_cidle on s :
  i_cidle (cidle_install on s) = set_cidle_active (b2z on) (i_cidle s) \/
  i_cidle (cidle_install on s) = i_cidle s.
Proof.
  unfold cidle_install. destruct (eqb _ _); [by right|left]. by destruct on.
Qed.

Ltac range_tac :=
  repeat match goal with
    | H : (if ?b then _ else _) = 0 |- _ => destruct b eqn:?; [discriminate H|]
    | H : _ || _ = false |- _ => apply orb_false_elim in H as [? ?]
    | H : _ && _ = false |- _ => apply andb_false_iff in H as [?|?]
    | H : negb _ = false |- _ => apply negb_false_iff in H
    | H : negb _ = true |- _ => apply negb_true_iff in H
    | H : (_ <? _) = false |- _ => apply Z.ltb_ge in H
    | H : (_ =? _) = true |- _ => apply Z.eqb_eq in H
    | H : (_ =? _) = false |- _ => apply Z.eqb_neq in H
    end.

Lemma cidle_sysctl_wf name newp s :
  cidle_wf (i_cidle s) -> cidle_wf (i_cidle (res_post (cidle_sysctl name newp s))).
Proof.
  intros Hw. unfold cidle_sysctl. destruct (negb _); [done|].
  destruct (find_node _ _) as [nd|]; [|done]. destruct (nd_handler nd) as [h|]; [|done].
  set (rq := mk_req _ _). pose proof Hw as [W1 W2 W3 W4 W5 W6].
  destruct h; simpl; try done;
    match goal with |- context [res_post ?r] =>
      match r with
      | cidle_sysctl_active _ _ => unfold cidle_sysctl_active
      | _ => unfold cidle_sysctl_hint, cidle_sysctl_tickless, cidle_sysctl_maxskip,
          cidle_sysctl_minskip, cidle_sysctl_forceskip
      end end;
    match goal with |- context [cidle_handler ?g ?c ?a rq s] =>
      destruct (cidle_handler_post g c a rq s) as [->|(v & Hv & ->)]; [done|] end.
  - range_tac. split; simpl; try done; lia.
  - range_tac; destruct (cidle_install_cidle (nz v) s) as [-> | ->]; try done;
      subst v; split; simpl; auto.
  - range_tac; split; simpl; try done; auto; subst v; try lia; right; split; try done;
      by destruct (has_flag _ _).
  - range_tac. split; simpl; try done; lia.
  - range_tac. split; simpl; try done; lia.
  - range_tac. split; simpl; try done; lia.
Qed.

(** ** Loading and unloading *)

(** One command or knob access. *)
Inductive cidle_op :=
  | OpSysctl (name : string) (newp : option Z)
  | OpModcmd (cmd : modcmd) (has_monitor : bool) (cpuid5 : Z * Z) (found : bool)
  | OpIdle (hw : idle_hw) (self : nat).

Definition run_op (o : cidle_op) (s : isys) : isys :=
  match o with
  | OpSysctl name newp => res_post (cidle_sysctl name newp s)
  | OpModcmd cmd hm c5 f => (cidle_modcmd cmd hm c5 f s).2
  | OpIdle hw self => cidle_idle hw self s
  end.

Lemma cidle_wf_same c c' :
  cidle_hint c' = cidle_hint c -> cidle_active c' = cidle_active c ->
  cidle_tickless c' = cidle_tickless c -> cidle_maxskip c' = cidle_maxskip c ->
  cidle_minskip c' = cidle_minskip c -> cidle_forceskip c' = cidle_forceskip c ->
  cidle_cpuid5_ecx c' = cidle_cpuid5_ecx c -> cidle_wf c -> cidle_wf c'.
Proof. intros E1 E2 E3 E4 E5 E6 E7 []. split; congruence || lia || rewrite ?E3, ?E7, ?E2; done. Qed.

Lemma replay_cidle n hw self s : i_cidle (replay_ticks n hw self s) = i_cidle s.
Proof.
  revert s. induction n as [|n IH]; intros s; simpl; [done|]. rewrite IH.
  unfold hardclock. by destruct (ih_primary hw), (heartbeat _ _ _ _).
Qed.

(** The steps of a pass that leave the module's variables alone. *)
Lemma ci_enable s : i_cidle (x86_enable_intr s) = i_cidle s.
Proof. done. Qed.
Lemma ci_disable s : i_cidle (x86_disable_intr s) = i_cidle s.
Proof. done. Qed.
Lemma ci_monitor s : i_cidle (x86_monitor s) = i_cidle s.
Proof. done. Qed.
Lemma ci_mwait h e s : i_cidle (x86_mwait h e s) = i_cidle s.
Proof. done. Qed.
Lemma ci_depth now self d s : i_cidle (set_depth_at now self d s) = i_cidle s.
Proof. done. Qed.
Lemma ci_emit e s : i_cidle (emit e s) = i_cidle s.
Proof. done. Qed.
Lemma ci_co co s : i_cidle (set_i_co co s) = i_cidle s.
Proof. done. Qed.
Lemma ci_hb h s : i_cidle (set_i_hb h s) = i_cidle s.
Proof. done. Qed.
Lemma ci_lapic la s : i_cidle (set_i_lapic la s) = i_cidle s.
Proof. done. Qed.
Lemma ci_on f s : i_cidle (on_cidle f s) = f (i_cidle s).
Proof. done. Qed.
Hint Rewrite ci_enable ci_disable ci_monitor ci_mwait ci_depth ci_emit ci_co ci_hb ci_lapic ci_on
  replay_cidle : idle_ci.

Lemma cidle_count_wf p e c : cidle_wf c -> cidle_wf (cidle_count p e c).
Proof. intros []. by destruct p; split. Qed.

Lemma count_pending_wf v c : cidle_wf c -> cidle_wf (set_cidle_tl_pending v c).
Proof. intros []. by split. Qed.

Lemma cidle_sleep_wf hw self skip s :
  cidle_wf (i_cidle s) -> cidle_wf (i_cidle (cidle_sleep hw self skip s)).
Proof.
  intros Hw. unfold cidle_sleep. cbv zeta.
  destruct (lapic_oneshot_done _ _ _) as [[e p] la'].
  destruct (_ <? _); autorewrite with idle_ci; by apply cidle_count_wf.
Qed.

Lemma cidle_idle_wf hw self s : cidle_wf (i_cidle s) -> cidle_wf (i_cidle (cidle_idle hw self s)).
Proof.
  intros Hw. unfold cidle_idle. cbv zeta.
  destruct (_ && _); [|destruct (nz _); by autorewrite with idle_ci].
  unfold cidle_idle_tickless. cbv zeta. destruct (nz _); [by autorewrite with idle_ci|].
  destruct (callout_next_ticks _ _) as [next co].
  destruct (_ <? _); [by autorewrite with idle_ci|].
  destruct (lapic_oneshot _ _ _) as [st la]. destruct st; cbn [negb].
  - apply cidle_sleep_wf. by autorewrite with idle_ci.
  - autorewrite with idle_ci. by apply count_pending_wf.
Qed.

(** Loading is done once: the module system calls INIT on an unloaded module
    whose tickless idle is off. *)
Definition op_ok (o : cidle_op) (s : isys) : Prop :=
  match o with
  | OpModcmd MODULE_CMD_INIT _ _ _ => cidle_tickless (i_cidle s) = 0
  | _ => True
  end.

Lemma modcmd_wf cmd hm c5 f s : op_ok (OpModcmd cmd hm c5 f) s ->
  cidle_wf (i_cidle s) -> cidle_wf (i_cidle (cidle_modcmd cmd hm c5 f s).2).
Proof.
  intros Hok Hw. destruct cmd; [|destruct Hw|done].
  - unfold cidle_modcmd. destruct (negb hm); [done|]. simpl in Hok.
    set (s1 := if f then _ else _).
    assert (cidle_wf (i_cidle s1)) as W1.
    { unfold s1. destruct Hw. destruct f; split; simpl; auto. }
    clearbody s1. set (s2 := on_cidle _ s1).
    assert (cidle_wf (i_cidle s2)) as W2 by (by apply (cidle_wf_same (i_cidle s1))).
    clearbody s2. cbn [snd i_cidle set_i_nodes].
    destruct (cidle_install_cidle true s2) as [-> | ->]; [|done].
    destruct W2. split; simpl; auto.
  - unfold cidle_modcmd. cbn [snd i_cidle set_i_nodes].
    destruct (cidle_install_cidle false (on_cidle (set_cidle_tickless 0) s)) as [-> | ->];
      split; simpl; auto.
Qed.

(** Through any sequence of sysctl writes, idle passes, loads and unloads the knobs of
    cidle stay in range: hint a byte, maxskip 1..1400, minskip 1..1000, forceskip
    0..1400, and tickless only on where MWAIT breaks on masked interrupts. *)
Theorem cidle_knobs_in_range os s :
  cidle_wf (i_cidle s) ->
  (forall pre o post, os = pre ++ o :: post -> op_ok o (fold_left (fun s o => run_op o s) pre s)) ->
  cidle_wf (i_cidle (fold_left (fun s o => run_op o s) os s)).
Proof.
  revert s. induction os as [|o os IH]; intros s Hw Hok; [done|]. cbn [fold_left]. apply IH.
  - pose proof (Hok [] o os eq_refl) as Ho. simpl in Ho.
    destruct o; [by apply cidle_sysctl_wf|by apply modcmd_wf|by apply cidle_idle_wf].
  - intros pre o' post ->. by apply (Hok (o :: pre) o' post).
Qed.

(** Loading cidle installs its routine and then offers the idle accounting; unloading
    restores the idle routine found at load and its name, turns the tickless idle off
    and withdraws the accounting and the sysctl nodes. *)
Theorem cidle_load_unload_restores c5 f s :
  cidle_active (i_cidle s) = 0 -> (String.length (i_idle_text s) <= 15)%nat ->
  let '(e1, s1) := cidle_modcmd MODULE_CMD_INIT true c5 f s in
  let '(e2, s2) := cidle_modcmd MODULE_CMD_FINI true c5 f s1 in
  e1 = 0 /\ i_idle s1 = IdleCidle /\ lpsched_idle_hooked (cs_lp (i_co s1)) = 1 /\
  e2 = 0 /\ i_idle s2 = i_idle s /\ i_idle_text s2 = i_idle_text s /\
  lpsched_idle_hooked (cs_lp (i_co s2)) = 0 /\ cidle_tickless (i_cidle s2) = 0 /\
  i_nodes s2 = false.
Proof.
  intros Ha Hl. pose proof (substring_all (i_idle_text s) 15 Hl) as Et.
  unfold cidle_modcmd. simpl. destruct f; simpl; unfold cidle_install; simpl;
    rewrite Ha; simpl; rewrite Et; repeat split; reflexivity.
Qed.

End knobs.

(** ** Switching the idle routine under running CPUs

    [cidle_install] store by store, while every CPU may at any moment leave
    the idle routine it runs and enter the one [x86_cpu_idle] names.  The
    cross-call is answered by a CPU outside its old routine. *)

Module Hook.

Inductive pc := Idle | On1 | On2 | On3 | On4 | On5 | Off1 | Off2 | Off3 | Off4 | Off5.

Record hook := mk_hook {
  hk_pc : pc;
  hk_ptr : idle_routine;          (* x86_cpu_idle *)
  hk_active : bool;
  hk_hooked : bool;               (* lpsched_idle_hooked *)
  hk_cpus : list idle_routine;    (* the routine each CPU idles in *)
  hk_xc : gset nat                (* CPUs that have not answered *)
}.

Definition all_cpus (x : hook) : gset nat := list_to_set (seq 0 (length (hk_cpus x))).

Inductive hstep (prev : idle_routine) : hook -> hook -> Prop :=
  | start_on p a h cs xc : a = false ->
      hstep prev (mk_hook Idle p a h cs xc) (mk_hook On1 p a h cs xc)
  | on_set p a h cs xc :
      hstep prev (mk_hook On1 p a h cs xc) (mk_hook On2 IdleCidle a h cs xc)
  | on_active p a h cs xc :
      hstep prev (mk_hook On2 p a h cs xc) (mk_hook On3 p true h cs xc)
  | on_broadcast p a h cs xc :
      hstep prev (mk_hook On3 p a h cs xc)
        (mk_hook On4 p a h cs (list_to_set (seq 0 (length cs))))
  | on_wait p a h cs : hstep prev (mk_hook On4 p a h cs ∅) (mk_hook On5 p a h cs ∅)
  | on_hook p a h cs xc : hstep prev (mk_hook On5 p a h cs xc) (mk_hook Idle p a true cs xc)
  | start_off p a h cs xc : a = true ->
      hstep prev (mk_hook Idle p a h cs xc) (mk_hook Off1 p a h cs xc)
  | off_unhook p a h cs xc :
      hstep prev (mk_hook Off1 p a h cs xc) (mk_hook Off2 p a false cs xc)
  | off_set p a h cs xc :
      hstep prev (mk_hook Off2 p a h cs xc) (mk_hook Off3 prev a h cs xc)
  | off_active p a h cs xc :
      hstep prev (mk_hook Off3 p a h cs xc) (mk_hook Off4 p false h cs xc)
  | off_broadcast p a h cs xc :
      hstep prev (mk_hook Off4 p a h cs xc)
        (mk_hook Off5 p a h cs (list_to_set (seq 0 (length cs))))
  | off_wait p a h cs : hstep prev (mk_hook Off5 p a h cs ∅) (mk_hook Idle p a h cs ∅)
  | cpu_reenter i c p a h cs xc :
      hstep prev (mk_hook c p a h cs xc) (mk_hook c p a h (<[i := p]> cs) (xc ∖ {[i]})).

Definition all_cidle (cs : list idle_routine) : Prop := Forall (eq IdleCidle) cs.

Definition hook_inv (x : hook) : Prop :=
  match hk_pc x with
  | Idle => hk_hooked x = hk_active x /\
      (hk_active x = true -> hk_ptr x = IdleCidle /\ all_cidle (hk_cpus x))
  | On1 => hk_hooked x = false
  | On2 => hk_hooked x = false /\ hk_ptr x = IdleCidle
  | On3 => hk_hooked x = false /\ hk_ptr x = IdleCidle /\ hk_active x = true
  | On4 => hk_hooked x = false /\ hk_ptr x = IdleCidle /\ hk_active x = true /\
      forall i r, hk_cpus x !! i = Some r -> i ∉ hk_xc x -> r = IdleCidle
  | On5 => hk_hooked x = false /\ hk_ptr x = IdleCidle /\ hk_active x = true /\
      all_cidle (hk_cpus x)
  | Off1 => hk_ptr x = IdleCidle /\ all_cidle (hk_cpus x)
  | Off2 | Off3 => hk_hooked x = false
  | Off4 | Off5 => hk_hooked x = false /\ hk_active x = false
  end.

Lemma all_cidle_insert i cs : all_cidle cs -> all_cidle (<[i := IdleCidle]> cs).
Proof. intros H. by apply Forall_insert. Qed.

Lemma hstep_inv prev x y : hstep prev x y -> hook_inv x -> hook_inv y.
Proof.
  destruct 1; unfold hook_inv; simpl; try naive_solver.
  - intros (-> & -> & ->). repeat split; try done. intros i r Hi Hn. destruct Hn.
    apply elem_of_list_to_set, elem_of_seq. apply lookup_lt_Some in Hi. lia.
  - intros (-> & -> & -> & Hx). repeat split; try done. apply Forall_lookup. intros i r Hi.
    symmetry. apply (Hx i r Hi). set_solver.
  - destruct c; simpl; try done.
    + intros [H1 H2]. split; [done|]. intros Ha. destruct (H2 Ha) as [-> H3].
      split; [done|]. by apply all_cidle_insert.
    + intros (-> & -> & -> & Hx). repeat split; try done. intros j r Hj Hn.
      apply list_lookup_insert_Some in Hj as [(-> & <- & _)|[Hne Hj]]; [done|].
      apply (Hx j r Hj). set_solver.
    + intros (-> & -> & -> & Hx). repeat split; try done. by apply all_cidle_insert.
    + intros [-> Hx]. split; [done|]. by apply all_cidle_insert.
Qed.

Definition hook_init (prev : idle_routine) (ncpu : nat) : hook :=
  mk_hook Idle prev false false (replicate ncpu prev) ∅.

(** However CPUs enter and leave their idle routine while cidle is installed or removed,
    machdep.lpsched.cpu_idle is only offered while every CPU idles in cidle. *)
Theorem hooked_means_all_cpus_cidle prev ncpu x :
  rtc (hstep prev) (hook_init prev ncpu) x -> hk_hooked x = true ->
  all_cidle (hk_cpus x).
Proof.
  intros Hr. assert (hook_inv (hook_init prev ncpu)) as H0 by done.
  assert (hook_inv x) as Hi by (induction Hr; eauto using hstep_inv). clear Hr H0.
  revert Hi. unfold hook_inv. destruct (hk_pc x); naive_solver congruence.
Qed.

(** One CPU switches over during the installation. *)
Definition hook_on : hook := mk_hook Idle IdleCidle true true [IdleCidle] ∅.

Lemma hook_on_reachable : rtc (hstep (IdleOther 0)) (hook_init (IdleOther 0) 1) hook_on.
Proof.
  eapply rtc_l; [by apply start_on|]. eapply rtc_l; [apply on_set|].
  eapply rtc_l; [apply on_active|]. eapply rtc_l; [apply on_broadcast|].
  eapply rtc_l; [apply (cpu_reenter _ 0)|].
  eapply (rtc_l _ _ (mk_hook On5 IdleCidle true false [IdleCidle] ∅)).
  { simpl. replace (({[0%nat]} ∪ ∅) ∖ {[0%nat]} : gset nat) with (∅ : gset nat) by set_solver.
    apply on_wait. }
  apply rtc_once, on_hook.
Qed.

Lemma hooked_means_all_cpus_cidle_witness : all_cidle (hk_cpus hook_on).
Proof. apply (hooked_means_all_cpus_cidle (IdleOther 0) 1 hook_on hook_on_reachable eq_refl). Defined.

End Hook.

(** ** The text nodes fit their buffers *)

Section text.
Context `{M : Machine} `{SC : Sysctl} `{LR : LapicRegs}.

Lemma hex_aux_length f n acc :
  (String.length (hex_aux f n acc) <= f + String.length acc)%nat.
Proof.
  revert n acc. induction f as [|f IH]; intros n acc; cbn [hex_aux]; [lia|].
  destruct (_ =? 0); [cbn [String.length]; lia|].
  etrans; [apply IH|]. cbn [String.length]. lia.
Qed.

Lemma hex_length n : (String.length (hex n) <= 18)%nat.
Proof.
  unfold hex. destruct (_ =? 0); [cbn; lia|]. rewrite string_length_app.
  pose proof (hex_aux_length 16 n EmptyString) as H. cbn [String.length] in *. lia.
Qed.

Lemma sbuf_fits size text : (String.length text < size)%nat ->
  sbuf_printf size text sbuf_empty = Some (mk_sbuf (String.length text) text).
Proof.
  intros H. rewrite sbuf_printf_exact; [done|split; cbn; lia|cbn; lia].
Qed.

(** Evaluates the lengths of the literal pieces. *)
Ltac strlen :=
  repeat match goal with |- context [String.length (String ?a ?b)] =>
    let n := eval compute in (String.length (String a b)) in
    change (String.length (String a b)) with n end; lia.

(** Registers hold 64 bits. *)
Definition msrs_ok (rdmsr_safe : Z -> option Z) : Prop :=
  forall m v, rdmsr_safe m = Some v -> in_u64 v.

Lemma cidle_rdmsr_range f m : msrs_ok f -> in_u64 (cidle_rdmsr f m).
Proof.
  intros H. unfold cidle_rdmsr. destruct (f m) eqn:E; [by eapply H|unfold in_u64; lia].
Qed.

Definition counters_ok (c : cidle) : Prop :=
  in_u64 (cidle_tl_entries c) /\ in_u64 (cidle_tl_ticks c) /\ in_u64 (cidle_tl_full c) /\
  in_u64 (cidle_tl_early c) /\ in_u64 (cidle_tl_pending c).

Lemma resid_fits tsc f : in_u64 tsc -> msrs_ok f ->
  (String.length (resid_text tsc (cidle_rdmsr f)) < RESID_BUF)%nat.
Proof.
  intros Ht Hf. unfold resid_text. rewrite !string_length_app.
  pose proof (dec_u64_length tsc Ht). pose proof (hex_length (cidle_rdmsr f MSR_PKG_CST_CFG)).
  assert (forall m, String.length (dec (cidle_rdmsr f m)) <= 20)%nat as Hd
    by (intros m; by apply dec_u64_length, cidle_rdmsr_range).
  pose proof (Hd MSR_CORE_C3_RES). pose proof (Hd MSR_CORE_C6_RES). pose proof (Hd MSR_CORE_C7_RES).
  pose proof (Hd MSR_PKG_C2_RES). pose proof (Hd MSR_PKG_C3_RES). pose proof (Hd MSR_PKG_C6_RES).
  pose proof (Hd MSR_PKG_C7_RES). pose proof (Hd MSR_PKG_C8_RES). pose proof (Hd MSR_PKG_C9_RES).
  pose proof (Hd MSR_PKG_C10_RES). pose proof (Hd MSR_SMI_COUNT). clear Hd.
  unfold RESID_BUF.
  strlen.
Qed.

(** The residency, RAPL and tickless statistics nodes of cidle are printed in full into
    their buffers for all 64-bit register and counter values. *)
Theorem cidle_text_not_truncated tsc f rq s :
  in_u64 tsc -> msrs_ok f -> counters_ok (i_cidle s) ->
  (exists t, (String.length t < RESID_BUF)%nat /\ t = resid_text tsc (cidle_rdmsr f) /\
     cidle_sysctl_resid tsc f rq s = Some (mk_res (sysctl_lookup rq 0).1 t s)) /\
  (exists t, (String.length t < RAPL_BUF)%nat /\
     cidle_sysctl_rapl f rq s = Some (mk_res (sysctl_lookup rq 0).1 t s)) /\
  (exists t, (String.length t < TLSTATS_BUF)%nat /\
     cidle_sysctl_tlstats rq s = Some (mk_res (sysctl_lookup rq 0).1 t s)).
Proof.
  intros Ht Hf (C1 & C2 & C3 & C4 & C5). split; [|split].
  - exists (resid_text tsc (cidle_rdmsr f)). pose proof (resid_fits tsc f Ht Hf).
    split; [done|]. split; [done|]. unfold cidle_sysctl_resid, cidle_xc_resid.
    by rewrite sbuf_fits.
  - unfold cidle_sysctl_rapl. cbv zeta. set (esu := u32 (Z.land _ _)).
    assert (in_u32 (if esu <? 31 then Z.shiftr 1000000 esu else 0)) as He.
    { destruct (_ <? _); [|unfold in_u32; lia].
      pose proof (u32_range (Z.land (Z.shiftr (cidle_rdmsr f MSR_RAPL_POWER_UNIT) 8) 0x1f)) as [R _].
      fold esu in R. unfold in_u32. rewrite Z.shiftr_div_pow2 by done.
      assert (0 < 2 ^ esu) by (apply Z.pow_pos_nonneg; lia).
      split; [apply Z.div_pos; lia|].
      apply (Z.le_lt_trans _ 1000000); [apply Z.div_le_upper_bound; nia|lia]. }
    eexists. split; last (rewrite sbuf_fits; [reflexivity|]).
    all: cbn [sb_text]; rewrite !string_length_app;
      pose proof (dec_u32_length _ He); pose proof (dec_u32_length esu (u32_range _));
      pose proof (dec_u32_length _ (u32_range (cidle_rdmsr f MSR_PKG_ENERGY_STATUS)));
      pose proof (dec_u32_length _ (u32_range (cidle_rdmsr f MSR_PP1_ENERGY_STATUS)));
      unfold RAPL_BUF; strlen.
  - unfold cidle_sysctl_tlstats. cbv zeta. eexists. split; last (rewrite sbuf_fits; [reflexivity|]).
    all: cbn [sb_text]; rewrite !string_length_app;
      pose proof (dec_u64_length _ C1); pose proof (dec_u64_length _ C2);
      pose proof (dec_u64_length _ C3); pose proof (dec_u64_length _ C4);
      pose proof (dec_u64_length _ C5); unfold TLSTATS_BUF; strlen.
Qed.

End text.

(** * Tickless idle scenarios

    The theorems on the tickless idle, on one CPU whose next callout is five
    ticks away. *)

Definition cidle_on : cidle :=
  mk_cidle 0x60 1 1 100 4 0 (IdleOther 0) "mwait" 0 3 true 0 0 0 0 0.

Definition hb1 : hb := mk_hb 15 1500 [mk_hb_cpu 900 1000 800 0] (Some 0%nat) true.

Definition idle5 : isys :=
  mk_isys cidle_on ex8 lapic24 hb1 0 true IdleCidle "cidle" true [].

(** The primary CPU sleeps 45 ms and is woken by a device. *)
Definition hw5 : idle_hw :=
  mk_idle_hw 0 true false tsc_th (Some tsc_tc) 1000 109000000
    (mk_oneshot_hw false 1000 200000 1200) (mk_done_hw 0 108001000 108001200 false) 1001.

Lemma idle5_ok : machine_ok 0 0 idle5.
Proof. split; [done|done|done|]. eexists. split; [reflexivity|done]. Qed.

Lemma cidle_on_wf : cidle_wf cidle_on.
Proof. split; simpl; try lia. right. split; [done|]. vm_compute. done. Qed.

Lemma cidle_idle_restores_witness : machine_ok 0 0 (cidle_idle hw5 0 idle5).
Proof.
  apply (cidle_idle_restores hw5 0 0 idle5).
  - lia.
  - split; lia.
  - exact idle5_ok.
Defined.

Lemma cidle_sleep_trace_witness :
  rev (i_trace (cidle_idle_tickless hw5 0 idle5)) =
    [EvIntr false; EvMonitor; EvSuspend; EvDepth LPSCHED_IDLE_DEEP; EvOneshot 5 true;
     EvMwait 0x60 1; EvDepth LPSCHED_IDLE_ACTIVE; EvDone 4 false] ++
    replicate 4 (EvHardclock (HbOk false)) ++ [EvResume; EvIntr true].
Proof.
  exact (proj2 (proj2 (cidle_sleep_trace hw5 0 0 idle5 ltac:(lia) ltac:(split; lia) idle5_ok
    eq_refl ltac:(vm_compute; congruence) eq_refl))).
Defined.

Lemma idle5_reachable :
  rtc (fun a b => nowrap a /\ cstep_fits a b) (callout_boot (lpsched_boot 1)) (i_co idle5).
Proof. exact ex_run_nowrap. Qed.


Lemma cidle_idle_callout_steps_witness : rtc cstep_fits (i_co idle5) (i_co (cidle_idle hw5 0 idle5)).
Proof.
  apply (cidle_idle_callout_steps hw5 0 0 idle5).
  - lia.
  - split; lia.
  - exact idle5_ok.
Defined.

Lemma ex8_closed : idle_closed 0 (cs_lp ex8).
Proof. split; [vm_compute; congruence|]. intros li. vm_compute. intros [= <-]. reflexivity. Qed.

Lemma cidle_idle_closes_interval_witness :
  idle_closed 0 (cs_lp (i_co (cidle_idle hw5 0 idle5))).
Proof.
  apply (cidle_idle_closes_interval hw5 0 0 idle5).
  - lia.
  - split; lia.
  - exact idle5_ok.
  - exact ex8_closed.
Defined.

(** The knobs after loading, two writes and a pass. *)
Definition ops5 : list cidle_op :=
  [OpSysctl "maxskip" (Some 1400); OpSysctl "maxskip" (Some 5000); OpIdle hw5 0].

Lemma cidle_knobs_in_range_witness :
  cidle_wf (i_cidle (fold_left (fun s o => run_op o s) ops5 idle5)) /\
  cidle_maxskip (i_cidle (fold_left (fun s o => run_op o s) ops5 idle5)) = 1400.
Proof.
  split; [|vm_compute; reflexivity]. apply (cidle_knobs_in_range ops5 idle5).
  - exact cidle_on_wf.
  - intros [|? [|? [|? [|]]]] o post; unfold ops5; intros [=]; subst; exact I.
Defined.

Definition unloaded : isys :=
  mk_isys cidle_loaded ex8 lapic24 hb1 0 true (IdleOther 3) "acpi" false [].

Lemma cidle_load_unload_restores_witness :
  let '(e1, s1) := cidle_modcmd MODULE_CMD_INIT true (3, 0x1120) true unloaded in
  let '(e2, s2) := cidle_modcmd MODULE_CMD_FINI true (3, 0x1120) true s1 in
  e1 = 0 /\ i_idle s1 = IdleCidle /\ lpsched_idle_hooked (cs_lp (i_co s1)) = 1 /\
  e2 = 0 /\ i_idle s2 = i_idle unloaded /\ i_idle_text s2 = i_idle_text unloaded /\
  lpsched_idle_hooked (cs_lp (i_co s2)) = 0 /\ cidle_tickless (i_cidle s2) = 0 /\
  i_nodes s2 = false.
Proof. apply (cidle_load_unload_restores (3, 0x1120) true unloaded); [reflexivity|simpl; lia]. Defined.

(** All residency registers absent but one. *)
Definition one_msr (m : Z) : option Z := if m =? MSR_PKG_C10_RES then Some 123456789 else None.

Lemma cidle_text_not_truncated_witness :
  (exists t, (String.length t < RESID_BUF)%nat /\ t = resid_text 42 (cidle_rdmsr one_msr) /\
     cidle_sysctl_resid 42 one_msr (mk_req false None) idle5 =
       Some (mk_res (sysctl_lookup (mk_req false None) 0).1 t idle5)) /\
  (exists t, (String.length t < RAPL_BUF)%nat /\
     cidle_sysctl_rapl one_msr (mk_req false None) idle5 =
       Some (mk_res (sysctl_lookup (mk_req false None) 0).1 t idle5)) /\
  (exists t, (String.length t < TLSTATS_BUF)%nat /\
     cidle_sysctl_tlstats (mk_req false None) idle5 =
       Some (mk_res (sysctl_lookup (mk_req false None) 0).1 t idle5)).
Proof.
  apply (cidle_text_not_truncated 42 one_msr (mk_req false None) idle5).
  - split; lia.
  - intros m v. unfold one_msr. destruct (m =? MSR_PKG_C10_RES); [|discriminate].
    intros [= <-]. split; lia.
  - repeat split; simpl; lia.
Defined.
