(* ===== verification/Hwp.v ===== *)
(** * hwp: hardware P-states and package power limits

    kernel/modules/hwp/hwp.c.  The model specific registers are state: each
    CPU's HWP registers and the package's RAPL registers, absent where
    [rdmsr_safe] faults.  A broadcast cross-call runs its function on every
    CPU. *)

From stdpp Require Import base numbers list strings.
From S2P Require Import Prelude Text Sysctl.

(** ** Registers *)

(** What [IA32_PM_ENABLE] keeps of a write is the CPU's choice. *)
Record cpu_msr := mk_cpu_msr {
  m_pm_enable : Z;
  m_pm_sticks : bool;
  m_hwp_capabilities : Z;
  m_hwp_request : Z
}.

Definition set_m_pm_enable (v : Z) (r : cpu_msr) : cpu_msr :=
  mk_cpu_msr v (m_pm_sticks r) (m_hwp_capabilities r) (m_hwp_request r).
Definition set_m_hwp_request (v : Z) (r : cpu_msr) : cpu_msr :=
  mk_cpu_msr (m_pm_enable r) (m_pm_sticks r) (m_hwp_capabilities r) v.

Record hwp := mk_hwp {
  hwp_enabled : Z;
  hwp_epp : Z;
  hwp_cap_highest : Z;
  hwp_cap_guaranteed : Z;
  hwp_cap_efficient : Z;
  hwp_cap_lowest : Z;
  hwp_cap_str : string;
  hwp_has_epp : bool;
  hwp_has_actwin : bool;
  hwp_has_plr : bool;
  hwp_has_rapl : bool;
  hwp_rapl_pu : Z;
  hwp_rapl_tu : Z;
  hwp_pl1_boot : Z;
  hwp_pl2_boot : Z;
  hwp_pl1_window : Z;
  hwp_pl_locked : Z;
  hwp_ncpus_done : Z;
  hwp_caps_raw : Z;
  hwp_req_read : list Z;  (* MAXCPUS entries *)
  h_cpus : list cpu_msr;
  h_power_limit : option Z;  (* MSR_PKG_POWER_LIMIT *)
  h_power_unit : option Z;  (* MSR_RAPL_POWER_UNIT *)
  h_nodes : bool  (* machdep.hwp exists *)
}.

Definition set_hwp_enabled (v : Z) (r : hwp) : hwp :=
  mk_hwp v (hwp_epp r) (hwp_cap_highest r) (hwp_cap_guaranteed r)
    (hwp_cap_efficient r) (hwp_cap_lowest r) (hwp_cap_str r) (hwp_has_epp r)
    (hwp_has_actwin r) (hwp_has_plr r) (hwp_has_rapl r) (hwp_rapl_pu r)
    (hwp_rapl_tu r) (hwp_pl1_boot r) (hwp_pl2_boot r) (hwp_pl1_window r)
    (hwp_pl_locked r) (hwp_ncpus_done r) (hwp_caps_raw r) (hwp_req_read r)
    (h_cpus r) (h_power_limit r) (h_power_unit r) (h_nodes r).
Definition set_hwp_epp (v : Z) (r : hwp) : hwp :=
  mk_hwp (hwp_enabled r) v (hwp_cap_highest r) (hwp_cap_guaranteed r)
    (hwp_cap_efficient r) (hwp_cap_lowest r) (hwp_cap_str r) (hwp_has_epp r)
    (hwp_has_actwin r) (hwp_has_plr r) (hwp_has_rapl r) (hwp_rapl_pu r)
    (hwp_rapl_tu r) (hwp_pl1_boot r) (hwp_pl2_boot r) (hwp_pl1_window r)
    (hwp_pl_locked r) (hwp_ncpus_done r) (hwp_caps_raw r) (hwp_req_read r)
    (h_cpus r) (h_power_limit r) (h_power_unit r) (h_nodes r).
Definition set_hwp_cap_highest (v : Z) (r : hwp) : hwp :=
  mk_hwp (hwp_enabled r) (hwp_epp r) v (hwp_cap_guaranteed r)
    (hwp_cap_efficient r) (hwp_cap_lowest r) (hwp_cap_str r) (hwp_has_epp r)
    (hwp_has_actwin r) (hwp_has_plr r) (hwp_has_rapl r) (hwp_rapl_pu r)
    (hwp_rapl_tu r) (hwp_pl1_boot r) (hwp_pl2_boot r) (hwp_pl1_window r)
    (hwp_pl_locked r) (hwp_ncpus_done r) (hwp_caps_raw r) (hwp_req_read r)
    (h_cpus r) (h_power_limit r) (h_power_unit r) (h_nodes r).
Definition set_hwp_cap_guaranteed (v : Z) (r : hwp) : hwp :=
  mk_hwp (hwp_enabled r) (hwp_epp r) (hwp_cap_highest r) v (hwp_cap_efficient
    r) (hwp_cap_lowest r) (hwp_cap_str r) (hwp_has_epp r) (hwp_has_actwin r)
    (hwp_has_plr r) (hwp_has_rapl r) (hwp_rapl_pu r) (hwp_rapl_tu r)
    (hwp_pl1_boot r) (hwp_pl2_boot r) (hwp_pl1_window r) (hwp_pl_locked r)
    (hwp_ncpus_done r) (hwp_caps_raw r) (hwp_req_read r) (h_cpus r)
    (h_power_limit r) (h_power_unit r) (h_nodes r).
Definition set_hwp_cap_efficient (v : Z) (r : hwp) : hwp :=
  mk_hwp (hwp_enabled r) (hwp_epp r) (hwp_cap_highest r) (hwp_cap_guaranteed
    r) v (hwp_cap_lowest r) (hwp_cap_str r) (hwp_has_epp r) (hwp_has_actwin r)
    (hwp_has_plr r) (hwp_has_rapl r) (hwp_rapl_pu r) (hwp_rapl_tu r)
    (hwp_pl1_boot r) (hwp_pl2_boot r) (hwp_pl1_window r) (hwp_pl_locked r)
    (hwp_ncpus_done r) (hwp_caps_raw r) (hwp_req_read r) (h_cpus r)
    (h_power_limit r) (h_power_unit r) (h_nodes r).
Definition set_hwp_cap_lowest (v : Z) (r : hwp) : hwp :=
  mk_hwp (hwp_enabled r) (hwp_epp r) (hwp_cap_highest r) (hwp_cap_guaranteed
    r) (hwp_cap_efficient r) v (hwp_cap_str r) (hwp_has_epp r) (hwp_has_actwin
    r) (hwp_has_plr r) (hwp_has_rapl r) (hwp_rapl_pu r) (hwp_rapl_tu r)
    (hwp_pl1_boot r) (hwp_pl2_boot r) (hwp_pl1_window r) (hwp_pl_locked r)
    (hwp_ncpus_done r) (hwp_caps_raw r) (hwp_req_read r) (h_cpus r)
    (h_power_limit r) (h_power_unit r) (h_nodes r).
Definition set_hwp_cap_str (v : string) (r : hwp) : hwp :=
  mk_hwp (hwp_enabled r) (hwp_epp r) (hwp_cap_highest r) (hwp_cap_guaranteed
    r) (hwp_cap_efficient r) (hwp_cap_lowest r) v (hwp_has_epp r)
    (hwp_has_actwin r) (hwp_has_plr r) (hwp_has_rapl r) (hwp_rapl_pu r)
    (hwp_rapl_tu r) (hwp_pl1_boot r) (hwp_pl2_boot r) (hwp_pl1_window r)
    (hwp_pl_locked r) (hwp_ncpus_done r) (hwp_caps_raw r) (hwp_req_read r)
    (h_cpus r) (h_power_limit r) (h_power_unit r) (h_nodes r).
Definition set_hwp_has_epp (v : bool) (r : hwp) : hwp :=
  mk_hwp (hwp_enabled r) (hwp_epp r) (hwp_cap_highest r) (hwp_cap_guaranteed
    r) (hwp_cap_efficient r) (hwp_cap_lowest r) (hwp_cap_str r) v
    (hwp_has_actwin r) (hwp_has_plr r) (hwp_has_rapl r) (hwp_rapl_pu r)
    (hwp_rapl_tu r) (hwp_pl1_boot r) (hwp_pl2_boot r) (hwp_pl1_window r)
    (hwp_pl_locked r) (hwp_ncpus_done r) (hwp_caps_raw r) (hwp_req_read r)
    (h_cpus r) (h_power_limit r) (h_power_unit r) (h_nodes r).
Definition set_hwp_has_actwin (v : bool) (r : hwp) : hwp :=
  mk_hwp (hwp_enabled r) (hwp_epp r) (hwp_cap_highest r) (hwp_cap_guaranteed
    r) (hwp_cap_efficient r) (hwp_cap_lowest r) (hwp_cap_str r) (hwp_has_epp
    r) v (hwp_has_plr r) (hwp_has_rapl r) (hwp_rapl_pu r) (hwp_rapl_tu r)
    (hwp_pl1_boot r) (hwp_pl2_boot r) (hwp_pl1_window r) (hwp_pl_locked r)
    (hwp_ncpus_done r) (hwp_caps_raw r) (hwp_req_read r) (h_cpus r)
    (h_power_limit r) (h_power_unit r) (h_nodes r).
Definition set_hwp_has_plr (v : bool) (r : hwp) : hwp :=
  mk_hwp (hwp_enabled r) (hwp_epp r) (hwp_cap_highest r) (hwp_cap_guaranteed
    r) (hwp_cap_efficient r) (hwp_cap_lowest r) (hwp_cap_str r) (hwp_has_epp
    r) (hwp_has_actwin r) v (hwp_has_rapl r) (hwp_rapl_pu r) (hwp_rapl_tu r)
    (hwp_pl1_boot r) (hwp_pl2_boot r) (hwp_pl1_window r) (hwp_pl_locked r)
    (hwp_ncpus_done r) (hwp_caps_raw r) (hwp_req_read r) (h_cpus r)
    (h_power_limit r) (h_power_unit r) (h_nodes r).
Definition set_hwp_has_rapl (v : bool) (r : hwp) : hwp :=
  mk_hwp (hwp_enabled r) (hwp_epp r) (hwp_cap_highest r) (hwp_cap_guaranteed
    r) (hwp_cap_efficient r) (hwp_cap_lowest r) (hwp_cap_str r) (hwp_has_epp
    r) (hwp_has_actwin r) (hwp_has_plr r) v (hwp_rapl_pu r) (hwp_rapl_tu r)
    (hwp_pl1_boot r) (hwp_pl2_boot r) (hwp_pl1_window r) (hwp_pl_locked r)
    (hwp_ncpus_done r) (hwp_caps_raw r) (hwp_req_read r) (h_cpus r)
    (h_power_limit r) (h_power_unit r) (h_nodes r).
Definition set_hwp_rapl_pu (v : Z) (r : hwp) : hwp :=
  mk_hwp (hwp_enabled r) (hwp_epp r) (hwp_cap_highest r) (hwp_cap_guaranteed
    r) (hwp_cap_efficient r) (hwp_cap_lowest r) (hwp_cap_str r) (hwp_has_epp
    r) (hwp_has_actwin r) (hwp_has_plr r) (hwp_has_rapl r) v (hwp_rapl_tu r)
    (hwp_pl1_boot r) (hwp_pl2_boot r) (hwp_pl1_window r) (hwp_pl_locked r)
    (hwp_ncpus_done r) (hwp_caps_raw r) (hwp_req_read r) (h_cpus r)
    (h_power_limit r) (h_power_unit r) (h_nodes r).
Definition set_hwp_rapl_tu (v : Z) (r : hwp) : hwp :=
  mk_hwp (hwp_enabled r) (hwp_epp r) (hwp_cap_highest r) (hwp_cap_guaranteed
    r) (hwp_cap_efficient r) (hwp_cap_lowest r) (hwp_cap_str r) (hwp_has_epp
    r) (hwp_has_actwin r) (hwp_has_plr r) (hwp_has_rapl r) (hwp_rapl_pu r) v
    (hwp_pl1_boot r) (hwp_pl2_boot r) (hwp_pl1_window r) (hwp_pl_locked r)
    (hwp_ncpus_done r) (hwp_caps_raw r) (hwp_req_read r) (h_cpus r)
    (h_power_limit r) (h_power_unit r) (h_nodes r).
Definition set_hwp_pl1_boot (v : Z) (r : hwp) : hwp :=
  mk_hwp (hwp_enabled r) (hwp_epp r) (hwp_cap_highest r) (hwp_cap_guaranteed
    r) (hwp_cap_efficient r) (hwp_cap_lowest r) (hwp_cap_str r) (hwp_has_epp
    r) (hwp_has_actwin r) (hwp_has_plr r) (hwp_has_rapl r) (hwp_rapl_pu r)
    (hwp_rapl_tu r) v (hwp_pl2_boot r) (hwp_pl1_window r) (hwp_pl_locked r)
    (hwp_ncpus_done r) (hwp_caps_raw r) (hwp_req_read r) (h_cpus r)
    (h_power_limit r) (h_power_unit r) (h_nodes r).
Definition set_hwp_pl2_boot (v : Z) (r : hwp) : hwp :=
  mk_hwp (hwp_enabled r) (hwp_epp r) (hwp_cap_highest r) (hwp_cap_guaranteed
    r) (hwp_cap_efficient r) (hwp_cap_lowest r) (hwp_cap_str r) (hwp_has_epp
    r) (hwp_has_actwin r) (hwp_has_plr r) (hwp_has_rapl r) (hwp_rapl_pu r)
    (hwp_rapl_tu r) (hwp_pl1_boot r) v (hwp_pl1_window r) (hwp_pl_locked r)
    (hwp_ncpus_done r) (hwp_caps_raw r) (hwp_req_read r) (h_cpus r)
    (h_power_limit r) (h_power_unit r) (h_nodes r).
Definition set_hwp_pl1_window (v : Z) (r : hwp) : hwp :=
  mk_hwp (hwp_enabled r) (hwp_epp r) (hwp_cap_highest r) (hwp_cap_guaranteed
    r) (hwp_cap_efficient r) (hwp_cap_lowest r) (hwp_cap_str r) (hwp_has_epp
    r) (hwp_has_actwin r) (hwp_has_plr r) (hwp_has_rapl r) (hwp_rapl_pu r)
    (hwp_rapl_tu r) (hwp_pl1_boot r) (hwp_pl2_boot r) v (hwp_pl_locked r)
    (hwp_ncpus_done r) (hwp_caps_raw r) (hwp_req_read r) (h_cpus r)
    (h_power_limit r) (h_power_unit r) (h_nodes r).
Definition set_hwp_pl_locked (v : Z) (r : hwp) : hwp :=
  mk_hwp (hwp_enabled r) (hwp_epp r) (hwp_cap_highest r) (hwp_cap_guaranteed
    r) (hwp_cap_efficient r) (hwp_cap_lowest r) (hwp_cap_str r) (hwp_has_epp
    r) (hwp_has_actwin r) (hwp_has_plr r) (hwp_has_rapl r) (hwp_rapl_pu r)
    (hwp_rapl_tu r) (hwp_pl1_boot r) (hwp_pl2_boot r) (hwp_pl1_window r) v
    (hwp_ncpus_done r) (hwp_caps_raw r) (hwp_req_read r) (h_cpus r)
    (h_power_limit r) (h_power_unit r) (h_nodes r).
Definition set_hwp_ncpus_done (v : Z) (r : hwp) : hwp :=
  mk_hwp (hwp_enabled r) (hwp_epp r) (hwp_cap_highest r) (hwp_cap_guaranteed
    r) (hwp_cap_efficient r) (hwp_cap_lowest r) (hwp_cap_str r) (hwp_has_epp
    r) (hwp_has_actwin r) (hwp_has_plr r) (hwp_has_rapl r) (hwp_rapl_pu r)
    (hwp_rapl_tu r) (hwp_pl1_boot r) (hwp_pl2_boot r) (hwp_pl1_window r)
    (hwp_pl_locked r) v (hwp_caps_raw r) (hwp_req_read r) (h_cpus r)
    (h_power_limit r) (h_power_unit r) (h_nodes r).
Definition set_hwp_caps_raw (v : Z) (r : hwp) : hwp :=
  mk_hwp (hwp_enabled r) (hwp_epp r) (hwp_cap_highest r) (hwp_cap_guaranteed
    r) (hwp_cap_efficient r) (hwp_cap_lowest r) (hwp_cap_str r) (hwp_has_epp
    r) (hwp_has_actwin r) (hwp_has_plr r) (hwp_has_rapl r) (hwp_rapl_pu r)
    (hwp_rapl_tu r) (hwp_pl1_boot r) (hwp_pl2_boot r) (hwp_pl1_window r)
    (hwp_pl_locked r) (hwp_ncpus_done r) v (hwp_req_read r) (h_cpus r)
    (h_power_limit r) (h_power_unit r) (h_nodes r).
Definition set_hwp_req_read (v : list Z) (r : hwp) : hwp :=
  mk_hwp (hwp_enabled r) (hwp_epp r) (hwp_cap_highest r) (hwp_cap_guaranteed
    r) (hwp_cap_efficient r) (hwp_cap_lowest r) (hwp_cap_str r) (hwp_has_epp
    r) (hwp_has_actwin r) (hwp_has_plr r) (hwp_has_rapl r) (hwp_rapl_pu r)
    (hwp_rapl_tu r) (hwp_pl1_boot r) (hwp_pl2_boot r) (hwp_pl1_window r)
    (hwp_pl_locked r) (hwp_ncpus_done r) (hwp_caps_raw r) v (h_cpus r)
    (h_power_limit r) (h_power_unit r) (h_nodes r).
Definition set_h_cpus (v : list cpu_msr) (r : hwp) : hwp :=
  mk_hwp (hwp_enabled r) (hwp_epp r) (hwp_cap_highest r) (hwp_cap_guaranteed
    r) (hwp_cap_efficient r) (hwp_cap_lowest r) (hwp_cap_str r) (hwp_has_epp
    r) (hwp_has_actwin r) (hwp_has_plr r) (hwp_has_rapl r) (hwp_rapl_pu r)
    (hwp_rapl_tu r) (hwp_pl1_boot r) (hwp_pl2_boot r) (hwp_pl1_window r)
    (hwp_pl_locked r) (hwp_ncpus_done r) (hwp_caps_raw r) (hwp_req_read r) v
    (h_power_limit r) (h_power_unit r) (h_nodes r).
Definition set_h_power_limit (v : option Z) (r : hwp) : hwp :=
  mk_hwp (hwp_enabled r) (hwp_epp r) (hwp_cap_highest r) (hwp_cap_guaranteed
    r) (hwp_cap_efficient r) (hwp_cap_lowest r) (hwp_cap_str r) (hwp_has_epp
    r) (hwp_has_actwin r) (hwp_has_plr r) (hwp_has_rapl r) (hwp_rapl_pu r)
    (hwp_rapl_tu r) (hwp_pl1_boot r) (hwp_pl2_boot r) (hwp_pl1_window r)
    (hwp_pl_locked r) (hwp_ncpus_done r) (hwp_caps_raw r) (hwp_req_read r)
    (h_cpus r) v (h_power_unit r) (h_nodes r).
Definition set_h_nodes (v : bool) (r : hwp) : hwp :=
  mk_hwp (hwp_enabled r) (hwp_epp r) (hwp_cap_highest r) (hwp_cap_guaranteed
    r) (hwp_cap_efficient r) (hwp_cap_lowest r) (hwp_cap_str r) (hwp_has_epp
    r) (hwp_has_actwin r) (hwp_has_plr r) (hwp_has_rapl r) (hwp_rapl_pu r)
    (hwp_rapl_tu r) (hwp_pl1_boot r) (hwp_pl2_boot r) (hwp_pl1_window r)
    (hwp_pl_locked r) (hwp_ncpus_done r) (hwp_caps_raw r) (hwp_req_read r)
    (h_cpus r) (h_power_limit r) (h_power_unit r) v.

Definition HWP_EPP_DEFAULT : Z := 128.
Definition PM_ENABLE_HWP : Z := 1.

(** __BITS(m, n), __SHIFTOUT and __SHIFTIN of <sys/cdefs.h>. *)
Definition bits (m n : Z) : Z := Z.shiftl (Z.ones (m - n + 1)) n.
Definition shiftout (x n m : Z) : Z := Z.shiftr (Z.land x (bits m n)) n.
Definition shiftin (x n : Z) : Z := u64 (Z.shiftl x n).
Definition PL1_POWER : Z := bits 14 0.
Definition PL1_ENABLE : Z := 2 ^ 15.
Definition PL2_POWER : Z := bits 46 32.
Definition PL2_ENABLE : Z := 2 ^ 47.
Definition PL_LOCK : Z := 2 ^ 63.

Definition HWP_CAP_HIGHEST (v : Z) : Z := Z.land (Z.shiftr v 0) 0xff.
Definition HWP_CAP_GUARANTEED (v : Z) : Z := Z.land (Z.shiftr v 8) 0xff.
Definition HWP_CAP_EFFICIENT (v : Z) : Z := Z.land (Z.shiftr v 16) 0xff.
Definition HWP_CAP_LOWEST (v : Z) : Z := Z.land (Z.shiftr v 24) 0xff.

Definition HWP_REQ_MIN (v : Z) : Z := Z.shiftl (Z.land v 0xff) 0.
Definition HWP_REQ_MAX (v : Z) : Z := Z.shiftl (Z.land v 0xff) 8.
Definition HWP_REQ_DESIRED (v : Z) : Z := Z.shiftl (Z.land v 0xff) 16.
Definition HWP_REQ_EPP (v : Z) : Z := Z.shiftl (Z.land v 0xff) 24.

(** ** HWP requests *)

(** The request this module writes on a CPU with these capabilities. *)
Definition hwp_request (has_epp : bool) (caps epp : Z) : Z :=
  let req := HWP_REQ_MIN (HWP_CAP_LOWEST caps) in
  let req := Z.lor req (HWP_REQ_MAX (HWP_CAP_HIGHEST caps)) in
  let req := Z.lor req (HWP_REQ_DESIRED 0) in
  if has_epp then Z.lor req (HWP_REQ_EPP epp) else req.

(** On CPU [i]: its registers, and whether it counted itself as done. *)
Definition hwp_xc_program (has_epp enable : bool) (epp : Z) (c : cpu_msr) : cpu_msr * bool :=
  let c := if enable
           then set_m_pm_enable (if m_pm_sticks c then PM_ENABLE_HWP else m_pm_enable c) c
           else c in
  if enable && negb (has_flag (m_pm_enable c) PM_ENABLE_HWP) then (c, false) else
  (set_m_hwp_request (hwp_request has_epp (m_hwp_capabilities c) epp) c, enable).

(** What CPU [i] records of its request register. *)
Definition hwp_xc_read (has_epp : bool) (epp : Z) (c : cpu_msr) : Z :=
  let req := m_hwp_request c in
  let want := hwp_request has_epp (m_hwp_capabilities c) epp in
  Z.lor (Z.land req 0xffffffff)
    (if negb (Z.land req 0xffffffff =? Z.land want 0xffffffff) then 2 ^ 63 else 0).

(** The broadcast, CPU 0 first; the capabilities kept are CPU 0's. *)
Definition hwp_program_all (enable : bool) (s : hwp) : hwp :=
  let epp := u32 (hwp_epp s) in
  let rs := map (hwp_xc_program (hwp_has_epp s) enable epp) (h_cpus s) in
  let s := set_h_cpus (map fst rs) s in
  match rs with
  | (c, true) :: _ => set_hwp_caps_raw (m_hwp_capabilities c)
      (set_hwp_ncpus_done (u32 (hwp_ncpus_done s + Z.of_nat (length (filter (fun r => r.2 = true) rs)))) s)
  | _ => set_hwp_ncpus_done
      (u32 (hwp_ncpus_done s + Z.of_nat (length (filter (fun r => r.2 = true) rs)))) s
  end.

Section handlers.
Context `{SC : Sysctl}.

Definition hwp_sysctl_epp (rq : sysctl_req) (s : hwp) : sysctl_res Z hwp :=
  let v0 := hwp_epp s in
  let '(error, val) := sysctl_lookup rq v0 in
  match rq_newp rq with
  | None => mk_res error v0 s
  | Some _ =>
      if negb (error =? 0) then mk_res error v0 s
      else if (val <? 0) || (255 <? val) then mk_res EINVAL v0 s
      else if negb (hwp_has_epp s) then mk_res EOPNOTSUPP v0 s
      else mk_res 0 v0 (hwp_program_all false (set_hwp_epp val s))
  end.

(** The loop over the CPUs; -2 is "none yet". *)
Fixpoint epp_hw_loop (val : Z) (reads : list Z) : Z :=
  match reads with
  | [] => val
  | r :: reads =>
      let e := Z.land (Z.shiftr r 24) 0xff in
      if has_flag r (2 ^ 63) || (negb (val =? -2) && negb (val =? e)) then -1
      else epp_hw_loop e reads
  end.

Definition hwp_sysctl_epp_hw (rq : sysctl_req) (s : hwp) : sysctl_res Z hwp :=
  if negb (hwp_has_epp s) then mk_res EOPNOTSUPP 0 s else
  let epp := u32 (hwp_epp s) in
  let max := length (hwp_req_read s) in
  let got := take max (map (hwp_xc_read (hwp_has_epp s) epp) (h_cpus s)) in
  let s := set_hwp_req_read (got ++ replicate (max - length got) 0) s in
  let val := epp_hw_loop (-2) got in
  mk_res (sysctl_lookup rq val).1 val s.

(** ** Package power limits *)

Definition hwp_sysctl_pl1_enabled (rq : sysctl_req) (s : hwp) : sysctl_res Z hwp :=
  match h_power_limit s with
  | None => mk_res EIO 0 s
  | Some lim =>
      let val := if has_flag lim PL1_ENABLE then 1 else 0 in
      mk_res (sysctl_lookup rq val).1 val s
  end.

Definition hwp_raw_to_mw (pu raw : Z) : Z := i32 (Z.shiftr (u64 (raw * 1000)) pu).

Definition hwp_mw_to_raw (pu mw : Z) : Z := u64 (u64 (Z.shiftl mw pu) + 500) / 1000.

Definition hwp_rapl_read (s : hwp) : hwp :=
  match h_power_limit s with
  | None => s
  | Some lim =>
      let s := set_hwp_pl_locked (if has_flag lim PL_LOCK then 1 else 0) s in
      let y := shiftout lim 17 21 in
      let z := shiftout lim 22 23 in
      set_hwp_pl1_window
        (i32 (Z.shiftr (u64 (u64 (Z.shiftl 1000 y) * (4 + z)) / 4) (hwp_rapl_tu s))) s
  end.

(** The field of the limit a node stands for. *)
Definition pl_field (pl2 : bool) (lim : Z) : Z :=
  if pl2 then shiftout lim 32 46 else shiftout lim 0 14.

Definition pl_update (pl2 : bool) (field lim : Z) : Z :=
  if pl2 then
    let lim := clr_flag lim PL2_POWER in
    set_flag lim (Z.lor (shiftin field 32) PL2_ENABLE)
  else
    let lim := clr_flag lim PL1_POWER in
    set_flag lim (Z.lor (shiftin field 0) PL1_ENABLE).

Definition hwp_sysctl_pl (pl2 : bool) (rq : sysctl_req) (s : hwp) : sysctl_res Z hwp :=
  match h_power_limit s with
  | None => mk_res EIO 0 s
  | Some lim =>
      let v0 := hwp_raw_to_mw (hwp_rapl_pu s) (pl_field pl2 lim) in
      let '(error, val) := sysctl_lookup rq v0 in
      match rq_newp rq with
      | None => mk_res error v0 s
      | Some _ =>
          if negb (error =? 0) then mk_res error v0 s
          else if has_flag lim PL_LOCK then mk_res EPERM v0 s
          else if (val <? 3000) || (64000 <? val) then mk_res EINVAL v0 s
          else
            let field := hwp_mw_to_raw (hwp_rapl_pu s) val in
            mk_res 0 v0 (set_h_power_limit (Some (pl_update pl2 field lim)) s)
      end
  end.

(** ** Nodes *)

Inductive hw_handler := HW_epp | HW_epp_hw | HW_pl1_enabled | HW_pl1 | HW_pl2.
Inductive hw_var := HV_enabled | HV_highest | HV_guaranteed | HV_efficient | HV_lowest
  | HV_pl1_window | HV_pl_locked | HV_pl1_boot | HV_pl2_boot | HV_capabilities.

Definition hwp_sysctl_setup (has_rapl : bool) : list (sysctl_node hw_handler hw_var) :=
  [mk_node false false CTLTYPE_INT "enabled" None (Some HV_enabled);
   mk_node false true CTLTYPE_INT "epp" (Some HW_epp) None;
   mk_node false false CTLTYPE_STRING "capabilities" None (Some HV_capabilities);
   mk_node false false CTLTYPE_INT "highest" None (Some HV_highest);
   mk_node false false CTLTYPE_INT "guaranteed" None (Some HV_guaranteed);
   mk_node false false CTLTYPE_INT "efficient" None (Some HV_efficient);
   mk_node false false CTLTYPE_INT "lowest" None (Some HV_lowest)]%string ++
  if has_rapl then
  [mk_node false false CTLTYPE_INT "epp_hw" (Some HW_epp_hw) None;
   mk_node false false CTLTYPE_INT "pl1_enabled" (Some HW_pl1_enabled) None;
   mk_node false true CTLTYPE_INT "pl1" (Some HW_pl1) None;
   mk_node false true CTLTYPE_INT "pl2" (Some HW_pl2) (Some HV_pl2_boot);
   mk_node false false CTLTYPE_INT "pl1_window" None (Some HV_pl1_window);
   mk_node false false CTLTYPE_INT "pl_locked" None (Some HV_pl_locked);
   mk_node false false CTLTYPE_INT "pl1_boot" None (Some HV_pl1_boot);
   mk_node false false CTLTYPE_INT "pl2_boot" None (Some HV_pl2_boot)]%string
  else [].

Definition hw_get (v : hw_var) (s : hwp) : Z :=
  match v with
  | HV_enabled => hwp_enabled s | HV_highest => hwp_cap_highest s
  | HV_guaranteed => hwp_cap_guaranteed s | HV_efficient => hwp_cap_efficient s
  | HV_lowest => hwp_cap_lowest s | HV_pl1_window => hwp_pl1_window s
  | HV_pl_locked => hwp_pl_locked s | HV_pl1_boot => hwp_pl1_boot s
  | HV_pl2_boot => hwp_pl2_boot s | HV_capabilities => 0
  end.

Definition hwp_handler (h : hw_handler) (rq : sysctl_req) (s : hwp) : sysctl_res Z hwp :=
  match h with
  | HW_epp => hwp_sysctl_epp rq s
  | HW_epp_hw => hwp_sysctl_epp_hw rq s
  | HW_pl1_enabled => hwp_sysctl_pl1_enabled rq s
  | HW_pl1 => hwp_sysctl_pl false rq s
  | HW_pl2 => hwp_sysctl_pl true rq s
  end.

(** sysctlbyname("machdep.hwp.<name>") on an integer node; a node without a
    handler is its variable, read only. *)
Definition hwp_sysctl (name : string) (newp : option Z) (s : hwp) : sysctl_res Z hwp :=
  if negb (h_nodes s) then mk_res ENOENT 0 s else
  match find_node name (hwp_sysctl_setup (hwp_has_rapl s)) with
  | None => mk_res ENOENT 0 s
  | Some nd =>
      let rq := mk_req (nd_readwrite nd) newp in
      match nd_handler nd, nd_data nd with
      | Some h, _ => hwp_handler h rq s
      | None, Some v => let x := hw_get v s in mk_res (sysctl_lookup rq x).1 x s
      | None, None => mk_res EINVAL 0 s
      end
  end.

(** ** Loading *)

(** What CPUID says: the highest leaf, and leaf 6's HWP bits. *)
Record hwp_cpuid := mk_hwp_cpuid {
  cp_max : Z;
  cp_hwp : bool;
  cp_actwin : bool;
  cp_epp : bool;
  cp_plr : bool
}.

Definition CAP_BUF : nat := 64.

Definition hwp_caps_text (s : hwp) : string :=
  "highest=" +:+ dec (hwp_cap_highest s) +:+ " guaranteed=" +:+ dec (hwp_cap_guaranteed s) +:+
  " efficient=" +:+ dec (hwp_cap_efficient s) +:+ " lowest=" +:+ dec (hwp_cap_lowest s).

Definition hwp_init_caps (s : hwp) : hwp :=
  let s := set_hwp_cap_highest (HWP_CAP_HIGHEST (hwp_caps_raw s)) s in
  let s := set_hwp_cap_guaranteed (HWP_CAP_GUARANTEED (hwp_caps_raw s)) s in
  let s := set_hwp_cap_efficient (HWP_CAP_EFFICIENT (hwp_caps_raw s)) s in
  let s := set_hwp_cap_lowest (HWP_CAP_LOWEST (hwp_caps_raw s)) s in
  let s := set_hwp_cap_str (default "" (sb_text <$> sbuf_printf CAP_BUF (hwp_caps_text s) sbuf_empty)) s in
  set_hwp_enabled 1 s.

Definition hwp_init_rapl (s : hwp) : hwp :=
  match h_power_unit s, h_power_limit s with
  | Some unit, Some lim =>
      let s := set_hwp_has_rapl true s in
      let s := set_hwp_rapl_pu (Z.land unit 0xf) s in
      let s := set_hwp_rapl_tu (Z.land (Z.shiftr unit 16) 0xf) s in
      let s := set_hwp_pl1_boot (hwp_raw_to_mw (hwp_rapl_pu s) (pl_field false lim)) s in
      let s := set_hwp_pl2_boot (hwp_raw_to_mw (hwp_rapl_pu s) (pl_field true lim)) s in
      hwp_rapl_read s
  | _, _ => s
  end.

(** [setup_error]: what [sysctl_createv] answered. *)
Definition hwp_init (cp : hwp_cpuid) (setup_error : Z) (s : hwp) : Z * hwp :=
  if cp_max cp <? 6 then (ENODEV, s)
  else if negb (cp_hwp cp) then (ENODEV, s) else
  let s := set_hwp_has_actwin (cp_actwin cp) s in
  let s := set_hwp_has_epp (cp_epp cp) s in
  let s := set_hwp_has_plr (cp_plr cp) s in
  let s := hwp_program_all true (set_hwp_ncpus_done 0 s) in
  if hwp_ncpus_done s =? 0 then (ENODEV, s) else
  let s := hwp_init_rapl (hwp_init_caps s) in
  if negb (setup_error =? 0) then (setup_error, set_h_nodes false s)
  else (0, set_h_nodes true s).

Definition hwp_fini (s : hwp) : Z * hwp := (0, set_h_nodes false s).

Inductive hw_modcmd := HW_INIT | HW_FINI | HW_OTHER.

Definition hwp_modcmd (cmd : hw_modcmd) (cp : hwp_cpuid) (setup_error : Z) (s : hwp) : Z * hwp :=
  match cmd with
  | HW_INIT => hwp_init cp setup_error s
  | HW_FINI => hwp_fini s
  | HW_OTHER => (ENOTTY, s)
  end.

End handlers.
