(* ===== verification/HwpThms.v ===== *)
(** * What hwp writes is what the hardware holds

    The request registers after a write of the preference, what
    machdep.hwp.epp_hw proves about them, and the power limit registers. *)

From stdpp Require Import base numbers list strings.
From S2P Require Import Prelude Text Sysctl Hwp.

(** ** Fields of the request register *)

Lemma land_field x n : 0 <= n -> in_field n (Z.land x (Z.ones n)).
Proof. intros H. unfold in_field. rewrite Z.land_ones by done. apply Z.mod_pos_bound. lia. Qed.

Lemma epp_of_fields a b epp : in_field 8 a -> in_field 8 b -> in_field 8 epp ->
  let r := Z.lor (Z.lor (Z.lor (Z.shiftl a 0) (Z.shiftl b 8)) 0) (Z.shiftl epp 24) in
  Z.land r (Z.ones 32) = r /\ Z.land (Z.shiftr r 24) (Z.ones 8) = epp.
Proof. intros Ha Hb He r. subst r. split; bitwise. Qed.

(** The request fits 32 bits and carries the preference. *)
Lemma request_fields caps epp : in_field 8 epp ->
  Z.land (hwp_request true caps epp) 0xffffffff = hwp_request true caps epp /\
  Z.land (Z.shiftr (hwp_request true caps epp) 24) 0xff = epp.
Proof.
  intros He. unfold hwp_request, HWP_REQ_MIN, HWP_REQ_MAX, HWP_REQ_DESIRED, HWP_REQ_EPP.
  change 0xffffffff with (Z.ones 32). change 0xff with (Z.ones 8).
  change (Z.shiftl (Z.land 0 (Z.ones 8)) 16) with 0.
  assert (Z.land epp (Z.ones 8) = epp) as -> by (rewrite Z.land_ones by lia; by apply Z.mod_small).
  apply epp_of_fields; [apply land_field; lia..|done].
Qed.

(** What a CPU reports: its low word, flagged when it is not what we write. *)
Lemma xc_read_spec e epp c :
  let lo := Z.land (m_hwp_request c) 0xffffffff in
  let want := Z.land (hwp_request e (m_hwp_capabilities c) epp) 0xffffffff in
  has_flag (hwp_xc_read e epp c) (2 ^ 63) = negb (lo =? want) /\
  Z.land (Z.shiftr (hwp_xc_read e epp c) 24) 0xff = Z.land (Z.shiftr lo 24) 0xff.
Proof.
  cbv zeta. unfold hwp_xc_read, has_flag. change 0xff with (Z.ones 8).
  assert (in_field 32 (Z.land (m_hwp_request c) 0xffffffff)) as Hf by (apply (land_field _ 32); lia).
  revert Hf. generalize (Z.land (m_hwp_request c) 0xffffffff). intros lo Hf.
  destruct (lo =? _); simpl negb; cbv iota; rewrite ?Z.lor_0_r.
  - split; [|done]. assert (Z.land lo (2 ^ 63) = 0) as -> by bitwise. done.
  - split; [|bitwise]. rewrite Z.land_lor_distr_l, Z.land_diag.
    destruct (Z.eqb_spec (Z.lor (Z.land lo (2 ^ 63)) (2 ^ 63)) 0) as [E|]; [|done].
    apply Z.lor_eq_0_iff in E as [_ E]. discriminate.
Qed.

(** The loop answers a preference only if every report is unflagged and equal. *)
Lemma epp_hw_loop_spec val rs v : 0 <= v -> epp_hw_loop val rs = v ->
  (rs = [] -> val = v) /\
  (val = -2 \/ val = v \/ rs = []) /\
  Forall (fun r => has_flag r (2 ^ 63) = false /\ Z.land (Z.shiftr r 24) 0xff = v) rs.
Proof.
  intros Hv. revert val. induction rs as [|r rs IH]; intros val; cbn [epp_hw_loop].
  { intros ->. repeat split; auto. }
  destruct (has_flag r (2 ^ 63) || _) eqn:E; [lia|]. intros Hl.
  apply orb_false_elim in E as [E1 E2]. destruct (IH _ Hl) as (H1 & H2 & H3).
  assert (0 <= Z.land (Z.shiftr r 24) 0xff) by (apply (land_field _ 8); lia).
  assert (Z.land (Z.shiftr r 24) 0xff = v) as Er.
  { destruct H2 as [H2|[H2|H2]]; [lia|done|auto]. }
  split; [done|]. split; [|constructor; done].
  apply andb_false_iff in E2 as [E2|E2]; apply negb_false_iff, Z.eqb_eq in E2; [by left|].
  right. left. congruence.
Qed.

Lemma epp_hw_loop_same v rs : 0 <= v ->
  Forall (fun r => has_flag r (2 ^ 63) = false /\ Z.land (Z.shiftr r 24) 0xff = v) rs ->
  forall val, val = -2 \/ val = v -> epp_hw_loop val rs = if bool_decide (rs = []) then val else v.
Proof.
  intros Hv. induction 1 as [|r rs [H1 H2] _ IH]; intros val Hval; [done|].
  cbn [epp_hw_loop]. rewrite H1, H2, bool_decide_false by done. simpl.
  assert (negb (val =? -2) && negb (val =? v) = false) as ->.
  { destruct Hval as [-> | ->]; [done|]. by rewrite Z.eqb_refl, andb_false_r. }
  rewrite IH by auto. by destruct (bool_decide _).
Qed.

Section epp.
Context `{SC : Sysctl}.

(** What the CPUs hold when epp_hw answers a preference. *)
Lemma epp_hw_answer rq s v :
  (length (h_cpus s) <= length (hwp_req_read s))%nat -> 0 <= v ->
  res_out (hwp_sysctl_epp_hw rq s) = v -> hwp_has_epp s = true ->
  Forall (fun c =>
    Z.land (m_hwp_request c) 0xffffffff =
      Z.land (hwp_request true (m_hwp_capabilities c) (u32 (hwp_epp s))) 0xffffffff /\
    Z.land (Z.shiftr (Z.land (m_hwp_request c) 0xffffffff) 24) 0xff = v) (h_cpus s).
Proof.
  intros Hl Hv Hr He. unfold hwp_sysctl_epp_hw in Hr. rewrite He in Hr. simpl in Hr.
  rewrite take_ge in Hr by (by rewrite length_map).
  destruct (epp_hw_loop_spec _ _ v Hv Hr) as (_ & _ & H). rewrite Forall_fmap in H.
  eapply Forall_impl; [exact H|]. intros c [H1 H2]. simpl in H1, H2.
  destruct (xc_read_spec true (u32 (hwp_epp s)) c) as [E1 E2]. rewrite E1 in H1. rewrite E2 in H2.
  split; [|done]. by apply negb_false_iff, Z.eqb_eq in H1.
Qed.

(** When machdep.hwp.epp_hw answers a preference, every CPU's request register is the
    one this module writes for the current preference and carries that preference. *)
Theorem hwp_epp_hw_sound rq s v :
  (length (h_cpus s) <= length (hwp_req_read s))%nat -> 0 <= v ->
  res_out (hwp_sysctl_epp_hw rq s) = v -> hwp_has_epp s = true ->
  Forall (fun c =>
    Z.land (m_hwp_request c) 0xffffffff =
      Z.land (hwp_request true (m_hwp_capabilities c) (u32 (hwp_epp s))) 0xffffffff /\
    Z.land (Z.shiftr (Z.land (m_hwp_request c) 0xffffffff) 24) 0xff = v) (h_cpus s).
Proof. apply epp_hw_answer. Qed.

(** The registers after a write of [v]. *)
Lemma program_all_requests enable s :
  enable = false -> h_cpus (hwp_program_all enable s) =
    map (fun c => set_m_hwp_request
      (hwp_request (hwp_has_epp s) (m_hwp_capabilities c) (u32 (hwp_epp s))) c) (h_cpus s) /\
  hwp_epp (hwp_program_all enable s) = hwp_epp s /\
  hwp_has_epp (hwp_program_all enable s) = hwp_has_epp s /\
  hwp_req_read (hwp_program_all enable s) = hwp_req_read s /\
  h_power_limit (hwp_program_all enable s) = h_power_limit s.
Proof.
  intros ->. unfold hwp_program_all, hwp_xc_program. simpl. rewrite map_map. simpl.
  by destruct (h_cpus s).
Qed.

(** A preference of 0..255 written to machdep.hwp.epp is accepted, kept and programmed
    into every CPU: machdep.hwp.epp_hw reads it back. *)
Theorem hwp_epp_write_reads_back `{!SysctlOk SC} v s :
  0 <= v <= 255 -> hwp_has_epp s = true -> h_cpus s <> [] ->
  (length (h_cpus s) <= length (hwp_req_read s))%nat ->
  let r := hwp_sysctl_epp (mk_req true (Some v)) s in
  res_err r = 0 /\ hwp_epp (res_post r) = v /\
  res_out (hwp_sysctl_epp_hw (mk_req false None) (res_post r)) = v.
Proof.
  intros Hv He Hc Hl. unfold hwp_sysctl_epp.
  pose proof (lookup_root_write v (hwp_epp s)) as Hw. pose proof (lookup_write true v (hwp_epp s) Hw) as Hx.
  destruct (sysctl_lookup (mk_req true (Some v)) (hwp_epp s)) as [e x]; simpl in *; subst e x.
  destruct (Z.ltb_spec v 0); [lia|]. destruct (Z.ltb_spec 255 v); [lia|]. rewrite He. simpl.
  destruct (program_all_requests false (set_hwp_epp v s) eq_refl) as (E1 & E2 & E3 & E4 & _).
  simpl in *. split; [done|]. split; [done|].
  unfold hwp_sysctl_epp_hw. rewrite E3, He. simpl. rewrite E1, E2, E4, He, map_map.
  rewrite take_ge by (by rewrite length_map).
  rewrite (epp_hw_loop_same v); [|lia| |by left].
  - destruct (h_cpus s); [done|]. by rewrite bool_decide_false.
  - apply Forall_map, Forall_true. intros c. unfold compose.
    destruct (xc_read_spec true (u32 v) (set_m_hwp_request
      (hwp_request true (m_hwp_capabilities c) (u32 v)) c)) as [X1 X2].
    cbn [m_hwp_request m_hwp_capabilities set_m_hwp_request] in X1, X2.
    rewrite X1, X2, Z.eqb_refl. split; [done|].
    rewrite u32_id by (unfold in_u32; lia).
    destruct (request_fields (m_hwp_capabilities c) v) as [F1 F2]; [unfold in_field; lia|].
    by rewrite F1, F2.
Qed.

End epp.

(** ** Power limits *)

Lemma pl_update_fields pl2 f lim : in_field 15 f ->
  pl_field pl2 (pl_update pl2 f lim) = f /\
  pl_field (negb pl2) (pl_update pl2 f lim) = pl_field (negb pl2) lim /\
  Z.land (pl_update pl2 f lim) PL_LOCK = Z.land lim PL_LOCK /\
  Z.land (pl_update pl2 f lim) (if pl2 then PL2_ENABLE else PL1_ENABLE) =
    (if pl2 then PL2_ENABLE else PL1_ENABLE) /\
  Z.land (pl_update pl2 f lim) (bits 24 16) = Z.land lim (bits 24 16).
Proof.
  intros H. assert (forall n, n <= 32 -> 0 <= n -> u64 (Z.shiftl f n) = Z.shiftl f n) as Hs.
  { intros n Hn H0. apply u64_id. unfold in_u64, in_field in *. rewrite Z.shiftl_mul_pow2 by done.
    assert (2 ^ n <= 2 ^ 32) by (apply Z.pow_le_mono_r; lia).
    assert (0 < 2 ^ n) by (apply Z.pow_pos_nonneg; lia). nia. }
  unfold pl_field, pl_update, shiftout, shiftin, set_flag, clr_flag, PL1_POWER, PL2_POWER,
    PL1_ENABLE, PL2_ENABLE, PL_LOCK, bits.
  destruct pl2; cbn [negb]; rewrite Hs by lia; repeat split; bitwise.
Qed.

Section power.
Context (pu : Z) (Hpu : 0 <= pu <= 8).

Lemma pow_pu : 1 <= 2 ^ pu <= 256.
Proof.
  split; [apply (Z.pow_le_mono_r 2 0); lia|].
  change 256 with (2 ^ 8). apply Z.pow_le_mono_r; lia.
Qed.

Lemma mw_to_raw_spec x : 0 <= x <= 64000 ->
  let raw := hwp_mw_to_raw pu x in
  in_field 15 raw /\ raw * 1000 <= x * 2 ^ pu + 500 < raw * 1000 + 1000.
Proof.
  intros Hx. pose proof pow_pu. unfold hwp_mw_to_raw. rewrite Z.shiftl_mul_pow2 by lia.
  rewrite (u64_id (x * 2 ^ pu)) by (unfold in_u64; nia).
  rewrite u64_id by (unfold in_u64; nia). unfold in_field. cbv zeta.
  assert (0 <= x * 2 ^ pu <= 64000 * 256) as Hb by nia.
  revert Hb. generalize (x * 2 ^ pu). intros y Hy. zdm.
Qed.

Lemma raw_to_mw_spec raw : in_field 15 raw ->
  let mw := hwp_raw_to_mw pu raw in mw * 2 ^ pu <= raw * 1000 < (mw + 1) * 2 ^ pu.
Proof.
  unfold in_field. intros Hr. pose proof pow_pu. unfold hwp_raw_to_mw.
  rewrite Z.shiftr_div_pow2 by lia. rewrite u64_id by (unfold in_u64; lia).
  assert (0 <= raw * 1000 / 2 ^ pu < 2 ^ 31).
  { split; [apply Z.div_pos; lia|]. apply Z.div_lt_upper_bound; [lia|]. nia. }
  rewrite i32_id by (unfold in_i32; lia). cbv zeta.
  pose proof (Z.div_mod (raw * 1000) (2 ^ pu) ltac:(lia)).
  pose proof (Z.mod_pos_bound (raw * 1000) (2 ^ pu) ltac:(lia)). nia.
Qed.

(** Writing [x] mW and reading back: off by at most half a unit and one mW. *)
Lemma mw_roundtrip x : 0 <= x <= 64000 ->
  let y := hwp_raw_to_mw pu (hwp_mw_to_raw pu x) in
  (y - x) * 2 ^ pu <= 500 /\ (x - y) * 2 ^ pu < 500 + 2 ^ pu.
Proof.
  intros Hx. destruct (mw_to_raw_spec x Hx) as [Hf Hr].
  pose proof (raw_to_mw_spec _ Hf). cbv zeta in *. lia.
Qed.

End power.

Section limits.
Context `{SC : Sysctl} `{!SysctlOk SC}.

Lemma pl_write pl2 x s lim : h_power_limit s = Some lim ->
  hwp_sysctl_pl pl2 (mk_req true (Some x)) s =
    let v0 := hwp_raw_to_mw (hwp_rapl_pu s) (pl_field pl2 lim) in
    if has_flag lim PL_LOCK then mk_res EPERM v0 s
    else if (x <? 3000) || (64000 <? x) then mk_res EINVAL v0 s
    else mk_res 0 v0 (set_h_power_limit
      (Some (pl_update pl2 (hwp_mw_to_raw (hwp_rapl_pu s) x) lim)) s).
Proof.
  intros Hl. unfold hwp_sysctl_pl. rewrite Hl. cbv zeta.
  set (v0 := hwp_raw_to_mw _ _).
  pose proof (lookup_root_write x v0) as Hw. pose proof (lookup_write true x v0 Hw) as Hx.
  destruct (sysctl_lookup _ _) as [e v]; simpl in Hw, Hx; subst e v. done.
Qed.

Lemma pl_read pl2 rw s lim : h_power_limit s = Some lim ->
  hwp_sysctl_pl pl2 (mk_req rw None) s =
    mk_res 0 (hwp_raw_to_mw (hwp_rapl_pu s) (pl_field pl2 lim)) s.
Proof. intros Hl. unfold hwp_sysctl_pl. rewrite Hl. cbv zeta. by rewrite lookup_read. Qed.

(** Writing machdep.hwp.pl1 or pl2: EPERM and no change when the firmware locked the
    limits, EINVAL and no change outside 3..64 W, otherwise the limit is enabled and
    reads back to within half a unit, the other limit and the lock untouched. *)
Theorem hwp_power_limit_write pl2 x s lim :
  h_power_limit s = Some lim -> 0 <= hwp_rapl_pu s <= 8 ->
  let r := hwp_sysctl_pl pl2 (mk_req true (Some x)) s in
  (has_flag lim PL_LOCK = true -> res_err r = EPERM /\ res_post r = s) /\
  (has_flag lim PL_LOCK = false -> ~ 3000 <= x <= 64000 -> res_err r = EINVAL /\ res_post r = s) /\
  (has_flag lim PL_LOCK = false -> 3000 <= x <= 64000 ->
   res_err r = 0 /\
   exists lim', h_power_limit (res_post r) = Some lim' /\
     pl_field (negb pl2) lim' = pl_field (negb pl2) lim /\
     has_flag lim' PL_LOCK = false /\
     has_flag lim' (if pl2 then PL2_ENABLE else PL1_ENABLE) = true /\
     let y := res_out (hwp_sysctl_pl pl2 (mk_req false None) (res_post r)) in
     (y - x) * 2 ^ hwp_rapl_pu s <= 500 /\
     (x - y) * 2 ^ hwp_rapl_pu s < 500 + 2 ^ hwp_rapl_pu s).
Proof.
  intros Hl Hpu r. subst r. rewrite (pl_write pl2 x s lim Hl). cbv zeta.
  split; [intros ->; done|]. split; intros Hk Hx; rewrite Hk.
  - destruct (Z.ltb_spec x 3000), (Z.ltb_spec 64000 x); try done. lia.
  - destruct (Z.ltb_spec x 3000), (Z.ltb_spec 64000 x); try lia. cbn [orb].
    split; [done|]. eexists. split; [reflexivity|].
    destruct (mw_to_raw_spec (hwp_rapl_pu s) Hpu x ltac:(lia)) as [Hf _].
    destruct (pl_update_fields pl2 _ lim Hf) as (F1 & F2 & F3 & F4 & _).
    split; [done|]. split; [unfold has_flag in *; by rewrite F3|].
    split; [unfold has_flag; rewrite F4; by destruct pl2|].
    erewrite pl_read by reflexivity. cbn [res_out hwp_rapl_pu set_h_power_limit].
    rewrite F1. apply mw_roundtrip; lia.
Qed.

(** ** Over time *)

Inductive hwp_op :=
  | HwSysctl (name : string) (newp : option Z)
  | HwModcmd (cmd : hw_modcmd) (cp : hwp_cpuid) (setup_error : Z).

Definition hwp_run (o : hwp_op) (s : hwp) : hwp :=
  match o with
  | HwSysctl name newp => res_post (hwp_sysctl name newp s)
  | HwModcmd cmd cp e => (hwp_modcmd cmd cp e s).2
  end.

Lemma program_all_frame enable s :
  hwp_epp (hwp_program_all enable s) = hwp_epp s /\
  h_power_limit (hwp_program_all enable s) = h_power_limit s.
Proof. unfold hwp_program_all. by destruct (map _ _) as [|[c []] l]. Qed.

(** The preference is a byte, and a limit the firmware locked is never written. *)
Definition hwp_keeps (s s' : hwp) : Prop :=
  (0 <= hwp_epp s <= 255 -> 0 <= hwp_epp s' <= 255) /\
  (forall lim, h_power_limit s = Some lim -> has_flag lim PL_LOCK = true ->
     h_power_limit s' = Some lim).

Lemma hwp_keeps_same s s' :
  hwp_epp s' = hwp_epp s -> h_power_limit s' = h_power_limit s -> hwp_keeps s s'.
Proof. intros E1 E2. split; [by rewrite E1|]. by rewrite E2. Qed.

Lemma hwp_keeps_trans a b c : hwp_keeps a b -> hwp_keeps b c -> hwp_keeps a c.
Proof. intros [A1 A2] [B1 B2]. split; [auto|]. intros lim H1 H2. eauto. Qed.

Lemma hwp_sysctl_epp_keeps rq s : hwp_keeps s (res_post (hwp_sysctl_epp rq s)).
Proof.
  unfold hwp_sysctl_epp. destruct (sysctl_lookup rq (hwp_epp s)) as [e v].
  destruct (rq_newp rq); [|by apply hwp_keeps_same].
  destruct (negb _); [by apply hwp_keeps_same|].
  destruct (Z.ltb_spec v 0); [by apply hwp_keeps_same|].
  destruct (Z.ltb_spec 255 v); [by apply hwp_keeps_same|]. cbn [orb].
  destruct (negb _); [by apply hwp_keeps_same|]. cbn [res_post].
  destruct (program_all_frame false (set_hwp_epp v s)) as [E1 E2].
  split; rewrite ?E1, ?E2; simpl; [lia|done].
Qed.

Lemma hwp_sysctl_pl_keeps pl2 rq s : hwp_keeps s (res_post (hwp_sysctl_pl pl2 rq s)).
Proof.
  unfold hwp_sysctl_pl. destruct (h_power_limit s) as [lim|] eqn:El; [|by apply hwp_keeps_same].
  cbv zeta. destruct (sysctl_lookup _ _) as [e v].
  destruct (rq_newp rq); [|by apply hwp_keeps_same].
  destruct (negb _); [by apply hwp_keeps_same|].
  destruct (has_flag lim PL_LOCK) eqn:Ek; [by apply hwp_keeps_same|].
  destruct (_ || _); [by apply hwp_keeps_same|].
  split; [done|]. intros l Hl Hk. congruence.
Qed.

Lemma hwp_sysctl_keeps name newp s : hwp_keeps s (res_post (hwp_sysctl name newp s)).
Proof.
  unfold hwp_sysctl. destruct (negb _); [by apply hwp_keeps_same|].
  destruct (find_node _ _) as [nd|]; [|by apply hwp_keeps_same]. cbv zeta.
  destruct (nd_handler nd) as [h|]; [|by destruct (nd_data nd); apply hwp_keeps_same].
  destruct h; cbn [hwp_handler]; auto using hwp_sysctl_epp_keeps, hwp_sysctl_pl_keeps.
  - unfold hwp_sysctl_epp_hw. destruct (negb _); by apply hwp_keeps_same.
  - unfold hwp_sysctl_pl1_enabled. destruct (h_power_limit s) eqn:E; apply hwp_keeps_same;
      simpl; congruence.
Qed.

Lemma hwp_init_caps_keeps s : hwp_keeps s (hwp_init_caps s).
Proof. by apply hwp_keeps_same. Qed.

Lemma hwp_rapl_read_keeps s : hwp_keeps s (hwp_rapl_read s).
Proof. unfold hwp_rapl_read. destruct (h_power_limit s) eqn:E; by apply hwp_keeps_same. Qed.

Lemma hwp_init_rapl_keeps s : hwp_keeps s (hwp_init_rapl s).
Proof.
  unfold hwp_init_rapl. destruct (h_power_unit s); [|by apply hwp_keeps_same].
  destruct (h_power_limit s); [|by apply hwp_keeps_same]. cbv zeta.
  eapply hwp_keeps_trans; [|apply hwp_rapl_read_keeps]. by apply hwp_keeps_same.
Qed.

Lemma hwp_init_keeps cp e s : hwp_keeps s (hwp_init cp e s).2.
Proof.
  unfold hwp_init. destruct (_ <? 6); [by apply hwp_keeps_same|].
  destruct (negb _); [by apply hwp_keeps_same|]. cbv zeta.
  set (s1 := set_hwp_ncpus_done 0 _).
  destruct (program_all_frame true s1) as [E1 E2].
  set (s2 := hwp_program_all true s1) in *. clearbody s2.
  assert (hwp_keeps s s2) as K by (apply hwp_keeps_same; [by rewrite E1|by rewrite E2]).
  destruct (_ =? 0); [done|].
  apply (hwp_keeps_trans _ s2); [done|].
  apply (hwp_keeps_trans _ (hwp_init_caps s2)); [apply hwp_init_caps_keeps|].
  apply (hwp_keeps_trans _ (hwp_init_rapl (hwp_init_caps s2))); [apply hwp_init_rapl_keeps|].
  generalize (hwp_init_rapl (hwp_init_caps s2)). intros s3.
  by destruct (negb (e =? 0)); apply hwp_keeps_same.
Qed.

(** Over any sequence of sysctl accesses, loads and unloads the preference stays a byte
    and a power limit register the firmware locked is never written. *)
Theorem hwp_locked_limits_untouched ops s :
  0 <= hwp_epp s <= 255 ->
  let s' := fold_left (fun s o => hwp_run o s) ops s in
  0 <= hwp_epp s' <= 255 /\
  forall lim, h_power_limit s = Some lim -> has_flag lim PL_LOCK = true ->
    h_power_limit s' = Some lim.
Proof.
  intros H0. cut (hwp_keeps s (fold_left (fun s o => hwp_run o s) ops s)).
  { intros [K1 K2]. auto. }
  clear H0. revert s. induction ops as [|o ops IH]; intros s; [by apply hwp_keeps_same|].
  simpl. eapply hwp_keeps_trans; [|apply IH].
  destruct o as [name newp|[] cp e]; simpl;
    [apply hwp_sysctl_keeps|apply hwp_init_keeps|by apply hwp_keeps_same|by apply hwp_keeps_same].
Qed.

End limits.

(** ** Examples *)

(** Two CPUs, eighths of a watt, PL1 15 W enabled, PL2 40 W. *)
Definition cpu_a : cpu_msr := mk_cpu_msr 1 true 0x0412152d 0x80002d04.
Definition hwp2 : hwp :=
  mk_hwp 1 128 0x2d 0x15 0x12 4 "" true false false true 3 10 15000 40000 28000 0 2 0x0412152d
    (replicate 4 0) [cpu_a; cpu_a] (Some (Z.lor (Z.shiftl 320 32) (120 + 2 ^ 15))) (Some 0xa0e03) true.

Lemma hwp_epp_hw_sound_witness :
  res_out (hwp_sysctl_epp_hw (mk_req false None) hwp2) = 128 /\
  Forall (fun c =>
    Z.land (m_hwp_request c) 0xffffffff =
      Z.land (hwp_request true (m_hwp_capabilities c) (u32 (hwp_epp hwp2))) 0xffffffff /\
    Z.land (Z.shiftr (Z.land (m_hwp_request c) 0xffffffff) 24) 0xff = 128) (h_cpus hwp2).
Proof.
  split; [vm_compute; reflexivity|].
  apply (hwp_epp_hw_sound (mk_req false None) hwp2 128).
  - simpl. lia.
  - lia.
  - vm_compute. reflexivity.
  - reflexivity.
Defined.

Lemma hwp_epp_write_reads_back_witness :
  let r := hwp_sysctl_epp (mk_req true (Some 240)) hwp2 in
  res_err r = 0 /\ hwp_epp (res_post r) = 240 /\
  res_out (hwp_sysctl_epp_hw (mk_req false None) (res_post r)) = 240.
Proof.
  apply (hwp_epp_write_reads_back 240 hwp2).
  - lia.
  - reflexivity.
  - discriminate.
  - simpl. lia.
Defined.

Lemma hwp_power_limit_write_witness :
  let lim := Z.lor (Z.shiftl 320 32) (120 + 2 ^ 15) in
  let r := hwp_sysctl_pl false (mk_req true (Some 10000)) hwp2 in
  (has_flag lim PL_LOCK = true -> res_err r = EPERM /\ res_post r = hwp2) /\
  (has_flag lim PL_LOCK = false -> ~ 3000 <= 10000 <= 64000 -> res_err r = EINVAL /\ res_post r = hwp2) /\
  (has_flag lim PL_LOCK = false -> 3000 <= 10000 <= 64000 ->
   res_err r = 0 /\
   exists lim', h_power_limit (res_post r) = Some lim' /\
     pl_field true lim' = pl_field true lim /\
     has_flag lim' PL_LOCK = false /\
     has_flag lim' PL1_ENABLE = true /\
     let y := res_out (hwp_sysctl_pl false (mk_req false None) (res_post r)) in
     (y - 10000) * 2 ^ hwp_rapl_pu hwp2 <= 500 /\
     (10000 - y) * 2 ^ hwp_rapl_pu hwp2 < 500 + 2 ^ hwp_rapl_pu hwp2).
Proof.
  apply (hwp_power_limit_write false 10000 hwp2 (Z.lor (Z.shiftl 320 32) (120 + 2 ^ 15))).
  - reflexivity.
  - simpl. lia.
Defined.

(** The same machine, its limits locked by the firmware. *)
Definition hwp_locked : hwp := set_h_power_limit (Some (2 ^ 63 + 120)) hwp2.

Lemma hwp_locked_limits_untouched_witness :
  let s' := fold_left (fun s o => hwp_run o s)
    [HwSysctl "pl1" (Some 10000); HwSysctl "epp" (Some 300)] hwp_locked in
  0 <= hwp_epp s' <= 255 /\
  forall lim, h_power_limit hwp_locked = Some lim -> has_flag lim PL_LOCK = true ->
    h_power_limit s' = Some lim.
Proof.
  apply (hwp_locked_limits_untouched
    [HwSysctl "pl1" (Some 10000); HwSysctl "epp" (Some 300)] hwp_locked).
  simpl. lia.
Defined.

(** With a power unit of 2^-12 W, 64 W does not fit the 15 bits of the field:
    the write is accepted, the limit reads back as 0 and the time window
    changes. *)
Lemma hwp_power_limit_overflows :
  let s := set_hwp_rapl_pu 12 hwp2 in
  let r := hwp_sysctl_pl false (mk_req true (Some 64000)) s in
  res_err r = 0 /\ res_out (hwp_sysctl_pl false (mk_req false None) (res_post r)) = 0 /\
  option_map (fun lim => shiftout lim 17 21) (h_power_limit (res_post r)) = Some 2.
Proof. vm_compute. auto. Qed.
