(* ===== verification/Governor.v ===== *)
(** * lpschedd: the power governor

    userland/lpschedd.c.  The daemon writes the knobs of lpsched and hwp: it
    runs here on the models of both, through the same sysctl handlers.  Busy
    fractions are doubles; a finite double is the rational it denotes, so
    comparisons are those of [Q], and arithmetic rounds ([rnd], IEEE 754).
    Files, signals, logging and memory allocation are left out. *)

From Stdlib Require Import Ascii QArith.
From stdpp Require Import base numbers list strings.
From S2P Require Import Prelude Text Sysctl Lwp Lpsched Hwp.
Local Open Scope Z_scope.

(** ** Double arithmetic *)

Class Float := rnd : Q -> Q.

Class FloatOk (F : Float) : Prop := {
  rnd_mono : forall x y, (x <= y)%Q -> (rnd x <= rnd y)%Q;
  rnd_int : forall n, Z.abs n <= 2 ^ 53 -> (rnd (inject_Z n) == inject_Z n)%Q
}.

(** Doubles wide enough never to round. *)
#[export] Instance exact_float : Float := fun x => x.
#[export] Instance exact_float_ok : FloatOk exact_float.
Proof. split; [done|reflexivity]. Qed.

Definition qlt (x y : Q) : bool := negb (Qle_bool y x).

(** ** Constants and configuration *)

Definition DOWNSHIFT_MS : Z := 500.
Definition PL_CHECK_MS : Z := 30000.
Definition POLL_ACTIVE_MS : Z := 250.
Definition POLL_IDLE_MS : Z := 500.
Definition POLL_SLOW_MS : Z := 5000.

Inductive profile := P_PERF | P_BALANCED | P_LOAD | P_BATCH | P_POWERSAVE.

#[export] Instance profile_eq_dec : EqDecision profile.
Proof. solve_decision. Defined.

Definition prof_num (p : profile) : Z :=
  match p with
  | P_PERF => 0 | P_BALANCED => 1 | P_LOAD => 2 | P_BATCH => 3 | P_POWERSAVE => 4
  end.

Record prof := mk_prof { p_name : string; p_epp : Z; p_pack : Z; p_coalesce_ms : Z }.

Definition profiles (p : profile) : prof :=
  match p with
  | P_PERF => mk_prof "perf" 32 0 0
  | P_BALANCED => mk_prof "balanced" 128 0 20
  | P_LOAD => mk_prof "load" 192 0 0
  | P_BATCH => mk_prof "batch" 224 0 0
  | P_POWERSAVE => mk_prof "powersave" 240 2 50
  end.

Record gcfg := mk_gcfg {
  interactive_ms : Z;
  boost_ms : Z;
  load_hi : Q;
  load_lo : Q;
  one_hi : Q;
  one_lo : Q;
  ncpu : nat;
  pl1_bat : Z;
  pl1_boot : Z;
  pl2_bat : Z;
  pl2_boot : Z;
  dryrun : bool;
  orig_epp : Z
}.

(** The initial values. *)
Definition default_cfg : gcfg :=
  mk_gcfg 10000 1000 (25 # 100) (15 # 100) (85 # 100) (60 # 100) 1 10000 0 0 0 false 128.

(** ** The kernel's nodes *)

Record kernel := mk_kernel {
  k_lp : lpsched;
  k_hwp : hwp
}.

Definition set_k_lp (v : lpsched) (r : kernel) : kernel :=
  mk_kernel v (k_hwp r).
Definition set_k_hwp (v : hwp) (r : kernel) : kernel :=
  mk_kernel (k_lp r) v.

(** machdep.lpsched.<name> and machdep.hwp.<name>. *)
Inductive mib := MLp (name : string) | MHwp (name : string).

Section daemon.
Context `{SC : Sysctl} `{M : Machine} `{F : Float} (cfg : gcfg).

Definition sysctlbyname (ticks : Z) (n : mib) (newp : option Z) (k : kernel) : sysctl_res Z kernel :=
  match n with
  | MLp name => let r := lpsched_sysctl ticks name newp (k_lp k) in
                mk_res (res_err r) (res_out r) (set_k_lp (res_post r) k)
  | MHwp name => let r := hwp_sysctl name newp (k_hwp k) in
                 mk_res (res_err r) (res_out r) (set_k_hwp (res_post r) k)
  end.

Definition sysctl_get (ticks : Z) (n : mib) (k : kernel) : option Z * kernel :=
  let r := sysctlbyname ticks n None k in
  (if res_err r =? 0 then Some (res_out r) else None, res_post r).

Definition sysctl_set (n : mib) (v : Z) (k : kernel) : kernel :=
  if dryrun cfg then k else res_post (sysctlbyname 0 n (Some v) k).

(** ** Profiles *)

Definition apply_profile (p : profile) (k : kernel) : kernel :=
  let k := sysctl_set (MLp "coalesce_ms") (p_coalesce_ms (profiles p)) k in
  let k := sysctl_set (MLp "pack") (p_pack (profiles p)) k in
  sysctl_set (MHwp "epp") (p_epp (profiles p)) k.

Definition latch (lo hi busy : Q) (latched : bool) : bool :=
  if latched && qlt busy lo then false
  else if negb latched && qlt hi busy then true
  else latched.

Definition decide_profile (ac : Z) (busy busy_max : Q) (idle_ms : Z)
    (load_latched one_latched : bool) : profile * bool * bool :=
  if negb (ac =? 0) then (P_PERF, load_latched, one_latched) else
  let ll := latch (load_lo cfg) (load_hi cfg) busy load_latched in
  let ol := latch (one_lo cfg) (one_hi cfg) busy_max one_latched in
  (if idle_ms <? boost_ms cfg then P_BALANCED
   else if ll then (if idle_ms <? interactive_ms cfg then P_LOAD else P_BATCH)
   else if ol && (idle_ms <? interactive_ms cfg) then P_LOAD
   else P_POWERSAVE, ll, ol).

(** ** Busy fractions *)

Record busy_st := mk_busy_st {
  bm_last : option (list Z);  (* the measured sample, if [have] *)
  bc_last : option (list (list Z));  (* the kern.cp_time sample, if [have] *)
  measured : bool;
  measured_valid : bool
}.

Definition set_bm_last (v : option (list Z)) (r : busy_st) : busy_st :=
  mk_busy_st v (bc_last r) (measured r) (measured_valid r).
Definition set_bc_last (v : option (list (list Z))) (r : busy_st) : busy_st :=
  mk_busy_st (bm_last r) v (measured r) (measured_valid r).
Definition set_measured (v : bool) (r : busy_st) : busy_st :=
  mk_busy_st (bm_last r) (bc_last r) v (measured_valid r).
Definition set_measured_valid (v : bool) (r : busy_st) : busy_st :=
  mk_busy_st (bm_last r) (bc_last r) (measured r) v.

Definition busy_init : busy_st := mk_busy_st None None false false.

(** [1.0 - (double)d / (double)t]. *)
Definition frac_of (d t : Z) : Q :=
  rnd (1 - rnd (rnd (inject_Z d) / rnd (inject_Z t)))%Q.

Definition qmax (x y : Q) : Q := if qlt x y then y else x.

(** Idle time of one CPU between two samples, clipped to the interval. *)
Definition idle_delta (dt cur last : Z) : Z :=
  Z.min (if last <? cur then cur - last else 0) dt.

(** The sum of the clipped idle times and the busiest fraction. *)
Definition measure (dt : Z) (cur last : list Z) : Z * Q :=
  fold_left (fun a d => (u64 (a.1 + d), qmax a.2 (frac_of d dt)))
    (zip_with (idle_delta dt) cur last) (0, 0%Q).

(** [sample]: machdep.lpsched.cpu_idle, the time first, if the kernel gave it
    with the expected length. *)
Definition cpu_busy_measured (reset : bool) (sample : option (list Z)) (s : busy_st) :
    option (Q * Q) * busy_st :=
  let last := if reset then None else bm_last s in
  match sample with
  | Some (now :: idle) =>
      let r := match last with
               | Some (t0 :: idle0) =>
                   if t0 <? now then
                     let dt := now - t0 in
                     let '(sum, mx) := measure dt idle idle0 in
                     (rnd (1 - rnd (rnd (inject_Z sum) /
                        rnd (rnd (inject_Z dt) * inject_Z (Z.of_nat (ncpu cfg))))), mx)%Q
                   else (0, 0)%Q
               | _ => (0, 0)%Q
               end in
      (Some r, set_bm_last (Some (now :: idle)) s)
  | _ => (None, set_bm_last None s)
  end.

Definition CP_IDLE : nat := 4.

(** kern.cp_time of one CPU: all ticks and idle ticks since the last sample. *)
Definition cp_delta (cur last : list Z) : Z * Z :=
  (fold_left (fun a x => u64 (a + x)) (zip_with (fun c l => u64 (c - l)) cur last) 0,
   u64 (cur !!! CP_IDLE - last !!! CP_IDLE)).

Definition cp_busy (cur last : list (list Z)) : Q * Q :=
  let ds := zip_with cp_delta cur last in
  let total := fold_left (fun a d => u64 (a + d.1)) ds 0 in
  let idle := fold_left (fun a d => u64 (a + d.2)) ds 0 in
  let mx := fold_left (fun a d => if 0 <? d.1 then qmax a (frac_of d.2 d.1) else a) ds 0%Q in
  ((if 0 <? total then frac_of idle total else 0%Q), mx).

Definition cpu_busy (sample : option (list Z)) (cp : option (list (list Z))) (s : busy_st) :
    Q * Q * busy_st :=
  match cpu_busy_measured (negb (measured_valid s) || negb (measured s)) sample s with
  | (Some (b, mx), s) =>
      (b, mx, set_bc_last None (set_measured_valid true (set_measured true s)))
  | (None, s) =>
      let s := set_measured_valid true (set_measured false s) in
      match cp with
      | None => (0%Q, 0%Q, s)
      | Some cur =>
          let '(b, mx) := match bc_last s with
                          | Some last => cp_busy cur last
                          | None => (0, 0)%Q
                          end in
          (b, mx, set_bc_last (Some cur) s)
      end
  end.

(** ** Power limits *)

Definition near (cur want : Z) : bool := (want - 125 <? cur) && (cur <? want + 125).

Definition pl2_want (ac want1 : Z) : Z :=
  let want := if ac =? 0 then Z.min (pl2_bat cfg) (pl2_boot cfg) else pl2_boot cfg in
  if want <? want1 then want1 else want.

Definition apply_pl2 (ac want1 : Z) (k : kernel) : kernel :=
  if (pl2_bat cfg <=? 0) || (pl2_boot cfg <=? 0) then k else
  let want := pl2_want ac want1 in
  match sysctl_get 0 (MHwp "pl2") k with
  | (None, k) => k
  | (Some cur, k) => if near cur want then k else sysctl_set (MHwp "pl2") want k
  end.

Definition pl1_want (ac : Z) : Z :=
  if ac =? 0 then Z.min (pl1_bat cfg) (pl1_boot cfg) else pl1_boot cfg.

(** The middle of [apply_pl]; [false] if machdep.hwp.pl1 cannot be read. *)
Definition apply_pl1 (want : Z) (k : kernel) : bool * kernel :=
  match sysctl_get 0 (MHwp "pl1") k with
  | (None, k) => (false, k)
  | (Some cur, k) =>
      let '(en, k) := sysctl_get 0 (MHwp "pl1_enabled") k in
      let en := default 1 en in
      (true, if (en =? 0) || (cur <=? want - 125) || (want + 125 <=? cur)
             then sysctl_set (MHwp "pl1") want k else k)
  end.

Definition apply_pl (ac : Z) (k : kernel) : kernel :=
  if (pl1_bat cfg <=? 0) || (pl1_boot cfg <=? 0) then apply_pl2 ac 0 k else
  let want := pl1_want ac in
  let k := if negb (ac =? 0) then apply_pl2 ac want k else k in
  match apply_pl1 want k with
  | (false, k) => k
  | (true, k) => if ac =? 0 then apply_pl2 ac want k else k
  end.

Definition verify_epp (cur : option profile) (k : kernel) : kernel :=
  match cur with
  | None => k
  | Some p =>
      match sysctl_get 0 (MHwp "epp_hw") k with
      | (None, k) => k
      | (Some hw, k) => if hw =? p_epp (profiles p) then k
                        else sysctl_set (MHwp "epp") (p_epp (profiles p)) k
      end
  end.

(** ** Datagrams: sscanf(buf, "<word> %d", &pid) *)

Fixpoint strip_prefix (p s : string) : option string :=
  match p, s with
  | EmptyString, _ => Some s
  | String a p, String b s => if Ascii.eqb a b then strip_prefix p s else None
  | String _ _, EmptyString => None
  end.

Definition is_space (c : ascii) : bool :=
  let n := nat_of_ascii c in ((n =? 32) || ((9 <=? n) && (n <=? 13)))%nat.
Definition is_digit (c : ascii) : bool :=
  let n := nat_of_ascii c in ((48 <=? n) && (n <=? 57))%nat.

Fixpoint skip_space (s : string) : string :=
  match s with
  | String c s' => if is_space c then skip_space s' else s
  | EmptyString => EmptyString
  end.

(** The value of the leading digits, and whether there was one. *)
Fixpoint scan_digits (acc : Z) (some : bool) (s : string) : option Z :=
  match s with
  | String c s' =>
      if is_digit c then scan_digits (acc * 10 + (Z.of_nat (nat_of_ascii c) - 48)) true s'
      else if some then Some acc else None
  | EmptyString => if some then Some acc else None
  end.

(** [%d]: strtoimax, saturating, stored as an int. *)
Definition scan_int (s : string) : option Z :=
  let s := skip_space s in
  let '(neg, s) := match s with
                   | String "-" s' => (true, s')
                   | String "+" s' => (false, s')
                   | _ => (false, s)
                   end in
  v ← scan_digits 0 false s;
  Some (i32 (if neg : bool then Z.max (- 2 ^ 63) (- v) else Z.min (2 ^ 63 - 1) v)).

Definition scan_pid (word s : string) : option Z := r ← strip_prefix word s; scan_int r.

(** ** The main loop *)

Record gov := mk_gov {
  g_cur : option profile;  (* None: P_COUNT *)
  g_load_latched : bool;
  g_one_latched : bool;
  g_ac : Z;
  g_idle_ms : Z;
  g_fgpid : Z;
  g_pending : bool;
  g_pending_since : Z;
  g_pl_checked : Z;
  g_last_ac : Z;
  g_compositor : Z;  (* compositor_pid *)
  g_busy : busy_st
}.

Definition set_g_cur (v : option profile) (r : gov) : gov :=
  mk_gov v (g_load_latched r) (g_one_latched r) (g_ac r) (g_idle_ms r)
    (g_fgpid r) (g_pending r) (g_pending_since r) (g_pl_checked r) (g_last_ac
    r) (g_compositor r) (g_busy r).
Definition set_g_load_latched (v : bool) (r : gov) : gov :=
  mk_gov (g_cur r) v (g_one_latched r) (g_ac r) (g_idle_ms r) (g_fgpid r)
    (g_pending r) (g_pending_since r) (g_pl_checked r) (g_last_ac r)
    (g_compositor r) (g_busy r).
Definition set_g_one_latched (v : bool) (r : gov) : gov :=
  mk_gov (g_cur r) (g_load_latched r) v (g_ac r) (g_idle_ms r) (g_fgpid r)
    (g_pending r) (g_pending_since r) (g_pl_checked r) (g_last_ac r)
    (g_compositor r) (g_busy r).
Definition set_g_ac (v : Z) (r : gov) : gov :=
  mk_gov (g_cur r) (g_load_latched r) (g_one_latched r) v (g_idle_ms r)
    (g_fgpid r) (g_pending r) (g_pending_since r) (g_pl_checked r) (g_last_ac
    r) (g_compositor r) (g_busy r).
Definition set_g_idle_ms (v : Z) (r : gov) : gov :=
  mk_gov (g_cur r) (g_load_latched r) (g_one_latched r) (g_ac r) v (g_fgpid r)
    (g_pending r) (g_pending_since r) (g_pl_checked r) (g_last_ac r)
    (g_compositor r) (g_busy r).
Definition set_g_fgpid (v : Z) (r : gov) : gov :=
  mk_gov (g_cur r) (g_load_latched r) (g_one_latched r) (g_ac r) (g_idle_ms r)
    v (g_pending r) (g_pending_since r) (g_pl_checked r) (g_last_ac r)
    (g_compositor r) (g_busy r).
Definition set_g_pending (v : bool) (r : gov) : gov :=
  mk_gov (g_cur r) (g_load_latched r) (g_one_latched r) (g_ac r) (g_idle_ms r)
    (g_fgpid r) v (g_pending_since r) (g_pl_checked r) (g_last_ac r)
    (g_compositor r) (g_busy r).
Definition set_g_pending_since (v : Z) (r : gov) : gov :=
  mk_gov (g_cur r) (g_load_latched r) (g_one_latched r) (g_ac r) (g_idle_ms r)
    (g_fgpid r) (g_pending r) v (g_pl_checked r) (g_last_ac r) (g_compositor
    r) (g_busy r).
Definition set_g_pl_checked (v : Z) (r : gov) : gov :=
  mk_gov (g_cur r) (g_load_latched r) (g_one_latched r) (g_ac r) (g_idle_ms r)
    (g_fgpid r) (g_pending r) (g_pending_since r) v (g_last_ac r)
    (g_compositor r) (g_busy r).
Definition set_g_last_ac (v : Z) (r : gov) : gov :=
  mk_gov (g_cur r) (g_load_latched r) (g_one_latched r) (g_ac r) (g_idle_ms r)
    (g_fgpid r) (g_pending r) (g_pending_since r) (g_pl_checked r) v
    (g_compositor r) (g_busy r).
Definition set_g_compositor (v : Z) (r : gov) : gov :=
  mk_gov (g_cur r) (g_load_latched r) (g_one_latched r) (g_ac r) (g_idle_ms r)
    (g_fgpid r) (g_pending r) (g_pending_since r) (g_pl_checked r) (g_last_ac
    r) v (g_busy r).
Definition set_g_busy (v : busy_st) (r : gov) : gov :=
  mk_gov (g_cur r) (g_load_latched r) (g_one_latched r) (g_ac r) (g_idle_ms r)
    (g_fgpid r) (g_pending r) (g_pending_since r) (g_pl_checked r) (g_last_ac
    r) (g_compositor r) v.

Definition handle_socket (msg : option string) (gk : gov * kernel) : gov * kernel :=
  let '(g, k) := gk in
  match msg with
  | None => (g, k)
  | Some buf =>
      let buf := String.substring 0 63 buf in
      match (pid ← scan_pid "input" buf; if 0 <? pid then Some pid else None) with
      | Some pid => (set_g_compositor pid g, k)
      | None =>
          match scan_pid "fgpid" buf with
          | None => (g, k)
          | Some pid =>
              if pid <? 0 then (g, k)
              else if negb (pid =? g_fgpid g)
              then (set_g_fgpid pid g, sysctl_set (MLp "fgpid") pid k)
              else (g, k)
          end
      end
  end.

Definition poll_timeout (g : gov) : Z :=
  if g_compositor g =? 0 then
    match g_cur g with Some P_POWERSAVE => POLL_IDLE_MS | _ => POLL_ACTIVE_MS end
  else if g_pending g then POLL_IDLE_MS
  else match g_cur g with
       | Some P_BALANCED =>
           let left := i32 (boost_ms cfg - g_idle_ms g + 50) in
           Z.min (if left <? 50 then 50 else left) POLL_SLOW_MS
       | Some P_LOAD =>
           let left := i32 (interactive_ms cfg - g_idle_ms g + 100) in
           Z.min (if left <? POLL_ACTIVE_MS then POLL_ACTIVE_MS else left) POLL_SLOW_MS
       | Some P_BATCH => POLL_ACTIVE_MS * 4
       | _ => POLL_SLOW_MS
       end.

(** What one turn of the loop meets. *)
Record turn := mk_turn {
  t_msg : option string;             (* a datagram *)
  t_fg_gone : bool;                  (* kill(fgpid, 0) says ESRCH *)
  t_comp_gone : bool;
  t_ac : Z;                          (* the AC file: 1, 0 or -1 *)
  t_idle : option (list Z);          (* machdep.lpsched.cpu_idle *)
  t_cp : option (list (list Z));     (* kern.cp_time *)
  t_ticks : Z;                       (* the kernel's tick counter *)
  t_now1 : Z;                        (* now_ms() at the limit check *)
  t_now2 : Z;                        (* and after it *)
  t_now3 : Z                         (* now_ms() of the downshift *)
}.

(** The inputs read before deciding. *)
Definition gov_read (t : turn) (gk : gov * kernel) : Q * Q * gov * kernel :=
  let '(g, k) := handle_socket (t_msg t) gk in
  let '(g, k) := if negb (g_fgpid g =? 0) && t_fg_gone t
                 then (set_g_fgpid 0 g, sysctl_set (MLp "fgpid") 0 k) else (g, k) in
  let g := if negb (g_compositor g =? 0) && t_comp_gone t then set_g_compositor 0 g else g in
  let g := if negb (t_ac t =? -1) then set_g_ac (t_ac t) g else g in
  let '(load, load_max, b) := cpu_busy (t_idle t) (t_cp t) (g_busy g) in
  let g := set_g_busy b g in
  let '(idle, k) := sysctl_get (t_ticks t) (MLp "idle_ms") k in
  (load, load_max, set_g_idle_ms (default 0 idle) g, k).

(** The periodic check of limits and preference. *)
Definition gov_check (t : turn) (g : gov) (k : kernel) : gov * kernel :=
  if negb (g_ac g =? g_last_ac g) || (PL_CHECK_MS <=? u64 (t_now1 t - g_pl_checked g)) then
    let k := apply_pl (g_ac g) k in
    let k := verify_epp (g_cur g) k in
    (set_g_pl_checked (t_now2 t) (set_g_last_ac (g_ac g) g), k)
  else (g, k).

(** The profile change, if any. *)
Definition gov_shift (t : turn) (want : profile) (g : gov) (k : kernel) : gov * kernel :=
  let up := match g_cur g with None => true | Some c => prof_num want <? prof_num c end in
  if up then (set_g_pending false (set_g_cur (Some want) g), apply_profile want k)
  else if bool_decide (g_cur g = Some want) then (set_g_pending false g, k)
  else if negb (g_pending g) then (set_g_pending_since (t_now3 t) (set_g_pending true g), k)
  else if DOWNSHIFT_MS <=? u64 (t_now3 t - g_pending_since g)
  then (set_g_pending false (set_g_cur (Some want) g), apply_profile want k)
  else (g, k).

Definition gov_turn (t : turn) (gk : gov * kernel) : gov * kernel :=
  let '(load, load_max, g, k) := gov_read t gk in
  let '(g, k) := gov_check t g k in
  let '(want, ll, ol) := decide_profile (g_ac g) load load_max (g_idle_ms g)
                           (g_load_latched g) (g_one_latched g) in
  gov_shift t want (set_g_one_latched ol (set_g_load_latched ll g)) k.

(** Before the loop: what main finds in the kernel.  [epp_file] is the value
    an earlier instance left, [hw_ncpu] what hw.ncpu answers. *)
Definition gov_config (epp_file hw_ncpu : option Z) (k : kernel) : gcfg * kernel :=
  let '(oe, k) := match epp_file with
                  | Some v => (v, k)
                  | None => let '(v, k) := sysctl_get 0 (MHwp "epp") k in (default 128 v, k)
                  end in
  let '(b1, k) := if 0 <? pl1_bat cfg
                  then let '(v, k) := sysctl_get 0 (MHwp "pl1_boot") k in (default 0 v, k)
                  else (pl1_boot cfg, k) in
  let '(b2, k) := if 0 <? pl2_bat cfg
                  then let '(v, k) := sysctl_get 0 (MHwp "pl2_boot") k in (default 0 v, k)
                  else (pl2_boot cfg, k) in
  let n := match hw_ncpu with
           | Some n => if 0 <? n then Z.to_nat n else ncpu cfg
           | None => ncpu cfg
           end in
  (mk_gcfg (interactive_ms cfg) (boost_ms cfg) (load_hi cfg) (load_lo cfg) (one_hi cfg)
     (one_lo cfg) n (pl1_bat cfg) b1 (pl2_bat cfg) b2 (dryrun cfg) oe, k).

(** The state the loop starts from, and what is undone after it. *)
Definition gov_start (ac : Z) (b : busy_st) (k : kernel) : gov * kernel :=
  (mk_gov None false false ac 0 0 false 0 0 (-2) 0 b, sysctl_set (MLp "enabled") 1 k).

Definition cleanup (k : kernel) : kernel :=
  let k := sysctl_set (MLp "enabled") 0 k in
  let k := sysctl_set (MLp "pack") 0 k in
  let k := sysctl_set (MLp "coalesce_ms") 0 k in
  let k := sysctl_set (MLp "fgpid") 0 k in
  let k := sysctl_set (MHwp "epp") (orig_epp cfg) k in
  let k := if (0 <? pl2_bat cfg) && (0 <? pl2_boot cfg)
           then sysctl_set (MHwp "pl2") (pl2_boot cfg) k else k in
  if (0 <? pl1_bat cfg) && (0 <? pl1_boot cfg)
  then sysctl_set (MHwp "pl1") (pl1_boot cfg) k else k.

End daemon.
