(* ===== verification/GovKernel.v ===== *)
(** * The governor's writes

    What one [sysctl_set] of the daemon does to the kernel, and from it the
    effect of a profile, of the check of the preference and of the power
    limits.  Nothing here depends on the loop. *)

From Stdlib Require Import QArith.
From stdpp Require Import base numbers list strings.
From S2P Require Import Prelude Text Sysctl Lwp Lpsched Hwp HwpThms Governor.
Local Open Scope Z_scope.

(** ** What the governor expects of the hardware and leaves alone *)

(** hwp is loaded, the CPUs take a preference, each has a slot for its report
    and the power unit is at most 2^-8 W. *)
Record hw_ready (s : hwp) : Prop := {
  hr_nodes : h_nodes s = true;
  hr_epp : hwp_has_epp s = true;
  hr_slots : (length (h_cpus s) <= length (hwp_req_read s))%nat;
  hr_pu : 0 <= hwp_rapl_pu s <= 8
}.

(** What no write changes. *)
Record hw_frame (s s' : hwp) : Prop := {
  hf_nodes : h_nodes s' = h_nodes s;
  hf_epp : hwp_has_epp s' = hwp_has_epp s;
  hf_rapl : hwp_has_rapl s' = hwp_has_rapl s;
  hf_pu : hwp_rapl_pu s' = hwp_rapl_pu s;
  hf_caps : map m_hwp_capabilities (h_cpus s') = map m_hwp_capabilities (h_cpus s);
  hf_slots : length (hwp_req_read s') = length (hwp_req_read s);
  hf_boot : hwp_pl1_boot s' = hwp_pl1_boot s /\ hwp_pl2_boot s' = hwp_pl2_boot s;
  hf_lock : (fun l => has_flag l PL_LOCK) <$> h_power_limit s' =
            (fun l => has_flag l PL_LOCK) <$> h_power_limit s
}.

#[export] Instance hw_frame_preorder : PreOrder hw_frame.
Proof.
  split; [intros s; by split|]. intros a b c [] []. split; try congruence. split; destruct_and!; congruence.
Qed.

Lemma hw_frame_ready s s' : hw_frame s s' -> hw_ready s -> hw_ready s'.
Proof.
  intros [F1 F2 F3 F4 F5 F6 _ _] [R1 R2 R3 R4]. split; try congruence.
  - apply (f_equal length) in F5. rewrite !length_map in F5. lia.
Qed.

(** The request register of every CPU carries the preference. *)
Definition requests_hold (epp : Z) (s : hwp) : Prop :=
  Forall (fun c => Z.land (m_hwp_request c) 0xffffffff =
    Z.land (hwp_request true (m_hwp_capabilities c) epp) 0xffffffff) (h_cpus s).

(** The knobs of a profile are in force. *)
Record in_force (p : profile) (k : kernel) : Prop := {
  if_coalesce : lpsched_coalesce_ms (k_lp k) = p_coalesce_ms (profiles p);
  if_pack : lpsched_pack (k_lp k) = p_pack (profiles p);
  if_epp : hwp_epp (k_hwp k) = p_epp (profiles p);
  if_requests : requests_hold (p_epp (profiles p)) (k_hwp k)
}.

Lemma profiles_range p :
  0 <= p_coalesce_ms (profiles p) <= 200 /\ 0 <= p_pack (profiles p) <= 2 /\
  0 <= p_epp (profiles p) <= 255.
Proof. destruct p; simpl; lia. Qed.

Section writes.
Context `{SC : Sysctl} `{!SysctlOk SC} `{M : Machine} (cfg : gcfg) (Hdry : dryrun cfg = false).

(** ** One write *)

Lemma set_lp_knob name K lo hi v k :
  lpsched_sysctl 0 name (Some v) (k_lp k) =
    lpsched_sysctl_clamp K lo hi (mk_req true (Some v)) (k_lp k) ->
  lo <= v <= hi ->
  sysctl_set cfg (MLp name) v k = set_k_lp (knob_set K v (k_lp k)) k.
Proof.
  intros E Hv. unfold sysctl_set, sysctlbyname. rewrite Hdry, E.
  unfold lpsched_sysctl_clamp. rewrite ranged_handler_write by done.
  destruct (Z.ltb_spec v lo); [lia|]. destruct (Z.ltb_spec hi v); [lia|done].
Qed.

Lemma set_coalesce v k : 0 <= v <= 200 ->
  sysctl_set cfg (MLp "coalesce_ms") v k = set_k_lp (set_lpsched_coalesce_ms v (k_lp k)) k.
Proof. by apply (set_lp_knob _ K_coalesce_ms). Qed.

Lemma set_pack v k : 0 <= v <= 2 ->
  sysctl_set cfg (MLp "pack") v k = set_k_lp (set_lpsched_pack v (k_lp k)) k.
Proof. by apply (set_lp_knob _ K_pack). Qed.

Lemma set_enabled v k : 0 <= v <= 1 ->
  sysctl_set cfg (MLp "enabled") v k = set_k_lp (set_lpsched_enabled v (k_lp k)) k.
Proof. by apply (set_lp_knob _ K_enabled). Qed.

Lemma set_fgpid v k : 0 <= v <= INT_MAX ->
  sysctl_set cfg (MLp "fgpid") v k = set_k_lp (set_lpsched_fgpid v (k_lp k)) k.
Proof. by apply (set_lp_knob _ K_fgpid). Qed.

Lemma get_idle_ms t k : (sysctl_get t (MLp "idle_ms") k).2 = k.
Proof. by destruct k. Qed.

(** The hwp nodes, found by name. *)
Lemma hwp_epp_node newp s : h_nodes s = true ->
  hwp_sysctl "epp" newp s = hwp_sysctl_epp (mk_req true newp) s.
Proof. intros H. unfold hwp_sysctl. by rewrite H. Qed.

Lemma hwp_rapl_node name nd newp s : h_nodes s = true -> hwp_has_rapl s = true ->
  find_node name (hwp_sysctl_setup true) = Some nd -> forall h, nd_handler nd = Some h ->
  hwp_sysctl name newp s = hwp_handler h (mk_req (nd_readwrite nd) newp) s.
Proof. intros H1 H2 H3 h H4. unfold hwp_sysctl. by rewrite H1, H2, H3, H4. Qed.

Lemma hwp_epp_write v s : hwp_has_epp s = true -> 0 <= v <= 255 ->
  hwp_sysctl_epp (mk_req true (Some v)) s = mk_res 0 (hwp_epp s) (hwp_program_all false (set_hwp_epp v s)).
Proof.
  intros He Hv. unfold hwp_sysctl_epp.
  pose proof (lookup_root_write v (hwp_epp s)) as Hw. pose proof (lookup_write true v (hwp_epp s) Hw) as Hx.
  destruct (sysctl_lookup _ _) as [e x]; simpl in *; subst e x.
  destruct (Z.ltb_spec v 0); [lia|]. destruct (Z.ltb_spec 255 v); [lia|]. by rewrite He.
Qed.

Lemma set_epp v k : hw_ready (k_hwp k) -> 0 <= v <= 255 ->
  sysctl_set cfg (MHwp "epp") v k = set_k_hwp (hwp_program_all false (set_hwp_epp v (k_hwp k))) k.
Proof.
  intros R Hv. unfold sysctl_set, sysctlbyname. rewrite Hdry, hwp_epp_node by apply R.
  by rewrite hwp_epp_write by (done || apply R).
Qed.

(** ** A write of the preference reaches every CPU *)

Lemma program_all_static e s : let s' := hwp_program_all e s in
  h_nodes s' = h_nodes s /\ hwp_has_rapl s' = hwp_has_rapl s /\ hwp_rapl_pu s' = hwp_rapl_pu s /\
  hwp_pl1_boot s' = hwp_pl1_boot s /\ hwp_pl2_boot s' = hwp_pl2_boot s.
Proof. unfold hwp_program_all. by destruct (map _ _) as [|[c []] l]. Qed.

Lemma program_all_effect v s : hwp_has_epp s = true -> 0 <= v <= 255 ->
  let s' := hwp_program_all false (set_hwp_epp v s) in
  hwp_epp s' = v /\ requests_hold v s' /\ h_power_limit s' = h_power_limit s /\ hw_frame s s'.
Proof.
  intros He Hv. destruct (program_all_requests false (set_hwp_epp v s) eq_refl) as (E1 & E2 & E3 & E4 & E5).
  destruct (program_all_static false (set_hwp_epp v s)) as (G1 & G2 & G3 & G4 & G5).
  cbv zeta. revert E1 E2 E3 E4 E5 G1 G2 G3 G4 G5.
  generalize (hwp_program_all false (set_hwp_epp v s)). intros s' E1 E2 E3 E4 E5 G1 G2 G3 G4 G5.
  change (h_cpus (set_hwp_epp v s)) with (h_cpus s) in E1.
  change (hwp_has_epp (set_hwp_epp v s)) with (hwp_has_epp s) in *.
  change (hwp_epp (set_hwp_epp v s)) with v in *. rewrite He, u32_id in E1 by (unfold in_u32; lia).
  split; [done|]. split; [|split; [done|split; try done]].
  - unfold requests_hold. rewrite E1. by apply Forall_map, Forall_true.
  - rewrite E1, map_map. done.
  - by rewrite E4.
  - by rewrite E5.
Qed.

(** ** A profile *)

Lemma apply_profile_effect p k : hw_ready (k_hwp k) ->
  let k' := apply_profile cfg p k in
  in_force p k' /\ hw_frame (k_hwp k) (k_hwp k') /\
  h_power_limit (k_hwp k') = h_power_limit (k_hwp k) /\
  lpsched_enabled (k_lp k') = lpsched_enabled (k_lp k) /\
  lpsched_fgpid (k_lp k') = lpsched_fgpid (k_lp k).
Proof.
  intros R. destruct (profiles_range p) as (H1 & H2 & H3). cbv zeta. unfold apply_profile.
  rewrite set_coalesce, set_pack, set_epp by done.
  destruct (program_all_effect (p_epp (profiles p)) (k_hwp k)) as (E1 & E2 & E3 & E4); [apply R|done|].
  split; [by split|]. done.
Qed.

(** ** The check of the preference *)

Lemma epp_hw_read s : hwp_has_epp s = true ->
  let r := hwp_sysctl_epp_hw (mk_req false None) s in
  res_err r = 0 /\ exists q, length q = length (hwp_req_read s) /\ res_post r = set_hwp_req_read q s.
Proof.
  intros He. unfold hwp_sysctl_epp_hw. rewrite He. cbn [negb]. cbv zeta. cbn [res_err res_post].
  rewrite lookup_read by done. split; [done|]. eexists. split; [|done].
  rewrite length_app, length_replicate, length_take, length_map. lia.
Qed.

Lemma requests_hold_reads q epp s : requests_hold epp (set_hwp_req_read q s) <-> requests_hold epp s.
Proof. done. Qed.

(** Whatever the registers held: afterwards they hold the profile's. *)
Lemma verify_epp_effect p k : hw_ready (k_hwp k) -> hwp_has_rapl (k_hwp k) = true ->
  hwp_epp (k_hwp k) = p_epp (profiles p) ->
  let k' := verify_epp cfg (Some p) k in
  k_lp k' = k_lp k /\ hw_frame (k_hwp k) (k_hwp k') /\
  h_power_limit (k_hwp k') = h_power_limit (k_hwp k) /\
  hwp_epp (k_hwp k') = p_epp (profiles p) /\ requests_hold (p_epp (profiles p)) (k_hwp k').
Proof.
  intros R Hr He. destruct (profiles_range p) as (_ & _ & Hp). cbv zeta.
  unfold verify_epp, sysctl_get, sysctlbyname.
  erewrite hwp_rapl_node; [|apply R|done|reflexivity|reflexivity]. cbn [hwp_handler nd_readwrite].
  destruct (epp_hw_read (k_hwp k)) as (E1 & q & E2 & E3); [apply R|].
  set (r := hwp_sysctl_epp_hw (mk_req false None) (k_hwp k)) in *. cbn [res_err res_out res_post].
  rewrite E1, E3. cbn [Z.eqb].
  assert (hw_frame (k_hwp k) (set_hwp_req_read q (k_hwp k))) as Fq by by split.
  destruct (Z.eqb_spec (res_out r) (p_epp (profiles p))) as [Eo|_].
  - cbn [k_lp k_hwp set_k_hwp]. repeat (split; [done|]). apply requests_hold_reads.
    pose proof (epp_hw_answer (mk_req false None) (k_hwp k) (p_epp (profiles p)) (hr_slots _ R)
      ltac:(lia) Eo (hr_epp _ R)) as Ha.
    unfold requests_hold. eapply Forall_impl; [exact Ha|]. intros c [Hc _]. rewrite Hc, He.
    rewrite u32_id by (unfold in_u32; lia). done.
  - rewrite set_epp; [|eapply hw_frame_ready; [exact Fq|done]|done].
    destruct (program_all_effect (p_epp (profiles p)) (set_hwp_req_read q (k_hwp k)))
      as (P1 & P2 & P3 & P4); [apply R|done|].
    cbn [k_lp k_hwp set_k_hwp]. split; [done|]. split; [by transitivity (set_hwp_req_read q (k_hwp k))|].
    done.
Qed.

(** Without the node nothing is done. *)
Lemma verify_epp_no_rapl p k : hwp_has_rapl (k_hwp k) = false -> verify_epp cfg (Some p) k = k.
Proof.
  intros Hr. unfold verify_epp, sysctl_get, sysctlbyname, hwp_sysctl. rewrite Hr.
  destruct k as [lp hw]. destruct (h_nodes (k_hwp (mk_kernel lp hw))); done.
Qed.

(** ** Power limits *)

(** Only the power limit register (and the report slots) differ. *)
Record only_limits (k k' : kernel) : Prop := {
  ol_lp : k_lp k' = k_lp k;
  ol_epp : hwp_epp (k_hwp k') = hwp_epp (k_hwp k);
  ol_cpus : h_cpus (k_hwp k') = h_cpus (k_hwp k);
  ol_frame : hw_frame (k_hwp k) (k_hwp k')
}.

#[local] Instance only_limits_preorder : PreOrder only_limits.
Proof.
  split; [intros k; by split|]. intros a b c [] []. split; try congruence. by transitivity (k_hwp b).
Qed.

(** The limit in force, in mW, and whether PL1 is enforced. *)
Definition pl_now (pl2 : bool) (s : hwp) : Z :=
  match h_power_limit s with
  | Some lim => hwp_raw_to_mw (hwp_rapl_pu s) (pl_field pl2 lim)
  | None => 0
  end.
Definition pl1_on (s : hwp) : bool :=
  match h_power_limit s with Some lim => has_flag lim PL1_ENABLE | None => false end.

(** The limits can be written, in steps of 1/8 W or finer. *)
Record pl_ready (s : hwp) : Prop := {
  pr_ready : hw_ready s;
  pr_rapl : hwp_has_rapl s = true;
  pr_unlocked : exists lim, h_power_limit s = Some lim /\ has_flag lim PL_LOCK = false;
  pr_pu : 3 <= hwp_rapl_pu s
}.

Lemma pl_ready_frame s s' : hw_frame s s' -> pl_ready s -> pl_ready s'.
Proof.
  intros F [R1 R2 (lim & L1 & L2) R4]. pose proof (hw_frame_ready _ _ F R1).
  destruct F as [F1 F2 F3 F4 F5 F6 F7 F8]. split; try done; try congruence.
  - rewrite L1 in F8. simpl in F8. rewrite L2 in F8. destruct (h_power_limit s') as [lim'|]; [|done].
    exists lim'. split; [done|]. by injection F8.
Qed.

Definition pl_name (pl2 : bool) : string := if pl2 then "pl2" else "pl1".

Lemma hwp_pl_node pl2 newp s : h_nodes s = true -> hwp_has_rapl s = true ->
  hwp_sysctl (pl_name pl2) newp s = hwp_sysctl_pl pl2 (mk_req true newp) s.
Proof. intros H1 H2. destruct pl2; (erewrite hwp_rapl_node; [|done|done|reflexivity|reflexivity]); reflexivity. Qed.

Lemma get_pl pl2 k : pl_ready (k_hwp k) ->
  sysctl_get 0 (MHwp (pl_name pl2)) k = (Some (pl_now pl2 (k_hwp k)), k).
Proof.
  intros [R1 R2 (lim & L1 & L2) R4]. unfold sysctl_get, sysctlbyname, pl_now.
  rewrite hwp_pl_node by (done || apply R1). rewrite (pl_read _ _ _ lim L1), L1. by destruct k.
Qed.

Lemma get_pl1_enabled k : pl_ready (k_hwp k) ->
  sysctl_get 0 (MHwp "pl1_enabled") k = (Some (if pl1_on (k_hwp k) then 1 else 0), k).
Proof.
  intros [R1 R2 (lim & L1 & L2) R4]. unfold sysctl_get, sysctlbyname, pl1_on.
  erewrite hwp_rapl_node; [|apply R1|done|reflexivity|reflexivity].
  cbn [hwp_handler]. unfold hwp_sysctl_pl1_enabled. rewrite L1. cbn [res_err res_out res_post].
  rewrite lookup_read by done. by destruct k.
Qed.

(** The register takes a limit to within 1/8 W: half a step and a mW. *)
Lemma roundtrip_close pu x : 3 <= pu <= 8 -> 0 <= x <= 64000 ->
  Z.abs (hwp_raw_to_mw pu (hwp_mw_to_raw pu x) - x) < 125.
Proof.
  intros Hpu Hx. destruct (mw_roundtrip pu ltac:(lia) x Hx) as [A B].
  assert (8 <= 2 ^ pu) by (change 8 with (2 ^ 3); apply Z.pow_le_mono_r; lia).
  cbv zeta in *. nia.
Qed.

Lemma pl_update_pl1_on f lim : in_field 15 f ->
  Z.land (pl_update true f lim) PL1_ENABLE = Z.land lim PL1_ENABLE.
Proof.
  intros H. unfold pl_update, shiftin. rewrite u64_id.
  - unfold set_flag, clr_flag, PL1_ENABLE, PL2_POWER, PL2_ENABLE, bits. bitwise.
  - unfold in_u64, in_field in *. rewrite Z.shiftl_mul_pow2 by lia. nia.
Qed.

Lemma set_pl pl2 x k : pl_ready (k_hwp k) -> 3000 <= x <= 64000 ->
  let k' := sysctl_set cfg (MHwp (pl_name pl2)) x k in
  only_limits k k' /\
  pl_now pl2 (k_hwp k') = hwp_raw_to_mw (hwp_rapl_pu (k_hwp k)) (hwp_mw_to_raw (hwp_rapl_pu (k_hwp k)) x) /\
  pl_now (negb pl2) (k_hwp k') = pl_now (negb pl2) (k_hwp k) /\
  pl1_on (k_hwp k') = (if pl2 then pl1_on (k_hwp k) else true).
Proof.
  intros [R1 R2 (lim & L1 & L2) R4] Hx. cbv zeta. unfold sysctl_set, sysctlbyname.
  rewrite Hdry, hwp_pl_node by (done || apply R1).
  rewrite (pl_write pl2 x (k_hwp k) lim L1), L2. cbv zeta.
  destruct (Z.ltb_spec x 3000); [lia|]. destruct (Z.ltb_spec 64000 x); [lia|].
  cbn [orb res_post k_hwp k_lp set_k_hwp].
  pose proof (hr_pu _ R1) as Hpu.
  destruct (mw_to_raw_spec (hwp_rapl_pu (k_hwp k)) Hpu x ltac:(lia)) as [Hf _].
  destruct (pl_update_fields pl2 _ lim Hf) as (F1 & F2 & F3 & F4 & _).
  split; [|split; [|split]].
  - split; try done. split; try done. cbn [h_power_limit set_h_power_limit]. rewrite L1. simpl.
    unfold has_flag. by rewrite F3.
  - unfold pl_now. cbn [h_power_limit set_h_power_limit hwp_rapl_pu]. by rewrite F1.
  - unfold pl_now. cbn [h_power_limit set_h_power_limit hwp_rapl_pu]. by rewrite F2, L1.
  - unfold pl1_on. cbn [h_power_limit set_h_power_limit]. rewrite L1. unfold has_flag. destruct pl2.
    + by rewrite pl_update_pl1_on.
    + by rewrite F4.
Qed.

(** Writing a limit touches nothing else, also when it is refused. *)
Lemma hwp_pl_frame pl2 rw newp s : hw_ready s ->
  let s' := res_post (hwp_sysctl_pl pl2 (mk_req rw newp) s) in
  hw_frame s s' /\ hwp_epp s' = hwp_epp s /\ h_cpus s' = h_cpus s.
Proof.
  intros R. cbv zeta. unfold hwp_sysctl_pl. destruct (h_power_limit s) as [lim|] eqn:El; [|done].
  cbv zeta. destruct (sysctl_lookup _ _) as [e v]. destruct (rq_newp _); [|done].
  destruct (negb _); [done|]. destruct (has_flag lim PL_LOCK) eqn:Ek; [done|].
  destruct (Z.ltb_spec v 3000); [done|]. destruct (Z.ltb_spec 64000 v); [done|].
  cbn [orb res_post]. repeat split; try done. cbn [h_power_limit set_h_power_limit]. rewrite El. simpl.
  destruct (mw_to_raw_spec (hwp_rapl_pu s) (hr_pu _ R) v ltac:(lia)) as [Hf _].
  destruct (pl_update_fields pl2 _ lim Hf) as (_ & _ & F3 & _). unfold has_flag. by rewrite F3.
Qed.

Lemma sysctl_pl_only pl2 newp k : hw_ready (k_hwp k) ->
  only_limits k (res_post (sysctlbyname 0 (MHwp (pl_name pl2)) newp k)).
Proof.
  intros R. unfold sysctlbyname. cbn [res_post]. destruct (hwp_has_rapl (k_hwp k)) eqn:Er.
  - rewrite hwp_pl_node by (done || apply R).
    destruct (hwp_pl_frame pl2 true newp (k_hwp k) R) as (F & E1 & E2). by split.
  - unfold hwp_sysctl. rewrite Er, (hr_nodes _ R). destruct pl2; by split.
Qed.

Lemma set_pl_only pl2 x k : hw_ready (k_hwp k) ->
  only_limits k (sysctl_set cfg (MHwp (pl_name pl2)) x k).
Proof. intros R. unfold sysctl_set. rewrite Hdry. by apply sysctl_pl_only. Qed.

Lemma get_pl_only pl2 k : hw_ready (k_hwp k) ->
  only_limits k (sysctl_get 0 (MHwp (pl_name pl2)) k).2.
Proof. apply sysctl_pl_only. Qed.

Lemma get_pl1_enabled_same k : (sysctl_get 0 (MHwp "pl1_enabled") k).2 = k.
Proof.
  unfold sysctl_get, sysctlbyname, hwp_sysctl. cbn [snd res_post].
  destruct (negb _); [by destruct k|]. destruct (hwp_has_rapl (k_hwp k)); [|by destruct k].
  simpl. unfold hwp_sysctl_pl1_enabled. destruct (h_power_limit _); by destruct k.
Qed.

Lemma only_limits_ready k k' : only_limits k k' -> hw_ready (k_hwp k) -> hw_ready (k_hwp k').
Proof. intros [_ _ _ F]. by apply hw_frame_ready. Qed.

Lemma apply_pl2_only ac w k : hw_ready (k_hwp k) -> only_limits k (apply_pl2 cfg ac w k).
Proof.
  intros R. unfold apply_pl2. destruct (_ || _); [reflexivity|]. cbv zeta.
  pose proof (get_pl_only true k R) as G. cbn [pl_name] in G.
  destruct (sysctl_get 0 (MHwp "pl2") k) as [[cur|] k1]; cbn [snd] in G; [|done].
  destruct (near _ _); [done|]. etransitivity; [exact G|]. apply (set_pl_only true). by eapply only_limits_ready.
Qed.

Lemma apply_pl1_only w k : hw_ready (k_hwp k) -> only_limits k (apply_pl1 cfg w k).2.
Proof.
  intros R. unfold apply_pl1. pose proof (get_pl_only false k R) as G. cbn [pl_name] in G.
  destruct (sysctl_get 0 (MHwp "pl1") k) as [[cur|] k1]; cbn [snd] in G; [|done].
  pose proof (get_pl1_enabled_same k1) as E.
  destruct (sysctl_get 0 (MHwp "pl1_enabled") k1) as [en k2]. cbn [snd] in *. subst k2.
  destruct (_ || _); [|done]. etransitivity; [exact G|]. apply (set_pl_only false). by eapply only_limits_ready.
Qed.

Lemma apply_pl_only ac k : hw_ready (k_hwp k) -> only_limits k (apply_pl cfg ac k).
Proof.
  intros R. unfold apply_pl. destruct (_ || _); [by apply apply_pl2_only|]. cbv zeta.
  assert (only_limits k (if negb (ac =? 0) then apply_pl2 cfg ac (pl1_want cfg ac) k else k)) as G.
  { destruct (negb _); [by apply apply_pl2_only|reflexivity]. }
  revert G. generalize (if negb (ac =? 0) then apply_pl2 cfg ac (pl1_want cfg ac) k else k). intros k1 G.
  pose proof (only_limits_ready _ _ G R) as R1. pose proof (apply_pl1_only (pl1_want cfg ac) k1 R1) as G1.
  destruct (apply_pl1 cfg (pl1_want cfg ac) k1) as [[] k2]; cbn [snd] in G1.
  - transitivity k2; [by transitivity k1|]. destruct (ac =? 0); [|reflexivity].
    apply apply_pl2_only. by eapply only_limits_ready.
  - by transitivity k1.
Qed.

Lemma near_spec cur want : near cur want = true <-> Z.abs (cur - want) < 125.
Proof. unfold near. rewrite andb_true_iff, !Z.ltb_lt. lia. Qed.

Lemma apply_pl2_effect ac w1 k : pl_ready (k_hwp k) -> 0 < pl2_bat cfg -> 0 < pl2_boot cfg ->
  3000 <= pl2_want cfg ac w1 <= 64000 ->
  let k' := apply_pl2 cfg ac w1 k in
  only_limits k k' /\ Z.abs (pl_now true (k_hwp k') - pl2_want cfg ac w1) < 125 /\
  pl_now false (k_hwp k') = pl_now false (k_hwp k) /\ pl1_on (k_hwp k') = pl1_on (k_hwp k).
Proof.
  intros R H1 H2 Hw. cbv zeta. unfold apply_pl2.
  destruct (Z.leb_spec (pl2_bat cfg) 0); [lia|]. destruct (Z.leb_spec (pl2_boot cfg) 0); [lia|].
  cbn [orb]. cbv zeta. rewrite (get_pl true) by done. destruct (near _ _) eqn:En.
  - apply near_spec in En. split; [reflexivity|done].
  - destruct (set_pl true (pl2_want cfg ac w1) k R Hw) as (S1 & S2 & S3).
    cbn [pl_name] in *. rewrite S2. split; [done|]. split; [|done].
    apply roundtrip_close; [|lia]. pose proof (hr_pu _ (pr_ready _ R)). pose proof (pr_pu _ R). lia.
Qed.

Lemma apply_pl1_effect w k : pl_ready (k_hwp k) -> 3000 <= w <= 64000 ->
  let r := apply_pl1 cfg w k in
  r.1 = true /\ only_limits k r.2 /\ Z.abs (pl_now false (k_hwp r.2) - w) < 125 /\
  pl_now true (k_hwp r.2) = pl_now true (k_hwp k) /\ pl1_on (k_hwp r.2) = true.
Proof.
  intros R Hw. cbv zeta. unfold apply_pl1.
  rewrite (get_pl false), get_pl1_enabled by done. cbn [default].
  destruct (_ || _) eqn:E; cbn [fst snd].
  - split; [done|]. destruct (set_pl false w k R Hw) as (S1 & S2 & S3).
    cbn [pl_name] in *. rewrite S2. split; [done|]. split; [|done].
    apply roundtrip_close; [|lia]. pose proof (hr_pu _ (pr_ready _ R)). pose proof (pr_pu _ R). lia.
  - destruct (pl1_on (k_hwp k)) eqn:Eo; [|done]. cbn [Z.eqb orb] in E.
    apply orb_false_iff in E as [E1 E2]. apply Z.leb_gt in E1, E2.
    split; [done|]. split; [reflexivity|]. repeat split; try done. lia.
Qed.

(** ** Reading the boot values, and putting them back *)

Lemma get_boot (pl2 : bool) k : pl_ready (k_hwp k) ->
  sysctl_get 0 (MHwp (if pl2 then "pl2_boot" else "pl1_boot")) k =
    (Some ((if pl2 then hwp_pl2_boot else hwp_pl1_boot) (k_hwp k)), k).
Proof.
  intros R. unfold sysctl_get, sysctlbyname, hwp_sysctl.
  rewrite (hr_nodes _ (pr_ready _ R)), (pr_rapl _ R). destruct pl2; simpl; rewrite lookup_read by done;
    by destruct k.
Qed.

Lemma get_epp k : hw_ready (k_hwp k) ->
  sysctl_get 0 (MHwp "epp") k = (Some (hwp_epp (k_hwp k)), k).
Proof.
  intros R. unfold sysctl_get, sysctlbyname. rewrite hwp_epp_node by apply R.
  unfold hwp_sysctl_epp. rewrite lookup_read by done. by destruct k.
Qed.

(** A value read from the register goes back to the same field. *)
Lemma raw_mw_raw pu raw : 0 <= pu <= 8 -> in_field 15 raw -> hwp_raw_to_mw pu raw <= 64000 ->
  hwp_mw_to_raw pu (hwp_raw_to_mw pu raw) = raw.
Proof.
  intros Hpu Hr Hm. pose proof (raw_to_mw_spec pu Hpu raw Hr) as S1. cbv zeta in S1.
  pose proof (pow_pu pu Hpu) as Hp.
  assert (0 <= hwp_raw_to_mw pu raw) by (unfold in_field in Hr; nia).
  destruct (mw_to_raw_spec pu Hpu (hwp_raw_to_mw pu raw) ltac:(lia)) as [_ S2].
  revert S2. generalize (hwp_mw_to_raw pu (hwp_raw_to_mw pu raw)). intros raw' S2.
  rewrite Z.mul_add_distr_r in S1. lia.
Qed.

End writes.
