(* ===== verification/GovernorThms.v ===== *)
(** * The governor over time

    Runs of the main loop as histories of turns: the profile in force, the
    confirmation of downshifts, power limits, the repair of registers that
    drifted, and what a session leaves behind. *)

From Stdlib Require Import QArith.
From stdpp Require Import base numbers list strings.
From S2P Require Import Prelude Text Sysctl Lwp Lpsched Hwp HwpThms Governor GovKernel.
Local Open Scope Z_scope.

Section runs.
Context `{SC : Sysctl} `{!SysctlOk SC} `{M : Machine} `{F : Float} (cfg : gcfg)
  (Hdry : dryrun cfg = false).

#[local] Existing Instance only_limits_preorder.

(** ** One turn *)

(** The profile a turn decides on. *)
Definition turn_want (t : turn) (gk : gov * kernel) : profile :=
  let '(load, load_max, g, k) := gov_read cfg t gk in
  let '(g, k) := gov_check cfg t g k in
  (decide_profile cfg (g_ac g) load load_max (g_idle_ms g) (g_load_latched g) (g_one_latched g)).1.1.

(** The part of the daemon's state that profile changes depend on. *)
Definition shift_view (g : gov) : option profile * bool * Z :=
  (g_cur g, g_pending g, g_pending_since g).

(** Among what the governor sets, only the foreground process differs. *)
Definition only_fgpid (k k' : kernel) : Prop :=
  k_hwp k' = k_hwp k /\ lpsched_coalesce_ms (k_lp k') = lpsched_coalesce_ms (k_lp k) /\
  lpsched_pack (k_lp k') = lpsched_pack (k_lp k) /\
  lpsched_enabled (k_lp k') = lpsched_enabled (k_lp k).

#[local] Instance only_fgpid_preorder : PreOrder only_fgpid.
Proof. split; [done|]. intros a b c (A1 & A2 & A3 & A4) (B1 & B2 & B3 & B4). repeat split; congruence. Qed.

Lemma scan_pid_range w s v : scan_pid w s = Some v -> - 2 ^ 31 <= v <= INT_MAX.
Proof.
  unfold scan_pid, scan_int. destruct (strip_prefix w s) as [r|]; [|done]. simpl.
  match goal with |- (let '(_, _) := ?m in _) = _ -> _ => destruct m as [neg s'] end.
  destruct (scan_digits 0 false s'); [|done]. simpl. intros [= <-].
  match goal with |- _ <= i32 ?x <= _ => pose proof (i32_range x) as H end.
  unfold in_i32, INT_MAX in *. lia.
Qed.

(** What the daemon believes the foreground process to be is what the kernel has. *)
Definition fg_agrees (g : gov) (k : kernel) : Prop :=
  lpsched_fgpid (k_lp k) = g_fgpid g /\ 0 <= g_fgpid g <= INT_MAX.

(** Or the daemon has set none since it started, and the kernel has what it had
    then. *)
Context (f0 : Z).
Definition fg_known (g : gov) (k : kernel) : Prop :=
  (lpsched_fgpid (k_lp k) = g_fgpid g \/ (g_fgpid g = 0 /\ lpsched_fgpid (k_lp k) = f0)) /\ 0 <= g_fgpid g <= INT_MAX.

Lemma set_fgpid_agrees g k v : 0 <= v <= INT_MAX ->
  let k' := sysctl_set cfg (MLp "fgpid") v k in
  shift_view (set_g_fgpid v g) = shift_view g /\ only_fgpid k k' /\ fg_known (set_g_fgpid v g) k'.
Proof. intros Hv. cbv zeta. rewrite (set_fgpid cfg Hdry) by done. split; [done|]. split; [done|]. split; [by left|done]. Qed.

Lemma handle_socket_effect msg g k : fg_known g k ->
  let r := handle_socket cfg msg (g, k) in
  shift_view r.1 = shift_view g /\ only_fgpid k r.2 /\ fg_known r.1 r.2.
Proof.
  intros A. cbv zeta. unfold handle_socket. destruct msg as [buf|]; [|done]. cbv zeta.
  destruct (pid ← scan_pid "input" _; _) as [pid|]; [done|].
  destruct (scan_pid "fgpid" _) as [pid|] eqn:E; [|done]. apply scan_pid_range in E.
  destruct (Z.ltb_spec pid 0); [done|]. destruct (negb _); [|done].
  apply set_fgpid_agrees. lia.
Qed.

Lemma gov_read_effect t g k l m g' k' : fg_known g k -> gov_read cfg t (g, k) = (l, m, g', k') ->
  shift_view g' = shift_view g /\ only_fgpid k k' /\ fg_known g' k'.
Proof.
  intros A. unfold gov_read. pose proof (handle_socket_effect (t_msg t) g k A) as H. cbv zeta in H.
  destruct (handle_socket cfg (t_msg t) (g, k)) as [g1 k1]. cbn [fst snd] in H. destruct H as (H1 & H2 & H3).
  assert (exists g2 k2, (if negb (g_fgpid g1 =? 0) && t_fg_gone t
    then (set_g_fgpid 0 g1, sysctl_set cfg (MLp "fgpid") 0 k1) else (g1, k1)) = (g2, k2) /\
    shift_view g2 = shift_view g /\ only_fgpid k k2 /\ fg_known g2 k2) as (g2 & k2 & -> & G1 & G2 & G3).
  { destruct (_ && _); eexists _, _; (split; [reflexivity|]); [|done].
    destruct (set_fgpid_agrees g1 k1 0) as (S1 & S2 & S3); [unfold INT_MAX; lia|].
    split; [by rewrite S1|]. split; [by transitivity k1|done]. }
  cbv zeta. destruct (cpu_busy _ _ _ _) as [[b mx] bs].
  pose proof (get_idle_ms (t_ticks t) k2) as Ei.
  destruct (sysctl_get (t_ticks t) (MLp "idle_ms") k2) as [i k3]. cbn [snd] in Ei. subst k3.
  intros [= _ _ <- <-]. unfold fg_known, shift_view in *. revert G1 G2 G3.
  by destruct (_ && _), (negb _).
Qed.

Lemma in_force_fgpid p k k' : only_fgpid k k' -> in_force p k -> in_force p k'.
Proof. intros (E1 & E2 & E3 & _) []. split; rewrite ?E1; congruence. Qed.

Lemma in_force_limits p k k' : only_limits k k' -> in_force p k -> in_force p k'.
Proof.
  intros [E1 E2 E3 _] []. split; [by rewrite E1..|congruence|]. unfold requests_hold. by rewrite E3.
Qed.

(** The daemon's settings, whatever the registers hold. *)
Definition knobs (p : profile) (k : kernel) : Prop :=
  lpsched_coalesce_ms (k_lp k) = p_coalesce_ms (profiles p) /\
  lpsched_pack (k_lp k) = p_pack (profiles p) /\
  hwp_epp (k_hwp k) = p_epp (profiles p).

Lemma in_force_split p k : in_force p k <-> knobs p k /\ requests_hold (p_epp (profiles p)) (k_hwp k).
Proof. split; [by intros []|]. by intros [(H1 & H2 & H3) H4]. Qed.

(** The limits and the preference are due for a check. *)
Definition check_due (t : turn) (g : gov) : bool :=
  negb (g_ac g =? g_last_ac g) || (PL_CHECK_MS <=? u64 (t_now1 t - g_pl_checked g)).

Lemma verify_epp_knobs p k : hw_ready (k_hwp k) -> knobs p k ->
  let k' := verify_epp cfg (Some p) k in
  k_lp k' = k_lp k /\ hw_frame (k_hwp k) (k_hwp k') /\ knobs p k' /\
  (in_force p k \/ hwp_has_rapl (k_hwp k) = true -> in_force p k').
Proof.
  intros R Hk. cbv zeta. destruct (hwp_has_rapl (k_hwp k)) eqn:Er.
  - destruct (verify_epp_effect cfg Hdry p k R Er (proj2 (proj2 Hk))) as (V1 & V2 & _ & V4 & V5).
    revert V1 V2 V4 V5. generalize (verify_epp cfg (Some p) k). intros k' V1 V2 V4 V5.
    destruct Hk as (K1 & K2 & K3).
    assert (knobs p k') by (unfold knobs; rewrite V1; auto).
    do 3 (split; [done|]). intros _. by apply in_force_split.
  - rewrite verify_epp_no_rapl by done. do 3 (split; [done|]). by intros [?|?].
Qed.

Lemma gov_check_effect t g k : hw_ready (k_hwp k) -> (forall p, g_cur g = Some p -> knobs p k) ->
  let r := gov_check cfg t g k in
  shift_view r.1 = shift_view g /\ g_fgpid r.1 = g_fgpid g /\ k_lp r.2 = k_lp k /\
  hw_frame (k_hwp k) (k_hwp r.2) /\
  forall p, g_cur g = Some p -> knobs p r.2 /\
    (in_force p k \/ check_due t g = true /\ hwp_has_rapl (k_hwp k) = true -> in_force p r.2).
Proof.
  intros R Hk. cbv zeta. unfold gov_check. fold (check_due t g). destruct (check_due t g); cbv zeta; cbn [fst snd].
  2:{ do 4 (split; [done|]). intros p Hp. split; [auto|]. intros [?|[? _]]; done. }
  pose proof (apply_pl_only cfg Hdry (g_ac g) k R) as L.
  revert L. generalize (apply_pl cfg (g_ac g) k). intros k1 L.
  pose proof (only_limits_ready _ _ L R) as R1. pose proof L as [L1 L2 L3 L4].
  destruct (g_cur g) as [p|].
  2:{ cbn [verify_epp]. do 4 (split; [done|]). done. }
  assert (knobs p k1) as K1 by (unfold knobs; rewrite L1, L2; exact (Hk p eq_refl)).
  destruct (verify_epp_knobs p k1 R1 K1) as (V1 & V2 & V3 & V4).
  split; [done|]. split; [done|]. split; [by rewrite V1|]. split; [by transitivity (k_hwp k1)|].
  intros ? [= <-]. split; [done|]. intros [H|[_ H]]; apply V4; [left; by eapply in_force_limits|right].
  by rewrite (hf_rapl _ _ L4).
Qed.

Lemma gov_shift_effect t w g k : hw_ready (k_hwp k) -> fg_known g k ->
  let r := gov_shift cfg t w g k in
  hw_frame (k_hwp k) (k_hwp r.2) /\ fg_known r.1 r.2 /\
  lpsched_enabled (k_lp r.2) = lpsched_enabled (k_lp k) /\
  exists p, g_cur r.1 = Some p /\ (in_force p r.2 \/ g_cur g = Some p /\ r.2 = k).
Proof.
  intros R [A1 A2]. destruct (apply_profile_effect cfg Hdry w k R) as (P1 & P2 & _ & P4 & P5).
  assert (forall g1, g_fgpid g1 = g_fgpid g -> fg_known g1 (apply_profile cfg w k)) as PA.
  { intros g1 E. unfold fg_known. by rewrite P5, E. }
  cbv zeta. unfold gov_shift. destruct (g_cur g) as [c|] eqn:Ec; cbv zeta.
  2:{ cbn [fst snd]. split; [done|]. split; [by apply PA|]. split; [done|]. exists w. auto. }
  destruct (_ <? _); cbn [fst snd].
  { split; [done|]. split; [by apply PA|]. split; [done|]. exists w. auto. }
  destruct (bool_decide _); [|destruct (negb _); [|destruct (_ <=? _)]]; cbn [fst snd].
  3:{ split; [done|]. split; [by apply PA|]. split; [done|]. exists w. auto. }
  all: do 3 (split; [done|]); exists c; auto.
Qed.

(** ** Invariant *)

Record gov_inv (g : gov) (k : kernel) : Prop := {
  gi_ready : hw_ready (k_hwp k);
  gi_enabled : lpsched_enabled (k_lp k) = 1;
  gi_fgpid : fg_known g k;
  gi_knobs : forall p, g_cur g = Some p -> knobs p k
}.

(** One turn keeps it; the registers follow if they did before, or if the turn
    checked them or changed the profile. *)
Lemma gov_turn_inv t g k : gov_inv g k ->
  let r := gov_turn cfg t (g, k) in
  gov_inv r.1 r.2 /\ hw_frame (k_hwp k) (k_hwp r.2) /\
  exists p, g_cur r.1 = Some p /\
    (g_cur r.1 <> g_cur g \/ in_force p k \/
     (forall l m g1 k1, gov_read cfg t (g, k) = (l, m, g1, k1) -> check_due t g1 = true) /\
       hwp_has_rapl (k_hwp k) = true -> in_force p r.2).
Proof.
  intros [R E A K]. cbv zeta. unfold gov_turn.
  destruct (gov_read cfg t (g, k)) as [[[l m] g1] k1] eqn:Er.
  destruct (gov_read_effect _ _ _ _ _ _ _ A Er) as (S1 & (O1 & O2 & O3 & O4) & A1).
  assert (g_cur g1 = g_cur g) as C1 by (unfold shift_view in S1; congruence).
  assert (forall p, g_cur g1 = Some p -> knobs p k1) as K1.
  { intros p Hp. rewrite C1 in Hp. destruct (K p Hp) as (X1 & X2 & X3).
    unfold knobs. rewrite O1, O2, O3. auto. }
  assert (hw_ready (k_hwp k1)) as R1 by (by rewrite O1).
  destruct (gov_check_effect t g1 k1 R1 K1) as (S2 & F2 & L2 & H2 & K2). cbv zeta in *.
  revert S2 F2 L2 H2 K2. destruct (gov_check cfg t g1 k1) as [g2 k2]. cbn [fst snd]. intros S2 F2 L2 H2 K2.
  destruct (decide_profile _ _ _ _ _ _ _) as [[w ll] ol].
  set (g3 := set_g_one_latched ol (set_g_load_latched ll g2)).
  assert (g_cur g3 = g_cur g) as C3.
  { subst g3. simpl. unfold shift_view in S2. congruence. }
  assert (fg_known g3 k2) as A3.
  { unfold fg_known in *. subst g3. simpl. by rewrite L2, F2. }
  clearbody g3.
  destruct (gov_shift_effect t w g3 k2 (hw_frame_ready _ _ H2 R1) A3) as (T1 & T2 & T3 & p & T4 & T5).
  revert T1 T2 T3 T4 T5. generalize (gov_shift cfg t w g3 k2). intros [g4 k4]. cbn [fst snd]. intros.
  assert (hw_frame (k_hwp k) (k_hwp k4)) as F4 by (rewrite <-O1; by transitivity (k_hwp k2)).
  assert (forall q, g_cur g = Some q -> knobs q k2) as K4 by (intros q Hq; apply K2; congruence).
  split; [split|split; [done|]].
  - by eapply hw_frame_ready.
  - by rewrite T3, L2, O4.
  - done.
  - intros q Hq. assert (q = p) as -> by congruence.
    destruct T5 as [T5|[T5 ->]]; [by apply in_force_split in T5 as [? _]|]. apply K4. congruence.
  - exists p. split; [done|]. intros H. destruct T5 as [T5|[T5 ->]]; [done|].
    destruct (K2 p ltac:(congruence)) as [_ K5]. apply K5.
    destruct H as [H|[H|[H Hr]]]; [congruence|left|right].
    + apply (in_force_fgpid _ k); [by repeat split|done].
    + split; [by eapply H|]. by rewrite O1.
Qed.

(** ** Histories *)

(** What happens to the daemon and its kernel: a turn of the loop, input, or
    something else writing the request registers (firmware, resume). *)
Inductive gevent :=
  | GTurn (t : turn)
  | GInput (ticks : Z)
  | GDrift (request : cpu_msr -> Z).

Definition drift (f : cpu_msr -> Z) (s : hwp) : hwp :=
  set_h_cpus (map (fun c => set_m_hwp_request (f c) c) (h_cpus s)) s.

Definition gov_event (e : gevent) (gk : gov * kernel) : gov * kernel :=
  match e with
  | GTurn t => gov_turn cfg t gk
  | GInput ticks => (gk.1, set_k_lp (lpsched_input_activity ticks (k_lp gk.2)) gk.2)
  | GDrift f => (gk.1, set_k_hwp (drift f (k_hwp gk.2)) gk.2)
  end.

Definition gov_run (es : list gevent) (gk : gov * kernel) : gov * kernel :=
  fold_left (fun gk e => gov_event e gk) es gk.

Lemma gov_start_inv ac b k : hw_ready (k_hwp k) -> lpsched_fgpid (k_lp k) = f0 ->
  let r := gov_start cfg ac b k in
  gov_inv r.1 r.2 /\ g_cur r.1 = None /\ k_hwp r.2 = k_hwp k.
Proof.
  intros R E. cbv zeta. unfold gov_start. rewrite set_enabled by (done || lia). cbn [fst snd].
  split; [|done]. split; try done. split; [by right|]. unfold INT_MAX. simpl. lia.
Qed.

Lemma drift_frame f s : hw_frame s (drift f s).
Proof. split; try done. unfold drift. simpl. by rewrite map_map. Qed.

Lemma gov_event_inv e gk : gov_inv gk.1 gk.2 ->
  let r := gov_event e gk in
  gov_inv r.1 r.2 /\ hw_frame (k_hwp gk.2) (k_hwp r.2) /\
  ((forall f, e <> GDrift f) -> (forall p, g_cur gk.1 = Some p -> in_force p gk.2) ->
   forall p, g_cur r.1 = Some p -> in_force p r.2).
Proof.
  destruct gk as [g k]. cbn [fst snd]. intros I. destruct e as [t|ticks|f]; cbn [gov_event fst snd]; cbv zeta.
  - destruct (gov_turn_inv t g k I) as (I' & F' & p & Hp & Hq). split; [done|]. split; [done|].
    intros _ Hf q Eq. assert (q = p) as -> by congruence. apply Hq.
    destruct (decide (g_cur (gov_turn cfg t (g, k)).1 = g_cur g)) as [E|]; [|by left].
    right. left. apply Hf. congruence.
  - destruct I as [I1 I2 I3 I4]. split; [by split|]. split; [done|].
    intros _ Hf p Hp. destruct (Hf p Hp). by split.
  - destruct I as [I1 I2 I3 I4]. split; [split; try done|split; [apply drift_frame|]].
    + eapply hw_frame_ready; [apply drift_frame|done].
    + intros H. exfalso. by eapply H.
Qed.

Lemma gov_run_inv es gk : gov_inv gk.1 gk.2 ->
  let r := gov_run es gk in
  gov_inv r.1 r.2 /\ hw_frame (k_hwp gk.2) (k_hwp r.2) /\
  (Forall (fun e => forall f, e <> GDrift f) es ->
   (forall p, g_cur gk.1 = Some p -> in_force p gk.2) ->
   forall p, g_cur r.1 = Some p -> in_force p r.2).
Proof.
  revert gk. induction es as [|e es IH]; intros gk I; [done|].
  destruct (gov_event_inv e gk I) as (I1 & F1 & P1). destruct (IH _ I1) as (I2 & F2 & P2).
  cbv zeta. change (gov_run (e :: es) gk) with (gov_run es (gov_event e gk)).
  split; [done|]. split; [by transitivity (k_hwp (gov_event e gk).2)|].
  intros [He Hes]%Forall_cons Hg. apply P2; [done|]. by apply P1.
Qed.

End runs.

Section promises.
Context `{SC : Sysctl} `{!SysctlOk SC} `{M : Machine} `{F : Float} (cfg : gcfg)
  (Hdry : dryrun cfg = false).

#[local] Notation turn_want := (turn_want cfg).
#[local] Notation gov_run := (gov_run cfg).
#[local] Notation gov_event := (gov_event cfg).

(** C16. With hwp loaded on CPUs that take a preference and a power unit of at most 2^-8
    W, and not in a dry run, after any sequence of turns of the governor's loop and
    input events, with nobody else writing the request registers, lpsched is enabled,
    the knobs of lpsched, the preference and every CPU's request register are those of
    the current profile, and the kernel's foreground process is the one the daemon
    believes, or the daemon believes in none and it is still the one the daemon found at
    its start. *)
Theorem gov_profile_in_force es ac b k :
  hw_ready (k_hwp k) ->
  Forall (fun e => forall f, e <> GDrift f) es ->
  let r := gov_run es (gov_start cfg ac b k) in
  lpsched_enabled (k_lp r.2) = 1 /\
  (lpsched_fgpid (k_lp r.2) = g_fgpid r.1 \/
   (g_fgpid r.1 = 0 /\ lpsched_fgpid (k_lp r.2) = lpsched_fgpid (k_lp k))) /\
  forall p, g_cur r.1 = Some p -> in_force p r.2.
Proof.
  intros R Hes. destruct (gov_start_inv cfg Hdry _ ac b k R eq_refl) as (I & C & _).
  destruct (gov_run_inv cfg Hdry _ es _ I) as ([_ I2 [I3 _] _] & _ & P).
  split; [done|]. split; [done|]. apply P; [done|]. congruence.
Qed.

(** Reading the inputs touches neither the profile nor the time of the last
    check, also in a dry run. *)
Lemma gov_read_view t g k l m g1 k1 : gov_read cfg t (g, k) = (l, m, g1, k1) ->
  (shift_view g1, g_pl_checked g1) = (shift_view g, g_pl_checked g).
Proof.
  unfold gov_read. assert (forall r, r = (handle_socket cfg (t_msg t) (g, k)).1 ->
    (shift_view r, g_pl_checked r) = (shift_view g, g_pl_checked g)) as E.
  { intros r ->. unfold handle_socket. destruct (t_msg t); [|done]. cbv zeta.
    destruct (pid ← _; _); [done|]. destruct (scan_pid _ _); [|done].
    destruct (_ <? _); [done|]. by destruct (negb _). }
  destruct (handle_socket cfg (t_msg t) (g, k)) as [g0 k0]. specialize (E g0 eq_refl).
  destruct (_ && _); cbv zeta; destruct (cpu_busy _ _ _ _) as [[b mx] bs];
    destruct (sysctl_get _ _ _) as [i k3]; intros [= _ _ <- _]; rewrite <-E; cbv zeta;
    by destruct (negb (g_compositor _ =? 0) && _), (negb (t_ac t =? -1)).
Qed.

(** Whatever wrote the request registers in between, the first turn at least 30 s after
    the last check ends with every CPU's register holding the current profile's
    preference. *)
Theorem gov_repairs_drift es t ac b k :
  hw_ready (k_hwp k) -> hwp_has_rapl (k_hwp k) = true ->
  let r := gov_run es (gov_start cfg ac b k) in
  PL_CHECK_MS <= u64 (t_now1 t - g_pl_checked r.1) ->
  let r' := gov_turn cfg t r in
  exists p, g_cur r'.1 = Some p /\ in_force p r'.2.
Proof.
  intros R Hr r Hdue. destruct (gov_start_inv cfg Hdry _ ac b k R eq_refl) as (I & C & Eh).
  destruct (gov_run_inv cfg Hdry _ es _ I) as (I1 & F1 & _). fold r in I1, F1. clearbody r. destruct r as [g k1].
  cbn [fst snd] in *. destruct (gov_turn_inv cfg Hdry _ t g k1 I1) as (_ & _ & p & Hp & Hq).
  exists p. split; [done|]. apply Hq. right. right. split.
  - intros l m g1 k2 Hread. unfold check_due.
    assert (g_pl_checked g1 = g_pl_checked g) as -> by (apply gov_read_view in Hread; congruence).
    destruct (Z.leb_spec PL_CHECK_MS (u64 (t_now1 t - g_pl_checked g))); [|lia]. apply orb_true_r.
  - by rewrite (hf_rapl _ _ F1), Eh.
Qed.

(** ** Upshifts and downshifts *)

(** A turn is a profile change by the profile it wants. *)
Lemma gov_turn_shift t g k : exists g2 k2,
  gov_turn cfg t (g, k) = gov_shift cfg t (turn_want t (g, k)) g2 k2 /\ shift_view g2 = shift_view g.
Proof.
  unfold gov_turn, turn_want. destruct (gov_read cfg t (g, k)) as [[[l m] g1] k1] eqn:Er.
  apply gov_read_view in Er.
  assert (shift_view (gov_check cfg t g1 k1).1 = shift_view g1) as Ec.
  { unfold gov_check. by destruct (_ || _). }
  destruct (gov_check cfg t g1 k1) as [g2 k2]. cbn [fst] in Ec.
  destruct (decide_profile _ _ _ _ _ _ _) as [[w ll] ol].
  exists (set_g_one_latched ol (set_g_load_latched ll g2)), k2. split; [done|].
  unfold shift_view in *. simpl. congruence.
Qed.

(** One entry per turn: what it met, what it wanted, the profile after it. *)
Record entry := mk_entry { e_turn : turn; e_want : profile; e_cur : option profile }.

(** Histories, the last turn first; the kernel may change between turns. *)
Inductive ghist : list entry -> gov -> kernel -> Prop :=
  | ghist_start ac b k : ghist [] (gov_start cfg ac b k).1 k
  | ghist_turn h g k t : ghist h g k ->
      ghist (mk_entry t (turn_want t (g, k)) (g_cur (gov_turn cfg t (g, k)).1) :: h)
        (gov_turn cfg t (g, k)).1 (gov_turn cfg t (g, k)).2
  | ghist_kernel h g k k' : ghist h g k -> ghist h g k'.

(** A turn at [since] and all later ones wanted less than [p] and kept [p]. *)
Definition waiting (p : profile) (h : list entry) (since : Z) : Prop :=
  exists h1 e h2, h = h1 ++ e :: h2 /\ t_now3 (e_turn e) = since /\
    Forall (fun e => prof_num p < prof_num (e_want e) /\ e_cur e = Some p) (h1 ++ [e]).

Lemma waiting_more p h since e : waiting p h since ->
  prof_num p < prof_num (e_want e) -> e_cur e = Some p -> waiting p (e :: h) since.
Proof.
  intros (h1 & e1 & h2 & -> & <- & Hf) H1 H2. exists (e :: h1), e1, h2.
  split; [done|]. split; [done|]. by constructor.
Qed.

Lemma prof_num_inj p q : prof_num p = prof_num q -> p = q.
Proof. by destruct p, q. Qed.

(** What a change of profile amounts to. *)
Lemma gov_shift_cases t w g k p : g_cur g = Some p ->
  let g' := (gov_shift cfg t w g k).1 in
  (prof_num w <= prof_num p /\ g_cur g' = Some w /\ g_pending g' = false) \/
  (prof_num p < prof_num w /\ g_cur g' = Some p /\ g_pending g' = true /\
     g_pending_since g' = if g_pending g then g_pending_since g else t_now3 t) \/
  (prof_num p < prof_num w /\ g_cur g' = Some w /\ g_pending g' = false /\ g_pending g = true /\
     DOWNSHIFT_MS <= u64 (t_now3 t - g_pending_since g)).
Proof.
  intros Ep. cbv zeta. unfold gov_shift. rewrite Ep. cbv zeta.
  destruct (Z.ltb_spec (prof_num w) (prof_num p)); [left; split; [lia|done]|].
  destruct (bool_decide_reflect (Some p = Some w)) as [[= ->]|N]; [left; split; [lia|done]|].
  assert (prof_num p <> prof_num w) by (intros E; apply prof_num_inj in E; congruence).
  right. destruct (g_pending g) eqn:Eg; cbn [negb]; [|left; split; [lia|done]].
  destruct (Z.leb_spec DOWNSHIFT_MS (u64 (t_now3 t - g_pending_since g))).
  - right. split; [lia|done].
  - left. split; [lia|done].
Qed.

Lemma ghist_waiting h g k : ghist h g k -> g_pending g = true ->
  exists p, g_cur g = Some p /\ waiting p h (g_pending_since g).
Proof.
  induction 1 as [ac b k|h g k t _ IH|h g k k' _ IH]; [done| |done].
  destruct (gov_turn_shift t g k) as (g2 & k2 & -> & Ev). unfold shift_view in Ev.
  set (w := turn_want t (g, k)). destruct (g_cur g2) as [p|] eqn:Ep.
  2:{ unfold gov_shift. by rewrite Ep. }
  destruct (gov_shift_cases t w g2 k2 p Ep) as [(_ & _ & E)|[(Hw & E1 & E2 & E3)|(_ & _ & E & _)]];
    [by rewrite E| |by rewrite E].
  intros _. exists p. split; [done|]. rewrite E3. destruct (g_pending g2) eqn:Eg.
  - destruct IH as (p' & Hp & Hwt); [congruence|]. assert (p' = p) as -> by congruence.
    replace (g_pending_since g2) with (g_pending_since g) by congruence. by apply waiting_more.
  - exists [], (mk_entry t w (g_cur (gov_shift cfg t w g2 k2).1)), h.
    split; [done|]. split; [done|]. by constructor.
Qed.

(** C17. The governor takes a wanted profile of equal or more performance at once; it
    takes one of less performance only if every turn since one at least 500 ms ago
    wanted less than the current profile and kept it. *)
Theorem gov_shift_hysteresis h g k t p :
  ghist h g k -> g_cur g = Some p ->
  let w := turn_want t (g, k) in
  let g' := (gov_turn cfg t (g, k)).1 in
  (prof_num w <= prof_num p -> g_cur g' = Some w) /\
  (prof_num p < prof_num w -> g_cur g' = Some p \/
     g_cur g' = Some w /\
     exists since, waiting p h since /\ DOWNSHIFT_MS <= u64 (t_now3 t - since)).
Proof.
  intros H Ep w g'. destruct (gov_turn_shift t g k) as (g2 & k2 & E & Ev). subst g'. rewrite E. fold w.
  unfold shift_view in Ev. assert (g_cur g2 = Some p) as Ep2 by congruence.
  destruct (gov_shift_cases t w g2 k2 p Ep2) as [(Hw & -> & _)|[(Hw & -> & _)|(Hw & -> & _ & E4 & E5)]].
  - split; [done|lia].
  - split; [lia|]. by left.
  - split; [lia|]. right. split; [done|].
    destruct (ghist_waiting h g k H) as (p' & Hp & Hwt); [congruence|].
    exists (g_pending_since g). assert (p' = p) as -> by congruence. split; [done|].
    replace (g_pending_since g) with (g_pending_since g2) by congruence. done.
Qed.

End promises.
