(* ===== verification/GovSession.v ===== *)
(** * Power limits of a supply, and what a session leaves behind

    [apply_pl] on a machine whose limits can be written, the state between its
    two writes, and a whole session: what main finds, any history, cleanup. *)

From Stdlib Require Import QArith.
From stdpp Require Import base numbers list strings.
From S2P Require Import Prelude Text Sysctl Lwp Lpsched Hwp HwpThms Governor GovKernel GovernorThms.
Local Open Scope Z_scope.

Section limits.
Context `{SC : Sysctl} `{!SysctlOk SC} `{M : Machine} (cfg : gcfg) (Hdry : dryrun cfg = false).

#[local] Existing Instance only_limits_preorder.

(** The daemon manages this limit. *)
Definition manages (pl2 : bool) : Prop :=
  if pl2 then 0 < pl2_bat cfg /\ 0 < pl2_boot cfg else 0 < pl1_bat cfg /\ 0 < pl1_boot cfg.

Lemma manages_dec pl2 : {manages pl2} + {~ manages pl2}.
Proof. destruct pl2; simpl; apply decide; apply _. Qed.

Lemma pl2_want_above ac w1 : w1 <= pl2_want cfg ac w1.
Proof. unfold pl2_want. destruct (ac =? 0); case_match eqn:E; apply Z.ltb_lt in E || apply Z.ltb_ge in E; lia. Qed.

Lemma apply_pl2_unmanaged ac w k : ~ manages true -> apply_pl2 cfg ac w k = k.
Proof.
  simpl. intros H. unfold apply_pl2. destruct (Z.leb_spec (pl2_bat cfg) 0); [done|].
  destruct (Z.leb_spec (pl2_boot cfg) 0); [done|]. lia.
Qed.

(** The state between the two writes of [apply_pl]. *)
Definition pl_between (ac : Z) (k : kernel) : kernel :=
  if ac =? 0 then (apply_pl1 cfg (pl1_want cfg ac) k).2
  else apply_pl2 cfg ac (pl1_want cfg ac) k.

(** The second write of [apply_pl]. *)
Lemma apply_pl_split ac k : manages false -> pl_ready (k_hwp k) ->
  3000 <= pl1_want cfg ac <= 64000 ->
  apply_pl cfg ac k =
    if ac =? 0 then apply_pl2 cfg ac (pl1_want cfg ac) (pl_between ac k)
    else (apply_pl1 cfg (pl1_want cfg ac) (pl_between ac k)).2.
Proof.
  intros [B1 B2] R Hw. unfold apply_pl, pl_between.
  destruct (Z.leb_spec (pl1_bat cfg) 0); [lia|]. destruct (Z.leb_spec (pl1_boot cfg) 0); [lia|].
  cbn [orb]. cbv zeta. destruct (Z.eqb_spec ac 0) as [->|N]; cbn [negb].
  - destruct (apply_pl1_effect cfg Hdry _ k R Hw) as (E & _).
    destruct (apply_pl1 cfg (pl1_want cfg 0) k) as [b k1]. cbn [fst snd] in *. by rewrite E.
  - destruct (apply_pl1 cfg _ _) as [[] k1]; done.
Qed.

(** PL2 when its part is done: at its wanted value, or as it was. *)
Definition pl2_done (ac : Z) (k k' : kernel) : Prop :=
  (manages true -> Z.abs (pl_now true (k_hwp k') - pl2_want cfg ac (pl1_want cfg ac)) < 125) /\
  (~ manages true -> pl_now true (k_hwp k') = pl_now true (k_hwp k)).

Lemma apply_pl2_done ac k : pl_ready (k_hwp k) ->
  (manages true -> 3000 <= pl2_want cfg ac (pl1_want cfg ac) <= 64000) ->
  let k' := apply_pl2 cfg ac (pl1_want cfg ac) k in
  only_limits k k' /\ pl2_done ac k k' /\
  pl_now false (k_hwp k') = pl_now false (k_hwp k) /\ pl1_on (k_hwp k') = pl1_on (k_hwp k).
Proof.
  intros R Hw. cbv zeta. destruct (manages_dec true) as [Hm|Hm].
  - destruct Hm as [M1 M2]. destruct (apply_pl2_effect cfg Hdry ac (pl1_want cfg ac) k R M1 M2)
      as (E1 & E2 & E3 & E4); [apply Hw; done|].
    split; [done|]. split; [|done]. split; [done|]. simpl. lia.
  - rewrite apply_pl2_unmanaged by done. split; [reflexivity|]. split; [|done]. by split.
Qed.

(** After the limits are applied PL1 is enforced and within 1/8 W of its wanted value,
    PL2 (if managed) within 1/8 W of its own, and PL2 is less than 1/4 W below PL1, also
    between the two writes; nothing else changes. *)
Theorem gov_power_limits ac k :
  manages false -> pl_ready (k_hwp k) -> 3000 <= pl1_want cfg ac <= 64000 ->
  (manages true -> 3000 <= pl2_want cfg ac (pl1_want cfg ac) <= 64000) ->
  let k' := apply_pl cfg ac k in
  only_limits k k' /\ pl1_on (k_hwp k') = true /\
  Z.abs (pl_now false (k_hwp k') - pl1_want cfg ac) < 125 /\ pl2_done ac k k' /\
  (manages true -> pl_now false (k_hwp k') < pl_now true (k_hwp k') + 250 /\
    ((ac = 0 -> pl1_want cfg ac <= pl_now true (k_hwp k)) ->
     (ac <> 0 -> pl_now false (k_hwp k) <= pl1_want cfg ac) ->
     pl_now false (k_hwp (pl_between ac k)) < pl_now true (k_hwp (pl_between ac k)) + 125)).
Proof.
  intros Hm R Hw1 Hw2. cbv zeta. rewrite apply_pl_split by done.
  pose proof (pl2_want_above ac (pl1_want cfg ac)) as Hab. unfold pl_between, pl2_done.
  destruct (Z.eqb_spec ac 0) as [->|N].
  - destruct (apply_pl1_effect cfg Hdry _ k R Hw1) as (_ & E2 & E3 & E4 & E5).
    destruct (apply_pl1 cfg _ k) as [b k1]. cbn [fst snd] in *.
    destruct (apply_pl2_done 0 k1 (pl_ready_frame _ _ (ol_frame _ _ E2) R) Hw2) as (G1 & [G2 G2'] & G3 & G4).
    revert G1 G2 G2' G3 G4. generalize (apply_pl2 cfg 0 (pl1_want cfg 0) k1). intros k2 G1 G2 G2' G3 G4.
    split; [by transitivity k1|]. split; [by rewrite G4|]. split; [by rewrite G3|].
    split; [split; [done|intros H; rewrite <-E4; auto]|].
    intros Hm2. specialize (G2 Hm2). split; [lia|]. intros H _. specialize (H eq_refl). lia.
  - destruct (apply_pl2_done ac k R Hw2) as (G1 & [G2 G2'] & G3 & G4).
    revert G1 G2 G2' G3 G4. generalize (apply_pl2 cfg ac (pl1_want cfg ac) k). intros k1 G1 G2 G2' G3 G4.
    destruct (apply_pl1_effect cfg Hdry _ k1 (pl_ready_frame _ _ (ol_frame _ _ G1) R) Hw1)
      as (_ & E2 & E3 & E4 & E5).
    destruct (apply_pl1 cfg _ k1) as [b k2]. cbn [fst snd] in *.
    split; [by transitivity k1|]. split; [done|]. split; [done|].
    split; [rewrite E4; by split|].
    intros Hm2. specialize (G2 Hm2). split; [lia|]. intros _ H. specialize (H N). lia.
Qed.

(** ** Cleanup *)

(** A limit as the module found it at load. *)
Definition boot_limit (s : hwp) (mw : Z) : Prop :=
  3000 <= mw <= 64000 /\ exists raw, in_field 15 raw /\ mw = hwp_raw_to_mw (hwp_rapl_pu s) raw.

Lemma set_pl_boot pl2 x k : pl_ready (k_hwp k) -> boot_limit (k_hwp k) x ->
  let k' := sysctl_set cfg (MHwp (pl_name pl2)) x k in
  only_limits k k' /\ pl_now pl2 (k_hwp k') = x /\
  pl_now (negb pl2) (k_hwp k') = pl_now (negb pl2) (k_hwp k).
Proof.
  intros R (Hx & raw & Hr & Ex). destruct (set_pl cfg Hdry pl2 x k R Hx) as (S1 & S2 & S3 & _).
  split; [done|]. split; [|done]. rewrite S2, Ex, raw_mw_raw; [done|apply R|done|lia].
Qed.

Definition restore_pl (pl2 : bool) (k : kernel) : kernel :=
  if pl2 then
    if (0 <? pl2_bat cfg) && (0 <? pl2_boot cfg) then sysctl_set cfg (MHwp "pl2") (pl2_boot cfg) k else k
  else
    if (0 <? pl1_bat cfg) && (0 <? pl1_boot cfg) then sysctl_set cfg (MHwp "pl1") (pl1_boot cfg) k else k.

Lemma restore_pl_effect pl2 k : pl_ready (k_hwp k) ->
  (manages pl2 -> boot_limit (k_hwp k) (if pl2 then pl2_boot cfg else pl1_boot cfg)) ->
  let k' := restore_pl pl2 k in
  only_limits k k' /\
  (manages pl2 -> pl_now pl2 (k_hwp k') = if pl2 then pl2_boot cfg else pl1_boot cfg) /\
  pl_now (negb pl2) (k_hwp k') = pl_now (negb pl2) (k_hwp k).
Proof.
  intros R Hb. cbv zeta. unfold restore_pl. destruct (manages_dec pl2) as [Hm|Hm].
  - specialize (Hb Hm). pose proof (set_pl_boot pl2 _ k R Hb) as S. cbv zeta in S.
    destruct pl2; destruct Hm as [M1 M2]; apply Z.ltb_lt in M1, M2; rewrite M1, M2; cbn [andb];
      destruct S as (S1 & S2 & S3); auto.
  - assert (forall a b, ~ (0 < a /\ 0 < b) -> (0 <? a) && (0 <? b) = false) as E.
    { intros a b H. destruct (Z.ltb_spec 0 a), (Z.ltb_spec 0 b); try done. lia. }
    destruct pl2; rewrite (E _ _ Hm); (split; [reflexivity|]); by split.
Qed.

(** cleanup is the knobs, the preference and then the limits, PL2 first. *)
Lemma cleanup_effect k : hw_ready (k_hwp k) -> 0 <= orig_epp cfg <= 255 -> exists k1,
  cleanup cfg k = restore_pl false (restore_pl true k1) /\
  lpsched_enabled (k_lp k1) = 0 /\ lpsched_pack (k_lp k1) = 0 /\
  lpsched_coalesce_ms (k_lp k1) = 0 /\ lpsched_fgpid (k_lp k1) = 0 /\
  hwp_epp (k_hwp k1) = orig_epp cfg /\ requests_hold (orig_epp cfg) (k_hwp k1) /\
  h_power_limit (k_hwp k1) = h_power_limit (k_hwp k) /\ hw_frame (k_hwp k) (k_hwp k1).
Proof.
  intros R He. unfold cleanup.
  rewrite set_enabled, set_pack, set_coalesce, set_fgpid, set_epp by (done || (unfold INT_MAX; lia)).
  eexists. split; [reflexivity|].
  destruct (program_all_effect (orig_epp cfg) (k_hwp k)) as (P1 & P2 & P3 & P4); [apply R|done|].
  by repeat (split; [done|]).
Qed.

End limits.

Section session.
Context `{SC : Sysctl} `{!SysctlOk SC} `{M : Machine} `{F : Float} (cfg0 : gcfg)
  (Hdry : dryrun cfg0 = false).

(** What main finds on a machine with power limits. *)
Lemma gov_config_found n k : pl_ready (k_hwp k) ->
  let r := gov_config cfg0 None n k in
  r.2 = k /\ orig_epp r.1 = hwp_epp (k_hwp k) /\ dryrun r.1 = false /\
  pl1_bat r.1 = pl1_bat cfg0 /\ pl2_bat r.1 = pl2_bat cfg0 /\
  (0 < pl1_bat cfg0 -> pl1_boot r.1 = hwp_pl1_boot (k_hwp k)) /\
  (0 < pl2_bat cfg0 -> pl2_boot r.1 = hwp_pl2_boot (k_hwp k)).
Proof.
  intros R. cbv zeta. unfold gov_config. rewrite get_epp by apply R.
  destruct (Z.ltb_spec 0 (pl1_bat cfg0)), (Z.ltb_spec 0 (pl2_bat cfg0));
    rewrite ?(get_boot false), ?(get_boot true) by done; cbn [default fst snd]; repeat split;
    try done; lia.
Qed.

Lemma only_limits_boot k k' x : only_limits k k' -> boot_limit (k_hwp k) x -> boot_limit (k_hwp k') x.
Proof. intros [_ _ _ Fr] H. unfold boot_limit. by rewrite (hf_pu _ _ Fr). Qed.

(** A whole session, from what main finds through any history to cleanup, leaves lpsched
    disabled with pack, coalescing and foreground process off, and the preference, the
    request registers and the managed power limits exactly as found. *)
Theorem gov_session_restores es ac b n k :
  pl_ready (k_hwp k) -> 0 <= hwp_epp (k_hwp k) <= 255 -> lpsched_fgpid (k_lp k) = 0 ->
  boot_limit (k_hwp k) (hwp_pl1_boot (k_hwp k)) -> boot_limit (k_hwp k) (hwp_pl2_boot (k_hwp k)) ->
  let c := gov_config cfg0 None n k in
  let k' := cleanup c.1 (gov_run c.1 es (gov_start c.1 ac b c.2)).2 in
  lpsched_enabled (k_lp k') = 0 /\ lpsched_pack (k_lp k') = 0 /\
  lpsched_coalesce_ms (k_lp k') = 0 /\ lpsched_fgpid (k_lp k') = 0 /\
  hwp_epp (k_hwp k') = hwp_epp (k_hwp k) /\ requests_hold (hwp_epp (k_hwp k)) (k_hwp k') /\
  (0 < pl1_bat cfg0 -> pl_now false (k_hwp k') = hwp_pl1_boot (k_hwp k)) /\
  (0 < pl2_bat cfg0 -> pl_now true (k_hwp k') = hwp_pl2_boot (k_hwp k)).
Proof.
  intros R He Hfg B1 B2. destruct (gov_config_found n k R) as (C1 & C2 & C3 & C4 & C5 & C6 & C7).
  cbv zeta. revert C1 C2 C3 C4 C5 C6 C7. destruct (gov_config cfg0 None n k) as [c k0]. cbn [fst snd].
  intros -> C2 C3 C4 C5 C6 C7. destruct (gov_start_inv c C3 _ ac b k (pr_ready _ R) Hfg) as (I & _ & Eh).
  destruct (gov_run_inv c C3 _ es _ I) as ([R1 _ _ _] & F1 & _). rewrite Eh in F1.
  revert R1 F1. generalize (gov_run c es (gov_start c ac b k)).2. intros k1 R1 F1.
  destruct (cleanup_effect c C3 k1 R1) as (k2 & -> & L1 & L2 & L3 & L4 & E1 & E2 & E3 & F2); [lia|].
  rewrite C2 in E1, E2.
  assert (hw_frame (k_hwp k) (k_hwp k2)) as F3 by by transitivity (k_hwp k1).
  assert (forall x, boot_limit (k_hwp k) x -> boot_limit (k_hwp k2) x) as Hb.
  { intros x. unfold boot_limit. by rewrite (hf_pu _ _ F3). }
  destruct (restore_pl_effect c C3 true k2 (pl_ready_frame _ _ F3 R)) as (P1 & P2 & P3).
  { intros [M1 M2]. rewrite C7 by lia. auto. }
  revert P1 P2 P3. generalize (restore_pl c true k2). intros k3 P1 P2 P3.
  destruct (restore_pl_effect c C3 false k3) as (Q1 & Q2 & Q3).
  { eapply pl_ready_frame; [apply P1|]. by eapply pl_ready_frame. }
  { intros [M1 M2]. rewrite C6 by lia. eapply only_limits_boot; [exact P1|]. auto. }
  revert Q1 Q2 Q3. generalize (restore_pl c false k3). intros k4 Q1 Q2 Q3.
  rewrite (ol_lp _ _ Q1), (ol_lp _ _ P1), (ol_epp _ _ Q1), (ol_epp _ _ P1).
  do 5 (split; [done|]). split.
  { unfold requests_hold in *. by rewrite (ol_cpus _ _ Q1), (ol_cpus _ _ P1). }
  destruct B1 as [B1 _], B2 as [B2 _]. split.
  - intros H. specialize (C6 H). rewrite <-C6. apply Q2. simpl. lia.
  - intros H. specialize (C7 H). rewrite <-C7. simpl in Q3. rewrite Q3. apply P2. simpl. lia.
Qed.

End session.
