(* ===== verification/GovPolicy.v ===== *)
(** * The governor's decisions

    The profile as a function of the history of samples, the busy fractions
    the samples come from, the datagrams and the sleep between turns. *)

From Stdlib Require Import Ascii QArith Lqa.
From stdpp Require Import base numbers list strings.
From S2P Require Import Prelude Text Sysctl Lwp Lpsched Hwp HwpThms Governor GovKernel GovernorThms GovSession.
Local Open Scope Z_scope.

(** ** Decisions *)

Lemma qlt_spec x y : qlt x y = true <-> (x < y)%Q.
Proof.
  unfold qlt. rewrite negb_true_iff, <-not_true_iff_false, Qle_bool_iff. split.
  - apply Qnot_le_lt.
  - apply Qlt_not_le.
Qed.

Lemma qlt_false x y : qlt x y = false <-> (y <= x)%Q.
Proof. unfold qlt. by rewrite negb_false_iff, Qle_bool_iff. Qed.

(** A sample over [hi], and none below [lo] since. *)
Definition sustained (lo hi : Q) (l : list Q) : Prop :=
  exists l1 x l2, l = l1 ++ x :: l2 /\ (hi < x)%Q /\ Forall (fun y => (lo <= y)%Q) l2.

Definition latch_run (lo hi : Q) (l : list Q) : bool := fold_left (fun b x => latch lo hi x b) l false.

Lemma latch_run_sustained lo hi l : (lo <= hi)%Q -> latch_run lo hi l = true <-> sustained lo hi l.
Proof.
  intros Hlh. induction l as [|x l IH] using rev_ind.
  { split; [done|]. by intros ([|? ?] & ? & ? & ? & _). }
  unfold latch_run. rewrite fold_left_app. cbn [fold_left]. fold (latch_run lo hi l).
  assert (sustained lo hi (l ++ [x]) <-> (hi < x)%Q \/ (lo <= x)%Q /\ sustained lo hi l) as ->.
  { split.
    - intros (l1 & y & l2 & E & Hy & Hf). destruct l2 as [|z l2 _] using rev_ind.
      + apply app_inj_tail in E as [_ ->]. by left.
      + rewrite app_comm_cons, app_assoc in E. apply app_inj_tail in E as [-> ->].
        apply Forall_app in Hf as [Hf Hz]. inversion Hz; subst. right. split; [done|]. by exists l1, y, l2.
    - intros [H|[H (l1 & y & l2 & -> & Hy & Hf)]]; [by exists l, x, []|].
      exists l1, y, (l2 ++ [x]). split; [by rewrite <-app_assoc|]. split; [done|].
      apply Forall_app. split; [done|]. by constructor. }
  rewrite <-IH. unfold latch. destruct (latch_run lo hi l); simpl.
  - destruct (qlt x lo) eqn:E.
    + apply qlt_spec in E. split; [done|]. intros [H|[H _]]; lra.
    + apply qlt_false in E. split; [by right|done].
  - destruct (qlt hi x) eqn:E.
    + apply qlt_spec in E. split; [by left|done].
    + apply qlt_false in E. split; [done|]. intros [H|[_ H]]; [lra|done].
Qed.

Record sample := mk_sample { s_ac : Z; s_busy : Q; s_max : Q; s_idle : Z }.

Section decisions.
Context (cfg : gcfg).

Definition decide_run (l : list sample) : profile * bool * bool :=
  fold_left (fun st s => decide_profile cfg (s_ac s) (s_busy s) (s_max s) (s_idle s) st.1.2 st.2)
    l (P_PERF, false, false).

(** The samples taken on battery. *)
Definition on_battery (l : list sample) : list sample := filter (fun s => s_ac s = 0) l.

Lemma decide_run_latches l :
  (decide_run l).1.2 = latch_run (load_lo cfg) (load_hi cfg) (map s_busy (on_battery l)) /\
  (decide_run l).2 = latch_run (one_lo cfg) (one_hi cfg) (map s_max (on_battery l)).
Proof.
  induction l as [|s l [IH1 IH2]] using rev_ind; [done|].
  unfold decide_run in *. rewrite fold_left_app. cbn [fold_left].
  destruct (fold_left _ l _) as [[p ll] ol]. cbn [fst snd] in *. subst ll ol.
  unfold on_battery, decide_profile. rewrite filter_app, filter_cons, filter_nil, !map_app.
  destruct (Z.eqb_spec (s_ac s) 0) as [E|E].
  - rewrite decide_True by done. unfold latch_run. simpl. by rewrite !fold_left_app.
  - rewrite decide_False by done. simpl. by rewrite !app_nil_r.
Qed.

(** Over any history of samples: performance exactly on AC, balanced exactly within the
    boost after input on battery, load and batch exactly when a busy fraction exceeded
    its high threshold and has not been below the low one since, by how long ago input
    was. *)
Theorem gov_decide_policy l s :
  (load_lo cfg <= load_hi cfg)%Q -> (one_lo cfg <= one_hi cfg)%Q ->
  let p := (decide_run (l ++ [s])).1.1 in
  let load := sustained (load_lo cfg) (load_hi cfg) (map s_busy (on_battery (l ++ [s]))) in
  let one := sustained (one_lo cfg) (one_hi cfg) (map s_max (on_battery (l ++ [s]))) in
  (p = P_PERF <-> s_ac s <> 0) /\
  (p = P_BALANCED <-> s_ac s = 0 /\ s_idle s < boost_ms cfg) /\
  (p = P_LOAD <-> s_ac s = 0 /\ boost_ms cfg <= s_idle s < interactive_ms cfg /\ (load \/ one)) /\
  (p = P_BATCH <-> s_ac s = 0 /\ boost_ms cfg <= s_idle s /\ interactive_ms cfg <= s_idle s /\ load).
Proof.
  intros H1 H2. cbv zeta. rewrite <-!latch_run_sustained by done.
  destruct (decide_run_latches (l ++ [s])) as [L1 L2]. revert L1 L2.
  unfold decide_run. rewrite fold_left_app. cbn [fold_left].
  destruct (fold_left _ l _) as [[p0 ll] ol]. cbn [fst snd]. unfold decide_profile.
  destruct (Z.eqb_spec (s_ac s) 0) as [E|E]; cbn [negb fst snd].
  - intros <- <-. destruct (Z.ltb_spec (s_idle s) (boost_ms cfg)), (Z.ltb_spec (s_idle s) (interactive_ms cfg)),
      (latch (load_lo cfg) _ _ _), (latch (one_lo cfg) _ _ _); cbn [andb]; repeat split; intros;
      destruct_and?; destruct_or?; (done || lia || auto).
  - intros _ _. repeat split; intros; destruct_and?; done.
Qed.

(** ** Sleeping *)

(** The loop sleeps between 50 ms and 5 s and, while the compositor reports
    input, never more than 50 ms past the end of the boost. *)
Lemma poll_timeout_bounds g : 50 <= poll_timeout cfg g <= POLL_SLOW_MS.
Proof.
  unfold poll_timeout, POLL_SLOW_MS, POLL_IDLE_MS, POLL_ACTIVE_MS.
  destruct (_ =? 0); [destruct (g_cur g) as [[]|]; lia|]. destruct (g_pending g); [lia|].
  destruct (g_cur g) as [[]|]; cbv zeta; try lia; case_match; lia.
Qed.

Lemma poll_timeout_boost g : g_cur g = Some P_BALANCED -> g_compositor g <> 0 ->
  0 <= g_idle_ms g < boost_ms cfg -> boost_ms cfg + 50 <= INT_MAX ->
  poll_timeout cfg g <= Z.max POLL_IDLE_MS (boost_ms cfg - g_idle_ms g + 50).
Proof.
  intros E1 E2 H1 H2. unfold poll_timeout, POLL_IDLE_MS, POLL_SLOW_MS. rewrite E1.
  destruct (Z.eqb_spec (g_compositor g) 0); [done|]. destruct (g_pending g); [lia|].
  cbv zeta. unfold INT_MAX in H2. rewrite i32_id by (unfold in_i32; lia). case_match; lia.
Qed.

End decisions.

(** ** Datagrams *)

Fixpoint all_digits (s : string) : bool :=
  match s with EmptyString => true | String c s => is_digit c && all_digits s end.

Lemma digit_is_digit d : 0 <= d < 10 -> is_digit (ascii_of_nat (48 + Z.to_nat d)) = true.
Proof.
  intros H. unfold is_digit. rewrite nat_ascii_embedding by lia. cbv zeta.
  apply andb_true_iff. split; apply Nat.leb_le; lia.
Qed.

Lemma dec_aux_digits f n acc : all_digits acc = true -> all_digits (dec_aux f n acc) = true.
Proof.
  revert n acc. induction f as [|f IH]; intros n acc H; [done|]. cbn [dec_aux].
  assert (all_digits (String (ascii_of_nat (48 + Z.to_nat (n mod 10))) acc) = true) as H1.
  { cbn [all_digits]. rewrite digit_is_digit by (apply Z.mod_pos_bound; lia). done. }
  destruct (_ =? 0); auto.
Qed.

Lemma scan_digits_all a b s : all_digits s = true -> b = true \/ s <> EmptyString ->
  scan_digits a b s = Some (dec_value a s).
Proof.
  revert a b. induction s as [|c s IH]; intros a b Hd Hb.
  { destruct Hb as [->|]; done. }
  simpl in Hd. apply andb_true_iff in Hd as [Hc Hd]. cbn [scan_digits dec_value]. rewrite Hc.
  apply IH; auto.
Qed.

Lemma dec_not_empty n : dec n <> EmptyString.
Proof.
  unfold dec. cbn [dec_aux]. assert (forall f m acc, acc <> EmptyString -> dec_aux f m acc <> EmptyString) as H.
  { induction f as [|f IH]; intros m acc Ha; [done|]. cbn [dec_aux]. destruct (_ =? 0); [done|]. by apply IH. }
  destruct (_ =? 0); [done|]. by apply (H 19%nat).
Qed.

(** A digit is neither space nor sign. *)
Lemma scan_int_digits s : all_digits s = true -> s <> EmptyString ->
  scan_int s = Some (i32 (Z.min (2 ^ 63 - 1) (dec_value 0 s))).
Proof.
  destruct s as [|c s]; [done|]. intros Hd _. pose proof Hd as Hc. simpl in Hc.
  apply andb_true_iff in Hc as [Hc _]. unfold scan_int.
  assert (is_space c = false) as Hs.
  { unfold is_digit, is_space in *. cbv zeta in *. apply andb_true_iff in Hc as [H1 H2].
    apply Nat.leb_le in H1, H2. apply orb_false_iff. split; [apply Nat.eqb_neq; lia|].
    apply andb_false_iff. right. apply Nat.leb_gt. lia. }
  cbn [skip_space]. rewrite Hs.
  assert (match String c s with String "-" s' => (true, s') | String "+" s' => (false, s')
    | _ => (false, String c s) end = (false, String c s)) as ->.
  { destruct c as [[] [] [] [] [] [] [] []]; done || discriminate. }
  cbn [mbind option_bind]. by rewrite scan_digits_all by auto.
Qed.

Lemma scan_int_space s : scan_int (String " " s) = scan_int s.
Proof. done. Qed.

Lemma scan_pid_dec w n : 0 <= n <= INT_MAX -> scan_pid w (w +:+ " " +:+ dec n) = Some n.
Proof.
  intros Hn. unfold scan_pid. assert (forall s, strip_prefix w (w +:+ s) = Some s) as ->.
  { induction w as [|c w IH]; intros s; [done|]. simpl. by rewrite Ascii.eqb_refl. }
  cbn [mbind option_bind]. change (" " +:+ dec n) with (String " " (dec n)). rewrite scan_int_space.
  rewrite scan_int_digits by (by apply dec_aux_digits || apply dec_not_empty).
  unfold INT_MAX in Hn. rewrite dec_roundtrip by (unfold in_u64; lia).
  rewrite Z.min_r by lia. by rewrite i32_id by (unfold in_i32; lia).
Qed.

Lemma datagram_fits w n : (String.length w <= 10)%nat -> 0 <= n <= INT_MAX ->
  String.substring 0 63 (w +:+ " " +:+ dec n) = w +:+ " " +:+ dec n.
Proof.
  intros Hw Hn. unfold INT_MAX in Hn. apply substring_all. rewrite !string_length_app.
  pose proof (dec_u32_length n ltac:(unfold in_u32; lia)). simpl. lia.
Qed.

Section datagrams.
Context `{SC : Sysctl} `{!SysctlOk SC} `{M : Machine} (cfg : gcfg) (Hdry : dryrun cfg = false).

(** A datagram of the window manager printed in decimal is parsed back: the daemon and
    the kernel take the foreground process, and an input datagram registers the
    compositor and nothing else. *)
Theorem gov_datagrams n g k :
  0 <= n <= INT_MAX -> fg_agrees g k ->
  (let r := handle_socket cfg (Some ("fgpid" +:+ " " +:+ dec n)) (g, k) in
   g_fgpid r.1 = n /\ lpsched_fgpid (k_lp r.2) = n /\ g_compositor r.1 = g_compositor g) /\
  (0 < n ->
   handle_socket cfg (Some ("input" +:+ " " +:+ dec n)) (g, k) = (set_g_compositor n g, k)).
Proof.
  intros Hn [A1 A2]. unfold handle_socket. rewrite !datagram_fits by (simpl; lia || done). cbv zeta. split.
  - assert (scan_pid "input" ("fgpid" +:+ " " +:+ dec n) = None) as -> by done.
    rewrite scan_pid_dec by done. cbn [mbind option_bind].
    destruct (Z.ltb_spec n 0); [lia|]. destruct (Z.eqb_spec n (g_fgpid g)) as [->|]; cbn [negb fst snd].
    + done.
    + by rewrite set_fgpid.
  - intros H0. rewrite scan_pid_dec by done. cbn [mbind option_bind]. by destruct (Z.ltb_spec 0 n); [|lia].
Qed.

End datagrams.

(** ** Busy fractions *)

Section busy.
Context {F : Float} {FO : FloatOk F}.

#[local] Instance rnd_proper : Proper (Qeq ==> Qeq) rnd.
Proof.
  intros x y E. apply Qle_antisym; apply (@rnd_mono F FO); rewrite E; apply Qle_refl.
Qed.

Lemma rnd_Z n : 0 <= n <= 2 ^ 53 -> (rnd (inject_Z n) == inject_Z n)%Q.
Proof. intros H. apply (@rnd_int F FO). lia. Qed.

Lemma rnd_unit x : (0 <= x <= 1)%Q -> (0 <= rnd x <= 1)%Q.
Proof.
  intros [H1 H2]. apply (@rnd_mono F FO) in H1, H2.
  rewrite (rnd_Z 0) in H1 by lia. rewrite (rnd_Z 1) in H2 by lia. done.
Qed.

(** [1.0 - x], rounded. *)
Definition busy_of (x : Q) : Q := rnd (1 - rnd x).

Lemma busy_of_unit x : (0 <= x <= 1)%Q -> (0 <= busy_of x <= 1)%Q.
Proof. intros H. apply rnd_unit in H. apply rnd_unit. lra. Qed.

Lemma busy_of_anti x y : (x <= y)%Q -> (busy_of y <= busy_of x)%Q.
Proof. intros H. apply (@rnd_mono F FO) in H. apply (@rnd_mono F FO). lra. Qed.

#[local] Instance busy_of_proper : Proper (Qeq ==> Qeq) busy_of.
Proof. intros x y E. unfold busy_of. by rewrite E. Qed.

Lemma frac_of_busy d t : 0 <= d <= 2 ^ 53 -> 0 <= t <= 2 ^ 53 ->
  (frac_of d t == busy_of (inject_Z d / inject_Z t))%Q.
Proof. intros Hd Ht. unfold frac_of, busy_of. by rewrite (rnd_Z d), (rnd_Z t) by done. Qed.

Lemma inject_lt a b : a < b -> (inject_Z a < inject_Z b)%Q.
Proof. unfold Qlt. simpl. lia. Qed.

Lemma inject_le a b : a <= b -> (inject_Z a <= inject_Z b)%Q.
Proof. unfold Qle. simpl. lia. Qed.

Lemma Qdiv_le a b c d : 0 < b -> 0 < d -> a * d <= c * b ->
  (inject_Z a / inject_Z b <= inject_Z c / inject_Z d)%Q.
Proof.
  intros Hb Hd H. apply Qle_shift_div_l; [by apply (inject_lt 0)|].
  assert (inject_Z a / inject_Z b * inject_Z d == inject_Z (a * d) / inject_Z b)%Q as ->.
  { rewrite inject_Z_mult. field. intros E. apply (inject_Z_injective b 0) in E. lia. }
  apply Qle_shift_div_r; [by apply (inject_lt 0)|]. rewrite <-inject_Z_mult. by apply (inject_le (a * d)).
Qed.

Lemma Qdiv_unit a b : 0 <= a <= b -> 0 < b -> (0 <= inject_Z a / inject_Z b <= 1)%Q.
Proof.
  intros Ha Hb. split.
  - apply Qle_shift_div_l; [by apply (inject_lt 0)|]. rewrite Qmult_0_l. apply (inject_le 0). lia.
  - apply Qle_shift_div_r; [by apply (inject_lt 0)|]. rewrite Qmult_1_l. apply (inject_le a). lia.
Qed.

Lemma qmax_ge x y : (x <= qmax x y)%Q /\ (y <= qmax x y)%Q.
Proof.
  unfold qmax. destruct (qlt x y) eqn:E; [apply qlt_spec in E|apply qlt_false in E]; lra.
Qed.

Lemma qmax_unit x y : (0 <= x <= 1)%Q -> (0 <= y <= 1)%Q -> (0 <= qmax x y <= 1)%Q.
Proof. intros. unfold qmax. by destruct (qlt x y). Qed.

(** The loop over the CPUs. *)
Lemma measure_loop dt ds : 0 < dt <= 2 ^ 53 -> Forall (fun d => 0 <= d <= dt) ds ->
  forall s0 m0, 0 <= s0 -> s0 + Z.of_nat (length ds) * dt <= 2 ^ 53 -> (0 <= m0 <= 1)%Q ->
  let r := fold_left (fun a d => (u64 (a.1 + d), qmax a.2 (frac_of d dt))) ds (s0, m0) in
  r.1 = fold_left Z.add ds s0 /\ (0 <= r.2 <= 1)%Q /\ (m0 <= r.2)%Q /\
  Forall (fun d => (frac_of d dt <= r.2)%Q) ds.
Proof.
  intros Hdt. induction 1 as [|d ds Hd Hds IH]; intros s0 m0 Hs0 Hb Hm0; cbv zeta.
  { split; [done|]. split; [done|]. split; [apply Qle_refl|constructor]. }
  cbn [fold_left fst snd]. rewrite Nat2Z.inj_succ in Hb || (cbn [length] in Hb; rewrite Nat2Z.inj_succ in Hb).
  assert (0 <= Z.of_nat (length ds) * dt) by nia.
  rewrite u64_id by (unfold in_u64; nia).
  assert (0 <= frac_of d dt <= 1)%Q as Hf.
  { rewrite frac_of_busy by lia. apply busy_of_unit, Qdiv_unit; lia. }
  destruct (IH (s0 + d) (qmax m0 (frac_of d dt))) as (I1 & I2 & I3 & I4); [lia|nia|by apply qmax_unit|].
  destruct (qmax_ge m0 (frac_of d dt)). split; [done|]. split; [done|]. split; [lra|].
  constructor; [lra|done].
Qed.

(** Some CPU was idle no longer than the average. *)
Lemma sum_min ds s : ds <> [] ->
  exists d, In d ds /\ d * Z.of_nat (length ds) <= fold_left Z.add ds s - s.
Proof.
  intros H. assert (forall ds s, fold_left Z.add ds s = s + fold_left Z.add ds 0) as Hs.
  { clear. induction ds as [|d ds IH]; intros s; cbn [fold_left]; [lia|].
    rewrite IH, (IH (0 + d)). lia. }
  revert s. induction ds as [|d ds IH]; [done|]. intros s. destruct ds as [|e ds].
  { exists d. simpl. split; [by left|lia]. }
  destruct (IH ltac:(done) 0) as (m & Hm & Hle). cbn [fold_left] in *. rewrite Hs in *.
  cbn [length] in *. destruct (Z.le_gt_cases d m).
  - exists d. split; [by left|]. nia.
  - exists m. split; [by right|]. nia.
Qed.

Lemma sum_bounds dt ds : Forall (fun d => 0 <= d <= dt) ds -> forall s,
  s <= fold_left Z.add ds s <= s + Z.of_nat (length ds) * dt.
Proof.
  induction 1 as [|d ds Hd _ IH]; intros s; cbn [fold_left length]; [lia|]. specialize (IH (s + d)). nia.
Qed.

Lemma idle_delta_range dt cur last : 0 <= dt -> 0 <= idle_delta dt cur last <= dt.
Proof. intros H. unfold idle_delta. destruct (Z.ltb_spec last cur); lia. Qed.

Lemma idle_deltas_range dt cur last : 0 <= dt ->
  Forall (fun d => 0 <= d <= dt) (zip_with (idle_delta dt) cur last).
Proof.
  intros H. revert last. induction cur as [|c cur IH]; intros [|l last]; simpl; constructor; auto.
  by apply idle_delta_range.
Qed.

(** For any rounding of doubles that is monotone and exact on integers up to 2^53, the
    measured busy fractions satisfy 0 <= mean <= busiest CPU <= 1. *)
Theorem gov_busy_fractions (cfg : gcfg) t0 idle0 t idle s :
  (0 < ncpu cfg)%nat -> length idle = ncpu cfg -> length idle0 = ncpu cfg ->
  bm_last s = Some (t0 :: idle0) -> t0 < t -> (t - t0) * Z.of_nat (ncpu cfg) <= 2 ^ 53 ->
  exists b mx,
    cpu_busy_measured cfg false (Some (t :: idle)) s = (Some (b, mx), set_bm_last (Some (t :: idle)) s) /\
    (0 <= b)%Q /\ (b <= mx)%Q /\ (mx <= 1)%Q.
Proof.
  intros Hn Hl Hl0 Hlast Ht Hmax. unfold cpu_busy_measured. rewrite Hlast.
  destruct (Z.ltb_spec t0 t); [|lia]. cbv zeta. set (dt := t - t0) in *. unfold measure.
  set (ds := zip_with (idle_delta dt) idle idle0).
  assert (length ds = ncpu cfg) as Hds by (unfold ds; rewrite length_zip_with; lia).
  assert (0 < dt) by lia. set (n := Z.of_nat (ncpu cfg)) in *. assert (1 <= n) by lia.
  assert (dt <= 2 ^ 53) by nia.
  assert (Forall (fun d => 0 <= d <= dt) ds) as Hr by (apply idle_deltas_range; lia).
  destruct (measure_loop dt ds ltac:(lia) Hr 0 0%Q) as (M1 & M2 & _ & M4); [lia|rewrite Hds; lia|lra|].
  destruct (fold_left _ ds (0, 0%Q)) as [sum mx]. cbn [fst snd] in *.
  pose proof (sum_bounds dt ds Hr 0) as Hsum. rewrite <-M1, Hds in Hsum. fold n in Hsum.
  eexists _, _. split; [reflexivity|].
  assert (forall y, (y == busy_of (inject_Z sum / inject_Z (dt * n)))%Q ->
    (0 <= y)%Q /\ (y <= mx)%Q /\ (mx <= 1)%Q) as Hgoal.
  { intros y ->. destruct (sum_min ds 0) as (d & Hin & Hd).
    { intros E. rewrite E in Hds. simpl in Hds. lia. }
    rewrite <-M1, Hds in Hd. fold n in Hd. rewrite List.Forall_forall in Hr, M4.
    specialize (Hr d Hin). specialize (M4 d Hin). rewrite frac_of_busy in M4 by lia.
    pose proof (busy_of_unit _ (Qdiv_unit sum (dt * n) ltac:(lia) ltac:(nia))) as Hu.
    pose proof (busy_of_anti _ _ (Qdiv_le d dt sum (dt * n) ltac:(lia) ltac:(nia) ltac:(nia))) as Ha.
    split; [lra|]. split; lra. }
  apply Hgoal. unfold busy_of. rewrite !rnd_Z by lia. rewrite <-inject_Z_mult. fold n.
  by rewrite (rnd_Z (dt * n)) by nia.
Qed.

End busy.

(** * The governor on a concrete laptop

    Two CPUs, limits of 15 W and 40 W in steps of 1/8 W, and the theorems of
    the governor applied to it. *)
Local Open Scope Z_scope.

(** -P 10000 -Q 20000, and what main finds. *)
Definition cfg0 : gcfg :=
  mk_gcfg 10000 1000 (25 # 100) (15 # 100) (85 # 100) (60 # 100) 1 10000 0 20000 0 false 128.
Definition kern2 : kernel := mk_kernel (lpsched_boot 2) hwp2.
Definition cfg2 : gcfg := (gov_config cfg0 None (Some 2) kern2).1.

Lemma kern2_ready : hw_ready (k_hwp kern2).
Proof. split; [done|done|simpl; lia|simpl; lia]. Qed.

Lemma kern2_pl_ready : pl_ready (k_hwp kern2).
Proof.
  split; [apply kern2_ready|done| |simpl; lia]. eexists. split; [reflexivity|]. vm_compute. reflexivity.
Qed.

(** A turn on battery (or AC), [idle] us of each CPU, at [now] ms. *)
Definition turn_at (ac now : Z) (msg : option string) (idle : list Z) : turn :=
  mk_turn msg false false ac (Some (now * 1000 :: idle)) None (now / 10) now now now.

(** On AC, then the cord is pulled while both CPUs idle, and time passes. *)
Definition day : list gevent :=
  [GTurn (turn_at 1 1000 None [0; 0]); GInput 100;
   GTurn (turn_at 0 2000 (Some "fgpid 42") [1000000; 1000000]);
   GTurn (turn_at 0 3000 None [2000000; 2000000]);
   GTurn (turn_at 0 4000 None [3000000; 3000000])].

Lemma day_ends_saving :
  let r := gov_run cfg2 day (gov_start cfg2 1 busy_init kern2) in
  g_cur r.1 = Some P_POWERSAVE /\ lpsched_fgpid (k_lp r.2) = 42 /\
  lpsched_pack (k_lp r.2) = 2 /\ hwp_epp (k_hwp r.2) = 240 /\
  pl_now false (k_hwp r.2) = 10000 /\ pl_now true (k_hwp r.2) = 20000.
Proof. vm_compute. repeat split. Qed.

Lemma gov_profile_in_force_witness :
  let r := gov_run cfg2 day (gov_start cfg2 1 busy_init kern2) in
  lpsched_enabled (k_lp r.2) = 1 /\
  (lpsched_fgpid (k_lp r.2) = g_fgpid r.1 \/ (g_fgpid r.1 = 0 /\ lpsched_fgpid (k_lp r.2) = lpsched_fgpid (k_lp kern2))) /\
  forall p, g_cur r.1 = Some p -> in_force p r.2.
Proof.
  apply (gov_profile_in_force cfg2 eq_refl day 1 busy_init kern2).
  - apply kern2_ready.
  - repeat constructor; discriminate.
Defined.

(** After a resume that left other requests, half a minute later. *)
Lemma gov_repairs_drift_witness :
  let r := gov_run cfg2 (day ++ [GDrift (fun _ => 0x80002d04)]) (gov_start cfg2 1 busy_init kern2) in
  let r' := gov_turn cfg2 (turn_at 0 40000 None [4000000; 4000000]) r in
  exists p, g_cur r'.1 = Some p /\ in_force p r'.2.
Proof.
  apply (gov_repairs_drift cfg2 eq_refl (day ++ [GDrift (fun _ => 0x80002d04)])
    (turn_at 0 40000 None [4000000; 4000000]) 1 busy_init kern2).
  - apply kern2_ready.
  - reflexivity.
  - vm_compute. discriminate.
Defined.

(** The first turn on battery wants powersave, the next one confirms it. *)
Definition t1 : turn := turn_at 1 1000 None [0; 0].
Definition t2 : turn := turn_at 0 2000 None [1000000; 1000000].
Definition t3 : turn := turn_at 0 3000 None [2000000; 2000000].
Definition gov0 : gov := (gov_start cfg2 1 busy_init kern2).1.
Definition gk1 : gov * kernel := gov_turn cfg2 t1 (gov0, kern2).
Definition gk2 : gov * kernel := gov_turn cfg2 t2 (gk1.1, gk1.2).
Definition hist2 : list entry :=
  [mk_entry t2 (turn_want cfg2 t2 (gk1.1, gk1.2)) (g_cur gk2.1);
   mk_entry t1 (turn_want cfg2 t1 (gov0, kern2)) (g_cur gk1.1)].

Lemma hist2_ok : ghist cfg2 hist2 gk2.1 gk2.2.
Proof. do 2 apply ghist_turn. apply ghist_start. Qed.

Lemma gov_shift_hysteresis_witness :
  let w := turn_want cfg2 t3 (gk2.1, gk2.2) in
  let g' := (gov_turn cfg2 t3 (gk2.1, gk2.2)).1 in
  w = P_POWERSAVE /\ g_cur g' = Some P_POWERSAVE /\
  (prof_num w <= prof_num P_PERF -> g_cur g' = Some w) /\
  (prof_num P_PERF < prof_num w -> g_cur g' = Some P_PERF \/
     g_cur g' = Some w /\
     exists since, waiting P_PERF hist2 since /\ DOWNSHIFT_MS <= u64 (t_now3 t3 - since)).
Proof.
  split; [vm_compute; reflexivity|]. split; [vm_compute; reflexivity|].
  apply (gov_shift_hysteresis cfg2 hist2 gk2.1 gk2.2 t3 P_PERF).
  - apply hist2_ok.
  - vm_compute. reflexivity.
Defined.

Lemma gov_power_limits_witness :
  let k' := apply_pl cfg2 0 kern2 in
  only_limits kern2 k' /\ pl1_on (k_hwp k') = true /\
  Z.abs (pl_now false (k_hwp k') - pl1_want cfg2 0) < 125 /\ pl2_done cfg2 0 kern2 k' /\
  (manages cfg2 true -> pl_now false (k_hwp k') < pl_now true (k_hwp k') + 250 /\
    ((0 = 0 -> pl1_want cfg2 0 <= pl_now true (k_hwp kern2)) ->
     (0 <> 0 -> pl_now false (k_hwp kern2) <= pl1_want cfg2 0) ->
     pl_now false (k_hwp (pl_between cfg2 0 kern2)) < pl_now true (k_hwp (pl_between cfg2 0 kern2)) + 125)).
Proof.
  apply (gov_power_limits cfg2 eq_refl 0 kern2).
  - split; vm_compute; reflexivity.
  - apply kern2_pl_ready.
  - split; vm_compute; discriminate.
  - intros _. split; vm_compute; discriminate.
Defined.

Lemma gov_session_restores_witness :
  let c := gov_config cfg0 None (Some 2) kern2 in
  let k' := cleanup c.1 (gov_run c.1 day (gov_start c.1 1 busy_init c.2)).2 in
  lpsched_enabled (k_lp k') = 0 /\ lpsched_pack (k_lp k') = 0 /\
  lpsched_coalesce_ms (k_lp k') = 0 /\ lpsched_fgpid (k_lp k') = 0 /\
  hwp_epp (k_hwp k') = hwp_epp (k_hwp kern2) /\ requests_hold (hwp_epp (k_hwp kern2)) (k_hwp k') /\
  (0 < pl1_bat cfg0 -> pl_now false (k_hwp k') = hwp_pl1_boot (k_hwp kern2)) /\
  (0 < pl2_bat cfg0 -> pl_now true (k_hwp k') = hwp_pl2_boot (k_hwp kern2)).
Proof.
  apply (gov_session_restores cfg0 eq_refl day 1 busy_init (Some 2) kern2).
  - apply kern2_pl_ready.
  - simpl. lia.
  - reflexivity.
  - split; [simpl; lia|]. exists 120. split; [unfold in_field; lia|vm_compute; reflexivity].
  - split; [simpl; lia|]. exists 320. split; [unfold in_field; lia|vm_compute; reflexivity].
Defined.

Lemma gov_decide_policy_witness :
  let l := [mk_sample 0 (30 # 100) (90 # 100) 2000] in
  let s := mk_sample 0 (20 # 100) (50 # 100) 20000 in
  let p := (decide_run cfg2 (l ++ [s])).1.1 in
  let load := sustained (load_lo cfg2) (load_hi cfg2) (map s_busy (on_battery (l ++ [s]))) in
  let one := sustained (one_lo cfg2) (one_hi cfg2) (map s_max (on_battery (l ++ [s]))) in
  (p = P_PERF <-> s_ac s <> 0) /\
  (p = P_BALANCED <-> s_ac s = 0 /\ s_idle s < boost_ms cfg2) /\
  (p = P_LOAD <-> s_ac s = 0 /\ boost_ms cfg2 <= s_idle s < interactive_ms cfg2 /\ (load \/ one)) /\
  (p = P_BATCH <-> s_ac s = 0 /\ boost_ms cfg2 <= s_idle s /\ interactive_ms cfg2 <= s_idle s /\ load).
Proof.
  apply (gov_decide_policy cfg2 [mk_sample 0 (30 # 100) (90 # 100) 2000]
    (mk_sample 0 (20 # 100) (50 # 100) 20000)); vm_compute; discriminate.
Defined.

Lemma gov_datagrams_witness :
  (let r := handle_socket cfg2 (Some ("fgpid" +:+ " " +:+ dec 1234)%string) (gov0, kern2) in
   g_fgpid r.1 = 1234 /\ lpsched_fgpid (k_lp r.2) = 1234 /\ g_compositor r.1 = g_compositor gov0) /\
  (0 < 1234 ->
   handle_socket cfg2 (Some ("input" +:+ " " +:+ dec 1234)%string) (gov0, kern2) =
     (set_g_compositor 1234 gov0, kern2)).
Proof.
  apply (gov_datagrams cfg2 eq_refl 1234 gov0 kern2).
  - unfold INT_MAX. lia.
  - split; [reflexivity|]. unfold INT_MAX. simpl. lia.
Defined.

Lemma gov_busy_fractions_witness :
  let s := mk_busy_st (Some [1000; 0; 0]) None true true in
  exists b mx,
    cpu_busy_measured cfg2 false (Some [3000; 500; 2000]) s =
      (Some (b, mx), set_bm_last (Some [3000; 500; 2000]) s) /\
    (0 <= b)%Q /\ (b <= mx)%Q /\ (mx <= 1)%Q.
Proof.
  apply (gov_busy_fractions cfg2 1000 [0; 0] 3000 [500; 2000] (mk_busy_st (Some [1000; 0; 0]) None true true)).
  - vm_compute. lia.
  - reflexivity.
  - reflexivity.
  - reflexivity.
  - lia.
  - vm_compute. discriminate.
Defined.

(** With equal wants PL2 can end an eighth of a watt below PL1: the tolerance
    leaves PL1 at its boot value while PL2 is written. *)
Definition hwp_tight : hwp :=
  set_h_power_limit (Some (Z.lor (Z.shiftl 320 32) (81 + 2 ^ 15)))
    (set_hwp_pl1_boot 10125 hwp2).

Lemma pl2_can_end_below_pl1 :
  let c := gov_config (mk_gcfg 10000 1000 (25 # 100) (15 # 100) (85 # 100) (60 # 100) 1
    10060 0 10060 0 false 128) None (Some 2) (mk_kernel (lpsched_boot 2) hwp_tight) in
  let k' := apply_pl c.1 0 c.2 in
  pl_now false (k_hwp k') = 10125 /\ pl_now true (k_hwp k') = 10000.
Proof. vm_compute. split; reflexivity. Qed.

(** A kernel that an earlier daemon left with a foreground process: the new one does
    not know of it and never clears it. *)
Example gov_stale_fgpid :
  let k := set_k_lp (set_lpsched_fgpid 77 (k_lp kern2)) kern2 in
  let r := gov_run cfg2 [GTurn (turn_at 0 1000 (Some "fgpid 0"%string) [0; 0])] (gov_start cfg2 1 busy_init k) in
  g_fgpid r.1 = 0 /\ lpsched_fgpid (k_lp r.2) = 77.
Proof. vm_compute. done. Qed.
