(* ===== verification/Mount.v ===== *)
(** * Mounts, their holds and the mount list

    The parts of kernel/kern/vfs_mount.c that the all-mount barrier stands on:
    references and busy holds of a mount, the mount list with its iterators,
    and the admission gate of kernel/kern/vfs_s2idle.c that mount, unmount and
    mountroot pass.  fstrans, the file systems' own operations, mutexes and the
    allocator are outside: a call to them is recorded, and what it answers is a
    parameter that may depend on all calls before it. *)

From stdpp Require Import base numbers list.
From S2P Require Import Prelude Sysctl.

(** ** Calls that leave this code *)

Inductive suspendctl := SUSPEND_SUSPEND | SUSPEND_RESUME.

Inductive call :=
  | C_fstrans_start (mp : nat)
  | C_fstrans_start_nowait (mp : nat)
  | C_fstrans_done (mp : nat)
  | C_mount_free (mp : nat)                          (* the end of vfs_rele *)
  | C_mutex_tryenter (m : nat)
  | C_mutex_exit (m : nat)
  | C_vfs_suspend (mp : nat)                         (* vfs_suspend(mp, 1) *)
  | C_vfs_resume (mp : nat)
  | C_suspendctl (mp : nat) (cmd : suspendctl)
  | C_sync (mp : nat) (flag : Z)                     (* with mnt_flag as it is then *)
  | C_kmem_alloc (bytes : Z)
  | C_kmem_free (bytes : Z).

(** The answer: an error, or for [mutex_tryenter] whether it was taken. *)
Class Outside := answer : list (call * Z) -> call -> Z.

(** ** State *)

Record mount := mk_mount {
  mnt_refcnt : Z;
  mnt_gone : bool;  (* IMNT_GONE *)
  mnt_lower : option nat;
  mnt_updating : option nat;
  mnt_flag : Z
}.

Definition set_mnt_refcnt (v : Z) (r : mount) : mount :=
  mk_mount v (mnt_gone r) (mnt_lower r) (mnt_updating r) (mnt_flag r).
Definition set_mnt_gone (v : bool) (r : mount) : mount :=
  mk_mount (mnt_refcnt r) v (mnt_lower r) (mnt_updating r) (mnt_flag r).
Definition set_mnt_flag (v : Z) (r : mount) : mount :=
  mk_mount (mnt_refcnt r) (mnt_gone r) (mnt_lower r) (mnt_updating r) v.

(** An entry of the mount list; a marker belongs to an iterator. *)
Inductive mountlist_entry := ME_MOUNT (mp : nat) | ME_MARKER (id : nat).

#[export] Instance mountlist_entry_eq_dec : EqDecision mountlist_entry.
Proof. solve_decision. Defined.

Record vfs := mk_vfs {
  v_mounts : list mount;
  mountlist : list mountlist_entry;
  vfs_s2idle_ready : bool;
  vfs_s2idle_mountops : Z;
  vfs_s2idle_owner : option nat;
  v_calls : list (call * Z);  (* latest first *)
  v_asserts : bool  (* every KASSERT so far held *)
}.

Definition set_v_mounts (v : list mount) (r : vfs) : vfs :=
  mk_vfs v (mountlist r) (vfs_s2idle_ready r) (vfs_s2idle_mountops r)
    (vfs_s2idle_owner r) (v_calls r) (v_asserts r).
Definition set_mountlist (v : list mountlist_entry) (r : vfs) : vfs :=
  mk_vfs (v_mounts r) v (vfs_s2idle_ready r) (vfs_s2idle_mountops r)
    (vfs_s2idle_owner r) (v_calls r) (v_asserts r).
Definition set_vfs_s2idle_ready (v : bool) (r : vfs) : vfs :=
  mk_vfs (v_mounts r) (mountlist r) v (vfs_s2idle_mountops r)
    (vfs_s2idle_owner r) (v_calls r) (v_asserts r).
Definition set_vfs_s2idle_mountops (v : Z) (r : vfs) : vfs :=
  mk_vfs (v_mounts r) (mountlist r) (vfs_s2idle_ready r) v (vfs_s2idle_owner
    r) (v_calls r) (v_asserts r).
Definition set_vfs_s2idle_owner (v : option nat) (r : vfs) : vfs :=
  mk_vfs (v_mounts r) (mountlist r) (vfs_s2idle_ready r) (vfs_s2idle_mountops
    r) v (v_calls r) (v_asserts r).
Definition set_v_calls (v : list (call * Z)) (r : vfs) : vfs :=
  mk_vfs (v_mounts r) (mountlist r) (vfs_s2idle_ready r) (vfs_s2idle_mountops
    r) (vfs_s2idle_owner r) v (v_asserts r).
Definition set_v_asserts (v : bool) (r : vfs) : vfs :=
  mk_vfs (v_mounts r) (mountlist r) (vfs_s2idle_ready r) (vfs_s2idle_mountops
    r) (vfs_s2idle_owner r) (v_calls r) v.

Definition KASSERT (b : bool) (s : vfs) : vfs := set_v_asserts (v_asserts s && b) s.

(** [mp->f = ...] *)
Definition on_mount (mp : nat) (f : mount -> mount) (s : vfs) : vfs :=
  set_v_mounts (alter f mp (v_mounts s)) s.

#[export] Instance mount_inhabited : Inhabited mount := populate (mk_mount 0 false None None 0).

Definition get_mount (s : vfs) (mp : nat) : mount := v_mounts s !!! mp.

Definition MNT_ASYNC : Z := 0x40.
Definition SIZE_MAX : Z := 2 ^ 64 - 1.

Section mounts.
Context `{EX : Outside}.

Definition ext (c : call) (s : vfs) : Z * vfs :=
  let a := answer (v_calls s) c in (a, set_v_calls ((c, a) :: v_calls s) s).

Definition ext_ (c : call) (s : vfs) : vfs := (ext c s).2.

(** ** References and busy holds *)

Definition vfs_ref (mp : nat) (s : vfs) : vfs :=
  on_mount mp (fun m => set_mnt_refcnt (u32 (mnt_refcnt m + 1)) m) s.

Definition vfs_rele (mp : nat) (s : vfs) : vfs :=
  let s := on_mount mp (fun m => set_mnt_refcnt (u32 (mnt_refcnt m - 1)) m) s in
  let nv := mnt_refcnt (get_mount s mp) in
  if 0 <? i32 nv then s
  else ext_ (C_mount_free mp) (KASSERT (nv =? 0) s).

Definition _vfs_busy (mp : nat) (wait : bool) (s : vfs) : Z * vfs :=
  let s := KASSERT (0 <? mnt_refcnt (get_mount s mp)) s in
  let '(e, s) := if wait then (0, ext_ (C_fstrans_start mp) s)
                 else ext (C_fstrans_start_nowait mp) s in
  if nz e then (EBUSY, s)
  else if mnt_gone (get_mount s mp) then (ENOENT, ext_ (C_fstrans_done mp) s)
  else (0, vfs_ref mp s).

Definition vfs_busy (mp : nat) (s : vfs) : Z * vfs := _vfs_busy mp true s.
Definition vfs_trybusy (mp : nat) (s : vfs) : Z * vfs := _vfs_busy mp false s.

Definition vfs_unbusy (mp : nat) (s : vfs) : vfs :=
  let s := KASSERT (0 <? mnt_refcnt (get_mount s mp)) s in
  vfs_rele mp (ext_ (C_fstrans_done mp) s).

(** ** The mount list *)

(** [TAILQ_NEXT], [TAILQ_REMOVE] and [TAILQ_INSERT_AFTER] on entries. *)
Fixpoint tailq_next (x : mountlist_entry) (l : list mountlist_entry) : option mountlist_entry :=
  match l with
  | [] => None
  | y :: l => if bool_decide (y = x) then head l else tailq_next x l
  end.

Fixpoint tailq_remove (x : mountlist_entry) (l : list mountlist_entry) : list mountlist_entry :=
  match l with
  | [] => []
  | y :: l => if bool_decide (y = x) then l else y :: tailq_remove x l
  end.

Fixpoint tailq_insert_after (y x : mountlist_entry) (l : list mountlist_entry) : list mountlist_entry :=
  match l with
  | [] => []
  | z :: l => if bool_decide (z = y) then z :: x :: l else z :: tailq_insert_after y x l
  end.

(** The address of a new marker: one that is not in the list. *)
Definition marker_id (e : mountlist_entry) : nat :=
  match e with ME_MARKER i => i | ME_MOUNT _ => O end.
Definition mountlist_alloc_marker (l : list mountlist_entry) : nat := S (list_max (map marker_id l)).

(** An iterator: its marker and the mount it holds. *)
Record mount_iterator := mk_iter {
  mi_marker : nat;
  me_mount : option nat
}.

Definition set_me_mount (v : option nat) (r : mount_iterator) : mount_iterator :=
  mk_iter (mi_marker r) v.

Definition mountlist_iterator_init (s : vfs) : mount_iterator * vfs :=
  let id := mountlist_alloc_marker (mountlist s) in
  (mk_iter id None, set_mountlist (ME_MARKER id :: mountlist s) s).

Definition mountlist_iterator_destroy (it : mount_iterator) (s : vfs) : vfs :=
  let s := match me_mount it with Some mp => vfs_unbusy mp s | None => s end in
  set_mountlist (tailq_remove (ME_MARKER (mi_marker it)) (mountlist s)) s.

(** The search for the next mount; one turn per list entry passed. *)
Fixpoint iterator_loop (fuel : nat) (wait : bool) (id : nat) (skipped : bool) (s : vfs) :
    option nat * bool * vfs :=
  match fuel with
  | O => (None, skipped, s)
  | S fuel =>
      match tailq_next (ME_MARKER id) (mountlist s) with
      | None => (None, skipped, s)
      | Some me =>
          let s := set_mountlist (tailq_insert_after me (ME_MARKER id)
                     (tailq_remove (ME_MARKER id) (mountlist s))) s in
          match me with
          | ME_MARKER _ => iterator_loop fuel wait id skipped s
          | ME_MOUNT mp =>
              let s := vfs_ref mp s in
              let '(error, s) := if wait then vfs_busy mp s else vfs_trybusy mp s in
              let s := vfs_rele mp s in
              if error =? 0 then (Some mp, skipped, s)
              else iterator_loop fuel wait id true s
          end
      end
  end.

(** The next mount, whether one was passed over, and the iterator after it. *)
Definition _mountlist_iterator_next (wait : bool) (it : mount_iterator) (s : vfs) :
    option nat * bool * mount_iterator * vfs :=
  let s := match me_mount it with Some mp => vfs_unbusy mp s | None => s end in
  let '(mp, skipped, s) := iterator_loop (S (length (mountlist s))) wait (mi_marker it) false s in
  (mp, skipped, mk_iter (mi_marker it) mp, s).

Definition mountlist_iterator_next (it : mount_iterator) (s : vfs) :
    option nat * mount_iterator * vfs :=
  let '(mp, _, it, s) := _mountlist_iterator_next true it s in (mp, it, s).
Definition mountlist_iterator_trynext (it : mount_iterator) (s : vfs) :
    option nat * mount_iterator * vfs :=
  let '(mp, _, it, s) := _mountlist_iterator_next false it s in (mp, it, s).
Definition mountlist_iterator_trynext_ex (it : mount_iterator) (s : vfs) :
    option nat * bool * mount_iterator * vfs := _mountlist_iterator_next false it s.

Definition mountlist_append (mp : nat) (s : vfs) : vfs :=
  set_mountlist (mountlist s ++ [ME_MOUNT mp]) s.
Definition mountlist_remove (mp : nat) (s : vfs) : vfs :=
  set_mountlist (tailq_remove (ME_MOUNT mp) (mountlist s))
    (KASSERT (bool_decide (ME_MOUNT mp ∈ mountlist s)) s).

(** ** The admission gate *)

Definition vfs_s2idle_init (s : vfs) : vfs :=
  set_vfs_s2idle_ready true (KASSERT (negb (vfs_s2idle_ready s)) s).

Definition vfs_s2idle_mount_enter (s : vfs) : Z * vfs :=
  if negb (vfs_s2idle_ready s) then (ENXIO, s)
  else if bool_decide (vfs_s2idle_owner s <> None) || (vfs_s2idle_mountops s =? SIZE_MAX)
  then (EBUSY, s)
  else (0, set_vfs_s2idle_mountops (vfs_s2idle_mountops s + 1) s).

Definition vfs_s2idle_mount_exit (s : vfs) : vfs :=
  let s := KASSERT (bool_decide (vfs_s2idle_owner s = None)) s in
  let s := KASSERT (nz (vfs_s2idle_mountops s)) s in
  set_vfs_s2idle_mountops (u64 (vfs_s2idle_mountops s - 1)) s.

Definition vfs_s2idle_barrier_enter (curlwp : nat) (s : vfs) : Z * vfs :=
  if negb (vfs_s2idle_ready s) then (ENXIO, s)
  else if bool_decide (vfs_s2idle_owner s <> None) || nz (vfs_s2idle_mountops s)
  then (EBUSY, s)
  else (0, set_vfs_s2idle_owner (Some curlwp) s).

Definition vfs_s2idle_barrier_exit (curlwp : nat) (s : vfs) : vfs :=
  let s := KASSERT (bool_decide (vfs_s2idle_owner s = Some curlwp)) s in
  let s := KASSERT (vfs_s2idle_mountops s =? 0) s in
  set_vfs_s2idle_owner None s.

(** dounmount and vfs_mountroot around their inner routines; mount_domount
    also drops the vfsops reference when refused. *)
Definition mount_gated (inner : vfs -> Z * vfs) (s : vfs) : Z * vfs :=
  let '(error, s) := vfs_s2idle_mount_enter s in
  if nz error then (error, s)
  else let '(error, s) := inner s in (error, vfs_s2idle_mount_exit s).

End mounts.
