(* ===== verification/MountFacts.v ===== *)
(** * What the mount code holds

    The resources behind the recorded calls, and the effect of an operation on
    references and resources as a pair of differences that add up along a run. *)

From stdpp Require Import base numbers list sets.
From S2P Require Import Prelude Sysctl Mount.

(** ** Resources *)

Inductive res := RTrans (mp : nat) | RMutex (m : nat) | RSusp (mp : nat) | RGlobal | RMem (bytes : Z).

#[export] Instance res_eq_dec : EqDecision res.
Proof. solve_decision. Defined.

Definition ind {A} `{EqDecision A} (x y : A) : Z := if decide (x = y) then 1 else 0.

(** What a call with its answer takes (1) or gives back (-1). *)
Definition delta (e : call * Z) (r : res) : Z :=
  match e with
  | (C_fstrans_start mp, _) => ind (RTrans mp) r
  | (C_fstrans_start_nowait mp, a) => if a =? 0 then ind (RTrans mp) r else 0
  | (C_fstrans_done mp, _) => - ind (RTrans mp) r
  | (C_mutex_tryenter m, a) => if a =? 0 then 0 else ind (RMutex m) r
  | (C_mutex_exit m, _) => - ind (RMutex m) r
  | (C_vfs_suspend mp, a) => if a =? 0 then ind (RSusp mp) r + ind RGlobal r else 0
  | (C_vfs_resume mp, _) => - ind (RSusp mp) r - ind RGlobal r
  | (C_suspendctl mp SUSPEND_SUSPEND, a) => if a =? 0 then ind (RSusp mp) r else 0
  | (C_suspendctl mp SUSPEND_RESUME, _) => - ind (RSusp mp) r
  | (C_sync _ _, _) => 0
  | (C_mount_free _, _) => 0
  | (C_kmem_alloc n, _) => ind (RMem n) r
  | (C_kmem_free n, _) => - ind (RMem n) r
  end.

Definition held (tr : list (call * Z)) (r : res) : Z := zsum (map (fun e => delta e r) tr).

Lemma held_cons e tr r : held (e :: tr) r = delta e r + held tr r.
Proof. done. Qed.

(** The list without one iterator's marker. *)
Definition base (id : nat) (l : list mountlist_entry) : list mountlist_entry :=
  filter (fun e => e <> ME_MARKER id) l.

(** ** Effects *)

Record eff (id : nat) (c : nat -> Z) (h : res -> Z) (s s' : vfs) : Prop := {
  ef_mounts : forall i, v_mounts s' !! i =
    (fun m => set_mnt_refcnt (mnt_refcnt m + c i) m) <$> v_mounts s !! i;
  ef_held : forall r, held (v_calls s') r = held (v_calls s) r + h r;
  ef_list : base id (mountlist s') = base id (mountlist s);
  ef_ready : vfs_s2idle_ready s' = vfs_s2idle_ready s;
  ef_ops : vfs_s2idle_mountops s' = vfs_s2idle_mountops s;
  ef_owner : vfs_s2idle_owner s' = vfs_s2idle_owner s;
  ef_ok : v_asserts s' = v_asserts s
}.

Lemma set_refcnt_same m : set_mnt_refcnt (mnt_refcnt m + 0) m = m.
Proof. destruct m. unfold set_mnt_refcnt. simpl. by rewrite Z.add_0_r. Qed.

Lemma fmap_same {A} (f : A -> A) (o : option A) : (forall x, f x = x) -> f <$> o = o.
Proof. intros H. destruct o; simpl; [by rewrite H|done]. Qed.

Section effects.
Context (id : nat).

Lemma eff_refl s : eff id (fun _ => 0) (fun _ => 0) s s.
Proof.
  split; try done.
  - intros i. symmetry. apply fmap_same, set_refcnt_same.
  - intros r. cbv beta. lia.
Qed.

Lemma eff_trans c h c' h' s1 s2 s3 : eff id c h s1 s2 -> eff id c' h' s2 s3 ->
  eff id (fun i => c i + c' i) (fun r => h r + h' r) s1 s3.
Proof.
  intros [A1 A2 A3 A4 A5 A6 A7] [B1 B2 B3 B4 B5 B6 B7]. split; try congruence.
  - intros i. rewrite B1, A1. destruct (v_mounts s1 !! i) as [m|]; simpl; [|done].
    f_equal. unfold set_mnt_refcnt. simpl. f_equal. lia.
  - intros r. rewrite B2, A2. lia.
Qed.

Lemma eff_eq c h c' h' s s' : eff id c h s s' -> (forall i, c i = c' i) -> (forall r, h r = h' r) ->
  eff id c' h' s s'.
Proof.
  intros [A1 A2 A3 A4 A5 A6 A7] Hc Hh. split; try done.
  - intros i. by rewrite A1, Hc.
  - intros r. by rewrite A2, Hh.
Qed.

(** Along a step, with the differences restated. *)
Lemma eff_step c h c' h' c'' h'' s1 s2 s3 : eff id c h s1 s2 -> eff id c' h' s2 s3 ->
  (forall i, c i + c' i = c'' i) -> (forall r, h r + h' r = h'' r) -> eff id c'' h'' s1 s3.
Proof. intros A B Hc Hh. eapply eff_eq; [by eapply eff_trans| |]; done. Qed.

(** Mounts exist or not as before, and only the reference counts differ. *)
Lemma eff_lookup c h s s' i m : eff id c h s s' -> v_mounts s !! i = Some m ->
  v_mounts s' !! i = Some (set_mnt_refcnt (mnt_refcnt m + c i) m).
Proof. intros E H. by rewrite (ef_mounts _ _ _ _ _ E), H. Qed.

Lemma eff_length c h s s' : eff id c h s s' -> length (v_mounts s') = length (v_mounts s).
Proof.
  intros E. pose proof (ef_mounts _ _ _ _ _ E) as H.
  assert (forall i, is_Some (v_mounts s' !! i) <-> is_Some (v_mounts s !! i)) as Hs.
  { intros i. by rewrite H, fmap_is_Some. }
  apply Nat.le_antisymm.
  - destruct (decide (length (v_mounts s') <= length (v_mounts s))%nat); [done|].
    assert (is_Some (v_mounts s' !! length (v_mounts s))) as H1 by (apply lookup_lt_is_Some; lia).
    apply Hs, lookup_lt_is_Some in H1. lia.
  - destruct (decide (length (v_mounts s) <= length (v_mounts s'))%nat); [done|].
    assert (is_Some (v_mounts s !! length (v_mounts s'))) as H1 by (apply lookup_lt_is_Some; lia).
    apply Hs, lookup_lt_is_Some in H1. lia.
Qed.

Lemma eff_get c h s s' i : eff id c h s s' ->
  mnt_lower (get_mount s' i) = mnt_lower (get_mount s i) /\
  mnt_updating (get_mount s' i) = mnt_updating (get_mount s i) /\
  mnt_flag (get_mount s' i) = mnt_flag (get_mount s i) /\
  mnt_gone (get_mount s' i) = mnt_gone (get_mount s i).
Proof.
  intros E. unfold get_mount. rewrite !list_lookup_total_alt, (ef_mounts _ _ _ _ _ E).
  by destruct (v_mounts s !! i).
Qed.

(** ** Room for references *)

(** Each mount has its own reference and [c] more, and [n] can still be taken. *)
Definition rooms (c : nat -> Z) (n : Z) (s : vfs) : Prop :=
  forall i m, v_mounts s !! i = Some m -> 1 + c i <= mnt_refcnt m /\ mnt_refcnt m + n < 2 ^ 31.

Lemma rooms_eff c n d h b s s' : eff id d h s s' -> rooms c n s -> (forall i, d i <= b) ->
  rooms (fun i => c i + d i) (n - b) s'.
Proof.
  intros E R Hb i m Hm. rewrite (ef_mounts _ _ _ _ _ E) in Hm.
  destruct (v_mounts s !! i) as [m0|] eqn:E0; [|done]. injection Hm as <-. simpl.
  specialize (R i m0 E0). specialize (Hb i). lia.
Qed.

Lemma rooms_weaken c n c' n' s : rooms c n s -> (forall i, c' i <= c i) -> n' <= n -> rooms c' n' s.
Proof. intros R Hc Hn i m Hm. specialize (R i m Hm). specialize (Hc i). lia. Qed.

Lemma ind_range {A} `{EqDecision A} (x y : A) : 0 <= ind x y <= 1.
Proof. unfold ind. case_decide; lia. Qed.

Lemma ind_same {A} `{EqDecision A} (x : A) : ind x x = 1.
Proof. unfold ind. by rewrite decide_True. Qed.

Section ops.
Context `{EX : Outside}.

Lemma ext_eff c s : eff id (fun _ => 0) (delta (c, answer (v_calls s) c)) s (ext_ c s).
Proof.
  pose proof (eff_refl s) as [A1 A2 A3 A4 A5 A6 A7]. split; try done.
  intros r. unfold ext_, ext. cbn [snd v_calls set_v_calls]. rewrite held_cons. lia.
Qed.

Lemma on_mount_refcnt mp d s m : v_mounts s !! mp = Some m ->
  (forall m0, v_mounts s !! mp = Some m0 -> 0 <= mnt_refcnt m0 + d < 2 ^ 32) ->
  eff id (fun i => d * ind mp i) (fun _ => 0) s
    (on_mount mp (fun m => set_mnt_refcnt (u32 (mnt_refcnt m + d)) m) s).
Proof.
  intros Hm Hr. split; try done; [|intros r; unfold on_mount; cbn [v_calls set_v_mounts]; lia].
  intros i. unfold on_mount. cbn [v_mounts set_v_mounts]. unfold ind.
  destruct (decide (mp = i)) as [->|N].
  - rewrite list_lookup_alter_eq, Hm. simpl. f_equal. f_equal. rewrite Z.mul_1_r.
    apply u32_id. by apply Hr.
  - rewrite list_lookup_alter_ne by done. rewrite Z.mul_0_r. symmetry. apply fmap_same, set_refcnt_same.
Qed.

Lemma KASSERT_true b s : b = true -> eff id (fun _ => 0) (fun _ => 0) s (KASSERT b s).
Proof.
  intros ->. pose proof (eff_refl s) as [A1 A2 A3 A4 A5 A6 A7].
  split; try done. unfold KASSERT. cbn. apply andb_true_r.
Qed.

Lemma get_mount_Some s mp m : v_mounts s !! mp = Some m -> get_mount s mp = m.
Proof. intros H. unfold get_mount. by apply list_lookup_total_correct. Qed.

Lemma vfs_ref_eff c n mp s : (mp < length (v_mounts s))%nat -> rooms c n s -> (forall i, 0 <= c i) -> 1 <= n ->
  eff id (ind mp) (fun _ => 0) s (vfs_ref mp s).
Proof.
  intros Hv R Hc Hn. destruct (lookup_lt_is_Some_2 _ _ Hv) as [m Hm].
  eapply eff_eq; [apply (on_mount_refcnt mp 1 s m Hm)| |].
  - intros m0 H0. specialize (R mp m0 H0). specialize (Hc mp). lia.
  - intros i. cbv beta. lia.
  - done.
Qed.

Lemma vfs_rele_eff c n mp s : (mp < length (v_mounts s))%nat -> rooms c n s -> 1 <= c mp -> 0 <= n ->
  eff id (fun i => - ind mp i) (fun _ => 0) s (vfs_rele mp s).
Proof.
  intros Hv R Hc Hn. destruct (lookup_lt_is_Some_2 _ _ Hv) as [m Hm].
  pose proof (R mp m Hm) as Hr.
  assert (eff id (fun i => - ind mp i) (fun _ => 0) s
    (on_mount mp (fun m => set_mnt_refcnt (u32 (mnt_refcnt m - 1)) m) s)) as E.
  { eapply eff_eq; [apply (on_mount_refcnt mp (-1) s m Hm)| |].
    - intros m0 H0. assert (m0 = m) as -> by congruence. lia.
    - intros i. cbv beta. lia.
    - done. }
  unfold vfs_rele. cbv zeta. pose proof (eff_lookup _ _ _ _ _ _ E Hm) as Hm'.
  rewrite (get_mount_Some _ _ _ Hm'). cbn [mnt_refcnt set_mnt_refcnt]. rewrite ind_same.
  rewrite i32_id by (unfold in_i32; lia). destruct (Z.ltb_spec 0 (mnt_refcnt m + - (1))); [done|lia].
Qed.

Lemma vfs_trybusy_eff c n mp s e s' : (mp < length (v_mounts s))%nat -> rooms c n s -> (forall i, 0 <= c i) -> 1 <= n ->
  vfs_trybusy mp s = (e, s') ->
  (e = 0 /\ eff id (ind mp) (ind (RTrans mp)) s s') \/
  (e <> 0 /\ eff id (fun _ => 0) (fun _ => 0) s s').
Proof.
  intros Hv R Hc Hn. destruct (lookup_lt_is_Some_2 _ _ Hv) as [m Hm].
  pose proof (R mp m Hm) as Hr. pose proof (Hc mp) as Hc0.
  unfold vfs_trybusy, _vfs_busy. cbv zeta. set (s1 := KASSERT _ s).
  assert (eff id (fun _ => 0) (fun _ => 0) s s1) as E1.
  { apply KASSERT_true. rewrite (get_mount_Some _ _ _ Hm). apply Z.ltb_lt. lia. }
  clearbody s1. pose proof (ext_eff (C_fstrans_start_nowait mp) s1) as E2. unfold ext_ in E2.
  destruct (ext (C_fstrans_start_nowait mp) s1) as [a s2] eqn:Ea. cbn [snd] in E2.
  assert (a = answer (v_calls s1) (C_fstrans_start_nowait mp)) as Eans by (unfold ext in Ea; congruence).
  rewrite <-Eans in E2. pose proof (eff_trans _ _ _ _ _ _ _ E1 E2) as E3.
  unfold nz. destruct (Z.eqb_spec a 0) as [Ha|Ha]; cbn [negb].
  - destruct (mnt_gone (get_mount s2 mp)); intros [= <- <-].
    + right. split; [done|]. eapply eff_step; [exact E3|apply ext_eff|done|].
      intros r. cbn [delta]. rewrite Ha. simpl. lia.
    + left. split; [done|].
      eapply eff_step; [exact E3|apply (vfs_ref_eff c n)| |].
      * by rewrite (eff_length _ _ _ _ E3).
      * eapply rooms_weaken; [apply (rooms_eff _ _ _ _ 0 _ _ E3 R)|intros i|]; simpl; lia.
      * done.
      * done.
      * intros i. cbv beta. lia.
      * intros r. cbn [delta]. rewrite Ha. simpl. lia.
  - intros [= <- <-]. right. split; [done|]. eapply eff_eq; [exact E3|done|].
    intros r. cbn [delta]. destruct (Z.eqb_spec a 0); [done|lia].
Qed.

Lemma vfs_unbusy_eff c n mp s : (mp < length (v_mounts s))%nat -> rooms c n s -> 1 <= c mp -> 0 <= n ->
  eff id (fun i => - ind mp i) (fun r => - ind (RTrans mp) r) s (vfs_unbusy mp s).
Proof.
  intros Hv R Hc Hn. destruct (lookup_lt_is_Some_2 _ _ Hv) as [m Hm]. pose proof (R mp m Hm) as Hr.
  unfold vfs_unbusy. cbv zeta. set (s1 := KASSERT _ s).
  assert (eff id (fun _ => 0) (fun _ => 0) s s1) as E1.
  { apply KASSERT_true. rewrite (get_mount_Some _ _ _ Hm). apply Z.ltb_lt. lia. }
  clearbody s1. pose proof (ext_eff (C_fstrans_done mp) s1) as E2.
  pose proof (eff_trans _ _ _ _ _ _ _ E1 E2) as E3.
  eapply eff_step; [exact E3|apply (vfs_rele_eff c n)| |].
  - by rewrite (eff_length _ _ _ _ E3).
  - eapply rooms_weaken; [apply (rooms_eff _ _ _ _ 0 _ _ E3 R)|intros i|]; simpl; lia.
  - done.
  - done.
  - intros i. cbv beta. lia.
  - intros r. cbn [delta]. lia.
Qed.

End ops.
End effects.

(** * The mount list iterator

    A marker moves through the list: what the iterator returns, in order, what
    it passes over and what it holds meanwhile. *)

(** The mounts of a list, without markers. *)
Definition mounts_of (l : list mountlist_entry) : list nat :=
  omap (fun e => match e with ME_MOUNT mp => Some mp | ME_MARKER _ => None end) l.

Lemma mounts_of_app a b : mounts_of (a ++ b) = mounts_of a ++ mounts_of b.
Proof. apply omap_app. Qed.

Lemma elem_mounts_of p l : p ∈ mounts_of l <-> ME_MOUNT p ∈ l.
Proof.
  induction l as [|[q|j] l IH]; cbn [mounts_of omap list_omap] in *.
  - by rewrite !elem_of_nil.
  - rewrite !elem_of_cons, <-IH. naive_solver.
  - rewrite elem_of_cons, <-IH. naive_solver.
Qed.

Lemma mounts_of_NoDup l : NoDup l -> NoDup (mounts_of l).
Proof.
  induction 1 as [|[q|j] l Hn _ IH]; cbn [mounts_of omap list_omap]; [constructor| |done].
  constructor; [|done]. intros H. by apply Hn, elem_mounts_of.
Qed.

Lemma mounts_of_length l : (length (mounts_of l) <= length l)%nat.
Proof. induction l as [|[q|j] l IH]; simpl; lia. Qed.

(** ** Queue operations around a marker *)

Lemma tailq_next_at x a b : x ∉ a -> tailq_next x (a ++ x :: b) = head b.
Proof.
  induction a as [|y a IH]; intros H; cbn [app tailq_next]; [by rewrite bool_decide_true|].
  rewrite bool_decide_false by set_solver. apply IH. set_solver.
Qed.

Lemma tailq_remove_at x a b : x ∉ a -> tailq_remove x (a ++ x :: b) = a ++ b.
Proof.
  induction a as [|y a IH]; intros H; cbn [app tailq_remove]; [by rewrite bool_decide_true|].
  rewrite bool_decide_false by set_solver. f_equal. apply IH. set_solver.
Qed.

Lemma tailq_insert_at y x a b : y ∉ a -> tailq_insert_after y x (a ++ y :: b) = a ++ y :: x :: b.
Proof.
  induction a as [|z a IH]; intros H; cbn [app tailq_insert_after]; [by rewrite bool_decide_true|].
  rewrite bool_decide_false by set_solver. f_equal. apply IH. set_solver.
Qed.

Lemma base_cons_marker id l : base id (ME_MARKER id :: l) = base id l.
Proof. unfold base. rewrite filter_cons_False; [done|]. by intros []. Qed.

Lemma base_app id a b : base id (a ++ b) = base id a ++ base id b.
Proof. apply filter_app. Qed.

Lemma base_marker id a b : base id (a ++ ME_MARKER id :: b) = base id (a ++ b).
Proof. by rewrite !base_app, base_cons_marker. Qed.

Lemma base_fresh id l : ME_MARKER id ∉ l -> base id l = l.
Proof.
  induction l as [|e l IH]; intros H; [done|]. unfold base in *. rewrite filter_cons_True by set_solver.
  f_equal. apply IH. set_solver.
Qed.

(** A new marker is in no list yet. *)
Lemma fresh_marker l : ME_MARKER (mountlist_alloc_marker l) ∉ l.
Proof.
  unfold mountlist_alloc_marker. intros H. apply list_elem_of_In in H.
  assert (In (S (list_max (map marker_id l))) (map marker_id l)) as Hi.
  { change (S (list_max (map marker_id l))) with (marker_id (ME_MARKER (S (list_max (map marker_id l))))) at 1.
    by apply in_map. }
  pose proof (proj1 (list_max_le (map marker_id l) (list_max (map marker_id l))) (le_n _)) as Hm.
  rewrite List.Forall_forall in Hm. specialize (Hm _ Hi). lia.
Qed.

(** ** Moving on *)

(** Every mount of the list is in the store. *)
Definition list_valid (s : vfs) : Prop := forall mp, mp ∈ mounts_of (mountlist s) -> (mp < length (v_mounts s))%nat.

Lemma mounts_of_base id l : mounts_of (base id l) = mounts_of l.
Proof.
  induction l as [|e l IH]; [done|]. unfold base in *. destruct (decide (e = ME_MARKER id)) as [->|N].
  - rewrite filter_cons_False by naive_solver. done.
  - rewrite filter_cons_True by done. unfold mounts_of in *. cbn [omap list_omap].
    destruct e; by rewrite IH.
Qed.

Lemma eff_mounts_of id c h s s' : eff id c h s s' -> mounts_of (mountlist s') = mounts_of (mountlist s).
Proof. intros E. rewrite <-(mounts_of_base id), (ef_list _ _ _ _ _ E). apply mounts_of_base. Qed.

Lemma list_valid_eff id c h s s' : eff id c h s s' -> list_valid s -> list_valid s'.
Proof.
  intros E V mp. rewrite (eff_mounts_of _ _ _ _ _ E), (eff_length _ _ _ _ _ E). apply V.
Qed.

Section iterator.
Context `{EX : Outside} (id : nat).

(** The move of the marker over the next entry. *)
Lemma move_marker pre x post s : mountlist s = pre ++ ME_MARKER id :: x :: post -> NoDup (mountlist s) ->
  let s' := set_mountlist (tailq_insert_after x (ME_MARKER id)
              (tailq_remove (ME_MARKER id) (mountlist s))) s in
  mountlist s' = (pre ++ [x]) ++ ME_MARKER id :: post /\ NoDup (mountlist s') /\
  eff id (fun _ => 0) (fun _ => 0) s s'.
Proof.
  intros El Hnd. cbv zeta. rewrite El in Hnd |- *. cbn [mountlist set_mountlist].
  apply NoDup_app in Hnd as (N1 & N2 & N3). apply NoDup_cons in N3 as [N3 N4].
  apply NoDup_cons in N4 as [N4 N5].
  assert (ME_MARKER id ∉ pre) as H1 by (intros H; apply (N2 _ H); set_solver).
  assert (x ∉ pre) as H2 by (intros H; apply (N2 _ H); set_solver).
  rewrite tailq_remove_at, tailq_insert_at by done. rewrite <-app_assoc. cbn [app].
  split; [done|]. split.
  - apply NoDup_app. split; [done|]. split; [intros y Hy; specialize (N2 y Hy); set_solver|].
    apply NoDup_cons. split; [set_solver|]. apply NoDup_cons. split; set_solver.
  - pose proof (eff_refl id s) as [A1 A2 A3 A4 A5 A6 A7]. split; try done.
    cbn [mountlist set_mountlist]. rewrite El, base_marker.
    change (pre ++ x :: ME_MARKER id :: post) with (pre ++ [x] ++ ME_MARKER id :: post).
    by rewrite app_assoc, base_marker, <-app_assoc.
Qed.

Lemma vfs_rele_list p s : mountlist (vfs_rele p s) = mountlist s.
Proof. unfold vfs_rele. cbv zeta. by destruct (0 <? _). Qed.

Lemma vfs_trybusy_list p s : mountlist (vfs_trybusy p s).2 = mountlist s.
Proof. unfold vfs_trybusy, _vfs_busy, ext. cbv zeta. destruct (nz _); [done|]. by destruct (mnt_gone _). Qed.

Lemma rooms_same c n h s s' : eff id (fun _ => 0) h s s' -> rooms c n s -> rooms c n s'.
Proof.
  intros E R. eapply rooms_weaken; [apply (rooms_eff id _ _ _ _ 0 _ _ E R)|intros i|]; cbv beta; lia.
Qed.

(** One attempt: a reference for the time of the attempt, and a hold if it
    succeeds. *)
Lemma try_mount p s c n e s2 : (p < length (v_mounts s))%nat -> rooms c n s -> (forall i, 0 <= c i) -> 2 <= n ->
  vfs_trybusy p (vfs_ref p s) = (e, s2) ->
  mountlist (vfs_rele p s2) = mountlist s /\
  ((e = 0 /\ eff id (ind p) (ind (RTrans p)) s (vfs_rele p s2)) \/
   (e <> 0 /\ eff id (fun _ => 0) (fun _ => 0) s (vfs_rele p s2))).
Proof.
  intros Hp R Hc Hn Eb.
  pose proof (vfs_ref_eff id c n p s Hp R Hc ltac:(lia)) as E1.
  pose proof (rooms_eff id _ _ _ _ 1 _ _ E1 R (fun i => proj2 (ind_range p i))) as R2.
  assert (forall i, 0 <= c i + ind p i) as Hc2.
  { intros i. pose proof (ind_range p i). specialize (Hc i). lia. }
  assert (1 <= c p + ind p p) as Hcp by (rewrite ind_same; specialize (Hc p); lia).
  split.
  { rewrite vfs_rele_list. change s2 with (e, s2).2. rewrite <-Eb, vfs_trybusy_list. done. }
  destruct (vfs_trybusy_eff id _ _ p _ e s2 ltac:(by rewrite (eff_length _ _ _ _ _ E1)) R2 Hc2 ltac:(lia) Eb)
    as [[-> E2]|[He E2]]; [left|right]; (split; [done|]).
  - pose proof (rooms_eff id _ _ _ _ 1 _ _ E2 R2 (fun i => proj2 (ind_range p i))) as R3.
    assert (eff id (fun i => - ind p i) (fun _ => 0) s2 (vfs_rele p s2)) as E3.
    { eapply vfs_rele_eff; [|exact R3| |lia].
      - by rewrite (eff_length _ _ _ _ _ E2), (eff_length _ _ _ _ _ E1).
      - cbv beta. rewrite ind_same in *. lia. }
    eapply eff_step; [exact E1|eapply eff_trans; [exact E2|exact E3]|intros i|intros r]; cbv beta; lia.
  - assert (eff id (fun i => - ind p i) (fun _ => 0) s2 (vfs_rele p s2)) as E3.
    { eapply vfs_rele_eff; [|exact (rooms_same _ _ _ _ _ E2 R2)|done|lia].
      by rewrite (eff_length _ _ _ _ _ E2), (eff_length _ _ _ _ _ E1). }
    eapply eff_step; [exact E1|eapply eff_trans; [exact E2|exact E3]|intros i|intros r]; cbv beta; lia.
Qed.

(** What a search found: the mount it holds now, or the end. *)
Definition found (mp : option nat) (sk : bool) (passed rest : list mountlist_entry) (s s' : vfs) : Prop :=
  match mp with
  | Some p => eff id (ind p) (ind (RTrans p)) s s' /\
      exists skipped, passed = skipped ++ [ME_MOUNT p] /\ (sk = false -> mounts_of skipped = [])
  | None => eff id (fun _ => 0) (fun _ => 0) s s' /\ rest = [] /\ (sk = false -> mounts_of passed = [])
  end.

(** One more entry passed before. *)
Lemma found_more mp sk x passed rest s1 s2 s' : eff id (fun _ => 0) (fun _ => 0) s1 s2 ->
  (sk = false -> mounts_of [x] = []) ->
  found mp sk passed rest s2 s' -> found mp sk (x :: passed) rest s1 s'.
Proof.
  intros E Hx. assert (forall l, mounts_of (x :: l) = mounts_of [x] ++ mounts_of l) as Hm.
  { intros l. apply (mounts_of_app [x] l). }
  destruct mp as [q|]; cbn [found].
  - intros (E2 & skd & -> & Hs). split.
    + eapply eff_step; [exact E|exact E2|intros i|intros r]; cbv beta; lia.
    + exists (x :: skd). split; [done|]. intros Hk. rewrite Hm, Hx, Hs by done. done.
  - intros (E2 & -> & Hs). split.
    + eapply eff_step; [exact E|exact E2|intros i|intros r]; cbv beta; lia.
    + split; [done|]. intros Hk. rewrite Hm, Hx, Hs by done. done.
Qed.

(** What the search for the next mount does, whatever it meets. *)
Lemma iterator_loop_spec fuel : forall sk s pre post c n mp sk' s',
  mountlist s = pre ++ ME_MARKER id :: post -> NoDup (mountlist s) -> list_valid s ->
  rooms c n s -> (forall i, 0 <= c i) -> 2 <= n -> (length post < fuel)%nat ->
  iterator_loop fuel false id sk s = (mp, sk', s') ->
  exists passed rest, post = passed ++ rest /\ mountlist s' = pre ++ passed ++ ME_MARKER id :: rest /\
    NoDup (mountlist s') /\ (sk = true -> sk' = true) /\ found mp sk' passed rest s s'.
Proof.
  induction fuel as [|fuel IH]; intros sk s pre post c n mp sk' s' El Hnd V R Hc Hn Hf; [lia|].
  cbn [iterator_loop]. assert (tailq_next (ME_MARKER id) (mountlist s) = head post) as ->.
  { rewrite El in Hnd |- *. apply tailq_next_at.
    apply NoDup_app in Hnd as (_ & N2 & _). intros H. apply (N2 _ H). set_solver. }
  destruct post as [|x post]; cbn [head].
  { intros [= <- <- <-]. exists [], []. do 4 (split; [done|]). split; [apply eff_refl|done]. }
  destruct (move_marker pre x post s El Hnd) as (M1 & M2 & M3). cbv zeta in *.
  set (s1 := set_mountlist _ s) in *. clearbody s1. cbn [length] in Hf.
  pose proof (list_valid_eff _ _ _ _ _ M3 V) as V1. pose proof (rooms_same _ _ _ _ _ M3 R) as R1.
  destruct x as [p|j].
  - assert (p < length (v_mounts s1))%nat as Hp by (apply V1, elem_mounts_of; rewrite M1; set_solver).
    destruct (vfs_trybusy p (vfs_ref p s1)) as [e s2] eqn:Eb.
    destruct (try_mount p s1 c n e s2 Hp R1 Hc Hn Eb) as (L & [[-> E]|[He E]]); revert L E;
      generalize (vfs_rele p s2); intros s3 L E.
    + intros [= <- <- <-]. exists [ME_MOUNT p], post. rewrite L, M1.
      split; [done|]. split; [by rewrite <-app_assoc|]. split; [by rewrite <-M1|]. split; [done|].
      split; [|by exists []]. eapply eff_step; [exact M3|exact E|intros i|intros r]; cbv beta; lia.
    + destruct (Z.eqb_spec e 0) as [|_]; [done|]. intros Hl.
      destruct (IH true s3 (pre ++ [ME_MOUNT p]) post c n mp sk' s') as (passed & rest & -> & P2 & P3 & P4 & P5);
        [congruence|by rewrite L|by eapply list_valid_eff|by eapply rooms_same|done|done|lia|done|].
      specialize (P4 eq_refl). subst sk'. exists (ME_MOUNT p :: passed), rest.
      split; [done|]. split; [by rewrite P2, <-app_assoc|]. split; [done|]. split; [done|].
      eapply found_more; [|done|exact P5]. eapply eff_step; [exact M3|exact E|intros i|intros r]; cbv beta; lia.
  - intros Hl. destruct (IH sk s1 (pre ++ [ME_MARKER j]) post c n mp sk' s' M1 M2 V1 R1 Hc Hn ltac:(lia) Hl)
      as (passed & rest & -> & P2 & P3 & P4 & P5).
    exists (ME_MARKER j :: passed), rest. split; [done|]. split; [by rewrite P2, <-app_assoc|].
    split; [done|]. split; [done|]. by eapply found_more; [exact M3| |exact P5].
Qed.

End iterator.
