(* ===== verification/S2idle.v ===== *)
(** * The all-mount barrier

    kernel/kern/vfs_s2idle.c: every mounted file system suspended and flushed
    as one session, or everything taken so far given back. *)

From stdpp Require Import base numbers list.
From S2P Require Import Prelude Sysctl Mount.

Record vfs_s2idle_mount := mk_s2mount {
  e_mp : nat;
  suspend_mp : option nat;
  suspended : bool;
  global_lock : bool;
  updating_held : bool
}.

Definition set_suspend_mp (v : option nat) (r : vfs_s2idle_mount) : vfs_s2idle_mount :=
  mk_s2mount (e_mp r) v (suspended r) (global_lock r) (updating_held r).
Definition set_suspended (v : bool) (r : vfs_s2idle_mount) : vfs_s2idle_mount :=
  mk_s2mount (e_mp r) (suspend_mp r) v (global_lock r) (updating_held r).
Definition set_global_lock (v : bool) (r : vfs_s2idle_mount) : vfs_s2idle_mount :=
  mk_s2mount (e_mp r) (suspend_mp r) (suspended r) v (updating_held r).
Definition set_updating_held (v : bool) (r : vfs_s2idle_mount) : vfs_s2idle_mount :=
  mk_s2mount (e_mp r) (suspend_mp r) (suspended r) (global_lock r) v.

(** sizeof(struct vfs_s2idle_mount) *)
Definition S2MOUNT_SIZE : Z := 32.

(** ** Lower mounts *)

Section canonical.
Context (lower : nat -> option nat).

(** [p->mnt_lower] of a pointer that may be NULL. *)
Definition lower_of (p : option nat) : option nat := p ≫= lower.

(** The two pointers; [None]: out of fuel, [Some true]: they met. *)
Fixpoint cycle_loop (fuel : nat) (slow fast : option nat) : option bool :=
  match fuel with
  | O => None
  | S fuel =>
      match fast, lower_of fast with
      | Some _, Some _ =>
          let slow := lower_of slow in
          let fast := lower_of fast in
          let fast := match fast with Some _ => lower_of fast | None => None end in
          if bool_decide (slow = fast) then Some true else cycle_loop fuel slow fast
      | _, _ => Some false
      end
  end.

Fixpoint bottom_loop (fuel : nat) (mp : nat) : option nat :=
  match fuel with
  | O => None
  | S fuel => match lower mp with Some mp => bottom_loop fuel mp | None => Some mp end
  end.

(** [Some None] is NULL. *)
Definition vfs_s2idle_canonical_mount (fuel : nat) (mp : nat) : option (option nat) :=
  match cycle_loop fuel (Some mp) (Some mp) with
  | None => None
  | Some true => Some None
  | Some false => match bottom_loop fuel mp with Some b => Some (Some b) | None => None end
  end.

End canonical.

Definition vfs_s2idle_has_mount (ms : list vfs_s2idle_mount) (mp : nat) : bool :=
  existsb (fun e => Nat.eqb (e_mp e) mp) ms.

Definition vfs_s2idle_same_updater (s : vfs) (ms : list vfs_s2idle_mount) (index : nat) : bool :=
  existsb (fun i =>
    match ms !! i, ms !! index with
    | Some e, Some x => negb (Nat.eqb i index) && updating_held e &&
        bool_decide (mnt_updating (get_mount s (e_mp e)) = mnt_updating (get_mount s (e_mp x)))
    | _, _ => false
    end) (seq 0 (length ms)).

Section session.
Context `{EX : Outside}.

(** ** Giving back *)

Fixpoint vfs_s2idle_unlock_updates (ms : list vfs_s2idle_mount) (s : vfs) :
    list vfs_s2idle_mount * vfs :=
  match ms with
  | [] => ([], s)
  | e :: ms =>
      if updating_held e then
        let s := match mnt_updating (get_mount s (e_mp e)) with
                 | Some m => ext_ (C_mutex_exit m) s
                 | None => KASSERT false s
                 end in
        let '(ms, s) := vfs_s2idle_unlock_updates ms s in
        (set_updating_held false e :: ms, s)
      else let '(ms, s) := vfs_s2idle_unlock_updates ms s in (e :: ms, s)
  end.

(** The entries without the global lock, then the one with it. *)
Fixpoint resume_others (ms : list vfs_s2idle_mount) (s : vfs) : list vfs_s2idle_mount * vfs :=
  match ms with
  | [] => ([], s)
  | e :: ms =>
      let '(e, s) :=
        if negb (suspended e) || global_lock e then (e, s)
        else match suspend_mp e with
             | Some mp => (set_suspended false e, ext_ (C_suspendctl mp SUSPEND_RESUME) s)
             | None => (e, KASSERT false s)
             end in
      let '(ms, s) := resume_others ms s in (e :: ms, s)
  end.

Fixpoint resume_global (ms : list vfs_s2idle_mount) (s : vfs) : list vfs_s2idle_mount * vfs :=
  match ms with
  | [] => ([], s)
  | e :: ms =>
      let '(e, s) :=
        if negb (suspended e) || negb (global_lock e) then (e, s)
        else match suspend_mp e with
             | Some mp => (set_global_lock false (set_suspended false e), ext_ (C_vfs_resume mp) s)
             | None => (e, KASSERT false s)
             end in
      let '(ms, s) := resume_global ms s in (e :: ms, s)
  end.

Definition vfs_s2idle_resume_suspended (ms : list vfs_s2idle_mount) (s : vfs) :
    list vfs_s2idle_mount * vfs :=
  let '(ms, s) := resume_others ms s in resume_global ms s.

Definition unbusy_all (ms : list vfs_s2idle_mount) (s : vfs) : vfs :=
  fold_left (fun s e => vfs_unbusy (e_mp e) s) ms s.

(** The array is freed if it was allocated, with its capacity's size. *)
Definition free_mounts (capacity : Z) (s : vfs) : vfs :=
  if capacity =? 0 then s else ext_ (C_kmem_free (capacity * S2MOUNT_SIZE)) s.

(** ** Collecting the mounts *)

Record collect_res := mk_collect {
  cr_error : Z;
  cr_mounts : list vfs_s2idle_mount;
  cr_capacity : Z;
  cr_iter : mount_iterator;
  cr_post : vfs
}.

(** Doubling the array; [None]: too large. *)
Definition grow (nmounts capacity : Z) (s : vfs) : option (Z * vfs) :=
  if negb (nmounts =? capacity) then Some (capacity, s) else
  let newcapacity := if nz capacity then u64 (capacity * 2) else 16 in
  if (newcapacity <? capacity) || (SIZE_MAX / S2MOUNT_SIZE <? newcapacity) then None
  else
    let s := ext_ (C_kmem_alloc (newcapacity * S2MOUNT_SIZE)) s in
    Some (newcapacity, free_mounts capacity s).

Fixpoint collect (fuel : nat) (it : mount_iterator) (ms : list vfs_s2idle_mount)
    (capacity : Z) (s : vfs) : option collect_res :=
  match fuel with
  | O => None
  | S fuel =>
      let '(mp, skipped, it, s) := mountlist_iterator_trynext_ex it s in
      if skipped : bool then Some (mk_collect EBUSY ms capacity it s) else
      match mp with
      | None => Some (mk_collect 0 ms capacity it s)
      | Some mp =>
          match grow (Z.of_nat (length ms)) capacity s with
          | None => Some (mk_collect ENOMEM ms capacity it s)
          | Some (capacity, s) =>
              let '(error, s) := vfs_trybusy mp s in
              if nz error then Some (mk_collect error ms capacity it s)
              else collect fuel it (ms ++ [mk_s2mount mp None false false false]) capacity s
          end
      end
  end.

(** ** The session, step by step *)

(** The canonical mount of every entry, which must be in the set. *)
Fixpoint canonical_all (s : vfs) (all : list vfs_s2idle_mount) (ms : list vfs_s2idle_mount) :
    option (Z * list vfs_s2idle_mount) :=
  match ms with
  | [] => Some (0, [])
  | e :: ms =>
      match vfs_s2idle_canonical_mount (fun p => mnt_lower (get_mount s p))
              (S (S (length (v_mounts s)))) (e_mp e) with
      | None => None
      | Some None => Some (ELOOP, set_suspend_mp None e :: ms)
      | Some (Some c) =>
          let e := set_suspend_mp (Some c) e in
          if negb (vfs_s2idle_has_mount all c) then Some (EBUSY, e :: ms)
          else match canonical_all s all ms with
               | None => None
               | Some (error, ms) => Some (error, e :: ms)
               end
      end
  end.

(** [for (i = nmounts; i-- > 0;)]: the try-locks of the updaters. *)
Fixpoint lock_updates (i : nat) (ms : list vfs_s2idle_mount) (s : vfs) :
    Z * list vfs_s2idle_mount * vfs :=
  match i with
  | O => (0, ms, s)
  | S i =>
      if vfs_s2idle_same_updater s ms i then lock_updates i ms s else
      match e ← ms !! i; mnt_updating (get_mount s (e_mp e)) with
      | None => (EBUSY, ms, s)
      | Some m =>
          let '(taken, s) := ext (C_mutex_tryenter m) s in
          if nz taken then lock_updates i (alter (set_updating_held true) i ms) s
          else (EBUSY, ms, s)
      end
  end.

(** VFS_SYNC of one mount with MNT_ASYNC cleared meanwhile. *)
Definition sync_mount (mp : nat) (s : vfs) : Z * vfs :=
  let asyncflag := Z.land (mnt_flag (get_mount s mp)) MNT_ASYNC in
  let s := on_mount mp (fun m => set_mnt_flag (clr_flag (mnt_flag m) MNT_ASYNC) m) s in
  let '(error, s) := ext (C_sync mp (mnt_flag (get_mount s mp))) s in
  (error, on_mount mp (fun m => set_mnt_flag (set_flag (mnt_flag m) asyncflag) m) s).

(** The mount itself and its aliases, the latest first. *)
Fixpoint sync_aliases (j : nat) (ms : list vfs_s2idle_mount) (target : nat) (s : vfs) : Z * vfs :=
  match j with
  | O => (0, s)
  | S j =>
      match ms !! j with
      | Some e =>
          if bool_decide (suspend_mp e = Some target) then
            let '(error, s) := sync_mount (e_mp e) s in
            if nz error then (error, s) else sync_aliases j ms target s
          else sync_aliases j ms target s
      | None => sync_aliases j ms target s
      end
  end.

Fixpoint suspend_loop (i : nat) (global_held : bool) (ms : list vfs_s2idle_mount) (s : vfs) :
    Z * list vfs_s2idle_mount * vfs :=
  match i with
  | O => (0, ms, s)
  | S i =>
      match ms !! i with
      | None => suspend_loop i global_held ms s
      | Some e =>
          let mp := e_mp e in
          if negb (bool_decide (suspend_mp e = Some mp)) then suspend_loop i global_held ms s else
          let '(error, s) := if global_held then ext (C_suspendctl mp SUSPEND_SUSPEND) s
                             else ext (C_vfs_suspend mp) s in
          if nz error then (error, ms, s) else
          let ms := alter (set_suspended true) i ms in
          let ms := if global_held then ms else alter (set_global_lock true) i ms in
          let '(error, s) := sync_aliases (length ms) ms mp s in
          if nz error then (error, ms, s) else suspend_loop i true ms s
      end
  end.

Definition session_fail (curlwp : nat) (error : Z) (ms : list vfs_s2idle_mount) (capacity : Z)
    (s : vfs) : Z * list vfs_s2idle_mount * vfs :=
  let '(ms, s) := vfs_s2idle_unlock_updates ms s in
  let s := unbusy_all ms s in
  let s := free_mounts capacity s in
  (error, [], vfs_s2idle_barrier_exit curlwp s).

Definition session_rollback (curlwp : nat) (error : Z) (ms : list vfs_s2idle_mount) (capacity : Z)
    (s : vfs) : Z * list vfs_s2idle_mount * vfs :=
  let '(ms, s) := vfs_s2idle_resume_suspended ms s in
  session_fail curlwp error ms capacity s.

(** The array cut to its length. *)
Definition shrink (nmounts capacity : Z) (s : vfs) : Z * vfs :=
  if capacity =? nmounts then (capacity, s)
  else (nmounts, ext_ (C_kmem_free (capacity * S2MOUNT_SIZE))
                   (ext_ (C_kmem_alloc (nmounts * S2MOUNT_SIZE)) s)).

(** The error, the session and the state after. *)
Definition vfs_suspend_all (curlwp : nat) (s : vfs) : option (Z * list vfs_s2idle_mount * vfs) :=
  let '(error, s) := vfs_s2idle_barrier_enter curlwp s in
  if nz error then Some (error, [], s) else
  let '(it, s) := mountlist_iterator_init s in
  match collect (S (length (mountlist s))) it [] 0 s with
  | None => None
  | Some (mk_collect error ms capacity it s) =>
      let s := mountlist_iterator_destroy it s in
      if nz error then Some (session_fail curlwp error ms capacity s)
      else if (length ms =? 0)%nat then Some (0, [], free_mounts capacity s) else
      let '(capacity, s) := shrink (Z.of_nat (length ms)) capacity s in
      match canonical_all s ms ms with
      | None => None
      | Some (error, ms) =>
          if nz error then Some (session_fail curlwp error ms capacity s) else
          let '(error, ms, s) := lock_updates (length ms) ms s in
          if nz error then Some (session_fail curlwp error ms capacity s) else
          let '(error, ms, s) := suspend_loop (length ms) false ms s in
          if nz error then Some (session_rollback curlwp error ms capacity s)
          else Some (0, ms, s)
      end
  end.

Definition vfs_resume_all (curlwp : nat) (ms : list vfs_s2idle_mount) (s : vfs) : vfs :=
  if (length ms =? 0)%nat then vfs_s2idle_barrier_exit curlwp s else
  let n := Z.of_nat (length ms) in
  let '(ms, s) := vfs_s2idle_resume_suspended ms s in
  let '(ms, s) := vfs_s2idle_unlock_updates ms s in
  let s := unbusy_all ms s in
  let s := ext_ (C_kmem_free (n * S2MOUNT_SIZE)) s in
  vfs_s2idle_barrier_exit curlwp s.

End session.
