(* ===== verification/S2Facts.v ===== *)
(** * What each step of a session takes and gives back

    Effects (references and resources, [eff]) of the steps of vfs_suspend_all
    and vfs_resume_all. *)

From stdpp Require Import base numbers list sets.
From S2P Require Import Prelude Sysctl Mount MountFacts S2idle.

(** ** Sums over the entries of a session *)

Definition total (f : vfs_s2idle_mount -> Z) (ms : list vfs_s2idle_mount) : Z := zsum (map f ms).

Lemma total_app f a b : total f (a ++ b) = total f a + total f b.
Proof. unfold total. by rewrite map_app, zsum_app. Qed.

Lemma total_cons f e ms : total f (e :: ms) = f e + total f ms.
Proof. done. Qed.

Lemma total_ext f g ms : Forall (fun e => f e = g e) ms -> total f ms = total g ms.
Proof. induction 1 as [|e ms H _ IH]; [done|]. rewrite !total_cons. lia. Qed.

Lemma total_nonneg f ms : (forall e, 0 <= f e) -> 0 <= total f ms.
Proof. intros H. induction ms as [|e ms IH]; [done|]. rewrite total_cons. specialize (H e). lia. Qed.

Lemma total_add f g ms : total (fun e => f e + g e) ms = total f ms + total g ms.
Proof. induction ms as [|e ms IH]; [done|]. rewrite !total_cons. lia. Qed.

Lemma total_zero ms : total (fun _ => 0) ms = 0.
Proof. induction ms as [|e ms IH]; [done|]. rewrite total_cons. lia. Qed.

Lemma total_map f g ms : total f (map g ms) = total (fun e => f (g e)) ms.
Proof. unfold total. by rewrite map_map. Qed.

(** References on mount [i] taken by the entries. *)
Definition e_ref (i : nat) (e : vfs_s2idle_mount) : Z := ind (e_mp e) i.
(** Transactions, updater locks ([u]: the updater of a mount), suspensions by
    VFS_SUSPENDCTL and by vfs_suspend. *)
Definition e_trans (r : res) (e : vfs_s2idle_mount) : Z := ind (RTrans (e_mp e)) r.
Definition e_update (u : nat -> option nat) (r : res) (e : vfs_s2idle_mount) : Z :=
  if updating_held e then match u (e_mp e) with Some m => ind (RMutex m) r | None => 0 end else 0.
Definition e_ctl (r : res) (e : vfs_s2idle_mount) : Z :=
  if suspended e && negb (global_lock e)
  then match suspend_mp e with Some c => ind (RSusp c) r | None => 0 end else 0.
Definition e_glob (r : res) (e : vfs_s2idle_mount) : Z :=
  if suspended e && global_lock e
  then match suspend_mp e with Some c => ind (RSusp c) r + ind RGlobal r | None => 0 end else 0.

(** The array of a session, if it has one. *)
Definition mem_held (capacity : Z) (r : res) : Z :=
  if capacity =? 0 then 0 else ind (RMem (capacity * S2MOUNT_SIZE)) r.

(** The hold of an iterator. *)
Definition it_ref (o : option nat) (i : nat) : Z := match o with Some p => ind p i | None => 0 end.
Definition it_trans (o : option nat) (r : res) : Z :=
  match o with Some p => ind (RTrans p) r | None => 0 end.

Lemma it_ref_range o i : 0 <= it_ref o i <= 1.
Proof. destruct o; cbn [it_ref]; [apply ind_range|lia]. Qed.

Lemma refs_nonneg i ms : 0 <= total (e_ref i) ms.
Proof. apply total_nonneg. intros e. apply ind_range. Qed.

Section steps.
Context `{EX : Outside} (id : nat).

Ltac effz := intros; cbv beta; lia.

(** ** Memory *)

Lemma free_mounts_eff cap s :
  eff id (fun _ => 0) (fun r => - mem_held cap r) s (free_mounts cap s).
Proof.
  unfold free_mounts, mem_held. destruct (cap =? 0).
  - eapply eff_eq; [apply eff_refl|done|effz].
  - eapply eff_eq; [apply ext_eff|done|]. done.
Qed.

Lemma free_mounts_list cap s : mountlist (free_mounts cap s) = mountlist s.
Proof. unfold free_mounts. by destruct (cap =? 0). Qed.

(** Growing makes room for one more entry. *)
Lemma grow_spec k cap cap' s s' : 0 <= k <= cap -> grow k cap s = Some (cap', s') ->
  k < cap' /\ eff id (fun _ => 0) (fun r => mem_held cap' r - mem_held cap r) s s' /\
  mountlist s' = mountlist s.
Proof.
  intros Hk. unfold grow. destruct (Z.eqb_spec k cap) as [->|N]; cbn [negb].
  2:{ intros [= <- <-]. split; [lia|]. split; [|done]. eapply eff_eq; [apply eff_refl|done|effz]. }
  cbv zeta. set (nc := if nz cap then u64 (cap * 2) else 16).
  assert (cap = 0 /\ nc = 16 \/ cap <> 0 /\ nc = u64 (cap * 2)) as Hnc.
  { subst nc. unfold nz. destruct (Z.eqb_spec cap 0); [left|right]; done. }
  destruct (Z.ltb_spec nc cap); [done|]. destruct (Z.ltb_spec (SIZE_MAX / S2MOUNT_SIZE) nc); [done|].
  cbn [orb]. intros [= <- <-]. rewrite free_mounts_list.
  assert (cap < nc) as Hlt.
  { destruct Hnc as [[-> ->]|[Hc ->]]; [lia|].
    unfold SIZE_MAX, S2MOUNT_SIZE in *. unfold u64 in *. zdm. }
  split; [done|]. split; [|done].
  eapply eff_step; [apply ext_eff|apply free_mounts_eff|done|].
  intros r. cbn [delta]. unfold mem_held at 2. destruct (Z.eqb_spec nc 0); [lia|]. lia.
Qed.

Lemma shrink_eff k cap cap' s s' : 0 < k <= cap -> shrink k cap s = (cap', s') ->
  cap' = k /\ eff id (fun _ => 0) (fun r => mem_held k r - mem_held cap r) s s' /\ mountlist s' = mountlist s.
Proof.
  intros Hk. unfold shrink. destruct (Z.eqb_spec cap k) as [->|N].
  - intros [= <- <-]. split; [done|]. split; [|done]. eapply eff_eq; [apply eff_refl|done|effz].
  - intros [= <- <-]. split; [done|]. split; [|done].
    eapply eff_step; [apply ext_eff|apply ext_eff|done|]. intros r. cbn [delta]. unfold mem_held.
    destruct (Z.eqb_spec k 0); [lia|]. destruct (Z.eqb_spec cap 0); [lia|]. lia.
Qed.

(** ** The next mount *)

Lemma vfs_unbusy_list p s : mountlist (vfs_unbusy p s) = mountlist s.
Proof. unfold vfs_unbusy. cbv zeta. by rewrite vfs_rele_list. Qed.

(** Dropping what the iterator holds. *)
Lemma drop_hold o s c n : (forall p, o = Some p -> (p < length (v_mounts s))%nat) ->
  rooms (fun i => c i + it_ref o i) n s -> (forall i, 0 <= c i) -> 0 <= n ->
  let s' := match o with Some mp => vfs_unbusy mp s | None => s end in
  eff id (fun i => - it_ref o i) (fun r => - it_trans o r) s s' /\ mountlist s' = mountlist s.
Proof.
  intros Hv R Hc Hn. cbv zeta. destruct o as [p|]; cbn [it_ref it_trans] in *.
  - split; [|apply vfs_unbusy_list]. eapply vfs_unbusy_eff; [by apply Hv|exact R| |done].
    cbv beta. rewrite ind_same. specialize (Hc p). lia.
  - split; [|done]. eapply eff_eq; [apply eff_refl|effz|effz].
Qed.

Lemma trynext_spec it s pre post c n mp sk it' s' :
  mi_marker it = id -> mountlist s = pre ++ ME_MARKER id :: post -> NoDup (mountlist s) -> list_valid s ->
  (forall p, me_mount it = Some p -> (p < length (v_mounts s))%nat) ->
  rooms (fun i => c i + it_ref (me_mount it) i) n s -> (forall i, 0 <= c i) -> 2 <= n ->
  mountlist_iterator_trynext_ex it s = (mp, sk, it', s') ->
  it' = mk_iter id mp /\
  eff id (fun i => it_ref mp i - it_ref (me_mount it) i)
    (fun r => it_trans mp r - it_trans (me_mount it) r) s s' /\
  exists passed rest, post = passed ++ rest /\ mountlist s' = pre ++ passed ++ ME_MARKER id :: rest /\
    NoDup (mountlist s') /\
    match mp with
    | Some p => (p < length (v_mounts s))%nat /\ passed <> [] /\ (sk = false -> mounts_of passed = [p])
    | None => rest = [] /\ (sk = false -> mounts_of passed = [])
    end.
Proof.
  intros Eid El Hnd V Hv R Hc Hn. unfold mountlist_iterator_trynext_ex, _mountlist_iterator_next. cbv zeta.
  destruct (drop_hold (me_mount it) s c n Hv R Hc ltac:(lia)) as [E0 L0]. cbv zeta in *.
  set (s1 := match me_mount it with Some mp => vfs_unbusy mp s | None => s end) in *. clearbody s1.
  assert (rooms c n s1) as R1.
  { assert (forall i, - it_ref (me_mount it) i <= 0) as Hle.
    { intros i. pose proof (it_ref_range (me_mount it) i). lia. }
    eapply rooms_weaken; [exact (rooms_eff id _ _ _ _ 0 _ _ E0 R Hle)|intros i; cbv beta; lia|lia]. }
  rewrite Eid. destruct (iterator_loop _ _ _ _ s1) as [[mp1 sk1] s2] eqn:Ei.
  destruct (iterator_loop_spec id (S (length (mountlist s1))) false s1 pre post c n mp1 sk1 s2) as (passed & rest & Ep & L2 & N2 & _ & Hf);
    [congruence|by rewrite L0|by eapply list_valid_eff|done|done|done| |done|].
  { rewrite L0, El, length_app. simpl. lia. }
  intros [= <- <- <- <-]. split; [done|]. destruct mp1 as [p|]; cbn [found] in Hf.
  - destruct Hf as (E & skd & -> & Hs). split.
    { eapply eff_step; [exact E0|exact E|intros i|intros r]; cbn [it_ref it_trans]; lia. }
    exists (skd ++ [ME_MOUNT p]), rest. split; [done|]. split; [done|]. split; [done|].
    split; [|split; [by destruct skd|]].
    + apply V, elem_mounts_of. rewrite El, Ep. apply elem_of_app. right. apply elem_of_cons. right.
      apply elem_of_app. left. apply elem_of_app. right. by apply list_elem_of_singleton.
    + intros Hk. by rewrite mounts_of_app, Hs.
  - destruct Hf as (E & -> & Hs). split.
    { eapply eff_step; [exact E0|exact E|intros i|intros r]; cbn [it_ref it_trans]; lia. }
    exists passed, []. done.
Qed.

(** ** Collecting *)

(** An entry as the collection leaves it. *)
Definition fresh_entry (e : vfs_s2idle_mount) : Prop := e = mk_s2mount (e_mp e) None false false false.

(** What collecting adds to [ms]: [new], holding what [eff] says; the iterator
    ends with [o'] after [o]. *)
Record collected (e : Z) (ms new : list vfs_s2idle_mount) (cap cap' : Z) (o o' : option nat)
    (post : list mountlist_entry) (s s' : vfs) : Prop := {
  co_fresh : Forall fresh_entry new;
  co_valid : Forall (fun x => (e_mp x < length (v_mounts s))%nat) new;
  co_cap : Z.of_nat (length (ms ++ new)) <= cap';
  co_eff : eff id (fun i => total (e_ref i) new + it_ref o' i - it_ref o i)
    (fun r => total (e_trans r) new + it_trans o' r - it_trans o r + mem_held cap' r - mem_held cap r) s s';
  co_list : exists l1 l2, mountlist s' = l1 ++ ME_MARKER id :: l2 /\ NoDup (mountlist s');
  co_len : (length new <= length post)%nat;
  co_iter : forall p, o' = Some p -> (p < length (v_mounts s))%nat;
  co_all : e = 0 -> o' = None /\ map e_mp new = mounts_of post
}.

(** Nothing more taken: the end, or an error. *)
Lemma collected_stop e ms cap o mp post passed rest pre s s' :
  Z.of_nat (length ms) <= cap ->
  eff id (fun i => it_ref mp i - it_ref o i) (fun r => it_trans mp r - it_trans o r) s s' ->
  mountlist s' = pre ++ passed ++ ME_MARKER id :: rest -> NoDup (mountlist s') ->
  (forall p, mp = Some p -> (p < length (v_mounts s))%nat) ->
  (e = 0 -> mp = None /\ mounts_of post = []) ->
  collected e ms [] cap cap o mp post s s'.
Proof.
  intros Hcap E L N Hv He. split; try done.
  - by rewrite app_nil_r.
  - eapply eff_eq; [exact E|intros i|intros r]; cbn [total]; unfold total; simpl; lia.
  - exists (pre ++ passed), rest. by rewrite <-app_assoc.
  - simpl. lia.
  - intros H. destruct (He H) as [-> ->]. done.
Qed.

(** One mount more before the rest. *)
Lemma collected_more e ms p new cap cap1 cap2 o o' post passed rest s s1 s2 :
  let x := mk_s2mount p None false false false in
  (p < length (v_mounts s))%nat -> post = passed ++ rest -> mounts_of passed = [p] ->
  eff id (fun i => it_ref (Some p) i - it_ref o i + ind p i)
    (fun r => it_trans (Some p) r - it_trans o r + mem_held cap1 r - mem_held cap r + ind (RTrans p) r) s s1 ->
  collected e (ms ++ [x]) new cap1 cap2 (Some p) o' rest s1 s2 ->
  collected e ms (x :: new) cap cap2 o o' post s s2.
Proof.
  intros x Hp Epost Hpassed E [C1 C2 C3 C4 C5 C5' C6 C7]. rewrite (eff_length _ _ _ _ _ E) in *. split.
  - by constructor.
  - by constructor.
  - by rewrite <-app_assoc in C3.
  - eapply eff_step; [exact E|exact C4|intros i|intros r]; rewrite total_cons.
    + change (e_ref i x) with (ind p i). lia.
    + change (e_trans r x) with (ind (RTrans p) r). lia.
  - done.
  - rewrite Epost, length_app. destruct passed; [done|]. simpl. lia.
  - done.
  - intros H. destruct (C7 H) as [-> Hm]. split; [done|]. cbn [map]. by rewrite Hm, Epost, mounts_of_app, Hpassed.
Qed.

Lemma collect_spec fuel : forall it ms cap s pre post n,
  mi_marker it = id -> mountlist s = pre ++ ME_MARKER id :: post -> NoDup (mountlist s) -> list_valid s ->
  (forall p, me_mount it = Some p -> (p < length (v_mounts s))%nat) ->
  rooms (fun i => total (e_ref i) ms + it_ref (me_mount it) i) n s ->
  2 * Z.of_nat fuel + 3 <= n -> (length post < fuel)%nat -> Z.of_nat (length ms) <= cap ->
  exists e new cap' o s', collect fuel it ms cap s = Some (mk_collect e (ms ++ new) cap' (mk_iter id o) s') /\
    collected e ms new cap cap' (me_mount it) o post s s'.
Proof.
  induction fuel as [|fuel IH]; intros it ms cap s pre post n Eid El Hnd V Hv R Hn Hf Hcap; [lia|].
  cbn [collect]. destruct (mountlist_iterator_trynext_ex it s) as [[[mp sk] it1] s1] eqn:En.
  destruct (trynext_spec it s pre post (fun i => total (e_ref i) ms) n mp sk it1 s1 Eid El Hnd V Hv R
    (fun i => refs_nonneg i ms) ltac:(lia) En) as (-> & E1 & passed & rest & Ep & L1 & N1 & Hmp).
  assert (forall p, mp = Some p -> (p < length (v_mounts s))%nat) as Hv1.
  { intros p ->. apply Hmp. }
  destruct sk.
  { exists EBUSY, [], cap, mp, s1. rewrite app_nil_r. split; [done|]. by eapply collected_stop. }
  destruct mp as [p|].
  2:{ exists 0, [], cap, None, s1. rewrite app_nil_r. split; [done|]. eapply collected_stop; try done.
      intros _. destruct Hmp as [-> Hp]. rewrite app_nil_r in Ep. subst. split; [done|auto]. }
  destruct Hmp as (Hp & Hne & Hpassed).
  destruct (grow _ cap s1) as [[cap1 s2]|] eqn:Eg.
  2:{ exists ENOMEM, [], cap, (Some p), s1. rewrite app_nil_r. split; [done|]. by eapply collected_stop. }
  destruct (grow_spec (Z.of_nat (length ms)) cap cap1 s1 s2 ltac:(lia) Eg) as (Hc1 & E2 & L2).
  pose proof (eff_trans id _ _ _ _ _ _ _ E1 E2) as E3.
  assert (rooms (fun i => total (e_ref i) ms + it_ref (Some p) i) (n - 1) s2) as R2.
  { eapply rooms_weaken; [apply (rooms_eff id _ _ _ _ 1 _ _ E3 R)|intros i; cbv beta; lia|lia].
    intros i. cbv beta. pose proof (it_ref_range (Some p) i). pose proof (it_ref_range (me_mount it) i). lia. }
  destruct (vfs_trybusy p s2) as [e s3] eqn:Eb.
  assert (mountlist s3 = pre ++ passed ++ ME_MARKER id :: rest) as L3.
  { change s3 with (e, s3).2. by rewrite <-Eb, vfs_trybusy_list, L2. }
  assert (NoDup (mountlist s3)) as N3 by congruence.
  destruct (vfs_trybusy_eff id _ _ p s2 e s3 ltac:(by rewrite (eff_length _ _ _ _ _ E3)) R2
    ltac:(intros i; pose proof (refs_nonneg i ms); pose proof (it_ref_range (Some p) i); cbv beta; lia)
    ltac:(lia) Eb) as [[-> E4]|[He E4]].
  - cbn [nz Z.eqb negb]. set (x := mk_s2mount p None false false false).
    pose proof (eff_trans id _ _ _ _ _ _ _ E3 E4) as E5.
    destruct (IH (mk_iter id (Some p)) (ms ++ [x]) cap1 s3 (pre ++ passed) rest (n - 2)) as
      (e & new & cap2 & o & s4 & -> & C).
    + done.
    + by rewrite L3, <-app_assoc.
    + done.
    + by eapply list_valid_eff.
    + intros q [= <-]. by rewrite (eff_length _ _ _ _ _ E5).
    + pose proof (rooms_eff id _ _ _ _ 1 _ _ E4 R2 (fun i => proj2 (ind_range p i))) as R3.
      eapply rooms_weaken; [exact R3|intros i|lia]. cbv beta. rewrite total_app. cbn [me_mount].
      change (total (e_ref i) [x]) with (ind p i + 0). lia.
    + lia.
    + rewrite Ep, length_app in Hf. destruct passed; [done|]. simpl in Hf. lia.
    + rewrite length_app. simpl. lia.
    + exists e, (x :: new), cap2, o, s4. rewrite <-app_assoc. split; [done|].
      eapply collected_more; [done|done|by apply Hpassed| |exact C].
      eapply eff_eq; [exact E5|intros i|intros r]; cbv beta; lia.
  - unfold nz. destruct (Z.eqb_spec e 0); [done|]. cbn [negb].
    exists e, [], cap1, (Some p), s3. rewrite app_nil_r. split; [done|]. split; try done.
    + rewrite app_nil_r. lia.
    + eapply eff_step; [exact E3|exact E4|intros i|intros r]; cbv beta; unfold total; simpl; lia.
    + exists (pre ++ passed), rest. by rewrite <-app_assoc.
    + simpl. lia.
Qed.

End steps.

(** * The lower mount of a stack, and cycles

    vfs_s2idle_canonical_mount on any graph of lower mounts, damaged ones
    included: it ends, and answers the bottom of the stack or NULL exactly
    when there is none. *)

(** Two places of a list that is not duplicate free. *)
Lemma duplicate_places {A} `{EqDecision A} (l : list A) : ~ NoDup l ->
  exists i j x, (i < j)%nat /\ l !! i = Some x /\ l !! j = Some x.
Proof.
  induction l as [|a l IH]; intros H; [by destruct H; constructor|].
  destruct (decide (a ∈ l)) as [Ha|Ha].
  - apply list_elem_of_lookup in Ha as [j Hj]. exists 0%nat, (S j), a. split; [lia|done].
  - destruct IH as (i & j & x & Hij & Hi & Hj); [intros Hn; apply H; by constructor|].
    exists (S i), (S j), x. split; [lia|done].
Qed.

Section canon.
Context (lower : nat -> option nat) (mp : nat).

(** The [k]th lower mount. *)
Definition nth_lower (k : nat) : option nat := Nat.iter k (lower_of lower) (Some mp).

Lemma nth_lower_S k : nth_lower (S k) = lower_of lower (nth_lower k).
Proof. done. Qed.

Lemma nth_lower_None a b : (a <= b)%nat -> nth_lower a = None -> nth_lower b = None.
Proof. induction 1; [done|]. intros H0. by rewrite nth_lower_S, IHle. Qed.

Lemma nth_lower_Some a b : (a <= b)%nat -> is_Some (nth_lower b) -> is_Some (nth_lower a).
Proof.
  intros H Hb. destruct (nth_lower a) eqn:E; [done|]. rewrite (nth_lower_None a b H E) in Hb. by inversion Hb.
Qed.

(** Equal once, equal from then on. *)
Lemma nth_lower_shift i j d : nth_lower i = nth_lower j -> nth_lower (i + d) = nth_lower (j + d).
Proof.
  intros H. induction d as [|d IH]; [by rewrite !Nat.add_0_r|].
  rewrite !Nat.add_succ_r, !nth_lower_S. by rewrite IH.
Qed.

Lemma nth_lower_period i d n a : nth_lower i = nth_lower (i + d) -> (i <= a)%nat ->
  nth_lower (a + n * d) = nth_lower a.
Proof.
  intros H Ha. induction n as [|n IH]; [by rewrite Nat.add_0_r|].
  replace (a + S n * d)%nat with (i + d + (a - i + n * d))%nat by lia.
  rewrite <-(nth_lower_shift i (i + d) (a - i + n * d) H).
  by replace (i + (a - i + n * d))%nat with (a + n * d)%nat by lia.
Qed.

(** A repetition means there is no end. *)
Lemma repeat_endless i j : (i < j)%nat -> nth_lower i = nth_lower j -> is_Some (nth_lower i) ->
  forall n, is_Some (nth_lower n).
Proof.
  intros Hij H Hi n. set (d := (j - i)%nat).
  assert (nth_lower i = nth_lower (i + d)) as Hd by (subst d; by replace (i + (j - i))%nat with j by lia).
  apply (nth_lower_Some n (i + n * d)); [nia|]. by rewrite (nth_lower_period i d n i).
Qed.

(** ** The two pointers *)

Lemma cycle_loop_step f k :
  cycle_loop lower (S f) (nth_lower k) (nth_lower (2 * k)) =
    match nth_lower (2 * k), nth_lower (2 * k + 1) with
    | Some _, Some _ =>
        if bool_decide (nth_lower (S k) = nth_lower (2 * S k)) then Some true
        else cycle_loop lower f (nth_lower (S k)) (nth_lower (2 * S k))
    | _, _ => Some false
    end.
Proof.
  replace (2 * k + 1)%nat with (S (2 * k)) by lia. replace (2 * S k)%nat with (S (S (2 * k))) by lia.
  rewrite !nth_lower_S. cbn [cycle_loop]. destruct (nth_lower (2 * k)) as [a|]; [|done].
  cbn [lower_of mbind option_bind]. by destruct (lower a).
Qed.

Lemma cycle_loop_ends n f k : nth_lower n = None -> (k <= n)%nat -> (n < f + k)%nat ->
  cycle_loop lower f (nth_lower k) (nth_lower (2 * k)) = Some false.
Proof.
  intros Hn. revert k. induction f as [|f IH]; intros k Hk Hf; [lia|]. rewrite cycle_loop_step.
  destruct (nth_lower (2 * k)) as [a|] eqn:E1; [|done].
  destruct (nth_lower (2 * k + 1)) as [b|] eqn:E2; [|done].
  assert (2 * k + 1 < n)%nat as Hlt.
  { destruct (decide (2 * k + 1 < n)%nat); [done|].
    rewrite (nth_lower_None n (2 * k + 1)) in E2 by (done || lia). done. }
  rewrite bool_decide_false.
  - apply IH; lia.
  - intros H. pose proof (repeat_endless (S k) (2 * S k) ltac:(lia) H) as Hr.
    assert (is_Some (nth_lower (S k))) as Hs by (apply (nth_lower_Some _ (2 * k + 1)); [lia|by eexists]).
    destruct (Hr Hs n) as [x Hx]. congruence.
Qed.

Lemma cycle_loop_meets m f k : (forall n, is_Some (nth_lower n)) ->
  nth_lower m = nth_lower (2 * m) -> (k < m)%nat -> (m <= f + k)%nat ->
  cycle_loop lower f (nth_lower k) (nth_lower (2 * k)) = Some true.
Proof.
  intros Hs Hm. revert k. induction f as [|f IH]; intros k Hk Hf; [lia|]. rewrite cycle_loop_step.
  destruct (Hs (2 * k)%nat) as [a ->]. destruct (Hs (2 * k + 1)%nat) as [b ->].
  case_bool_decide as E; [done|]. apply IH; [|lia].
  destruct (decide (S k = m)) as [<-|]; [done|lia].
Qed.

(** ** Bounded stores *)

Context (N : nat) (Hmp : (mp < N)%nat)
  (Hclosed : forall p q, (p < N)%nat -> lower p = Some q -> (q < N)%nat).

Lemma nth_lower_bound k p : nth_lower k = Some p -> (p < N)%nat.
Proof.
  revert p. induction k as [|k IH]; intros p; [by intros [= <-]|].
  rewrite nth_lower_S. destruct (nth_lower k) as [q|]; [|done]. simpl. intros E. by eapply Hclosed; [apply IH|].
Qed.

(** Among the first [N + 1] two are equal, if there are so many. *)
Lemma nth_lower_pigeon : is_Some (nth_lower N) ->
  exists i j, (i < j <= N)%nat /\ nth_lower i = nth_lower j.
Proof.
  intros HN. destruct (decide (NoDup (map nth_lower (seq 0 (S N))))) as [Hnd|Hnd].
  - exfalso. assert (length (map nth_lower (seq 0 (S N))) <= length (map Some (seq 0 N)))%nat as Hl.
    { apply NoDup_incl_length; [by apply NoDup_ListNoDup|]. intros x Hx.
      apply in_map_iff in Hx as (i & <- & Hi). apply in_seq in Hi.
      destruct (nth_lower_Some i N ltac:(lia) HN) as [p Hp]. rewrite Hp. apply in_map.
      apply in_seq. pose proof (nth_lower_bound i p Hp). lia. }
    rewrite !length_map, !length_seq in Hl. lia.
  - apply duplicate_places in Hnd as (i & j & x & Hij & Hi & Hj). exists i, j.
    rewrite list_lookup_fmap in Hi, Hj. apply fmap_Some in Hi as (a & Ha & ->), Hj as (b & Hb & Eb).
    apply lookup_seq in Ha as [-> Ha], Hb as [-> Hb]. split; [lia|done].
Qed.

(** If there is no end the pointers meet within [N] turns. *)
Lemma meeting_point : is_Some (nth_lower N) ->
  (forall n, is_Some (nth_lower n)) /\
  exists m, (1 <= m <= N)%nat /\ nth_lower m = nth_lower (2 * m).
Proof.
  intros HN. destruct (nth_lower_pigeon HN) as (i & j & Hij & E).
  split; [apply (repeat_endless i j); [lia|done|by apply (nth_lower_Some i N); [lia|]]|].
  set (d := (j - i)%nat). assert (nth_lower i = nth_lower (i + d)) as Hd.
  { subst d. by replace (i + (j - i))%nat with j by lia. }
  destruct i as [|i].
  - exists d. split; [lia|]. rewrite <-(nth_lower_period 0 d 1 d Hd ltac:(lia)). by replace (d + 1 * d)%nat with (2 * d)%nat by lia.
  - set (q := ((S i + d - 1) / d)%nat).
    assert (q * d <= S i + d - 1 < q * d + d)%nat as Hq.
    { pose proof (Nat.div_mod_eq (S i + d - 1) d). pose proof (Nat.mod_upper_bound (S i + d - 1) d ltac:(lia)).
      subst q. nia. }
    exists (q * d)%nat. split; [lia|].
    rewrite <-(nth_lower_period (S i) d q (q * d) Hd ltac:(lia)).
    by replace (q * d + q * d)%nat with (2 * (q * d))%nat by lia.
Qed.

Lemma bottom_loop_spec n b f : nth_lower n = Some b -> lower b = None -> (n < f)%nat ->
  bottom_loop lower f mp = Some b.
Proof.
  intros Hn Hb. assert (forall k f p, (k <= n)%nat -> nth_lower (n - k) = Some p -> (k < f)%nat ->
    bottom_loop lower f p = Some b) as H.
  { induction k as [|k IH]; intros g p Hk Hp Hf; destruct g as [|g]; try lia; cbn [bottom_loop].
    - rewrite Nat.sub_0_r in Hp. assert (p = b) as -> by congruence. by rewrite Hb.
    - destruct (lower p) as [q|] eqn:Eq.
      + apply IH; [lia| |lia]. replace (n - k)%nat with (S (n - S k)) by lia. by rewrite nth_lower_S, Hp.
      + exfalso. assert (nth_lower n = None); [|congruence].
        apply (nth_lower_None (S (n - S k))); [lia|]. by rewrite nth_lower_S, Hp. }
  intros Hf. apply (H n f mp); [lia| |done]. by rewrite Nat.sub_diag.
Qed.

(** The stack has a bottom within [N] steps, or none at all. *)
Lemma bottom_or_endless :
  (exists n b, (n < N)%nat /\ nth_lower n = Some b /\ lower b = None) \/ is_Some (nth_lower N).
Proof.
  assert (forall n, (exists k b, (k < n)%nat /\ nth_lower k = Some b /\ lower b = None) \/
    is_Some (nth_lower n)) as H; [|apply H].
  induction n as [|n [(k & b & Hk & H)|[p Hp]]]; [by right; eexists|left; exists k, b; split; [lia|done]|].
  destruct (lower p) as [q|] eqn:Eq.
  - right. rewrite nth_lower_S, Hp. simpl. rewrite Eq. by eexists.
  - left. exists n, p. split; [lia|done].
Qed.

Lemma canonical_mount_total f : (S (S N) <= f)%nat ->
  (exists n b, nth_lower n = Some b /\ lower b = None /\
     vfs_s2idle_canonical_mount lower f mp = Some (Some b)) \/
  ((forall n, is_Some (nth_lower n)) /\ vfs_s2idle_canonical_mount lower f mp = Some None).
Proof.
  intros Hf. unfold vfs_s2idle_canonical_mount.
  change (cycle_loop lower f (Some mp) (Some mp))
    with (cycle_loop lower f (nth_lower 0) (nth_lower (2 * 0))).
  destruct bottom_or_endless as [(n & b & Hn & H1 & H2)|HN].
  - left. exists n, b. split; [done|]. split; [done|].
    assert (nth_lower (S n) = None) as He by (rewrite nth_lower_S, H1; simpl; done).
    rewrite (cycle_loop_ends (S n) f 0 He ltac:(lia) ltac:(lia)).
    by rewrite (bottom_loop_spec n b f) by (done || lia).
  - right. destruct (meeting_point HN) as (Hs & m & Hm & Em). split; [done|].
    by rewrite (cycle_loop_meets m f 0 Hs Em ltac:(lia) ltac:(lia)).
Qed.

End canon.

Lemma nth_lower_ext f g mp k : (forall p, f p = g p) -> nth_lower f mp k = nth_lower g mp k.
Proof.
  intros H. induction k as [|k IH]; [done|]. rewrite !nth_lower_S, IH.
  destruct (nth_lower g mp k); simpl; [apply H|done].
Qed.

(** A chain has one bottom. *)
Lemma nth_lower_bottom lower mp n n' b b' : nth_lower lower mp n = Some b -> nth_lower lower mp n' = Some b' ->
  lower b = None -> lower b' = None -> b = b'.
Proof.
  assert (forall n n' b b', (n < n')%nat -> nth_lower lower mp n = Some b -> lower b = None ->
    nth_lower lower mp n' = Some b' -> False) as H.
  { intros m m' c c' Hlt Hm Hc Hm'. assert (nth_lower lower mp (S m) = None) as HS by (rewrite nth_lower_S, Hm; done).
    rewrite (nth_lower_None _ _ (S m) m') in Hm' by (done || lia). done. }
  intros Hn Hn' Hb Hb'. destruct (lt_eq_lt_dec n n') as [[?|<-]|?]; [by destruct (H n n' b b')|congruence|by destruct (H n' n b' b)].
Qed.
