(* ===== verification/S2Steps.v ===== *)
(** * Locking, suspending and giving back

    The loops over the entries of a session: each takes or gives back exactly
    what the flags it changes say. *)

From stdpp Require Import base numbers list sets.
From S2P Require Import Prelude Sysctl Mount MountFacts S2idle S2Facts.

Definition upd (s : vfs) (p : nat) : option nat := mnt_updating (get_mount s p).

Lemma total_alter f g i e ms : ms !! i = Some e -> total f (alter g i ms) = total f ms - f e + f (g e).
Proof.
  revert i. induction ms as [|x ms IH]; intros [|i] H; [done|done| |].
  - injection H as ->. change (alter g 0%nat (e :: ms)) with (g e :: ms). rewrite !total_cons. lia.
  - change (alter g (S i) (x :: ms)) with (x :: alter g i ms). rewrite !total_cons, (IH i H). lia.
Qed.

Lemma map_alter_same {A B} (f : A -> B) (g : A -> A) i ms : (forall x, f (g x) = f x) ->
  map f (alter g i ms) = map f ms.
Proof.
  intros H. revert i. induction ms as [|x ms IH]; intros [|i]; cbn; [done|done|by rewrite H|].
  f_equal. apply IH.
Qed.

Section loops.
Context `{EX : Outside} (id : nat).

Ltac effz := intros; cbv beta; lia.

Lemma eff_upd c h s s' p : eff id c h s s' -> upd s' p = upd s p.
Proof. intros E. by destruct (eff_get id c h s s' p E) as (_ & ? & _). Qed.

(** ** Giving back *)

Definition unlock1 (e : vfs_s2idle_mount) : vfs_s2idle_mount :=
  if updating_held e then set_updating_held false e else e.

Lemma unlock_updates_spec u ms : forall s, (forall p, upd s p = u p) ->
  Forall (fun e => updating_held e = true -> u (e_mp e) <> None) ms ->
  let r := vfs_s2idle_unlock_updates ms s in
  r.1 = map unlock1 ms /\ eff id (fun _ => 0) (fun r => - total (e_update u r) ms) s r.2.
Proof.
  induction ms as [|e ms IH]; intros s Hu Hf; cbv zeta.
  { split; [done|]. eapply eff_eq; [apply eff_refl|done|]. done. }
  apply Forall_cons in Hf as [He Hf]. cbn [vfs_s2idle_unlock_updates map]. unfold unlock1 at 1.
  destruct (updating_held e) eqn:Eh.
  - fold (upd s (e_mp e)). rewrite Hu. specialize (He eq_refl). destruct (u (e_mp e)) as [m|] eqn:Em; [|done].
    pose proof (ext_eff id (C_mutex_exit m) s) as E1.
    destruct (IH (ext_ (C_mutex_exit m) s)) as [I1 I2]; [|done|].
    { intros p. by rewrite (eff_upd _ _ _ _ p E1). }
    destruct (vfs_s2idle_unlock_updates ms _) as [ms' s']. cbn [fst snd] in *. split; [by rewrite I1|].
    eapply eff_step; [exact E1|exact I2|done|]. intros r. cbv beta. rewrite total_cons.
    unfold e_update at 2. rewrite Eh, Em. cbn [delta]. lia.
  - destruct (IH s Hu Hf) as [I1 I2].
    destruct (vfs_s2idle_unlock_updates ms s) as [ms' s']. cbn [fst snd] in *. split; [by rewrite I1|].
    eapply eff_eq; [exact I2|done|]. intros r. cbv beta. rewrite total_cons. unfold e_update at 2. rewrite Eh. lia.
Qed.

Definition resume1 (e : vfs_s2idle_mount) : vfs_s2idle_mount :=
  if suspended e && negb (global_lock e) then set_suspended false e else e.
Definition resume2 (e : vfs_s2idle_mount) : vfs_s2idle_mount :=
  if suspended e && global_lock e then set_global_lock false (set_suspended false e) else e.

Definition has_canonical (e : vfs_s2idle_mount) : Prop := suspended e = true -> suspend_mp e <> None.

Lemma resume_others_spec ms : forall s, Forall has_canonical ms ->
  let r := resume_others ms s in
  r.1 = map resume1 ms /\ eff id (fun _ => 0) (fun r => - total (e_ctl r) ms) s r.2.
Proof.
  induction ms as [|e ms IH]; intros s Hf; cbv zeta.
  { split; [done|]. eapply eff_eq; [apply eff_refl|done|]. done. }
  apply Forall_cons in Hf as [He Hf]. cbn [resume_others map].
  assert (negb (suspended e) || global_lock e = negb (suspended e && negb (global_lock e))) as ->
    by (by destruct (suspended e), (global_lock e)).
  unfold resume1 at 1. destruct (suspended e && negb (global_lock e)) eqn:Eb; cbn [negb].
  - apply andb_true_iff in Eb as Eb'. destruct Eb' as [Es _]. specialize (He Es).
    destruct (suspend_mp e) as [c|] eqn:Ec; [|done].
    pose proof (ext_eff id (C_suspendctl c SUSPEND_RESUME) s) as E1.
    destruct (IH (ext_ (C_suspendctl c SUSPEND_RESUME) s) Hf) as [I1 I2].
    destruct (resume_others ms _) as [ms' s']. cbn [fst snd] in *. split; [by rewrite I1|].
    eapply eff_step; [exact E1|exact I2|done|]. intros r. cbv beta. rewrite total_cons.
    unfold e_ctl at 2. rewrite Eb, Ec. cbn [delta]. lia.
  - destruct (IH s Hf) as [I1 I2]. destruct (resume_others ms s) as [ms' s']. cbn [fst snd] in *.
    split; [by rewrite I1|]. eapply eff_eq; [exact I2|done|]. intros r. cbv beta. rewrite total_cons.
    unfold e_ctl at 2. rewrite Eb. lia.
Qed.

Lemma resume_global_spec ms : forall s, Forall has_canonical ms ->
  let r := resume_global ms s in
  r.1 = map resume2 ms /\ eff id (fun _ => 0) (fun r => - total (e_glob r) ms) s r.2.
Proof.
  induction ms as [|e ms IH]; intros s Hf; cbv zeta.
  { split; [done|]. eapply eff_eq; [apply eff_refl|done|]. done. }
  apply Forall_cons in Hf as [He Hf]. cbn [resume_global map].
  assert (negb (suspended e) || negb (global_lock e) = negb (suspended e && global_lock e)) as ->
    by (by destruct (suspended e), (global_lock e)).
  unfold resume2 at 1. destruct (suspended e && global_lock e) eqn:Eb; cbn [negb].
  - apply andb_true_iff in Eb as Eb'. destruct Eb' as [Es _]. specialize (He Es).
    destruct (suspend_mp e) as [c|] eqn:Ec; [|done].
    pose proof (ext_eff id (C_vfs_resume c) s) as E1.
    destruct (IH (ext_ (C_vfs_resume c) s) Hf) as [I1 I2].
    destruct (resume_global ms _) as [ms' s']. cbn [fst snd] in *. split; [by rewrite I1|].
    eapply eff_step; [exact E1|exact I2|done|]. intros r. cbv beta. rewrite total_cons.
    unfold e_glob at 2. rewrite Eb, Ec. cbn [delta]. lia.
  - destruct (IH s Hf) as [I1 I2]. destruct (resume_global ms s) as [ms' s']. cbn [fst snd] in *.
    split; [by rewrite I1|]. eapply eff_eq; [exact I2|done|]. intros r. cbv beta. rewrite total_cons.
    unfold e_glob at 2. rewrite Eb. lia.
Qed.

Lemma resume_suspended_spec ms s : Forall has_canonical ms ->
  let r := vfs_s2idle_resume_suspended ms s in
  r.1 = map resume2 (map resume1 ms) /\
  eff id (fun _ => 0) (fun r => - total (e_ctl r) ms - total (e_glob r) ms) s r.2.
Proof.
  intros Hf. cbv zeta. unfold vfs_s2idle_resume_suspended.
  destruct (resume_others_spec ms s Hf) as [A1 A2]. destruct (resume_others ms s) as [ms1 s1].
  cbn [fst snd] in *. subst ms1.
  assert (Forall has_canonical (map resume1 ms)) as Hf1.
  { apply Forall_map. eapply Forall_impl; [exact Hf|]. intros e He. unfold compose, has_canonical, resume1 in *.
    destruct (suspended e) eqn:Es, (global_lock e); simpl; rewrite ?Es; auto. }
  destruct (resume_global_spec (map resume1 ms) s1 Hf1) as [B1 B2]. cbv zeta in *.
  destruct (resume_global (map resume1 ms) s1) as [ms2 s2]. cbn [fst snd] in *. split; [done|].
  eapply eff_step; [exact A2|exact B2|done|]. intros r. cbv beta. rewrite total_map.
  rewrite (total_ext (fun e => e_glob r (resume1 e)) (e_glob r) ms); [lia|].
  apply Forall_true. intros e. unfold e_glob, resume1.
  destruct (suspended e) eqn:Es, (global_lock e) eqn:Eg; simpl; rewrite ?Es, ?Eg; done.
Qed.

Lemma unbusy_all_spec ms : forall s c n, Forall (fun e => (e_mp e < length (v_mounts s))%nat) ms ->
  rooms (fun i => c i + total (e_ref i) ms) n s -> (forall i, 0 <= c i) -> 0 <= n ->
  eff id (fun i => - total (e_ref i) ms) (fun r => - total (e_trans r) ms) s (unbusy_all ms s).
Proof.
  induction ms as [|e ms IH]; intros s c n Hv R Hc Hn.
  { eapply eff_eq; [apply eff_refl|done|]. done. }
  apply Forall_cons in Hv as [He Hv]. change (unbusy_all (e :: ms) s) with (unbusy_all ms (vfs_unbusy (e_mp e) s)).
  assert (eff id (fun i => - ind (e_mp e) i) (fun r => - ind (RTrans (e_mp e)) r) s (vfs_unbusy (e_mp e) s)) as E1.
  { eapply vfs_unbusy_eff; [done|exact R| |done]. cbv beta. rewrite total_cons. unfold e_ref at 1.
    rewrite ind_same. pose proof (refs_nonneg (e_mp e) ms). specialize (Hc (e_mp e)). lia. }
  assert (forall i, - ind (e_mp e) i <= 0) as Hle.
  { intros i. pose proof (ind_range (e_mp e) i). lia. }
  eapply eff_step; [exact E1|apply (IH _ c n)| |].
  - by rewrite (eff_length _ _ _ _ _ E1).
  - eapply rooms_weaken; [exact (rooms_eff id _ _ _ _ 0 _ _ E1 R Hle)|intros i|lia].
    cbv beta. rewrite total_cons. unfold e_ref at 2. lia.
  - done.
  - done.
  - intros i. cbv beta. rewrite total_cons. unfold e_ref at 2. lia.
  - intros r. cbv beta. rewrite total_cons. unfold e_trans at 2. lia.
Qed.

(** ** Syncing *)

Lemma sync_mount_eff mp s : eff id (fun _ => 0) (fun _ => 0) s (sync_mount mp s).2.
Proof.
  pose proof (eff_refl id s) as [A1 A2 A3 A4 A5 A6 A7].
  unfold sync_mount, ext, on_mount. cbv zeta. cbn [snd]. split; try done.
  intros i. cbn [v_mounts set_v_mounts set_v_calls].
    destruct (decide (mp = i)) as [->|N].
    + rewrite !list_lookup_alter_eq. unfold get_mount. rewrite list_lookup_total_alt.
      destruct (v_mounts s !! i) as [m|]; [|done]. simpl. f_equal. rewrite set_refcnt_same.
      destruct m as [a b c d f]. unfold set_mnt_flag. simpl. f_equal.
      unfold set_flag, clr_flag. rewrite <-Z.land_lor_distr_r, Z.lor_comm, Z.lor_lnot_diag. apply Z.land_m1_r.
    + rewrite !list_lookup_alter_ne by done. symmetry. apply fmap_same, set_refcnt_same.
Qed.

Lemma sync_aliases_eff j ms t : forall s, eff id (fun _ => 0) (fun _ => 0) s (sync_aliases j ms t s).2.
Proof.
  induction j as [|j IH]; intros s; cbn [sync_aliases]; [apply eff_refl|].
  destruct (ms !! j) as [e|]; [|apply IH]. case_bool_decide; [|apply IH].
  pose proof (sync_mount_eff (e_mp e) s) as E1. destruct (sync_mount (e_mp e) s) as [err s1]. cbn [snd] in E1.
  destruct (nz err); [done|]. eapply eff_step; [exact E1|apply IH|done|done].
Qed.

(** ** Locking the updaters *)

Lemma same_updater_spec s ms i e : ms !! i = Some e ->
  vfs_s2idle_same_updater s ms i = true <->
  exists j x, j <> i /\ ms !! j = Some x /\ updating_held x = true /\ upd s (e_mp x) = upd s (e_mp e).
Proof.
  intros He. unfold vfs_s2idle_same_updater. rewrite existsb_exists. split.
  - intros (j & Hj & H). rewrite He in H. destruct (ms !! j) as [x|] eqn:Ex; [|done].
    apply andb_true_iff in H as [H H3]. apply andb_true_iff in H as [H1 H2].
    apply negb_true_iff, Nat.eqb_neq in H1. apply bool_decide_eq_true in H3. by exists j, x.
  - intros (j & x & H1 & H2 & H3 & H4). exists j. split.
    + apply in_seq. apply lookup_lt_Some in H2. lia.
    + rewrite H2, He, H3. apply Nat.eqb_neq in H1. rewrite H1. by rewrite bool_decide_true.
Qed.

(** Everything of an entry but the updater flag. *)
Definition no_update (e : vfs_s2idle_mount) : nat * option nat * bool * bool :=
  (e_mp e, suspend_mp e, suspended e, global_lock e).

(** The locks held are real and each is held once. *)
Definition locks_ok (u : nat -> option nat) (ms : list vfs_s2idle_mount) : Prop :=
  (forall i e, ms !! i = Some e -> updating_held e = true -> u (e_mp e) <> None) /\
  (forall i j e x, ms !! i = Some e -> ms !! j = Some x -> updating_held e = true ->
     updating_held x = true -> u (e_mp e) = u (e_mp x) -> i = j).

(** Entry [i]'s updater is locked, by it or by another entry. *)
Definition updater_locked (u : nat -> option nat) (ms : list vfs_s2idle_mount) (i : nat) : Prop :=
  exists j e x, ms !! i = Some e /\ ms !! j = Some x /\ updating_held x = true /\
    u (e_mp x) = u (e_mp e) /\ u (e_mp x) <> None.

Lemma locks_ok_take u ms i e : locks_ok u ms -> ms !! i = Some e -> u (e_mp e) <> None ->
  (forall j x, j <> i -> ms !! j = Some x -> updating_held x = true -> u (e_mp x) <> u (e_mp e)) ->
  locks_ok u (alter (set_updating_held true) i ms).
Proof.
  intros [L1 L2] He Hu Hn. split.
  - intros k x Hk Hx. destruct (decide (i = k)) as [->|N].
    + rewrite list_lookup_alter_eq, He in Hk. injection Hk as <-. done.
    + rewrite list_lookup_alter_ne in Hk by done. by eapply L1.
  - intros k l x y Hk Hl Hx Hy Hxy. destruct (decide (i = k)) as [<-|Nk], (decide (i = l)) as [<-|Nl]; [done|..].
    + rewrite list_lookup_alter_eq, He in Hk. injection Hk as <-. rewrite list_lookup_alter_ne in Hl by done.
      exfalso. by apply (Hn l y).
    + rewrite list_lookup_alter_eq, He in Hl. injection Hl as <-. rewrite list_lookup_alter_ne in Hk by done.
      exfalso. by apply (Hn k x).
    + rewrite list_lookup_alter_ne in Hk, Hl by done. by eapply L2.
Qed.

Lemma updater_locked_take u ms i k : updater_locked u ms k ->
  updater_locked u (alter (set_updating_held true) i ms) k.
Proof.
  assert (forall j x, ms !! j = Some x -> exists y, alter (set_updating_held true) i ms !! j = Some y /\
    e_mp y = e_mp x /\ (updating_held x = true -> updating_held y = true)) as Hget.
  { intros j x Hj. destruct (decide (i = j)) as [->|N].
    - rewrite list_lookup_alter_eq, Hj. simpl. by eexists.
    - rewrite list_lookup_alter_ne by done. by exists x. }
  intros (j & e & x & H1 & H2 & H3 & H4 & H5).
  destruct (Hget k e H1) as (e' & A1 & A2 & _), (Hget j x H2) as (x' & B1 & B2 & B3).
  exists j, e', x'. rewrite A2, B2. auto 6.
Qed.

Lemma lock_updates_spec u i : forall ms s err ms' s', (forall p, upd s p = u p) -> (i <= length ms)%nat ->
  (forall j e, (j < i)%nat -> ms !! j = Some e -> updating_held e = false) -> locks_ok u ms ->
  (forall j, (i <= j < length ms)%nat -> updater_locked u ms j) ->
  lock_updates i ms s = (err, ms', s') ->
  eff id (fun _ => 0) (fun r => total (e_update u r) ms' - total (e_update u r) ms) s s' /\
  map no_update ms' = map no_update ms /\ locks_ok u ms' /\
  (err = 0 -> forall j, (j < length ms)%nat -> updater_locked u ms' j).
Proof.
  induction i as [|i IH]; intros ms s err ms' s' Hu Hi Hfree Hok Hdone; cbn [lock_updates].
  { intros [= <- <- <-]. split; [|split; [done|split; [done|]]].
    - eapply eff_eq; [apply eff_refl|done|effz].
    - intros _ j Hj. apply Hdone. lia. }
  destruct (lookup_lt_is_Some_2 ms i ltac:(lia)) as [e He].
  assert (updating_held e = false) as Hef by (apply (Hfree i e); [lia|done]).
  destruct (vfs_s2idle_same_updater s ms i) eqn:Es.
  - apply (same_updater_spec s ms i e He) in Es as (j & x & Hji & Hj & Hx & Hxe). rewrite !Hu in Hxe.
    intros Hl. apply (IH ms s err ms' s' Hu) in Hl; [done|lia| |done|].
    + intros k y Hk. apply Hfree. lia.
    + intros k Hk. destruct (decide (k = i)) as [->|]; [|apply Hdone; lia].
      exists j, e, x. repeat (split; [done|]). destruct Hok as [Hok _]. by apply (Hok j x).
  - rewrite He. cbn [mbind option_bind]. fold (upd s (e_mp e)). rewrite Hu.
    assert (forall j x, j <> i -> ms !! j = Some x -> updating_held x = true -> u (e_mp x) <> u (e_mp e)) as Hno.
    { intros j x Hji Hj Hx Hxe. apply not_true_iff_false in Es. apply Es.
      apply (same_updater_spec s ms i e He). exists j, x. by rewrite !Hu. }
    assert (eff id (fun _ => 0) (fun r => total (e_update u r) ms - total (e_update u r) ms) s s) as E0.
    { eapply eff_eq; [apply eff_refl|done|effz]. }
    destruct (u (e_mp e)) as [m|] eqn:Em.
    2:{ intros [= <- <- <-]. by repeat (split; [done|]). }
    pose proof (ext_eff id (C_mutex_tryenter m) s) as E1. unfold ext_ in E1.
    destruct (ext (C_mutex_tryenter m) s) as [a s1] eqn:Ea. cbn [snd] in E1.
    assert (a = answer (v_calls s) (C_mutex_tryenter m)) as Eans by (unfold ext in Ea; congruence).
    rewrite <-Eans in E1. unfold nz. destruct (a =? 0) eqn:Ha; cbn [negb].
    { intros [= <- <- <-]. split; [|split; [done|split; [done|done]]].
      eapply eff_eq; [exact E1|done|]. intros r. cbn [delta]. rewrite Ha. lia. }
    set (ms1 := alter (set_updating_held true) i ms).
    assert (locks_ok u ms1) as Hok1 by (apply (locks_ok_take u ms i e); [done|done|congruence|]; by rewrite Em).
    intros Hl. apply (IH ms1 s1 err ms' s') in Hl.
    + destruct Hl as (I1 & I2 & I3 & I4). unfold ms1 in I4. rewrite length_alter in I4.
      split; [|split; [|done]].
      * eapply eff_step; [exact E1|exact I1|done|]. intros r. cbn [delta]. rewrite Ha. unfold ms1.
        rewrite (total_alter _ _ _ e) by done. unfold e_update at 3 4. rewrite Hef.
        change (updating_held (set_updating_held true e)) with true.
        change (e_mp (set_updating_held true e)) with (e_mp e). rewrite Em. lia.
      * rewrite I2. by apply map_alter_same.
    + intros p. rewrite (eff_upd _ _ _ _ p E1). apply Hu.
    + unfold ms1. rewrite length_alter. lia.
    + intros j x Hj. unfold ms1. rewrite list_lookup_alter_ne by lia. apply Hfree. lia.
    + done.
    + intros j Hj. unfold ms1 in Hj. rewrite length_alter in Hj. destruct (decide (j = i)) as [->|].
      * exists i, (set_updating_held true e), (set_updating_held true e). unfold ms1.
        rewrite list_lookup_alter_eq, He. cbn [fmap option_fmap option_map]. repeat (split; [done|]).
        simpl. congruence.
      * apply updater_locked_take, Hdone. lia.
Qed.

(** ** Suspending *)

(** Everything of an entry but the suspension flags. *)
Definition no_susp (e : vfs_s2idle_mount) : nat * option nat * bool :=
  (e_mp e, suspend_mp e, updating_held e).

Definition is_canonical (e : vfs_s2idle_mount) : Prop := suspend_mp e = Some (e_mp e).

Definition e_susp (r : res) (e : vfs_s2idle_mount) : Z := e_ctl r e + e_glob r e.
Definition e_global (e : vfs_s2idle_mount) : Z := if global_lock e then 1 else 0.

(** Only canonical mounts are suspended, and one entry has the global lock. *)
Definition susp_ok (gh : bool) (ms : list vfs_s2idle_mount) : Prop :=
  Forall (fun e => (suspended e = true -> is_canonical e) /\ (global_lock e = true -> suspended e = true)) ms /\
  total e_global ms = if gh then 1 else 0.

(** The flags after the [i]th entry was suspended. *)
Definition mark (gh : bool) (e : vfs_s2idle_mount) : vfs_s2idle_mount :=
  if gh then set_suspended true e else set_global_lock true (set_suspended true e).

Lemma mark_alter (gh : bool) (i : nat) (ms : list vfs_s2idle_mount) :
  (if gh then alter (set_suspended true) i ms
   else alter (set_global_lock true) i (alter (set_suspended true) i ms)) = alter (mark gh) i ms.
Proof.
  destruct gh; [done|]. revert i. induction ms as [|e ms IH]; intros [|i]; cbn; try done.
  f_equal. apply IH.
Qed.

Lemma susp_ok_mark gh i e ms : susp_ok gh ms -> ms !! i = Some e -> is_canonical e -> global_lock e = false ->
  susp_ok true (alter (mark gh) i ms).
Proof.
  intros [H1 H2] He Hc Hg. split.
  - apply Forall_lookup. intros j x Hj. destruct (decide (i = j)) as [<-|N].
    + rewrite list_lookup_alter_eq, He in Hj. injection Hj as <-. by destruct gh.
    + rewrite list_lookup_alter_ne in Hj by done. rewrite Forall_lookup in H1. by eapply H1.
  - rewrite (total_alter _ _ _ e) by done. rewrite H2. unfold e_global. rewrite Hg.
    destruct gh; simpl; [rewrite Hg|]; lia.
Qed.

(** What the flags claim grows by what the call took. *)
Lemma susp_mark_total gh i e ms r : ms !! i = Some e -> suspended e = false -> global_lock e = false ->
  is_canonical e -> total (e_susp r) (alter (mark gh) i ms) =
    total (e_susp r) ms + ind (RSusp (e_mp e)) r + (if gh then 0 else ind RGlobal r).
Proof.
  intros He Hs Hg Hc. rewrite (total_alter _ _ _ e) by done. unfold e_susp, e_ctl, e_glob. rewrite Hs.
  unfold is_canonical in Hc.
  destruct gh; simpl; rewrite Hc, ?Hg; simpl; lia.
Qed.

Lemma suspend_call_eff (gh : bool) mp s err s' :
  (if gh then ext (C_suspendctl mp SUSPEND_SUSPEND) s else ext (C_vfs_suspend mp) s) = (err, s') ->
  eff id (fun _ => 0) (fun r => if err =? 0 then ind (RSusp mp) r + (if gh then 0 else ind RGlobal r) else 0) s s'.
Proof.
  intros H. destruct gh; [pose proof (ext_eff id (C_suspendctl mp SUSPEND_SUSPEND) s) as E|
    pose proof (ext_eff id (C_vfs_suspend mp) s) as E]; unfold ext_ in E;
    (assert (err = answer (v_calls s) _) as Ea by (unfold ext in H; injection H as <- _; reflexivity));
    rewrite H, <-Ea in E; cbn [snd] in E; (eapply eff_eq; [exact E|done|]); intros r; cbn [delta];
    destruct (err =? 0); lia.
Qed.

Lemma suspend_loop_spec i : forall gh ms s err ms' s', (i <= length ms)%nat ->
  (forall j e, (j < i)%nat -> ms !! j = Some e -> suspended e = false /\ global_lock e = false) ->
  (forall j e, (i <= j)%nat -> ms !! j = Some e -> is_canonical e -> suspended e = true) ->
  susp_ok gh ms -> suspend_loop i gh ms s = (err, ms', s') ->
  eff id (fun _ => 0) (fun r => total (e_susp r) ms' - total (e_susp r) ms) s s' /\
  map no_susp ms' = map no_susp ms /\ (exists gh', susp_ok gh' ms' /\ (gh = true -> gh' = true) /\
    (err = 0 -> (exists j e, (j < i)%nat /\ ms !! j = Some e /\ is_canonical e) -> gh' = true)) /\
  (err = 0 -> forall j e, ms' !! j = Some e -> is_canonical e -> suspended e = true).
Proof.
  induction i as [|i IH]; intros gh ms s err ms' s' Hi Hfree Hdone Hok; cbn [suspend_loop].
  { intros [= <- <- <-]. split; [eapply eff_eq; [apply eff_refl|done|effz]|]. split; [done|]. split.
    - exists gh. split; [done|]. split; [done|]. intros _ (j & e & Hj & _). lia.
    - intros _ j e. apply Hdone. lia. }
  destruct (lookup_lt_is_Some_2 ms i ltac:(lia)) as [e He]. rewrite He.
  destruct (Hfree i e ltac:(lia) He) as [Hs Hg].
  case_bool_decide as Hc; cbn [negb].
  2:{ intros Hl. apply IH in Hl as (I1 & I2 & (gh' & I3 & I4 & I5) & I6); [|lia| | |done].
      - split; [done|]. split; [done|]. split; [|done]. exists gh'. split; [done|]. split; [done|].
        intros Herr (j & x & Hj & Hx & Hxc). apply I5; [done|]. exists j, x. split; [|done].
        destruct (decide (j = i)) as [->|]; [|lia]. assert (x = e) as -> by congruence. done.
      - intros j x Hj. apply Hfree. lia.
      - intros j x Hj Hx Hxc. destruct (decide (j = i)) as [->|]; [|apply (Hdone j x); [lia|done|done]].
        assert (x = e) as -> by congruence. done. }
  destruct (if gh then _ else _) as [err1 s1] eqn:Ecall.
  apply suspend_call_eff in Ecall as E1. unfold nz. destruct (err1 =? 0) eqn:Herr1; cbn [negb].
  2:{ intros [= <- <- <-]. split; [eapply eff_eq; [exact E1|done|effz]|]. split; [done|].
      split; [|intros ->; done]. exists gh. split; [done|]. split; [done|]. intros ->. done. }
  rewrite mark_alter. set (ms1 := alter (mark gh) i ms).
  pose proof (sync_aliases_eff (length ms1) ms1 (e_mp e) s1) as E2.
  destruct (sync_aliases (length ms1) ms1 (e_mp e) s1) as [err2 s2]. cbn [snd] in E2.
  assert (susp_ok true ms1) as Hok1 by (by eapply susp_ok_mark).
  assert (eff id (fun _ => 0) (fun r => total (e_susp r) ms1 - total (e_susp r) ms) s s2) as E3.
  { eapply eff_step; [exact E1|exact E2|done|]. intros r. cbv beta. unfold ms1.
    rewrite (susp_mark_total gh i e ms r) by done. lia. }
  assert (map no_susp ms1 = map no_susp ms) as Hm1 by (apply map_alter_same; by destruct gh).
  destruct (err2 =? 0) eqn:Herr2; cbn [negb].
  2:{ intros [= <- <- <-]. split; [done|]. split; [done|]. split; [exists true; by split|].
      intros ->. done. }
  intros Hl. apply IH in Hl as (I1 & I2 & (gh' & I3 & I4 & I5) & I6).
  - split; [eapply eff_step; [exact E3|exact I1|done|effz]|]. split; [congruence|]. split; [|done].
    exists gh'. split; [done|]. split; [auto|auto].
  - unfold ms1. rewrite length_alter. lia.
  - intros j x Hj. unfold ms1. rewrite list_lookup_alter_ne by lia. apply Hfree. lia.
  - intros j x Hj. unfold ms1. destruct (decide (i = j)) as [<-|].
    + rewrite list_lookup_alter_eq, He. simpl. intros [= <-] _. by destruct gh.
    + rewrite list_lookup_alter_ne by done. apply Hdone. lia.
  - done.
Qed.

End loops.

(** * What a session has flushed

    The sync calls of the suspension loop: each mount is synced while the file
    system at its bottom is suspended, with MNT_ASYNC off for the call. *)

(** Mount [p] was synced with success, not asynchronously, at a time when the
    session had its file system's bottom [c] suspended. *)
Definition flushed (before calls : list (call * Z)) (p c : nat) : Prop :=
  exists post flag pre, calls = post ++ (C_sync p flag, 0) :: pre /\ has_flag flag MNT_ASYNC = false /\
    held pre (RSusp c) = held before (RSusp c) + 1.

Lemma flushed_app before l calls p c : flushed before calls p c -> flushed before (l ++ calls) p c.
Proof. intros (post & fl & pre & -> & H). exists (l ++ post), fl, pre. by rewrite app_assoc. Qed.

Section sync.
Context `{EX : Outside}.

Lemma sync_mount_call mp s err s' : sync_mount mp s = (err, s') ->
  exists flag, has_flag flag MNT_ASYNC = false /\ v_calls s' = (C_sync mp flag, err) :: v_calls s.
Proof.
  unfold sync_mount, ext. cbv zeta. cbn [fst snd]. intros [= <- <-]. eexists. split; [|reflexivity].
  unfold get_mount, on_mount. cbn [v_mounts set_v_mounts]. rewrite list_lookup_total_alt.
  rewrite list_lookup_alter_eq. destruct (v_mounts s !! mp) as [m|]; [|done].
  by apply has_flag_clr_sub.
Qed.

(** Every alias of [target] is synced; only sync calls are made. *)
Lemma sync_aliases_calls j : forall ms target s s', sync_aliases j ms target s = (0, s') ->
  exists l, v_calls s' = l ++ v_calls s /\ Forall (fun e => exists p fl a, e = (C_sync p fl, a)) l /\
  forall k e, (k < j)%nat -> ms !! k = Some e -> suspend_mp e = Some target ->
    exists fl, has_flag fl MNT_ASYNC = false /\ (C_sync (e_mp e) fl, 0) ∈ l.
Proof.
  assert (forall (ms : list vfs_s2idle_mount) target k (l : list (call * Z)),
    (forall i e, (i < k)%nat -> ms !! i = Some e -> suspend_mp e = Some target ->
      exists fl, has_flag fl MNT_ASYNC = false /\ (C_sync (e_mp e) fl, 0) ∈ l) ->
    (forall e, ms !! k = Some e -> suspend_mp e = Some target ->
      exists fl, has_flag fl MNT_ASYNC = false /\ (C_sync (e_mp e) fl, 0) ∈ l) ->
    forall i e, (i < S k)%nat -> ms !! i = Some e -> suspend_mp e = Some target ->
      exists fl, has_flag fl MNT_ASYNC = false /\ (C_sync (e_mp e) fl, 0) ∈ l) as Hstep.
  { intros ms t k l H1 H2 i e Hi. destruct (decide (i = k)) as [->|]; [apply H2|apply H1; lia]. }
  induction j as [|j IH]; intros ms target s s'; cbn [sync_aliases].
  { intros [= <-]. exists []. split; [done|]. split; [done|]. intros. lia. }
  destruct (ms !! j) as [e|] eqn:Ej.
  2:{ intros H. apply IH in H as (l & H1 & H2 & H3). exists l. split; [done|]. split; [done|].
      apply Hstep; [done|]. congruence. }
  case_bool_decide as Ht.
  2:{ intros H. apply IH in H as (l & H1 & H2 & H3). exists l. split; [done|]. split; [done|].
      apply Hstep; [done|]. intros x Hx. assert (x = e) as -> by congruence. done. }
  destruct (sync_mount (e_mp e) s) as [err s1] eqn:Es. apply sync_mount_call in Es as (fl & Hfl & Ec).
  unfold nz. destruct (Z.eqb_spec err 0) as [->|Hne]; cbn [negb]; [|intros [= -> _]; done].
  intros H. apply IH in H as (l & H1 & H2 & H3). exists (l ++ [(C_sync (e_mp e) fl, 0)]).
  split; [by rewrite H1, Ec, <-app_assoc|]. split.
  { apply Forall_app. split; [done|]. constructor; [by eexists _, _, _|done]. }
  apply Hstep.
  - intros i x Hi Hx Hxt. destruct (H3 i x Hi Hx Hxt) as (fl' & A & B). exists fl'. split; [done|].
    apply elem_of_app. by left.
  - intros x Hx _. assert (x = e) as -> by congruence. exists fl. split; [done|].
    apply elem_of_app. right. by apply list_elem_of_singleton.
Qed.

Lemma held_syncs l tr r : Forall (fun e => exists p fl a, e = (C_sync p fl, a)) l -> held (l ++ tr) r = held tr r.
Proof.
  induction 1 as [|e l (p & fl & a & ->) _ IH]; [done|]. change (((C_sync p fl, a) :: l) ++ tr) with
    ((C_sync p fl, a) :: (l ++ tr)). rewrite held_cons, IH. done.
Qed.

(** The suspension loop leaves every alias of a canonical entry flushed. *)
Lemma suspend_loop_flushed before i : forall gh ms s ms' s', suspend_loop i gh ms s = (0, ms', s') ->
  NoDup (map e_mp ms) ->
  (forall j e, (j < i)%nat -> ms !! j = Some e -> held (v_calls s) (RSusp (e_mp e)) = held before (RSusp (e_mp e))) ->
  (exists l, v_calls s' = l ++ v_calls s) /\
  forall k e j c, ms !! k = Some e -> suspend_mp e = Some (e_mp c) -> (j < i)%nat -> ms !! j = Some c -> is_canonical c ->
    flushed before (v_calls s') (e_mp e) (e_mp c).
Proof.
  induction i as [|i IH]; intros gh ms s ms' s'; cbn [suspend_loop].
  { intros [= <- <-] _ _. split; [by exists []|]. intros. lia. }
  destruct (ms !! i) as [e|] eqn:Ei.
  2:{ intros H Hnd Hb. apply IH in H as [Hl Hf]; [|done|].
      - split; [done|]. intros k x j c Hk Hx Hj Hc. apply (Hf k x j); [done|done| |done].
        destruct (decide (j = i)) as [->|]; [congruence|lia].
      - intros j x Hj. apply Hb. lia. }
  case_bool_decide as Hcan; cbn [negb].
  2:{ intros H Hnd Hb. apply IH in H as [Hl Hf]; [|done|].
      - split; [done|]. intros k x j c Hk Hx Hj Hc Hcc. apply (Hf k x j); [done|done| |done|done].
        destruct (decide (j = i)) as [->|]; [|lia]. assert (c = e) as -> by congruence. done.
      - intros j x Hj. apply Hb. lia. }
  destruct (if gh then _ else _) as [err1 s1] eqn:Ecall.
  assert (exists c, v_calls s1 = (c, err1) :: v_calls s) as [call1 Ec1].
  { unfold ext in Ecall. destruct gh; injection Ecall as <- <-; by eexists. }
  pose proof (suspend_call_eff 0 gh (e_mp e) s err1 s1 Ecall) as E1.
  unfold nz. destruct (Z.eqb_spec err1 0) as [->|Hne]; cbn [negb]; [|intros [= -> _ _]; done].
  rewrite mark_alter. set (ms1 := alter (mark gh) i ms).
  destruct (sync_aliases (length ms1) ms1 (e_mp e) s1) as [err2 s2] eqn:Es.
  destruct (Z.eqb_spec err2 0) as [->|Hne]; cbn [negb]; [|intros [= -> _ _]; done].
  apply sync_aliases_calls in Es as (l & Hl & Hsync & Hall). intros H Hnd Hb.
  assert (forall k x, ms !! k = Some x -> exists y, ms1 !! k = Some y /\ e_mp y = e_mp x /\ suspend_mp y = suspend_mp x /\
    (is_canonical x -> is_canonical y)) as Hget.
  { intros k x Hk. unfold ms1. destruct (decide (i = k)) as [<-|].
    - rewrite list_lookup_alter_eq, Hk. eexists. split; [reflexivity|]. by destruct gh.
    - rewrite list_lookup_alter_ne by done. by exists x. }
  assert (map e_mp ms1 = map e_mp ms) as Hm1 by (apply map_alter_same; by destruct gh).
  assert (forall r, held (v_calls s2) r = held (v_calls s) r + ind (RSusp (e_mp e)) r + (if gh then 0 else ind RGlobal r)) as Hh.
  { intros r. rewrite Hl, held_syncs by done. rewrite (ef_held _ _ _ _ _ E1). cbn [Z.eqb]. lia. }
  apply IH in H as [(l' & Hl') Hf].
  - split; [exists (l' ++ l ++ [(call1, 0)]); by rewrite Hl', Hl, Ec1, <-!app_assoc|].
    intros k x j c Hk Hx Hj Hc Hcc. destruct (Hget k x Hk) as (y & Hy & Y1 & Y2 & _).
    destruct (Hget j c Hc) as (d & Hd & D1 & D2 & D3).
    destruct (decide (j = i)) as [->|]; [|rewrite <-Y1, <-D1; apply (Hf k y j d); [done|congruence|lia|done|auto]].
    assert (c = e) as -> by congruence. rewrite Hl', Hl. apply flushed_app.
    destruct (Hall k y (lookup_lt_Some _ _ _ Hy) Hy ltac:(congruence)) as (fl & F1 & F2).
    apply list_elem_of_split in F2 as (l1 & l2 & ->). apply Forall_app in Hsync as [_ Hs2].
    apply Forall_cons in Hs2 as [_ Hs2]. exists l1, fl, (l2 ++ v_calls s1).
    split; [by rewrite <-app_assoc, Y1|]. split; [done|]. rewrite held_syncs by done.
    rewrite (ef_held _ _ _ _ _ E1). cbn [Z.eqb]. rewrite (Hb i e) by (done || lia).
    unfold ind. rewrite decide_True by done. rewrite (decide_False (P := RGlobal = _)) by done. destruct gh; lia.
  - by rewrite Hm1.
  - intros j y Hj Hy. assert (is_Some (ms !! j)) as [x Hx].
    { apply lookup_lt_is_Some. apply lookup_lt_Some in Hy. unfold ms1 in Hy. by rewrite length_alter in Hy. }
    destruct (Hget j x Hx) as (y' & Hy' & Y1 & _). assert (y' = y) as -> by congruence. rewrite Y1, Hh, (Hb j x) by (done || lia).
    assert (e_mp e <> e_mp x) as Hne.
    { intros E. rewrite NoDup_alt in Hnd. assert (j = i); [|lia].
      apply (Hnd j i (e_mp x)); rewrite list_lookup_fmap; [by rewrite Hx|by rewrite Ei; simpl; rewrite E]. }
    unfold ind. rewrite decide_False by congruence. rewrite (decide_False (P := RGlobal = _)) by done. destruct gh; lia.
Qed.

End sync.
