(* ===== verification/S2Thms.v ===== *)
(** * The all-mount barrier: all or nothing

    vfs_suspend_all ends; on an error everything taken is given back, on
    success the session holds every mount, and vfs_resume_all gives it back. *)

From stdpp Require Import base numbers list sets.
From S2P Require Import Prelude Sysctl Mount MountFacts S2idle S2Facts S2Steps.

(** ** Canonical mounts *)

Definition lower_in (s : vfs) (p : nat) : option nat := mnt_lower (get_mount s p).

(** [c] is the bottom of the stack of [p]. *)
Definition bottom_of (s : vfs) (p c : nat) : Prop :=
  exists n, nth_lower (lower_in s) p n = Some c /\ lower_in s c = None.

Definition lowers_closed (s : vfs) : Prop :=
  forall p q, (p < length (v_mounts s))%nat -> lower_in s p = Some q -> (q < length (v_mounts s))%nat.

(** Everything of an entry but its canonical mount. *)
Definition no_canon (e : vfs_s2idle_mount) : nat * bool * bool * bool :=
  (e_mp e, suspended e, global_lock e, updating_held e).

Lemma canonical_all_spec s all ms : lowers_closed s ->
  Forall (fun e => (e_mp e < length (v_mounts s))%nat) ms ->
  exists err ms', canonical_all s all ms = Some (err, ms') /\ map no_canon ms' = map no_canon ms /\
    (err = 0 -> Forall (fun e => exists c, suspend_mp e = Some c /\ bottom_of s (e_mp e) c /\
       In c (map e_mp all)) ms') /\
    (err = ELOOP -> exists e, In e ms /\ forall n, is_Some (nth_lower (lower_in s) (e_mp e) n)).
Proof.
  intros Hcl. induction 1 as [|e ms He Hms IH]; [exists 0, []; by repeat split|]. cbn [canonical_all].
  destruct (canonical_mount_total (lower_in s) (e_mp e) (length (v_mounts s)) He Hcl
    (S (S (length (v_mounts s)))) (le_n _)) as [(n & b & H1 & H2 & H3)|[H1 H3]];
    unfold lower_in in H3; rewrite H3.
  - destruct (vfs_s2idle_has_mount all b) eqn:Eh; cbn [negb].
    2:{ exists EBUSY, (set_suspend_mp (Some b) e :: ms). by repeat split. }
    destruct IH as (err & ms' & -> & I1 & I2 & I3). exists err, (set_suspend_mp (Some b) e :: ms').
    split; [done|]. split; [cbn [map]; by rewrite I1|]. split.
    + intros Herr. constructor; [|auto]. exists b. split; [done|]. split; [by exists n|].
      unfold vfs_s2idle_has_mount in Eh. apply existsb_exists in Eh as (x & Hx & Exb).
      apply Nat.eqb_eq in Exb as <-. by apply in_map.
    + intros Herr. destruct (I3 Herr) as (x & Hx & Hn). exists x. split; [by right|done].
  - exists ELOOP, (set_suspend_mp None e :: ms). split; [done|]. split; [done|]. split; [done|].
    intros _. exists e. split; [by left|done].
Qed.

(** ** A session in progress *)

(** An effect of code that leaves the mount list alone. *)
Lemma eff_all_list c h s s' : (forall id, eff id c h s s') -> mountlist s' = mountlist s.
Proof.
  intros H. set (id := mountlist_alloc_marker (mountlist s ++ mountlist s')).
  pose proof (fresh_marker (mountlist s ++ mountlist s')) as Hf. fold id in Hf.
  pose proof (ef_list _ _ _ _ _ (H id)) as E.
  rewrite !base_fresh in E by (intros X; apply Hf, elem_of_app; auto). done.
Qed.

Definition all_held (u : nat -> option nat) (ms : list vfs_s2idle_mount) (cap : Z) (r : res) : Z :=
  total (e_trans r) ms + total (e_update u r) ms + total (e_susp r) ms + mem_held cap r.

(** [s] is [s0] and the holds of the session. *)
Record session (id : nat) (s0 s : vfs) (ms : list vfs_s2idle_mount) (cap : Z) : Prop := {
  se_eff : eff id (fun i => total (e_ref i) ms) (all_held (upd s0) ms cap) s0 s;
  se_list : mountlist s = mountlist s0;
  se_valid : Forall (fun e => (e_mp e < length (v_mounts s0))%nat) ms;
  se_locks : locks_ok (upd s0) ms;
  se_susp : exists gh, susp_ok gh ms
}.

Section thms.
Context `{EX : Outside}.

Ltac effz := intros; cbv beta; lia.

Lemma total_map_eq {B} f (g : vfs_s2idle_mount -> B) ms ms' :
  (forall e e', g e = g e' -> f e = f e') -> map g ms' = map g ms -> total f ms' = total f ms.
Proof.
  intros H. revert ms'. induction ms as [|e ms IH]; intros [|e' ms'] E; try done.
  injection E as E1 E2. rewrite !total_cons, (IH ms' E2). f_equal. by apply H.
Qed.

Lemma refs_bound i ms : total (e_ref i) ms <= Z.of_nat (length ms).
Proof.
  induction ms as [|e ms IH]; [done|]. rewrite total_cons. cbn [length]. unfold e_ref at 1.
  pose proof (ind_range (e_mp e) i). lia.
Qed.

(** The part common to failing and resuming. *)
Lemma release_eff id u ms s c n cap : (forall p, upd s p = u p) -> locks_ok u ms ->
  Forall (fun e => (e_mp e < length (v_mounts s))%nat) ms ->
  rooms (fun i => c i + total (e_ref i) ms) n s -> (forall i, 0 <= c i) -> 0 <= n ->
  let r := vfs_s2idle_unlock_updates ms s in
  eff id (fun i => - total (e_ref i) ms)
    (fun r => - total (e_trans r) ms - total (e_update u r) ms - mem_held cap r) s
    (free_mounts cap (unbusy_all r.1 r.2)).
Proof.
  intros Hu [Hl _] Hv R Hc Hn. cbv zeta.
  destruct (unlock_updates_spec id u ms s Hu) as [U1 U2].
  { apply Forall_lookup. intros i e He. by apply (Hl i e). }
  destruct (vfs_s2idle_unlock_updates ms s) as [ms1 s1]. cbn [fst snd] in *. subst ms1.
  assert (map e_mp (map unlock1 ms) = map e_mp ms) as Hmp.
  { rewrite map_map. apply map_ext. intros e. unfold unlock1. by destruct (updating_held e). }
  assert (forall i, total (e_ref i) (map unlock1 ms) = total (e_ref i) ms) as Hr.
  { intros i. apply (total_map_eq _ e_mp); [|done]. intros e e' E. unfold e_ref. by rewrite E. }
  assert (forall r, total (e_trans r) (map unlock1 ms) = total (e_trans r) ms) as Ht.
  { intros r. apply (total_map_eq _ e_mp); [|done]. intros e e' E. unfold e_trans. by rewrite E. }
  assert (eff id (fun i => - total (e_ref i) (map unlock1 ms)) (fun r => - total (e_trans r) (map unlock1 ms))
    s1 (unbusy_all (map unlock1 ms) s1)) as E2.
  { apply (unbusy_all_spec id _ s1 c n); try done.
    - rewrite (eff_length _ _ _ _ _ U2). apply Forall_map. eapply Forall_impl; [exact Hv|].
      intros e He. unfold compose, unlock1. by destruct (updating_held e).
    - eapply rooms_weaken; [exact (rooms_same id _ _ _ _ _ U2 R)|intros i; cbv beta; by rewrite Hr|lia]. }
  eapply eff_step; [exact U2|eapply eff_trans; [exact E2|apply free_mounts_eff]|intros i|intros r];
    cbv beta; rewrite ?Hr, ?Ht; lia.
Qed.

(** Giving back a whole session, suspended or not. *)
Lemma session_release id s0 s ms cap n : session id s0 s ms cap -> rooms (fun _ => 0) n s0 ->
  Z.of_nat (length ms) <= n ->
  let r := vfs_s2idle_resume_suspended ms s in
  let q := vfs_s2idle_unlock_updates r.1 r.2 in
  let s' := free_mounts cap (unbusy_all q.1 q.2) in
  eff id (fun _ => 0) (fun _ => 0) s0 s' /\ mountlist s' = mountlist s0.
Proof.
  intros [E L V K [gh [G1 G2]]] R Hn. cbv zeta.
  assert (Forall has_canonical ms) as Hcan.
  { eapply Forall_impl; [exact G1|]. intros e [H _] Hs. rewrite (H Hs). done. }
  assert (forall id, eff id (fun i => - total (e_ref i) ms) (fun r => - all_held (upd s0) ms cap r) s
    (free_mounts cap (unbusy_all
      (vfs_s2idle_unlock_updates (vfs_s2idle_resume_suspended ms s).1 (vfs_s2idle_resume_suspended ms s).2).1
      (vfs_s2idle_unlock_updates (vfs_s2idle_resume_suspended ms s).1 (vfs_s2idle_resume_suspended ms s).2).2)))
    as Hall.
  { intros id'. destruct (resume_suspended_spec id' ms s Hcan) as [S1 S2].
    destruct (vfs_s2idle_resume_suspended ms s) as [ms1 s1]. cbn [fst snd] in *.
    assert (map (fun e => (e_mp e, updating_held e)) ms1 = map (fun e => (e_mp e, updating_held e)) ms) as Hm.
    { rewrite S1, !map_map. apply map_ext. intros e. unfold resume1, resume2.
      destruct (suspended e) eqn:A, (global_lock e) eqn:B; simpl; rewrite ?A, ?B; done. }
    assert (map e_mp ms1 = map e_mp ms) as Hm1.
    { apply (f_equal (map fst)) in Hm. by rewrite !map_map in Hm. }
    assert (locks_ok (upd s0) ms1) as K1.
    { destruct K as [K1 K2].
      assert (forall i e, ms1 !! i = Some e -> exists x, ms !! i = Some x /\ e_mp x = e_mp e /\
        updating_held x = updating_held e) as Hget.
      { intros i e He. apply (f_equal (fun l => l !! i)) in Hm. rewrite !list_lookup_fmap, He in Hm.
        destruct (ms !! i) as [x|]; [|done]. injection Hm as A B. by exists x. }
      split.
      - intros i e He Hh. destruct (Hget i e He) as (x & X1 & <- & X3). apply (K1 i x); [done|congruence].
      - intros i j e x He Hx Hhe Hhx Hu. destruct (Hget i e He) as (a & A1 & A2 & A3), (Hget j x Hx) as (b & B1 & B2 & B3).
        apply (K2 i j a b); congruence. }
    assert (forall i, total (e_ref i) ms1 = total (e_ref i) ms) as Hr.
    { intros i. apply (total_map_eq _ e_mp); [|done]. intros e e' Ee. unfold e_ref. by rewrite Ee. }
    assert (forall r, total (e_trans r) ms1 = total (e_trans r) ms) as Ht.
    { intros r. apply (total_map_eq _ e_mp); [|done]. intros e e' Ee. unfold e_trans. by rewrite Ee. }
    assert (forall r, total (e_update (upd s0) r) ms1 = total (e_update (upd s0) r) ms) as Hu.
    { intros r. apply (total_map_eq _ (fun e => (e_mp e, updating_held e))); [|done].
      intros e e' [= E1 E2]. unfold e_update. by rewrite E1, E2. }
    eapply eff_step; [exact S2| |intros i|intros r].
    - apply (release_eff id' (upd s0) ms1 s1 (fun _ => 0) 0 cap); try done.
      + intros p. by rewrite (eff_upd id' _ _ _ _ p S2), (eff_upd id _ _ _ _ p E).
      + rewrite (eff_length _ _ _ _ _ S2), (eff_length _ _ _ _ _ E).
        assert (Forall (fun p => (p < length (v_mounts s0))%nat) (map e_mp ms1)) as Hf.
        { rewrite Hm1. by apply Forall_map. }
        by apply Forall_map in Hf.
      + apply (rooms_same id' _ _ _ _ _ S2).
        eapply rooms_weaken; [apply (rooms_eff id _ _ _ _ (Z.of_nat (length ms)) _ _ E R)|intros i|lia].
        * intros i. apply refs_bound.
        * cbv beta. rewrite Hr. lia.
    - cbv beta. rewrite Hr. lia.
    - cbv beta. rewrite Ht, Hu. unfold all_held, e_susp. rewrite total_add. lia. }
  split.
  - eapply eff_step; [exact E|apply Hall|effz|effz].
  - by rewrite (eff_all_list _ _ _ _ Hall).
Qed.

(** ** Collecting as a session *)

(** What the code needs of the mounts: a duplicate free list of known mounts,
    lower mounts that exist, and reference counts with room. *)
Record vfs_fit (s : vfs) : Prop := {
  vf_nodup : NoDup (mountlist s);
  vf_valid : list_valid s;
  vf_lower : lowers_closed s;
  vf_room : rooms (fun _ => 0) (2 * Z.of_nat (length (mountlist s)) + 16) s
}.

Lemma totals_fresh ms u r : Forall fresh_entry ms ->
  total (e_update u r) ms = 0 /\ total (e_susp r) ms = 0 /\ total e_global ms = 0.
Proof.
  intros H. assert (forall f : vfs_s2idle_mount -> Z, (forall e, fresh_entry e -> f e = 0) -> total f ms = 0) as Hz.
  { intros f Hf. rewrite (total_ext f (fun _ => 0)); [apply total_zero|]. eapply Forall_impl; [exact H|]. auto. }
  repeat split; apply Hz; intros e ->; done.
Qed.

Lemma fresh_ok u ms : Forall fresh_entry ms -> locks_ok u ms /\ susp_ok false ms.
Proof.
  intros H. split; [|split].
  - rewrite Forall_lookup in H. split.
    + intros i e He. by rewrite (H i e He).
    + intros i j e x He Hx. by rewrite (H i e He).
  - eapply Forall_impl; [exact H|]. by intros e ->.
  - by apply (totals_fresh ms (fun _ => None) RGlobal).
Qed.

Lemma collect_session s0 : vfs_fit s0 ->
  let id := mountlist_alloc_marker (mountlist s0) in
  let s1 := (mountlist_iterator_init s0).2 in
  exists e ms cap it s2, collect (S (length (mountlist s1))) (mk_iter id None) [] 0 s1 =
      Some (mk_collect e ms cap it s2) /\
    session id s0 (mountlist_iterator_destroy it s2) ms cap /\ Forall fresh_entry ms /\
    Z.of_nat (length ms) <= cap /\ (length ms <= length (mountlist s0))%nat /\
    (e = 0 -> map e_mp ms = mounts_of (mountlist s0)).
Proof.
  intros [N V C R] id s1. pose proof (fresh_marker (mountlist s0)) as Hfr. fold id in Hfr.
  assert (mountlist s1 = [] ++ ME_MARKER id :: mountlist s0) as L1 by done.
  assert (eff id (fun _ => 0) (fun _ => 0) s0 s1) as E1.
  { pose proof (eff_refl id s0) as [A1 A2 A3 A4 A5 A6 A7]. split; try done.
    rewrite L1. apply base_cons_marker. }
  assert (length (mountlist s1) = S (length (mountlist s0))) as Hlen by (by rewrite L1).
  destruct (collect_spec id (S (length (mountlist s1))) (mk_iter id None) [] 0 s1 [] (mountlist s0)
    (2 * Z.of_nat (length (mountlist s0)) + 16)) as (e & ms & cap & o & s2 & Ec & [F1 F2 F3 F4 F5 F5' F6 F7]).
  - done.
  - done.
  - rewrite L1. apply NoDup_cons. by split.
  - by eapply list_valid_eff.
  - done.
  - eapply rooms_weaken; [exact (rooms_same id _ _ _ _ _ E1 R)|intros i; cbn; lia|lia].
  - rewrite Hlen. lia.
  - lia.
  - done.
  - cbn [app me_mount it_ref it_trans] in *. rewrite (eff_length _ _ _ _ _ E1) in *.
    exists e, ms, cap, (mk_iter id o), s2. split; [done|].
    assert (rooms (fun i => total (e_ref i) ms + it_ref o i) (2 * Z.of_nat (length (mountlist s0)) + 16 -
      (Z.of_nat (length ms) + 1)) s2) as R2.
    { eapply rooms_weaken; [eapply (rooms_eff id _ _ _ _ (Z.of_nat (length ms) + 1)); [exact F4|exact (rooms_same id _ _ _ _ _ E1 R)|]|intros i|lia].
      - intros i. cbv beta. pose proof (refs_bound i ms). pose proof (it_ref_range o i). lia.
      - cbv beta. lia. }
    destruct (drop_hold id o s2 (fun i => total (e_ref i) ms) _
      ltac:(intros p Hp; rewrite (eff_length _ _ _ _ _ F4), (eff_length _ _ _ _ _ E1); by apply F6) R2
      (fun i => refs_nonneg i ms) ltac:(lia)) as [E3 L3]. cbv zeta in E3, L3.
    unfold mountlist_iterator_destroy. cbn [me_mount mi_marker].
    set (s3 := match o with Some mp => vfs_unbusy mp s2 | None => s2 end) in *. clearbody s3.
    assert (tailq_remove (ME_MARKER id) (mountlist s3) = mountlist s0) as L4.
    { destruct F5 as (l1 & l2 & El & Hnd). rewrite L3, El. rewrite El in Hnd.
      apply NoDup_app in Hnd as (_ & N2 & N3). apply NoDup_cons in N3 as [N3 _].
      assert (ME_MARKER id ∉ l1) as Hl1 by (intros X; apply (N2 _ X); set_solver).
      rewrite tailq_remove_at by done. pose proof (ef_list _ _ _ _ _ F4) as Eb.
      rewrite El, base_marker, L1 in Eb. cbn [app] in Eb.
      rewrite base_cons_marker, !base_fresh in Eb; [done|done|].
      intros X. apply elem_of_app in X as [X|X]; done. }
    destruct (fresh_ok (upd s0) ms F1) as [K1 K2].
    split; [split; [|done|done|done|by exists false]|].
    + pose proof (eff_trans id _ _ _ _ _ _ _ E1 (eff_trans id _ _ _ _ _ _ _ F4 E3)) as E5.
      destruct E5 as [A1 A2 A3 A4 A5 A6 A7]. split; try done.
      * intros i. cbn [v_mounts set_mountlist]. rewrite A1. destruct (v_mounts s0 !! i); [|done]. simpl.
        f_equal. f_equal. cbv beta. lia.
      * intros r. cbn [v_calls set_mountlist]. rewrite A2. cbv beta. unfold all_held.
        destruct (totals_fresh ms (upd s0) r F1) as (-> & -> & _). unfold mem_held at 2. simpl. lia.
      * cbn [mountlist set_mountlist]. by rewrite L4.
    + split; [done|]. split; [lia|]. split; [lia|]. intros He. by destruct (F7 He).
Qed.

(** ** The whole session *)

Lemma resume_nothing ms s : Forall (fun e => suspended e = false) ms ->
  vfs_s2idle_resume_suspended ms s = (ms, s).
Proof.
  intros H. assert (resume_others ms s = (ms, s)) as E1.
  { induction H as [|e ms He _ IH]; [done|]. cbn [resume_others]. rewrite He. simpl. by rewrite IH. }
  unfold vfs_s2idle_resume_suspended. rewrite E1. clear E1.
  induction H as [|e ms He _ IH]; [done|]. cbn [resume_global]. rewrite He. simpl. by rewrite IH.
Qed.

(** Everything given back: the state is [s0] again, apart from the calls. *)
Definition given_back (s0 s : vfs) : Prop :=
  (exists id, eff id (fun _ => 0) (fun _ => 0) s0 s) /\ mountlist s = mountlist s0.

Lemma rollback_gives_back id s0 s ms cap n cur err : session id s0 s ms cap -> rooms (fun _ => 0) n s0 ->
  Z.of_nat (length ms) <= n ->
  exists s1, session_rollback cur err ms cap s = (err, [], vfs_s2idle_barrier_exit cur s1) /\ given_back s0 s1.
Proof.
  intros S R Hn. destruct (session_release id s0 s ms cap n S R Hn) as [E L]. cbv zeta in E, L.
  unfold session_rollback, session_fail. destruct (vfs_s2idle_resume_suspended ms s) as [ms1 s1].
  cbn [fst snd] in *. destruct (vfs_s2idle_unlock_updates ms1 s1) as [ms2 s2]. cbn [fst snd] in *.
  eexists. split; [reflexivity|]. split; [by exists id|done].
Qed.

Lemma fail_gives_back id s0 s ms cap n cur err : session id s0 s ms cap -> rooms (fun _ => 0) n s0 ->
  Z.of_nat (length ms) <= n -> Forall (fun e => suspended e = false) ms ->
  exists s1, session_fail cur err ms cap s = (err, [], vfs_s2idle_barrier_exit cur s1) /\ given_back s0 s1.
Proof.
  intros S R Hn Hs. destruct (rollback_gives_back id s0 s ms cap n cur err S R Hn) as (s1 & E & G).
  unfold session_rollback in E. rewrite resume_nothing in E by done. by exists s1.
Qed.

(** The entries keep what the totals depend on. *)
Lemma session_change id s0 s s' ms ms' cap cap' h :
  session id s0 s ms cap -> (forall i, eff i (fun _ => 0) h s s') -> map e_mp ms' = map e_mp ms ->
  (forall r, all_held (upd s0) ms' cap' r = all_held (upd s0) ms cap r + h r) ->
  locks_ok (upd s0) ms' -> (exists gh, susp_ok gh ms') -> session id s0 s' ms' cap'.
Proof.
  intros [E L V K G] Es Hm Hh K' G'. split; try done.
  - eapply eff_step; [exact E|apply (Es id)|intros i|intros r]; cbv beta; [|by rewrite Hh].
    rewrite Z.add_0_r. symmetry. apply (total_map_eq _ e_mp); [|done]. intros e e' Ee. unfold e_ref. by rewrite Ee.
  - by rewrite (eff_all_list _ _ _ _ Es).
  - assert (Forall (fun p => (p < length (v_mounts s0))%nat) (map e_mp ms')) as Hf by (rewrite Hm; by apply Forall_map).
    by apply Forall_map in Hf.
Qed.

(** The same up to the canonical mounts of entries that hold nothing but
    references. *)
Lemma canon_change u ms ms' r : Forall fresh_entry ms -> map no_canon ms' = map no_canon ms ->
  Forall (fun e => suspended e = false /\ global_lock e = false /\ updating_held e = false) ms' /\
  total (e_trans r) ms' = total (e_trans r) ms /\ total (e_update u r) ms' = 0 /\ total (e_susp r) ms' = 0 /\
  locks_ok u ms' /\ susp_ok false ms' /\ map e_mp ms' = map e_mp ms.
Proof.
  intros Hf Hm.
  assert (Forall (fun e => suspended e = false /\ global_lock e = false /\ updating_held e = false) ms') as Hn.
  { assert (Forall (fun t : nat * bool * bool * bool => t.1.1.2 = false /\ t.1.2 = false /\ t.2 = false)
      (map no_canon ms')) as H.
    { rewrite Hm. apply Forall_map. eapply Forall_impl; [exact Hf|]. by intros e ->. }
    by apply Forall_map in H. }
  assert (forall f : vfs_s2idle_mount -> Z, (forall e, suspended e = false -> global_lock e = false ->
    updating_held e = false -> f e = 0) -> total f ms' = 0) as Hz.
  { intros f H. rewrite (total_ext f (fun _ => 0)); [apply total_zero|].
    eapply Forall_impl; [exact Hn|]. intros e (H1 & H2 & H3). auto. }
  split; [done|]. split.
  { apply (total_map_eq _ no_canon); [|done]. intros e e' [= E _ _ _]. unfold e_trans. by rewrite E. }
  split; [apply Hz; intros e _ _ H; unfold e_update; by rewrite H|].
  split; [apply Hz; intros e H _ _; unfold e_susp, e_ctl, e_glob; by rewrite H|].
  split; [|split; [split|]].
  - rewrite Forall_lookup in Hn. split.
    + intros i e He Hu. destruct (Hn i e He) as (_ & _ & H). congruence.
    + intros i j e x He _ Hu. destruct (Hn i e He) as (_ & _ & H). congruence.
  - eapply Forall_impl; [exact Hn|]. intros e (H1 & H2 & _). by rewrite H1, H2.
  - apply Hz. intros e _ H _. unfold e_global. by rewrite H.
  - apply (f_equal (map (fun t : nat * bool * bool * bool => t.1.1.1))) in Hm. by rewrite !map_map in Hm.
Qed.

Lemma bottom_self s c c' : lower_in s c = None -> bottom_of s c c' -> c' = c.
Proof.
  intros Hc (n & Hn & _). destruct n as [|n]; [by injection Hn|].
  exfalso. assert (nth_lower (lower_in s) c (S n) = None); [|congruence].
  apply (nth_lower_None _ _ 1); [lia|]. simpl. unfold nth_lower, lower_of. simpl. done.
Qed.

(** What a successful session has, of the mounts of [s]. *)
Record holds_all (s : vfs) (ms : list vfs_s2idle_mount) : Prop := {
  ha_mounts : map e_mp ms = mounts_of (mountlist s);
  ha_canon : Forall (fun e => exists c, suspend_mp e = Some c /\ bottom_of s (e_mp e) c /\ In c (map e_mp ms)) ms;
  ha_susp : forall j e, ms !! j = Some e -> suspended e = true <-> is_canonical e;
  ha_locks : forall j, (j < length ms)%nat -> updater_locked (upd s) ms j;
  ha_once : locks_ok (upd s) ms;
  ha_global : total e_global ms = if (length ms =? 0)%nat then 0 else 1
}.

Lemma has_canonical_entry s ms :
  Forall (fun e => exists c, suspend_mp e = Some c /\ bottom_of s (e_mp e) c /\ In c (map e_mp ms)) ms ->
  ms <> [] -> exists j e, (j < length ms)%nat /\ ms !! j = Some e /\ is_canonical e.
Proof.
  intros H Hne. destruct ms as [|e ms']; [done|]. apply Forall_cons in H as Ha.
  destruct Ha as [(c & Hc & Hb & Hin) _]. apply in_map_iff in Hin as (x & Ex & Hx).
  apply list_elem_of_In, list_elem_of_lookup in Hx as [j Hj]. exists j, x. split; [by apply lookup_lt_Some in Hj|].
  split; [done|]. rewrite Forall_lookup in H. destruct (H j x Hj) as (c' & Hc' & Hb' & _).
  unfold is_canonical. rewrite Hc'. f_equal. rewrite Ex in *. destruct Hb as (n & _ & Hl). by apply (bottom_self s).
Qed.

End thms.
