(* ===== verification/S2Session.v ===== *)
(** * vfs_suspend_all and vfs_resume_all

    The two entry points as wholes: the session ends, unwinds on every error,
    holds every mount on success, and resumes to where it started. *)

From stdpp Require Import base numbers list sets.
From S2P Require Import Prelude Sysctl Mount MountFacts S2idle S2Facts S2Steps S2Thms.

Section session.
Context `{EX : Outside} (curlwp : nat).

(** Every entry's mount was flushed with its file system suspended. *)
Definition all_flushed (s0 s' : vfs) (ms : list vfs_s2idle_mount) : Prop :=
  forall e c, e ∈ ms -> suspend_mp e = Some c -> flushed (v_calls s0) (v_calls s') (e_mp e) c.

(** The outcome: everything given back, or a session that holds all. *)
Definition outcome (s0 : vfs) (err : Z) (ms : list vfs_s2idle_mount) (s' : vfs) : Prop :=
  (err <> 0 /\ ms = [] /\ exists s1, s' = vfs_s2idle_barrier_exit curlwp s1 /\ given_back s0 s1) \/
  (err = 0 /\ (exists id, session id s0 s' ms (Z.of_nat (length ms))) /\ holds_all s0 ms /\ all_flushed s0 s' ms).

Definition e_pair (e : vfs_s2idle_mount) : nat * option nat := (e_mp e, suspend_mp e).
Definition unsuspended (e : vfs_s2idle_mount) : Prop := suspended e = false /\ global_lock e = false.

Lemma map_lookup_eq {A B} (f : A -> B) l l' j x : map f l' = map f l -> l' !! j = Some x ->
  exists y, l !! j = Some y /\ f y = f x.
Proof.
  intros Hm Hx. apply (f_equal (fun l => l !! j)) in Hm. rewrite !list_lookup_fmap, Hx in Hm.
  destruct (l !! j) as [y|]; [|done]. injection Hm as E. by exists y.
Qed.

Lemma map_through {A B C} (f : A -> B) (g : B -> C) l l' : map f l' = map f l ->
  map (fun x => g (f x)) l' = map (fun x => g (f x)) l.
Proof. intros H. apply (f_equal (map g)) in H. by rewrite !map_map in H. Qed.

(** Unsuspended entries hold no suspension. *)
Lemma unsuspended_ok ms : Forall unsuspended ms -> susp_ok false ms /\ forall r, total (e_susp r) ms = 0.
Proof.
  intros H. assert (forall f : vfs_s2idle_mount -> Z, (forall e, unsuspended e -> f e = 0) -> total f ms = 0) as Hz.
  { intros f Hf. rewrite (total_ext f (fun _ => 0)); [apply total_zero|]. eapply Forall_impl; [exact H|]. auto. }
  split; [split|].
  - eapply Forall_impl; [exact H|]. intros e [H1 H2]. by rewrite H1, H2.
  - apply Hz. intros e [_ H2]. unfold e_global. by rewrite H2.
  - intros r. apply Hz. intros e [H1 _]. unfold e_susp, e_ctl, e_glob. by rewrite H1.
Qed.

(** The updater locks: a session still, with every updater locked on success. *)
Lemma lock_phase s0 s id ms cap err ms' s' : session id s0 s ms cap ->
  Forall (fun e => unsuspended e /\ updating_held e = false) ms ->
  lock_updates (length ms) ms s = (err, ms', s') ->
  session id s0 s' ms' cap /\ Forall unsuspended ms' /\ map e_pair ms' = map e_pair ms /\
  (err = 0 -> forall j, (j < length ms')%nat -> updater_locked (upd s0) ms' j).
Proof.
  intros S Hfree El. rewrite Forall_lookup in Hfree.
  assert (forall i, eff i (fun _ => 0) (fun r => total (e_update (upd s0) r) ms' - total (e_update (upd s0) r) ms) s s' /\
    map no_update ms' = map no_update ms /\ locks_ok (upd s0) ms' /\
    (err = 0 -> forall j, (j < length ms)%nat -> updater_locked (upd s0) ms' j)) as HL.
  { intros i. apply (lock_updates_spec i (upd s0) (length ms) ms s err ms' s'); try done.
    - intros p. apply (eff_upd id _ _ _ _ p (se_eff _ _ _ _ _ S)).
    - intros j e _ He. by destruct (Hfree j e He).
    - apply (se_locks _ _ _ _ _ S).
    - intros j Hj. lia. }
  destruct (HL id) as (_ & M1 & K1 & D1).
  assert (length ms' = length ms) as Hlen by (apply (f_equal length) in M1; by rewrite !length_map in M1).
  assert (Forall unsuspended ms') as Hs.
  { apply Forall_lookup. intros j e He. destruct (map_lookup_eq _ _ _ _ _ M1 He) as (x & Hx & [= _ _ E3 E4]).
    destruct (Hfree j x Hx) as [[F1 F2] _]. split; congruence. }
  assert (Forall unsuspended ms) as Hs0.
  { apply Forall_lookup. intros j e He. by destruct (Hfree j e He). }
  assert (map e_mp ms' = map e_mp ms) as Hmp.
  { apply (map_through no_update (fun t : nat * option nat * bool * bool => t.1.1.1) _ _ M1). }
  split; [|split; [done|split; [|by rewrite Hlen]]].
  - eapply (session_change id s0 s s' ms ms'); [exact S|intros i; apply HL|done| |done|].
    + intros r. unfold all_held. rewrite (proj2 (unsuspended_ok ms Hs0) r), (proj2 (unsuspended_ok ms' Hs) r).
      rewrite (total_map_eq (e_trans r) e_mp ms ms'); [lia| |done]. intros e e' E. unfold e_trans. by rewrite E.
    + exists false. by apply unsuspended_ok.
  - apply (map_through no_update (fun t : nat * option nat * bool * bool => t.1.1) _ _ M1).
Qed.

Lemma total_trans_susp c ms : total (e_trans (RSusp c)) ms = 0.
Proof. rewrite (total_ext _ (fun _ => 0)); [apply total_zero|]. by apply Forall_true. Qed.

Lemma total_update_susp u c ms : total (e_update u (RSusp c)) ms = 0.
Proof.
  rewrite (total_ext _ (fun _ => 0)); [apply total_zero|]. apply Forall_true. intros e. unfold e_update.
  destruct (updating_held e), (u (e_mp e)); try done.
Qed.

(** The suspension loop: a session still, holding all on success. *)
Lemma suspend_phase s0 s id ms cap err ms' s' : session id s0 s ms cap -> Forall unsuspended ms -> ms <> [] ->
  map e_mp ms = mounts_of (mountlist s0) -> NoDup (mounts_of (mountlist s0)) ->
  Forall (fun e => exists c, suspend_mp e = Some c /\ bottom_of s0 (e_mp e) c /\ In c (map e_mp ms)) ms ->
  (forall j, (j < length ms)%nat -> updater_locked (upd s0) ms j) ->
  suspend_loop (length ms) false ms s = (err, ms', s') ->
  session id s0 s' ms' cap /\ length ms' = length ms /\ (err = 0 -> holds_all s0 ms' /\ all_flushed s0 s' ms').
Proof.
  intros S Hs Hne Hmp Hnd Hcan Hlk El. destruct (unsuspended_ok ms Hs) as [G0 _].
  assert (forall i, eff i (fun _ => 0) (fun r => total (e_susp r) ms' - total (e_susp r) ms) s s' /\
    map no_susp ms' = map no_susp ms /\ (exists gh', susp_ok gh' ms' /\ (false = true -> gh' = true) /\
      (err = 0 -> (exists j e, (j < length ms)%nat /\ ms !! j = Some e /\ is_canonical e) -> gh' = true)) /\
    (err = 0 -> forall j e, ms' !! j = Some e -> is_canonical e -> suspended e = true)) as HL.
  { intros i. apply (suspend_loop_spec i (length ms) false ms s err ms' s'); try done.
    - intros j e _ He. rewrite Forall_lookup in Hs. by apply (Hs j e).
    - intros j e Hj He. apply lookup_lt_Some in He. lia. }
  destruct (HL id) as (_ & M1 & (gh & G1 & _ & G2) & D1).
  assert (length ms' = length ms) as Hlen by (apply (f_equal length) in M1; by rewrite !length_map in M1).
  assert (map e_mp ms' = map e_mp ms) as Hm.
  { apply (map_through no_susp (fun t : nat * option nat * bool => t.1.1) _ _ M1). }
  assert (locks_ok (upd s0) ms') as K1.
  { destruct (se_locks _ _ _ _ _ S) as [A1 A2]. split.
    - intros i e He Hu. destruct (map_lookup_eq _ _ _ _ _ M1 He) as (x & Hx & [= E1 _ E3]).
      rewrite <-E1. apply (A1 i x); congruence.
    - intros i j e x He Hx Hu Hv Ee. destruct (map_lookup_eq _ _ _ _ _ M1 He) as (y & Hy & [= E1 _ E3]),
        (map_lookup_eq _ _ _ _ _ M1 Hx) as (z & Hz & [= F1 _ F3]). apply (A2 i j y z); congruence. }
  split; [|split; [done|]].
  - eapply (session_change id s0 s s' ms ms'); [exact S|intros i; apply HL|done| |done|by exists gh].
    intros r. unfold all_held.
    rewrite (total_map_eq (e_trans r) e_mp ms ms'); [| |done].
    2:{ intros e e' E. unfold e_trans. by rewrite E. }
    rewrite (total_map_eq (e_update (upd s0) r) no_susp ms ms'); [lia| |done].
    intros e e' [= E1 _ E3]. unfold e_update. by rewrite E1, E3.
  - intros He. split.
    2:{ rewrite He in El. destruct (suspend_loop_flushed (v_calls s0) (length ms) false ms s ms' s' El) as [_ Hfl].
        { by rewrite Hmp. }
        { intros j e _ _. rewrite (ef_held _ _ _ _ _ (se_eff _ _ _ _ _ S)). unfold all_held.
          rewrite (proj2 (unsuspended_ok ms Hs)), total_trans_susp, total_update_susp. unfold mem_held.
          destruct (cap =? 0); [lia|]. unfold ind. rewrite decide_False by done. lia. }
        intros e c Hin Ec. apply list_elem_of_lookup in Hin as [k Hk].
        destruct (map_lookup_eq _ _ _ _ _ M1 Hk) as (x & Hx & [= E1 E2 _]).
        rewrite Forall_lookup in Hcan. destruct (Hcan k x Hx) as (c' & C1 & C2 & C3).
        assert (c' = c) as -> by congruence. apply in_map_iff in C3 as (y & <- & Hy).
        apply list_elem_of_In, list_elem_of_lookup in Hy as [j Hj]. rewrite <-E1.
        apply (Hfl k x j y); [done|congruence|by apply lookup_lt_Some in Hj|done|].
        destruct (Hcan j y Hj) as (d & F1 & F2 & _). unfold is_canonical. rewrite F1. f_equal.
        destruct C2 as (n & _ & Hn). by apply (bottom_self s0). }
    specialize (D1 He). split; try done.
    + by rewrite Hm.
    + apply Forall_lookup. intros j e Hj. destruct (map_lookup_eq _ _ _ _ _ M1 Hj) as (x & Hx & [= E1 E2 _]).
      rewrite Forall_lookup in Hcan. destruct (Hcan j x Hx) as (c & C1 & C2 & C3). exists c.
      rewrite <-E1, <-E2, Hm. done.
    + intros j e Hj. split; [|by apply (D1 j)]. destruct G1 as [G1 _]. rewrite Forall_lookup in G1. by apply (G1 j).
    + intros j Hj. destruct (Hlk j ltac:(lia)) as (k & e & x & H1 & H2 & H3 & H4 & H5).
      symmetry in M1. destruct (map_lookup_eq _ _ _ _ _ M1 H1) as (e' & He' & [= A1 _ _]),
        (map_lookup_eq _ _ _ _ _ M1 H2) as (x' & Hx' & [= B1 _ B3]).
      exists k, e', x'. rewrite A1, B1. repeat (split; [done || congruence|]). done.
    + rewrite Hlen. destruct ms as [|e ms]; [done|]. cbn [length Nat.eqb].
      destruct G1 as [_ ->]. rewrite (G2 He); [done|]. by apply (has_canonical_entry s0).
Qed.

(** From the end of the collection to the end of the call. *)
Lemma session_outcome s0 s id ms cap n : session id s0 s ms cap -> Forall fresh_entry ms -> ms <> [] ->
  lowers_closed s0 -> rooms (fun _ => 0) n s0 -> Z.of_nat (length ms) <= n -> Z.of_nat (length ms) <= cap ->
  map e_mp ms = mounts_of (mountlist s0) -> NoDup (mounts_of (mountlist s0)) ->
  let '(capacity, s) := shrink (Z.of_nat (length ms)) cap s in
  exists r, match canonical_all s ms ms with
  | None => None
  | Some (error, ms) =>
      if nz error then Some (session_fail curlwp error ms capacity s) else
      let '(error, ms, s) := lock_updates (length ms) ms s in
      if nz error then Some (session_fail curlwp error ms capacity s) else
      let '(error, ms, s) := suspend_loop (length ms) false ms s in
      if nz error then Some (session_rollback curlwp error ms capacity s)
      else Some (0, ms, s)
  end = Some r /\ outcome s0 r.1.1 r.1.2 r.2.
Proof.
  intros S Hfr Hne Hcl R Hn Hcap Hmp Hnd. destruct (shrink _ cap s) as [capacity s1] eqn:Esh.
  assert (0 < Z.of_nat (length ms)) as Hpos by (destruct ms; [done|simpl; lia]).
  assert (capacity = Z.of_nat (length ms)) as -> by apply (shrink_eff id _ _ _ _ _ (conj Hpos Hcap) Esh).
  assert (session id s0 s1 ms (Z.of_nat (length ms))) as S1.
  { destruct (fresh_ok (upd s0) ms Hfr) as [K G].
    eapply (session_change id s0 s s1 ms ms); [exact S| |done| |done|by exists false].
    - intros i. apply (shrink_eff i _ _ _ _ _ (conj Hpos Hcap) Esh).
    - intros r. unfold all_held. cbv beta. lia. }
  assert (forall p, lower_in s1 p = lower_in s0 p) as Hlow.
  { intros p. by destruct (eff_get id _ _ _ _ p (se_eff _ _ _ _ _ S1)) as (? & _). }
  assert (length (v_mounts s1) = length (v_mounts s0)) as Hlv by apply (eff_length id _ _ _ _ (se_eff _ _ _ _ _ S1)).
  destruct (canonical_all_spec s1 ms ms) as (err & ms1 & -> & Hm & Hcan & _).
  { intros p q Hp Hq. rewrite Hlow in Hq. rewrite Hlv in *. by apply (Hcl p). }
  { rewrite Hlv. apply (se_valid _ _ _ _ _ S1). }
  assert (length ms1 = length ms) as Hlen by (apply (f_equal length) in Hm; by rewrite !length_map in Hm).
  destruct (canon_change (upd s0) ms ms1 RGlobal Hfr Hm) as (Hu & _ & _ & _ & K1 & G1 & Hmp1).
  assert (session id s0 s1 ms1 (Z.of_nat (length ms))) as S2.
  { eapply (session_change id s0 s1 s1 ms ms1); [exact S1|intros i; apply eff_refl|done| |done|by exists false].
    intros r. unfold all_held. destruct (canon_change (upd s0) ms ms1 r Hfr Hm) as (_ & -> & -> & -> & _).
    destruct (totals_fresh ms (upd s0) r Hfr) as (-> & -> & _). cbv beta. lia. }
  unfold nz at 1. destruct (Z.eqb_spec err 0) as [He|He]; cbn [negb].
  2:{ destruct (fail_gives_back id s0 s1 ms1 _ n curlwp err S2 R ltac:(lia)) as (s2 & -> & G).
      { eapply Forall_impl; [exact Hu|]. by intros e (? & _). }
      eexists. split; [reflexivity|]. left. split; [done|]. split; [done|]. by exists s2. }
  destruct (lock_updates (length ms1) ms1 s1) as [[err2 ms2] s2] eqn:El.
  destruct (lock_phase s0 s1 id ms1 _ err2 ms2 s2 S2) as (S3 & U3 & M3 & L3); [|done|].
  { eapply Forall_impl; [exact Hu|]. intros e (? & ? & ?). by repeat split. }
  assert (length ms2 = length ms1) as Hlen2 by (apply (f_equal length) in M3; by rewrite !length_map in M3).
  unfold nz at 1. destruct (Z.eqb_spec err2 0) as [He2|He2]; cbn [negb].
  2:{ destruct (fail_gives_back id s0 s2 ms2 _ n curlwp err2 S3 R ltac:(lia)) as (s3 & -> & G).
      { eapply Forall_impl; [exact U3|]. by intros e [? _]. }
      eexists. split; [reflexivity|]. left. split; [done|]. split; [done|]. by exists s3. }
  assert (map e_mp ms2 = map e_mp ms1) as Hmp2 by apply (map_through e_pair fst _ _ M3).
  destruct (suspend_loop (length ms2) false ms2 s2) as [[err3 ms3] s3] eqn:Es.
  destruct (suspend_phase s0 s2 id ms2 _ err3 ms3 s3 S3 U3) as (S4 & Hlen3 & H4).
  { intros ->. destruct ms1; [destruct ms; done|done]. }
  { by rewrite Hmp2, Hmp1. }
  { done. }
  { apply Forall_lookup. intros j e Hj. destruct (map_lookup_eq _ _ _ _ _ M3 Hj) as (x & Hx & [= E1 E2]).
    specialize (Hcan He). rewrite Forall_lookup in Hcan. destruct (Hcan j x Hx) as (c & C1 & (k & C2 & C3) & C4).
    exists c. split; [congruence|]. split; [|by rewrite Hmp2, Hmp1]. exists k. rewrite <-E1, <-Hlow.
    split; [|done]. rewrite <-C2. by apply nth_lower_ext. }
  { by apply L3. }
  { done. }
  unfold nz. destruct (Z.eqb_spec err3 0) as [He3|He3]; cbn [negb].
  - eexists. split; [reflexivity|]. right. split; [done|]. split; [|auto]. exists id. cbn [fst snd].
    by rewrite Hlen3, Hlen2, Hlen.
  - destruct (rollback_gives_back id s0 s3 ms3 _ n curlwp err3 S4 R ltac:(lia)) as (s4 & -> & G).
    eexists. split; [reflexivity|]. left. split; [done|]. split; [done|]. by exists s4.
Qed.

(** ** The entry points *)

(** Only the record of calls differs. *)
Definition same_but_calls (s s' : vfs) : Prop :=
  s' = set_v_calls (v_calls s') s /\ forall r, held (v_calls s') r = held (v_calls s) r.

Lemma given_back_exit s s1 : vfs_s2idle_owner s = None -> vfs_s2idle_mountops s = 0 ->
  given_back (set_vfs_s2idle_owner (Some curlwp) s) s1 ->
  same_but_calls s (vfs_s2idle_barrier_exit curlwp s1).
Proof.
  intros Ho Hm [[id [A1 A2 A3 A4 A5 A6 A7]] L].
  cbn [v_mounts v_calls mountlist vfs_s2idle_ready vfs_s2idle_mountops vfs_s2idle_owner v_asserts
    set_vfs_s2idle_owner] in *.
  split.
  2:{ intros r. unfold vfs_s2idle_barrier_exit, KASSERT. cbv zeta.
      cbn [v_calls set_vfs_s2idle_owner set_v_asserts]. rewrite A2. lia. }
  assert (v_mounts s1 = v_mounts s) as Hv.
  { apply list_eq. intros i. rewrite A1. apply fmap_same, set_refcnt_same. }
  unfold vfs_s2idle_barrier_exit, KASSERT. cbv zeta. cbn [vfs_s2idle_mountops set_v_asserts].
  rewrite A5, A6, Hm. rewrite bool_decide_true by done.
  destruct s as [a b c d e f g], s1 as [a1 b1 c1 d1 e1 f1 g1]. cbn in *. subst.
  unfold set_vfs_s2idle_owner, set_v_asserts, set_v_calls. cbn. by rewrite !andb_true_r.
Qed.

Lemma suspend_all_spec s : vfs_fit s ->
  exists err ms s', vfs_suspend_all curlwp s = Some (err, ms, s') /\
  (err <> 0 -> ms = [] /\ same_but_calls s s') /\
  (err = 0 -> vfs_s2idle_ready s = true /\ vfs_s2idle_owner s = None /\ vfs_s2idle_mountops s = 0 /\
    (exists id, session id (set_vfs_s2idle_owner (Some curlwp) s) s' ms (Z.of_nat (length ms))) /\ holds_all s ms /\
    all_flushed s s' ms).
Proof.
  intros Fit. unfold vfs_suspend_all, vfs_s2idle_barrier_enter.
  destruct (vfs_s2idle_ready s) eqn:Er; cbn [negb].
  2:{ exists ENXIO, [], s. split; [done|]. split; [|done]. intros _. split; [done|]. by destruct s. }
  case_bool_decide as Ho; [|destruct (nz (vfs_s2idle_mountops s)) eqn:Em]; cbn [orb].
  1, 2: exists EBUSY, [], s; split; [done|]; split; [|done]; intros _; split; [done|]; by destruct s.
  assert (vfs_s2idle_owner s = None) as Ho' by (by destruct (vfs_s2idle_owner s); [destruct Ho|]).
  assert (vfs_s2idle_mountops s = 0) as Hm by (by apply negb_false_iff, Z.eqb_eq in Em).
  cbn [nz Z.eqb negb]. set (s0 := set_vfs_s2idle_owner (Some curlwp) s).
  assert (vfs_fit s0) as Fit0 by (destruct Fit; by split).
  destruct (collect_session s0 Fit0) as (e & ms & cap & it & s2 & Ec & S & Hfr & Hcap & Hlen & Hall).
  cbv zeta in Ec, S. change (mountlist_iterator_init s0) with
    (mk_iter (mountlist_alloc_marker (mountlist s0)) None, (mountlist_iterator_init s0).2). cbv iota beta.
  rewrite Ec. revert S. generalize (mountlist_iterator_destroy it s2). intros s3 S.
  pose proof (vf_room _ Fit0) as R. unfold nz at 1. destruct (Z.eqb_spec e 0) as [He|He]; cbn [negb].
  2:{ destruct (fail_gives_back _ s0 s3 ms cap _ curlwp e S R ltac:(lia)) as (s4 & -> & G).
      { eapply Forall_impl; [exact Hfr|]. by intros x ->. }
      exists e, [], (vfs_s2idle_barrier_exit curlwp s4). split; [done|]. split; [|done].
      intros _. split; [done|]. by apply given_back_exit. }
  destruct (Nat.eqb_spec (length ms) 0) as [Hz|Hz].
  - destruct ms; [|done]. exists 0, [], (free_mounts cap s3). split; [done|]. split; [done|]. intros _.
    do 3 (split; [done|]). split.
    + eexists. eapply (session_change _ s0 s3 _ [] []); [exact S|intros i; apply free_mounts_eff|done| | |].
      * intros r. unfold all_held. cbv beta. change (mem_held (Z.of_nat (length [])) r) with 0. lia.
      * apply (fresh_ok _ [] Hfr).
      * exists false. by apply (fresh_ok (upd s0) []).
    + split; [|by intros ? ? ?%elem_of_nil]. split; try done.
      * by rewrite (Hall He).
      * intros j Hj. simpl in Hj. lia.
  - pose proof (session_outcome s0 s3 _ ms cap _ S Hfr ltac:(by intros ->) (vf_lower _ Fit0) R ltac:(lia) Hcap (Hall He) (mounts_of_NoDup _ (vf_nodup _ Fit0))) as H.
    destruct (shrink (Z.of_nat (length ms)) cap s3) as [cap' s4]. destruct H as ([[err ms'] s'] & -> & O).
    exists err, ms', s'. split; [done|]. unfold outcome in O. cbn [fst snd] in O.
    destruct O as [(E & -> & s5 & -> & G)|(E & S' & H & F)].
    + split; [|done]. intros _. split; [done|]. by apply given_back_exit.
    + split; [done|]. intros _. do 3 (split; [done|]). split; [done|].
      split; [|done]. destruct H as [H1 H2 H3 H4 H5 H6]. by split.
Qed.

Lemma resume_all_spec s s' ms : vfs_fit s -> vfs_s2idle_owner s = None -> vfs_s2idle_mountops s = 0 ->
  (exists id, session id (set_vfs_s2idle_owner (Some curlwp) s) s' ms (Z.of_nat (length ms))) ->
  (length ms <= length (mountlist s))%nat -> same_but_calls s (vfs_resume_all curlwp ms s').
Proof.
  intros Fit Ho Hm [id S] Hlen. pose proof (vf_room _ Fit) as R.
  assert (rooms (fun _ => 0) (2 * Z.of_nat (length (mountlist s)) + 16) (set_vfs_s2idle_owner (Some curlwp) s)) as R' by done.
  destruct (session_release id _ s' ms _ _ S R' ltac:(lia)) as [E L]. cbv zeta in E, L. unfold vfs_resume_all.
  destruct (Nat.eqb_spec (length ms) 0) as [Hz|Hz].
  - destruct ms; [|done]. apply given_back_exit; [done|done|]. split; [by exists id|done].
  - destruct (vfs_s2idle_resume_suspended ms s') as [ms1 s1]. cbn [fst snd] in *.
    destruct (vfs_s2idle_unlock_updates ms1 s1) as [ms2 s2]. cbn [fst snd] in *.
    apply given_back_exit; [done|done|]. unfold free_mounts in E, L.
    destruct (Z.eqb_spec (Z.of_nat (length ms)) 0); [lia|]. split; [by exists id|done].
Qed.

End session.
