(* ===== verification/S2Claims.v ===== *)
(** * The promises of the all-mount barrier

    What vfs_suspend_all and vfs_resume_all promise their caller, the S2idle
    suspend path, for any answers of the file systems, fstrans and mutexes. *)

From stdpp Require Import base numbers list sets relations.
From S2P Require Import Prelude Sysctl Mount MountFacts S2idle S2Facts S2Steps S2Thms S2Session.

(** ** Sums with one term *)

Lemma total_one f ms i e : ms !! i = Some e -> f e = 1 ->
  (forall j x, j <> i -> ms !! j = Some x -> f x = 0) -> total f ms = 1.
Proof.
  revert i. induction ms as [|x ms IH]; intros [|i] H H1 H0; [done|done| |]; rewrite total_cons.
  - injection H as ->. rewrite H1. rewrite (total_ext f (fun _ => 0)).
    + rewrite total_zero. lia.
    + apply Forall_lookup. intros j x Hj. by apply (H0 (S j)).
  - rewrite (IH i H H1), (H0 O x); [lia|done|done|]. intros j y Hj. apply (H0 (S j)). lia.
Qed.

Section holds.
Context (s0 : vfs) (ms : list vfs_s2idle_mount) (Hnd : NoDup (mounts_of (mountlist s0))) (H : holds_all s0 ms).

Lemma entries_distinct i j e x : ms !! i = Some e -> ms !! j = Some x -> e_mp e = e_mp x -> i = j.
Proof.
  intros Hi Hj E. assert (NoDup (map e_mp ms)) as N by (by rewrite (ha_mounts _ _ H)).
  rewrite NoDup_alt in N. apply (N i j (e_mp e)); rewrite list_lookup_fmap; [by rewrite Hi|by rewrite Hj, E].
Qed.

Lemma entry_of p : p ∈ mounts_of (mountlist s0) -> exists i e, ms !! i = Some e /\ e_mp e = p.
Proof.
  rewrite <-(ha_mounts _ _ H), list_elem_of_fmap. intros (e & -> & He).
  apply list_elem_of_lookup in He as [i Hi]. by exists i, e.
Qed.

(** One transaction and one reference on every mount. *)
Lemma one_trans p : p ∈ mounts_of (mountlist s0) ->
  total (e_trans (RTrans p)) ms = 1 /\ total (e_ref p) ms = 1.
Proof.
  intros (i & e & Hi & <-)%entry_of.
  split; (apply (total_one _ _ i e); [done| |]); unfold e_trans, e_ref, ind; [by rewrite decide_True| |by rewrite decide_True|];
    intros j x Hj Hx; (rewrite decide_False; [done|]); intros E; apply Hj; apply (entries_distinct _ _ x e Hx Hi); congruence.
Qed.

(** One lock on every updater. *)
Lemma one_lock p : p ∈ mounts_of (mountlist s0) ->
  exists m, upd s0 p = Some m /\ total (e_update (upd s0) (RMutex m)) ms = 1.
Proof.
  intros (i & e & Hi & <-)%entry_of. destruct (ha_locks _ _ H i (lookup_lt_Some _ _ _ Hi)) as (j & e' & x & L1 & L2 & L3 & L4 & L5).
  assert (e' = e) as -> by congruence. destruct (upd s0 (e_mp x)) as [m|] eqn:Em; [|done]. exists m. split; [done|].
  apply (total_one _ _ j x L2); unfold e_update; rewrite ?L3.
  - rewrite Em. unfold ind. by rewrite decide_True.
  - intros k y Hk Hy. destruct (updating_held y) eqn:Hu; [|done]. destruct (upd s0 (e_mp y)) as [m'|] eqn:Em'; [|done].
    unfold ind. rewrite decide_False; [done|]. intros [= ->]. apply Hk.
    apply (proj2 (ha_once _ _ H) k j y x Hy L2 Hu L3). congruence.
Qed.

(** One suspension of the file system at the bottom of every mount. *)
Lemma one_susp p : p ∈ mounts_of (mountlist s0) ->
  exists i e c, ms !! i = Some e /\ e_mp e = p /\ suspend_mp e = Some c /\ bottom_of s0 p c /\
    c ∈ mounts_of (mountlist s0) /\ total (e_susp (RSusp c)) ms = 1.
Proof.
  intros (i & e & Hi & <-)%entry_of. pose proof (ha_canon _ _ H) as Hc. rewrite Forall_lookup in Hc.
  destruct (Hc i e Hi) as (c & C1 & C2 & C3). exists i, e, c. do 4 (split; [done|]).
  apply list_elem_of_In in C3 as C4. rewrite (ha_mounts _ _ H) in C4. split; [done|].
  destruct (entry_of c C4) as (j & x & Hj & Ex).
  assert (is_canonical x) as Hx.
  { destruct (Hc j x Hj) as (d & D1 & D2 & _). unfold is_canonical. rewrite D1. f_equal. rewrite Ex in *.
    destruct C2 as (n & _ & Hn). by apply (bottom_self s0). }
  apply (total_one _ _ j x Hj); unfold e_susp, e_ctl, e_glob, ind.
  - rewrite (proj2 (ha_susp _ _ H j x Hj) Hx), Hx, Ex. rewrite decide_True by done.
    rewrite (decide_False (P := RGlobal = _)) by done. by destruct (global_lock x).
  - intros k y Hk Hy. destruct (suspended y) eqn:Hs; [|done]. apply (ha_susp _ _ H k y Hy) in Hs. rewrite Hs.
    rewrite (decide_False (P := RGlobal = _)) by done. rewrite decide_False; [by destruct (global_lock y)|].
    intros [= E]. apply Hk. apply (entries_distinct k j y x Hy Hj). congruence.
Qed.

(** The suspensions' global lock, held once while there is a mount. *)
Lemma one_global : (forall e, e ∈ ms -> suspended e = true -> suspend_mp e <> None) ->
  (forall e, e ∈ ms -> global_lock e = true -> suspended e = true) ->
  total (e_susp RGlobal) ms = if (length ms =? 0)%nat then 0 else 1.
Proof.
  intros Hc Hg. rewrite <-(ha_global _ _ H). apply total_ext, Forall_forall. intros e He.
  unfold e_susp, e_ctl, e_glob, e_global, ind. specialize (Hc e He). specialize (Hg e He).
  destruct (suspended e), (global_lock e), (suspend_mp e) as [c|]; cbn [andb negb];
    rewrite ?(decide_False (P := RSusp c = _)), ?(decide_True (P := RGlobal = RGlobal)) by done;
    try done; try (by destruct Hc); by discriminate Hg.
Qed.

End holds.

Section claims.
Context `{EX : Outside} (curlwp : nat).

Definition took (s s' : vfs) (r : res) : Z := held (v_calls s') r - held (v_calls s) r.

(** C18. vfs_suspend_all returns for any answers of the file systems, fstrans, mutexes
    and allocator, and on any error hands out no session and leaves the mounts, the
    mount list, the gate and every hold, lock, suspension and allocation as before the
    call. *)
Theorem s2idle_suspend_all_unwinds s : vfs_fit s ->
  exists err ms s', vfs_suspend_all curlwp s = Some (err, ms, s') /\
  (err <> 0 -> ms = [] /\ same_but_calls s s').
Proof.
  intros Fit. destruct (suspend_all_spec curlwp s Fit) as (err & ms & s' & E & He & _).
  by exists err, ms, s'.
Qed.

Lemma session_took s s' ms id r : session id (set_vfs_s2idle_owner (Some curlwp) s) s' ms (Z.of_nat (length ms)) ->
  took s s' r = all_held (upd s) ms (Z.of_nat (length ms)) r.
Proof.
  intros S. unfold took. rewrite (ef_held _ _ _ _ _ (se_eff _ _ _ _ _ S)). cbn [v_calls set_vfs_s2idle_owner].
  unfold upd, get_mount. cbn [v_mounts set_vfs_s2idle_owner]. lia.
Qed.

Lemma total_none f ms : (forall e, f e = 0) -> total f ms = 0.
Proof. intros H. rewrite (total_ext f (fun _ => 0)); [apply total_zero|]. by apply Forall_true. Qed.

(** The other parts of the session do not take that kind of resource. *)
Lemma all_held_trans u ms cap p : all_held u ms cap (RTrans p) = total (e_trans (RTrans p)) ms.
Proof.
  unfold all_held, mem_held, ind. rewrite !total_none with (f := e_update _ _), !total_none with (f := e_susp _).
  - destruct (cap =? 0); [lia|]. rewrite decide_False by done. lia.
  - intros e. unfold e_susp, e_ctl, e_glob, ind. by destruct (suspended e), (global_lock e), (suspend_mp e).
  - intros e. unfold e_update, ind. by destruct (updating_held e), (u (e_mp e)).
Qed.

Lemma all_held_mutex u ms cap m : all_held u ms cap (RMutex m) = total (e_update u (RMutex m)) ms.
Proof.
  unfold all_held, mem_held, ind. rewrite !total_none with (f := e_trans _), !total_none with (f := e_susp _).
  - destruct (cap =? 0); [lia|]. rewrite decide_False by done. lia.
  - intros e. unfold e_susp, e_ctl, e_glob, ind. by destruct (suspended e), (global_lock e), (suspend_mp e).
  - done.
Qed.

Lemma all_held_susp u ms cap r : r = RGlobal \/ (exists c, r = RSusp c) ->
  all_held u ms cap r = total (e_susp r) ms.
Proof.
  intros Hr. unfold all_held, mem_held, ind. rewrite !total_none with (f := e_trans _), !total_none with (f := e_update _ _).
  - destruct (cap =? 0); [lia|]. rewrite decide_False by (by destruct Hr as [->|[c ->]]). lia.
  - intros e. unfold e_update, ind. destruct (updating_held e), (u (e_mp e)); try done.
    by rewrite decide_False by (by destruct Hr as [->|[c ->]]).
  - intros e. unfold e_trans, ind. by rewrite decide_False by (by destruct Hr as [->|[c ->]]).
Qed.

(** C19. On success the caller owns the barrier, mount operations get EBUSY, and the
    session holds exactly one reference and transaction on every mount of the list, the
    updater lock of each once, the file system at the bottom of each suspended once, and
    the global suspension lock once if there is a mount. *)
Theorem s2idle_session_holds_every_mount s ms s' : vfs_fit s -> vfs_suspend_all curlwp s = Some (0, ms, s') ->
  vfs_s2idle_owner s' = Some curlwp /\ vfs_s2idle_mount_enter s' = (EBUSY, s') /\
  map e_mp ms = mounts_of (mountlist s) /\ took s s' RGlobal = (if (length ms =? 0)%nat then 0 else 1) /\
  forall p, p ∈ mounts_of (mountlist s) ->
    mnt_refcnt (get_mount s' p) = mnt_refcnt (get_mount s p) + 1 /\ took s s' (RTrans p) = 1 /\
    (exists m, mnt_updating (get_mount s p) = Some m /\ took s s' (RMutex m) = 1) /\
    (exists c, bottom_of s p c /\ c ∈ mounts_of (mountlist s) /\ took s s' (RSusp c) = 1).
Proof.
  intros Fit E. destruct (suspend_all_spec curlwp s Fit) as (err & ms' & s1 & E' & _ & Hs).
  rewrite E in E'. injection E' as <- <- <-. destruct (Hs eq_refl) as (Hr & Ho & Hm & (id & S) & H & _).
  pose proof (mounts_of_NoDup _ (vf_nodup _ Fit)) as Hnd. pose proof (se_eff _ _ _ _ _ S) as Ef.
  assert (vfs_s2idle_owner s' = Some curlwp) as Ho' by (by rewrite (ef_owner _ _ _ _ _ Ef)).
  split; [done|]. split; [|split; [apply H|split]].
  - unfold vfs_s2idle_mount_enter. rewrite (ef_ready _ _ _ _ _ Ef), Ho'. cbn [vfs_s2idle_ready set_vfs_s2idle_owner].
    rewrite Hr. by rewrite bool_decide_true.
  - rewrite (session_took s s' ms id RGlobal S), all_held_susp by auto. destruct (se_susp _ _ _ _ _ S) as [gh [G _]].
    rewrite Forall_forall in G. apply (one_global s ms H); intros e He.
    + intros Hsu. by rewrite (proj1 (G e He) Hsu).
    + apply (G e He).
  - intros p Hp. destruct (one_trans s ms Hnd H p Hp) as [T1 T2].
    pose proof (vf_valid _ Fit p Hp) as Hv. apply lookup_lt_is_Some in Hv as [mt Hmt]. split; [|split; [|split]].
    + unfold get_mount. rewrite !list_lookup_total_alt, (ef_mounts _ _ _ _ _ Ef). cbn [v_mounts set_vfs_s2idle_owner].
      rewrite Hmt, T2. done.
    + by rewrite (session_took s s' ms id _ S), all_held_trans.
    + destruct (one_lock s ms H p Hp) as (m & M1 & M2). exists m. split; [done|].
      by rewrite (session_took s s' ms id _ S), all_held_mutex.
    + destruct (one_susp s ms Hnd H p Hp) as (i & e & c & _ & _ & _ & C1 & C2 & C3). exists c. split; [done|]. split; [done|].
      rewrite (session_took s s' ms id _ S), all_held_susp by eauto. done.
Qed.

(** On success every mount, aliases included, was synced without error and with
    MNT_ASYNC off at a time when the session had the file system at its bottom
    suspended, and that file system still is. *)
Theorem s2idle_flushed_while_suspended s ms s' : vfs_fit s -> vfs_suspend_all curlwp s = Some (0, ms, s') ->
  forall p, p ∈ mounts_of (mountlist s) -> exists c, bottom_of s p c /\
    flushed (v_calls s) (v_calls s') p c /\ took s s' (RSusp c) = 1.
Proof.
  intros Fit E. destruct (suspend_all_spec curlwp s Fit) as (err & ms' & s1 & E' & _ & Hs).
  rewrite E in E'. injection E' as <- <- <-. destruct (Hs eq_refl) as (_ & _ & _ & (id & S) & H & F).
  intros p Hp. pose proof (mounts_of_NoDup _ (vf_nodup _ Fit)) as Hnd.
  destruct (one_susp s ms Hnd H p Hp) as (i & e & c & Hi & <- & Ec & C1 & C2 & C3). exists c. split; [done|]. split.
  - apply F; [by eapply list_elem_of_lookup_2|done].
  - rewrite (session_took s s' ms id _ S), all_held_susp by eauto. done.
Qed.

(** vfs_resume_all after a successful vfs_suspend_all leaves the mounts, the mount list,
    the gate and every hold, lock, suspension and allocation as before the suspension.
    *)
Theorem s2idle_suspend_resume_roundtrip s ms s' : vfs_fit s -> vfs_suspend_all curlwp s = Some (0, ms, s') ->
  same_but_calls s (vfs_resume_all curlwp ms s').
Proof.
  intros Fit E. destruct (suspend_all_spec curlwp s Fit) as (err & ms' & s1 & E' & _ & Hs).
  rewrite E in E'. injection E' as <- <- <-. destruct (Hs eq_refl) as (_ & Ho & Hm & S & H & _).
  apply resume_all_spec; try done. pose proof (f_equal length (ha_mounts _ _ H)) as Hl.
  rewrite length_map in Hl. rewrite Hl. apply mounts_of_length.
Qed.

End claims.

(** On any graph of N lower mounts vfs_s2idle_canonical_mount ends within N+2 turns of
    its loops; it answers a mount exactly if that is the bottom of the chain and NULL
    exactly if the chain never ends. *)
Theorem s2idle_canonical_total lower mp N fuel : (mp < N)%nat ->
  (forall p q, (p < N)%nat -> lower p = Some q -> (q < N)%nat) -> (S (S N) <= fuel)%nat ->
  (exists r, vfs_s2idle_canonical_mount lower fuel mp = Some r) /\
  (forall b, vfs_s2idle_canonical_mount lower fuel mp = Some (Some b) <->
     exists n, nth_lower lower mp n = Some b /\ lower b = None) /\
  (vfs_s2idle_canonical_mount lower fuel mp = Some None <-> forall n, is_Some (nth_lower lower mp n)).
Proof.
  intros Hmp Hcl Hf. destruct (canonical_mount_total lower mp N Hmp Hcl fuel Hf) as [(n & b & Hn & Hb & ->)|[Hall ->]].
  - split; [by eexists|]. split.
    + intros b'. split; [intros [= <-]; by exists n|]. intros (n' & Hn' & Hb'). do 2 f_equal.
      by apply (nth_lower_bottom lower mp n n').
    + split; [done|]. intros Hall. destruct (Hall (S n)) as [x Hx]. rewrite nth_lower_S, Hn in Hx. simpl in Hx. congruence.
  - split; [by eexists|]. split; [|done]. intros b. split; [done|]. intros (n & Hn & Hb).
    destruct (Hall (S n)) as [x Hx]. rewrite nth_lower_S, Hn in Hx. simpl in Hx. congruence.
Qed.

(** * The admission gate

    Mount operations and the barrier as a transition system over any number of
    threads: which of them are inside a mount operation and which one owns the
    barrier. *)

(** The gate's state and who is inside, as the threads know it. *)
Record gate := mk_gate {
  g_vfs : vfs;
  g_ops : list nat;  (* inside vfs_s2idle_mount_enter .. mount_exit *)
  g_barrier : option nat  (* between barrier_enter and barrier_exit *)
}.

(** One call of one thread, with the answer it got. *)
Inductive gate_step : gate -> gate -> Prop :=
  | G_mount_enter l s s' ops b : vfs_s2idle_mount_enter s = (0, s') ->
      gate_step (mk_gate s ops b) (mk_gate s' (l :: ops) b)
  | G_mount_refused s s' e ops b : vfs_s2idle_mount_enter s = (e, s') -> e <> 0 ->
      gate_step (mk_gate s ops b) (mk_gate s' ops b)
  | G_mount_exit l s ops1 ops2 b :
      gate_step (mk_gate s (ops1 ++ l :: ops2) b) (mk_gate (vfs_s2idle_mount_exit s) (ops1 ++ ops2) b)
  | G_barrier_enter l s s' ops b : vfs_s2idle_barrier_enter l s = (0, s') ->
      gate_step (mk_gate s ops b) (mk_gate s' ops (Some l))
  | G_barrier_refused l s s' e ops b : vfs_s2idle_barrier_enter l s = (e, s') -> e <> 0 ->
      gate_step (mk_gate s ops b) (mk_gate s' ops b)
  | G_barrier_exit l s ops :
      gate_step (mk_gate s ops (Some l)) (mk_gate (vfs_s2idle_barrier_exit l s) ops None).

(** As the kernel starts, before vfs_s2idle_init. *)
Definition gate_start (s : vfs) : Prop :=
  vfs_s2idle_ready s = false /\ vfs_s2idle_mountops s = 0 /\ vfs_s2idle_owner s = None /\ v_asserts s = true.

Record gate_inv (g : gate) : Prop := {
  gi_ready : vfs_s2idle_ready (g_vfs g) = true;
  gi_ops : vfs_s2idle_mountops (g_vfs g) = Z.of_nat (length (g_ops g));
  gi_max : Z.of_nat (length (g_ops g)) <= SIZE_MAX;
  gi_owner : vfs_s2idle_owner (g_vfs g) = g_barrier g;
  gi_excl : g_barrier g <> None -> g_ops g = [];
  gi_asserts : v_asserts (g_vfs g) = true
}.

Lemma gate_init_inv s : gate_start s -> gate_inv (mk_gate (vfs_s2idle_init s) [] None).
Proof.
  intros (H1 & H2 & H3 & H4). unfold vfs_s2idle_init, KASSERT. split; cbn; try done.
  by rewrite H1, H4.
Qed.

Lemma gate_step_inv g g' : gate_step g g' -> gate_inv g -> gate_inv g'.
Proof.
  intros Hs [I1 I2 I3 I4 I5 I6]. destruct Hs as [l s s' ops b H|s s' e ops b H Hne|l s ops1 ops2 b|
    l s s' ops b H|l s s' e ops b H Hne|l s ops]; cbn [g_vfs g_ops g_barrier] in *.
  - unfold vfs_s2idle_mount_enter in H. rewrite I1 in H. cbn [negb] in H.
    case_bool_decide as Ho; [done|]. destruct (Z.eqb_spec (vfs_s2idle_mountops s) SIZE_MAX); [done|].
    injection H as <-. rewrite <-I4 in *. split; cbn [g_vfs g_ops g_barrier length set_vfs_s2idle_mountops
      vfs_s2idle_mountops vfs_s2idle_owner]; [done|lia|lia|done|done|done].
  - unfold vfs_s2idle_mount_enter in H. rewrite I1 in H. cbn [negb] in H. destruct (_ || _); [|congruence].
    by injection H as <- <-.
  - rewrite length_app in *. cbn [length] in *.
    assert (b = None) as -> by (destruct b; [|done]; specialize (I5 ltac:(done)); by destruct ops1).
    unfold vfs_s2idle_mount_exit, KASSERT, nz. split; cbn [g_vfs g_ops g_barrier
      set_vfs_s2idle_mountops set_v_asserts vfs_s2idle_mountops v_asserts]; rewrite ?length_app; try done; [|lia|].
    + rewrite u64_id by (unfold in_u64, SIZE_MAX in *; lia). lia.
    + rewrite I4, I6, bool_decide_true by done. apply negb_true_iff, Z.eqb_neq. lia.
  - unfold vfs_s2idle_barrier_enter in H. rewrite I1 in H. cbn [negb] in H.
    case_bool_decide as Ho; [done|]. destruct (nz (vfs_s2idle_mountops s)) eqn:En; [done|].
    injection H as <-. apply negb_false_iff, Z.eqb_eq in En. rewrite I2 in En.
    assert (ops = []) as -> by (destruct ops; [done|simpl in En; lia]). split; cbn; done.
  - unfold vfs_s2idle_barrier_enter in H. rewrite I1 in H. cbn [negb] in H. destruct (_ || _); [|congruence].
    by injection H as <- <-.
  - specialize (I5 ltac:(done)). subst ops. unfold vfs_s2idle_barrier_exit, KASSERT. split; cbn; try done.
    rewrite I4, I6, I2, bool_decide_true by done. done.
Qed.

Lemma gate_steps_inv g g' : rtc gate_step g g' -> gate_inv g -> gate_inv g'.
Proof. induction 1 as [|x y z H _ IH]; [done|]. intros I. apply IH. by eapply gate_step_inv. Qed.

(** C34. Over any interleaving of mount operations and barriers by any threads no
    assertion of the gate fails, a barrier is never held while a mount operation is
    inside, and both entries are admitted exactly when they may be. *)
Theorem s2idle_gate_excludes s g : gate_start s ->
  rtc gate_step (mk_gate (vfs_s2idle_init s) [] None) g ->
  v_asserts (g_vfs g) = true /\ (g_barrier g <> None -> g_ops g = []) /\
  (forall e s', vfs_s2idle_mount_enter (g_vfs g) = (e, s') ->
    e = (if decide (g_barrier g = None /\ Z.of_nat (length (g_ops g)) < SIZE_MAX) then 0 else EBUSY)) /\
  (forall l e s', vfs_s2idle_barrier_enter l (g_vfs g) = (e, s') ->
    e = (if decide (g_barrier g = None /\ g_ops g = []) then 0 else EBUSY)).
Proof.
  intros Hs Hr. destruct (gate_steps_inv _ _ Hr (gate_init_inv s Hs)) as [I1 I2 I3 I4 I5 I6].
  split; [done|]. split; [done|]. unfold vfs_s2idle_mount_enter, vfs_s2idle_barrier_enter, nz.
  rewrite I1, I2, I4. cbn [negb]. split.
  - intros e s'. case_bool_decide as Ho; cbn [orb].
    + intros [= <- _]. by rewrite decide_False by tauto.
    + assert (g_barrier g = None) as Hn by (by destruct (g_barrier g); [destruct Ho|]).
      destruct (Z.eqb_spec (Z.of_nat (length (g_ops g))) SIZE_MAX); intros [= <- _].
      * rewrite decide_False by lia. done.
      * rewrite decide_True by (split; [done|lia]). done.
  - intros l e s'. case_bool_decide as Ho; cbn [orb].
    + intros [= <- _]. by rewrite decide_False by tauto.
    + assert (g_barrier g = None) as Hn by (by destruct (g_barrier g); [destruct Ho|]).
      destruct (g_ops g); intros [= <- _].
      * by rewrite decide_True.
      * rewrite decide_False by (by intros [_ ?]). done.
Qed.

Definition gate_ex : vfs := mk_vfs [] [] false 0 None [] true.

(** A mount operation, then a barrier by thread 7. *)
Lemma s2idle_gate_excludes_witness : exists g,
  rtc gate_step (mk_gate (vfs_s2idle_init gate_ex) [] None) g /\ g_barrier g = Some 7%nat /\ g_ops g = [].
Proof.
  assert (rtc gate_step (mk_gate (vfs_s2idle_init gate_ex) [] None)
    (mk_gate (set_vfs_s2idle_owner (Some 7%nat) (set_vfs_s2idle_ready true gate_ex)) [] (Some 7%nat))) as Hr.
  { eapply rtc_l; [eapply (G_mount_enter 3); reflexivity|].
    eapply rtc_l; [apply (G_mount_exit 3 _ [] [])|].
    eapply rtc_l; [eapply (G_barrier_enter 7); reflexivity|]. apply rtc_refl. }
  eexists. split; [exact Hr|]. split; [reflexivity|].
  assert (gate_start gate_ex) as Hs by (repeat split; reflexivity).
  apply (s2idle_gate_excludes gate_ex _ Hs Hr). discriminate.
Defined.

(** * The all-mount barrier at work

    Three mounts, one of them a null mount over the root, and witnesses of the
    barrier's promises on them. *)

(** Everything succeeds: no error, and every try-lock is taken. *)
Definition all_well : Outside := fun _ c => match c with C_mutex_tryenter _ => 1 | _ => 0 end.

(** The sync of mount 1 fails with EIO. *)
Definition bad_disk : Outside := fun _ c =>
  match c with C_mutex_tryenter _ => 1 | C_sync p _ => if (p =? 1)%nat then 5 else 0 | _ => 0 end.

(** The root (asynchronous), a second file system, and an alias of the root
    which shares its updater lock. *)
Definition vfs_ex : vfs :=
  mk_vfs [mk_mount 1 false None (Some 10%nat) MNT_ASYNC; mk_mount 3 false None (Some 11%nat) 0;
          mk_mount 1 false (Some 0%nat) (Some 10%nat) 0]
    [ME_MOUNT 0; ME_MOUNT 1; ME_MOUNT 2] true 0 None [] true.

Lemma vfs_ex_fit : vfs_fit vfs_ex.
Proof.
  split.
  - by apply (bool_decide_unpack _), I.
  - intros p Hp. assert (p ∈ [0; 1; 2]%nat) as H by exact Hp. change (length (v_mounts vfs_ex)) with 3%nat.
    rewrite !elem_of_cons, elem_of_nil in H. lia.
  - intros p q Hp. change (length (v_mounts vfs_ex)) with 3%nat in *.
    destruct p as [|[|[|p]]]; [done|done|intros [= <-]; lia|lia].
  - intros i m Hi. destruct i as [|[|[|i]]]; [injection Hi as <-..|done]; cbn; lia.
Defined.

Definition session_ex (EX : Outside) : Z * list vfs_s2idle_mount :=
  match vfs_suspend_all (EX := EX) 7 vfs_ex with Some (e, ms, _) => (e, ms) | None => (-1, []) end.

Lemma session_ex_runs EX e : (session_ex EX).1 = e -> e <> -1 -> exists ms s',
  vfs_suspend_all (EX := EX) 7 vfs_ex = Some (e, ms, s').
Proof.
  unfold session_ex. destruct (vfs_suspend_all 7 vfs_ex) as [[[e' ms] s']|]; simpl; intros <- H; [|done].
  by exists ms, s'.
Qed.

Lemma s2idle_suspend_all_unwinds_witness : vfs_fit vfs_ex /\ (session_ex bad_disk).1 = 5 /\
  exists ms s', vfs_suspend_all (EX := bad_disk) 7 vfs_ex = Some (5, ms, s') /\ same_but_calls vfs_ex s'.
Proof.
  split; [exact vfs_ex_fit|]. assert ((session_ex bad_disk).1 = 5) as H5 by (vm_compute; reflexivity).
  split; [exact H5|]. destruct (session_ex_runs bad_disk 5 H5 ltac:(lia)) as (ms & s' & E).
  destruct (s2idle_suspend_all_unwinds (EX := bad_disk) 7 vfs_ex vfs_ex_fit) as (err & ms' & s1 & E' & H).
  rewrite E in E'. injection E' as <- <- <-. exists ms, s'. split; [exact E|]. apply H. lia.
Defined.

Lemma all_well_runs : exists ms s', vfs_suspend_all (EX := all_well) 7 vfs_ex = Some (0, ms, s').
Proof. apply session_ex_runs; [vm_compute; reflexivity|lia]. Qed.

Lemma s2idle_session_holds_every_mount_witness : exists ms s',
  vfs_suspend_all (EX := all_well) 7 vfs_ex = Some (0, ms, s') /\
    vfs_s2idle_mount_enter s' = (EBUSY, s') /\ map e_mp ms = [0; 1; 2]%nat.
Proof.
  destruct all_well_runs as (ms & s' & E). exists ms, s'. split; [exact E|].
  destruct (s2idle_session_holds_every_mount (EX := all_well) 7 vfs_ex ms s' vfs_ex_fit E) as (_ & H1 & H2 & _).
  split; [exact H1|exact H2].
Defined.

Lemma s2idle_flushed_while_suspended_witness : exists ms s' c,
  vfs_suspend_all (EX := all_well) 7 vfs_ex = Some (0, ms, s') /\
  bottom_of vfs_ex 2 c /\ flushed (v_calls vfs_ex) (v_calls s') 2 c.
Proof.
  destruct all_well_runs as (ms & s' & E).
  destruct (s2idle_flushed_while_suspended (EX := all_well) 7 vfs_ex ms s' vfs_ex_fit E 2) as (c & H1 & H2 & _).
  - apply elem_mounts_of. cbn. repeat constructor.
  - exists ms, s', c. split; [exact E|]. split; [exact H1|exact H2].
Defined.

Lemma s2idle_suspend_resume_roundtrip_witness : exists ms s',
  vfs_suspend_all (EX := all_well) 7 vfs_ex = Some (0, ms, s') /\
  same_but_calls vfs_ex (vfs_resume_all (EX := all_well) 7 ms s').
Proof.
  destruct all_well_runs as (ms & s' & E). exists ms, s'. split; [exact E|].
  apply (s2idle_suspend_resume_roundtrip (EX := all_well) 7 vfs_ex ms s' vfs_ex_fit E).
Defined.

(** The trace of a session that succeeds: how many calls of each kind. *)
Example session_ex_calls :
  match vfs_suspend_all (EX := all_well) 7 vfs_ex with
  | Some (_, _, s) => map fst (List.filter (fun e => match e.1 with C_fstrans_start_nowait _ | C_fstrans_done _
      | C_kmem_alloc _ | C_kmem_free _ => false | _ => true end) (rev (v_calls s)))
  | None => []
  end = [C_mutex_tryenter 10; C_mutex_tryenter 11; C_vfs_suspend 1; C_sync 1 0; C_suspendctl 0 SUSPEND_SUSPEND;
         C_sync 2 0; C_sync 0 0].
Proof. vm_compute. reflexivity. Qed.

(** Mounts 0 and 1 lower each other: no bottom. *)
Definition loop_lower (p : nat) : option nat := match p with 0%nat => Some 1%nat | 1%nat => Some 0%nat | 2%nat => Some 3%nat | _ => None end.

Lemma s2idle_canonical_total_witness :
  vfs_s2idle_canonical_mount loop_lower 6 2 = Some (Some 3%nat) /\
  (vfs_s2idle_canonical_mount loop_lower 6 0 = Some None <-> forall n, is_Some (nth_lower loop_lower 0 n)).
Proof.
  split; [reflexivity|].
  apply (s2idle_canonical_total loop_lower 0 4 6); [lia| |lia].
  intros p q Hp. destruct p as [|[|[|p]]]; cbn; [intros [= <-]; lia..|destruct p; done].
Defined.
