(* ===== verification/AcpiPower.v ===== *)
(** * ACPI power resources

    kernel/dev/acpi/acpi_power.c: which device holds which power resource, the
    transitions of devices between D-states and the AML evaluated for them.
    The interpreter (ACPICA) and the firmware's AML are outside: an evaluation
    is recorded, and its reply is a parameter that may depend on all before. *)

From stdpp Require Import base numbers list.
From S2P Require Import Prelude.

(** ** The interpreter *)

(** The code tells success, AE_NOT_FOUND and other failures apart. *)
Inductive ACPI_STATUS :=
  | AE_OK | AE_ERROR | AE_NOT_FOUND | AE_TYPE | AE_BAD_VALUE | AE_BAD_PARAMETER | AE_ABORT_METHOD | AE_LIMIT
  | AE_OTHER (code : nat).

#[export] Instance ACPI_STATUS_eq_dec : EqDecision ACPI_STATUS.
Proof. solve_decision. Defined.

Definition ACPI_SUCCESS (rv : ACPI_STATUS) : bool := bool_decide (rv = AE_OK).
Definition ACPI_FAILURE (rv : ACPI_STATUS) : bool := negb (ACPI_SUCCESS rv).

(** _PRn and _PSn with n as a digit. *)
Inductive method := M_STA | M_PSC | M_ON | M_OFF | M_PR (n : Z) | M_PS (n : Z).

#[export] Instance method_eq_dec : EqDecision method.
Proof. solve_decision. Defined.

Notation ACPI_HANDLE := nat.
Notation NULL := 0%nat.

Inductive aml :=
  | A_get_handle (h : ACPI_HANDLE) (m : method)
  | A_integer (h : ACPI_HANDLE) (m : method)
  | A_evaluate (h : ACPI_HANDLE) (m : method)
  | A_power (h : ACPI_HANDLE)                        (* acpi_eval_struct(h, NULL) *)
  | A_package (h : ACPI_HANDLE) (m : method)         (* acpi_eval_struct(h, _PRn) *)
  (* acpi_wakedev.c: _PRW, AcpiSetupGpeForWake, AcpiSetGpeWakeMask, _DSW, _PSW *)
  | A_prw (h : ACPI_HANDLE)
  | A_gpe_setup (h gpe : ACPI_HANDLE) (number : Z)
  | A_gpe_mask (gpe : ACPI_HANDLE) (number : Z) (enable : bool)
  | A_dsw (h : ACPI_HANDLE) (enable : bool) (state : Z)
  | A_psw (h : ACPI_HANDLE) (enable : bool).

#[export] Instance aml_eq_dec : EqDecision aml.
Proof. solve_decision. Defined.

(** An element of a _PRW package. *)
Inductive prw_elem :=
  | PE_integer (v : Z)
  | PE_reference (h : ACPI_HANDLE)
  | PE_package (elements : list prw_elem)
  | PE_other.

(** The object in the buffer; a package as what acpi_eval_reference_handle
    answers for each element. *)
Inductive aml_object :=
  | O_null
  | O_power (order : Z)
  | O_package (elements : list (ACPI_STATUS * ACPI_HANDLE))
  | O_prw (elements : list prw_elem)
  | O_other.

(** [r_value] is an ACPI_INTEGER, read at 64 bits. *)
Record reply := mk_reply { r_status : ACPI_STATUS; r_value : Z; r_object : aml_object }.

(** The firmware's replies, the devices of the namespace in the order of
    AcpiWalkNamespace, and the node acpi_match_node finds for a handle. *)
Class Firmware := {
  fw_reply : list (aml * reply) -> aml -> reply;
  fw_devices : list (aml * reply) -> list ACPI_HANDLE;
  fw_node : ACPI_HANDLE -> option nat
}.

(** ** State *)

Definition ACPI_STATE_D0 : Z := 0.
Definition ACPI_STATE_D3 : Z := 3.
Definition ACPI_STATE_D3_COLD : Z := 4.
Definition ACPI_STATE_ERROR : Z := -1.
Definition ACPI_POWER_NOPS3 : Z := 0x01.
Definition ACPI_DEVICE_POWER : Z := 1.

Definition POWER_STATE : Z := 1.
Definition POWER_WAKE : Z := 2.

Record power_ref := mk_ref {
  ref_device : ACPI_HANDLE;
  ref_uses : Z
}.

Definition set_ref_uses (v : Z) (r : power_ref) : power_ref :=
  mk_ref (ref_device r) v.

Record acpi_power_res := mk_res {
  res_handle : ACPI_HANDLE;
  res_order : Z;
  res_refs : list power_ref
}.

Definition set_res_refs (v : list power_ref) (r : acpi_power_res) : acpi_power_res :=
  mk_res (res_handle r) (res_order r) v.

Record power_device_t := mk_dev {
  dev_handle : ACPI_HANDLE;
  dev_state : Z;
  dev_seeded : bool;
  dev_failed : bool
}.

Definition set_dev_state (v : Z) (r : power_device_t) : power_device_t :=
  mk_dev (dev_handle r) v (dev_seeded r) (dev_failed r).
Definition set_dev_seeded (v : bool) (r : power_device_t) : power_device_t :=
  mk_dev (dev_handle r) (dev_state r) v (dev_failed r).
Definition set_dev_failed (v : bool) (r : power_device_t) : power_device_t :=
  mk_dev (dev_handle r) (dev_state r) (dev_seeded r) v.

Record acpi_devnode := mk_node {
  ad_parent : option nat;
  ad_flags : Z;
  ad_state : Z
}.

Definition set_ad_state (v : Z) (r : acpi_devnode) : acpi_devnode :=
  mk_node (ad_parent r) (ad_flags r) v.

(** Resources in list order (power_last is the last), devices newest first.  A
    resource or device pointer is its handle, which the lists have once. *)
Record power := mk_power {
  power_resources : list acpi_power_res;
  power_devices : list power_device_t;
  power_discovered : bool;
  p_nodes : list acpi_devnode;
  p_calls : list (aml * reply)  (* latest first *)
}.

Definition set_power_resources (v : list acpi_power_res) (r : power) : power :=
  mk_power v (power_devices r) (power_discovered r) (p_nodes r) (p_calls r).
Definition set_power_devices (v : list power_device_t) (r : power) : power :=
  mk_power (power_resources r) v (power_discovered r) (p_nodes r) (p_calls r).
Definition set_power_discovered (v : bool) (r : power) : power :=
  mk_power (power_resources r) (power_devices r) v (p_nodes r) (p_calls r).
Definition set_p_nodes (v : list acpi_devnode) (r : power) : power :=
  mk_power (power_resources r) (power_devices r) (power_discovered r) v
    (p_calls r).
Definition set_p_calls (v : list (aml * reply)) (r : power) : power :=
  mk_power (power_resources r) (power_devices r) (power_discovered r) (p_nodes
    r) v.

Definition find_res (h : ACPI_HANDLE) (l : list acpi_power_res) : option acpi_power_res :=
  find (fun r => Nat.eqb (res_handle r) h) l.
Definition find_ref (d : ACPI_HANDLE) (l : list power_ref) : option power_ref :=
  find (fun r => Nat.eqb (ref_device r) d) l.
Definition find_dev (h : ACPI_HANDLE) (l : list power_device_t) : option power_device_t :=
  find (fun d => Nat.eqb (dev_handle d) h) l.

Definition refs_of (s : power) (res : ACPI_HANDLE) : list power_ref :=
  match find_res res (power_resources s) with Some r => res_refs r | None => [] end.

(** [res->refs = ...], [dev->f = ...], [ad->ad_state = ...] *)
Definition on_refs (res : ACPI_HANDLE) (f : list power_ref -> list power_ref) (s : power) : power :=
  set_power_resources (map (fun r => if Nat.eqb (res_handle r) res
    then set_res_refs (f (res_refs r)) r else r) (power_resources s)) s.
Definition on_dev (h : ACPI_HANDLE) (f : power_device_t -> power_device_t) (s : power) : power :=
  set_power_devices (map (fun d => if Nat.eqb (dev_handle d) h then f d else d) (power_devices s)) s.

Section power.
Context `{FW : Firmware}.

Definition eval (c : aml) (s : power) : reply * power :=
  let r := fw_reply (p_calls s) c in (r, set_p_calls ((c, r) :: p_calls s) s).

Definition set_node_state (h : ACPI_HANDLE) (state : Z) (s : power) : power :=
  match fw_node h with
  | Some i => set_p_nodes (alter (set_ad_state state) i (p_nodes s)) s
  | None => s
  end.

Definition AcpiGetHandle (h : ACPI_HANDLE) (m : method) (s : power) : ACPI_STATUS * power :=
  let '(r, s) := eval (A_get_handle h m) s in (r_status r, s).

(** ** Resources *)

Definition power_sta (res : ACPI_HANDLE) (s : power) : ACPI_STATUS * Z * power :=
  let '(r, s) := eval (A_integer res M_STA) s in
  let value := u64 (r_value r) in
  let rv := if ACPI_SUCCESS (r_status r) && (1 <? value) then AE_BAD_VALUE else r_status r in
  (rv, value, s).

Definition power_method (res : ACPI_HANDLE) (on : bool) (s : power) : ACPI_STATUS * power :=
  let '(r, s) := eval (A_evaluate res (if on then M_ON else M_OFF)) s in
  let '(sr, sta, s) := power_sta res s in
  if ACPI_FAILURE (r_status r) then (r_status r, s)
  else if ACPI_FAILURE sr then (sr, s)
  else if sta =? (if on then 1 else 0) then (AE_OK, s) else (AE_ERROR, s).

(** Before the first resource of a higher order. *)
Fixpoint res_insert (r : acpi_power_res) (l : list acpi_power_res) : list acpi_power_res :=
  match l with
  | [] => [r]
  | x :: l => if res_order x <=? res_order r then x :: res_insert r l else r :: x :: l
  end.

Definition power_resource (h : ACPI_HANDLE) (s : power) : ACPI_STATUS * power :=
  match find_res h (power_resources s) with
  | Some _ => (AE_OK, s)
  | None =>
      let '(r, s) := eval (A_power h) s in
      if ACPI_FAILURE (r_status r) then (r_status r, s) else
      match r_object r with
      | O_power order =>
          (AE_OK, set_power_resources (res_insert (mk_res h order []) (power_resources s)) s)
      | _ => (AE_TYPE, s)
      end
  end.

(** The entry of [device], made at the head if it is missing and [create];
    whether there is one now. *)
Definition power_reference (res device : ACPI_HANDLE) (create : bool) (s : power) : bool * power :=
  let found := match find_ref device (refs_of s res) with Some _ => true | None => false end in
  if create
  then (true, on_refs res (fun l => match find_ref device l with
                                    | Some _ => l
                                    | None => mk_ref device 0 :: l
                                    end) s)
  else (found, s).

(** [ref->uses |= use] *)
Definition add_uses (res device : ACPI_HANDLE) (use : Z) (s : power) : power :=
  on_refs res (map (fun r => if Nat.eqb (ref_device r) device
    then set_ref_uses (set_flag (ref_uses r) use) r else r)) s.

Definition power_acquire (res device : ACPI_HANDLE) (use : Z) (s : power) : ACPI_STATUS * power :=
  let first := bool_decide (refs_of s res = []) in
  let '(_, s) := power_reference res device true s in
  let s := add_uses res device use s in
  if first then power_method res true s else
  let '(rv, sta, s) := power_sta res s in
  if ACPI_FAILURE rv then (rv, s)
  else if sta =? 0 then power_method res true s else (AE_OK, s).

(** [ref->uses &= ~use], and the entry is gone if none is left. *)
Fixpoint drop_uses (device : ACPI_HANDLE) (use : Z) (l : list power_ref) : list power_ref :=
  match l with
  | [] => []
  | r :: l =>
      if Nat.eqb (ref_device r) device
      then if clr_flag (ref_uses r) use =? 0 then l
           else set_ref_uses (clr_flag (ref_uses r) use) r :: l
      else r :: drop_uses device use l
  end.

Definition power_release (res device : ACPI_HANDLE) (use : Z) (s : power) : ACPI_STATUS * power :=
  match find_ref device (refs_of s res) with
  | None => (AE_OK, s)
  | Some ref =>
      if Z.land (ref_uses ref) use =? 0 then (AE_OK, s) else
      let '(rv, s) :=
        if (clr_flag (ref_uses ref) use =? 0) && (length (refs_of s res) =? 1)%nat
        then power_method res false s
        else
          let '(rv, sta, s) := power_sta res s in
          if ACPI_FAILURE rv then (rv, s)
          else if negb (sta =? 1) then (AE_ERROR, s) else (AE_OK, s) in
      if ACPI_FAILURE rv then (rv, s) else (AE_OK, on_refs res (drop_uses device use) s)
  end.

(** ** The resources of a state *)

Definition power_contains (set : list ACPI_HANDLE) (res : ACPI_HANDLE) : bool :=
  existsb (Nat.eqb res) set.

Fixpoint package_loop (elements : list (ACPI_STATUS * ACPI_HANDLE)) (set : list ACPI_HANDLE) (s : power) :
    ACPI_STATUS * list ACPI_HANDLE * power :=
  match elements with
  | [] => (AE_OK, set, s)
  | (rv, resource) :: elements =>
      if ACPI_FAILURE rv then (rv, set, s) else
      let '(rv, s) := power_resource resource s in
      if ACPI_FAILURE rv then (rv, set, s)
      else if power_contains set resource then package_loop elements set s
      else package_loop elements (resource :: set) s
  end.

Definition power_package (h : ACPI_HANDLE) (state : Z) (set : list ACPI_HANDLE) (s : power) :
    ACPI_STATUS * list ACPI_HANDLE * power :=
  let '(rv, s) := AcpiGetHandle h (M_PR state) s in
  if bool_decide (rv = AE_NOT_FOUND) then (AE_OK, set, s)
  else if ACPI_FAILURE rv then (rv, set, s) else
  let '(r, s) := eval (A_package h (M_PR state)) s in
  if ACPI_FAILURE (r_status r) then (r_status r, set, s) else
  match r_object r with
  | O_package elements => package_loop elements set s
  | _ => (AE_TYPE, set, s)
  end.

(** ** Devices *)

(** The record of a device, made if it is missing. *)
Definition power_device (h : ACPI_HANDLE) (s : power) : power :=
  match find_dev h (power_devices s) with
  | Some _ => s
  | None => set_power_devices (mk_dev h ACPI_STATE_ERROR false false :: power_devices s) s
  end.

Definition get_dev (h : ACPI_HANDLE) (s : power) : power_device_t :=
  match find_dev h (power_devices s) with Some d => d | None => mk_dev h ACPI_STATE_ERROR false false end.

Definition power_integer (h : ACPI_HANDLE) (m : method) (s : power) : ACPI_STATUS * Z * power :=
  let '(rv, s) := AcpiGetHandle h m s in
  if ACPI_FAILURE rv then (rv, 0, s) else
  let '(r, s) := eval (A_integer h m) s in
  (if bool_decide (r_status r = AE_NOT_FOUND) then AE_ERROR else r_status r, u64 (r_value r), s).

(** The boot state of a device's node, if it has one that counts. *)
Definition node_state (h : ACPI_HANDLE) (s : power) : option Z :=
  i ← fw_node h; ad ← p_nodes s !! i;
  if (ACPI_STATE_D0 <=? ad_state ad) && (ad_state ad <=? ACPI_STATE_D3_COLD) then Some (ad_state ad) else None.

Definition power_psc (h : ACPI_HANDLE) (s : power) : ACPI_STATUS * Z * power :=
  let '(rv, value, s) := power_integer h M_PSC s in
  match (if bool_decide (rv = AE_NOT_FOUND) then node_state h s else None) with
  | Some state => (AE_OK, state, s)
  | None =>
      if ACPI_FAILURE rv then (rv, 0, s)
      else if ACPI_STATE_D3 <? value then (AE_BAD_VALUE, 0, s)
      else (AE_OK, value, s)
  end.

(** ** Initial ownership *)

Fixpoint seed_packages (h : ACPI_HANDLE) (states : list Z) (set : list ACPI_HANDLE) (s : power) :
    ACPI_STATUS * list ACPI_HANDLE * power :=
  match states with
  | [] => (AE_OK, set, s)
  | state :: states =>
      let '(rv, set, s) := power_package h state set s in
      if ACPI_FAILURE rv then (rv, set, s) else seed_packages h states set s
  end.

(** The powered resources of [set] are held; [cold] if one has no power and
    only D0 was asked for. *)
Fixpoint seed_refs (h : ACPI_HANDLE) (only_d0 : bool) (set : list ACPI_HANDLE) (cold : bool) (s : power) :
    ACPI_STATUS * bool * power :=
  match set with
  | [] => (AE_OK, cold, s)
  | res :: set =>
      let '(rv, sta, s) := power_sta res s in
      if ACPI_FAILURE rv then (rv, cold, s)
      else if sta =? 0 then seed_refs h only_d0 set (cold || only_d0) s
      else
        let '(_, s) := power_reference res h true s in
        seed_refs h only_d0 set cold (add_uses res h POWER_STATE s)
  end.

Definition states_from (first last : Z) : list Z :=
  map (fun i => first + Z.of_nat i) (seq 0 (Z.to_nat (last - first + 1))).

Definition seed_body (h : ACPI_HANDLE) (first last : Z) (s : power) : ACPI_STATUS * power :=
  let '(rv, set, s) := seed_packages h (states_from first last) [] s in
  if ACPI_FAILURE rv then (rv, s) else
  let '(rv, cold, s) := seed_refs h ((first =? ACPI_STATE_D0) && (last =? ACPI_STATE_D0)) set false s in
  if ACPI_FAILURE rv then (rv, s) else
  let s := if cold then on_dev h (set_dev_state ACPI_STATE_D3_COLD) s else s in
  (AE_OK, on_dev h (set_dev_seeded true) s).

Definition power_seed (h : ACPI_HANDLE) (s : power) : ACPI_STATUS * power :=
  if dev_seeded (get_dev h s) then (AE_OK, s) else
  let '(rv, sta, s) := power_integer h M_STA s in
  if ACPI_SUCCESS rv && negb (Z.land sta 3 =? 3) then (AE_OK, s)
  else if ACPI_FAILURE rv && negb (bool_decide (rv = AE_NOT_FOUND)) then (rv, s) else
  let '(rv, state, s) := power_psc h s in
  if ACPI_SUCCESS rv
  then seed_body h state (if state =? ACPI_STATE_D3_COLD then ACPI_STATE_D3 else state)
         (on_dev h (set_dev_state state) s)
  else seed_body h ACPI_STATE_D0 ACPI_STATE_D3 s.

Fixpoint discover_methods (h : ACPI_HANDLE) (digits : list Z) (s : power) : ACPI_STATUS * power :=
  match digits with
  | [] => (AE_OK, s)
  | n :: digits =>
      let '(rv, s) := AcpiGetHandle h (M_PR n) s in
      if ACPI_SUCCESS rv then power_seed h (power_device h s)
      else if negb (bool_decide (rv = AE_NOT_FOUND)) then (rv, s)
      else discover_methods h digits s
  end.

Definition power_discover_one (h : ACPI_HANDLE) (s : power) : ACPI_STATUS * power :=
  discover_methods h [0; 1; 2; 3] s.

(** AcpiWalkNamespace: until a callback fails. *)
Fixpoint walk_devices (devices : list ACPI_HANDLE) (s : power) : ACPI_STATUS * power :=
  match devices with
  | [] => (AE_OK, s)
  | h :: devices =>
      let '(rv, s) := power_discover_one h s in
      if ACPI_FAILURE rv then (rv, s) else walk_devices devices s
  end.

Definition power_discover (s : power) : ACPI_STATUS * power :=
  if power_discovered s then (AE_OK, s) else
  let '(rv, s) := walk_devices (fw_devices (p_calls s)) s in
  if ACPI_SUCCESS rv then (rv, set_power_discovered true s) else (rv, s).

(** ** The interface *)

Definition acpi_power_register (h : ACPI_HANDLE) (s : power) : bool * power :=
  if Nat.eqb h NULL then (false, s) else
  let '(rv, s) := power_seed h (power_device h s) in (ACPI_SUCCESS rv, s).

(** Release along a list of resources, until one fails. *)
Fixpoint release_loop (l : list ACPI_HANDLE) (device : ACPI_HANDLE) (use : Z) (s : power) : ACPI_STATUS * power :=
  match l with
  | [] => (AE_OK, s)
  | res :: l =>
      let '(rv, s) := power_release res device use s in
      if ACPI_FAILURE rv then (rv, s) else release_loop l device use s
  end.

Fixpoint acquire_loop (l : list ACPI_HANDLE) (device : ACPI_HANDLE) (use : Z) (s : power) : ACPI_STATUS * power :=
  match l with
  | [] => (AE_OK, s)
  | res :: l =>
      let '(rv, s) := power_acquire res device use s in
      if ACPI_FAILURE rv then (rv, s) else acquire_loop l device use s
  end.

Definition handles (s : power) : list ACPI_HANDLE := map res_handle (power_resources s).

(** The first record of the device unlinked. *)
Fixpoint dev_unlink (h : ACPI_HANDLE) (l : list power_device_t) : list power_device_t :=
  match l with
  | [] => []
  | d :: l => if Nat.eqb (dev_handle d) h then l else d :: dev_unlink h l
  end.

Definition mark_failed (d : power_device_t) : power_device_t :=
  set_dev_failed true (set_dev_state ACPI_STATE_ERROR d).

Definition acpi_power_deregister (h : ACPI_HANDLE) (s : power) : power :=
  if Nat.eqb h NULL then s else
  let '(rv, s) :=
    let '(rv, s) := power_discover s in
    if ACPI_FAILURE rv then (rv, s) else
    let '(rv, s) := release_loop (rev (handles s)) h (Z.lor POWER_STATE POWER_WAKE) s in
    if ACPI_FAILURE rv then (rv, s)
    else (AE_OK, set_power_devices (dev_unlink h (power_devices s)) s) in
  if ACPI_FAILURE rv then on_dev h mark_failed (power_device h s) else s.

(** Whether a resource of the set has no power. *)
Fixpoint get_cold (set : list ACPI_HANDLE) (cold : bool) (s : power) : ACPI_STATUS * bool * power :=
  match set with
  | [] => (AE_OK, cold, s)
  | res :: set =>
      let '(rv, sta, s) := power_sta res s in
      if ACPI_FAILURE rv then (rv, cold, s) else get_cold set (cold || (sta =? 0)) s
  end.

Definition get_current (h : ACPI_HANDLE) (s : power) : ACPI_STATUS * Z * power :=
  let '(rv, s) := power_seed h s in
  if ACPI_FAILURE rv then (rv, ACPI_STATE_ERROR, s) else
  let '(rv, set, s) := power_package h ACPI_STATE_D0 [] s in
  if ACPI_FAILURE rv then (rv, ACPI_STATE_ERROR, s) else
  let '(rv, cold, s) := get_cold set false s in
  if ACPI_FAILURE rv then (rv, ACPI_STATE_ERROR, s) else
  if cold : bool then (AE_OK, ACPI_STATE_D3_COLD, on_dev h (set_dev_state ACPI_STATE_D3_COLD) s)
  else if dev_failed (get_dev h s) then (AE_ERROR, ACPI_STATE_ERROR, s)
  else if negb (dev_state (get_dev h s) =? ACPI_STATE_ERROR) then (AE_OK, dev_state (get_dev h s), s)
  else power_psc h s.

(** Success, the state stored and the state after. *)
Definition acpi_power_get (h : ACPI_HANDLE) (s : power) : bool * Z * power :=
  if Nat.eqb h NULL then (false, ACPI_STATE_ERROR, s) else
  let '(rv, current, s) := get_current h (power_device h s) in
  let current := if ACPI_FAILURE rv then ACPI_STATE_ERROR else current in
  (ACPI_SUCCESS rv, current, set_node_state h current s).

Definition power_ps (h : ACPI_HANDLE) (state : Z) (s : power) : ACPI_STATUS * power :=
  let m := M_PS (if state =? ACPI_STATE_D3_COLD then ACPI_STATE_D3 else state) in
  let '(rv, s) := AcpiGetHandle h m s in
  if bool_decide (rv = AE_NOT_FOUND) then (AE_OK, s)
  else if ACPI_FAILURE rv then (rv, s)
  else let '(r, s) := eval (A_evaluate h m) s in (r_status r, s).

(** The parent bus of a device has less power than [state]. *)
Definition parent_below (h : ACPI_HANDLE) (state : Z) (s : power) : bool :=
  match i ← fw_node h; ad ← p_nodes s !! i; p ← ad_parent ad; p_nodes s !! p with
  | Some parent => negb (Z.land (ad_flags parent) ACPI_DEVICE_POWER =? 0) && (state <? ad_state parent)
  | None => false
  end.

(** Acquire in list order, _PSx, release in reverse. *)
Definition set_transition (h : ACPI_HANDLE) (state flags : Z) (target : list ACPI_HANDLE) (s : power) :
    ACPI_STATUS * power :=
  let '(rv, s) := acquire_loop (List.filter (power_contains target) (handles s)) h POWER_STATE s in
  if ACPI_FAILURE rv then (rv, s) else
  let '(rv, s) := if Z.land flags ACPI_POWER_NOPS3 =? 0 then power_ps h state s else (AE_OK, s) in
  if ACPI_FAILURE rv then (rv, s) else
  release_loop (List.filter (fun r => negb (power_contains target r)) (rev (handles s))) h POWER_STATE s.

Definition set_body (h : ACPI_HANDLE) (state flags : Z) (s : power) : ACPI_STATUS * power :=
  let '(rv, s) := power_discover s in
  if ACPI_FAILURE rv then (rv, s) else
  let '(rv, s) := power_seed h s in
  if ACPI_FAILURE rv then (rv, s) else
  if parent_below h state s then (AE_ABORT_METHOD, s) else
  let '(rv, target, s) := if negb (state =? ACPI_STATE_D3_COLD) then power_package h state [] s
                          else (AE_OK, [], s) in
  if ACPI_FAILURE rv then (rv, s) else
  let '(rv, s) := set_transition h state flags target s in
  if ACPI_FAILURE rv then (rv, s)
  else (AE_OK, on_dev h (fun d => set_dev_failed false (set_dev_state state d)) s).

Definition acpi_power_set_flags (h : ACPI_HANDLE) (state flags : Z) (s : power) : bool * power :=
  if Nat.eqb h NULL || (state <? ACPI_STATE_D0) || (ACPI_STATE_D3_COLD <? state) then (false, s)
  else if nz (clr_flag flags ACPI_POWER_NOPS3) || (nz flags && negb (state =? ACPI_STATE_D3_COLD))
  then (false, s) else
  let '(rv, s) := set_body h state flags (power_device h s) in
  let s := if ACPI_FAILURE rv then on_dev h mark_failed s else s in
  (ACPI_SUCCESS rv, set_node_state h (dev_state (get_dev h s)) s).

Definition acpi_power_set (h : ACPI_HANDLE) (state : Z) (s : power) : bool * power :=
  acpi_power_set_flags h state 0 s.

Definition acpi_power_res_op (h device : ACPI_HANDLE) (on : bool) (s : power) : ACPI_STATUS * power :=
  if Nat.eqb h NULL || Nat.eqb device NULL then (AE_BAD_PARAMETER, s) else
  let '(rv, s) := power_discover s in
  if ACPI_FAILURE rv then (rv, s) else
  let '(rv, s) := power_resource h s in
  if ACPI_FAILURE rv then (rv, s)
  else if on then power_acquire h device POWER_WAKE s else power_release h device POWER_WAKE s.

(** What acpi_power_add does to the ownership, and the value of a
    hw.acpi.power node. *)
Definition acpi_power_add (h : ACPI_HANDLE) (s : power) : power := (acpi_power_register h s).2.

Definition acpi_power_sysctl_state (h : ACPI_HANDLE) (s : power) : Z * power :=
  let '(ok, state, s) := acpi_power_get h s in
  (if ok : bool then state else ACPI_STATE_ERROR, s).

End power.
