(* ===== verification/AcpiFacts.v ===== *)
(** * Ownership of power resources, step by step

    The elementary changes the routines of acpi_power.c make on behalf of a
    device, every routine as a run of them, and the well-formedness of the
    lists, which each of them keeps. *)

From stdpp Require Import base numbers list relations sorting.
From S2P Require Import Prelude AcpiPower.

(** ** Uses *)

(** The uses device [d] has of resource [res]. *)
Definition uses (s : power) (res d : ACPI_HANDLE) : Z :=
  match find_ref d (refs_of s res) with Some r => ref_uses r | None => 0 end.

(** The hold of [power_reference] and the use added to it. *)
Definition hold_refs (d : ACPI_HANDLE) (use : Z) (l : list power_ref) : list power_ref :=
  map (fun r => if Nat.eqb (ref_device r) d then set_ref_uses (set_flag (ref_uses r) use) r else r)
    (match find_ref d l with Some _ => l | None => mk_ref d 0 :: l end).

Definition hold (res d : ACPI_HANDLE) (use : Z) (s : power) : power := on_refs res (hold_refs d use) s.

Lemma map_find {A} (f : A -> A) (p : A -> bool) l : (forall x, p (f x) = p x) ->
  find p (map f l) = f <$> find p l.
Proof.
  intros H. induction l as [|x l IH]; [done|]. simpl. rewrite H. by destruct (p x).
Qed.

Lemma on_refs_find res f s res' :
  find_res res' (power_resources (on_refs res f s)) =
  (fun r => if Nat.eqb (res_handle r) res then set_res_refs (f (res_refs r)) r else r)
    <$> find_res res' (power_resources s).
Proof.
  unfold on_refs, find_res. cbn [power_resources set_power_resources]. apply map_find.
  intros r. by destruct (Nat.eqb (res_handle r) res).
Qed.

Lemma find_res_handle h l r : find_res h l = Some r -> res_handle r = h /\ In r l.
Proof. intros H. apply find_some in H as [H1 H2%Nat.eqb_eq]. done. Qed.

Lemma find_ref_device d l r : find_ref d l = Some r -> ref_device r = d /\ In r l.
Proof. intros H. apply find_some in H as [H1 H2%Nat.eqb_eq]. done. Qed.

Definition known (s : power) (res : ACPI_HANDLE) : Prop := is_Some (find_res res (power_resources s)).

Lemma refs_of_on_refs res f s res' : refs_of (on_refs res f s) res' =
  if decide (res' = res /\ known s res) then f (refs_of s res) else refs_of s res'.
Proof.
  unfold refs_of, known. rewrite on_refs_find. destruct (find_res res' _) as [r|] eqn:E; cbn [fmap option_fmap option_map].
  - destruct (find_res_handle _ _ _ E) as [<- _]. destruct (Nat.eqb_spec (res_handle r) res) as [<-|Hne].
    + rewrite decide_True by (split; [done|by eexists]). by rewrite E.
    + rewrite decide_False by tauto. done.
  - rewrite decide_False; [done|]. intros [-> [x Hx]]. congruence.
Qed.

Lemma known_on_refs res f s res' : known (on_refs res f s) res' <-> known s res'.
Proof. unfold known. rewrite on_refs_find. by destruct (find_res res' _). Qed.

Lemma known_handles s res : known s res <-> In res (handles s).
Proof.
  unfold known, handles. rewrite in_map_iff. split.
  - intros [r (H1 & H2)%find_res_handle]. by exists r.
  - intros (r & <- & H). destruct (find_res (res_handle r) _) eqn:E; [by eexists|].
    apply (find_none _ _ E) in H. by rewrite Nat.eqb_refl in H.
Qed.

Lemma on_refs_compose res f g s : on_refs res g (on_refs res f s) = on_refs res (fun l => g (f l)) s.
Proof.
  unfold on_refs, set_power_resources. cbn [power_resources power_devices power_discovered p_nodes p_calls].
  f_equal. rewrite map_map. apply map_ext. intros r.
  destruct (Nat.eqb (res_handle r) res) eqn:E; [|by rewrite E].
  change (res_handle (set_res_refs (f (res_refs r)) r)) with (res_handle r). by rewrite E.
Qed.

Lemma hold_reference res d use s :
  add_uses res d use (power_reference res d true s).2 = hold res d use s.
Proof. unfold power_reference, add_uses, hold. cbn [snd]. by rewrite on_refs_compose. Qed.

(** ** Well-formedness *)

Definition refs_ok (l : list power_ref) : Prop :=
  NoDup (map ref_device l) /\ Forall (fun r => In (ref_uses r) [1; 2; 3]) l.

Definition state_ok (x : Z) : Prop := ACPI_STATE_ERROR <= x <= ACPI_STATE_D3_COLD.

Record power_ok (s : power) : Prop := {
  po_order : StronglySorted Z.le (map res_order (power_resources s));
  po_handles : NoDup (handles s);
  po_refs : Forall (fun r => refs_ok (res_refs r)) (power_resources s);
  po_devs : NoDup (map dev_handle (power_devices s));
  po_states : Forall (fun d => state_ok (dev_state d)) (power_devices s)
}.

Lemma map_on_refs {A} (g : acpi_power_res -> A) res f s : (forall r l, g (set_res_refs l r) = g r) ->
  map g (power_resources (on_refs res f s)) = map g (power_resources s).
Proof.
  intros H. unfold on_refs. cbn [power_resources set_power_resources]. rewrite map_map. apply map_ext.
  intros r. by destruct (Nat.eqb (res_handle r) res).
Qed.

Lemma handles_on_refs res f s : handles (on_refs res f s) = handles s.
Proof. by apply map_on_refs. Qed.

Lemma on_refs_ok res f s : (forall l, refs_ok l -> refs_ok (f l)) -> power_ok s -> power_ok (on_refs res f s).
Proof.
  intros Hf [H1 H2 H3 H4 H5]. split; try done.
  - by rewrite map_on_refs.
  - by rewrite handles_on_refs.
  - unfold on_refs. cbn [power_resources set_power_resources]. apply Forall_map.
    eapply Forall_impl; [exact H3|]. intros r Hr. destruct (Nat.eqb (res_handle r) res); cbn [res_refs set_res_refs]; auto.
Qed.

Lemma find_ref_None d l : find_ref d l = None <-> ~ In d (map ref_device l).
Proof.
  unfold find_ref. split.
  - intros H (r & <- & Hr)%in_map_iff. apply (find_none _ _ H) in Hr. by rewrite Nat.eqb_refl in Hr.
  - intros H. destruct (find _ l) as [r|] eqn:E; [|done]. apply find_ref_device in E as [<- E].
    exfalso. by apply H, in_map.
Qed.

Lemma land_lor_cases u use : In u [0; 1; 2; 3] -> In use [1; 2] -> In (set_flag u use) [1; 2; 3].
Proof.
  intros Hu Huse. repeat (destruct Hu as [<-|Hu]; [|]); try done; repeat (destruct Huse as [<-|Huse]; [|]); try done;
    cbv; tauto.
Qed.

Lemma clr_cases u use : In u [1; 2; 3] -> In use [1; 2; 3] -> clr_flag u use <> 0 -> In (clr_flag u use) [1; 2; 3].
Proof.
  intros Hu Huse. repeat (destruct Hu as [<-|Hu]; [|]); try done; repeat (destruct Huse as [<-|Huse]; [|]); try done;
    cbv; tauto.
Qed.

Lemma hold_refs_devices d use l : map ref_device (hold_refs d use l) =
  match find_ref d l with Some _ => map ref_device l | None => d :: map ref_device l end.
Proof.
  unfold hold_refs. rewrite map_map. rewrite (map_ext _ ref_device); [by destruct (find_ref d l)|].
  intros r. by destruct (Nat.eqb (ref_device r) d).
Qed.

Lemma hold_refs_ok d use l : In use [1; 2] -> refs_ok l -> refs_ok (hold_refs d use l).
Proof.
  intros Hu [H1 H2]. split.
  - rewrite hold_refs_devices. destruct (find_ref d l) eqn:E; [done|]. apply NoDup_cons. split; [|done].
    apply find_ref_None in E. by rewrite list_elem_of_In.
  - unfold hold_refs. apply Forall_map.
    assert (Forall (fun r => In (ref_uses r) [1; 2; 3] \/ ref_device r = d /\ ref_uses r = 0)
      (match find_ref d l with Some _ => l | None => mk_ref d 0 :: l end)) as H.
    { destruct (find_ref d l); [|constructor; [by right|]]; (eapply Forall_impl; [exact H2|]); auto. }
    eapply Forall_impl; [exact H|]. intros r [Hr|[E Hr]].
    + destruct (Nat.eqb (ref_device r) d); cbn [ref_uses set_ref_uses]; [|done]. apply land_lor_cases; [|done]. by right.
    + rewrite E, Nat.eqb_refl. cbn [ref_uses set_ref_uses]. apply land_lor_cases; [|done]. rewrite Hr. by left.
Qed.

Lemma drop_uses_devices d use l : sublist (map ref_device (drop_uses d use l)) (map ref_device l).
Proof.
  induction l as [|r l IH]; [done|]. cbn [drop_uses map]. destruct (Nat.eqb (ref_device r) d).
  - destruct (clr_flag _ _ =? 0); cbn [map]; [by constructor|done].
  - cbn [map]. by constructor.
Qed.

Lemma drop_uses_ok d use l : In use [1; 2; 3] -> refs_ok l -> refs_ok (drop_uses d use l).
Proof.
  intros Hu [H1 H2]. split; [by eapply sublist_NoDup, drop_uses_devices|]. clear H1.
  induction H2 as [|r l Hr H2 IH]; [done|]. cbn [drop_uses]. destruct (Nat.eqb (ref_device r) d); [|by constructor].
  destruct (Z.eqb_spec (clr_flag (ref_uses r) use) 0); [done|]. constructor; [|done]. by apply clr_cases.
Qed.

(** Insertion by order. *)
Lemma res_insert_perm r l : Permutation (res_insert r l) (r :: l).
Proof.
  induction l as [|x l IH]; [done|]. cbn [res_insert]. destruct (res_order x <=? res_order r); [|done].
  rewrite IH. apply perm_swap.
Qed.

Lemma res_insert_sorted r l : StronglySorted Z.le (map res_order l) -> StronglySorted Z.le (map res_order (res_insert r l)).
Proof.
  induction l as [|x l IH]; intros H; cbn [res_insert map]; [by repeat constructor|].
  inversion H as [|? ? H1 H2]; subst. destruct (Z.leb_spec (res_order x) (res_order r)).
  - cbn [map]. constructor; [by apply IH|]. rewrite (Permutation_map _ (res_insert_perm r l)). cbn [map].
    by constructor.
  - cbn [map]. constructor; [by constructor|]. constructor; [lia|]. eapply Forall_impl; [exact H2|]. simpl. intros. lia.
Qed.

(** ** Elementary steps *)

Definition log (c : aml) (r : reply) (s : power) : power := set_p_calls ((c, r) :: p_calls s) s.

(** What an operation may do: add or drop a use, evaluate control methods,
    unlink the record of its device, clear its failure, set its node's state. *)
Inductive perm := P_hold (use : Z) | P_drop (use : Z) | P_evaluate | P_unlink | P_settle | P_node.

(** The steps made for device [h] under [U]: _OFF only where nobody else has a
    hold, and only its own holds are dropped. *)
Inductive micro (h : ACPI_HANDLE) (U : perm -> Prop) : power -> power -> Prop :=
  | m_query c r s : (forall d m, c <> A_evaluate d m) -> micro h U s (log c r s)
  | m_evaluate d m r s : m <> M_OFF -> U P_evaluate -> micro h U s (log (A_evaluate d m) r s)
  | m_off res r s : (forall x, In x (refs_of s res) -> ref_device x = h) -> U P_evaluate ->
      micro h U s (log (A_evaluate res M_OFF) r s)
  | m_insert res order s : find_res res (power_resources s) = None ->
      micro h U s (set_power_resources (res_insert (mk_res res order []) (power_resources s)) s)
  | m_hold res d use s : In use [1; 2] -> U (P_hold use) -> micro h U s (hold res d use s)
  | m_drop res use s : In use [1; 2; 3] -> U (P_drop use) -> micro h U s (on_refs res (drop_uses h use) s)
  | m_device d s : micro h U s (power_device d s)
  | m_dev d f s : (forall x, dev_handle (f x) = dev_handle x) ->
      (forall x, state_ok (dev_state x) -> state_ok (dev_state (f x))) ->
      (forall x, dev_failed x = true -> dev_failed (f x) = true) \/ U P_settle /\ d = h -> micro h U s (on_dev d f s)
  | m_unlink s : U P_unlink -> micro h U s (set_power_devices (dev_unlink h (power_devices s)) s)
  | m_nodes l s : U P_node -> micro h U s (set_p_nodes l s)
  | m_discovered b s : micro h U s (set_power_discovered b s).

Lemma find_dev_None h l : find_dev h l = None <-> ~ In h (map dev_handle l).
Proof.
  unfold find_dev. split.
  - intros H (r & <- & Hr)%in_map_iff. apply (find_none _ _ H) in Hr. by rewrite Nat.eqb_refl in Hr.
  - intros H. destruct (find _ l) as [r|] eqn:E; [|done]. apply find_some in E as [E1 E2%Nat.eqb_eq].
    exfalso. apply H. rewrite <-E2. by apply in_map.
Qed.

Lemma sublist_map {A B} (f : A -> B) l k : sublist l k -> sublist (map f l) (map f k).
Proof. induction 1; cbn [map]; by constructor. Qed.

Lemma sublist_elem_of {A} (x : A) l k : x ∈ l -> sublist l k -> x ∈ k.
Proof. intros H S. induction S; [done|set_solver|set_solver]. Qed.

Lemma dev_unlink_sublist h l : sublist (dev_unlink h l) l.
Proof.
  induction l as [|d l IH]; [done|]. cbn [dev_unlink]. destruct (Nat.eqb _ _); [by constructor|by constructor].
Qed.

Lemma micro_ok h U s s' : micro h U s s' -> power_ok s -> power_ok s'.
Proof.
  intros Hm [H1 H2 H3 H4 H5]. destruct Hm as [c r s ?|d m r s ? ?|res r s ? ?|res order s Hf|res d use s Hu _|res use s Hu _|d s|d f s Hh Hs _|s _|l s _|b s];
    try (by split); try (apply on_refs_ok; [intros l|by split]).
  - split; try done; cbn [power_resources set_power_resources].
    + by apply res_insert_sorted.
    + unfold handles. cbn [power_resources set_power_resources]. rewrite (Permutation_map _ (res_insert_perm _ _)).
      cbn [map res_handle]. apply NoDup_cons. split; [|done]. rewrite list_elem_of_In. intros H.
      apply known_handles in H as [x Hx]. congruence.
    + rewrite res_insert_perm. constructor; [|done]. split; [constructor|done].
  - by apply hold_refs_ok.
  - by apply drop_uses_ok.
  - unfold power_device. destruct (find_dev d (power_devices s)) eqn:E; [by split|].
    split; try done; cbn [power_devices set_power_devices].
    + cbn [map dev_handle]. apply NoDup_cons. split; [|done]. rewrite list_elem_of_In. by apply find_dev_None.
    + constructor; [|done]. unfold state_ok. cbn [dev_state]. unfold ACPI_STATE_ERROR, ACPI_STATE_D3_COLD. lia.
  - split; try done; unfold on_dev; cbn [power_devices set_power_devices].
    + rewrite map_map. rewrite (map_ext _ dev_handle); [done|]. intros x. by destruct (Nat.eqb _ _).
    + apply Forall_map. eapply Forall_impl; [exact H5|]. intros x Hx. destruct (Nat.eqb _ _); auto.
  - split; try done; cbn [power_devices set_power_devices].
    + eapply sublist_NoDup; [exact H4|]. apply sublist_map, dev_unlink_sublist.
    + rewrite Forall_forall in *. intros x Hx. apply H5. by eapply sublist_elem_of, dev_unlink_sublist.
Qed.

Lemma micros_ok h U s s' : rtc (micro h U) s s' -> power_ok s -> power_ok s'.
Proof. induction 1 as [|x y z H _ IH]; [done|]. intros. by eapply IH, micro_ok. Qed.

(** * Every routine as a run of elementary steps

    For any firmware: what a routine of acpi_power.c does for device [h] is a
    sequence of the steps of [micro]; the well-formedness of the lists and the
    holds of other devices follow for all of them at once. *)

Section runs.
Context `{FW : Firmware} (h : ACPI_HANDLE) (U : perm -> Prop) (HU : U (P_hold POWER_STATE)).

Notation run := (rtc (micro h U)).

Lemma run_trans s1 s2 s3 : run s1 s2 -> run s2 s3 -> run s1 s3.
Proof. intros H1 H2. by etrans. Qed.

Lemma run_step s1 s2 s3 : run s1 s2 -> micro h U s2 s3 -> run s1 s3.
Proof. intros H1 H2. eapply rtc_r; eauto. Qed.

Lemma eval_run c s : (forall d m, c <> A_evaluate d m) -> run s (eval c s).2.
Proof. intros H. apply rtc_once. by apply (m_query h U c). Qed.

Lemma get_handle_run d m s : run s (AcpiGetHandle d m s).2.
Proof. unfold AcpiGetHandle. by apply (eval_run (A_get_handle d m)). Qed.

Lemma power_sta_run res s : run s (power_sta res s).2.
Proof. unfold power_sta. by apply (eval_run (A_integer res M_STA)). Qed.

Lemma power_method_run res on s : U P_evaluate -> (on = false -> forall x, In x (refs_of s res) -> ref_device x = h) ->
  run s (power_method res on s).2.
Proof.
  intros HE H. unfold power_method. assert (run s (eval (A_evaluate res (if on then M_ON else M_OFF)) s).2) as R.
  { apply rtc_once. destruct on; [by apply m_evaluate|apply m_off; [by apply H|done]]. }
  destruct (eval _ s) as [r s1]. cbn [snd] in R. pose proof (power_sta_run res s1) as R1.
  destruct (power_sta res s1) as [[sr sta] s2]. cbn [snd] in R1.
  assert (run s s2) as R2 by (by eapply run_trans).
  destruct (ACPI_FAILURE (r_status r)); [done|]. destruct (ACPI_FAILURE sr); [done|]. by destruct (sta =? _).
Qed.

Lemma power_resource_run res s : run s (power_resource res s).2.
Proof.
  unfold power_resource. destruct (find_res res (power_resources s)) eqn:E; [done|].
  pose proof (eval_run (A_power res) s ltac:(done)) as R. destruct (eval (A_power res) s) as [r s1] eqn:Ee. cbn [snd] in R.
  assert (power_resources s1 = power_resources s) as Hp by (by injection Ee as _ <-).
  destruct (ACPI_FAILURE (r_status r)); [done|]. destruct (r_object r); try done. cbn [snd].
  eapply run_step; [exact R|]. apply m_insert. by rewrite Hp.
Qed.

Lemma power_acquire_run res use s : In use [1; 2] -> U (P_hold use) -> U P_evaluate -> run s (power_acquire res h use s).2.
Proof.
  intros Hu HUu HE. unfold power_acquire. pose proof (hold_reference res h use s) as E.
  destruct (power_reference res h true s) as [b s1]. cbn [snd] in E. rewrite E.
  assert (run s (hold res h use s)) as R by (apply rtc_once; by apply m_hold).
  destruct (bool_decide (refs_of s res = [])).
  { eapply run_trans; [exact R|]. by apply power_method_run. }
  pose proof (power_sta_run res (hold res h use s)) as R1. destruct (power_sta res _) as [[rv sta] s2]. cbn [snd] in R1.
  assert (run s s2) as R2 by (by eapply run_trans).
  destruct (ACPI_FAILURE rv); [done|]. destruct (sta =? 0); [|done].
  eapply run_trans; [exact R2|]. by apply power_method_run.
Qed.

Lemma single_holder d l r : find_ref d l = Some r -> length l = 1%nat -> forall x, In x l -> ref_device x = d.
Proof.
  intros Hf Hl. destruct l as [|y [|z l]]; try done. apply find_ref_device in Hf as [<- [->|[]]].
  intros x [->|[]]. done.
Qed.

Lemma power_release_run res use s : In use [1; 2; 3] -> U (P_drop use) -> U P_evaluate -> run s (power_release res h use s).2.
Proof.
  intros Hu HUu HE. unfold power_release. destruct (find_ref h (refs_of s res)) as [ref|] eqn:E; [|done].
  destruct (Z.land _ _ =? 0); [done|].
  assert (forall rv s1, run s s1 ->
    run s ((if ACPI_FAILURE rv then (rv, s1) else (AE_OK, on_refs res (drop_uses h use) s1)).2)) as Hend.
  { intros rv s1 R. destruct (ACPI_FAILURE rv); [done|]. eapply run_step; [exact R|]. by apply m_drop. }
  destruct (_ && _) eqn:Eb.
  - apply andb_true_iff in Eb as [_ Hl%Nat.eqb_eq]. pose proof (power_method_run res false s HE) as R.
    destruct (power_method res false s) as [rv s1]. apply Hend, R. intros _. by eapply single_holder.
  - pose proof (power_sta_run res s) as R. destruct (power_sta res s) as [[rv sta] s1].
    destruct (ACPI_FAILURE rv); [by apply Hend|]. destruct (negb (sta =? 1)); by apply Hend.
Qed.

Lemma package_loop_run elements : forall set s, run s (package_loop elements set s).2.
Proof.
  induction elements as [|[rv res] l IH]; intros set s; cbn [package_loop]; [done|].
  destruct (ACPI_FAILURE rv); [done|]. pose proof (power_resource_run res s) as R.
  destruct (power_resource res s) as [rv1 s1]. destruct (ACPI_FAILURE rv1); [done|].
  destruct (power_contains set res); (eapply run_trans; [exact R|apply IH]).
Qed.

Lemma power_package_run d state set s : run s (power_package d state set s).2.
Proof.
  unfold power_package. pose proof (get_handle_run d (M_PR state) s) as R. destruct (AcpiGetHandle _ _ s) as [rv s1].
  destruct (bool_decide _); [done|]. destruct (ACPI_FAILURE rv); [done|].
  pose proof (eval_run (A_package d (M_PR state)) s1 ltac:(done)) as R1. destruct (eval _ s1) as [r s2]. cbn [snd] in *.
  assert (run s s2) as R2 by (by eapply run_trans). destruct (ACPI_FAILURE (r_status r)); [done|].
  destruct (r_object r); try done. eapply run_trans; [exact R2|apply package_loop_run].
Qed.

Lemma power_integer_run d m s : run s (power_integer d m s).2.
Proof.
  unfold power_integer. pose proof (get_handle_run d m s) as R. destruct (AcpiGetHandle d m s) as [rv s1].
  destruct (ACPI_FAILURE rv); [done|]. pose proof (eval_run (A_integer d m) s1 ltac:(done)) as R1.
  destruct (eval _ s1) as [r s2]. cbn [snd] in *. by eapply run_trans.
Qed.

Lemma power_psc_run d s : run s (power_psc d s).2.
Proof.
  unfold power_psc. pose proof (power_integer_run d M_PSC s) as R. destruct (power_integer d M_PSC s) as [[rv v] s1].
  destruct (if bool_decide _ then _ else _); [done|]. destruct (ACPI_FAILURE rv); [done|]. by destruct (_ <? v).
Qed.

Lemma seed_packages_run d states : forall set s, run s (seed_packages d states set s).2.
Proof.
  induction states as [|st states IH]; intros set s; cbn [seed_packages]; [done|].
  pose proof (power_package_run d st set s) as R. destruct (power_package d st set s) as [[rv set1] s1].
  destruct (ACPI_FAILURE rv); [done|]. eapply run_trans; [exact R|apply IH].
Qed.

Lemma seed_refs_run d od0 set : forall cold s, run s (seed_refs d od0 set cold s).2.
Proof.
  induction set as [|res set IH]; intros cold s; cbn [seed_refs]; [done|].
  pose proof (power_sta_run res s) as R. destruct (power_sta res s) as [[rv sta] s1]. cbn [snd] in R.
  destruct (ACPI_FAILURE rv); [done|]. destruct (sta =? 0); [eapply run_trans; [exact R|apply IH]|].
  pose proof (hold_reference res d POWER_STATE s1) as E. destruct (power_reference res d true s1) as [b s2].
  cbn [snd] in E. rewrite E. eapply run_trans; [|apply IH]. eapply run_step; [exact R|]. apply m_hold; [by left|done].
Qed.

Lemma on_dev_run d f s : (forall x, dev_handle (f x) = dev_handle x) ->
  (forall x, state_ok (dev_state x) -> state_ok (dev_state (f x))) ->
  (forall x, dev_failed x = true -> dev_failed (f x) = true) \/ U P_settle /\ d = h -> run s (on_dev d f s).
Proof. intros. by apply rtc_once, m_dev. Qed.

Lemma seed_body_run d first last s : run s (seed_body d first last s).2.
Proof.
  unfold seed_body. pose proof (seed_packages_run d (states_from first last) [] s) as R.
  destruct (seed_packages _ _ _ s) as [[rv set] s1]. destruct (ACPI_FAILURE rv); [done|].
  pose proof (seed_refs_run d ((first =? ACPI_STATE_D0) && (last =? ACPI_STATE_D0)) set false s1) as R1.
  destruct (seed_refs _ _ _ _ s1) as [[rv1 cold] s2]. cbn [snd] in *.
  assert (run s s2) as R2 by (by eapply run_trans). destruct (ACPI_FAILURE rv1); [done|]. cbn [snd].
  eapply run_trans; [|by apply on_dev_run; auto]. destruct cold; [|done].
  eapply run_trans; [exact R2|]. by apply on_dev_run; auto.
Qed.

Lemma power_psc_range d s state s' : power_psc d s = (AE_OK, state, s') -> 0 <= state <= 4.
Proof.
  unfold power_psc. destruct (power_integer d M_PSC s) as [[rv v] s1] eqn:E.
  destruct (if bool_decide (rv = AE_NOT_FOUND) then node_state d s1 else None) as [x|] eqn:En.
  - intros [= <- <-]. destruct (bool_decide (rv = AE_NOT_FOUND)); [|done]. unfold node_state in En.
    destruct (fw_node d) as [i|]; [|done]. simpl in En. destruct (p_nodes s1 !! i) as [ad|]; [|done]. simpl in En.
    destruct (_ && _) eqn:Eb; [|done]. injection En as <-. apply andb_true_iff in Eb as [?%Z.leb_le ?%Z.leb_le].
    unfold ACPI_STATE_D0, ACPI_STATE_D3_COLD in *. lia.
  - destruct (ACPI_FAILURE rv) eqn:Ef; [intros [= -> _ _]; done|]. destruct (Z.ltb_spec ACPI_STATE_D3 v); [done|].
    intros [= <- _]. unfold ACPI_STATE_D3 in *. assert (0 <= v); [|lia].
    unfold power_integer in E. destruct (AcpiGetHandle d M_PSC s) as [rv0 s0]. destruct (ACPI_FAILURE rv0) eqn:Ef0.
    { by injection E as _ <- _. }
    destruct (eval _ s0) as [r s2]. injection E as _ <- _. apply Z.mod_pos_bound. lia.
Qed.

Lemma power_seed_run d s : run s (power_seed d s).2.
Proof.
  unfold power_seed. destruct (dev_seeded (get_dev d s)); [done|].
  pose proof (power_integer_run d M_STA s) as R. destruct (power_integer d M_STA s) as [[rv sta] s1]. cbn [snd] in R.
  destruct (ACPI_SUCCESS rv && _); [done|]. destruct (ACPI_FAILURE rv && _); [done|].
  pose proof (power_psc_run d s1) as R1. destruct (power_psc d s1) as [[rv1 state] s2] eqn:Ep. cbn [snd] in R1.
  assert (run s s2) as R2 by (by eapply run_trans). destruct (ACPI_SUCCESS rv1) eqn:Es.
  - apply bool_decide_eq_true in Es. subst rv1. apply power_psc_range in Ep.
    eapply run_trans; [|apply seed_body_run]. eapply run_trans; [exact R2|]. apply on_dev_run; [done| |by auto].
    intros x _. unfold state_ok, ACPI_STATE_ERROR, ACPI_STATE_D3_COLD. cbn [dev_state set_dev_state]. lia.
  - eapply run_trans; [exact R2|apply seed_body_run].
Qed.

Lemma power_device_run d s : run s (power_device d s).
Proof. apply rtc_once, m_device. Qed.

Lemma discover_methods_run d digits : forall s, run s (discover_methods d digits s).2.
Proof.
  induction digits as [|n digits IH]; intros s; cbn [discover_methods]; [done|].
  pose proof (get_handle_run d (M_PR n) s) as R. destruct (AcpiGetHandle d (M_PR n) s) as [rv s1]. cbn [snd] in R.
  destruct (ACPI_SUCCESS rv).
  { eapply run_trans; [exact R|]. eapply run_trans; [apply power_device_run|apply power_seed_run]. }
  destruct (negb _); [done|]. eapply run_trans; [exact R|apply IH].
Qed.

Lemma walk_devices_run devices : forall s, run s (walk_devices devices s).2.
Proof.
  induction devices as [|d devices IH]; intros s; cbn [walk_devices]; [done|].
  pose proof (discover_methods_run d [0; 1; 2; 3] s) as R. unfold power_discover_one.
  destruct (discover_methods d [0; 1; 2; 3] s) as [rv s1]. destruct (ACPI_FAILURE rv); [done|].
  eapply run_trans; [exact R|apply IH].
Qed.

Lemma power_discover_run s : run s (power_discover s).2.
Proof.
  unfold power_discover. destruct (power_discovered s); [done|].
  pose proof (walk_devices_run (fw_devices (p_calls s)) s) as R. destruct (walk_devices _ s) as [rv s1].
  destruct (ACPI_SUCCESS rv); [|done]. eapply run_step; [exact R|]. apply m_discovered.
Qed.

Lemma release_loop_run l use : In use [1; 2; 3] -> U (P_drop use) -> U P_evaluate -> forall s, run s (release_loop l h use s).2.
Proof.
  intros Hu HUu HE. induction l as [|res l IH]; intros s; cbn [release_loop]; [done|].
  pose proof (power_release_run res use s Hu HUu HE) as R. destruct (power_release res h use s) as [rv s1].
  destruct (ACPI_FAILURE rv); [done|]. eapply run_trans; [exact R|apply IH].
Qed.

Lemma acquire_loop_run l use : In use [1; 2] -> U (P_hold use) -> U P_evaluate -> forall s, run s (acquire_loop l h use s).2.
Proof.
  intros Hu HUu HE. induction l as [|res l IH]; intros s; cbn [acquire_loop]; [done|].
  pose proof (power_acquire_run res use s Hu HUu HE) as R. destruct (power_acquire res h use s) as [rv s1].
  destruct (ACPI_FAILURE rv); [done|]. eapply run_trans; [exact R|apply IH].
Qed.

Lemma set_node_state_run d x s : U P_node -> run s (set_node_state d x s).
Proof. intros HN. unfold set_node_state. destruct (fw_node d); [|done]. by apply rtc_once, m_nodes. Qed.

Lemma mark_failed_run d s : run s (on_dev d mark_failed s).
Proof. by apply on_dev_run; auto. Qed.

Lemma get_cold_run set : forall cold s, run s (get_cold set cold s).2.
Proof.
  induction set as [|res set IH]; intros cold s; cbn [get_cold]; [done|].
  pose proof (power_sta_run res s) as R. destruct (power_sta res s) as [[rv sta] s1].
  destruct (ACPI_FAILURE rv); [done|]. eapply run_trans; [exact R|apply IH].
Qed.

Lemma power_ps_run state s : U P_evaluate -> run s (power_ps h state s).2.
Proof.
  intros HE. unfold power_ps. set (m := M_PS _). pose proof (get_handle_run h m s) as R. destruct (AcpiGetHandle h m s) as [rv s1].
  destruct (bool_decide _); [done|]. destruct (ACPI_FAILURE rv); [done|].
  cbn [snd] in *. eapply run_step; [exact R|]. by apply m_evaluate.
Qed.

End runs.
