(* ===== verification/AcpiOps.v ===== *)
(** * The interface of the power resources

    The operations drivers call, in any order and for any devices: the lists
    stay well formed, and what is done for one device never takes power away
    from another. *)

From stdpp Require Import base numbers list relations sorting.
From S2P Require Import Prelude AcpiPower AcpiFacts.

Inductive power_op :=
  | Op_register (h : ACPI_HANDLE)
  | Op_deregister (h : ACPI_HANDLE)
  | Op_get (h : ACPI_HANDLE)
  | Op_set (h : ACPI_HANDLE) (state flags : Z)
  | Op_res (res h : ACPI_HANDLE) (on : bool).

Definition op_device (o : power_op) : ACPI_HANDLE :=
  match o with Op_register h | Op_deregister h | Op_get h | Op_set h _ _ | Op_res _ h _ => h end.

(** The state at boot: nothing known but the nodes. *)
Definition power_start (nodes : list acpi_devnode) : power := mk_power [] [] false nodes [].

Section ops.
Context `{FW : Firmware}.

Definition do_op (o : power_op) (s : power) : power :=
  match o with
  | Op_register h => (acpi_power_register h s).2
  | Op_deregister h => acpi_power_deregister h s
  | Op_get h => (acpi_power_get h s).2
  | Op_set h state flags => (acpi_power_set_flags h state flags s).2
  | Op_res res h on => (acpi_power_res_op res h on s).2
  end.

Definition do_ops (l : list power_op) (s : power) : power := fold_left (fun s o => do_op o s) l s.

(** What looking and seeding, transitions, resource requests and deregistration may do. *)
Definition seed_perm (p : perm) : Prop := p = P_hold POWER_STATE.
Definition get_perm (p : perm) : Prop := p = P_hold POWER_STATE \/ p = P_node.
Definition set_perm (p : perm) : Prop :=
  p = P_hold POWER_STATE \/ p = P_drop POWER_STATE \/ p = P_evaluate \/ p = P_settle \/ p = P_node.
Definition res_perm (p : perm) : Prop :=
  p = P_hold POWER_STATE \/ p = P_hold POWER_WAKE \/ p = P_drop POWER_WAKE \/ p = P_evaluate.
Definition dereg_perm (p : perm) : Prop :=
  p = P_hold POWER_STATE \/ p = P_drop (Z.lor POWER_STATE POWER_WAKE) \/ p = P_evaluate \/ p = P_unlink.

Definition op_perm (o : power_op) : perm -> Prop :=
  match o with
  | Op_register _ => seed_perm
  | Op_get _ => get_perm
  | Op_deregister _ => dereg_perm
  | Op_set _ _ _ => set_perm
  | Op_res _ _ _ => res_perm
  end.

Notation run h U := (rtc (micro h U)).

Lemma register_run h s : run h seed_perm s (acpi_power_register h s).2.
Proof.
  unfold acpi_power_register. destruct (Nat.eqb h NULL); [done|].
  pose proof (power_seed_run h seed_perm eq_refl h (power_device h s)) as R. destruct (power_seed h _) as [rv s1].
  eapply run_trans; [apply power_device_run|exact R].
Qed.

Lemma deregister_run h s : run h dereg_perm s (acpi_power_deregister h s).
Proof.
  unfold acpi_power_deregister. destruct (Nat.eqb h NULL); [done|].
  assert (forall rv s1, run h dereg_perm s s1 -> run h dereg_perm s (if ACPI_FAILURE rv then on_dev h mark_failed (power_device h s1) else s1)) as Hend.
  { intros rv s1 R. destruct (ACPI_FAILURE rv); [|done]. eapply run_trans; [exact R|].
    eapply run_trans; [apply power_device_run|apply mark_failed_run]. }
  pose proof (power_discover_run h dereg_perm ltac:(by left) s) as R. destruct (power_discover s) as [rv s1]. cbn [snd] in R.
  destruct (ACPI_FAILURE rv) eqn:Ef; [by apply Hend|].
  pose proof (release_loop_run h dereg_perm (rev (handles s1)) (Z.lor POWER_STATE POWER_WAKE) ltac:(by right; right; left) ltac:(by right; left) ltac:(by do 2 right; left) s1) as R1.
  destruct (release_loop _ h _ s1) as [rv1 s2]. cbn [snd] in R1. assert (run h dereg_perm s s2) as R2 by (by eapply run_trans).
  destruct (ACPI_FAILURE rv1) eqn:Ef1; [by apply Hend|]. apply Hend. eapply run_step; [exact R2|]. apply m_unlink. by do 3 right.
Qed.

Lemma get_current_run h U s : U (P_hold POWER_STATE) -> run h U s (get_current h s).2.
Proof.
  intros HU. unfold get_current. pose proof (power_seed_run h U HU h s) as R. destruct (power_seed h s) as [rv s1]. cbn [snd] in R.
  destruct (ACPI_FAILURE rv); [done|].
  pose proof (power_package_run h U h ACPI_STATE_D0 [] s1) as R1. destruct (power_package h _ [] s1) as [[rv1 set] s2].
  cbn [snd] in R1. assert (run h U s s2) as R2 by (by eapply run_trans). destruct (ACPI_FAILURE rv1); [done|].
  pose proof (get_cold_run h U set false s2) as R3. destruct (get_cold set false s2) as [[rv2 cold] s3]. cbn [snd] in R3.
  assert (run h U s s3) as R4 by (by eapply run_trans). destruct (ACPI_FAILURE rv2); [done|].
  destruct cold; [eapply run_trans; [exact R4|by apply on_dev_run; auto]|].
  destruct (dev_failed _); [done|]. destruct (negb _); [done|]. eapply run_trans; [exact R4|apply power_psc_run].
Qed.

Lemma get_run h s : run h get_perm s (acpi_power_get h s).2.
Proof.
  unfold acpi_power_get. destruct (Nat.eqb h NULL); [done|].
  pose proof (get_current_run h get_perm (power_device h s) ltac:(by left)) as R. destruct (get_current h _) as [[rv cur] s1]. cbn [snd] in *.
  eapply run_trans; [apply power_device_run|]. eapply run_trans; [exact R|apply set_node_state_run; by right].
Qed.

Lemma set_transition_run h state flags target s : run h set_perm s (set_transition h state flags target s).2.
Proof.
  unfold set_transition.
  pose proof (acquire_loop_run h set_perm (List.filter (power_contains target) (handles s)) POWER_STATE ltac:(by left) ltac:(by left) ltac:(by do 2 right; left) s) as R.
  destruct (acquire_loop _ h _ s) as [rv s1]. cbn [snd] in R. destruct (ACPI_FAILURE rv); [done|].
  assert (forall rv s2, run h set_perm s s2 -> run h set_perm s ((if ACPI_FAILURE rv then (rv, s2) else
    release_loop (List.filter (fun r => negb (power_contains target r)) (rev (handles s2))) h POWER_STATE s2).2)) as Hend.
  { intros rv1 s2 R2. destruct (ACPI_FAILURE rv1); [done|]. eapply run_trans; [exact R2|].
    apply release_loop_run; [by left|by right; left|by do 2 right; left]. }
  destruct (Z.land flags _ =? 0).
  - pose proof (power_ps_run h set_perm state s1 ltac:(by do 2 right; left)) as R1. destruct (power_ps h state s1) as [rv1 s2].
    apply Hend. by eapply run_trans.
  - by apply (Hend AE_OK s1).
Qed.

Lemma set_body_run h state flags s : state_ok state -> run h set_perm s (set_body h state flags s).2.
Proof.
  intros Hst. unfold set_body. pose proof (power_discover_run h set_perm ltac:(by left) s) as R. destruct (power_discover s) as [rv s1]. cbn [snd] in R.
  destruct (ACPI_FAILURE rv); [done|]. pose proof (power_seed_run h set_perm ltac:(by left) h s1) as R1. destruct (power_seed h s1) as [rv1 s2].
  cbn [snd] in R1. assert (run h set_perm s s2) as R2 by (by eapply run_trans). destruct (ACPI_FAILURE rv1); [done|].
  destruct (parent_below h state s2); [done|].
  assert (run h set_perm s2 (if negb (state =? ACPI_STATE_D3_COLD) then power_package h state [] s2 else (AE_OK, [], s2)).2) as R3.
  { destruct (negb _); [apply power_package_run|done]. }
  destruct (if negb _ then _ else _) as [[rv2 target] s3]. cbn [snd] in R3.
  assert (run h set_perm s s3) as R4 by (by eapply run_trans). destruct (ACPI_FAILURE rv2); [done|].
  pose proof (set_transition_run h state flags target s3) as R5. destruct (set_transition h state flags target s3) as [rv3 s4].
  cbn [snd] in R5. assert (run h set_perm s s4) as R6 by (by eapply run_trans). destruct (ACPI_FAILURE rv3); [done|].
  eapply run_trans; [exact R6|]. apply on_dev_run; [done|done|]. right. split; [by do 3 right; left|done].
Qed.

Lemma set_flags_run h state flags s : run h set_perm s (acpi_power_set_flags h state flags s).2.
Proof.
  unfold acpi_power_set_flags. destruct (_ || _) eqn:Eb; [done|].
  apply orb_false_iff in Eb as [[_ E1%Z.ltb_ge]%orb_false_iff E2%Z.ltb_ge].
  destruct (_ || _); [done|].
  assert (state_ok state) as Hst by (unfold state_ok, ACPI_STATE_D0, ACPI_STATE_ERROR in *; lia).
  pose proof (set_body_run h state flags (power_device h s) Hst) as R. destruct (set_body _ _ _ _) as [rv s1]. cbn [snd] in *.
  eapply run_trans; [apply power_device_run|]. eapply run_trans; [exact R|].
  eapply run_trans; [|apply set_node_state_run; by do 4 right]. destruct (ACPI_FAILURE rv); [apply mark_failed_run|done].
Qed.

Lemma res_op_run res h on s : run h res_perm s (acpi_power_res_op res h on s).2.
Proof.
  unfold acpi_power_res_op. destruct (_ || _); [done|].
  pose proof (power_discover_run h res_perm ltac:(by left) s) as R. destruct (power_discover s) as [rv s1]. cbn [snd] in R.
  destruct (ACPI_FAILURE rv); [done|]. pose proof (power_resource_run h res_perm res s1) as R1.
  destruct (power_resource res s1) as [rv1 s2]. cbn [snd] in R1. assert (run h res_perm s s2) as R2 by (by eapply run_trans).
  destruct (ACPI_FAILURE rv1); [done|]. eapply run_trans; [exact R2|]. destruct on.
  - apply power_acquire_run; [by right; left|by right; left|by do 3 right].
  - apply power_release_run; [by right; left|by do 2 right; left|by do 3 right].
Qed.

(** Every operation is a run of steps for its device. *)
Lemma do_op_run o s : run (op_device o) (op_perm o) s (do_op o s).
Proof.
  destruct o; [apply register_run|apply deregister_run|apply get_run|apply set_flags_run|apply res_op_run].
Qed.

Lemma do_ops_ok l : forall s, power_ok s -> power_ok (do_ops l s).
Proof.
  induction l as [|o l IH]; intros s H; [done|]. apply IH. eapply micros_ok; [apply do_op_run|done].
Qed.

(** ** Other devices *)

Lemma uses_on_refs_other res f s r d : (forall l, find_ref d (f l) = find_ref d l) -> uses (on_refs res f s) r d = uses s r d.
Proof.
  intros H. unfold uses. rewrite refs_of_on_refs. destruct (decide _) as [[-> _]|]; [by rewrite H|done].
Qed.

Lemma find_ref_drop_other d h use l : d <> h -> find_ref d (drop_uses h use l) = find_ref d l.
Proof.
  intros Hne. induction l as [|r l IH]; [done|]. cbn [drop_uses]. destruct (Nat.eqb_spec (ref_device r) h) as [E|E].
  - assert (Nat.eqb (ref_device r) d = false) as Ed by (apply Nat.eqb_neq; congruence).
    unfold find_ref. destruct (clr_flag _ _ =? 0); cbn [find ref_device set_ref_uses]; by rewrite Ed.
  - unfold find_ref in *. cbn [find]. by destruct (Nat.eqb (ref_device r) d).
Qed.

Lemma find_ref_hold d d' use l : find_ref d (hold_refs d' use l) =
  if decide (d = d') then Some (mk_ref d (set_flag (match find_ref d l with Some r => ref_uses r | None => 0 end) use))
  else find_ref d l.
Proof.
  unfold hold_refs, find_ref. rewrite map_find by (intros r; by destruct (Nat.eqb (ref_device r) d')).
  fold (find_ref d' l). destruct (decide (d = d')) as [->|Hne].
  - fold (find_ref d' l). destruct (find_ref d' l) as [r|] eqn:E.
    + fold (find_ref d' l). rewrite E. cbn [fmap option_fmap option_map]. apply find_ref_device in E as [<- _].
      rewrite Nat.eqb_refl. done.
    + cbn [find ref_device]. rewrite Nat.eqb_refl. cbn [fmap option_fmap option_map ref_device]. by rewrite Nat.eqb_refl.
  - assert (find (fun r => Nat.eqb (ref_device r) d) (match find_ref d' l with Some _ => l | None => mk_ref d' 0 :: l end) = find_ref d l) as ->.
    { destruct (find_ref d' l); [done|]. cbn [find ref_device]. by rewrite (proj2 (Nat.eqb_neq d' d)) by congruence. }
    destruct (find_ref d l) as [r|] eqn:E; unfold find_ref in E; rewrite E; [|done]. cbn [fmap option_fmap option_map].
    apply find_ref_device in E as [<- _]. by rewrite (proj2 (Nat.eqb_neq _ d')).
Qed.

Lemma uses_hold res d use s r d' : known s res ->
  uses (hold res d use s) r d' = if decide (r = res /\ d' = d) then set_flag (uses s r d') use else uses s r d'.
Proof.
  intros Hk. unfold uses, hold. rewrite refs_of_on_refs. destruct (decide (r = res /\ known s res)) as [[-> _]|Hn].
  - rewrite find_ref_hold. destruct (decide (d' = d)) as [->|Hd].
    + by rewrite decide_True.
    + by rewrite decide_False by tauto.
  - by rewrite decide_False by tauto.
Qed.

Lemma uses_hold_unknown res d use s : ~ known s res -> hold res d use s = s.
Proof.
  intros Hk. unfold hold, on_refs. destruct s as [l ds b ns cs]. unfold set_power_resources. cbn [power_resources power_devices power_discovered p_nodes p_calls]. f_equal.
  rewrite <-(map_id l) at 2. apply map_ext_in. intros r Hr. destruct (Nat.eqb_spec (res_handle r) res) as [E|]; [|done].
  exfalso. apply Hk, known_handles. rewrite <-E. by apply (in_map res_handle).
Qed.

(** [u] is part of [v], as sets of bits. *)
Definition sub_uses (u v : Z) : Prop := Z.land u v = u.

Lemma sub_uses_set u v use : sub_uses u v -> sub_uses u (set_flag v use).
Proof.
  unfold sub_uses, set_flag. intros H. rewrite Z.land_lor_distr_r, H. apply Z.bits_inj'. intros n _.
  rewrite Z.lor_spec, Z.land_spec. by destruct (Z.testbit u n), (Z.testbit use n).
Qed.

Definition no_off (res : ACPI_HANDLE) (l : list (aml * reply)) : Prop :=
  Forall (fun e => e.1 <> A_evaluate res M_OFF) l.

Lemma refs_of_insert r s res : find_res (res_handle r) (power_resources s) = None -> res_refs r = [] ->
  refs_of (set_power_resources (res_insert r (power_resources s)) s) res = refs_of s res.
Proof.
  intros Hn Hr. unfold refs_of. cbn [power_resources set_power_resources]. revert Hn.
  generalize (power_resources s). induction l as [|x l IH]; cbn [res_insert]; unfold find_res in *; cbn [find].
  - intros _. by destruct (Nat.eqb (res_handle r) res).
  - destruct (Nat.eqb_spec (res_handle x) (res_handle r)) as [|Hne]; [done|]. intros Hn.
    destruct (res_order x <=? res_order r); cbn [find].
    + destruct (Nat.eqb (res_handle x) res); [done|]. by apply IH.
    + destruct (Nat.eqb_spec (res_handle r) res) as [<-|]; [|done].
      by rewrite (proj2 (Nat.eqb_neq _ _) Hne), Hn.
Qed.

(** A step for [h] leaves the uses of another device and evaluates no _OFF of
    a resource it holds. *)
Lemma micro_other h U d res s s' : d <> h -> micro h U s s' -> uses s res d <> 0 ->
  sub_uses (uses s res d) (uses s' res d) /\
  exists l, p_calls s' = l ++ p_calls s /\ no_off res l.
Proof.
  intros Hne Hm Hu. assert (sub_uses (uses s res d) (uses s res d)) as Hrefl by apply Z.land_diag.
  assert (exists l, p_calls s = l ++ p_calls s /\ no_off res l) as Hnil
    by (exists []; split; [done|constructor]).
  destruct Hm as [c r s Hc|d' m r s Hm _|res' r s Ho _|res' order s Hf|res' d' use s _ _|res' use s _ _|d' s|d' f s _ _ _|s _|l s _|b s]; try done.
  - split; [done|]. exists [(c, r)]. split; [done|]. constructor; [apply Hc|done].
  - split; [done|]. exists [(A_evaluate d' m, r)]. split; [done|]. constructor; [|done]. by intros [= _ ->].
  - split; [done|]. exists [(A_evaluate res' M_OFF, r)]. split; [done|]. constructor; [|done].
    intros [= ->]. unfold uses in Hu. destruct (find_ref d (refs_of s res)) as [x|] eqn:E; [|done].
    apply find_ref_device in E as [<- E]. by apply Hne, Ho.
  - split; [|done]. unfold uses in *. rewrite (refs_of_insert (mk_res res' order []) s res Hf); done.
  - split; [|done]. destruct (decide (known s res')) as [Hk|Hk].
    + rewrite uses_hold by done. destruct (decide _); [by apply sub_uses_set|done].
    + by rewrite uses_hold_unknown.
  - split; [|done]. rewrite uses_on_refs_other; [done|]. intros l. by apply find_ref_drop_other.
  - unfold power_device. by destruct (find_dev d' (power_devices s)).
Qed.

Lemma sub_uses_trans u v w : sub_uses u v -> sub_uses v w -> sub_uses u w.
Proof. unfold sub_uses. intros H1 H2. rewrite <-H1 at 1. by rewrite <-Z.land_assoc, H2. Qed.

Lemma sub_uses_nonzero u v : sub_uses u v -> u <> 0 -> v <> 0.
Proof. unfold sub_uses. intros H Hu ->. rewrite Z.land_0_r in H. done. Qed.

Lemma micros_other h U d res s s' : d <> h -> rtc (micro h U) s s' -> uses s res d <> 0 ->
  sub_uses (uses s res d) (uses s' res d) /\ exists l, p_calls s' = l ++ p_calls s /\ no_off res l.
Proof.
  intros Hne. induction 1 as [x|x y z Hm _ IH]; intros Hu.
  - split; [apply Z.land_diag|]. exists []. split; [done|constructor].
  - destruct (micro_other h U d res x y Hne Hm Hu) as (H1 & l1 & L1 & N1).
    destruct IH as (H2 & l2 & L2 & N2); [by eapply sub_uses_nonzero|]. split; [by eapply sub_uses_trans|].
    exists (l2 ++ l1). split; [by rewrite L2, L1, app_assoc|]. by apply Forall_app.
Qed.

Lemma acpi_lists_ok_at nodes l : power_ok (do_ops l (power_start nodes)).
Proof. apply do_ops_ok. split; cbn; try constructor. Qed.

(** C37. For any firmware and any sequence of interface operations from boot, the
    resources are sorted by order and known once, every resource's references are of
    distinct devices with a non-empty set of uses, devices have one record each and
    recorded states are D0..D3cold or error. *)
Theorem acpi_power_lists_ok nodes l : power_ok (do_ops l (power_start nodes)).
Proof. apply acpi_lists_ok_at. Qed.

(** For any firmware, an operation on behalf of one device never evaluates _OFF of a
    power resource another device holds and never takes a use away from another device.
    *)
Theorem acpi_power_other_devices_kept o s res d : d <> op_device o -> uses s res d <> 0 ->
  sub_uses (uses s res d) (uses (do_op o s) res d) /\
  exists l, p_calls (do_op o s) = l ++ p_calls s /\ no_off res l.
Proof. intros Hd Hu. apply (micros_other (op_device o) (op_perm o)); [done|apply do_op_run|done]. Qed.

End ops.
