(* ===== verification/AcpiSet.v ===== *)
(** * A transition of a device

    What acpi_power_set_flags leaves behind: which resources the device holds,
    the record of its state, and after a failure what is remembered. *)

From stdpp Require Import base numbers list relations.
From S2P Require Import Prelude AcpiPower AcpiFacts AcpiOps.

(** ** Steps that only evaluate *)

Definition quiet (s s' : power) : Prop := s' = set_p_calls (p_calls s') s /\ exists l, p_calls s' = l ++ p_calls s.

Lemma quiet_refl s : quiet s s.
Proof. split; [by destruct s|by exists []]. Qed.

Lemma quiet_trans s1 s2 s3 : quiet s1 s2 -> quiet s2 s3 -> quiet s1 s3.
Proof.
  intros [H1 [l1 L1]] [H2 [l2 L2]]. split; [|exists (l2 ++ l1); by rewrite L2, L1, app_assoc].
  rewrite H2 at 1. rewrite H1. done.
Qed.

Lemma quiet_fields s s' : quiet s s' -> power_resources s' = power_resources s /\ power_devices s' = power_devices s /\
  p_nodes s' = p_nodes s /\ power_discovered s' = power_discovered s.
Proof. intros [-> _]. done. Qed.

Lemma quiet_uses s s' r d : quiet s s' -> uses s' r d = uses s r d.
Proof. intros H. unfold uses, refs_of. by destruct (quiet_fields _ _ H) as (-> & _). Qed.

Lemma quiet_handles s s' : quiet s s' -> handles s' = handles s.
Proof. intros H. unfold handles. by destruct (quiet_fields _ _ H) as (-> & _). Qed.

(** The status and value of a power resource's _STA reply. *)
Definition sta_is (r : reply) (v : Z) : Prop := r_status r = AE_OK /\ u64 (r_value r) = v.

(** The _STA of [res] answered [v] among [calls]. *)
Definition saw_sta (calls : list (aml * reply)) (res : ACPI_HANDLE) (v : Z) : Prop :=
  exists r, (A_integer res M_STA, r) ∈ calls /\ sta_is r v.

Section eval.
Context `{FW : Firmware}.

Lemma eval_quiet c s : quiet s (eval c s).2.
Proof. split; [done|]. by exists [(c, fw_reply (p_calls s) c)]. Qed.

Lemma get_handle_quiet d m s : quiet s (AcpiGetHandle d m s).2.
Proof. unfold AcpiGetHandle. apply (eval_quiet (A_get_handle d m)). Qed.

Lemma power_sta_spec res s rv sta s' : power_sta res s = (rv, sta, s') ->
  exists r, s' = log (A_integer res M_STA) r s /\ r = fw_reply (p_calls s) (A_integer res M_STA) /\
  sta = u64 (r_value r) /\ (rv = AE_OK -> sta_is r sta /\ 0 <= sta <= 1).
Proof.
  unfold power_sta, eval. cbv zeta. intros [= <- <- <-]. eexists. split; [done|]. split; [done|]. split; [done|].
  set (r := fw_reply _ _). intros H. assert (r_status r = AE_OK /\ u64 (r_value r) <= 1) as [E1 E2].
  { unfold ACPI_SUCCESS in H. case_bool_decide as Hs; cbn [andb] in H; [|done].
    destruct (Z.ltb_spec 1 (u64 (r_value r))); [done|by split]. }
  split; [done|]. split; [|done]. apply Z.mod_pos_bound. lia.
Qed.

Lemma power_sta_quiet res s : quiet s (power_sta res s).2.
Proof. unfold power_sta. apply (eval_quiet (A_integer res M_STA)). Qed.

Lemma power_method_spec res on s rv s' : power_method res on s = (rv, s') ->
  exists r r', s' = log (A_integer res M_STA) r' (log (A_evaluate res (if on then M_ON else M_OFF)) r s) /\
    r' = fw_reply ((A_evaluate res (if on then M_ON else M_OFF), r) :: p_calls s) (A_integer res M_STA) /\
    (rv = AE_OK -> sta_is r' (if on then 1 else 0)).
Proof.
  unfold power_method, eval. cbv zeta. set (s1 := set_p_calls _ s). destruct (power_sta res s1) as [[sr sta] s2] eqn:Es.
  apply power_sta_spec in Es as (r' & -> & -> & -> & Hok). intros H. eexists _, _. split; [|split; [reflexivity|]].
  - destruct (ACPI_FAILURE (r_status _)); [by injection H as <- <-|]. destruct (ACPI_FAILURE sr); [by injection H as <- <-|].
    by destruct (_ =? _); injection H as <- <-.
  - intros ->. destruct (ACPI_FAILURE (r_status _)) eqn:E1; [injection H as H _; rewrite H in E1; done|].
    destruct (ACPI_FAILURE sr) eqn:E2; [injection H as H _; rewrite H in E2; done|].
    destruct (Z.eqb_spec (u64 (r_value (fw_reply (p_calls s1) (A_integer res M_STA)))) (if on then 1 else 0)) as [E|]; [|done].
    rewrite <-E. apply Hok. unfold ACPI_FAILURE, ACPI_SUCCESS in E2. by apply negb_false_iff, bool_decide_eq_true in E2.
Qed.

Lemma log_quiet c r s : quiet s (log c r s).
Proof. split; [done|]. by exists [(c, r)]. Qed.

Lemma power_method_quiet res on s : quiet s (power_method res on s).2.
Proof.
  destruct (power_method res on s) as [rv s'] eqn:E. apply power_method_spec in E as (r & r' & -> & _).
  eapply quiet_trans; apply log_quiet.
Qed.

Lemma FAILURE_false rv : ACPI_FAILURE rv = false <-> rv = AE_OK.
Proof. unfold ACPI_FAILURE, ACPI_SUCCESS. by rewrite negb_false_iff, bool_decide_eq_true. Qed.

Lemma saw_head l c res r v : sta_is r v -> saw_sta (c ++ (A_integer res M_STA, r) :: l) res v.
Proof. intros H. exists r. split; [|done]. apply elem_of_app. right. by left. Qed.

(** Acquiring: the hold is made whatever the answers; success has seen power. *)
Lemma power_acquire_spec res d use s rv s' : power_acquire res d use s = (rv, s') ->
  quiet (hold res d use s) s' /\ (rv = AE_OK -> exists l, p_calls s' = l ++ p_calls s /\ saw_sta l res 1).
Proof.
  unfold power_acquire. pose proof (hold_reference res d use s) as E. destruct (power_reference res d true s) as [b s1].
  cbn [snd] in E. rewrite E. clear E. assert (p_calls (hold res d use s) = p_calls s) as Hc by done.
  assert (forall s0 rv s', p_calls s0 = p_calls s -> power_method res true s0 = (rv, s') -> rv = AE_OK ->
    exists l, p_calls s' = l ++ p_calls s /\ saw_sta l res 1) as Hm.
  { intros s0 rv0 s0' Hc0 Hp Hr. apply power_method_spec in Hp as (r & r' & -> & _ & Hs). specialize (Hs Hr).
    eexists [_; _]. split; [cbn; by rewrite Hc0|]. by apply (saw_head _ []). }
  destruct (bool_decide (refs_of s res = [])).
  { intros H. pose proof (power_method_quiet res true (hold res d use s)) as Q. rewrite H in Q. split; [done|].
    intros Hr. by apply (Hm (hold res d use s) rv). }
  destruct (power_sta res (hold res d use s)) as [[rv1 sta] s2] eqn:Es. pose proof (power_sta_quiet res (hold res d use s)) as Q.
  rewrite Es in Q. cbn [snd] in Q. apply power_sta_spec in Es as (r & -> & Er & -> & Hok).
  destruct (ACPI_FAILURE rv1) eqn:Ef; [intros [= <- <-]; split; [done|]; intros ->; done|].
  apply FAILURE_false in Ef. destruct (Hok Ef) as [Hs Hrange]. destruct (Z.eqb_spec (u64 (r_value r)) 0) as [E0|E0].
  - intros H. pose proof (power_method_quiet res true (log (A_integer res M_STA) r (hold res d use s))) as Q1.
    rewrite H in Q1. cbn [snd] in Q1. split; [by eapply quiet_trans|]. intros Hr.
    apply power_method_spec in H as (x & x' & -> & _ & Hs'). specialize (Hs' Hr).
    eexists [_; _; _]. split; [reflexivity|]. by apply (saw_head _ []).
  - intros [= <- <-]. split; [done|]. intros _. eexists [_]. split; [reflexivity|]. apply (saw_head [] []).
    destruct Hs. split; [done|]. lia.
Qed.

(** Releasing: nothing is dropped on failure. *)
Lemma power_release_spec res d use s rv s' : power_release res d use s = (rv, s') ->
  (rv <> AE_OK -> quiet s s') /\
  (rv = AE_OK -> Z.land (uses s res d) use = 0 /\ s' = s \/
    Z.land (uses s res d) use <> 0 /\ quiet (on_refs res (drop_uses d use) s) s').
Proof.
  unfold power_release, uses. destruct (find_ref d (refs_of s res)) as [ref|] eqn:E.
  2:{ intros [= <- <-]. split; [done|]. by left. }
  destruct (Z.eqb_spec (Z.land (ref_uses ref) use) 0) as [E0|E0].
  { intros [= <- <-]. split; [done|]. by left. }
  destruct (if _ && _ then _ else _) as [rv1 s1] eqn:Eb. assert (quiet s s1) as Q.
  { destruct (_ && _).
    - pose proof (power_method_quiet res false s) as Q. by rewrite Eb in Q.
    - pose proof (power_sta_quiet res s) as Q. destruct (power_sta res s) as [[rv2 sta] s2]. cbn [snd] in Q.
      destruct (ACPI_FAILURE rv2); [by injection Eb as <- <-|]. by destruct (negb _); injection Eb as <- <-. }
  destruct (ACPI_FAILURE rv1) eqn:Ef; intros [= <- <-].
  - split; [done|]. intros ->. done.
  - split; [done|]. intros _. right. split; [done|]. destruct Q as [-> [l L]]. cbn [p_calls set_p_calls] in L.
    split; [done|]. by exists l.
Qed.


(** ** The loops *)

Lemma find_ref_drop_own d use l : NoDup (map ref_device l) ->
  match find_ref d (drop_uses d use l) with Some r => ref_uses r | None => 0 end =
  clr_flag (match find_ref d l with Some r => ref_uses r | None => 0 end) use.
Proof.
  induction l as [|r l IH]; cbn [map]; [done|]. intros [Hn Hnd]%NoDup_cons. cbn [drop_uses].
  unfold find_ref in *. cbn [find]. destruct (Nat.eqb_spec (ref_device r) d) as [<-|Hne].
  - destruct (Z.eqb_spec (clr_flag (ref_uses r) use) 0) as [E|E].
    + rewrite E. assert (find_ref (ref_device r) l = None) as Hf.
      { apply find_ref_None. by rewrite <-list_elem_of_In. }
      unfold find_ref in Hf. by rewrite Hf.
    + cbn [find ref_device set_ref_uses]. by rewrite Nat.eqb_refl.
  - cbn [find]. rewrite (proj2 (Nat.eqb_neq _ _) Hne). by apply IH.
Qed.

Lemma refs_of_ok s res : power_ok s -> refs_ok (refs_of s res).
Proof.
  intros H. unfold refs_of. destruct (find_res res (power_resources s)) as [r|] eqn:E; [|by split; [constructor|]].
  apply find_res_handle in E as [_ E]. pose proof (po_refs _ H) as Hr. rewrite Forall_forall in Hr.
  apply Hr. by apply list_elem_of_In.
Qed.

Lemma uses_drop res d use s r d' : power_ok s -> uses (on_refs res (drop_uses d use) s) r d' =
  if decide (r = res /\ d' = d) then clr_flag (uses s r d') use else uses s r d'.
Proof.
  intros Hok. destruct (decide (d' = d)) as [->|Hd].
  - unfold uses. rewrite refs_of_on_refs. destruct (decide (r = res /\ known s res)) as [[-> Hk]|Hn].
    + rewrite decide_True by done. apply find_ref_drop_own. by apply refs_of_ok.
    + destruct (decide (r = res /\ d = d)) as [[-> _]|]; [|done]. unfold refs_of, known in *.
      destruct (find_res res (power_resources s)) as [x|]; [exfalso; apply Hn; by split; [|eexists]|done].
  - rewrite decide_False by tauto. apply uses_on_refs_other. intros l. by apply find_ref_drop_other.
Qed.

(** What the loops leave alone. *)
Definition framed (s s' : power) : Prop :=
  handles s' = handles s /\ power_devices s' = power_devices s /\ p_nodes s' = p_nodes s /\
  exists l, p_calls s' = l ++ p_calls s.

Lemma framed_refl s : framed s s.
Proof. do 3 (split; [done|]). by exists []. Qed.

Lemma framed_trans s1 s2 s3 : framed s1 s2 -> framed s2 s3 -> framed s1 s3.
Proof.
  intros (A1 & A2 & A3 & l1 & A4) (B1 & B2 & B3 & l2 & B4). do 3 (split; [congruence|]).
  exists (l2 ++ l1). by rewrite B4, A4, app_assoc.
Qed.

Lemma framed_quiet s s' : quiet s s' -> framed s s'.
Proof. intros H. split; [by apply quiet_handles|]. destruct (quiet_fields _ _ H) as (_ & -> & -> & _), H as [_ H]. done. Qed.

Lemma framed_refs res f s : framed s (on_refs res f s).
Proof. split; [apply handles_on_refs|]. do 2 (split; [done|]). by exists []. Qed.

Lemma power_acquire_framed res d use s : framed s (power_acquire res d use s).2.
Proof.
  destruct (power_acquire res d use s) as [rv s'] eqn:E. apply power_acquire_spec in E as [Q _].
  eapply framed_trans; [|by apply framed_quiet]. apply framed_refs.
Qed.

Lemma power_release_framed res d use s : framed s (power_release res d use s).2.
Proof.
  destruct (power_release res d use s) as [rv s'] eqn:E. apply power_release_spec in E as [Q1 Q2]. cbn [snd].
  destruct (decide (rv = AE_OK)) as [Hr|Hr]; [|by apply framed_quiet, Q1].
  destruct (Q2 Hr) as [[_ ->]|[_ Q]]; [apply framed_refl|]. eapply framed_trans; [|by apply framed_quiet]. apply framed_refs.
Qed.

Lemma acquire_loop_framed d use l : forall s, framed s (acquire_loop l d use s).2.
Proof.
  induction l as [|res l IH]; intros s; cbn [acquire_loop]; [apply framed_refl|].
  pose proof (power_acquire_framed res d use s) as F. destruct (power_acquire res d use s) as [rv s1].
  destruct (ACPI_FAILURE rv); [done|]. by eapply framed_trans.
Qed.

Lemma release_loop_framed d use l : forall s, framed s (release_loop l d use s).2.
Proof.
  induction l as [|res l IH]; intros s; cbn [release_loop]; [apply framed_refl|].
  pose proof (power_release_framed res d use s) as F. destruct (power_release res d use s) as [rv s1].
  destruct (ACPI_FAILURE rv); [done|]. by eapply framed_trans.
Qed.

Lemma acquire_loop_spec d use l : forall s s', acquire_loop l d use s = (AE_OK, s') -> Forall (known s) l ->
  framed s s' /\
  (forall r d', uses s' r d' = if decide (d' = d /\ r ∈ l) then set_flag (uses s r d') use else uses s r d') /\
  exists new, p_calls s' = new ++ p_calls s /\ forall r, r ∈ l -> saw_sta new r 1.
Proof.
  induction l as [|res l IH]; intros s s'; cbn [acquire_loop].
  { intros [= <-] _. split; [apply framed_refl|]. split.
    - intros r d'. rewrite decide_False; [done|]. by intros [_ ?%elem_of_nil].
    - exists []. split; [done|]. by intros r ?%elem_of_nil. }
  pose proof (power_acquire_framed res d use s) as F. destruct (power_acquire res d use s) as [rv s1] eqn:Ea. cbn [snd] in F.
  apply power_acquire_spec in Ea as [Q Hs]. destruct (ACPI_FAILURE rv) eqn:Ef; [intros [= -> _]; done|].
  apply FAILURE_false in Ef. destruct (Hs Ef) as (l1 & L1 & S1). intros H [Hk Hl]%Forall_cons.
  apply IH in H as (F2 & U2 & l2 & L2 & S2).
  2:{ eapply Forall_impl; [exact Hl|]. intros x Hx. apply known_handles. destruct F as (-> & _). by apply known_handles. }
  split; [by eapply framed_trans|]. split.
  - intros r d'. rewrite U2, (quiet_uses _ _ _ _ Q), uses_hold by done.
    assert (forall u, set_flag (set_flag u use) use = set_flag u use) as Hi.
    { intros u. unfold set_flag. by rewrite <-Z.lor_assoc, Z.lor_diag. }
    destruct (decide (d' = d /\ r ∈ l)) as [[-> Hin]|Hn].
    + rewrite (decide_True (P := d = d /\ r ∈ res :: l)) by (split; [done|by right]).
      destruct (decide (r = res /\ d = d)); [apply Hi|done].
    + destruct (decide (r = res /\ d' = d)) as [[-> ->]|Hn2].
      * rewrite decide_True; [done|]. split; [done|by left].
      * rewrite decide_False; [done|]. intros [-> [->|]%elem_of_cons]; [by apply Hn2|by apply Hn].
  - exists (l2 ++ l1). split; [by rewrite L2, L1, app_assoc|]. intros r [->|Hin]%elem_of_cons.
    + destruct S1 as (x & Hx & Hxs). exists x. split; [|done]. apply elem_of_app. by right.
    + destruct (S2 r Hin) as (x & Hx & Hxs). exists x. split; [|done]. apply elem_of_app. by left.
Qed.

Lemma clr_land0 u use : Z.land u use = 0 -> clr_flag u use = u.
Proof.
  intros H. unfold clr_flag. apply Z.bits_inj'. intros n Hn. rewrite Z.land_spec, Z.lnot_spec by done.
  apply (f_equal (fun x => Z.testbit x n)) in H. rewrite Z.land_spec, Z.bits_0 in H.
  by destruct (Z.testbit u n), (Z.testbit use n).
Qed.

Lemma clr_twice u use : clr_flag (clr_flag u use) use = clr_flag u use.
Proof. unfold clr_flag. by rewrite <-Z.land_assoc, Z.land_diag. Qed.

Lemma release_loop_spec d use l : In use [1; 2; 3] -> forall s s', release_loop l d use s = (AE_OK, s') -> power_ok s ->
  framed s s' /\
  (forall r d', uses s' r d' = if decide (d' = d /\ r ∈ l) then clr_flag (uses s r d') use else uses s r d').
Proof.
  intros Hu. induction l as [|res l IH]; intros s s'; cbn [release_loop].
  { intros [= <-] _. split; [apply framed_refl|]. intros r d'. rewrite decide_False; [done|]. by intros [_ ?%elem_of_nil]. }
  pose proof (power_release_framed res d use s) as F.
  pose proof (power_release_run d (fun _ => True) res use s Hu I I) as R.
  destruct (power_release res d use s) as [rv s1] eqn:Ea. cbn [snd] in F, R.
  apply power_release_spec in Ea as [_ Hs]. destruct (ACPI_FAILURE rv) eqn:Ef; [intros [= -> _]; done|].
  apply FAILURE_false in Ef. intros H Hok. pose proof (micros_ok _ _ _ _ R Hok) as Hok1.
  apply IH in H as (F2 & U2); [|done]. split; [by eapply framed_trans|].
  assert (forall r d', uses s1 r d' = if decide (r = res /\ d' = d) then clr_flag (uses s r d') use else uses s r d') as U1.
  { intros r d'. destruct (Hs Ef) as [[Hz ->]|[_ Q]].
    - destruct (decide _) as [[-> ->]|]; [by rewrite clr_land0|done].
    - rewrite (quiet_uses _ _ _ _ Q). by apply uses_drop. }
  intros r d'. rewrite U2, U1. destruct (decide (d' = d /\ r ∈ l)) as [[-> Hin]|Hn].
  - rewrite (decide_True (P := d = d /\ r ∈ res :: l)) by (split; [done|by right]).
    destruct (decide (r = res /\ d = d)); [apply clr_twice|done].
  - destruct (decide (r = res /\ d' = d)) as [[-> ->]|Hn2].
    + rewrite decide_True; [done|]. split; [done|by left].
    + rewrite decide_False; [done|]. intros [-> [->|]%elem_of_cons]; [by apply Hn2|by apply Hn].
Qed.

Lemma power_ps_quiet h state s : quiet s (power_ps h state s).2.
Proof.
  unfold power_ps. set (m := M_PS _). pose proof (get_handle_quiet h m s) as Q. destruct (AcpiGetHandle h m s) as [rv s1].
  destruct (bool_decide _); [done|]. destruct (ACPI_FAILURE rv); [done|].
  pose proof (eval_quiet (A_evaluate h m) s1) as Q1. destruct (eval _ s1) as [r s2]. cbn [snd] in *. by eapply quiet_trans.
Qed.

Lemma power_integer_quiet d m s : quiet s (power_integer d m s).2.
Proof.
  unfold power_integer. pose proof (get_handle_quiet d m s) as Q. destruct (AcpiGetHandle d m s) as [rv s1].
  destruct (ACPI_FAILURE rv); [done|]. pose proof (eval_quiet (A_integer d m) s1) as Q1.
  destruct (eval _ s1) as [r s2]. cbn [snd] in *. by eapply quiet_trans.
Qed.

Lemma power_psc_quiet d s : quiet s (power_psc d s).2.
Proof.
  unfold power_psc. pose proof (power_integer_quiet d M_PSC s) as Q. destruct (power_integer d M_PSC s) as [[rv v] s1].
  destruct (if bool_decide _ then _ else _); [done|]. destruct (ACPI_FAILURE rv); [done|]. by destruct (_ <? v).
Qed.

Lemma power_contains_spec set res : power_contains set res = true <-> res ∈ set.
Proof.
  unfold power_contains. rewrite existsb_exists. split.
  - intros (x & Hx & ->%Nat.eqb_eq). by apply list_elem_of_In.
  - intros H. exists res. split; [by apply list_elem_of_In|apply Nat.eqb_refl].
Qed.

Lemma elem_filter {A} (f : A -> bool) x l : x ∈ List.filter f l <-> x ∈ l /\ f x = true.
Proof. rewrite !list_elem_of_In. apply filter_In. Qed.

(** The transition of [h] to a state whose resources are [target]. *)
Lemma set_transition_spec h state flags target s s' : set_transition h state flags target s = (AE_OK, s') -> power_ok s ->
  (forall r, r ∈ target -> r ∈ handles s) ->
  framed s s' /\
  (forall r, r ∈ handles s -> uses s' r h =
     if decide (r ∈ target) then set_flag (uses s r h) POWER_STATE else clr_flag (uses s r h) POWER_STATE) /\
  (forall r d, d <> h -> uses s' r d = uses s r d) /\
  exists new, p_calls s' = new ++ p_calls s /\ forall r, r ∈ target -> saw_sta new r 1.
Proof.
  intros H Hok Ht. unfold set_transition in H. set (la := List.filter (power_contains target) (handles s)) in H.
  pose proof (acquire_loop_run h (fun _ => True) la POWER_STATE ltac:(by left) I I s) as R.
  destruct (acquire_loop la h POWER_STATE s) as [rv s1] eqn:Ea. cbn [snd] in R. pose proof (micros_ok _ _ _ _ R Hok) as Hok1.
  destruct (ACPI_FAILURE rv) eqn:Ef; [injection H as -> _; done|]. apply FAILURE_false in Ef. subst rv.
  apply acquire_loop_spec in Ea as (F1 & U1 & l1 & L1 & S1).
  2:{ apply Forall_forall. intros x [Hx _]%elem_filter. apply known_handles. by apply list_elem_of_In. }
  assert (exists s2, quiet s1 s2 /\ release_loop (List.filter (fun r => negb (power_contains target r)) (rev (handles s2))) h POWER_STATE s2 = (AE_OK, s')) as (s2 & Q & Hr).
  { destruct (Z.land flags _ =? 0).
    - pose proof (power_ps_quiet h state s1) as Q. destruct (power_ps h state s1) as [rv s2]. cbn [snd] in Q.
      destruct (ACPI_FAILURE rv) eqn:Ef; [injection H as -> _; done|]. by exists s2.
    - exists s1. split; [apply quiet_refl|done]. }
  assert (power_ok s2) as Hok2.
  { destruct Q as [-> _], Hok1. by split. }
  apply release_loop_spec in Hr as (F2 & U2); [|by left|done].
  assert (handles s2 = handles s) as Hh by (rewrite (quiet_handles _ _ Q); apply F1).
  split; [|split; [|split]].
  - eapply framed_trans; [exact F1|]. eapply framed_trans; [by apply framed_quiet|done].
  - intros r Hr. rewrite U2, !(quiet_uses _ _ _ _ Q), !U1. unfold la. destruct (decide (r ∈ target)) as [Hin|Hin].
    + rewrite decide_False. 2:{ intros [_ [_ Hf]%elem_filter]. apply negb_true_iff, not_true_iff_false in Hf. by apply Hf, power_contains_spec. }
      rewrite decide_True; [done|]. split; [done|]. apply elem_filter. split; [done|]. by apply power_contains_spec.
    + rewrite decide_True. 2:{ split; [done|]. apply elem_filter. split.
        - apply list_elem_of_In. rewrite <-in_rev. apply list_elem_of_In. by rewrite Hh.
        - apply negb_true_iff, not_true_iff_false. by rewrite power_contains_spec. }
      rewrite decide_False; [done|]. intros [_ [_ Hf]%elem_filter]. by apply Hin, power_contains_spec.
  - intros r d Hd. rewrite U2, !(quiet_uses _ _ _ _ Q), U1. by rewrite !decide_False by tauto.
  - destruct Q as [_ [lq Lq]], F2 as (_ & _ & _ & l2 & L2). exists (l2 ++ lq ++ l1).
    split; [by rewrite L2, Lq, L1, !app_assoc|]. intros r Hr.
    assert (r ∈ la) as Hla by (apply elem_filter; split; [by apply Ht|by apply power_contains_spec]).
    destruct (S1 r Hla) as (x & Hx & Hxs). exists x. split; [|done]. rewrite !elem_of_app. auto.
Qed.

End eval.
