(* ===== verification/AcpiThms.v ===== *)
(** * What transitions and queries promise

    After a successful transition a device holds exactly the resources of its
    state; a failure is remembered until a transition succeeds; a query never
    takes a shared rail for the device's own state. *)

From stdpp Require Import base numbers list relations.
From S2P Require Import Prelude AcpiPower AcpiFacts AcpiOps AcpiSet.

(** ** What runs keep *)

Lemma micros_calls h U s s' : rtc (micro h U) s s' -> exists l, p_calls s' = l ++ p_calls s.
Proof.
  induction 1 as [s|s1 s2 s3 Hm _ [l L]]; [by exists []|].
  assert (exists k, p_calls s2 = k ++ p_calls s1) as [k K].
  { destruct Hm; try (by exists []); try (by eexists [_]). unfold power_device. destruct (find_dev d (power_devices s)); by exists []. }
  exists (l ++ k). by rewrite L, K, app_assoc.
Qed.

(** Without the permission no control method is evaluated. *)
Lemma micros_queries h U s s' : ~ U P_evaluate -> rtc (micro h U) s s' ->
  exists l, p_calls s' = l ++ p_calls s /\ Forall (fun e => forall d m, e.1 <> A_evaluate d m) l.
Proof.
  intros HU. induction 1 as [s|s1 s2 s3 Hm _ (l & L & Fl)]; [by exists []|].
  assert (exists k, p_calls s2 = k ++ p_calls s1 /\ Forall (fun e => forall d m, e.1 <> A_evaluate d m) k) as (k & K & Fk).
  { destruct Hm; try done; try (by exists []).
    - exists [(c, r)]. split; [done|]. by constructor.
    - unfold power_device. destruct (find_dev d (power_devices s)); by exists []. }
  exists (l ++ k). split; [by rewrite L, K, app_assoc|]. by apply Forall_app.
Qed.

Lemma micros_known h U s s' r : rtc (micro h U) s s' -> r ∈ handles s -> r ∈ handles s'.
Proof.
  induction 1 as [|s1 s2 s3 Hm _ IH]; [done|]. intros Hr. apply IH. destruct Hm; try done.
  - unfold handles in *. cbn [power_resources set_power_resources]. rewrite (Permutation_map _ (res_insert_perm _ _)). by right.
  - unfold hold. by rewrite handles_on_refs.
  - by rewrite handles_on_refs.
  - unfold power_device. by destruct (find_dev d (power_devices s)).
Qed.

Lemma micros_nodes h U s s' : ~ U P_node -> rtc (micro h U) s s' -> p_nodes s' = p_nodes s.
Proof.
  intros HU. induction 1 as [|s1 s2 s3 Hm _ IH]; [done|]. rewrite IH. destruct Hm; try done.
  unfold power_device. by destruct (find_dev d (power_devices s)).
Qed.

(** A device has a record. *)
Definition has_dev (s : power) (d : ACPI_HANDLE) : Prop := is_Some (find_dev d (power_devices s)).

Lemma find_dev_on d d' f s : (forall x, dev_handle (f x) = dev_handle x) ->
  find_dev d (power_devices (on_dev d' f s)) =
  (fun x => if Nat.eqb (dev_handle x) d' then f x else x) <$> find_dev d (power_devices s).
Proof.
  intros H. unfold on_dev, find_dev. cbn [power_devices set_power_devices]. apply map_find.
  intros x. destruct (Nat.eqb (dev_handle x) d'); [by rewrite H|done].
Qed.

Lemma find_dev_handle d l x : find_dev d l = Some x -> dev_handle x = d.
Proof. intros [_ H%Nat.eqb_eq]%find_some. done. Qed.

Lemma find_dev_power_device d d' s x : find_dev d (power_devices s) = Some x ->
  find_dev d (power_devices (power_device d' s)) = Some x.
Proof.
  intros H. unfold power_device. destruct (find_dev d' (power_devices s)) eqn:E; [done|].
  unfold find_dev in *. cbn [power_devices set_power_devices find dev_handle].
  destruct (Nat.eqb_spec d' d) as [->|]; [congruence|done].
Qed.

Lemma power_device_has d s : has_dev (power_device d s) d.
Proof.
  unfold has_dev, power_device. destruct (find_dev d (power_devices s)) eqn:E; [by rewrite E|].
  unfold find_dev. cbn [power_devices set_power_devices find dev_handle]. rewrite Nat.eqb_refl. by eexists.
Qed.

Lemma micros_dev h U s s' d : ~ U P_unlink -> rtc (micro h U) s s' -> has_dev s d -> has_dev s' d.
Proof.
  intros HU. induction 1 as [|s1 s2 s3 Hm _ IH]; [done|]. intros [x Hx]. apply IH. unfold has_dev.
  destruct Hm; try done; try (by rewrite Hx).
  - by rewrite (find_dev_power_device _ _ _ _ Hx).
  - rewrite find_dev_on by done. by rewrite Hx.
Qed.

Lemma find_dev_unlink d h l : d <> h -> find_dev d (dev_unlink h l) = find_dev d l.
Proof.
  intros Hne. induction l as [|x l IH]; [done|]. cbn [dev_unlink]. unfold find_dev in *.
  destruct (Nat.eqb_spec (dev_handle x) h) as [E|]; cbn [find].
  - by rewrite (proj2 (Nat.eqb_neq _ d)) by congruence.
  - by destruct (Nat.eqb (dev_handle x) d).
Qed.

(** A failure is cleared by the device's own operations alone. *)
Lemma micros_failed h (U : perm -> Prop) s s' d : (U P_unlink \/ U P_settle -> d <> h) -> rtc (micro h U) s s' ->
  dev_failed (get_dev d s) = true -> dev_failed (get_dev d s') = true.
Proof.
  intros H1. induction 1 as [|s1 s2 s3 Hm _ IH]; [done|]. intros Hf. apply IH. unfold get_dev in *.
  destruct (find_dev d (power_devices s1)) as [x|] eqn:Hx; [|done].
  assert (exists y, find_dev d (power_devices s2) = Some y /\ dev_failed y = true) as (y & -> & Hy); [|done].
  destruct Hm as [| | | | | |d' s|d' f s F1 F2 F3|s F|l s|b s]; try done; try (by exists x).
  - exists x. by rewrite (find_dev_power_device _ _ _ _ Hx).
  - rewrite find_dev_on by done. rewrite Hx. eexists. split; [reflexivity|]. cbv beta.
    apply find_dev_handle in Hx. rewrite Hx. destruct (Nat.eqb_spec d d') as [<-|]; [|done].
    destruct F3 as [F3|[F3 ->]]; [by apply F3|]. by destruct H1; [right|].
  - exists x. cbn [power_devices set_power_devices]. rewrite find_dev_unlink; [done|]. by apply H1; left.
Qed.

(** Uses other than the permitted ones stay. *)
Lemma has_flag_wake_set u : has_flag (set_flag u POWER_STATE) POWER_WAKE = has_flag u POWER_WAKE.
Proof. by apply has_flag_set_disj. Qed.
Lemma has_flag_wake_clr u : has_flag (clr_flag u POWER_STATE) POWER_WAKE = has_flag u POWER_WAKE.
Proof. by apply has_flag_clr_disj. Qed.

Lemma micros_wake h (U : perm -> Prop) s s' r d : (forall u, U (P_hold u) \/ U (P_drop u) -> u = POWER_STATE) ->
  rtc (micro h U) s s' -> power_ok s -> has_flag (uses s' r d) POWER_WAKE = has_flag (uses s r d) POWER_WAKE.
Proof.
  intros HU. induction 1 as [|s1 s2 s3 Hm _ IH]; [done|]. intros Hok. pose proof (micro_ok _ _ _ _ Hm Hok) as Hok2.
  rewrite IH by done. clear IH. destruct Hm as [| | |res order s Hf|res d' use s _ Hp|res use s _ Hp|d' s| | | |]; try done.
  - unfold uses. by rewrite (refs_of_insert (mk_res res order [])).
  - rewrite (HU use) by auto. destruct (decide (known s res)); [|by rewrite uses_hold_unknown].
    rewrite uses_hold by done. destruct (decide _); [apply has_flag_wake_set|done].
  - rewrite (HU use) by auto. rewrite uses_drop by done. destruct (decide _); [apply has_flag_wake_clr|done].
  - unfold power_device. by destruct (find_dev d' (power_devices s)).
Qed.

(** ** The resources of a state *)

(** [target] are the resources _PRn of [h] names, as the firmware answered in
    [calls]; none for D3cold or an absent _PRn. *)
Definition names_resources (calls : list (aml * reply)) (h : ACPI_HANDLE) (state : Z) (target : list ACPI_HANDLE) : Prop :=
  (state = ACPI_STATE_D3_COLD /\ target = []) \/
  (target = [] /\ exists r, (A_get_handle h (M_PR state), r) ∈ calls /\ r_status r = AE_NOT_FOUND) \/
  (exists r elements, (A_package h (M_PR state), r) ∈ calls /\ r_status r = AE_OK /\
     r_object r = O_package elements /\ forall x, x ∈ target <-> x ∈ map snd elements).

Lemma names_resources_app l l' h state target : names_resources l h state target -> names_resources (l' ++ l) h state target.
Proof.
  intros [H|[(H & r & Hr & Hs)|(r & el & Hr & H)]]; [by left|right; left|right; right].
  - split; [done|]. exists r. split; [apply elem_of_app; by right|done].
  - exists r, el. split; [apply elem_of_app; by right|done].
Qed.

Lemma names_resources_app_l l l' h state target : names_resources l h state target -> names_resources (l ++ l') h state target.
Proof.
  intros [H|[(H & r & Hr & Hs)|(r & el & Hr & H)]]; [by left|right; left|right; right].
  - split; [done|]. exists r. split; [apply elem_of_app; by left|done].
  - exists r, el. split; [apply elem_of_app; by left|done].
Qed.

Section thms.
Context `{FW : Firmware}.

Lemma power_resource_known res s s' : power_resource res s = (AE_OK, s') -> res ∈ handles s'.
Proof.
  unfold power_resource. destruct (find_res res (power_resources s)) as [r|] eqn:E.
  - intros [= <-]. apply list_elem_of_In, known_handles. by eexists.
  - destruct (eval (A_power res) s) as [r s1]. destruct (ACPI_FAILURE (r_status r)) eqn:Ef.
    { intros [= E1 _]. rewrite E1 in Ef. done. }
    destruct (r_object r); intros [= <-]. unfold handles. cbn [power_resources set_power_resources].
    rewrite (Permutation_map _ (res_insert_perm _ _)). by left.
Qed.

Lemma package_loop_spec el : forall set s target s', package_loop el set s = (AE_OK, target, s') ->
  (forall x, x ∈ set -> x ∈ handles s) ->
  (forall x, x ∈ target -> x ∈ handles s') /\ forall x, x ∈ target <-> x ∈ set \/ x ∈ map snd el.
Proof.
  induction el as [|[rv res] el IH]; intros set s target s'; cbn [package_loop map snd].
  { intros [= <- <-] H. split; [done|]. intros x. rewrite elem_of_nil. tauto. }
  destruct (ACPI_FAILURE rv) eqn:Ef; [intros [= -> _ _]; done|].
  pose proof (power_resource_run NULL seed_perm res s) as R. destruct (power_resource res s) as [rv1 s1] eqn:Er. cbn [snd] in R.
  destruct (ACPI_FAILURE rv1) eqn:Ef1; [intros [= -> _ _]; done|]. apply FAILURE_false in Ef1. subst rv1.
  apply power_resource_known in Er. intros H Hset.
  assert (forall x, x ∈ set -> x ∈ handles s1) as Hset1 by (intros x Hx; eapply micros_known; [exact R|auto]).
  destruct (power_contains set res) eqn:Ec.
  - apply power_contains_spec in Ec. apply IH in H as [H1 H2]; [|done]. split; [done|].
    intros x. rewrite H2, elem_of_cons. split; [tauto|]. intros [?|[->|?]]; auto.
  - apply IH in H as [H1 H2]; [|by intros x [->|?]%elem_of_cons; auto]. split; [done|].
    intros x. rewrite H2, !elem_of_cons. tauto.
Qed.

Lemma power_package_spec h state s target s' : power_package h state [] s = (AE_OK, target, s') ->
  (forall x, x ∈ target -> x ∈ handles s') /\ exists l, p_calls s' = l ++ p_calls s /\ names_resources l h state target.
Proof.
  unfold power_package, AcpiGetHandle, eval. cbv zeta. set (c1 := A_get_handle h (M_PR state)).
  set (r1 := fw_reply (p_calls s) c1). set (s1 := set_p_calls _ s). case_bool_decide as E1.
  { intros [= <- <-]. split; [by intros x ?%elem_of_nil|]. exists [(c1, r1)]. split; [done|]. right. left. split; [done|].
    exists r1. split; [by left|done]. }
  destruct (ACPI_FAILURE (r_status r1)) eqn:E2; [intros [= E _ _]; rewrite E in E2; done|].
  set (c2 := A_package h (M_PR state)). set (r2 := fw_reply (p_calls s1) c2). set (s2 := set_p_calls _ s1).
  destruct (ACPI_FAILURE (r_status r2)) eqn:E3; [intros [= E _ _]; rewrite E in E3; done|]. apply FAILURE_false in E3.
  destruct (r_object r2) as [| |el| |] eqn:Eo; try done. intros H.
  pose proof (package_loop_run NULL seed_perm el [] s2) as R. rewrite H in R. cbn [snd] in R.
  apply micros_calls in R as [l L].
  apply package_loop_spec in H as [H1 H2]; [|by intros x ?%elem_of_nil]. split; [done|].
  exists (l ++ [(c2, r2); (c1, r1)]). split; [by rewrite L, <-app_assoc|]. right. right. exists r2, el.
  split; [apply elem_of_app; right; by left|]. split; [done|]. split; [done|]. intros x. rewrite H2, elem_of_nil. tauto.
Qed.

Lemma uses_unknown s r d : ~ r ∈ handles s -> uses s r d = 0.
Proof.
  intros H. unfold uses, refs_of. destruct (find_res r (power_resources s)) as [x|] eqn:E; [|done].
  exfalso. apply H, list_elem_of_In, known_handles. by eexists.
Qed.

Lemma get_dev_on d f s : has_dev s d -> (forall x, dev_handle (f x) = dev_handle x) ->
  get_dev d (on_dev d f s) = f (get_dev d s).
Proof.
  intros [x Hx] H. unfold get_dev. rewrite find_dev_on by done. rewrite Hx. cbn [fmap option_fmap option_map].
  apply find_dev_handle in Hx. by rewrite Hx, Nat.eqb_refl.
Qed.

Lemma node_after h x s i ad : fw_node h = Some i -> p_nodes (set_node_state h x s) !! i = Some ad -> ad_state ad = x.
Proof.
  intros Hi. unfold set_node_state. rewrite Hi. cbn [p_nodes set_p_nodes]. rewrite list_lookup_alter_eq.
  destruct (p_nodes s !! i); [|done]. by intros [= <-].
Qed.

Lemma set_node_fields h x s : power_resources (set_node_state h x s) = power_resources s /\
  power_devices (set_node_state h x s) = power_devices s /\ p_calls (set_node_state h x s) = p_calls s.
Proof. unfold set_node_state. by destruct (fw_node h). Qed.

(** The success of [set_body]. *)
Lemma set_body_success h state flags s s' : has_dev s h -> power_ok s -> set_body h state flags s = (AE_OK, s') ->
  has_dev s' h /\ dev_state (get_dev h s') = state /\ dev_failed (get_dev h s') = false /\
  exists target new, p_calls s' = new ++ p_calls s /\ names_resources new h state target /\
   (forall r, has_flag (uses s' r h) POWER_STATE = bool_decide (r ∈ target)) /\
   (forall r, r ∈ target -> saw_sta new r 1).
Proof.
  intros Hd Hok. unfold set_body. pose proof (power_discover_run h seed_perm eq_refl s) as R.
  destruct (power_discover s) as [rv s1]. cbn [snd] in R. destruct (ACPI_FAILURE rv) eqn:Ef; [intros [= -> _]; done|].
  pose proof (power_seed_run h seed_perm eq_refl h s1) as R1. destruct (power_seed h s1) as [rv1 s2]. cbn [snd] in R1.
  destruct (ACPI_FAILURE rv1) eqn:Ef1; [intros [= -> _]; done|]. destruct (parent_below h state s2); [done|].
  destruct (if negb _ then _ else _) as [[rv2 target] s3] eqn:Ep.
  assert (rtc (micro h seed_perm) s2 s3) as R2.
  { destruct (negb _); [|by injection Ep as _ _ <-]. pose proof (power_package_run h seed_perm h state [] s2) as R2. by rewrite Ep in R2. }
  destruct (ACPI_FAILURE rv2) eqn:Ef2; [intros [= -> _]; done|]. apply FAILURE_false in Ef2. subst rv2.
  assert (rtc (micro h seed_perm) s s3) as R3 by (by eapply run_trans; [eapply run_trans|]).
  pose proof (micros_ok _ _ _ _ R3 Hok) as Hok3. pose proof (micros_dev h seed_perm s s3 h ltac:(done) R3 Hd) as Hd3.
  assert ((forall x, x ∈ target -> x ∈ handles s3) /\ exists l, p_calls s3 = l ++ p_calls s2 /\ names_resources l h state target) as (Ht & l & L & Hn).
  { destruct (Z.eqb_spec state ACPI_STATE_D3_COLD); cbn [negb] in Ep; [|by apply power_package_spec].
    injection Ep as <- <-. split; [by intros x ?%elem_of_nil|]. exists []. split; [done|]. by left. }
  destruct (set_transition h state flags target s3) as [rv3 s4] eqn:Et.
  destruct (ACPI_FAILURE rv3) eqn:Ef3; [intros [= -> _]; done|]. apply FAILURE_false in Ef3. subst rv3.
  apply set_transition_spec in Et as ((F1 & F2 & F3 & _) & U1 & _ & new & Lnew & S1); [|done|done].
  intros [= <-]. assert (has_dev s4 h) as Hd4 by (unfold has_dev; by rewrite F2).
  rewrite get_dev_on by done. split; [|split; [done|split; [done|]]].
  { unfold has_dev. rewrite find_dev_on by done. destruct Hd4 as [x ->]. by eexists. }
  destruct (micros_calls _ _ _ _ (run_trans _ _ _ _ _ R R1)) as [k K]. exists target, (new ++ l ++ k).
  split; [change (p_calls (on_dev h _ s4)) with (p_calls s4); by rewrite Lnew, L, K, !app_assoc|].
  split; [apply names_resources_app; by apply names_resources_app_l|]. split.
  - intros r. change (uses (on_dev h _ s4) r h) with (uses s4 r h). destruct (decide (r ∈ handles s3)) as [Hin|Hin].
    + rewrite U1 by done. destruct (decide (r ∈ target)).
      * rewrite bool_decide_true by done. by apply has_flag_set_sub.
      * rewrite bool_decide_false by done. by apply has_flag_clr_sub.
    + rewrite uses_unknown by (by rewrite F1). rewrite bool_decide_false; [done|]. auto.
  - intros r Hr. destruct (S1 r Hr) as (x & Hx & Hs). exists x. split; [|done]. apply elem_of_app. by left.
Qed.

(** C20. After a successful transition the device and its node record the state, the
    device holds for its state exactly the resources its _PRn named in this call (none
    for D3cold), each of which was seen on, and wake uses of all devices are unchanged.
    *)
Theorem acpi_power_set_owns h state flags s s' : power_ok s -> acpi_power_set_flags h state flags s = (true, s') ->
  dev_state (get_dev h s') = state /\ dev_failed (get_dev h s') = false /\
  (forall i ad, fw_node h = Some i -> p_nodes s' !! i = Some ad -> ad_state ad = state) /\
  (forall r d, has_flag (uses s' r d) POWER_WAKE = has_flag (uses s r d) POWER_WAKE) /\
  exists target new, p_calls s' = new ++ p_calls s /\ names_resources new h state target /\
   (forall r, has_flag (uses s' r h) POWER_STATE = bool_decide (r ∈ target)) /\
   (forall r, r ∈ target -> saw_sta new r 1).
Proof.
  intros Hok H. pose proof (set_flags_run h state flags s) as R. rewrite H in R. cbn [snd] in R.
  pose proof (fun r d => micros_wake h set_perm s s' r d ltac:(intros u [Hu|Hu]; destruct Hu as [[= ->]|[[= ->]|[Hu|[Hu|Hu]]]]; done) R Hok) as W.
  unfold acpi_power_set_flags in H. destruct (_ || _); [done|]. destruct (_ || _); [done|].
  pose proof (micros_ok _ _ _ _ (power_device_run h seed_perm h s) Hok) as Hok1.
  assert (p_calls (power_device h s) = p_calls s) as Hc by (unfold power_device; by destruct (find_dev _ _)).
  destruct (set_body h state flags (power_device h s)) as [rv s1] eqn:Eb. injection H as Hr Hs.
  apply bool_decide_eq_true in Hr. subst rv.
  apply set_body_success in Eb as (D1 & D2 & D3 & T); [|apply power_device_has|done]. cbn [ACPI_FAILURE ACPI_SUCCESS] in Hs.
  change (ACPI_FAILURE AE_OK) with false in Hs. cbn iota in Hs. rewrite D2 in Hs.
  destruct (set_node_fields h state s1) as (N1 & N2 & N3). rewrite Hs in N1, N2, N3.
  assert (get_dev h s' = get_dev h s1) as Hg by (unfold get_dev; by rewrite N2).
  assert (forall r d, uses s' r d = uses s1 r d) as Hu by (intros r d; unfold uses, refs_of; by rewrite N1).
  rewrite Hg. split; [done|]. split; [done|]. split; [|split; [exact W|]].
  - intros i ad Hi Ha. rewrite <-Hs in Ha. by eapply node_after.
  - destruct T as (target & new & T1 & T2 & T3 & T4). exists target, new. rewrite N3, T1, Hc.
    split; [done|]. split; [done|]. split; [|done]. intros r. by rewrite Hu.
Qed.
End thms.
