(* ===== verification/AcpiState.v ===== *)
(** * Failures, queries and deregistration

    What is remembered of a failed transition, what acpi_power_get may answer,
    and what deregistration gives back. *)

From stdpp Require Import base numbers list relations sorting.
From S2P Require Import Prelude AcpiPower AcpiFacts AcpiOps AcpiSet AcpiThms.

(** A device does not settle or go away by this operation. *)
Definition spares (h : ACPI_HANDLE) (o : power_op) : bool :=
  match o with
  | Op_register _ | Op_get _ | Op_res _ _ _ => true
  | Op_deregister d | Op_set d _ _ => negb (Nat.eqb d h)
  end.

Section state.
Context `{FW : Firmware}.

Lemma do_op_failed h o s : spares h o = true -> dev_failed (get_dev h s) = true -> dev_failed (get_dev h (do_op o s)) = true.
Proof.
  intros Hsp. apply (micros_failed (op_device o) (op_perm o)); [|apply do_op_run].
  destruct o as [d|d|d|d state flags|res d on]; cbn [op_perm op_device spares] in *; intros [H|H]; try done;
    try (apply negb_true_iff, Nat.eqb_neq in Hsp; congruence); by destruct H as [?|[?|[?|[?|?]]]] || destruct H as [?|[?|[?|?]]] || destruct H as [?|?].
Qed.

Lemma do_ops_failed h l : forall s, forallb (spares h) l = true -> dev_failed (get_dev h s) = true ->
  dev_failed (get_dev h (do_ops l s)) = true.
Proof.
  induction l as [|o l IH]; intros s; [done|]. cbn [forallb]. intros [H1 H2]%andb_true_iff Hf.
  apply IH; [done|]. by apply do_op_failed.
Qed.

Lemma power_device_get h s : get_dev h (power_device h s) = get_dev h s.
Proof.
  unfold get_dev, power_device. destruct (find_dev h (power_devices s)) eqn:E; [by rewrite E|].
  unfold find_dev. cbn [power_devices set_power_devices find dev_handle]. by rewrite Nat.eqb_refl.
Qed.

(** The query that found no resource without power. *)
Lemma get_cold_spec set : forall cold s rv cold' s', get_cold set cold s = (rv, cold', s') -> rv = AE_OK ->
  quiet s s' /\ exists new, p_calls s' = new ++ p_calls s /\
  (if cold' then cold = true \/ exists r, r ∈ set /\ saw_sta new r 0
   else cold = false /\ forall r, r ∈ set -> saw_sta new r 1).
Proof.
  induction set as [|res set IH]; intros cold s rv cold' s'; cbn [get_cold].
  { intros [= <- <- <-] _. split; [apply quiet_refl|]. exists []. split; [done|]. destruct cold; [by left|].
    split; [done|]. by intros r ?%elem_of_nil. }
  pose proof (power_sta_quiet res s) as Q. destruct (power_sta res s) as [[rv1 sta] s1] eqn:Es. cbn [snd] in Q.
  apply power_sta_spec in Es as (r & -> & _ & -> & Hok).
  destruct (ACPI_FAILURE rv1) eqn:Ef; [intros [= <- _ _] ->; done|]. apply FAILURE_false in Ef.
  destruct (Hok Ef) as [Hs Hr]. intros H Hrv. apply IH in H as (Q1 & new & L & H); [|done].
  split; [by eapply quiet_trans|]. exists (new ++ [(A_integer res M_STA, r)]). split; [by rewrite L, <-app_assoc|].
  assert (saw_sta (new ++ [(A_integer res M_STA, r)]) res (u64 (r_value r))) as Hsaw.
  { exists r. split; [|done]. apply elem_of_app. right. by left. }
  assert (forall x v, saw_sta new x v -> saw_sta (new ++ [(A_integer res M_STA, r)]) x v) as Happ.
  { intros x v (y & Hy & Hys). exists y. split; [|done]. apply elem_of_app. by left. }
  destruct cold'.
  - destruct H as [[?|?]%orb_true_iff|(x & Hx & Hxs)].
    + by left.
    + right. exists res. split; [by left|]. assert (u64 (r_value r) = 0) as E by lia. by rewrite E in Hsaw.
    + right. exists x. split; [by right|auto].
  - destruct H as [[? ?%Z.eqb_neq]%orb_false_iff H1]. split; [done|]. intros x [->|Hx]%elem_of_cons; [|auto].
    assert (u64 (r_value r) = 1) as E by lia. by rewrite E in Hsaw.
Qed.

(** The device's own state as _PSC answers it in [calls]; without a _PSC the
    state recorded in its node. *)
Definition psc_said (calls : list (aml * reply)) (h : ACPI_HANDLE) (node : option Z) (st : Z) : Prop :=
  (exists r, (A_integer h M_PSC, r) ∈ calls /\ sta_is r st /\ ACPI_STATE_D0 <= st <= ACPI_STATE_D3) \/
  (node = Some st /\ exists r, (A_get_handle h M_PSC, r) ∈ calls /\ r_status r = AE_NOT_FOUND).

Lemma psc_said_app l l' h node st : psc_said l h node st -> psc_said (l ++ l') h node st.
Proof.
  intros [(r & Hr & H)|(Hn & r & Hr & H)]; [left|right; split; [done|]]; exists r; (split; [apply elem_of_app; by left|done]).
Qed.

Lemma power_psc_spec h s st s' : power_psc h s = (AE_OK, st, s') ->
  exists l, p_calls s' = l ++ p_calls s /\ psc_said l h (node_state h s) st.
Proof.
  unfold power_psc, power_integer, AcpiGetHandle, eval. cbv zeta. set (c1 := A_get_handle h M_PSC).
  set (r1 := fw_reply (p_calls s) c1). set (s1 := set_p_calls _ s).
  assert (node_state h s1 = node_state h s) as Hns by done.
  destruct (ACPI_FAILURE (r_status r1)) eqn:Ef.
  - destruct (bool_decide (r_status r1 = AE_NOT_FOUND)) eqn:En; [|rewrite Ef; intros [= E _ _]; rewrite E in Ef; done].
    apply bool_decide_eq_true in En.
    rewrite Hns. destruct (node_state h s) as [x|] eqn:Ex; [|rewrite Ef; intros [= E _ _]; rewrite E in Ef; done].
    intros [= <- <-]. exists [(c1, r1)]. split; [done|]. right. split; [done|]. exists r1. split; [by left|done].
  - set (c2 := A_integer h M_PSC). set (r2 := fw_reply (p_calls s1) c2). set (s2 := set_p_calls _ s1).
    rewrite (bool_decide_false (_ = AE_NOT_FOUND)).
    2:{ case_bool_decide; [done|congruence]. }
    case_bool_decide as En; [done|]. destruct (ACPI_FAILURE (r_status r2)) eqn:Ef2; [intros [= E _ _]; rewrite E in Ef2; done|].
    destruct (Z.ltb_spec ACPI_STATE_D3 (u64 (r_value r2))); [done|]. intros [= <- <-]. exists [(c2, r2); (c1, r1)].
    split; [done|]. left. exists r2. split; [by left|]. apply FAILURE_false in Ef2. split; [done|].
    split; [|lia]. apply Z.mod_pos_bound. lia.
Qed.

(** A success of [get_current], by how the answer came about. *)
Lemma get_current_success h s st s' : has_dev s h -> get_current h s = (AE_OK, st, s') ->
  exists set new, p_calls s' = new ++ p_calls s /\ names_resources new h ACPI_STATE_D0 set /\
  ((st = ACPI_STATE_D3_COLD /\ dev_state (get_dev h s') = ACPI_STATE_D3_COLD /\ exists r, r ∈ set /\ saw_sta new r 0) \/
   (dev_failed (get_dev h s') = false /\ (forall r, r ∈ set -> saw_sta new r 1) /\
    (dev_state (get_dev h s') = st \/
     dev_state (get_dev h s') = ACPI_STATE_ERROR /\ psc_said new h (node_state h s) st))).
Proof.
  intros Hd. unfold get_current. pose proof (power_seed_run h seed_perm eq_refl h s) as R. destruct (power_seed h s) as [rv s1].
  cbn [snd] in R. destruct (ACPI_FAILURE rv) eqn:Ef; [intros [= -> _ _]; done|].
  pose proof (micros_dev h seed_perm s s1 h ltac:(done) R Hd) as Hd1. destruct (micros_calls _ _ _ _ R) as [l0 L0].
  pose proof (power_package_run h seed_perm h ACPI_STATE_D0 [] s1) as R1.
  destruct (power_package h ACPI_STATE_D0 [] s1) as [[rv1 set] s2] eqn:Ep. cbn [snd] in R1.
  destruct (ACPI_FAILURE rv1) eqn:Ef1; [intros [= -> _ _]; done|]. apply FAILURE_false in Ef1. subst rv1.
  pose proof (micros_dev h seed_perm s1 s2 h ltac:(done) R1 Hd1) as Hd2.
  assert (p_nodes s2 = p_nodes s) as Hnodes.
  { by rewrite (micros_nodes h seed_perm s1 s2 ltac:(done) R1), (micros_nodes h seed_perm s s1 ltac:(done) R). }
  apply power_package_spec in Ep as (_ & l1 & L1 & Hn).
  destruct (get_cold set false s2) as [[rv2 cold] s3] eqn:Ec.
  destruct (ACPI_FAILURE rv2) eqn:Ef2; [intros [= -> _ _]; done|]. apply FAILURE_false in Ef2. subst rv2.
  apply get_cold_spec in Ec as (Q & l2 & L2 & Hc); [|done].
  assert (has_dev s3 h) as Hd3 by (unfold has_dev; by destruct (quiet_fields _ _ Q) as (_ & -> & _)).
  assert (forall l3, names_resources (l3 ++ l2 ++ l1 ++ l0) h ACPI_STATE_D0 set /\
    forall r v, saw_sta l2 r v -> saw_sta (l3 ++ l2 ++ l1 ++ l0) r v) as Hnew.
  { intros l3. split; [apply names_resources_app, names_resources_app; by apply names_resources_app_l|].
    intros r v (y & Hy & Hs). exists y. split; [|done]. rewrite !elem_of_app. auto. }
  destruct cold.
  - intros [= <- <-]. exists set, ([] ++ l2 ++ l1 ++ l0). destruct (Hnew []) as [Hn' Hs'].
    split; [change (p_calls (on_dev h _ s3)) with (p_calls s3); by rewrite L2, L1, L0, <-!app_assoc|]. split; [done|]. left. split; [done|].
    rewrite get_dev_on by done. split; [done|]. destruct Hc as [|(r & Hr & Hs)]; [done|]. exists r. auto.
  - destruct Hc as [_ Hc]. destruct (dev_failed (get_dev h s3)) eqn:Efl; [done|].
    destruct (negb (dev_state (get_dev h s3) =? ACPI_STATE_ERROR)) eqn:Est.
    + intros [= <- <-]. exists set, ([] ++ l2 ++ l1 ++ l0). destruct (Hnew []) as [Hn' Hs'].
      split; [by rewrite L2, L1, L0, <-!app_assoc|]. split; [done|]. right. split; [done|]. split; [auto|]. by left.
    + apply negb_false_iff, Z.eqb_eq in Est. intros H.
      assert (quiet s3 s') as Q3.
      { pose proof (power_psc_quiet h s3) as Q3. by rewrite H in Q3. }
      destruct (quiet_fields _ _ Q3) as (_ & Hdv & _). apply power_psc_spec in H as (l3 & L3 & Hpsc).
      exists set, (l3 ++ l2 ++ l1 ++ l0).
      destruct (Hnew l3) as [Hn' Hs']. split; [by rewrite L3, L2, L1, L0, <-!app_assoc|]. split; [done|]. right.
      assert (get_dev h s' = get_dev h s3) as -> by (unfold get_dev; by rewrite Hdv).
      split; [done|]. split; [auto|]. right. split; [done|]. apply psc_said_app.
      assert (node_state h s3 = node_state h s) as <-; [|done]. unfold node_state.
      by rewrite (proj1 (proj2 (proj2 (quiet_fields _ _ Q)))), Hnodes.
Qed.

(** A state acpi_power_get answers is D3cold with a _PR0 resource seen without power, or
    all _PR0 resources were seen on, no failure is pending and it is the recorded state
    or what _PSC (without one, the node) says; power of a shared resource alone never
    gives D0. *)
Theorem acpi_power_get_sound h s st s' : acpi_power_get h s = (true, st, s') ->
  exists set new, p_calls s' = new ++ p_calls s /\ names_resources new h ACPI_STATE_D0 set /\
  ((st = ACPI_STATE_D3_COLD /\ dev_state (get_dev h s') = ACPI_STATE_D3_COLD /\ exists r, r ∈ set /\ saw_sta new r 0) \/
   (dev_failed (get_dev h s') = false /\ (forall r, r ∈ set -> saw_sta new r 1) /\
    (dev_state (get_dev h s') = st \/
     dev_state (get_dev h s') = ACPI_STATE_ERROR /\ psc_said new h (node_state h s) st))).
Proof.
  unfold acpi_power_get. destruct (Nat.eqb h NULL); [done|].
  destruct (get_current h (power_device h s)) as [[rv cur] s1] eqn:E. intros [= Hr Hst Hs].
  apply bool_decide_eq_true in Hr. subst rv. change (ACPI_FAILURE AE_OK) with false in *. cbn iota in *. subst st.
  apply get_current_success in E as (set & new & H1 & H2 & H3); [|apply power_device_has].
  destruct (set_node_fields h cur s1) as (_ & N2 & N3). rewrite Hs in N2, N3.
  assert (get_dev h s' = get_dev h s1) as Hg by (unfold get_dev; by rewrite N2).
  assert (p_calls (power_device h s) = p_calls s /\ node_state h (power_device h s) = node_state h s) as [Hc Hn].
  { unfold power_device. by destruct (find_dev _ _). }
  exists set, new. rewrite Hg, N3, H1, Hc, <-Hn. done.
Qed.

(** A query of a device whose transition failed. *)
Lemma get_failed h s ok st s' : h <> NULL -> dev_failed (get_dev h s) = true -> acpi_power_get h s = (ok, st, s') ->
  ok = false /\ st = ACPI_STATE_ERROR \/ ok = true /\ st = ACPI_STATE_D3_COLD.
Proof.
  intros Hh Hf H. pose proof (get_run h s) as R. rewrite H in R. cbn [snd] in R.
  unfold acpi_power_get in H. rewrite (proj2 (Nat.eqb_neq _ _) Hh) in H.
  destruct (get_current h (power_device h s)) as [[rv cur] s1] eqn:E. injection H as Hok Hst Hs.
  destruct (ACPI_FAILURE rv) eqn:Ef.
  - left. split; [|done]. rewrite <-Hok. unfold ACPI_FAILURE in Ef. by apply negb_true_iff in Ef.
  - apply FAILURE_false in Ef. subst rv. right. split; [done|].
    pose proof (get_current_run h seed_perm (power_device h s) eq_refl) as R1. rewrite E in R1. cbn [snd] in R1.
    apply get_current_success in E as (set & new & _ & _ & [(E & _)|(Hn & _)]); [congruence| |apply power_device_has].
    rewrite (micros_failed h seed_perm _ _ h ltac:(by intros [?|?]) R1) in Hn; [done|]. by rewrite power_device_get.
Qed.

(** A transition that fails leaves the device in the error state; until it makes a
    successful transition or is deregistered, whatever else happens, acpi_power_get
    answers an error or, if a _PR0 resource has no power, D3cold. *)
Theorem acpi_power_failure_remembered h state flags s s' l : h <> NULL ->
  ACPI_STATE_D0 <= state <= ACPI_STATE_D3_COLD -> flags = 0 \/ flags = ACPI_POWER_NOPS3 /\ state = ACPI_STATE_D3_COLD ->
  acpi_power_set_flags h state flags s = (false, s') -> forallb (spares h) l = true ->
  dev_state (get_dev h s') = ACPI_STATE_ERROR /\ dev_failed (get_dev h s') = true /\
  forall ok st s'', acpi_power_get h (do_ops l s') = (ok, st, s'') ->
    ok = false /\ st = ACPI_STATE_ERROR \/ ok = true /\ st = ACPI_STATE_D3_COLD.
Proof.
  intros Hh Hst Hfl H Hl. unfold acpi_power_set_flags in H.
  rewrite (proj2 (Nat.eqb_neq _ _) Hh), (proj2 (Z.ltb_ge _ _)), (proj2 (Z.ltb_ge _ _)) in H by lia. cbn [orb] in H.
  destruct (_ || _) eqn:Eb.
  { exfalso. destruct Hfl as [->|[-> ->]]; [|done]. rewrite andb_false_l in Eb. done. }
  pose proof (set_body_run h state flags (power_device h s)
    ltac:(unfold state_ok, ACPI_STATE_D0, ACPI_STATE_ERROR in *; lia)) as R.
  destruct (set_body h state flags (power_device h s)) as [rv s1]. cbn [snd] in R. injection H as Hr Hs.
  assert (ACPI_FAILURE rv = true) as Ef by (unfold ACPI_FAILURE; by rewrite Hr). rewrite Ef in Hs.
  assert (has_dev s1 h) as Hd.
  { eapply (micros_dev h set_perm); [by intros [?|[?|[?|[?|?]]]]|exact R|apply power_device_has]. }
  assert (get_dev h s' = mark_failed (get_dev h s1)) as Hg.
  { rewrite <-Hs. unfold get_dev at 1. rewrite (proj1 (proj2 (set_node_fields _ _ _))).
    fold (get_dev h (on_dev h mark_failed s1)). by apply get_dev_on. }
  rewrite Hg. split; [done|]. split; [done|]. intros ok st s''. apply get_failed; [done|].
  apply do_ops_failed; [done|]. by rewrite Hg.
Qed.

(** ** Deregistration *)

Lemma find_dev_unlinked h l : NoDup (map dev_handle l) -> find_dev h (dev_unlink h l) = None.
Proof.
  induction l as [|x l IH]; [done|]. cbn [map dev_unlink]. intros [Hn Hnd]%NoDup_cons.
  destruct (Nat.eqb_spec (dev_handle x) h) as [<-|Hne].
  - apply find_dev_None. by rewrite <-list_elem_of_In.
  - unfold find_dev in *. cbn [find]. rewrite (proj2 (Nat.eqb_neq _ _) Hne). by apply IH.
Qed.

Lemma uses_range s r d : power_ok s -> In (uses s r d) [0; 1; 2; 3].
Proof.
  intros H. unfold uses. destruct (find_ref d (refs_of s r)) as [x|] eqn:E; [|by left].
  apply find_ref_device in E as [_ E]. destruct (refs_of_ok s r H) as [_ Hf]. rewrite Forall_forall in Hf.
  right. apply Hf. by apply list_elem_of_In.
Qed.

(** Deregistration either releases every use of the device and removes its record, or
    keeps the record in the error state. *)
Theorem acpi_power_deregister_releases h s : power_ok s -> h <> NULL ->
  (find_dev h (power_devices (acpi_power_deregister h s)) = None /\
   forall r, uses (acpi_power_deregister h s) r h = 0) \/
  (dev_state (get_dev h (acpi_power_deregister h s)) = ACPI_STATE_ERROR /\
   dev_failed (get_dev h (acpi_power_deregister h s)) = true).
Proof.
  intros Hok Hh. unfold acpi_power_deregister. rewrite (proj2 (Nat.eqb_neq _ _) Hh).
  assert (forall rv s1, ACPI_FAILURE rv = true ->
    get_dev h (if ACPI_FAILURE rv then on_dev h mark_failed (power_device h s1) else s1) = mark_failed (get_dev h s1)) as Hend.
  { intros rv s1 ->. rewrite get_dev_on; [by rewrite power_device_get|apply power_device_has|done]. }
  pose proof (power_discover_run h dereg_perm ltac:(by left) s) as R. destruct (power_discover s) as [rv s1]. cbn [snd] in R.
  destruct (ACPI_FAILURE rv) eqn:Ef; [right; by rewrite Hend|].
  pose proof (micros_ok _ _ _ _ R Hok) as Hok1.
  pose proof (release_loop_run h dereg_perm (rev (handles s1)) (Z.lor POWER_STATE POWER_WAKE) ltac:(by right; right; left)
    ltac:(by right; left) ltac:(by do 2 right; left) s1) as R1.
  destruct (release_loop (rev (handles s1)) h _ s1) as [rv1 s2] eqn:Er. cbn [snd] in R1.
  destruct (ACPI_FAILURE rv1) eqn:Ef1; [right; by rewrite Hend|]. apply FAILURE_false in Ef1. subst rv1. left.
  pose proof (micros_ok _ _ _ _ R1 Hok1) as Hok2.
  apply release_loop_spec in Er as ((F1 & _) & U1); [|by right; right; left|done].
  change (ACPI_FAILURE AE_OK) with false. cbn iota. split.
  - cbn [power_devices set_power_devices]. apply find_dev_unlinked. apply (po_devs _ Hok2).
  - intros r. change (uses (set_power_devices _ s2) r h) with (uses s2 r h).
    destruct (decide (r ∈ handles s1)) as [Hin|Hin].
    + rewrite U1, decide_True. 2:{ split; [done|]. apply list_elem_of_In. rewrite <-in_rev. by apply list_elem_of_In. }
      pose proof (uses_range s1 r h Hok1) as Hr. by repeat (destruct Hr as [<-|Hr]; [done|]).
    + apply uses_unknown. by rewrite F1.
Qed.

End state.

(** * The order of a transition

    The control methods a transition evaluates, in the order it evaluates them:
    _ON in resource order, then _PSx, then _OFF in reverse resource order. *)

(** The control methods among calls, first to last. *)
Definition control (e : aml * reply) : option (ACPI_HANDLE * method) :=
  match e.1 with A_evaluate d m => Some (d, m) | _ => None end.
Definition controls (l : list (aml * reply)) : list (ACPI_HANDLE * method) := omap control (rev l).

Lemma controls_app l1 l2 : controls (l1 ++ l2) = controls l2 ++ controls l1.
Proof. unfold controls. rewrite rev_app_distr. apply omap_app. Qed.

Definition emits (s s' : power) (c : list (ACPI_HANDLE * method)) : Prop :=
  exists new, p_calls s' = new ++ p_calls s /\ controls new = c.

Lemma emits_trans s1 s2 s3 c1 c2 : emits s1 s2 c1 -> emits s2 s3 c2 -> emits s1 s3 (c1 ++ c2).
Proof.
  intros (l1 & L1 & <-) (l2 & L2 & <-). exists (l2 ++ l1). split; [by rewrite L2, L1, app_assoc|]. apply controls_app.
Qed.

Lemma emits_same s s' : p_calls s' = p_calls s -> emits s s' [].
Proof. intros H. exists []. by rewrite H. Qed.

Lemma emits_query c r s : (forall d m, c <> A_evaluate d m) -> emits s (log c r s) [].
Proof. intros H. exists [(c, r)]. split; [done|]. destruct c; try done. by destruct (H h m). Qed.

Lemma emits_control d m r s : emits s (log (A_evaluate d m) r s) [(d, m)].
Proof. by exists [(A_evaluate d m, r)]. Qed.

Lemma emits_run h U s s' : ~ U P_evaluate -> rtc (micro h U) s s' -> emits s s' [].
Proof.
  intros HU R. destruct (micros_queries h U s s' HU R) as (l & L & F). exists l. split; [done|].
  clear L. induction F as [|e l He _ IH]; [done|]. change (e :: l) with ([e] ++ l). rewrite controls_app, IH.
  destruct e as [[] r]; try done. by destruct (He h0 m).
Qed.

Section order.
Context `{FW : Firmware}.

Lemma power_method_emits res on s : emits s (power_method res on s).2 [(res, if on then M_ON else M_OFF)].
Proof.
  destruct (power_method res on s) as [rv s'] eqn:E. apply power_method_spec in E as (r & r' & -> & _). cbn [snd].
  eapply (emits_trans _ _ _ [_] []); [apply emits_control|by apply emits_query].
Qed.

Lemma power_sta_emits res s : emits s (power_sta res s).2 [].
Proof.
  destruct (power_sta res s) as [[rv sta] s'] eqn:E. apply power_sta_spec in E as (r & -> & _). by apply emits_query.
Qed.

Lemma power_acquire_emits res d use s : exists c, emits s (power_acquire res d use s).2 c /\ (c = [] \/ c = [(res, M_ON)]).
Proof.
  unfold power_acquire. pose proof (hold_reference res d use s) as E. destruct (power_reference res d true s) as [b s1].
  cbn [snd] in E. rewrite E. clear E. set (s2 := hold res d use s).
  assert (emits s s2 []) as E0 by (by apply emits_same).
  destruct (bool_decide (refs_of s res = [])).
  { exists [(res, M_ON)]. split; [|by right]. apply (emits_trans _ _ _ [] _ E0), power_method_emits. }
  pose proof (power_sta_emits res s2) as E1. destruct (power_sta res s2) as [[rv sta] s3]. cbn [snd] in E1.
  pose proof (emits_trans _ _ _ _ _ E0 E1) as E2. destruct (ACPI_FAILURE rv); [exists []; auto|].
  destruct (sta =? 0); [|exists []; auto]. exists [(res, M_ON)]. split; [|by right].
  apply (emits_trans _ _ _ [] _ E2), power_method_emits.
Qed.

Lemma power_release_emits res d use s : exists c, emits s (power_release res d use s).2 c /\ (c = [] \/ c = [(res, M_OFF)]).
Proof.
  assert (emits s s []) as E0 by (by apply emits_same).
  unfold power_release. destruct (find_ref d (refs_of s res)) as [ref|]; [|exists []; auto].
  destruct (Z.land _ _ =? 0); [exists []; auto|].
  assert (forall rv s1 c, emits s s1 c ->
    emits s ((if ACPI_FAILURE rv then (rv, s1) else (AE_OK, on_refs res (drop_uses d use) s1)).2) c) as Hend.
  { intros rv s1 c E. destruct (ACPI_FAILURE rv); [done|]. cbn [snd]. rewrite <-(app_nil_r c).
    by eapply emits_trans; [|apply emits_same]. }
  destruct (_ && _).
  - exists [(res, M_OFF)]. split; [|by right]. pose proof (power_method_emits res false s) as E.
    destruct (power_method res false s) as [rv s1]. by apply Hend.
  - exists []. split; [|by left]. pose proof (power_sta_emits res s) as E. destruct (power_sta res s) as [[rv sta] s1].
    destruct (ACPI_FAILURE rv); [by apply Hend|]. destruct (negb _); by apply Hend.
Qed.

Lemma acquire_loop_emits d use l : forall s, exists ons, sublist ons l /\
  emits s (acquire_loop l d use s).2 (map (fun r => (r, M_ON)) ons).
Proof.
  induction l as [|res l IH]; intros s; cbn [acquire_loop].
  { exists []. split; [done|]. by apply emits_same. }
  destruct (power_acquire_emits res d use s) as (c & E & Hc). destruct (power_acquire res d use s) as [rv s1]. cbn [snd] in E.
  destruct (ACPI_FAILURE rv).
  - destruct Hc as [->| ->]; [exists []|exists [res]]; (split; [|done]); [apply sublist_nil_l|constructor; apply sublist_nil_l].
  - destruct (IH s1) as (ons & Hs & E1). pose proof (emits_trans _ _ _ _ _ E E1) as E2.
    destruct Hc as [->| ->]; [exists ons|exists (res :: ons)]; (split; [by constructor|done]).
Qed.

Lemma release_loop_emits d use l : forall s, exists offs, sublist offs l /\
  emits s (release_loop l d use s).2 (map (fun r => (r, M_OFF)) offs).
Proof.
  induction l as [|res l IH]; intros s; cbn [release_loop].
  { exists []. split; [done|]. by apply emits_same. }
  destruct (power_release_emits res d use s) as (c & E & Hc). destruct (power_release res d use s) as [rv s1]. cbn [snd] in E.
  destruct (ACPI_FAILURE rv).
  - destruct Hc as [->| ->]; [exists []|exists [res]]; (split; [|done]); [apply sublist_nil_l|constructor; apply sublist_nil_l].
  - destruct (IH s1) as (offs & Hs & E1). pose proof (emits_trans _ _ _ _ _ E E1) as E2.
    destruct Hc as [->| ->]; [exists offs|exists (res :: offs)]; (split; [by constructor|done]).
Qed.

Lemma nops3_only flags : clr_flag flags ACPI_POWER_NOPS3 = 0 -> Z.land flags ACPI_POWER_NOPS3 <> 0 -> flags = ACPI_POWER_NOPS3.
Proof.
  unfold clr_flag, ACPI_POWER_NOPS3. intros H1 H2.
  assert (flags = Z.lor (Z.land flags 1) (Z.land flags (Z.lnot 1))) as E.
  { rewrite <-Z.land_lor_distr_r, Z.lor_lnot_diag. by rewrite Z.land_m1_r. }
  rewrite H1, Z.lor_0_r in E. change 1 with (Z.ones 1) in E, H2. rewrite Z.land_ones in E, H2 by lia.
  pose proof (Z.mod_pos_bound flags (2 ^ 1) ltac:(lia)). change (2 ^ 1) with 2 in *. lia.
Qed.

(** The method of a state: _PS3 for D3cold. *)
Definition ps_of (state : Z) : method := M_PS (if state =? ACPI_STATE_D3_COLD then ACPI_STATE_D3 else state).

Lemma power_ps_emits h state s rv s' : power_ps h state s = (rv, s') ->
  emits s s' [(h, ps_of state)] \/
  emits s s' [] /\ (rv = AE_OK -> exists new r, p_calls s' = new ++ p_calls s /\
    (A_get_handle h (ps_of state), r) ∈ new /\ r_status r = AE_NOT_FOUND).
Proof.
  unfold power_ps. fold (ps_of state). unfold AcpiGetHandle, eval. cbv zeta. set (c1 := A_get_handle h (ps_of state)).
  set (r1 := fw_reply (p_calls s) c1). change (set_p_calls ((c1, r1) :: p_calls s) s) with (log c1 r1 s).
  assert (emits s (log c1 r1 s) []) as E by (by apply emits_query). case_bool_decide as En.
  { intros [= <- <-]. right. split; [done|]. intros _. exists [(c1, r1)], r1. split; [done|]. split; [by left|done]. }
  destruct (ACPI_FAILURE (r_status r1)) eqn:Ef.
  - intros [= <- <-]. right. split; [done|]. intros Hr. rewrite Hr in Ef. done.
  - intros [= <- <-]. left. apply (emits_trans _ _ _ [] _ E), emits_control.
Qed.

Lemma filter_sublist {A} (f : A -> bool) l : sublist (List.filter f l) l.
Proof. induction l as [|x l IH]; cbn [List.filter]; [done|]. destruct (f x); by constructor. Qed.

(** The transition proper, whether it fails or not. *)
Lemma set_transition_emits h state flags target s rv s' : set_transition h state flags target s = (rv, s') ->
  exists ons ps offs, emits s s' (map (fun r => (r, M_ON)) ons ++ ps ++ map (fun r => (r, M_OFF)) offs) /\
    sublist ons (handles s) /\ sublist offs (rev (handles s)) /\ (ps = [] \/ ps = [(h, ps_of state)]) /\
    (ps = [] -> offs <> [] -> Z.land flags ACPI_POWER_NOPS3 <> 0 \/
      exists new r, p_calls s' = new ++ p_calls s /\ (A_get_handle h (ps_of state), r) ∈ new /\ r_status r = AE_NOT_FOUND).
Proof.
  unfold set_transition. set (la := List.filter (power_contains target) (handles s)).
  destruct (acquire_loop_emits h POWER_STATE la s) as (ons & Hons & E1).
  assert (sublist ons (handles s)) as Hsub by (etrans; [exact Hons|apply filter_sublist]).
  assert (framed s (acquire_loop la h POWER_STATE s).2) as F by apply acquire_loop_framed.
  destruct (acquire_loop la h POWER_STATE s) as [rv1 s1]. cbn [snd] in E1, F.
  destruct (ACPI_FAILURE rv1).
  { intros [= <- <-]. exists ons, [], []. split; [by rewrite app_nil_r|]. split; [done|]. split; [apply sublist_nil_l|].
    split; [by left|done]. }
  set (lr := fun s2 => List.filter (fun r => negb (power_contains target r)) (rev (handles s2))).
  assert (forall s2, quiet s1 s2 -> exists offs, sublist offs (rev (handles s)) /\
    emits s2 (release_loop (lr s2) h POWER_STATE s2).2 (map (fun r => (r, M_OFF)) offs)) as Hrel.
  { intros s2 Q. destruct (release_loop_emits h POWER_STATE (lr s2) s2) as (offs & Hs & E). exists offs. split; [|done].
    etrans; [exact Hs|]. unfold lr. etrans; [apply filter_sublist|]. rewrite (quiet_handles _ _ Q). destruct F as (-> & _). done. }
  destruct (Z.land flags ACPI_POWER_NOPS3 =? 0) eqn:Efl.
  - pose proof (power_ps_quiet h state s1) as Q. destruct (power_ps h state s1) as [rv2 s2] eqn:Eps. cbn [snd] in Q.
    apply power_ps_emits in Eps. destruct (ACPI_FAILURE rv2) eqn:Ef2.
    + intros [= <- <-]. destruct Eps as [E2|[E2 _]].
      * exists ons, [(h, ps_of state)], []. split; [exact (emits_trans _ _ _ _ _ E1 E2)|]. split; [done|].
        split; [apply sublist_nil_l|]. split; [by right|done].
      * exists ons, [], []. split; [exact (emits_trans _ _ _ _ _ E1 E2)|]. split; [done|].
        split; [apply sublist_nil_l|]. split; [by left|done].
    + intros H. destruct (Hrel s2 Q) as (offs & Hs & E3). unfold lr in E3. rewrite H in E3. cbn [snd] in E3.
      apply FAILURE_false in Ef2. destruct Eps as [E2|[E2 Hab]].
      * exists ons, [(h, ps_of state)], offs. split; [exact (emits_trans _ _ _ _ _ E1 (emits_trans _ _ _ _ _ E2 E3))|].
        split; [done|]. split; [done|]. split; [by right|done].
      * exists ons, [], offs. split; [exact (emits_trans _ _ _ _ _ E1 (emits_trans _ _ _ _ _ E2 E3))|].
        split; [done|]. split; [done|]. split; [by left|]. intros _ _. right. destruct (Hab Ef2) as (n & r & L & Hr & Hst).
        destruct E1 as (n1 & L1 & _), E3 as (n3 & L3 & _). exists (n3 ++ n ++ n1), r.
        split; [by rewrite L3, L, L1, !app_assoc|]. split; [|done]. rewrite !elem_of_app. auto.
  - change (ACPI_FAILURE AE_OK) with false. cbn iota. intros H. destruct (Hrel s1 (quiet_refl s1)) as (offs & Hs & E3).
    unfold lr in E3. rewrite H in E3. cbn [snd] in E3. exists ons, [], offs. split; [exact (emits_trans _ _ _ _ _ E1 E3)|].
    split; [done|]. split; [done|]. split; [by left|]. intros _ _. left. by apply Z.eqb_neq.
Qed.

Lemma set_transition_framed h state flags target s : framed s (set_transition h state flags target s).2.
Proof.
  unfold set_transition. set (la := List.filter _ _). pose proof (acquire_loop_framed h POWER_STATE la s) as F.
  destruct (acquire_loop la h POWER_STATE s) as [rv s1]. cbn [snd] in F. destruct (ACPI_FAILURE rv); [done|].
  destruct (Z.land _ _ =? 0).
  - pose proof (framed_quiet _ _ (power_ps_quiet h state s1)) as F1. destruct (power_ps h state s1) as [rv1 s2]. cbn [snd] in F1.
    assert (framed s s2) as F2 by (by eapply framed_trans). destruct (ACPI_FAILURE rv1); [done|].
    eapply framed_trans; [exact F2|apply release_loop_framed].
  - eapply framed_trans; [exact F|apply release_loop_framed].
Qed.

(** In order: _ON, _PSx, _OFF, and why a missing _PSx. *)
Definition ordered (h : ACPI_HANDLE) (state flags : Z) (s s' : power) : Prop :=
  exists new ons ps offs, p_calls s' = new ++ p_calls s /\
    controls new = map (fun r => (r, M_ON)) ons ++ ps ++ map (fun r => (r, M_OFF)) offs /\
    sublist ons (handles s') /\ sublist offs (rev (handles s')) /\ (ps = [] \/ ps = [(h, ps_of state)]) /\
    (ps = [] -> offs <> [] -> flags = ACPI_POWER_NOPS3 \/
      exists r, (A_get_handle h (ps_of state), r) ∈ new /\ r_status r = AE_NOT_FOUND).

Lemma ordered_none h state flags s s' : emits s s' [] -> ordered h state flags s s'.
Proof.
  intros (new & L & C). exists new, [], [], []. split; [done|]. split; [done|]. split; [apply sublist_nil_l|].
  split; [apply sublist_nil_l|]. split; [by left|done].
Qed.

Lemma set_body_ordered h state flags s rv s' : clr_flag flags ACPI_POWER_NOPS3 = 0 ->
  set_body h state flags s = (rv, s') -> ordered h state flags s s'.
Proof.
  intros Hfl. unfold set_body. pose proof (power_discover_run h seed_perm eq_refl s) as R.
  destruct (power_discover s) as [rv0 s1]. cbn [snd] in R. pose proof (emits_run h seed_perm _ _ ltac:(done) R) as E1.
  destruct (ACPI_FAILURE rv0); [intros [= <- <-]; by apply ordered_none|].
  pose proof (power_seed_run h seed_perm eq_refl h s1) as R1. destruct (power_seed h s1) as [rv1 s2]. cbn [snd] in R1.
  pose proof (emits_trans _ _ _ _ _ E1 (emits_run h seed_perm _ _ ltac:(done) R1)) as E2.
  destruct (ACPI_FAILURE rv1); [intros [= <- <-]; by apply ordered_none|].
  destruct (parent_below h state s2); [intros [= <- <-]; by apply ordered_none|].
  assert (rtc (micro h seed_perm) s2 (if negb (state =? ACPI_STATE_D3_COLD) then power_package h state [] s2 else (AE_OK, [], s2)).2) as R2.
  { destruct (negb _); [apply power_package_run|done]. }
  destruct (if negb _ then _ else _) as [[rv2 target] s3]. cbn [snd] in R2.
  pose proof (emits_trans _ _ _ _ _ E2 (emits_run h seed_perm _ _ ltac:(done) R2)) as E3.
  destruct (ACPI_FAILURE rv2); [intros [= <- <-]; by apply ordered_none|].
  pose proof (set_transition_framed h state flags target s3) as F.
  destruct (set_transition h state flags target s3) as [rv3 s4] eqn:Et. cbn [snd] in F.
  apply set_transition_emits in Et as (ons & ps & offs & E4 & S1 & S2 & Hps & Hwhy).
  assert (ordered h state flags s s4) as O4.
  { destruct E3 as (n3 & L3 & C3), E4 as (n4 & L4 & C4). destruct F as (Fh & _).
    exists (n4 ++ n3), ons, ps, offs. split; [by rewrite L4, L3, app_assoc|].
    split; [by rewrite controls_app, C3, C4|]. rewrite Fh. split; [done|]. split; [done|]. split; [done|].
    intros H1 H2. destruct (Hwhy H1 H2) as [Hn|(new & r & L & Hr & Hst)].
    - left. by apply nops3_only.
    - right. exists r. split; [|done]. apply elem_of_app. left. rewrite L in L4. by apply app_inv_tail in L4 as <-. }
  destruct (ACPI_FAILURE rv3); intros [= <- <-]; done.
Qed.

(** The control methods a transition evaluates, failing or not, are _ON along the
    resource order, then at most the device's _PSx, then _OFF against the resource
    order; _OFF without _PSx happens only if _PSx is absent or its skipping was asked
    for. *)
Theorem acpi_power_set_order h state flags s ok s' : power_ok s -> acpi_power_set_flags h state flags s = (ok, s') ->
  StronglySorted Z.le (map res_order (power_resources s')) /\ ordered h state flags s s'.
Proof.
  intros Hok H. pose proof (set_flags_run h state flags s) as R. rewrite H in R. cbn [snd] in R.
  split; [apply (po_order _ (micros_ok _ _ _ _ R Hok))|]. unfold acpi_power_set_flags in H.
  destruct (_ || _); [injection H as <- <-; by apply ordered_none, emits_same|].
  destruct (_ || _) eqn:Eb; [injection H as <- <-; by apply ordered_none, emits_same|].
  apply orb_false_iff in Eb as [Efl%negb_false_iff%Z.eqb_eq _].
  destruct (set_body h state flags (power_device h s)) as [rv s1] eqn:E. apply set_body_ordered in E as (new & ons & ps & offs & L & C & S1 & S2 & O); [|done].
  injection H as _ <-. set (s2 := if ACPI_FAILURE rv then on_dev h mark_failed s1 else s1).
  assert (handles s2 = handles s1 /\ p_calls s2 = p_calls s1) as [Hh Hc] by (unfold s2; by destruct (ACPI_FAILURE rv)).
  destruct (set_node_fields h (dev_state (get_dev h s2)) s2) as (N1 & _ & N3).
  exists new, ons, ps, offs. unfold handles in *. rewrite N3, N1, Hc, Hh, L. split; [|done].
  unfold power_device. by destruct (find_dev h (power_devices s)).
Qed.

End order.
