(* ===== verification/AcpiLit.v ===== *)
(** * Held resources have power

    With firmware whose resources change power only by their own _ON and _OFF:
    as long as operations succeed, every resource somebody holds is on. *)

From stdpp Require Import base numbers list relations.
From S2P Require Import Prelude AcpiPower AcpiFacts AcpiOps AcpiSet AcpiThms AcpiState.

Section lit.
Context `{FW : Firmware}.

(** What _STA of [r] would answer next: on. *)
Definition powered (tr : list (aml * reply)) (r : ACPI_HANDLE) : bool :=
  let a := fw_reply tr (A_integer r M_STA) in ACPI_SUCCESS (r_status a) && (u64 (r_value a) =? 1).

(** The firmware's promise: evaluating anything else leaves [r] as it is. *)
Definition own_power : Prop := forall tr c a r,
  c <> A_evaluate r M_ON -> c <> A_evaluate r M_OFF -> powered ((c, a) :: tr) r = powered tr r.

Context (Hown : own_power).

Definition lit (s : power) : Prop := forall r, refs_of s r <> [] -> powered (p_calls s) r = true.

Lemma powered_log c a s r : c <> A_evaluate r M_ON -> c <> A_evaluate r M_OFF ->
  powered (p_calls (log c a s)) r = powered (p_calls s) r.
Proof. apply Hown. Qed.

Lemma sta_powered res s r v : r = fw_reply (p_calls s) (A_integer res M_STA) -> sta_is r v ->
  powered (p_calls s) res = (v =? 1).
Proof. intros -> [H1 H2]. unfold powered, ACPI_SUCCESS. by rewrite bool_decide_true, H2. Qed.

(** Runs that hold, drop and evaluate nothing. *)
Definition no_perm (p : perm) : Prop := False.

Lemma micros_lit h s s' : rtc (micro h no_perm) s s' -> lit s -> lit s'.
Proof.
  induction 1 as [|s1 s2 s3 Hm _ IH]; [done|]. intros H. apply IH. destruct Hm as [c a s Hc| | |res order s Hf| | |d s|d f s| | |]; try done.
  - intros r Hr. rewrite powered_log by apply Hc. by apply H.
  - intros r Hr. rewrite (refs_of_insert (mk_res res order [])) in Hr by done. by apply H.
  - unfold power_device. by destruct (find_dev d (power_devices s)).
Qed.

Lemma lit_quiet s s' : quiet s s' -> (forall r, powered (p_calls s') r = powered (p_calls s) r) -> lit s -> lit s'.
Proof.
  intros Q Hp H r. unfold refs_of. destruct (quiet_fields _ _ Q) as (-> & _). rewrite Hp. apply H.
Qed.

Lemma refs_of_hold res d use s r : r <> res -> refs_of (hold res d use s) r = refs_of s r.
Proof. intros Hne. unfold hold. rewrite refs_of_on_refs. by rewrite decide_False by tauto. Qed.

(** A hold on a resource that has power. *)
Lemma lit_hold res d use s : powered (p_calls s) res = true -> lit s -> lit (hold res d use s).
Proof.
  intros Hp H r Hr. change (p_calls (hold res d use s)) with (p_calls s). destruct (decide (r = res)) as [->|Hne]; [done|].
  rewrite refs_of_hold in Hr by done. by apply H.
Qed.

Lemma seed_refs_lit d od0 set : forall cold s, lit s -> lit (seed_refs d od0 set cold s).2.
Proof.
  induction set as [|res set IH]; intros cold s H; cbn [seed_refs]; [done|].
  pose proof (power_sta_run d no_perm res s) as R. destruct (power_sta res s) as [[rv sta] s1] eqn:Es. cbn [snd] in R.
  assert (lit s1) as H1 by (by eapply micros_lit). apply power_sta_spec in Es as (r & -> & Er & -> & Hok).
  destruct (ACPI_FAILURE rv) eqn:Ef; [done|]. apply FAILURE_false in Ef. destruct (Hok Ef) as [Hs Hr].
  destruct (Z.eqb_spec (u64 (r_value r)) 0) as [|Hz]; [by apply IH|].
  set (s1 := log (A_integer res M_STA) r s) in *.
  pose proof (hold_reference res d POWER_STATE s1) as E. destruct (power_reference res d true s1) as [b s2]. cbn [snd] in E.
  rewrite E. apply IH, lit_hold; [|done]. unfold s1. rewrite powered_log by done. rewrite (sta_powered res s r _ Er Hs).
  apply Z.eqb_eq. lia.
Qed.

Lemma seed_body_lit d first last s : lit s -> lit (seed_body d first last s).2.
Proof.
  intros H. unfold seed_body. pose proof (seed_packages_run d no_perm d (states_from first last) [] s) as R.
  destruct (seed_packages _ _ _ s) as [[rv set] s1]. cbn [snd] in R. assert (lit s1) as H1 by (by eapply micros_lit).
  destruct (ACPI_FAILURE rv); [done|].
  pose proof (seed_refs_lit d ((first =? ACPI_STATE_D0) && (last =? ACPI_STATE_D0)) set false s1 H1) as H2.
  destruct (seed_refs _ _ _ _ s1) as [[rv1 cold] s2]. cbn [snd] in H2. destruct (ACPI_FAILURE rv1); [done|].
  by destruct cold.
Qed.

Lemma power_seed_lit d s : lit s -> lit (power_seed d s).2.
Proof.
  intros H. unfold power_seed. destruct (dev_seeded (get_dev d s)); [done|].
  pose proof (power_integer_run d no_perm d M_STA s) as R. destruct (power_integer d M_STA s) as [[rv sta] s1]. cbn [snd] in R.
  assert (lit s1) as H1 by (by eapply micros_lit). destruct (ACPI_SUCCESS rv && _); [done|]. destruct (ACPI_FAILURE rv && _); [done|].
  pose proof (power_psc_run d no_perm d s1) as R1. destruct (power_psc d s1) as [[rv1 state] s2]. cbn [snd] in R1.
  assert (lit s2) as H2 by (by eapply micros_lit). destruct (ACPI_SUCCESS rv1); by apply seed_body_lit.
Qed.

Lemma power_device_lit d s : lit s -> lit (power_device d s).
Proof. intros H. unfold power_device. by destruct (find_dev d (power_devices s)). Qed.

Lemma discover_methods_lit d digits : forall s, lit s -> lit (discover_methods d digits s).2.
Proof.
  induction digits as [|n digits IH]; intros s H; cbn [discover_methods]; [done|].
  pose proof (get_handle_run d no_perm d (M_PR n) s) as R. destruct (AcpiGetHandle d (M_PR n) s) as [rv s1]. cbn [snd] in R.
  assert (lit s1) as H1 by (by eapply micros_lit). destruct (ACPI_SUCCESS rv); [by apply power_seed_lit, power_device_lit|].
  destruct (negb _); [done|]. by apply IH.
Qed.

Lemma walk_devices_lit devices : forall s, lit s -> lit (walk_devices devices s).2.
Proof.
  induction devices as [|d devices IH]; intros s H; cbn [walk_devices]; [done|]. unfold power_discover_one.
  pose proof (discover_methods_lit d [0; 1; 2; 3] s H) as H1. destruct (discover_methods d _ s) as [rv s1].
  destruct (ACPI_FAILURE rv); [done|]. by apply IH.
Qed.

Lemma power_discover_lit s : lit s -> lit (power_discover s).2.
Proof.
  intros H. unfold power_discover. destruct (power_discovered s); [done|].
  pose proof (walk_devices_lit (fw_devices (p_calls s)) s H) as H1. destruct (walk_devices _ s) as [rv s1].
  by destruct (ACPI_SUCCESS rv).
Qed.

(** _ON or _OFF of [res] and the _STA after it. *)
Lemma method_powered res on s rv s' r : power_method res on s = (rv, s') -> r <> res ->
  powered (p_calls s') r = powered (p_calls s) r.
Proof.
  intros H Hr. apply power_method_spec in H as (a & a' & -> & _). rewrite !powered_log; [done|..]; try done.
  all: intros [= E _]; congruence.
Qed.

Lemma method_success res on s s' : power_method res on s = (AE_OK, s') -> powered (p_calls s') res = on.
Proof.
  intros H. apply power_method_spec in H as (a & a' & -> & Ea & Hs). rewrite powered_log by done.
  rewrite (sta_powered res (log (A_evaluate res (if on then M_ON else M_OFF)) a s) a' _ Ea (Hs eq_refl)). by destruct on.
Qed.

Lemma power_acquire_lit res d use s s' : power_acquire res d use s = (AE_OK, s') -> lit s -> lit s'.
Proof.
  unfold power_acquire. pose proof (hold_reference res d use s) as E. destruct (power_reference res d true s) as [b s1].
  cbn [snd] in E. rewrite E. clear E. set (s2 := hold res d use s).
  assert (forall s3 s', quiet s2 s3 -> (forall r, powered (p_calls s3) r = powered (p_calls s) r) ->
    power_method res true s3 = (AE_OK, s') -> lit s -> lit s') as Hon.
  { intros s3 s4 Q Hp Hm H r Hr. destruct (decide (r = res)) as [->|Hne]; [by eapply method_success|].
    rewrite (method_powered res true s3 AE_OK s4 r Hm Hne), Hp. apply H.
    pose proof (power_method_quiet res true s3) as Q1. rewrite Hm in Q1. cbn [snd] in Q1.
    unfold refs_of in *. destruct (quiet_fields _ _ (quiet_trans _ _ _ Q Q1)) as (Ef & _). rewrite Ef in Hr.
    change (refs_of (hold res d use s) r <> []) in Hr. by rewrite refs_of_hold in Hr. }
  destruct (bool_decide (refs_of s res = [])).
  { intros Hm H. by apply (Hon s2 s'); [apply quiet_refl|..]. }
  pose proof (power_sta_quiet res s2) as Q. destruct (power_sta res s2) as [[rv sta] s3] eqn:Es. cbn [snd] in Q.
  apply power_sta_spec in Es as (r & -> & Er & -> & Hok).
  destruct (ACPI_FAILURE rv) eqn:Ef; [intros [= -> _]; done|]. apply FAILURE_false in Ef. destruct (Hok Ef) as [Hs Hr].
  assert (forall x, powered (p_calls (log (A_integer res M_STA) r s2)) x = powered (p_calls s) x) as Hp.
  { intros x. by rewrite powered_log by done. }
  destruct (Z.eqb_spec (u64 (r_value r)) 0) as [|Hz]; [intros Hm H; by eapply Hon|].
  intros [= <-] H. eapply (lit_quiet s2); [exact Q|intros x; by rewrite Hp|]. apply lit_hold; [|done].
  change (p_calls s) with (p_calls s2). rewrite (sta_powered res s2 r _ Er Hs). apply Z.eqb_eq. lia.
Qed.

Lemma drop_last d use l ref : find_ref d l = Some ref -> length l = 1%nat -> clr_flag (ref_uses ref) use = 0 -> drop_uses d use l = [].
Proof.
  intros Hf Hl Hc. destruct l as [|x [|y l]]; try done. apply find_ref_device in Hf as [E [->|[]]].
  cbn [drop_uses]. by rewrite E, Nat.eqb_refl, Hc.
Qed.

Lemma power_release_lit res d use s s' : power_release res d use s = (AE_OK, s') -> lit s -> lit s'.
Proof.
  unfold power_release. destruct (find_ref d (refs_of s res)) as [ref|] eqn:E; [|by intros [= <-]].
  destruct (Z.land (ref_uses ref) use =? 0); [by intros [= <-]|].
  destruct (if _ && _ then _ else _) as [rv s1] eqn:Eb. destruct (ACPI_FAILURE rv) eqn:Ef; [intros [= -> _]; done|].
  apply FAILURE_false in Ef. subst rv. intros [= <-] H r.
  change (p_calls (on_refs res (drop_uses d use) s1)) with (p_calls s1). rewrite refs_of_on_refs.
  assert (quiet s s1 /\ (forall x, refs_of s1 x = refs_of s x)) as [Q Hrefs].
  { assert (quiet s s1) as Q; [|split; [done|intros x; unfold refs_of; by destruct (quiet_fields _ _ Q) as (-> & _)]].
    destruct (_ && _).
    - pose proof (power_method_quiet res false s) as Q. by rewrite Eb in Q.
    - pose proof (power_sta_quiet res s) as Q. destruct (power_sta res s) as [[rv2 sta] s2]. cbn [snd] in Q.
      destruct (ACPI_FAILURE rv2); [by injection Eb as _ <-|]. destruct (negb _); [done|by injection Eb as <-]. }
  rewrite !Hrefs. destruct (_ && _) eqn:El.
  - apply andb_true_iff in El as [Hc%Z.eqb_eq Hl%Nat.eqb_eq]. destruct (decide (r = res)) as [->|Hne].
    + destruct (decide _) as [_|Hn]; [by rewrite (drop_last d use _ ref)|]. intros Hr. exfalso. apply Hn. split; [done|].
      unfold known. destruct (quiet_fields _ _ Q) as (-> & _). unfold refs_of in Hr.
      destruct (find_res res (power_resources s)); [by eexists|done].
    + rewrite decide_False by tauto. intros Hr. rewrite (method_powered res false s AE_OK s1 r Eb Hne). by apply H.
  - destruct (power_sta res s) as [[rv2 sta] s2] eqn:Es. apply power_sta_spec in Es as (a & -> & _).
    assert (s1 = log (A_integer res M_STA) a s) as ->.
    { destruct (ACPI_FAILURE rv2); [by injection Eb as _ <-|]. destruct (negb _); [done|by injection Eb as <-]. }
    rewrite powered_log by done. intros Hr. apply H. destruct (decide _) as [[-> _]|]; [|done].
    intros Hnil. rewrite Hnil in E. done.
Qed.

Lemma acquire_loop_lit d use l : forall s s', acquire_loop l d use s = (AE_OK, s') -> lit s -> lit s'.
Proof.
  induction l as [|res l IH]; intros s s'; cbn [acquire_loop]; [by intros [= <-]|].
  destruct (power_acquire res d use s) as [rv s1] eqn:E. destruct (ACPI_FAILURE rv) eqn:Ef; [intros [= -> _]; done|].
  apply FAILURE_false in Ef. subst rv. intros H1 H. eapply IH; [exact H1|]. by eapply power_acquire_lit.
Qed.

Lemma release_loop_lit d use l : forall s s', release_loop l d use s = (AE_OK, s') -> lit s -> lit s'.
Proof.
  induction l as [|res l IH]; intros s s'; cbn [release_loop]; [by intros [= <-]|].
  destruct (power_release res d use s) as [rv s1] eqn:E. destruct (ACPI_FAILURE rv) eqn:Ef; [intros [= -> _]; done|].
  apply FAILURE_false in Ef. subst rv. intros H1 H. eapply IH; [exact H1|]. by eapply power_release_lit.
Qed.

Lemma power_ps_lit h state s : lit s -> lit (power_ps h state s).2.
Proof.
  intros H. unfold power_ps. set (m := M_PS _). pose proof (get_handle_run h no_perm h m s) as R.
  destruct (AcpiGetHandle h m s) as [rv s1]. cbn [snd] in R. assert (lit s1) as H1 by (by eapply micros_lit).
  destruct (bool_decide _); [done|]. destruct (ACPI_FAILURE rv); [done|].
  change (lit (log (A_evaluate h m) (fw_reply (p_calls s1) (A_evaluate h m)) s1)).
  eapply lit_quiet; [apply log_quiet| |exact H1]. intros r. by apply powered_log.
Qed.

Lemma set_transition_lit h state flags target s s' : set_transition h state flags target s = (AE_OK, s') -> lit s -> lit s'.
Proof.
  unfold set_transition. destruct (acquire_loop _ h _ s) as [rv s1] eqn:E. destruct (ACPI_FAILURE rv) eqn:Ef; [intros [= -> _]; done|].
  apply FAILURE_false in Ef. subst rv. intros Hr H. apply acquire_loop_lit in E; [|done].
  destruct (Z.land _ _ =? 0); [|change (ACPI_FAILURE AE_OK) with false in Hr; cbn iota in Hr; by eapply release_loop_lit].
  pose proof (power_ps_lit h state s1 E) as H1. destruct (power_ps h state s1) as [rv s2]. cbn [snd] in H1.
  destruct (ACPI_FAILURE rv) eqn:Ef; [injection Hr as -> _; done|]. by eapply release_loop_lit.
Qed.

Lemma set_body_lit h state flags s s' : set_body h state flags s = (AE_OK, s') -> lit s -> lit s'.
Proof.
  unfold set_body. intros Hb H. pose proof (power_discover_lit s H) as H1. destruct (power_discover s) as [rv s1]. cbn [snd] in H1.
  destruct (ACPI_FAILURE rv) eqn:Ef; [injection Hb as -> _; done|].
  pose proof (power_seed_lit h s1 H1) as H2. destruct (power_seed h s1) as [rv1 s2]. cbn [snd] in H2.
  destruct (ACPI_FAILURE rv1) eqn:Ef1; [injection Hb as -> _; done|]. destruct (parent_below h state s2); [done|].
  assert (rtc (micro h no_perm) s2 (if negb (state =? ACPI_STATE_D3_COLD) then power_package h state [] s2 else (AE_OK, [], s2)).2) as R.
  { destruct (negb _); [apply power_package_run|done]. }
  destruct (if negb _ then _ else _) as [[rv2 target] s3]. cbn [snd] in R. assert (lit s3) as H3 by (by eapply micros_lit).
  destruct (ACPI_FAILURE rv2) eqn:Ef2; [injection Hb as -> _; done|].
  destruct (set_transition h state flags target s3) as [rv3 s4] eqn:Et. destruct (ACPI_FAILURE rv3) eqn:Ef3; [injection Hb as -> _; done|].
  apply FAILURE_false in Ef3. subst rv3. injection Hb as <-. by eapply set_transition_lit in Et.
Qed.

Lemma set_node_lit h x s : lit s -> lit (set_node_state h x s).
Proof. intros H. unfold set_node_state. by destruct (fw_node h). Qed.

Lemma get_lit h s : lit s -> lit (acpi_power_get h s).2.
Proof.
  intros H. unfold acpi_power_get. destruct (Nat.eqb h NULL); [done|].
  assert (lit (get_current h (power_device h s)).2) as H1; [|destruct (get_current _ _) as [[rv cur] s1]; by apply set_node_lit].
  apply (power_device_lit h) in H. revert H. generalize (power_device h s). clear s. intros s H. unfold get_current.
  pose proof (power_seed_lit h s H) as H1. destruct (power_seed h s) as [rv s1]. cbn [snd] in H1. destruct (ACPI_FAILURE rv); [done|].
  pose proof (power_package_run h no_perm h ACPI_STATE_D0 [] s1) as R. destruct (power_package h _ [] s1) as [[rv1 set] s2].
  cbn [snd] in R. assert (lit s2) as H2 by (by eapply micros_lit). destruct (ACPI_FAILURE rv1); [done|].
  pose proof (get_cold_run h no_perm set false s2) as R1. destruct (get_cold set false s2) as [[rv2 cold] s3]. cbn [snd] in R1.
  assert (lit s3) as H3 by (by eapply micros_lit). destruct (ACPI_FAILURE rv2); [done|]. destruct cold; [done|].
  destruct (dev_failed _); [done|]. destruct (negb _); [done|]. eapply micros_lit; [apply (power_psc_run h)|done].
Qed.

(** The operation did what was asked. *)
Definition op_succeeds (o : power_op) (s : power) : bool :=
  match o with
  | Op_register _ | Op_get _ => true
  | Op_deregister h => match find_dev h (power_devices (acpi_power_deregister h s)) with Some _ => false | None => true end
  | Op_set h state flags => (acpi_power_set_flags h state flags s).1
  | Op_res res h on => ACPI_SUCCESS (acpi_power_res_op res h on s).1
  end.

Lemma deregister_lit h s : find_dev h (power_devices (acpi_power_deregister h s)) = None -> lit s -> lit (acpi_power_deregister h s).
Proof.
  unfold acpi_power_deregister. destruct (Nat.eqb h NULL); [done|]. intros Hn H.
  assert (forall rv s1, ACPI_FAILURE rv = true ->
    find_dev h (power_devices (if ACPI_FAILURE rv then on_dev h mark_failed (power_device h s1) else s1)) = None -> False) as Hbad.
  { intros rv s1 ->. rewrite find_dev_on by done. destruct (power_device_has h s1) as [x ->]. done. }
  revert Hn. pose proof (power_discover_lit s H) as H1. destruct (power_discover s) as [rv s1]. cbn [snd] in H1.
  destruct (ACPI_FAILURE rv) eqn:Ef; [by intros ?%Hbad|].
  destruct (release_loop _ h _ s1) as [rv1 s2] eqn:Er. destruct (ACPI_FAILURE rv1) eqn:Ef1; [by intros ?%Hbad|].
  apply FAILURE_false in Ef1. subst rv1. intros _. by eapply release_loop_lit in Er.
Qed.

Lemma do_op_lit o s : op_succeeds o s = true -> lit s -> lit (do_op o s).
Proof.
  destruct o as [h|h|h|h state flags|res h on]; cbn [op_succeeds do_op]; intros Hop H.
  - unfold acpi_power_register. destruct (Nat.eqb h NULL); [done|].
    pose proof (power_seed_lit h (power_device h s) (power_device_lit h s H)) as H1. by destruct (power_seed h _).
  - apply deregister_lit; [|done]. by destruct (find_dev h _).
  - by apply get_lit.
  - unfold acpi_power_set_flags in *. destruct (_ || _); [done|]. destruct (_ || _); [done|].
    destruct (set_body h state flags (power_device h s)) as [rv s1] eqn:E. cbn [fst snd] in *.
    apply bool_decide_eq_true in Hop. subst rv. apply set_node_lit. by eapply set_body_lit in E; [|by apply power_device_lit].
  - unfold acpi_power_res_op in *. destruct (_ || _); [done|].
    pose proof (power_discover_lit s H) as H1. destruct (power_discover s) as [rv s1]. cbn [snd] in H1.
    destruct (ACPI_FAILURE rv); [done|]. pose proof (power_resource_run h no_perm res s1) as R.
    destruct (power_resource res s1) as [rv1 s2]. cbn [snd] in R. assert (lit s2) as H2 by (by eapply micros_lit).
    destruct (ACPI_FAILURE rv1); [done|]. destruct on.
    + destruct (power_acquire res h POWER_WAKE s2) as [rv2 s3] eqn:E. apply bool_decide_eq_true in Hop. cbn [fst snd] in *. subst rv2.
      by eapply power_acquire_lit.
    + destruct (power_release res h POWER_WAKE s2) as [rv2 s3] eqn:E. apply bool_decide_eq_true in Hop. cbn [fst snd] in *. subst rv2.
      by eapply power_release_lit.
Qed.

(** Operations one after the other, each successful. *)
Fixpoint all_succeed (l : list power_op) (s : power) : bool :=
  match l with [] => true | o :: l => op_succeeds o s && all_succeed l (do_op o s) end.

(** C21. With firmware whose resources change power only by their own _ON and _OFF,
    after any sequence of operations that succeeded every resource some device holds is
    on. *)
Theorem acpi_power_held_is_on nodes l : all_succeed l (power_start nodes) = true ->
  forall res d, uses (do_ops l (power_start nodes)) res d <> 0 ->
    powered (p_calls (do_ops l (power_start nodes))) res = true.
Proof.
  assert (forall s, lit s -> all_succeed l s = true -> lit (do_ops l s)) as H.
  { induction l as [|o l IH]; intros s H; [done|]. cbn [all_succeed]. intros [H1 H2]%andb_true_iff.
    apply IH; [by apply do_op_lit|done]. }
  intros Hs res d Hu. apply (H (power_start nodes)); [by intros r Hr; destruct Hr|done|]. intros Hn. unfold uses in Hu. by rewrite Hn in Hu.
Qed.

End lit.

(** * A board with two rails

    Concrete firmware: two power resources, a device on both and a device on
    one of them; and the promises of acpi_power.c on it. *)

Definition ok_reply (v : Z) (o : aml_object) : reply := mk_reply AE_OK v o.
Definition absent : reply := mk_reply AE_NOT_FOUND 0 O_null.

(** Whether rail [r] is on: its last control method. *)
Fixpoint rail_on (tr : list (aml * reply)) (r : ACPI_HANDLE) : bool :=
  match tr with
  | [] => false
  | (A_evaluate d M_ON, _) :: tr => if Nat.eqb d r then true else rail_on tr r
  | (A_evaluate d M_OFF, _) :: tr => if Nat.eqb d r then false else rail_on tr r
  | _ :: tr => rail_on tr r
  end.

(** Rails 10 and 11; device 1 needs both for D0 and has _PS0 and _PS3, device 2
    needs rail 10 for D0. *)
Definition board_reply (tr : list (aml * reply)) (c : aml) : reply :=
  match c with
  | A_integer 10 M_STA | A_integer 11 M_STA =>
      ok_reply (match c with A_integer r _ => if rail_on tr r then 1 else 0 | _ => 0 end) O_null
  | A_get_handle 1 (M_PR 0) | A_get_handle 2 (M_PR 0) | A_get_handle 1 (M_PS 0) | A_get_handle 1 (M_PS 3) => ok_reply 0 O_null
  | A_package 1 (M_PR 0) => ok_reply 0 (O_package [(AE_OK, 11%nat); (AE_OK, 10%nat)])
  | A_package 2 (M_PR 0) => ok_reply 0 (O_package [(AE_OK, 10%nat)])
  | A_power 10 => ok_reply 0 (O_power 1)
  | A_power 11 => ok_reply 0 (O_power 2)
  | A_evaluate _ _ => ok_reply 0 O_null
  | _ => absent
  end.

Definition board : Firmware :=
  {| fw_reply := board_reply; fw_devices := fun _ => [1%nat; 2%nat];
     fw_node := fun h => if Nat.eqb h 1 then Some 0%nat else None |}.

(** The same board with a rail 11 that does not come on. *)
Definition broken : Firmware :=
  {| fw_reply := fun tr c => match c with A_integer 11 M_STA => ok_reply 0 O_null | _ => board_reply tr c end;
     fw_devices := fun _ => [1%nat; 2%nat]; fw_node := fun h => if Nat.eqb h 1 then Some 0%nat else None |}.

Definition board_nodes : list acpi_devnode := [mk_node None ACPI_DEVICE_POWER ACPI_STATE_D3].

Lemma board_own_power : own_power (FW := board).
Proof.
  intros tr c a r Hon Hoff. unfold powered. cbn [fw_reply board].
  assert (rail_on ((c, a) :: tr) r = rail_on tr r) as E.
  { cbn [rail_on]. destruct c as [| |d [| | | | |]| | | | | | |]; try done; destruct (Nat.eqb_spec d r) as [->|]; congruence. }
  unfold board_reply. do 12 (destruct r as [|r]; [try done; by rewrite E|]). done.
Qed.

(** Both devices on, then the first one cold. *)
Definition ops_ex : list power_op := [Op_set 1 0 0; Op_set 2 0 0].
Definition state_ex : power := do_ops (FW := board) ops_ex (power_start board_nodes).

Lemma state_ex_ok : power_ok state_ex.
Proof. apply acpi_lists_ok_at. Qed.

Lemma acpi_power_held_is_on_witness : own_power (FW := board) /\
  powered (FW := board) (p_calls state_ex) 11 = true /\ uses state_ex 11 1 = 1.
Proof.
  split; [exact board_own_power|]. split; [|vm_compute; reflexivity].
  apply (acpi_power_held_is_on (FW := board) board_own_power board_nodes ops_ex) with (d := 1%nat).
  - vm_compute. reflexivity.
  - vm_compute. discriminate.
Defined.

(** Device 1 goes cold: rail 10 stays for device 2. *)
Lemma acpi_power_other_devices_kept_witness : uses state_ex 10 2 = 1 /\
  sub_uses (uses state_ex 10 2) (uses (do_op (FW := board) (Op_set 1 4 0) state_ex) 10 2).
Proof.
  split; [vm_compute; reflexivity|].
  apply (acpi_power_other_devices_kept (FW := board) (Op_set 1 4 0) state_ex 10 2); [discriminate|].
  vm_compute. discriminate.
Defined.

Lemma pair_runs {A B} (p : A * B) a : p.1 = a -> exists b, p = (a, b).
Proof. intros <-. destruct p as [x y]. by exists y. Qed.

Lemma acpi_power_set_owns_witness : exists s', acpi_power_set_flags (FW := board) 1 4 0 state_ex = (true, s') /\
  dev_state (get_dev 1 s') = ACPI_STATE_D3_COLD /\ dev_failed (get_dev 1 s') = false.
Proof.
  destruct (pair_runs (acpi_power_set_flags (FW := board) 1 4 0 state_ex) true) as [s' E]; [vm_compute; reflexivity|].
  exists s'. split; [exact E|].
  destruct (acpi_power_set_owns (FW := board) 1 4 0 state_ex s' state_ex_ok E) as (H1 & H2 & _). split; [exact H1|exact H2].
Defined.

Lemma acpi_power_set_order_witness : exists s', acpi_power_set_flags (FW := board) 1 4 0 state_ex = (true, s') /\
  ordered 1 4 0 state_ex s'.
Proof.
  destruct (pair_runs (acpi_power_set_flags (FW := board) 1 4 0 state_ex) true) as [s' E]; [vm_compute; reflexivity|].
  exists s'. split; [exact E|]. apply (acpi_power_set_order (FW := board) 1 4 0 state_ex true s' state_ex_ok E).
Defined.

(** The control methods of the whole run: rail 10 stays on for device 2. *)
Example controls_ex : controls (p_calls (acpi_power_set_flags (FW := board) 1 4 0 state_ex).2) =
  [(10%nat, M_ON); (11%nat, M_ON); (1%nat, M_PS 0); (1%nat, M_PS 3); (11%nat, M_OFF)].
Proof. vm_compute. reflexivity. Qed.

Lemma acpi_power_get_sound_witness : exists s', acpi_power_get (FW := board) 1 state_ex = (true, ACPI_STATE_D0, s') /\
  exists set new, p_calls s' = new ++ p_calls state_ex /\ names_resources new 1 ACPI_STATE_D0 set.
Proof.
  destruct (pair_runs (acpi_power_get (FW := board) 1 state_ex) (true, ACPI_STATE_D0)) as [s' E]; [vm_compute; reflexivity|].
  exists s'. split; [exact E|].
  destruct (acpi_power_get_sound (FW := board) 1 state_ex ACPI_STATE_D0 s' E) as (set & new & H1 & H2 & _).
  exists set, new. split; [exact H1|exact H2].
Defined.

Lemma acpi_power_failure_remembered_witness : exists s',
  acpi_power_set_flags (FW := broken) 1 0 0 (power_start board_nodes) = (false, s') /\ dev_failed (get_dev 1 s') = true.
Proof.
  destruct (pair_runs (acpi_power_set_flags (FW := broken) 1 0 0 (power_start board_nodes)) false) as [s' E]; [vm_compute; reflexivity|].
  exists s'. split; [exact E|].
  assert (ACPI_STATE_D0 <= 0 <= ACPI_STATE_D3_COLD) as Hst by (unfold ACPI_STATE_D0, ACPI_STATE_D3_COLD; lia).
  destruct (acpi_power_failure_remembered (FW := broken) 1 0 0 (power_start board_nodes) s' [Op_get 2; Op_set 2 0 0]
    ltac:(discriminate) Hst (or_introl eq_refl) E eq_refl) as (_ & H & _). exact H.
Defined.

(** After the failure the unpowered rail shows. *)
Example failed_ex :
  (acpi_power_get (FW := broken) 1 (acpi_power_set_flags (FW := broken) 1 0 0 (power_start board_nodes)).2).1 = (true, ACPI_STATE_D3_COLD).
Proof. vm_compute. reflexivity. Qed.

Lemma acpi_power_deregister_releases_witness : power_ok state_ex /\
  ((find_dev 1 (power_devices (acpi_power_deregister (FW := board) 1 state_ex)) = None /\
    forall r, uses (acpi_power_deregister (FW := board) 1 state_ex) r 1 = 0) \/
   (dev_state (get_dev 1 (acpi_power_deregister (FW := board) 1 state_ex)) = ACPI_STATE_ERROR /\
    dev_failed (get_dev 1 (acpi_power_deregister (FW := board) 1 state_ex)) = true)).
Proof.
  split; [exact state_ex_ok|].
  apply (acpi_power_deregister_releases (FW := board) 1 state_ex state_ex_ok). discriminate.
Defined.

(** Here the record goes. *)
Example deregister_ex : find_dev 1 (power_devices (acpi_power_deregister (FW := board) 1 state_ex)) = None.
Proof. vm_compute. reflexivity. Qed.
