(* ===== verification/AcpiWake.v ===== *)
(** * Wake devices

    kernel/dev/acpi/acpi_wakedev.c on the power resources: the _PRW of a
    device, the wake masks of its GPE, the power resources it needs to wake the
    machine and the control methods _DSW and _PSW. *)

From stdpp Require Import base numbers list relations.
From S2P Require Import Prelude AcpiPower AcpiFacts AcpiOps AcpiSet AcpiThms.

Definition ACPI_STATE_S0 : Z := 0.

Record acpi_wakedev := mk_wake {
  aw_handle : ACPI_HANDLE;
  aw_number : Z;
  aw_state : Z;
  aw_enable : bool;
  aw_power : list ACPI_HANDLE  (* NULL where unused *)
}.

Definition set_aw_enable (v : bool) (r : acpi_wakedev) : acpi_wakedev :=
  mk_wake (aw_handle r) (aw_number r) (aw_state r) v (aw_power r).
Definition set_aw_power (v : list ACPI_HANDLE) (r : acpi_wakedev) : acpi_wakedev :=
  mk_wake (aw_handle r) (aw_number r) (aw_state r) (aw_enable r) v.

(** A node of sc_head. *)
Record wnode := mk_wnode {
  wn_handle : ACPI_HANDLE;
  wn_wakedev : option acpi_wakedev
}.

Definition set_wn_wakedev (v : option acpi_wakedev) (r : wnode) : wnode :=
  mk_wnode (wn_handle r) v.

Section wake.
Context `{FW : Firmware}.

(** acpi_eval_reference_handle, the number of slots of aw_power, and
    AcpiGbl_ReducedHardware. *)
Context (eval_reference : prw_elem -> ACPI_STATUS * ACPI_HANDLE) (AW_POWER : nat) (reduced : bool).

(** The handles of the elements from the third on; a bad one leaves its slot. *)
Definition acpi_wakedev_power_add (elements : list prw_elem) : list ACPI_HANDLE :=
  let n := length elements in
  if (n <? 3)%nat || (AW_POWER <? n - 2)%nat then repeat NULL AW_POWER
  else
    let hs := map (fun e => let '(rv, hdl) := eval_reference e in if ACPI_FAILURE rv then NULL else hdl)
                (drop 2 elements) in
    hs ++ repeat NULL (AW_POWER - length hs).

(** The GPE of the first element. *)
Definition prw_gpe (e : prw_elem) : ACPI_STATUS * ACPI_HANDLE * Z :=
  match e with
  | PE_integer val => (AE_OK, NULL, val)
  | PE_package l =>
      if (length l <? 2)%nat then (AE_LIMIT, NULL, 0) else
      match l with
      | PE_reference hdl :: PE_integer val :: _ => (AE_OK, hdl, val)
      | _ => (AE_TYPE, NULL, 0)
      end
  | _ => (AE_TYPE, NULL, 0)
  end.

Definition acpi_wakedev_init (ad : wnode) (s : power) : wnode * power :=
  let '(r, s) := eval (A_prw (wn_handle ad)) s in
  if ACPI_FAILURE (r_status r) then (ad, s) else
  match r_object r with
  | O_prw elements =>
      match elements with
      | elm :: elm1 :: _ =>
          let '(rv, hdl, val) := prw_gpe elm in
          if ACPI_FAILURE rv then (ad, s) else
          let state := match elm1 with PE_integer v => v | _ => 0 end in
          let aw := mk_wake hdl val state false (acpi_wakedev_power_add elements) in
          let ad := set_wn_wakedev (Some aw) ad in
          if reduced then (ad, s) else (ad, (eval (A_gpe_setup (wn_handle ad) hdl val) s).2)
      | _ => (ad, s)
      end
  | _ => (ad, s)
  end.

Definition acpi_wakedev_power_set (h : ACPI_HANDLE) (aw : acpi_wakedev) (enable : bool) (s : power) : power :=
  fold_left (fun s res => if Nat.eqb res NULL then s else (acpi_power_res_op res h enable s).2) (aw_power aw) s.

Definition acpi_wakedev_method (h : ACPI_HANDLE) (aw : acpi_wakedev) (state : Z) (s : power) : power :=
  let '(r, s) := eval (A_dsw h (aw_enable aw) state) s in
  if ACPI_SUCCESS (r_status r) then s
  else if negb (bool_decide (r_status r = AE_NOT_FOUND)) then s
  else (eval (A_psw h (aw_enable aw)) s).2.

Definition set_wake_mask (aw : acpi_wakedev) (enable : bool) (s : power) : power :=
  if reduced then s else (eval (A_gpe_mask (aw_handle aw) (aw_number aw) enable) s).2.

Definition prepare_one (state : Z) (s : power) (ad : wnode) : power :=
  match wn_wakedev ad with
  | None => s
  | Some aw =>
      if aw_state aw <? state then s else
      let s := set_wake_mask aw true s in
      let s := acpi_wakedev_power_set (wn_handle ad) aw true s in
      acpi_wakedev_method (wn_handle ad) aw state s
  end.

Definition acpi_wakedev_prepare (nodes : list wnode) (state : Z) (s : power) : power :=
  fold_left (prepare_one state) nodes s.

Definition acpi_wakedev_commit (nodes : list wnode) (state : Z) (s : power) : power :=
  if negb (state =? ACPI_STATE_S0) then acpi_wakedev_prepare nodes state s
  else fold_left (fun s ad => match wn_wakedev ad with
                              | Some aw => set_wake_mask aw false s
                              | None => s
                              end) nodes s.

(** ** What they hold *)

Lemma set_wake_mask_quiet aw e s : quiet s (set_wake_mask aw e s).
Proof. unfold set_wake_mask. destruct reduced; [apply quiet_refl|apply eval_quiet]. Qed.

Lemma wakedev_method_quiet h aw state s : quiet s (acpi_wakedev_method h aw state s).
Proof.
  unfold acpi_wakedev_method. pose proof (eval_quiet (A_dsw h (aw_enable aw) state) s) as Q.
  destruct (eval _ s) as [r s1]. cbn [snd] in Q. destruct (ACPI_SUCCESS _); [done|]. destruct (negb _); [done|].
  eapply quiet_trans; [exact Q|apply eval_quiet].
Qed.

(** No use is dropped: every device keeps at least what it had. *)
Definition grows (s s' : power) : Prop :=
  (forall r d, sub_uses (uses s r d) (uses s' r d)) /\ (forall r, r ∈ handles s -> r ∈ handles s') /\
  (power_discovered s = true -> power_discovered s' = true).

Lemma grows_refl s : grows s s.
Proof. split; [intros; apply Z.land_diag|done]. Qed.

Lemma grows_trans s1 s2 s3 : grows s1 s2 -> grows s2 s3 -> grows s1 s3.
Proof.
  intros (A1 & A2 & A3) (B1 & B2 & B3). split; [intros r d; by eapply sub_uses_trans|]. auto.
Qed.

Lemma grows_quiet s s' : quiet s s' -> grows s s'.
Proof.
  intros Q. destruct (quiet_fields _ _ Q) as (_ & _ & _ & Hd). split; [|split; [|by rewrite Hd]].
  - intros r d. rewrite (quiet_uses _ _ _ _ Q). apply Z.land_diag.
  - intros r. by rewrite (quiet_handles _ _ Q).
Qed.

(** Asking for a resource while everything is discovered. *)
Lemma res_on_discovered res h s : power_discovered s = true -> res ∈ handles s -> res <> NULL -> h <> NULL ->
  acpi_power_res_op res h true s = power_acquire res h POWER_WAKE s.
Proof.
  intros Hd Hr Hn Hh. unfold acpi_power_res_op. rewrite (proj2 (Nat.eqb_neq _ _) Hn), (proj2 (Nat.eqb_neq _ _) Hh). cbn [orb].
  unfold power_discover. rewrite Hd. change (ACPI_FAILURE AE_OK) with false. cbn iota. unfold power_resource.
  apply list_elem_of_In, known_handles in Hr as [x ->]. done.
Qed.

Lemma res_on_grows res h s : power_discovered s = true -> res ∈ handles s -> res <> NULL -> h <> NULL ->
  grows s (acpi_power_res_op res h true s).2 /\
  has_flag (uses (acpi_power_res_op res h true s).2 res h) POWER_WAKE = true.
Proof.
  intros Hd Hr Hn Hh. rewrite res_on_discovered by done. destruct (power_acquire res h POWER_WAKE s) as [rv s'] eqn:E.
  apply power_acquire_spec in E as [Q _]. cbn [snd]. apply list_elem_of_In, known_handles in Hr.
  assert (forall r d, uses s' r d = if decide (r = res /\ d = h) then set_flag (uses s r d) POWER_WAKE else uses s r d) as Hu.
  { intros r d. rewrite (quiet_uses _ _ _ _ Q). by apply uses_hold. }
  split; [split; [|split]|].
  - intros r d. rewrite Hu. destruct (decide _); [apply sub_uses_set|]; apply Z.land_diag.
  - intros r. rewrite (quiet_handles _ _ Q). unfold hold. by rewrite handles_on_refs.
  - by destruct (quiet_fields _ _ Q) as (_ & _ & _ & ->).
  - rewrite Hu, decide_True by done. by apply has_flag_set_sub.
Qed.

(** The slots of a wake device that name known resources. *)
Definition slots_known (s : power) (aw : acpi_wakedev) : Prop :=
  forall res, res ∈ aw_power aw -> res <> NULL -> res ∈ handles s.

Lemma has_flag_sub u v m : sub_uses u v -> has_flag u m = true -> has_flag v m = true.
Proof.
  unfold sub_uses, has_flag. intros H Hu. apply negb_true_iff, Z.eqb_neq in Hu. apply negb_true_iff, Z.eqb_neq. intros Hv.
  apply Hu. rewrite <-H, <-Z.land_assoc, Hv. apply Z.land_0_r.
Qed.

Lemma power_set_grows h aw s : power_discovered s = true -> slots_known s aw -> h <> NULL ->
  grows s (acpi_wakedev_power_set h aw true s) /\
  forall res, res ∈ aw_power aw -> res <> NULL -> has_flag (uses (acpi_wakedev_power_set h aw true s) res h) POWER_WAKE = true.
Proof.
  unfold acpi_wakedev_power_set, slots_known. generalize (aw_power aw). intros l Hd Hk Hh. revert s Hd Hk.
  induction l as [|x l IH]; intros s Hd Hk; cbn [fold_left].
  { split; [apply grows_refl|]. by intros res ?%elem_of_nil. }
  destruct (Nat.eqb_spec x NULL) as [->|Hx].
  - destruct (IH s Hd) as [G W]; [intros r Hr; apply Hk; by right|]. split; [done|].
    intros res [->|Hr]%elem_of_cons Hn; [done|by apply W].
  - destruct (res_on_grows x h s Hd) as [G1 W1]; [apply Hk; [by left|done]|done|done|].
    destruct (IH (acpi_power_res_op x h true s).2) as [G2 W2].
    + by apply G1.
    + intros r Hr Hn. apply G1, Hk; [by right|done].
    + split; [by eapply grows_trans|]. intros res [->|Hr]%elem_of_cons Hn; [|by apply W2].
      eapply has_flag_sub; [apply G2|exact W1].
Qed.

Lemma prepare_one_grows state s ad : power_discovered s = true ->
  (forall aw, wn_wakedev ad = Some aw -> slots_known s aw) -> wn_handle ad <> NULL ->
  grows s (prepare_one state s ad) /\
  forall aw res, wn_wakedev ad = Some aw -> state <= aw_state aw -> res ∈ aw_power aw -> res <> NULL ->
    has_flag (uses (prepare_one state s ad) res (wn_handle ad)) POWER_WAKE = true.
Proof.
  intros Hd Hk Hh. unfold prepare_one. destruct (wn_wakedev ad) as [aw|] eqn:Ew; [|by split; [apply grows_refl|]].
  destruct (Z.ltb_spec (aw_state aw) state) as [Hlt|Hle].
  { split; [apply grows_refl|]. intros aw' res [= <-] Hle. lia. }
  set (s1 := set_wake_mask aw true s). assert (quiet s s1) as Q1 by apply set_wake_mask_quiet.
  destruct (power_set_grows (wn_handle ad) aw s1) as [G W].
  { by destruct (quiet_fields _ _ Q1) as (_ & _ & _ & ->). }
  { intros res Hr Hn. rewrite (quiet_handles _ _ Q1). by apply (Hk aw). }
  { done. }
  set (s2 := acpi_wakedev_power_set (wn_handle ad) aw true s1) in *.
  pose proof (wakedev_method_quiet (wn_handle ad) aw state s2) as Q2. split.
  - eapply grows_trans; [by apply grows_quiet|]. eapply grows_trans; [exact G|by apply grows_quiet].
  - intros aw' res [= <-] _ Hr Hn. rewrite (quiet_uses _ _ _ _ Q2). by apply W.
Qed.

Lemma commit_s0_quiet nodes : forall s, quiet s (acpi_wakedev_commit nodes ACPI_STATE_S0 s).
Proof.
  unfold acpi_wakedev_commit. cbn [negb ACPI_STATE_S0 Z.eqb]. induction nodes as [|ad nodes IH]; intros s; cbn [fold_left].
  - apply quiet_refl.
  - destruct (wn_wakedev ad) as [aw|]; [|apply IH]. eapply quiet_trans; [apply set_wake_mask_quiet|apply IH].
Qed.

(** Every wake device holds its power for waking. *)
Lemma prepare_holds nodes state : forall s, power_discovered s = true ->
  Forall (fun ad => wn_handle ad <> NULL /\ forall aw, wn_wakedev ad = Some aw -> slots_known s aw) nodes ->
  grows s (acpi_wakedev_prepare nodes state s) /\
  forall ad aw res, ad ∈ nodes -> wn_wakedev ad = Some aw -> state <= aw_state aw -> res ∈ aw_power aw -> res <> NULL ->
    has_flag (uses (acpi_wakedev_prepare nodes state s) res (wn_handle ad)) POWER_WAKE = true.
Proof.
  unfold acpi_wakedev_prepare. induction nodes as [|x nodes IH]; intros s Hd Hk; cbn [fold_left].
  { split; [apply grows_refl|]. by intros ad aw res ?%elem_of_nil. }
  apply Forall_cons in Hk as [[Hx Hxk] Hk]. destruct (prepare_one_grows state s x Hd Hxk Hx) as [G1 W1].
  destruct (IH (prepare_one state s x)) as [G2 W2].
  - by apply G1.
  - eapply Forall_impl; [exact Hk|]. intros ad [Ha Hak]. split; [done|]. intros aw Hw res Hr Hn. by apply G1, (Hak aw).
  - split; [by eapply grows_trans|]. intros ad aw res [->|Hin]%elem_of_cons Hw Hst Hr Hn; [|by apply (W2 ad aw)].
    eapply has_flag_sub; [apply G2|]. by apply (W1 aw).
Qed.

(** Preparing for a sleep state takes the wake use of every power resource of every wake
    device of that state, and returning to S0 does not give it back. *)
Theorem acpi_wakedev_power_held nodes state s : power_discovered s = true ->
  Forall (fun ad => wn_handle ad <> NULL /\ forall aw, wn_wakedev ad = Some aw -> slots_known s aw) nodes ->
  forall ad aw res, ad ∈ nodes -> wn_wakedev ad = Some aw -> state <= aw_state aw -> res ∈ aw_power aw -> res <> NULL ->
    has_flag (uses (acpi_wakedev_prepare nodes state s) res (wn_handle ad)) POWER_WAKE = true /\
    has_flag (uses (acpi_wakedev_commit nodes ACPI_STATE_S0 (acpi_wakedev_prepare nodes state s)) res (wn_handle ad)) POWER_WAKE = true.
Proof.
  intros Hd Hk ad aw res Hin Hw Hst Hr Hn. destruct (prepare_holds nodes state s Hd Hk) as [_ H].
  specialize (H ad aw res Hin Hw Hst Hr Hn). split; [done|]. by rewrite (quiet_uses _ _ _ _ (commit_s0_quiet nodes _)).
Qed.

End wake.
