(* ===== verification/AdrPower.v ===== *)
(** * Power groups by PCI address

    acpi_adr_power and the hw.acpi.sleep groups of kernel/dev/acpi/acpi.c:
    moving a table of devices to D3 or D3cold and back, on the model of the
    power resources.  PCI configuration space is outside: accesses are recorded
    and their answers are a parameter. *)

From stdpp Require Import base numbers list relations.
From S2P Require Import Prelude Sysctl AcpiPower AcpiFacts AcpiOps AcpiSet AcpiThms.

Inductive pci_call :=
  | PC_read (tag reg : Z)
  | PC_capture (tag : Z)
  | PC_powerstate (tag state : Z)
  | PC_restore (tag conf : Z)
  | PC_power_lost (h : ACPI_HANDLE).                 (* lispbsd-power-lost *)

(** What the code below asked for, with the answers. *)
Inductive adr_event :=
  | E_pci (c : pci_call) (a : Z)
  | E_get (h : ACPI_HANDLE) (ok : bool) (state : Z)  (* acpi_power_get *)
  | E_set (h : ACPI_HANDLE) (state flags : Z) (ok : bool). (* acpi_power_set_flags *)

(** The answers: a register, or a name for the configuration captured. *)
Class PciSpace := pci_answer : list adr_event -> pci_call -> Z.

Definition PCI_ID_REG : Z := 0.
Definition PCI_PMCSR_STATE_D0 : Z := 0.
Definition PCI_PMCSR_STATE_D3 : Z := 3.

Definition ADRPWR_COLD : Z := 0x01.
Definition ADRPWR_NODRIVER : Z := 0x02.
Definition ADRPWR_NOPS3 : Z := 0x04.

Inductive adr_state :=
  ADRPWR_ON | ADRPWR_APPLIED | ADRPWR_ALREADY | ADRPWR_ABSENT | ADRPWR_SKIPPED | ADRPWR_FAILED.

#[export] Instance adr_state_eq_dec : EqDecision adr_state.
Proof. solve_decision. Defined.

Record acpi_adr_pwr := mk_adr {
  ap_adr : Z;
  ap_flags : Z;
  ap_changed : ACPI_HANDLE;
  ap_previous : Z;
  ap_state : adr_state;
  ap_saved : bool;
  ap_tag : Z;
  ap_conf : Z
}.

Definition set_ap_changed (v : ACPI_HANDLE) (r : acpi_adr_pwr) : acpi_adr_pwr :=
  mk_adr (ap_adr r) (ap_flags r) v (ap_previous r) (ap_state r) (ap_saved r)
    (ap_tag r) (ap_conf r).
Definition set_ap_previous (v : Z) (r : acpi_adr_pwr) : acpi_adr_pwr :=
  mk_adr (ap_adr r) (ap_flags r) (ap_changed r) v (ap_state r) (ap_saved r)
    (ap_tag r) (ap_conf r).
Definition set_ap_state (v : adr_state) (r : acpi_adr_pwr) : acpi_adr_pwr :=
  mk_adr (ap_adr r) (ap_flags r) (ap_changed r) (ap_previous r) v (ap_saved r)
    (ap_tag r) (ap_conf r).
Definition set_ap_saved (v : bool) (r : acpi_adr_pwr) : acpi_adr_pwr :=
  mk_adr (ap_adr r) (ap_flags r) (ap_changed r) (ap_previous r) (ap_state r) v
    (ap_tag r) (ap_conf r).
Definition set_ap_tag (v : Z) (r : acpi_adr_pwr) : acpi_adr_pwr :=
  mk_adr (ap_adr r) (ap_flags r) (ap_changed r) (ap_previous r) (ap_state r)
    (ap_saved r) v (ap_conf r).
Definition set_ap_conf (v : Z) (r : acpi_adr_pwr) : acpi_adr_pwr :=
  mk_adr (ap_adr r) (ap_flags r) (ap_changed r) (ap_previous r) (ap_state r)
    (ap_saved r) (ap_tag r) v.

(** A node of sc_head: its _ADR if it is a device with one, its PCI function. *)
Record anode := mk_anode {
  an_handle : ACPI_HANDLE;
  an_adr : option Z;
  an_pci : option Z
}.

(** The tables and what the code below works on. *)
Record adr_sys := mk_adrsys {
  a_power : power;
  a_log : list adr_event  (* latest first *)
}.

Definition set_a_power (v : power) (r : adr_sys) : adr_sys :=
  mk_adrsys v (a_log r).
Definition set_a_log (v : list adr_event) (r : adr_sys) : adr_sys :=
  mk_adrsys (a_power r) v.

Section adr.
Context `{FW : Firmware} `{PCI : PciSpace}.

(** acpi_pcidev_find_dev: the driver instance, whether it is active and
    whether a device is bound; the experiment bits. *)
Context (gdv : ACPI_HANDLE -> option (bool * bool)) (acpi_idle_d3_exp : Z).

Definition log_event (e : adr_event) (s : adr_sys) : adr_sys := set_a_log (e :: a_log s) s.

Definition pci (c : pci_call) (s : adr_sys) : Z * adr_sys :=
  let a := pci_answer (a_log s) c in (a, log_event (E_pci c a) s).
Definition pci_ (c : pci_call) (s : adr_sys) : adr_sys := (pci c s).2.

Definition adr_set (h : ACPI_HANDLE) (state flags : Z) (s : adr_sys) : bool * adr_sys :=
  let '(ok, p) := acpi_power_set_flags h state flags (a_power s) in
  (ok, log_event (E_set h state flags ok) (set_a_power p s)).

Definition adr_get (h : ACPI_HANDLE) (s : adr_sys) : bool * Z * adr_sys :=
  let '(ok, old, p) := acpi_power_get h (a_power s) in
  (ok, old, log_event (E_get h ok old) (set_a_power p s)).

Definition pci_present (id : Z) : bool := negb ((id =? 0xffffffff) || (id =? 0)).

(** ** Back to D0 *)

Definition restore_entry (ap : acpi_adr_pwr) (s : adr_sys) : acpi_adr_pwr * adr_sys :=
  if Nat.eqb (ap_changed ap) NULL then (ap, s) else
  let '(_, s) := adr_set (ap_changed ap) (ap_previous ap) 0 s in
  let '(ap, s) :=
    if ap_saved ap then
      let '(id, s) := pci (PC_read (ap_tag ap) PCI_ID_REG) s in
      let s :=
        if pci_present id then
          let s := pci_ (PC_powerstate (ap_tag ap) PCI_PMCSR_STATE_D0) s in
          let s := pci_ (PC_restore (ap_tag ap) (ap_conf ap)) s in
          match fw_node (ap_changed ap), gdv (ap_changed ap) with
          | Some _, Some _ => pci_ (PC_power_lost (ap_changed ap)) s
          | _, _ => s
          end
        else s in
      (set_ap_saved false ap, s)
    else (ap, s) in
  (set_ap_changed NULL ap, s).

Fixpoint restore_loop (l : list acpi_adr_pwr) (s : adr_sys) : list acpi_adr_pwr * adr_sys :=
  match l with
  | [] => ([], s)
  | ap :: l => let '(ap, s) := restore_entry ap s in
               let '(l, s) := restore_loop l s in (ap :: l, s)
  end.

(** ** Off *)

Definition reset_entry (ap : acpi_adr_pwr) : acpi_adr_pwr :=
  if negb (Nat.eqb (ap_changed ap) NULL) then ap
  else set_ap_state ADRPWR_ABSENT (set_ap_saved false ap).

Definition applied (ok : bool) : adr_state := if ok then ADRPWR_APPLIED else ADRPWR_FAILED.

(** The driver is active or has a device. *)
Definition guarded (ap : acpi_adr_pwr) (h : ACPI_HANDLE) : bool :=
  negb (Z.land (ap_flags ap) ADRPWR_NODRIVER =? 0) && (Z.land acpi_idle_d3_exp 4 =? 0) &&
  match gdv h with Some (active, populated) => active || populated | None => false end.

(** The configuration space kept, and the function put to D3hot. *)
Definition save_conf (ad : anode) (ap : acpi_adr_pwr) (s : adr_sys) : acpi_adr_pwr * adr_sys :=
  match an_pci ad with
  | Some tag =>
      if Z.land (ap_flags ap) ADRPWR_COLD =? 0 then (ap, s) else
      let ap := set_ap_tag tag ap in
      let '(id, s) := pci (PC_read tag PCI_ID_REG) s in
      if pci_present id then
        let '(conf, s) := pci (PC_capture tag) s in
        let ap := set_ap_saved true (set_ap_conf conf ap) in
        let s := pci_ (PC_read tag 0xd8) s in
        (ap, if Z.land acpi_idle_d3_exp 2 =? 0 then pci_ (PC_powerstate tag PCI_PMCSR_STATE_D3) s else s)
      else (ap, s)
  | None => (ap, s)
  end.

Definition target_of (ap : acpi_adr_pwr) (state : Z) : Z :=
  if negb (Z.land (ap_flags ap) ADRPWR_COLD =? 0) then ACPI_STATE_D3_COLD else state.

Definition off_flags (ap : acpi_adr_pwr) (target : Z) : Z :=
  if (target =? ACPI_STATE_D3_COLD) && negb (Z.land (ap_flags ap) ADRPWR_NOPS3 =? 0) &&
     (Z.land acpi_idle_d3_exp 1 =? 0)
  then ACPI_POWER_NOPS3 else 0.

Definition off_entry (ad : anode) (state : Z) (ap : acpi_adr_pwr) (s : adr_sys) : acpi_adr_pwr * adr_sys :=
  let target := target_of ap state in
  if negb (Nat.eqb (ap_changed ap) NULL) then
    if bool_decide (ap_state ap = ADRPWR_FAILED) then
      let '(ok, s) := adr_set (ap_changed ap) target 0 s in (set_ap_state (applied ok) ap, s)
    else (ap, s)
  else if guarded ap (an_handle ad) then (set_ap_state ADRPWR_SKIPPED ap, s)
  else
    let '(ok, old, s) := adr_get (an_handle ad) s in
    if negb ok || (old =? target)
    then (set_ap_state (if old =? target then ADRPWR_ALREADY else ADRPWR_FAILED) ap, s)
    else
      let '(ap, s) := save_conf ad ap s in
      let ap := set_ap_previous old (set_ap_changed (an_handle ad) ap) in
      let '(ok, s) := adr_set (an_handle ad) target (off_flags ap target) s in
      (set_ap_state (applied ok) ap, s).

(** The first entry with the node's address. *)
Fixpoint off_node (ad : anode) (adr state : Z) (l : list acpi_adr_pwr) (s : adr_sys) : list acpi_adr_pwr * adr_sys :=
  match l with
  | [] => ([], s)
  | ap :: l =>
      if negb (u32 adr =? ap_adr ap)
      then let '(l, s) := off_node ad adr state l s in (ap :: l, s)
      else let '(ap, s) := off_entry ad state ap s in (ap :: l, s)
  end.

Fixpoint off_loop (nodes : list anode) (state : Z) (l : list acpi_adr_pwr) (s : adr_sys) : list acpi_adr_pwr * adr_sys :=
  match nodes with
  | [] => (l, s)
  | ad :: nodes =>
      let '(l, s) := match an_adr ad with Some adr => off_node ad adr state l s | None => (l, s) end in
      off_loop nodes state l s
  end.

Definition acpi_adr_power (nodes : list anode) (l : list acpi_adr_pwr) (state : Z) (s : adr_sys) :
    list acpi_adr_pwr * adr_sys :=
  if state =? ACPI_STATE_D0 then
    let '(l, s) := restore_loop l s in (map (set_ap_state ADRPWR_ON) l, s)
  else off_loop nodes state (map reset_entry l) s.

(** ** The groups *)

Record acpi_adr_group := mk_group { ag_table : list acpi_adr_pwr; ag_requested : Z }.

Definition acpi_adr_group_pending (ag : acpi_adr_group) : Z :=
  if ag_requested ag =? 0 then 0
  else Z.of_nat (length (List.filter (fun ap =>
         match ap_state ap with ADRPWR_APPLIED | ADRPWR_ALREADY | ADRPWR_ABSENT => false | _ => true end)
         (ag_table ag))).

(** A write of [t]; the error, the group and the state after. *)
Definition sysctl_hw_acpi_adr_group (nodes : list anode) (freeze_active : bool) (t : Z) (ag : acpi_adr_group) (s : adr_sys) :
    Z * acpi_adr_group * adr_sys :=
  if negb ((t =? 0) || (t =? 1)) then (EINVAL, ag, s)
  else if (t =? 0) && (ag_requested ag =? 0) then (0, ag, s)
  else if freeze_active then (EBUSY, ag, s)
  else
    let '(l, s) := acpi_adr_power nodes (ag_table ag) (if t =? 0 then ACPI_STATE_D0 else ACPI_STATE_D3) s in
    (0, mk_group l t, s).

End adr.

(** ** The tables *)

Definition adr_entry (adr flags : Z) : acpi_adr_pwr := mk_adr adr flags NULL 0 ADRPWR_ON false 0 0.

Definition acpi_idle_table : list acpi_adr_pwr :=
  [adr_entry 0x00050000 ADRPWR_COLD; adr_entry 0x00120000 ADRPWR_COLD;
   adr_entry 0x00160000 ADRPWR_COLD; adr_entry 0x00080000 ADRPWR_COLD].

Definition acpi_tcss_table : list acpi_adr_pwr :=
  [adr_entry 0x000d0002 ADRPWR_COLD; adr_entry 0x000d0003 ADRPWR_COLD;
   adr_entry 0x000d0000 (Z.lor ADRPWR_COLD ADRPWR_NODRIVER);
   adr_entry 0x00070000 (Z.lor ADRPWR_COLD ADRPWR_NOPS3);
   adr_entry 0x00070002 (Z.lor ADRPWR_COLD ADRPWR_NOPS3)].

(** The table of acpi_s2idle_powerdown. *)
Definition s2idle_table : list acpi_adr_pwr :=
  [adr_entry 0x00150000 0; adr_entry 0x00150003 0;
   adr_entry 0x00050000 ADRPWR_COLD; adr_entry 0x00120000 ADRPWR_COLD;
   adr_entry 0x00140000 0; adr_entry 0x000d0000 (Z.lor ADRPWR_COLD ADRPWR_NODRIVER);
   adr_entry 0x00160000 ADRPWR_COLD; adr_entry 0x00080000 ADRPWR_COLD;
   adr_entry 0x000d0002 ADRPWR_COLD; adr_entry 0x000d0003 ADRPWR_COLD;
   adr_entry 0x00070000 (Z.lor ADRPWR_COLD ADRPWR_NOPS3);
   adr_entry 0x00070002 (Z.lor ADRPWR_COLD ADRPWR_NOPS3)].
