(* ===== verification/AdrThms.v ===== *)
(** * What a power group moved is what it restores

    A request off followed by one on, in terms of what acpi_adr_power asked of
    the power resources and of PCI configuration space; and a repeated request
    off. *)

From stdpp Require Import base numbers list.
From S2P Require Import Prelude Sysctl AcpiPower AdrPower.

Section adr.
Context `{FW : Firmware} `{PCI : PciSpace} (gdv : ACPI_HANDLE -> option (bool * bool)) (exp : Z).

(** ** The log *)

(** The events since [s], latest first. *)
Definition since (s s' : adr_sys) (evs : list adr_event) : Prop := a_log s' = evs ++ a_log s.

Lemma since_refl s : since s s [].
Proof. done. Qed.

Lemma since_trans s1 s2 s3 e1 e2 : since s1 s2 e1 -> since s2 s3 e2 -> since s1 s3 (e2 ++ e1).
Proof. unfold since. intros H1 H2. by rewrite H2, H1, app_assoc. Qed.

Lemma adr_set_since h st fl s : since s (adr_set h st fl s).2 [E_set h st fl (adr_set h st fl s).1].
Proof. unfold adr_set. by destruct (acpi_power_set_flags _ _ _ _). Qed.

Lemma adr_get_since h s : since s (adr_get h s).2 [E_get h (adr_get h s).1.1 (adr_get h s).1.2].
Proof. unfold adr_get. by destruct (acpi_power_get _ _) as [[? ?] ?]. Qed.

Lemma adr_get_handle h s : (adr_get h s).1.1 = true -> h <> NULL.
Proof. unfold adr_get, acpi_power_get. destruct (Nat.eqb_spec h NULL); [done|]. done. Qed.

(** ** On *)

(** What restoring an entry asks for, in order. *)
Definition driver_told (h : ACPI_HANDLE) : bool :=
  match fw_node h, gdv h with Some _, Some _ => true | _, _ => false end.

Definition told (h : ACPI_HANDLE) (evs : list adr_event) : Prop :=
  if driver_told h then exists c, evs = [E_pci (PC_power_lost h) c] else evs = [].

(** D0, then the configuration captured, then the driver is told. *)
Definition conf_restored (ap : acpi_adr_pwr) (evs : list adr_event) : Prop :=
  exists a b tail, told (ap_changed ap) tail /\
  evs = E_pci (PC_powerstate (ap_tag ap) PCI_PMCSR_STATE_D0) a :: E_pci (PC_restore (ap_tag ap) (ap_conf ap)) b :: tail.

Definition conf_part (ap : acpi_adr_pwr) (evs : list adr_event) : Prop :=
  if ap_saved ap then exists id tail, evs = E_pci (PC_read (ap_tag ap) PCI_ID_REG) id :: tail /\
    (if pci_present id then conf_restored ap tail else tail = [])
  else evs = [].

Definition restores (ap : acpi_adr_pwr) (evs : list adr_event) : Prop :=
  if Nat.eqb (ap_changed ap) NULL then evs = [] else
  exists ok tail, evs = E_set (ap_changed ap) (ap_previous ap) 0 ok :: tail /\ conf_part ap tail.

(** The entry afterwards. *)
Definition restored (ap : acpi_adr_pwr) : acpi_adr_pwr :=
  if Nat.eqb (ap_changed ap) NULL then ap else set_ap_changed NULL (set_ap_saved false ap).

Lemma restore_entry_spec ap s :
  let '(ap', s') := restore_entry gdv ap s in ap' = restored ap /\ exists evs, restores ap evs /\ since s s' (rev evs).
Proof.
  unfold restore_entry, restores, restored. destruct (Nat.eqb (ap_changed ap) NULL); [split; [done|]; by exists []|].
  pose proof (adr_set_since (ap_changed ap) (ap_previous ap) 0 s) as H1. destruct (adr_set _ _ _ s) as [ok s1]. cbn [fst snd] in H1.
  destruct (ap_saved ap) eqn:Es.
  2:{ split; [unfold set_ap_changed, set_ap_saved; cbn; by rewrite Es|]. eexists. split; [exists ok, []; unfold conf_part; by rewrite Es|exact H1]. }
  unfold pci. cbn. unfold conf_part. rewrite Es. destruct (pci_present _) eqn:Ep.
  2:{ split; [done|]. eexists. split; [eexists ok, _; split; [reflexivity|]; eexists _, _; split; [reflexivity|]; by rewrite Ep|].
      unfold since in *. cbn. by rewrite H1. }
  split; [done|]. unfold conf_restored, told, driver_told, pci_, pci. destruct (fw_node (ap_changed ap)) as [n|], (gdv (ap_changed ap)) as [g|];
    (eexists; split; [eexists ok, _; split; [reflexivity|]; eexists _, _; split; [reflexivity|]; rewrite Ep; eexists _, _, _; split; [|reflexivity]|];
     [first [by eexists|reflexivity]|unfold since in *; cbn; by rewrite H1]).
Qed.

Lemma restore_loop_spec l : forall s,
  let '(l', s') := restore_loop gdv l s in l' = map restored l /\ exists evs, Forall2 restores l evs /\ since s s' (rev (concat evs)).
Proof.
  induction l as [|ap l IH]; intros s; cbn [restore_loop]; [split; [done|]; by exists []|].
  pose proof (restore_entry_spec ap s) as H1. destruct (restore_entry gdv ap s) as [ap' s1]. destruct H1 as (-> & e & He & H1).
  specialize (IH s1). destruct (restore_loop gdv l s1) as [l' s2]. destruct IH as (-> & evs & Hl & H2). split; [done|].
  exists (e :: evs). split; [by constructor|]. cbn [concat]. rewrite rev_app_distr. by eapply since_trans.
Qed.

(** ** Off *)

Context (nodes : list anode) (state : Z).

(** An entry of the table while devices are moved off, by the events so far. *)
Definition moved_by (evs : list adr_event) (ap : acpi_adr_pwr) : Prop :=
  ap_changed ap <> NULL /\
  (exists ad adr, ad ∈ nodes /\ an_handle ad = ap_changed ap /\ an_adr ad = Some adr /\ u32 adr = ap_adr ap) /\
  E_get (ap_changed ap) true (ap_previous ap) ∈ evs /\ ap_previous ap <> target_of ap state /\
  (exists fl ok, E_set (ap_changed ap) (target_of ap state) fl ok ∈ evs) /\
  (ap_saved ap = true -> E_pci (PC_capture (ap_tag ap)) (ap_conf ap) ∈ evs).

Definition unmoved (ap : acpi_adr_pwr) : Prop := ap_changed ap = NULL /\ ap_saved ap = false.

Definition off_inv (l : list acpi_adr_pwr) (evs : list adr_event) : Prop :=
  Forall (fun ap => unmoved ap \/ moved_by evs ap) l /\
  forall h st fl ok, E_set h st fl ok ∈ evs -> exists ap, ap ∈ l /\ ap_changed ap = h /\ h <> NULL.

Lemma moved_by_app evs e ap : moved_by evs ap -> moved_by (e ++ evs) ap.
Proof.
  intros (H1 & H2 & H3 & H4 & (fl & ok & H5) & H6). split; [done|]. split; [done|]. split; [apply elem_of_app; by right|]. split; [done|].
  split; [exists fl, ok; apply elem_of_app; by right|]. intros H. apply elem_of_app. right. by apply H6.
Qed.

Lemma save_conf_spec ad ap s : let '(ap', s') := save_conf exp ad ap s in
  exists evs, since s s' evs /\ (forall h st fl ok, ~ E_set h st fl ok ∈ evs) /\
  ap_adr ap' = ap_adr ap /\ ap_flags ap' = ap_flags ap /\
  (ap_saved ap' = true -> ap_saved ap = false -> E_pci (PC_capture (ap_tag ap')) (ap_conf ap') ∈ evs).
Proof.
  unfold save_conf. destruct (an_pci ad) as [tag|]; [|exists []; split; [done|]; split; [by intros * ?%elem_of_nil|]; naive_solver congruence].
  destruct (_ =? 0); [exists []; split; [done|]; split; [by intros * ?%elem_of_nil|]; naive_solver congruence|].
  unfold pci_, pci. cbn. destruct (pci_present _).
  - destruct (Z.land exp 2 =? 0); (eexists; split; [unfold since; cbn;
      first [exact (eq_refl : _ = [_; _; _; _] ++ a_log s)|exact (eq_refl : _ = [_; _; _] ++ a_log s)]|]);
      (split; [intros * H; rewrite !elem_of_cons, elem_of_nil in H; naive_solver|]); cbn; (split; [done|]); (split; [done|]);
      intros _ _; rewrite !elem_of_cons; naive_solver.
  - eexists. split; [unfold since; cbn; exact (eq_refl : _ = [_] ++ a_log s)|].
    split; [intros * H; rewrite !elem_of_cons, elem_of_nil in H; naive_solver|]. cbn. naive_solver congruence.
Qed.

(** Off again changes of a moved entry at most its status. *)
Lemma off_entry_moved ad ap s : ap_changed ap <> NULL ->
  let '(ap', s') := off_entry gdv exp ad state ap s in
  ap' = set_ap_state (ap_state ap') ap /\
  since s s' (if bool_decide (ap_state ap = ADRPWR_FAILED)
              then [E_set (ap_changed ap) (target_of ap state) 0 (bool_decide (ap_state ap' = ADRPWR_APPLIED))] else []) /\
  (ap_state ap <> ADRPWR_FAILED -> ap' = ap).
Proof.
  intros Hm. unfold off_entry. rewrite (proj2 (Nat.eqb_neq _ _) Hm). cbn [negb]. case_bool_decide as Ef; [|by destruct ap].
  pose proof (adr_set_since (ap_changed ap) (target_of ap state) 0 s) as H. destruct (adr_set _ _ _ s) as [ok s1]. cbn [fst snd] in H.
  split; [done|]. split; [|done]. cbn. by destruct ok.
Qed.

Lemma off_entry_spec ad adr ap s evs l1 l2 : ad ∈ nodes -> an_adr ad = Some adr -> u32 adr = ap_adr ap ->
  off_inv (l1 ++ ap :: l2) evs ->
  let '(ap', s') := off_entry gdv exp ad state ap s in
  exists new, since s s' new /\ off_inv (l1 ++ ap' :: l2) (new ++ evs).
Proof.
  intros Hin Had Hadr [HF HS]. pose proof HF as HF'. apply Forall_app in HF' as [F1 F2]. apply Forall_cons in F2 as [Hap F2].
  assert (forall ap' s' new, since s s' new -> (unmoved ap' \/ moved_by (new ++ evs) ap') ->
    (ap_changed ap <> NULL -> ap_changed ap' = ap_changed ap) ->
    (forall h st fl ok, E_set h st fl ok ∈ new -> ap_changed ap' = h /\ h <> NULL) ->
    exists new, since s s' new /\ off_inv (l1 ++ ap' :: l2) (new ++ evs)) as Hend.
  { intros ap' s' new Hs He Hc Hset. exists new. split; [done|]. split.
    - apply Forall_app. split; [|constructor; [done|]]; (eapply Forall_impl; [eassumption|]); intros x [Hx|Hx]; auto using moved_by_app.
    - intros h st fl ok H. apply elem_of_app in H as [H|H].
      + exists ap'. destruct (Hset _ _ _ _ H). split; [apply elem_of_app; right; by left|done].
      + destruct (HS _ _ _ _ H) as (x & Hx & <- & Hn). apply elem_of_app in Hx as [Hx|[->|Hx]%elem_of_cons].
        * exists x. split; [apply elem_of_app; by left|done].
        * exists ap'. split; [apply elem_of_app; right; by left|]. split; [by apply Hc|done].
        * exists x. split; [apply elem_of_app; right; by right|done]. }
  destruct (decide (ap_changed ap = NULL)) as [Hu|Hm].
  2:{ pose proof (off_entry_moved ad ap s Hm) as H. destruct (off_entry gdv exp ad state ap s) as [ap' s']. destruct H as (E & Hs & _).
      destruct Hap as [[? _]|Hap]; [done|]. eapply Hend; [exact Hs| |by rewrite E|].
      - right. rewrite E. apply (moved_by_app _ _ (set_ap_state _ ap)). exact Hap.
      - intros h st fl ok. rewrite E. case_bool_decide; [|by intros ?%elem_of_nil]. intros [= -> _ _ _]%list_elem_of_singleton. done. }
  assert (ap_saved ap = false) as Hsv by (destruct Hap as [[_ ?]|[? _]]; done).
  unfold off_entry. rewrite Hu. cbn [Nat.eqb negb].
  destruct (guarded _ _ _ _); [by apply (Hend _ s []); [done|left| |intros * ?%elem_of_nil]|].
  pose proof (adr_get_since (an_handle ad) s) as H1. pose proof (adr_get_handle (an_handle ad) s) as Hn.
  destruct (adr_get (an_handle ad) s) as [[ok old] s1]. cbn [fst snd] in H1, Hn.
  destruct (negb ok || (old =? target_of ap state)) eqn:Eb.
  { eapply Hend; [exact H1|by left|done|]. by intros * ?%list_elem_of_singleton. }
  apply orb_false_iff in Eb as [Eo Et%Z.eqb_neq]. apply negb_false_iff in Eo. subst ok.
  pose proof (save_conf_spec ad ap s1) as H2. destruct (save_conf exp ad ap s1) as [ap1 s2]. destruct H2 as (e2 & H2 & N2 & A2 & B2 & C2).
  set (ap2 := set_ap_previous old (set_ap_changed (an_handle ad) ap1)).
  pose proof (adr_set_since (an_handle ad) (target_of ap state) (off_flags exp ap2 (target_of ap state)) s2) as H3.
  destruct (adr_set _ _ _ s2) as [ok s3]. cbn [fst snd] in H3. pose proof (since_trans _ _ _ _ _ (since_trans _ _ _ _ _ H1 H2) H3) as H.
  assert (target_of ap2 state = target_of ap state) as Etg by (unfold target_of; cbn; by rewrite B2).
  eapply Hend; [exact H| |done|].
  - right. unfold moved_by. cbn [ap_changed ap_previous ap_tag ap_conf ap_saved set_ap_state ap2 set_ap_previous set_ap_changed ap_adr].
    change (target_of (set_ap_state (applied ok) ap2) state) with (target_of ap2 state). rewrite Etg.
    split; [by apply Hn|]. split; [exists ad, adr; by rewrite A2|].
    split; [rewrite !elem_of_app, !list_elem_of_singleton; auto|]. split; [done|].
    split; [eexists _, _; rewrite !elem_of_app, !list_elem_of_singleton; auto|].
    intros Hs1. rewrite !elem_of_app. left. right. left. by apply C2.
  - intros h st fl ok' Hin'. apply elem_of_app in Hin' as [[= -> _ _ _]%list_elem_of_singleton|Hin']; [split; [done|by apply Hn]|].
    apply elem_of_app in Hin' as [Hin'|Hin']; [by destruct (N2 _ _ _ _ Hin')|]. by apply list_elem_of_singleton in Hin'.
Qed.

Lemma off_node_spec ad adr l2 : ad ∈ nodes -> an_adr ad = Some adr -> forall l1 s evs, off_inv (l1 ++ l2) evs ->
  let '(l', s') := off_node gdv exp ad adr state l2 s in exists new, since s s' new /\ off_inv (l1 ++ l') (new ++ evs).
Proof.
  intros Hin Had. induction l2 as [|ap l2 IH]; intros l1 s evs H; cbn [off_node]; [by exists []|].
  destruct (Z.eqb_spec (u32 adr) (ap_adr ap)) as [E|E]; cbn [negb].
  - pose proof (off_entry_spec ad adr ap s evs l1 l2 Hin Had E H) as H1. by destruct (off_entry gdv exp ad state ap s) as [ap' s'].
  - specialize (IH (l1 ++ [ap]) s evs). destruct (off_node gdv exp ad adr state l2 s) as [l' s']. rewrite <-!app_assoc in IH. by apply IH.
Qed.

Lemma off_loop_spec ns : (forall ad, ad ∈ ns -> ad ∈ nodes) -> forall l s evs, off_inv l evs ->
  let '(l', s') := off_loop gdv exp ns state l s in exists new, since s s' new /\ off_inv l' (new ++ evs).
Proof.
  induction ns as [|ad ns IH]; intros Hns l s evs H; cbn [off_loop]; [by exists []|].
  assert (let '(l', s') := match an_adr ad with Some adr => off_node gdv exp ad adr state l s | None => (l, s) end in
    exists new, since s s' new /\ off_inv l' (new ++ evs)) as H1.
  { destruct (an_adr ad) as [adr|] eqn:Ea; [|by exists []]. apply (off_node_spec ad adr l (Hns _ ltac:(by left)) Ea [] s evs H). }
  destruct (match an_adr ad with Some adr => _ | None => _ end) as [l1 s1]. destruct H1 as (e1 & S1 & I1).
  specialize (IH (fun x Hx => Hns x ltac:(by right)) l1 s1 _ I1). destruct (off_loop gdv exp ns state l1 s1) as [l2 s2].
  destruct IH as (e2 & S2 & I2). exists (e2 ++ e1). split; [by eapply since_trans|]. by rewrite <-app_assoc.
Qed.

(** The table keeps its entries. *)
Definition same_entry (a b : acpi_adr_pwr) : Prop := ap_adr b = ap_adr a /\ ap_flags b = ap_flags a.

(** What the off pass does to each entry of the table. *)
Definition kept (a b : acpi_adr_pwr) : Prop :=
  same_entry a b /\
  (ap_changed a <> NULL -> b = set_ap_state (ap_state b) a /\ (ap_state a <> ADRPWR_FAILED -> b = a)).

#[local] Instance kept_refl : Reflexive kept.
Proof. intros a. split; [done|]. intros _. by destruct a. Qed.

#[local] Instance kept_trans : Transitive kept.
Proof.
  intros a b c [[A1 A2] A3] [[B1 B2] B3]. split; [split; congruence|]. intros Hm. destruct (A3 Hm) as [A4 A5].
  destruct B3 as [B4 B5]; [by rewrite A4|]. split.
  - rewrite B4, A4. done.
  - intros Hf. rewrite (A5 Hf) in *. by apply B5.
Qed.

Lemma off_entry_kept ad ap s : kept ap (off_entry gdv exp ad state ap s).1.
Proof.
  destruct (decide (ap_changed ap = NULL)) as [Hu|Hm].
  - split; [|done]. unfold off_entry. rewrite Hu. cbn [Nat.eqb negb]. destruct (guarded _ _ _ _); [done|].
    destruct (adr_get _ s) as [[ok old] s1]. destruct (_ || _); [done|]. pose proof (save_conf_spec ad ap s1) as H2.
    destruct (save_conf exp ad ap s1) as [ap1 s2]. destruct H2 as (_ & _ & _ & A2 & B2 & _). by destruct (adr_set _ _ _ s2).
  - pose proof (off_entry_moved ad ap s Hm) as H. destruct (off_entry gdv exp ad state ap s) as [ap' s']. destruct H as (E & _ & H).
    split; [by rewrite E|]. intros _. by split.
Qed.

Lemma off_node_kept ad adr l : forall s, Forall2 kept l (off_node gdv exp ad adr state l s).1.
Proof.
  induction l as [|ap l IH]; intros s; cbn [off_node]; [constructor|]. destruct (negb _).
  - specialize (IH s). destruct (off_node _ _ _ _ _ l s). constructor; [apply kept_refl|done].
  - pose proof (off_entry_kept ad ap s) as H. destruct (off_entry _ _ _ _ ap s). constructor; [done|]. reflexivity.
Qed.

Lemma off_loop_kept ns : forall l s, Forall2 kept l (off_loop gdv exp ns state l s).1.
Proof.
  induction ns as [|ad ns IH]; intros l s; cbn [off_loop]; [reflexivity|].
  destruct (an_adr ad) as [adr|]; [|apply IH]. pose proof (off_node_kept ad adr l s) as H. destruct (off_node _ _ _ _ _ l s) as [l1 s1].
  etrans; [exact H|apply IH].
Qed.

Lemma reset_kept ap : kept ap (reset_entry ap).
Proof. unfold reset_entry. destruct (Nat.eqb_spec (ap_changed ap) NULL) as [E|E]; cbn [negb]; [split; done|apply kept_refl]. Qed.

Lemma off_kept l s : Forall2 kept l (off_loop gdv exp nodes state (map reset_entry l) s).1.
Proof.
  etrans; [|apply off_loop_kept]. apply Forall2_fmap_r, Forall_Forall2_diag, Forall_true, reset_kept.
Qed.

Lemma off_starts l : Forall (fun ap => ap_changed ap = NULL) l -> off_inv (map reset_entry l) [].
Proof.
  intros H. split; [|by intros * ?%elem_of_nil]. apply Forall_map. eapply Forall_impl; [exact H|]. intros ap E. left.
  unfold reset_entry. rewrite E. done.
Qed.

End adr.

Section claims.
Context `{FW : Firmware} `{PCI : PciSpace}.

(** Turning a power group off and on again sets back exactly the devices the first pass
    moved, each to the state it was in, with its configuration space captured before the
    cold state and restored after it and its driver told; devices already off or guarded
    by a driver are left alone. *)
Theorem adr_power_restores_what_it_moved gdv gdv' exp exp' nodes nodes' state l s l1 s1 s2 l2 s3 :
  Forall (fun ap => ap_changed ap = NULL) l -> state <> ACPI_STATE_D0 ->
  acpi_adr_power gdv exp nodes l state s = (l1, s1) -> acpi_adr_power gdv' exp' nodes' l1 ACPI_STATE_D0 s2 = (l2, s3) ->
  exists off evs, since s s1 off /\ since s2 s3 (rev (concat evs)) /\
    Forall (fun ap => unmoved ap \/ moved_by nodes state off ap) l1 /\
    (forall h st fl ok, E_set h st fl ok ∈ off -> exists ap, ap ∈ l1 /\ ap_changed ap = h /\ h <> NULL) /\
    Forall2 (restores gdv') l1 evs /\
    Forall2 (fun a b => same_entry a b /\ unmoved b /\ ap_state b = ADRPWR_ON) l l2.
Proof.
  intros Hl Hs E1 E2. unfold acpi_adr_power in *. rewrite (proj2 (Z.eqb_neq _ _) Hs) in E1. cbn [ACPI_STATE_D0 Z.eqb] in E2.
  pose proof (off_loop_spec gdv exp nodes state nodes (fun _ H => H) (map reset_entry l) s [] (off_starts nodes state l Hl)) as H1.
  pose proof (off_kept gdv exp nodes state l s) as K. rewrite E1 in H1, K. destruct H1 as (off & S1 & I1 & I2). rewrite app_nil_r in *.
  pose proof (restore_loop_spec gdv' l1 s2) as H2. destruct (restore_loop gdv' l1 s2) as [l3 s4]. destruct H2 as (-> & evs & R & S2).
  injection E2 as <- <-. exists off, evs. do 5 (split; [done|]). cbn [fst] in K. clear -K I1.
  induction K as [|a b l l1 Hab K IH]; [constructor|]. apply Forall_cons in I1 as [Hb I1]. constructor; [|by apply IH].
  destruct Hab as [[A1 A2] _]. unfold restored, unmoved in *. destruct (Nat.eqb_spec (ap_changed b) NULL) as [E|E]; [|done].
  destruct Hb as [[_ Hb]|[? _]]; [done|done].
Qed.

(** A repeated request off leaves the entries already moved alone and retries those that
    failed, but without the ACPI_POWER_NOPS3 flag of the first attempt. *)
Theorem adr_power_retries_only_failed gdv exp nodes state l s l1 s1 ad ap t : state <> ACPI_STATE_D0 ->
  acpi_adr_power gdv exp nodes l state s = (l1, s1) -> ap_changed ap <> NULL ->
  Forall2 (fun a b => ap_changed a <> NULL -> b = set_ap_state (ap_state b) a /\ (ap_state a <> ADRPWR_FAILED -> b = a)) l l1 /\
  let '(ap', t') := off_entry gdv exp ad state ap t in
  since t t' (if bool_decide (ap_state ap = ADRPWR_FAILED)
              then [E_set (ap_changed ap) (target_of ap state) 0 (bool_decide (ap_state ap' = ADRPWR_APPLIED))] else []).
Proof.
  intros Hs E Hm. split.
  - unfold acpi_adr_power in E. rewrite (proj2 (Z.eqb_neq _ _) Hs) in E. pose proof (off_kept gdv exp nodes state l s) as K. rewrite E in K.
    eapply Forall2_impl; [exact K|]. intros a b [_ H]. exact H.
  - pose proof (off_entry_moved gdv exp state ad ap t Hm) as H. destruct (off_entry gdv exp ad state ap t) as [ap' t']. apply H.
Qed.

End claims.
