(* ===== verification/Device.v ===== *)
(** * Devices and device iterators

    The device list of kernel/kern/subr_autoconf.c: its generations, the
    iterators that walk it root first, leaves first or backwards, and what
    attaching and detaching do to it under a walk. *)

From stdpp Require Import base numbers strings list.
From S2P Require Import Prelude Sysctl.

(** ** Devices *)

(** A [device_suspensor_t] with its chain of delegators. *)
Inductive device_suspensor_t :=
  | DS (ds_name : string)
  | DS_delegated (ds_name : string) (ds_delegator : device_suspensor_t).

#[export] Instance device_suspensor_eq_dec : EqDecision device_suspensor_t.
Proof. solve_decision. Defined.

(** The handlers that are not NULL. *)
Record hooks := mk_hooks {
  has_class_suspend : bool;
  has_class_resume : bool;
  has_driver_suspend : bool;
  has_driver_resume : bool;
  has_bus_suspend : bool;
  has_bus_resume : bool
}.

(** [dv_flags] as one boolean per flag. *)
Record device := mk_device {
  dv_ptr : nat;  (* the device_t *)
  dv_xname : string;
  dv_parent : option nat;
  dv_depth : Z;
  dv_add_gen : Z;
  dv_del_gen : Z;
  dv_active : bool;  (* DVF_ACTIVE *)
  dv_power_handlers : bool;  (* DVF_POWER_HANDLERS *)
  dv_class_suspended : bool;
  dv_driver_suspended : bool;
  dv_bus_suspended : bool;
  dv_class_suspensors : list (option device_suspensor_t);
  dv_driver_suspensors : list (option device_suspensor_t);
  dv_bus_suspensors : list (option device_suspensor_t);
  dv_hooks : hooks;
  dv_nlock : Z;  (* dv_lock.dvl_nlock *)
  dv_holder : option nat  (* dv_lock.dvl_holder *)
}.

Definition set_dv_add_gen (v : Z) (r : device) : device :=
  mk_device (dv_ptr r) (dv_xname r) (dv_parent r) (dv_depth r) v (dv_del_gen
    r) (dv_active r) (dv_power_handlers r) (dv_class_suspended r)
    (dv_driver_suspended r) (dv_bus_suspended r) (dv_class_suspensors r)
    (dv_driver_suspensors r) (dv_bus_suspensors r) (dv_hooks r) (dv_nlock r)
    (dv_holder r).
Definition set_dv_del_gen (v : Z) (r : device) : device :=
  mk_device (dv_ptr r) (dv_xname r) (dv_parent r) (dv_depth r) (dv_add_gen r)
    v (dv_active r) (dv_power_handlers r) (dv_class_suspended r)
    (dv_driver_suspended r) (dv_bus_suspended r) (dv_class_suspensors r)
    (dv_driver_suspensors r) (dv_bus_suspensors r) (dv_hooks r) (dv_nlock r)
    (dv_holder r).
Definition set_dv_active (v : bool) (r : device) : device :=
  mk_device (dv_ptr r) (dv_xname r) (dv_parent r) (dv_depth r) (dv_add_gen r)
    (dv_del_gen r) v (dv_power_handlers r) (dv_class_suspended r)
    (dv_driver_suspended r) (dv_bus_suspended r) (dv_class_suspensors r)
    (dv_driver_suspensors r) (dv_bus_suspensors r) (dv_hooks r) (dv_nlock r)
    (dv_holder r).
Definition set_dv_power_handlers (v : bool) (r : device) : device :=
  mk_device (dv_ptr r) (dv_xname r) (dv_parent r) (dv_depth r) (dv_add_gen r)
    (dv_del_gen r) (dv_active r) v (dv_class_suspended r) (dv_driver_suspended
    r) (dv_bus_suspended r) (dv_class_suspensors r) (dv_driver_suspensors r)
    (dv_bus_suspensors r) (dv_hooks r) (dv_nlock r) (dv_holder r).
Definition set_dv_class_suspended (v : bool) (r : device) : device :=
  mk_device (dv_ptr r) (dv_xname r) (dv_parent r) (dv_depth r) (dv_add_gen r)
    (dv_del_gen r) (dv_active r) (dv_power_handlers r) v (dv_driver_suspended
    r) (dv_bus_suspended r) (dv_class_suspensors r) (dv_driver_suspensors r)
    (dv_bus_suspensors r) (dv_hooks r) (dv_nlock r) (dv_holder r).
Definition set_dv_driver_suspended (v : bool) (r : device) : device :=
  mk_device (dv_ptr r) (dv_xname r) (dv_parent r) (dv_depth r) (dv_add_gen r)
    (dv_del_gen r) (dv_active r) (dv_power_handlers r) (dv_class_suspended r)
    v (dv_bus_suspended r) (dv_class_suspensors r) (dv_driver_suspensors r)
    (dv_bus_suspensors r) (dv_hooks r) (dv_nlock r) (dv_holder r).
Definition set_dv_bus_suspended (v : bool) (r : device) : device :=
  mk_device (dv_ptr r) (dv_xname r) (dv_parent r) (dv_depth r) (dv_add_gen r)
    (dv_del_gen r) (dv_active r) (dv_power_handlers r) (dv_class_suspended r)
    (dv_driver_suspended r) v (dv_class_suspensors r) (dv_driver_suspensors r)
    (dv_bus_suspensors r) (dv_hooks r) (dv_nlock r) (dv_holder r).
Definition set_dv_class_suspensors (v : list (option device_suspensor_t)) (r : device) : device :=
  mk_device (dv_ptr r) (dv_xname r) (dv_parent r) (dv_depth r) (dv_add_gen r)
    (dv_del_gen r) (dv_active r) (dv_power_handlers r) (dv_class_suspended r)
    (dv_driver_suspended r) (dv_bus_suspended r) v (dv_driver_suspensors r)
    (dv_bus_suspensors r) (dv_hooks r) (dv_nlock r) (dv_holder r).
Definition set_dv_driver_suspensors (v : list (option device_suspensor_t)) (r : device) : device :=
  mk_device (dv_ptr r) (dv_xname r) (dv_parent r) (dv_depth r) (dv_add_gen r)
    (dv_del_gen r) (dv_active r) (dv_power_handlers r) (dv_class_suspended r)
    (dv_driver_suspended r) (dv_bus_suspended r) (dv_class_suspensors r) v
    (dv_bus_suspensors r) (dv_hooks r) (dv_nlock r) (dv_holder r).
Definition set_dv_bus_suspensors (v : list (option device_suspensor_t)) (r : device) : device :=
  mk_device (dv_ptr r) (dv_xname r) (dv_parent r) (dv_depth r) (dv_add_gen r)
    (dv_del_gen r) (dv_active r) (dv_power_handlers r) (dv_class_suspended r)
    (dv_driver_suspended r) (dv_bus_suspended r) (dv_class_suspensors r)
    (dv_driver_suspensors r) v (dv_hooks r) (dv_nlock r) (dv_holder r).
Definition set_dv_hooks (v : hooks) (r : device) : device :=
  mk_device (dv_ptr r) (dv_xname r) (dv_parent r) (dv_depth r) (dv_add_gen r)
    (dv_del_gen r) (dv_active r) (dv_power_handlers r) (dv_class_suspended r)
    (dv_driver_suspended r) (dv_bus_suspended r) (dv_class_suspensors r)
    (dv_driver_suspensors r) (dv_bus_suspensors r) v (dv_nlock r) (dv_holder
    r).
Definition set_dv_nlock (v : Z) (r : device) : device :=
  mk_device (dv_ptr r) (dv_xname r) (dv_parent r) (dv_depth r) (dv_add_gen r)
    (dv_del_gen r) (dv_active r) (dv_power_handlers r) (dv_class_suspended r)
    (dv_driver_suspended r) (dv_bus_suspended r) (dv_class_suspensors r)
    (dv_driver_suspensors r) (dv_bus_suspensors r) (dv_hooks r) v (dv_holder
    r).
Definition set_dv_holder (v : option nat) (r : device) : device :=
  mk_device (dv_ptr r) (dv_xname r) (dv_parent r) (dv_depth r) (dv_add_gen r)
    (dv_del_gen r) (dv_active r) (dv_power_handlers r) (dv_class_suspended r)
    (dv_driver_suspended r) (dv_bus_suspended r) (dv_class_suspensors r)
    (dv_driver_suspensors r) (dv_bus_suspensors r) (dv_hooks r) (dv_nlock r)
    v.

(** The device list with its generation and its readers and writers. *)
Record autoconf := mk_ac {
  alldevs : list device;
  alldevs_gen : Z;
  alldevs_nread : Z;
  alldevs_nwrite : Z;
  alldevs_garbage : bool
}.

Definition set_alldevs (v : list device) (r : autoconf) : autoconf :=
  mk_ac v (alldevs_gen r) (alldevs_nread r) (alldevs_nwrite r)
    (alldevs_garbage r).
Definition set_alldevs_gen (v : Z) (r : autoconf) : autoconf :=
  mk_ac (alldevs r) v (alldevs_nread r) (alldevs_nwrite r) (alldevs_garbage
    r).
Definition set_alldevs_nread (v : Z) (r : autoconf) : autoconf :=
  mk_ac (alldevs r) (alldevs_gen r) v (alldevs_nwrite r) (alldevs_garbage r).
Definition set_alldevs_nwrite (v : Z) (r : autoconf) : autoconf :=
  mk_ac (alldevs r) (alldevs_gen r) (alldevs_nread r) v (alldevs_garbage r).
Definition set_alldevs_garbage (v : bool) (r : autoconf) : autoconf :=
  mk_ac (alldevs r) (alldevs_gen r) (alldevs_nread r) (alldevs_nwrite r) v.

Definition on_dev (p : nat) (f : device -> device) (l : list device) : list device :=
  map (fun d => if Nat.eqb (dv_ptr d) p then f d else d) l.

Definition dev_at (p : nat) (l : list device) : option device :=
  List.find (fun d => Nat.eqb (dv_ptr d) p) l.

(** ** The list *)

(** [TAILQ_NEXT]. *)
Fixpoint dev_next (p : nat) (l : list device) : option nat :=
  match l with
  | [] => None
  | d :: l => if Nat.eqb (dv_ptr d) p then dv_ptr <$> head l else dev_next p l
  end.

Definition config_devlink (d : device) (s : autoconf) : autoconf :=
  set_alldevs (alldevs s ++ [set_dv_add_gen (alldevs_gen s) d]) s.

(** Off the list, to the garbage. *)
Definition config_devunlink (p : nat) (s : autoconf) : autoconf :=
  set_alldevs (List.filter (fun d => negb (Nat.eqb (dv_ptr d) p)) (alldevs s)) s.

Definition idle_list (s : autoconf) : bool := (alldevs_nwrite s =? 0) && (alldevs_nread s =? 0).

(** One turn unlinks the first deleted device. *)
Fixpoint collect_loop (n : nat) (s : autoconf) : autoconf :=
  match n with
  | O => s
  | S n =>
      if idle_list s && alldevs_garbage s then
        match List.find (fun d => negb (dv_del_gen d =? 0)) (alldevs s) with
        | None => set_alldevs_garbage false s
        | Some d => collect_loop n (config_devunlink (dv_ptr d) s)
        end
      else s
  end.

Definition config_collect_garbage (s : autoconf) : autoconf := collect_loop (S (length (alldevs s))) s.

(** What config_detach_release does to the list around the driver's detach. *)
Definition detach_begin (p : nat) (s : autoconf) : Z * autoconf :=
  match dev_at p (alldevs s) with
  | Some d => if negb (dv_del_gen d =? 0) then (ENOENT, s) else (0, set_alldevs_nwrite (alldevs_nwrite s + 1) s)
  | None => (0, set_alldevs_nwrite (alldevs_nwrite s + 1) s)
  end.

Definition detach_end (p : nat) (rv : Z) (s : autoconf) : autoconf :=
  let s := if rv =? 0 then set_alldevs (on_dev p (set_dv_active false) (alldevs s)) s else s in
  let s := config_collect_garbage s in
  let s := set_alldevs_nwrite (alldevs_nwrite s - 1) s in
  if (rv =? 0) && match dev_at p (alldevs s) with Some d => dv_del_gen d =? 0 | None => false end then
    if idle_list s then config_devunlink p s
    else set_alldevs_garbage true (set_alldevs (on_dev p (set_dv_del_gen (alldevs_gen s)) (alldevs s)) s)
  else s.

(** ** Iterators *)

Record deviter_flags := mk_flags {
  DEVITER_F_RW : bool;
  DEVITER_F_SHUTDOWN : bool;
  DEVITER_F_LEAVES_FIRST : bool;
  DEVITER_F_ROOT_FIRST : bool
}.

Record deviter_t := mk_di {
  di_rw : bool;
  di_leaves : bool;
  di_root : bool;
  di_gen : Z;
  di_curdepth : Z;
  di_maxdepth : Z;
  di_prev : option nat
}.

Definition set_di_curdepth (v : Z) (r : deviter_t) : deviter_t :=
  mk_di (di_rw r) (di_leaves r) (di_root r) (di_gen r) v (di_maxdepth r)
    (di_prev r).
Definition set_di_prev (v : option nat) (r : deviter_t) : deviter_t :=
  mk_di (di_rw r) (di_leaves r) (di_root r) (di_gen r) (di_curdepth r)
    (di_maxdepth r) v.

(** Return true iff the device exists at generation [gen]. *)
Definition device_exists_at (d : device) (gen : Z) : bool :=
  ((dv_del_gen d =? 0) || (gen <? dv_del_gen d)) && (dv_add_gen d <=? gen).

Definition deviter_visits (di : deviter_t) (d : device) : bool := device_exists_at d (di_gen di).

(** The list in the direction of the walk. *)
Definition view (di : deviter_t) (s : autoconf) : list device :=
  if di_rw di then reverse (alldevs s) else alldevs s.

Definition deviter_reinit (s : autoconf) (di : deviter_t) : deviter_t :=
  set_di_prev (dv_ptr <$> head (view di s)) di.

Definition max_depth (l : list device) : Z := fold_left (fun m d => Z.max m (dv_depth d)) l 0.

Definition deviter_init (fl : deviter_flags) (s : autoconf) : deviter_t * autoconf :=
  let rw := DEVITER_F_RW fl || DEVITER_F_SHUTDOWN fl in
  let gen := alldevs_gen s in
  let s := if rw then set_alldevs_nwrite (alldevs_nwrite s + 1) s
           else set_alldevs_nread (alldevs_nread s + 1) s in
  let s := set_alldevs_gen (gen + 1) s in
  let depth := max_depth (List.filter (fun d => device_exists_at d gen) (alldevs s)) in
  let leaves := DEVITER_F_LEAVES_FIRST fl in
  let root := DEVITER_F_ROOT_FIRST fl in
  let di := mk_di rw leaves root gen
              (if leaves && negb root then depth else 0) (if root && negb leaves then depth else 0) None in
  (deviter_reinit s di, s).

Definition deviter_next2 (s : autoconf) (di : deviter_t) : option device * deviter_t :=
  match di_prev di with
  | None => (None, di)
  | Some p => (dev_at p (alldevs s), set_di_prev (dev_next p (view di s)) di)
  end.

Fixpoint next1 (n : nat) (s : autoconf) (di : deviter_t) : option device * deviter_t :=
  match n with
  | O => (None, di)
  | S n =>
      let '(dv, di) := deviter_next2 s di in
      match dv with
      | Some d => if deviter_visits di d then (Some d, di) else next1 n s di
      | None => (None, di)
      end
  end.

Definition deviter_next1 (s : autoconf) (di : deviter_t) : option device * deviter_t :=
  next1 (S (length (alldevs s))) s di.

(** The loops by depth; [step] is -1 or 1 and [more] their condition. *)
Fixpoint next_depth (n : nat) (step : Z) (more : deviter_t -> bool) (s : autoconf) (di : deviter_t) : option device * deviter_t :=
  match n with
  | O => (None, di)
  | S n =>
      if negb (more di) then (None, di) else
      let '(dv, di) := deviter_next1 s di in
      match dv with
      | None => next_depth n step more s (deviter_reinit s (set_di_curdepth (di_curdepth di + step) di))
      | Some d => if dv_depth d =? di_curdepth di then (Some d, di) else next_depth n step more s di
      end
  end.

Definition leaves_more (di : deviter_t) : bool := 0 <=? di_curdepth di.
Definition root_more (di : deviter_t) : bool := di_curdepth di <=? di_maxdepth di.

(** Turns of the loop: each depth left, with every device of the list. *)
Definition turns (levels : Z) (s : autoconf) : nat := S (Z.to_nat levels * S (length (alldevs s))).

Definition deviter_next (s : autoconf) (di : deviter_t) : option device * deviter_t :=
  match di_leaves di, di_root di with
  | false, false => deviter_next1 s di
  | true, false => next_depth (turns (di_curdepth di + 1) s) (-1) leaves_more s di
  | false, true => next_depth (turns (di_maxdepth di + 1 - di_curdepth di) s) 1 root_more s di
  | true, true => (None, di)
  end.

Definition deviter_first (fl : deviter_flags) (s : autoconf) : option device * deviter_t * autoconf :=
  let '(di, s) := deviter_init fl s in
  let '(dv, di) := deviter_next s di in (dv, di, s).

Definition deviter_release (di : deviter_t) (s : autoconf) : autoconf :=
  if di_rw di then set_alldevs_nwrite (alldevs_nwrite s - 1) s else set_alldevs_nread (alldevs_nread s - 1) s.

(** ** Loops over the devices *)

Section loop.
Context {S : Type} (get : S -> autoconf) (put : autoconf -> S -> S).

(** The body answers whether the loop goes on. *)
Fixpoint for_next (n : nat) (body : nat -> S -> bool * S) (dv : option device) (di : deviter_t) (s : S) : deviter_t * S :=
  match n, dv with
  | Datatypes.S n, Some d =>
      let '(go, s) := body (dv_ptr d) s in
      if go then let '(dv, di) := deviter_next (get s) di in for_next n body dv di s
      else (di, s)
  | _, _ => (di, s)
  end.

(** [for (dv = deviter_first(&di, fl); dv != NULL; dv = deviter_next(&di))],
    then deviter_release. *)
Definition for_devices (fl : deviter_flags) (body : nat -> S -> bool * S) (s : S) : S :=
  let '(dv, di, ac) := deviter_first fl (get s) in
  let '(di, s) := for_next (Datatypes.S (length (alldevs ac))) body dv di (put ac s) in
  put (deviter_release di (get s)) s.

End loop.

Definition DEVITER_ALL : deviter_flags := mk_flags false false false false.
Definition DEVITER_LEAVES : deviter_flags := mk_flags false false true false.
Definition DEVITER_ROOT : deviter_flags := mk_flags false false false true.
