(* ===== verification/DeviterThms.v ===== *)
(** * A walk visits each device once, in order

    An iterator of Device.v returns the devices that existed when it was
    initialised, each once and by depth, whatever is attached, detached or
    collected between its steps. *)

From stdpp Require Import base numbers strings list sorting.
From S2P Require Import Prelude Sysctl Device.

(** ** The cursor *)

Section cursor.
Context (s : autoconf).

(** What is left of the list in the direction of the walk. *)
Definition at_cur (di : deviter_t) (c : list device) : Prop :=
  exists pre, view di s = pre ++ c /\ di_prev di = dv_ptr <$> head c.

Definition unseen (di : deviter_t) (d : device) : Prop := deviter_visits di d = false.

Lemma view_elem di d : d ∈ view di s <-> d ∈ alldevs s.
Proof. unfold view. destruct (di_rw di); [apply elem_of_reverse|done]. Qed.

Lemma view_nodup di : NoDup (map dv_ptr (alldevs s)) -> NoDup (map dv_ptr (view di s)).
Proof. unfold view. destruct (di_rw di); [|done]. by rewrite reverse_Permutation. Qed.

Lemma dev_next_at p pre d c : NoDup (map dv_ptr (pre ++ d :: c)) -> dv_ptr d = p ->
  dev_next p (pre ++ d :: c) = dv_ptr <$> head c.
Proof.
  intros Hnd <-. induction pre as [|x pre IH]; cbn [app dev_next]; [by rewrite Nat.eqb_refl|].
  cbn [app map] in Hnd. apply NoDup_cons in Hnd as [Hx Hnd]. destruct (Nat.eqb_spec (dv_ptr x) (dv_ptr d)) as [E|]; [|by apply IH].
  destruct Hx. rewrite E, map_app, elem_of_app. right. by left.
Qed.

Lemma dev_at_elem l d : NoDup (map dv_ptr l) -> d ∈ l -> dev_at (dv_ptr d) l = Some d.
Proof.
  unfold dev_at. induction l as [|x l IH]; intros Hnd Hd; [by apply elem_of_nil in Hd|]. cbn [List.find].
  cbn [map] in Hnd. apply NoDup_cons in Hnd as [Hx Hnd]. apply elem_of_cons in Hd as [->|Hd].
  - by rewrite Nat.eqb_refl.
  - destruct (Nat.eqb_spec (dv_ptr x) (dv_ptr d)) as [E|]; [|by apply IH]. destruct Hx. rewrite E. by apply list_elem_of_fmap_2.
Qed.

(** [deviter_next1]: the next device that the iterator visits. *)
Lemma next1_spec : NoDup (map dv_ptr (alldevs s)) -> forall n di c, at_cur di c -> (length c < n)%nat ->
  exists r c', next1 n s di = (r, set_di_prev (dv_ptr <$> head c') di) /\ at_cur (set_di_prev (dv_ptr <$> head c') di) c' /\
  match r with
  | Some d => exists pre, c = pre ++ d :: c' /\ Forall (unseen di) pre /\ deviter_visits di d = true
  | None => c' = [] /\ Forall (unseen di) c
  end.
Proof.
  intros Hnd. induction n as [|n IH]; intros di c Hc Hn; [lia|]. destruct Hc as (pre & Hv & Hp). cbn [next1].
  unfold deviter_next2. rewrite Hp. destruct c as [|d c]; cbn [head fmap option_fmap option_map].
  { exists None, []. cbn. destruct di; cbn in *; subst. split; [done|]. split; [|done]. exists pre. done. }
  pose proof (view_nodup di Hnd) as Hvn. rewrite Hv in Hvn.
  assert (dev_at (dv_ptr d) (alldevs s) = Some d) as ->.
  { apply dev_at_elem; [done|]. rewrite <-(view_elem di), Hv, elem_of_app. right. by left. }
  rewrite Hv, (dev_next_at _ _ _ _ Hvn eq_refl). set (di1 := set_di_prev (dv_ptr <$> head c) di).
  assert (at_cur di1 c) as H1. { exists (pre ++ [d]). split; [|done]. rewrite <-app_assoc. exact Hv. }
  destruct (deviter_visits di1 d) eqn:Ev.
  - exists (Some d), c. split; [done|]. split; [done|]. by exists [].
  - destruct (IH di1 c H1) as (r & c' & E & Hc' & Hr); [cbn in Hn; lia|]. exists r, c'. split; [exact E|]. split; [exact Hc'|].
    destruct r as [x|].
    + destruct Hr as (pre' & -> & Hpre & Hx). exists (d :: pre'). split; [done|]. split; [by constructor|done].
    + destruct Hr as [-> Hr]. split; [done|]. by constructor.
Qed.

End cursor.

(** ** What a walk still has to return *)

Definition key (d : device) : nat * Z := (dv_ptr d, dv_depth d).
Definition seen (di : deviter_t) (l : list device) : list (nat * Z) := map key (List.filter (deviter_visits di) l).
Definition at_depth (ks : list (nat * Z)) (c : Z) : list (nat * Z) := List.filter (fun k => k.2 =? c) ks.
Definition by_depth (cs : list Z) (ks : list (nat * Z)) : list (nat * Z) := concat (map (at_depth ks) cs).

Lemma seen_app di a b : seen di (a ++ b) = seen di a ++ seen di b.
Proof. unfold seen. by rewrite List.filter_app, map_app. Qed.

Lemma seen_unseen di l : Forall (unseen di) l -> seen di l = [].
Proof.
  unfold seen, unseen. induction 1 as [|d l H _ IH]; [done|]. cbn [List.filter]. by rewrite H.
Qed.

Lemma at_depth_app a b c : at_depth (a ++ b) c = at_depth a c ++ at_depth b c.
Proof. apply List.filter_app. Qed.

Section depth.
Context (s : autoconf) (Hnd : NoDup (map dv_ptr (alldevs s))).
Context (step : Z) (more : deviter_t -> bool) (levels : deviter_t -> list Z).

(** The loop goes on with the levels in turn. *)
Definition next_level (di : deviter_t) : deviter_t := set_di_curdepth (di_curdepth di + step) di.
Context (Hmore : forall di p, more (set_di_prev p di) = more di) (Hlev0 : forall di p, levels (set_di_prev p di) = levels di)
  (Hlev : forall di, more di = true ->
     levels di = if more (next_level di) then di_curdepth (next_level di) :: levels (next_level di) else []).

Definition pend (di : deviter_t) (c : list device) : list (nat * Z) :=
  if more di then at_depth (seen di c) (di_curdepth di) ++ by_depth (levels di) (seen di (view di s)) else [].

Definition same_walk (di di' : deviter_t) : Prop :=
  di_rw di' = di_rw di /\ di_leaves di' = di_leaves di /\ di_root di' = di_root di /\ di_gen di' = di_gen di /\
  di_maxdepth di' = di_maxdepth di.

Lemma pend_prev di p c : pend (set_di_prev p di) c = pend di c.
Proof. unfold pend. by rewrite Hmore, Hlev0. Qed.

Lemma reinit_cur di : at_cur s (deviter_reinit s di) (view di s).
Proof. by exists []. Qed.

Lemma length_view di : length (view di s) = length (alldevs s).
Proof. unfold view. destruct (di_rw di); [apply length_reverse|done]. Qed.

Lemma cur_le di c : at_cur s di c -> (length c <= length (alldevs s))%nat.
Proof. intros (pre & Hv & _). rewrite <-(length_view di), Hv, length_app. lia. Qed.

(** A level that is over. *)
Lemma pend_next_level di c : Forall (unseen di) c -> more di = true ->
  pend di c = pend (deviter_reinit s (next_level di)) (view di s).
Proof.
  intros Hc Hm. unfold deviter_reinit. rewrite pend_prev. unfold pend. rewrite Hm, (seen_unseen _ _ Hc), (Hlev di Hm).
  cbn [at_depth List.filter app]. by destruct (more (next_level di)).
Qed.

Lemma next_depth_spec n : forall di c, at_cur s di c -> (more di = true -> (length c + 1 + length (levels di) * S (length (alldevs s)) < n)%nat) ->
  (0 < n)%nat ->
  exists r c' di', next_depth n step more s di = (r, di') /\ at_cur s di' c' /\ same_walk di di' /\
  match r with Some d => pend di c = key d :: pend di' c' | None => pend di c = [] /\ pend di' c' = [] end.
Proof.
  induction n as [|n IH]; intros di c Hc Hf Hn; [lia|]. cbn [next_depth]. destruct (more di) eqn:Hm; cbn [negb].
  2:{ exists None, c, di. assert (pend di c = []) as -> by (unfold pend; by rewrite Hm). done. }
  specialize (Hf eq_refl). destruct (next1_spec s Hnd (S (length (alldevs s))) di c Hc) as (r & c' & E & Hc' & Hr).
  { apply cur_le in Hc. lia. }
  unfold deviter_next1. rewrite E. set (di1 := set_di_prev (dv_ptr <$> head c') di) in *. destruct r as [d|].
  - destruct Hr as (pre & -> & Hpre & Hd).
    assert (pend di (pre ++ d :: c') = (if dv_depth d =? di_curdepth di then [key d] else []) ++ pend di1 c') as Hp.
    { unfold di1. rewrite pend_prev. unfold pend. rewrite Hm, seen_app, (seen_unseen _ _ Hpre). cbn [app].
      unfold seen at 1. cbn [List.filter]. rewrite Hd. cbn [map at_depth List.filter key snd].
      by destruct (dv_depth d =? di_curdepth di). }
    change (di_curdepth di1) with (di_curdepth di). destruct (dv_depth d =? di_curdepth di).
    + exists (Some d), c', di1. split; [done|]. split; [done|]. split; [done|]. exact Hp.
    + destruct (IH di1 c' Hc') as (r & c2 & di2 & E2 & H2 & W2 & R2).
      * intros _. unfold di1. rewrite Hlev0. rewrite length_app in Hf. cbn [length] in Hf. lia.
      * lia.
      * exists r, c2, di2. rewrite Hp. split; [done|]. split; [done|]. split; [exact W2|]. exact R2.
  - destruct Hr as [-> Hr]. set (di2 := deviter_reinit s (set_di_curdepth (di_curdepth di1 + step) di1)).
    assert (di2 = deviter_reinit s (next_level di)) as -> by done.
    destruct (IH (deviter_reinit s (next_level di)) (view di s)) as (r & c2 & di2' & E2 & H2 & W2 & R2).
    + apply (reinit_cur (next_level di)).
    + intros Hm2. unfold deviter_reinit in Hm2 |- *. rewrite Hmore in Hm2. rewrite Hlev0. rewrite (Hlev di Hm), Hm2 in Hf.
      rewrite length_view. cbn [length] in Hf. lia.
    + lia.
    + exists r, c2, di2'. rewrite (pend_next_level di c Hr Hm). split; [done|]. split; [done|]. split; [exact W2|]. exact R2.
Qed.

End depth.

(** ** One step of each kind of walk *)

Definition leaves_levels (di : deviter_t) : list Z := reverse (seqZ 0 (di_curdepth di)).
Definition root_levels (di : deviter_t) : list Z := seqZ (di_curdepth di + 1) (di_maxdepth di - di_curdepth di).

Lemma leaves_levels_next di : leaves_more di = true ->
  leaves_levels di = if leaves_more (next_level (-1) di) then di_curdepth (next_level (-1) di) :: leaves_levels (next_level (-1) di) else [].
Proof.
  unfold leaves_more, leaves_levels, next_level. cbn [di_curdepth set_di_curdepth]. intros H%Z.leb_le.
  destruct (Z.leb_spec 0 (di_curdepth di + -1)) as [Hc|Hc].
  - replace (di_curdepth di) with (di_curdepth di + -1 + 1) at 1 by lia. rewrite seqZ_app by lia.
    rewrite reverse_app. done.
  - by replace (di_curdepth di) with 0 by lia.
Qed.

Lemma root_levels_next di : root_more di = true ->
  root_levels di = if root_more (next_level 1 di) then di_curdepth (next_level 1 di) :: root_levels (next_level 1 di) else [].
Proof.
  unfold root_more, root_levels, next_level. cbn [di_curdepth set_di_curdepth di_maxdepth]. intros H%Z.leb_le.
  destruct (Z.leb_spec (di_curdepth di + 1) (di_maxdepth di)) as [Hc|Hc].
  - rewrite seqZ_cons by lia. f_equal. f_equal; lia.
  - by replace (di_maxdepth di - di_curdepth di) with 0 by lia.
Qed.

(** The devices that the walk still returns. *)
Definition remaining (s : autoconf) (di : deviter_t) (c : list device) : list (nat * Z) :=
  match di_leaves di, di_root di with
  | false, false => seen di c
  | true, false => pend s leaves_more leaves_levels di c
  | false, true => pend s root_more root_levels di c
  | true, true => []
  end.

Lemma deviter_next_spec s di c : NoDup (map dv_ptr (alldevs s)) -> at_cur s di c ->
  exists r c' di', deviter_next s di = (r, di') /\ at_cur s di' c' /\ same_walk di di' /\
  match r with
  | Some d => remaining s di c = key d :: remaining s di' c'
  | None => remaining s di c = [] /\ remaining s di' c' = []
  end.
Proof.
  intros Hnd Hc. pose proof (cur_le s di c Hc) as Hlen. unfold deviter_next, remaining.
  destruct (di_leaves di) eqn:El, (di_root di) eqn:Er.
  - exists None, c, di. by rewrite El, Er.
  - destruct (next_depth_spec s Hnd (-1) leaves_more leaves_levels (fun _ _ => eq_refl) (fun _ _ => eq_refl) leaves_levels_next
      (turns (di_curdepth di + 1) s) di c Hc) as (r & c' & di' & E & Hc' & W & R).
    { unfold leaves_more, leaves_levels, turns. intros H%Z.leb_le. rewrite length_reverse, length_seqZ.
      replace (Z.to_nat (di_curdepth di + 1)) with (S (Z.to_nat (di_curdepth di))) by lia. lia. }
    { apply Nat.lt_0_succ. }
    exists r, c', di'. destruct W as (W1 & W2 & W3 & W4). rewrite W2, W3, El, Er. done.
  - destruct (next_depth_spec s Hnd 1 root_more root_levels (fun _ _ => eq_refl) (fun _ _ => eq_refl) root_levels_next
      (turns (di_maxdepth di + 1 - di_curdepth di) s) di c Hc) as (r & c' & di' & E & Hc' & W & R).
    { unfold root_more, root_levels, turns. intros H%Z.leb_le. rewrite length_seqZ.
      replace (Z.to_nat (di_maxdepth di + 1 - di_curdepth di)) with (S (Z.to_nat (di_maxdepth di - di_curdepth di))) by lia. lia. }
    { apply Nat.lt_0_succ. }
    exists r, c', di'. destruct W as (W1 & W2 & W3 & W4). rewrite W2, W3, El, Er. done.
  - destruct (next1_spec s Hnd (S (length (alldevs s))) di c Hc) as (r & c' & E & Hc' & Hr); [lia|].
    exists r, c', (set_di_prev (dv_ptr <$> head c') di). split; [exact E|]. split; [done|]. split; [done|].
    cbn [di_leaves di_root set_di_prev]. rewrite El, Er. destruct r as [d|].
    + destruct Hr as (pre & -> & Hpre & Hd). rewrite seen_app, (seen_unseen _ _ Hpre). cbn [app].
      unfold seen at 1. cbn [List.filter]. by rewrite Hd.
    + destruct Hr as [-> Hr]. by rewrite (seen_unseen _ _ Hr).
Qed.

(** ** Others at work on the list *)

(** The list as the iterator sees it grows at its end by devices it does not visit. *)
Definition vkey (gen : Z) (d : device) : nat * Z * bool := (key d, device_exists_at d gen).

Definition grown (gen : Z) (l l' : list device) : Prop :=
  exists l1 ext, l' = l1 ++ ext /\ map (vkey gen) l1 = map (vkey gen) l /\ Forall (fun d => device_exists_at d gen = false) ext.

Lemma grown_same gen l l' : map (vkey gen) l' = map (vkey gen) l -> grown gen l l'.
Proof. intros H. exists l', []. by rewrite app_nil_r. Qed.

Lemma seen_vkeys di l l' : map (vkey (di_gen di)) l' = map (vkey (di_gen di)) l -> seen di l' = seen di l.
Proof.
  revert l'. induction l as [|d l IH]; intros [|d' l'] H; try discriminate; [done|]. cbn [map] in H.
  injection H as H1 H2 H3 H. unfold seen in *. cbn [List.filter].
  change (deviter_visits di d') with (device_exists_at d' (di_gen di)). change (deviter_visits di d) with (device_exists_at d (di_gen di)).
  rewrite H3.
  destruct (device_exists_at d (di_gen di)); cbn [map]; [|by apply IH]. f_equal; [unfold key; by rewrite H1, H2|by apply IH].
Qed.

Lemma map_split {A B} (f : A -> B) l' pre c : map f l' = map f (pre ++ c) ->
  exists pre' c', l' = pre' ++ c' /\ map f pre' = map f pre /\ map f c' = map f c.
Proof.
  rewrite map_app. intros H. exists (take (length pre) l'), (drop (length pre) l'). rewrite take_drop. split; [done|].
  rewrite <-firstn_map, <-skipn_map, H. rewrite <-(length_map f pre). split; [apply take_app_length|apply drop_app_length].
Qed.

Lemma map_reverse_eq {A B} (f : A -> B) l l' : map f l' = map f l -> map f (reverse l') = map f (reverse l).
Proof. intros H. change (f <$> reverse l' = f <$> reverse l). rewrite !fmap_reverse. by apply (f_equal reverse). Qed.

Lemma grown_cur di s s' c : grown (di_gen di) (alldevs s) (alldevs s') -> at_cur s di c ->
  exists c', at_cur s' di c' /\ seen di c' = seen di c /\ seen di (view di s') = seen di (view di s).
Proof.
  intros (l1 & ext & El & Hk & Hx) (pre & Hv & Hp).
  assert (seen di ext = []) as Hse by (by apply seen_unseen).
  unfold at_cur, view in *. rewrite El. destruct (di_rw di).
  - rewrite reverse_app. apply map_reverse_eq in Hk. assert (seen di (reverse ext) = []) as Hsr.
    { apply seen_unseen. by apply Forall_reverse. }
    rewrite (seen_app _ (reverse ext)), Hsr. cbn [app]. rewrite (seen_vkeys _ _ _ Hk). rewrite Hv in Hk.
    destruct (map_split _ _ _ _ Hk) as (pre' & c' & El' & _ & Hc'). exists c'. split; [|by rewrite (seen_vkeys _ _ _ Hc')].
    exists (reverse ext ++ pre'). rewrite <-app_assoc, El'. split; [done|]. rewrite Hp.
    destruct c as [|x c], c' as [|x' c']; try discriminate; [done|]. cbn [map head] in *. injection Hc' as E E' E'' E3. cbn. by rewrite E.
  - rewrite (seen_app _ l1), Hse, app_nil_r, (seen_vkeys _ _ _ Hk). rewrite Hv in Hk.
    destruct (map_split _ _ _ _ Hk) as (pre' & c' & -> & _ & Hc'). destruct c' as [|x' c'].
    + destruct c; [|discriminate]. exists []. split; [|done]. exists ((pre' ++ []) ++ ext). split; [by rewrite !app_nil_r|exact Hp].
    + exists ((x' :: c') ++ ext). split; [|by rewrite seen_app, Hse, app_nil_r, (seen_vkeys _ _ _ Hc')].
      exists pre'. rewrite <-app_assoc. split; [done|]. rewrite Hp. destruct c as [|x c]; [discriminate|].
      cbn [map] in Hc'. injection Hc' as E E' E'' E3. cbn. by rewrite E.
Qed.

Lemma grown_remaining di s s' c : grown (di_gen di) (alldevs s) (alldevs s') -> at_cur s di c ->
  exists c', at_cur s' di c' /\ remaining s' di c' = remaining s di c.
Proof.
  intros G Hc. destruct (grown_cur _ _ _ _ G Hc) as (c' & Hc' & E1 & E2). exists c'. split; [done|].
  unfold remaining, pend. by rewrite E1, E2.
Qed.

(** What may happen between two steps of a walk that is a writer or not: the
    counts keep the walk itself. *)
Definition counted (rw : bool) (s : autoconf) : Prop :=
  (if rw then 1 else 0) <= alldevs_nwrite s /\ (if rw then 0 else 1) <= alldevs_nread s.

Inductive others (rw : bool) (s : autoconf) : autoconf -> Prop :=
  | o_link d : dv_ptr d ∉ map dv_ptr (alldevs s) -> others rw s (config_devlink d s)
  | o_detach_begin p : others rw s (detach_begin p s).2
  | o_detach_end p rv : counted rw (set_alldevs_nwrite (alldevs_nwrite s - 1) s) -> others rw s (detach_end p rv s)
  | o_garbage : others rw s (config_collect_garbage s)
  | o_init fl : others rw s (deviter_init fl s).2
  | o_release di : counted rw (deviter_release di s) -> others rw s (deviter_release di s)
  (* a device in place: its flags, suspensors and locks *)
  | o_device p f : (forall d, key (f d) = key d /\ dv_add_gen (f d) = dv_add_gen d /\ dv_del_gen (f d) = dv_del_gen d) ->
      others rw s (set_alldevs (on_dev p f (alldevs s)) s).

Record walking (rw : bool) (gen : Z) (s : autoconf) : Prop := {
  wk_nodup : NoDup (map dv_ptr (alldevs s));
  wk_gen : 0 <= gen < alldevs_gen s;
  wk_count : counted rw s
}.

Lemma counted_not_idle rw s : counted rw s -> idle_list s = false.
Proof. unfold counted, idle_list. destruct rw; intros [? ?]; apply andb_false_iff; [left|right]; apply Z.eqb_neq; lia. Qed.

Lemma collect_not_idle s : idle_list s = false -> config_collect_garbage s = s.
Proof. intros H. unfold config_collect_garbage. cbn [collect_loop]. by rewrite H. Qed.

Lemma on_dev_vkeys gen p f l : (forall d, d ∈ l -> dv_ptr d = p -> vkey gen (f d) = vkey gen d) ->
  map (vkey gen) (on_dev p f l) = map (vkey gen) l.
Proof.
  intros H. unfold on_dev. rewrite map_map. apply map_ext_in. intros d Hd%list_elem_of_In.
  destruct (Nat.eqb_spec (dv_ptr d) p); [by apply H|done].
Qed.

Lemma vkeys_ptrs gen l l' : map (vkey gen) l' = map (vkey gen) l -> map dv_ptr l' = map dv_ptr l.
Proof. intros H. apply (f_equal (map (fun k => k.1.1))) in H. by rewrite !map_map in H. Qed.

(** Replacing devices in place under a walk. *)
Lemma walking_vkeys rw gen s s' : walking rw gen s -> map (vkey gen) (alldevs s') = map (vkey gen) (alldevs s) ->
  alldevs_gen s <= alldevs_gen s' -> counted rw s' -> walking rw gen s' /\ grown gen (alldevs s) (alldevs s').
Proof.
  intros [N G C] H Hg Hc. split; [|by apply grown_same]. split; [by rewrite (vkeys_ptrs _ _ _ H)|lia|done].
Qed.

Lemma marked_vkey gen g d : dv_del_gen d = 0 -> gen < g -> 0 <= gen -> vkey gen (set_dv_del_gen g d) = vkey gen d.
Proof.
  intros Hd Hg H0. unfold vkey, device_exists_at. cbn [dv_del_gen dv_add_gen set_dv_del_gen]. rewrite Hd. cbn [Z.eqb orb].
  rewrite (proj2 (Z.ltb_lt gen g) Hg), orb_true_r. done.
Qed.

Lemma dev_at_ptr p l d : dev_at p l = Some d -> d ∈ l /\ dv_ptr d = p.
Proof. intros [H E%Nat.eqb_eq]%List.find_some. by apply list_elem_of_In in H. Qed.

Lemma ptr_inj l d d' : NoDup (map dv_ptr l) -> d ∈ l -> d' ∈ l -> dv_ptr d = dv_ptr d' -> d = d'.
Proof. intros N H H' E. apply (dev_at_elem l d N) in H. apply (dev_at_elem l d' N) in H'. rewrite E in H. congruence. Qed.

Lemma detach_end_walking rw gen p rv s : walking rw gen s -> counted rw (set_alldevs_nwrite (alldevs_nwrite s - 1) s) ->
  walking rw gen (detach_end p rv s) /\ grown gen (alldevs s) (alldevs (detach_end p rv s)).
Proof.
  intros W Hc. unfold detach_end. set (s1 := if rv =? 0 then _ else s).
  assert (map (vkey gen) (alldevs s1) = map (vkey gen) (alldevs s) /\ alldevs_gen s1 = alldevs_gen s /\
    alldevs_nread s1 = alldevs_nread s /\ alldevs_nwrite s1 = alldevs_nwrite s) as (K1 & G1 & R1 & W1).
  { unfold s1. destruct (rv =? 0); [|done]. split; [|done]. by apply on_dev_vkeys. }
  rewrite (collect_not_idle s1) by (apply (counted_not_idle rw); destruct (wk_count _ _ _ W); by split; rewrite ?W1, ?R1).
  set (s2 := set_alldevs_nwrite (alldevs_nwrite s1 - 1) s1).
  assert (counted rw s2) as C2 by (unfold counted, s2 in *; cbn in Hc |- *; by rewrite W1, R1).
  assert (map (vkey gen) (alldevs s2) = map (vkey gen) (alldevs s)) as K2 by exact K1.
  destruct ((rv =? 0) && _) eqn:E.
  - rewrite (counted_not_idle rw s2 C2). apply (walking_vkeys rw gen s); [done| |cbn; lia|exact C2].
    cbn [alldevs set_alldevs set_alldevs_garbage]. rewrite <-K2. apply on_dev_vkeys. intros d Hin Ep.
    apply andb_true_iff in E as [_ E]. destruct (dev_at p (alldevs s2)) as [d0|] eqn:E0; [|done]. apply Z.eqb_eq in E.
    apply dev_at_ptr in E0 as [E0 E0']. assert (d = d0) as ->.
    { apply (ptr_inj (alldevs s2)); [|done|done|by rewrite Ep]. rewrite (vkeys_ptrs _ _ _ K2). apply W. }
    pose proof (wk_gen _ _ _ W). apply marked_vkey; [done| |lia]. cbn. lia.
  - apply (walking_vkeys rw gen s); [done|exact K2|cbn; lia|exact C2].
Qed.

Lemma others_grown rw gen s s' : walking rw gen s -> others rw s s' -> walking rw gen s' /\ grown gen (alldevs s) (alldevs s').
Proof.
  intros W H. pose proof W as [N G C]. destruct H as [d Hd|p|p rv Hc| |fl|di Hc|p f Hf].
  - split.
    + split; [|done|done]. cbn [alldevs config_devlink set_alldevs]. rewrite map_app. cbn [map dv_ptr set_dv_add_gen].
      apply NoDup_app. split; [done|]. split; [|apply NoDup_singleton]. intros x Hx ->%list_elem_of_singleton. done.
    + exists (alldevs s), [set_dv_add_gen (alldevs_gen s) d]. split; [done|]. split; [done|]. constructor; [|done].
      unfold device_exists_at. cbn [dv_add_gen set_dv_add_gen]. rewrite (proj2 (Z.leb_gt _ _) (proj2 G)). by rewrite andb_false_r.
  - apply (walking_vkeys rw gen s _ W); unfold detach_begin; (destruct (dev_at p (alldevs s)) as [d|]; [destruct (negb _)|]); try done;
      unfold counted in *; cbn; lia.
  - by apply detach_end_walking.
  - rewrite (collect_not_idle s (counted_not_idle _ _ C)). split; [done|by apply grown_same].
  - apply (walking_vkeys rw gen s _ W); unfold deviter_init; cbn [snd]; destruct (_ || _); cbn; try lia; try done;
      unfold counted in *; cbn; lia.
  - apply (walking_vkeys rw gen s _ W); unfold deviter_release in *; destruct (di_rw di); done.
  - apply (walking_vkeys rw gen s _ W); try done. cbn [alldevs set_alldevs]. apply on_dev_vkeys. intros d _ _.
    destruct (Hf d) as (E1 & E2 & E3). unfold vkey, device_exists_at. by rewrite E1, E2, E3.
Qed.

(** ** Walks *)

(** The answers of the calls of deviter_next, with others between them. *)
Inductive walk : deviter_t -> autoconf -> list (option nat) -> Prop :=
  | w_end di s : walk di s []
  | w_others di s s' rs : others (di_rw di) s s' -> walk di s' rs -> walk di s rs
  | w_next di s r di' rs : deviter_next s di = (r, di') -> walk di' s rs -> walk di s ((dv_ptr <$> r) :: rs).

Lemma walk_answers di s rs : walk di s rs -> forall c, walking (di_rw di) (di_gen di) s -> at_cur s di c ->
  forall i r, rs !! i = Some r -> r = fst <$> (remaining s di c !! i).
Proof.
  induction 1 as [di s|di s s' rs Ho _ IH|di s x di' rs E _ IH]; intros c W Hc i r Hi; [done| |].
  - destruct (others_grown _ _ _ _ W Ho) as [W' G]. destruct (grown_remaining _ _ _ _ G Hc) as (c' & Hc' & <-). by apply (IH c').
  - destruct (deviter_next_spec s di c (wk_nodup _ _ _ W) Hc) as (r' & c' & di2 & E2 & Hc' & (S1 & _ & _ & S4 & _) & R).
    rewrite E in E2. injection E2 as <- <-. rewrite <-S1, <-S4 in W. specialize (IH c' W Hc'). destruct x as [d|].
    + rewrite R. destruct i as [|i]; [by injection Hi as <-|]. by apply IH.
    + destruct R as [R R']. rewrite R. rewrite R' in IH. destruct i as [|i]; [by injection Hi as <-|]. by apply (IH i).
Qed.

(** ** The order *)

Definition live (s : autoconf) : list device := List.filter (fun d => dv_del_gen d =? 0) (alldevs s).

Record devs_ok (s : autoconf) : Prop := {
  do_nodup : NoDup (map dv_ptr (alldevs s));
  do_depth : Forall (fun d => 0 <= dv_depth d) (alldevs s);
  do_gens : Forall (fun d => dv_add_gen d <= alldevs_gen s /\ dv_del_gen d <= alldevs_gen s) (alldevs s);
  do_gen : 0 <= alldevs_gen s;
  do_counts : 0 <= alldevs_nread s /\ 0 <= alldevs_nwrite s
}.

Lemma filter_ext_elem {A} (f g : A -> bool) l : (forall x, x ∈ l -> f x = g x) -> List.filter f l = List.filter g l.
Proof. intros H. apply List.filter_ext_in. intros x Hx. by apply H, list_elem_of_In. Qed.

Lemma filter_perm {A} (f : A -> bool) l l' : l ≡ₚ l' -> List.filter f l ≡ₚ List.filter f l'.
Proof.
  induction 1 as [|x l l' _ IH|x y l|l l2 l' _ IH1 _ IH2]; cbn [List.filter]; [done| | |by rewrite IH1].
  - destruct (f x); [by constructor|done].
  - destruct (f x), (f y); try done. by constructor.
Qed.

Lemma live_exists s : devs_ok s -> List.filter (fun d => device_exists_at d (alldevs_gen s)) (alldevs s) = live s.
Proof.
  intros Ok. apply filter_ext_elem. intros d Hd. pose proof (do_gens _ Ok) as G. rewrite Forall_forall in G. specialize (G d Hd).
  unfold device_exists_at. rewrite (proj2 (Z.leb_le _ _) (proj1 G)), andb_true_r, (proj2 (Z.ltb_ge _ _) (proj2 G)). apply orb_false_r.
Qed.

(** Listing the keys level by level loses and repeats none. *)
Lemma by_depth_perm cs ks : NoDup cs -> Forall (fun k => k.2 ∈ cs) ks -> by_depth cs ks ≡ₚ ks.
Proof.
  intros Hc Hk. induction ks as [|k ks IH].
  { unfold by_depth. clear. induction cs; [done|]. cbn. done. }
  apply Forall_cons in Hk as [Hk Hks]. rewrite <-(IH Hks) at 2. clear IH Hks. unfold by_depth.
  apply list_elem_of_split in Hk as (c1 & c2 & ->). apply NoDup_app in Hc as (_ & H1 & H2). apply NoDup_cons in H2 as [H2 _].
  rewrite !map_app, !concat_app. cbn [map concat]. unfold at_depth at 2. cbn [List.filter]. rewrite Z.eqb_refl.
  assert (forall cs, k.2 ∉ cs -> map (at_depth (k :: ks)) cs = map (at_depth ks) cs) as E.
  { intros cs Hn. apply map_ext_in. intros c Hin%list_elem_of_In. unfold at_depth. cbn [List.filter].
    destruct (Z.eqb_spec k.2 c) as [E|]; [by rewrite E in Hn|done]. }
  rewrite !E; [|done|intros H; apply (H1 _ H); by left]. cbn [app]. symmetry. apply Permutation_middle.
Qed.

Lemma by_depth_sorted R cs ks : StronglySorted R cs -> (forall c, R c c) -> StronglySorted (fun k k' => R k.2 k'.2) (by_depth cs ks).
Proof.
  intros Hs Hr. unfold by_depth. induction Hs as [|c cs Hs IH Hc]; [constructor|]. cbn [map concat].
  assert (Forall (fun k => k.2 = c) (at_depth ks c)) as Hd.
  { apply Forall_forall. intros k Hk%list_elem_of_In. apply List.filter_In in Hk as [_ Hk]. by apply Z.eqb_eq. }
  assert (Forall (fun k => R c k.2) (concat (map (at_depth ks) cs))) as Hl.
  { apply Forall_forall. intros k Hk%list_elem_of_In. apply List.in_concat in Hk as (l & Hl & Hk). apply List.in_map_iff in Hl as (c' & <- & Hin).
    apply List.filter_In in Hk as [_ E%Z.eqb_eq]. rewrite E. rewrite Forall_forall in Hc. by apply Hc, list_elem_of_In. }
  induction Hd as [|k l Hk Hd IHd]; [done|]. cbn [app]. constructor; [done|]. rewrite Hk. apply Forall_app. split; [|done].
  eapply Forall_impl; [exact Hd|]. intros x ->. done.
Qed.

Lemma max_depth_nonneg l : 0 <= max_depth l.
Proof.
  unfold max_depth. assert (forall m, 0 <= m -> 0 <= fold_left (fun m d => Z.max m (dv_depth d)) l m) as H; [|by apply H].
  induction l as [|x l IH]; intros m Hm; cbn [fold_left]; [done|]. apply IH. lia.
Qed.

Lemma max_depth_ge l : Forall (fun d => dv_depth d <= max_depth l) l.
Proof.
  unfold max_depth. assert (forall l m, m <= fold_left (fun m d => Z.max m (dv_depth d)) l m) as H.
  { clear. induction l as [|x l IH]; intros m; cbn [fold_left]; [lia|]. specialize (IH (Z.max m (dv_depth x))). lia. }
  generalize 0. induction l as [|x l IH]; intros m; [done|]. cbn [fold_left]. constructor; [|apply IH].
  specialize (H l (Z.max m (dv_depth x))). lia.
Qed.

(** The order of a walk: [remaining] at its start. *)
Definition sorted_by (fl : deviter_flags) (order : list (nat * Z)) : Prop :=
  match DEVITER_F_LEAVES_FIRST fl, DEVITER_F_ROOT_FIRST fl with
  | true, false => StronglySorted (fun k k' => k'.2 <= k.2) order
  | false, true => StronglySorted (fun k k' => k.2 <= k'.2) order
  | _, _ => True
  end.

Definition one_order (fl : deviter_flags) : Prop :=
  DEVITER_F_LEAVES_FIRST fl && DEVITER_F_ROOT_FIRST fl = false.

Definition first_order (fl : deviter_flags) (s : autoconf) : list (nat * Z) :=
  let '(di, s1) := deviter_init fl s in remaining s1 di (view di s1).

Lemma seqZ_up n : StronglySorted Z.le (seqZ 0 n).
Proof.
  generalize 0. intros m. destruct (decide (0 <= n)) as [H|H].
  - revert m. pattern n. apply natlike_ind; [intros m; constructor| |done]. intros x Hx IH m.
    rewrite seqZ_cons by lia. replace (Z.pred (Z.succ x)) with x by lia. constructor; [apply IH|].
    apply Forall_forall. intros y Hy%elem_of_seqZ. lia.
  - rewrite seqZ_nil by lia. constructor.
Qed.

Lemma snoc_sorted {A} (R : A -> A -> Prop) l x : StronglySorted R l -> Forall (fun y => R y x) l -> StronglySorted R (l ++ [x]).
Proof.
  induction 1 as [|y l _ IH Hy]; intros Hx; cbn [app]; [repeat constructor|].
  apply Forall_cons in Hx as [Hx1 Hx2]. constructor; [by apply IH|]. apply Forall_app. by repeat constructor.
Qed.

Lemma reverse_sorted {A} (R : A -> A -> Prop) l : StronglySorted R l -> StronglySorted (flip R) (reverse l).
Proof.
  induction 1 as [|x l _ IH Hx]; [constructor|]. rewrite reverse_cons. apply snoc_sorted; [done|]. by apply Forall_reverse.
Qed.

Lemma seqZ_down n : StronglySorted (fun a b => b <= a) (reverse (seqZ 0 n)).
Proof. apply (reverse_sorted Z.le), seqZ_up. Qed.

Section start.
Context (fl : deviter_flags) (s : autoconf) (Ok : devs_ok s) (Hfl : one_order fl).
Notation di := (deviter_init fl s).1.
Notation s1 := (deviter_init fl s).2.

Lemma init_list : alldevs s1 = alldevs s.
Proof. unfold deviter_init. cbn [snd]. by destruct (_ || _). Qed.

Lemma init_view : view di s1 = if di_rw di then reverse (alldevs s) else alldevs s.
Proof. unfold view. rewrite init_list. reflexivity. Qed.

Lemma init_walking : walking (di_rw di) (di_gen di) s1.
Proof.
  destruct (do_counts _ Ok). split; [rewrite init_list; apply Ok| |]; unfold deviter_init, counted; cbn; pose proof (do_gen _ Ok); destruct (DEVITER_F_RW fl), (DEVITER_F_SHUTDOWN fl); cbn; lia.
Qed.

Lemma init_cur : at_cur s1 di (view di s1).
Proof. exists []. split; [done|]. reflexivity. Qed.

Lemma init_seen : seen di (view di s1) ≡ₚ map key (live s).
Proof.
  unfold seen. rewrite init_view. change (deviter_visits di) with (fun d => device_exists_at d (alldevs_gen s)).
  rewrite <-(live_exists s Ok). apply Permutation_map. destruct (di_rw di); [|done].
  apply filter_perm, reverse_Permutation.
Qed.

Lemma live_depth : Forall (fun k => 0 <= k.2 <= max_depth (live s)) (map key (live s)).
Proof.
  apply Forall_fmap. pose proof (max_depth_ge (live s)) as H. pose proof (do_depth _ Ok) as H0. rewrite !Forall_forall in *.
  intros d Hd. split; [|by apply H]. apply H0. apply list_elem_of_In in Hd. apply List.filter_In in Hd as [Hd _]. by apply list_elem_of_In.
Qed.

Lemma first_order_alt : first_order fl s = remaining s1 di (view di s1).
Proof. unfold first_order. by destruct (deviter_init fl s). Qed.

Lemma init_depths :
  di_curdepth di = (if DEVITER_F_LEAVES_FIRST fl && negb (DEVITER_F_ROOT_FIRST fl) then max_depth (live s) else 0) /\
  di_maxdepth di = (if DEVITER_F_ROOT_FIRST fl && negb (DEVITER_F_LEAVES_FIRST fl) then max_depth (live s) else 0).
Proof.
  rewrite <-(live_exists s Ok). unfold deviter_init. cbn [fst deviter_reinit set_di_prev di_curdepth di_maxdepth].
  destruct (DEVITER_F_RW fl), (DEVITER_F_SHUTDOWN fl); done.
Qed.

(** The first turns are by depth. *)
Lemma first_leaves : DEVITER_F_LEAVES_FIRST fl = true -> DEVITER_F_ROOT_FIRST fl = false ->
  first_order fl s = by_depth (reverse (seqZ 0 (max_depth (live s) + 1))) (seen di (view di s1)).
Proof.
  intros El Er. destruct init_depths as [Hc _]. rewrite El, Er in Hc. cbn [andb negb] in Hc. rewrite first_order_alt. unfold remaining, pend.
  change (di_leaves di) with (DEVITER_F_LEAVES_FIRST fl). change (di_root di) with (DEVITER_F_ROOT_FIRST fl). rewrite El, Er.
  pose proof (max_depth_nonneg (live s)) as H0. unfold leaves_more, leaves_levels. rewrite Hc, (proj2 (Z.leb_le _ _) H0).
  rewrite seqZ_app, reverse_app by lia. reflexivity.
Qed.

Lemma first_root : DEVITER_F_LEAVES_FIRST fl = false -> DEVITER_F_ROOT_FIRST fl = true ->
  first_order fl s = by_depth (seqZ 0 (max_depth (live s) + 1)) (seen di (view di s1)).
Proof.
  intros El Er. destruct init_depths as [Hc Hm]. rewrite El, Er in Hc, Hm. cbn [andb negb] in Hc, Hm. rewrite first_order_alt. unfold remaining, pend.
  change (di_leaves di) with (DEVITER_F_LEAVES_FIRST fl). change (di_root di) with (DEVITER_F_ROOT_FIRST fl). rewrite El, Er.
  pose proof (max_depth_nonneg (live s)) as H0. unfold root_more, root_levels. rewrite Hc, Hm, (proj2 (Z.leb_le _ _) H0).
  rewrite (seqZ_cons 0) by lia. unfold by_depth. cbn [map concat]. do 2 f_equal. f_equal. f_equal; lia.
Qed.

Lemma first_order_ok : first_order fl s ≡ₚ map key (live s) /\ sorted_by fl (first_order fl s).
Proof.
  pose proof init_seen as Hp. pose proof live_depth as Hd. rewrite <-Hp in Hd. unfold sorted_by, one_order in *.
  assert (Forall (fun k => k.2 ∈ seqZ 0 (max_depth (live s) + 1)) (seen di (view di s1))) as Hin.
  { eapply Forall_impl; [exact Hd|]. intros k Hk. apply elem_of_seqZ. cbn in Hk. lia. }
  destruct (DEVITER_F_LEAVES_FIRST fl) eqn:El, (DEVITER_F_ROOT_FIRST fl) eqn:Er; [done| | |].
  - rewrite (first_leaves El Er). split; [|apply (by_depth_sorted (fun a b => b <= a)); [apply seqZ_down|lia]].
    rewrite by_depth_perm; [done|rewrite reverse_Permutation; apply NoDup_seqZ|]. eapply Forall_impl; [exact Hin|]. intros k Hk. by apply elem_of_reverse.
  - rewrite (first_root El Er). split; [|apply by_depth_sorted; [apply seqZ_up|lia]].
    rewrite by_depth_perm; [done|apply NoDup_seqZ|done].
  - split; [|done]. rewrite <-Hp, first_order_alt. unfold remaining.
    change (di_leaves di) with (DEVITER_F_LEAVES_FIRST fl). change (di_root di) with (DEVITER_F_ROOT_FIRST fl). by rewrite El, Er.
Qed.

End start.

(** C27. A walk over the devices, with attachments, detachments, collections and other
    walks in between, returns every device that existed when it began exactly once,
    deepest first or root first as asked, and then NULL. *)
Theorem deviter_walk_exact fl s rs : devs_ok s -> one_order fl -> walk (deviter_init fl s).1 (deviter_init fl s).2 rs ->
  exists order, order ≡ₚ map key (live s) /\ sorted_by fl order /\
    forall i r, rs !! i = Some r -> r = fst <$> (order !! i).
Proof.
  intros Ok Hfl Hw. exists (first_order fl s). destruct (first_order_ok fl s Ok Hfl) as [H1 H2]. split; [done|]. split; [done|].
  intros i r Hi. pose proof (walk_answers _ _ _ Hw _ (init_walking fl s Ok) (init_cur fl s) i r Hi) as H.
  unfold first_order. by destruct (deviter_init fl s) as [di0 s0].
Qed.

(** ** Loops *)

Section loops.
Context {S : Type} (get : S -> autoconf) (put : autoconf -> S -> S)
  (get_put : forall a s, get (put a s) = a).

(** The devices of [l] in turn until the body breaks. *)
Fixpoint run_over (body : nat -> S -> bool * S) (l : list nat) (s : S) : S :=
  match l with
  | [] => s
  | p :: l => let '(go, s) := body p s in if go then run_over body l s else s
  end.

(** The body leaves the list as the walk sees it. *)
Definition gkey (d : device) : nat * Z * Z * Z := (key d, dv_add_gen d, dv_del_gen d).

Definition keeps (a a' : autoconf) : Prop :=
  map gkey (alldevs a') = map gkey (alldevs a) /\ alldevs_gen a' = alldevs_gen a /\
  alldevs_nread a' = alldevs_nread a /\ alldevs_nwrite a' = alldevs_nwrite a.

Lemma keeps_refl a : keeps a a.
Proof. done. Qed.

Lemma keeps_trans a b c : keeps a b -> keeps b c -> keeps a c.
Proof. intros (A1 & A2 & A3 & A4) (B1 & B2 & B3 & B4). repeat split; congruence. Qed.

Lemma keeps_ptrs a a' : keeps a a' -> map dv_ptr (alldevs a') = map dv_ptr (alldevs a).
Proof. intros (H & _). apply (f_equal (map (fun k => k.1.1.1))) in H. by rewrite !map_map in H. Qed.

Lemma gkeys_map {B} (f : device -> B) (g : nat * Z * Z * Z -> B) l l' : (forall d, f d = g (gkey d)) -> map gkey l' = map gkey l -> map f l' = map f l.
Proof. intros Hf H. apply (f_equal (map g)) in H. rewrite !map_map in H. rewrite !(map_ext f (fun d => g (gkey d)) Hf). exact H. Qed.

Lemma keeps_vkeys gen a a' : keeps a a' -> map (vkey gen) (alldevs a') = map (vkey gen) (alldevs a).
Proof.
  intros (H & _). apply (gkeys_map _ (fun k => (k.1.1, ((k.2 =? 0) || (gen <? k.2)) && (k.1.2 <=? gen)))); [done|exact H].
Qed.

Lemma gkeys_live l l' : map gkey l' = map gkey l ->
  map key (List.filter (fun d => dv_del_gen d =? 0) l') = map key (List.filter (fun d => dv_del_gen d =? 0) l).
Proof.
  revert l'. induction l as [|d l IH]; intros [|d' l'] H; try discriminate; [done|]. cbn [map] in H. injection H as H1 H2 H3 H4 H.
  cbn [List.filter]. rewrite H4. destruct (dv_del_gen d =? 0); cbn [map]; [|by apply IH]. f_equal; [unfold key; by rewrite H1, H2|by apply IH].
Qed.

Lemma gkeys_forall (P : nat * Z * Z * Z -> Prop) l l' : map gkey l' = map gkey l -> Forall (fun d => P (gkey d)) l -> Forall (fun d => P (gkey d)) l'.
Proof. intros H Hl. apply (Forall_map gkey). rewrite H. by apply Forall_map. Qed.

(** A list with the same devices and not less generations. *)
Lemma devs_ok_gkeys a a' : devs_ok a -> map gkey (alldevs a') = map gkey (alldevs a) -> alldevs_gen a <= alldevs_gen a' ->
  0 <= alldevs_nread a' -> 0 <= alldevs_nwrite a' -> devs_ok a'.
Proof.
  intros Ok H Hg H1 H2. destruct Ok as [O1 O2 O3 O4 O5]. split.
  - rewrite (gkeys_map dv_ptr (fun k => k.1.1.1) _ _ (fun _ => eq_refl) H). done.
  - by apply (gkeys_forall (fun k => 0 <= k.1.1.2) _ _ H).
  - apply (gkeys_forall (fun k => k.1.2 <= alldevs_gen a' /\ k.2 <= alldevs_gen a') _ _ H). eapply Forall_impl; [exact O3|]. cbn. lia.
  - lia.
  - done.
Qed.

Lemma for_next_over body n : forall dv di s c, (forall p s, keeps (get s) (get (body p s).2)) -> NoDup (map dv_ptr (alldevs (get s))) ->
  at_cur (get s) di c -> (dv <> None -> (length (remaining (get s) di c) < n)%nat) ->
  exists di', for_next get n body dv di s = (di', run_over body (match dv with Some d => dv_ptr d :: map fst (remaining (get s) di c) | None => [] end) s) /\
    same_walk di di'.
Proof.
  induction n as [|n IH]; intros dv di s c Hb Hnd Hc Hn; (destruct dv as [d|]; [specialize (Hn ltac:(done))|by exists di]); [lia|]. cbn [for_next].
  cbn [run_over]. pose proof (Hb (dv_ptr d) s) as K. destruct (body (dv_ptr d) s) as [go s1] eqn:E. cbn [snd] in K.
  destruct go; [|by exists di]. assert (grown (di_gen di) (alldevs (get s)) (alldevs (get s1))) as G by (apply grown_same, keeps_vkeys, K).
  destruct (grown_remaining _ _ _ _ G Hc) as (c1 & Hc1 & Er). rewrite <-Er in *. rewrite <-(keeps_ptrs _ _ K) in Hnd.
  destruct (deviter_next_spec (get s1) di c1 Hnd Hc1) as (r & c2 & di2 & E2 & Hc2 & W & R). rewrite E2.
  destruct (IH r di2 s1 c2 Hb Hnd Hc2) as (di' & E3 & W').
  { intros Hr. destruct r as [x|]; [rewrite R in Hn; cbn [length] in Hn; lia|done]. }
  exists di'. split.
  - rewrite E3. destruct r as [x|]; [by rewrite R|]. destruct R as [-> _]. done.
  - unfold same_walk in *. naive_solver congruence.
Qed.

Lemma run_over_keeps body l : (forall p s, keeps (get s) (get (body p s).2)) -> forall s, keeps (get s) (get (run_over body l s)).
Proof.
  intros Hb. induction l as [|p l IH]; intros s; cbn [run_over]; [apply keeps_refl|]. pose proof (Hb p s) as K.
  destruct (body p s) as [go s1]. cbn [snd] in K. destruct go; [|done]. by eapply keeps_trans.
Qed.

(** A loop over the devices is a loop over the order of the walk. *)
Lemma for_devices_over fl body s : devs_ok (get s) -> one_order fl -> (forall p s, keeps (get s) (get (body p s).2)) ->
  let s1 := run_over body (map fst (first_order fl (get s))) (put (deviter_init fl (get s)).2 s) in
  exists di, di_rw di = di_rw (deviter_init fl (get s)).1 /\ for_devices get put fl body s = put (deviter_release di (get s1)) s1.
Proof.
  intros Ok Hfl Hb s1. unfold for_devices, deviter_first. pose proof (init_walking fl (get s) Ok) as W.
  pose proof (init_cur fl (get s)) as Hc. pose proof (first_order_alt fl (get s)) as Ho. pose proof (first_order_ok fl (get s) Ok Hfl) as [Hp _].
  assert (alldevs (deviter_init fl (get s)).2 = alldevs (get s)) as Hl by apply init_list.
  destruct (deviter_init fl (get s)) as [di0 a0] eqn:E0. cbn [fst snd] in *.
  destruct (deviter_next_spec a0 di0 _ (wk_nodup _ _ _ W) Hc) as (r & c1 & di1 & E1 & Hc1 & W1 & R). rewrite E1.
  set (t := put a0 s) in *. assert (get t = a0) as Ht by apply get_put. rewrite <-Ht in Hc1, R.
  destruct (for_next_over body (Datatypes.S (length (alldevs a0))) r di1 t c1 Hb) as (di2 & E2 & W2).
  { rewrite Ht. apply W. }
  { done. }
  { intros _. rewrite Hl. assert (length (remaining (get t) di1 c1) <= length (alldevs (get s)))%nat as Hle; [|lia].
    transitivity (length (first_order fl (get s))).
    - rewrite Ho, <-Ht. destruct r as [d|]; [rewrite R; cbn; lia|]. destruct R as [-> ->]. done.
    - rewrite Hp, length_map. unfold live. apply List.filter_length_le. }
  rewrite E2. exists di2. split.
  - destruct W1 as [W1 _], W2 as [W2 _]. congruence.
  - unfold s1. rewrite Ho, <-Ht. destruct r as [d|]; [by rewrite R|]. destruct R as [-> _]. done.
Qed.

(** The list after a loop. *)
Lemma for_devices_list fl body s : devs_ok (get s) -> one_order fl -> (forall p s, keeps (get s) (get (body p s).2)) ->
  let a := get (for_devices get put fl body s) in
  map gkey (alldevs a) = map gkey (alldevs (get s)) /\ devs_ok a.
Proof.
  intros Ok Hfl Hb a. destruct (for_devices_over fl body s Ok Hfl Hb) as (di & Hdi & E).
  set (s1 := run_over _ _ _) in E. pose proof (run_over_keeps body (map fst (first_order fl (get s))) Hb (put (deviter_init fl (get s)).2 s)) as (K1 & K2 & K3 & K4).
  fold s1 in K1, K2, K3, K4. rewrite get_put in K1, K2, K3, K4. unfold a. rewrite E, get_put. rewrite (init_list fl (get s)) in K1.
  pose proof (do_counts _ Ok) as [C1 C2]. pose proof (do_gen _ Ok) as G.
  assert (map gkey (alldevs (deviter_release di (get s1))) = map gkey (alldevs (get s))) as Hl by (unfold deviter_release; by destruct (di_rw di)).
  split; [done|]. apply (devs_ok_gkeys (get s)); [done|done|..]; unfold deviter_release; rewrite Hdi; unfold deviter_init in *;
    cbn [fst snd di_rw deviter_reinit set_di_prev] in *; destruct (DEVITER_F_RW fl), (DEVITER_F_SHUTDOWN fl); cbn in *; lia.
Qed.

End loops.
