(* ===== verification/Pmf.v ===== *)
(** * The power management framework

    kernel/kern/kern_pmf.c on the devices of subr_autoconf.c: suspensors, the
    class, driver and bus levels of a device, its lock, and the suspension and
    resumption of a device, a subtree and the system.  The handlers a driver
    registers are outside: a call is recorded, and what it answers is a parameter
    that may depend on all calls before it.  Other threads are outside too: a wait
    for a device's lock is such a call. *)

From stdpp Require Import base numbers strings list.
From S2P Require Import Prelude Sysctl Device.

(** ** What sys/device.h and subr_device.c give *)

Inductive devact_level_t := DEVACT_LEVEL_CLASS | DEVACT_LEVEL_DRIVER | DEVACT_LEVEL_BUS.
Definition DEVACT_LEVEL_FULL : devact_level_t := DEVACT_LEVEL_CLASS.

Definition level_num (l : devact_level_t) : Z :=
  match l with DEVACT_LEVEL_CLASS => 0 | DEVACT_LEVEL_DRIVER => 1 | DEVACT_LEVEL_BUS => 2 end.

Class DeviceIs := {
  device_is_active : device -> bool;
  device_is_enabled : device -> bool;
  device_is_a : device -> string -> bool
}.

(** device(9): active is enabled and at no level suspended. *)
Class DeviceIsOk (DI : DeviceIs) : Prop := {
  active_spec : forall d, device_is_active d =
    dv_active d && negb (dv_class_suspended d) && negb (dv_driver_suspended d) && negb (dv_bus_suspended d);
  enabled_spec : forall d, device_is_enabled d = dv_active d;
  is_a_name : forall d d' n, dv_xname d = dv_xname d' -> device_is_a d n = device_is_a d' n
}.

(** ** Calls of handlers *)

Record pmf_qual_t := mk_qual {
  pq_actlvl : devact_level_t;
  pq_suspensor : device_suspensor_t
}.

Definition pmf_qual_depth (q : pmf_qual_t) : devact_level_t := pq_actlvl q.
Definition pmf_qual_suspension (q : pmf_qual_t) : device_suspensor_t := pq_suspensor q.

Inductive pmf_call :=
  | K_suspend (lvl : devact_level_t) (dev : nat)
  | K_resume (lvl : devact_level_t) (dev : nat)
  | K_wait (dev : nat)                               (* answers whether it is still registered *)
  | K_handlex (cmd : Z)                              (* wsdisplay_handlex, true for 0 *)
  | K_sync.                                          (* do_sys_sync and vfs_syncwait *)

Class Drivers := pmf_answer : list (pmf_call * bool) -> pmf_call -> bool.

Record pmf := mk_pmf {
  p_ac : autoconf;
  p_calls : list (pmf_call * bool)  (* latest first *)
}.

Definition set_p_ac (v : autoconf) (r : pmf) : pmf :=
  mk_pmf v (p_calls r).
Definition set_p_calls (v : list (pmf_call * bool)) (r : pmf) : pmf :=
  mk_pmf (p_ac r) v.

Definition upd (p : nat) (f : device -> device) (s : pmf) : pmf :=
  set_p_ac (set_alldevs (on_dev p f (alldevs (p_ac s))) (p_ac s)) s.

#[export] Instance hooks_inhabited : Inhabited hooks := populate (mk_hooks false false false false false false).
#[export] Instance device_inhabited : Inhabited device :=
  populate (mk_device 0 EmptyString None 0 0 0 false false false false false [] [] [] inhabitant 0 None).

Definition getd (s : pmf) (p : nat) : device := default inhabitant (dev_at p (alldevs (p_ac s))).

(** ** Suspensors *)

Definition device_suspensor_drvctl : device_suspensor_t := DS "drvctl".
Definition device_suspensor_self : device_suspensor_t := DS "self".
Definition device_suspensor_system : device_suspensor_t := DS "system".

Definition PMF_Q_DRVCTL : pmf_qual_t := mk_qual DEVACT_LEVEL_FULL device_suspensor_drvctl.
Definition PMF_Q_NONE : pmf_qual_t := mk_qual DEVACT_LEVEL_FULL device_suspensor_system.
Definition PMF_Q_SELF : pmf_qual_t := mk_qual DEVACT_LEVEL_DRIVER device_suspensor_self.

Definition pmf_self_suspensor_init (d : device) : pmf_qual_t :=
  mk_qual DEVACT_LEVEL_DRIVER (DS_delegated (dv_xname d ++ "-self") device_suspensor_self).

(** [ds] is a delegator of [delegate] or of one of its delegators. *)
Fixpoint device_suspensor_delegates_to (ds delegate : device_suspensor_t) : bool :=
  match delegate with
  | DS _ => false
  | DS_delegated _ iter => bool_decide (ds = iter) || device_suspensor_delegates_to ds iter
  end.

(** The first loop: already there, or assumed from a delegate. *)
Fixpoint assume_suspensor (ds : device_suspensor_t) (susp : list (option device_suspensor_t)) : option (list (option device_suspensor_t)) :=
  match susp with
  | [] => None
  | None :: l => cons None <$> assume_suspensor ds l
  | Some x :: l =>
      if decide (ds = x) then Some (Some x :: l)
      else if device_suspensor_delegates_to ds x then Some (Some ds :: l)
      else cons (Some x) <$> assume_suspensor ds l
  end.

(** The second: the first free slot. *)
Fixpoint take_slot (ds : device_suspensor_t) (susp : list (option device_suspensor_t)) : option (list (option device_suspensor_t)) :=
  match susp with
  | [] => None
  | None :: l => Some (Some ds :: l)
  | Some x :: l => cons (Some x) <$> take_slot ds l
  end.

Definition add_suspensor (susp : list (option device_suspensor_t)) (ds : device_suspensor_t) :
    bool * list (option device_suspensor_t) :=
  match assume_suspensor ds susp with
  | Some l => (true, l)
  | None => match take_slot ds susp with Some l => (true, l) | None => (false, susp) end
  end.

Definition any_suspensor (susp : list (option device_suspensor_t)) : bool :=
  existsb (fun x => match x with Some _ => true | None => false end) susp.

Fixpoint drop_suspensor (ds : device_suspensor_t) (susp : list (option device_suspensor_t)) : option (list (option device_suspensor_t)) :=
  match susp with
  | [] => None
  | None :: l => cons None <$> drop_suspensor ds l
  | Some x :: l =>
      if decide (ds = x) then Some (None :: l)
      else if device_suspensor_delegates_to ds x then Some (None :: l)
      else cons (Some x) <$> drop_suspensor ds l
  end.

Definition remove_suspensor (susp : list (option device_suspensor_t)) (ds : device_suspensor_t) :
    bool * list (option device_suspensor_t) :=
  match drop_suspensor ds susp with Some l => (true, l) | None => (false, susp) end.

(** On the three arrays in turn; a failure keeps what was done. *)
Definition on_suspensors (f : list (option device_suspensor_t) -> bool * list (option device_suspensor_t)) (d : device) : bool * device :=
  let '(ok, l) := f (dv_class_suspensors d) in
  let d := set_dv_class_suspensors l d in
  if negb ok then (false, d) else
  let '(ok, l) := f (dv_driver_suspensors d) in
  let d := set_dv_driver_suspensors l d in
  if negb ok then (false, d) else
  let '(ok, l) := f (dv_bus_suspensors d) in
  (ok, set_dv_bus_suspensors l d).

Definition device_pmf_add_suspensor (q : pmf_qual_t) (d : device) : bool * device :=
  on_suspensors (fun l => add_suspensor l (pmf_qual_suspension q)) d.
Definition device_pmf_remove_suspensor (q : pmf_qual_t) (d : device) : bool * device :=
  on_suspensors (fun l => remove_suspensor l (pmf_qual_suspension q)) d.

Definition device_pmf_any_suspensor (d : device) (depth : devact_level_t) : bool :=
  match depth with
  | DEVACT_LEVEL_CLASS => any_suspensor (dv_class_suspensors d) || any_suspensor (dv_driver_suspensors d) || any_suspensor (dv_bus_suspensors d)
  | DEVACT_LEVEL_DRIVER => any_suspensor (dv_driver_suspensors d) || any_suspensor (dv_bus_suspensors d)
  | DEVACT_LEVEL_BUS => any_suspensor (dv_bus_suspensors d)
  end.

Definition device_pmf_is_registered (d : device) : bool := dv_power_handlers d.

Section pmf.
Context `{DI : DeviceIs} `{DR : Drivers} (curlwp : nat).

Definition ask (c : pmf_call) (s : pmf) : bool * pmf :=
  let a := pmf_answer (p_calls s) c in (a, set_p_calls ((c, a) :: p_calls s) s).

(** The handler if the request is as deep and there is one. *)
Definition hook (q : pmf_qual_t) (lvl : devact_level_t) (present : bool) (c : pmf_call) (s : pmf) : bool * pmf :=
  if (level_num (pmf_qual_depth q) <=? level_num lvl) && present then ask c s else (true, s).

(** ** Levels *)

Definition device_pmf_class_suspend (p : nat) (q : pmf_qual_t) (s : pmf) : bool * pmf :=
  let d := getd s p in
  if dv_class_suspended d then (true, s) else
  let '(ok, s) := hook q DEVACT_LEVEL_CLASS (has_class_suspend (dv_hooks d)) (K_suspend DEVACT_LEVEL_CLASS p) s in
  if negb ok then (false, s) else (true, upd p (set_dv_class_suspended true) s).

Definition device_pmf_driver_suspend (p : nat) (q : pmf_qual_t) (s : pmf) : bool * pmf :=
  let d := getd s p in
  if dv_driver_suspended d then (true, s) else
  if negb (dv_class_suspended d) then (false, s) else
  let '(ok, s) := hook q DEVACT_LEVEL_DRIVER (has_driver_suspend (dv_hooks d)) (K_suspend DEVACT_LEVEL_DRIVER p) s in
  if negb ok then (false, s) else (true, upd p (set_dv_driver_suspended true) s).

Definition device_pmf_bus_suspend (p : nat) (q : pmf_qual_t) (s : pmf) : bool * pmf :=
  let d := getd s p in
  if dv_bus_suspended d then (true, s) else
  if negb (dv_class_suspended d) || negb (dv_driver_suspended d) then (false, s) else
  let '(ok, s) := hook q DEVACT_LEVEL_BUS (has_bus_suspend (dv_hooks d)) (K_suspend DEVACT_LEVEL_BUS p) s in
  if negb ok then (false, s) else (true, upd p (set_dv_bus_suspended true) s).

Definition device_pmf_bus_resume (p : nat) (q : pmf_qual_t) (s : pmf) : bool * pmf :=
  let d := getd s p in
  if negb (dv_bus_suspended d) then (true, s) else
  let '(ok, s) := hook q DEVACT_LEVEL_BUS (has_bus_resume (dv_hooks d)) (K_resume DEVACT_LEVEL_BUS p) s in
  if negb ok then (false, s) else (true, upd p (set_dv_bus_suspended false) s).

Definition device_pmf_driver_resume (p : nat) (q : pmf_qual_t) (s : pmf) : bool * pmf :=
  let d := getd s p in
  if negb (dv_driver_suspended d) then (true, s) else
  if dv_bus_suspended d then (false, s) else
  let '(ok, s) := hook q DEVACT_LEVEL_DRIVER (has_driver_resume (dv_hooks d)) (K_resume DEVACT_LEVEL_DRIVER p) s in
  if negb ok then (false, s) else (true, upd p (set_dv_driver_suspended false) s).

Definition device_pmf_class_resume (p : nat) (q : pmf_qual_t) (s : pmf) : bool * pmf :=
  let d := getd s p in
  if negb (dv_class_suspended d) then (true, s) else
  if dv_bus_suspended d || dv_driver_suspended d then (false, s) else
  let '(ok, s) := hook q DEVACT_LEVEL_CLASS (has_class_resume (dv_hooks d)) (K_resume DEVACT_LEVEL_CLASS p) s in
  if negb ok then (false, s) else (true, upd p (set_dv_class_suspended false) s).

(** ** The lock *)

Definition device_pmf_lock (p : nat) (s : pmf) : bool * pmf :=
  let d := getd s p in
  let s :=
    if device_pmf_is_registered d && (0 <? dv_nlock d) && negb (bool_decide (dv_holder d = Some curlwp)) then
      let '(registered, s) := ask (K_wait p) s in
      upd p (fun d => set_dv_holder None (set_dv_nlock 0 (set_dv_power_handlers registered d))) s
    else s in
  if negb (device_pmf_is_registered (getd s p)) then (false, s)
  else (true, upd p (fun d => set_dv_holder (Some curlwp) (set_dv_nlock (dv_nlock d + 1) d)) s).

Definition device_pmf_unlock (p : nat) (s : pmf) : pmf :=
  upd p (fun d => let d := set_dv_nlock (dv_nlock d - 1) d in if dv_nlock d =? 0 then set_dv_holder None d else d) s.

(** ** A device *)

(** [f] on the device of [p]. *)
Definition upd_ret (p : nat) (f : device -> bool * device) (s : pmf) : bool * pmf :=
  ((f (getd s p)).1, upd p (fun d => (f d).2) s).

Definition pmf_device_suspend_locked (p : nat) (q : pmf_qual_t) (s : pmf) : bool * pmf :=
  let '(ok, s) := upd_ret p (device_pmf_add_suspensor q) s in
  if negb ok then (false, s) else
  let '(ok, s) := device_pmf_class_suspend p q s in
  if negb ok then (false, s) else
  let '(ok, s) := device_pmf_driver_suspend p q s in
  if negb ok then (false, s) else
  device_pmf_bus_suspend p q s.

Definition pmf_device_suspend (p : nat) (q : pmf_qual_t) (s : pmf) : bool * pmf :=
  if negb (device_pmf_is_registered (getd s p)) then (false, s) else
  let '(ok, s) := device_pmf_lock p s in
  if negb ok then (false, s) else
  let '(rc, s) := pmf_device_suspend_locked p q s in
  (rc, device_pmf_unlock p s).

Definition pmf_device_resume_locked (p : nat) (q : pmf_qual_t) (s : pmf) : bool * pmf :=
  let '(_, s) := upd_ret p (device_pmf_remove_suspensor q) s in
  if device_pmf_any_suspensor (getd s p) DEVACT_LEVEL_FULL then (true, s) else
  let '(ok, s) := device_pmf_bus_resume p q s in
  if negb ok then (false, s) else
  let '(ok, s) := device_pmf_driver_resume p q s in
  if negb ok then (false, s) else
  device_pmf_class_resume p q s.

Definition pmf_device_resume (p : nat) (q : pmf_qual_t) (s : pmf) : bool * pmf :=
  if negb (device_pmf_is_registered (getd s p)) then (false, s) else
  let '(ok, s) := device_pmf_lock p s in
  if negb ok then (false, s) else
  let '(rc, s) := pmf_device_resume_locked p q s in
  (rc, device_pmf_unlock p s).

(** ** Subtrees *)

(** Loops with a result. *)
Definition rget (x : bool * pmf) : autoconf := p_ac x.2.
Definition rput (a : autoconf) (x : bool * pmf) : bool * pmf := (x.1, set_p_ac a x.2).
Definition for_children (parent : nat) (body : nat -> pmf -> bool * pmf) (s : pmf) : bool * pmf :=
  for_devices rget rput DEVITER_ALL (fun c '(rv, s) =>
    if negb (bool_decide (dv_parent (getd s c) = Some parent)) then (true, (rv, s)) else
    let '(ok, s) := body c s in if ok then (true, (rv, s)) else (false, (false, s))) (true, s).

Definition pmf_qual_recursive_copy (q : pmf_qual_t) : pmf_qual_t := mk_qual DEVACT_LEVEL_FULL (pq_suspensor q).

(** The recursion is as deep as the tree. *)
Fixpoint pmf_device_recursive_suspend (n : nat) (p : nat) (q : pmf_qual_t) (s : pmf) : bool * pmf :=
  match n with
  | O => (false, s)
  | S n =>
      let pq := pmf_qual_recursive_copy q in
      let '(rv, s) := for_children p (fun c s => pmf_device_recursive_suspend n c pq s) s in
      if negb rv then (false, s) else pmf_device_suspend p q s
  end.

Fixpoint pmf_device_recursive_resume (n : nat) (p : nat) (q : pmf_qual_t) (s : pmf) : bool * pmf :=
  match n with
  | O => (false, s)
  | S n =>
      if device_is_active (getd s p) then (true, s) else
      let pq := pmf_qual_recursive_copy q in
      match dv_parent (getd s p) with
      | None => pmf_device_resume p q s
      | Some parent =>
          let '(ok, s) := pmf_device_recursive_resume n parent pq s in
          if negb ok then (false, s) else pmf_device_resume p q s
      end
  end.

Fixpoint pmf_device_descendants_release (n : nat) (p : nat) (q : pmf_qual_t) (s : pmf) : bool * pmf :=
  match n with
  | O => (false, s)
  | S n => for_children p (fun c s =>
      let '(_, s) := upd_ret c (device_pmf_remove_suspensor q) s in pmf_device_descendants_release n c q s) s
  end.

Fixpoint pmf_device_descendants_resume (n : nat) (p : nat) (q : pmf_qual_t) (s : pmf) : bool * pmf :=
  match n with
  | O => (false, s)
  | S n => for_children p (fun c s =>
      let '(ok, s) := pmf_device_resume c q s in
      if negb ok then (false, s) else pmf_device_descendants_resume n c q s) s
  end.

Definition pmf_device_subtree_release (n : nat) (p : nat) (q : pmf_qual_t) (s : pmf) : bool * pmf :=
  let '(_, s) := upd_ret p (device_pmf_remove_suspensor q) s in
  pmf_device_descendants_release n p (pmf_qual_recursive_copy q) s.

Definition pmf_device_subtree_resume (n : nat) (p : nat) (q : pmf_qual_t) (s : pmf) : bool * pmf :=
  let '(ok, s) := pmf_device_subtree_release n p q s in
  if negb ok then (false, s) else
  let '(ok, s) := pmf_device_recursive_resume n p q s in
  if negb ok then (false, s) else
  pmf_device_descendants_resume n p (pmf_qual_recursive_copy q) s.

(** ** The system *)

Definition pmf_check_system_drivers (s : pmf) : bool * pmf :=
  for_devices rget rput DEVITER_ALL (fun p '(rv, s) =>
    (true, (rv && device_pmf_is_registered (getd s p), s))) (true, s).

Definition pmf_system_bus_resume (q : pmf_qual_t) (s : pmf) : bool * pmf :=
  for_devices rget rput DEVITER_ROOT (fun p '(rv, s) =>
    if negb (device_pmf_is_registered (getd s p)) then (true, (rv, s)) else
    if device_is_active (getd s p) || negb (device_is_enabled (getd s p)) then (true, (rv, s)) else
    let '(ok, s) := device_pmf_bus_resume p q s in (true, (rv && ok, s))) (true, s).

(** The parent, if there is one, is active. *)
Definition parent_active (s : pmf) (p : nat) : bool :=
  match dv_parent (getd s p) with None => true | Some parent => device_is_active (getd s parent) end.

Definition pmf_system_resume (q : pmf_qual_t) (s : pmf) : bool * pmf :=
  let '(ok, s) := pmf_check_system_drivers s in
  if negb ok then (false, s) else
  let '(rv, s) := for_devices rget rput DEVITER_ROOT (fun p '(rv, s) =>
    if device_is_active (getd s p) || negb (device_is_enabled (getd s p)) then (true, (rv, s)) else
    if negb (parent_active s p) then (true, (rv, s)) else
    let '(ok, s) := pmf_device_resume p q s in (true, (rv && ok, s))) (true, s) in
  if rv then (rv, (ask (K_handlex 1) s).2) else (rv, s).

(** [flush]: no shutdown and no panic. *)
Definition pmf_system_suspend (flush : bool) (q : pmf_qual_t) (s : pmf) : bool * pmf :=
  let '(ok, s) := pmf_check_system_drivers s in
  if negb ok then (false, s) else
  let '(detached, s) := ask (K_handlex 0) s in
  if negb detached then (false, s) else
  let s := if flush then (ask K_sync s).2 else s in
  let '(_, s) := for_devices rget rput DEVITER_LEAVES (fun p '(rv, s) =>
    if negb (device_is_active (getd s p)) then (true, (rv, s)) else
    let '(_, s) := pmf_device_suspend p q s in (true, (rv, s))) (true, s) in
  (true, s).

End pmf.
