(* ===== verification/PmfFacts.v ===== *)
(** * One device at a time

    Suspending and resuming a device touch that device and the record of
    calls; the order of its levels and its lock are kept. *)

From stdpp Require Import base numbers strings list.
From S2P Require Import Prelude Sysctl Device DeviterThms Pmf.

(** ** Updates in place *)

Definition same_place (d d' : device) : Prop :=
  key d' = key d /\ dv_add_gen d' = dv_add_gen d /\ dv_del_gen d' = dv_del_gen d /\ dv_parent d' = dv_parent d /\
  dv_xname d' = dv_xname d /\ dv_hooks d' = dv_hooks d /\ dv_active d' = dv_active d.

Lemma same_place_refl d : same_place d d.
Proof. done. Qed.

Lemma same_place_trans a b c : same_place a b -> same_place b c -> same_place a c.
Proof. unfold same_place. intuition congruence. Qed.

Definition in_place (f : device -> device) : Prop := forall d, same_place d (f d).

Lemma on_dev_id l p : on_dev p (fun d => d) l = l.
Proof. unfold on_dev. rewrite <-(map_id l) at 2. apply map_ext. intros d. by destruct (_ =? _)%nat. Qed.

Lemma on_dev_on_dev p f g l : in_place f -> on_dev p g (on_dev p f l) = on_dev p (fun d => g (f d)) l.
Proof.
  intros Hf. unfold on_dev. rewrite map_map. apply map_ext. intros d. destruct (Nat.eqb_spec (dv_ptr d) p) as [<-|H].
  - destruct (Hf d) as [[= E _] _]. by rewrite E, Nat.eqb_refl.
  - by rewrite (proj2 (Nat.eqb_neq _ _) H).
Qed.

Lemma on_dev_ext p f g l : (forall d, d ∈ l -> dv_ptr d = p -> f d = g d) -> on_dev p f l = on_dev p g l.
Proof. intros H. apply map_ext_in. intros d Hd%list_elem_of_In. destruct (Nat.eqb_spec (dv_ptr d) p); [by apply H|done]. Qed.

Lemma dev_at_on_dev p p' f l : in_place f -> dev_at p' (on_dev p f l) = (if Nat.eqb p p' then f else id) <$> dev_at p' l.
Proof.
  intros Hf. unfold dev_at, on_dev. induction l as [|d l IH]; [done|]. cbn [map List.find].
  destruct (Nat.eqb_spec (dv_ptr d) p) as [E|E].
  - destruct (Hf d) as [[= Ed _] _]. rewrite Ed, E. destruct (Nat.eqb p p'); [done|exact IH].
  - destruct (Nat.eqb_spec (dv_ptr d) p') as [E'|E']; [|exact IH].
    destruct (Nat.eqb_spec p p') as [->|]; [by destruct E|done].
Qed.

Lemma device_ext d d' : key d' = key d -> dv_xname d' = dv_xname d -> dv_parent d' = dv_parent d ->
  dv_add_gen d' = dv_add_gen d -> dv_del_gen d' = dv_del_gen d -> dv_active d' = dv_active d ->
  dv_power_handlers d' = dv_power_handlers d -> dv_class_suspended d' = dv_class_suspended d ->
  dv_driver_suspended d' = dv_driver_suspended d -> dv_bus_suspended d' = dv_bus_suspended d ->
  dv_class_suspensors d' = dv_class_suspensors d -> dv_driver_suspensors d' = dv_driver_suspensors d ->
  dv_bus_suspensors d' = dv_bus_suspensors d -> dv_hooks d' = dv_hooks d -> dv_nlock d' = dv_nlock d ->
  dv_holder d' = dv_holder d -> d' = d.
Proof. destruct d, d'. unfold key. cbn. intros [= -> ->]. repeat intros ->. reflexivity. Qed.

(** [s'] is [s] with the device [p] changed by [f] and more calls recorded. *)
Definition dstep (p : nat) (f : device -> device) (s s' : pmf) : Prop :=
  in_place f /\ alldevs (p_ac s') = on_dev p f (alldevs (p_ac s)) /\
  p_ac s' = set_alldevs (alldevs (p_ac s')) (p_ac s).

Lemma dstep_refl p s : dstep p (fun d => d) s s.
Proof. split; [done|]. split; [by rewrite on_dev_id|]. by destruct s as [[] ?]. Qed.

Lemma dstep_calls p s cs : dstep p (fun d => d) s (set_p_calls cs s).
Proof. split; [done|]. split; [by rewrite on_dev_id|]. by destruct s as [[] ?]. Qed.

Lemma dstep_upd p f s : in_place f -> dstep p f s (upd p f s).
Proof. intros Hf. done. Qed.

Lemma dstep_trans p f g s s' s'' : dstep p f s s' -> dstep p g s' s'' -> dstep p (fun d => g (f d)) s s''.
Proof.
  intros (F1 & F2 & F3) (G1 & G2 & G3). split; [|split].
  - intros d. eapply same_place_trans; [apply F1|apply G1].
  - rewrite G2, F2. by apply on_dev_on_dev.
  - rewrite G3, F3. done.
Qed.

Definition present (s : pmf) (p : nat) : Prop := is_Some (dev_at p (alldevs (p_ac s))).

Lemma getd_dstep p f s s' p' : dstep p f s s' -> present s p' -> getd s' p' = if Nat.eqb p p' then f (getd s p') else getd s p'.
Proof.
  intros (Hf & Hl & _) [d Hd]. unfold getd. rewrite Hl, dev_at_on_dev, Hd by done. cbn. by destruct (Nat.eqb p p').
Qed.

Lemma present_dstep p f s s' p' : dstep p f s s' -> (present s' p' <-> present s p').
Proof. intros (Hf & Hl & _). unfold present. rewrite Hl, dev_at_on_dev by done. apply fmap_is_Some. Qed.

Lemma dstep_keeps p f s s' : dstep p f s s' -> keeps (p_ac s) (p_ac s').
Proof.
  intros (Hf & Hl & E). rewrite E. split; [|done]. cbn [alldevs set_alldevs]. rewrite Hl. unfold on_dev. rewrite map_map. apply map_ext. intros d.
  destruct (Nat.eqb _ _); [|done]. destruct (Hf d) as (E1 & E2 & E3 & _). unfold gkey. by rewrite E1, E2, E3.
Qed.

Create HintDb pmf.
#[export] Hint Resolve dstep_refl dstep_calls dstep_upd same_place_refl : pmf.

(** ** What a device becomes *)

Definition becomes (p : nat) (s : pmf) (d' : device) (s' : pmf) : Prop :=
  exists f, dstep p f s s' /\ f (getd s p) = d'.

Lemma becomes_refl p s : becomes p s (getd s p) s.
Proof. eexists. split; [apply dstep_refl|done]. Qed.

Lemma becomes_calls p s cs : becomes p s (getd s p) (set_p_calls cs s).
Proof. eexists. split; [apply dstep_calls|done]. Qed.

Lemma becomes_upd p f s : in_place f -> becomes p s (f (getd s p)) (upd p f s).
Proof. intros Hf. eexists. split; [by apply dstep_upd|done]. Qed.

Lemma becomes_getd p s d' s' : present s p -> becomes p s d' s' -> getd s' p = d' /\ present s' p.
Proof.
  intros Hp (f & Hd & <-). split; [|by apply (present_dstep _ _ _ _ _ Hd)]. rewrite (getd_dstep _ _ _ _ _ Hd Hp). by rewrite Nat.eqb_refl.
Qed.

Lemma becomes_trans p s d1 s1 d2 s2 : present s p -> becomes p s d1 s1 -> becomes p s1 d2 s2 -> becomes p s d2 s2.
Proof.
  intros Hp H1 (g & Hg & E). destruct (becomes_getd _ _ _ _ Hp H1) as [E1 _]. destruct H1 as (f & Hf & Ef).
  exists (fun d => g (f d)). split; [by eapply dstep_trans|]. by rewrite Ef, <-E1.
Qed.

Lemma becomes_place p s d' s' : becomes p s d' s' -> same_place (getd s p) d'.
Proof. intros (f & (Hf & _) & <-). apply Hf. Qed.

Lemma becomes_keeps p s d' s' : becomes p s d' s' -> keeps (p_ac s) (p_ac s').
Proof. intros (f & Hf & _). by eapply dstep_keeps. Qed.

Lemma becomes_other p s d' s' p' : becomes p s d' s' -> p' <> p -> getd s' p' = getd s p'.
Proof.
  intros (f & (Hf & Hl & _) & _) Hn. unfold getd. rewrite Hl, dev_at_on_dev by done.
  rewrite (proj2 (Nat.eqb_neq p p')) by done. by rewrite option_fmap_id.
Qed.

Lemma becomes_present p s d' s' p' : becomes p s d' s' -> (present s' p' <-> present s p').
Proof. intros (f & Hf & _). by eapply present_dstep. Qed.

(** Back where it was. *)
Lemma becomes_same p s s' : NoDup (map dv_ptr (alldevs (p_ac s))) -> becomes p s (getd s p) s' -> p_ac s' = p_ac s.
Proof.
  intros Hnd (f & (Hf & Hl & E) & Ef). rewrite E, Hl. assert (on_dev p f (alldevs (p_ac s)) = alldevs (p_ac s)) as ->; [|by destruct (p_ac s)].
  rewrite <-(on_dev_id (alldevs (p_ac s)) p) at 2. apply on_dev_ext. intros d Hd <-. revert Ef. unfold getd.
  by rewrite (dev_at_elem _ _ Hnd Hd).
Qed.

Section ops.
Context `{DR : Drivers} (curlwp : nat).

Lemma hook_becomes q lvl pr c p s : becomes p s (getd s p) (hook q lvl pr c s).2.
Proof. unfold hook, ask. destruct (_ && _); [apply becomes_calls|apply becomes_refl]. Qed.

(** The shape of the operations on a level: done already, not allowed, the
    handler, the flag. *)
Definition level_op (already bad : bool) (q : pmf_qual_t) (lvl : devact_level_t) (pr : bool) (c : pmf_call) (p : nat)
    (f : device -> device) (s : pmf) : bool * pmf :=
  if already then (true, s) else if bad then (false, s) else
  let '(ok, s) := hook q lvl pr c s in if negb ok then (false, s) else (true, upd p f s).

Definition if_ok (ok : bool) (f : device -> device) (d : device) : device := if ok then f d else d.

Lemma level_op_spec a b q lvl pr c p f s : present s p -> in_place f -> (a = true -> f (getd s p) = getd s p) ->
  let '(ok, s') := level_op a b q lvl pr c p f s in
  becomes p s (if_ok ok f (getd s p)) s' /\ (ok = true -> a = true \/ b = false).
Proof.
  intros Hp Hf Ha. unfold level_op. destruct a; [split; [|by left]; cbn; rewrite (Ha eq_refl); apply becomes_refl|].
  destruct b; [split; [apply becomes_refl|done]|]. pose proof (hook_becomes q lvl pr c p s) as H.
  destruct (hook q lvl pr c s) as [ok s1]. cbn [snd] in H. destruct ok; cbn [negb]; (split; [|by right]); [|exact H].
  eapply becomes_trans; [done|exact H|]. destruct (becomes_getd _ _ _ _ Hp H) as [<- _]. by apply becomes_upd.
Qed.

(** What each level's operation needs beside its handler. *)
Inductive level_act := Suspend (l : devact_level_t) | Resume (l : devact_level_t).

Definition act (a : level_act) : nat -> pmf_qual_t -> pmf -> bool * pmf :=
  match a with
  | Suspend DEVACT_LEVEL_CLASS => device_pmf_class_suspend
  | Suspend DEVACT_LEVEL_DRIVER => device_pmf_driver_suspend
  | Suspend DEVACT_LEVEL_BUS => device_pmf_bus_suspend
  | Resume DEVACT_LEVEL_CLASS => device_pmf_class_resume
  | Resume DEVACT_LEVEL_DRIVER => device_pmf_driver_resume
  | Resume DEVACT_LEVEL_BUS => device_pmf_bus_resume
  end.

Definition act_set (a : level_act) : device -> device :=
  match a with
  | Suspend DEVACT_LEVEL_CLASS => set_dv_class_suspended true
  | Suspend DEVACT_LEVEL_DRIVER => set_dv_driver_suspended true
  | Suspend DEVACT_LEVEL_BUS => set_dv_bus_suspended true
  | Resume DEVACT_LEVEL_CLASS => set_dv_class_suspended false
  | Resume DEVACT_LEVEL_DRIVER => set_dv_driver_suspended false
  | Resume DEVACT_LEVEL_BUS => set_dv_bus_suspended false
  end.

(** Nothing to do, and not allowed. *)
Definition act_done (a : level_act) (d : device) : bool :=
  match a with
  | Suspend DEVACT_LEVEL_CLASS => dv_class_suspended d
  | Suspend DEVACT_LEVEL_DRIVER => dv_driver_suspended d
  | Suspend DEVACT_LEVEL_BUS => dv_bus_suspended d
  | Resume DEVACT_LEVEL_CLASS => negb (dv_class_suspended d)
  | Resume DEVACT_LEVEL_DRIVER => negb (dv_driver_suspended d)
  | Resume DEVACT_LEVEL_BUS => negb (dv_bus_suspended d)
  end.

Definition act_bad (a : level_act) (d : device) : bool :=
  match a with
  | Suspend DEVACT_LEVEL_CLASS => false
  | Suspend DEVACT_LEVEL_DRIVER => negb (dv_class_suspended d)
  | Suspend DEVACT_LEVEL_BUS => negb (dv_class_suspended d) || negb (dv_driver_suspended d)
  | Resume DEVACT_LEVEL_CLASS => dv_bus_suspended d || dv_driver_suspended d
  | Resume DEVACT_LEVEL_DRIVER => dv_bus_suspended d
  | Resume DEVACT_LEVEL_BUS => false
  end.

Lemma act_spec a p q s : present s p ->
  let '(ok, s') := act a p q s in
  becomes p s (if_ok ok (act_set a) (getd s p)) s' /\
  (ok = true -> act_done a (getd s p) = true \/ act_bad a (getd s p) = false).
Proof.
  intros Hp. assert (exists lvl pr c, act a p q s = level_op (act_done a (getd s p)) (act_bad a (getd s p)) q lvl pr c p (act_set a) s) as (lvl & pr & c & ->).
  { destruct a as [[]|[]]; do 3 eexists; reflexivity. }
  apply level_op_spec; [done|by destruct a as [[]|[]]|]. generalize (getd s p). intros d.
  destruct a as [[]|[]], d; cbn; try (intros ->; done); intros ->%negb_true_iff; done.
Qed.

(** Bus below driver below class. *)
Definition levels_ok (d : device) : Prop :=
  (dv_bus_suspended d = true -> dv_driver_suspended d = true) /\ (dv_driver_suspended d = true -> dv_class_suspended d = true).

Lemma act_levels a ok d : levels_ok d -> (ok = true -> act_done a d = true \/ act_bad a d = false) -> levels_ok (if_ok ok (act_set a) d).
Proof.
  unfold levels_ok. intros [H1 H2] Ha. destruct ok; [|done]. specialize (Ha eq_refl).
  destruct a as [[]|[]]; cbn in *; destruct (dv_class_suspended d), (dv_driver_suspended d), (dv_bus_suspended d); naive_solver.
Qed.

(** ** Suspensors and lock *)

Definition same_levels (d d' : device) : Prop :=
  dv_class_suspended d' = dv_class_suspended d /\ dv_driver_suspended d' = dv_driver_suspended d /\ dv_bus_suspended d' = dv_bus_suspended d.

Lemma on_suspensors_place f d : same_place d (on_suspensors f d).2 /\ same_levels d (on_suspensors f d).2 /\
  dv_nlock (on_suspensors f d).2 = dv_nlock d /\ dv_holder (on_suspensors f d).2 = dv_holder d /\
  dv_power_handlers (on_suspensors f d).2 = dv_power_handlers d.
Proof.
  unfold on_suspensors. destruct (f (dv_class_suspensors d)) as [ok1 l1]. destruct ok1; cbn [negb]; [|done].
  cbn [dv_driver_suspensors set_dv_class_suspensors]. destruct (f (dv_driver_suspensors d)) as [ok2 l2]. destruct ok2; cbn [negb]; [|done].
  cbn [dv_bus_suspensors set_dv_driver_suspensors set_dv_class_suspensors]. by destruct (f (dv_bus_suspensors d)).
Qed.

Lemma upd_ret_becomes p f s : (forall d, same_place d (f d).2) ->
  (upd_ret p f s).1 = (f (getd s p)).1 /\ becomes p s (f (getd s p)).2 (upd_ret p f s).2.
Proof. intros Hf. split; [done|]. by apply (becomes_upd p (fun d => (f d).2)). Qed.

Definition locked (d : device) : device := set_dv_holder (Some curlwp) (set_dv_nlock (dv_nlock d + 1) d).
Definition unlocked (d : device) : device :=
  let d := set_dv_nlock (dv_nlock d - 1) d in if dv_nlock d =? 0 then set_dv_holder None d else d.

(** Free, or held by this LWP. *)
Definition lockable (d : device) : bool := negb ((0 <? dv_nlock d) && negb (bool_decide (dv_holder d = Some curlwp))).

Lemma lock_spec p s : dv_power_handlers (getd s p) = true -> lockable (getd s p) = true ->
  device_pmf_lock curlwp p s = (true, upd p locked s).
Proof.
  unfold lockable, device_pmf_lock, device_pmf_is_registered. intros Hr Hl. rewrite Hr. cbn [andb].
  apply negb_true_iff in Hl. rewrite Hl. by rewrite Hr.
Qed.

Lemma locked_place d : same_place d (locked d).
Proof. done. Qed.

Lemma unlocked_last d : dv_nlock d = 1 -> unlocked d = set_dv_holder None (set_dv_nlock 0 d).
Proof. unfold unlocked. cbn [dv_nlock set_dv_nlock]. by intros ->. Qed.

Lemma unlocked_place d : same_place d (unlocked d).
Proof. unfold unlocked. cbn. by destruct (_ =? 0). Qed.

End ops.
