(* ===== verification/PmfThms.v ===== *)
(** * Suspending and resuming a device

    A device is back where it was after a suspension, complete or failed, and
    its resumption; it stays suspended while one suspensor is left; its levels
    stay in order whatever its handlers answer. *)

From stdpp Require Import base numbers strings list.
From S2P Require Import Prelude Sysctl Device DeviterThms Pmf PmfFacts.

(** ** The three arrays *)

Notation slots := (list (option device_suspensor_t)).

Definition susp3 (d : device) : slots * slots * slots := (dv_class_suspensors d, dv_driver_suspensors d, dv_bus_suspensors d).
Definition set_susp3 (t : slots * slots * slots) (d : device) : device :=
  set_dv_bus_suspensors t.2 (set_dv_driver_suspensors t.1.2 (set_dv_class_suspensors t.1.1 d)).

Definition on3 (f : slots -> bool * slots) (t : slots * slots * slots) : bool * (slots * slots * slots) :=
  let '(c, dr, b) := t in
  let '(ok, c) := f c in if negb ok then (false, (c, dr, b)) else
  let '(ok, dr) := f dr in if negb ok then (false, (c, dr, b)) else
  let '(ok, b) := f b in (ok, (c, dr, b)).

Lemma on_suspensors_on3 f d : on_suspensors f d = ((on3 f (susp3 d)).1, set_susp3 (on3 f (susp3 d)).2 d).
Proof.
  unfold on_suspensors, on3, susp3. cbn. destruct (f (dv_class_suspensors d)) as [[] c]; cbn; [|by destruct d].
  destruct (f (dv_driver_suspensors d)) as [[] dr]; cbn; [|by destruct d]. destruct (f (dv_bus_suspensors d)) as [ok b]. by destruct d.
Qed.

(** No slot taken. *)
Definition free (l : slots) : Prop := Forall (fun x => x = None) l.
Definition free3 (t : slots * slots * slots) : Prop := free t.1.1 /\ free t.1.2 /\ free t.2.

Lemma assume_free ds l : free l -> assume_suspensor ds l = None.
Proof. induction 1 as [|x l -> _ IH]; [done|]. cbn. by rewrite IH. Qed.

Lemma drop_free ds l : free l -> drop_suspensor ds l = None.
Proof. induction 1 as [|x l -> _ IH]; [done|]. cbn. by rewrite IH. Qed.

Lemma any_free l : free l -> any_suspensor l = false.
Proof. by induction 1 as [|x l -> _ IH]. Qed.

Lemma remove_add l ds : free l -> (remove_suspensor (add_suspensor l ds).2 ds) = ((add_suspensor l ds).1, l).
Proof.
  intros H. unfold add_suspensor. rewrite (assume_free _ _ H). destruct l as [|x l]; cbn; [done|].
  apply Forall_cons in H as [-> H]. cbn. unfold remove_suspensor. cbn. by rewrite decide_True.
Qed.

Lemma remove_add3 t ds : free3 t -> (on3 (fun l => remove_suspensor l ds) (on3 (fun l => add_suspensor l ds) t).2).2 = t.
Proof.
  destruct t as [[c dr] b]. intros (H1 & H2 & H3). cbn in *. pose proof (remove_add c ds H1) as E1.
  pose proof (remove_add dr ds H2) as E2. pose proof (remove_add b ds H3) as E3.
  assert (remove_suspensor dr ds = (false, dr)) as F2 by (unfold remove_suspensor; by rewrite drop_free).
  assert (remove_suspensor b ds = (false, b)) as F3 by (unfold remove_suspensor; by rewrite drop_free).
  destruct (add_suspensor c ds) as [[] c']; cbn in *.
  - destruct (add_suspensor dr ds) as [[] dr']; cbn in *.
    + destruct (add_suspensor b ds) as [ok b']; cbn in *. rewrite E1. cbn. rewrite E2. cbn. by rewrite E3.
    + rewrite E1. cbn. by rewrite E2.
  - by rewrite E1.
Qed.

(** ** With the lock held *)

Section thms.
Context `{DR : Drivers} (curlwp : nat).

(** How far a suspension got. *)
Inductive suspended_to (d : device) : bool -> device -> Prop :=
  | st_none : suspended_to d false d
  | st_class : suspended_to d false (set_dv_class_suspended true d)
  | st_driver : suspended_to d false (set_dv_driver_suspended true (set_dv_class_suspended true d))
  | st_bus : suspended_to d true (set_dv_bus_suspended true (set_dv_driver_suspended true (set_dv_class_suspended true d))).

Inductive resumed_to (d : device) : bool -> device -> Prop :=
  | rt_none : resumed_to d false d
  | rt_bus : resumed_to d false (set_dv_bus_suspended false d)
  | rt_driver : resumed_to d false (set_dv_driver_suspended false (set_dv_bus_suspended false d))
  | rt_class : resumed_to d true (set_dv_class_suspended false (set_dv_driver_suspended false (set_dv_bus_suspended false d))).

(** Three levels in turn, until one fails. *)
Definition acts3 (a1 a2 a3 : level_act) (p : nat) (q : pmf_qual_t) (s : pmf) : bool * pmf :=
  let '(ok, s) := act a1 p q s in
  if negb ok then (false, s) else
  let '(ok, s) := act a2 p q s in
  if negb ok then (false, s) else act a3 p q s.

Lemma acts3_spec a1 a2 a3 p q s : present s p ->
  let '(ok, s') := acts3 a1 a2 a3 p q s in
  exists d', becomes p s d' s' /\ (levels_ok (getd s p) -> levels_ok d') /\
  let d := getd s p in
  ((ok = false /\ (d' = d \/ d' = act_set a1 d \/ d' = act_set a2 (act_set a1 d))) \/ (ok = true /\ d' = act_set a3 (act_set a2 (act_set a1 d)))).
Proof.
  intros Hp. unfold acts3. pose proof (act_spec a1 p q s Hp) as H1. destruct (act a1 p q s) as [ok1 s1]. destruct H1 as [H1 A1].
  destruct (becomes_getd _ _ _ _ Hp H1) as [G1 P1]. destruct ok1; cbn [negb if_ok] in *.
  2:{ exists (getd s p). split; [done|]. auto. }
  pose proof (act_spec a2 p q s1 P1) as H2. destruct (act a2 p q s1) as [ok2 s2]. destruct H2 as [H2 A2].
  destruct (becomes_getd _ _ _ _ P1 H2) as [G2 P2]. pose proof (becomes_trans _ _ _ _ _ _ Hp H1 H2) as H12. rewrite G1 in *.
  destruct ok2; cbn [negb if_ok] in *.
  2:{ eexists. split; [exact H12|]. split; [intros L; by apply (act_levels a1 true)|]. auto. }
  pose proof (act_spec a3 p q s2 P2) as H3. destruct (act a3 p q s2) as [ok3 s3]. destruct H3 as [H3 A3]. rewrite G2 in *.
  exists (if_ok ok3 (act_set a3) (act_set a2 (act_set a1 (getd s p)))). split; [by eapply becomes_trans|]. split.
  - intros L. apply act_levels; [|done]. apply (act_levels a2 true); [|done]. by apply (act_levels a1 true).
  - destruct ok3; cbn; auto.
Qed.

Definition add_of (q : pmf_qual_t) (d : device) : device := (device_pmf_add_suspensor q d).2.
Definition remove_of (q : pmf_qual_t) (d : device) : device := (device_pmf_remove_suspensor q d).2.

Lemma suspend_locked_spec p q s : present s p ->
  let '(ok, s') := pmf_device_suspend_locked p q s in
  exists d', becomes p s d' s' /\ suspended_to (add_of q (getd s p)) ok d' /\ (levels_ok (getd s p) -> levels_ok d') /\
    (ok = true -> (device_pmf_add_suspensor q (getd s p)).1 = true).
Proof.
  intros Hp. unfold pmf_device_suspend_locked, add_of.
  destruct (upd_ret_becomes p (device_pmf_add_suspensor q) s) as [E1 H1]; [intros d; apply on_suspensors_place|].
  destruct (upd_ret p (device_pmf_add_suspensor q) s) as [ok1 s1]. cbn [fst snd] in *. destruct (becomes_getd _ _ _ _ Hp H1) as [G1 P1].
  destruct (on_suspensors_place (fun l => add_suspensor l (pmf_qual_suspension q)) (getd s p)) as (_ & (L1 & L2 & L3) & _).
  fold (device_pmf_add_suspensor q (getd s p)) in L1, L2, L3. set (d1 := (device_pmf_add_suspensor q (getd s p)).2) in *.
  assert (levels_ok (getd s p) -> levels_ok d1) as L by (unfold levels_ok; by rewrite L1, L2, L3).
  destruct ok1; cbn [negb]; [|by exists d1; split; [|split; [constructor|]]]. rewrite <-E1.
  pose proof (acts3_spec (Suspend DEVACT_LEVEL_CLASS) (Suspend DEVACT_LEVEL_DRIVER) (Suspend DEVACT_LEVEL_BUS) p q s1 P1) as H2.
  unfold acts3 in H2. cbn [act] in H2.
  match goal with |- let '(_, _) := ?x in _ => destruct x as [ok s'] end. destruct H2 as (d' & H2 & L' & R). rewrite G1 in *. exists d'.
  split; [by eapply becomes_trans|]. split; [|auto]. destruct R as [(-> & [-> | [-> | ->]]) | (-> & ->)]; constructor.
Qed.

Lemma resume_locked_spec p q s : present s p ->
  let '(ok, s') := pmf_device_resume_locked p q s in
  exists d', becomes p s d' s' /\ (levels_ok (getd s p) -> levels_ok d') /\
  if device_pmf_any_suspensor (remove_of q (getd s p)) DEVACT_LEVEL_FULL
  then ok = true /\ d' = remove_of q (getd s p) /\ p_calls s' = p_calls s
  else resumed_to (remove_of q (getd s p)) ok d'.
Proof.
  intros Hp. unfold pmf_device_resume_locked, remove_of.
  destruct (upd_ret_becomes p (device_pmf_remove_suspensor q) s) as [_ H1]; [intros d; apply on_suspensors_place|].
  assert (p_calls (upd_ret p (device_pmf_remove_suspensor q) s).2 = p_calls s) as Hc by done.
  destruct (upd_ret p (device_pmf_remove_suspensor q) s) as [ok1 s1]. cbn [fst snd] in *. destruct (becomes_getd _ _ _ _ Hp H1) as [G1 P1].
  destruct (on_suspensors_place (fun l => remove_suspensor l (pmf_qual_suspension q)) (getd s p)) as (_ & (L1 & L2 & L3) & _).
  fold (device_pmf_remove_suspensor q (getd s p)) in L1, L2, L3. set (d1 := (device_pmf_remove_suspensor q (getd s p)).2) in *.
  assert (levels_ok (getd s p) -> levels_ok d1) as L by (unfold levels_ok; by rewrite L1, L2, L3). rewrite G1.
  destruct (device_pmf_any_suspensor d1 DEVACT_LEVEL_FULL); [by exists d1|].
  pose proof (acts3_spec (Resume DEVACT_LEVEL_BUS) (Resume DEVACT_LEVEL_DRIVER) (Resume DEVACT_LEVEL_CLASS) p q s1 P1) as H2.
  unfold acts3 in H2. cbn [act] in H2.
  match goal with |- let '(_, _) := ?x in _ => destruct x as [ok s'] end. destruct H2 as (d' & H2 & L' & R). rewrite G1 in *. exists d'.
  split; [by eapply becomes_trans|]. split; [auto|]. destruct R as [(-> & [-> | [-> | ->]]) | (-> & ->)]; constructor.
Qed.

(** ** With the lock taken and let go *)

(** An operation under the lock. *)
Definition under_lock (op : pmf -> bool * pmf) (p : nat) (s : pmf) : bool * pmf :=
  if negb (device_pmf_is_registered (getd s p)) then (false, s) else
  let '(ok, s) := device_pmf_lock curlwp p s in
  if negb ok then (false, s) else
  let '(rc, s) := op s in (rc, device_pmf_unlock p s).

Lemma suspend_under_lock p q s : pmf_device_suspend curlwp p q s = under_lock (pmf_device_suspend_locked p q) p s.
Proof. done. Qed.

Lemma resume_under_lock p q s : pmf_device_resume curlwp p q s = under_lock (pmf_device_resume_locked p q) p s.
Proof. done. Qed.

Definition ready (d : device) : Prop := dv_power_handlers d = true /\ lockable curlwp d = true.

Lemma under_lock_spec op p s (R : bool -> device -> pmf -> Prop) : present s p -> ready (getd s p) ->
  (forall s1, present s1 p -> getd s1 p = locked curlwp (getd s p) -> p_calls s1 = p_calls s ->
    let '(ok, s2) := op s1 in exists d', becomes p s1 d' s2 /\ R ok d' s2) ->
  let '(ok, s') := under_lock op p s in exists d' s2, becomes p s (unlocked d') s' /\ R ok d' s2 /\ p_calls s' = p_calls s2.
Proof.
  intros Hp [Hr Hl] Hop. unfold under_lock, device_pmf_is_registered. rewrite Hr. cbn [negb]. rewrite (lock_spec curlwp p s Hr Hl). cbn [negb].
  assert (becomes p s (locked curlwp (getd s p)) (upd p (locked curlwp) s)) as H1 by (by apply becomes_upd).
  destruct (becomes_getd _ _ _ _ Hp H1) as [G1 P1]. specialize (Hop _ P1 G1 eq_refl).
  destruct (op (upd p (locked curlwp) s)) as [ok s2]. destruct Hop as (d' & H2 & HR). exists d', s2. split; [|done].
  destruct (becomes_getd _ _ _ _ P1 H2) as [G2 P2]. eapply becomes_trans; [done|exact H1|]. eapply becomes_trans; [done|exact H2|].
  rewrite <-G2. apply (becomes_upd p unlocked s2). intros d. apply unlocked_place.
Qed.

Lemma pmf_suspend_spec p q s : present s p -> ready (getd s p) ->
  let '(ok, s') := pmf_device_suspend curlwp p q s in
  exists d', becomes p s (unlocked d') s' /\ suspended_to (add_of q (locked curlwp (getd s p))) ok d' /\
    (ok = true -> (device_pmf_add_suspensor q (locked curlwp (getd s p))).1 = true).
Proof.
  intros Hp Hr. rewrite suspend_under_lock.
  pose proof (under_lock_spec (pmf_device_suspend_locked p q) p s (fun ok d' _ => suspended_to (add_of q (locked curlwp (getd s p))) ok d' /\
    (ok = true -> (device_pmf_add_suspensor q (locked curlwp (getd s p))).1 = true)) Hp Hr) as H.
  destruct (under_lock _ p s) as [ok s']. destruct H as (d' & s2 & H & H2 & _); [|by exists d'].
  intros s1 P1 G1 _. pose proof (suspend_locked_spec p q s1 P1) as H1. destruct (pmf_device_suspend_locked p q s1) as [ok1 s2].
  destruct H1 as (d' & H1 & H2 & _ & H4). exists d'. by rewrite <-G1.
Qed.

Lemma pmf_resume_spec p q s : present s p -> ready (getd s p) ->
  let '(ok, s') := pmf_device_resume curlwp p q s in
  exists d', becomes p s (unlocked d') s' /\
  if device_pmf_any_suspensor (remove_of q (locked curlwp (getd s p))) DEVACT_LEVEL_FULL
  then ok = true /\ d' = remove_of q (locked curlwp (getd s p)) /\ p_calls s' = p_calls s
  else resumed_to (remove_of q (locked curlwp (getd s p))) ok d'.
Proof.
  intros Hp Hr. rewrite resume_under_lock.
  pose proof (under_lock_spec (pmf_device_resume_locked p q) p s (fun ok d' s2 =>
    if device_pmf_any_suspensor (remove_of q (locked curlwp (getd s p))) DEVACT_LEVEL_FULL
    then ok = true /\ d' = remove_of q (locked curlwp (getd s p)) /\ p_calls s2 = p_calls s
    else resumed_to (remove_of q (locked curlwp (getd s p))) ok d') Hp Hr) as H.
  destruct (under_lock _ p s) as [ok s']. destruct H as (d' & s2 & H & H2 & Hc); [|exists d'; by rewrite Hc].
  intros s1 P1 G1 C1. pose proof (resume_locked_spec p q s1 P1) as H1. destruct (pmf_device_resume_locked p q s1) as [ok1 s2].
  destruct H1 as (d' & H1 & _ & H2). exists d'. rewrite <-G1, <-C1. done.
Qed.

(** ** Round trips *)

(** At no level suspended, no suspensor, its lock free. *)
Record awake (d : device) : Prop := {
  aw_flags : dv_class_suspended d = false /\ dv_driver_suspended d = false /\ dv_bus_suspended d = false;
  aw_susp : free3 (susp3 d);
  aw_lock : dv_nlock d = 0 /\ dv_holder d = None
}.

(** What a suspension leaves of an awake device. *)
Definition asleep_from (q : pmf_qual_t) (d : device) (ok : bool) (d' : device) : Prop :=
  exists c dr b, d' = set_dv_bus_suspended b (set_dv_driver_suspended dr (set_dv_class_suspended c (add_of q d))) /\
    (ok = true -> c = true /\ dr = true /\ b = true).

Lemma add_of_alt q d : add_of q d = set_susp3 (on3 (fun l => add_suspensor l (pq_suspensor q)) (susp3 d)).2 d.
Proof. unfold add_of, device_pmf_add_suspensor. by rewrite on_suspensors_on3. Qed.

Lemma remove_of_alt q d : remove_of q d = set_susp3 (on3 (fun l => remove_suspensor l (pq_suspensor q)) (susp3 d)).2 d.
Proof. unfold remove_of, device_pmf_remove_suspensor. by rewrite on_suspensors_on3. Qed.

Lemma susp3_locked d : susp3 (locked curlwp d) = susp3 d.
Proof. done. Qed.

Lemma suspended_asleep q d ok d' : awake d -> suspended_to (add_of q (locked curlwp d)) ok d' -> asleep_from q d ok (unlocked d').
Proof.
  intros [(F1 & F2 & F3) _ (N & O)] H. unfold asleep_from. rewrite !add_of_alt in *.
  rewrite susp3_locked in H. set (t := (on3 _ (susp3 d)).2) in *.
  assert (dv_nlock d' = 1 /\ ok = true \/ ok = false /\ dv_nlock d' = 1) as Hn by (destruct H; cbn; rewrite N; auto).
  rewrite unlocked_last by naive_solver. clear Hn.
  destruct H; [exists false, false, false|exists true, false, false|exists true, true, false|exists true, true, true];
    (split; [|done]); (apply device_ext; try reflexivity; cbn; assumption || by symmetry).
Qed.

Lemma asleep_ready q d ok d' : ready d -> asleep_from q d ok d' -> ready d'.
Proof. intros Hr (c & dr & b & -> & _). rewrite add_of_alt. exact Hr. Qed.

Lemma asleep_resumes q d ok d' d2 : awake d -> asleep_from q d ok d' ->
  device_pmf_any_suspensor (remove_of q (locked curlwp d')) DEVACT_LEVEL_FULL = false /\
  (resumed_to (remove_of q (locked curlwp d')) true d2 -> unlocked d2 = d).
Proof.
  intros [(F1 & F2 & F3) Hf (N & O)] (c & dr & b & -> & _). rewrite remove_of_alt, add_of_alt.
  pose proof (remove_add3 (susp3 d) (pq_suspensor q) Hf) as E. set (t := on3 (fun l => add_suspensor l (pq_suspensor q)) (susp3 d)) in *.
  assert (susp3 (locked curlwp (set_dv_bus_suspended b (set_dv_driver_suspended dr (set_dv_class_suspended c (set_susp3 t.2 d))))) = t.2) as ->.
  { by destruct t as [? [[? ?] ?]]. }
  rewrite E. destruct Hf as (A1 & A2 & A3). split.
  - unfold device_pmf_any_suspensor, DEVACT_LEVEL_FULL. cbn. by rewrite !any_free.
  - intros H. inversion H; subst. rewrite unlocked_last by (cbn; lia). apply device_ext; try reflexivity; cbn; assumption || by symmetry.
Qed.

(** C28. Suspending an awake device with power handlers and then resuming it under the
    same qualifier leaves the device list as it was if the resume succeeds, whatever the
    suspension's handlers answered; a successful suspension has suspended all three
    levels. *)
Theorem pmf_suspend_resume_roundtrip p q s ok s1 s2 : NoDup (map dv_ptr (alldevs (p_ac s))) -> present s p ->
  awake (getd s p) -> dv_power_handlers (getd s p) = true ->
  pmf_device_suspend curlwp p q s = (ok, s1) ->
  (ok = true -> dv_class_suspended (getd s1 p) = true /\ dv_driver_suspended (getd s1 p) = true /\ dv_bus_suspended (getd s1 p) = true) /\
  (pmf_device_resume curlwp p q s1 = (true, s2) -> p_ac s2 = p_ac s).
Proof.
  intros Hnd Hp Ha Hr E. assert (ready (getd s p)) as Hrd.
  { split; [done|]. unfold lockable. by rewrite (proj1 (aw_lock _ Ha)). }
  pose proof (pmf_suspend_spec p q s Hp Hrd) as H. rewrite E in H. destruct H as (d' & H1 & H2 & _).
  apply (suspended_asleep q (getd s p) ok d' Ha) in H2. destruct (becomes_getd _ _ _ _ Hp H1) as [G1 P1]. split.
  - intros Hok. destruct H2 as (c & dr & b & E2 & Hc). rewrite G1, E2. destruct (Hc Hok) as (-> & -> & ->). done.
  - intros E2. rewrite <-G1 in H2. pose proof (pmf_resume_spec p q s1 P1 (asleep_ready _ _ _ _ Hrd H2)) as H3. rewrite E2 in H3.
    destruct H3 as (d2 & H3 & H4). destruct (asleep_resumes q (getd s p) ok (getd s1 p) d2 Ha H2) as [F R]. rewrite F in H4.
    apply (becomes_same p); [done|]. rewrite <-(R H4) at 1. by eapply becomes_trans.
Qed.

(** ** Two suspensors *)

(** Suspended at every level, with the suspensors [t]. *)
Definition down (t : slots * slots * slots) (d : device) : device :=
  set_dv_bus_suspended true (set_dv_driver_suspended true (set_dv_class_suspended true (set_susp3 t d))).

Lemma susp3_down t d : susp3 (down t d) = t.
Proof. by destruct t as [[? ?] ?]. Qed.

Definition lock_free (d : device) : Prop := dv_power_handlers d = true /\ dv_nlock d = 0 /\ dv_holder d = None.

Lemma lock_free_ready d : lock_free d -> ready d.
Proof. intros (H1 & H2 & _). split; [done|]. unfold lockable. by rewrite H2. Qed.

Lemma suspend_down p q s s' : present s p -> lock_free (getd s p) -> pmf_device_suspend curlwp p q s = (true, s') ->
  let r := on3 (fun l => add_suspensor l (pq_suspensor q)) (susp3 (getd s p)) in r.1 = true /\ becomes p s (down r.2 (getd s p)) s'.
Proof.
  intros Hp Hl E. pose proof (pmf_suspend_spec p q s Hp (lock_free_ready _ Hl)) as H. rewrite E in H. destruct H as (d' & H1 & H2 & H3).
  specialize (H3 eq_refl). unfold device_pmf_add_suspensor in H3. rewrite on_suspensors_on3 in H3. split; [exact H3|].
  rewrite add_of_alt in H2. rewrite susp3_locked in H2.
  set (t := (on3 _ (susp3 (getd s p))).2) in *. assert (unlocked d' = down t (getd s p)) as <-; [|done].
  destruct Hl as (_ & N & O). inversion H2; subst d'. rewrite unlocked_last by (cbn; lia).
  apply device_ext; try reflexivity; cbn; assumption || by symmetry.
Qed.

(** Resuming a device that is [down]. *)
Lemma resume_down p q s s' t d : present s p -> lock_free d -> getd s p = down t d -> pmf_device_resume curlwp p q s = (true, s') ->
  let r := (on3 (fun l => remove_suspensor l (pq_suspensor q)) t).2 in
  if device_pmf_any_suspensor (set_susp3 r d) DEVACT_LEVEL_FULL
  then becomes p s (down r d) s' /\ p_calls s' = p_calls s
  else dv_class_suspended d = false -> dv_driver_suspended d = false -> dv_bus_suspended d = false -> becomes p s (set_susp3 r d) s'.
Proof.
  intros Hp Hl G E r. assert (lock_free (getd s p)) as Hl' by (by rewrite G).
  pose proof (pmf_resume_spec p q s Hp (lock_free_ready _ Hl')) as H. rewrite E in H. destruct H as (d' & H1 & H2).
  rewrite G in H2. rewrite remove_of_alt in H2. rewrite susp3_locked, susp3_down in H2.
  fold r in H2. change (device_pmf_any_suspensor (set_susp3 r (locked curlwp (down t d))) DEVACT_LEVEL_FULL)
    with (device_pmf_any_suspensor (set_susp3 r d) DEVACT_LEVEL_FULL) in H2. destruct Hl as (_ & N & O).
  destruct (device_pmf_any_suspensor _ _).
  - destruct H2 as (_ & -> & Hc). split; [|done]. assert (unlocked (set_susp3 r (locked curlwp (down t d))) = down r d) as <-; [|done].
    rewrite unlocked_last by (cbn; lia). apply device_ext; try reflexivity; cbn; assumption || by symmetry.
  - intros F1 F2 F3. inversion H2; subst d'. match type of H1 with becomes _ _ ?x _ => assert (x = set_susp3 r d) as Ex end; [|by rewrite Ex in H1].
    rewrite unlocked_last by (cbn; lia). apply device_ext; try reflexivity; cbn; assumption || by symmetry.
Qed.

Definition distinct (x y : device_suspensor_t) : Prop :=
  x <> y /\ device_suspensor_delegates_to x y = false /\ device_suspensor_delegates_to y x = false.

Lemma two_slots x y l l1 l2 : distinct x y -> free l -> add_suspensor l x = (true, l1) -> add_suspensor l1 y = (true, l2) ->
  exists l3, remove_suspensor l2 x = (true, l3) /\ any_suspensor l3 = true /\ remove_suspensor l3 y = (true, l).
Proof.
  intros (Hn & D1 & D2) Hf. unfold add_suspensor at 1. rewrite (assume_free _ _ Hf). destruct l as [|a l]; [done|]. apply Forall_cons in Hf as [-> Hf].
  cbn [take_slot]. intros [= <-]. unfold add_suspensor. cbn [assume_suspensor]. rewrite decide_False by congruence. rewrite D2, (assume_free _ _ Hf).
  cbn [fmap option_fmap option_map take_slot]. destruct l as [|b l]; [done|]. apply Forall_cons in Hf as [-> Hf]. cbn [take_slot fmap option_fmap option_map].
  intros [= <-]. unfold remove_suspensor. cbn [drop_suspensor]. rewrite decide_True by done. eexists. split; [done|]. split; [done|].
  cbn [drop_suspensor]. by rewrite decide_True.
Qed.

Lemma on3_true f t t' : on3 f t = (true, t') -> f t.1.1 = (true, t'.1.1) /\ f t.1.2 = (true, t'.1.2) /\ f t.2 = (true, t'.2).
Proof.
  destruct t as [[c dr] b]. cbn. destruct (f c) as [[] c'], (f dr) as [[] dr'], (f b) as [[] b']; cbn; intros [= <-]; done.
Qed.

Lemma on3_intro f t t' : f t.1.1 = (true, t'.1.1) -> f t.1.2 = (true, t'.1.2) -> f t.2 = (true, t'.2) -> on3 f t = (true, t').
Proof. destruct t as [[c dr] b], t' as [[c' dr'] b']. cbn. intros -> -> ->. done. Qed.

Lemma two_slots3 x y t t1 t2 : distinct x y -> free3 t -> on3 (fun l => add_suspensor l x) t = (true, t1) -> on3 (fun l => add_suspensor l y) t1 = (true, t2) ->
  exists t3, on3 (fun l => remove_suspensor l x) t2 = (true, t3) /\ any_suspensor t3.1.1 = true /\ on3 (fun l => remove_suspensor l y) t3 = (true, t).
Proof.
  intros Hd (F1 & F2 & F3) (A1 & A2 & A3)%on3_true (B1 & B2 & B3)%on3_true.
  destruct (two_slots x y _ _ _ Hd F1 A1 B1) as (c & C1 & C2 & C3). destruct (two_slots x y _ _ _ Hd F2 A2 B2) as (dr & D1 & D2 & D3).
  destruct (two_slots x y _ _ _ Hd F3 A3 B3) as (b & E1 & E2 & E3). exists (c, dr, b). split; [by apply on3_intro|]. split; [done|]. by apply on3_intro.
Qed.

(** A device suspended by two suspensors calls no handler and stays suspended when the
    first lets go; when the second does it is as it was before both. *)
Theorem pmf_resume_waits_for_all p q1 q2 s s1 s2 s3 s4 : NoDup (map dv_ptr (alldevs (p_ac s))) -> present s p ->
  awake (getd s p) -> dv_power_handlers (getd s p) = true -> distinct (pq_suspensor q1) (pq_suspensor q2) ->
  pmf_device_suspend curlwp p q1 s = (true, s1) -> pmf_device_suspend curlwp p q2 s1 = (true, s2) ->
  pmf_device_resume curlwp p q1 s2 = (true, s3) -> pmf_device_resume curlwp p q2 s3 = (true, s4) ->
  p_calls s3 = p_calls s2 /\ dv_class_suspended (getd s3 p) = true /\ dv_driver_suspended (getd s3 p) = true /\ dv_bus_suspended (getd s3 p) = true /\
  p_ac s4 = p_ac s.
Proof.
  intros Hnd Hp [(F1 & F2 & F3) Hf (N & O)] Hr Hd E1 E2 E3 E4. set (d := getd s p) in *. assert (lock_free d) as Hl by done.
  destruct (suspend_down p q1 s s1 Hp Hl E1) as [A1 S1]. fold d in A1, S1. destruct (becomes_getd _ _ _ _ Hp S1) as [G1 P1].
  destruct (on3 (fun l => add_suspensor l (pq_suspensor q1)) (susp3 d)) as [ok1 t1] eqn:T1. cbn [fst snd] in *. subst ok1.
  assert (lock_free (getd s1 p)) as Hl1 by (by rewrite G1). destruct (suspend_down p q2 s1 s2 P1 Hl1 E2) as [A2 S2].
  destruct (becomes_getd _ _ _ _ P1 S2) as [G2 P2]. rewrite G1, susp3_down in A2, G2.
  destruct (on3 (fun l => add_suspensor l (pq_suspensor q2)) t1) as [ok2 t2] eqn:T2. cbn [fst snd] in *. subst ok2.
  assert (down t2 (down t1 d) = down t2 d) as Edd by (apply device_ext; reflexivity). rewrite Edd in G2.
  destruct (two_slots3 _ _ _ _ _ Hd Hf T1 T2) as (t3 & T3 & T4 & T5).
  pose proof (resume_down p q1 s2 s3 t2 d P2 Hl G2 E3) as S3. cbv zeta in S3. rewrite T3 in S3. cbn [snd] in S3.
  assert (device_pmf_any_suspensor (set_susp3 t3 d) DEVACT_LEVEL_FULL = true) as Ha.
  { change (any_suspensor t3.1.1 || any_suspensor t3.1.2 || any_suspensor t3.2 = true). by rewrite T4. }
  rewrite Ha in S3. destruct S3 as [S3 Hc]. destruct (becomes_getd _ _ _ _ P2 S3) as [G3 P3]. rewrite G3. do 4 (split; [done|]).
  pose proof (resume_down p q2 s3 s4 t3 d P3 Hl G3 E4) as S4. cbv zeta in S4. rewrite T5 in S4. cbn [snd] in S4.
  assert (device_pmf_any_suspensor (set_susp3 (susp3 d) d) DEVACT_LEVEL_FULL = false) as Ha2.
  { change (any_suspensor (susp3 d).1.1 || any_suspensor (susp3 d).1.2 || any_suspensor (susp3 d).2 = false). destruct Hf as (? & ? & ?). by rewrite !any_free. }
  rewrite Ha2 in S4. specialize (S4 F1 F2 F3). assert (set_susp3 (susp3 d) d = d) as Es by (apply device_ext; reflexivity). rewrite Es in S4.
  apply (becomes_same p); [done|]. fold d. eapply becomes_trans; [done|exact S1|]. eapply becomes_trans; [done|exact S2|].
  eapply becomes_trans; [done|exact S3|exact S4].
Qed.

End thms.
