(* ===== verification/PmfInv.v ===== *)
(** * The levels of every device stay in order

    Whatever the handlers answer, no operation of the framework leaves a device
    with its bus suspended and its driver or class not. *)

From stdpp Require Import base numbers strings list relations.
From S2P Require Import Prelude Sysctl Device DeviterThms Pmf PmfFacts PmfThms.

(** ** Loops *)

Lemma for_devices_inv {S} (get : S -> autoconf) (put : autoconf -> S -> S) (P : S -> Prop) fl body s :
  (forall a s, get (put a s) = a) -> (forall a s, P s -> alldevs a = alldevs (get s) -> P (put a s)) ->
  (forall p s, P s -> P (body p s).2) -> P s -> P (for_devices get put fl body s).
Proof.
  intros Hgp Hput Hbody Hs. unfold for_devices, deviter_first. pose proof (init_list fl (get s)) as Hl.
  destruct (deviter_init fl (get s)) as [di a] eqn:E. cbn [snd] in Hl. destruct (deviter_next a di) as [dv di1].
  assert (forall n dv di s, P s -> P (for_next get n body dv di s).2) as Hn.
  { clear -Hbody. induction n as [|n IH]; intros dv di s Hs; [done|]. cbn [for_next]. destruct dv as [d|]; [|done].
    pose proof (Hbody (dv_ptr d) s Hs) as H. destruct (body (dv_ptr d) s) as [go s1]. cbn [snd] in H. destruct go; [|done].
    destruct (deviter_next (get s1) di) as [dv di']. by apply IH. }
  specialize (Hn (Datatypes.S (length (alldevs a))) dv di1 (put a s) (Hput _ _ Hs Hl)).
  destruct (for_next _ _ _ _ _ _) as [di2 s2]. cbn [snd] in Hn. apply Hput; [done|]. unfold deviter_release. by destruct (di_rw di2).
Qed.

Section inv.
Context `{DI : DeviceIs} `{DR : Drivers} (curlwp : nat).

Record pmf_inv (s : pmf) : Prop := {
  pi_nodup : NoDup (map dv_ptr (alldevs (p_ac s)));
  pi_levels : Forall levels_ok (alldevs (p_ac s))
}.

Lemma inv_list s s' : alldevs (p_ac s') = alldevs (p_ac s) -> pmf_inv s -> pmf_inv s'.
Proof. intros E [H1 H2]. split; by rewrite E. Qed.

Lemma inv_getd s p : pmf_inv s -> levels_ok (getd s p).
Proof.
  intros [_ H]. unfold getd. destruct (dev_at p _) as [d|] eqn:E; [|done]. apply dev_at_ptr in E as [E _].
  rewrite Forall_forall in H. by apply H.
Qed.

Lemma becomes_inv p s d' s' : pmf_inv s -> becomes p s d' s' -> levels_ok d' -> pmf_inv s'.
Proof.
  intros I B Hd. pose proof (becomes_keeps _ _ _ _ B) as K. split; [rewrite (keeps_ptrs _ _ K); apply I|].
  destruct B as (f & (Hf & Hl & _) & E). rewrite Hl. pose proof (pi_levels _ I) as H. unfold on_dev. apply Forall_map.
  rewrite Forall_forall in *. intros d Hin. destruct (Nat.eqb_spec (dv_ptr d) p) as [<-|]; [|by apply H].
  revert E. unfold getd. rewrite (dev_at_elem _ _ (pi_nodup _ I) Hin). cbn. by intros ->.
Qed.

Lemma upd_inv p f s : in_place f -> (forall d, same_levels d (f d)) -> pmf_inv s -> pmf_inv (upd p f s).
Proof.
  intros Hf Hl I. eapply becomes_inv; [exact I|by apply becomes_upd|]. destruct (Hl (getd s p)) as (E1 & E2 & E3).
  unfold levels_ok. rewrite E1, E2, E3. by apply inv_getd.
Qed.

Lemma present_registered s p : dv_power_handlers (getd s p) = true -> present s p.
Proof. unfold getd, present. by destruct (dev_at p _). Qed.

Lemma lock_inv p s : pmf_inv s -> let '(ok, s1) := device_pmf_lock curlwp p s in pmf_inv s1 /\ (ok = true -> present s1 p).
Proof.
  intros I. unfold device_pmf_lock. set (s1 := if _ && _ then _ else s).
  assert (pmf_inv s1) as I1.
  { unfold s1. destruct (_ && _); [|done]. cbn. apply upd_inv; [done|done|]. by apply (inv_list s). }
  destruct (device_pmf_is_registered (getd s1 p)) eqn:Er; cbn [negb]; [|done]. split; [by apply upd_inv|]. intros _.
  apply present_registered in Er. by apply (present_dstep p (locked curlwp) s1).
Qed.

Lemma unlock_inv p s : pmf_inv s -> pmf_inv (device_pmf_unlock p s).
Proof. apply upd_inv; [intros d; apply unlocked_place|]. intros d. cbn. by destruct (_ =? 0). Qed.

Lemma under_lock_inv op p s : (forall s, pmf_inv s -> present s p -> pmf_inv (op s).2) -> pmf_inv s -> pmf_inv (under_lock curlwp op p s).2.
Proof.
  intros Hop I. unfold under_lock. destruct (negb _); [done|]. pose proof (lock_inv p s I) as H.
  destruct (device_pmf_lock curlwp p s) as [ok s1]. destruct H as [I1 P1]. destruct ok; cbn [negb]; [|done].
  specialize (Hop s1 I1 (P1 eq_refl)). destruct (op s1) as [rc s2]. by apply unlock_inv.
Qed.

Lemma suspend_inv p q s : pmf_inv s -> pmf_inv (pmf_device_suspend curlwp p q s).2.
Proof.
  rewrite suspend_under_lock. apply under_lock_inv. clear s. intros s I Hp. pose proof (suspend_locked_spec p q s Hp) as H.
  destruct (pmf_device_suspend_locked p q s) as [ok s']. destruct H as (d' & B & _ & L & _). eapply becomes_inv; [done|exact B|]. apply L. by apply inv_getd.
Qed.

Lemma resume_inv p q s : pmf_inv s -> pmf_inv (pmf_device_resume curlwp p q s).2.
Proof.
  rewrite resume_under_lock. apply under_lock_inv. clear s. intros s I Hp. pose proof (resume_locked_spec p q s Hp) as H.
  destruct (pmf_device_resume_locked p q s) as [ok s']. destruct H as (d' & B & L & _). eapply becomes_inv; [done|exact B|]. apply L. by apply inv_getd.
Qed.

Lemma remove_inv p q s : pmf_inv s -> pmf_inv (upd_ret p (device_pmf_remove_suspensor q) s).2.
Proof. apply (upd_inv p (fun d => (device_pmf_remove_suspensor q d).2)); intros d; apply on_suspensors_place. Qed.

Lemma bus_resume_inv p q s : pmf_inv s -> present s p -> pmf_inv (device_pmf_bus_resume p q s).2.
Proof.
  intros I Hp. pose proof (act_spec (Resume DEVACT_LEVEL_BUS) p q s Hp) as H. cbn [act] in H.
  destruct (device_pmf_bus_resume p q s) as [ok s']. destruct H as [B L]. eapply becomes_inv; [done|exact B|]. apply act_levels; [by apply inv_getd|done].
Qed.

(** ** The list under a walk *)

Lemma upd_keeps p f s : in_place f -> keeps (p_ac s) (p_ac (upd p f s)).
Proof. intros Hf. by eapply dstep_keeps, dstep_upd. Qed.

Lemma lock_keeps p s : let '(ok, s1) := device_pmf_lock curlwp p s in keeps (p_ac s) (p_ac s1) /\ (ok = true -> present s1 p).
Proof.
  unfold device_pmf_lock. set (s1 := if _ && _ then _ else s).
  assert (keeps (p_ac s) (p_ac s1)) as K1 by (unfold s1; destruct (_ && _); [by apply (upd_keeps p _ (set_p_calls _ s))|apply keeps_refl]).
  destruct (device_pmf_is_registered (getd s1 p)) eqn:Er; cbn [negb]; [|done]. split; [eapply keeps_trans; [exact K1|by apply upd_keeps]|].
  intros _. apply present_registered in Er. by apply (present_dstep p (locked curlwp) s1).
Qed.

Lemma under_lock_keeps op p s : (forall s, present s p -> keeps (p_ac s) (p_ac (op s).2)) -> keeps (p_ac s) (p_ac (under_lock curlwp op p s).2).
Proof.
  intros Hop. unfold under_lock. destruct (negb _); [apply keeps_refl|]. pose proof (lock_keeps p s) as H.
  destruct (device_pmf_lock curlwp p s) as [ok s1]. destruct H as [K1 P1]. destruct ok; cbn [negb]; [|done].
  specialize (Hop s1 (P1 eq_refl)). destruct (op s1) as [rc s2]. eapply keeps_trans; [exact K1|]. eapply keeps_trans; [exact Hop|].
  apply upd_keeps. intros d. apply unlocked_place.
Qed.

Lemma suspend_keeps p q s : keeps (p_ac s) (p_ac (pmf_device_suspend curlwp p q s).2).
Proof.
  rewrite suspend_under_lock. apply under_lock_keeps. clear s. intros s Hp. pose proof (suspend_locked_spec p q s Hp) as H.
  destruct (pmf_device_suspend_locked p q s) as [ok s']. destruct H as (d' & B & _). by eapply becomes_keeps.
Qed.

Lemma resume_keeps p q s : keeps (p_ac s) (p_ac (pmf_device_resume curlwp p q s).2).
Proof.
  rewrite resume_under_lock. apply under_lock_keeps. clear s. intros s Hp. pose proof (resume_locked_spec p q s Hp) as H.
  destruct (pmf_device_resume_locked p q s) as [ok s']. destruct H as (d' & B & _). by eapply becomes_keeps.
Qed.

(** A loop whose body keeps the invariant. *)
Lemma rloop_inv fl body rv s : (forall p rv s, pmf_inv s -> pmf_inv (body p (rv, s)).2.2) -> pmf_inv s -> pmf_inv (for_devices rget rput fl body (rv, s)).2.
Proof.
  intros Hb Hs. apply (for_devices_inv rget rput (fun x => pmf_inv x.2)); [done| | |done].
  - intros a [r x] I E. by apply (inv_list x).
  - intros p [r x] I. by apply Hb.
Qed.

Lemma for_children_inv p body s : (forall c s, pmf_inv s -> pmf_inv (body c s).2) -> pmf_inv s -> pmf_inv (for_children p body s).2.
Proof.
  intros Hb. apply rloop_inv. intros c rv s1 I. destruct (negb _); [done|]. specialize (Hb c s1 I). destruct (body c s1) as [ok s2]. by destruct ok.
Qed.

Lemma recursive_suspend_inv n : forall p q s, pmf_inv s -> pmf_inv (pmf_device_recursive_suspend curlwp n p q s).2.
Proof.
  induction n as [|n IH]; intros p q s I; [done|]. cbn [pmf_device_recursive_suspend].
  match goal with |- context [for_children p ?b s] => pose proof (for_children_inv p b s (fun c s => IH c _ s) I) as H end.
  destruct (for_children _ _ _) as [rv s1]. cbn [snd] in H. destruct (negb rv); [done|]. by apply suspend_inv.
Qed.

Lemma recursive_resume_inv n : forall p q s, pmf_inv s -> pmf_inv (pmf_device_recursive_resume curlwp n p q s).2.
Proof.
  induction n as [|n IH]; intros p q s I; [done|]. cbn [pmf_device_recursive_resume]. destruct (device_is_active _); [done|].
  destruct (dv_parent _) as [pa|]; [|by apply resume_inv]. specialize (IH pa (pmf_qual_recursive_copy q) s I).
  destruct (pmf_device_recursive_resume _ _ _ _ _) as [ok s1]. cbn [snd] in IH. destruct (negb ok); [done|]. by apply resume_inv.
Qed.

Lemma descendants_release_inv n : forall p q s, pmf_inv s -> pmf_inv (pmf_device_descendants_release n p q s).2.
Proof.
  induction n as [|n IH]; intros p q s I; [done|]. cbn [pmf_device_descendants_release]. apply for_children_inv; [|done].
  intros c s1 I1. pose proof (remove_inv c q s1 I1) as H. destruct (upd_ret c _ s1) as [ok s2]. by apply IH.
Qed.

Lemma descendants_resume_inv n : forall p q s, pmf_inv s -> pmf_inv (pmf_device_descendants_resume curlwp n p q s).2.
Proof.
  induction n as [|n IH]; intros p q s I; [done|]. cbn [pmf_device_descendants_resume]. apply for_children_inv; [|done].
  intros c s1 I1. pose proof (resume_inv c q s1 I1) as H. destruct (pmf_device_resume curlwp c q s1) as [ok s2]. destruct (negb ok); [done|]. by apply IH.
Qed.

Lemma subtree_resume_inv n p q s : pmf_inv s -> pmf_inv (pmf_device_subtree_resume curlwp n p q s).2.
Proof.
  intros I. unfold pmf_device_subtree_resume, pmf_device_subtree_release. pose proof (remove_inv p q s I) as H1.
  destruct (upd_ret p _ s) as [ok1 s1]. pose proof (descendants_release_inv n p (pmf_qual_recursive_copy q) s1 H1) as H2.
  destruct (pmf_device_descendants_release n p _ s1) as [ok2 s2]. destruct (negb ok2); [done|].
  pose proof (recursive_resume_inv n p q s2 H2) as H3. destruct (pmf_device_recursive_resume curlwp n p q s2) as [ok3 s3].
  destruct (negb ok3); [done|]. by apply descendants_resume_inv.
Qed.

Lemma check_inv s : pmf_inv s -> pmf_inv (pmf_check_system_drivers s).2.
Proof. apply rloop_inv. intros p rv s1 I. done. Qed.

Lemma ask_inv c s : pmf_inv s -> pmf_inv (ask c s).2.
Proof. by apply inv_list. Qed.

Lemma system_bus_resume_inv q s : pmf_inv s -> pmf_inv (pmf_system_bus_resume q s).2.
Proof.
  apply rloop_inv. intros p rv s1 I. destruct (device_pmf_is_registered (getd s1 p)) eqn:Er; cbn [negb]; [|done]. destruct (_ || _); [done|].
  pose proof (bus_resume_inv p q s1 I (present_registered _ _ Er)) as H. by destruct (device_pmf_bus_resume p q s1) as [ok s2].
Qed.

Lemma system_resume_inv q s : pmf_inv s -> pmf_inv (pmf_system_resume curlwp q s).2.
Proof.
  intros I. unfold pmf_system_resume. pose proof (check_inv s I) as H1. destruct (pmf_check_system_drivers s) as [ok s1]. destruct (negb ok); [done|].
  match goal with |- context [for_devices rget rput DEVITER_ROOT ?b (true, s1)] => assert (pmf_inv (for_devices rget rput DEVITER_ROOT b (true, s1)).2) as H2 end.
  { apply rloop_inv; [|done]. intros p rv s2 I2. destruct (_ || _); [done|]. destruct (negb _); [done|].
    pose proof (resume_inv p q s2 I2) as H. by destruct (pmf_device_resume curlwp p q s2) as [ok2 s3]. }
  destruct (for_devices _ _ _ _ _) as [rv s2]. destruct rv; [|done]. by apply ask_inv.
Qed.

Lemma system_suspend_inv flush q s : pmf_inv s -> pmf_inv (pmf_system_suspend curlwp flush q s).2.
Proof.
  intros I. unfold pmf_system_suspend. pose proof (check_inv s I) as H1. destruct (pmf_check_system_drivers s) as [ok s1]. destruct (negb ok); [done|].
  pose proof (ask_inv (K_handlex 0) s1 H1) as H2. destruct (ask (K_handlex 0) s1) as [x s2]. destruct (negb x); [done|].
  set (s3 := if flush then _ else s2). assert (pmf_inv s3) as H3 by (unfold s3; destruct flush; [by apply ask_inv|done]).
  match goal with |- context [for_devices rget rput DEVITER_LEAVES ?b (true, s3)] => assert (pmf_inv (for_devices rget rput DEVITER_LEAVES b (true, s3)).2) as H4 end.
  { apply rloop_inv; [|done]. intros p rv s4 I4. destruct (negb _); [done|].
    pose proof (suspend_inv p q s4 I4) as H. by destruct (pmf_device_suspend curlwp p q s4) as [ok2 s5]. }
  by destruct (for_devices _ _ _ _ _).
Qed.

(** ** All operations *)

Inductive pmf_step (s : pmf) : pmf -> Prop :=
  | ps_suspend p q : pmf_step s (pmf_device_suspend curlwp p q s).2
  | ps_resume p q : pmf_step s (pmf_device_resume curlwp p q s).2
  | ps_recursive_suspend n p q : pmf_step s (pmf_device_recursive_suspend curlwp n p q s).2
  | ps_recursive_resume n p q : pmf_step s (pmf_device_recursive_resume curlwp n p q s).2
  | ps_descendants_release n p q : pmf_step s (pmf_device_descendants_release n p q s).2
  | ps_descendants_resume n p q : pmf_step s (pmf_device_descendants_resume curlwp n p q s).2
  | ps_subtree_resume n p q : pmf_step s (pmf_device_subtree_resume curlwp n p q s).2
  | ps_bus_resume q : pmf_step s (pmf_system_bus_resume q s).2
  | ps_system_resume q : pmf_step s (pmf_system_resume curlwp q s).2
  | ps_system_suspend flush q : pmf_step s (pmf_system_suspend curlwp flush q s).2.

Lemma pmf_step_inv s s' : pmf_step s s' -> pmf_inv s -> pmf_inv s'.
Proof.
  intros H I. destruct H; auto using suspend_inv, resume_inv, recursive_suspend_inv, recursive_resume_inv, descendants_release_inv,
    descendants_resume_inv, subtree_resume_inv, system_bus_resume_inv, system_resume_inv, system_suspend_inv.
Qed.

(** Over any sequence of PMF operations, recursive and system wide ones included, a
    device's bus is suspended only below its driver and its driver only below its class,
    and it is active exactly if enabled with its class not suspended. *)
Theorem pmf_levels_in_order (Hok : DeviceIsOk DI) s s' : pmf_inv s -> rtc pmf_step s s' ->
  forall d, d ∈ alldevs (p_ac s') -> levels_ok d /\ device_is_active d = dv_active d && negb (dv_class_suspended d).
Proof.
  intros I H d Hd. assert (pmf_inv s') as I' by (clear d Hd; induction H as [|s1 s2 s3 H _ IH]; [done|]; apply IH; by eapply pmf_step_inv).
  pose proof (pi_levels _ I') as L. rewrite Forall_forall in L. specialize (L d Hd). split; [done|]. rewrite active_spec.
  destruct L as [L1 L2]. destruct (dv_class_suspended d), (dv_driver_suspended d), (dv_bus_suspended d); cbn; rewrite ?andb_true_r, ?andb_false_r; naive_solver.
Qed.

End inv.
