(* ===== verification/LwpSusp.v ===== *)
(** * Suspending and continuing LWPs

    lwp_suspend, lwp_continue and lwp_userret (kernel/kern/kern_lwp.c),
    setrunnable (kern_synch.c) and the userspace
    freezer of kernel/dev/acpi/acpi.c.  An LWP reads its flags unlocked on its way
    to user mode, so its steps are interleaved with those of the freezer. *)

From stdpp Require Import base numbers list relations.
From S2P Require Import Prelude Sysctl Lwp.

Definition LSZOMB : Z := 5.
Definition LSONPROC : Z := 7.

Definition LW_LWPCTL : Z := 0x00000002.
Definition LW_SINTR : Z := 0x00000080.
Definition LW_DBGSUSPEND : Z := 0x00010000.
Definition LW_WSUSPEND : Z := 0x00020000.
Definition LW_WCORE : Z := 0x00080000.
Definition LW_WEXIT : Z := 0x00100000.
Definition LW_PENDSIG : Z := 0x01000000.
Definition LW_CACHECRED : Z := 0x04000000.
Definition LW_WREBOOT : Z := 0x08000000.

Definition LW_USERRET : Z := Z.lor LW_WEXIT (Z.lor LW_PENDSIG (Z.lor LW_WREBOOT (Z.lor LW_WSUSPEND
  (Z.lor LW_WCORE (Z.lor LW_LWPCTL LW_CACHECRED))))).

Definition EINTR : Z := 4.
Definition EDEADLK : Z := 11.

(** Where an LWP is in lwp_userret. *)
Inductive userret_pc :=
  | UR_user        (* not in lwp_userret *)
  | UR_loop        (* at the top of its loop *)
  | UR_turn (f : Z) (* with the flags it has read *)
  | UR_signals     (* in the loop over issignal and postsig *)
  | UR_suspend     (* before p_lock is taken *)
  | UR_switched    (* after mi_switch *)
  | UR_exit.       (* in lwp_exit *)

Record tlwp := mk_tlwp {
  t_lid : nat;
  t_stat : Z;
  t_flag : Z;
  t_wchan : bool;  (* l_wchan != NULL *)
  t_running : bool;  (* LP_RUNNING *)
  t_pc : userret_pc
}.

Definition set_t_stat (v : Z) (r : tlwp) : tlwp :=
  mk_tlwp (t_lid r) v (t_flag r) (t_wchan r) (t_running r) (t_pc r).
Definition set_t_flag (v : Z) (r : tlwp) : tlwp :=
  mk_tlwp (t_lid r) (t_stat r) v (t_wchan r) (t_running r) (t_pc r).
Definition set_t_wchan (v : bool) (r : tlwp) : tlwp :=
  mk_tlwp (t_lid r) (t_stat r) (t_flag r) v (t_running r) (t_pc r).
Definition set_t_running (v : bool) (r : tlwp) : tlwp :=
  mk_tlwp (t_lid r) (t_stat r) (t_flag r) (t_wchan r) v (t_pc r).
Definition set_t_pc (v : userret_pc) (r : tlwp) : tlwp :=
  mk_tlwp (t_lid r) (t_stat r) (t_flag r) (t_wchan r) (t_running r) v.

Record proc := mk_proc {
  p_system : bool;  (* PK_SYSTEM *)
  p_traced : bool;  (* PSL_TRACED with p_xsig *)
  p_nrlwps : Z;
  p_lwps : list tlwp
}.

Definition set_p_nrlwps (v : Z) (r : proc) : proc :=
  mk_proc (p_system r) (p_traced r) v (p_lwps r).
Definition set_p_lwps (v : list tlwp) (r : proc) : proc :=
  mk_proc (p_system r) (p_traced r) (p_nrlwps r) v.

(** lwp_unsleep of the sleep queues: off the queue and runnable, or still on its
    CPU; the flags that matter here are left. *)
Class Unsleep := lwp_unsleep : tlwp -> tlwp.
Class UnsleepOk (U : Unsleep) : Prop := {
  unsleep_stat : forall l, t_stat (lwp_unsleep l) = LSRUN \/ t_stat (lwp_unsleep l) = LSONPROC;
  unsleep_flag : forall l, has_flag (t_flag (lwp_unsleep l)) LW_WSUSPEND = has_flag (t_flag l) LW_WSUSPEND;
  unsleep_keeps : forall l, t_lid (lwp_unsleep l) = t_lid l /\ t_pc (lwp_unsleep l) = t_pc l
}.

Section lwp.
Context `{US : Unsleep}.

(** The LWP and by how much p_nrlwps grows; the states it panics on are left. *)
Definition setrunnable (traced : bool) (l : tlwp) : tlwp * Z :=
  let '(l, d) :=
    if t_stat l =? LSSTOP then (if traced then set_t_flag (set_flag (t_flag l) LW_PENDSIG) l else l, 1)
    else if t_stat l =? LSSUSPENDED then (set_t_flag (clr_flag (t_flag l) LW_WSUSPEND) l, 1)
    else (l, 0) in
  if t_wchan l then (lwp_unsleep (set_t_stat LSSLEEP l), d)
  else if t_running l then (set_t_stat LSONPROC l, d)
  else (set_t_stat LSRUN l, d).

(** The error, the LWP and the growth of p_nrlwps. *)
Definition lwp_suspend (curflag : Z) (traced : bool) (t : tlwp) : Z * tlwp * Z :=
  if has_flag curflag (Z.lor LW_WEXIT LW_WCORE) then (EDEADLK, t, 0)
  else if has_flag (t_flag t) LW_DBGSUSPEND then (0, t, 0)
  else
    let w := set_t_flag (set_flag (t_flag t) LW_WSUSPEND) t in
    if (t_stat t =? LSRUN) || (t_stat t =? LSONPROC) then (0, w, 0)
    else if t_stat t =? LSSLEEP then
      if has_flag (t_flag w) LW_SINTR then let '(l, d) := setrunnable traced w in (0, l, d) else (0, w, 0)
    else if t_stat t =? LSSUSPENDED then (0, t, 0)
    else if t_stat t =? LSSTOP then let '(l, d) := setrunnable traced w in (0, l, d)
    else if (t_stat t =? LSIDL) || (t_stat t =? LSZOMB) then (EINTR, t, 0)
    else (0, t, 0).

Definition lwp_continue (traced : bool) (l : tlwp) : tlwp * Z :=
  if has_flag (t_flag l) LW_WREBOOT then (l, 0)
  else
    let l := set_t_flag (clr_flag (t_flag l) LW_WSUSPEND) l in
    if negb (t_stat l =? LSSUSPENDED) || has_flag (t_flag l) LW_DBGSUSPEND then (l, 0)
    else setrunnable traced l.

(** ** The freezer *)

Definition freeze_lwp (freeze : bool) (cur : nat) (curflag : Z) (traced : bool) (l : tlwp) : tlwp * Z :=
  if Nat.eqb (t_lid l) cur then (l, 0)
  else if freeze then let '(_, l, d) := lwp_suspend curflag traced l in (l, d)
  else lwp_continue traced l.

Definition freeze_proc (freeze : bool) (cur : nat) (curflag : Z) (p : proc) : proc :=
  if p_system p then p else
  let rs := map (freeze_lwp freeze cur curflag (p_traced p)) (p_lwps p) in
  set_p_lwps (map fst rs) (set_p_nrlwps (p_nrlwps p + zsum (map snd rs)) p).

Definition acpi_s0_freeze_userspace (freeze : bool) (cur : nat) (curflag : Z) (allproc : list proc) : list proc :=
  map (freeze_proc freeze cur curflag) allproc.

(** ** On the way to user mode *)

(** The flags are read unlocked. *)
Definition userret_read (l : tlwp) : tlwp :=
  let f := Z.land (t_flag l) LW_USERRET in
  if f =? 0 then set_t_pc UR_user l else set_t_pc (UR_turn f) l.

(** What is done for the flags read. *)
Definition userret_turn (f : Z) (l : tlwp) : tlwp :=
  let l := if has_flag f LW_CACHECRED then set_t_flag (clr_flag (t_flag l) LW_CACHECRED) l else l in
  if Z.land f (Z.lor LW_PENDSIG (Z.lor LW_WCORE LW_WEXIT)) =? LW_PENDSIG then set_t_pc UR_signals l
  else if has_flag f LW_WSUSPEND then set_t_pc UR_suspend l
  else if has_flag f LW_WEXIT then set_t_pc UR_exit l
  else if has_flag f LW_LWPCTL then set_t_pc UR_loop (set_t_flag (clr_flag (t_flag l) LW_LWPCTL) l)
  else set_t_pc UR_loop l.

(** Under the lock: the flags are looked at again.  And by how much p_nrlwps grows. *)
Definition userret_suspend (l : tlwp) : tlwp * Z :=
  if negb (has_flag (t_flag l) LW_WSUSPEND) then (set_t_pc UR_loop l, 0)
  else (set_t_pc UR_switched (set_t_stat LSSUSPENDED l), -1).

(** The steps of lwp_userret on a CPU.  issignal and postsig (kern_sig.c, outside the
    repository) are done when no signal is pending, unless one is fatal. *)
Inductive userret_step (l : tlwp) : tlwp -> Prop :=
  | us_read : t_stat l = LSONPROC -> t_pc l = UR_loop -> userret_step l (userret_read l)
  | us_turn f : t_stat l = LSONPROC -> t_pc l = UR_turn f -> userret_step l (userret_turn f l)
  | us_signals : t_stat l = LSONPROC -> t_pc l = UR_signals ->
      userret_step l (set_t_pc UR_loop (set_t_flag (clr_flag (t_flag l) LW_PENDSIG) l))
  | us_fatal : t_stat l = LSONPROC -> t_pc l = UR_signals -> userret_step l (set_t_pc UR_exit l)
  | us_suspend : t_stat l = LSONPROC -> t_pc l = UR_suspend -> userret_step l (userret_suspend l).1
  | us_back : t_stat l = LSONPROC -> t_pc l = UR_switched -> userret_step l (set_t_pc UR_loop l).

(** The steps of one LWP: the scheduler may take its CPU at any time, and a signal
    may stop it. *)
Inductive lwp_step (l : tlwp) : tlwp -> Prop :=
  | ls_enter : t_stat l = LSONPROC -> t_pc l = UR_user -> lwp_step l (set_t_pc UR_loop l)
  | ls_userret l' : userret_step l l' -> lwp_step l l'
  | ls_stop : t_stat l = LSONPROC -> t_pc l = UR_signals -> lwp_step l (set_t_stat LSSTOP l)
  | ls_switch_in : t_stat l = LSRUN -> lwp_step l (set_t_running true (set_t_stat LSONPROC l))
  | ls_switch_out : t_stat l = LSONPROC -> lwp_step l (set_t_running false (set_t_stat LSRUN l))
  | ls_sleep (sintr : bool) : t_stat l = LSONPROC -> t_pc l = UR_user ->
      lwp_step l (set_t_wchan true (set_t_stat LSSLEEP (set_t_flag ((if sintr then set_flag else clr_flag) (t_flag l) LW_SINTR) l)))
  | ls_wakeup : t_stat l = LSSLEEP -> t_wchan l = true -> lwp_step l (lwp_unsleep l)
  | ls_left_cpu : t_stat l = LSSUSPENDED \/ t_stat l = LSSTOP -> lwp_step l (set_t_running false l).

(** The steps of others on it. *)
Inductive lwp_request := R_suspend (curflag : Z) | R_continue.

Definition requested (r : lwp_request) (traced : bool) (l : tlwp) : tlwp :=
  match r with
  | R_suspend curflag => (lwp_suspend curflag traced l).1.2
  | R_continue => (lwp_continue traced l).1
  end.

(** Runs of an LWP without a request to suspend it: others post signals, exit
    requests and the like, and set it going. *)
Inductive unasked (traced : bool) (l : tlwp) : tlwp -> Prop :=
  | ua_step l' : lwp_step l l' -> unasked traced l l'
  | ua_post f : has_flag f LW_WSUSPEND = has_flag (t_flag l) LW_WSUSPEND -> unasked traced l (set_t_flag f l)
  | ua_setrunnable : t_stat l = LSSTOP \/ t_stat l = LSSLEEP -> unasked traced l (setrunnable traced l).1
  | ua_continue : unasked traced l (requested R_continue traced l).

(** Left to itself on its CPU, the LWP comes to a state of [P]: it can go on until
    then, and every way it may go leads there. *)
Inductive comes_to (P : tlwp -> Prop) (l : tlwp) : Prop :=
  | co_now : P l -> comes_to P l
  | co_later : (exists l', userret_step l l') -> (forall l', userret_step l l' -> comes_to P l') -> comes_to P l.

End lwp.

(** ** A thawed LWP runs *)

Section thaw.
Context `{UO : UnsleepOk}.

Definition wsusp (l : tlwp) : bool := has_flag (t_flag l) LW_WSUSPEND.

(** Not suspended, and not asked to. *)
Definition thawed (l : tlwp) : Prop := wsusp l = false /\ t_stat l <> LSSUSPENDED.

Lemma wsusp_clr f : has_flag (clr_flag f LW_WSUSPEND) LW_WSUSPEND = false.
Proof. by apply has_flag_clr_sub. Qed.

Lemma setrunnable_thawed traced l : wsusp l = false -> thawed (setrunnable traced l).1.
Proof.
  intros H. unfold setrunnable.
  set (x := if t_stat l =? LSSTOP then _ else _). assert (wsusp x.1 = false) as Hx.
  { unfold x. destruct (_ =? LSSTOP); [destruct traced; [|done]|destruct (_ =? LSSUSPENDED); [apply wsusp_clr|done]].
    cbn [fst]. unfold wsusp. cbn [t_flag set_t_flag]. by rewrite has_flag_set_disj. }
  destruct x as [l1 d]. cbn [fst] in Hx. destruct (t_wchan l1); cbn [fst].
  - split; [unfold wsusp; by rewrite unsleep_flag|]. by destruct (unsleep_stat (set_t_stat LSSLEEP l1)) as [-> | ->].
  - by destruct (t_running l1).
Qed.

Lemma continue_thaws traced l : has_flag (t_flag l) LW_WREBOOT = false -> has_flag (t_flag l) LW_DBGSUSPEND = false ->
  thawed (lwp_continue traced l).1.
Proof.
  intros Hr Hd. unfold lwp_continue. rewrite Hr. cbn [t_stat set_t_flag t_flag].
  assert (has_flag (clr_flag (t_flag l) LW_WSUSPEND) LW_DBGSUSPEND = false) as -> by (by rewrite has_flag_clr_disj). rewrite orb_false_r.
  destruct (Z.eqb_spec (t_stat l) LSSUSPENDED) as [E|E]; cbn [negb].
  - apply setrunnable_thawed, wsusp_clr.
  - split; [apply wsusp_clr|done].
Qed.

(** lwp_userret on a thawed LWP stays on its CPU. *)
Lemma userret_thawed l l' : userret_step l l' -> wsusp l = false -> t_stat l' = LSONPROC /\ wsusp l' = false.
Proof.
  unfold wsusp. intros [S P|f S P|S P|S P|S P|S P] H; try done.
  - unfold userret_read. by destruct (_ =? 0).
  - unfold userret_turn. destruct (has_flag f LW_CACHECRED); repeat (case_match; cbn; flags; try done).
  - cbn. by flags.
  - unfold userret_suspend. by rewrite H.
Qed.

Lemma unasked_thawed traced l l' : unasked traced l l' -> thawed l -> thawed l'.
Proof.
  intros H [H1 H2]. destruct H as [l' H|f Hf|Hs|].
  - destruct H as [S P|l' H|S P|S|S|sintr S P|S W|S]; try done.
    + destruct (userret_thawed _ _ H H1) as [S W]. split; [done|by rewrite S].
    + split; [|done]. unfold wsusp. cbn [t_flag set_t_wchan set_t_stat set_t_flag]. destruct sintr; by flags.
    + split; [unfold wsusp; by rewrite unsleep_flag|]. by destruct (unsleep_stat l) as [-> | ->].
  - split; [unfold wsusp; cbn; by rewrite Hf|done].
  - by apply setrunnable_thawed.
  - cbn [requested]. unfold lwp_continue. destruct (has_flag (t_flag l) LW_WREBOOT); [done|].
    cbn [t_stat set_t_flag]. rewrite (proj2 (Z.eqb_neq _ _) H2). cbn [negb orb]. split; [apply wsusp_clr|done].
Qed.

(** *** Out of lwp_userret *)

Lemma land_bit1 f n : Z.land f (2 ^ n) = if Z.testbit f n then 2 ^ n else 0.
Proof.
  destruct (decide (0 <= n)) as [Hn|Hn]; [|rewrite Z.pow_neg_r, Z.testbit_neg_r, Z.land_0_r by lia; done].
  apply Z.bits_inj'. intros m Hm. rewrite Z.land_spec, Z.pow2_bits_eqb by done.
  destruct (Z.eqb_spec n m) as [<-|E]; destruct (Z.testbit f n) eqn:Ef;
    rewrite ?Z.pow2_bits_eqb, ?Z.bits_0, ?Ef, ?Z.eqb_refl, ?(proj2 (Z.eqb_neq n m) E), ?andb_false_r by done; done.
Qed.

(** The test of the signals. *)
Lemma signals_test f : (Z.land f (Z.lor LW_PENDSIG (Z.lor LW_WCORE LW_WEXIT)) =? LW_PENDSIG) =
  has_flag f LW_PENDSIG && negb (has_flag f LW_WCORE) && negb (has_flag f LW_WEXIT).
Proof.
  unfold has_flag. rewrite !Z.land_lor_distr_r. change LW_PENDSIG with (2 ^ 24). change LW_WCORE with (2 ^ 19).
  change LW_WEXIT with (2 ^ 20). rewrite !land_bit1.
  by destruct (Z.testbit f 24), (Z.testbit f 19), (Z.testbit f 20).
Qed.

Lemma userret_mask f m : Z.land LW_USERRET m = m -> has_flag (Z.land f LW_USERRET) m = has_flag f m.
Proof. intros E. unfold has_flag. by rewrite <-Z.land_assoc, E. Qed.

(** Nothing to do but the credentials. *)
Lemma only_cred f : has_flag f LW_WEXIT = false -> has_flag f LW_PENDSIG = false -> has_flag f LW_WREBOOT = false ->
  has_flag f LW_WSUSPEND = false -> has_flag f LW_WCORE = false -> has_flag f LW_LWPCTL = false ->
  Z.land f LW_USERRET <> 0 -> has_flag f LW_CACHECRED = true.
Proof.
  unfold has_flag, LW_USERRET. intros H1%negb_false_iff%Z.eqb_eq H2%negb_false_iff%Z.eqb_eq H3%negb_false_iff%Z.eqb_eq
    H4%negb_false_iff%Z.eqb_eq H5%negb_false_iff%Z.eqb_eq H6%negb_false_iff%Z.eqb_eq.
  rewrite !Z.land_lor_distr_r, H1, H2, H3, H4, H5, H6, !Z.lor_0_l. intros H%Z.eqb_neq. by rewrite H.
Qed.

(** No reboot, and a core dump only of a process that exits. *)
Definition lwp_settled (l : tlwp) : Prop :=
  has_flag (t_flag l) LW_WREBOOT = false /\ (has_flag (t_flag l) LW_WCORE = true -> has_flag (t_flag l) LW_WEXIT = true).

(** Nobody asks it to exit and no signal is pending. *)
Definition lwp_quiet (f : Z) : Prop := has_flag f LW_WEXIT = false /\ has_flag f LW_PENDSIG = false.
Definition lwp_undisturbed (l : tlwp) : Prop :=
  lwp_quiet (t_flag l) /\ match t_pc l with UR_turn f => lwp_quiet f | UR_signals | UR_exit => False | _ => True end.

(** In user mode, or with [b] on its way out of the process. *)
Definition lwp_out (b : bool) (l : tlwp) : Prop := t_pc l = UR_user \/ (b = true /\ t_pc l = UR_exit).

(** What a turn can clear. *)
Definition lwp_work (l : tlwp) : nat :=
  Nat.b2n (has_flag (t_flag l) LW_PENDSIG) + Nat.b2n (has_flag (t_flag l) LW_LWPCTL) + Nat.b2n (has_flag (t_flag l) LW_CACHECRED).

Record lwp_ready (b : bool) (l : tlwp) : Prop := {
  rd_stat : t_stat l = LSONPROC;
  rd_wsusp : wsusp l = false;
  rd_settled : lwp_settled l;
  rd_quiet : b = false -> lwp_quiet (t_flag l)
}.

Lemma ready_clr b l m pc : Z.land (Z.lnot m) (Z.lor LW_WSUSPEND (Z.lor LW_WREBOOT (Z.lor LW_WCORE LW_WEXIT))) =
    Z.lor LW_WSUSPEND (Z.lor LW_WREBOOT (Z.lor LW_WCORE LW_WEXIT)) ->
  lwp_ready b l -> lwp_ready b (set_t_pc pc (set_t_flag (clr_flag (t_flag l) m) l)).
Proof.
  intros Em [S W [R C] Q].
  assert (forall x, Z.land (Z.lor LW_WSUSPEND (Z.lor LW_WREBOOT (Z.lor LW_WCORE LW_WEXIT))) x = x ->
    has_flag (clr_flag (t_flag l) m) x = has_flag (t_flag l) x) as Hk.
  { intros x Hx. apply has_flag_clr_disj. by rewrite <-Hx, Z.land_assoc, Em. }
  unfold wsusp in W. split; unfold wsusp, lwp_settled, lwp_quiet; cbn; rewrite ?(Hk LW_WSUSPEND), ?(Hk LW_WREBOOT), ?(Hk LW_WCORE), ?(Hk LW_WEXIT) by done; try done.
  intros Hb. destruct (Q Hb) as [Q1 Q2]. split; [done|]. unfold has_flag, clr_flag in *.
  apply negb_false_iff, Z.eqb_eq in Q2. by rewrite <-Z.land_assoc, (Z.land_comm (Z.lnot m)), Z.land_assoc, Q2.
Qed.

Lemma ready_pc b l pc : lwp_ready b l -> lwp_ready b (set_t_pc pc l).
Proof. by intros [? ? ? ?]. Qed.

(** From the top of the loop, by the work to be done. *)
Lemma loop_out b n : forall l, lwp_ready b l -> t_pc l = UR_loop -> (lwp_work l <= n)%nat -> comes_to (lwp_out b) l.
Proof.
  induction n as [n IH] using lt_wf_ind. intros l R P Hn. pose proof R as [S W [Rb C] Q]. unfold wsusp in W.
  assert (forall l', lwp_ready b l' -> t_pc l' = UR_loop -> (lwp_work l' < lwp_work l)%nat -> comes_to (lwp_out b) l') as Next.
  { intros l' R' P' Hw. apply (IH (lwp_work l')); try done; lia. }
  apply co_later; [exists (userret_read l); by constructor|]. intros l1 H1.
  assert (l1 = userret_read l) as -> by (inversion H1; congruence). clear H1. unfold userret_read.
  destruct (Z.eqb_spec (Z.land (t_flag l) LW_USERRET) 0) as [E|E]; [by apply co_now; left|].
  set (f := Z.land (t_flag l) LW_USERRET) in *. set (l1 := set_t_pc (UR_turn f) l).
  apply co_later; [exists (userret_turn f l1); by constructor|]. intros l2 H2.
  assert (l2 = userret_turn f l1) as -> by (inversion H2; simplify_eq/=; congruence). clear H2.
  unfold userret_turn. rewrite signals_test. unfold f. rewrite !userret_mask by done. rewrite W.
  set (l2 := if has_flag (t_flag l) LW_CACHECRED then _ else _).
  assert (lwp_ready b l2 /\ has_flag (t_flag l2) LW_PENDSIG = has_flag (t_flag l) LW_PENDSIG /\ has_flag (t_flag l2) LW_LWPCTL = has_flag (t_flag l) LW_LWPCTL /\
    has_flag (t_flag l2) LW_CACHECRED = false) as (R2 & F1 & F2 & F3).
  { unfold l2. destruct (has_flag (t_flag l) LW_CACHECRED) eqn:Ec; [|by split; [apply ready_pc|]].
    split; [by apply (ready_clr b l1 LW_CACHECRED (UR_turn f))|]. cbn. by flags. }
  clearbody l2. clear l1. destruct (has_flag (t_flag l) LW_WEXIT) eqn:Ex.
  { rewrite andb_false_r. apply co_now. right. split; [|done]. destruct b; [done|]. by destruct (Q eq_refl) as [? _]; congruence. }
  assert (has_flag (t_flag l) LW_WCORE = false) as Ew by (destruct (has_flag (t_flag l) LW_WCORE); [by discriminate (C eq_refl)|done]).
  rewrite Ew. cbn [negb]. rewrite !andb_true_r. destruct (has_flag (t_flag l) LW_PENDSIG) eqn:Ep.
  - destruct b; [|by destruct (Q eq_refl) as [_ ?]; congruence].
    pose proof (rd_stat _ _ R2) as S2. apply co_later; [eexists; by apply us_signals|]. intros l3 H3.
    inversion H3 as [Sx Px|g Sx Px|Sx Px|Sx Px|Sx Px|Sx Px]; simplify_eq/=; [|by apply co_now; right].
    apply Next; [by apply (ready_clr true l2 LW_PENDSIG UR_loop)|done|]. unfold lwp_work. cbn. flags. rewrite F2, F3, Ep. cbn. lia.
  - destruct (has_flag (t_flag l) LW_LWPCTL) eqn:El.
    + apply Next; [by apply (ready_clr b l2 LW_LWPCTL UR_loop)|done|]. unfold lwp_work. cbn. flags. rewrite F1, F3, Ep, El. cbn. lia.
    + apply Next; [by apply ready_pc|done|]. unfold lwp_work. cbn. rewrite F1, F2, F3, Ep, El. rewrite (only_cred (t_flag l)) by done. cbn. lia.
Qed.

(** From anywhere in lwp_userret. *)
Lemma userret_out b l : lwp_ready b l -> (b = false -> lwp_undisturbed l) -> comes_to (lwp_out b) l.
Proof.
  intros R Hu. pose proof (rd_stat _ _ R) as S. pose proof (rd_wsusp _ _ R) as W. unfold wsusp in W.
  assert (forall l, lwp_ready b l -> t_pc l = UR_loop -> comes_to (lwp_out b) l) as Loop by (intros x Rx Px; by apply (loop_out b (lwp_work x))).
  assert (forall l, lwp_ready b l -> t_pc l = UR_suspend -> comes_to (lwp_out b) l) as Susp.
  { intros x Rx Px. pose proof (rd_stat _ _ Rx). pose proof (rd_wsusp _ _ Rx) as Wx. unfold wsusp in Wx.
    apply co_later; [eexists; by apply us_suspend|]. intros y Hy. inversion Hy; try congruence.
    unfold userret_suspend. rewrite Wx. apply Loop; [by apply ready_pc|done]. }
  assert (forall l, lwp_ready b l -> t_pc l = UR_signals -> b = true -> comes_to (lwp_out b) l) as Sigs.
  { intros x Rx Px ->. pose proof (rd_stat _ _ Rx). apply co_later; [eexists; by apply us_signals|]. intros y Hy. inversion Hy; try congruence.
    - apply Loop; [by apply (ready_clr true x LW_PENDSIG UR_loop)|done].
    - by apply co_now; right. }
  destruct (t_pc l) as [| |f| | | |] eqn:P.
  - by apply co_now; left.
  - by apply Loop.
  - apply co_later; [eexists; by apply (us_turn l f)|]. intros l1 H1. assert (l1 = userret_turn f l) as -> by (inversion H1; simplify_eq/=; congruence).
    unfold userret_turn. rewrite signals_test. set (l2 := if has_flag f LW_CACHECRED then _ else _).
    assert (lwp_ready b l2) as R2 by (unfold l2; destruct (has_flag f LW_CACHECRED); [destruct (ready_clr b l LW_CACHECRED (t_pc l) eq_refl R); by split|done]).
    clearbody l2. assert (b = false -> lwp_quiet f) as Uf by (intros Hb; by destruct (Hu Hb) as [_ Uf]; rewrite P in Uf).
    destruct (has_flag f LW_PENDSIG) eqn:Ep, (has_flag f LW_WCORE), (has_flag f LW_WEXIT) eqn:Ex, (has_flag f LW_WSUSPEND), (has_flag f LW_LWPCTL); cbn [andb negb];
      first [ apply Susp; [by apply ready_pc|done]
            | apply Loop; [by apply ready_pc|done]
            | apply Loop; [by apply (ready_clr b l2 LW_LWPCTL UR_loop)|done]
            | apply Sigs; [by apply ready_pc|done|]; destruct b; [done|by destruct (Uf eq_refl); congruence]
            | apply co_now; right; split; [|done]; destruct b; [done|by destruct (Uf eq_refl); congruence] ].
  - apply Sigs; [done..|]. destruct b; [done|]. by destruct (Hu eq_refl) as [_ Uf]; rewrite P in Uf.
  - by apply Susp.
  - apply co_later; [eexists; by apply us_back|]. intros y Hy. inversion Hy; try congruence. apply Loop; [by apply ready_pc|done].
  - apply co_now. right. split; [|done]. destruct b; [done|]. by destruct (Hu eq_refl) as [_ Uf]; rewrite P in Uf.
Qed.


(** An LWP that was already suspended when the freeze began. *)
Lemma thaw_runs_suspended traced cur curflag l : t_lid l <> cur -> t_stat l = LSSUSPENDED ->
  has_flag curflag (Z.lor LW_WEXIT LW_WCORE) = false ->
  has_flag (t_flag l) LW_WREBOOT = false -> has_flag (t_flag l) LW_DBGSUSPEND = false ->
  (freeze_lwp true cur curflag traced l).1 = l /\ t_stat (freeze_lwp false cur curflag traced l).1 <> LSSUSPENDED.
Proof.
  intros Hc Hs He Hr Hd. unfold freeze_lwp. rewrite (proj2 (Nat.eqb_neq _ _) Hc). split.
  - unfold lwp_suspend. rewrite He, Hd, Hs. done.
  - by apply continue_thaws.
Qed.

End thaw.
