(* ===== verification/Lps0.v ===== *)
(** * Low Power S0 Idle

    The _DSM handshake of kernel/dev/acpi/acpi.c with the LPS0 device: probing
    for the functions the firmware has, and the notifications on the way into
    and out of the sleep.  The firmware is outside: a call is recorded, and what
    it answers is a parameter. *)

From stdpp Require Import base numbers list.
From S2P Require Import Prelude.

(** The two UUIDs. *)
Inductive uuid := UUID_INTEL | UUID_MSFT.

Record dsm_call := mk_dsm { dc_uuid : uuid; dc_rev : Z; dc_func : Z }.

(** The handle of PNP0D80 if there is one, and the replies of _DSM: [None] for a
    failure or an object that is no buffer, else the bytes. *)
Class Dsm := {
  lps0_device : option nat;
  dsm_reply : list dsm_call -> dsm_call -> option (list Z)
}.

Definition ACPI_LPS0_SCREEN_OFF : Z := 3.
Definition ACPI_LPS0_SCREEN_ON : Z := 4.
Definition ACPI_LPS0_ENTRY : Z := 5.
Definition ACPI_LPS0_EXIT : Z := 6.
Definition ACPI_LPS0_MS_ENTRY : Z := 7.
Definition ACPI_LPS0_MS_EXIT : Z := 8.
Definition ACPI_LPS0_MS_DISPLAY_ON : Z := 9.

Record lps0 := mk_lps0 {
  acpi_lps0_handle : option nat;
  acpi_lps0_intel_mask : Z;
  acpi_lps0_msft_mask : Z;
  acpi_lps0_probed : bool;
  l_calls : list dsm_call  (* latest first *)
}.

Definition set_acpi_lps0_handle (v : option nat) (r : lps0) : lps0 :=
  mk_lps0 v (acpi_lps0_intel_mask r) (acpi_lps0_msft_mask r) (acpi_lps0_probed
    r) (l_calls r).
Definition set_acpi_lps0_intel_mask (v : Z) (r : lps0) : lps0 :=
  mk_lps0 (acpi_lps0_handle r) v (acpi_lps0_msft_mask r) (acpi_lps0_probed r)
    (l_calls r).
Definition set_acpi_lps0_msft_mask (v : Z) (r : lps0) : lps0 :=
  mk_lps0 (acpi_lps0_handle r) (acpi_lps0_intel_mask r) v (acpi_lps0_probed r)
    (l_calls r).
Definition set_acpi_lps0_probed (v : bool) (r : lps0) : lps0 :=
  mk_lps0 (acpi_lps0_handle r) (acpi_lps0_intel_mask r) (acpi_lps0_msft_mask
    r) v (l_calls r).
Definition set_l_calls (v : list dsm_call) (r : lps0) : lps0 :=
  mk_lps0 (acpi_lps0_handle r) (acpi_lps0_intel_mask r) (acpi_lps0_msft_mask
    r) (acpi_lps0_probed r) v.

Section lps0.
Context `{DSM : Dsm}.

(** Up to four bytes, the first lowest. *)
Fixpoint mask_bytes (n : nat) (shift : Z) (l : list Z) : Z :=
  match n, l with
  | S n, b :: l => Z.lor (Z.shiftl b shift) (mask_bytes n (shift + 8) l)
  | _, _ => 0
  end.

Definition acpi_lps0_dsm (u : uuid) (rev func : Z) (query : bool) (s : lps0) : Z * lps0 :=
  match acpi_lps0_handle s with
  | None => (0, s)
  | Some _ =>
      let c := mk_dsm u rev func in
      let r := dsm_reply (l_calls s) c in
      let s := set_l_calls (c :: l_calls s) s in
      match r with
      | Some bytes => (if query then mask_bytes 4 0 bytes else 0, s)
      | None => (0, s)
      end
  end.

(** GET_DEVICE_CONSTRAINTS, for the message buffer. *)
Definition acpi_lps0_dump_constraints (s : lps0) : lps0 :=
  if Z.land (acpi_lps0_intel_mask s) 2 =? 0 then s
  else set_l_calls (mk_dsm UUID_INTEL 1 1 :: l_calls s) s.

Definition acpi_lps0_probe (s : lps0) : lps0 :=
  if acpi_lps0_probed s then s else
  let s := set_acpi_lps0_probed true s in
  let s := match lps0_device with Some h => set_acpi_lps0_handle (Some h) s | None => s end in
  match acpi_lps0_handle s with
  | None => s
  | Some _ =>
      let '(m, s) := acpi_lps0_dsm UUID_INTEL 1 0 true s in
      let s := set_acpi_lps0_intel_mask m s in
      let '(m, s) := acpi_lps0_dsm UUID_MSFT 0 0 true s in
      acpi_lps0_dump_constraints (set_acpi_lps0_msft_mask m s)
  end.

Definition acpi_lps0_run (func : Z) (use_msft : bool) (s : lps0) : lps0 :=
  let u := if use_msft then UUID_MSFT else UUID_INTEL in
  let rev := if use_msft then 0 else 1 in
  let mask := if use_msft then acpi_lps0_msft_mask s else acpi_lps0_intel_mask s in
  if Z.land mask (Z.shiftl 1 func) =? 0 then s else (acpi_lps0_dsm u rev func false s).2.

Definition acpi_lps0_enter (s : lps0) : lps0 :=
  let s := acpi_lps0_probe s in
  match acpi_lps0_handle s with
  | None => s
  | Some _ =>
      let s := acpi_lps0_run ACPI_LPS0_SCREEN_OFF false s in
      let s := acpi_lps0_run ACPI_LPS0_SCREEN_OFF true s in
      let s := acpi_lps0_run ACPI_LPS0_MS_ENTRY true s in
      let s := acpi_lps0_run ACPI_LPS0_ENTRY true s in
      acpi_lps0_run ACPI_LPS0_ENTRY false s
  end.

Definition acpi_lps0_exit (s : lps0) : lps0 :=
  match acpi_lps0_handle s with
  | None => s
  | Some _ =>
      let s := acpi_lps0_run ACPI_LPS0_EXIT false s in
      let s := acpi_lps0_run ACPI_LPS0_EXIT true s in
      let s := acpi_lps0_run ACPI_LPS0_MS_DISPLAY_ON true s in
      let s := acpi_lps0_run ACPI_LPS0_MS_EXIT true s in
      let s := acpi_lps0_run ACPI_LPS0_SCREEN_ON true s in
      acpi_lps0_run ACPI_LPS0_SCREEN_ON false s
  end.

(** hw.acpi.sleep.lps0. *)
Definition sysctl_hw_acpi_lps0 (t : Z) (s : lps0) : lps0 :=
  if negb (t =? 0) then acpi_lps0_enter s else acpi_lps0_exit s.

(** ** Only what the firmware offers, in order *)

Definition offers (s : lps0) (c : dsm_call) : bool :=
  match dc_uuid c with
  | UUID_INTEL => (dc_rev c =? 1) && negb (Z.land (acpi_lps0_intel_mask s) (Z.shiftl 1 (dc_func c)) =? 0)
  | UUID_MSFT => (dc_rev c =? 0) && negb (Z.land (acpi_lps0_msft_mask s) (Z.shiftl 1 (dc_func c)) =? 0)
  end.

Definition intel (f : Z) : dsm_call := mk_dsm UUID_INTEL 1 f.
Definition msft (f : Z) : dsm_call := mk_dsm UUID_MSFT 0 f.

Definition enter_calls : list dsm_call :=
  [intel ACPI_LPS0_SCREEN_OFF; msft ACPI_LPS0_SCREEN_OFF; msft ACPI_LPS0_MS_ENTRY; msft ACPI_LPS0_ENTRY; intel ACPI_LPS0_ENTRY].
Definition exit_calls : list dsm_call :=
  [intel ACPI_LPS0_EXIT; msft ACPI_LPS0_EXIT; msft ACPI_LPS0_MS_DISPLAY_ON; msft ACPI_LPS0_MS_EXIT; msft ACPI_LPS0_SCREEN_ON;
   intel ACPI_LPS0_SCREEN_ON].

(** The calls [cs] made, the rest of the state as it was. *)
Definition called (s : lps0) (cs : list dsm_call) : lps0 := set_l_calls (rev (List.filter (offers s) cs) ++ l_calls s) s.

Lemma called_app s cs cs' : called (called s cs) cs' = called s (cs ++ cs').
Proof.
  unfold called. change (List.filter (offers (set_l_calls _ s))) with (List.filter (offers s)). cbn [l_calls set_l_calls].
  rewrite List.filter_app, rev_app_distr, <-app_assoc. done.
Qed.

Lemma run_called h func m s : acpi_lps0_handle s = Some h ->
  acpi_lps0_run func m s = called s [if m : bool then msft func else intel func].
Proof.
  intros H. unfold acpi_lps0_run, called, acpi_lps0_dsm. destruct s; cbn in *. rewrite H.
  destruct m; cbn; destruct (_ =? 0); cbn; try done; by destruct (dsm_reply _ _).
Qed.

Lemma run_handle func m s : acpi_lps0_handle (acpi_lps0_run func m s) = acpi_lps0_handle s.
Proof.
  unfold acpi_lps0_run, acpi_lps0_dsm. destruct (_ =? 0); [done|]. destruct (acpi_lps0_handle s) eqn:E; [|done]. by destruct (dsm_reply _ _).
Qed.

(** Entering and leaving notify the firmware of the _DSM functions it offers and of no
    others, each once, in the order the platform expects. *)
Theorem lps0_notifies_what_is_offered s : acpi_lps0_handle s <> None -> acpi_lps0_probed s = true ->
  acpi_lps0_enter s = called s enter_calls /\ acpi_lps0_exit s = called s exit_calls.
Proof.
  intros H Hp. unfold acpi_lps0_enter, acpi_lps0_probe, acpi_lps0_exit. rewrite Hp. destruct (acpi_lps0_handle s) as [h|] eqn:E; [|done].
  split; rewrite !(run_called h) by (by rewrite ?run_handle); by rewrite !called_app.
Qed.

End lps0.
