(* ===== verification/Freeze.v ===== *)
(** * Suspend to idle

    acpi_enter_freeze of kernel/dev/acpi/acpi.c, the transaction over the parts
    modelled before it: the display, userspace, the file system barrier, the
    devices, the wake devices, the power groups, the LPS0 firmware and the PMC
    registers.  What is outside answers by a parameter; at every call another
    thread may wake the machine.  The measurements for the message buffer, which
    change nothing, are left out. *)

From stdpp Require Import base numbers strings list.
From S2P Require Import Prelude Sysctl Lwp Mount S2idle AcpiPower AcpiWake AdrPower Device Pmf LwpSusp Lps0.

(** ** Calls *)

Inductive fcall :=
  | F_handlex (cmd : Z)                              (* wsdisplay_handlex *)
  | F_userspace (freeze : bool)
  | F_settle                                         (* the first kpause *)
  | F_barrier
  | F_suspend (dev : nat) (ok : bool)
  | F_prepare
  | F_power (state : Z)                              (* acpi_s2idle_powerdown *)
  | F_lps0 (enter : bool)
  | F_rdmsr (disable : bool) (cpu : nat)             (* acpi_cstcfg_xc: its reads and writes *)
  | F_wrmsr (disable : bool) (cpu : nat) (v : Z)
  | F_ltr_read                                       (* LTR_IGNORE, 0xfe001b0c *)
  | F_ltr_write (v : Z)
  | F_latch_read                                     (* the latch select, 0xfe001c34 *)
  | F_latch_write (v : Z)
  | F_etr3_read                                      (* ETR3, 0xfe001048 *)
  | F_etr3_write (v : Z)
  | F_hold                                           (* a kpause of the hold *)
  | F_ltr_restore (v : Z)
  | F_latch_restore (v : Z)
  | F_commit
  | F_resume (dev : nat) (ok : bool)
  | F_release
  .

(** The answers: for a read the value, negative if the access failed; for a write
    0 on success.  And whether someone calls acpi_freeze_wakeup meanwhile. *)
Class World := {
  fz_answer : list (fcall * Z) -> fcall -> Z;
  fz_wakes : list (fcall * Z) -> fcall -> bool
}.

(** ** State *)

Record config := mk_config {
  acpi_freeze_fsbarrier : Z;
  acpi_freeze_storage : bool;
  acpi_freeze_ltr_ignore : bool;
  acpi_freeze_timeout : Z;
  acpi_freeze_keep_net : bool;
  cf_exp : Z                                         (* acpi_idle_d3_exp *)
}.

Record freeze := mk_fz {
  z_pmf : pmf;
  z_vfs : vfs;
  z_adr : adr_sys;
  z_table : list acpi_adr_pwr;  (* of acpi_s2idle_powerdown *)
  z_procs : list proc;
  z_lps0 : lps0;
  z_cst : list Z;  (* acpi_cstcfg_saved *)
  acpi_freeze_active : bool;
  acpi_freeze_wake : bool;
  sc_sleepstate : Z;
  i915_lispbsd_s0idle : Z;
  z_log : list (fcall * Z)  (* latest first *)
}.

Definition set_z_pmf (v : pmf) (r : freeze) : freeze :=
  mk_fz v (z_vfs r) (z_adr r) (z_table r) (z_procs r) (z_lps0 r) (z_cst r)
    (acpi_freeze_active r) (acpi_freeze_wake r) (sc_sleepstate r)
    (i915_lispbsd_s0idle r) (z_log r).
Definition set_z_vfs (v : vfs) (r : freeze) : freeze :=
  mk_fz (z_pmf r) v (z_adr r) (z_table r) (z_procs r) (z_lps0 r) (z_cst r)
    (acpi_freeze_active r) (acpi_freeze_wake r) (sc_sleepstate r)
    (i915_lispbsd_s0idle r) (z_log r).
Definition set_z_adr (v : adr_sys) (r : freeze) : freeze :=
  mk_fz (z_pmf r) (z_vfs r) v (z_table r) (z_procs r) (z_lps0 r) (z_cst r)
    (acpi_freeze_active r) (acpi_freeze_wake r) (sc_sleepstate r)
    (i915_lispbsd_s0idle r) (z_log r).
Definition set_z_table (v : list acpi_adr_pwr) (r : freeze) : freeze :=
  mk_fz (z_pmf r) (z_vfs r) (z_adr r) v (z_procs r) (z_lps0 r) (z_cst r)
    (acpi_freeze_active r) (acpi_freeze_wake r) (sc_sleepstate r)
    (i915_lispbsd_s0idle r) (z_log r).
Definition set_z_procs (v : list proc) (r : freeze) : freeze :=
  mk_fz (z_pmf r) (z_vfs r) (z_adr r) (z_table r) v (z_lps0 r) (z_cst r)
    (acpi_freeze_active r) (acpi_freeze_wake r) (sc_sleepstate r)
    (i915_lispbsd_s0idle r) (z_log r).
Definition set_z_lps0 (v : lps0) (r : freeze) : freeze :=
  mk_fz (z_pmf r) (z_vfs r) (z_adr r) (z_table r) (z_procs r) v (z_cst r)
    (acpi_freeze_active r) (acpi_freeze_wake r) (sc_sleepstate r)
    (i915_lispbsd_s0idle r) (z_log r).
Definition set_z_cst (v : list Z) (r : freeze) : freeze :=
  mk_fz (z_pmf r) (z_vfs r) (z_adr r) (z_table r) (z_procs r) (z_lps0 r) v
    (acpi_freeze_active r) (acpi_freeze_wake r) (sc_sleepstate r)
    (i915_lispbsd_s0idle r) (z_log r).
Definition set_acpi_freeze_active (v : bool) (r : freeze) : freeze :=
  mk_fz (z_pmf r) (z_vfs r) (z_adr r) (z_table r) (z_procs r) (z_lps0 r)
    (z_cst r) v (acpi_freeze_wake r) (sc_sleepstate r) (i915_lispbsd_s0idle r)
    (z_log r).
Definition set_acpi_freeze_wake (v : bool) (r : freeze) : freeze :=
  mk_fz (z_pmf r) (z_vfs r) (z_adr r) (z_table r) (z_procs r) (z_lps0 r)
    (z_cst r) (acpi_freeze_active r) v (sc_sleepstate r) (i915_lispbsd_s0idle
    r) (z_log r).
Definition set_sc_sleepstate (v : Z) (r : freeze) : freeze :=
  mk_fz (z_pmf r) (z_vfs r) (z_adr r) (z_table r) (z_procs r) (z_lps0 r)
    (z_cst r) (acpi_freeze_active r) (acpi_freeze_wake r) v
    (i915_lispbsd_s0idle r) (z_log r).
Definition set_i915_lispbsd_s0idle (v : Z) (r : freeze) : freeze :=
  mk_fz (z_pmf r) (z_vfs r) (z_adr r) (z_table r) (z_procs r) (z_lps0 r)
    (z_cst r) (acpi_freeze_active r) (acpi_freeze_wake r) (sc_sleepstate r) v
    (z_log r).
Definition set_z_log (v : list (fcall * Z)) (r : freeze) : freeze :=
  mk_fz (z_pmf r) (z_vfs r) (z_adr r) (z_table r) (z_procs r) (z_lps0 r)
    (z_cst r) (acpi_freeze_active r) (acpi_freeze_wake r) (sc_sleepstate r)
    (i915_lispbsd_s0idle r) v.

Definition ACPI_STATE_S3 : Z := 3.

Section freeze.
Context `{OS : Outside} `{FW : Firmware} `{PCI : PciSpace} `{DI : DeviceIs} `{DR : Drivers} `{US : Unsleep} `{DSM : Dsm} `{W : World}.

(** This LWP, its flags, the CPUs, the nodes of sc_head, the driver of a node and
    the limit of the suspended array. *)
Context (cf : config) (curlwp : nat) (curflag : Z) (cpus : list nat) (reduced : bool)
  (wnodes : list wnode) (anodes : list anode) (gdv : pmf -> ACPI_HANDLE -> option (bool * bool)) (NSUSPENDED : nat).

Definition acpi_freeze_wakeup (s : freeze) : bool * freeze :=
  if acpi_freeze_active s then (true, set_acpi_freeze_wake true s) else (false, s).

Definition world (c : fcall) (s : freeze) : Z * freeze :=
  let a := fz_answer (z_log s) c in
  let woken := fz_wakes (z_log s) c in
  let s := set_z_log ((c, a) :: z_log s) s in
  (a, if woken then (acpi_freeze_wakeup s).2 else s).
Definition world_ (c : fcall) (s : freeze) : freeze := (world c s).2.

(** ** The devices to keep *)

Definition has_prefix (p : string) (n : string) : bool := String.prefix p n.

(** The walk to the root; [None] when it reaches it. *)
Fixpoint keep_ancestor (n : nat) (s : pmf) (p : option nat) (suspend_storage : bool) : option bool :=
  match n, p with
  | S n, Some p =>
      let d := getd s p in
      if device_is_a d "dwiic" then Some false
      else if device_is_a d "nvme" then Some (negb suspend_storage)
      else keep_ancestor n s (dv_parent d) suspend_storage
  | _, _ => None
  end.

Definition s2idle_prefixes : list string :=
  ["i915drmkms"; "intelfb"; "wsdisplay"; "iwx"; "xhci"; "hpet"; "uhub"; "ugen"; "uhidev"; "audio"; "hdafg"; "hdaudio"; "spkr"; "midi"]%string.

Definition acpi_s2idle_keep (s : pmf) (p : nat) (suspend_storage : bool) : bool :=
  match keep_ancestor (S (length (alldevs (p_ac s)))) s (Some p) suspend_storage with
  | Some k => k
  | None =>
      let n := dv_xname (getd s p) in
      if acpi_freeze_keep_net cf && has_prefix "iwx" n then true
      else negb (existsb (fun x => has_prefix x n) s2idle_prefixes)
  end.

(** ** Pieces *)

Definition userspace (frz : bool) (s : freeze) : freeze :=
  world_ (F_userspace frz) (set_z_procs (acpi_s0_freeze_userspace frz curlwp curflag (z_procs s)) s).

Definition powerdown (state : Z) (s : freeze) : freeze :=
  let '(l, a) := acpi_adr_power (gdv (z_pmf s)) (cf_exp cf) anodes (z_table s) state (z_adr s) in
  world_ (F_power state) (set_z_adr a (set_z_table l s)).

(** [f] on the power resources. *)
Definition on_power (f : power -> power) (s : freeze) : freeze :=
  set_z_adr (set_a_power (f (a_power (z_adr s))) (z_adr s)) s.

(** C1 and C3 auto-demotion on one CPU. *)
Definition AUTO_DEMOTE : Z := Z.lor (Z.shiftl 1 26) (Z.shiftl 1 25).

Definition acpi_cstcfg_xc (disable : bool) (s : freeze) (cpu : nat) : freeze :=
  let '(v, s) := world (F_rdmsr disable cpu) s in
  if (length (z_cst s) <=? cpu)%nat then s else
  let s := if disable then world_ (F_wrmsr disable cpu (Z.land v (Z.lnot AUTO_DEMOTE))) (set_z_cst (<[cpu := v]> (z_cst s)) s)
           else world_ (F_wrmsr disable cpu (z_cst s !!! cpu)) s in
  world_ (F_rdmsr disable cpu) s.

Definition xc_broadcast (disable : bool) (s : freeze) : freeze := fold_left (acpi_cstcfg_xc disable) cpus s.

(** LTR_IGNORE: what it was, if it was changed. *)
Definition ltr_ignore (s : freeze) : option Z * freeze :=
  if negb (acpi_freeze_ltr_ignore cf) then (None, s) else
  let '(v, s) := world F_ltr_read s in
  if v <? 0 then (None, s) else
  let '(e, s) := world (F_ltr_write (Z.lor v 0x007fffff)) s in
  (if e =? 0 then Some v else None, s).

Definition ltr_restore (saved : option Z) (s : freeze) : freeze :=
  match saved with Some v => world_ (F_ltr_restore v) s | None => s end.

(** The latch select: what it was, if it was armed. *)
Definition latch_arm (s : freeze) : option Z * freeze :=
  let '(v, s) := world F_latch_read s in
  if v <? 0 then (None, s) else
  let '(e, s) := world (F_latch_write (Z.land v (Z.lnot (Z.shiftl 1 31)))) s in
  let '(x, s) := world F_etr3_read s in
  let s := if x <? 0 then s else world_ (F_etr3_write (Z.lor x (Z.shiftl 1 28))) s in
  (if e =? 0 then Some v else None, s).

Definition latch_restore (saved : option Z) (s : freeze) : freeze :=
  match saved with Some v => world_ (F_latch_restore v) s | None => s end.

(** The hold, with [fuel] turns at most. *)
Fixpoint hold_loop (fuel : nat) (elapsed : Z) (s : freeze) : option freeze :=
  if negb (acpi_freeze_wake s) && ((acpi_freeze_timeout cf <=? 0) || (elapsed <? acpi_freeze_timeout cf)) then
    match fuel with
    | O => None
    | S fuel => hold_loop fuel (elapsed + 1) (world_ F_hold s)
    end
  else Some s.

(** ** The device loops *)

Notation loop := (list nat * bool * freeze)%type.
Definition lget (x : loop) : autoconf := p_ac (z_pmf x.2).
Definition lput (a : autoconf) (x : loop) : loop := (x.1, set_z_pmf (set_p_ac a (z_pmf x.2)) x.2).

Definition suspend_body (suspend_storage : bool) (p : nat) (x : loop) : bool * loop :=
  let '(suspended, failed, s) := x in
  if negb (device_is_active (getd (z_pmf s) p)) || acpi_s2idle_keep (z_pmf s) p suspend_storage then (true, x)
  else if Nat.eqb (length suspended) NSUSPENDED then (false, (suspended, true, s))
  else
    let '(ok, m) := pmf_device_suspend curlwp p PMF_Q_NONE (z_pmf s) in
    let s := world_ (F_suspend p ok) (set_z_pmf m s) in
    (ok, (suspended ++ [p], failed || negb ok, s)).

Definition suspend_devices (suspend_storage : bool) (s : freeze) : loop :=
  for_devices lget lput DEVITER_LEAVES (suspend_body suspend_storage) ([], false, s).

Definition resume_body (p : nat) (x : loop) : bool * loop :=
  let '(suspended, failed, s) := x in
  if negb (bool_decide (p ∈ suspended)) || negb (parent_active (z_pmf s) p) then (true, x)
  else
    let '(ok, m) := pmf_device_resume curlwp p PMF_Q_NONE (z_pmf s) in
    (true, (suspended, failed || negb ok, world_ (F_resume p ok) (set_z_pmf m s))).

(** The flag is whether a resume failed. *)
Definition resume_devices (suspended : list nat) (s : freeze) : loop :=
  for_devices lget lput DEVITER_ROOT resume_body (suspended, false, s).

(** ** The transaction *)

(** Asleep: from acpi_wakedev_prepare to the power resources back. *)
Definition sleep (fuel : nat) (s : freeze) : option freeze :=
  let s := world_ F_prepare (on_power (acpi_wakedev_prepare reduced wnodes ACPI_STATE_S0) s) in
  let s := powerdown ACPI_STATE_D3 s in
  let s := set_sc_sleepstate ACPI_STATE_S3 s in
  let s := world_ (F_lps0 true) (set_z_lps0 (acpi_lps0_enter (z_lps0 s)) s) in
  let s := xc_broadcast true s in
  let '(ltr, s) := ltr_ignore s in
  let '(latch, s) := latch_arm s in
  match hold_loop fuel 0 s with
  | None => None
  | Some s =>
      let s := set_acpi_freeze_active false s in
      let s := ltr_restore ltr s in
      let s := latch_restore latch s in
      let s := xc_broadcast false s in
      let s := world_ (F_lps0 false) (set_z_lps0 (acpi_lps0_exit (z_lps0 s)) s) in
      let s := world_ F_commit (on_power (acpi_wakedev_commit reduced wnodes ACPI_STATE_S0) s) in
      Some (powerdown ACPI_STATE_D0 s)
  end.

(** From resume_devices on. *)
Definition finish (held : option (list vfs_s2idle_mount)) (save : Z) (s : freeze) : freeze :=
  let s := set_i915_lispbsd_s0idle save s in
  let s := match held with
           | Some ms => world_ F_release (set_z_vfs (vfs_resume_all curlwp ms (z_vfs s)) s)
           | None => s
           end in
  let s := userspace false s in
  let s := world_ (F_handlex 1) s in
  set_sc_sleepstate ACPI_STATE_S0 s.

Definition barrier (s : freeze) : option (Z * list vfs_s2idle_mount * freeze) :=
  if acpi_freeze_fsbarrier cf =? 0 then Some (0, [], s) else
  match vfs_suspend_all curlwp (z_vfs s) with
  | None => None
  | Some (e, ms, v) => Some (e, ms, world_ F_barrier (set_z_vfs v s))
  end.

Definition acpi_enter_freeze (fuel : nat) (s : freeze) : option freeze :=
  if negb (sc_sleepstate s =? ACPI_STATE_S0) then Some s else
  let s := set_acpi_freeze_active true (set_acpi_freeze_wake false s) in
  let '(e, s) := world (F_handlex 0) s in
  if nz e then Some (set_acpi_freeze_active false s) else
  let s := userspace true s in
  let s := world_ F_settle s in
  match barrier s with
  | None => None
  | Some (fs_error, ms, s) =>
      let fsbarrier_held := negb (acpi_freeze_fsbarrier cf =? 0) && (fs_error =? 0) in
      if nz fs_error && (2 <=? acpi_freeze_fsbarrier cf) then
        let s := set_acpi_freeze_active false s in
        let s := userspace false s in
        let s := world_ (F_handlex 1) s in
        Some (set_sc_sleepstate ACPI_STATE_S0 s)
      else
        let held := if fsbarrier_held then Some ms else None in
        let suspend_storage := acpi_freeze_storage cf && fsbarrier_held in
        let save := i915_lispbsd_s0idle s in
        let s := set_i915_lispbsd_s0idle 1 s in
        let '(suspended, failed, s) := suspend_devices suspend_storage s in
        if failed : bool then
          let s := set_acpi_freeze_active false s in
          Some (finish held save (resume_devices suspended s).2)
        else
          match sleep fuel s with
          | None => None
          | Some s => Some (finish held save (resume_devices suspended s).2)
          end
  end.

End freeze.
