(* ===== verification/FreezeFacts.v ===== *)
(** * The pieces of a suspend to idle

    What each piece of acpi_enter_freeze leaves alone, what its device loops
    are as loops over a list, and what the file system barrier promises it. *)

From stdpp Require Import base numbers strings list.
From S2P Require Import Prelude Sysctl Lwp Mount MountFacts S2idle S2Facts S2Steps S2Thms S2Session AcpiPower AcpiWake AdrPower AdrThms Device DeviterThms Pmf PmfFacts PmfThms PmfInv LwpSusp Lps0 Freeze.

(** ** What the barrier promises *)

Class BarrierOk `{OS : Outside} (curlwp : nat) : Prop := {
  barrier_returns : forall v, vfs_fit v -> exists e ms v', vfs_suspend_all curlwp v = Some (e, ms, v') /\
    (e <> 0 -> same_but_calls v v') /\ (e = 0 -> same_but_calls v (vfs_resume_all curlwp ms v'))
}.

#[export] Instance vfs_barrier `{OS : Outside} curlwp : BarrierOk curlwp.
Proof.
  split. intros v Fit. destruct (suspend_all_spec curlwp v Fit) as (e & ms & v' & E & He & H0). exists e, ms, v'. split; [done|].
  split; [intros Hn; by apply He|]. intros Hz. destruct (H0 Hz) as (_ & Ho & Hm & S & H & _). apply resume_all_spec; try done.
  pose proof (f_equal length (ha_mounts _ _ H)) as Hl. rewrite length_map in Hl. rewrite Hl. apply mounts_of_length.
Qed.

Section facts.
Context `{OS : Outside} `{FW : Firmware} `{PCI : PciSpace} `{DI : DeviceIs} `{DR : Drivers} `{US : Unsleep} `{DSM : Dsm} `{W : World}.
Context (cf : config) (curlwp : nat) (curflag : Z) (cpus : list nat) (reduced : bool)
  (wnodes : list wnode) (anodes : list anode) (gdv : pmf -> ACPI_HANDLE -> option (bool * bool)) (NSUSPENDED : nat).

(** ** Frames *)

(** Everything a call to the world leaves: all but the log and the wake latch. *)
Definition calm (s s' : freeze) : Prop :=
  z_pmf s' = z_pmf s /\ z_vfs s' = z_vfs s /\ z_adr s' = z_adr s /\ z_table s' = z_table s /\ z_procs s' = z_procs s /\
  z_lps0 s' = z_lps0 s /\ acpi_freeze_active s' = acpi_freeze_active s /\ sc_sleepstate s' = sc_sleepstate s /\
  i915_lispbsd_s0idle s' = i915_lispbsd_s0idle s.

Lemma calm_refl s : calm s s.
Proof. done. Qed.

Lemma calm_trans a b c : calm a b -> calm b c -> calm a c.
Proof. unfold calm. intuition congruence. Qed.

Lemma world_calm c s : calm s (world_ c s).
Proof. unfold world_, world, acpi_freeze_wakeup. destruct (fz_wakes _ _); [|done]. cbn. by destruct (acpi_freeze_active s). Qed.

Lemma world_log c s : z_log (world_ c s) = (c, fz_answer (z_log s) c) :: z_log s.
Proof. unfold world_, world, acpi_freeze_wakeup. destruct (fz_wakes _ _); [|done]. cbn. by destruct (acpi_freeze_active s). Qed.

Lemma world_cst c s : z_cst (world_ c s) = z_cst s.
Proof. unfold world_, world, acpi_freeze_wakeup. destruct (fz_wakes _ _); [|done]. cbn. by destruct (acpi_freeze_active s). Qed.

Lemma world_pair c s : world c s = ((world c s).1, world_ c s).
Proof. unfold world_. by destruct (world c s). Qed.

Lemma cstcfg_calm d s cpu : calm s (acpi_cstcfg_xc d s cpu).
Proof.
  unfold acpi_cstcfg_xc. rewrite world_pair. pose proof (world_calm (F_rdmsr d cpu) s) as H. set (s1 := world_ (F_rdmsr d cpu) s) in *.
  destruct (_ <=? _)%nat; [done|]. eapply calm_trans; [exact H|]. eapply calm_trans; [|apply world_calm].
  destruct d; [|apply world_calm]. eapply calm_trans; [|apply world_calm]. done.
Qed.

Lemma broadcast_calm d s : calm s (xc_broadcast cpus d s).
Proof.
  unfold xc_broadcast. revert s. induction cpus as [|c l IH]; intros s; cbn [fold_left]; [apply calm_refl|].
  eapply calm_trans; [apply cstcfg_calm|apply IH].
Qed.

Lemma ltr_ignore_calm s : calm s (ltr_ignore cf s).2.
Proof.
  unfold ltr_ignore. destruct (negb _); [done|]. rewrite world_pair. pose proof (world_calm F_ltr_read s) as H.
  destruct (_ <? 0); [done|]. rewrite world_pair. eapply calm_trans; [exact H|apply world_calm].
Qed.

Lemma ltr_restore_calm v s : calm s (ltr_restore v s).
Proof. destruct v; [apply world_calm|apply calm_refl]. Qed.

Lemma latch_arm_calm s : calm s (latch_arm s).2.
Proof.
  unfold latch_arm. rewrite world_pair. pose proof (world_calm F_latch_read s) as H. destruct (_ <? 0); [done|].
  rewrite world_pair. eapply calm_trans; [exact H|]. rewrite (world_pair F_etr3_read). cbn [snd].
  eapply calm_trans; [apply world_calm|]. eapply calm_trans; [apply world_calm|]. destruct (_ <? 0); [apply calm_refl|apply world_calm].
Qed.

Lemma latch_restore_calm v s : calm s (latch_restore v s).
Proof. destruct v; [apply world_calm|apply calm_refl]. Qed.

Lemma hold_calm fuel : forall n s s', hold_loop cf fuel n s = Some s' -> calm s s'.
Proof.
  induction fuel as [|fuel IH]; intros n s s'; cbn [hold_loop]; (destruct (_ && _); [|by intros [= <-]]); [done|].
  intros H. eapply calm_trans; [apply world_calm|]. by eapply IH.
Qed.

(** The hold is over after the time set, or sooner. *)
Lemma hold_ends fuel : forall n s, 0 < acpi_freeze_timeout cf -> acpi_freeze_timeout cf - n <= Z.of_nat fuel ->
  exists s', hold_loop cf fuel n s = Some s'.
Proof.
  induction fuel as [|fuel IH]; intros n s Ht Hf; cbn [hold_loop]; rewrite (proj2 (Z.leb_gt _ _) Ht); cbn [orb].
  - rewrite (proj2 (Z.ltb_ge n _)) by lia. rewrite andb_false_r. by eexists.
  - destruct (_ && _); [|by eexists]. apply IH; [done|lia].
Qed.

(** The calls after [n] pauses. *)
Fixpoint holds (n : nat) (log : list (fcall * Z)) : list (fcall * Z) :=
  match n with O => log | S n => holds n ((F_hold, fz_answer log F_hold) :: log) end.

(** The hold has a time set, or somebody wakes the machine sooner or later. *)
Definition hold_over : Prop :=
  0 < acpi_freeze_timeout cf \/ forall log, exists n, fz_wakes (holds n log) F_hold = true.

(** The hold is over once somebody wakes the machine during a pause. *)
Lemma hold_woken n : forall fuel e s, acpi_freeze_active s = true -> fz_wakes (holds n (z_log s)) F_hold = true -> (n < fuel)%nat ->
  exists s', hold_loop cf fuel e s = Some s'.
Proof.
  induction n as [|n IH]; intros [|fuel] e s Ha Hw Hn; try lia; cbn [hold_loop]; (destruct (_ && _); [|by eexists]).
  - assert (acpi_freeze_wake (world_ F_hold s) = true) as Ew.
    { unfold world_, world, acpi_freeze_wakeup. cbn [holds] in Hw. rewrite Hw. cbn. by rewrite Ha. }
    destruct fuel; cbn [hold_loop]; rewrite Ew; by eexists.
  - apply IH; [|exact (eq_ind _ (fun l => fz_wakes (holds n l) F_hold = true) Hw _ (eq_sym (world_log F_hold s)))|lia].
    by destruct (world_calm F_hold s) as (_ & _ & _ & _ & _ & _ & -> & _).
Qed.

Lemma hold_more fuel fuel' : (fuel <= fuel')%nat -> forall e s s', hold_loop cf fuel e s = Some s' -> hold_loop cf fuel' e s = Some s'.
Proof.
  revert fuel'. induction fuel as [|fuel IH]; intros [|fuel'] Hf e s s'; try lia; cbn [hold_loop]; destruct (_ && _); try done.
  apply IH. lia.
Qed.

Lemma hold_returns s : acpi_freeze_active s = true -> hold_over -> exists n s',
  (0 < acpi_freeze_timeout cf -> n = Z.to_nat (acpi_freeze_timeout cf)) /\ hold_loop cf n 0 s = Some s'.
Proof.
  intros Ha H. destruct (Z.ltb_spec 0 (acpi_freeze_timeout cf)) as [Ht|Ht].
  - destruct (hold_ends (Z.to_nat (acpi_freeze_timeout cf)) 0 s Ht ltac:(lia)) as [s' E]. by eexists _, s'.
  - destruct H as [H|H]; [lia|]. destruct (H (z_log s)) as [n Hw]. destruct (hold_woken n (S n) 0 s Ha Hw ltac:(lia)) as [s' E].
    exists (S n), s'. split; [lia|done].
Qed.

(** ** Asleep *)

(** What sleeping leaves: devices, file systems and userspace. *)
Definition outer (s s' : freeze) : Prop :=
  z_pmf s' = z_pmf s /\ z_vfs s' = z_vfs s /\ z_procs s' = z_procs s /\ i915_lispbsd_s0idle s' = i915_lispbsd_s0idle s.

Lemma outer_calm s s' : calm s s' -> outer s s'.
Proof. unfold calm, outer. intuition. Qed.

Lemma outer_trans a b c : outer a b -> outer b c -> outer a c.
Proof. unfold outer. intuition congruence. Qed.

Lemma powerdown_outer st s : outer s (powerdown cf anodes gdv st s) /\
  acpi_freeze_active (powerdown cf anodes gdv st s) = acpi_freeze_active s /\ sc_sleepstate (powerdown cf anodes gdv st s) = sc_sleepstate s /\
  z_table (powerdown cf anodes gdv st s) = (acpi_adr_power (gdv (z_pmf s)) (cf_exp cf) anodes (z_table s) st (z_adr s)).1.
Proof.
  unfold powerdown. destruct (acpi_adr_power _ _ _ _ _ _) as [l a]. set (s1 := set_z_adr a (set_z_table l s)).
  pose proof (world_calm (F_power st) s1) as (H1 & H2 & H3 & H4 & H5 & H6 & H7 & H8 & H9). split; [split; [exact H1|done]|done].
Qed.

Definition clean (ap : acpi_adr_pwr) : Prop := unmoved ap /\ ap_state ap = ADRPWR_ON.

(** A table off and on again. *)
Lemma adr_power_back g g' e e' ns ns' st l s l1 s1 s2 l2 s3 : Forall (fun ap => ap_changed ap = NULL) l -> st <> ACPI_STATE_D0 ->
  acpi_adr_power g e ns l st s = (l1, s1) -> acpi_adr_power g' e' ns' l1 ACPI_STATE_D0 s2 = (l2, s3) ->
  Forall2 same_entry l l2 /\ Forall clean l2.
Proof.
  intros Hl Hs E1 E2. unfold acpi_adr_power in *. rewrite (proj2 (Z.eqb_neq _ _) Hs) in E1. cbn [ACPI_STATE_D0 Z.eqb] in E2.
  pose proof (off_loop_spec g e ns st ns (fun _ H => H) (map reset_entry l) s [] (off_starts ns st l Hl)) as H1.
  pose proof (off_kept g e ns st l s) as K. rewrite E1 in H1, K. destruct H1 as (off & _ & I1 & _).
  pose proof (restore_loop_spec g' l1 s2) as H2. destruct (restore_loop g' l1 s2) as [l3 s4]. destruct H2 as (-> & _).
  injection E2 as <- <-. clear -K I1. cbn [fst] in K. split.
  - induction K as [|a b l l1 Hab K IH]; [constructor|]. apply Forall_cons in I1 as [Hb I1]. constructor; [|by apply IH].
    destruct Hab as [[A1 A2] _]. unfold restored. by destruct (Nat.eqb _ _).
  - apply Forall_map, Forall_map. eapply Forall_impl; [exact I1|]. intros b Hb. unfold clean, unmoved, restored in *.
    destruct (Nat.eqb_spec (ap_changed b) NULL) as [E|E]; [|done]. destruct Hb as [[_ Hb]|[? _]]; [done|done].
Qed.

Definition no_moved (s : freeze) : Prop := Forall (fun ap => ap_changed ap = NULL) (z_table s).

Lemma sleep_spec fuel s s' : no_moved s -> sleep cf cpus reduced wnodes anodes gdv fuel s = Some s' ->
  outer s s' /\ acpi_freeze_active s' = false /\ Forall2 same_entry (z_table s) (z_table s') /\ Forall clean (z_table s').
Proof.
  intros Hn. unfold sleep. set (s1 := world_ F_prepare _).
  assert (outer s s1 /\ z_table s1 = z_table s) as [O1 T1].
  { pose proof (world_calm F_prepare (on_power (acpi_wakedev_prepare reduced wnodes ACPI_STATE_S0) s)) as (A1 & A2 & A3 & A4 & A5 & A6 & A7 & A8 & A9). by repeat split. }
  destruct (powerdown_outer ACPI_STATE_D3 s1) as (O2 & _ & _ & T2). set (s2 := powerdown _ _ _ ACPI_STATE_D3 s1) in *.
  set (s3 := set_sc_sleepstate ACPI_STATE_S3 s2). set (s4 := world_ (F_lps0 true) _).
  assert (outer s3 s4 /\ z_table s4 = z_table s3) as [O4 T4].
  { pose proof (world_calm (F_lps0 true) (set_z_lps0 (acpi_lps0_enter (z_lps0 s3)) s3)) as (A1 & A2 & A3 & A4 & A5 & A6 & A7 & A8 & A9). by repeat split. }
  pose proof (broadcast_calm true s4) as C5. set (s5 := xc_broadcast cpus true s4) in *.
  pose proof (ltr_ignore_calm s5) as C6. destruct (ltr_ignore cf s5) as [ltr s6]. cbn [snd] in C6.
  pose proof (latch_arm_calm s6) as C7. destruct (latch_arm s6) as [latch s7]. cbn [snd] in C7.
  destruct (hold_loop cf fuel 0 s7) as [s8|] eqn:E8; [|done]. apply hold_calm in E8.
  set (s9 := set_acpi_freeze_active false s8). pose proof (ltr_restore_calm ltr s9) as C9. set (s10 := ltr_restore ltr s9) in *.
  pose proof (latch_restore_calm latch s10) as C10. set (s11 := latch_restore latch s10) in *.
  pose proof (broadcast_calm false s11) as C11. set (s12 := xc_broadcast cpus false s11) in *. set (s13 := world_ (F_lps0 false) _).
  assert (calm s4 s8) as C48 by (eapply calm_trans; [exact C5|]; eapply calm_trans; [exact C6|]; eapply calm_trans; [exact C7|exact E8]).
  assert (calm s9 s12) as C912 by (eapply calm_trans; [exact C9|]; eapply calm_trans; [exact C10|exact C11]).
  assert (outer s12 s13 /\ z_table s13 = z_table s12 /\ acpi_freeze_active s13 = acpi_freeze_active s12) as (O13 & T13 & B13).
  { pose proof (world_calm (F_lps0 false) (set_z_lps0 (acpi_lps0_exit (z_lps0 s12)) s12)) as (A1 & A2 & A3 & A4 & A5 & A6 & A7 & A8 & A9). by repeat split. }
  set (s14 := world_ F_commit _).
  assert (outer s13 s14 /\ z_table s14 = z_table s13 /\ acpi_freeze_active s14 = acpi_freeze_active s13) as (O14 & T14 & B14).
  { pose proof (world_calm F_commit (on_power (acpi_wakedev_commit reduced wnodes ACPI_STATE_S0) s13)) as (A1 & A2 & A3 & A4 & A5 & A6 & A7 & A8 & A9). by repeat split. }
  destruct (powerdown_outer ACPI_STATE_D0 s14) as (O15 & B15 & _ & T15). intros [= <-].
  destruct C48 as (P1 & P2 & P3 & P4 & P5 & P6 & P7 & P8 & P9). destruct C912 as (Q1 & Q2 & Q3 & Q4 & Q5 & Q6 & Q7 & Q8 & Q9).
  assert (z_table s14 = z_table s2) as Ts by (rewrite T14, T13, Q4; exact (eq_trans P4 T4)). rewrite Ts in T15. split; [|split].
  - assert (outer s2 s4) as O24 by exact O4. assert (outer s8 s12) as O812 by exact (conj Q1 (conj Q2 (conj Q5 Q9))).
    assert (outer s4 s8) as O48 by exact (conj P1 (conj P2 (conj P5 P9))).
    eapply outer_trans; [exact O1|]. eapply outer_trans; [exact O2|]. eapply outer_trans; [exact O24|]. eapply outer_trans; [exact O48|].
    eapply outer_trans; [exact O812|]. eapply outer_trans; [exact O13|]. eapply outer_trans; [exact O14|exact O15].
  - rewrite B15, B14, B13, Q7. done.
  - rewrite <-T1. rewrite T15. unfold no_moved in Hn. rewrite <-T1 in Hn.
    destruct (acpi_adr_power (gdv (z_pmf s1)) (cf_exp cf) anodes (z_table s1) ACPI_STATE_D3 (z_adr s1)) as [l1 a1] eqn:Ea. cbn [fst] in T2. rewrite T2.
    destruct (acpi_adr_power (gdv (z_pmf s14)) _ _ l1 _ _) as [l2 a2] eqn:Eb. cbn [fst]. refine (adr_power_back _ _ _ _ _ _ ACPI_STATE_D3 _ _ _ _ _ _ _ Hn _ Ea Eb). by vm_compute.
Qed.

(** Sleeping is over once its hold is. *)
Lemma sleep_ends s : acpi_freeze_active s = true -> hold_over -> exists n s',
  (0 < acpi_freeze_timeout cf -> n = Z.to_nat (acpi_freeze_timeout cf)) /\
  forall fuel, (n <= fuel)%nat -> sleep cf cpus reduced wnodes anodes gdv fuel s = Some s'.
Proof.
  intros Ha H. unfold sleep. set (s1 := world_ F_prepare _).
  assert (acpi_freeze_active s1 = true) as A1 by (unfold s1; by destruct (world_calm F_prepare (on_power (acpi_wakedev_prepare reduced wnodes ACPI_STATE_S0) s)) as (_ & _ & _ & _ & _ & _ & -> & _)).
  destruct (powerdown_outer ACPI_STATE_D3 s1) as (_ & A2 & _ & _). set (s3 := set_sc_sleepstate _ _). set (s4 := world_ (F_lps0 true) _).
  assert (acpi_freeze_active s4 = true) as A4.
  { destruct (world_calm (F_lps0 true) (set_z_lps0 (acpi_lps0_enter (z_lps0 s3)) s3)) as (_ & _ & _ & _ & _ & _ & E & _). unfold s4. rewrite E. exact (eq_trans A2 A1). }
  pose proof (broadcast_calm true s4) as C5. set (s5 := xc_broadcast cpus true s4) in *.
  pose proof (ltr_ignore_calm s5) as C6. destruct (ltr_ignore cf s5) as [ltr s6]. cbn [snd] in C6.
  pose proof (latch_arm_calm s6) as C7. destruct (latch_arm s6) as [latch s7]. cbn [snd] in C7.
  assert (acpi_freeze_active s7 = true) as A7 by (destruct C5 as (_ & _ & _ & _ & _ & _ & E5 & _), C6 as (_ & _ & _ & _ & _ & _ & E6 & _), C7 as (_ & _ & _ & _ & _ & _ & E7 & _); congruence).
  destruct (hold_returns s7 A7 H) as (n & s8 & Hn & E8). eexists n, _. split; [exact Hn|]. intros fuel Hf.
  by rewrite (hold_more _ _ Hf _ _ _ E8).
Qed.

End facts.
