(* ===== verification/FreezeDev.v ===== *)
(** * The devices of a suspend to idle

    The two device loops of acpi_enter_freeze: a device is suspended only if it
    was active, and if no resume fails every device is back where it was. *)

From stdpp Require Import base numbers strings list sorting.
From S2P Require Import Prelude Sysctl Lwp Mount S2idle AcpiPower AcpiWake AdrPower Device DeviterThms Pmf PmfFacts PmfThms PmfInv LwpSusp Lps0 Freeze.

Section devices.
Context `{OS : Outside} `{FW : Firmware} `{PCI : PciSpace} `{DI : DeviceIs} `{DR : Drivers} `{US : Unsleep} `{DSM : Dsm} `{W : World}.
Context (Hok : DeviceIsOk DI) (cf : config) (curlwp : nat) (NSUSPENDED : nat).

Notation loop := (list nat * bool * freeze)%type.
Notation pm := (fun x : loop => z_pmf x.2).

(** ** What the loops leave alone *)

Definition apart (s s' : freeze) : Prop :=
  z_vfs s' = z_vfs s /\ z_adr s' = z_adr s /\ z_table s' = z_table s /\ z_procs s' = z_procs s /\
  z_lps0 s' = z_lps0 s /\ acpi_freeze_active s' = acpi_freeze_active s /\ sc_sleepstate s' = sc_sleepstate s /\
  i915_lispbsd_s0idle s' = i915_lispbsd_s0idle s.

Lemma apart_world c m s : apart s (world_ c (set_z_pmf m s)) /\ z_pmf (world_ c (set_z_pmf m s)) = m.
Proof.
  unfold world_, world, acpi_freeze_wakeup. destruct (fz_wakes _ _); [|done]. cbn. by destruct (acpi_freeze_active s).
Qed.

Lemma suspend_body_apart st p x : apart x.2 (suspend_body cf curlwp NSUSPENDED st p x).2.2.
Proof.
  destruct x as [[l f] s]. unfold suspend_body. destruct (_ || _); [done|]. destruct (Nat.eqb _ _); [done|].
  destruct (pmf_device_suspend _ _ _ _) as [ok m]. apply apart_world.
Qed.

Lemma resume_body_apart p x : apart x.2 (resume_body curlwp p x).2.2.
Proof.
  destruct x as [[l f] s]. unfold resume_body. destruct (_ || _); [done|].
  destruct (pmf_device_resume _ _ _ _) as [ok m]. apply apart_world.
Qed.

Lemma for_devices_apart fl body x : (forall p x, apart x.2 (body p x).2.2) -> apart x.2 (for_devices lget lput fl body x).2.
Proof.
  intros Hb. apply (for_devices_inv lget lput (fun y => apart x.2 y.2)); [by intros a [[? ?] ?]| | |done].
  - by intros a [[l f] s] H _.
  - intros p y H. pose proof (Hb p y) as H'. unfold apart in *. intuition congruence.
Qed.

Lemma suspend_devices_apart st s : apart s (suspend_devices cf curlwp NSUSPENDED st s).2.
Proof. apply (for_devices_apart _ _ ([], false, s)). intros p x. apply suspend_body_apart. Qed.

Lemma resume_devices_apart l s : apart s (resume_devices curlwp l s).2.
Proof. apply (for_devices_apart _ _ (l, false, s)). intros p x. apply resume_body_apart. Qed.

(** ** The list is kept *)

Lemma suspend_body_keeps st p x : keeps (lget x) (lget (suspend_body cf curlwp NSUSPENDED st p x).2).
Proof.
  destruct x as [[l f] s]. unfold suspend_body. destruct (_ || _); [apply keeps_refl|]. destruct (Nat.eqb _ _); [apply keeps_refl|].
  pose proof (suspend_keeps curlwp p PMF_Q_NONE (z_pmf s)) as K. destruct (pmf_device_suspend _ _ _ _) as [ok m]. cbn [snd] in K.
  unfold lget. cbn [snd]. by rewrite (proj2 (apart_world (F_suspend p ok) m s)).
Qed.

Lemma resume_body_keeps p x : keeps (lget x) (lget (resume_body curlwp p x).2).
Proof.
  destruct x as [[l f] s]. unfold resume_body. destruct (_ || _); [apply keeps_refl|].
  pose proof (resume_keeps curlwp p PMF_Q_NONE (z_pmf s)) as K. destruct (pmf_device_resume _ _ _ _) as [ok m]. cbn [snd] in K.
  unfold lget. cbn [snd]. by rewrite (proj2 (apart_world (F_resume p ok) m s)).
Qed.

(** ** The devices before *)

Record start (m : pmf) : Prop := {
  st_ok : devs_ok (p_ac m);
  st_awake : forall p, device_is_active (getd m p) = true -> awake (getd m p);
  st_tree : forall p q, device_is_active (getd m p) = true -> dv_parent (getd m p) = Some q ->
    present m q /\ device_is_active (getd m q) = true /\ dv_del_gen (getd m q) = 0 /\ dv_depth (getd m q) < dv_depth (getd m p)
}.

Context (m0 : pmf) (St : start m0).

Lemma inactive_absent p : device_is_active (getd m0 p) = true -> present m0 p.
Proof. unfold getd, present. destruct (dev_at p _); [done|]. rewrite active_spec. done. Qed.

(** A device during the freeze: as before, or suspended by it. *)
Definition held_down (p : nat) (d : device) : Prop :=
  device_is_active (getd m0 p) = true /\
  ((dv_power_handlers (getd m0 p) = true /\ exists ok, asleep_from PMF_Q_NONE (getd m0 p) ok d) \/
   (dv_power_handlers (getd m0 p) = false /\ d = getd m0 p)).

(** The devices while [down] are suspended. *)
Definition during (m : pmf) (down : nat -> Prop) : Prop :=
  map dv_ptr (alldevs (p_ac m)) = map dv_ptr (alldevs (p_ac m0)) /\
  forall p, (down p -> held_down p (getd m p)) /\ (~ down p -> getd m p = getd m0 p).

Lemma during_present m down p : during m down -> (present m p <-> present m0 p).
Proof.
  intros [H _]. assert (forall l, is_Some (dev_at p l) <-> p ∈ map dv_ptr l) as E.
  { intros l. unfold dev_at. split.
    - intros [d Hd]. apply List.find_some in Hd as [Hd <-%Nat.eqb_eq]. by apply list_elem_of_fmap_2, list_elem_of_In.
    - intros (d & -> & Hd)%list_elem_of_fmap. destruct (List.find _ l) eqn:Ef; [done|]. exfalso.
      apply list_elem_of_In in Hd. apply (List.find_none _ _ Ef) in Hd. by rewrite Nat.eqb_refl in Hd. }
  unfold present. by rewrite !E, H.
Qed.

Lemma held_down_lockfree p d : held_down p d -> dv_nlock d = 0 /\ dv_holder d = None /\ dv_power_handlers d = dv_power_handlers (getd m0 p).
Proof.
  intros [Ha H]. destruct (st_awake _ St p Ha) as [_ _ [N O]]. destruct H as [(Hr & ok & c & dr & b & -> & _)|(Hr & ->)]; [|done].
  rewrite add_of_alt. done.
Qed.

(** A suspension of an untouched device. *)
Lemma suspend_during p m down ok m' : during m down -> ~ down p -> device_is_active (getd m p) = true ->
  pmf_device_suspend curlwp p PMF_Q_NONE m = (ok, m') -> during m' (fun x => x = p \/ down x).
Proof.
  intros D Hn Ha E. pose proof D as [Hk Hd]. pose proof (proj2 (Hd p) Hn) as G. rewrite G in Ha.
  pose proof (suspend_keeps curlwp p PMF_Q_NONE m) as K. rewrite E in K. cbn [snd] in K. apply keeps_ptrs in K.
  assert (present m p) as Hp by (apply (during_present m down p D), inactive_absent, Ha).
  assert (held_down p (getd m' p) /\ forall x, x <> p -> getd m' x = getd m x) as [H1 H2].
  { destruct (dv_power_handlers (getd m0 p)) eqn:Er.
    - pose proof (st_awake _ St p Ha) as Aw. assert (ready curlwp (getd m p)) as Hr.
      { rewrite G. split; [done|]. unfold lockable. by rewrite (proj1 (aw_lock _ Aw)). }
      pose proof (pmf_suspend_spec curlwp p PMF_Q_NONE m Hp Hr) as H. rewrite E in H. destruct H as (d' & B & S & _). split.
      + destruct (becomes_getd _ _ _ _ Hp B) as [-> _]. split; [done|]. left. split; [done|]. exists ok. rewrite G in S. by apply (suspended_asleep curlwp).
      + intros x Hx. by eapply becomes_other.
    - unfold pmf_device_suspend, device_pmf_is_registered in E. rewrite G, Er in E. cbn [negb] in E. injection E as <- <-.
      split; [|done]. rewrite G. split; [done|]. by right. }
  split; [by rewrite K|]. intros x. destruct (decide (x = p)) as [->|Hx]; [split; [done|]; intros H; destruct H; by left|].
  rewrite (H2 x Hx). split; [intros [?|?]; [done|by apply Hd]|]. intros H. apply Hd. intros ?. apply H. by right.
Qed.

(** A resumption that succeeds. *)
Lemma resume_during p m down m' : during m down -> down p ->
  pmf_device_resume curlwp p PMF_Q_NONE m = (true, m') -> during m' (fun x => x <> p /\ down x).
Proof.
  intros D Hdn E. pose proof D as [Hk Hd]. pose proof (proj1 (Hd p) Hdn) as Hh. pose proof (held_down_lockfree p _ Hh) as (N & O & R).
  pose proof (resume_keeps curlwp p PMF_Q_NONE m) as K. rewrite E in K. cbn [snd] in K. apply keeps_ptrs in K.
  destruct Hh as [Ha [(Hr & ok & As)|(Hr & G)]].
  2:{ unfold pmf_device_resume, device_pmf_is_registered in E. rewrite R, Hr in E. done. }
  assert (present m p) as Hp by (apply (during_present m down p D), inactive_absent, Ha).
  assert (ready curlwp (getd m p)) as Hrd by (split; [by rewrite R|]; unfold lockable; by rewrite N).
  pose proof (pmf_resume_spec curlwp p PMF_Q_NONE m Hp Hrd) as H. rewrite E in H. destruct H as (d' & B & H).
  destruct (asleep_resumes curlwp PMF_Q_NONE (getd m0 p) ok (getd m p) d' (st_awake _ St p Ha) As) as [F Rs]. rewrite F in H. rewrite (Rs H) in B.
  split; [by rewrite K|]. intros x. destruct (decide (x = p)) as [->|Hx].
  - split; [by intros [? _]|]. intros _. by destruct (becomes_getd _ _ _ _ Hp B) as [-> _].
  - rewrite (becomes_other _ _ _ _ _ B Hx). split; [intros [_ ?]; by apply Hd|]. intros H'. apply Hd. intros ?. by apply H'.
Qed.

Lemma during_ext m P Q : (forall p, P p <-> Q p) -> during m P -> during m Q.
Proof. intros H [K D]. split; [done|]. intros p. rewrite <-(H p). apply D. Qed.

Lemma during_list m m' P : alldevs (p_ac m') = alldevs (p_ac m) -> during m P -> during m' P.
Proof. intros E [K D]. unfold during, getd. rewrite E. exact (conj K D). Qed.

(** ** The loops as loops over a list *)

Lemma suspend_step st p x : p ∉ x.1.1 -> during (pm x) (fun q => q ∈ x.1.1) -> let x' := (suspend_body cf curlwp NSUSPENDED st p x).2 in
  during (pm x') (fun q => q ∈ x'.1.1) /\ (forall q, q ∈ x'.1.1 -> q ∈ x.1.1 \/ q = p).
Proof.
  destruct x as [[sus f] s]. cbn [fst snd]. intros Hp D. unfold suspend_body.
  destruct (device_is_active (getd (z_pmf s) p)) eqn:Ea; cbn [negb orb]; [|by split; [|left]].
  destruct (acpi_s2idle_keep cf (z_pmf s) p st); [by split; [|left]|]. destruct (Nat.eqb (length sus) NSUSPENDED); [by split; [|left]|].
  destruct (pmf_device_suspend curlwp p PMF_Q_NONE (z_pmf s)) as [ok m'] eqn:E. cbn [fst snd].
  destruct (apart_world (F_suspend p ok) m' s) as [_ ->]. split.
  - eapply during_ext; [|by eapply suspend_during; [exact D|exact Hp|done|exact E]].
    intros q. rewrite elem_of_app, list_elem_of_singleton. naive_solver.
  - intros q. rewrite elem_of_app, list_elem_of_singleton. tauto.
Qed.

Lemma suspend_over st (Q : freeze -> Prop) l :
  (forall p x, during (pm x) (fun q => q ∈ x.1.1) -> Q x.2 -> Q (suspend_body cf curlwp NSUSPENDED st p x).2.2) ->
  forall x, NoDup l -> (forall p, p ∈ l -> p ∉ x.1.1) -> during (pm x) (fun p => p ∈ x.1.1) -> Q x.2 ->
  let x' := run_over (suspend_body cf curlwp NSUSPENDED st) l x in
  during (pm x') (fun p => p ∈ x'.1.1) /\ (forall p, p ∈ x'.1.1 -> p ∈ x.1.1 \/ p ∈ l) /\ Q x'.2.
Proof.
  intros HQ. induction l as [|p l IH]; intros x Hnd Hl D Hx; cbn [run_over]; [by split; [|split; [left|]]|]. apply NoDup_cons in Hnd as [Hp Hnd].
  destruct (suspend_step st p x (Hl p ltac:(by left)) D) as [D' Hin]. pose proof (HQ p x D Hx) as Hx'.
  destruct (suspend_body cf curlwp NSUSPENDED st p x) as [go x1]. cbn [snd] in *. destruct go.
  - destruct (IH x1 Hnd) as (I1 & I2 & I3); [|done|done|].
    + intros q Hq H. destruct (Hin q H) as [H' | ->]; [|done]. by apply (Hl q); [right|].
    + split; [done|]. split; [|done]. intros q Hq. destruct (I2 q Hq) as [H|H]; [|right; by right]. destruct (Hin q H) as [? | ->]; [by left|]. right. by left.
  - split; [done|]. split; [|done]. intros q Hq. destruct (Hin q Hq) as [? | ->]; [by left|]. right. by left.
Qed.

Lemma resume_over_failed l : forall x, x.1.2 = true -> (run_over (resume_body curlwp) l x).1.2 = true.
Proof.
  induction l as [|p l IH]; intros x Hx; cbn [run_over]; [done|]. destruct x as [[sus f] s]. cbn in Hx. subst f.
  destruct (resume_body curlwp p (sus, true, s)) as [go x1] eqn:Eb. unfold resume_body in Eb.
  destruct (_ || _); [injection Eb as <- <-; by apply IH|]. destruct (pmf_device_resume _ _ _ _) as [ok m]. injection Eb as <- <-. by apply IH.
Qed.

Lemma held_down_parent p d : held_down p d -> dv_parent d = dv_parent (getd m0 p).
Proof. intros [_ [(_ & ok & c & dr & b & -> & _)|(_ & ->)]]; [|done]. by rewrite add_of_alt. Qed.

Definition depth_le (k k' : nat * Z) : Prop := k.2 <= k'.2.

Lemma resume_over sus ks : StronglySorted depth_le ks -> NoDup (map fst ks) ->
  Forall (fun k => k.2 = dv_depth (getd m0 k.1)) ks ->
  forall s f, during (z_pmf s) (fun p => p ∈ sus /\ p ∈ map fst ks) ->
  let x' := run_over (resume_body curlwp) (map fst ks) (sus, f, s) in x'.1.2 = false -> during (pm x') (fun _ => False).
Proof.
  induction 1 as [|[p dp] ks Hs IH Hle]; intros Hnd Hd s f D; cbn [map run_over fst] in *.
  { intros _. eapply during_ext; [|exact D]. intros q. cbn. rewrite elem_of_nil. tauto. }
  apply NoDup_cons in Hnd as [Hp Hnd]. apply Forall_cons in Hd as [Hdp Hd]. cbn [fst snd] in Hdp.
  destruct (resume_body curlwp p (sus, f, s)) as [go x1] eqn:Eb. unfold resume_body in Eb. case_bool_decide as Hin; cbn [negb orb] in Eb.
  2:{ injection Eb as <- <-. apply IH; [done|done|]. eapply during_ext; [|exact D]. intros q. cbv beta. rewrite elem_of_cons. split; [|tauto]. intros [? [-> | ?]]; done. }
  pose proof (proj1 (proj2 D p) ltac:(split; [done|by left])) as Hh.
  assert (parent_active (z_pmf s) p = true) as Hpa.
  { unfold parent_active. rewrite (held_down_parent _ _ Hh). destruct Hh as [Ha _]. destruct (dv_parent (getd m0 p)) as [q|] eqn:Eq; [|done].
    destruct (st_tree _ St p q Ha Eq) as (_ & Hq & _ & Hlt). rewrite (proj2 (proj2 D q)); [done|]. intros [_ [-> | Hin']%elem_of_cons]; [lia|].
    apply list_elem_of_fmap in Hin' as ([q' dq] & E' & Hin'). cbn [fst] in E'. subst q'. rewrite Forall_forall in Hle, Hd.
    specialize (Hle _ Hin'). specialize (Hd _ Hin'). unfold depth_le in Hle. cbn [fst snd] in *. lia. }
  rewrite Hpa in Eb. cbn [negb] in Eb. destruct (pmf_device_resume curlwp p PMF_Q_NONE (z_pmf s)) as [ok m'] eqn:E.
  destruct (apart_world (F_resume p ok) m' s) as [_ Em]. set (s' := world_ (F_resume p ok) (set_z_pmf m' s)) in *. injection Eb as <- <-. destruct ok.
  - apply IH; [done|done|]. rewrite Em. eapply during_ext; [|eapply resume_during; [exact D|split; [done|by left]|exact E]].
    intros q. cbv beta. rewrite elem_of_cons. split; [tauto|]. intros [Hq1 Hq2]. split; [by intros ->|]. tauto.
  - intros Hf. exfalso. cbn [negb] in Hf. rewrite orb_true_r in Hf. by rewrite (resume_over_failed _ (sus, true, s') eq_refl) in Hf.
Qed.

Lemma same_devices m : NoDup (map dv_ptr (alldevs (p_ac m0))) -> during m (fun _ => False) -> alldevs (p_ac m) = alldevs (p_ac m0).
Proof.
  intros Hnd [K D]. apply list_eq. intros i. pose proof (f_equal (fun l => l !! i) K) as Ki. cbv beta in Ki. rewrite !list_lookup_fmap in Ki.
  destruct (alldevs (p_ac m) !! i) as [d|] eqn:E, (alldevs (p_ac m0) !! i) as [d0|] eqn:E0; try done. cbn in Ki. injection Ki as Ki.
  apply list_elem_of_lookup_2 in E, E0. pose proof (proj2 (D (dv_ptr d)) (fun H => H)) as G. unfold getd in G.
  rewrite (dev_at_elem _ d) in G; [|by rewrite K|done]. rewrite Ki, (dev_at_elem _ d0) in G by done. by cbn in G; subst.
Qed.

Lemma lget_lput a x : lget (lput a x) = a.
Proof. by destruct x as [[? ?] ?]. Qed.

Lemma release_list di a : alldevs (deviter_release di a) = alldevs a.
Proof. unfold deviter_release. by destruct (di_rw di). Qed.

Lemma order_nodup fl a : devs_ok a -> one_order fl -> NoDup (map fst (first_order fl a)).
Proof.
  intros Ok Hfl. destruct (first_order_ok fl a Ok Hfl) as [Hp _]. rewrite Hp, map_map. change (NoDup (map dv_ptr (live a))).
  pose proof (do_nodup _ Ok) as N. unfold live. clear -N. induction (alldevs a) as [|d l IH]; [constructor|]. cbn [map List.filter] in *.
  apply NoDup_cons in N as [Nd N]. destruct (_ =? 0); [|by apply IH]. cbn [map]. apply NoDup_cons. split; [|by apply IH].
  intros (x & Ex & Hx)%list_elem_of_fmap. apply Nd. rewrite Ex. apply list_elem_of_fmap_2. apply list_elem_of_In, List.filter_In in Hx as [Hx _].
  by apply list_elem_of_In.
Qed.

(** After the first loop. *)
Lemma suspend_devices_over st (Q : freeze -> Prop) s : z_pmf s = m0 ->
  (forall p x, during (pm x) (fun q => q ∈ x.1.1) -> Q x.2 -> Q (suspend_body cf curlwp NSUSPENDED st p x).2.2) ->
  (forall m x, Q x -> Q (set_z_pmf m x)) -> Q s -> let x := suspend_devices cf curlwp NSUSPENDED st s in
  during (pm x) (fun p => p ∈ x.1.1) /\ map gkey (alldevs (lget x)) = map gkey (alldevs (p_ac m0)) /\ devs_ok (lget x) /\
  (forall p, p ∈ x.1.1 -> p ∈ map fst (first_order DEVITER_LEAVES (p_ac m0))) /\ Q x.2.
Proof.
  intros Em HQ Hset Qs x. set (x0 := ([], false, s) : loop). assert (lget x0 = p_ac m0) as E0 by (unfold lget; cbn; by rewrite Em).
  assert (devs_ok (lget x0)) as Ok by (rewrite E0; apply St).
  assert (forall p y, keeps (lget y) (lget (suspend_body cf curlwp NSUSPENDED st p y).2)) as Hb by (intros; apply suspend_body_keeps).
  destruct (for_devices_list lget lput lget_lput DEVITER_LEAVES _ x0 Ok eq_refl Hb) as [Hk Hok'].
  destruct (for_devices_over lget lput lget_lput DEVITER_LEAVES _ x0 Ok eq_refl Hb) as (di & _ & E).
  rewrite E0 in *. set (x1 := lput _ x0) in E.
  destruct (suspend_over st Q (map fst (first_order DEVITER_LEAVES (p_ac m0))) HQ x1) as (D & Hin & Qx).
  - by apply order_nodup; [apply St|].
  - intros p _. by apply not_elem_of_nil.
  - apply (during_list m0); [apply init_list|]. split; [done|]. intros p. split; [by intros ?%elem_of_nil|done].
  - by apply Hset.
  - fold (suspend_devices cf curlwp NSUSPENDED st s) in Hk, Hok'. fold x in Hk, Hok'.
    change (suspend_devices cf curlwp NSUSPENDED st s) with (for_devices lget lput DEVITER_LEAVES (suspend_body cf curlwp NSUSPENDED st) x0) in x.
    assert (x.1.1 = (run_over (suspend_body cf curlwp NSUSPENDED st) (map fst (first_order DEVITER_LEAVES (p_ac m0))) x1).1.1) as Ex by (unfold x; by rewrite E).
    split; [|split; [done|split; [done|split]]].
    + rewrite Ex. eapply during_list; [|exact D]. unfold x. rewrite E. apply release_list.
    + intros p Hp. rewrite Ex in Hp. destruct (Hin p Hp) as [H|H]; [by apply elem_of_nil in H|done].
    + unfold x. rewrite E. by apply Hset.
Qed.

(** ** Devices under storage *)

Lemma during_name m down q : during m down -> dv_xname (getd m q) = dv_xname (getd m0 q) /\ dv_parent (getd m q) = dv_parent (getd m0 q).
Proof.
  intros [_ D]. assert (forall d, held_down q d -> dv_xname d = dv_xname (getd m0 q)) as Hx.
  { intros d [_ [(_ & ok & c & dr & b & -> & _)|(_ & ->)]]; [|done]. by rewrite add_of_alt. }
  assert (forall A (f : device -> A), EqDecision A -> (forall d, held_down q d -> f d = f (getd m0 q)) -> f (getd m q) = f (getd m0 q)) as H.
  { intros A f HA Hf. destruct (decide (f (getd m q) = f (getd m0 q))) as [|E]; [done|]. exfalso.
    apply E. f_equal. apply D. intros H. by apply E, Hf, D. }
  split; apply H; try apply _; [exact Hx|apply held_down_parent].
Qed.

(** The same walk to the root whatever is suspended. *)
Lemma during_ancestor m down st n : during m down -> forall p, keep_ancestor n m p st = keep_ancestor n m0 p st.
Proof.
  intros D. induction n as [|n IH]; intros [p|]; cbn [keep_ancestor]; try done. destruct (during_name m down p D) as [Ex Ep].
  rewrite !(is_a_name (getd m p) (getd m0 p) _ Ex), Ep. by rewrite IH.
Qed.

(** A device is storage if it is an nvme controller or its parent is storage, and no
    dwiic controller is on the way. *)
Inductive storage (m : pmf) : nat -> Prop :=
  | storage_nvme p : device_is_a (getd m p) "dwiic" = false -> device_is_a (getd m p) "nvme" = true -> storage m p
  | storage_child p q : device_is_a (getd m p) "dwiic" = false -> dv_parent (getd m p) = Some q -> storage m q -> storage m p.

(** The walk finds the controller after [k] steps and not before. *)
Definition reaches (m : pmf) (p : nat) (k : nat) : Prop :=
  keep_ancestor (S k) m (Some p) false = Some true /\ keep_ancestor k m (Some p) false = None.

Lemma ancestor_more m st n n' : (n <= n')%nat -> forall p b, keep_ancestor n m p st = Some b -> keep_ancestor n' m p st = Some b.
Proof.
  revert n'. induction n as [|n IH]; intros [|n'] Hn [p|] b; try done; try lia; cbn [keep_ancestor].
  repeat (case_match; [done|]). apply IH. lia.
Qed.

Lemma storage_reaches m p : storage m p -> exists k, reaches m p k.
Proof.
  unfold reaches. induction 1 as [p Hd Hn|p q Hd Hp _ (k & H1 & H2)]; cbn [keep_ancestor].
  - exists 0%nat. by rewrite Hd, Hn.
  - rewrite Hd. destruct (device_is_a (getd m p) "nvme") eqn:En.
    + by exists 0%nat.
    + exists (S k). rewrite Hp. split; [exact H1|]. cbn [keep_ancestor]. by rewrite Hd, En, Hp.
Qed.

Lemma reaches_once m p i j : reaches m p i -> reaches m p j -> i = j.
Proof.
  assert (forall i j, (i < j)%nat -> reaches m p i -> reaches m p j -> False) as H.
  { intros x y Hxy [H1 _] [_ H2]. rewrite (ancestor_more m false (S x) y ltac:(lia) _ _ H1) in H2. done. }
  intros Hi Hj. destruct (lt_eq_lt_dec i j) as [[?|?]|?]; [by destruct (H i j)|done|by destruct (H j i)].
Qed.

(** The devices on the way are different ones of the list. *)
Lemma reaches_path m k : forall p, reaches m p k -> exists l, length l = k /\ NoDup l /\
  Forall (fun q => q ∈ map dv_ptr (alldevs (p_ac m)) /\ exists j, (1 <= j <= k)%nat /\ reaches m q j) l.
Proof.
  induction k as [|k IH]; intros p Hp; [exists []; by repeat constructor|]. pose proof Hp as [H1 H2].
  cbn [keep_ancestor] in H1, H2. destruct (device_is_a _ "dwiic") eqn:Ed; [done|]. destruct (device_is_a _ "nvme") eqn:En; [done|].
  destruct (dv_parent (getd m p)) as [q|] eqn:Eq; [|done].
  destruct (IH q) as (l & El & Nl & Fl); [by split|]. exists (p :: l). split; [cbn; by rewrite El|]. split.
  - constructor; [|done]. intros Hin. rewrite Forall_forall in Fl. destruct (Fl p Hin) as (_ & j & Hj & Hr).
    pose proof (reaches_once _ _ _ _ Hp Hr). lia.
  - constructor.
    + split; [|exists (S k); split; [lia|done]]. unfold getd in Eq. destruct (dev_at p (alldevs (p_ac m))) as [d|] eqn:Ep; [|done].
      apply List.find_some in Ep as [Hin Hd]. apply Nat.eqb_eq in Hd. rewrite <-Hd. apply list_elem_of_In, List.in_map. done.
    + eapply Forall_impl; [exact Fl|]. intros x (Hx & j & Hj & Hr). split; [done|]. exists j. split; [lia|done].
Qed.

(** So the walk ends at the controller within the number of devices. *)
Lemma storage_ancestor m p : storage m p -> keep_ancestor (S (length (alldevs (p_ac m)))) m (Some p) false = Some true.
Proof.
  intros H. destruct (storage_reaches m p H) as [k Hk]. destruct (reaches_path m k p Hk) as (l & El & Nl & Fl).
  refine (ancestor_more m false (S k) _ _ _ _ (proj1 Hk)). rewrite <-El, <-(length_map dv_ptr). apply le_n_S.
  apply List.NoDup_incl_length; [by apply NoDup_ListNoDup|]. intros q Hq%list_elem_of_In. rewrite Forall_forall in Fl.
  apply list_elem_of_In. by apply (Fl q).
Qed.

Lemma storage_kept m down p : during m down -> storage m0 p -> acpi_s2idle_keep cf m p false = true.
Proof.
  intros D H. unfold acpi_s2idle_keep. pose proof (f_equal length (proj1 D)) as El. rewrite !length_map in El.
  by rewrite (during_ancestor m down false _ D), El, (storage_ancestor _ _ H).
Qed.

(** After both. *)
Lemma devices_roundtrip st s s2 : z_pmf s = m0 -> let x := suspend_devices cf curlwp NSUSPENDED st s in
  z_pmf s2 = z_pmf x.2 -> (resume_devices curlwp x.1.1 s2).1.2 = false ->
  alldevs (p_ac (z_pmf (resume_devices curlwp x.1.1 s2).2)) = alldevs (p_ac m0).
Proof.
  intros Em x E2 Hf. destruct (suspend_devices_over st (fun _ => True) s Em ltac:(done) ltac:(done) I) as (D & Hk & Ok & Hin & _). fold x in D, Hk, Ok, Hin.
  apply same_devices; [apply St|]. set (y0 := (x.1.1, false, s2) : loop). assert (lget y0 = lget x) as E0 by (unfold lget; cbn; by rewrite E2).
  rewrite <-E0 in Ok, Hk. assert (forall p y, keeps (lget y) (lget (resume_body curlwp p y).2)) as Hb by (intros; apply resume_body_keeps).
  destruct (for_devices_over lget lput lget_lput DEVITER_ROOT _ y0 Ok eq_refl Hb) as (di & _ & E).
  change (resume_devices curlwp x.1.1 s2) with (for_devices lget lput DEVITER_ROOT (resume_body curlwp) y0) in *. rewrite E in *.
  set (y1 := lput _ y0) in *. eapply during_list; [apply release_list|]. cbn [lput fst snd] in Hf.
  destruct (first_order_ok DEVITER_ROOT (lget y0) Ok eq_refl) as [Hp Hs]. change (StronglySorted depth_le (first_order DEVITER_ROOT (lget y0))) in Hs.
  assert (first_order DEVITER_ROOT (lget y0) ≡ₚ map key (live (p_ac m0))) as Hp0 by (rewrite Hp; unfold live; by rewrite (gkeys_live _ _ Hk)).
  assert (y1 = (x.1.1, false, y1.2)) as Ey by done. rewrite Ey in Hf |- *.
  apply (resume_over x.1.1 (first_order DEVITER_ROOT (lget y0))); [done|by apply order_nodup| | |exact Hf].
  - rewrite Hp0. apply Forall_map, Forall_forall. intros d Hd. unfold live in Hd. apply list_elem_of_In, List.filter_In in Hd as [Hd _].
    cbn. unfold getd. rewrite (dev_at_elem _ d); [done|apply St|by apply list_elem_of_In].
  - apply (during_list (z_pmf x.2)); [change (alldevs (lget y1) = alldevs (lget x)); unfold y1; by rewrite lget_lput, init_list, E0|]. eapply during_ext; [|exact D]. intros p. cbv beta. split; [|tauto].
    intros Hx. split; [done|]. specialize (Hin p Hx). destruct (first_order_ok DEVITER_LEAVES (p_ac m0) (st_ok _ St) eq_refl) as [Hpl _].
    rewrite Hpl in Hin. by rewrite Hp0.
Qed.

End devices.
