(* ===== verification/FreezeTrace.v ===== *)
(** * The calls of a suspend to idle

    The order in which acpi_enter_freeze calls the parts of the system, and the
    wake latch: each piece is a run of calls of one phase, from which the order
    and what a wake does to the hold follow for all of them at once. *)

From stdpp Require Import base numbers strings list sorting relations.
From S2P Require Import Prelude Sysctl Lwp Mount S2idle AcpiPower AcpiWake AdrPower Device DeviterThms Pmf PmfFacts PmfThms PmfInv LwpSusp Lps0 Freeze FreezeFacts FreezeDev.

(** The phases of the transaction. *)
Definition phase (c : fcall) : Z :=
  match c with
  | F_handlex cmd => if cmd =? 0 then 0 else 21
  | F_userspace frz => if frz then 1 else 20
  | F_settle => 2
  | F_barrier => 3
  | F_suspend _ _ => 4
  | F_prepare => 5
  | F_power st => if st =? 0 then 17 else 6
  | F_lps0 enter => if enter then 7 else 15
  | F_rdmsr disable _ | F_wrmsr disable _ _ => if disable then 8 else 14
  | F_ltr_read | F_ltr_write _ => 9
  | F_latch_read | F_latch_write _ | F_etr3_read | F_etr3_write _ => 10
  | F_hold => 11
  | F_ltr_restore _ => 12
  | F_latch_restore _ => 13
  | F_commit => 16
  | F_resume _ _ => 18
  | F_release => 19
  end.

Section trace.
Context `{OS : Outside} `{FW : Firmware} `{PCI : PciSpace} `{DI : DeviceIs} `{DR : Drivers} `{US : Unsleep} `{DSM : Dsm} `{W : World}.
Context (cf : config) (curlwp : nat) (curflag : Z) (cpus : list nat) (reduced : bool)
  (wnodes : list wnode) (anodes : list anode) (gdv : pmf -> ACPI_HANDLE -> option (bool * bool)) (NSUSPENDED : nat).

(** ** Pieces as runs *)

Definition still (s s' : freeze) : Prop :=
  z_log s' = z_log s /\ acpi_freeze_active s' = acpi_freeze_active s /\ acpi_freeze_wake s' = acpi_freeze_wake s.

Inductive fstep (P : Z) (s : freeze) : freeze -> Prop :=
  | fs_call c : phase c = P -> fstep P s (world_ c s)
  | fs_set s' : still s s' -> fstep P s s'.

Definition calls (P : Z) : freeze -> freeze -> Prop := rtc (fstep P).

#[local] Instance calls_refl P : Reflexive (calls P).
Proof. intros s. apply rtc_refl. Qed.
#[local] Instance calls_trans P : Transitive (calls P).
Proof. intros a b c H1 H2. unfold calls in *. by etrans. Qed.

Lemma calls_one P c s : phase c = P -> calls P s (world_ c s).
Proof. intros H. apply rtc_once. by apply fs_call. Qed.

Lemma calls_set P s s' : still s s' -> calls P s s'.
Proof. intros H. apply rtc_once. by apply fs_set. Qed.

Lemma calls_after P c s s' : still s s' -> phase c = P -> calls P s (world_ c s').
Proof. intros H Hc. eapply rtc_l; [by apply fs_set|]. by apply calls_one. Qed.

Lemma world_split c s : world c s = ((world c s).1, world_ c s).
Proof. unfold world_. by destruct (world c s). Qed.

Lemma world_active c s : acpi_freeze_active (world_ c s) = acpi_freeze_active s.
Proof. unfold world_, world, acpi_freeze_wakeup. destruct (fz_wakes _ _); [|done]. cbn. by destruct (acpi_freeze_active s) eqn:E. Qed.

Lemma calls_active P s s' : calls P s s' -> acpi_freeze_active s' = acpi_freeze_active s.
Proof. induction 1 as [s|s1 s2 s3 H _ IH]; [done|]. rewrite IH. destruct H as [c _|s2 (_ & H & _)]; [apply world_active|done]. Qed.

Lemma cstcfg_calls d s cpu : calls (if d : bool then 8 else 14) s (acpi_cstcfg_xc d s cpu).
Proof.
  unfold acpi_cstcfg_xc. rewrite world_split. assert (calls (if d then 8 else 14) s (world_ (F_rdmsr d cpu) s)) as H by (by apply calls_one).
  set (s1 := world_ (F_rdmsr d cpu) s) in *. destruct (_ <=? _)%nat; [done|]. etrans; [exact H|].
  etrans; [|by apply calls_one]. destruct d; [by apply calls_after|by apply calls_one].
Qed.

Lemma broadcast_calls d s : calls (if d : bool then 8 else 14) s (xc_broadcast cpus d s).
Proof.
  unfold xc_broadcast. revert s. induction cpus as [|c l IH]; intros s; cbn [fold_left]; [done|]. etrans; [apply cstcfg_calls|apply IH].
Qed.

Lemma ltr_ignore_calls s : calls 9 s (ltr_ignore cf s).2.
Proof.
  unfold ltr_ignore. destruct (negb _); [done|]. rewrite world_split. assert (calls 9 s (world_ F_ltr_read s)) as H by (by apply calls_one).
  destruct (_ <? 0); [done|]. rewrite world_split. etrans; [exact H|by apply calls_one].
Qed.

Lemma latch_arm_calls s : calls 10 s (latch_arm s).2.
Proof.
  unfold latch_arm. rewrite world_split. assert (calls 10 s (world_ F_latch_read s)) as H by (by apply calls_one). destruct (_ <? 0); [done|].
  rewrite world_split. etrans; [exact H|]. rewrite (world_split F_etr3_read). cbn [snd].
  assert (forall a b c, phase a = 10 -> phase b = 10 -> phase c = 10 -> forall (less : bool) s, calls 10 s (if less then world_ b (world_ a s) else world_ c (world_ b (world_ a s)))) as H3.
  { intros a b c Ha Hb Hc less s1. destruct less; repeat (etrans; [|by apply calls_one]); done. }
  by apply H3.
Qed.

Lemma ltr_restore_calls v s : calls 12 s (ltr_restore v s).
Proof. destruct v; [by apply calls_one|done]. Qed.

Lemma latch_restore_calls v s : calls 13 s (latch_restore v s).
Proof. destruct v; [by apply calls_one|done]. Qed.

Lemma powerdown_calls st s : calls (if st =? 0 then 17 else 6) s (powerdown cf anodes gdv st s).
Proof. unfold powerdown. destruct (acpi_adr_power _ _ _ _ _ _). by apply calls_after. Qed.

Lemma userspace_calls b s : calls (if b : bool then 1 else 20) s (userspace curlwp curflag b s).
Proof. by apply calls_after. Qed.

Lemma loop_calls P fl body x : (forall p x, calls P x.2 (body p x).2.2) -> calls P x.2 (for_devices lget lput fl body x).2.
Proof.
  intros Hb. apply (for_devices_inv lget lput (fun y => calls P x.2 y.2)); [by intros a [[? ?] ?]| | |done].
  - intros a [[l f] s] H _. etrans; [exact H|]. by apply calls_set.
  - intros p y H. etrans; [exact H|apply Hb].
Qed.

Lemma suspend_devices_calls st s : calls 4 s (suspend_devices cf curlwp NSUSPENDED st s).2.
Proof.
  apply (loop_calls 4 _ _ ([], false, s)). intros p [[l f] x]. unfold suspend_body. destruct (_ || _); [done|]. destruct (Nat.eqb _ _); [done|].
  destruct (pmf_device_suspend _ _ _ _) as [ok m]. by apply calls_after.
Qed.

Lemma resume_devices_calls l s : calls 18 s (resume_devices curlwp l s).2.
Proof.
  apply (loop_calls 18 _ _ (l, false, s)). intros p [[l' f] x]. unfold resume_body. destruct (_ || _); [done|].
  destruct (pmf_device_resume _ _ _ _) as [ok m]. by apply calls_after.
Qed.

Lemma barrier_calls s e ms s' : barrier cf curlwp s = Some (e, ms, s') -> calls 3 s s'.
Proof.
  unfold barrier. destruct (_ =? 0); [by intros [= _ _ <-]|]. destruct (vfs_suspend_all _ _) as [[[e' ms'] v]|]; [|done].
  intros [= _ _ <-]. by apply calls_after.
Qed.

(** ** The whole as a run through the phases *)

Inductive gstep (s : freeze) : Z -> freeze -> Prop :=
  | g_call c : (c = F_hold -> acpi_freeze_active s = true /\ acpi_freeze_wake s = false) -> gstep s (phase c) (world_ c s)
  | g_set P s' : still s s' -> gstep s P s'
  | g_off P : gstep s P (set_acpi_freeze_active false s).

Inductive grun (s : freeze) (lo : Z) : freeze -> Z -> Prop :=
  | gr_nil hi : lo <= hi -> grun s lo s hi
  | gr_cons P s1 hi s2 : gstep s P s1 -> lo <= P -> grun s1 P s2 hi -> grun s lo s2 hi.

Lemma grun_weaken s lo lo' s' hi : grun s lo s' hi -> lo' <= lo -> grun s lo' s' hi.
Proof. intros H Hl. destruct H as [hi H|P s1 hi s2 H1 H2 H3]; [constructor; lia|]. econstructor; [exact H1|lia|exact H3]. Qed.

Lemma grun_trans s lo s1 mid s2 hi : grun s lo s1 mid -> grun s1 mid s2 hi -> grun s lo s2 hi.
Proof.
  induction 1 as [s lo mid H|s lo P s1 mid s1' H1 H2 H3 IH]; intros H'; [by eapply grun_weaken|]. econstructor; [exact H1|done|by apply IH].
Qed.

Lemma calls_grun P s s' : P <> 11 -> calls P s s' -> grun s P s' P.
Proof.
  intros HP. induction 1 as [s|s1 s2 s3 H _ IH]; [constructor; lia|]. econstructor; [|reflexivity|exact IH]. destruct H as [c <-|s2 H].
  - apply g_call. by intros ->.
  - by apply g_set.
Qed.

(** A piece of phase [P] after a run. *)
Lemma grun_then P s lo s1 mid s2 : grun s lo s1 mid -> calls P s1 s2 -> mid <= P -> P <> 11 -> grun s lo s2 P.
Proof.
  intros H1 H2 Hm HP. eapply grun_trans; [exact H1|]. eapply grun_weaken; [by apply calls_grun|done].
Qed.

Lemma grun_set s lo s1 mid s2 : grun s lo s1 mid -> still s1 s2 -> grun s lo s2 mid.
Proof. intros H1 H2. eapply grun_trans; [exact H1|]. econstructor; [by apply (g_set _ mid)|lia|constructor; lia]. Qed.

Lemma grun_off s lo s1 mid : grun s lo s1 mid -> grun s lo (set_acpi_freeze_active false s1) mid.
Proof. intros H1. eapply grun_trans; [exact H1|]. econstructor; [apply (g_off _ mid)|lia|constructor; lia]. Qed.

(** A run with the latch still armed at its end. *)
Definition arun (s : freeze) (lo : Z) (s' : freeze) (hi : Z) : Prop := grun s lo s' hi /\ acpi_freeze_active s' = true.

Lemma arun_then P s lo s1 mid s2 : arun s lo s1 mid -> calls P s1 s2 -> mid <= P -> P <> 11 -> arun s lo s2 P.
Proof. intros [H1 Ha] H2 Hm HP. split; [by eapply grun_then|]. by rewrite (calls_active _ _ _ H2). Qed.

Lemma arun_set s lo s1 mid s2 : arun s lo s1 mid -> still s1 s2 -> arun s lo s2 mid.
Proof. intros [H1 Ha] H2. split; [by eapply grun_set|]. by rewrite (proj1 (proj2 H2)). Qed.

Lemma hold_grun fuel : forall n s s', acpi_freeze_active s = true -> hold_loop cf fuel n s = Some s' -> grun s 11 s' 11.
Proof.
  induction fuel as [|fuel IH]; intros n s s' Ha; cbn [hold_loop]; (destruct (acpi_freeze_wake s) eqn:Ew; cbn [negb andb]; [intros [= <-]; constructor; lia|]);
    (destruct (_ || _); [|intros [= <-]; constructor; lia]); [done|].
  intros H. eapply gr_cons; [by apply (g_call s F_hold)|cbn; lia|]. eapply IH; [|exact H]. by rewrite world_active.
Qed.

Lemma sleep_grun fuel s lo s1 mid s' : arun s lo s1 mid -> mid <= 5 -> sleep cf cpus reduced wnodes anodes gdv fuel s1 = Some s' -> grun s lo s' 17.
Proof.
  intros G Hm. unfold sleep. set (a := world_ F_prepare _). assert (arun s lo a 5) as Ga by (eapply arun_then; [exact G|by apply calls_after|lia|lia]). clearbody a.
  set (b := powerdown cf anodes gdv ACPI_STATE_D3 a). assert (arun s lo b 6) as Gb by (eapply arun_then; [exact Ga|apply (powerdown_calls ACPI_STATE_D3)|lia|lia]). clearbody b.
  set (c := world_ (F_lps0 true) _). assert (arun s lo c 7) as Gc by (eapply (arun_then 7); [exact Gb|by apply calls_after|lia|lia]). clearbody c.
  set (d := xc_broadcast cpus true c). assert (arun s lo d 8) as Gd by (eapply arun_then; [exact Gc|apply (broadcast_calls true)|lia|lia]). clearbody d.
  pose proof (ltr_ignore_calls d) as Ce. destruct (ltr_ignore cf d) as [ltr e]. cbn [snd] in Ce.
  assert (arun s lo e 9) as Ge by (eapply arun_then; [exact Gd|exact Ce|lia|lia]).
  pose proof (latch_arm_calls e) as Cf. destruct (latch_arm e) as [latch f]. cbn [snd] in Cf.
  assert (arun s lo f 10) as Gf by (eapply arun_then; [exact Ge|exact Cf|lia|lia]).
  destruct (hold_loop cf fuel 0 f) as [g|] eqn:Eh; [|done]. destruct Gf as [Gf Af]. apply hold_grun in Eh; [|done].
  assert (grun s lo (set_acpi_freeze_active false g) 11) as Gg by (apply grun_off; eapply grun_trans; [exact Gf|by eapply grun_weaken]).
  set (h := ltr_restore ltr _). assert (grun s lo h 12) as Gh by (eapply grun_then; [exact Gg|apply ltr_restore_calls|lia|lia]). clearbody h.
  set (i := latch_restore latch h). assert (grun s lo i 13) as Gi by (eapply grun_then; [exact Gh|apply latch_restore_calls|lia|lia]). clearbody i.
  set (j := xc_broadcast cpus false i). assert (grun s lo j 14) as Gj by (eapply grun_then; [exact Gi|apply (broadcast_calls false)|lia|lia]). clearbody j.
  set (k := world_ (F_lps0 false) _). assert (grun s lo k 15) as Gk by (eapply (grun_then 15); [exact Gj|by apply calls_after|lia|lia]). clearbody k.
  set (l := world_ F_commit _). assert (grun s lo l 16) as Gl by (eapply (grun_then 16); [exact Gk|by apply calls_after|lia|lia]). clearbody l.
  intros [= <-]. eapply grun_then; [exact Gl|apply (powerdown_calls ACPI_STATE_D0)|lia|lia].
Qed.

(** The end: userspace, the display, the state. *)
Lemma thaw_grun s lo a mid : grun s lo a mid -> mid <= 20 ->
  grun s lo (set_sc_sleepstate ACPI_STATE_S0 (world_ (F_handlex 1) (userspace curlwp curflag false a))) 21.
Proof.
  intros G Hm. apply (grun_set _ _ (world_ (F_handlex 1) (userspace curlwp curflag false a))); [|by split].
  eapply (grun_then 21 _ _ (userspace curlwp curflag false a) 20); [|by apply calls_one|lia|lia].
  eapply grun_then; [exact G|apply (userspace_calls false)|lia|lia].
Qed.

Lemma finish_grun held save s lo s1 : grun s lo s1 18 -> grun s lo (finish curlwp curflag held save s1) 21.
Proof.
  intros G. unfold finish. set (a := match held with Some ms => _ | None => _ end).
  assert (grun s lo a 19) as Ga by (destruct held; [eapply (grun_then 19); [exact G|by apply calls_after|lia|lia]|eapply grun_then; [exact G|by apply (calls_set 19)|lia|lia]]).
  clearbody a. apply (thaw_grun _ _ _ 19); [done|lia].
Qed.

(** Where acpi_enter_freeze arms the latch. *)
Definition armed (s : freeze) : freeze := set_acpi_freeze_active true (set_acpi_freeze_wake false s).

Lemma enter_freeze_grun fuel s s' : sc_sleepstate s = ACPI_STATE_S0 ->
  acpi_enter_freeze cf curlwp curflag cpus reduced wnodes anodes gdv NSUSPENDED fuel s = Some s' -> grun (armed s) 0 s' 21.
Proof.
  intros Hs. unfold acpi_enter_freeze. rewrite Hs. cbn [ACPI_STATE_S0 Z.eqb negb]. fold (armed s). rewrite world_split.
  set (a := world_ (F_handlex 0) (armed s)). assert (arun (armed s) 0 a 0) as Ga by (split; [apply calls_grun; [lia|by apply calls_one]|apply world_active]). clearbody a.
  destruct (nz _).
  { intros [= <-]. apply grun_off. eapply grun_trans; [apply Ga|]. constructor. lia. }
  set (b := userspace curlwp curflag true a). assert (arun (armed s) 0 b 1) as Gb by (eapply arun_then; [exact Ga|apply (userspace_calls true)|lia|lia]). clearbody b.
  set (c := world_ F_settle b). assert (arun (armed s) 0 c 2) as Gc by (eapply (arun_then 2); [exact Gb|by apply calls_one|lia|lia]). clearbody c.
  destruct (barrier cf curlwp c) as [[[e ms] d]|] eqn:Eb; [|done]. apply barrier_calls in Eb.
  assert (arun (armed s) 0 d 3) as Gd by (eapply arun_then; [exact Gc|exact Eb|lia|lia]).
  destruct (nz e && _).
  { intros [= <-]. apply (thaw_grun _ _ _ 3); [apply grun_off, Gd|lia]. }
  pose proof (suspend_devices_calls (acpi_freeze_storage cf && (negb (acpi_freeze_fsbarrier cf =? 0) && (e =? 0))) (set_i915_lispbsd_s0idle 1 d)) as Cs.
  destruct (suspend_devices _ _ _ _ _) as [[sus f] g]. cbn [snd] in Cs.
  assert (arun (armed s) 0 g 4) as Gg by (eapply (arun_then 4); [apply (arun_set _ _ d 3 (set_i915_lispbsd_s0idle 1 d) Gd); by split|exact Cs|lia|lia]).
  destruct f.
  { intros [= <-]. apply finish_grun. eapply (grun_then 18); [apply grun_off, Gg|apply resume_devices_calls|lia|lia]. }
  destruct (sleep _ _ _ _ _ _ _ g) as [h|] eqn:Esl; [|done]. apply (sleep_grun _ (armed s) 0 _ 4) in Esl; [|done|lia].
  intros [= <-]. apply finish_grun. eapply (grun_then 18); [exact Esl|apply resume_devices_calls|lia|lia].
Qed.

End trace.
