(* ===== verification/FreezeThms.v ===== *)
(** * What a suspend to idle promises

    acpi_enter_freeze as a whole: it ends, leaves the system as it found it on
    every path, works in one order, does not lose a wake and suspends storage
    only under the file system barrier. *)

From stdpp Require Import base numbers strings list sorting.
From S2P Require Import Prelude Sysctl Lwp Mount S2idle S2Thms S2Session AcpiPower AcpiWake AdrPower AdrThms Device DeviterThms Pmf PmfFacts PmfThms PmfInv LwpSusp Lps0 Freeze FreezeFacts FreezeDev FreezeTrace.

Section claims.
Context `{OS : Outside} `{FW : Firmware} `{PCI : PciSpace} `{DI : DeviceIs} `{DR : Drivers} `{US : Unsleep} `{DSM : Dsm} `{W : World}.
Context (Hok : DeviceIsOk DI).
Context (cf : config) (curlwp : nat) (curflag : Z) (cpus : list nat) (reduced : bool)
  (wnodes : list wnode) (anodes : list anode) (gdv : pmf -> ACPI_HANDLE -> option (bool * bool)) (NSUSPENDED : nat).

Notation enter := (acpi_enter_freeze cf curlwp curflag cpus reduced wnodes anodes gdv NSUSPENDED).

(** ** The order *)

Lemma grun_order s lo s' hi : grun s lo s' hi -> exists evs, z_log s' = evs ++ z_log s /\
  StronglySorted (fun a b => b <= a) (map (fun e => phase e.1) evs) /\ Forall (fun e => lo <= phase e.1) evs.
Proof.
  induction 1 as [s lo hi H|s lo P s1 hi s2 H1 H2 _ (evs & E & S & F)]; [exists []; repeat constructor|].
  assert (Forall (fun e => lo <= phase e.1) evs) as F' by (eapply Forall_impl; [exact F|]; cbn; lia).
  destruct H1 as [c Hc|P s1 (El & _)|P]; [|exists evs; by rewrite E, El|exists evs; by rewrite E].
  exists (evs ++ [(c, fz_answer (z_log s) c)]). split; [rewrite E, world_log, <-app_assoc; done|]. split.
  - rewrite map_app. cbn [map fst]. apply snoc_sorted; [done|]. by apply Forall_map.
  - apply Forall_app. split; [done|]. constructor; [done|constructor].
Qed.

(** Whatever fails, the transaction calls the parts of the system in one order: display,
    userspace, barrier, devices, wake devices, power resources, firmware, auto-demotion,
    LTR, latch, hold, and back in the reverse order, the file systems before userspace
    and the display last. *)
Theorem freeze_phases_in_order fuel s s' : enter fuel s = Some s' ->
  exists evs, z_log s' = evs ++ z_log s /\ StronglySorted (fun a b => b <= a) (map (fun e => phase e.1) evs).
Proof.
  intros H. destruct (Z.eqb_spec (sc_sleepstate s) ACPI_STATE_S0) as [E|E].
  - apply enter_freeze_grun in H; [|done]. destruct (grun_order _ _ _ _ H) as (evs & El & S & _). by exists evs.
  - unfold acpi_enter_freeze in H. rewrite (proj2 (Z.eqb_neq _ _) E) in H. injection H as <-. exists []. split; [done|constructor].
Qed.

(** ** The wake latch *)

(** Someone woke the machine during one of the calls. *)
Definition woken (evs base : list (fcall * Z)) : Prop :=
  exists later c a earlier, evs = later ++ (c, a) :: earlier /\ fz_wakes (earlier ++ base) c = true.

(** No pause of the hold after a wake. *)
Definition no_late_hold (evs base : list (fcall * Z)) : Prop :=
  forall later a earlier, evs = later ++ (F_hold, a) :: earlier -> ~ woken earlier base.

Lemma woken_cons c a evs base : woken ((c, a) :: evs) base <-> fz_wakes (evs ++ base) c = true \/ woken evs base.
Proof.
  split.
  - intros ([|x later] & c' & a' & earlier & E & H); cbn [app] in E; simplify_eq; [by left|]. right. by exists later, c', a', earlier.
  - intros [H|(later & c' & a' & earlier & -> & H)]; [by exists [], c, a, evs|]. by exists ((c, a) :: later), c', a', earlier.
Qed.

Lemma woken_nil base : ~ woken [] base.
Proof. by intros ([|] & c & a & e & E & _). Qed.

Lemma world_wake c s : acpi_freeze_active s = true ->
  (acpi_freeze_wake (world_ c s) = true <-> fz_wakes (z_log s) c = true \/ acpi_freeze_wake s = true).
Proof. intros Ha. unfold world_, world, acpi_freeze_wakeup. destruct (fz_wakes _ _); cbn; [rewrite Ha; cbn; naive_solver|naive_solver]. Qed.

(** The calls so far with the latch: while active it tells whether one woke.  Past
    the hold no call is one of it. *)
Definition latched (base evs : list (fcall * Z)) (s : freeze) : Prop :=
  z_log s = evs ++ base /\ no_late_hold evs base /\ (acpi_freeze_active s = true -> acpi_freeze_wake s = true <-> woken evs base).

Lemma no_late_hold_cons c a evs base : no_late_hold evs base -> (c = F_hold -> ~ woken evs base) -> no_late_hold ((c, a) :: evs) base.
Proof. intros H Hc [|x later] a' earlier E; cbn [app] in E; simplify_eq; [by apply Hc|by eapply H]. Qed.

Lemma grun_latched s lo s' hi base : grun s lo s' hi -> forall evs, latched base evs s -> exists evs', latched base evs' s'.
Proof.
  induction 1 as [s lo hi H|s lo P s1 hi s2 H1 H2 _ IH]; intros evs L; [by exists evs|]. destruct L as (El & Hn & Hw).
  destruct H1 as [c Hc|P s1 (E1 & E2 & E3)|P].
  - apply (IH ((c, fz_answer (z_log s) c) :: evs)). split; [by rewrite world_log, El|]. split.
    + apply no_late_hold_cons; [done|]. intros ->. destruct (Hc eq_refl) as [Ha Hf]. rewrite <-(Hw Ha), Hf. done.
    + rewrite world_active. intros Ha. by rewrite (world_wake c s Ha), woken_cons, <-El, (Hw Ha).
  - apply (IH evs). split; [by rewrite E1|]. split; [done|]. by rewrite E2, E3.
  - apply (IH evs). by repeat split.
Qed.

Lemma returned_no_late_hold fuel s s' : enter fuel s = Some s' ->
  exists evs, z_log s' = evs ++ z_log s /\ no_late_hold evs (z_log s).
Proof.
  intros H. destruct (Z.eqb_spec (sc_sleepstate s) ACPI_STATE_S0) as [E|E].
  - apply enter_freeze_grun in H; [|done]. destruct (grun_latched _ _ _ _ (z_log s) H []) as (evs & El & Hn & _); [|by exists evs].
    split; [done|]. split; [by intros [|] ? ? ?|]. intros _. cbn. split; [done|]. by intros ?%woken_nil.
  - unfold acpi_enter_freeze in H. rewrite (proj2 (Z.eqb_neq _ _) E) in H. injection H as <-. exists []. split; [done|]. by intros [|] ? ? ?.
Qed.

(** ** The system afterwards *)

Notation frz := (acpi_s0_freeze_userspace true curlwp curflag).
Notation thaw := (acpi_s0_freeze_userspace false curlwp curflag).

Record as_found (s s' : freeze) : Prop := {
  af_active : acpi_freeze_active s' = false;
  af_state : sc_sleepstate s' = ACPI_STATE_S0;
  af_idle : i915_lispbsd_s0idle s' = i915_lispbsd_s0idle s;
  af_vfs : same_but_calls (z_vfs s) (z_vfs s');
  af_table : Forall2 same_entry (z_table s) (z_table s') /\ no_moved s';
  af_procs : z_procs s' = z_procs s \/ z_procs s' = thaw (frz (z_procs s))
}.

(** Inside, before the devices. *)
Record frozen_at (s x : freeze) : Prop := {
  fa_pmf : z_pmf x = z_pmf s;
  fa_table : z_table x = z_table s;
  fa_procs : z_procs x = frz (z_procs s);
  fa_active : acpi_freeze_active x = true;
  fa_state : sc_sleepstate x = ACPI_STATE_S0;
  fa_idle : i915_lispbsd_s0idle x = i915_lispbsd_s0idle s
}.

Lemma same_but_calls_refl v : same_but_calls v v.
Proof. split; [by destruct v|done]. Qed.

Lemma same_table s : no_moved s -> Forall2 same_entry (z_table s) (z_table s).
Proof. intros _. induction (z_table s); by constructor. Qed.

Lemma frozen_calm s x y : calm x y -> frozen_at s x -> frozen_at s y.
Proof. intros (A1 & A2 & A3 & A4 & A5 & A6 & A7 & A8 & A9) [B1 B2 B3 B4 B5 B6]. split; congruence. Qed.

Lemma userspace_frozen s a : calm (armed s) a -> sc_sleepstate s = ACPI_STATE_S0 ->
  frozen_at s (userspace curlwp curflag true a) /\ z_vfs (userspace curlwp curflag true a) = z_vfs s.
Proof.
  intros (A1 & A2 & A3 & A4 & A5 & A6 & A7 & A8 & A9) Hs. unfold userspace. cbn in *.
  pose proof (world_calm (F_userspace true) (set_z_procs (frz (z_procs a)) a)) as (B1 & B2 & B3 & B4 & B5 & B6 & B7 & B8 & B9). cbn in *.
  split; [split|]; congruence.
Qed.

(** The barrier is held, or the file systems are as they were. *)
Definition barrier_kept (v : vfs) (held : option (list vfs_s2idle_mount)) (v' : vfs) : Prop :=
  match held with Some ms => same_but_calls v (vfs_resume_all curlwp ms v') | None => same_but_calls v v' end.

Lemma barrier_frozen s c : frozen_at s c -> z_vfs c = z_vfs s -> vfs_fit (z_vfs s) -> exists e ms d, barrier cf curlwp c = Some (e, ms, d) /\
  frozen_at s d /\ (e <> 0 -> same_but_calls (z_vfs s) (z_vfs d)) /\
  barrier_kept (z_vfs s) (if negb (acpi_freeze_fsbarrier cf =? 0) && (e =? 0) then Some ms else None) (z_vfs d).
Proof.
  intros F Ev Fit. unfold barrier. destruct (acpi_freeze_fsbarrier cf =? 0).
  { exists 0, [], c. split; [done|]. split; [done|]. cbn. rewrite Ev. split; [done|]. apply same_but_calls_refl. }
  destruct (barrier_returns (curlwp := curlwp) _ Fit) as (e & ms & v & E & He & Hz). rewrite Ev, E. exists e, ms, (world_ F_barrier (set_z_vfs v c)). split; [done|].
  pose proof (world_calm F_barrier (set_z_vfs v c)) as C. split; [|split].
  - eapply frozen_calm; [exact C|]. destruct F. by split.
  - destruct C as (_ & -> & _). exact He.
  - destruct C as (_ & -> & _). cbn. destruct (Z.eqb_spec e 0) as [E0|E0]; [by apply Hz|by apply He].
Qed.

(** Userspace and the display back. *)
Lemma thawed_found s w : acpi_freeze_active w = false -> i915_lispbsd_s0idle w = i915_lispbsd_s0idle s -> z_procs w = frz (z_procs s) ->
  same_but_calls (z_vfs s) (z_vfs w) -> Forall2 same_entry (z_table s) (z_table w) -> no_moved w ->
  let s' := set_sc_sleepstate ACPI_STATE_S0 (world_ (F_handlex 1) (userspace curlwp curflag false w)) in as_found s s' /\ z_pmf s' = z_pmf w.
Proof.
  intros H1 H2 H3 H4 H5 H6. unfold userspace. set (u := set_z_procs _ w).
  assert (calm u (world_ (F_handlex 1) (world_ (F_userspace false) u))) as (A1 & A2 & A3 & A4 & A5 & A6 & A7 & A8 & A9).
  { eapply calm_trans; apply world_calm. }
  split; [split|exact A1]; [exact (eq_trans A7 H1)|done|exact (eq_trans A9 H2)| | |right; refine (eq_trans A5 _); cbn; by rewrite H3].
  - change (same_but_calls (z_vfs s) (z_vfs (world_ (F_handlex 1) (world_ (F_userspace false) u)))). by rewrite A2.
  - unfold no_moved in *. split; (eapply eq_ind_r; [|exact A4]); done.
Qed.

Lemma finish_found held s w : acpi_freeze_active w = false -> z_procs w = frz (z_procs s) -> barrier_kept (z_vfs s) held (z_vfs w) ->
  Forall2 same_entry (z_table s) (z_table w) -> no_moved w ->
  as_found s (finish curlwp curflag held (i915_lispbsd_s0idle s) w) /\ z_pmf (finish curlwp curflag held (i915_lispbsd_s0idle s) w) = z_pmf w.
Proof.
  intros H1 H2 H3 H4 H5. unfold finish. destruct held as [ms|].
  - set (u := set_z_vfs _ _). destruct (world_calm F_release u) as (A1 & A2 & A3 & A4 & A5 & A6 & A7 & A8 & A9). unfold no_moved in *.
    destruct (thawed_found s (world_ F_release u)) as [F P]; [by rewrite A7|by rewrite A9|by rewrite A5|by rewrite A2|by rewrite A4|unfold no_moved; by rewrite A4|].
    split; [exact F|]. by rewrite P.
  - by apply (thawed_found s (set_i915_lispbsd_s0idle (i915_lispbsd_s0idle s) w)).
Qed.

(** Whether a resume failed shows in the calls. *)
Definition resume_failed (base : list (fcall * Z)) (s : freeze) : Prop :=
  exists evs p a, z_log s = evs ++ base /\ (F_resume p false, a) ∈ evs.

Lemma grun_failed s lo s' hi base : grun s lo s' hi -> resume_failed base s -> resume_failed base s'.
Proof.
  intros G (evs & p & a & E & Hin). destruct (grun_order _ _ _ _ G) as (evs' & E' & _). exists (evs' ++ evs), p, a.
  split; [by rewrite E', E, app_assoc|]. apply elem_of_app. by right.
Qed.

Lemma resume_devices_failed l s : (resume_devices curlwp l s).1.2 = true -> resume_failed (z_log s) (resume_devices curlwp l s).2.
Proof.
  apply (for_devices_inv lget lput (fun x => (exists evs, z_log x.2 = evs ++ z_log s) /\ (x.1.2 = true -> resume_failed (z_log s) x.2)));
    [by intros a [[? ?] ?]| | |].
  - by intros a [[l' f] x] H _.
  - intros p [[l' f] x] [[evs E] H]. unfold resume_body. destruct (_ || _); [by split; [exists evs|]|].
    destruct (pmf_device_resume _ _ _ _) as [ok m]. cbn [fst snd] in *.
    pose proof (world_log (F_resume p ok) (set_z_pmf m x)) as El. cbn [z_log set_z_pmf] in El. rewrite E in El. split; [by eexists (_ :: evs)|].
    intros Hf. apply orb_true_iff in Hf as [Hf|Hf].
    + destruct (H Hf) as (evs' & q & a & E' & Hin). rewrite E in E'. exists ((F_resume p ok, fz_answer (evs ++ z_log s) (F_resume p ok)) :: evs'), q, a.
      split; [rewrite El, E'; done|by right].
    + destruct ok; [done|]. eexists (_ :: evs), p, _. split; [exact El|by left].
  - split; [by exists []|done].
Qed.

(** The devices of the two loops, when no resume failed. *)
Lemma devices_found st s0 d w held save : start (z_pmf s0) -> z_pmf d = z_pmf s0 ->
  let x := suspend_devices cf curlwp NSUSPENDED st d in
  z_pmf w = z_pmf x.2 -> let u := resume_devices curlwp x.1.1 w in let s' := finish curlwp curflag held save u.2 in
  (exists evs, z_log w = evs ++ z_log s0) -> z_pmf s' = z_pmf u.2 -> ~ resume_failed (z_log s0) s' ->
  alldevs (p_ac (z_pmf s')) = alldevs (p_ac (z_pmf s0)).
Proof.
  intros St Ed x Ew u s' [evs El] Ep Hn. rewrite Ep. unfold u, x in *. apply (devices_roundtrip Hok cf curlwp NSUSPENDED _ St st d w Ed Ew).
  apply not_true_is_false. intros Hf. apply Hn. apply resume_devices_failed in Hf as (evs' & p & a & E & Hin).
  eapply grun_failed; [apply (finish_grun curlwp curflag held save _ 18); constructor; lia|]. exists (evs' ++ evs), p, a.
  split; [by rewrite E, El, app_assoc|]. apply elem_of_app. by left.
Qed.

(** The calls go on from those of [s]. *)
Definition later (s x : freeze) : Prop := exists evs, z_log x = evs ++ z_log s.

Lemma later_run s x lo y hi : grun x lo y hi -> later s x -> later s y.
Proof. intros G [evs E]. destruct (grun_order _ _ _ _ G) as (evs' & E' & _). exists (evs' ++ evs). by rewrite E', E, app_assoc. Qed.

Lemma later_calls s x P y : P <> 11 -> calls P x y -> later s x -> later s y.
Proof. intros HP H. eapply later_run. by apply (calls_grun P). Qed.

(** The display is still up. *)
Lemma display_found s a : calm (armed s) a -> sc_sleepstate s = ACPI_STATE_S0 -> no_moved s ->
  as_found s (set_acpi_freeze_active false a) /\ z_pmf a = z_pmf s.
Proof.
  intros (A1 & A2 & A3 & A4 & A5 & A6 & A7 & A8 & A9) Hs Hm. split; [|exact A1].
  split; [done|exact (eq_trans A8 Hs)|exact A9| | |by left].
  - change (same_but_calls (z_vfs s) (z_vfs a)). rewrite A2. apply same_but_calls_refl.
  - change (Forall2 same_entry (z_table s) (z_table a) /\ Forall (fun ap => ap_changed ap = NULL) (z_table a)).
    rewrite A4. split; [by apply (same_table s)|done].
Qed.

(** From the barrier on. *)
Definition from_barrier (fuel : nat) (held : option (list vfs_s2idle_mount)) (st : bool) (d : freeze) : option freeze :=
  let save := i915_lispbsd_s0idle d in
  let '(suspended, failed, s) := suspend_devices cf curlwp NSUSPENDED st (set_i915_lispbsd_s0idle 1 d) in
  if failed : bool then Some (finish curlwp curflag held save (resume_devices curlwp suspended (set_acpi_freeze_active false s)).2)
  else match sleep cf cpus reduced wnodes anodes gdv fuel s with
       | None => None
       | Some s => Some (finish curlwp curflag held save (resume_devices curlwp suspended s).2)
       end.

(** After the devices are down: what the way back starts from. *)
Lemma way_back st s d g w held : frozen_at s d -> later s d -> barrier_kept (z_vfs s) held (z_vfs d) ->
  let x := suspend_devices cf curlwp NSUSPENDED st (set_i915_lispbsd_s0idle 1 d) in x.2 = g ->
  z_pmf w = z_pmf g -> z_vfs w = z_vfs g -> z_procs w = z_procs g -> acpi_freeze_active w = false -> later g w ->
  Forall2 same_entry (z_table g) (z_table w) -> no_moved w ->
  let s' := finish curlwp curflag held (i915_lispbsd_s0idle d) (resume_devices curlwp x.1.1 w).2 in
  as_found s s' /\ (start (z_pmf s) -> ~ resume_failed (z_log s) s' -> alldevs (p_ac (z_pmf s')) = alldevs (p_ac (z_pmf s))).
Proof.
  intros [D1 D2 D3 D4 D5 D6] Ld Hk x Eg W1 W2 W3 W4 [evs Ew] W5 W6 s'.
  pose proof (suspend_devices_apart cf curlwp NSUSPENDED st (set_i915_lispbsd_s0idle 1 d)) as (A1 & A2 & A3 & A4 & A5 & A6 & A7 & A8). fold x in A1, A2, A3, A4, A5, A6, A7, A8.
  pose proof (resume_devices_apart curlwp x.1.1 w) as (B1 & B2 & B3 & B4 & B5 & B6 & B7 & B8).
  assert (later s w) as Lw.
  { assert (later s x.2) as [evs' E'] by (apply (later_calls s (set_i915_lispbsd_s0idle 1 d) 4); [lia|apply suspend_devices_calls|exact Ld]).
    exists (evs ++ evs'). by rewrite Ew, <-Eg, E', app_assoc. }
  rewrite Eg in *. cbn in A1, A3, A4. destruct (finish_found held s (resume_devices curlwp x.1.1 w).2) as [F P].
  - congruence.
  - congruence.
  - by rewrite B1, W2, A1.
  - by rewrite B3, <-D2, <-A3.
  - unfold no_moved. by rewrite B3.
  - unfold s'. rewrite D6. split; [exact F|]. intros St Hn. apply (devices_found st s (set_i915_lispbsd_s0idle 1 d) w held); [exact St|exact D1|fold x; by rewrite Eg|exact Lw|exact P|exact Hn].
Qed.

(** With [n] turns for the hold or more the answer is [s']; with a time set, [n] is
    that time. *)
Definition returns (f : nat -> option freeze) (s' : freeze) : Prop :=
  exists n, (0 < acpi_freeze_timeout cf -> n = Z.to_nat (acpi_freeze_timeout cf)) /\ forall fuel, (n <= fuel)%nat -> f fuel = Some s'.

Lemma returns_at_once s' : returns (fun _ => Some s') s'.
Proof. by exists (Z.to_nat (acpi_freeze_timeout cf)). Qed.

Lemma from_barrier_found s d held st : hold_over cf -> no_moved s -> frozen_at s d -> later s d ->
  barrier_kept (z_vfs s) held (z_vfs d) -> exists s', returns (fun fuel => from_barrier fuel held st d) s' /\ as_found s s' /\
  (start (z_pmf s) -> ~ resume_failed (z_log s) s' -> alldevs (p_ac (z_pmf s')) = alldevs (p_ac (z_pmf s))).
Proof.
  intros Ht Hm Fd Ld Hk. unfold from_barrier.
  pose proof (fun g w => way_back st s d g w held Fd Ld Hk) as B. cbv zeta in B.
  pose proof (suspend_devices_apart cf curlwp NSUSPENDED st (set_i915_lispbsd_s0idle 1 d)) as (_ & _ & A3 & _ & _ & A6 & _).
  destruct (suspend_devices cf curlwp NSUSPENDED st _) as [[sus failed] g] eqn:Ex. cbn [fst snd] in *.
  assert (no_moved g) as Hg by (unfold no_moved in *; rewrite A3; cbn; by rewrite (fa_table _ _ Fd)). destruct failed.
  - eexists. split; [apply returns_at_once|]. apply (B g (set_acpi_freeze_active false g)); try done; [by exists []|by apply (same_table g)].
  - destruct (sleep_ends cf cpus reduced wnodes anodes gdv g) as (n & w & Hn & Ew'); [rewrite A6; exact (fa_active _ _ Fd)|exact Ht|].
    eexists. split; [exists n; split; [exact Hn|]; intros x Hx; rewrite (Ew' x Hx); reflexivity|].
    pose proof (Ew' n (le_n n)) as Ew. destruct (sleep_spec cf cpus reduced wnodes anodes gdv n g w Hg Ew) as ((O1 & O2 & O3 & O4) & Wa & Wt & Wc).
    apply (B g w); try done.
    + eapply later_run; [eapply (sleep_grun _ _ _ _ _ _ _ g 4 g 4 w); [|lia|exact Ew]|by exists []]. split; [apply (gr_nil _ 4); lia|]. rewrite A6. exact (fa_active _ _ Fd).
    + eapply Forall_impl; [exact Wc|]. intros ap [[? _] _]. done.
Qed.

Lemma enter_found s : sc_sleepstate s = ACPI_STATE_S0 -> hold_over cf -> vfs_fit (z_vfs s) -> no_moved s ->
  exists s', returns (fun fuel => enter fuel s) s' /\ as_found s s' /\
  (start (z_pmf s) -> ~ resume_failed (z_log s) s' -> alldevs (p_ac (z_pmf s')) = alldevs (p_ac (z_pmf s))).
Proof.
  intros Hs Ht Fit Hm. unfold acpi_enter_freeze. rewrite Hs. cbn [ACPI_STATE_S0 Z.eqb negb]. fold (armed s). rewrite world_split.
  pose proof (world_calm (F_handlex 0) (armed s)) as Ca. assert (later s (world_ (F_handlex 0) (armed s))) as La.
  { apply (later_calls s (armed s) 0); [lia|by apply calls_one|by exists []]. }
  set (a := world_ (F_handlex 0) (armed s)) in *. destruct (nz _).
  { eexists. split; [apply returns_at_once|]. destruct (display_found s a Ca Hs Hm) as [F P]. split; [done|]. intros _ _. by rewrite <-P. }
  destruct (userspace_frozen s a Ca Hs) as [Fb Vb]. pose proof (world_calm F_settle (userspace curlwp curflag true a)) as Cc.
  pose proof (frozen_calm _ _ _ Cc Fb) as Fc. assert (z_vfs (world_ F_settle (userspace curlwp curflag true a)) = z_vfs s) as Vc by (destruct Cc as (_ & -> & _); done).
  assert (later s (world_ F_settle (userspace curlwp curflag true a))) as Lc.
  { apply (later_calls s (userspace curlwp curflag true a) 2); [lia|by apply calls_one|]. apply (later_calls s a 1); [lia|apply (userspace_calls _ _ true)|done]. }
  set (c := world_ F_settle _) in *. destruct (barrier_frozen s c Fc Vc Fit) as (e & ms & d & Eb & Fd & Hv & Hk). rewrite Eb.
  assert (later s d) as Ld by (by eapply (later_calls s c 3); [lia|apply (barrier_calls _ _ _ _ _ _ Eb)|]).
  destruct (nz e && _) eqn:Ee; [|by apply from_barrier_found].
  eexists. split; [apply returns_at_once|]. apply andb_true_iff in Ee as [Ee _]. unfold nz in Ee. apply negb_true_iff, Z.eqb_neq in Ee.
  destruct Fd as [D1 D2 D3 D4 D5 D6]. destruct (thawed_found s (set_acpi_freeze_active false d)) as [F P]; try done.
  - by apply Hv.
  - cbn. rewrite D2. by apply same_table.
  - unfold no_moved. cbn. by rewrite D2.
  - split; [exact F|]. intros _ _. rewrite P. cbn. by rewrite D1.
Qed.

(** C5. acpi_enter_freeze, begun in S0, returns whatever the display, the file systems,
    the drivers, the firmware and the PMC answer, if freeze_timeout is positive, or if
    it is 0 and somebody wakes the machine sooner or later; with a timeout it takes no
    more pauses than that. On every path the latch is disarmed, the machine is in S0,
    the RC6 latch, the file systems, the barrier and the power group table are as found,
    userspace is thawed if it was frozen, and if no resume failed and the active devices
    were awake in a well formed tree, every device is exactly as before. (The mount list
    is well formed and the table has no device moved at the start.) *)
Theorem freeze_leaves_as_found s : sc_sleepstate s = ACPI_STATE_S0 -> hold_over cf -> vfs_fit (z_vfs s) -> no_moved s ->
  exists s', returns (fun fuel => enter fuel s) s' /\ as_found s s' /\
  (start (z_pmf s) -> ~ resume_failed (z_log s) s' -> alldevs (p_ac (z_pmf s')) = alldevs (p_ac (z_pmf s))).
Proof. apply enter_found. Qed.

(** C26. If freeze_timeout is positive, or somebody wakes the machine during a pause
    sooner or later, acpi_enter_freeze begun in S0 returns, and no pause of the hold
    begins after a wake, whenever it came: a lid or button event during the preparation
    is not lost and the machine then does not hold at all. *)
Theorem freeze_wake_ends_hold s : sc_sleepstate s = ACPI_STATE_S0 -> hold_over cf -> vfs_fit (z_vfs s) -> no_moved s ->
  exists s' evs, returns (fun fuel => enter fuel s) s' /\ z_log s' = evs ++ z_log s /\ no_late_hold evs (z_log s).
Proof.
  intros Hs Ht Fit Hm. destruct (enter_found s Hs Ht Fit Hm) as (s' & H & _). destruct H as (n & Hn & E).
  destruct (returned_no_late_hold n s s' (E n (le_n n))) as (evs & H1 & H2). exists s', evs. split; [by exists n|done].
Qed.

(** ** Storage *)

(** No call suspended [p]. *)
Definition spared (base : list (fcall * Z)) (p : nat) (s : freeze) : Prop :=
  exists evs, z_log s = evs ++ base /\ forall ok a, (F_suspend p ok, a) ∉ evs.

Lemma spared_call base p c s : (forall ok, c <> F_suspend p ok) -> spared base p s -> spared base p (world_ c s).
Proof.
  intros Hc (evs & E & H). exists ((c, fz_answer (z_log s) c) :: evs). rewrite world_log, E. split; [done|].
  intros ok a [[= Hx _]|Hin]%elem_of_cons; [by apply (Hc ok)|by eapply H].
Qed.

Lemma spared_calls base p P s s' : P <> 4 -> calls P s s' -> spared base p s -> spared base p s'.
Proof.
  intros HP. induction 1 as [|s1 s2 s3 H _ IH]; [done|]. intros Hs. apply IH. destruct H as [c Hc|s2 (El & _)].
  - apply spared_call; [|done]. by intros ok ->.
  - destruct Hs as (evs & E & Hs). exists evs. by rewrite El.
Qed.

Lemma spared_run base p s lo s' hi : 4 < lo -> grun s lo s' hi -> spared base p s -> spared base p s'.
Proof.
  intros Hlo G. destruct (grun_order _ _ _ _ G) as (evs' & E' & _ & F). intros (evs & E & H). exists (evs' ++ evs).
  split; [by rewrite E', E, app_assoc|]. intros ok a [Hin|Hin]%elem_of_app; [|by eapply H]. rewrite Forall_forall in F. specialize (F _ Hin). cbn in F. lia.
Qed.

Lemma suspend_spares base p s : start (z_pmf s) -> storage (z_pmf s) p -> spared base p s ->
  spared base p (suspend_devices cf curlwp NSUSPENDED false s).2.
Proof.
  intros St Hp Hs. refine (proj2 (proj2 (proj2 (proj2 (suspend_devices_over Hok cf curlwp NSUSPENDED (z_pmf s) St false (spared base p) s eq_refl _ _ Hs))))); [|done].
  intros q [[l f] x] D Hx. unfold suspend_body. cbn [fst snd] in D.
  destruct (decide (q = p)) as [->|Hq].
  - rewrite (storage_kept Hok cf _ _ _ p D Hp), orb_true_r. done.
  - destruct (_ || _); [done|]. destruct (Nat.eqb _ _); [done|]. destruct (pmf_device_suspend _ _ _ _) as [ok m].
    apply spared_call; [by intros ok' [= ? _]|]. done.
Qed.

Lemma from_barrier_spares fuel s held p d s' : start (z_pmf s) -> storage (z_pmf s) p -> frozen_at s d -> spared (z_log s) p d ->
  from_barrier fuel held false d = Some s' -> spared (z_log s) p s'.
Proof.
  intros St Hp Fd Hd. assert (spared (z_log s) p (suspend_devices cf curlwp NSUSPENDED false (set_i915_lispbsd_s0idle 1 d)).2) as Hg.
  { apply suspend_spares; [cbn; by rewrite (fa_pmf _ _ Fd)|cbn; by rewrite (fa_pmf _ _ Fd)|done]. }
  pose proof (suspend_devices_apart cf curlwp NSUSPENDED false (set_i915_lispbsd_s0idle 1 d)) as (_ & _ & _ & _ & _ & A6 & _).
  unfold from_barrier. destruct (suspend_devices _ _ _ _ _) as [[sus failed] g]. cbn [snd] in *.
  assert (forall sus w, spared (z_log s) p w -> spared (z_log s) p (finish curlwp curflag held (i915_lispbsd_s0idle d) (resume_devices curlwp sus w).2)) as Hback.
  { intros l w Hw. eapply (spared_run _ _ _ 18); [lia|apply finish_grun; constructor; lia|]. by eapply (spared_calls _ _ 18); [|apply resume_devices_calls|]. }
  destruct failed; [intros [= <-]; by apply Hback|]. destruct (sleep _ _ _ _ _ _ _ g) as [w|] eqn:Ew; [|done]. intros [= <-]. apply Hback.
  eapply (spared_run _ _ g 5); [lia|apply (sleep_grun cf cpus reduced wnodes anodes gdv fuel g 5 g 5 w); [|lia|exact Ew]|done].
  split; [constructor; lia|]. rewrite A6. exact (fa_active _ _ Fd).
Qed.

Lemma barrier_error c e ms d : barrier cf curlwp c = Some (e, ms, d) -> acpi_freeze_fsbarrier cf <> 0 ->
  exists v, vfs_suspend_all curlwp (z_vfs c) = Some (e, ms, v).
Proof.
  unfold barrier. intros H Hp. rewrite (proj2 (Z.eqb_neq _ _) Hp) in H. destruct (vfs_suspend_all _ _) as [[[e' ms'] v]|]; [|done].
  injection H as <- <- _. by exists v.
Qed.

(** C6. In a well formed tree of devices and a well formed mount list, a device that is
    an nvme controller or below one, with no dwiic controller at or above it before the
    nvme controller, is suspended only if storage suspension and the barrier are asked
    for and vfs_suspend_all established the barrier in this very freeze. *)
Theorem freeze_storage_needs_barrier fuel s s' evs p ok a : start (z_pmf s) -> vfs_fit (z_vfs s) -> storage (z_pmf s) p ->
  enter fuel s = Some s' -> z_log s' = evs ++ z_log s -> (F_suspend p ok, a) ∈ evs ->
  acpi_freeze_storage cf = true /\ acpi_freeze_fsbarrier cf <> 0 /\ exists ms v, vfs_suspend_all curlwp (z_vfs s) = Some (0, ms, v).
Proof.
  intros St Fit Hp H El Hin. assert (spared (z_log s) p s' -> False) as Hno.
  { intros (evs' & E & Hn). rewrite El in E. apply app_inv_tail in E. subst evs'. by eapply Hn. }
  revert H. unfold acpi_enter_freeze. destruct (Z.eqb_spec (sc_sleepstate s) ACPI_STATE_S0) as [Hs|_]; cbn [negb].
  2:{ intros [= <-]. destruct Hno. exists []. split; [done|]. by intros ? ? ?%elem_of_nil. }
  fold (armed s). rewrite world_split. pose proof (world_calm (F_handlex 0) (armed s)) as Ca.
  assert (spared (z_log s) p (world_ (F_handlex 0) (armed s))) as Sa.
  { apply spared_call; [done|]. exists []. split; [done|]. by intros ? ? ?%elem_of_nil. }
  set (x := world_ (F_handlex 0) (armed s)) in *. destruct (nz _); [by intros [= <-]; destruct Hno|].
  destruct (userspace_frozen s x Ca Hs) as [Fb Vb]. pose proof (world_calm F_settle (userspace curlwp curflag true x)) as Cc.
  pose proof (frozen_calm _ _ _ Cc Fb) as Fc. assert (z_vfs (world_ F_settle (userspace curlwp curflag true x)) = z_vfs s) as Vc by (destruct Cc as (_ & -> & _); done).
  assert (spared (z_log s) p (world_ F_settle (userspace curlwp curflag true x))) as Sc by (do 2 (apply spared_call; [done|]); done).
  set (c := world_ F_settle _) in *. destruct (barrier_frozen s c Fc Vc Fit) as (e & ms & d & Eb & Fd & _). rewrite Eb.
  assert (spared (z_log s) p d) as Sd by (eapply (spared_calls _ _ 3); [done|apply (barrier_calls _ _ _ _ _ _ Eb)|done]).
  destruct (nz e && _). { intros [= <-]. destruct Hno. by do 2 (apply spared_call; [done|]). }
  destruct (acpi_freeze_storage cf && _) eqn:Est.
  - intros _. apply andb_true_iff in Est as [-> [Hf ->%Z.eqb_eq]%andb_true_iff]. apply negb_true_iff, Z.eqb_neq in Hf.
    destruct (barrier_error c _ _ _ Eb Hf) as [v Hv]. rewrite Vc in Hv. split; [done|]. split; [done|]. by exists ms, v.
  - intros H. destruct Hno. by apply (from_barrier_spares fuel s _ p d) in H.
Qed.

End claims.
