(* ===== verification/FreezeReq.v ===== *)
(** * Requests for a suspend to idle

    The sysctls hw.acpi.sleep.freeze, hw.acpi.sleep.s0freeze and
    hw.acpi.sleep.wake and the thread that serves them, of
    kernel/dev/acpi/acpi.c: acpi_freeze_req, acpi_freeze_busy and
    acpi_freeze_mode.  A run of acpi_enter_freeze is one step of the thread; of
    acpi_s0_freeze_test its readings of acpi_freeze_mode and the display are
    kept, its measurements are not. *)

From stdpp Require Import base numbers list relations.
From S2P Require Import Prelude Sysctl.

(** ** State *)

(** Where acpi_freeze_thread is. *)
Inductive thread_pc :=
  | TH_wait          (* in the cv_wait loop, or about to enter it *)
  | TH_ready         (* a request taken, the mode not yet read *)
  | TH_test          (* in acpi_s0_freeze_test, before its first reading *)
  | TH_hold          (* ... between the two *)
  | TH_freeze        (* in acpi_enter_freeze *)
  | TH_done.         (* before busy is cleared *)

Record freezer := mk_freezer {
  acpi_freeze_thread_started : bool;
  acpi_freeze_req : bool;
  acpi_freeze_busy : bool;
  acpi_freeze_mode : Z;
  th_pc : thread_pc;
  th_detached : Z                (* wsdisplay_handlex: calls with 0 less calls with 1, of the test *)
}.

Definition freezer_init : freezer := mk_freezer false false false 0 TH_wait 0.

#[export] Instance thread_pc_dec : EqDecision thread_pc.
Proof. solve_decision. Defined.

(** ** The sysctls *)

Definition with_mode (m : Z) (s : freezer) : freezer :=
  mk_freezer (acpi_freeze_thread_started s) (acpi_freeze_req s) (acpi_freeze_busy s) m (th_pc s) (th_detached s).

(** The thread is there; [created] is what kthread_create would say. *)
Definition start_thread (created : bool) (s : freezer) : freezer :=
  if acpi_freeze_thread_started s then s
  else mk_freezer created (acpi_freeze_req s) (acpi_freeze_busy s) (acpi_freeze_mode s) (th_pc s) (th_detached s).

(** hw.acpi.sleep.s0freeze: a test of mode [t]. *)
Definition sysctl_hw_acpi_s0freeze (created : bool) (t : Z) (s : freezer) : Z * freezer :=
  if negb (nz t) then (0, s) else
  let s := start_thread created (with_mode t s) in
  if negb (acpi_freeze_thread_started s) then (0, s)
  else (0, mk_freezer true true (acpi_freeze_busy s) (acpi_freeze_mode s) (th_pc s) (th_detached s)).

Definition sysctl_hw_acpi_freeze (created : bool) (t : Z) (s : freezer) : Z * freezer :=
  if negb (nz t) then (0, s) else
  let s := start_thread created (with_mode 0 s) in
  if negb (acpi_freeze_thread_started s) then (0, s)
  else if acpi_freeze_busy s || acpi_freeze_req s then (EBUSY, s)
  else (0, mk_freezer true true true (acpi_freeze_mode s) (th_pc s) (th_detached s)).

(** What a read of hw.acpi.sleep.freeze gives. *)
Definition sysctl_freeze_read (s : freezer) : Z := if acpi_freeze_busy s || acpi_freeze_req s then 1 else 0.

Definition acpi_freeze_in_progress (active : bool) (s : freezer) : bool := acpi_freeze_busy s || active.

(** ** The thread *)

Definition at_pc (pc : thread_pc) (s : freezer) : freezer :=
  mk_freezer (acpi_freeze_thread_started s) (acpi_freeze_req s) (acpi_freeze_busy s) (acpi_freeze_mode s) pc (th_detached s).

(** wsdisplay_handlex of the test. *)
Definition test_display (n : Z) (s : freezer) : freezer :=
  if acpi_freeze_mode s =? 1 then
    mk_freezer (acpi_freeze_thread_started s) (acpi_freeze_req s) (acpi_freeze_busy s) (acpi_freeze_mode s) (th_pc s) (th_detached s + n)
  else s.

(** One step; [None] when it has to wait. *)
Definition acpi_freeze_thread (s : freezer) : option freezer :=
  if negb (acpi_freeze_thread_started s) then None else
  match th_pc s with
  | TH_wait => if acpi_freeze_req s then Some (mk_freezer true false true (acpi_freeze_mode s) TH_ready (th_detached s)) else None
  | TH_ready => Some (at_pc (if nz (acpi_freeze_mode s) then TH_test else TH_freeze) s)
  | TH_test => Some (at_pc TH_hold (test_display 1 s))
  | TH_hold => Some (at_pc TH_done (test_display (-1) s))
  | TH_freeze => Some (at_pc TH_done s)
  | TH_done => Some (mk_freezer true (acpi_freeze_req s) false (acpi_freeze_mode s) TH_wait (th_detached s))
  end.

(** ** Runs *)

(** A write has what kthread_create would say. *)
Inductive freeze_event :=
  | FE_test (created : bool) (t : Z)               (* a write to s0freeze *)
  | FE_freeze (created : bool) (t error : Z)       (* a write to freeze, and its error *)
  | FE_take                                        (* the thread takes a request *)
  | FE_run (freeze : bool)                         (* and carries out a freeze, or a test *)
  | FE_finish                                      (* and is done with it *)
  | FE_internal.

Definition thread_event (s : freezer) : freeze_event :=
  match th_pc s with
  | TH_wait => FE_take
  | TH_ready => FE_run (acpi_freeze_mode s =? 0)
  | TH_done => FE_finish
  | _ => FE_internal
  end.

Inductive freezer_step (s : freezer) : freeze_event -> freezer -> Prop :=
  | fr_s0freeze created t : freezer_step s (FE_test created t) (sysctl_hw_acpi_s0freeze created t s).2
  | fr_freeze created t :
      freezer_step s (FE_freeze created t (sysctl_hw_acpi_freeze created t s).1) (sysctl_hw_acpi_freeze created t s).2
  | fr_thread s' : acpi_freeze_thread s = Some s' -> freezer_step s (thread_event s) s'.

Inductive freezer_run (s : freezer) : list freeze_event -> freezer -> Prop :=
  | run_nil : freezer_run s [] s
  | run_snoc evs s1 e s2 : freezer_run s evs s1 -> freezer_step s1 e s2 -> freezer_run s (evs ++ [e]) s2.

(** ** One run at a time *)

(** What is served. *)
Inductive service := SV_none | SV_taken | SV_running.

#[export] Instance service_dec : EqDecision service.
Proof. solve_decision. Defined.

(** The specification: whether there is a thread, whether a request waits, what is
    served, and the mode of the last write that asked for something. *)
Record server := mk_server {
  sv_up : bool;
  sv_waits : bool;
  sv_serves : service;
  sv_mode : Z
}.

Definition sv_busy (v : server) : bool := sv_waits v || negb (bool_decide (sv_serves v = SV_none)).

(** Without a thread nothing is accepted and no error given.  A freeze is accepted
    only when nothing waits or is served, a test always; what waits is taken once,
    and only when nothing is served; what is carried out is what the last write
    asked for, accepted or not. *)
Definition serve1 (v : server) (e : freeze_event) : option server :=
  let '(mk_server up q r m) := v in
  match e with
  | FE_test created t =>
      if negb (nz t) then Some v
      else if up || created then Some (mk_server true true r t)
      else Some (mk_server false q r t)
  | FE_freeze created t err =>
      if negb (nz t) then (if err =? 0 then Some v else None)
      else if negb (up || created) then (if err =? 0 then Some (mk_server false q r 0) else None)
      else if sv_busy v then (if err =? EBUSY then Some (mk_server true q r 0) else None)
      else (if err =? 0 then Some (mk_server true true r 0) else None)
  | FE_take => if q && bool_decide (r = SV_none) then Some (mk_server up false SV_taken m) else None
  | FE_run freeze =>
      if bool_decide (r = SV_taken) && eqb freeze (m =? 0) then Some (mk_server up q SV_running m) else None
  | FE_finish => if bool_decide (r = SV_running) then Some (mk_server up q SV_none m) else None
  | FE_internal => if bool_decide (r = SV_running) then Some v else None
  end.

Definition serve (v : option server) (e : freeze_event) : option server :=
  match v with Some v => serve1 v e | None => None end.

(** The abstraction of a state. *)
Definition server_of (s : freezer) : server :=
  mk_server (acpi_freeze_thread_started s) (acpi_freeze_req s)
    (match th_pc s with TH_wait => SV_none | TH_ready => SV_taken | _ => SV_running end) (acpi_freeze_mode s).

Record freezer_inv (s : freezer) : Prop := {
  fi_busy : th_pc s <> TH_wait -> acpi_freeze_busy s = true;
  fi_idle : th_pc s = TH_wait -> acpi_freeze_busy s = true -> acpi_freeze_req s = true;
  fi_started : acpi_freeze_thread_started s = false -> acpi_freeze_req s = false /\ acpi_freeze_busy s = false /\ th_pc s = TH_wait
}.

(** What the code tests is what the server means. *)
Lemma busy_of s : freezer_inv s -> acpi_freeze_busy s || acpi_freeze_req s = sv_busy (server_of s).
Proof.
  intros [I1 I2 _]. unfold sv_busy, server_of. cbn. destruct (decide (th_pc s = TH_wait)) as [E|E].
  - rewrite E. cbn. destruct (acpi_freeze_busy s) eqn:Eb; [by rewrite (I2 E eq_refl)|by destruct (acpi_freeze_req s)].
  - rewrite (I1 E). destruct (th_pc s); try done; by rewrite orb_true_r.
Qed.

Lemma s0freeze_refines created t s : freezer_inv s -> let s' := (sysctl_hw_acpi_s0freeze created t s).2 in
  freezer_inv s' /\ serve1 (server_of s) (FE_test created t) = Some (server_of s').
Proof.
  intros [I1 I2 I3]. destruct s as [st rq bu md pc det].
  unfold sysctl_hw_acpi_s0freeze, start_thread, with_mode, server_of in *. cbn in *.
  destruct (nz t); cbn; [|by split]. destruct st; cbn; [by split|]. destruct (I3 eq_refl) as (-> & -> & ->).
  by destruct created.
Qed.

Lemma freeze_refines created t s : freezer_inv s -> let p := sysctl_hw_acpi_freeze created t s in
  freezer_inv p.2 /\ serve1 (server_of s) (FE_freeze created t p.1) = Some (server_of p.2).
Proof.
  intros I. pose proof (busy_of _ I) as B. destruct I as [I1 I2 I3]. destruct s as [st rq bu md pc det].
  unfold sysctl_hw_acpi_freeze, start_thread, with_mode, server_of in *. cbn -[sv_busy] in *.
  destruct (nz t); cbn -[sv_busy]; [|by split]. destruct st; cbn -[sv_busy orb].
  - rewrite <-B. destruct (bu || rq) eqn:E; cbn; [by split|]. apply orb_false_iff in E as [-> ->]. by split.
  - destruct (I3 eq_refl) as (-> & -> & ->). by destruct created.
Qed.

Lemma thread_refines s s' : freezer_inv s -> acpi_freeze_thread s = Some s' ->
  freezer_inv s' /\ serve1 (server_of s) (thread_event s) = Some (server_of s').
Proof.
  intros [I1 I2 I3] H. destruct s as [st rq bu md pc det]. unfold acpi_freeze_thread, thread_event, server_of in *. cbn in *.
  destruct st; cbn in H; [|done]. destruct pc, rq; cbn in H; try discriminate; injection H as <-; unfold at_pc, test_display; cbn;
    try (pose proof (I1 ltac:(done)) as ->); rewrite ?eqb_reflx; repeat (case_match; cbn); by split.
Qed.

Lemma step_refines s e s' : freezer_inv s -> freezer_step s e s' -> freezer_inv s' /\ serve (Some (server_of s)) e = Some (server_of s').
Proof.
  intros I [created t|created t|s2 H]; cbn [serve].
  - by apply s0freeze_refines.
  - by apply freeze_refines.
  - by apply thread_refines.
Qed.

Lemma freezer_init_inv : freezer_inv freezer_init.
Proof. by split. Qed.


(** ** A request that is refused *)

(** A write to hw.acpi.sleep.freeze that is refused with EBUSY because a test waits is
    carried out all the same, in place of the test that was accepted: the mode is stored
    before the check. *)
Theorem freeze_refused_request_runs : exists s,
  freezer_run freezer_init [FE_test true 1; FE_freeze true 1 EBUSY; FE_take; FE_run true] s /\ th_pc s = TH_freeze.
Proof.
  eexists. split.
  - apply (run_snoc _ [FE_test true 1; FE_freeze true 1 EBUSY; FE_take] (mk_freezer true false true 0 TH_ready 0)); [|by apply (fr_thread (mk_freezer true false true 0 TH_ready 0))].
    apply (run_snoc _ [FE_test true 1; FE_freeze true 1 EBUSY] (mk_freezer true true false 0 TH_wait 0)); [|by apply (fr_thread (mk_freezer true true false 0 TH_wait 0))].
    apply (run_snoc _ [FE_test true 1] (mk_freezer true true false 1 TH_wait 0)); [|by apply (fr_freeze (mk_freezer true true false 1 TH_wait 0) true 1)].
    apply (run_snoc _ [] freezer_init); [constructor|]. by apply (fr_s0freeze freezer_init true 1).
  - done.
Qed.

(** A freeze that could not get its thread: no error, and nothing waits. *)
Lemma freeze_without_thread_silent t s : nz t = true -> acpi_freeze_thread_started s = false ->
  (sysctl_hw_acpi_freeze false t s).1 = 0 /\ acpi_freeze_req (sysctl_hw_acpi_freeze false t s).2 = acpi_freeze_req s.
Proof. intros Ht Hs. unfold sysctl_hw_acpi_freeze, start_thread, with_mode. rewrite Ht. cbn. by rewrite Hs. Qed.

(** One asked for while a test that detached the display runs: it stays detached. *)
Lemma freeze_refused_keeps_display_detached : exists s,
  freezer_run freezer_init [FE_test true 1; FE_take; FE_run false; FE_internal; FE_freeze true 1 EBUSY; FE_internal; FE_finish] s /\
  sv_busy (server_of s) = false /\ th_detached s = 1.
Proof.
  exists (mk_freezer true false false 0 TH_wait 1). split; [|done].
  apply (run_snoc _ [FE_test true 1; FE_take; FE_run false; FE_internal; FE_freeze true 1 EBUSY; FE_internal] (mk_freezer true false true 0 TH_done 1)); [|by apply (fr_thread (mk_freezer true false true 0 TH_done 1))].
  apply (run_snoc _ [FE_test true 1; FE_take; FE_run false; FE_internal; FE_freeze true 1 EBUSY] (mk_freezer true false true 0 TH_hold 1)); [|by apply (fr_thread (mk_freezer true false true 0 TH_hold 1))].
  apply (run_snoc _ [FE_test true 1; FE_take; FE_run false; FE_internal] (mk_freezer true false true 1 TH_hold 1)); [|by apply (fr_freeze (mk_freezer true false true 1 TH_hold 1) true 1)].
  apply (run_snoc _ [FE_test true 1; FE_take; FE_run false] (mk_freezer true false true 1 TH_test 0)); [|by apply (fr_thread (mk_freezer true false true 1 TH_test 0))].
  apply (run_snoc _ [FE_test true 1; FE_take] (mk_freezer true false true 1 TH_ready 0)); [|by apply (fr_thread (mk_freezer true false true 1 TH_ready 0))].
  apply (run_snoc _ [FE_test true 1] (mk_freezer true true false 1 TH_wait 0)); [|by apply (fr_thread (mk_freezer true true false 1 TH_wait 0))].
  apply (run_snoc _ [] freezer_init); [constructor|]. by apply (fr_s0freeze freezer_init true 1).
Qed.
