(* ===== verification/SuspendEx.v ===== *)
(** * A laptop that suspends

    A small device tree with a disk and a network interface, two processes and
    firmware, and the promises of the suspend path on them. *)

From stdpp Require Import base numbers strings list relations sorting.
From S2P Require Import Prelude Sysctl Lwp Mount S2idle S2Thms S2Session S2Claims AcpiPower AcpiThms AcpiLit AcpiWake AdrPower AdrThms Device DeviterThms Pmf PmfFacts PmfThms PmfInv LwpSusp Lps0 Freeze FreezeFacts FreezeDev FreezeTrace FreezeThms FreezeReq.

(** ** Power groups *)

Definition pci_ex : PciSpace := fun _ c => match c with PC_read _ _ => 0x12348086 | _ => 1 end.
Definition anodes_ex : list anode := [mk_anode 1 (Some 0x00050000) (Some 7); mk_anode 2 (Some 0x00120000) None].
Definition table_ex : list acpi_adr_pwr := [adr_entry 0x00050000 ADRPWR_COLD; adr_entry 0x00120000 0].
Definition adr_ex : adr_sys := mk_adrsys state_ex [].
Definition no_driver (h : ACPI_HANDLE) : option (bool * bool) := None.
Notation power_ex l state s := (acpi_adr_power (FW := board) (PCI := pci_ex) no_driver 0 anodes_ex l state s).

Example off_moves : map ap_changed (power_ex table_ex ACPI_STATE_D3 adr_ex).1 = [1; 2]%nat.
Proof. vm_compute. reflexivity. Qed.

Lemma adr_power_restores_what_it_moved_witness : exists l1 s1 l2 s2,
  power_ex table_ex ACPI_STATE_D3 adr_ex = (l1, s1) /\ power_ex l1 ACPI_STATE_D0 s1 = (l2, s2) /\
  Forall2 (fun a b => same_entry a b /\ unmoved b /\ ap_state b = ADRPWR_ON) table_ex l2.
Proof.
  destruct (power_ex table_ex ACPI_STATE_D3 adr_ex) as [l1 s1] eqn:E1. destruct (power_ex l1 ACPI_STATE_D0 s1) as [l2 s2] eqn:E2.
  exists l1, s1, l2, s2. split; [reflexivity|]. split; [exact E2|].
  destruct (adr_power_restores_what_it_moved (FW := board) (PCI := pci_ex) no_driver no_driver 0 0 anodes_ex anodes_ex ACPI_STATE_D3
    table_ex adr_ex l1 s1 s1 l2 s2) as (off & evs & _ & _ & _ & _ & _ & H); [repeat constructor|discriminate|exact E1|exact E2|exact H].
Defined.

(** ** Devices *)

Definition all_hooks : hooks := mk_hooks true true true true true true.
Definition dev_ex (p : nat) (name : string) (parent : option nat) (depth : Z) : device :=
  mk_device p name parent depth 1 0 true true false false false [None; None] [None; None] [None; None] all_hooks 0 None.
Definition alldevs_ex : list device :=
  [dev_ex 1 "mainbus0" None 0; dev_ex 2 "pci0" (Some 1%nat) 1; dev_ex 3 "nvme0" (Some 2%nat) 2; dev_ex 4 "iwx0" (Some 2%nat) 2;
   dev_ex 5 "ld0" (Some 3%nat) 3].
Definition ac_ex : autoconf := mk_ac alldevs_ex 1 0 0 false.
Definition pmf_ex : pmf := mk_pmf ac_ex [].

Definition is_ex : DeviceIs := {|
  device_is_active := fun d => dv_active d && negb (dv_class_suspended d) && negb (dv_driver_suspended d) && negb (dv_bus_suspended d);
  device_is_enabled := dv_active;
  device_is_a := fun d n => String.prefix n (dv_xname d)
|}.
#[local] Existing Instance is_ex.
Definition willing : Drivers := fun _ _ => true.
#[local] Existing Instance willing.

Lemma is_ex_ok : DeviceIsOk is_ex.
Proof. split; [done|done|]. intros d d' n H. cbn. by rewrite H. Defined.

Lemma ac_ex_ok : devs_ok ac_ex.
Proof.
  split.
  - by apply (bool_decide_unpack _), I.
  - repeat constructor; cbn; lia.
  - repeat constructor; cbn; lia.
  - cbn; lia.
  - cbn; lia.
Defined.

(** A walk from the leaves: the disk first. *)
Definition walk_di : deviter_t := (deviter_init DEVITER_LEAVES ac_ex).1.
Definition walk_ac : autoconf := (deviter_init DEVITER_LEAVES ac_ex).2.
Definition walk_n (n : nat) : deviter_t := Nat.iter n (fun di => (deviter_next walk_ac di).2) walk_di.
Definition walk_r (n : nat) : option nat := dv_ptr <$> (deviter_next walk_ac (walk_n n)).1.

Lemma walk_ex n : walk walk_di walk_ac (map walk_r (seq 0 n)).
Proof.
  change walk_di with (walk_n 0). generalize 0%nat. induction n as [|n IH]; intros k; cbn [seq map]; [constructor|].
  apply (w_next (walk_n k) walk_ac (deviter_next walk_ac (walk_n k)).1 (walk_n (S k))); [exact (surjective_pairing _)|]. apply IH.
Qed.

Lemma deviter_walk_exact_witness : map walk_r (seq 0 6) = [Some 5; Some 3; Some 4; Some 2; Some 1; None]%nat /\
  exists order, order ≡ₚ map key (live ac_ex) /\ sorted_by DEVITER_LEAVES order /\ walk_r 0 = fst <$> (order !! 0%nat).
Proof.
  split; [vm_compute; reflexivity|].
  destruct (deviter_walk_exact DEVITER_LEAVES ac_ex (map walk_r (seq 0 6)) ac_ex_ok eq_refl (walk_ex 6)) as (order & H1 & H2 & H3).
  exists order. split; [exact H1|]. split; [exact H2|]. apply (H3 0%nat). reflexivity.
Defined.

(** ** Power management *)

Lemma dev_ex_awake p : In p [1; 2; 3; 4; 5]%nat -> present pmf_ex p /\ awake (getd pmf_ex p) /\ dv_power_handlers (getd pmf_ex p) = true.
Proof.
  assert (forall p n q d, awake (dev_ex p n q d)) as H by (intros; split; [done|repeat constructor|done]).
  cbn [In]. intros [<-|[<-|[<-|[<-|[<-|[]]]]]]; (split; [by eexists|]); (split; [apply H|done]).
Qed.

Lemma getd_absent p : ~ In p [1; 2; 3; 4; 5]%nat -> getd pmf_ex p = inhabitant.
Proof.
  intros H. unfold getd. assert (dev_at p (alldevs (p_ac pmf_ex)) = None) as ->; [|done]. unfold dev_at.
  destruct (List.find _ _) as [d|] eqn:E; [|done]. exfalso. apply List.find_some in E as [Hd He]. apply Nat.eqb_eq in He. apply H. subst p.
  apply (in_map dv_ptr) in Hd. exact Hd.
Qed.

Lemma nodup_ex : NoDup (map dv_ptr (alldevs (p_ac pmf_ex))).
Proof. by apply (bool_decide_unpack _), I. Qed.

Notation down_ex := ((pmf_device_suspend 9 4 PMF_Q_NONE pmf_ex).2).
Notation up_ex := ((pmf_device_resume 9 4 PMF_Q_NONE down_ex).2).

Lemma flag_pair {B} (x : bool * B) b : x.1 = b -> x = (b, x.2).
Proof. intros <-. apply surjective_pairing. Qed.

Lemma pmf_suspend_resume_roundtrip_witness : device_is_active (getd down_ex 4) = false /\ p_ac up_ex = p_ac pmf_ex.
Proof.
  split; [vm_compute; reflexivity|]. destruct (dev_ex_awake 4 ltac:(cbn; auto)) as (H1 & H2 & H3).
  apply (pmf_suspend_resume_roundtrip 9 4 PMF_Q_NONE pmf_ex true down_ex up_ex nodup_ex H1 H2 H3); apply flag_pair; vm_compute; reflexivity.
Defined.

Notation down2_ex := ((pmf_device_suspend 9 4 PMF_Q_DRVCTL down_ex).2).
Notation up1_ex := ((pmf_device_resume 9 4 PMF_Q_NONE down2_ex).2).
Notation up2_ex := ((pmf_device_resume 9 4 PMF_Q_DRVCTL up1_ex).2).

Lemma pmf_resume_waits_for_all_witness : dv_bus_suspended (getd up1_ex 4) = true /\ p_ac up2_ex = p_ac pmf_ex.
Proof.
  destruct (dev_ex_awake 4 ltac:(cbn; auto)) as (H1 & H2 & H3).
  destruct (pmf_resume_waits_for_all 9 4 PMF_Q_NONE PMF_Q_DRVCTL pmf_ex down_ex down2_ex up1_ex up2_ex nodup_ex H1 H2 H3) as (_ & _ & _ & Hb & Hp).
  - split; [discriminate|split; reflexivity].
  - apply flag_pair; vm_compute; reflexivity.
  - apply flag_pair; vm_compute; reflexivity.
  - apply flag_pair; vm_compute; reflexivity.
  - apply flag_pair; vm_compute; reflexivity.
  - split; [exact Hb|exact Hp].
Defined.

Lemma pmf_levels_in_order_witness : exists d, d ∈ alldevs (p_ac down_ex) /\ levels_ok d /\ device_is_active d = dv_active d && negb (dv_class_suspended d).
Proof.
  exists (dev_ex 1 "mainbus0" None 0). assert (dev_ex 1 "mainbus0" None 0 ∈ alldevs (p_ac down_ex)) as Hd.
  { assert (exists l, alldevs (p_ac down_ex) = dev_ex 1 "mainbus0" None 0 :: l) as [l ->] by (eexists; vm_compute; reflexivity). left. }
  split; [exact Hd|]. apply (pmf_levels_in_order 9 is_ex_ok pmf_ex down_ex); [|apply rtc_once, ps_suspend|exact Hd].
  split; [exact nodup_ex|]. repeat constructor; intros; discriminate.
Defined.

(** ** LWPs *)

Definition unsleep_ex : Unsleep := fun l => set_t_stat LSRUN l.
#[local] Existing Instance unsleep_ex.
Lemma unsleep_ex_ok : UnsleepOk unsleep_ex.
Proof. split; [by left|done|done]. Defined.

(** An LWP that stopped at the suspension point. *)
Definition lwp_ex : tlwp := mk_tlwp 3 LSSUSPENDED LW_WSUSPEND false false UR_switched.

(** Thawed and on a CPU again. *)
Definition lwp_back : tlwp := set_t_running true (set_t_stat LSONPROC (freeze_lwp false 9 0 false lwp_ex).1).


(** * A suspend to idle at work

    The laptop of SuspendEx frozen: woken in the second second of its hold, and
    the promises of acpi_enter_freeze on it. *)

#[local] Existing Instance is_ex.
#[local] Existing Instance willing.
#[local] Existing Instance unsleep_ex.
#[local] Existing Instance all_well.
#[local] Existing Instance board.
#[local] Existing Instance pci_ex.

Definition dsm_ex : Dsm := {| lps0_device := Some 8%nat; dsm_reply := fun _ _ => Some [0xff; 0xff] |}.
#[local] Existing Instance dsm_ex.

(** Everything succeeds; someone presses the lid switch in the second pause. *)
Definition world_ex : World := {|
  fz_answer := fun _ _ => 0;
  fz_wakes := fun log c => match c, log with F_hold, (F_hold, _) :: _ => true | _, _ => false end
|}.
#[local] Existing Instance world_ex.

Definition cf_ex : config := mk_config 1 true true 120 false 0.

(** One process with a running and a sleeping thread. *)
Definition procs_ex : list proc :=
  [mk_proc false false 2 [mk_tlwp 3 LSONPROC 0 false true UR_user; mk_tlwp 4 LSSLEEP LW_SINTR true false UR_user]].

Definition fz_ex : freeze :=
  mk_fz pmf_ex vfs_ex adr_ex table_ex procs_ex (mk_lps0 None 0 0 false []) [0; 0] false false ACPI_STATE_S0 0 [].

Notation freeze_ex := (acpi_enter_freeze cf_ex 9 0 [0; 1]%nat false [] anodes_ex (fun _ => no_driver) 128 120 fz_ex).

Definition calls_ex : list fcall := match freeze_ex with Some s => rev (map fst (z_log s)) | None => [] end.

(** Userspace and the barrier first; the disk's child, the disk and the network
    down; two pauses; then back. *)
Example calls_ex_ok : List.filter (fun c => match c with F_rdmsr _ _ | F_wrmsr _ _ _ => false | _ => true end) calls_ex =
  [F_handlex 0; F_userspace true; F_settle; F_barrier; F_suspend 5 true; F_suspend 3 true; F_suspend 4 true; F_prepare; F_power 3; F_lps0 true;
   F_ltr_read; F_ltr_write 0x7fffff; F_latch_read; F_latch_write 0; F_etr3_read; F_etr3_write 0x10000000; F_hold; F_hold;
   F_ltr_restore 0; F_latch_restore 0; F_lps0 false; F_commit; F_power 0; F_resume 3 true; F_resume 4 true; F_resume 5 true; F_release;
   F_userspace false; F_handlex 1].
Proof. vm_compute. reflexivity. Qed.

Lemma start_ex : start pmf_ex.
Proof.
  split; [exact ac_ex_ok| |].
  - intros p Hp. destruct (decide (p ∈ [1; 2; 3; 4; 5]%nat)) as [Hi|Hn].
    + apply list_elem_of_In, dev_ex_awake in Hi. apply Hi.
    + rewrite getd_absent in Hp by (by intros ?%list_elem_of_In). discriminate.
  - intros p q Hp. destruct (decide (p ∈ [1; 2; 3; 4; 5]%nat)) as [Hi|Hn].
    + apply list_elem_of_In in Hi. cbn [In] in Hi. destruct Hi as [<-|[<-|[<-|[<-|[<-|[]]]]]]; intros [= <-];
        (split; [by eexists|split; [done|split; [done|by vm_compute]]]).
    + rewrite getd_absent in Hp by (by intros ?%list_elem_of_In). discriminate.
Qed.

Definition no_failed_resume (s : freeze) : bool := forallb (fun e => match e.1 with F_resume _ false => false | _ => true end) (z_log s).

Lemma no_failed_resume_ok s : no_failed_resume s = true -> ~ resume_failed [] s.
Proof.
  unfold no_failed_resume. rewrite forallb_forall. intros H (evs & p & a & E & Hin). rewrite app_nil_r in E.
  rewrite <-E in Hin. apply list_elem_of_In, H in Hin. discriminate.
Qed.

Lemma runs_ex (P : freeze -> bool) : match freeze_ex with Some s => P s | None => false end = true -> exists s, freeze_ex = Some s /\ P s = true.
Proof. destruct freeze_ex as [s|]; [|done]. by exists s. Qed.

Lemma freeze_leaves_as_found_witness : exists s', freeze_ex = Some s' /\ as_found 9 0 fz_ex s' /\ alldevs (p_ac (z_pmf s')) = alldevs_ex.
Proof.
  destruct (freeze_leaves_as_found is_ex_ok cf_ex 9 0 [0; 1]%nat false [] anodes_ex (fun _ => no_driver) 128 fz_ex eq_refl) as (s' & (n & Hn & E') & F & D).
  - left. reflexivity.
  - exact vfs_ex_fit.
  - repeat constructor.
  - assert (freeze_ex = Some s') as E by (apply E'; rewrite (Hn eq_refl); vm_compute; apply le_n). exists s'. split; [exact E|]. split; [exact F|]. apply D; [exact start_ex|]. apply no_failed_resume_ok.
    destruct (runs_ex no_failed_resume) as (s & E2 & H); [vm_compute; reflexivity|]. rewrite E in E2. injection E2 as ->. exact H.
Defined.

Lemma freeze_phases_in_order_witness : exists s' evs, freeze_ex = Some s' /\ z_log s' = evs ++ [] /\
  StronglySorted (fun a b => b <= a) (map (fun e => phase e.1) evs).
Proof.
  destruct (runs_ex (fun _ => true)) as (s' & E & _); [vm_compute; reflexivity|].
  destruct (freeze_phases_in_order cf_ex 9 0 [0; 1]%nat false [] anodes_ex (fun _ => no_driver) 128 120 fz_ex s' E) as (evs & H1 & H2).
  exists s', evs. split; [exact E|]. split; [exact H1|exact H2].
Defined.

(** No time set: only a wake ends the hold. *)
Definition cf_wait : config := mk_config 1 true true 0 false 0.

Lemma freeze_wake_ends_hold_witness : exists s' evs n,
  acpi_enter_freeze cf_wait 9 0 [0; 1]%nat false [] anodes_ex (fun _ => no_driver) 128 n fz_ex = Some s' /\
  z_log s' = evs ++ [] /\ no_late_hold evs [].
Proof.
  destruct (freeze_wake_ends_hold is_ex_ok cf_wait 9 0 [0; 1]%nat false [] anodes_ex (fun _ => no_driver) 128 fz_ex eq_refl)
    as (s' & evs & (n & _ & E) & H1 & H2).
  - right. intros log. exists 1%nat. reflexivity.
  - exact vfs_ex_fit.
  - repeat constructor.
  - exists s', evs, n. split; [exact (E n (le_n n))|]. split; [exact H1|exact H2].
Defined.

(** The disk went down, so the barrier was up. *)
Definition disk_down (s : freeze) : bool := existsb (fun e => match e.1 with F_suspend 5 true => true | _ => false end) (z_log s).

Lemma freeze_storage_needs_barrier_witness : storage pmf_ex 5 /\ exists ms v, vfs_suspend_all 9 vfs_ex = Some (0, ms, v).
Proof.
  assert (storage pmf_ex 5) as Hst.
  { apply (storage_child pmf_ex 5 3); [reflexivity..|]. by apply storage_nvme. }
  split; [exact Hst|]. destruct (runs_ex disk_down) as (s' & E & H); [vm_compute; reflexivity|].
  unfold disk_down in H. apply existsb_exists in H as ([c a] & Hin & Hc).
  destruct c as [| | | |p ok| | | | | | | | | | | | | | | | |]; try discriminate Hc.
  destruct p as [|[|[|[|[|[|p]]]]]]; try discriminate Hc. destruct ok; [|discriminate Hc].
  refine (proj2 (proj2 (freeze_storage_needs_barrier is_ex_ok cf_ex 9 0 [0; 1]%nat false [] anodes_ex (fun _ => no_driver) 128 120 fz_ex s' (z_log s') 5 true a
    start_ex vfs_ex_fit Hst E _ _))).
  - symmetry. apply app_nil_r.
  - apply list_elem_of_In. exact Hin.
Defined.

