(* ===== verification/Vmem.v ===== *)
(** * Resource arenas

    kernel/kern/subr_vmem.c: boundary tags, the segment list, free lists by
    order, the hash of allocated tags, allocation with its constraints,
    imports, release and rehashing.  hash32_buf, VMEM_MAXORDER, the tag pool,
    the import function and what other threads do while the lock is dropped are
    parameters; an assertion that fails clears [vm_asserts]. *)

From stdpp Require Import base numbers list.
From S2P Require Import Prelude Sysctl.

(** ** Data *)

Inductive bt_type_t := BT_TYPE_SPAN | BT_TYPE_SPAN_STATIC | BT_TYPE_FREE | BT_TYPE_BUSY.

#[export] Instance bt_type_dec : EqDecision bt_type_t.
Proof. solve_decision. Defined.

(** A boundary tag with its identity; [bt_private] is BT_F_PRIVATE. *)
Record bt_t := mk_bt {
  bt_id : nat;
  bt_private : bool;
  bt_type : bt_type_t;
  bt_start : Z;
  bt_size : Z
}.

Definition set_bt_id (v : nat) (r : bt_t) : bt_t :=
  mk_bt v (bt_private r) (bt_type r) (bt_start r) (bt_size r).
Definition set_bt_private (v : bool) (r : bt_t) : bt_t :=
  mk_bt (bt_id r) v (bt_type r) (bt_start r) (bt_size r).
Definition set_bt_type (v : bt_type_t) (r : bt_t) : bt_t :=
  mk_bt (bt_id r) (bt_private r) v (bt_start r) (bt_size r).
Definition set_bt_start (v : Z) (r : bt_t) : bt_t :=
  mk_bt (bt_id r) (bt_private r) (bt_type r) v (bt_size r).
Definition set_bt_size (v : Z) (r : bt_t) : bt_t :=
  mk_bt (bt_id r) (bt_private r) (bt_type r) (bt_start r) v.

(** The last address of a tag. *)
Definition BT_END (bt : bt_t) : Z := u64 (bt_start bt + bt_size bt - 1).
Definition BT_ISSPAN_P (bt : bt_t) : bool :=
  bool_decide (bt_type bt = BT_TYPE_SPAN) || bool_decide (bt_type bt = BT_TYPE_SPAN_STATIC).
Definition is_type (ty : bt_type_t) (bt : bt_t) : bool := bool_decide (bt_type bt = ty).

(** An arena; the members of the lists are tags by identity, first one first. *)
Record vmem := mk_vm {
  vm_importfn : bool;
  vm_releasefn : bool;
  vm_largeimport : bool;  (* VM_LARGEIMPORT *)
  vm_ximport : bool;  (* VM_XIMPORT *)
  vm_privtags : bool;  (* VM_PRIVTAGS *)
  vm_quantum_mask : Z;
  vm_quantum_shift : Z;
  vm_seglist : list bt_t;
  vm_freelist : list (list nat);
  vm_hashlist : list (list nat);
  vm_freetags : list bt_t;
  vm_nfreetags : Z;
  vm_nbusytag : Z;
  vm_maxbusytag : Z;
  vm_size : Z;
  vm_inuse : Z;
  vm_qcache_max : Z;
  vm_asserts : bool
}.

Definition set_vm_importfn (v : bool) (r : vmem) : vmem :=
  mk_vm v (vm_releasefn r) (vm_largeimport r) (vm_ximport r) (vm_privtags r)
    (vm_quantum_mask r) (vm_quantum_shift r) (vm_seglist r) (vm_freelist r)
    (vm_hashlist r) (vm_freetags r) (vm_nfreetags r) (vm_nbusytag r)
    (vm_maxbusytag r) (vm_size r) (vm_inuse r) (vm_qcache_max r) (vm_asserts
    r).
Definition set_vm_releasefn (v : bool) (r : vmem) : vmem :=
  mk_vm (vm_importfn r) v (vm_largeimport r) (vm_ximport r) (vm_privtags r)
    (vm_quantum_mask r) (vm_quantum_shift r) (vm_seglist r) (vm_freelist r)
    (vm_hashlist r) (vm_freetags r) (vm_nfreetags r) (vm_nbusytag r)
    (vm_maxbusytag r) (vm_size r) (vm_inuse r) (vm_qcache_max r) (vm_asserts
    r).
Definition set_vm_largeimport (v : bool) (r : vmem) : vmem :=
  mk_vm (vm_importfn r) (vm_releasefn r) v (vm_ximport r) (vm_privtags r)
    (vm_quantum_mask r) (vm_quantum_shift r) (vm_seglist r) (vm_freelist r)
    (vm_hashlist r) (vm_freetags r) (vm_nfreetags r) (vm_nbusytag r)
    (vm_maxbusytag r) (vm_size r) (vm_inuse r) (vm_qcache_max r) (vm_asserts
    r).
Definition set_vm_ximport (v : bool) (r : vmem) : vmem :=
  mk_vm (vm_importfn r) (vm_releasefn r) (vm_largeimport r) v (vm_privtags r)
    (vm_quantum_mask r) (vm_quantum_shift r) (vm_seglist r) (vm_freelist r)
    (vm_hashlist r) (vm_freetags r) (vm_nfreetags r) (vm_nbusytag r)
    (vm_maxbusytag r) (vm_size r) (vm_inuse r) (vm_qcache_max r) (vm_asserts
    r).
Definition set_vm_privtags (v : bool) (r : vmem) : vmem :=
  mk_vm (vm_importfn r) (vm_releasefn r) (vm_largeimport r) (vm_ximport r) v
    (vm_quantum_mask r) (vm_quantum_shift r) (vm_seglist r) (vm_freelist r)
    (vm_hashlist r) (vm_freetags r) (vm_nfreetags r) (vm_nbusytag r)
    (vm_maxbusytag r) (vm_size r) (vm_inuse r) (vm_qcache_max r) (vm_asserts
    r).
Definition set_vm_quantum_mask (v : Z) (r : vmem) : vmem :=
  mk_vm (vm_importfn r) (vm_releasefn r) (vm_largeimport r) (vm_ximport r)
    (vm_privtags r) v (vm_quantum_shift r) (vm_seglist r) (vm_freelist r)
    (vm_hashlist r) (vm_freetags r) (vm_nfreetags r) (vm_nbusytag r)
    (vm_maxbusytag r) (vm_size r) (vm_inuse r) (vm_qcache_max r) (vm_asserts
    r).
Definition set_vm_quantum_shift (v : Z) (r : vmem) : vmem :=
  mk_vm (vm_importfn r) (vm_releasefn r) (vm_largeimport r) (vm_ximport r)
    (vm_privtags r) (vm_quantum_mask r) v (vm_seglist r) (vm_freelist r)
    (vm_hashlist r) (vm_freetags r) (vm_nfreetags r) (vm_nbusytag r)
    (vm_maxbusytag r) (vm_size r) (vm_inuse r) (vm_qcache_max r) (vm_asserts
    r).
Definition set_vm_seglist (v : list bt_t) (r : vmem) : vmem :=
  mk_vm (vm_importfn r) (vm_releasefn r) (vm_largeimport r) (vm_ximport r)
    (vm_privtags r) (vm_quantum_mask r) (vm_quantum_shift r) v (vm_freelist r)
    (vm_hashlist r) (vm_freetags r) (vm_nfreetags r) (vm_nbusytag r)
    (vm_maxbusytag r) (vm_size r) (vm_inuse r) (vm_qcache_max r) (vm_asserts
    r).
Definition set_vm_freelist (v : list (list nat)) (r : vmem) : vmem :=
  mk_vm (vm_importfn r) (vm_releasefn r) (vm_largeimport r) (vm_ximport r)
    (vm_privtags r) (vm_quantum_mask r) (vm_quantum_shift r) (vm_seglist r) v
    (vm_hashlist r) (vm_freetags r) (vm_nfreetags r) (vm_nbusytag r)
    (vm_maxbusytag r) (vm_size r) (vm_inuse r) (vm_qcache_max r) (vm_asserts
    r).
Definition set_vm_hashlist (v : list (list nat)) (r : vmem) : vmem :=
  mk_vm (vm_importfn r) (vm_releasefn r) (vm_largeimport r) (vm_ximport r)
    (vm_privtags r) (vm_quantum_mask r) (vm_quantum_shift r) (vm_seglist r)
    (vm_freelist r) v (vm_freetags r) (vm_nfreetags r) (vm_nbusytag r)
    (vm_maxbusytag r) (vm_size r) (vm_inuse r) (vm_qcache_max r) (vm_asserts
    r).
Definition set_vm_freetags (v : list bt_t) (r : vmem) : vmem :=
  mk_vm (vm_importfn r) (vm_releasefn r) (vm_largeimport r) (vm_ximport r)
    (vm_privtags r) (vm_quantum_mask r) (vm_quantum_shift r) (vm_seglist r)
    (vm_freelist r) (vm_hashlist r) v (vm_nfreetags r) (vm_nbusytag r)
    (vm_maxbusytag r) (vm_size r) (vm_inuse r) (vm_qcache_max r) (vm_asserts
    r).
Definition set_vm_nfreetags (v : Z) (r : vmem) : vmem :=
  mk_vm (vm_importfn r) (vm_releasefn r) (vm_largeimport r) (vm_ximport r)
    (vm_privtags r) (vm_quantum_mask r) (vm_quantum_shift r) (vm_seglist r)
    (vm_freelist r) (vm_hashlist r) (vm_freetags r) v (vm_nbusytag r)
    (vm_maxbusytag r) (vm_size r) (vm_inuse r) (vm_qcache_max r) (vm_asserts
    r).
Definition set_vm_nbusytag (v : Z) (r : vmem) : vmem :=
  mk_vm (vm_importfn r) (vm_releasefn r) (vm_largeimport r) (vm_ximport r)
    (vm_privtags r) (vm_quantum_mask r) (vm_quantum_shift r) (vm_seglist r)
    (vm_freelist r) (vm_hashlist r) (vm_freetags r) (vm_nfreetags r) v
    (vm_maxbusytag r) (vm_size r) (vm_inuse r) (vm_qcache_max r) (vm_asserts
    r).
Definition set_vm_maxbusytag (v : Z) (r : vmem) : vmem :=
  mk_vm (vm_importfn r) (vm_releasefn r) (vm_largeimport r) (vm_ximport r)
    (vm_privtags r) (vm_quantum_mask r) (vm_quantum_shift r) (vm_seglist r)
    (vm_freelist r) (vm_hashlist r) (vm_freetags r) (vm_nfreetags r)
    (vm_nbusytag r) v (vm_size r) (vm_inuse r) (vm_qcache_max r) (vm_asserts
    r).
Definition set_vm_size (v : Z) (r : vmem) : vmem :=
  mk_vm (vm_importfn r) (vm_releasefn r) (vm_largeimport r) (vm_ximport r)
    (vm_privtags r) (vm_quantum_mask r) (vm_quantum_shift r) (vm_seglist r)
    (vm_freelist r) (vm_hashlist r) (vm_freetags r) (vm_nfreetags r)
    (vm_nbusytag r) (vm_maxbusytag r) v (vm_inuse r) (vm_qcache_max r)
    (vm_asserts r).
Definition set_vm_inuse (v : Z) (r : vmem) : vmem :=
  mk_vm (vm_importfn r) (vm_releasefn r) (vm_largeimport r) (vm_ximport r)
    (vm_privtags r) (vm_quantum_mask r) (vm_quantum_shift r) (vm_seglist r)
    (vm_freelist r) (vm_hashlist r) (vm_freetags r) (vm_nfreetags r)
    (vm_nbusytag r) (vm_maxbusytag r) (vm_size r) v (vm_qcache_max r)
    (vm_asserts r).
Definition set_vm_qcache_max (v : Z) (r : vmem) : vmem :=
  mk_vm (vm_importfn r) (vm_releasefn r) (vm_largeimport r) (vm_ximport r)
    (vm_privtags r) (vm_quantum_mask r) (vm_quantum_shift r) (vm_seglist r)
    (vm_freelist r) (vm_hashlist r) (vm_freetags r) (vm_nfreetags r)
    (vm_nbusytag r) (vm_maxbusytag r) (vm_size r) (vm_inuse r) v (vm_asserts
    r).
Definition set_vm_asserts (v : bool) (r : vmem) : vmem :=
  mk_vm (vm_importfn r) (vm_releasefn r) (vm_largeimport r) (vm_ximport r)
    (vm_privtags r) (vm_quantum_mask r) (vm_quantum_shift r) (vm_seglist r)
    (vm_freelist r) (vm_hashlist r) (vm_freetags r) (vm_nfreetags r)
    (vm_nbusytag r) (vm_maxbusytag r) (vm_size r) (vm_inuse r) (vm_qcache_max
    r) v.

Record vm_flag_t := mk_vmf {
  VM_SLEEP : bool;               (* else VM_NOSLEEP *)
  VM_INSTANTFIT : bool;          (* else VM_BESTFIT *)
  VM_POPULATING : bool
}.

Definition STATIC_BT_COUNT : nat := 200.
Definition BT_MINRESERVE : Z := 4.
Definition BT_MAXFREE : Z := 64.
Definition VMEM_ADDR_MIN : Z := 0.
Definition VMEM_ADDR_MAX : Z := 2 ^ 64 - 1.

(** What the arena asks of the rest of the kernel. *)
Inductive vcall :=
  | V_pool_get
  | V_pool_put (bt : bt_t)
  | V_refill_others
  | V_import (size : Z)
  | V_release (addr size : Z)
  | V_kick
  | V_pause
  | V_wait
  | V_broadcast
  | V_relock
  | V_qcache_get (qidx : Z)
  | V_qcache_put (qidx addr : Z).

(** The arena, vmem_btag_freelist, the identity of the next tag of the pool, the
    tags and the imported regions that other threads hold while they are out of
    the lock, and the calls, latest first. *)
Record vsys := mk_vsys {
  v_vm : vmem;
  v_static : list bt_t;
  v_next : nat;
  v_lent : list nat;
  v_inflight : list (Z * Z);
  v_log : list vcall
}.

Definition set_v_vm (v : vmem) (r : vsys) : vsys :=
  mk_vsys v (v_static r) (v_next r) (v_lent r) (v_inflight r) (v_log r).
Definition set_v_static (v : list bt_t) (r : vsys) : vsys :=
  mk_vsys (v_vm r) v (v_next r) (v_lent r) (v_inflight r) (v_log r).
Definition set_v_next (v : nat) (r : vsys) : vsys :=
  mk_vsys (v_vm r) (v_static r) v (v_lent r) (v_inflight r) (v_log r).
Definition set_v_lent (v : list nat) (r : vsys) : vsys :=
  mk_vsys (v_vm r) (v_static r) (v_next r) v (v_inflight r) (v_log r).
Definition set_v_inflight (v : list (Z * Z)) (r : vsys) : vsys :=
  mk_vsys (v_vm r) (v_static r) (v_next r) (v_lent r) v (v_log r).
Definition set_v_log (v : list vcall) (r : vsys) : vsys :=
  mk_vsys (v_vm r) (v_static r) (v_next r) (v_lent r) (v_inflight r) v.

(** Whether the pool has a tag, what an import gives (the address, and the size
    for VM_XIMPORT), what the quantum cache of an index gives, and what other
    threads do while the lock is dropped. *)
Class VmemOut := {
  vo_pool : list vcall -> bool;
  vo_import : vsys -> Z -> option (Z * Z);
  vo_qcache : list vcall -> Z -> option Z;
  vo_others : vsys -> vsys
}.

(** ** Arithmetic *)

Definition VMEM_ALIGNUP (addr align : Z) : Z := u64 (- Z.land (u64 (- addr)) (u64 (- align))).
Definition VMEM_CROSS_P (addr1 addr2 boundary : Z) : bool := nz (Z.land (Z.lxor addr1 addr2) (u64 (- boundary))).
Definition SIZE2ORDER (size : Z) : Z := Z.log2 size.
Definition ORDER2SIZE (order : Z) : Z := u64 (Z.shiftl 1 order).

Definition vmem_roundup_size (vm : vmem) (size : Z) : Z :=
  Z.land (u64 (size + vm_quantum_mask vm)) (u64 (Z.lnot (vm_quantum_mask vm))).

Definition KASSERT (b : bool) (vm : vmem) : vmem := set_vm_asserts (vm_asserts vm && b) vm.

Section vmem.
Context (hash32 : Z -> Z) (VMEM_MAXORDER : nat).

(** ** Tags by identity *)

Definition tag_at (id : nat) (l : list bt_t) : option bt_t := List.find (fun b => Nat.eqb (bt_id b) id) l.
Definition no_tag : bt_t := mk_bt 0 false BT_TYPE_FREE 0 0.
Definition tag (vm : vmem) (id : nat) : bt_t := default no_tag (tag_at id (vm_seglist vm)).

(** The tag [b] in place of the one with its identity. *)
Definition put_tag (b : bt_t) (vm : vmem) : vmem :=
  set_vm_seglist (map (fun x => if Nat.eqb (bt_id x) (bt_id b) then b else x) (vm_seglist vm)) vm.

(** ** The segment list *)

Definition bt_remseg (bt : bt_t) (vm : vmem) : vmem :=
  set_vm_seglist (List.filter (fun x => negb (Nat.eqb (bt_id x) (bt_id bt))) (vm_seglist vm)) vm.

Fixpoint insert_after (bt : bt_t) (prev : nat) (l : list bt_t) : list bt_t :=
  match l with
  | [] => []
  | x :: l => if Nat.eqb (bt_id x) prev then x :: bt :: l else x :: insert_after bt prev l
  end.

(** After [prev]; without one the insertion faults. *)
Definition bt_insseg (bt : bt_t) (prev : option bt_t) (vm : vmem) : vmem :=
  match prev with
  | Some p => set_vm_seglist (insert_after bt (bt_id p) (vm_seglist vm)) vm
  | None => KASSERT false vm
  end.

Definition bt_insseg_tail (bt : bt_t) (vm : vmem) : vmem := set_vm_seglist (vm_seglist vm ++ [bt]) vm.

(** TAILQ_PREV and TAILQ_NEXT. *)
Fixpoint seg_prev (prev : option bt_t) (id : nat) (l : list bt_t) : option bt_t :=
  match l with
  | [] => None
  | x :: l => if Nat.eqb (bt_id x) id then prev else seg_prev (Some x) id l
  end.

Fixpoint seg_next (id : nat) (l : list bt_t) : option bt_t :=
  match l with
  | [] => None
  | x :: l => if Nat.eqb (bt_id x) id then head l else seg_next id l
  end.

Definition TAILQ_PREV (bt : bt_t) (vm : vmem) : option bt_t := seg_prev None (bt_id bt) (vm_seglist vm).
Definition TAILQ_NEXT (bt : bt_t) (vm : vmem) : option bt_t := seg_next (bt_id bt) (vm_seglist vm).

(** ** The free lists *)

Definition qsize (vm : vmem) (size : Z) : Z := Z.shiftr size (vm_quantum_shift vm).

Definition bt_freehead_tofree (vm : vmem) (size : Z) : nat * bool :=
  let idx := SIZE2ORDER (qsize vm size) in
  (Z.to_nat idx, nz size && nz (qsize vm size) && (Z.land size (vm_quantum_mask vm) =? 0) && (0 <=? idx) &&
                 (idx <? Z.of_nat VMEM_MAXORDER)).

Definition bt_freehead_toalloc (vm : vmem) (size : Z) (instant : bool) : nat * bool :=
  let q := qsize vm size in
  let idx := SIZE2ORDER q in
  let idx := if instant && negb (ORDER2SIZE idx =? q) then idx + 1 else idx in
  (Z.to_nat idx, nz size && nz q && (Z.land size (vm_quantum_mask vm) =? 0) && (0 <=? idx) &&
                 (idx <? Z.of_nat VMEM_MAXORDER)).

Definition drop_id (id : nat) (l : list nat) : list nat := List.filter (fun x => negb (Nat.eqb x id)) l.

Definition bt_remfree (bt : bt_t) (vm : vmem) : vmem :=
  let vm := KASSERT (is_type BT_TYPE_FREE bt) vm in
  set_vm_freelist (map (drop_id (bt_id bt)) (vm_freelist vm)) vm.

Definition bt_insfree (bt : bt_t) (vm : vmem) : vmem :=
  let '(idx, ok) := bt_freehead_tofree vm (bt_size bt) in
  let vm := KASSERT ok vm in
  set_vm_freelist (alter (cons (bt_id bt)) idx (vm_freelist vm)) vm.

(** ** The hash *)

(** vm_hashmask is the size less one. *)
Definition bt_hashhead (vm : vmem) (addr : Z) : nat :=
  Z.to_nat (Z.land (u32 (hash32 addr)) (Z.of_nat (length (vm_hashlist vm)) - 1)).

Definition bt_lookupbusy (vm : vmem) (addr : Z) : option bt_t :=
  match List.find (fun id => bt_start (tag vm id) =? addr) (vm_hashlist vm !!! bt_hashhead vm addr) with
  | Some id => Some (tag vm id)
  | None => None
  end.

Definition bt_rembusy (bt : bt_t) (vm : vmem) : vmem :=
  let vm := KASSERT (0 <? vm_nbusytag vm) vm in
  let vm := set_vm_inuse (u64 (vm_inuse vm - bt_size bt)) vm in
  let vm := set_vm_nbusytag (vm_nbusytag vm - 1) vm in
  set_vm_hashlist (map (drop_id (bt_id bt)) (vm_hashlist vm)) vm.

Definition bt_insbusy (bt : bt_t) (vm : vmem) : vmem :=
  let vm := KASSERT (is_type BT_TYPE_BUSY bt) vm in
  let vm := set_vm_hashlist (alter (cons (bt_id bt)) (bt_hashhead vm (bt_start bt)) (vm_hashlist vm)) vm in
  let vm := set_vm_nbusytag (vm_nbusytag vm + 1) vm in
  let vm := if vm_maxbusytag vm <? vm_nbusytag vm then set_vm_maxbusytag (vm_nbusytag vm) vm else vm in
  set_vm_inuse (u64 (vm_inuse vm + bt_size bt)) vm.

(** ** The supply of tags *)

Definition bt_free (bt : bt_t) (vm : vmem) : vmem :=
  set_vm_nfreetags (vm_nfreetags vm + 1) (set_vm_freetags (bt :: vm_freetags vm) vm).

Definition vmem_add_bts (bts : list bt_t) (vm : vmem) : vmem :=
  fold_left (fun vm b => bt_free (set_bt_private true b) vm) bts vm.

Section out.
Context `{VO : VmemOut}.

Definition on_vm (f : vmem -> vmem) (s : vsys) : vsys := set_v_vm (f (v_vm s)) s.
Definition vlog (c : vcall) (s : vsys) : vsys := set_v_log (c :: v_log s) s.

(** The lock dropped for the call [c]. *)
Definition unlocked (c : vcall) (s : vsys) : vsys := set_v_log (c :: v_log s) (vo_others s).

(** Tags of the static list, until there are enough. *)
Fixpoint refill_static (l : list bt_t) (vm : vmem) : list bt_t * vmem :=
  match l with
  | [] => ([], vm)
  | bt :: l' =>
      if (vm_nfreetags vm <=? BT_MINRESERVE) && negb (vm_privtags vm)
      then refill_static l' (bt_free (set_bt_private false bt) vm)
      else (l, vm)
  end.

(** Tags of the pool; [None] out of fuel. *)
Fixpoint refill_pool (fuel : nat) (s : vsys) : option vsys :=
  if vm_nfreetags (v_vm s) <=? BT_MINRESERVE then
    match fuel with
    | O => None
    | S fuel =>
        let got := vo_pool (v_log s) in
        let s := unlocked V_pool_get s in
        if negb got then Some s
        else refill_pool fuel (set_v_next (S (v_next s)) (on_vm (bt_free (mk_bt (v_next s) false BT_TYPE_FREE 0 0)) s))
    end
  else Some s.

Definition bt_refill_locked (fuel : nat) (s : vsys) : option (Z * vsys) :=
  if BT_MINRESERVE <? vm_nfreetags (v_vm s) then Some (0, s) else
  let '(static, vm) := refill_static (v_static s) (v_vm s) in
  let s := set_v_static static (set_v_vm vm s) in
  s ← refill_pool fuel s;
  if vm_nfreetags (v_vm s) <=? BT_MINRESERVE then Some (ENOMEM, s)
  else Some (0, unlocked V_refill_others s).

(** Takes the first tag. *)
Definition take_tag (s : vsys) : option bt_t * vsys :=
  match vm_freetags (v_vm s) with
  | [] => (None, on_vm (KASSERT false) s)
  | bt :: l => (Some bt, on_vm (fun vm => set_vm_nfreetags (vm_nfreetags vm - 1) (set_vm_freetags l vm)) s)
  end.

Fixpoint bt_alloc (fuel : nat) (flags : vm_flag_t) (s : vsys) : option (option bt_t * vsys) :=
  if (vm_nfreetags (v_vm s) <=? BT_MINRESERVE) && negb (VM_POPULATING flags) then
    match fuel with
    | O => None
    | S fuel =>
        '(e, s) ← bt_refill_locked fuel s;
        if nz e then
          if negb (VM_SLEEP flags) then Some (None, s)
          else bt_alloc fuel flags (unlocked V_pause (vlog V_kick s))
        else bt_alloc fuel flags s
    end
  else Some (take_tag s).

(** The walk of bt_freetrim: the tags kept, those for the static list and those
    for the pool, each latest first. *)
Fixpoint trim_tags (limit n : Z) (l : list bt_t) : list bt_t * list bt_t * list bt_t :=
  match l with
  | [] => ([], [], [])
  | bt :: l' =>
      if n <=? limit then (l, [], [])
      else if bt_private bt then let '(k, st, po) := trim_tags limit n l' in (bt :: k, st, po)
      else let '(k, st, po) := trim_tags limit (n - 1) l' in
        if (bt_id bt <? STATIC_BT_COUNT)%nat then (k, st ++ [bt], po) else (k, st, po ++ [bt])
  end.

Definition bt_freetrim (limit : Z) (s : vsys) : vsys :=
  let vm := v_vm s in
  let '(k, st, po) := trim_tags limit (vm_nfreetags vm) (vm_freetags vm) in
  let s := set_v_vm (set_vm_nfreetags (vm_nfreetags vm - Z.of_nat (length st + length po)) (set_vm_freetags k vm)) s in
  let s := set_v_static (st ++ v_static s) s in
  fold_left (fun s bt => vlog (V_pool_put bt) s) po s.

(** ** Spans *)

Definition vmem_add1 (fuel : nat) (addr size : Z) (flags : vm_flag_t) (spanbttype : bt_type_t) (s : vsys) : option (Z * vsys) :=
  '(btspan, s) ← bt_alloc fuel flags s;
  match btspan with
  | None => Some (ENOMEM, s)
  | Some btspan =>
      '(btfree, s) ← bt_alloc fuel flags s;
      match btfree with
      | None => Some (ENOMEM, on_vm (bt_free btspan) s)
      | Some btfree =>
          let btspan := mk_bt (bt_id btspan) (bt_private btspan) spanbttype addr size in
          let btfree := mk_bt (bt_id btfree) (bt_private btfree) BT_TYPE_FREE addr size in
          Some (0, on_vm (fun vm =>
            let vm := bt_insseg_tail btspan vm in
            let vm := bt_insseg btfree (Some btspan) vm in
            let vm := bt_insfree btfree vm in
            set_vm_size (u64 (vm_size vm + size)) vm) s)
      end
  end.

Definition vmem_add (fuel : nat) (addr size : Z) (flags : vm_flag_t) (s : vsys) : option (Z * vsys) :=
  vmem_add1 fuel addr size flags BT_TYPE_SPAN_STATIC s.

Definition vmem_import (fuel : nat) (size : Z) (flags : vm_flag_t) (s : vsys) : option (Z * vsys) :=
  if negb (vm_importfn (v_vm s)) then Some (EINVAL, s) else
  let size := if vm_largeimport (v_vm s) then u64 (size * 16) else size in
  let answer := vo_import s size in
  let ximport := vm_ximport (v_vm s) in
  let s := unlocked (V_import size) s in
  match answer with
  | None => Some (ENOMEM, s)
  | Some (addr, xsize) =>
      let size := if ximport then xsize else size in
      '(e, s) ← vmem_add1 fuel addr size flags BT_TYPE_SPAN s;
      if nz e then Some (ENOMEM, unlocked (V_release addr size) s) else Some (0, s)
  end.

(** ** Fitting *)

(** The address, and whether the assertions hold. *)
Definition vmem_fit (bt : bt_t) (size align phase nocross minaddr maxaddr : Z) : option Z * bool :=
  let pre := (0 <? size) && (size <=? bt_size bt) in
  let start := if bt_start bt <? minaddr then minaddr else bt_start bt in
  let end_ := if maxaddr <? BT_END bt then maxaddr else BT_END bt in
  if end_ <? start then (None, pre) else
  let start := u64 (VMEM_ALIGNUP (u64 (start - phase)) align + phase) in
  let start := if start <? bt_start bt then u64 (start + align) else start in
  let cross := VMEM_CROSS_P start (u64 (start + size - 1)) nocross in
  let pre := pre && (negb cross || (align <? nocross)) in
  let start := if cross then u64 (VMEM_ALIGNUP (u64 (start - phase)) nocross + phase) else start in
  if (start <=? end_) && (size - 1 <=? u64 (end_ - start)) then
    (Some start, pre && (Z.land start (align - 1) =? phase) && negb (VMEM_CROSS_P start (u64 (start + size - 1)) nocross) &&
      (minaddr <=? start) && ((maxaddr =? 0) || (u64 (start + size - 1) <=? maxaddr)) && (bt_start bt <=? start) &&
      (size - 1 <=? u64 (BT_END bt - start)))
  else (None, pre).

(** The constraints of one allocation. *)
Record request := mk_req {
  rq_size : Z;
  rq_align : Z;
  rq_phase : Z;
  rq_nocross : Z;
  rq_min : Z;
  rq_max : Z
}.

Definition fit_bt (r : request) (bt : bt_t) : option Z * bool :=
  vmem_fit bt (rq_size r) (rq_align r) (rq_phase r) (rq_nocross r) (rq_min r) (rq_max r).

(** The first tag of each list. *)
Fixpoint search_instant (vm : vmem) (r : request) (lists : list (list nat)) : option (nat * Z) * bool :=
  match lists with
  | [] => (None, true)
  | [] :: lists => search_instant vm r lists
  | (id :: _) :: lists =>
      match fit_bt r (tag vm id) with
      | (Some start, ok) => (Some (id, start), ok)
      | (None, ok) => let '(x, ok') := search_instant vm r lists in (x, ok && ok')
      end
  end.

(** Every tag that is large enough. *)
Fixpoint search_list (vm : vmem) (r : request) (l : list nat) : option (nat * Z) * bool :=
  match l with
  | [] => (None, true)
  | id :: l =>
      if bt_size (tag vm id) <? rq_size r then search_list vm r l else
      match fit_bt r (tag vm id) with
      | (Some start, ok) => (Some (id, start), ok)
      | (None, ok) => let '(x, ok') := search_list vm r l in (x, ok && ok')
      end
  end.

Definition search (vm : vmem) (r : request) (instant : bool) : option (nat * Z) * bool :=
  let '(first, ok) := bt_freehead_toalloc vm (rq_size r) instant in
  let lists := drop first (vm_freelist vm) in
  let '(x, ok') := if instant then search_instant vm r lists else search_list vm r (concat lists) in
  (x, ok && ok').

(** ** Allocation *)

(** The free part before the allocation gets the second tag. *)
Definition take_front (start : Z) (bt btnew2 : bt_t) (vm : vmem) : bt_t * option bt_t * vmem :=
  if negb (bt_start bt =? start) then
    let btnew2 := mk_bt (bt_id btnew2) (bt_private btnew2) BT_TYPE_FREE (bt_start bt) (u64 (start - bt_start bt)) in
    let bt := mk_bt (bt_id bt) (bt_private bt) (bt_type bt) start (u64 (bt_size bt - bt_size btnew2)) in
    let vm := put_tag bt vm in
    let vm := bt_insfree btnew2 vm in
    (bt, None, bt_insseg btnew2 (TAILQ_PREV bt vm) vm)
  else (bt, Some btnew2, vm).

(** The allocation gets the first tag when a free part is left behind it. *)
Definition take_split (size : Z) (bt btnew : bt_t) (vm : vmem) : bt_t * vmem :=
  if negb (bt_size bt =? size) && (vm_quantum_mask vm <? u64 (bt_size bt - size)) then
    let btnew := mk_bt (bt_id btnew) (bt_private btnew) BT_TYPE_BUSY (bt_start bt) size in
    let bt := mk_bt (bt_id bt) (bt_private bt) (bt_type bt) (u64 (bt_start bt + size)) (u64 (bt_size bt - size)) in
    let vm := put_tag bt vm in
    let vm := bt_insfree bt vm in
    let vm := bt_insseg btnew (TAILQ_PREV bt vm) vm in
    (btnew, bt_insbusy btnew vm)
  else
    let bt := set_bt_type BT_TYPE_BUSY bt in
    let vm := put_tag bt vm in
    let vm := bt_insbusy bt vm in
    (bt, bt_free btnew vm).

(** From the label gotit on: the address and the arena. *)
Definition xalloc_take (id : nat) (start size : Z) (btnew btnew2 : bt_t) (vm : vmem) : Z * vmem :=
  let bt := tag vm id in
  let vm := KASSERT (is_type BT_TYPE_FREE bt && (size <=? bt_size bt)) vm in
  let vm := bt_remfree bt vm in
  let '(bt, btnew2, vm) := take_front start bt btnew2 vm in
  let vm := KASSERT (bt_start bt =? start) vm in
  let '(btnew, vm) := take_split size bt btnew vm in
  let vm := match btnew2 with Some b => bt_free b vm | None => vm end in
  let vm := KASSERT (size <=? bt_size btnew) vm in
  (bt_start btnew, KASSERT (Z.land (bt_start btnew) (vm_quantum_mask vm) =? 0) vm).

(** Give back the tags and fail. *)
Definition xalloc_fail (btnew btnew2 : bt_t) (s : vsys) : Z * Z * vsys :=
  (ENOMEM, 0, on_vm (fun vm => bt_free btnew2 (bt_free btnew vm)) s).

(** The labels retry_strat and retry. *)
Fixpoint xalloc_loop (fuel : nat) (r : request) (flags : vm_flag_t) (instant : bool) (btnew btnew2 : bt_t) (s : vsys) :
    option (Z * Z * vsys) :=
  match fuel with
  | O => None
  | S fuel =>
      let '(found, ok) := search (v_vm s) r instant in
      let s := on_vm (KASSERT ok) s in
      match found with
      | Some (id, start) =>
          let '(addr, vm) := xalloc_take id start (rq_size r) btnew btnew2 (v_vm s) in
          Some (0, addr, set_v_vm vm s)
      | None =>
          if instant then xalloc_loop fuel r flags false btnew btnew2 s
          else if negb (rq_align r =? vm_quantum_mask (v_vm s) + 1) || nz (rq_phase r) || nz (rq_nocross r)
          then Some (xalloc_fail btnew btnew2 s)
          else
            '(e, s) ← vmem_import fuel (rq_size r) flags s;
            if e =? 0 then xalloc_loop fuel r flags false btnew btnew2 s
            else if VM_SLEEP flags then xalloc_loop fuel r flags false btnew btnew2 (unlocked V_wait (vlog V_kick s))
            else Some (xalloc_fail btnew btnew2 s)
      end
  end.

(** The assertions on the arguments. *)
Definition xalloc_args (vm : vmem) (size0 align : Z) (r : request) : bool :=
  (0 <? size0) && (0 <? rq_size r) && (Z.land align (vm_quantum_mask vm) =? 0) && (Z.land align (u64 (align - 1)) =? 0) &&
  (Z.land (rq_phase r) (vm_quantum_mask vm) =? 0) && (Z.land (rq_nocross r) (vm_quantum_mask vm) =? 0) &&
  (Z.land (rq_nocross r) (u64 (rq_nocross r - 1)) =? 0) && ((align =? 0) || (rq_phase r <? align)) &&
  ((rq_phase r =? 0) || (rq_phase r <? align)) && ((rq_nocross r =? 0) || (rq_size r <=? rq_nocross r)) &&
  (rq_min r <=? rq_max r) && negb (VMEM_CROSS_P (rq_phase r) (u64 (rq_phase r + rq_size r - 1)) (rq_nocross r)).

Definition vmem_xalloc (fuel : nat) (size0 align phase nocross minaddr maxaddr : Z) (flags : vm_flag_t) (s : vsys) :
    option (Z * Z * vsys) :=
  let size := vmem_roundup_size (v_vm s) size0 in
  let r := mk_req size (if align =? 0 then vm_quantum_mask (v_vm s) + 1 else align) phase nocross minaddr maxaddr in
  let s := on_vm (KASSERT (xalloc_args (v_vm s) size0 align r)) s in
  '(btnew, s) ← bt_alloc fuel flags s;
  match btnew with
  | None => Some (ENOMEM, 0, s)
  | Some btnew =>
      '(btnew2, s) ← bt_alloc fuel flags s;
      match btnew2 with
      | None => Some (ENOMEM, 0, on_vm (bt_free btnew) s)
      | Some btnew2 => xalloc_loop fuel r flags (VM_INSTANTFIT flags) btnew btnew2 s
      end
  end.

Definition vmem_xalloc_addr (fuel : nat) (addr size : Z) (flags : vm_flag_t) (s : vsys) : option (Z * vsys) :=
  let s := on_vm (KASSERT ((Z.land addr (vm_quantum_mask (v_vm s)) =? 0) && nz size)) s in
  '(e, result, s) ← vmem_xalloc fuel size 0 0 0 addr (u64 (addr + size - 1)) (mk_vmf (VM_SLEEP flags) false (VM_POPULATING flags)) s;
  Some (e, on_vm (KASSERT ((nz e || (result =? addr)) && ((e =? 0) || negb (VM_SLEEP flags)))) s).

(** ** Release *)

(** With the tag after it. *)
Definition coalesce_next (bt : bt_t) (vm : vmem) : bt_t * vmem :=
  match TAILQ_NEXT bt vm with
  | Some t =>
      if is_type BT_TYPE_FREE t then
        let vm := KASSERT (BT_END bt <? bt_start t) vm in
        let vm := bt_remseg t (bt_remfree t vm) in
        let bt := set_bt_size (u64 (bt_size bt + bt_size t)) bt in
        (bt, bt_free t (put_tag bt vm))
      else (bt, vm)
  | None => (bt, vm)
  end.

(** With the tag before it. *)
Definition coalesce_prev (bt : bt_t) (vm : vmem) : bt_t * vmem :=
  match TAILQ_PREV bt vm with
  | Some t =>
      if is_type BT_TYPE_FREE t then
        let vm := KASSERT (BT_END t <? bt_start bt) vm in
        let vm := bt_remseg t (bt_remfree t vm) in
        let bt := set_bt_start (bt_start t) (set_bt_size (u64 (bt_size bt + bt_size t)) bt) in
        (bt, bt_free t (put_tag bt vm))
      else (bt, vm)
  | None => (bt, vm)
  end.

Definition vmem_xfree_bt (bt : bt_t) (s : vsys) : vsys :=
  let vm := v_vm s in
  let vm := KASSERT (is_type BT_TYPE_BUSY bt) vm in
  let vm := bt_rembusy bt vm in
  let bt := set_bt_type BT_TYPE_FREE bt in
  let vm := put_tag bt vm in
  let '(bt, vm) := coalesce_next bt vm in
  let '(bt, vm) := coalesce_prev bt vm in
  match TAILQ_PREV bt vm with
  | None => set_v_vm (KASSERT false vm) s
  | Some t =>
      let vm := KASSERT (BT_ISSPAN_P t || is_type BT_TYPE_BUSY t) vm in
      if vm_releasefn vm && is_type BT_TYPE_SPAN t && (bt_size t =? bt_size bt) then
        let vm := KASSERT (bt_start t =? bt_start bt) vm in
        let vm := bt_free bt (bt_remseg bt vm) in
        let vm := bt_free t (bt_remseg t vm) in
        let vm := set_vm_size (u64 (vm_size vm - bt_size bt)) vm in
        let s := bt_freetrim BT_MAXFREE (vlog V_broadcast (set_v_vm vm s)) in
        vlog (V_release (bt_start bt) (bt_size bt)) s
      else
        let vm := bt_insfree bt vm in
        bt_freetrim BT_MAXFREE (vlog V_broadcast (set_v_vm vm s))
  end.

Definition vmem_xfree (addr size : Z) (s : vsys) : vsys :=
  let vm := v_vm s in
  let vm := KASSERT ((0 <? size) && (Z.land addr (vm_quantum_mask vm) =? 0)) vm in
  match bt_lookupbusy vm addr with
  | None => set_v_vm (KASSERT false vm) s
  | Some bt =>
      let rs := vmem_roundup_size vm size in
      let vm := KASSERT ((bt_start bt =? addr) && ((bt_size bt =? rs) || (u64 (bt_size bt - rs) <=? vm_quantum_mask vm))) vm in
      vmem_xfree_bt bt (set_v_vm vm s)
  end.

(** Until no tag is busy; [None] out of fuel. *)
Fixpoint vmem_xfreeall (fuel : nat) (s : vsys) : option vsys :=
  match List.find (is_type BT_TYPE_BUSY) (vm_seglist (v_vm s)) with
  | None => Some s
  | Some bt => match fuel with
               | O => None
               | S fuel => vmem_xfreeall fuel (unlocked V_relock (vmem_xfree_bt bt s))
               end
  end.

Definition vmem_size_of (what : Z) (vm : vmem) : option Z :=
  match what with
  | 1 => Some (vm_inuse vm)                          (* VMEM_ALLOC *)
  | 2 => Some (u64 (vm_size vm - vm_inuse vm))       (* VMEM_FREE *)
  | 3 => Some (vm_size vm)
  | _ => None
  end.

(** ** The quantum cache *)

Definition qc_index (vm : vmem) (size : Z) : Z := Z.shiftr (u64 (size + vm_quantum_mask vm)) (vm_quantum_shift vm).

Definition vmem_alloc (fuel : nat) (size : Z) (flags : vm_flag_t) (s : vsys) : option (Z * Z * vsys) :=
  let s := on_vm (KASSERT (0 <? size)) s in
  '(e, addr, s) ← (if size <=? vm_qcache_max (v_vm s) then
      let qidx := qc_index (v_vm s) size in
      match vo_qcache (v_log s) qidx with
      | Some addr => Some (0, addr, unlocked (V_qcache_get qidx) s)
      | None => Some (ENOMEM, 0, unlocked (V_qcache_get qidx) s)
      end
    else vmem_xalloc fuel size 0 0 0 VMEM_ADDR_MIN VMEM_ADDR_MAX flags s);
  Some (e, addr, on_vm (fun vm => KASSERT ((nz e || (Z.land addr (vm_quantum_mask vm) =? 0)) &&
                                           ((e =? 0) || negb (VM_SLEEP flags))) vm) s).

Definition vmem_free (addr size : Z) (s : vsys) : vsys :=
  let s := on_vm (fun vm => KASSERT ((0 <? size) && (Z.land addr (vm_quantum_mask vm) =? 0)) vm) s in
  if size <=? vm_qcache_max (v_vm s) then unlocked (V_qcache_put (qc_index (v_vm s) size) addr) s
  else vmem_xfree addr size s.

(** ** Creation and destruction *)

(** The fields; the cap on the quantum cache is that of qc_init. *)
Definition vmem_init_fields (importfn releasefn largeimport ximport privtags : bool) (quantum qcache_max VMEM_QCACHE_IDX_MAX : Z) : vmem :=
  let shift := SIZE2ORDER quantum in
  let cap := u64 (Z.shiftl VMEM_QCACHE_IDX_MAX shift) in
  mk_vm importfn releasefn largeimport ximport privtags (quantum - 1) shift [] (repeat [] VMEM_MAXORDER) [[]] [] 0 0 0 0 0
    (if cap <? qcache_max then cap else qcache_max)
    ((0 <? quantum) && (Z.land quantum (quantum - 1) =? 0) && (ORDER2SIZE shift =? quantum) &&
     (Z.land qcache_max (quantum - 1) =? 0)).

(** The tags on the hash. *)
Definition destroy_one (vm : vmem) (id : nat) : vmem :=
  let bt := tag vm id in
  let vm := KASSERT (is_type BT_TYPE_SPAN_STATIC bt) vm in
  bt_free bt (set_vm_hashlist (map (drop_id id) (vm_hashlist vm)) vm).

Definition vmem_destroy1 (s : vsys) : vsys :=
  bt_freetrim 0 (on_vm (fun vm => fold_left destroy_one (concat (vm_hashlist vm)) vm) s).

(** The arena [vm] of fields; whether there is one, [bootstrap]: VM_BOOTSTRAP. *)
Definition vmem_init (fuel : nat) (vm : vmem) (base size : Z) (bootstrap : bool) (flags : vm_flag_t) (s : vsys) : option (bool * vsys) :=
  let s := set_v_vm (KASSERT (negb (vm_privtags vm) || (size =? 0)) vm) s in
  '(e, s) ← (if nz size then vmem_add fuel base size flags s else Some (0, s));
  if nz e then Some (false, vmem_destroy1 s) else
  if bootstrap then '(_, s) ← bt_refill_locked fuel s; Some (true, s) else Some (true, s).

(** ** Rehashing *)

(** One busy tag from the old hash to the new one. *)
Definition rehash_one (vm : vmem) (id : nat) : vmem := bt_insbusy (tag vm id) (bt_rembusy (tag vm id) vm).

(** [got]: kmem_alloc gave memory.  vmem_rehash_all asks for at most
    VMEM_HASHSIZE_MAX, so the int shifted left does not overflow. *)
Definition vmem_rehash (newhashsize : Z) (got : bool) (vm : vmem) : Z * vmem :=
  let newhashsize := Z.shiftl 1 (Z.log2 newhashsize + 1) in
  if negb got then (ENOMEM, vm) else
  let vm := if 2 <=? vm_maxbusytag vm then
              let m := vm_maxbusytag vm / 2 - 1 in
              set_vm_maxbusytag (if m <? vm_nbusytag vm then vm_nbusytag vm else m) vm
            else set_vm_maxbusytag (vm_nbusytag vm) vm in
  let old := concat (vm_hashlist vm) in
  (0, fold_left rehash_one old (set_vm_hashlist (repeat [] (Z.to_nat newhashsize)) vm)).

Definition VMEM_HASHSIZE_MIN : Z := 1.
Definition VMEM_HASHSIZE_MAX : Z := 65536.

(** What vmem_rehash_all wants of an arena. *)
Definition rehash_desired (vm : vmem) : option Z :=
  let desired := vm_maxbusytag vm in
  let current := Z.of_nat (length (vm_hashlist vm)) in
  let desired := if VMEM_HASHSIZE_MAX <? desired then VMEM_HASHSIZE_MAX
                 else if desired <? VMEM_HASHSIZE_MIN then VMEM_HASHSIZE_MIN else desired in
  if (current * 2 <? desired) || (desired * 2 <? current) then Some desired else None.

End out.
End vmem.
