(* ===== verification/VmemFit.v ===== *)
(** * Fitting a request into a block

    The bit arithmetic of VMEM_ALIGNUP and VMEM_CROSS_P on 64-bit words as
    division and remainder, what a placement has to satisfy, and that vmem_fit of
    kernel/kern/subr_vmem.c finds the least one. *)

From Stdlib Require Import ZArith Lia.
From stdpp Require Import base numbers list.
From S2P Require Import Prelude Vmem.

(** ** Powers of two *)

Lemma u64_neg d : 0 < d <= 2 ^ 64 -> u64 (- d) = 2 ^ 64 - d.
Proof.
  intros Hd. unfold u64. replace (- d) with (2 ^ 64 - d + (-1) * 2 ^ 64) by lia. rewrite Z.mod_add, Z.mod_small; lia.
Qed.

Section pow2.
Context (k : Z) (Hk : 0 <= k < 64).

Lemma pow2_range : 0 < 2 ^ k <= 2 ^ 63.
Proof. split; [lia | apply Z.pow_le_mono_r; lia]. Qed.

(** The mask [-(2^k)] as a word clears the low bits. *)
Lemma neg_pow2 : u64 (- 2 ^ k) = Z.ldiff (Z.ones 64) (Z.ones k).
Proof.
  pose proof pow2_range. rewrite Z.ldiff_ones_r, Z.shiftl_mul_pow2, Z.shiftr_div_pow2 by lia.
  rewrite u64_neg by lia.
  assert (2 ^ 64 = 2 ^ (64 - k) * 2 ^ k) as E by (rewrite <-Z.pow_add_r by lia; f_equal; lia).
  rewrite Z.ones_equiv. replace (Z.pred (2 ^ 64)) with ((2 ^ (64 - k) - 1) * 2 ^ k + (2 ^ k - 1)) by lia.
  rewrite Z.div_add_l, (Z.div_small (2 ^ k - 1)) by lia. lia.
Qed.

Lemma land_neg_pow2 x : in_u64 x -> Z.land x (u64 (- 2 ^ k)) = x - x mod 2 ^ k.
Proof.
  intros Hx. rewrite neg_pow2. rewrite !Z.ldiff_land, Z.land_assoc, Z.land_ones, Z.mod_small by (unfold in_u64 in *; lia).
  rewrite <-Z.ldiff_land, Z.ldiff_ones_r, Z.shiftl_mul_pow2, Z.shiftr_div_pow2 by lia.
  pose proof (Z.div_mod x (2 ^ k)). lia.
Qed.

(** VMEM_ALIGNUP on a word, when the next multiple is a word. *)
Lemma alignup_spec a : in_u64 a -> a + 2 ^ k <= 2 ^ 64 -> VMEM_ALIGNUP a (2 ^ k) = (a + 2 ^ k - 1) / 2 ^ k * 2 ^ k.
Proof.
  intros Ha Hb. pose proof pow2_range. unfold VMEM_ALIGNUP. rewrite land_neg_pow2 by apply u64_range.
  unfold in_u64 in Ha. assert (2 ^ 64 = 2 ^ (64 - k) * 2 ^ k) as E by (rewrite <-Z.pow_add_r by lia; f_equal; lia).
  destruct (decide (a = 0)) as [-> | Hnz].
  { replace (u64 (-0)) with 0 by reflexivity. rewrite Zmod_0_l. replace (u64 (- (0 - 0))) with 0 by reflexivity.
    rewrite Z.div_small by lia. lia. }
  rewrite (u64_neg a) by lia.
  set (c := (a + 2 ^ k - 1) / 2 ^ k).
  assert (c * 2 ^ k - 2 ^ k < a <= c * 2 ^ k) as Hc.
  { unfold c. pose proof (Z.div_mod (a + 2 ^ k - 1) (2 ^ k)). pose proof (Z.mod_pos_bound (a + 2 ^ k - 1) (2 ^ k)). lia. }
  replace ((2 ^ 64 - a) mod 2 ^ k) with (c * 2 ^ k - a).
  2:{ rewrite E. replace (2 ^ (64 - k) * 2 ^ k - a) with ((c * 2 ^ k - a) + (2 ^ (64 - k) - c) * 2 ^ k) by lia.
      rewrite Z.mod_add, Z.mod_small by lia. done. }
  rewrite u64_neg; lia.
Qed.

(** A word just below zero aligns up to zero. *)
Lemma alignup_wrap d : 0 < d < 2 ^ k -> VMEM_ALIGNUP (u64 (- d)) (2 ^ k) = 0.
Proof.
  intros Hd. pose proof pow2_range. unfold VMEM_ALIGNUP. rewrite land_neg_pow2 by apply u64_range.
  replace (u64 (- u64 (- d))) with d; [by rewrite (Z.mod_small d), Z.sub_diag by lia|].
  rewrite (u64_neg d), u64_neg by lia. lia.
Qed.

Lemma cross_spec a b : in_u64 a -> in_u64 b -> VMEM_CROSS_P a b (2 ^ k) = negb (a / 2 ^ k =? b / 2 ^ k).
Proof.
  intros Ha Hb. unfold VMEM_CROSS_P. rewrite land_neg_pow2.
  2:{ unfold in_u64 in *. split; [apply Z.lxor_nonneg; lia|].
      destruct (decide (Z.lxor a b = 0)) as [-> | Hnz]; [lia|].
      assert (0 <= Z.lxor a b) by (apply Z.lxor_nonneg; lia).
      apply Z.log2_lt_pow2; [lia|]. eapply Z.le_lt_trans; [apply Z.log2_lxor; lia|].
      apply Z.max_lub_lt; (destruct (decide (a = 0)), (decide (b = 0)); subst; try (simpl; lia)); apply Z.log2_lt_pow2; lia. }
  unfold nz. f_equal. apply eq_true_iff_eq. rewrite !Z.eqb_eq.
  assert (Z.lxor a b / 2 ^ k = Z.lxor (a / 2 ^ k) (b / 2 ^ k)) as E.
  { by rewrite <-!Z.shiftr_div_pow2, Z.shiftr_lxor by lia. }
  rewrite <-(Z.lxor_eq_0_iff (a / 2 ^ k)), <-E.
  pose proof (Z.div_mod (Z.lxor a b) (2 ^ k)). pose proof pow2_range. split; nia.
Qed.

End pow2.

Lemma cross_none a b : VMEM_CROSS_P a b 0 = false.
Proof. unfold VMEM_CROSS_P. by rewrite Z.land_0_r. Qed.

(** The least number from [x] on that is [p] modulo [a]. *)
Definition align_from (x a p : Z) : Z := (x - p + a - 1) / a * a + p.

Lemma align_from_spec x a p : 0 < a -> 0 <= p < a ->
  x <= align_from x a p < x + a /\ align_from x a p mod a = p.
Proof.
  intros Ha Hp. unfold align_from. split.
  - pose proof (Z.div_mod (x - p + a - 1) a). pose proof (Z.mod_pos_bound (x - p + a - 1) a). nia.
  - rewrite Z.add_comm, Z.mod_add, Z.mod_small; lia.
Qed.

Lemma align_from_least x a p y : 0 < a -> 0 <= p < a -> x <= y -> y mod a = p -> align_from x a p <= y.
Proof.
  intros Ha Hp Hy Hm. destruct (align_from_spec x a p Ha Hp) as [[H1 H2] H3].
  pose proof (Z.div_mod y a). pose proof (Z.div_mod (align_from x a p) a).
  assert (align_from x a p / a <= y / a) by nia. nia.
Qed.

(** The step of vmem_fit that aligns: a start below the phase wraps and comes
    back to the phase. *)
Lemma align_step k x p : 0 <= k < 64 -> 0 <= p < 2 ^ k -> 0 <= x -> x + 2 ^ k <= 2 ^ 64 ->
  u64 (VMEM_ALIGNUP (u64 (x - p)) (2 ^ k) + p) = align_from x (2 ^ k) p.
Proof.
  intros Hk Hp Hx Hb. pose proof (pow2_range k Hk). destruct (align_from_spec x (2 ^ k) p) as [Hr _]; [lia..|].
  destruct (decide (p <= x)).
  - rewrite (u64_id (x - p)) by (unfold in_u64; lia). rewrite alignup_spec by (unfold in_u64; lia).
    fold (align_from x (2 ^ k) p). apply u64_id. unfold in_u64. lia.
  - replace (x - p) with (- (p - x)) by lia. rewrite alignup_wrap by lia. unfold align_from.
    rewrite Z.div_small by lia. apply u64_id. unfold in_u64; lia.
Qed.

(** ** What a placement has to satisfy *)

Record placed (r : request) (a : Z) : Prop := {
  pl_min : rq_min r <= a;
  pl_max : a + rq_size r - 1 <= rq_max r;
  pl_align : a mod rq_align r = rq_phase r;
  pl_cross : rq_nocross r = 0 \/ a / rq_nocross r = (a + rq_size r - 1) / rq_nocross r
}.

Definition inside (bt : bt_t) (a size : Z) : Prop := bt_start bt <= a /\ a + size <= bt_start bt + bt_size bt.

(** What the assertions at the head of vmem_xalloc say of a request. *)
Record req_ok (r : request) : Prop := {
  ro_size : 0 < rq_size r < 2 ^ 64;
  ro_align : exists k, 0 <= k < 64 /\ rq_align r = 2 ^ k;
  ro_phase : 0 <= rq_phase r < rq_align r;
  ro_nocross : rq_nocross r = 0 \/ exists j, 0 <= j < 64 /\ rq_nocross r = 2 ^ j /\
    rq_phase r / rq_nocross r = (rq_phase r + rq_size r - 1) / rq_nocross r;
  ro_min : 0 <= rq_min r;
  ro_max : rq_max r < 2 ^ 64
}.

(** A block of addresses that leaves room for aligning its end. *)
Record blk_ok (r : request) (bt : bt_t) : Prop := {
  bo_start : 0 <= bt_start bt;
  bo_size : 0 < bt_size bt;
  bo_room : bt_start bt + bt_size bt + rq_align r + rq_nocross r <= 2 ^ 64
}.

(** ** The boundary not to be crossed *)

Lemma pow2_multiple i j : 0 <= i <= j -> exists c, 0 < c /\ 2 ^ j = c * 2 ^ i.
Proof.
  intros H. exists (2 ^ (j - i)). split; [lia|]. rewrite <-Z.pow_add_r by lia. f_equal. lia.
Qed.

Section cross.
Context (k j p size s : Z) (Hk : 0 <= k) (Hj : 0 <= j).
Context (Hp : 0 <= p < 2 ^ k) (Hsz : 0 < size) (Hs : 0 <= s).
Context (Hph : p / 2 ^ j = (p + size - 1) / 2 ^ j).
Context (Hal : s mod 2 ^ k = p).

(** Where the alignment is at least the boundary, an aligned start does not
    cross: the assertion of vmem_fit. *)
Lemma aligned_within : j <= k -> s / 2 ^ j = (s + size - 1) / 2 ^ j.
Proof.
  intros Hjk. destruct (pow2_multiple j k) as (c & Hc & E); [lia|].
  pose proof (Z.div_mod s (2 ^ k)) as Es. rewrite Hal in Es.
  replace s with (p + s / 2 ^ k * c * 2 ^ j) by nia.
  replace (p + s / 2 ^ k * c * 2 ^ j + size - 1) with (p + size - 1 + s / 2 ^ k * c * 2 ^ j) by lia.
  rewrite !Z.div_add by lia. lia.
Qed.

Context (Hkj : k < j).

Lemma phase_window : p + size - 1 < 2 ^ j.
Proof.
  assert (2 ^ k <= 2 ^ j) by (apply Z.pow_le_mono_r; lia). rewrite Z.div_small in Hph by lia.
  symmetry in Hph. apply Z.div_small_iff in Hph; lia.
Qed.

Lemma moved_ok : let s' := align_from s (2 ^ j) p in
  s' mod 2 ^ k = p /\ s' / 2 ^ j = (s' + size - 1) / 2 ^ j.
Proof.
  pose proof phase_window. destruct (pow2_multiple k j) as (c & Hc & E); [lia|].
  unfold align_from. set (m := (s - p + 2 ^ j - 1) / 2 ^ j). simpl. split.
  - rewrite E. replace (m * (c * 2 ^ k) + p) with (p + m * c * 2 ^ k) by lia. rewrite Z.mod_add, Z.mod_small; lia.
  - replace (m * 2 ^ j + p + size - 1) with (m * 2 ^ j + (p + size - 1)) by lia.
    rewrite !Z.div_add_l, !Z.div_small; lia.
Qed.

Lemma moved_least b : s / 2 ^ j <> (s + size - 1) / 2 ^ j ->
  s <= b -> b mod 2 ^ k = p -> b / 2 ^ j = (b + size - 1) / 2 ^ j -> align_from s (2 ^ j) p <= b.
Proof.
  intros Hx Hb Hm Hw. pose proof phase_window. destruct (pow2_multiple k j) as (c & Hc & E); [lia|].
  set (w := s / 2 ^ j + 1).
  assert (s < w * 2 ^ j) as Hs1 by (unfold w; pose proof (Z.mul_succ_div_gt s (2 ^ j)); lia).
  assert (w * 2 ^ j <= b) as Hb1.
  { destruct (decide (w <= b / 2 ^ j)) as [Hle | Hgt]; [pose proof (Z.mul_div_le b (2 ^ j)); nia|].
    exfalso. apply Hx. assert (b / 2 ^ j = s / 2 ^ j) as Eb by (pose proof (Z.div_le_mono s b (2 ^ j)); lia).
    apply Z.le_antisymm; [apply Z.div_le_mono; lia|].
    rewrite <-Eb, Hw. apply Z.div_le_mono; lia. }
  assert (w * 2 ^ j + p <= b) as Hb2.
  { pose proof (Z.div_mod b (2 ^ k)). rewrite E in Hb1 |- *. assert (w * c <= b / 2 ^ k) by nia. nia. }
  etrans; [|exact Hb2]. apply align_from_least; [lia..|].
  rewrite Z.add_comm, Z.mod_add, Z.mod_small; [lia | | lia].
  assert (2 ^ k <= 2 ^ j) by (apply Z.pow_le_mono_r; lia). lia.
Qed.

End cross.

(** ** vmem_fit *)

Section fit.
Context (r : request) (bt : bt_t) (Hr : req_ok r) (Hb : blk_ok r bt) (Hsz : rq_size r <= bt_size bt).

Notation lo := (Z.max (bt_start bt) (rq_min r)).
Notation hi := (Z.min (bt_start bt + bt_size bt - 1) (rq_max r)).
Notation s1 := (align_from lo (rq_align r) (rq_phase r)).

(** The start that vmem_fit tries, the crossing test on words included. *)
Definition fit_start : Z :=
  if VMEM_CROSS_P s1 (u64 (s1 + rq_size r - 1)) (rq_nocross r)
  then align_from s1 (rq_nocross r) (rq_phase r) else s1.

Lemma fit_cond b : inside bt b (rq_size r) /\ placed r b <->
  lo <= b /\ b + rq_size r - 1 <= hi /\ b mod rq_align r = rq_phase r /\
  (rq_nocross r = 0 \/ b / rq_nocross r = (b + rq_size r - 1) / rq_nocross r).
Proof.
  split.
  - intros [[? ?] [? ? ? ?]]. repeat split; [lia | lia | done | done].
  - intros (? & ? & ? & ?). split; split; (done || lia).
Qed.

Context (Hne : lo <= hi).

Lemma s1_facts : lo <= s1 < lo + rq_align r /\ s1 mod rq_align r = rq_phase r /\ 0 <= s1 /\ s1 + rq_nocross r < 2 ^ 64.
Proof.
  destruct Hr as [? (k & Hk & Ek) ? ? ? ?], Hb as [? ? ?]. pose proof (pow2_range k Hk).
  destruct (align_from_spec lo (rq_align r) (rq_phase r)) as [? ?]; [lia..|]. repeat split; try done; lia.
Qed.

(** Where a crossing is seen, the assertion of vmem_fit holds and the moved start
    is a word. *)
Lemma cross_moves : VMEM_CROSS_P s1 (u64 (s1 + rq_size r - 1)) (rq_nocross r) = true ->
  exists k j, 0 <= k < j /\ j < 64 /\ rq_align r = 2 ^ k /\ rq_nocross r = 2 ^ j /\
    rq_phase r / 2 ^ j = (rq_phase r + rq_size r - 1) / 2 ^ j.
Proof.
  destruct s1_facts as (Hs & Hm & H0 & Hn). remember s1 as s eqn:Es.
  destruct Hr as [? (k & Hk & Ek) ? [Enc | (j & Hj & Ej & Hph)] ? ?]; [by rewrite Enc, cross_none|].
  rewrite Ej in Hph |- *. intros Hc. exists k, j. destruct (decide (j <= k)) as [Hle | ?]; [exfalso | by repeat split; lia].
  rewrite Ek in Hm. pose proof (aligned_within k j (rq_phase r) (rq_size r) s) as Hw.
  specialize (Hw ltac:(lia) ltac:(lia) Hph Hm Hle). rewrite cross_spec in Hc by (unfold in_u64; (lia || apply u64_range)).
  assert (s + rq_size r - 1 < 2 ^ 64) as Hlt.
  { destruct (pow2_multiple j 64) as (c & Hc0 & E64); [lia|].
    assert (s / 2 ^ j < c) by (apply Z.div_lt_upper_bound; lia).
    rewrite E64, (Z.mul_comm c). eapply Z.lt_le_trans; [apply (Z.mul_succ_div_gt (s + rq_size r - 1) (2 ^ j)); lia|].
    rewrite <-Hw. apply Z.mul_le_mono_nonneg_l; lia. }
  rewrite u64_id, Hw, Z.eqb_refl in Hc by (unfold in_u64; lia). discriminate Hc.
Qed.

Lemma fit_start_ok : lo <= fit_start < 2 ^ 64 /\ fit_start mod rq_align r = rq_phase r.
Proof.
  destruct s1_facts as (Hs & Hm & H0 & Hn). unfold fit_start. destruct (VMEM_CROSS_P _ _ _) eqn:Hc.
  - destruct (cross_moves Hc) as (k & j & ? & ? & Ek & Ej & Hph). destruct Hr as [? _ Hp _ _ _].
    remember s1 as s eqn:Es. rewrite Ek, Ej in *. destruct (moved_ok k j (rq_phase r) (rq_size r) s) as [? ?]; [lia..|].
    assert (2 ^ k <= 2 ^ j) by (apply Z.pow_le_mono_r; lia).
    destruct (align_from_spec s (2 ^ j) (rq_phase r)); [lia..|]. split; [lia | done].
  - destruct Hr as [? _ _ [? | (j & ? & ? & ?)] _ _]; [split; [lia | done]|]. split; [lia | done].
Qed.

(** It is before every placement. *)
Lemma fit_start_least b : inside bt b (rq_size r) /\ placed r b -> fit_start <= b.
Proof.
  rewrite fit_cond. intros (Hlo & Hhi & Hal & Hx). destruct s1_facts as (Hs & Hm & H0 & Hn).
  assert (s1 <= b) as Hs1 by (destruct Hr as [? (? & ? & ?) ? ? ? ?]; apply align_from_least; lia).
  unfold fit_start. destruct (VMEM_CROSS_P _ _ _) eqn:Hc; [|done].
  destruct (cross_moves Hc) as (k & j & ? & ? & Ek & Ej & Hph).
  destruct Hr as [? _ Hp _ _ ?], Hb as [? ? ?]. remember s1 as s eqn:Es. rewrite u64_id in Hc by (unfold in_u64; lia).
  rewrite Ej, cross_spec in Hc by (unfold in_u64; lia). apply negb_true_iff, Z.eqb_neq in Hc.
  rewrite Ej in Hx |- *. destruct Hx as [? | Hx]; [lia|]. rewrite Ek in Hp, Hm, Hal.
  apply (moved_least k j _ (rq_size r)); (done || lia).
Qed.

(** It does not cross, as long as its block of addresses is one of words. *)
Lemma fit_start_within : fit_start + rq_size r - 1 < 2 ^ 64 ->
  rq_nocross r = 0 \/ fit_start / rq_nocross r = (fit_start + rq_size r - 1) / rq_nocross r.
Proof.
  destruct s1_facts as (Hs & Hm & H0 & Hn). unfold fit_start. destruct (VMEM_CROSS_P _ _ _) eqn:Hc; intros Hw.
  - destruct (cross_moves Hc) as (k & j & ? & ? & Ek & Ej & Hph). destruct Hr as [? _ Hp _ _ _]. right.
    remember s1 as s eqn:Es. rewrite Ej. rewrite Ek in Hp, Hm.
    destruct (moved_ok k j (rq_phase r) (rq_size r) s) as [? ?]; (done || lia).
  - destruct Hr as [? _ Hp [? | (j & Hj & Ej & Hph)] _ _]; [by left | right].
    rewrite u64_id in Hc by (unfold in_u64; lia). rewrite Ej, cross_spec in Hc by (unfold in_u64; lia).
    rewrite Ej. apply negb_false_iff, Z.eqb_eq in Hc. done.
Qed.

(** The words that vmem_fit computes. *)
Lemma fit_words :
  let s := u64 (VMEM_ALIGNUP (u64 (lo - rq_phase r)) (rq_align r) + rq_phase r) in
  let s := if s <? bt_start bt then u64 (s + rq_align r) else s in
  let cross := VMEM_CROSS_P s (u64 (s + rq_size r - 1)) (rq_nocross r) in
  negb cross || (rq_align r <? rq_nocross r) = true /\
  (if cross then u64 (VMEM_ALIGNUP (u64 (s - rq_phase r)) (rq_nocross r) + rq_phase r) else s) = fit_start.
Proof.
  destruct s1_facts as (Hs & Hm & H0 & Hn). pose proof cross_moves as Hc.
  assert (u64 (VMEM_ALIGNUP (u64 (lo - rq_phase r)) (rq_align r) + rq_phase r) = s1) as ->.
  { destruct Hr as [? (k & Hk & Ek) ? _ ? ?], Hb as [? ? ?]. rewrite Ek in *. pose proof (pow2_range k Hk).
    assert (0 <= rq_nocross r) by (destruct Hr as [_ _ _ [-> | (j & ? & -> & _)] _ _]; lia).
    apply align_step; lia. }
  cbv zeta. destruct (Z.ltb_spec s1 (bt_start bt)) as [? | _]; [lia|]. unfold fit_start.
  remember s1 as s eqn:Es. destruct (VMEM_CROSS_P s _ _); [|done].
  destruct (Hc eq_refl) as (k & j & ? & ? & Ek & Ej & _). destruct Hr as [_ _ Hp _ _ _]. rewrite Ek, Ej in *.
  assert (2 ^ k < 2 ^ j) by (apply Z.pow_lt_mono_r; lia). split; [by apply Z.ltb_lt | apply align_step; lia].
Qed.

End fit.

Lemma BT_END_eq bt : 0 <= bt_start bt -> 0 < bt_size bt -> bt_start bt + bt_size bt <= 2 ^ 64 ->
  BT_END bt = bt_start bt + bt_size bt - 1.
Proof. intros. apply u64_id. unfold in_u64. lia. Qed.

(** The outcome of vmem_fit: the least placement in the block, or none when there
    is none; its assertions hold. *)
Definition fit_result (r : request) (bt : bt_t) (res : option Z * bool) : Prop :=
  snd res = true /\
  match fst res with
  | Some a => (inside bt a (rq_size r) /\ placed r a) /\ forall b, inside bt b (rq_size r) /\ placed r b -> a <= b
  | None => forall b, ~ (inside bt b (rq_size r) /\ placed r b)
  end.

Lemma fit_bt_spec r bt : req_ok r -> blk_ok r bt -> rq_size r <= bt_size bt -> fit_result r bt (fit_bt r bt).
Proof.
  intros Hr Hb Hsz. pose proof Hr as [Hs0 (k & Hk & Ek) Hp Hn Hmin Hmax]. pose proof Hb as [Hb0 Hb1 Hb2].
  pose proof (pow2_range k Hk) as Hk2.
  assert (0 <= rq_nocross r) by (destruct Hn as [-> | (j & ? & -> & _)]; lia).
  unfold fit_bt, vmem_fit. rewrite BT_END_eq by lia. set (pre := (0 <? rq_size r) && (rq_size r <=? bt_size bt)).
  assert (pre = true) as Epre by (unfold pre; rewrite andb_true_iff, Z.ltb_lt, Z.leb_le; lia).
  replace (if bt_start bt <? rq_min r then rq_min r else bt_start bt) with (Z.max (bt_start bt) (rq_min r)) by (cmp_case; lia).
  replace (if rq_max r <? bt_start bt + bt_size bt - 1 then rq_max r else bt_start bt + bt_size bt - 1)
    with (Z.min (bt_start bt + bt_size bt - 1) (rq_max r)) by (cmp_case; lia).
  destruct (Z.ltb_spec (Z.min (bt_start bt + bt_size bt - 1) (rq_max r)) (Z.max (bt_start bt) (rq_min r))) as [Hlt | Hne].
  { split; [done|]. intros b [[? ?] [? ? ? ?]]. lia. }
  destruct (fit_words r bt Hr Hb Hne) as [Ea Es]. cbv zeta in Ea, Es |- *. rewrite Ea, Es, Epre.
  pose proof (fit_start_ok r bt Hr Hb Hne) as [Hf Hfm]. pose proof (fit_start_least r bt Hr Hb Hsz Hne) as Hl.
  pose proof (fit_start_within r bt Hr Hb Hne) as Hw. clear Ea Es. set (a := fit_start r bt) in *.
  set (lo := Z.max _ _) in *. set (hi := Z.min _ _) in *.
  destruct (Z.leb_spec a hi) as [Hah | Hah]; simpl.
  2:{ split; [done|]. intros b Hb'. pose proof (Hl b Hb'). apply fit_cond in Hb'. lia. }
  rewrite (u64_id (hi - a)) by (unfold in_u64; lia).
  destruct (Z.leb_spec (rq_size r - 1) (hi - a)) as [Hfit | Hfit]; simpl.
  2:{ split; [done|]. intros b Hb'. pose proof (Hl b Hb'). apply fit_cond in Hb'. lia. }
  assert (inside bt a (rq_size r) /\ placed r a) as Hpl.
  { apply fit_cond. repeat split; [lia | lia | done | apply Hw; lia]. }
  split; [|by split]. cbn [snd]. rewrite !(u64_id (a + rq_size r - 1)), (u64_id (_ - a)) by (unfold in_u64; lia).
  rewrite !andb_true_iff, orb_true_iff, negb_true_iff, !Z.leb_le, !Z.eqb_eq.
  repeat split; try lia.
  - rewrite Ek, Z.sub_1_r, <-Z.ones_equiv, Z.land_ones, <-Ek by lia. done.
  - destruct Hn as [-> | (j & Hj & Ej & _)]; [apply cross_none|]. rewrite Ej, cross_spec by (unfold in_u64; lia).
    apply negb_false_iff, Z.eqb_eq. rewrite <-Ej. destruct Hw; [lia | lia | done].
Qed.
