(* ===== verification/VmemBooks.v ===== *)
(** * The books of an arena

    The free lists and the hash of kernel/kern/subr_vmem.c as one kind of index
    over boundary tags, the counters, and the identities of the tags: what each
    primitive does to the set of tags that the books account for. *)

From Stdlib Require Import ZArith Lia.
From stdpp Require Import base numbers list.
From S2P Require Import Prelude Vmem.

(** ** Buckets of identities *)

(** Bucket [i] has, once each, the identities of the tags of [l] whose key is [i]. *)
Record indexed (key : bt_t -> option nat) (bs : list (list nat)) (l : list bt_t) : Prop := {
  ix_nodup : forall i b, bs !! i = Some b -> NoDup b;
  ix_in : forall i b id, bs !! i = Some b -> (id ∈ b <-> exists t, t ∈ l /\ bt_id t = id /\ key t = Some i);
  ix_key : forall t i, t ∈ l -> key t = Some i -> (i < length bs)%nat
}.

Lemma elem_of_drop_id id x l : x ∈ drop_id id l <-> x ∈ l /\ x <> id.
Proof.
  unfold drop_id. rewrite !list_elem_of_In, List.filter_In, negb_true_iff, Nat.eqb_neq. done.
Qed.

Lemma NoDup_drop_id id l : NoDup l -> NoDup (drop_id id l).
Proof. rewrite !NoDup_ListNoDup. apply List.NoDup_filter. Qed.

Section index.
Context (key : bt_t -> option nat).

#[global] Instance indexed_perm bs : Proper ((≡ₚ) ==> iff) (indexed key bs).
Proof.
  assert (forall l l', l ≡ₚ l' -> indexed key bs l -> indexed key bs l') as H.
  { intros l l' Hp [H1 H2 H3]. split; [done | |].
    - intros i b id Hb. rewrite (H2 i b id Hb). by setoid_rewrite Hp.
    - intros t i. rewrite <-Hp. apply H3. }
  intros l l' Hp. split; apply H; [done | by symmetry].
Qed.

Lemma indexed_skip bs t l : key t = None -> indexed key bs (t :: l) <-> indexed key bs l.
Proof.
  intros Hk. split; intros [H1 H2 H3]; split; try done.
  - intros i b id Hb. rewrite (H2 i b id Hb). split; intros (x & Hx & Hi & Hkx); exists x; split_and!; try done; [|by right].
    apply elem_of_cons in Hx as [-> | ?]; [congruence | done].
  - intros x i Hx. apply H3. by right.
  - intros i b id Hb. rewrite (H2 i b id Hb). split; intros (x & Hx & Hi & Hkx); exists x; split_and!; try done; [by right|].
    apply elem_of_cons in Hx as [-> | ?]; [congruence | done].
  - intros x i [-> | ?]%elem_of_cons Hkx; [congruence | by eapply H3].
Qed.

Lemma indexed_remove bs t l : bt_id t ∉ map bt_id l -> indexed key bs (t :: l) ->
  indexed key (map (drop_id (bt_id t)) bs) l.
Proof.
  intros Hf [H1 H2 H3]. split.
  - intros i b Hb. apply list_lookup_fmap_Some in Hb as (b0 & -> & Hb). apply NoDup_drop_id. by eapply H1.
  - intros i b id Hb. apply list_lookup_fmap_Some in Hb as (b0 & -> & Hb). rewrite elem_of_drop_id, (H2 i b0 id Hb). split.
    + intros [(x & [-> | Hx]%elem_of_cons & Hi & Hk) Hne]; [by subst | by exists x].
    + intros (x & Hx & Hi & Hk). split; [exists x; split_and!; [by right | done..]|].
      intros ->. apply Hf. rewrite <-Hi. by apply list_elem_of_fmap_2.
  - intros x i Hx Hk. rewrite length_map. eapply H3; [by right | done].
Qed.

Lemma indexed_insert bs t l i : key t = Some i -> (i < length bs)%nat -> bt_id t ∉ map bt_id l -> indexed key bs l ->
  indexed key (alter (cons (bt_id t)) i bs) (t :: l).
Proof.
  intros Hk Hi Hf [H1 H2 H3].
  assert (forall b, bs !! i = Some b -> bt_id t ∉ b) as Hout.
  { intros b Hb Hin. apply (H2 i b _ Hb) in Hin as (x & Hx & Hid & _). apply Hf. rewrite <-Hid. by apply list_elem_of_fmap_2. }
  split.
  - intros j b. destruct (decide (j = i)) as [-> | Hne].
    + rewrite list_lookup_alter_eq. intros (b0 & Hb & ->)%fmap_Some. apply NoDup_cons. split; [by apply Hout | by eapply H1].
    + rewrite list_lookup_alter_ne by done. apply H1.
  - intros j b id. destruct (decide (j = i)) as [-> | Hne].
    + rewrite list_lookup_alter_eq. intros (b0 & Hb & ->)%fmap_Some. rewrite elem_of_cons, (H2 i b0 id Hb). split.
      * intros [-> | (x & ? & ? & ?)]; [exists t; split_and!; [by left | done..] | exists x; split_and!; [by right | done..]].
      * intros (x & [-> | ?]%elem_of_cons & ? & ?); [by left | right; by exists x].
    + rewrite list_lookup_alter_ne by done. intros Hb. rewrite (H2 j b id Hb). split; intros (x & Hx & ? & ?); exists x; split_and!; try done; [by right|].
      apply elem_of_cons in Hx as [-> | ?]; [congruence | done].
  - intros x j Hx Hkx. rewrite length_alter. apply elem_of_cons in Hx as [-> | Hx]; [congruence | by eapply H3].
Qed.

Lemma indexed_nil n : indexed key (repeat [] n) [].
Proof.
  split.
  - intros i b Hb. apply list_elem_of_lookup_2, list_elem_of_In, List.repeat_spec in Hb as ->. constructor.
  - intros i b id Hb. apply list_elem_of_lookup_2, list_elem_of_In, List.repeat_spec in Hb as ->.
    split; [by intros ?%elem_of_nil | by intros (x & ?%elem_of_nil & _)].
  - by intros t i ?%elem_of_nil.
Qed.

End index.

Lemma indexed_ext key key' bs l : (forall t, t ∈ l -> key t = key' t) -> indexed key bs l -> indexed key' bs l.
Proof.
  intros He [H1 H2 H3]. split; [done | |].
  - intros i b id Hb. rewrite (H2 i b id Hb). split; intros (x & Hx & ? & ?); exists x; split_and!; try done; [by rewrite <-He | by rewrite He].
  - intros t i Ht. rewrite <-He by done. by apply H3.
Qed.

(** ** The books *)

(** A sum over the busy tags. *)
Definition busy_sum (f : bt_t -> Z) (l : list bt_t) : Z :=
  zsum (map (fun t => if is_type BT_TYPE_BUSY t then f t else 0) l).

#[global] Instance busy_sum_perm f : Proper ((≡ₚ) ==> (=)) (busy_sum f).
Proof. unfold busy_sum. induction 1; simpl; lia. Qed.

(** Identities in use: once each, and before the next one of the pool. *)
Definition ids_ok (next : nat) (ids : list nat) : Prop := NoDup ids /\ Forall (fun i => i < next)%nat ids.

#[global] Instance ids_ok_perm next : Proper ((≡ₚ) ==> iff) (ids_ok next).
Proof. intros l l' Hp. unfold ids_ok. by rewrite Hp. Qed.

(** Two lists of identities with the same parts. *)
Ltac ids_perm :=
  apply (proj2 (Permutation_count_occ Nat.eq_dec _ _)); intros ?;
  rewrite ?map_app, ?count_occ_app; cbn [map app count_occ]; rewrite ?map_app, ?count_occ_app;
  repeat case_match; lia.

(** ** Sizes *)

(** What bt_freehead_tofree asserts of a size. *)
Definition size_ok (vm : vmem) (size : Z) : Prop := 0 < size < 2 ^ 64 /\ size mod 2 ^ vm_quantum_shift vm = 0.

Lemma qsize_range vm size : 0 <= vm_quantum_shift vm -> size_ok vm size -> 0 < qsize vm size < 2 ^ 64.
Proof.
  intros Hs [Hr Hm]. unfold qsize. rewrite Z.shiftr_div_pow2 by done. split.
  - apply Z.div_str_pos. split; [lia|]. apply Z.divide_pos_le; [lia|]. by apply Z.mod_divide; [lia|].
  - apply Z.div_lt_upper_bound; [lia|]. nia.
Qed.

Lemma order_range x : 0 < x < 2 ^ 64 -> 0 <= Z.log2 x < 64.
Proof. intros Hx. split; [apply Z.log2_nonneg | apply Z.log2_lt_pow2; lia]. Qed.

Lemma land_mask vm x : 0 <= vm_quantum_shift vm -> vm_quantum_mask vm = 2 ^ vm_quantum_shift vm - 1 ->
  Z.land x (vm_quantum_mask vm) = x mod 2 ^ vm_quantum_shift vm.
Proof. intros H ->. rewrite Z.sub_1_r, <-Z.ones_equiv. by apply Z.land_ones. Qed.

Section books.
Context (hash32 : Z -> Z) (VMEM_MAXORDER : nat).

Definition fkey (shift : Z) (t : bt_t) : option nat :=
  if is_type BT_TYPE_FREE t then Some (Z.to_nat (Z.log2 (Z.shiftr (bt_size t) shift))) else None.

Definition hkey (n : nat) (t : bt_t) : option nat :=
  if is_type BT_TYPE_BUSY t then Some (Z.to_nat (Z.land (u32 (hash32 (bt_start t))) (Z.of_nat n - 1))) else None.

(** The books account for the tags [l]; [out] are the identities in use
    elsewhere. *)
Record books (next : nat) (vm : vmem) (out : list nat) (l : list bt_t) : Prop := {
  bk_asserts : vm_asserts vm = true;
  bk_shift : 0 <= vm_quantum_shift vm < 64;
  bk_mask : vm_quantum_mask vm = 2 ^ vm_quantum_shift vm - 1;
  bk_orders : length (vm_freelist vm) = VMEM_MAXORDER;
  bk_hash : exists h, length (vm_hashlist vm) = (2 ^ h)%nat;
  bk_free : indexed (fkey (vm_quantum_shift vm)) (vm_freelist vm) l;
  bk_busy : indexed (hkey (length (vm_hashlist vm))) (vm_hashlist vm) l;
  bk_nbusy : vm_nbusytag vm = busy_sum (fun _ => 1) l;
  bk_maxbusy : vm_nbusytag vm <= vm_maxbusytag vm;
  bk_inuse : vm_inuse vm = u64 (busy_sum bt_size l);
  bk_ntags : vm_nfreetags vm = Z.of_nat (length (vm_freetags vm));
  bk_ids : ids_ok next (map bt_id l ++ map bt_id (vm_freetags vm) ++ out)
}.

#[global] Instance books_perm next vm : Proper ((≡ₚ) ==> (≡ₚ) ==> iff) (books next vm).
Proof.
  assert (forall o o' l l', o ≡ₚ o' -> l ≡ₚ l' -> books next vm o l -> books next vm o' l') as H.
  { intros o o' l l' Ho Hl []. split; try done; rewrite <-?Ho, <-Hl; done. }
  intros o o' Ho l l' Hl. split; apply H; by (done || symmetry).
Qed.

(** The parts that a change of the segment list, of vm_size or of an assertion
    that holds leaves alone. *)
Lemma books_seglist next vm out l s : books next (set_vm_seglist s vm) out l <-> books next vm out l.
Proof. split; intros []; split; done. Qed.

Lemma books_size next vm out l s : books next (set_vm_size s vm) out l <-> books next vm out l.
Proof. split; intros []; split; done. Qed.

Lemma books_KASSERT next vm out l b : b = true -> books next vm out l -> books next (KASSERT b vm) out l.
Proof. intros -> []. split; try done. simpl. by rewrite andb_true_r. Qed.

(** A tag that no list has moves between the books and outside. *)
Lemma books_span next vm out t l : BT_ISSPAN_P t = true ->
  books next vm (bt_id t :: out) l <-> books next vm out (t :: l).
Proof.
  intros Ht. assert (is_type BT_TYPE_FREE t = false /\ is_type BT_TYPE_BUSY t = false) as [Hf Hb].
  { unfold BT_ISSPAN_P, is_type in *. by destruct (bt_type t). }
  assert (map bt_id (t :: l) ++ map bt_id (vm_freetags vm) ++ out
          ≡ₚ map bt_id l ++ map bt_id (vm_freetags vm) ++ bt_id t :: out) as Hp.
  { simpl. by rewrite !app_assoc, <-Permutation_middle. }
  split; intros []; split; try done; rewrite ?indexed_skip in *; rewrite ?Hp in *;
    unfold fkey, hkey, busy_sum in *; simpl in *; rewrite ?Hf, ?Hb in *; done.
Qed.

Lemma bk_out next vm out l t : books next vm (bt_id t :: out) l -> bt_id t ∉ map bt_id l.
Proof.
  intros []. destruct bk_ids0 as [Hn _]. apply NoDup_app in Hn as (_ & Hn & _). intros Hin. apply (Hn _ Hin).
  rewrite elem_of_app. right. by left.
Qed.

Lemma bk_in next vm out l t : books next vm out (t :: l) -> bt_id t ∉ map bt_id l.
Proof.
  intros []. destruct bk_ids0 as [Hn _]. simpl in Hn. apply NoDup_cons in Hn as [Hn _].
  intros Hin. apply Hn. rewrite elem_of_app. by left.
Qed.

Lemma books_bt_free next vm out l t : books next vm (bt_id t :: out) l -> books next (bt_free t vm) out l.
Proof.
  intros []. split; try done; simpl; [lia|].
  assert (map bt_id l ++ bt_id t :: map bt_id (vm_freetags vm) ++ out
          ≡ₚ map bt_id l ++ map bt_id (vm_freetags vm) ++ bt_id t :: out) as -> by apply Permutation_app_head, Permutation_middle.
  done.
Qed.

(** *** The free lists *)

Lemma books_remfree next vm out t l : is_type BT_TYPE_FREE t = true -> books next vm out (t :: l) ->
  books next (bt_remfree t vm) (bt_id t :: out) l.
Proof.
  intros Hf Hbk. pose proof (bk_in _ _ _ _ _ Hbk) as Hin. destruct Hbk.
  assert (is_type BT_TYPE_BUSY t = false) as Hb by (unfold is_type in *; by destruct (bt_type t)).
  split; try done; simpl in *.
  - by rewrite bk_asserts0, Hf.
  - by rewrite length_map.
  - by apply indexed_remove.
  - rewrite indexed_skip in bk_busy0; [done|]. unfold hkey. by rewrite Hb.
  - rewrite bk_nbusy0. unfold busy_sum. simpl. by rewrite Hb.
  - rewrite bk_inuse0. unfold busy_sum. simpl. by rewrite Hb.
  - rewrite app_assoc, <-Permutation_middle, <-app_assoc. done.
Qed.

Context (Horder : (64 <= VMEM_MAXORDER)%nat).

Lemma tofree_spec vm size : 0 <= vm_quantum_shift vm -> vm_quantum_mask vm = 2 ^ vm_quantum_shift vm - 1 -> size_ok vm size ->
  bt_freehead_tofree VMEM_MAXORDER vm size = (Z.to_nat (Z.log2 (qsize vm size)), true).
Proof.
  intros Hs Hm Hok. pose proof (qsize_range vm size Hs Hok) as Hq. pose proof (order_range _ Hq) as Ho. destruct Hok as [Hr Hd].
  unfold bt_freehead_tofree, SIZE2ORDER. f_equal. rewrite land_mask, Hd by done. unfold nz.
  rewrite !andb_true_iff, !negb_true_iff, !Z.eqb_neq, Z.eqb_eq, Z.leb_le, Z.ltb_lt. lia.
Qed.

Lemma books_insfree next vm out t l : is_type BT_TYPE_FREE t = true -> size_ok vm (bt_size t) ->
  books next vm (bt_id t :: out) l -> books next (bt_insfree VMEM_MAXORDER t vm) out (t :: l).
Proof.
  intros Hf Hok Hbk. pose proof (bk_out _ _ _ _ _ Hbk) as Hin. destruct Hbk.
  assert (is_type BT_TYPE_BUSY t = false) as Hb by (unfold is_type in *; by destruct (bt_type t)).
  pose proof (order_range _ (qsize_range _ _ (proj1 bk_shift0) Hok)) as Ho.
  unfold bt_insfree. rewrite tofree_spec by (done || lia). split; try done; simpl.
  - by rewrite bk_asserts0.
  - by rewrite length_alter.
  - apply indexed_insert; [unfold fkey; by rewrite Hf | lia | done..].
  - rewrite indexed_skip; [done|]. unfold hkey. by rewrite Hb.
  - rewrite bk_nbusy0. unfold busy_sum. simpl. by rewrite Hb.
  - rewrite bk_inuse0. unfold busy_sum. simpl. by rewrite Hb.
  - rewrite app_assoc, <-Permutation_middle, <-app_assoc in bk_ids0. done.
Qed.

End books.

(** *** The hash *)

Section hash.
Context (hash32 : Z -> Z) (VMEM_MAXORDER : nat).

Notation hkey := (hkey hash32).
Notation books := (books hash32 VMEM_MAXORDER).

Lemma hashhead_hkey vm t : is_type BT_TYPE_BUSY t = true -> hkey (length (vm_hashlist vm)) t = Some (bt_hashhead hash32 vm (bt_start t)).
Proof. intros Hb. unfold hkey. by rewrite Hb. Qed.

Lemma hashhead_range vm addr : (exists h, length (vm_hashlist vm) = (2 ^ h)%nat) -> (bt_hashhead hash32 vm addr < length (vm_hashlist vm))%nat.
Proof.
  intros [h Hh]. unfold bt_hashhead. rewrite Hh. rewrite Nat2Z.inj_pow.
  rewrite Z.sub_1_r, <-Z.ones_equiv, Z.land_ones by lia.
  apply Nat2Z.inj_lt. rewrite Z2Nat.id, Nat2Z.inj_pow by (apply Z.mod_pos_bound; lia).
  apply Z.mod_pos_bound. lia.
Qed.

Lemma busy_sum_nonneg f l : (forall t, 0 <= f t) -> 0 <= busy_sum f l.
Proof.
  intros Hf. unfold busy_sum. induction l as [|t l IH]; simpl; [lia|]. specialize (Hf t). destruct (is_type _ t); lia.
Qed.

Lemma books_rembusy next vm out t l : is_type BT_TYPE_BUSY t = true -> books next vm out (t :: l) ->
  books next (bt_rembusy t vm) (bt_id t :: out) l.
Proof.
  intros Hb Hbk. pose proof (bk_in _ _ _ _ _ _ _ Hbk) as Hin. destruct Hbk.
  assert (is_type BT_TYPE_FREE t = false) as Hf by (unfold is_type in *; by destruct (bt_type t)).
  assert (vm_nbusytag vm = 1 + busy_sum (fun _ => 1) l) as En by (rewrite bk_nbusy0; unfold busy_sum; simpl; by rewrite Hb).
  pose proof (busy_sum_nonneg (fun _ => 1) l ltac:(lia)) as Hnn.
  split; try done; simpl in *.
  - rewrite bk_asserts0. simpl. apply Z.ltb_lt. lia.
  - by rewrite length_map.
  - rewrite indexed_skip in bk_free0; [done|]. unfold fkey. by rewrite Hf.
  - rewrite length_map. by apply indexed_remove.
  - lia.
  - lia.
  - rewrite bk_inuse0. unfold busy_sum. simpl. rewrite Hb. unfold u64. rewrite Zminus_mod_idemp_l. f_equal. lia.
  - rewrite app_assoc, <-Permutation_middle, <-app_assoc. done.
Qed.

Lemma books_insbusy next vm out t l : is_type BT_TYPE_BUSY t = true ->
  books next vm (bt_id t :: out) l -> books next (bt_insbusy hash32 t vm) out (t :: l).
Proof.
  intros Hb Hbk. pose proof (bk_out _ _ _ _ _ _ _ Hbk) as Hin. destruct Hbk.
  assert (is_type BT_TYPE_FREE t = false) as Hf by (unfold is_type in *; by destruct (bt_type t)).
  assert (busy_sum (fun _ => 1) (t :: l) = busy_sum (fun _ => 1) l + 1) as En by (unfold busy_sum; simpl; rewrite Hb; lia).
  assert (u64 (u64 (busy_sum bt_size l) + bt_size t) = u64 (busy_sum bt_size (t :: l))) as Ei.
  { unfold busy_sum. simpl. rewrite Hb. unfold u64. rewrite Zplus_mod_idemp_l. f_equal. lia. }
  assert (ids_ok next (map bt_id (t :: l) ++ map bt_id (vm_freetags vm) ++ out)) as Hids.
  { rewrite app_assoc, <-Permutation_middle, <-app_assoc in bk_ids0. done. }
  assert (indexed (hkey (length (vm_hashlist vm))) (alter (cons (bt_id t)) (bt_hashhead hash32 vm (bt_start t)) (vm_hashlist vm)) (t :: l)) as Hix.
  { apply indexed_insert; [by apply hashhead_hkey | by apply hashhead_range | done..]. }
  assert (indexed (fkey (vm_quantum_shift vm)) (vm_freelist vm) (t :: l)) as Hfx.
  { rewrite indexed_skip; [done|]. unfold fkey. by rewrite Hf. }
  unfold bt_insbusy. change (bt_hashhead hash32 (KASSERT _ vm)) with (bt_hashhead hash32 vm). simpl.
  rewrite Hb, bk_nbusy0. rewrite bk_nbusy0 in bk_maxbusy0. rewrite <-bk_inuse0 in Ei.
  destruct (Z.ltb_spec (vm_maxbusytag vm) (busy_sum (fun _ => 1) l + 1)); split; simpl; rewrite ?length_alter, ?bk_asserts0; (done || lia).
Qed.

End hash.

(** * The segment list of an arena

    The list operations of kernel/kern/subr_vmem.c by position, and the shape of
    the list: every span is followed by the segments that tile it, two free ones
    never side by side. *)

(** ** Positions *)

Section pos.
Context (l1 l2 : list bt_t) (b : bt_t).
Context (Hl1 : bt_id b ∉ map bt_id l1).

Lemma not_in_cons t l id : id ∉ map bt_id (t :: l) -> bt_id t <> id /\ id ∉ map bt_id l.
Proof. simpl. rewrite not_elem_of_cons. by intros [? ?]. Qed.

Lemma tag_at_pos : tag_at (bt_id b) (l1 ++ b :: l2) = Some b.
Proof.
  unfold tag_at. induction l1 as [|x l IH]; simpl; [by rewrite Nat.eqb_refl|].
  apply not_in_cons in Hl1 as [Hx Hl]. by rewrite (proj2 (Nat.eqb_neq _ _) Hx), IH.
Qed.

Lemma seg_next_pos : seg_next (bt_id b) (l1 ++ b :: l2) = head l2.
Proof.
  induction l1 as [|x l IH]; simpl; [by rewrite Nat.eqb_refl|].
  apply not_in_cons in Hl1 as [Hx Hl]. by rewrite (proj2 (Nat.eqb_neq _ _) Hx), IH.
Qed.

Lemma seg_prev_from p : seg_prev p (bt_id b) (l1 ++ b :: l2) = match last l1 with Some t => Some t | None => p end.
Proof.
  revert p. induction l1 as [|x l IH]; intros p; simpl; [by rewrite Nat.eqb_refl|].
  apply not_in_cons in Hl1 as [Hx Hl]. rewrite (proj2 (Nat.eqb_neq _ _) Hx), IH by done.
  destruct l as [|y l]; [done|]. destruct (last (y :: l)) eqn:E; [by rewrite last_cons, E | by apply last_None in E].
Qed.

Lemma seg_prev_pos : seg_prev None (bt_id b) (l1 ++ b :: l2) = last l1.
Proof. rewrite seg_prev_from. by destruct (last l1). Qed.

Lemma insert_after_pos t : insert_after t (bt_id b) (l1 ++ b :: l2) = l1 ++ b :: t :: l2.
Proof.
  induction l1 as [|x l IH]; simpl; [by rewrite Nat.eqb_refl|].
  apply not_in_cons in Hl1 as [Hx Hl]. by rewrite (proj2 (Nat.eqb_neq _ _) Hx), IH.
Qed.

Context (Hl2 : bt_id b ∉ map bt_id l2).

Lemma map_other (t : bt_t) l : bt_id t ∉ map bt_id l ->
  map (fun x => if Nat.eqb (bt_id x) (bt_id t) then t else x) l = l.
Proof.
  induction l as [|x l IH]; simpl; [done|]. intros [Hx Hl]%(not_in_cons x l).
  by rewrite (proj2 (Nat.eqb_neq _ _) Hx), IH.
Qed.

Lemma filter_other id l : id ∉ map bt_id l -> List.filter (fun x => negb (Nat.eqb (bt_id x) id)) l = l.
Proof.
  induction l as [|x l IH]; simpl; [done|]. intros [Hx Hl]%(not_in_cons x l).
  rewrite (proj2 (Nat.eqb_neq _ _) Hx). simpl. by rewrite IH.
Qed.

Lemma put_pos (b' : bt_t) : bt_id b' = bt_id b ->
  map (fun x => if Nat.eqb (bt_id x) (bt_id b') then b' else x) (l1 ++ b :: l2) = l1 ++ b' :: l2.
Proof.
  intros E. rewrite map_app. simpl. rewrite !map_other by by rewrite E. by rewrite E, Nat.eqb_refl.
Qed.

Lemma filter_pos : List.filter (fun x => negb (Nat.eqb (bt_id x) (bt_id b))) (l1 ++ b :: l2) = l1 ++ l2.
Proof. rewrite List.filter_app. simpl. rewrite Nat.eqb_refl. simpl. by rewrite !filter_other. Qed.

End pos.

(** ** The shape *)

(** Where a walk of the list stands: before any span, or in one at [next] with
    its end at [stop], after a free segment or not. *)
Inductive cursor := Out | In (next stop : Z) (free : bool).

Definition closed (c : cursor) : bool :=
  match c with Out => true | In next stop _ => next =? stop end.

Section shape.
Context (shift limit : Z).

(** Whole quanta below the limit. *)
Definition seg_ok (t : bt_t) : bool :=
  (0 <=? bt_start t) && (0 <? bt_size t) && (bt_start t + bt_size t <=? limit) &&
  (bt_start t mod 2 ^ shift =? 0) && (bt_size t mod 2 ^ shift =? 0).

Definition step (c : cursor) (t : bt_t) : option cursor :=
  if negb (seg_ok t) then None
  else if BT_ISSPAN_P t then if closed c then Some (In (bt_start t) (bt_start t + bt_size t) false) else None
  else match c with
       | Out => None
       | In next stop free =>
           if (bt_start t =? next) && (bt_start t + bt_size t <=? stop) && negb (is_type BT_TYPE_FREE t && free)
           then Some (In (bt_start t + bt_size t) stop (is_type BT_TYPE_FREE t)) else None
       end.

Fixpoint run (c : cursor) (l : list bt_t) : option cursor :=
  match l with
  | [] => Some c
  | t :: l => match step c t with Some c => run c l | None => None end
  end.

(** The rest of the list can follow. *)
Definition tail_ok (c : cursor) (l : list bt_t) : bool :=
  match run c l with Some c => closed c | None => false end.

Definition tiled (l : list bt_t) : bool := tail_ok Out l.

Lemma run_app c l1 l2 : run c (l1 ++ l2) = match run c l1 with Some c => run c l2 | None => None end.
Proof. revert c. induction l1 as [|t l1 IH]; intros c; simpl; [done|]. destruct (step c t); [apply IH | done]. Qed.

Lemma tail_app c l1 l2 : tail_ok c (l1 ++ l2) = match run c l1 with Some c => tail_ok c l2 | None => false end.
Proof. unfold tail_ok. rewrite run_app. by destruct (run c l1). Qed.

Lemma tail_cons c t l : tail_ok c (t :: l) = match step c t with Some c => tail_ok c l | None => false end.
Proof. unfold tail_ok. simpl. by destruct (step c t). Qed.

Lemma seg_ok_spec t : seg_ok t = true <-> 0 <= bt_start t /\ 0 < bt_size t /\ bt_start t + bt_size t <= limit /\
  bt_start t mod 2 ^ shift = 0 /\ bt_size t mod 2 ^ shift = 0.
Proof. unfold seg_ok. rewrite !andb_true_iff, !Z.leb_le, Z.ltb_lt, !Z.eqb_eq. tauto. Qed.

(** A segment that is no span. *)
Lemma step_seg c t c' : BT_ISSPAN_P t = false -> step c t = Some c' <->
  seg_ok t = true /\ exists stop free, c = In (bt_start t) stop free /\ bt_start t + bt_size t <= stop /\
  (is_type BT_TYPE_FREE t && free = false) /\ c' = In (bt_start t + bt_size t) stop (is_type BT_TYPE_FREE t).
Proof.
  intros Hs. unfold step. rewrite Hs. destruct (seg_ok t); simpl; [|by split; [|intros [? ?]]].
  destruct c as [|next stop free]; [split; [done | by intros (_ & ? & ? & ? & _)]|]. split.
  - destruct (Z.eqb_spec (bt_start t) next); simpl; [|done]. destruct (Z.leb_spec (bt_start t + bt_size t) stop); simpl; [|done].
    destruct (is_type BT_TYPE_FREE t && free) eqn:Ef; simpl; [done|]. intros [= <-]. subst. split; [done|].
    exists stop, free. done.
  - intros (_ & st & fr & [= -> -> ->] & Hle & Hf & ->). by rewrite Z.eqb_refl, (proj2 (Z.leb_le _ _) Hle), Hf.
Qed.

Lemma step_span c t c' : BT_ISSPAN_P t = true -> step c t = Some c' <->
  seg_ok t = true /\ closed c = true /\ c' = In (bt_start t) (bt_start t + bt_size t) false.
Proof.
  intros Hs. unfold step. rewrite Hs. destruct (seg_ok t); simpl; [|by split; [|intros [? ?]]].
  destruct (closed c); [|by split; [|intros (_ & ? & _)]]. split; [by intros [= <-] | by intros (_ & _ & ->)].
Qed.

(** After a segment that is not free, what could follow a free one can follow. *)
Lemma tail_unfree n e l : tail_ok (In n e true) l = true -> tail_ok (In n e false) l = true.
Proof.
  destruct l as [|t l]; [done|]. rewrite !tail_cons. destruct (BT_ISSPAN_P t) eqn:Hs.
  - unfold step. rewrite Hs. simpl. done.
  - destruct (step (In n e true) t) as [c|] eqn:E; [|done].
    apply (step_seg _ _ _ Hs) in E as (Hok & st & fr & [= -> -> <-] & Hle & Hf & ->).
    assert (step (In (bt_start t) st false) t = Some (In (bt_start t + bt_size t) st (is_type BT_TYPE_FREE t))) as ->; [|done].
    apply step_seg; [done|]. split; [done|]. exists st, false. by rewrite andb_false_r.
Qed.

(** After a free one too, unless it is free. *)
Lemma tail_free n e l : (forall t, head l = Some t -> is_type BT_TYPE_FREE t = false) ->
  tail_ok (In n e false) l = true -> tail_ok (In n e true) l = true.
Proof.
  destruct l as [|t l]; [done|]. intros Hh. specialize (Hh t eq_refl). rewrite !tail_cons. unfold step. by rewrite Hh.
Qed.

(** A segment in the middle. *)
Lemma tiled_seg l1 t l2 : BT_ISSPAN_P t = false -> tiled (l1 ++ t :: l2) = true <->
  seg_ok t = true /\ exists stop free, run Out l1 = Some (In (bt_start t) stop free) /\ bt_start t + bt_size t <= stop /\
  (is_type BT_TYPE_FREE t && free = false) /\ tail_ok (In (bt_start t + bt_size t) stop (is_type BT_TYPE_FREE t)) l2 = true.
Proof.
  intros Hs. unfold tiled. rewrite tail_app. destruct (run Out l1) as [c|]; [|split; [done | by intros (_ & ? & ? & ? & _)]].
  rewrite tail_cons. split.
  - destruct (step c t) as [c'|] eqn:E; [|done]. apply (step_seg _ _ _ Hs) in E as (Hok & st & fr & -> & Hle & Hf & ->).
    intros Ht. split; [done|]. by exists st, fr.
  - intros (Hok & st & fr & [= ->] & Hle & Hf & Ht).
    assert (step (In (bt_start t) st fr) t = Some (In (bt_start t + bt_size t) st (is_type BT_TYPE_FREE t))) as ->; [|done].
    apply step_seg; [done|]. split; [done|]. by exists st, fr.
Qed.

(** The last segment before a position. *)
Lemma run_last l1 n e f : run Out l1 = Some (In n e f) -> exists l0 t, l1 = l0 ++ [t] /\ seg_ok t = true /\
  ((BT_ISSPAN_P t = true /\ tiled l0 = true /\ n = bt_start t /\ e = bt_start t + bt_size t /\ f = false) \/
   (BT_ISSPAN_P t = false /\ n = bt_start t + bt_size t /\ f = is_type BT_TYPE_FREE t /\
    exists f0, run Out l0 = Some (In (bt_start t) e f0) /\ n <= e /\ (is_type BT_TYPE_FREE t && f0 = false))).
Proof.
  destruct l1 as [|t l0 _] using rev_ind; [done|]. rewrite run_app. destruct (run Out l0) as [c|] eqn:E0; [|done]. simpl.
  destruct (step c t) as [c'|] eqn:Es; [|done]. intros [= ->]. exists l0, t. split; [done|].
  destruct (BT_ISSPAN_P t) eqn:Hs.
  - apply (step_span _ _ _ Hs) in Es as (Hok & Hc & [= -> -> ->]). split; [done|]. left. unfold tiled, tail_ok. by rewrite E0.
  - apply (step_seg _ _ _ Hs) in Es as (Hok & st & fr & -> & Hle & Hf & [= -> -> ->]). split; [done|]. right.
    split_and!; [done | done | done | by exists fr].
Qed.

(** A free segment at its place makes a list; the pieces before and after may not be free. *)
Lemma tiled_span l t : BT_ISSPAN_P t = true -> seg_ok t = true -> tiled l = true ->
  run Out (l ++ [t]) = Some (In (bt_start t) (bt_start t + bt_size t) false).
Proof.
  intros Hs Hok Hl. rewrite run_app. unfold tiled, tail_ok in Hl. destruct (run Out l) as [c|]; [|done]. simpl.
  assert (step c t = Some (In (bt_start t) (bt_start t + bt_size t) false)) as ->; [|done]. by apply step_span.
Qed.

End shape.

(** ** Regions *)

(** An address and a size. *)
Definition rng (t : bt_t) : Z * Z := (bt_start t, bt_size t).
Definition apart (x y : Z * Z) : Prop := x.1 + x.2 <= y.1 \/ y.1 + y.2 <= x.1.
Definition within (x y : Z * Z) : Prop := y.1 <= x.1 /\ x.1 + x.2 <= y.1 + y.2.

Fixpoint apart_all (l : list (Z * Z)) : Prop :=
  match l with
  | [] => True
  | x :: l => Forall (apart x) l /\ apart_all l
  end.

#[global] Instance apart_all_perm : Proper ((≡ₚ) ==> iff) apart_all.
Proof.
  assert (forall x y, apart x y <-> apart y x) as Hsym by (unfold apart; intros; tauto).
  induction 1 as [|x l l' Hp IH|x y l|l l' l'' _ IH1 _ IH2]; simpl; [done| | |by rewrite IH1].
  - rewrite IH, !Forall_forall. by setoid_rewrite Hp.
  - rewrite !Forall_cons, (Hsym x y). tauto.
Qed.

Lemma apart_within x x' y : within x' x -> apart x y -> apart x' y.
Proof. unfold within, apart. lia. Qed.

Definition spans (l : list bt_t) : list bt_t := List.filter BT_ISSPAN_P l.
Definition segs (l : list bt_t) : list bt_t := List.filter (fun t => negb (BT_ISSPAN_P t)) l.

Section regions.
Context (shift limit : Z).

(** What is left of the span of a cursor. *)
Definition cur_rng (c : cursor) : list (Z * Z) :=
  match c with Out => [] | In next stop _ => [(next, stop - next)] end.

Lemma segs_within c l c' t : run shift limit c l = Some c' -> t ∈ segs l ->
  (exists x, x ∈ cur_rng c /\ within (rng t) x) \/ exists s, s ∈ spans l /\ within (rng t) (rng s).
Proof.
  revert c. induction l as [|h l IH]; intros c; simpl; [by intros _ ?%elem_of_nil|].
  destruct (step shift limit c h) as [c1|] eqn:Es; [|done]. intros Hr Ht. destruct (BT_ISSPAN_P h) eqn:Hs; simpl in Ht.
  - apply (step_span _ _ _ _ _ Hs) in Es as (_ & _ & ->). right.
    destruct (IH _ Hr Ht) as [(x & Hx & Hw) | (s & Hin & Hw)]; [|exists s; split; [by right | done]].
    apply list_elem_of_singleton in Hx as ->. exists h. split; [by left|]. unfold within, rng in *. simpl in *. lia.
  - apply (step_seg _ _ _ _ _ Hs) in Es as (Hok & st & fr & -> & Hle & _ & ->). apply seg_ok_spec in Hok.
    apply elem_of_cons in Ht as [-> | Ht].
    { left. eexists. split; [by left|]. unfold within, rng. simpl. lia. }
    destruct (IH _ Hr Ht) as [(x & Hx & Hw) | ?]; [|by right].
    apply list_elem_of_singleton in Hx as ->. left. eexists. split; [by left|]. unfold within, rng in *. simpl in *. lia.
Qed.

(** The segments of disjoint spans are disjoint. *)
Lemma segs_apart c l c' : run shift limit c l = Some c' -> apart_all (cur_rng c ++ map rng (spans l)) ->
  apart_all (map rng (segs l)).
Proof.
  revert c. induction l as [|h l IH]; intros c; simpl; [done|].
  destruct (step shift limit c h) as [c1|] eqn:Es; [|done]. intros Hr Ha. destruct (BT_ISSPAN_P h) eqn:Hs; simpl in *.
  - apply (step_span _ _ _ _ _ Hs) in Es as (_ & _ & ->). apply (IH _ Hr). simpl.
    replace (bt_start h + bt_size h - bt_start h) with (bt_size h) by lia. fold (rng h).
    destruct c; simpl in Ha; [done | by destruct Ha].
  - apply (step_seg _ _ _ _ _ Hs) in Es as (Hok & st & fr & -> & Hle & _ & ->). apply seg_ok_spec in Hok.
    destruct Ha as [Hf Ha]. split.
    + apply Forall_fmap, Forall_forall. intros t Ht. simpl. destruct (segs_within _ _ _ _ Hr Ht) as [(x & Hx & Hw) | (s & Hin & Hw)].
      * apply list_elem_of_singleton in Hx as ->. unfold within, apart, rng in *. simpl in *. lia.
      * rewrite Forall_forall in Hf. specialize (Hf (rng s) (list_elem_of_fmap_2 rng _ _ Hin)). unfold within, apart, rng in *. simpl in *. lia.
    + apply (IH _ Hr). split; [|done]. eapply Forall_impl; [exact Hf|]. intros y. apply apart_within. unfold within. simpl. lia.
Qed.

End regions.
