(* ===== verification/VmemInv.v ===== *)
(** * The invariant of an arena

    The books of kernel/kern/subr_vmem.c account for the segment list, the list
    tiles its spans and the spans are disjoint; a tag that is being moved floats
    in the list while the books leave it out. *)

From Stdlib Require Import ZArith Lia.
From stdpp Require Import base numbers list.
From S2P Require Import Prelude Vmem VmemFit VmemBooks.

(** ** Multiples *)

Lemma mod_sub_0 a b m : 0 < m -> a mod m = 0 -> b mod m = 0 -> (a - b) mod m = 0.
Proof. intros Hm Ha Hb. rewrite Zminus_mod, Ha, Hb. by apply Z.mod_0_l; lia. Qed.

Lemma mod_add_0 a b m : 0 < m -> a mod m = 0 -> b mod m = 0 -> (a + b) mod m = 0.
Proof. intros Hm Ha Hb. rewrite Zplus_mod, Ha, Hb. by apply Z.mod_0_l; lia. Qed.

Lemma multiple_ge a m : 0 < m -> 0 < a -> a mod m = 0 -> m <= a.
Proof. intros Hm Ha Hd. apply Z.divide_pos_le; [done|]. by apply Z.mod_divide; [lia|]. Qed.

Section inv.
Context (hash32 : Z -> Z) (VMEM_MAXORDER : nat) (limit : Z).
Context (Horder : (64 <= VMEM_MAXORDER)%nat) (Hlimit : limit < 2 ^ 64).

Notation books := (books hash32 VMEM_MAXORDER).

(** [out]: identities in use elsewhere; [regs]: regions that a thread has
    imported and not yet added. *)
Record vmem_ok (next : nat) (vm : vmem) (out : list nat) (regs : list (Z * Z)) : Prop := {
  vk_books : books next vm out (vm_seglist vm);
  vk_tiled : tiled (vm_quantum_shift vm) limit (vm_seglist vm) = true;
  vk_apart : apart_all (regs ++ map rng (spans (vm_seglist vm)));
  vk_size : vm_size vm = u64 (zsum (map bt_size (spans (vm_seglist vm))))
}.

(** The tag [b] is at its place in the list and in no book. *)
Record floats (next : nat) (vm : vmem) (out : list nat) (l1 : list bt_t) (b : bt_t) (l2 : list bt_t) : Prop := {
  fl_books : books next vm (bt_id b :: out) (l1 ++ l2);
  fl_list : vm_seglist vm = l1 ++ b :: l2
}.

Lemma books_nodup next vm out l : books next vm out l -> NoDup (map bt_id l).
Proof. intros Hb. destruct (bk_ids _ _ _ _ _ _ Hb) as [Hn _]. by apply NoDup_app in Hn as [? _]. Qed.

Lemma books_pos next vm out l1 b l2 : books next vm out (l1 ++ b :: l2) -> bt_id b ∉ map bt_id l1 /\ bt_id b ∉ map bt_id l2.
Proof.
  intros Hb%books_nodup. rewrite map_app in Hb. simpl in Hb. apply NoDup_app in Hb as (_ & Hd & Hn).
  apply NoDup_cons in Hn as [Hn _]. split; [|done]. intros Hin. apply (Hd _ Hin). by left.
Qed.

Lemma floats_pos next vm out l1 b l2 : floats next vm out l1 b l2 -> bt_id b ∉ map bt_id l1 /\ bt_id b ∉ map bt_id l2.
Proof. intros [Hb%bk_out _]. rewrite map_app, not_elem_of_app in Hb. done. Qed.

(** A tag leaves a list and floats. *)
Lemma remfree_floats next vm out l1 b l2 : is_type BT_TYPE_FREE b = true ->
  books next vm out (l1 ++ b :: l2) -> vm_seglist vm = l1 ++ b :: l2 -> floats next (bt_remfree b vm) out l1 b l2.
Proof.
  intros Hf Hb Hl. split; [|done]. apply books_remfree; [done|]. by rewrite Permutation_middle.
Qed.

Lemma rembusy_floats next vm out l1 b l2 : is_type BT_TYPE_BUSY b = true ->
  books next vm out (l1 ++ b :: l2) -> vm_seglist vm = l1 ++ b :: l2 -> floats next (bt_rembusy b vm) out l1 b l2.
Proof.
  intros Hf Hb Hl. split; [|done]. apply books_rembusy; [done|]. by rewrite Permutation_middle.
Qed.

(** It may change while it floats. *)
Lemma put_floats next vm out l1 b b' l2 : bt_id b' = bt_id b -> floats next vm out l1 b l2 -> floats next (put_tag b' vm) out l1 b' l2.
Proof.
  intros E Hf. pose proof (floats_pos _ _ _ _ _ _ Hf) as [H1 H2]. destruct Hf as [Hb Hl].
  split; [unfold put_tag; by rewrite books_seglist, E|]. unfold put_tag. simpl. rewrite Hl. by apply put_pos.
Qed.

(** It comes to rest on a list. *)
Lemma insfree_lands next vm out l1 b l2 : is_type BT_TYPE_FREE b = true -> size_ok vm (bt_size b) ->
  floats next vm out l1 b l2 -> books next (bt_insfree VMEM_MAXORDER b vm) out (l1 ++ b :: l2).
Proof. intros Hf Hs [Hb Hl]. rewrite <-Permutation_middle. by apply books_insfree. Qed.

Lemma insbusy_lands next vm out l1 b l2 : is_type BT_TYPE_BUSY b = true ->
  floats next vm out l1 b l2 -> books next (bt_insbusy hash32 b vm) out (l1 ++ b :: l2).
Proof. intros Hf [Hb Hl]. rewrite <-Permutation_middle. by apply books_insbusy. Qed.

Lemma insfree_list b vm : vm_seglist (bt_insfree VMEM_MAXORDER b vm) = vm_seglist vm.
Proof. unfold bt_insfree. by destruct (bt_freehead_tofree _ _ _). Qed.

Lemma insbusy_list b vm : vm_seglist (bt_insbusy hash32 b vm) = vm_seglist vm.
Proof. unfold bt_insbusy. by destruct (_ <? _). Qed.

Lemma free_list b vm : vm_seglist (bt_free b vm) = vm_seglist vm.
Proof. done. Qed.

(** What the primitives on tags leave alone: the configuration and the size. *)
Definition conf (vm : vmem) :=
  (vm_importfn vm, vm_releasefn vm, vm_largeimport vm, vm_ximport vm, vm_privtags vm, vm_quantum_mask vm, vm_quantum_shift vm).
Definition frame (vm : vmem) := (conf vm, vm_size vm).

Lemma frame_shift vm vm' : frame vm' = frame vm -> vm_quantum_shift vm' = vm_quantum_shift vm.
Proof. by intros [=]. Qed.

Lemma frame_size vm vm' : frame vm' = frame vm -> vm_size vm' = vm_size vm.
Proof. by intros [=]. Qed.

Lemma frame_release vm vm' : frame vm' = frame vm -> vm_releasefn vm' = vm_releasefn vm.
Proof. by intros [=]. Qed.

Lemma frame_conf vm vm' : frame vm' = frame vm -> conf vm' = conf vm.
Proof. intros H. exact (f_equal fst H). Qed.

Lemma conf_shift vm vm' : conf vm' = conf vm -> vm_quantum_shift vm' = vm_quantum_shift vm.
Proof. by intros [=]. Qed.

Lemma insfree_frame b vm : frame (bt_insfree VMEM_MAXORDER b vm) = frame vm.
Proof. unfold bt_insfree. by destruct (bt_freehead_tofree _ _ _). Qed.

Lemma insbusy_frame b vm : frame (bt_insbusy hash32 b vm) = frame vm.
Proof. unfold bt_insbusy. by destruct (_ <? _). Qed.

Lemma free_frame b vm : frame (bt_free b vm) = frame vm.
Proof. done. Qed.

Lemma insseg_frame b p vm : frame (bt_insseg b p vm) = frame vm.
Proof. by destruct p. Qed.

(** The insertion before a tag that has a predecessor. *)
Lemma insseg_before n b l1 l2 vm : vm_seglist vm = l1 ++ b :: l2 -> NoDup (map bt_id l1) -> bt_id b ∉ map bt_id l1 -> l1 <> [] ->
  bt_insseg n (TAILQ_PREV b vm) vm = set_vm_seglist (l1 ++ n :: b :: l2) vm.
Proof.
  intros Hl Hn Hb Hne. unfold TAILQ_PREV. rewrite Hl, seg_prev_pos by done.
  destruct l1 as [|p l1 _] using rev_ind; [done|]. rewrite last_snoc. simpl. rewrite Hl, <-!app_assoc. simpl.
  rewrite insert_after_pos; [done|]. rewrite map_app in Hn. apply NoDup_app in Hn as (_ & Hd & _).
  intros Hin. apply (Hd _ Hin). by left.
Qed.

(** A new tag floats before one that is at rest, or that floats. *)
Lemma insseg_floats next vm out l1 n b l2 : l1 <> [] -> books next vm (bt_id n :: out) (l1 ++ b :: l2) -> vm_seglist vm = l1 ++ b :: l2 ->
  floats next (bt_insseg n (TAILQ_PREV b vm) vm) out l1 n (b :: l2).
Proof.
  intros Hne Hb Hl. destruct (books_pos _ _ _ _ _ _ Hb) as [H1 H2].
  assert (NoDup (map bt_id l1)) as Hn by (apply books_nodup in Hb; rewrite map_app in Hb; by apply NoDup_app in Hb as [? _]).
  rewrite (insseg_before n b l1 l2) by done. split; [by rewrite books_seglist | done].
Qed.

Lemma free_before_floats next vm out l1 n b l2 : l1 <> [] -> is_type BT_TYPE_FREE n = true -> size_ok vm (bt_size n) ->
  floats next vm (bt_id n :: out) l1 b l2 ->
  let vm' := bt_insfree VMEM_MAXORDER n vm in
  floats next (bt_insseg n (TAILQ_PREV b vm') vm') out (l1 ++ [n]) b l2.
Proof.
  intros Hne Hf Hs Hfl vm'. pose proof (floats_pos _ _ _ _ _ _ Hfl) as [H1 H2]. destruct Hfl as [Hb Hl].
  assert (NoDup (map bt_id l1)) as Hn by (apply books_nodup in Hb; rewrite map_app in Hb; by apply NoDup_app in Hb as [? _]).
  rewrite (insseg_before n b l1 l2); [|unfold vm'; by rewrite insfree_list|done..].
  split; [|simpl; by rewrite <-app_assoc]. rewrite books_seglist, <-app_assoc. simpl. rewrite <-Permutation_middle.
  apply books_insfree; [done..|]. by rewrite Permutation_swap.
Qed.

(** ** Allocation *)

Definition shape (t : bt_t) : bt_type_t * Z * Z := (bt_type t, bt_start t, bt_size t).

(** A free region, if it is not empty. *)
Definition free_shape (a n : Z) : list (bt_type_t * Z * Z) := if n =? 0 then [] else [(BT_TYPE_FREE, a, n)].

(** The block that is to be taken floats at [start]. *)
Lemma take_front_ok next vm out l1 t l2 n2 start : l1 <> [] -> is_type BT_TYPE_FREE t = true ->
  seg_ok (vm_quantum_shift vm) limit t = true -> bt_start t <= start < bt_start t + bt_size t ->
  start mod 2 ^ vm_quantum_shift vm = 0 -> floats next vm (bt_id n2 :: out) l1 t l2 ->
  exists t' on vm' pre, take_front VMEM_MAXORDER start t n2 vm = (t', on, vm') /\
    bt_id t' = bt_id t /\ shape t' = (BT_TYPE_FREE, start, bt_start t + bt_size t - start) /\
    map shape pre = free_shape (bt_start t) (start - bt_start t) /\
    floats next vm' (match on with Some _ => [bt_id n2] | None => [] end ++ out) (l1 ++ pre) t' l2 /\
    (on = None \/ on = Some n2) /\ frame vm' = frame vm.
Proof.
  intros Hne Hf Hok Hr Hm Hfl. apply seg_ok_spec in Hok as (H0 & H1 & H2 & H3 & H4).
  assert (bt_type t = BT_TYPE_FREE) as Et by (unfold is_type in Hf; by apply bool_decide_eq_true in Hf).
  pose proof (bk_shift _ _ _ _ _ _ (fl_books _ _ _ _ _ _ Hfl)) as Hsh.
  unfold take_front. destruct (Z.eqb_spec (bt_start t) start) as [<- | Hns]; simpl.
  - eexists _, _, _, []. split_and!; try done; [|unfold free_shape; by rewrite Z.sub_diag|by rewrite app_nil_r|by right].
    unfold shape. rewrite Et. f_equal. lia.
  - rewrite (u64_id (start - bt_start t)), (u64_id (bt_size t - (start - bt_start t))) by (unfold in_u64; lia).
    set (t' := mk_bt _ _ _ start _). set (b2 := mk_bt _ _ BT_TYPE_FREE _ _).
    eexists t', _, _, [b2]. split; [done|]. split_and!; try done.
    + unfold shape. simpl. rewrite Et. f_equal. lia.
    + unfold free_shape. destruct (Z.eqb_spec (start - bt_start t) 0); [lia | done].
    + simpl. apply free_before_floats; [done | done | | by apply (put_floats _ _ _ _ t)].
      unfold size_ok. simpl. split; [lia|]. apply mod_sub_0; [lia | done..].
    + by left.
    + by rewrite insseg_frame, insfree_frame.
Qed.

Lemma take_split_ok next vm out l1 t l2 n1 size : l1 <> [] -> is_type BT_TYPE_FREE t = true ->
  0 <= bt_start t -> bt_start t + bt_size t <= limit -> 0 < size <= bt_size t ->
  bt_size t mod 2 ^ vm_quantum_shift vm = 0 -> size mod 2 ^ vm_quantum_shift vm = 0 ->
  floats next vm (bt_id n1 :: out) l1 t l2 ->
  exists b vm' post, take_split hash32 VMEM_MAXORDER size t n1 vm = (b, vm') /\
    shape b = (BT_TYPE_BUSY, bt_start t, size) /\ map shape post = free_shape (bt_start t + size) (bt_size t - size) /\
    books next vm' out (l1 ++ b :: post ++ l2) /\ vm_seglist vm' = l1 ++ b :: post ++ l2 /\
    frame vm' = frame vm.
Proof.
  intros Hne Hf H0 Hl Hsz Hm1 Hm2 Hfl.
  assert (bt_type t = BT_TYPE_FREE) as Et by (unfold is_type in Hf; by apply bool_decide_eq_true in Hf).
  pose proof (bk_shift _ _ _ _ _ _ (fl_books _ _ _ _ _ _ Hfl)) as Hsh.
  pose proof (bk_mask _ _ _ _ _ _ (fl_books _ _ _ _ _ _ Hfl)) as Hmask.
  unfold take_split. destruct (Z.eqb_spec (bt_size t) size) as [Es | Hns]; simpl.
  - eexists _, _, []. split; [done|]. split_and!; [unfold shape; simpl; by rewrite Es | by rewrite Es; unfold free_shape; rewrite Z.sub_diag | | |].
    + apply books_bt_free. apply insbusy_lands; [done|]. by apply (put_floats _ _ _ _ t).
    + rewrite free_list, insbusy_list.
      apply (fl_list next _ (bt_id n1 :: out)). by apply (put_floats _ _ _ _ t).
    + by rewrite free_frame, insbusy_frame.
  - assert (0 < bt_size t - size) by lia.
    assert ((bt_size t - size) mod 2 ^ vm_quantum_shift vm = 0) as Hm3 by (apply mod_sub_0; [lia | done..]).
    pose proof (multiple_ge _ (2 ^ vm_quantum_shift vm) ltac:(lia) ltac:(eassumption) Hm3).
    rewrite !(u64_id (bt_size t - size)), (u64_id (bt_start t + size)) by (unfold in_u64; lia).
    destruct (Z.ltb_spec (vm_quantum_mask vm) (bt_size t - size)) as [_ | ?]; [|lia].
    set (t' := mk_bt _ _ (bt_type t) _ _). set (b := mk_bt _ _ BT_TYPE_BUSY _ _). set (vm1 := bt_insfree _ t' _).
    assert (is_type BT_TYPE_FREE t' = true) as Hf' by (unfold is_type; simpl; by rewrite Et).
    assert (floats next (put_tag t' vm) (bt_id b :: out) l1 t' l2) as Hfl' by by apply (put_floats _ _ _ _ t).
    assert (floats next (bt_insseg b (TAILQ_PREV t' vm1) vm1) out l1 b (t' :: l2)) as Hfb.
    { apply insseg_floats; [done | | ].
      - apply insfree_lands; [done | by split; simpl; [lia|] | done].
      - unfold vm1. rewrite insfree_list. apply (fl_list _ _ _ _ _ _ Hfl'). }
    eexists b, _, [t']. split; [done|]. split_and!; [done | | by apply insbusy_lands | |].
    + unfold free_shape, shape. simpl. rewrite Et. by destruct (Z.eqb_spec (bt_size t - size) 0); [lia|].
    + rewrite insbusy_list. apply (fl_list _ _ _ _ _ _ Hfb).
    + rewrite insbusy_frame, insseg_frame. etrans; [apply insfree_frame | done].
Qed.

Lemma tiled_nonempty l1 t l2 shift : BT_ISSPAN_P t = false -> tiled shift limit (l1 ++ t :: l2) = true -> l1 <> [].
Proof. intros Hs Ht ->. apply (tiled_seg _ _ [] _ _ Hs) in Ht as (_ & ? & ? & ? & _). done. Qed.

Lemma free_not_span t : is_type BT_TYPE_FREE t = true -> BT_ISSPAN_P t = false.
Proof. unfold is_type, BT_ISSPAN_P. by destruct (bt_type t). Qed.

Lemma busy_not_span t : is_type BT_TYPE_BUSY t = true -> BT_ISSPAN_P t = false.
Proof. unfold is_type, BT_ISSPAN_P. by destruct (bt_type t). Qed.

(** The pieces of a block with an allocation in it. *)
Definition carved (t : bt_t) (start size : Z) : list (bt_type_t * Z * Z) :=
  free_shape (bt_start t) (start - bt_start t) ++
  (BT_TYPE_BUSY, start, size) :: free_shape (start + size) (bt_start t + bt_size t - start - size).

Lemma xalloc_take_books next vm out l1 t l2 n1 n2 start size :
  books next vm (bt_id n1 :: bt_id n2 :: out) (l1 ++ t :: l2) -> vm_seglist vm = l1 ++ t :: l2 -> l1 <> [] ->
  is_type BT_TYPE_FREE t = true -> seg_ok (vm_quantum_shift vm) limit t = true -> inside t start size -> 0 < size ->
  start mod 2 ^ vm_quantum_shift vm = 0 -> size mod 2 ^ vm_quantum_shift vm = 0 ->
  exists mid vm', xalloc_take hash32 VMEM_MAXORDER (bt_id t) start size n1 n2 vm = (start, vm') /\
    map shape mid = carved t start size /\ books next vm' out (l1 ++ mid ++ l2) /\
    vm_seglist vm' = l1 ++ mid ++ l2 /\ frame vm' = frame vm.
Proof.
  intros Hb Hl Hne Hf Hok [Hi1 Hi2] Hs Hm1 Hm2. destruct (books_pos _ _ _ _ _ _ Hb) as [Hp1 Hp2].
  pose proof Hok as (H0 & H1 & H2 & H3 & H4)%seg_ok_spec.
  pose proof (bk_shift _ _ _ _ _ _ Hb) as Hsh.
  unfold xalloc_take, tag. rewrite Hl, tag_at_pos by done. cbn [default from_option id].
  rewrite Hf, (proj2 (Z.leb_le size (bt_size t))) by lia. cbn [andb].
  set (vm0 := KASSERT true vm). assert (books next vm0 (bt_id n1 :: bt_id n2 :: out) (l1 ++ t :: l2)) as Hb0 by by apply books_KASSERT.
  assert (floats next (bt_remfree t vm0) (bt_id n2 :: bt_id n1 :: out) l1 t l2) as Hfl.
  { apply remfree_floats; [done | | done]. by rewrite Permutation_swap. }
  destruct (take_front_ok next (bt_remfree t vm0) (bt_id n1 :: out) l1 t l2 n2 start Hne Hf Hok ltac:(lia) Hm1 Hfl) as (t' & on & vm1 & pre & -> & Eid & Esh & Epre & Hfl1 & Hon & Hfr).
  injection Esh as Ety Est Esz. rewrite Est, Z.eqb_refl. set (vm2 := KASSERT true vm1).
  assert (floats next vm2 (bt_id n1 :: match on with Some _ => [bt_id n2] | None => [] end ++ out) (l1 ++ pre) t' l2) as Hfl2.
  { destruct Hfl1 as [Hbk Hls]. split; [|done]. apply books_KASSERT; [done|]. by rewrite Permutation_middle. }
  pose proof (frame_shift _ _ Hfr) as Efs. change (vm_quantum_shift (bt_remfree t vm0)) with (vm_quantum_shift vm) in Efs.
  change (frame (bt_remfree t vm0)) with (frame vm) in Hfr.
  destruct (take_split_ok next vm2 (match on with Some _ => [bt_id n2] | None => [] end ++ out) (l1 ++ pre) t' l2 n1 size)
    as (b & vm3 & post & -> & Eb & Epost & Hbk & Hls & Hfr3); [by destruct l1 | by unfold is_type; rewrite Ety | rewrite Est; lia | rewrite Est, Esz; lia | rewrite Esz; lia
    | change (vm_quantum_shift vm2) with (vm_quantum_shift vm1); rewrite Efs, Esz; apply mod_sub_0; [lia | by apply mod_add_0; [lia|..] | done]
    | change (vm_quantum_shift vm2) with (vm_quantum_shift vm1); by rewrite Efs | done |].
  injection Eb as Ebt Ebs Ebz. rewrite Ebs, Ebz, Est, Z.leb_refl. pose proof (frame_shift _ _ Hfr3) as Efs3.
  change (vm_quantum_shift vm2) with (vm_quantum_shift vm1) in Efs3. change (frame vm2) with (frame vm1) in Hfr3.
  set (vm4 := match on with Some b0 => bt_free b0 vm3 | None => vm3 end).
  assert (books next vm4 out (l1 ++ pre ++ b :: post ++ l2) /\ vm_seglist vm4 = l1 ++ pre ++ b :: post ++ l2 /\ frame vm4 = frame vm) as (Hbk4 & Hls4 & Hfr4).
  { rewrite <-!app_assoc in Hbk, Hls. rewrite Hfr in Hfr3. unfold vm4. destruct on as [b0|]; [|done].
    destruct Hon as [? | [= ->]]; [done|]. split; [by apply books_bt_free | done]. }
  exists (pre ++ b :: post). eexists. split; [reflexivity|]. rewrite <-!app_assoc. cbn [app].
  split_and!; [ | | done | done].
  - rewrite map_app. cbn [map]. unfold carved. rewrite Epre, Epost, Esz. unfold shape. by rewrite Ebt, Ebs, Ebz, Est.
  - apply books_KASSERT; [|by apply books_KASSERT]. change (vm_quantum_mask (KASSERT true vm4)) with (vm_quantum_mask vm4).
    rewrite land_mask by apply Hbk4. rewrite (frame_shift _ _ Hfr4), Hm1. done.
Qed.

(** *** The shape of the list *)

Lemma shape_eq t ty a n : shape t = (ty, a, n) -> bt_type t = ty /\ bt_start t = a /\ bt_size t = n.
Proof. unfold shape. by intros [= -> -> ->]. Qed.

Lemma run_free_shape shift pre a n e : map shape pre = free_shape a n -> 0 <= shift -> 0 <= a -> 0 <= n -> a + n <= limit -> a + n <= e ->
  a mod 2 ^ shift = 0 -> n mod 2 ^ shift = 0 -> run shift limit (In a e false) pre = Some (In (a + n) e (negb (n =? 0))).
Proof.
  unfold free_shape. destruct (Z.eqb_spec n 0) as [-> | Hn]; intros Hp; intros.
  - destruct pre; [|done]. simpl. by rewrite Z.add_0_r.
  - destruct pre as [|t [|? ?]]; [done | | done]. injection Hp as Ety Es En. cbn [run].
    assert (step shift limit (In a e false) t = Some (In (a + n) e true)) as ->; [|done].
    assert (is_type BT_TYPE_FREE t = true) as Hf by (unfold is_type; by rewrite Ety).
    apply step_seg; [by apply free_not_span|]. rewrite seg_ok_spec, Es, En, Hf. split_and!; try (done || lia).
    by exists e, false.
Qed.

Lemma spans_free_shape pre a n : map shape pre = free_shape a n -> spans pre = [].
Proof.
  unfold free_shape. destruct (n =? 0); intros Hp; [by destruct pre|].
  destruct pre as [|t [|? ?]]; [done | | done]. injection Hp as Ety _ _. simpl. unfold BT_ISSPAN_P. by rewrite Ety.
Qed.

Lemma carved_split mid t start size : map shape mid = carved t start size -> exists pre b post, mid = pre ++ b :: post /\
  map shape pre = free_shape (bt_start t) (start - bt_start t) /\ shape b = (BT_TYPE_BUSY, start, size) /\
  map shape post = free_shape (start + size) (bt_start t + bt_size t - start - size).
Proof.
  unfold carved. intros (pre & mid' & Epre & Emid & ->)%(fmap_app_inv shape).
  symmetry in Emid. apply fmap_cons_inv in Emid as (b & post & Eb & Epost & ->). by exists pre, b, post.
Qed.

Lemma carve_tiled shift l1 t l2 mid start size : 0 <= shift -> is_type BT_TYPE_FREE t = true -> tiled shift limit (l1 ++ t :: l2) = true ->
  inside t start size -> 0 < size -> start mod 2 ^ shift = 0 -> size mod 2 ^ shift = 0 ->
  map shape mid = carved t start size ->
  tiled shift limit (l1 ++ mid ++ l2) = true /\ spans (l1 ++ mid ++ l2) = spans (l1 ++ t :: l2).
Proof.
  intros Hsh Hf Ht [Hi1 Hi2] Hs Hm1 Hm2 (pre & b & post & -> & Epre & Eb & Epost)%carved_split.
  apply shape_eq in Eb as (Ety & Est & Esz). pose proof (free_not_span _ Hf) as Hns.
  apply (tiled_seg _ _ _ _ _ Hns) in Ht as (Hok & e & f & Hrun & Hle & Hff & Htl). apply seg_ok_spec in Hok as (H0 & H1 & H2 & H3 & H4).
  rewrite Hf in Htl, Hff. simpl in Hff. subst f.
  assert (is_type BT_TYPE_BUSY b = true /\ is_type BT_TYPE_FREE b = false) as [Hb Hbf] by (unfold is_type; by rewrite Ety).
  pose proof (busy_not_span _ Hb) as Hbs. split.
  - replace (l1 ++ (pre ++ b :: post) ++ l2) with ((l1 ++ pre) ++ b :: post ++ l2) by by rewrite <-!app_assoc.
    apply tiled_seg; [done|]. rewrite seg_ok_spec, Est, Esz.
    split_and!; try (done || lia). exists e, (negb (start - bt_start t =? 0)). rewrite Hbf. split_and!; try (done || lia).
    + rewrite run_app, Hrun, (run_free_shape _ _ (bt_start t) (start - bt_start t)); [do 2 f_equal; lia|done|lia..|done|].
      apply mod_sub_0; [lia | done..].
    + rewrite tail_app, (run_free_shape _ _ (start + size) (bt_start t + bt_size t - start - size)); [|done|lia..| |].
      * replace (start + size + _) with (bt_start t + bt_size t) by lia. destruct (negb _); [done | by apply tail_unfree].
      * apply mod_add_0; [lia | done..].
      * apply mod_sub_0; [lia | | done]. apply mod_sub_0; [lia | | done]. apply mod_add_0; [lia | done..].
  - unfold spans in *. rewrite !List.filter_app. simpl.
    rewrite Hns, Hbs. pose proof (spans_free_shape _ _ _ Epre) as E1. pose proof (spans_free_shape _ _ _ Epost) as E2.
    unfold spans in E1, E2. by rewrite E1, E2.
Qed.

(** Taking a placement keeps the invariant and carves the block. *)
Lemma xalloc_take_ok next vm out regs l1 t l2 n1 n2 start size :
  vmem_ok next vm (bt_id n1 :: bt_id n2 :: out) regs -> vm_seglist vm = l1 ++ t :: l2 -> is_type BT_TYPE_FREE t = true ->
  inside t start size -> 0 < size -> start mod 2 ^ vm_quantum_shift vm = 0 -> size mod 2 ^ vm_quantum_shift vm = 0 ->
  exists mid vm', xalloc_take hash32 VMEM_MAXORDER (bt_id t) start size n1 n2 vm = (start, vm') /\
    map shape mid = carved t start size /\ vm_seglist vm' = l1 ++ mid ++ l2 /\ vmem_ok next vm' out regs /\ frame vm' = frame vm.
Proof.
  intros [Hb Ht Ha Hz] Hl Hf Hi Hs Hm1 Hm2. rewrite Hl in Hb, Ht, Ha, Hz. pose proof (free_not_span _ Hf) as Hns.
  pose proof (proj1 (bk_shift _ _ _ _ _ _ Hb)) as Hsh. pose proof Ht as (Hok & _)%(tiled_seg _ _ _ _ _ Hns).
  destruct (xalloc_take_books next vm out l1 t l2 n1 n2 start size) as (mid & vm' & Ex & Em & Hb' & Hl' & Hfr);
    [done | done | by eapply tiled_nonempty | done..|].
  destruct (carve_tiled _ l1 t l2 mid start size Hsh Hf Ht Hi Hs Hm1 Hm2 Em) as [Ht' Es].
  exists mid, vm'. split_and!; try done. split; rewrite ?Hl', ?Es, ?(frame_shift _ _ Hfr); try done.
  by rewrite (frame_size _ _ Hfr).
Qed.

End inv.

(** * Release in an arena

    vmem_xfree_bt of kernel/kern/subr_vmem.c: the freed tag absorbs its free
    neighbours, an imported span that is wholly free leaves the list, and the
    invariant holds again. *)

Section rel.
Context (hash32 : Z -> Z) (VMEM_MAXORDER : nat) (limit : Z).
Context (Horder : (64 <= VMEM_MAXORDER)%nat) (Hlimit : limit < 2 ^ 64).

Notation books := (books hash32 VMEM_MAXORDER).
Notation floats := (floats hash32 VMEM_MAXORDER).
Notation vmem_ok := (vmem_ok hash32 VMEM_MAXORDER limit).

(** A free tag that the floating one absorbs goes back to the supply. *)
Lemma absorb_books next vm out t b b' rest : is_type BT_TYPE_FREE t = true ->
  books next vm (bt_id b :: out) (t :: rest) ->
  books next (bt_free t (put_tag b' (bt_remseg t (bt_remfree t vm)))) (bt_id b :: out) rest.
Proof.
  intros Hf Hb. apply books_bt_free. unfold put_tag, bt_remseg. rewrite !books_seglist.
  by apply books_remfree.
Qed.

Lemma absorb_next next vm out l1 b b' t l2 : bt_id b' = bt_id b -> is_type BT_TYPE_FREE t = true ->
  floats next vm out l1 b (t :: l2) -> floats next (bt_free t (put_tag b' (bt_remseg t (bt_remfree t vm)))) out l1 b' l2.
Proof.
  intros E Hf Hfl. pose proof (floats_pos _ _ _ _ _ _ _ _ Hfl) as [H1 H2]. apply not_in_cons in H2 as [Hne H2].
  destruct Hfl as [Hb Hl]. destruct (books_pos _ _ _ _ _ _ _ _ Hb) as [H3 H4].
  split; [rewrite E; apply absorb_books; [done|]; by rewrite Permutation_middle|].
  rewrite free_list. unfold put_tag, bt_remseg. cbn [vm_seglist set_vm_seglist bt_remfree KASSERT set_vm_freelist set_vm_asserts].
  rewrite Hl. replace (l1 ++ b :: t :: l2) with ((l1 ++ [b]) ++ t :: l2) by by rewrite <-app_assoc.
  rewrite filter_pos; [|rewrite map_app, not_elem_of_app; split; [done|]; intros ?%list_elem_of_singleton; congruence | done].
  rewrite <-app_assoc. simpl. by apply put_pos.
Qed.

Lemma absorb_prev next vm out l1 b b' t l2 : bt_id b' = bt_id b -> is_type BT_TYPE_FREE t = true ->
  floats next vm out (l1 ++ [t]) b l2 -> floats next (bt_free t (put_tag b' (bt_remseg t (bt_remfree t vm)))) out l1 b' l2.
Proof.
  intros E Hf Hfl. pose proof (floats_pos _ _ _ _ _ _ _ _ Hfl) as [H1 H2].
  destruct Hfl as [Hb Hl]. rewrite <-app_assoc in Hb, Hl. simpl in Hb, Hl. destruct (books_pos _ _ _ _ _ _ _ _ Hb) as [H3 H4].
  rewrite map_app, not_elem_of_app in H1. destruct H1 as [H1 Hne]. apply not_in_cons in Hne as [Hne _].
  split; [rewrite E; apply absorb_books; [done|]; by rewrite Permutation_middle|].
  rewrite free_list. unfold put_tag, bt_remseg. cbn [vm_seglist set_vm_seglist bt_remfree KASSERT set_vm_freelist set_vm_asserts].
  rewrite Hl, filter_pos; [|done | simpl; rewrite not_elem_of_cons; done]. by apply put_pos.
Qed.

(** The floating tag [b] fills [start, start + size) of the span that ends at
    [e]; [f]: a free segment is before it. *)
Record fills (shift : Z) (l1 : list bt_t) (b : bt_t) (l2 : list bt_t) (e : Z) (f : bool) : Prop := {
  fi_ok : seg_ok shift limit b = true;
  fi_free : is_type BT_TYPE_FREE b = true;
  fi_run : run shift limit Out l1 = Some (In (bt_start b) e f);
  fi_end : bt_start b + bt_size b <= e
}.

Lemma coalesce_next_ok next vm out l1 b l2 e f : floats next vm out l1 b l2 -> fills (vm_quantum_shift vm) l1 b l2 e f ->
  tail_ok (vm_quantum_shift vm) limit (In (bt_start b + bt_size b) e false) l2 = true ->
  exists b' vm' l2' x, coalesce_next b vm = (b', vm') /\ floats next vm' out l1 b' l2' /\ fills (vm_quantum_shift vm) l1 b' l2' e f /\
    bt_start b' = bt_start b /\ tail_ok (vm_quantum_shift vm) limit (In (bt_start b' + bt_size b') e true) l2' = true /\
    l2 = x ++ l2' /\ map shape x = free_shape (bt_start b + bt_size b) (bt_size b' - bt_size b) /\ frame vm' = frame vm.
Proof.
  intros Hfl Hfi Ht. pose proof (floats_pos _ _ _ _ _ _ _ _ Hfl) as [H1 H2]. pose proof Hfl as [Hbk Hl].
  pose proof (bk_shift _ _ _ _ _ _ Hbk) as Hsh.
  pose proof Hfi as [Hok Hbf Hrun Hend]. pose proof Hok as (S0 & S1 & S2 & S3 & S4)%seg_ok_spec.
  unfold coalesce_next, TAILQ_NEXT. rewrite Hl, seg_next_pos by done.
  destruct l2 as [|t l2]; simpl; [exists b, vm, [], []; split_and!; try done; unfold free_shape; by rewrite Z.sub_diag|].
  destruct (is_type BT_TYPE_FREE t) eqn:Hf.
  - rewrite tail_cons in Ht. pose proof (free_not_span _ Hf) as Hns. destruct (step _ _ _ t) as [c|] eqn:Es; [|done].
    apply (step_seg _ _ _ _ _ Hns) in Es as (Hokt & st & fr & [= Est <- <-] & Hle & _ & ->). rewrite Hf in Ht.
    apply seg_ok_spec in Hokt as (T0 & T1 & T2 & T3 & T4). rewrite BT_END_eq by lia.
    rewrite (proj2 (Z.ltb_lt (bt_start b + bt_size b - 1) (bt_start t))) by lia. rewrite u64_id by (unfold in_u64; lia).
    set (b' := set_bt_size (bt_size b + bt_size t) b). set (vm0 := KASSERT true vm).
    assert (floats next vm0 out l1 b (t :: l2)) as Hfl0 by (destruct Hfl; split; [by apply books_KASSERT | done]).
    eexists b', _, l2, [t]. split; [done|]. split_and!; [by apply (absorb_next _ _ _ _ b) | | done | | done | | done].
    + split; [|done|done|simpl; lia]. apply seg_ok_spec. simpl. split_and!; try (done || lia). by apply mod_add_0; [lia|..].
    + simpl. by replace (bt_start b + (bt_size b + bt_size t)) with (bt_start t + bt_size t) by lia.
    + unfold free_shape. simpl. replace (bt_size b + bt_size t - bt_size b) with (bt_size t) by lia.
      destruct (Z.eqb_spec (bt_size t) 0); [lia|]. unfold shape. rewrite Est.
      unfold is_type in Hf. apply bool_decide_eq_true in Hf as ->. done.
  - exists b, vm, (t :: l2), []. split_and!; try done; [|unfold free_shape; by rewrite Z.sub_diag].
    apply tail_free; [|done]. by intros ? [= <-].
Qed.

Lemma coalesce_prev_ok next vm out l1 b l2 e f : floats next vm out l1 b l2 -> fills (vm_quantum_shift vm) l1 b l2 e f ->
  exists b' vm' l1' x, coalesce_prev b vm = (b', vm') /\ floats next vm' out l1' b' l2 /\ fills (vm_quantum_shift vm) l1' b' l2 e false /\
    bt_start b' + bt_size b' = bt_start b + bt_size b /\
    l1 = l1' ++ x /\ map shape x = free_shape (bt_start b') (bt_start b - bt_start b') /\ frame vm' = frame vm.
Proof.
  intros Hfl Hfi. pose proof (floats_pos _ _ _ _ _ _ _ _ Hfl) as [H1 H2]. pose proof Hfl as [Hbk Hl].
  pose proof (bk_shift _ _ _ _ _ _ Hbk) as Hsh.
  pose proof Hfi as [Hok Hbf Hrun Hend]. pose proof Hok as (S0 & S1 & S2 & S3 & S4)%seg_ok_spec.
  unfold coalesce_prev, TAILQ_PREV. rewrite Hl, seg_prev_pos by done.
  destruct (run_last _ _ _ _ _ _ Hrun) as (l0 & t & -> & Hokt & Hlast). rewrite last_snoc.
  destruct (is_type BT_TYPE_FREE t) eqn:Hf.
  - pose proof (free_not_span _ Hf) as Hns. destruct Hlast as [(Hs & _) | (_ & En & Ef & f0 & Hr0 & _ & Hf0)]; [congruence|].
    simpl in Hf0. subst f0. apply seg_ok_spec in Hokt as (T0 & T1 & T2 & T3 & T4). rewrite BT_END_eq by lia.
    rewrite (proj2 (Z.ltb_lt (bt_start t + bt_size t - 1) (bt_start b))) by lia. rewrite u64_id by (unfold in_u64; lia).
    set (b' := set_bt_start (bt_start t) (set_bt_size (bt_size b + bt_size t) b)). set (vm0 := KASSERT true vm).
    assert (floats next vm0 out (l0 ++ [t]) b l2) as Hfl0 by (destruct Hfl; split; [by apply books_KASSERT | done]).
    eexists b', _, l0, [t]. split; [done|]. split_and!; [by apply (absorb_prev _ _ _ _ b) | | simpl; lia | done | | done].
    + split; [|done|done|simpl; lia]. apply seg_ok_spec. simpl. split_and!; try (done || lia). by apply mod_add_0; [lia|..].
    + unfold free_shape. simpl. replace (bt_start b - bt_start t) with (bt_size t) by lia.
      destruct (Z.eqb_spec (bt_size t) 0); [lia|]. unfold shape.
      unfold is_type in Hf. apply bool_decide_eq_true in Hf as ->. done.
  - exists b, vm, (l0 ++ [t]), []. split_and!; try done; [|by rewrite app_nil_r|unfold free_shape; by rewrite Z.sub_diag].
    split; try done. rewrite Hrun. do 2 f_equal. destruct Hlast as [(_ & _ & _ & _ & ->) | (_ & _ & -> & _)]; done.
Qed.

(** ** The supply of tags *)

(** The arena of the system, with the tags that a thread holds and the regions it
    has imported. *)
Definition outs (held : list nat) (s : vsys) : list nat := held ++ v_lent s ++ map bt_id (v_static s).

Definition sys_ok (held : list nat) (regs : list (Z * Z)) (s : vsys) : Prop :=
  vmem_ok (v_next s) (v_vm s) (outs held s) (regs ++ v_inflight s).

Lemma trim_tags_perm n n0 l : let '(k, st, po) := trim_tags n n0 l in l ≡ₚ k ++ st ++ po.
Proof.
  revert n0. induction l as [|b l IH]; intros n0; simpl; [done|]. destruct (n0 <=? n); [by rewrite !app_nil_r|].
  destruct (bt_private b).
  - specialize (IH n0). destruct (trim_tags n n0 l) as [[k st] po]. simpl. by rewrite <-IH.
  - specialize (IH (n0 - 1)). destruct (trim_tags n (n0 - 1) l) as [[k st] po].
    destruct (bt_id b <? STATIC_BT_COUNT)%nat; rewrite IH.
    + by rewrite <-(app_assoc st), !Permutation_middle.
    + by rewrite !app_assoc, <-Permutation_cons_append.
Qed.

Lemma log_puts_eq (po : list bt_t) s : exists l, fold_left (fun s bt => vlog (V_pool_put bt) s) po s = set_v_log (l ++ v_log s) s /\
  Forall (fun c => exists b, c = V_pool_put b) l.
Proof.
  revert s. induction po as [|b po IH]; intros s; simpl; [exists []; by destruct s|].
  destruct (IH (vlog (V_pool_put b) s)) as (l & -> & Hl). exists (l ++ [V_pool_put b]). split; [by rewrite <-app_assoc|].
  apply Forall_app. split; [done|]. repeat constructor. by exists b.
Qed.

Lemma vmem_ok_tags next vm out out' regs k :
  ids_ok next (map bt_id (vm_seglist vm) ++ map bt_id k ++ out') ->
  vmem_ok next vm out regs -> vmem_ok next (set_vm_nfreetags (Z.of_nat (length k)) (set_vm_freetags k vm)) out' regs.
Proof. intros Hi [[] ? ? ?]. split; [|done..]. by split. Qed.

Lemma ids_ok_sub next l l' x : l ≡ₚ l' ++ x -> ids_ok next l -> ids_ok next l'.
Proof. intros -> [Hn Hf]. apply NoDup_app in Hn as (? & _ & _). apply Forall_app in Hf as [? _]. by split. Qed.

Lemma freetrim_ok held regs n s : sys_ok held regs s -> sys_ok held regs (bt_freetrim n s) /\
  vm_seglist (v_vm (bt_freetrim n s)) = vm_seglist (v_vm s) /\ frame (v_vm (bt_freetrim n s)) = frame (v_vm s) /\ v_next (bt_freetrim n s) = v_next s /\
  exists l, v_log (bt_freetrim n s) = l ++ v_log s /\ Forall (fun c => exists b, c = V_pool_put b) l.
Proof.
  intros Hok. unfold bt_freetrim. pose proof (trim_tags_perm n (vm_nfreetags (v_vm s)) (vm_freetags (v_vm s))) as Hp.
  destruct (trim_tags n _ _) as [[k st] po].
  match goal with |- context [fold_left ?f po ?s1] => destruct (log_puts_eq po s1) as (lg & -> & Hlg) end.
  split_and!; [|done | done | done | by exists lg].
  unfold sys_ok, outs in *. simpl. replace (vm_nfreetags (v_vm s) - Z.of_nat (length st + length po)) with (Z.of_nat (length k)).
  2:{ rewrite (bk_ntags _ _ _ _ _ _ (vk_books _ _ _ _ _ _ _ Hok)), Hp, !length_app. lia. }
  eapply vmem_ok_tags; [|done]. pose proof (bk_ids _ _ _ _ _ _ (vk_books _ _ _ _ _ _ _ Hok)) as Hi.
  eapply (ids_ok_sub _ _ _ (map bt_id po)); [|exact Hi]. rewrite Hp. ids_perm.
Qed.

(** ** vmem_xfree_bt *)

(** What can follow the end of a span can follow the end of any other. *)
Lemma tail_closed shift c c' l : closed c = true -> closed c' = true -> tail_ok shift limit c l = true -> tail_ok shift limit c' l = true.
Proof.
  intros Hc Hc'. destruct l as [|t l]; [done|]. rewrite !tail_cons. destruct (BT_ISSPAN_P t) eqn:Hs.
  - unfold step. rewrite Hs, Hc, Hc'. done.
  - destruct (step _ _ c t) as [c1|] eqn:E; [|done]. apply (step_seg _ _ _ _ _ Hs) in E as (Hok & st & f & -> & Hle & _).
    apply seg_ok_spec in Hok. simpl in Hc. apply Z.eqb_eq in Hc. lia.
Qed.

(** The tag left after absorbing its neighbours. *)
Record merged (l1 : list bt_t) (b : bt_t) (l2 la : list bt_t) (f : bt_t) (lb : list bt_t) : Prop := {
  mg_free : is_type BT_TYPE_FREE f = true;
  mg_before : exists x, l1 = la ++ x /\ map shape x = free_shape (bt_start f) (bt_start b - bt_start f);
  mg_after : exists y, l2 = y ++ lb /\
    map shape y = free_shape (bt_start b + bt_size b) (bt_start f + bt_size f - (bt_start b + bt_size b))
}.

Lemma coalesce_ok next vm out regs l1 b l2 : vmem_ok next vm out regs -> vm_seglist vm = l1 ++ b :: l2 -> is_type BT_TYPE_BUSY b = true ->
  let vm0 := put_tag (set_bt_type BT_TYPE_FREE b) (bt_rembusy b vm) in
  exists f vm' la lb e, (let '(bt, vm1) := coalesce_next (set_bt_type BT_TYPE_FREE b) vm0 in coalesce_prev bt vm1) = (f, vm') /\
    merged l1 b l2 la f lb /\ floats next vm' out la f lb /\ fills (vm_quantum_shift vm) la f lb e false /\
    tail_ok (vm_quantum_shift vm) limit (In (bt_start f + bt_size f) e true) lb = true /\ frame vm' = frame vm.
Proof.
  intros [Hb Ht _ _] Hl Hbusy vm0. rewrite Hl in Hb, Ht. pose proof (busy_not_span _ Hbusy) as Hns.
  apply (tiled_seg _ _ _ _ _ Hns) in Ht as (Hok & e & f & Hrun & Hle & _ & Htl).
  replace (is_type BT_TYPE_FREE b) with false in Htl by (unfold is_type in *; by destruct (bt_type b)).
  set (b0 := set_bt_type BT_TYPE_FREE b) in *.
  assert (floats next vm0 out l1 b0 l2) as Hfl by (apply (put_floats _ _ _ _ _ _ b); [done | by apply rembusy_floats]).
  assert (fills (vm_quantum_shift vm0) l1 b0 l2 e f) as Hfi by by split.
  destruct (coalesce_next_ok _ _ _ _ _ _ _ _ Hfl Hfi Htl) as (b1 & vm1 & lb & y & -> & Hfl1 & Hfi1 & Es1 & Ht1 & -> & Hy & Hfr1).
  change (vm_quantum_shift vm0) with (vm_quantum_shift vm) in *. change (frame vm0) with (frame vm) in Hfr1.
  rewrite <-(frame_shift _ _ Hfr1) in Hfi1.
  destruct (coalesce_prev_ok _ _ _ _ _ _ _ _ Hfl1 Hfi1) as (b2 & vm2 & la & x & -> & Hfl2 & Hfi2 & Ee2 & -> & Hx & Hfr2).
  exists b2, vm2, la, lb, e. rewrite (frame_shift _ _ Hfr1) in Hfi2. change (bt_start b0) with (bt_start b) in *. change (bt_size b0) with (bt_size b) in *.
  split_and!; try done; [|by rewrite Ee2|congruence]. split; [by destruct Hfi2 | by exists x; rewrite <-Es1 | exists y; split; [done|]].
  rewrite Hy. f_equal. lia.
Qed.

(** How the list and the calls change: the free tag stays, or its span leaves. *)
Definition kept (l1 : list bt_t) (b : bt_t) (l2 : list bt_t) (s s' : vsys) : Prop :=
  exists la f lb, merged l1 b l2 la f lb /\ vm_seglist (v_vm s') = la ++ f :: lb /\
    (vm_releasefn (v_vm s) = true -> forall sp, last la = Some sp -> bt_type sp = BT_TYPE_SPAN -> bt_size sp <> bt_size f) /\
    Forall (fun c => forall a n, c <> V_release a n) (take (length (v_log s') - length (v_log s)) (v_log s')).

Definition released (l1 : list bt_t) (b : bt_t) (l2 : list bt_t) (s s' : vsys) : Prop :=
  exists l0 sp f lb, merged l1 b l2 (l0 ++ [sp]) f lb /\ vm_seglist (v_vm s') = l0 ++ lb /\ vm_releasefn (v_vm s) = true /\
    bt_type sp = BT_TYPE_SPAN /\ rng sp = rng f /\ head (v_log s') = Some (V_release (bt_start sp) (bt_size sp)).

Lemma keep_ok next vm out regs la f lb l0 e : floats next vm out la f lb -> fills (vm_quantum_shift vm) la f lb e false ->
  tail_ok (vm_quantum_shift vm) limit (In (bt_start f + bt_size f) e true) lb = true ->
  spans (la ++ f :: lb) = spans l0 -> apart_all (regs ++ map rng (spans l0)) -> vm_size vm = u64 (zsum (map bt_size (spans l0))) ->
  vmem_ok next (bt_insfree VMEM_MAXORDER f vm) out regs.
Proof.
  intros Hfl [Hok Hff Hrun He] Ht Es Ha Hz. pose proof (free_not_span _ Hff) as Hns. pose proof (insfree_frame VMEM_MAXORDER f vm) as Hfr.
  pose proof Hok as (S0 & S1 & S2 & S3 & S4)%seg_ok_spec. pose proof (fl_list _ _ _ _ _ _ _ _ Hfl) as Hl.
  split; rewrite ?insfree_list, ?Hl, ?Es, ?(frame_shift _ _ Hfr); [| | done |].
  - apply insfree_lands; [done | done | split; [lia | done] | done].
  - apply tiled_seg; [done|]. split; [done|]. exists e, false. by rewrite Hff.
  - by rewrite (frame_size _ _ Hfr).
Qed.

Lemma spans_app l1 l2 : spans (l1 ++ l2) = spans l1 ++ spans l2.
Proof. apply List.filter_app. Qed.

Lemma spans_cons t l : spans (t :: l) = if BT_ISSPAN_P t then t :: spans l else spans l.
Proof. done. Qed.

Lemma merged_spans l1 b l2 la f lb : is_type BT_TYPE_BUSY b = true -> merged l1 b l2 la f lb ->
  spans (la ++ f :: lb) = spans (l1 ++ b :: l2).
Proof.
  intros Hb%busy_not_span [Hf%free_not_span (x & -> & Hx) (y & -> & Hy)].
  rewrite !spans_app, !spans_cons, Hf, Hb. by rewrite !spans_app, (spans_free_shape _ _ _ Hx), (spans_free_shape _ _ _ Hy), app_nil_r.
Qed.

Lemma release_ok next vm out regs l0 sp f lb e : floats next vm out (l0 ++ [sp]) f lb ->
  fills (vm_quantum_shift vm) (l0 ++ [sp]) f lb e false -> is_type BT_TYPE_SPAN sp = true -> bt_size sp = bt_size f ->
  tail_ok (vm_quantum_shift vm) limit (In (bt_start f + bt_size f) e true) lb = true ->
  apart_all (regs ++ map rng (spans ((l0 ++ [sp]) ++ f :: lb))) -> vm_size vm = u64 (zsum (map bt_size (spans ((l0 ++ [sp]) ++ f :: lb)))) ->
  bt_start sp = bt_start f /\
  let vm1 := bt_free f (bt_remseg f (KASSERT true vm)) in
  let vm2 := bt_free sp (bt_remseg sp vm1) in
  vm_seglist vm2 = l0 ++ lb /\ vmem_ok next (set_vm_size (u64 (vm_size vm2 - bt_size f)) vm2) out regs.
Proof.
  intros Hfl [Hok Hff Hrun He] Hsp Esz Ht Ha Hz. pose proof (free_not_span _ Hff) as Hns.
  assert (BT_ISSPAN_P sp = true) as Hss by (unfold is_type, BT_ISSPAN_P in *; by destruct (bt_type sp)).
  destruct (run_last _ _ _ _ _ _ Hrun) as (l0' & sp' & [-> [= ->]]%app_inj_tail & _ & Hlast).
  destruct Hlast as [(_ & Htl0 & Est & Ee & _) | (? & _)]; [|congruence]. split; [done|].
  pose proof (floats_pos _ _ _ _ _ _ _ _ Hfl) as [P1 P2]. destruct Hfl as [Hb Hl].
  assert (books next vm (bt_id f :: out) (l0' ++ sp' :: lb)) as Hb' by by rewrite <-app_assoc in Hb.
  destruct (books_pos _ _ _ _ _ _ _ _ Hb') as [Q1 Q2]. intros vm1 vm2.
  assert (vm_seglist vm1 = l0' ++ sp' :: lb) as El1.
  { unfold vm1, bt_remseg. rewrite free_list. simpl. rewrite Hl, filter_pos by done. by rewrite <-app_assoc. }
  assert (vm_seglist vm2 = l0' ++ lb) as El2.
  { unfold vm2, bt_remseg. rewrite free_list. cbn [vm_seglist set_vm_seglist]. by rewrite El1, filter_pos. }
  rewrite !spans_app, !spans_cons, Hss, Hns, <-app_assoc in Ha, Hz. cbn [spans List.filter app] in Ha, Hz. split; [done|]. split; cbn [vm_seglist set_vm_size vm_quantum_shift vm_size]; rewrite ?El2, ?spans_app.
  - rewrite books_size. apply books_bt_free. unfold bt_remseg. rewrite books_seglist, books_span by done.
    unfold vm1. apply books_bt_free. unfold bt_remseg. rewrite books_seglist. apply books_KASSERT; [done|]. by rewrite Permutation_middle.
  - unfold tiled. rewrite tail_app. unfold tiled, tail_ok in Htl0. destruct (run _ _ Out l0') as [c|]; [|done].
    eapply tail_closed; [|done | exact Ht]. simpl. apply Z.eqb_eq. lia.
  - rewrite map_app in Ha. simpl in Ha. rewrite app_assoc, <-Permutation_middle in Ha.
    destruct Ha as [_ Ha]. by rewrite map_app, app_assoc.
  - change (vm_size vm2) with (vm_size vm). rewrite Hz. rewrite !map_app. unfold u64. rewrite Zminus_mod_idemp_l. f_equal.
    rewrite !zsum_app. simpl. lia.
Qed.

Lemma vlog_ok held regs c s : sys_ok held regs (vlog c s) <-> sys_ok held regs s.
Proof. done. Qed.

Lemma puts_not_release (l : list vcall) : Forall (fun c => exists b, c = V_pool_put b) l -> Forall (fun c => forall a n, c <> V_release a n) l.
Proof. intros H. eapply Forall_impl; [exact H|]. by intros c [b ->]. Qed.

Lemma take_new {A} (l k : list A) : take (length (l ++ k) - length k) (l ++ k) = l.
Proof. rewrite length_app, Nat.add_sub. by rewrite take_app_length. Qed.

Lemma xfree_bt_ok held regs s l1 b l2 : sys_ok held regs s -> vm_seglist (v_vm s) = l1 ++ b :: l2 -> is_type BT_TYPE_BUSY b = true ->
  let s' := vmem_xfree_bt VMEM_MAXORDER b s in
  sys_ok held regs s' /\ conf (v_vm s') = conf (v_vm s) /\ v_next s' = v_next s /\ (kept l1 b l2 s s' \/ released l1 b l2 s s').
Proof.
  intros Hok Hl Hb s'. unfold s', vmem_xfree_bt. clear s'. rewrite Hb. set (vm := KASSERT true (v_vm s)).
  assert (vmem_ok (v_next s) vm (outs held s) (regs ++ v_inflight s)) as Hv by (destruct Hok as [? ? ? ?]; split; [by apply books_KASSERT | done..]).
  destruct (coalesce_ok _ _ _ _ l1 b l2 Hv Hl Hb) as (f & vm' & la & lb & e & Ec & Hmg & Hfl & Hfi & Ht & Hfr).
  destruct (coalesce_next _ _) as [b1 vm1]. rewrite Ec. unfold TAILQ_PREV.
  pose proof (merged_spans _ _ _ _ _ _ Hb Hmg) as Esp. pose proof (floats_pos _ _ _ _ _ _ _ _ Hfl) as [P1 P2].
  rewrite (fl_list _ _ _ _ _ _ _ _ Hfl), seg_prev_pos by done. pose proof Hfi as [_ _ Hrun _].
  destruct (run_last _ _ _ _ _ _ Hrun) as (l0 & sp & -> & _ & Hlast). rewrite last_snoc.
  assert (BT_ISSPAN_P sp || is_type BT_TYPE_BUSY sp = true) as ->.
  { destruct Hlast as [(-> & _) | (Hns & _ & Hnf & _)]; [done|]. unfold BT_ISSPAN_P, is_type in *. by destruct (bt_type sp). }
  pose proof (vk_apart _ _ _ _ _ _ _ Hv) as Ha. pose proof (vk_size _ _ _ _ _ _ _ Hv) as Hz.
  change (vm_seglist vm) with (vm_seglist (v_vm s)) in Ha, Hz. rewrite Hl, <-Esp in Ha, Hz. rewrite <-(frame_size _ _ Hfr) in Hz.
  rewrite <-(frame_shift _ _ Hfr) in Hfi, Ht.
  set (vm2 := KASSERT true vm'). assert (floats (v_next s) vm2 (outs held s) (l0 ++ [sp]) f lb) as Hfl2.
  { destruct Hfl. split; [by apply books_KASSERT | done]. }
  destruct (vm_releasefn vm2 && is_type BT_TYPE_SPAN sp && (bt_size sp =? bt_size f)) eqn:Er.
  - apply andb_true_iff in Er as [[Er Hsp]%andb_true_iff Esz%Z.eqb_eq].
    destruct (release_ok (v_next s) vm2 _ _ l0 sp f lb e Hfl2 Hfi Hsp Esz Ht Ha Hz) as (Est & El & Hv2).
    rewrite Est, Z.eqb_refl. set (vm1' := bt_free sp _) in El, Hv2 |- *. assert (conf vm1' = conf vm') as Hc1 by done. clearbody vm1'.
    set (vm3 := set_vm_size _ _) in Hv2 |- *.
    set (s3 := vlog V_broadcast (set_v_vm vm3 s)). assert (sys_ok held regs s3) as Hs3 by done.
    destruct (freetrim_ok held regs BT_MAXFREE s3 Hs3) as (Hs4 & El4 & Hfr4 & En4 & lg & Elg & Hlg).
    set (s4 := bt_freetrim BT_MAXFREE s3) in *. clearbody s4. change (frame (v_vm s3)) with (frame vm3) in Hfr4.
    split; [exact Hs4|]. split; [|split; [exact En4|]].
    + etrans; [exact (frame_conf _ _ Hfr4)|]. etrans; [exact Hc1 | exact (frame_conf _ _ Hfr)].
    + right. exists l0, sp, f, lb. split; [done|]. split; [rewrite <-El; etrans; [exact El4 | done]|].
      split; [etrans; [symmetry; exact (frame_release _ _ Hfr) | exact Er]|]. unfold rng. rewrite Est, Esz. split; [|done].
      unfold is_type in Hsp. by apply bool_decide_eq_true in Hsp.
  - set (vm3 := bt_insfree VMEM_MAXORDER f vm2).
    assert (vmem_ok (v_next s) vm3 (outs held s) (regs ++ v_inflight s)) as Hv3.
    { exact (keep_ok _ vm2 _ _ (l0 ++ [sp]) f lb _ e Hfl2 Hfi Ht eq_refl Ha Hz). }
    set (s3 := vlog V_broadcast (set_v_vm vm3 s)). assert (sys_ok held regs s3) as Hs3 by done.
    destruct (freetrim_ok held regs BT_MAXFREE s3 Hs3) as (Hs4 & El4 & Hfr4 & En4 & lg & Elg & Hlg).
    set (s4 := bt_freetrim BT_MAXFREE s3) in *. clearbody s4. change (frame (v_vm s3)) with (frame vm3) in Hfr4.
    pose proof (insfree_frame VMEM_MAXORDER f vm2) as Hfr3.
    split; [exact Hs4|]. split; [|split; [exact En4|]].
    + etrans; [exact (frame_conf _ _ Hfr4) |]. etrans; [exact (frame_conf _ _ Hfr3) | exact (frame_conf _ _ Hfr)].
    + left. exists (l0 ++ [sp]), f, lb. split; [done|]. split; [|split].
      * etrans; [exact El4|]. change (v_vm s3) with vm3. unfold vm3. rewrite insfree_list. exact (fl_list _ _ _ _ _ _ _ _ Hfl2).
      * intros Hr sp' Hsp' Ht' Esz. rewrite last_snoc in Hsp'. injection Hsp' as <-.
        assert (vm_releasefn vm2 = true) as Hr2 by (etrans; [exact (frame_release _ _ Hfr) | exact Hr]).
        unfold is_type in Er. rewrite Hr2, Ht', Esz, Z.eqb_refl in Er. done.
      * rewrite Elg. change (v_log s3) with ([V_broadcast] ++ v_log s). rewrite (app_assoc lg), take_new.
        apply Forall_app. split; [by apply puts_not_release | by repeat constructor].
Qed.

End rel.
