(* ===== verification/VmemSearch.v ===== *)
(** * The search for a block

    The free lists that vmem_xalloc of kernel/kern/subr_vmem.c walks hold the
    blocks that can do: what instant fit and best fit find, that best fit misses
    nothing, and that the assertions on the arguments say what the search needs. *)

From Stdlib Require Import ZArith Lia.
From stdpp Require Import base numbers list.
From S2P Require Import Prelude Sysctl Vmem VmemFit VmemBooks VmemInv.

(** ** The arguments *)

Lemma pow2_of_land a : 0 < a < 2 ^ 64 -> Z.land a (u64 (a - 1)) = 0 -> exists k, 0 <= k < 64 /\ a = 2 ^ k.
Proof.
  intros Ha Hl. rewrite u64_id in Hl by (unfold in_u64; lia). exists (Z.log2 a).
  pose proof (Z.log2_spec a ltac:(lia)) as [H1 H2]. pose proof (Z.log2_nonneg a).
  assert (Z.log2 a < 64) by (apply Z.log2_lt_pow2; lia). split; [lia|].
  destruct (decide (a = 2 ^ Z.log2 a)) as [? | Hne]; [done|]. exfalso.
  assert (Z.testbit (Z.land a (a - 1)) (Z.log2 a) = true) as Hb.
  { rewrite Z.land_spec, Z.bit_log2 by lia. simpl.
    assert (Z.log2 (a - 1) = Z.log2 a) as <- by (apply Z.log2_unique; lia). apply Z.bit_log2. lia. }
  by rewrite Hl, Z.bits_0 in Hb.
Qed.

Lemma pow2_mod i j : 0 <= i -> 0 <= j -> 2 ^ j mod 2 ^ i = 0 -> i <= j.
Proof.
  intros Hi Hj Hm. destruct (decide (i <= j)); [done|]. assert (2 ^ j < 2 ^ i) by (apply Z.pow_lt_mono_r; lia).
  rewrite Z.mod_small in Hm; lia.
Qed.

Section request.
Context (limit : Z).

(** A request in whole quanta that the arithmetic on words serves in any block
    below the limit. *)
Record request_ok (shift : Z) (r : request) : Prop := {
  rk_req : req_ok r;
  rk_align : rq_align r mod 2 ^ shift = 0;
  rk_phase : rq_phase r mod 2 ^ shift = 0;
  rk_size : rq_size r mod 2 ^ shift = 0;
  rk_order : rq_size r <= 2 ^ 63;
  rk_room : limit + rq_align r + rq_nocross r <= 2 ^ 64
}.

(** A placement is in whole quanta. *)
Lemma placed_quanta shift r a : 0 <= shift -> request_ok shift r -> placed r a -> a mod 2 ^ shift = 0.
Proof.
  intros Hs [[_ (k & Hk & Ek) _ _ _ _] Hal Hph _ _ _] [_ _ Ha _]. rewrite Ek in Ha, Hal.
  pose proof (pow2_mod shift k Hs ltac:(lia) Hal) as Hle. destruct (pow2_multiple shift k) as (c & _ & E); [lia|].
  pose proof (Z.div_mod a (2 ^ k)) as Ed. rewrite Ha, E in Ed. rewrite Ed by lia.
  replace (c * 2 ^ shift * (a / (c * 2 ^ shift)) + rq_phase r) with (rq_phase r + c * (a / (c * 2 ^ shift)) * 2 ^ shift) by lia.
  rewrite Z.mod_add by lia. done.
Qed.

(** The assertions of vmem_xalloc give such a request. *)
Lemma args_request vm size0 align r :
  0 <= vm_quantum_shift vm < 64 -> vm_quantum_mask vm = 2 ^ vm_quantum_shift vm - 1 ->
  rq_size r = vmem_roundup_size vm size0 -> rq_align r = (if align =? 0 then vm_quantum_mask vm + 1 else align) ->
  in_u64 align -> in_u64 (rq_phase r) -> in_u64 (rq_nocross r) -> in_u64 (rq_min r) -> in_u64 (rq_max r) ->
  xalloc_args vm size0 align r = true -> rq_size r <= 2 ^ 63 -> limit + rq_align r + rq_nocross r <= 2 ^ 64 ->
  request_ok (vm_quantum_shift vm) r.
Proof.
  intros Hs Hm Esz Eal Ia Ip In_ Imin Imax Hargs Hord Hroom. unfold xalloc_args, nz in Hargs.
  rewrite !andb_true_iff, !orb_true_iff, negb_true_iff, !Z.ltb_lt, !Z.leb_le, !Z.eqb_eq in Hargs.
  destruct Hargs as (((((((((((A0 & A1) & A2) & A3) & A4) & A5) & A6) & A7) & A8) & A9) & A10) & A11).
  rewrite !land_mask in * by (done || lia). unfold in_u64 in *.
  assert (exists k, 0 <= k < 64 /\ rq_align r = 2 ^ k) as (k & Hk & Ek).
  { rewrite Eal. destruct (Z.eqb_spec align 0) as [_ | ?]; [exists (vm_quantum_shift vm); split; [done | lia]|].
    apply pow2_of_land; [lia | done]. }
  assert (rq_align r mod 2 ^ vm_quantum_shift vm = 0) as Hal.
  { rewrite Eal. destruct (Z.eqb_spec align 0); [|done]. rewrite Hm. replace (2 ^ vm_quantum_shift vm - 1 + 1) with (1 * 2 ^ vm_quantum_shift vm) by lia.
    apply Z.mod_mul. lia. }
  assert (rq_size r mod 2 ^ vm_quantum_shift vm = 0) as Hsz.
  { rewrite Esz. unfold vmem_roundup_size. rewrite Hm. replace (Z.lnot (2 ^ vm_quantum_shift vm - 1)) with (- 2 ^ vm_quantum_shift vm) by (unfold Z.lnot; lia).
    rewrite land_neg_pow2 by (done || apply u64_range). rewrite Zminus_mod_idemp_r, Z.sub_diag. done. }
  pose proof (pow2_range k Hk). split; try done. split; [lia | by exists k | | | lia | lia].
  - rewrite Eal. destruct (Z.eqb_spec align 0); lia.
  - destruct (decide (rq_nocross r = 0)) as [? | Hnz]; [by left | right].
    destruct (pow2_of_land (rq_nocross r)) as (j & Hj & Ej); [lia | done|]. exists j. split; [done|]. split; [done|].
    pose proof (pow2_range j Hj). rewrite Ej in A11 |- *.
    assert (rq_phase r < 2 ^ 63) by (rewrite Eal in *; destruct (Z.eqb_spec align 0); lia).
    rewrite u64_id, cross_spec in A11 by (done || (unfold in_u64; lia)). by apply negb_false_iff, Z.eqb_eq in A11.
Qed.

End request.

(** ** Tags by identity *)

Section search.
Context (hash32 : Z -> Z) (VMEM_MAXORDER : nat) (limit : Z).
Context (Horder : (64 <= VMEM_MAXORDER)%nat) (Hlimit : limit < 2 ^ 64).

Notation books := (books hash32 VMEM_MAXORDER).
Notation vmem_ok := (vmem_ok hash32 VMEM_MAXORDER limit).
Notation request_ok := (request_ok limit).

Lemma tag_in vm t : NoDup (map bt_id (vm_seglist vm)) -> t ∈ vm_seglist vm -> tag vm (bt_id t) = t.
Proof.
  intros Hn (l1 & l2 & E)%list_elem_of_split. unfold tag. rewrite E in *. rewrite tag_at_pos; [done|].
  rewrite map_app in Hn. apply NoDup_app in Hn as (_ & Hd & _). intros Hin. apply (Hd _ Hin). by left.
Qed.

(** The free lists hold exactly the free tags. *)
Lemma freelist_in next vm out regs i b id : vmem_ok next vm out regs -> vm_freelist vm !! i = Some b ->
  id ∈ b <-> (exists t, t ∈ vm_seglist vm /\ bt_id t = id /\ is_type BT_TYPE_FREE t = true /\
                       Z.to_nat (Z.log2 (qsize vm (bt_size t))) = i).
Proof.
  intros [Hb _ _ _] Hl. rewrite (ix_in _ _ _ (bk_free _ _ _ _ _ _ Hb) i b id Hl). unfold fkey, qsize.
  split; intros (t & Ht & Hi & Hk); exists t; (split; [done|]; split; [done|]).
  - destruct (is_type BT_TYPE_FREE t); [|done]. by injection Hk.
  - destruct Hk as [-> <-]. done.
Qed.

Lemma seg_facts next vm out regs t : vmem_ok next vm out regs -> t ∈ vm_seglist vm -> seg_ok (vm_quantum_shift vm) limit t = true.
Proof.
  intros [_ Ht _ _] (l1 & l2 & E)%list_elem_of_split. rewrite E in Ht. unfold tiled in Ht. rewrite tail_app in Ht.
  destruct (run _ _ _ l1) as [c|]; [|done]. rewrite tail_cons in Ht. unfold step in Ht. by destruct (seg_ok _ _ t).
Qed.

Lemma blk_facts next vm out regs r t : vmem_ok next vm out regs -> request_ok (vm_quantum_shift vm) r ->
  t ∈ vm_seglist vm -> blk_ok r t.
Proof.
  intros Hv Hr Ht. pose proof (seg_facts _ _ _ _ _ Hv Ht) as (S0 & S1 & S2 & _)%seg_ok_spec.
  destruct Hr as [_ _ _ _ _ Hroom]. split; lia.
Qed.

(** ** The walk of the free lists *)

Section walk.
Context (next : nat) (vm : vmem) (out : list nat) (regs : list (Z * Z)) (r : request).
Context (Hv : vmem_ok next vm out regs) (Hr : request_ok (vm_quantum_shift vm) r).

(** A free tag of the segment list. *)
Definition free_tag (id : nat) : Prop := exists t, t ∈ vm_seglist vm /\ bt_id t = id /\ is_type BT_TYPE_FREE t = true.

Definition found_ok (l : list nat) (res : option (nat * Z) * bool) : Prop :=
  snd res = true /\
  match fst res with
  | Some (id, a) => id ∈ l /\ (inside (tag vm id) a (rq_size r) /\ placed r a) /\
      forall b, inside (tag vm id) b (rq_size r) /\ placed r b -> a <= b
  | None => forall id b, id ∈ l -> ~ (inside (tag vm id) b (rq_size r) /\ placed r b)
  end.

Lemma free_tag_tag id : free_tag id -> tag vm id ∈ vm_seglist vm /\ bt_id (tag vm id) = id /\ is_type BT_TYPE_FREE (tag vm id) = true.
Proof.
  intros (t & Ht & <- & Hf). rewrite tag_in; [done | | done]. eapply books_nodup, (vk_books _ _ _ _ _ _ _ Hv).
Qed.

Lemma search_list_ok l : (forall id, id ∈ l -> free_tag id) -> found_ok l (search_list vm r l).
Proof.
  induction l as [|id l IH]; intros Hl; simpl; [split; [done | by intros ? ? ?%elem_of_nil]|].
  assert (found_ok l (search_list vm r l)) as IH' by (apply IH; intros x Hx; apply Hl; by right). clear IH.
  assert (forall res, found_ok l res -> (forall b, ~ (inside (tag vm id) b (rq_size r) /\ placed r b)) -> found_ok (id :: l) res) as Hskip.
  { intros [[[id' a]|] ok] [Hok Hres] Hno; (split; [done|]); simpl in *.
    - destruct Hres as [Hin Hres]. split; [by right | done].
    - intros x b [-> | Hx]%elem_of_cons; [apply Hno | by apply Hres]. }
  destruct (Z.ltb_spec (bt_size (tag vm id)) (rq_size r)) as [Hlt | Hge].
  { apply Hskip; [done|]. intros b [[? ?] _]. lia. }
  destruct (free_tag_tag id) as (Ht & _ & _); [apply Hl; by left|].
  pose proof (fit_bt_spec r (tag vm id) (rk_req _ _ _ Hr) (blk_facts _ _ _ _ _ _ Hv Hr Ht) Hge) as [Hok Hres].
  destruct (fit_bt r (tag vm id)) as [[a|] ok]; simpl in Hok, Hres; subst ok.
  - split; [done|]. simpl. split; [by left | done].
  - destruct (search_list vm r l) as [x ok']. by apply Hskip.
Qed.

(** Instant fit looks at the first of each list. *)
Lemma search_instant_heads ls : (forall l id, l ∈ ls -> id ∈ l -> rq_size r <= bt_size (tag vm id)) ->
  search_instant vm r ls = search_list vm r (omap head ls).
Proof.
  induction ls as [|[|id l] ls IH]; intros Hl; simpl; [done | apply IH; intros l id Hin; apply Hl; by right|].
  rewrite (proj2 (Z.ltb_ge _ _)) by (apply (Hl (id :: l)); by left).
  rewrite IH by (intros l' id' Hin; apply Hl; by right). done.
Qed.

(** ** The first list *)

Lemma size_ok_request : size_ok vm (rq_size r).
Proof. destruct Hr as [[? _ _ _ _ _] _ _ ? _ _]. by split. Qed.

Lemma toalloc_spec instant : exists i, bt_freehead_toalloc VMEM_MAXORDER vm (rq_size r) instant = (i, true) /\
  (forall t, size_ok vm (bt_size t) -> rq_size r <= bt_size t -> instant = false -> (i <= Z.to_nat (Z.log2 (qsize vm (bt_size t))))%nat) /\
  (forall t, size_ok vm (bt_size t) -> instant = true -> (i <= Z.to_nat (Z.log2 (qsize vm (bt_size t))))%nat -> rq_size r <= bt_size t).
Proof.
  pose proof (vk_books _ _ _ _ _ _ _ Hv) as Hbk. pose proof (bk_shift _ _ _ _ _ _ Hbk) as Hsh. pose proof (bk_mask _ _ _ _ _ _ Hbk) as Hm.
  pose proof size_ok_request as Hso. pose proof (qsize_range vm _ (proj1 Hsh) Hso) as Hq. pose proof (order_range _ Hq) as Ho.
  destruct Hso as [Hs1 Hs2]. pose proof (rk_order _ _ _ Hr) as Hord.
  assert (forall t, size_ok vm (bt_size t) -> (rq_size r <= bt_size t <-> qsize vm (rq_size r) <= qsize vm (bt_size t))) as Hmono.
  { intros t [Ht1 Ht2]. unfold qsize. rewrite !Z.shiftr_div_pow2 by lia.
    pose proof (Z.div_mod (rq_size r) (2 ^ vm_quantum_shift vm)) as E1. pose proof (Z.div_mod (bt_size t) (2 ^ vm_quantum_shift vm)) as E2.
    rewrite Hs2 in E1. rewrite Ht2 in E2. split; [intros; apply Z.div_le_mono; lia | nia]. }
  assert (qsize vm (rq_size r) <= 2 ^ 63) as Hq63.
  { unfold qsize. rewrite Z.shiftr_div_pow2 by lia. etrans; [|exact Hord]. apply Z.div_le_upper_bound; nia. }
  unfold bt_freehead_toalloc, SIZE2ORDER. set (q := qsize vm (rq_size r)) in *. set (idx := if instant && _ then _ else _).
  assert (0 <= idx < 64) as Hidx.
  { unfold idx. destruct instant; simpl; [|lia]. destruct (Z.eqb_spec (ORDER2SIZE (Z.log2 q)) q) as [_ | Hne]; simpl; [lia|].
    unfold ORDER2SIZE in Hne. rewrite Z.shiftl_1_l, u64_id in Hne by (unfold in_u64; split; [lia | apply Z.pow_lt_mono_r; lia]).
    pose proof (Z.log2_spec q ltac:(lia)). assert (Z.log2 q < 63); [|lia]. apply Z.log2_lt_pow2; [lia|].
    destruct (decide (q = 2 ^ 63)) as [E | ?]; [|lia]. rewrite E, Z.log2_pow2 in Hne by lia. done. }
  eexists. split; [f_equal|split].
  - rewrite land_mask, Hs2 by (done || lia). unfold nz. rewrite !andb_true_iff, !negb_true_iff, !Z.eqb_neq, Z.eqb_eq, Z.leb_le, Z.ltb_lt. lia.
  - intros t Ht Hle ->. unfold idx. simpl. apply Z2Nat.inj_le; [lia | apply Z.log2_nonneg|]. apply Z.log2_le_mono. by apply Hmono.
  - intros t Ht -> Hle. apply Hmono; [done|]. pose proof (qsize_range vm _ (proj1 Hsh) Ht) as Hqt. fold q.
    apply Z2Nat.inj_le in Hle; [|lia | apply Z.log2_nonneg]. unfold idx, ORDER2SIZE in Hle. simpl in Hle.
    rewrite Z.shiftl_1_l, u64_id in Hle by (unfold in_u64; split; [lia | apply Z.pow_lt_mono_r; lia]).
    pose proof (Z.log2_spec q ltac:(lia)) as [L1 L2]. pose proof (Z.log2_spec _ (proj1 Hqt)) as [L3 L4].
    destruct (Z.eqb_spec (2 ^ Z.log2 q) q) as [E | _]; simpl in Hle.
    + rewrite <-E. etrans; [|exact L3]. apply Z.pow_le_mono_r; lia.
    + assert (2 ^ (Z.log2 q + 1) <= 2 ^ Z.log2 (qsize vm (bt_size t))) by (apply Z.pow_le_mono_r; lia).
      replace (Z.succ (Z.log2 q)) with (Z.log2 q + 1) in L2 by lia. lia.
Qed.

Lemma elem_of_drop_lookup {A} (x : A) n l : x ∈ drop n l -> exists i, (n <= i)%nat /\ l !! i = Some x.
Proof. intros (i & Hi)%list_elem_of_lookup. rewrite lookup_drop in Hi. exists (n + i)%nat. split; [lia | done]. Qed.

(** What the search gives: a free block with a placement, the least one in it;
    best fit gives none only if no free block has one. *)
Lemma search_ok instant : match search VMEM_MAXORDER vm r instant with
  | (Some (id, a), ok) => ok = true /\ free_tag id /\ (inside (tag vm id) a (rq_size r) /\ placed r a) /\
      forall b, inside (tag vm id) b (rq_size r) /\ placed r b -> a <= b
  | (None, ok) => ok = true /\ (instant = false -> forall t b, t ∈ vm_seglist vm -> is_type BT_TYPE_FREE t = true ->
      ~ (inside t b (rq_size r) /\ placed r b))
  end.
Proof.
  unfold search. destruct (toalloc_spec instant) as (i & -> & Hbest & Hinst).
  set (ls := drop i (vm_freelist vm)).
  assert (forall l id, l ∈ ls -> id ∈ l -> free_tag id /\ (i <= Z.to_nat (Z.log2 (qsize vm (bt_size (tag vm id)))))%nat) as Hls.
  { intros l id (n & Hn & Hl)%elem_of_drop_lookup Hid. apply (freelist_in _ _ _ _ _ _ _ Hv Hl) in Hid as (t & Ht & Hi & Hf & Hk).
    split; [by exists t|]. rewrite <-Hi, tag_in, Hk; [done | eapply books_nodup, (vk_books _ _ _ _ _ _ _ Hv) | done]. }
  assert (forall t, t ∈ vm_seglist vm -> size_ok vm (bt_size t)) as Hso.
  { intros t Ht. pose proof (seg_facts _ _ _ _ _ Hv Ht) as (S0 & S1 & S2 & S3 & S4)%seg_ok_spec. split; [lia | done]. }
  assert (exists cs, (forall id, id ∈ cs -> free_tag id) /\ (instant = false -> cs = concat ls) /\
    (if instant then search_instant vm r ls else search_list vm r (concat ls)) = search_list vm r cs) as (cs & Hcs & Ecs & ->).
  { destruct instant.
    - exists (omap head ls). split; [|split; [done|]].
      + intros id (l & Hl & Hh)%list_elem_of_omap. destruct l as [|x l]; [done|]. injection Hh as ->. apply (Hls (id :: l)); [done | by left].
      + apply search_instant_heads. intros l id Hl Hid. destruct (Hls l id Hl Hid) as [Hft Hle]. apply Hinst; [|done..].
        apply Hso. by destruct (free_tag_tag id Hft).
    - exists (concat ls). split; [|done]. intros id (l & Hl & Hid)%list_elem_of_In%List.in_concat.
      apply list_elem_of_In in Hl, Hid. by apply (Hls l id). }
  pose proof (search_list_ok cs Hcs) as Hf. destruct (search_list vm r cs) as [[[id a]|] ok]; destruct Hf as [Eok Hf]; simpl in Eok, Hf; subst ok.
  - destruct Hf as (Hin & Hpl & Hle). split; [done|]. split; [by apply Hcs | done].
  - split; [done|]. intros -> t b Ht Hft Hpl. rewrite (Ecs eq_refl) in Hf. apply (Hf (bt_id t) b).
    2:{ rewrite tag_in; [done | eapply books_nodup, (vk_books _ _ _ _ _ _ _ Hv) | done]. }
    set (n := Z.to_nat (Z.log2 (qsize vm (bt_size t)))).
    pose proof (ix_key _ _ _ (bk_free _ _ _ _ _ _ (vk_books _ _ _ _ _ _ _ Hv)) t n Ht) as Hn.
    destruct (lookup_lt_is_Some_2 (vm_freelist vm) n) as [l Hl]; [apply Hn; unfold fkey; by rewrite Hft|].
    apply list_elem_of_In, List.in_concat. exists l. rewrite <-!list_elem_of_In. split.
    + apply (list_elem_of_lookup_2 _ (n - i)). unfold ls. rewrite lookup_drop. rewrite <-Hl. f_equal.
      assert (i <= n)%nat; [|lia]. apply Hbest; [by apply Hso | destruct Hpl as [[? ?] _]; lia | done].
    + apply (freelist_in _ _ _ _ _ _ _ Hv Hl). by exists t.
Qed.

End walk.

End search.

(** * Allocation under the lock

    The operations of kernel/kern/subr_vmem.c that drop the lock of the arena on
    their way: the supply of tags, spans, imports and the loop of vmem_xalloc.
    What other threads and the source arena do is the interface [VmemRely]. *)

(** A region of whole quanta below the limit. *)
Definition region_ok (shift limit a n : Z) : Prop :=
  0 <= a /\ 0 < n /\ a + n <= limit /\ a mod 2 ^ shift = 0 /\ n mod 2 ^ shift = 0.

(** Other threads keep the invariant, whatever tags and regions this one holds;
    the source gives regions that the arena does not have. *)
Class VmemRely (hash32 : Z -> Z) (VMEM_MAXORDER : nat) (limit : Z) (VO : VmemOut) : Prop := {
  rely_others held regs s : sys_ok hash32 VMEM_MAXORDER limit held regs s ->
    sys_ok hash32 VMEM_MAXORDER limit held regs (vo_others s) /\ conf (v_vm (vo_others s)) = conf (v_vm s);
  rely_import held s size a xsize : sys_ok hash32 VMEM_MAXORDER limit held [] s -> vo_import s size = Some (a, xsize) ->
    let n := if vm_ximport (v_vm s) then xsize else size in
    region_ok (vm_quantum_shift (v_vm s)) limit a n /\
    apart_all ((a, n) :: v_inflight s ++ map rng (spans (vm_seglist (v_vm s))))
}.

Section sys.
Context (hash32 : Z -> Z) (VMEM_MAXORDER : nat) (limit : Z).
Context (Horder : (64 <= VMEM_MAXORDER)%nat) (Hlimit : limit < 2 ^ 64).
Context `{VO : VmemOut} {Hrely : VmemRely hash32 VMEM_MAXORDER limit VO}.

Notation books := (books hash32 VMEM_MAXORDER).
Notation vmem_ok := (vmem_ok hash32 VMEM_MAXORDER limit).
Notation sys_ok := (sys_ok hash32 VMEM_MAXORDER limit).

(** The invariant, and the configuration of [s0]. *)
Definition sysc (held : list nat) (regs : list (Z * Z)) (s0 s : vsys) : Prop :=
  sys_ok held regs s /\ conf (v_vm s) = conf (v_vm s0).

Lemma sysc_refl held regs s : sys_ok held regs s -> sysc held regs s s.
Proof. done. Qed.

Lemma sysc_trans held regs held' regs' s0 s1 s2 : sysc held regs s0 s1 -> sysc held' regs' s1 s2 -> sysc held' regs' s0 s2.
Proof. intros [_ E1] [H E2]. split; [done | congruence]. Qed.

Lemma unlocked_ok held regs c s0 s : sysc held regs s0 s -> sysc held regs s0 (unlocked c s).
Proof. intros [H E]. destruct (rely_others held regs s H) as [H' E']. split; [exact H' | by rewrite <-E]. Qed.

Lemma vlog_sysc held regs c s0 s : sysc held regs s0 s -> sysc held regs s0 (vlog c s).
Proof. done. Qed.

Lemma KASSERT_sysc held regs b s0 s : b = true -> sysc held regs s0 s -> sysc held regs s0 (on_vm (KASSERT b) s).
Proof.
  intros -> [[Hb Ht Ha Hz] E]. split; [|done]. by split; [apply books_KASSERT|..].
Qed.

(** ** The supply *)

Lemma give_ok next vm out regs b : vmem_ok next vm (bt_id b :: out) regs -> vmem_ok next (bt_free b vm) out regs.
Proof. intros [? ? ? ?]. split; [by apply books_bt_free | done..]. Qed.

Lemma vmem_ok_out next vm out out' regs : out ≡ₚ out' -> vmem_ok next vm out regs -> vmem_ok next vm out' regs.
Proof. intros Hp [? ? ? ?]. split; [by rewrite <-Hp | done..]. Qed.

Lemma next_ok next vm out regs : vmem_ok next vm out regs -> vmem_ok (S next) vm (next :: out) regs.
Proof.
  intros [[] ? ? ?]. split; [|done..]. split; try done. destruct bk_ids as [Hn Hf].
  assert (forall l1 l2 l3 : list nat, l1 ++ l2 ++ next :: l3 ≡ₚ next :: l1 ++ l2 ++ l3) as Hp by (intros; ids_perm).
  rewrite Hp. split.
  - apply NoDup_cons. split; [|done]. intros Hin. rewrite Forall_forall in Hf. specialize (Hf _ Hin). lia.
  - constructor; [lia|]. eapply Forall_impl; [exact Hf|]. simpl. lia.
Qed.

Lemma bt_free_sysc held regs b s0 s : sysc (bt_id b :: held) regs s0 s -> sysc held regs s0 (on_vm (bt_free b) s).
Proof. intros [H E]. split; [|done]. apply give_ok. exact H. Qed.

Lemma refill_static_ok next out regs l vm : vmem_ok next vm (out ++ map bt_id l) regs ->
  let '(l', vm') := refill_static l vm in vmem_ok next vm' (out ++ map bt_id l') regs /\ conf vm' = conf vm.
Proof.
  revert vm. induction l as [|b l IH]; intros vm H; simpl; [done|]. destruct (_ && _); [|done].
  specialize (IH (bt_free (set_bt_private false b) vm)). destruct (refill_static l _) as [l' vm'].
  destruct IH as [IH1 IH2]; [|split; [done | by rewrite IH2]]. apply give_ok. eapply vmem_ok_out; [|exact H]. simpl. by rewrite Permutation_middle.
Qed.

Lemma refill_pool_ok held regs fuel s0 s s' : sysc held regs s0 s -> refill_pool fuel s = Some s' -> sysc held regs s0 s'.
Proof.
  revert s. induction fuel as [|fuel IH]; intros s H; cbn [refill_pool]; cbv zeta; destruct (_ <=? _); try done; [by intros [= <-] | | by intros [= <-]].
  pose proof (unlocked_ok held regs V_pool_get s0 s H) as H'. destruct (vo_pool (v_log s)); cbn [negb]; [|by intros [= <-]].
  apply IH. destruct H' as [Hs E]. split; [|exact E]. set (s1 := unlocked V_pool_get s) in *. clearbody s1.
  apply (give_ok _ _ _ _ (mk_bt (v_next s1) false BT_TYPE_FREE 0 0)). apply next_ok. exact Hs.
Qed.

Lemma refill_locked_ok held regs fuel s0 s e s' : sysc held regs s0 s -> bt_refill_locked fuel s = Some (e, s') -> sysc held regs s0 s'.
Proof.
  intros H. unfold bt_refill_locked. destruct (_ <? _); [by intros [= <- <-]|].
  destruct (refill_static (v_static s) (v_vm s)) as [st vm] eqn:Er.
  assert (sysc held regs s0 (set_v_static st (set_v_vm vm s))) as H1.
  { destruct H as [Hs E]. pose proof (refill_static_ok (v_next s) (held ++ v_lent s) (regs ++ v_inflight s) (v_static s) (v_vm s)) as Hr.
    rewrite Er in Hr. destruct Hr as [Hr1 Hr2]; [rewrite <-app_assoc; exact Hs|]. split; [|simpl; by rewrite Hr2].
    rewrite <-app_assoc in Hr1. exact Hr1. }
  destruct (refill_pool fuel _) as [s1|] eqn:Ep; simpl; [|done]. pose proof (refill_pool_ok _ _ _ _ _ _ H1 Ep) as H2.
  destruct (_ <=? _); intros [= <- <-]; [done | by apply unlocked_ok].
Qed.

(** A tag for the caller; without VM_POPULATING there always is one. *)
Lemma bt_alloc_ok held regs fuel flags s0 s ob s' : VM_POPULATING flags = false -> sysc held regs s0 s ->
  bt_alloc fuel flags s = Some (ob, s') ->
  sysc (match ob with Some b => bt_id b :: held | None => held end) regs s0 s' /\ (ob = None -> VM_SLEEP flags = false).
Proof.
  intros Hpop. revert s. induction fuel as [|fuel IH]; intros s H; simpl; rewrite Hpop, andb_true_r.
  all: destruct (Z.leb_spec (vm_nfreetags (v_vm s)) BT_MINRESERVE) as [Hle | Hgt].
  2, 4: unfold take_tag; pose proof H as [Hs E];
    pose proof (bk_ntags _ _ _ _ _ _ (vk_books _ _ _ _ _ _ _ Hs)) as Hn;
    destruct (vm_freetags (v_vm s)) as [|b l] eqn:Ef; [simpl in Hn; unfold BT_MINRESERVE in Hgt; lia|];
    intros [= <- <-]; split; [|done]; split; [|exact E]; unfold sys_ok, on_vm, outs; simpl;
    replace (vm_nfreetags (v_vm s) - 1) with (Z.of_nat (length l)) by (rewrite Hn; simpl; lia);
    (eapply vmem_ok_tags; [|exact Hs]); pose proof (bk_ids _ _ _ _ _ _ (vk_books _ _ _ _ _ _ _ Hs)) as Hi;
    rewrite Ef in Hi; unfold outs in Hi; eapply ids_ok_perm; [|exact Hi]; ids_perm.
  - done.
  - destruct (bt_refill_locked fuel s) as [[e s1]|] eqn:Er; simpl; [|done]. pose proof (refill_locked_ok _ _ _ _ _ _ _ H Er) as H1.
    destruct (nz e); [|by apply IH]. destruct (VM_SLEEP flags) eqn:Esl; simpl.
    + apply IH. by apply unlocked_ok, vlog_sysc.
    + intros [= <- <-]. done.
Qed.

(** ** Spans *)

Lemma add_span_ok next vm out regs sp fr addr size ty : BT_ISSPAN_P (mk_bt sp false ty 0 0) = true ->
  region_ok (vm_quantum_shift vm) limit addr size -> forall p1 p2,
  vmem_ok next vm (fr :: sp :: out) ((addr, size) :: regs) ->
  let btspan := mk_bt sp p1 ty addr size in
  let btfree := mk_bt fr p2 BT_TYPE_FREE addr size in
  let vm1 := bt_insfree VMEM_MAXORDER btfree (bt_insseg btfree (Some btspan) (bt_insseg_tail btspan vm)) in
  let vm' := set_vm_size (u64 (vm_size vm1 + size)) vm1 in
  vmem_ok next vm' out regs /\ conf vm' = conf vm /\ vm_seglist vm' = vm_seglist vm ++ [btspan; btfree].
Proof.
  intros Hty (R0 & R1 & R2 & R3 & R4) p1 p2 [Hb Ht Ha Hz] btspan btfree vm1 vm'.
  assert (BT_ISSPAN_P btspan = true) as Hsp by exact Hty.
  assert (seg_ok (vm_quantum_shift vm) limit btspan = true) as Hok by (by apply seg_ok_spec).
  assert (bt_id btspan ∉ map bt_id (vm_seglist vm)) as Hni.
  { apply (bk_out hash32 VMEM_MAXORDER next vm (bt_id btfree :: out) _ btspan). by rewrite Permutation_swap. }
  assert (bt_insseg btfree (Some btspan) (bt_insseg_tail btspan vm) = set_vm_seglist (vm_seglist vm ++ [btspan; btfree]) vm) as E1.
  { unfold bt_insseg, bt_insseg_tail. cbn [vm_seglist set_vm_seglist]. by rewrite insert_after_pos. }
  assert (vm_seglist vm' = vm_seglist vm ++ [btspan; btfree]) as El by (unfold vm', vm1; cbn [vm_seglist set_vm_size]; by rewrite insfree_list, E1).
  assert (frame vm1 = frame vm) as Hfr by (unfold vm1; by rewrite insfree_frame, E1).
  assert (conf vm' = conf vm) as Hc by exact (frame_conf _ _ Hfr).
  split; [|done]. split; rewrite ?El, ?(conf_shift _ _ Hc).
  - unfold vm'. rewrite books_size. unfold vm1. rewrite E1.
    set (w := bt_insfree _ _ _). rewrite (Permutation_app_comm (vm_seglist vm)). simpl. rewrite Permutation_swap. unfold w.
    apply (books_insfree _ _ Horder); [done | split; simpl; [lia | done] |]. rewrite books_seglist.
    rewrite <-books_span by done. by rewrite Permutation_swap.
  - rewrite (app_assoc _ [btspan] [btfree] : vm_seglist vm ++ [btspan; btfree] = _).
    apply tiled_seg; [done|]. split; [by apply seg_ok_spec|]. exists (addr + size), false. split_and!; [|simpl; lia | done |].
    + exact (tiled_span _ _ _ _ Hsp Hok Ht).
    + simpl. unfold tail_ok. simpl. apply Z.eqb_refl.
  - rewrite spans_app, !spans_cons, Hsp, (free_not_span btfree), map_app by done. cbn [map spans List.filter].
    rewrite app_assoc, <-Permutation_cons_append. exact Ha.
  - rewrite spans_app, !spans_cons, Hsp, (free_not_span btfree), map_app, zsum_app by done. cbn [map spans List.filter].
    unfold vm'. cbn [vm_size set_vm_size]. rewrite (frame_size _ _ Hfr), Hz. unfold u64. rewrite Zplus_mod_idemp_l. f_equal.
    simpl. lia.
Qed.

Lemma add1_ok held regs fuel addr size flags ty s0 s e s' : VM_POPULATING flags = false ->
  ty = BT_TYPE_SPAN \/ ty = BT_TYPE_SPAN_STATIC -> region_ok (vm_quantum_shift (v_vm s0)) limit addr size ->
  sysc held ((addr, size) :: regs) s0 s -> vmem_add1 VMEM_MAXORDER fuel addr size flags ty s = Some (e, s') ->
  (e = 0 /\ sysc held regs s0 s' /\ exists s1 sp fr, sysc held ((addr, size) :: regs) s0 s1 /\
     shape sp = (ty, addr, size) /\ shape fr = (BT_TYPE_FREE, addr, size) /\
     vm_seglist (v_vm s') = vm_seglist (v_vm s1) ++ [sp; fr]) \/
  (e = ENOMEM /\ sysc held ((addr, size) :: regs) s0 s' /\ VM_SLEEP flags = false).
Proof.
  intros Hpop Hty Hreg H. unfold vmem_add1. destruct (bt_alloc fuel flags s) as [[o1 s1]|] eqn:E1; [|done]. cbn [mbind option_bind].
  destruct (bt_alloc_ok _ _ _ _ _ _ _ _ Hpop H E1) as [H1 N1]. destruct o1 as [b1|]; [|intros [= <- <-]; right; auto].
  destruct (bt_alloc fuel flags s1) as [[o2 s2]|] eqn:E2; [|done]. cbn [mbind option_bind].
  destruct (bt_alloc_ok _ _ _ _ _ _ _ _ Hpop H1 E2) as [H2 N2]. destruct o2 as [b2|].
  2:{ intros [= <- <-]. right. split; [done|]. split; [by apply bt_free_sysc | auto]. }
  intros [= <- <-]. left. split; [done|]. destruct H2 as [Hs2 Ec].
  destruct (add_span_ok (v_next s2) (v_vm s2) (outs held s2) (regs ++ v_inflight s2) (bt_id b1) (bt_id b2) addr size ty) with (p1 := bt_private b1) (p2 := bt_private b2)
    as (Hv & Hc & El); [by destruct Hty as [-> | ->] | by rewrite (conf_shift _ _ Ec) | exact Hs2|].
  split; [split; [exact Hv | by etrans; [exact Hc|]]|].
  exists (on_vm (bt_free b1) (on_vm (bt_free b2) s2)), (mk_bt (bt_id b1) (bt_private b1) ty addr size), (mk_bt (bt_id b2) (bt_private b2) BT_TYPE_FREE addr size).
  split; [|split; [done|]; split; [done|]; exact El]. by apply bt_free_sysc, bt_free_sysc.
Qed.

Lemma import_ok held fuel size flags s0 s e s' : VM_POPULATING flags = false -> sysc held [] s0 s ->
  vmem_import VMEM_MAXORDER fuel size flags s = Some (e, s') ->
  sysc held [] s0 s' /\ (vm_importfn (v_vm s0) = false -> e <> 0 /\ s' = s).
Proof.
  intros Hpop H. unfold vmem_import.
  assert (vm_importfn (v_vm s) = vm_importfn (v_vm s0)) as Ei by (destruct H as [_ E]; by injection E).
  destruct (vm_importfn (v_vm s)); cbn [negb]; [|by intros [= <- <-]]. rewrite <-Ei.
  set (n := if vm_largeimport (v_vm s) then _ else _). destruct (vo_import s n) as [[a xs]|] eqn:Ea.
  2:{ intros [= <- <-]. split; [by apply unlocked_ok | done]. }
  set (m := if vm_ximport (v_vm s) then xs else n).
  destruct (rely_import held s n a xs (proj1 H) Ea) as [Hreg Hap]. fold m in Hreg, Hap.
  assert (sysc held [(a, m)] s0 s) as H1 by (destruct H as [[? ? ? ?] ?]; split; [by split | done]).
  apply (unlocked_ok _ _ (V_import n)) in H1. set (s1 := unlocked (V_import n) s) in *. clearbody s1.
  rewrite (conf_shift _ _ (proj2 H)) in Hreg.
  destruct (vmem_add1 _ _ a m flags _ s1) as [[e1 s2]|] eqn:E1; [|done]. cbn [mbind option_bind].
  destruct (add1_ok _ _ _ _ _ _ _ _ _ _ _ Hpop (or_introl eq_refl) Hreg H1 E1) as [(-> & H2 & _) | (-> & H2 & _)]; simpl.
  - intros [= <- <-]. by split.
  - intros [= <- <-]. split; [|done]. apply (unlocked_ok _ _ (V_release a m)) in H2. destruct H2 as [[? ? Hap2 ?] ?].
    split; [|done]. split; try done. by destruct Hap2.
Qed.

(** ** vmem_xalloc *)

(** One allocation of the request, at the state [s]. *)
Definition allocated (r : request) (addr : Z) (s s' : vsys) : Prop :=
  exists l1 t l2 mid, vm_seglist (v_vm s) = l1 ++ t :: l2 /\ is_type BT_TYPE_FREE t = true /\
    (inside t addr (rq_size r) /\ placed r addr) /\ (forall b, inside t b (rq_size r) /\ placed r b -> addr <= b) /\
    map shape mid = carved t addr (rq_size r) /\ vm_seglist (v_vm s') = l1 ++ mid ++ l2.

(** No free block has a placement. *)
Definition exhausted (r : request) (s : vsys) : Prop :=
  forall t b, t ∈ vm_seglist (v_vm s) -> is_type BT_TYPE_FREE t = true -> ~ (inside t b (rq_size r) /\ placed r b).

Lemma take_sysc held r s0 s n1 n2 id a : request_ok limit (vm_quantum_shift (v_vm s)) r ->
  sysc (bt_id n1 :: bt_id n2 :: held) [] s0 s -> free_tag (v_vm s) id -> inside (tag (v_vm s) id) a (rq_size r) /\ placed r a ->
  (forall b, inside (tag (v_vm s) id) b (rq_size r) /\ placed r b -> a <= b) ->
  exists vm', xalloc_take hash32 VMEM_MAXORDER id a (rq_size r) n1 n2 (v_vm s) = (a, vm') /\
    sysc held [] s0 (set_v_vm vm' s) /\ allocated r a s (set_v_vm vm' s).
Proof.
  intros Hr [Hs Ec] Hf [Hin Hpl] Hle. pose proof (bk_shift _ _ _ _ _ _ (vk_books _ _ _ _ _ _ _ Hs)) as Hsh.
  destruct (free_tag_tag _ _ _ _ _ _ _ Hs id Hf) as (Ht & Eid & Hfr). set (t := tag (v_vm s) id) in *.
  apply list_elem_of_split in Ht as (l1 & l2 & El).
  destruct (xalloc_take_ok hash32 VMEM_MAXORDER limit Horder Hlimit (v_next s) (v_vm s) (outs held s) (v_inflight s) l1 t l2 n1 n2 a (rq_size r)) as (mid & vm' & Ex & Em & El' & Hv & Hfrm);
    [exact Hs | done | done | done | by destruct Hr as [[[? ?] _ _ _ _ _] _ _ _ _ _] | eapply placed_quanta; [lia | done | done] | by destruct Hr |].
  exists vm'. rewrite <-Eid. split; [done|]. split; [split; [exact Hv | by rewrite <-Ec; apply frame_conf]|].
  exists l1, t, l2, mid. done.
Qed.

(** How vmem_xalloc ends: with an allocation at some state of the arena under the
    lock, or with every placement taken at one. *)
Definition xalloc_end (held : list nat) (r : request) (flags : vm_flag_t) (s0 : vsys) (res : Z * Z * vsys) : Prop :=
  let '(e, addr, s') := res in
  sysc held [] s0 s' /\
  ((e = 0 /\ exists held' s1, sysc held' [] s0 s1 /\ allocated r addr s1 s') \/
   (e = ENOMEM /\ exists held' s1, sysc held' [] s0 s1 /\ exhausted r s1 /\
      (vm_importfn (v_vm s0) = false -> VM_SLEEP flags = false -> vm_seglist (v_vm s') = vm_seglist (v_vm s1)))).

Lemma xalloc_loop_ok held r flags n1 n2 fuel : VM_POPULATING flags = false -> forall instant s0 s res,
  request_ok limit (vm_quantum_shift (v_vm s0)) r -> sysc (bt_id n1 :: bt_id n2 :: held) [] s0 s ->
  xalloc_loop hash32 VMEM_MAXORDER fuel r flags instant n1 n2 s = Some res -> xalloc_end held r flags s0 res.
Proof.
  intros Hpop. induction fuel as [|fuel IH]; intros instant s0 s res Hr H; [done|]. cbn [xalloc_loop].
  assert (request_ok limit (vm_quantum_shift (v_vm s)) r) as Hr' by by rewrite (conf_shift _ _ (proj2 H)).
  pose proof (search_ok _ _ _ Horder Hlimit _ _ _ _ _ (proj1 H) Hr' instant) as Hse.
  destruct (search VMEM_MAXORDER (v_vm s) r instant) as [[[id a]|] ok].
  - destruct Hse as (-> & Hf & Hpl & Hle). apply (KASSERT_sysc _ _ true) in H; [|done]. set (s1 := on_vm (KASSERT true) s) in *.
    destruct (take_sysc held r s0 s1 n1 n2 id a Hr' H Hf Hpl Hle) as (vm' & -> & Hs' & Hal).
    intros [= <-]. split; [done|]. left. split; [done|]. eauto.
  - destruct Hse as (-> & Hex). apply (KASSERT_sysc _ _ true) in H; [|done]. set (s1 := on_vm (KASSERT true) s) in *.
    assert (vm_seglist (v_vm s1) = vm_seglist (v_vm s)) as El by done. clearbody s1.
    destruct instant; [by apply IH|].
    assert (exhausted r s1) as Hx by (intros t b Ht; rewrite El in Ht; by apply Hex).
    assert (forall s2, sysc (bt_id n1 :: bt_id n2 :: held) [] s0 s2 -> (vm_importfn (v_vm s0) = false -> s2 = s1) ->
      xalloc_end held r flags s0 (xalloc_fail n1 n2 s2)) as Hfail.
    { intros s2 Hs2 E2. split.
      - apply (bt_free_sysc held [] n2 s0 (on_vm (bt_free n1) s2)), bt_free_sysc. done.
      - right. split; [done|]. eexists _, s1. split; [exact H|]. split; [done|]. intros Ei _. by rewrite (E2 Ei). }
    destruct (_ || _); [intros [= <-]; by apply Hfail|].
    destruct (vmem_import VMEM_MAXORDER fuel (rq_size r) flags s1) as [[e s2]|] eqn:Ei; [|done]. cbn [mbind option_bind].
    destruct (import_ok _ _ _ _ _ _ _ _ Hpop H Ei) as [H2 Hno]. destruct (e =? 0); [by apply IH|].
    destruct (VM_SLEEP flags); [apply IH; [done|]; by apply unlocked_ok, vlog_sysc|].
    intros [= <-]. apply Hfail; [done|]. intros En. by destruct (Hno En).
Qed.

(** The request that the arguments make. *)
Definition request_of (vm : vmem) (size0 align phase nocross minaddr maxaddr : Z) : request :=
  mk_req (vmem_roundup_size vm size0) (if align =? 0 then vm_quantum_mask vm + 1 else align) phase nocross minaddr maxaddr.

Lemma vmem_xalloc_ok held fuel size0 align phase nocross minaddr maxaddr flags s e addr s' : VM_POPULATING flags = false ->
  let r := request_of (v_vm s) size0 align phase nocross minaddr maxaddr in
  xalloc_args (v_vm s) size0 align r = true -> request_ok limit (vm_quantum_shift (v_vm s)) r -> sys_ok held [] s ->
  vmem_xalloc hash32 VMEM_MAXORDER fuel size0 align phase nocross minaddr maxaddr flags s = Some (e, addr, s') ->
  xalloc_end held r flags s (e, addr, s') \/ (e = ENOMEM /\ sysc held [] s s' /\ VM_SLEEP flags = false).
Proof.
  intros Hpop r Hargs Hr H. unfold vmem_xalloc. cbv zeta. change (mk_req _ _ _ _ _ _) with r. rewrite Hargs.
  pose proof (KASSERT_sysc held [] true s s eq_refl (sysc_refl _ _ _ H)) as H0. set (s0 := on_vm (KASSERT true) s) in *. clearbody s0.
  destruct (bt_alloc fuel flags s0) as [[o1 s1]|] eqn:E1; [|done]. cbn [mbind option_bind].
  destruct (bt_alloc_ok _ _ _ _ _ _ _ _ Hpop H0 E1) as [H1 N1]. destruct o1 as [b1|]; [|intros [= <- <- <-]; right; auto].
  destruct (bt_alloc fuel flags s1) as [[o2 s2]|] eqn:E2; [|done]. cbn [mbind option_bind].
  destruct (bt_alloc_ok _ _ _ _ _ _ _ _ Hpop H1 E2) as [H2 N2]. destruct o2 as [b2|].
  2:{ intros [= <- <- <-]. right. split; [done|]. split; [by apply bt_free_sysc | auto]. }
  intros Hl. left. refine (xalloc_loop_ok held r flags b1 b2 fuel Hpop _ _ _ _ Hr _ Hl).
  destruct H2 as [H2 Ec]. split; [|done]. unfold sys_ok, VmemInv.sys_ok, outs in *. eapply vmem_ok_out; [|exact H2]. simpl. apply Permutation_swap.
Qed.

End sys.
