(* ===== verification/VmemOps.v ===== *)
(** * Release, lookup and rehashing in an arena

    The operations of kernel/kern/subr_vmem.c on allocated regions: the hash
    finds the tag of an address, vmem_xfree gives back exactly its region,
    vmem_xfreeall ends with nothing allocated, vmem_rehash loses no tag. *)

From Stdlib Require Import ZArith Lia.
From stdpp Require Import base numbers list.
From S2P Require Import Prelude Sysctl Vmem VmemFit VmemBooks VmemInv VmemSearch.

(** ** Allocated regions *)

Definition busy (l : list bt_t) : list (Z * Z) := map rng (List.filter (is_type BT_TYPE_BUSY) l).

Lemma busy_app l1 l2 : busy (l1 ++ l2) = busy l1 ++ busy l2.
Proof. unfold busy. by rewrite List.filter_app, map_app. Qed.

Lemma busy_free_shape x a n : map shape x = free_shape a n -> busy x = [].
Proof.
  unfold free_shape. destruct (n =? 0); intros Hp; [by destruct x|].
  destruct x as [|t [|? ?]]; [done | | done]. injection Hp as Ety _ _. unfold busy. simpl. unfold is_type. by rewrite Ety.
Qed.

Lemma busy_carved mid t a n : map shape mid = carved t a n -> busy mid = [(a, n)].
Proof.
  intros (pre & b & post & -> & Epre & Eb & Epost)%carved_split. apply shape_eq in Eb as (Ety & Es & En).
  rewrite busy_app, (busy_free_shape _ _ _ Epre). cbn [app]. unfold busy in *. cbn [List.filter]. unfold is_type at 1. rewrite Ety. simpl.
  pose proof (busy_free_shape _ _ _ Epost) as E. unfold busy in E. rewrite E. unfold rng. by rewrite Es, En.
Qed.

Lemma busy_one b : is_type BT_TYPE_BUSY b = true -> busy [b] = [rng b].
Proof. intros H. unfold busy. simpl. by rewrite H. Qed.

Lemma busy_not b : is_type BT_TYPE_BUSY b = false -> busy [b] = [].
Proof. intros H. unfold busy. simpl. by rewrite H. Qed.

Lemma busy_at l1 b l2 : is_type BT_TYPE_BUSY b = true -> busy (l1 ++ b :: l2) = busy l1 ++ rng b :: busy l2.
Proof. intros H. rewrite busy_app, (busy_app [b] l2 : busy (b :: l2) = _), busy_one by done. done. Qed.

Lemma merged_busy l1 b l2 la f lb : merged l1 b l2 la f lb -> busy (la ++ f :: lb) = busy l1 ++ busy l2.
Proof.
  intros [Hf (x & -> & Hx) (y & -> & Hy)]. rewrite busy_app, (busy_app [f] lb : busy (f :: lb) = _).
  rewrite (busy_not f) by (unfold is_type in *; by destruct (bt_type f)).
  by rewrite !busy_app, (busy_free_shape _ _ _ Hx), (busy_free_shape _ _ _ Hy), app_nil_r.
Qed.

Section ops.
Context (hash32 : Z -> Z) (VMEM_MAXORDER : nat) (limit : Z).
Context (Horder : (64 <= VMEM_MAXORDER)%nat) (Hlimit : limit < 2 ^ 64).

Notation books := (books hash32 VMEM_MAXORDER).
Notation vmem_ok := (vmem_ok hash32 VMEM_MAXORDER limit).
Notation sys_ok := (sys_ok hash32 VMEM_MAXORDER limit).

(** An allocation adds its region, a release takes one away. *)
Lemma allocated_busy r a s s' : allocated r a s s' -> busy (vm_seglist (v_vm s')) ≡ₚ (a, rq_size r) :: busy (vm_seglist (v_vm s)).
Proof.
  intros (l1 & t & l2 & mid & -> & Hf & _ & _ & Em & ->). rewrite !busy_app, (busy_carved _ _ _ _ Em), (busy_app [t] l2 : busy (t :: l2) = _).
  rewrite (busy_not t) by (unfold is_type in *; by destruct (bt_type t)). simpl. by rewrite Permutation_middle.
Qed.

Lemma freed_busy l1 b l2 s s' : kept l1 b l2 s s' \/ released l1 b l2 s s' -> busy (vm_seglist (v_vm s')) = busy l1 ++ busy l2.
Proof.
  intros [(la & f & lb & Hm & -> & _) | (l0 & sp & f & lb & Hm & -> & _ & Hsp & _)].
  - exact (merged_busy _ _ _ _ _ _ Hm).
  - rewrite <-(merged_busy _ _ _ _ _ _ Hm). rewrite !busy_app, (busy_not sp), (busy_app [f] lb : busy (f :: lb) = _), (busy_not f).
    + by rewrite app_nil_r.
    + destruct Hm as [Hf _ _]. unfold is_type in *. by destruct (bt_type f).
    + unfold is_type. by rewrite Hsp.
Qed.

Lemma apart_in (l : list bt_t) t1 t2 : apart_all (map rng l) -> t1 ∈ l -> t2 ∈ l -> t1 <> t2 -> apart (rng t1) (rng t2).
Proof.
  induction l as [|t l IH]; [by intros _ ?%elem_of_nil|]. simpl. intros [Hf Ha] H1 H2 Hne. rewrite Forall_forall in Hf.
  apply elem_of_cons in H1 as [-> | H1]; apply elem_of_cons in H2 as [-> | H2]; [done | | | by apply IH].
  - apply Hf. by apply list_elem_of_fmap_2.
  - assert (apart (rng t) (rng t1)) as [? | ?] by (apply Hf; by apply list_elem_of_fmap_2); [right | left]; done.
Qed.

Lemma segs_in t l : t ∈ segs l <-> t ∈ l /\ BT_ISSPAN_P t = false.
Proof. unfold segs. by rewrite !list_elem_of_In, List.filter_In, negb_true_iff. Qed.

(** The segments of an arena are apart. *)
Lemma vmem_segs_apart next vm out regs : vmem_ok next vm out regs -> apart_all (map rng (segs (vm_seglist vm))).
Proof.
  intros [_ Ht Ha _]. unfold tiled, tail_ok in Ht. destruct (run _ _ _ _) as [c|] eqn:Er; [|done].
  eapply segs_apart; [exact Er|]. simpl. clear -Ha. induction regs as [|r regs IH]; [done|]. apply IH. by destruct Ha.
Qed.

(** A segment is known by its address. *)
Lemma seg_unique next vm out regs t1 t2 : vmem_ok next vm out regs -> t1 ∈ vm_seglist vm -> t2 ∈ vm_seglist vm ->
  BT_ISSPAN_P t1 = false -> BT_ISSPAN_P t2 = false -> bt_start t1 = bt_start t2 -> t1 = t2.
Proof.
  intros Hv H1 H2 S1 S2 E. destruct (decide (bt_id t1 = bt_id t2)) as [Eid | Hne].
  - rewrite <-(tag_in vm t1), <-(tag_in vm t2), Eid; try done; eapply books_nodup, (vk_books _ _ _ _ _ _ _ Hv).
  - exfalso. assert (apart (rng t1) (rng t2)) as Hap.
    { eapply (apart_in (segs (vm_seglist vm))); [by eapply vmem_segs_apart | by apply segs_in.. | congruence]. }
    pose proof (seg_facts _ _ _ _ _ _ _ _ Hv H1) as (_ & Z1 & _)%seg_ok_spec. pose proof (seg_facts _ _ _ _ _ _ _ _ Hv H2) as (_ & Z2 & _)%seg_ok_spec.
    unfold apart, rng in Hap. simpl in Hap. lia.
Qed.

(** bt_lookupbusy finds the allocated region of an address. *)
Lemma lookupbusy_ok next vm out regs addr t : vmem_ok next vm out regs ->
  bt_lookupbusy hash32 vm addr = Some t <-> t ∈ vm_seglist vm /\ is_type BT_TYPE_BUSY t = true /\ bt_start t = addr.
Proof.
  intros Hv. pose proof (vk_books _ _ _ _ _ _ _ Hv) as Hb. pose proof (books_nodup _ _ _ _ _ _ Hb) as Hn.
  pose proof (hashhead_range hash32 vm addr (bk_hash _ _ _ _ _ _ Hb)) as Hr.
  destruct (lookup_lt_is_Some_2 _ _ Hr) as [l Hl]. pose proof (fun id => ix_in _ _ _ (bk_busy _ _ _ _ _ _ Hb) _ _ id Hl) as Hin.
  unfold bt_lookupbusy. rewrite (list_lookup_total_correct _ _ _ Hl). split.
  - destruct (List.find _ l) as [id|] eqn:Ef; [|done]. intros [= <-]. apply List.find_some in Ef as [Hid E].
    apply list_elem_of_In, Hin in Hid as (x & Hx & <- & Hk). rewrite tag_in in * by done. unfold hkey in Hk.
    split; [done|]. split; [by destruct (is_type _ x) | by apply Z.eqb_eq].
  - intros (Ht & Hbt & Es). assert (bt_id t ∈ l) as Hid.
    { apply Hin. exists t. split; [done|]. split; [done|]. rewrite hashhead_hkey by done. by rewrite Es. }
    destruct (List.find _ l) as [id|] eqn:Ef.
    + apply List.find_some in Ef as [Hid' E%Z.eqb_eq]. apply list_elem_of_In, Hin in Hid' as (x & Hx & <- & Hk). rewrite tag_in in * by done.
      f_equal. unfold hkey in Hk. destruct (is_type BT_TYPE_BUSY x) eqn:Hbx; [|done].
      eapply seg_unique; [done | done | done | by apply busy_not_span | by apply busy_not_span | congruence].
    + exfalso. apply list_elem_of_In in Hid. pose proof (List.find_none _ _ Ef _ Hid) as Hc. simpl in Hc.
      rewrite tag_in, Es, Z.eqb_refl in Hc by done. done.
Qed.

(** ** vmem_xfree *)

(** What releasing the region of [t] does: nothing else that is allocated
    changes. *)
Definition freed (t : bt_t) (s s' : vsys) : Prop :=
  exists l1 l2, vm_seglist (v_vm s) = l1 ++ t :: l2 /\ (kept l1 t l2 s s' \/ released l1 t l2 s s').

Lemma freed_perm t s s' : is_type BT_TYPE_BUSY t = true -> freed t s s' -> busy (vm_seglist (v_vm s)) ≡ₚ rng t :: busy (vm_seglist (v_vm s')).
Proof.
  intros Hb (l1 & l2 & El & Hk). rewrite (freed_busy _ _ _ _ _ Hk), El, busy_at by done. by rewrite Permutation_middle.
Qed.

Lemma roundup_ok vm size : 0 <= vm_quantum_shift vm < 64 -> vm_quantum_mask vm = 2 ^ vm_quantum_shift vm - 1 ->
  0 < size -> size + vm_quantum_mask vm < 2 ^ 64 ->
  size <= vmem_roundup_size vm size < size + 2 ^ vm_quantum_shift vm /\ vmem_roundup_size vm size mod 2 ^ vm_quantum_shift vm = 0.
Proof.
  intros Hs Hm H0 Hb. unfold vmem_roundup_size. rewrite Hm in *.
  replace (Z.lnot (2 ^ vm_quantum_shift vm - 1)) with (- 2 ^ vm_quantum_shift vm) by (unfold Z.lnot; lia).
  pose proof (pow2_range _ Hs). rewrite land_neg_pow2, u64_id by (done || apply u64_range || (unfold in_u64; lia)).
  pose proof (Z.mod_pos_bound (size + (2 ^ vm_quantum_shift vm - 1)) (2 ^ vm_quantum_shift vm)).
  split; [lia|]. rewrite Zminus_mod_idemp_r, Z.sub_diag. by apply Z.mod_0_l; lia.
Qed.

Lemma vmem_xfree_ok held regs s t size : sys_ok held regs s -> t ∈ vm_seglist (v_vm s) -> is_type BT_TYPE_BUSY t = true ->
  0 < size -> bt_size t = vmem_roundup_size (v_vm s) size ->
  let s' := vmem_xfree hash32 VMEM_MAXORDER (bt_start t) size s in
  sys_ok held regs s' /\ conf (v_vm s') = conf (v_vm s) /\ freed t s s'.
Proof.
  intros Hs Ht Hb Hz Er s'. pose proof (vk_books _ _ _ _ _ _ _ Hs) as Hbk.
  pose proof (seg_facts _ _ _ _ _ _ _ _ Hs Ht) as (S0 & S1 & S2 & S3 & S4)%seg_ok_spec.
  unfold s', vmem_xfree. clear s'. rewrite land_mask, S3, (proj2 (Z.ltb_lt 0 size) Hz) by apply Hbk. cbn [andb Z.eqb].
  assert (sys_ok held regs (set_v_vm (KASSERT true (v_vm s)) s)) as Hs1 by (destruct Hs as [? ? ? ?]; split; [by apply books_KASSERT | done..]).
  rewrite (proj2 (lookupbusy_ok _ (KASSERT true (v_vm s)) _ _ (bt_start t) t Hs1)) by done.
  change (vmem_roundup_size (KASSERT true (v_vm s)) size) with (vmem_roundup_size (v_vm s) size).
  rewrite <-Er, !Z.eqb_refl. cbn [orb andb]. set (s2 := set_v_vm _ s).
  assert (sys_ok held regs s2) as Hs2 by (destruct Hs1 as [? ? ? ?]; split; [by apply books_KASSERT | done..]).
  apply list_elem_of_split in Ht as (l1 & l2 & El).
  destruct (xfree_bt_ok _ _ _ Horder Hlimit held regs s2 l1 t l2 Hs2 El Hb) as (Hs' & Hc & _ & Hk).
  split; [done|]. split; [done|]. exists l1, l2. done.
Qed.

(** ** vmem_xfreeall *)

Lemma find_busy l : match List.find (is_type BT_TYPE_BUSY) l with
  | Some b => is_type BT_TYPE_BUSY b = true /\ exists l1 l2, l = l1 ++ b :: l2
  | None => busy l = []
  end.
Proof.
  destruct (List.find _ l) as [b|] eqn:E.
  - apply List.find_some in E as [Hin Hb]. split; [done|]. apply list_elem_of_In, list_elem_of_split in Hin as (l1 & l2 & ->). eauto.
  - unfold busy. assert (List.filter (is_type BT_TYPE_BUSY) l = []) as ->; [|done].
    destruct (List.filter _ l) as [|b k] eqn:Ef; [done|]. exfalso.
    assert (List.In b (List.filter (is_type BT_TYPE_BUSY) l)) as [Hin Hb]%List.filter_In by (rewrite Ef; by left).
    pose proof (List.find_none _ _ E _ Hin). congruence.
Qed.

Section freeall.
Context `{VO : VmemOut} {Hrely : VmemRely hash32 VMEM_MAXORDER limit VO}.

(** While nobody allocates, as many rounds as there are allocated regions do. *)
Lemma xfreeall_ok (Hquiet : forall s, (length (busy (vm_seglist (v_vm (vo_others s)))) <= length (busy (vm_seglist (v_vm s))))%nat)
  held fuel s : sys_ok held [] s -> (length (busy (vm_seglist (v_vm s))) <= fuel)%nat ->
  exists s', vmem_xfreeall VMEM_MAXORDER fuel s = Some s' /\ sys_ok held [] s' /\ busy (vm_seglist (v_vm s')) = [].
Proof.
  revert s. induction fuel as [|fuel IH]; intros s Hs Hle; cbn [vmem_xfreeall];
    pose proof (find_busy (vm_seglist (v_vm s))) as Hf; destruct (List.find _ _) as [b|]; try (exists s; done).
  - destruct Hf as [Hb (l1 & l2 & El)]. rewrite El, busy_at, length_app in Hle by done. simpl in Hle. lia.
  - destruct Hf as [Hb (l1 & l2 & El)]. destruct (xfree_bt_ok _ _ _ Horder Hlimit held [] s l1 b l2 Hs El Hb) as (Hs1 & _ & _ & Hk).
    set (s1 := vmem_xfree_bt VMEM_MAXORDER b s) in *. clearbody s1.
    pose proof (unlocked_ok hash32 VMEM_MAXORDER limit held [] V_relock s1 s1 (sysc_refl _ _ _ _ _ _ Hs1)) as [Hs2 _].
    destruct (IH (unlocked V_relock s1)) as (s' & E & H'); [exact Hs2 | | by exists s'].
    etrans; [apply Hquiet|]. rewrite (freed_busy _ _ _ _ _ Hk). rewrite El, busy_at, !length_app in Hle by done. simpl in Hle. rewrite length_app. lia.
Qed.

End freeall.

(** ** vmem_rehash *)

(** The identities on an index, once each. *)
Lemma indexed_concat key bs l : NoDup (map bt_id l) -> indexed key bs l ->
  NoDup (concat bs) /\ forall id, id ∈ concat bs <-> exists t, t ∈ l /\ bt_id t = id /\ is_Some (key t).
Proof.
  intros Hn Hix. pose proof Hix as [H1 H2 H3].
  assert (forall t u, t ∈ l -> u ∈ l -> bt_id t = bt_id u -> t = u) as Hinj.
  { intros t u Ht Hu E. clear -Hn Ht Hu E. induction l as [|x l IH]; [by apply elem_of_nil in Ht|].
    simpl in Hn. apply NoDup_cons in Hn as [Hx Hn].
    apply elem_of_cons in Ht as [-> | Ht]; apply elem_of_cons in Hu as [-> | Hu]; [done | | | by apply IH];
      exfalso; apply Hx; [rewrite E | rewrite <-E]; by apply list_elem_of_fmap_2. }
  split.
  - assert (forall n, NoDup (concat (take n bs)) /\ forall id, id ∈ concat (take n bs) -> exists i b, (i < n)%nat /\ bs !! i = Some b /\ id ∈ b) as Hk.
    { induction n as [|n [IH1 IH2]]; [split; [constructor | by intros ? ?%elem_of_nil]|].
      destruct (bs !! n) as [b|] eqn:Eb.
      - rewrite (take_S_r _ _ _ Eb), concat_app. simpl. rewrite app_nil_r. split.
        + apply NoDup_app. split; [done|]. split; [|by eapply H1]. intros id Hid Hid'.
          destruct (IH2 _ Hid) as (i & b' & Hi & Eb' & Hib). apply (H2 _ _ _ Eb) in Hid' as (t & Ht & E1 & K1).
          apply (H2 _ _ _ Eb') in Hib as (u & Hu & E2 & K2). rewrite (Hinj t u) in K1 by (done || congruence). rewrite K1 in K2. injection K2. lia.
        + intros id [Hid | Hid]%elem_of_app; [destruct (IH2 _ Hid) as (i & b' & ? & ? & ?); exists i, b'; split; [lia | done] | exists n, b; split; [lia | done]].
      - apply lookup_ge_None in Eb. rewrite take_ge in * by lia. split; [done|]. intros id Hid. destruct (IH2 _ Hid) as (i & b & ? & ? & ?). exists i, b. split; [lia | done]. }
    destruct (Hk (length bs)) as [Hk' _]. by rewrite take_ge in Hk' by done.
  - intros id. rewrite list_elem_of_In, List.in_concat. split.
    + intros (b & Hb & Hid). apply list_elem_of_In in Hb, Hid. apply list_elem_of_lookup in Hb as (i & Hb).
      apply (H2 _ _ _ Hb) in Hid as (t & ? & ? & ?). exists t. eauto.
    + intros (t & Ht & E & i & K). destruct (lookup_lt_is_Some_2 bs i) as [b Hb]; [by eapply H3|].
      exists b. rewrite <-!list_elem_of_In. split; [by eapply list_elem_of_lookup_2|]. apply (H2 _ _ _ Hb). eauto.
Qed.

Lemma drop_id_other id (b : list nat) : id ∉ b -> drop_id id b = b.
Proof.
  intros Hb. unfold drop_id. induction b as [|x b IH]; [done|]. simpl. apply not_elem_of_cons in Hb as [Hx Hb].
  rewrite (proj2 (Nat.eqb_neq x id)) by done. simpl. by rewrite IH.
Qed.

(** Taking a busy tag off the old hash and putting it on the new one. *)
Lemma rehash_tag_eq vm t : vm_asserts vm = true -> is_type BT_TYPE_BUSY t = true ->
  0 < vm_nbusytag vm <= vm_maxbusytag vm -> in_u64 (vm_inuse vm) -> (forall b, b ∈ vm_hashlist vm -> bt_id t ∉ b) ->
  bt_insbusy hash32 t (bt_rembusy t vm) =
  set_vm_hashlist (alter (cons (bt_id t)) (bt_hashhead hash32 vm (bt_start t)) (vm_hashlist vm)) vm.
Proof.
  intros Ha Hb Hn Hu Hni.
  assert (map (drop_id (bt_id t)) (vm_hashlist vm) = vm_hashlist vm) as Ed.
  { clear -Hni. induction (vm_hashlist vm) as [|b l IH]; [done|]. simpl. rewrite IH by (intros b' Hb'; apply Hni; by right).
    f_equal. apply drop_id_other, Hni. by left. }
  assert (u64 (u64 (vm_inuse vm - bt_size t) + bt_size t) = vm_inuse vm) as Eu.
  { unfold u64. rewrite Zplus_mod_idemp_l. replace (vm_inuse vm - bt_size t + bt_size t) with (vm_inuse vm) by lia. by apply Z.mod_small. }
  destruct vm. unfold bt_insbusy, bt_rembusy, bt_hashhead. cbn -[u64 u32 Z.sub Z.add] in *. subst. rewrite Ed, Hb.
  rewrite (proj2 (Z.ltb_lt 0 vm_nbusytag)) by lia. replace (vm_nbusytag - 1 + 1) with vm_nbusytag by lia.
  rewrite (proj2 (Z.ltb_ge vm_maxbusytag vm_nbusytag)) by lia. cbn -[u64 u32 Z.sub Z.add]. rewrite Eu. done.
Qed.

Lemma tag_hashlist H vm id : tag (set_vm_hashlist H vm) id = tag vm id.
Proof. done. Qed.

Lemma hashlist_twice H H' vm : set_vm_hashlist H (set_vm_hashlist H' vm) = set_vm_hashlist H vm.
Proof. done. Qed.

Lemma rehash_one_eq H vm id : vm_asserts vm = true -> is_type BT_TYPE_BUSY (tag vm id) = true -> bt_id (tag vm id) = id ->
  0 < vm_nbusytag vm <= vm_maxbusytag vm -> in_u64 (vm_inuse vm) -> (forall b, b ∈ H -> id ∉ b) ->
  rehash_one hash32 (set_vm_hashlist H vm) id =
  set_vm_hashlist (alter (cons id) (bt_hashhead hash32 (set_vm_hashlist H vm) (bt_start (tag vm id))) H) vm.
Proof.
  intros Ha Hb Ei Hn Hu Hni. unfold rehash_one. rewrite tag_hashlist.
  pose proof (rehash_tag_eq (set_vm_hashlist H vm) (tag vm id) Ha Hb Hn Hu) as E. rewrite Ei in E. rewrite (E Hni). apply hashlist_twice.
Qed.

Lemma indexed_rehash H D vm t : (exists h, length H = (2 ^ h)%nat) -> is_type BT_TYPE_BUSY t = true -> bt_id t ∉ map bt_id D ->
  indexed (hkey hash32 (length H)) H D ->
  let H' := alter (cons (bt_id t)) (bt_hashhead hash32 (set_vm_hashlist H vm) (bt_start t)) H in
  length H' = length H /\ indexed (hkey hash32 (length H')) H' (t :: D).
Proof.
  intros Hh Hb HD Hix H'. assert (length H' = length H) as El by apply length_alter. split; [done|]. rewrite El. unfold H'.
  apply indexed_insert; [| | done | done].
  - exact (hashhead_hkey hash32 (set_vm_hashlist H vm) _ Hb).
  - exact (hashhead_range hash32 (set_vm_hashlist H vm) _ Hh).
Qed.

Lemma fold_left_cons {A B} (f : A -> B -> A) x l a : fold_left f (x :: l) a = fold_left f l (f a x).
Proof. done. Qed.

Lemma rehash_fold vm todo : forall H D, vm_asserts vm = true -> 0 <= vm_nbusytag vm <= vm_maxbusytag vm ->
  (todo <> [] -> 0 < vm_nbusytag vm) -> in_u64 (vm_inuse vm) -> (exists h, length H = (2 ^ h)%nat) ->
  NoDup todo -> (forall id, id ∈ todo -> is_type BT_TYPE_BUSY (tag vm id) = true /\ bt_id (tag vm id) = id /\ id ∉ map bt_id D) ->
  indexed (hkey hash32 (length H)) H D ->
  exists H', fold_left (rehash_one hash32) todo (set_vm_hashlist H vm) = set_vm_hashlist H' vm /\ length H' = length H /\
    indexed (hkey hash32 (length H)) H' (map (tag vm) todo ++ D).
Proof.
  induction todo as [|id todo IH]; intros H D Ha Hn Hp Hu Hh Hnd Ht Hix; [by exists H|]. rewrite fold_left_cons.
  apply NoDup_cons in Hnd as [Hni Hnd]. destruct (Ht id) as (Hb & Ei & HD); [by left|].
  assert (forall b, b ∈ H -> id ∉ b) as Hout.
  { intros b (i & Hi)%list_elem_of_lookup Hin. apply (ix_in _ _ _ Hix _ _ _ Hi) in Hin as (t & Htd & E & _).
    apply HD. rewrite <-E. by apply list_elem_of_fmap_2. }
  rewrite rehash_one_eq; [|done | done | done | split; [by apply Hp | by destruct Hn] | done | done].
  pose proof (indexed_rehash H D vm (tag vm id) Hh Hb) as [El Hix']; [by rewrite Ei | done|]. rewrite Ei in El, Hix'.
  set (H1 := alter _ _ H) in *. clearbody H1. rewrite <-El in Hh |- *.
  destruct (IH H1 (tag vm id :: D)) as (H' & EH & EL & HI); [done | done | intros _; by apply Hp | done | done | done | | done |].
  - intros x Hx. destruct (Ht x) as (? & ? & ?); [by right|]. split; [done|]. split; [done|]. rewrite map_cons, not_elem_of_cons.
    split; [|done]. intros ->. apply Hni. by rewrite <-Ei.
  - exists H'. split; [done|]. split; [done|]. rewrite map_cons, <-app_comm_cons. by rewrite Permutation_middle.
Qed.

(** The hash of any size accounts for the same tags. *)
Lemma vmem_rehash_ok next vm out regs n got : vmem_ok next vm out regs -> 0 < n ->
  let '(e, vm') := vmem_rehash hash32 n got vm in
  (e = if got then 0 else ENOMEM) /\ vmem_ok next vm' out regs /\ frame vm' = frame vm /\ vm_seglist vm' = vm_seglist vm /\
  (got = true -> Z.of_nat (length (vm_hashlist vm')) = 2 ^ (Z.log2 n + 1)).
Proof.
  intros Hv Hn. unfold vmem_rehash. destruct got; [|done]. cbn [negb]. pose proof (vk_books _ _ _ _ _ _ _ Hv) as Hb.
  pose proof (books_nodup _ _ _ _ _ _ Hb) as Hnd. destruct (indexed_concat _ _ _ Hnd (bk_busy _ _ _ _ _ _ Hb)) as [Hc1 Hc2].
  set (vm1 := if 2 <=? vm_maxbusytag vm then _ else _).
  assert (exists m, vm1 = set_vm_maxbusytag m vm /\ vm_nbusytag vm <= m) as (m & -> & Hm).
  { unfold vm1. destruct (2 <=? _); eexists; (split; [reflexivity|]); [|lia]. cmp_case; lia. }
  set (vm1 := set_vm_maxbusytag m vm). change (vm_hashlist vm1) with (vm_hashlist vm).
  set (H0 := repeat [] _). assert (length H0 = (2 ^ Z.to_nat (Z.log2 n + 1))%nat) as EH0.
  { unfold H0. rewrite List.repeat_length, Z.shiftl_1_l. pose proof (Z.log2_nonneg n). apply Nat2Z.inj. rewrite Nat2Z.inj_pow, !Z2Nat.id by lia. done. }
  destruct (rehash_fold vm1 (concat (vm_hashlist vm)) H0 []) as (H' & -> & EL & HI).
  - apply Hb.
  - split; [|done]. cbn. rewrite (bk_nbusy _ _ _ _ _ _ Hb). apply busy_sum_nonneg. lia.
  - intros Hne. destruct (concat (vm_hashlist vm)) as [|id l]; [done|]. destruct (proj1 (Hc2 id)) as (t & Ht & _ & [i Hk]); [by left|].
    unfold hkey in Hk. destruct (is_type BT_TYPE_BUSY t) eqn:Hbt; [|done]. change (vm_nbusytag vm1) with (vm_nbusytag vm).
    rewrite (bk_nbusy _ _ _ _ _ _ Hb). apply list_elem_of_split in Ht as (l1 & l2 & ->). rewrite <-Permutation_middle.
    unfold busy_sum. simpl. rewrite Hbt. pose proof (busy_sum_nonneg (fun _ => 1) (l1 ++ l2) ltac:(lia)). unfold busy_sum in *. lia.
  - change (vm_inuse vm1) with (vm_inuse vm). rewrite (bk_inuse _ _ _ _ _ _ Hb). apply u64_range.
  - eauto.
  - done.
  - intros id (t & Ht & Ei & [i Hk])%Hc2. change (tag vm1 id) with (tag vm id). rewrite <-Ei, tag_in by done. unfold hkey in Hk.
    destruct (is_type BT_TYPE_BUSY t); [|done]. split; [done|]. split; [done|]. by intros ?%elem_of_nil.
  - unfold H0. apply indexed_nil.
  - split; [done|]. split; [|split; [done|split; [done|]]].
    2:{ intros _. cbn. rewrite EL, EH0, Nat2Z.inj_pow, Z2Nat.id; [done|]. pose proof (Z.log2_nonneg n). lia. }
    destruct Hv as [_ Ht Ha Hz]. split; [|done..]. destruct Hb. split; try done; cbn; [by rewrite EL; eauto|].
    rewrite EL. rewrite app_nil_r in HI. destruct HI as [I1 I2 I3]. split; [done| |].
    + intros i b id Hib. rewrite (I2 i b id Hib). change (tag vm1) with (tag vm). split.
      * intros (t & (x & -> & Hx)%list_elem_of_fmap & <- & Hk). apply Hc2 in Hx as (t & Ht' & <- & _). rewrite tag_in in * by done. eauto.
      * intros (t & Ht' & <- & Hk). exists t. split; [|done]. rewrite <-(tag_in vm t) by done. apply list_elem_of_fmap_2, Hc2. exists t.
        split; [done|]. split; [done|]. unfold hkey in *. destruct (is_type BT_TYPE_BUSY t); [by eexists | done].
    + intros t i Ht' Hk. apply (I3 t i); [|done]. change (tag vm1) with (tag vm). rewrite <-(tag_in vm t) by done. apply list_elem_of_fmap_2, Hc2. exists t.
      split; [done|]. split; [done|]. unfold hkey in *. destruct (is_type BT_TYPE_BUSY t); [by eexists | done].
Qed.

End ops.

(** * Runs of an arena

    The operations of kernel/kern/subr_vmem.c as steps of one arena among other
    threads, from vmem_init on; when the calls return; release after allocation. *)

Section runs.
Context (hash32 : Z -> Z) (VMEM_MAXORDER : nat) (limit : Z).
Context (Horder : (64 <= VMEM_MAXORDER)%nat) (Hlimit : limit < 2 ^ 64).
Context `{VO : VmemOut} {Hrely : VmemRely hash32 VMEM_MAXORDER limit VO}.

Notation books := (books hash32 VMEM_MAXORDER).
Notation vmem_ok := (vmem_ok hash32 VMEM_MAXORDER limit).
Notation sys_ok := (sys_ok hash32 VMEM_MAXORDER limit).

(** ** Creation *)

Lemma log2_quantum k : 0 <= k < 64 -> SIZE2ORDER (2 ^ k) = k.
Proof. intros Hk. apply Z.log2_pow2. lia. Qed.

Lemma land_pow2_pred k : 0 <= k < 64 -> Z.land (2 ^ k) (2 ^ k - 1) = 0.
Proof. intros Hk. rewrite Z.sub_1_r, <-Z.ones_equiv, Z.land_ones, Z.mod_same; lia. Qed.

(** An empty arena, in a system whose tags are apart. *)
Definition fresh_sys (s : vsys) : Prop :=
  ids_ok (v_next s) (v_lent s ++ map bt_id (v_static s)) /\ apart_all (v_inflight s).

Lemma init_fields_ok importfn releasefn large xi priv k qmax qidx s : 0 <= k < 64 -> qmax mod 2 ^ k = 0 -> fresh_sys s ->
  sys_ok [] [] (set_v_vm (vmem_init_fields VMEM_MAXORDER importfn releasefn large xi priv (2 ^ k) qmax qidx) s).
Proof.
  intros Hk Hq [Hi Ha]. split; [|done | by simpl; rewrite app_nil_r | done].
  assert (indexed (fkey k) (repeat [] VMEM_MAXORDER) []) as Hfx by apply indexed_nil.
  assert (indexed (hkey hash32 1) (repeat [] 1) []) as Hhx by apply indexed_nil.
  split; unfold vmem_init_fields; cbn -[Z.pow Z.land Z.sub]; rewrite ?log2_quantum by done; try done.
  - rewrite land_pow2_pred, (proj2 (Z.ltb_lt 0 (2 ^ k))) by (done || lia). unfold ORDER2SIZE. rewrite Z.shiftl_1_l, u64_id, Z.eqb_refl.
    + rewrite Z.sub_1_r, <-Z.ones_equiv, Z.land_ones, Hq, Z.eqb_refl by lia. done.
    + unfold in_u64. split; [lia | apply Z.pow_lt_mono_r; lia].
  - by rewrite List.repeat_length.
  - by exists 0%nat.
Qed.

Lemma vmem_add_ok held fuel addr size flags s e s' : VM_POPULATING flags = false ->
  region_ok (vm_quantum_shift (v_vm s)) limit addr size -> sys_ok held [(addr, size)] s ->
  vmem_add VMEM_MAXORDER fuel addr size flags s = Some (e, s') ->
  (e = 0 /\ sys_ok held [] s' /\ conf (v_vm s') = conf (v_vm s) /\ exists s1 sp fr, sysc hash32 VMEM_MAXORDER limit held [(addr, size)] s s1 /\
     shape sp = (BT_TYPE_SPAN_STATIC, addr, size) /\ shape fr = (BT_TYPE_FREE, addr, size) /\
     vm_seglist (v_vm s') = vm_seglist (v_vm s1) ++ [sp; fr]) \/
  (e = ENOMEM /\ sys_ok held [(addr, size)] s' /\ VM_SLEEP flags = false).
Proof.
  intros Hpop Hreg Hs Hadd. destruct (add1_ok _ _ _ Horder Hlimit held [] fuel addr size flags BT_TYPE_SPAN_STATIC s s e s' Hpop) as [H | H]; [by right | done..| |].
  - left. destruct H as (? & [? ?] & ?). done.
  - right. destruct H as (? & [? ?] & ?). done.
Qed.

(** Dropping a region that a thread had. *)
Lemma sys_ok_drop held x regs s : sys_ok held (x :: regs) s -> sys_ok held regs s.
Proof. intros [? ? Ha ?]. split; [done | done | by destruct Ha | done]. Qed.

(** The tags of vmem_add_bts. *)
Lemma add_bts_ok next out regs bts vm : vmem_ok next vm (map bt_id bts ++ out) regs -> vmem_ok next (vmem_add_bts bts vm) out regs.
Proof.
  unfold vmem_add_bts. revert vm. induction bts as [|b bts IH]; intros vm H; [done|]. rewrite fold_left_cons. apply IH. by apply give_ok.
Qed.

(** ** Steps *)

(** The state of an arena with its neighbours, and an operation by one thread,
    with what its caller owes. *)
Inductive vstep : vsys -> vsys -> Prop :=
  | step_others s : vstep s (vo_others s)
  | step_add fuel addr size flags s e s' : VM_POPULATING flags = false ->
      region_ok (vm_quantum_shift (v_vm s)) limit addr size ->
      apart_all ((addr, size) :: v_inflight s ++ map rng (spans (vm_seglist (v_vm s)))) ->
      vmem_add VMEM_MAXORDER fuel addr size flags s = Some (e, s') -> vstep s s'
  | step_add_bts bts s :
      ids_ok (v_next s) (map bt_id bts ++ map bt_id (vm_seglist (v_vm s)) ++ map bt_id (vm_freetags (v_vm s)) ++ v_lent s ++ map bt_id (v_static s)) ->
      vstep s (set_v_vm (vmem_add_bts bts (v_vm s)) s)
  | step_xalloc fuel size0 align phase nocross minaddr maxaddr flags s e addr s' : VM_POPULATING flags = false ->
      let r := request_of (v_vm s) size0 align phase nocross minaddr maxaddr in
      xalloc_args (v_vm s) size0 align r = true -> request_ok limit (vm_quantum_shift (v_vm s)) r ->
      vmem_xalloc hash32 VMEM_MAXORDER fuel size0 align phase nocross minaddr maxaddr flags s = Some (e, addr, s') -> vstep s s'
  | step_xfree t size s : t ∈ vm_seglist (v_vm s) -> is_type BT_TYPE_BUSY t = true -> 0 < size ->
      bt_size t = vmem_roundup_size (v_vm s) size -> vstep s (vmem_xfree hash32 VMEM_MAXORDER (bt_start t) size s)
  | step_xfree_bt b s : b ∈ vm_seglist (v_vm s) -> is_type BT_TYPE_BUSY b = true -> vstep s (vmem_xfree_bt VMEM_MAXORDER b s)
  | step_rehash n got s : 0 < n -> vstep s (set_v_vm (snd (vmem_rehash hash32 n got (v_vm s))) s).

Inductive vreach (s : vsys) : vsys -> Prop :=
  | vreach_start : vreach s s
  | vreach_step s1 s2 : vreach s s1 -> vstep s1 s2 -> vreach s s2.

Lemma vstep_ok s s' : vstep s s' -> sys_ok [] [] s -> sys_ok [] [] s'.
Proof.
  destruct 1 as [s|fuel addr size flags s e s' Hpop Hreg Hap Hadd|bts s Hids|fuel size0 align phase nocross mi ma flags s e addr s' Hpop r Hargs Hr Hx
    |t size s Ht Hb Hz Er|b s Ht Hb|n got s Hn]; intros Hs.
  - by apply rely_others.
  - assert (sys_ok [] [(addr, size)] s) as Hs1 by (destruct Hs; by split).
    destruct (vmem_add_ok [] fuel addr size flags s e s' Hpop Hreg Hs1 Hadd) as [(_ & H & _) | (_ & H & _)]; [done | by eapply sys_ok_drop].
  - apply add_bts_ok. destruct Hs as [[] ? ? ?]. split; [|done..]. split; try done.
    eapply ids_ok_perm; [|exact Hids]. unfold outs. cbn [v_lent v_static set_v_vm v_next]. ids_perm.
  - destruct (vmem_xalloc_ok hash32 VMEM_MAXORDER limit Horder Hlimit [] fuel size0 align phase nocross mi ma flags s e addr s' Hpop Hargs Hr Hs Hx) as [[[H _] _] | (_ & [H _] & _)]; done.
  - by destruct (vmem_xfree_ok hash32 VMEM_MAXORDER limit Horder Hlimit [] [] s t size Hs Ht Hb Hz Er).
  - apply list_elem_of_split in Ht as (l1 & l2 & El). by destruct (xfree_bt_ok hash32 VMEM_MAXORDER limit Horder Hlimit [] [] s l1 b l2 Hs El Hb).
  - pose proof (vmem_rehash_ok hash32 VMEM_MAXORDER limit Horder _ _ _ _ n got Hs Hn) as H. destruct (vmem_rehash hash32 n got (v_vm s)) as [e vm']. by destruct H as (_ & H & _).
Qed.

Lemma vreach_ok s s' : vreach s s' -> sys_ok [] [] s -> sys_ok [] [] s'.
Proof. induction 1 as [|s1 s2 _ IH Hst]; [done|]. intros H. eapply vstep_ok; [done|]. by apply IH. Qed.

(** ** Returning *)

Section quiet.
Context (Hquiet : forall s, vo_others s = s).

Lemma refill_pool_total fuel s : BT_MINRESERVE - vm_nfreetags (v_vm s) < Z.of_nat fuel -> exists s', refill_pool fuel s = Some s'.
Proof.
  revert s. induction fuel as [|fuel IH]; intros s Hf; cbn [refill_pool]; cbv zeta.
  - destruct (Z.leb_spec (vm_nfreetags (v_vm s)) BT_MINRESERVE); [lia | eauto].
  - destruct (_ <=? _); [|eauto]. destruct (vo_pool (v_log s)); cbn [negb]; [|eauto]. apply IH. unfold unlocked. rewrite Hquiet. cbn. lia.
Qed.

Lemma refill_static_grows l vm : vm_nfreetags vm <= vm_nfreetags (snd (refill_static l vm)).
Proof.
  revert vm. induction l as [|b l IH]; intros vm; simpl; [lia|]. destruct (_ && _); [|simpl; lia].
  etrans; [|apply IH]. simpl. lia.
Qed.

Lemma refill_locked_total fuel s : 0 <= vm_nfreetags (v_vm s) -> (5 <= fuel)%nat -> exists e s', bt_refill_locked fuel s = Some (e, s') /\
  (e = 0 -> BT_MINRESERVE < vm_nfreetags (v_vm s')).
Proof.
  intros Hn Hf. unfold bt_refill_locked. destruct (Z.ltb_spec BT_MINRESERVE (vm_nfreetags (v_vm s))); [eauto|].
  pose proof (refill_static_grows (v_static s) (v_vm s)) as Hg. destruct (refill_static _ _) as [st vm]. cbn in Hg.
  destruct (refill_pool_total fuel (set_v_static st (set_v_vm vm s))) as [s1 ->]; [unfold BT_MINRESERVE; cbn; lia|]. cbn [mbind option_bind].
  destruct (Z.leb_spec (vm_nfreetags (v_vm s1)) BT_MINRESERVE); [by eexists _, _|]. eexists _, _. split; [done|]. intros _. unfold unlocked. by rewrite Hquiet.
Qed.

(** Without VM_SLEEP, bt_alloc returns. *)
Lemma bt_alloc_total fuel flags s : VM_SLEEP flags = false -> 0 <= vm_nfreetags (v_vm s) -> (6 <= fuel)%nat -> exists ob s', bt_alloc fuel flags s = Some (ob, s').
Proof.
  intros Hns Hn Hf. destruct fuel as [|fuel]; [lia|]. cbn [bt_alloc]. destruct (_ && _); [|destruct (take_tag s); eauto].
  destruct (refill_locked_total fuel s Hn) as (e & s' & -> & He); [lia|]. cbn [mbind option_bind].
  unfold nz. destruct (Z.eqb_spec e 0) as [-> | _]; cbn [negb]; [|rewrite Hns; cbn [negb]; eauto].
  destruct fuel as [|fuel]; [lia|]. cbn [bt_alloc]. rewrite (proj2 (Z.leb_gt _ _) (He eq_refl)). cbn [andb]. destruct (take_tag s'); eauto.
Qed.

Lemma nfree_nonneg held regs s : sys_ok held regs s -> 0 <= vm_nfreetags (v_vm s).
Proof. intros H. rewrite (bk_ntags _ _ _ _ _ _ (vk_books _ _ _ _ _ _ _ H)). lia. Qed.

(** Without VM_SLEEP and without an import function, vmem_xalloc returns. *)
Lemma xalloc_total held fuel size0 align phase nocross minaddr maxaddr flags s : VM_SLEEP flags = false -> VM_POPULATING flags = false ->
  vm_importfn (v_vm s) = false -> sys_ok held [] s -> (6 <= fuel)%nat ->
  xalloc_args (v_vm s) size0 align (request_of (v_vm s) size0 align phase nocross minaddr maxaddr) = true ->
  exists e addr s', vmem_xalloc hash32 VMEM_MAXORDER fuel size0 align phase nocross minaddr maxaddr flags s = Some (e, addr, s').
Proof.
  intros Hns Hpop Hni Hs Hf Hargs. unfold vmem_xalloc. cbv zeta. change (mk_req _ _ _ _ _ _) with (request_of (v_vm s) size0 align phase nocross minaddr maxaddr).
  rewrite Hargs. pose proof (KASSERT_sysc hash32 VMEM_MAXORDER limit held [] true s s eq_refl (sysc_refl _ _ _ _ _ _ Hs)) as H0.
  set (s0 := on_vm (KASSERT true) s) in *. clearbody s0.
  destruct (bt_alloc_total fuel flags s0 Hns (nfree_nonneg _ _ _ (proj1 H0)) Hf) as (o1 & s1 & E1). rewrite E1. cbn [mbind option_bind].
  destruct (bt_alloc_ok _ _ _ Horder _ _ _ _ _ _ _ _ Hpop H0 E1) as [H1 _]. destruct o1 as [b1|]; [|eauto].
  destruct (bt_alloc_total fuel flags s1 Hns (nfree_nonneg _ _ _ (proj1 H1)) Hf) as (o2 & s2 & E2). rewrite E2. cbn [mbind option_bind].
  destruct (bt_alloc_ok _ _ _ Horder _ _ _ _ _ _ _ _ Hpop H1 E2) as [[_ Ec] _]. destruct o2 as [b2|]; [|eauto].
  assert (vm_importfn (v_vm s2) = false) as Hni2 by (rewrite <-Hni; by injection Ec).
  assert (forall fuel' instant s3 r, (2 <= fuel')%nat \/ ((1 <= fuel')%nat /\ instant = false) -> vm_importfn (v_vm s3) = false ->
    exists e addr s', xalloc_loop hash32 VMEM_MAXORDER fuel' r flags instant b1 b2 s3 = Some (e, addr, s')) as Hloop; [|apply Hloop; [left; lia | done]].
  clear -Hns. induction fuel' as [|fuel' IH]; intros instant s3 r Hf Hn; [lia|]. cbn [xalloc_loop].
  destruct (search _ _ r instant) as [[[id a]|] ok]; [destruct (xalloc_take _ _ _ _ _ _ _ _); eauto|].
  destruct instant; [apply IH; [right; split; [lia | done] | done]|]. destruct (_ || _); [unfold xalloc_fail; eauto|].
  unfold vmem_import. cbn [on_vm v_vm set_v_vm KASSERT set_vm_asserts vm_importfn]. rewrite Hn. cbn [negb mbind option_bind]. cbn [Z.eqb EINVAL].
  rewrite Hns. unfold xalloc_fail. eauto.
Qed.

End quiet.

(** ** Release after allocation *)

Lemma no_two_free shift l1 p q l2 : is_type BT_TYPE_FREE p = true -> is_type BT_TYPE_FREE q = true ->
  tiled shift limit (l1 ++ p :: q :: l2) = true -> False.
Proof.
  intros Hp Hq Ht. pose proof (free_not_span _ Hp) as Sp. apply (tiled_seg _ _ _ _ _ Sp) in Ht as (_ & e & f & _ & _ & _ & Ht).
  rewrite Hp, tail_cons in Ht. unfold step in Ht. rewrite (free_not_span _ Hq), Hq in Ht. simpl in Ht. rewrite andb_false_r in Ht. by destruct (seg_ok _ _ _).
Qed.

Lemma free_shape_cases x a n : map shape x = free_shape a n ->
  (x = [] /\ n = 0) \/ (exists p, x = [p] /\ is_type BT_TYPE_FREE p = true /\ bt_start p = a /\ bt_size p = n).
Proof.
  unfold free_shape. destruct (Z.eqb_spec n 0) as [-> | Hn]; intros Hx; [left; by destruct x|]. right.
  destruct x as [|p [|? ?]]; [done | | done]. injection Hx as Ety Es En. exists p. unfold is_type. by rewrite Ety, Es, En.
Qed.

Lemma NoDup_split_eq (l1 l1' l2 l2' : list bt_t) b : NoDup (map bt_id (l1 ++ b :: l2)) -> l1 ++ b :: l2 = l1' ++ b :: l2' -> l1 = l1' /\ l2 = l2'.
Proof.
  revert l1'. induction l1 as [|x l1 IH]; intros [|x' l1'] Hn E; simpl in *; simplify_eq; try done.
  - exfalso. apply NoDup_cons in Hn as [Hn _]. apply Hn. rewrite map_app. apply elem_of_app. right. by left.
  - exfalso. apply NoDup_cons in Hn as [Hn _]. apply Hn. rewrite map_app. apply elem_of_app. right. by left.
  - apply NoDup_cons in Hn as [_ Hn]. by destruct (IH l1' Hn) as [-> ->].
Qed.

(** The neighbours that a freed block absorbs are those that carving made. *)
Lemma uncarve shift l1 t l2 pre b post la f lb a n : is_type BT_TYPE_FREE t = true -> bt_start b = a -> bt_size b = n ->
  map shape pre = free_shape (bt_start t) (a - bt_start t) -> map shape post = free_shape (a + n) (bt_start t + bt_size t - a - n) ->
  tiled shift limit (l1 ++ t :: l2) = true -> tiled shift limit (la ++ f :: lb) = true ->
  merged (l1 ++ pre) b (post ++ l2) la f lb -> map shape (la ++ f :: lb) = map shape (l1 ++ t :: l2).
Proof.
  intros Hf Ea En Hpre Hpost Ht Ht' [Hff (x & Ex & Hx) (y & Ey & Hy)].
  assert (la = l1 /\ bt_start f = bt_start t) as [-> Es].
  { apply free_shape_cases in Hpre as [[-> E1] | (p & -> & Fp & Sp & Zp)]; apply free_shape_cases in Hx as [[-> E2] | (q & -> & Fq & Sq & Zq)].
    - rewrite !app_nil_r in Ex. split; [done | lia].
    - exfalso. rewrite app_nil_r in Ex. subst l1. rewrite <-app_assoc in Ht. by apply (no_two_free _ _ q t l2 Fq Hf) in Ht.
    - exfalso. rewrite app_nil_r in Ex. subst la. rewrite <-app_assoc in Ht'. by apply (no_two_free _ _ p f lb Fp Hff) in Ht'.
    - apply app_inj_tail in Ex as [-> ->]. split; [done | congruence]. }
  assert (lb = l2 /\ bt_start f + bt_size f = bt_start t + bt_size t) as [-> Ez].
  { apply free_shape_cases in Hpost as [[-> E1] | (p & -> & Fp & Sp & Zp)]; apply free_shape_cases in Hy as [[-> E2] | (q & -> & Fq & Sq & Zq)]; simpl in Ey; simplify_eq.
    - split; [done | lia].
    - exfalso. by apply (no_two_free _ l1 t q lb Hf Fq) in Ht.
    - exfalso. by apply (no_two_free _ l1 f p l2 Hff Fp) in Ht'.
    - split; [done | lia]. }
  rewrite !map_app, !map_cons. do 2 f_equal. unfold shape, is_type in *.
  apply bool_decide_eq_true in Hf as ->. apply bool_decide_eq_true in Hff as ->. rewrite Es. f_equal. lia.
Qed.

(** The span around the region left the arena. *)
Definition span_released (a n : Z) (s s' : vsys) : Prop :=
  vm_releasefn (v_vm s) = true /\ exists l1 t l2, vm_seglist (v_vm s) = l1 ++ t :: l2 /\ rng t = (a, n) /\ released l1 t l2 s s'.

Lemma alloc_free_shape held held' regs regs' r a s s' size : sys_ok held' regs' s -> sys_ok held regs s' -> conf (v_vm s') = conf (v_vm s) ->
  allocated r a s s' -> 0 < size -> rq_size r = vmem_roundup_size (v_vm s') size ->
  let s2 := vmem_xfree hash32 VMEM_MAXORDER a size s' in
  sys_ok held regs s2 /\ (map shape (vm_seglist (v_vm s2)) = map shape (vm_seglist (v_vm s)) \/ span_released a (rq_size r) s' s2).
Proof.
  intros Hs Hs' Ec (l1 & t & l2 & mid & El & Hf & _ & _ & Em & El') Hz Er s2.
  apply carved_split in Em as (pre & b & post & -> & Hpre & (Ety & Ea & En)%shape_eq & Hpost).
  assert (vm_seglist (v_vm s') = (l1 ++ pre) ++ b :: post ++ l2) as El2 by by rewrite El', <-!app_assoc.
  assert (is_type BT_TYPE_BUSY b = true) as Hb by (unfold is_type; by rewrite Ety).
  destruct (vmem_xfree_ok hash32 VMEM_MAXORDER limit Horder Hlimit held regs s' b size Hs') as (Hs2 & Ec2 & l1' & l2' & E2 & Hk);
    [rewrite El2; apply elem_of_app; right; by left | done | done | by rewrite En|].
  rewrite Ea in Hs2, Ec2, Hk. fold s2 in Hs2, Ec2, Hk. split; [done|].
  assert (NoDup (map bt_id ((l1 ++ pre) ++ b :: post ++ l2))) as Hnd by (rewrite <-El2; eapply books_nodup, (vk_books _ _ _ _ _ _ _ Hs')).
  rewrite El2 in E2. destruct (NoDup_split_eq _ _ _ _ _ Hnd E2) as [<- <-].
  destruct Hk as [(la & f & lb & Hmg & E3 & _) | Hk].
  2:{ right. split; [by destruct Hk as (l0 & sp & f & lb & _ & _ & Hr & _)|]. exists (l1 ++ pre), b, (post ++ l2).
      split; [done|]. split; [unfold rng; by rewrite Ea, En|done]. }
  left. rewrite E3, El. pose proof (vk_tiled _ _ _ _ _ _ _ Hs) as Ht. pose proof (vk_tiled _ _ _ _ _ _ _ Hs2) as Ht2.
  rewrite El in Ht. rewrite E3 in Ht2.
  rewrite (conf_shift _ _ Ec2), (conf_shift _ _ Ec) in Ht2.
  exact (uncarve _ l1 t l2 pre b post la f lb a (rq_size r) Hf Ea En Hpre Hpost Ht Ht2 Hmg).
Qed.

(** ** With tags in reserve *)

Lemma bt_alloc_reserve fuel flags s : BT_MINRESERVE < vm_nfreetags (v_vm s) -> bt_alloc fuel flags s = Some (take_tag s).
Proof. intros H. destruct fuel; cbn [bt_alloc]; by rewrite (proj2 (Z.leb_gt _ _) H). Qed.

Lemma take_tag_list held regs s : sys_ok held regs s -> 0 < vm_nfreetags (v_vm s) -> exists b s', take_tag s = (Some b, s') /\
  vm_seglist (v_vm s') = vm_seglist (v_vm s) /\ vm_nfreetags (v_vm s') = vm_nfreetags (v_vm s) - 1 /\ conf (v_vm s') = conf (v_vm s).
Proof.
  intros H Hn. rewrite (bk_ntags _ _ _ _ _ _ (vk_books _ _ _ _ _ _ _ H)) in Hn. unfold take_tag. destruct (vm_freetags (v_vm s)) as [|b l]; [simpl in Hn; lia|].
  by eexists _, _.
Qed.

(** How a call that keeps the lock ends. *)
Definition exact_end (held : list nat) (r : request) (s : vsys) (e addr : Z) (s' : vsys) : Prop :=
  sysc hash32 VMEM_MAXORDER limit held [] s s' /\
  ((e = 0 /\ allocated r addr s s') \/ (e = ENOMEM /\ exhausted r s /\ vm_seglist (v_vm s') = vm_seglist (v_vm s))).

Lemma xalloc_loop_exact held r flags b1 b2 s : VM_SLEEP flags = false -> vm_importfn (v_vm s) = false ->
  request_ok limit (vm_quantum_shift (v_vm s)) r -> forall fuel instant s3, (2 <= fuel)%nat \/ ((1 <= fuel)%nat /\ instant = false) ->
  sysc hash32 VMEM_MAXORDER limit (bt_id b1 :: bt_id b2 :: held) [] s s3 -> vm_seglist (v_vm s3) = vm_seglist (v_vm s) ->
  exists e addr s', xalloc_loop hash32 VMEM_MAXORDER fuel r flags instant b1 b2 s3 = Some (e, addr, s') /\ exact_end held r s e addr s'.
Proof.
  intros Hns Hni Hr. induction fuel as [|fuel' IH]; intros instant s3 Hf H L; [lia|]. cbn [xalloc_loop].
  assert (request_ok limit (vm_quantum_shift (v_vm s3)) r) as Hr' by by rewrite (conf_shift _ _ (proj2 H)).
  pose proof (search_ok _ _ _ Horder Hlimit _ _ _ _ _ (proj1 H) Hr' instant) as Hse.
  destruct (search VMEM_MAXORDER (v_vm s3) r instant) as [[[id a]|] ok].
  - destruct Hse as (-> & Hft & Hpl & Hle). apply (KASSERT_sysc _ _ _ _ _ true) in H; [|done]. set (s4 := on_vm (KASSERT true) s3) in *.
    destruct (take_sysc hash32 VMEM_MAXORDER limit Horder Hlimit held r s s4 b1 b2 id a Hr' H Hft Hpl Hle) as (vm' & -> & Hs' & Hal).
    eexists _, _, _. split; [done|]. split; [done|]. left. split; [done|]. destruct Hal as (l1 & t & l2 & mid & El & Hal). exists l1, t, l2, mid.
    split; [by rewrite <-L|done].
  - destruct Hse as (-> & Hex). apply (KASSERT_sysc _ _ _ _ _ true) in H; [|done]. set (s4 := on_vm (KASSERT true) s3) in *.
    assert (vm_seglist (v_vm s4) = vm_seglist (v_vm s)) as L4 by exact L. clearbody s4.
    destruct instant; [apply IH; [right; split; [lia | done] | done..]|].
    assert (exhausted r s) as Hx by (intros t b Ht; rewrite <-L in Ht; by apply Hex).
    assert (vmem_import VMEM_MAXORDER fuel' (rq_size r) flags s4 = Some (EINVAL, s4)) as ->.
    { unfold vmem_import. assert (vm_importfn (v_vm s4) = false) as ->; [|done]. rewrite <-Hni. by destruct H as [_ [=]]. }
    cbn [mbind option_bind Z.eqb EINVAL]. rewrite Hns.
    assert (sysc hash32 VMEM_MAXORDER limit held [] s (snd (xalloc_fail b1 b2 s4))) as Hfail.
    { apply (bt_free_sysc hash32 VMEM_MAXORDER limit held [] b2 s (on_vm (bt_free b1) s4)), bt_free_sysc. done. }
    destruct (_ || _); eexists _, _, _; (split; [reflexivity|]); (split; [exact Hfail|]); right; done.
Qed.

(** An arena with tags in reserve, no import function and no VM_SLEEP answers
    under one hold of the lock: it allocates if and only if a free block has a
    placement. *)
Lemma xalloc_exact held fuel size0 align phase nocross minaddr maxaddr flags s : VM_SLEEP flags = false -> VM_POPULATING flags = false ->
  vm_importfn (v_vm s) = false -> BT_MINRESERVE + 1 < vm_nfreetags (v_vm s) -> sys_ok held [] s -> (2 <= fuel)%nat ->
  let r := request_of (v_vm s) size0 align phase nocross minaddr maxaddr in
  xalloc_args (v_vm s) size0 align r = true -> request_ok limit (vm_quantum_shift (v_vm s)) r ->
  exists e addr s', vmem_xalloc hash32 VMEM_MAXORDER fuel size0 align phase nocross minaddr maxaddr flags s = Some (e, addr, s') /\
    exact_end held r s e addr s'.
Proof.
  intros Hns Hpop Hni Hfr Hs Hf r Hargs Hr. unfold vmem_xalloc. cbv zeta. change (mk_req _ _ _ _ _ _) with r. rewrite Hargs.
  pose proof (KASSERT_sysc hash32 VMEM_MAXORDER limit held [] true s s eq_refl (sysc_refl _ _ _ _ _ _ Hs)) as H0.
  assert (vm_seglist (v_vm (on_vm (KASSERT true) s)) = vm_seglist (v_vm s) /\ vm_nfreetags (v_vm (on_vm (KASSERT true) s)) = vm_nfreetags (v_vm s)) as [L0 F0] by done.
  set (s0 := on_vm (KASSERT true) s) in *. clearbody s0. unfold BT_MINRESERVE in Hfr.
  rewrite bt_alloc_reserve by (unfold BT_MINRESERVE; lia).
  destruct (take_tag_list _ _ _ (proj1 H0)) as (b1 & s1 & E1 & L1 & F1 & C1); [lia|].
  pose proof (bt_alloc_reserve fuel flags s0 ltac:(unfold BT_MINRESERVE; lia)) as A1. rewrite E1 in A1 |- *. cbn [mbind option_bind].
  destruct (bt_alloc_ok _ _ _ Horder _ _ _ _ _ _ _ _ Hpop H0 A1) as [H1 _].
  rewrite bt_alloc_reserve by (unfold BT_MINRESERVE; lia).
  destruct (take_tag_list _ _ _ (proj1 H1)) as (b2 & s2 & E2 & L2 & F2 & C2); [lia|].
  pose proof (bt_alloc_reserve fuel flags s1 ltac:(unfold BT_MINRESERVE; lia)) as A2. rewrite E2 in A2 |- *. cbn [mbind option_bind].
  destruct (bt_alloc_ok _ _ _ Horder _ _ _ _ _ _ _ _ Hpop H1 A2) as [H2 _].
  assert (sysc hash32 VMEM_MAXORDER limit (bt_id b1 :: bt_id b2 :: held) [] s s2) as H2'.
  { destruct H2 as [H2 Ec]. split; [|done]. unfold VmemInv.sys_ok, outs in *. eapply vmem_ok_out; [|exact H2]. simpl. apply Permutation_swap. }
  assert (vm_seglist (v_vm s2) = vm_seglist (v_vm s)) as L by congruence.
  apply xalloc_loop_exact; [done | done | done | left; lia | done | done].
Qed.

End runs.
