(* ===== verification/VmemThms.v ===== *)
(** * What an arena promises

    The theorems on kernel/kern/subr_vmem.c: fitting, allocation, release,
    rehashing, and every state that the operations reach among other threads. *)

From Stdlib Require Import ZArith Lia.
From stdpp Require Import base numbers list.
From S2P Require Import Prelude Sysctl Vmem VmemFit VmemBooks VmemInv VmemSearch VmemOps.

(** C22. On blocks that leave room to align below the end of the address space, vmem_fit
    answers the least address in the block that meets the bounds, alignment, phase and
    boundary, or ENOMEM if there is none, and its assertions hold. *)
Theorem vmem_fit_least r bt : req_ok r -> blk_ok r bt -> rq_size r <= bt_size bt -> fit_result r bt (fit_bt r bt).
Proof. apply fit_bt_spec. Qed.

Section thms.
Context (hash32 : Z -> Z) (VMEM_MAXORDER : nat) (limit : Z).
Context (Horder : (64 <= VMEM_MAXORDER)%nat) (Hlimit : limit < 2 ^ 64).

Notation sys_ok := (sys_ok hash32 VMEM_MAXORDER limit).
Notation sysc := (sysc hash32 VMEM_MAXORDER limit).

(** ** What the invariant says of the allocated regions *)

Lemma apart_filter (f : bt_t -> bool) l : apart_all (map rng l) -> apart_all (map rng (List.filter f l)).
Proof.
  induction l as [|t l IH]; simpl; [done|]. intros [Hf Ha]. destruct (f t); [|by apply IH]. split; [|by apply IH].
  rewrite Forall_forall in Hf |- *. intros x (u & -> & [Hu _]%list_elem_of_In%List.filter_In)%list_elem_of_fmap.
  apply Hf, list_elem_of_fmap_2. by apply list_elem_of_In.
Qed.

Lemma busy_segs l : busy l = map rng (List.filter (is_type BT_TYPE_BUSY) (segs l)).
Proof.
  unfold busy. induction l as [|t l IH]; [done|]. simpl. destruct (is_type BT_TYPE_BUSY t) eqn:Hb.
  - rewrite (busy_not_span _ Hb). simpl. rewrite Hb. simpl. by rewrite IH.
  - destruct (BT_ISSPAN_P t); simpl; [|rewrite Hb]; done.
Qed.

Lemma busy_sum_busy l : busy_sum bt_size l = zsum (map snd (busy l)) /\ busy_sum (fun _ => 1) l = Z.of_nat (length (busy l)).
Proof.
  unfold busy_sum, busy. induction l as [|t l [IH1 IH2]]; [done|]. simpl. destruct (is_type BT_TYPE_BUSY t); simpl; lia.
Qed.

(** What holds of an arena: no assertion has failed, the list tiles the spans, and
    the counters are those of the allocated regions, which are disjoint and in
    the spans. *)
Record arena_sound (vm : vmem) : Prop := {
  as_asserts : vm_asserts vm = true;
  as_tiled : tiled (vm_quantum_shift vm) limit (vm_seglist vm) = true;
  as_apart : apart_all (busy (vm_seglist vm));
  as_within x : x ∈ busy (vm_seglist vm) -> exists sp, sp ∈ spans (vm_seglist vm) /\ within x (rng sp);
  as_inuse : vm_inuse vm = u64 (zsum (map snd (busy (vm_seglist vm))));
  as_size : vm_size vm = u64 (zsum (map bt_size (spans (vm_seglist vm))));
  as_nbusy : vm_nbusytag vm = Z.of_nat (length (busy (vm_seglist vm)))
}.

Lemma sys_ok_sound held regs s : sys_ok held regs s -> arena_sound (v_vm s).
Proof.
  intros Hs. pose proof (vmem_segs_apart _ _ _ _ _ _ _ Hs) as Ha. pose proof Hs as [Hb Ht _ Hz].
  destruct (busy_sum_busy (vm_seglist (v_vm s))) as [E1 E2]. split; [apply Hb | done | | | | done |].
  - rewrite busy_segs. by apply apart_filter.
  - intros x. rewrite busy_segs. intros (t & -> & [Hin _]%list_elem_of_In%List.filter_In)%list_elem_of_fmap. apply list_elem_of_In in Hin.
    unfold tiled, tail_ok in Ht. destruct (run _ _ _ _) as [c|] eqn:Er; [|done].
    destruct (segs_within _ _ _ _ _ t Er Hin) as [(y & ?%elem_of_nil & _) | H]; done.
  - by rewrite (bk_inuse _ _ _ _ _ _ Hb), E1.
  - by rewrite (bk_nbusy _ _ _ _ _ _ Hb), E2.
Qed.

Section among.
Context `{VO : VmemOut} {Hrely : VmemRely hash32 VMEM_MAXORDER limit VO}.

(** C9. From vmem_init on, after any sequence of spans, private tags, allocations,
    releases and rehashes, other threads and imports in between, no assertion of the
    arena has failed, its segment list tiles its spans with no two free segments side by
    side, the allocated regions are disjoint and inside the spans, and vm_inuse, vm_size
    and vm_nbusytag count them. The callers keep to this: spans are whole quanta below a
    limit and apart from each other, alignment and boundary of a request added to that
    limit do not pass 2^64 (else vmem_fit can fail its assertions: fit_wraps), what is
    released was allocated, and VM_POPULATING is not used. *)
Theorem vmem_arena_sound importfn releasefn large xi priv k qmax qidx s0 s :
  0 <= k < 64 -> qmax mod 2 ^ k = 0 -> fresh_sys s0 ->
  vreach hash32 VMEM_MAXORDER limit (set_v_vm (vmem_init_fields VMEM_MAXORDER importfn releasefn large xi priv (2 ^ k) qmax qidx) s0) s ->
  arena_sound (v_vm s).
Proof.
  intros Hk Hq Hf Hr. eapply sys_ok_sound, vreach_ok; [done | done | done | exact Hr |]. by apply init_fields_ok.
Qed.

(** Whatever other threads do while the lock is dropped for tags, imports and sleeping,
    a successful vmem_xalloc returns an address that meets its constraints in a block
    that was free at that moment: exactly its region is added to the allocated ones,
    apart from all of them. *)
Theorem vmem_xalloc_sound held fuel size0 align phase nocross minaddr maxaddr flags s addr s' : VM_POPULATING flags = false ->
  let r := request_of (v_vm s) size0 align phase nocross minaddr maxaddr in
  xalloc_args (v_vm s) size0 align r = true -> request_ok limit (vm_quantum_shift (v_vm s)) r -> sys_ok held [] s ->
  vmem_xalloc hash32 VMEM_MAXORDER fuel size0 align phase nocross minaddr maxaddr flags s = Some (0, addr, s') ->
  placed r addr /\ addr mod 2 ^ vm_quantum_shift (v_vm s) = 0 /\ sysc held [] s s' /\ arena_sound (v_vm s') /\
  exists held' s1, sysc held' [] s s1 /\ allocated r addr s1 s' /\
    busy (vm_seglist (v_vm s')) ≡ₚ (addr, rq_size r) :: busy (vm_seglist (v_vm s1)) /\
    Forall (apart (addr, rq_size r)) (busy (vm_seglist (v_vm s1))).
Proof.
  intros Hpop r Hargs Hr Hs Hx.
  destruct (vmem_xalloc_ok hash32 VMEM_MAXORDER limit Horder Hlimit held fuel size0 align phase nocross minaddr maxaddr flags s 0 addr s' Hpop Hargs Hr Hs Hx)
    as [[Hs' [(_ & held' & s1 & H1 & Hal) | (? & _)]] | (? & _)]; [|done..].
  assert (placed r addr) as Hpl by (destruct Hal as (l1 & t & l2 & mid & _ & _ & [_ ?] & _); done).
  pose proof (sys_ok_sound _ _ _ (proj1 Hs')) as Hsd. pose proof (allocated_busy _ _ _ _ Hal) as Hp.
  split; [done|]. split; [eapply placed_quanta; [|done..]; apply (bk_shift _ _ _ _ _ _ (vk_books _ _ _ _ _ _ _ Hs))|].
  split; [done|]. split; [done|]. exists held', s1. split; [done|]. split; [done|]. split; [done|].
  pose proof (as_apart _ Hsd) as Ha. rewrite Hp in Ha. by destruct Ha.
Qed.

(** C10. With tags in reserve, no import function, no sleeping and no VM_POPULATING, and
    for a request whose alignment and boundary added to the limit of the spans do not
    pass 2^64 (else vmem_fit can answer outside the block: fit_wraps), vmem_xalloc
    returns under one hold of the lock: it allocates the least placement of a free
    block, leaving the rest of the block free, or it fails with ENOMEM, the list
    untouched, exactly because no free block has an address that meets size, alignment,
    phase, boundary and bounds. *)
Theorem vmem_xalloc_exact held fuel size0 align phase nocross minaddr maxaddr flags s : VM_SLEEP flags = false -> VM_POPULATING flags = false ->
  vm_importfn (v_vm s) = false -> BT_MINRESERVE + 1 < vm_nfreetags (v_vm s) -> sys_ok held [] s -> (2 <= fuel)%nat ->
  let r := request_of (v_vm s) size0 align phase nocross minaddr maxaddr in
  xalloc_args (v_vm s) size0 align r = true -> request_ok limit (vm_quantum_shift (v_vm s)) r ->
  exists e addr s', vmem_xalloc hash32 VMEM_MAXORDER fuel size0 align phase nocross minaddr maxaddr flags s = Some (e, addr, s') /\
    exact_end hash32 VMEM_MAXORDER limit held r s e addr s'.
Proof. intros. by apply xalloc_exact. Qed.

(** C29. Releasing what vmem_xalloc gave (without VM_POPULATING, for a request whose
    alignment and boundary added to the limit of the spans do not pass 2^64), before
    anybody else takes the lock, restores the segment list of the moment at which the
    block was taken: the same types, addresses and sizes in the same order; unless the
    arena has a release function and the region filled an imported span, which then
    leaves the arena. That moment is the call itself if there is no import function,
    tags are in reserve and the caller does not sleep; otherwise other threads and
    imports may have come before it. *)
Theorem vmem_alloc_free_roundtrip held fuel size0 align phase nocross minaddr maxaddr flags s addr s' : VM_POPULATING flags = false ->
  sys_ok held [] s -> 0 < size0 ->
  let r := request_of (v_vm s) size0 align phase nocross minaddr maxaddr in
  xalloc_args (v_vm s) size0 align r = true -> request_ok limit (vm_quantum_shift (v_vm s)) r ->
  vmem_xalloc hash32 VMEM_MAXORDER fuel size0 align phase nocross minaddr maxaddr flags s = Some (0, addr, s') ->
  let s2 := vmem_xfree hash32 VMEM_MAXORDER addr size0 s' in
  sys_ok held [] s2 /\ exists held' s1, sysc held' [] s s1 /\ allocated r addr s1 s' /\
    (map shape (vm_seglist (v_vm s2)) = map shape (vm_seglist (v_vm s1)) \/ span_released addr (rq_size r) s' s2) /\
    (VM_SLEEP flags = false -> vm_importfn (v_vm s) = false -> BT_MINRESERVE + 1 < vm_nfreetags (v_vm s) -> (2 <= fuel)%nat -> s1 = s).
Proof.
  intros Hpop Hs H0 r Hargs Hr Hx.
  assert (exists held' s1, sysc held [] s s' /\ sysc held' [] s s1 /\ allocated r addr s1 s' /\
    (VM_SLEEP flags = false -> vm_importfn (v_vm s) = false -> BT_MINRESERVE + 1 < vm_nfreetags (v_vm s) -> (2 <= fuel)%nat -> s1 = s)) as (held' & s1 & [Hs' Hc] & [Hs1 Hc1] & Hal & Eq).
  { destruct (decide (VM_SLEEP flags = false /\ vm_importfn (v_vm s) = false /\ BT_MINRESERVE + 1 < vm_nfreetags (v_vm s) /\ (2 <= fuel)%nat)) as [(Hns & Hni & Hfr & Hf)|Hn].
    - destruct (xalloc_exact hash32 VMEM_MAXORDER limit Horder Hlimit held fuel size0 align phase nocross minaddr maxaddr flags s) as (e & a & s1 & E & Hs1 & Hend); try done.
      rewrite Hx in E. injection E as <- <- <-. destruct Hend as [(_ & Hal) | (? & _)]; [|done]. by exists held, s.
    - destruct (vmem_xalloc_ok hash32 VMEM_MAXORDER limit Horder Hlimit held fuel size0 align phase nocross minaddr maxaddr flags s 0 addr s' Hpop Hargs Hr Hs Hx)
        as [[Hs' [(_ & held' & s1 & H1 & Hal) | (? & _)]] | (? & _)]; [|done..].
      exists held', s1. split; [done|]. split; [done|]. split; [done|]. tauto. }
  destruct (alloc_free_shape hash32 VMEM_MAXORDER limit Horder Hlimit held held' [] [] r addr s1 s' size0) as [H1 H2]; try done.
  - congruence.
  - assert (vm_quantum_mask (v_vm s') = vm_quantum_mask (v_vm s)) as Em by by injection Hc.
    unfold vmem_roundup_size. by rewrite Em.
  - split; [done|]. by exists held', s1.
Qed.

(** While nobody allocates, vmem_xfreeall ends after at most as many rounds as there are
    allocated regions, with nothing allocated and vm_inuse 0. *)
Theorem vmem_xfreeall_ends (Hquiet : forall s, (length (busy (vm_seglist (v_vm (vo_others s)))) <= length (busy (vm_seglist (v_vm s))))%nat)
  held fuel s : sys_ok held [] s -> (length (busy (vm_seglist (v_vm s))) <= fuel)%nat ->
  exists s', vmem_xfreeall VMEM_MAXORDER fuel s = Some s' /\ busy (vm_seglist (v_vm s')) = [] /\ vm_inuse (v_vm s') = 0 /\ arena_sound (v_vm s').
Proof.
  intros Hs Hf. destruct (xfreeall_ok _ _ _ Horder Hlimit Hquiet held fuel s Hs Hf) as (s' & E & Hs' & Hb).
  pose proof (sys_ok_sound _ _ _ Hs') as Hsd. exists s'. split; [done|]. split; [done|]. split; [|done].
  by rewrite (as_inuse _ Hsd), Hb.
Qed.

End among.

(** vmem_xfree of an allocated address takes exactly its region from the allocated ones:
    the segment merges with its free neighbours and stays, or, if it fills an imported
    span and there is a release function, the span leaves the arena and is released. *)
Theorem vmem_xfree_exact held regs s t size : sys_ok held regs s -> t ∈ vm_seglist (v_vm s) -> is_type BT_TYPE_BUSY t = true ->
  0 < size -> bt_size t = vmem_roundup_size (v_vm s) size ->
  let s' := vmem_xfree hash32 VMEM_MAXORDER (bt_start t) size s in
  sys_ok held regs s' /\ arena_sound (v_vm s') /\ freed t s s' /\ busy (vm_seglist (v_vm s)) ≡ₚ rng t :: busy (vm_seglist (v_vm s')).
Proof.
  intros Hs Ht Hb Hz Er s'. destruct (vmem_xfree_ok _ _ _ Horder Hlimit held regs s t size Hs Ht Hb Hz Er) as (Hs' & _ & Hfr).
  split; [done|]. split; [by eapply sys_ok_sound|]. split; [done|]. by apply freed_perm.
Qed.

(** C35. After vmem_rehash, with or without memory for it, bt_lookupbusy finds for every
    address the tag it found before; the new hash has a power of two of buckets. *)
Theorem vmem_rehash_transparent held regs s n got : sys_ok held regs s -> 0 < n ->
  let '(e, vm') := vmem_rehash hash32 n got (v_vm s) in
  (e = if got then 0 else ENOMEM) /\ arena_sound vm' /\
  (got = true -> Z.of_nat (length (vm_hashlist vm')) = 2 ^ (Z.log2 n + 1)) /\
  forall addr, bt_lookupbusy hash32 vm' addr = bt_lookupbusy hash32 (v_vm s) addr.
Proof.
  intros Hs Hn. pose proof (vmem_rehash_ok _ _ _ Horder _ _ _ _ n got Hs Hn) as H.
  destruct (vmem_rehash hash32 n got (v_vm s)) as [e vm']. destruct H as (He & Hv & _ & El & Hlen).
  split; [done|]. split; [exact (sys_ok_sound held regs (set_v_vm vm' s) Hv)|]. split; [done|]. intros addr.
  apply option_eq. intros t. rewrite (lookupbusy_ok _ _ _ Horder _ _ _ _ _ _ Hv), (lookupbusy_ok _ _ _ Horder _ _ _ _ _ _ Hs). by rewrite El.
Qed.

End thms.

(** * An arena at work

    Concrete runs of kernel/kern/subr_vmem.c: a source that gives the next free
    addresses, an arena with private tags and one span, allocations in it; the
    theorems applied there. *)

(** ** Neighbours *)

Definition ex_limit : Z := 2 ^ 48.
Definition ex_hash (addr : Z) : Z := addr / 4096.

Definition top_of (l : list (Z * Z)) : Z := foldr (fun x m => Z.max (x.1 + x.2) m) 0 l.

(** The next quantum above everything that the arena or a thread has. *)
Definition ex_import (s : vsys) (size : Z) : option (Z * Z) :=
  let q := 2 ^ vm_quantum_shift (v_vm s) in
  let a := (top_of (v_inflight s ++ map rng (spans (vm_seglist (v_vm s)))) + q - 1) / q * q in
  if (0 <? size) && (size mod q =? 0) && (a + size <=? ex_limit) then Some (a, size) else None.

#[export] Instance ex_out : VmemOut := {|
  vo_pool := fun log => (length log <? 40)%nat;
  vo_import := ex_import;
  vo_qcache := fun _ _ => None;
  vo_others := fun s => s
|}.

Lemma top_of_ge l x : x ∈ l -> x.1 + x.2 <= top_of l.
Proof. induction l as [|y l IH]; [by intros ?%elem_of_nil|]. intros [-> | H]%elem_of_cons; simpl; [|apply IH in H]; lia. Qed.

Lemma top_of_nonneg l : 0 <= top_of l.
Proof. induction l as [|y l IH]; simpl; lia. Qed.

(** Such a source and threads that stay away do what an arena relies on. *)
#[export] Instance ex_rely : VmemRely ex_hash 64 ex_limit ex_out.
Proof.
  split; [done|]. intros held s size a xsize Hs. unfold vo_import, ex_out, ex_import. set (q := 2 ^ vm_quantum_shift (v_vm s)).
  set (l := v_inflight s ++ _). pose proof (bk_shift _ _ _ _ _ _ (vk_books _ _ _ _ _ _ _ Hs)) as Hsh.
  assert (0 < q) as Hq by (unfold q; lia). set (a0 := (top_of l + q - 1) / q * q).
  assert (top_of l <= a0) as Ha0.
  { unfold a0. pose proof (Z.div_mod (top_of l + q - 1) q). pose proof (Z.mod_pos_bound (top_of l + q - 1) q). lia. }
  destruct (_ && _) eqn:E; [|done]. intros [= <- <-]. rewrite !andb_true_iff, Z.ltb_lt, Z.leb_le, Z.eqb_eq in E. destruct E as [[E1 E2] E3].
  assert ((if vm_ximport (v_vm s) then size else size) = size) as -> by by destruct (vm_ximport _).
  pose proof (top_of_nonneg l). split; [split_and!; try done; [lia | unfold a0; by apply Z.mod_mul; lia]|].
  split; [|exact (vk_apart _ _ _ _ _ _ _ Hs)]. apply Forall_forall. intros x Hx%top_of_ge. right. simpl. lia.
Qed.

Lemma ex_order : (64 <= 64)%nat.
Proof. lia. Qed.

Lemma ex_limit_word : ex_limit < 2 ^ 64.
Proof. reflexivity. Qed.

(** ** One arena *)

Definition ex_tag (id : nat) : bt_t := mk_bt id false BT_TYPE_FREE 0 0.
Definition nosleep : vm_flag_t := mk_vmf false false false.
Definition instant : vm_flag_t := mk_vmf false true false.

Definition ex_fields : vmem := vmem_init_fields 64 false false false false false 4096 0 16.
Definition ex_sys0 : vsys := mk_vsys ex_fields [ex_tag 0; ex_tag 1] 220 [] [] [].
Definition ex_sys1 : vsys := set_v_vm (vmem_add_bts (map ex_tag (seq 200 12)) ex_fields) ex_sys0.

(** The state after a call that returns an error number. *)
Definition after {A} (d : vsys) (o : option (A * vsys)) : vsys := match o with Some (_, s) => s | None => d end.

Definition ex_sys2 : vsys := Eval vm_compute in after ex_sys1 (vmem_add 64 8 65536 65536 nosleep ex_sys1).
Definition ex_sys3 : vsys := Eval vm_compute in
  after ex_sys2 (vmem_xalloc ex_hash 64 8 5000 16384 4096 32768 0 VMEM_ADDR_MAX instant ex_sys2).

Lemma ex_fresh : fresh_sys ex_sys0.
Proof.
  split; [|done]. split; [apply (bool_decide_unpack _); vm_compute; exact I | repeat constructor; lia].
Qed.

Lemma ex_sys0_ok : sys_ok ex_hash 64 ex_limit [] [] ex_sys0.
Proof. apply (init_fields_ok ex_hash 64 ex_limit ex_order false false false false false 12 0 16 ex_sys0); [lia | done | apply ex_fresh]. Qed.

Lemma ex_step1 : vstep ex_hash 64 ex_limit ex_sys0 ex_sys1.
Proof.
  apply (step_add_bts ex_hash 64 ex_limit (map ex_tag (seq 200 12))). split; [apply (bool_decide_unpack _); vm_compute; exact I|].
  apply (bool_decide_unpack _). vm_compute. exact I.
Qed.

Lemma ex_step2 : vstep ex_hash 64 ex_limit ex_sys1 ex_sys2.
Proof.
  apply (step_add ex_hash 64 ex_limit 8 65536 65536 nosleep ex_sys1 0); [done | | by split | vm_compute; reflexivity].
  split_and!; vm_compute; done.
Qed.

Lemma ex_sys2_ok : sys_ok ex_hash 64 ex_limit [] [] ex_sys2.
Proof.
  eapply (vstep_ok _ _ _ ex_order ex_limit_word); [apply ex_step2|]. eapply (vstep_ok _ _ _ ex_order ex_limit_word); [apply ex_step1 | apply ex_sys0_ok].
Qed.

(** The request of the allocation. *)
Definition ex_req : request := request_of (v_vm ex_sys2) 5000 16384 4096 32768 0 VMEM_ADDR_MAX.

Lemma ex_req_ok : request_ok ex_limit (vm_quantum_shift (v_vm ex_sys2)) ex_req.
Proof.
  apply (args_request _ (v_vm ex_sys2) 5000 16384); try (vm_compute; done); try (split; vm_compute; done).
Qed.

Lemma ex_args : xalloc_args (v_vm ex_sys2) 5000 16384 ex_req = true.
Proof. vm_compute. reflexivity. Qed.

Lemma ex_xalloc : vmem_xalloc ex_hash 64 8 5000 16384 4096 32768 0 VMEM_ADDR_MAX instant ex_sys2 = Some (0, 69632, ex_sys3).
Proof. vm_compute. reflexivity. Qed.

Lemma ex_step3 : vstep ex_hash 64 ex_limit ex_sys2 ex_sys3.
Proof.
  exact (step_xalloc ex_hash 64 ex_limit 8 5000 16384 4096 32768 0 VMEM_ADDR_MAX instant ex_sys2 0 69632 ex_sys3 eq_refl ex_args ex_req_ok ex_xalloc).
Qed.

Lemma ex_sys3_ok : sys_ok ex_hash 64 ex_limit [] [] ex_sys3.
Proof. eapply (vstep_ok _ _ _ ex_order ex_limit_word); [apply ex_step3 | apply ex_sys2_ok]. Qed.

(** ** The theorems at work *)

Definition fit_req : request := mk_req 8192 4096 0 8192 69632 VMEM_ADDR_MAX.
Definition fit_blk : bt_t := mk_bt 0 false BT_TYPE_FREE 65536 65536.

(** The first address from the minimum on crosses the boundary. *)
Lemma vmem_fit_least_witness : fit_result fit_req fit_blk (fit_bt fit_req fit_blk) /\ fst (fit_bt fit_req fit_blk) = Some 73728.
Proof.
  split; [|vm_compute; reflexivity]. apply vmem_fit_least; [|split; vm_compute; done | vm_compute; done].
  split; try (split; vm_compute; done); try (vm_compute; done); [by exists 12 | right; by exists 13].
Defined.

Lemma vmem_arena_sound_witness : vreach ex_hash 64 ex_limit ex_sys0 ex_sys3 /\ arena_sound ex_limit (v_vm ex_sys3).
Proof.
  assert (vreach ex_hash 64 ex_limit ex_sys0 ex_sys3) as H.
  { eapply vreach_step; [|apply ex_step3]. eapply vreach_step; [|apply ex_step2]. eapply vreach_step; [|apply ex_step1]. apply vreach_start. }
  split; [exact H|].
  apply (vmem_arena_sound ex_hash 64 ex_limit ex_order ex_limit_word false false false false false 12 0 16 ex_sys0 ex_sys3);
    [lia | done | apply ex_fresh | exact H].
Defined.

Lemma vmem_xalloc_sound_witness : placed ex_req 69632 /\ exists held s1, sysc ex_hash 64 ex_limit held [] ex_sys2 s1 /\
  busy (vm_seglist (v_vm ex_sys3)) ≡ₚ (69632, 8192) :: busy (vm_seglist (v_vm s1)).
Proof.
  destruct (vmem_xalloc_sound ex_hash 64 ex_limit ex_order ex_limit_word [] 8 5000 16384 4096 32768 0 VMEM_ADDR_MAX instant ex_sys2 69632 ex_sys3
    eq_refl ex_args ex_req_ok ex_sys2_ok ex_xalloc) as (Hp & _ & _ & _ & held & s1 & H1 & _ & Hb & _).
  split; [exact Hp|]. exists held, s1. split; [exact H1 | exact Hb].
Defined.

(** A request that is too large. *)
Definition big_req : request := request_of (v_vm ex_sys2) 1048576 0 0 0 0 VMEM_ADDR_MAX.

Lemma vmem_xalloc_exact_witness : exists e addr s',
  vmem_xalloc ex_hash 64 2 1048576 0 0 0 0 VMEM_ADDR_MAX instant ex_sys2 = Some (e, addr, s') /\
  exact_end ex_hash 64 ex_limit [] big_req ex_sys2 e addr s'.
Proof.
  apply (vmem_xalloc_exact ex_hash 64 ex_limit ex_order ex_limit_word); [done | done | done | vm_compute; done | apply ex_sys2_ok | lia | vm_compute; reflexivity |].
  apply (args_request _ (v_vm ex_sys2) 1048576 0); try (vm_compute; done); try (split; vm_compute; done).
Defined.

Lemma vmem_alloc_free_roundtrip_witness :
  map shape (vm_seglist (v_vm (vmem_xfree ex_hash 64 69632 5000 ex_sys3))) = map shape (vm_seglist (v_vm ex_sys2)) \/
  span_released 69632 (rq_size ex_req) ex_sys3 (vmem_xfree ex_hash 64 69632 5000 ex_sys3).
Proof.
  destruct (vmem_alloc_free_roundtrip ex_hash 64 ex_limit ex_order ex_limit_word [] 8 5000 16384 4096 32768 0 VMEM_ADDR_MAX instant ex_sys2 69632 ex_sys3)
    as (_ & held' & s1 & _ & _ & H & E); [done | apply ex_sys2_ok | lia | apply ex_args | apply ex_req_ok | apply ex_xalloc |].
  rewrite E in H; [exact H | reflexivity | reflexivity | vm_compute; reflexivity | lia].
Defined.

Lemma vmem_xfreeall_ends_witness : exists s', vmem_xfreeall 64 1 ex_sys3 = Some s' /\ busy (vm_seglist (v_vm s')) = [].
Proof.
  destruct (vmem_xfreeall_ends ex_hash 64 ex_limit ex_order ex_limit_word (VO := ex_out) (fun s => le_n _) [] 1 ex_sys3 ex_sys3_ok) as (s' & E & Hb & _);
    [vm_compute; lia | exists s'; split; [exact E | exact Hb]].
Defined.

(** The allocated tag of the third state. *)
Definition ex_busy : bt_t := Eval vm_compute in default no_tag (bt_lookupbusy ex_hash (v_vm ex_sys3) 69632).

Lemma vmem_xfree_exact_witness : busy (vm_seglist (v_vm ex_sys3)) ≡ₚ rng ex_busy :: busy (vm_seglist (v_vm (vmem_xfree ex_hash 64 69632 5000 ex_sys3))).
Proof.
  apply (vmem_xfree_exact ex_hash 64 ex_limit ex_order ex_limit_word [] [] ex_sys3 ex_busy 5000);
    [apply ex_sys3_ok | apply (list_elem_of_lookup_2 _ 2); vm_compute; reflexivity | vm_compute; reflexivity | lia | vm_compute; reflexivity].
Defined.

Lemma vmem_rehash_transparent_witness :
  bt_lookupbusy ex_hash (snd (vmem_rehash ex_hash 5 true (v_vm ex_sys3))) 69632 = bt_lookupbusy ex_hash (v_vm ex_sys3) 69632 /\
  length (vm_hashlist (snd (vmem_rehash ex_hash 5 true (v_vm ex_sys3)))) = 8%nat.
Proof.
  split; [|vm_compute; reflexivity].
  pose proof (vmem_rehash_transparent ex_hash 64 ex_limit ex_order [] [] ex_sys3 5 true ex_sys3_ok ltac:(lia)) as H.
  destruct (vmem_rehash ex_hash 5 true (v_vm ex_sys3)) as [e vm']. destruct H as (_ & _ & _ & H). apply H.
Defined.

(** ** At the edges *)

(** Above the last aligned address the arithmetic on words wraps: vmem_fit answers
    an address outside the block, and its assertions fail. *)
Example fit_wraps : fit_bt (mk_req 4096 16384 0 0 0 VMEM_ADDR_MAX) (mk_bt 0 false BT_TYPE_FREE (2 ^ 64 - 4096) 4096) = (Some 16384, false).
Proof. vm_compute. reflexivity. Qed.

(** vmem_destroy1 frees no tag of the segment list, and its assertion fails when
    something is allocated. *)
Example destroy_leaks : let s := vmem_destroy1 ex_sys2 in
  vm_seglist (v_vm s) = vm_seglist (v_vm ex_sys2) /\ v_log s = v_log ex_sys2 /\ v_static s = v_static ex_sys2 /\
  vm_asserts (v_vm (vmem_destroy1 ex_sys3)) = false.
Proof. vm_compute. done. Qed.

(** An arena that imports. *)
Definition imp_sys1 : vsys :=
  set_v_vm (vmem_add_bts (map ex_tag (seq 200 12)) (vmem_init_fields 64 true true false false false 4096 0 16)) ex_sys0.
Definition imp_sys2 : vsys := Eval vm_compute in after imp_sys1 (vmem_add 64 8 65536 65536 nosleep imp_sys1).

(** A large request is served from an imported span, which is released when it is
    free again. *)
Example import_and_release :
  let s := after imp_sys2 (vmem_xalloc ex_hash 64 10 1048576 0 0 0 0 VMEM_ADDR_MAX instant imp_sys2) in
  v_log s = [V_import 1048576] /\ busy (vm_seglist (v_vm s)) = [(131072, 1048576)] /\
  v_log (vmem_xfree ex_hash 64 131072 1048576 s) = [V_release 131072 1048576; V_broadcast; V_import 1048576].
Proof. vm_compute. done. Qed.

(** With bounds that no imported span meets, the loop imports span after span
    until there are no tags, and leaves them in the arena. *)
Example import_ignores_bounds :
  match vmem_xalloc ex_hash 64 20 4096 0 0 0 0 4095 instant imp_sys2 with
  | Some (e, _, s) => e = ENOMEM /\ length (spans (vm_seglist (v_vm s))) = 11%nat /\ busy (vm_seglist (v_vm s)) = []
  | None => False
  end.
Proof. vm_compute. done. Qed.
