(* ===== verification/Memfd.v ===== *)
(** * Memory files

    kernel/kern/sys_memfd.c: memfd_create(2) and the file operations of the
    descriptors it makes, with their seals.  The anonymous object that holds the
    bytes, ubc(9), the user's buffer, the clock and the caller of mmap are
    outside this repository: the object and what is done to it are the class
    [Uao], what uvm documents of them is [UaoOk].  A failed assertion, a lock
    taken twice and a null pointer are [None]. *)

From stdpp Require Import base numbers list strings.
From S2P Require Import Prelude Sysctl.

(** ** Constants and words *)

Definition INT64_MAX : Z := 2 ^ 63 - 1.
Definition i64 (x : Z) : Z := (x + 2 ^ 63) mod 2 ^ 64 - 2 ^ 63.

Definition PAGE_SIZE : Z := 4096.
Definition PAGE_MASK : Z := PAGE_SIZE - 1.
Definition round_page (x : Z) : Z := i64 (Z.land (i64 (x + PAGE_MASK)) (Z.lnot PAGE_MASK)).

Definition F_SEAL_SEAL : Z := 0x1.
Definition F_SEAL_SHRINK : Z := 0x2.
Definition F_SEAL_GROW : Z := 0x4.
Definition F_SEAL_WRITE : Z := 0x8.
Definition F_SEAL_FUTURE_WRITE : Z := 0x10.
Definition F_SEAL_ANY_WRITE : Z := Z.lor F_SEAL_WRITE F_SEAL_FUTURE_WRITE.
Definition MFD_KNOWN_SEALS : Z :=
  Z.lor (Z.lor (Z.lor (Z.lor F_SEAL_SEAL F_SEAL_SHRINK) F_SEAL_GROW) F_SEAL_WRITE)
    F_SEAL_FUTURE_WRITE.

Definition MFD_CLOEXEC : Z := 0x1.
Definition MFD_ALLOW_SEALING : Z := 0x2.
Definition MFD_CLOFORK : Z := 0x4.

Definition FOF_UPDATE_OFFSET : Z := 0x1.
Definition VM_PROT_WRITE : Z := 0x2.
Definition MAP_PRIVATE : Z := 0x2.
Definition S_IREAD : Z := 0x100.
Definition S_IWRITE : Z := 0x80.
Definition MAXPATHLEN : nat := 1024.
Definition EACCES : Z := 13.
Definition FREAD : Z := 1.
Definition FWRITE : Z := 2.

Definition memfd_prefix : string := "memfd:"%string.

(** The file operations a request can name. *)
Inductive fcntl_cmd := F_GETPATH | F_ADD_SEALS | F_GET_SEALS | F_OTHER (cmd : Z).
Inductive whence_t := SEEK_SET | SEEK_CUR | SEEK_END | SEEK_OTHER (w : Z).
Inductive ubc_dir := UBC_READ | UBC_WRITE.

(** The caller's buffer.  [uio_buf] is what is left to write, or what was read
    so far; [uio_valid] is how many bytes of it can be accessed. *)
Record uio_t := mk_uio {
  uio_offset : Z;
  uio_resid : Z;
  uio_buf : list Z;
  uio_valid : Z
}.

Definition set_uio_offset (v : Z) (r : uio_t) : uio_t :=
  mk_uio v (uio_resid r) (uio_buf r) (uio_valid r).
Definition set_uio_resid (v : Z) (r : uio_t) : uio_t :=
  mk_uio (uio_offset r) v (uio_buf r) (uio_valid r).
Definition set_uio_buf (v : list Z) (r : uio_t) : uio_t :=
  mk_uio (uio_offset r) (uio_resid r) v (uio_valid r).
Definition set_uio_valid (v : Z) (r : uio_t) : uio_t :=
  mk_uio (uio_offset r) (uio_resid r) (uio_buf r) v.

(** ** The anonymous object

    [ao_byte o i] is the byte a fault on the object finds at offset [i]. *)
Class Uao := {
  uvm_object : Type;
  ao_size : uvm_object -> Z;
  ao_byte : uvm_object -> Z -> Z;
  uo_refs : uvm_object -> Z;
  uao_create : Z -> uvm_object;
  uao_reference : uvm_object -> uvm_object;
  uao_detach : uvm_object -> uvm_object;
  ubc_uiomove : uvm_object -> uio_t -> Z -> ubc_dir -> Z * uvm_object * uio_t;
  ubc_zerorange : uvm_object -> Z -> Z -> uvm_object;
  pgo_put_free : uvm_object -> Z -> Z -> Z * uvm_object;
  (* a store through a shared mapping *)
  ao_store : uvm_object -> Z -> list Z -> uvm_object
}.

(** [n] bytes were moved.  A failed write may have changed any byte of the range
    it was given, and no other. *)
Record moved `{Uao} (o : uvm_object) (u : uio_t) (todo : Z) (d : ubc_dir)
    (o' : uvm_object) (u' : uio_t) (n : Z) : Prop := {
  mv_offset : uio_offset u' = uio_offset u + n;
  mv_resid : uio_resid u' = uio_resid u - n;
  mv_refs : uo_refs o' = uo_refs o;
  mv_size : ao_size o' = ao_size o;
  mv_buf : match d with
           | UBC_READ => uio_buf u' = uio_buf u ++ (ao_byte o <$> seqZ (uio_offset u) n)
           | UBC_WRITE => uio_buf u' = drop (Z.to_nat n) (uio_buf u)
           end;
  mv_bytes : match d with
             | UBC_READ => forall i, ao_byte o' i = ao_byte o i
             | UBC_WRITE => (ao_byte o' <$> seqZ (uio_offset u) n) = take (Z.to_nat n) (uio_buf u) /\
                 forall i, i < uio_offset u \/ uio_offset u + todo <= i -> ao_byte o' i = ao_byte o i
             end
}.

(** What ubc(9) and the anonymous objects of uvm(9) promise, for ranges inside
    the object. *)
Class UaoOk (U : Uao) : Prop := {
  create_size s : ao_size (uao_create s) = s;
  create_refs s : uo_refs (uao_create s) = 1;
  create_zero s i : ao_byte (uao_create s) i = 0;
  reference_refs o : uo_refs (uao_reference o) = uo_refs o + 1;
  reference_size o : ao_size (uao_reference o) = ao_size o;
  reference_bytes o i : ao_byte (uao_reference o) i = ao_byte o i;
  detach_refs o : uo_refs (uao_detach o) = uo_refs o - 1;
  detach_size o : ao_size (uao_detach o) = ao_size o;
  detach_bytes o i : 1 < uo_refs o -> ao_byte (uao_detach o) i = ao_byte o i;
  uiomove_moves o u todo d : 0 <= uio_offset u -> 0 <= todo <= uio_resid u ->
    uio_offset u + todo <= ao_size o ->
    (d = UBC_WRITE -> todo <= Z.of_nat (length (uio_buf u))) ->
    exists n, 0 <= n <= todo /\
      (fst (fst (ubc_uiomove o u todo d)) = 0 -> n = todo) /\
      moved o u todo d (snd (fst (ubc_uiomove o u todo d))) (snd (ubc_uiomove o u todo d)) n;
  zerorange_refs o off len : uo_refs (ubc_zerorange o off len) = uo_refs o;
  zerorange_size o off len : ao_size (ubc_zerorange o off len) = ao_size o;
  zerorange_bytes o off len i : 0 <= off -> 0 <= len -> off + len <= ao_size o ->
    ao_byte (ubc_zerorange o off len) i = if (off <=? i) && (i <? off + len) then 0 else ao_byte o i;
  put_refs o s e : uo_refs (snd (pgo_put_free o s e)) = uo_refs o;
  put_size o s e : ao_size (snd (pgo_put_free o s e)) = ao_size o;
  put_frame o s e i : i < s \/ e <= i -> ao_byte (snd (pgo_put_free o s e)) i = ao_byte o i;
  store_refs o off l : uo_refs (ao_store o off l) = uo_refs o;
  store_size o off l : ao_size (ao_store o off l) = ao_size o;
  store_frame o off l i : i < off \/ off + Z.of_nat (length l) <= i ->
    ao_byte (ao_store o off l) i = ao_byte o i
}.

Section memfd.

Context `{U : Uao}.

(** ** State *)

Record memfd := mk_memfd {
  mfd_name : string;
  mfd_uobj : uvm_object;
  mfd_size : Z;
  mfd_seals : Z;
  mfd_btime : Z;
  mfd_atime : Z;
  mfd_mtime : Z
}.

Definition set_mfd_name (v : string) (r : memfd) : memfd :=
  mk_memfd v (mfd_uobj r) (mfd_size r) (mfd_seals r) (mfd_btime r) (mfd_atime
    r) (mfd_mtime r).
Definition set_mfd_uobj (v : uvm_object) (r : memfd) : memfd :=
  mk_memfd (mfd_name r) v (mfd_size r) (mfd_seals r) (mfd_btime r) (mfd_atime
    r) (mfd_mtime r).
Definition set_mfd_size (v : Z) (r : memfd) : memfd :=
  mk_memfd (mfd_name r) (mfd_uobj r) v (mfd_seals r) (mfd_btime r) (mfd_atime
    r) (mfd_mtime r).
Definition set_mfd_seals (v : Z) (r : memfd) : memfd :=
  mk_memfd (mfd_name r) (mfd_uobj r) (mfd_size r) v (mfd_btime r) (mfd_atime
    r) (mfd_mtime r).
Definition set_mfd_btime (v : Z) (r : memfd) : memfd :=
  mk_memfd (mfd_name r) (mfd_uobj r) (mfd_size r) (mfd_seals r) v (mfd_atime
    r) (mfd_mtime r).
Definition set_mfd_atime (v : Z) (r : memfd) : memfd :=
  mk_memfd (mfd_name r) (mfd_uobj r) (mfd_size r) (mfd_seals r) (mfd_btime r)
    v (mfd_mtime r).
Definition set_mfd_mtime (v : Z) (r : memfd) : memfd :=
  mk_memfd (mfd_name r) (mfd_uobj r) (mfd_size r) (mfd_seals r) (mfd_btime r)
    (mfd_atime r) v.

Record file_t := mk_file {
  f_lock : bool;
  f_offset : Z;
  f_flag : Z;
  f_euid : Z;
  f_egid : Z;
  f_memfd : option memfd
}.

Definition set_f_lock (v : bool) (r : file_t) : file_t :=
  mk_file v (f_offset r) (f_flag r) (f_euid r) (f_egid r) (f_memfd r).
Definition set_f_offset (v : Z) (r : file_t) : file_t :=
  mk_file (f_lock r) v (f_flag r) (f_euid r) (f_egid r) (f_memfd r).
Definition set_f_flag (v : Z) (r : file_t) : file_t :=
  mk_file (f_lock r) (f_offset r) v (f_euid r) (f_egid r) (f_memfd r).
Definition set_f_euid (v : Z) (r : file_t) : file_t :=
  mk_file (f_lock r) (f_offset r) (f_flag r) v (f_egid r) (f_memfd r).
Definition set_f_egid (v : Z) (r : file_t) : file_t :=
  mk_file (f_lock r) (f_offset r) (f_flag r) (f_euid r) v (f_memfd r).
Definition set_f_memfd (v : option memfd) (r : file_t) : file_t :=
  mk_file (f_lock r) (f_offset r) (f_flag r) (f_euid r) (f_egid r) v.

(** An offset pointer: the file's own offset for read(2) and write(2), a
    variable of the caller for pread(2) and pwrite(2). *)
Inductive off_ptr := Off_file | Off_local (off : Z).

Definition off_get (fp : file_t) (p : off_ptr) : Z :=
  match p with Off_file => f_offset fp | Off_local off => off end.
Definition off_put (v : Z) (fp : file_t) (p : off_ptr) : file_t * off_ptr :=
  match p with Off_file => (set_f_offset v fp, Off_file) | Off_local _ => (fp, Off_local v) end.

Definition mutex_enter (fp : file_t) : option file_t :=
  if f_lock fp then None else Some (set_f_lock true fp).
Definition mutex_exit (fp : file_t) : option file_t :=
  if f_lock fp then Some (set_f_lock false fp) else None.

Definition KASSERT (b : bool) : option unit := if b then Some () else None.

Definition put_memfd (mfd : memfd) (fp : file_t) : file_t := set_f_memfd (Some mfd) fp.

(** ** memfd_create(2)

    [copyinstr] and [fd_allocfile] are the outcomes of those calls; the result is
    the error, the descriptor with its close-on-exec and close-on-fork marks, the
    number of memfd structures left allocated and the object after the call. *)
Record fdent := mk_fdent {
  fd_num : Z;
  fd_file : file_t;
  fd_exclose : bool;
  fd_foclose : bool
}.

Definition set_fd_num (v : Z) (r : fdent) : fdent :=
  mk_fdent v (fd_file r) (fd_exclose r) (fd_foclose r).
Definition set_fd_file (v : file_t) (r : fdent) : fdent :=
  mk_fdent (fd_num r) v (fd_exclose r) (fd_foclose r).
Definition set_fd_exclose (v : bool) (r : fdent) : fdent :=
  mk_fdent (fd_num r) (fd_file r) v (fd_foclose r).
Definition set_fd_foclose (v : bool) (r : fdent) : fdent :=
  mk_fdent (fd_num r) (fd_file r) (fd_exclose r) v.

Record create_res := mk_create {
  cr_error : Z;
  cr_fd : option fdent;
  cr_kmem : Z;
  cr_uobj : option uvm_object
}.

Definition set_cr_error (v : Z) (r : create_res) : create_res :=
  mk_create v (cr_fd r) (cr_kmem r) (cr_uobj r).
Definition set_cr_fd (v : option fdent) (r : create_res) : create_res :=
  mk_create (cr_error r) v (cr_kmem r) (cr_uobj r).
Definition set_cr_kmem (v : Z) (r : create_res) : create_res :=
  mk_create (cr_error r) (cr_fd r) v (cr_uobj r).
Definition set_cr_uobj (v : option uvm_object) (r : create_res) : create_res :=
  mk_create (cr_error r) (cr_fd r) (cr_kmem r) v.

Definition sys_memfd_create (flags sizeof_name : Z) (copyinstr : Z -> Z * string)
    (now : Z) (fd_allocfile : Z * Z) (euid egid : Z) : create_res :=
  if nz (Z.land flags (Z.lnot (Z.lor (Z.lor MFD_CLOEXEC MFD_CLOFORK) MFD_ALLOW_SEALING)))
  then mk_create EINVAL None 0 None
  else
    let uobj := uao_create (INT64_MAX - PAGE_SIZE) in
    let leave error := mk_create error None (1 - 1) (Some (uao_detach uobj)) in
    let '(error, name) :=
      copyinstr (sizeof_name - Z.of_nat (S (String.length memfd_prefix))) in
    if nz error then leave error
    else
      let seals := if Z.land flags MFD_ALLOW_SEALING =? 0 then Z.lor 0 F_SEAL_SEAL else 0 in
      let mfd := mk_memfd (String.append memfd_prefix name) uobj 0 seals now 0 0 in
      let '(error, fd) := fd_allocfile in
      if nz error then leave error
      else
        let fp := mk_file false 0 (Z.lor FREAD FWRITE) euid egid (Some mfd) in
        mk_create 0 (Some (mk_fdent fd fp (has_flag flags MFD_CLOEXEC) (has_flag flags MFD_CLOFORK)))
          1 (Some uobj).

(** ** Truncation *)

Definition memfd_truncate_locked (fp : file_t) (length : Z) (now : Z) : option (Z * file_t) :=
  mfd ← f_memfd fp;
  _ ← KASSERT (f_lock fp);
  if length <? 0 then Some (EINVAL, fp)
  else if length =? mfd_size mfd then Some (0, fp)
  else if has_flag (mfd_seals mfd) F_SEAL_SHRINK && (length <? mfd_size mfd) then Some (EPERM, fp)
  else if has_flag (mfd_seals mfd) F_SEAL_GROW && (mfd_size mfd <? length) then Some (EPERM, fp)
  else
    let '(error, uobj) :=
      if mfd_size mfd <? length
      then (0, ubc_zerorange (mfd_uobj mfd) (mfd_size mfd) (length - mfd_size mfd))
      else
        let start := round_page length in
        let end_ := round_page (mfd_size mfd) in
        if start <? end_ then pgo_put_free (mfd_uobj mfd) start end_ else (0, mfd_uobj mfd) in
    Some (error, put_memfd (set_mfd_size length (set_mfd_mtime now (set_mfd_uobj uobj mfd))) fp).

Definition memfd_truncate (fp : file_t) (length : Z) (now : Z) : option (Z * file_t) :=
  fp ← mutex_enter fp;
  '(error, fp) ← memfd_truncate_locked fp length now;
  fp ← mutex_exit fp;
  Some (error, fp).

(** ** Reading and writing

    In a write [now 0] is the clock the truncation reads and [now 1] the clock
    after the bytes were moved. *)

Definition memfd_read (fp : file_t) (offp : off_ptr) (uio : uio_t) (flags : Z) (now : Z)
    : option (Z * file_t * off_ptr * uio_t) :=
  mfd ← f_memfd fp;
  fp ← mutex_enter fp;
  let off := off_get fp offp in
  let '(error, mfd, fp, offp, uio) :=
    if off <? 0 then (EINVAL, mfd, fp, offp, uio)
    else if mfd_size mfd <=? off then (0, mfd, fp, offp, uio)
    else
      let uio := set_uio_offset off uio in
      let todo := Z.min (uio_resid uio) (mfd_size mfd - off) in
      let '(error, uobj, uio) := ubc_uiomove (mfd_uobj mfd) uio todo UBC_READ in
      let '(fp, offp) :=
        if has_flag flags FOF_UPDATE_OFFSET then off_put (uio_offset uio) fp offp else (fp, offp) in
      (error, set_mfd_uobj uobj mfd, fp, offp, uio) in
  fp ← mutex_exit (put_memfd (set_mfd_atime now mfd) fp);
  Some (error, fp, offp, uio).

(** The part of a write after the checks: move the bytes and the offset. *)
Definition write_move (fp : file_t) (offp : off_ptr) (uio : uio_t) (todo flags now : Z)
    : option (Z * file_t * off_ptr * uio_t) :=
  mfd ← f_memfd fp;
  let '(error, uobj, uio) := ubc_uiomove (mfd_uobj mfd) uio todo UBC_WRITE in
  let '(fp, offp) :=
    if has_flag flags FOF_UPDATE_OFFSET then off_put (uio_offset uio) fp offp else (fp, offp) in
  fp ← mutex_exit (put_memfd (set_mfd_mtime now (set_mfd_uobj uobj mfd)) fp);
  Some (error, fp, offp, uio).

Definition memfd_write (fp : file_t) (offp : off_ptr) (uio : uio_t) (flags : Z) (now : nat -> Z)
    : option (Z * file_t * off_ptr * uio_t) :=
  mfd ← f_memfd fp;
  fp ← mutex_enter fp;
  let off := off_get fp offp in
  let leave error fp uio := (fp ← mutex_exit fp; Some (error, fp, offp, uio)) in
  if has_flag (mfd_seals mfd) F_SEAL_ANY_WRITE then leave EPERM fp uio
  else if off <? 0 then leave EINVAL fp uio
  else
    let uio := set_uio_offset off uio in
    let todo := uio_resid uio in
    if has_flag (mfd_seals mfd) F_SEAL_GROW then
      if mfd_size mfd <=? off then leave EPERM fp uio
      else
        let todo := if mfd_size mfd <=? u64 (off + uio_resid uio) then mfd_size mfd - off else todo in
        write_move fp offp uio todo flags (now 1%nat)
    else if mfd_size mfd <=? u64 (off + uio_resid uio) then
      '(error, fp) ← memfd_truncate_locked fp (i64 (u64 (off + uio_resid uio))) (now 0%nat);
      if nz error then leave error fp uio
      else write_move fp offp uio todo flags (now 1%nat)
    else write_move fp offp uio todo flags (now 1%nat).

Definition memfd_ioctl (fp : file_t) (cmd : Z) : option (Z * file_t) := Some (EINVAL, fp).

(** ** Seals and attributes *)

(** What a request writes to the caller's data. *)
Inductive fcntl_out := FC_NONE | FC_PATH (name : string) | FC_INT (v : Z).

Definition memfd_fcntl (fp : file_t) (cmd : fcntl_cmd) (data : Z)
    : option (Z * file_t * fcntl_out) :=
  mfd ← f_memfd fp;
  match cmd with
  | F_GETPATH => Some (0, fp, FC_PATH (String.substring 0 MAXPATHLEN (mfd_name mfd)))
  | F_ADD_SEALS =>
      fp ← mutex_enter fp;
      let '(error, mfd) :=
        if has_flag (mfd_seals mfd) F_SEAL_SEAL then (EPERM, mfd)
        else if nz (Z.land data (Z.lnot MFD_KNOWN_SEALS)) then (EINVAL, mfd)
        else if (Z.land (mfd_seals mfd) F_SEAL_WRITE =? 0) && nz (Z.land data F_SEAL_WRITE)
                && (1 <? uo_refs (mfd_uobj mfd)) then (EBUSY, mfd)
        else (0, set_mfd_seals (Z.lor (mfd_seals mfd) data) mfd) in
      fp ← mutex_exit (put_memfd mfd fp);
      Some (error, fp, FC_NONE)
  | F_GET_SEALS =>
      fp ← mutex_enter fp;
      fp ← mutex_exit fp;
      Some (0, fp, FC_INT (mfd_seals mfd))
  | F_OTHER _ => Some (EINVAL, fp, FC_NONE)
  end.

Record stat_t := mk_stat {
  st_uid : Z;
  st_gid : Z;
  st_size : Z;
  st_mode : Z;
  st_birthtimespec : Z;
  st_ctimespec : Z;
  st_atimespec : Z;
  st_mtimespec : Z
}.


Definition memfd_stat (fp : file_t) : option (Z * file_t * stat_t) :=
  mfd ← f_memfd fp;
  fp ← mutex_enter fp;
  let mode := if Z.land (mfd_seals mfd) F_SEAL_ANY_WRITE =? 0 then Z.lor S_IREAD S_IWRITE
              else S_IREAD in
  let st := mk_stat (f_euid fp) (f_egid fp) (mfd_size mfd) mode (mfd_btime mfd) (mfd_mtime mfd)
              (mfd_atime mfd) (mfd_mtime mfd) in
  fp ← mutex_exit fp;
  Some (0, fp, st).

(** The object after the file's reference is gone goes with the result. *)
Definition memfd_close (fp : file_t) : option (Z * file_t * uvm_object) :=
  mfd ← f_memfd fp;
  Some (0, set_f_memfd None fp, uao_detach (mfd_uobj mfd)).

(** ** Mapping and seeking *)

(** The result is the error and, when the mapping is granted, its maximum
    protection. *)
Definition memfd_mmap (fp : file_t) (off size prot flags : Z) : option (Z * file_t * option Z) :=
  mfd ← f_memfd fp;
  _ ← KASSERT (off =? round_page off);
  _ ← KASSERT (size =? round_page size);
  _ ← KASSERT (0 <? size);
  fp ← mutex_enter fp;
  if off <? 0 then fp ← mutex_exit fp; Some (EINVAL, fp, None)
  else if round_page (mfd_size mfd) <? u64 (off + size) then
    fp ← mutex_exit fp; Some (EINVAL, fp, None)
  else if has_flag (mfd_seals mfd) F_SEAL_ANY_WRITE && has_flag prot VM_PROT_WRITE
          && (Z.land flags MAP_PRIVATE =? 0) then
    fp ← mutex_exit fp; Some (EPERM, fp, None)
  else
    let mfd := set_mfd_uobj (uao_reference (mfd_uobj mfd)) mfd in
    fp ← mutex_exit (put_memfd mfd fp);
    Some (0, fp, Some prot).

(** The result is the error and what was stored in [*newoffp]. *)
Definition memfd_seek (fp : file_t) (delta : Z) (whence : whence_t) (flags : Z)
    : option (Z * file_t * option Z) :=
  mfd ← f_memfd fp;
  fp ← mutex_enter fp;
  let newoff :=
    match whence with
    | SEEK_CUR => Some (i64 (f_offset fp + delta))
    | SEEK_END => Some (i64 (mfd_size mfd + delta))
    | SEEK_SET => Some delta
    | SEEK_OTHER _ => None
    end in
  match newoff with
  | None => fp ← mutex_exit fp; Some (EINVAL, fp, None)
  | Some newoff =>
      let fp := if has_flag flags FOF_UPDATE_OFFSET then set_f_offset newoff fp else fp in
      fp ← mutex_exit fp;
      Some (0, fp, Some newoff)
  end.

(** ** A file and its mappings

    The address spaces that map the file, with what uvm(9) does to them: an
    unmap drops its reference of the object and a fork takes one, mprotect(2)
    stays below the maximum protection and a store through a shared mapping
    reaches the object. *)

Record mapping := mk_map {
  m_off : Z;
  m_size : Z;
  m_prot : Z;
  m_maxprot : Z;
  m_private : bool
}.

Definition set_m_off (v : Z) (r : mapping) : mapping :=
  mk_map v (m_size r) (m_prot r) (m_maxprot r) (m_private r).
Definition set_m_size (v : Z) (r : mapping) : mapping :=
  mk_map (m_off r) v (m_prot r) (m_maxprot r) (m_private r).
Definition set_m_prot (v : Z) (r : mapping) : mapping :=
  mk_map (m_off r) (m_size r) v (m_maxprot r) (m_private r).
Definition set_m_maxprot (v : Z) (r : mapping) : mapping :=
  mk_map (m_off r) (m_size r) (m_prot r) v (m_private r).
Definition set_m_private (v : bool) (r : mapping) : mapping :=
  mk_map (m_off r) (m_size r) (m_prot r) (m_maxprot r) v.

Record mstate := mk_ms {
  ms_file : file_t;
  ms_maps : list mapping
}.

Definition set_ms_file (v : file_t) (r : mstate) : mstate :=
  mk_ms v (ms_maps r).
Definition set_ms_maps (v : list mapping) (r : mstate) : mstate :=
  mk_ms (ms_file r) v.

Inductive memfd_op :=
  | OP_READ (offp : off_ptr) (resid valid flags now : Z)
  | OP_WRITE (offp : off_ptr) (data : list Z) (valid flags : Z) (now : nat -> Z)
  | OP_IOCTL (cmd : Z)
  | OP_FCNTL (cmd : fcntl_cmd) (data : Z)
  | OP_STAT
  | OP_MMAP (off size prot flags : Z)
  | OP_SEEK (delta : Z) (whence : whence_t) (flags : Z)
  | OP_TRUNCATE (length now : Z)
  | OP_UNMAP (i : nat)
  | OP_FORK (i : nat)
  | OP_MPROTECT (i : nat) (prot : Z)
  | OP_STORE (i : nat) (rel : Z) (data : list Z).

(** What a call gives back: its error and the bytes read or the number asked for. *)
Inductive memfd_out := OUT_NONE | OUT_BYTES (l : list Z) | OUT_INT (v : Z) | OUT_STAT (st : stat_t)
  | OUT_PATH (name : string).

Definition fcntl_answer (o : fcntl_out) : memfd_out :=
  match o with FC_NONE => OUT_NONE | FC_PATH n => OUT_PATH n | FC_INT v => OUT_INT v end.

Definition set_obj (g : uvm_object -> uvm_object) (fp : file_t) : option file_t :=
  mfd ← f_memfd fp; Some (put_memfd (set_mfd_uobj (g (mfd_uobj mfd)) mfd) fp).

Definition memfd_step (s : mstate) (op : memfd_op) : option (Z * memfd_out * mstate) :=
  let fp := ms_file s in
  let maps := ms_maps s in
  match op with
  | OP_READ offp resid valid flags now =>
      '(e, fp, _, u) ← memfd_read fp offp (mk_uio 0 resid [] valid) flags now;
      Some (e, OUT_BYTES (uio_buf u), mk_ms fp maps)
  | OP_WRITE offp data valid flags now =>
      '(e, fp, _, u) ← memfd_write fp offp (mk_uio 0 (Z.of_nat (length data)) data valid) flags now;
      Some (e, OUT_INT (Z.of_nat (length data) - uio_resid u), mk_ms fp maps)
  | OP_IOCTL cmd => '(e, fp) ← memfd_ioctl fp cmd; Some (e, OUT_NONE, mk_ms fp maps)
  | OP_FCNTL cmd data =>
      '(e, fp, o) ← memfd_fcntl fp cmd data; Some (e, fcntl_answer o, mk_ms fp maps)
  | OP_STAT => '(e, fp, st) ← memfd_stat fp; Some (e, OUT_STAT st, mk_ms fp maps)
  | OP_MMAP off size prot flags =>
      '(e, fp, r) ← memfd_mmap fp off size prot flags;
      let maps := match r with
                  | Some maxprot =>
                      maps ++ [mk_map off size prot maxprot (has_flag flags MAP_PRIVATE)]
                  | None => maps
                  end in
      Some (e, OUT_NONE, mk_ms fp maps)
  | OP_SEEK delta whence flags =>
      '(e, fp, r) ← memfd_seek fp delta whence flags;
      Some (e, match r with Some v => OUT_INT v | None => OUT_NONE end, mk_ms fp maps)
  | OP_TRUNCATE len now =>
      '(e, fp) ← memfd_truncate fp len now; Some (e, OUT_NONE, mk_ms fp maps)
  | OP_UNMAP i =>
      match maps !! i with
      | Some _ => fp ← set_obj uao_detach fp; Some (0, OUT_NONE, mk_ms fp (delete i maps))
      | None => Some (EINVAL, OUT_NONE, s)
      end
  | OP_FORK i =>
      match maps !! i with
      | Some m => fp ← set_obj uao_reference fp; Some (0, OUT_NONE, mk_ms fp (maps ++ [m]))
      | None => Some (EINVAL, OUT_NONE, s)
      end
  | OP_MPROTECT i prot =>
      match maps !! i with
      | Some m => if Z.land prot (Z.lnot (m_maxprot m)) =? 0
                  then Some (0, OUT_NONE, mk_ms fp (<[i := set_m_prot prot m]> maps))
                  else Some (EACCES, OUT_NONE, s)
      | None => Some (EINVAL, OUT_NONE, s)
      end
  | OP_STORE i rel data =>
      match maps !! i with
      | Some m =>
          if has_flag (m_prot m) VM_PROT_WRITE && negb (m_private m) && (0 <=? rel)
             && (rel + Z.of_nat (length data) <=? m_size m)
          then fp ← set_obj (fun o => ao_store o (m_off m + rel) data) fp;
               Some (0, OUT_NONE, mk_ms fp maps)
          else Some (0, OUT_NONE, s)
      | None => Some (0, OUT_NONE, s)
      end
  end.

(** A run of calls with what each gave back. *)
Fixpoint memfd_run (s : mstate) (ops : list memfd_op) : option (list (Z * memfd_out) * mstate) :=
  match ops with
  | [] => Some ([], s)
  | op :: ops =>
      '(e, o, s) ← memfd_step s op;
      '(rs, s) ← memfd_run s ops;
      Some ((e, o) :: rs, s)
  end.

End memfd.
