(* ===== verification/MemfdRef.v ===== *)
(** * Memory files as lists of bytes

    The abstract file is a list of bytes with its seals, its position and its
    mappings; each call of kernel/kern/sys_memfd.c refines a step of it, faults
    and refusals included. *)

From stdpp Require Import base numbers list strings list_numbers.
From S2P Require Import Prelude Sysctl Memfd.

(** ** Words and flags *)

Lemma i64_range x : - 2 ^ 63 <= i64 x < 2 ^ 63.
Proof. unfold i64. zdm. Qed.

Lemma i64_id x : - 2 ^ 63 <= x < 2 ^ 63 -> i64 x = x.
Proof. unfold i64. intros H. rewrite Z.mod_small; lia. Qed.

Lemma i64_u64_big x : 2 ^ 63 <= x < 2 ^ 64 -> i64 (u64 x) < 0.
Proof. unfold i64, u64. zdm. Qed.

Definition page_up (x : Z) : Z := (x + 4095) / 4096 * 4096.

Lemma round_page_up x : 0 <= x <= INT64_MAX - PAGE_SIZE -> round_page x = page_up x.
Proof.
  unfold round_page, INT64_MAX, PAGE_SIZE, PAGE_MASK, PAGE_SIZE, page_up. intros H.
  rewrite (i64_id (x + _)) by lia.
  change (4096 - 1) with (Z.ones 12). rewrite <-Z.ldiff_land, Z.ldiff_ones_r by lia.
  rewrite Z.shiftl_mul_pow2, Z.shiftr_div_pow2 by lia. change (Z.ones 12) with 4095.
  change (2 ^ 12) with 4096. apply i64_id. zdm.
Qed.

Lemma page_up_ge x : x <= page_up x.
Proof. unfold page_up. zdm. Qed.

Lemma page_up_mono x y : x <= y -> page_up x <= page_up y.
Proof. unfold page_up. zdm. Qed.

Lemma has_flag_lor a b m : has_flag (Z.lor a b) m = has_flag a m || has_flag b m.
Proof.
  unfold has_flag. rewrite Z.land_lor_distr_l.
  destruct (Z.land a m =? 0) eqn:Ea, (Z.land b m =? 0) eqn:Eb; simpl;
    rewrite ?Z.eqb_eq, ?Z.eqb_neq in *; rewrite ?Ea, ?Eb; try done;
    apply negb_true_iff, Z.eqb_neq; intros [??]%Z.lor_eq_0_iff; done.
Qed.

(** A protection below another has no bit the other lacks. *)
Lemma has_flag_below p q m : Z.land p (Z.lnot q) = 0 -> has_flag p m = true -> has_flag q m = true.
Proof.
  unfold has_flag. rewrite !negb_true_iff, !Z.eqb_neq. intros E H Eq. apply H.
  apply Z.bits_inj_0. intros n. rewrite Z.land_spec.
  pose proof (f_equal (fun z => Z.testbit z n) E) as E1.
  pose proof (f_equal (fun z => Z.testbit z n) Eq) as E2.
  simpl in E1, E2. rewrite Z.land_spec in E1, E2. rewrite Z.bits_0 in E1, E2.
  destruct (Z.lt_ge_cases n 0); [by rewrite !Z.testbit_neg_r|].
  rewrite Z.lnot_spec in E1 by done.
  by destruct (Z.testbit p n), (Z.testbit q n), (Z.testbit m n).
Qed.

(** ** The abstract file *)

Record afile := mk_afile {
  a_bytes : list Z;
  a_seals : Z;
  a_pos : Z;
  a_maps : list mapping
}.

Definition a_len (a : afile) : Z := Z.of_nat (length (a_bytes a)).
Definition sealed (a : afile) (m : Z) : bool := has_flag (a_seals a) m.
Definition a_off (a : afile) (p : off_ptr) : Z :=
  match p with Off_file => a_pos a | Off_local off => off end.

(** The bytes [w] put at [off]: a gap before them reads as zero. *)
Definition splice (off : nat) (w l : list Z) : list Z :=
  resize off 0 l ++ w ++ drop (off + length w) l.

(** The position after [n] bytes were moved at [p]. *)
Definition a_moved (a : afile) (p : off_ptr) (flags n : Z) : Z :=
  match p with
  | Off_file => if has_flag flags FOF_UPDATE_OFFSET then a_pos a + n else a_pos a
  | Off_local _ => a_pos a
  end.

Definition write_refused (a : afile) (off len : Z) : Z :=
  if sealed a F_SEAL_ANY_WRITE then EPERM
  else if off <? 0 then EINVAL
  else if sealed a F_SEAL_GROW then (if a_len a <=? off then EPERM else 0)
  else if INT64_MAX <? off + len then EINVAL else 0.

(** How much of a write a file has room for. *)
Definition write_room (a : afile) (off len : Z) : Z :=
  if sealed a F_SEAL_GROW then Z.min len (a_len a - off) else len.

Definition truncate_refused (a : afile) (len : Z) : Z :=
  if len <? 0 then EINVAL
  else if sealed a F_SEAL_SHRINK && (len <? a_len a) then EPERM
  else if sealed a F_SEAL_GROW && (a_len a <? len) then EPERM else 0.

Definition seal_refused (a : afile) (data : Z) : Z :=
  if sealed a F_SEAL_SEAL then EPERM
  else if nz (Z.land data (Z.lnot MFD_KNOWN_SEALS)) then EINVAL
  else if negb (sealed a F_SEAL_WRITE) && has_flag data F_SEAL_WRITE && (0 <? Z.of_nat (length (a_maps a)))
  then EBUSY else 0.

Definition mmap_refused (a : afile) (off size prot flags : Z) : Z :=
  if off <? 0 then EINVAL
  else if page_up (a_len a) <? off + size then EINVAL
  else if sealed a F_SEAL_ANY_WRITE && has_flag prot VM_PROT_WRITE && negb (has_flag flags MAP_PRIVATE)
  then EPERM else 0.

Definition seek_target (a : afile) (delta : Z) (w : whence_t) : option Z :=
  match w with
  | SEEK_SET => Some delta
  | SEEK_CUR => Some (i64 (a_pos a + delta))
  | SEEK_END => Some (i64 (a_len a + delta))
  | SEEK_OTHER _ => None
  end.

Definition can_store (m : mapping) : bool := has_flag (m_prot m) VM_PROT_WRITE && negb (m_private m).

(** Where in the file a store through mapping [i] lands, if it reaches the file. *)
Definition store_at (a : afile) (i : nat) (rel : Z) (data : list Z) : option Z :=
  match a_maps a !! i with
  | Some m =>
      if can_store m && (0 <=? rel) && (rel + Z.of_nat (length data) <=? m_size m)
      then Some (m_off m + rel) else None
  | None => None
  end.

Inductive astep (a : afile) : memfd_op -> Z * memfd_out -> afile -> Prop :=
  | A_read_neg offp resid valid flags now : a_off a offp < 0 ->
      astep a (OP_READ offp resid valid flags now) (EINVAL, OUT_BYTES []) a
  | A_read offp resid valid flags now off n e : off = a_off a offp -> 0 <= off ->
      0 <= n <= Z.min resid (Z.max 0 (a_len a - off)) ->
      (e = 0 -> n = Z.min resid (Z.max 0 (a_len a - off))) ->
      astep a (OP_READ offp resid valid flags now)
        (e, OUT_BYTES (take (Z.to_nat n) (drop (Z.to_nat off) (a_bytes a))))
        (mk_afile (a_bytes a) (a_seals a) (a_moved a offp flags n) (a_maps a))
  | A_write_refused offp data valid flags now e :
      e = write_refused a (a_off a offp) (Z.of_nat (length data)) -> e <> 0 ->
      astep a (OP_WRITE offp data valid flags now) (e, OUT_INT 0) a
  | A_write offp data valid flags now off w n e : off = a_off a offp ->
      write_refused a off (Z.of_nat (length data)) = 0 ->
      Z.of_nat (length w) = write_room a off (Z.of_nat (length data)) ->
      0 <= n <= Z.of_nat (length w) -> (e = 0 -> n = Z.of_nat (length w)) ->
      take (Z.to_nat n) w = take (Z.to_nat n) data ->
      astep a (OP_WRITE offp data valid flags now) (e, OUT_INT n)
        (mk_afile (splice (Z.to_nat off) w (a_bytes a)) (a_seals a) (a_moved a offp flags n) (a_maps a))
  | A_ioctl cmd : astep a (OP_IOCTL cmd) (EINVAL, OUT_NONE) a
  | A_path data name : astep a (OP_FCNTL F_GETPATH data) (0, OUT_PATH name) a
  | A_seal_refused data e : e = seal_refused a data -> e <> 0 ->
      astep a (OP_FCNTL F_ADD_SEALS data) (e, OUT_NONE) a
  | A_seal data : seal_refused a data = 0 ->
      astep a (OP_FCNTL F_ADD_SEALS data) (0, OUT_NONE)
        (mk_afile (a_bytes a) (Z.lor (a_seals a) data) (a_pos a) (a_maps a))
  | A_seals data : astep a (OP_FCNTL F_GET_SEALS data) (0, OUT_INT (a_seals a)) a
  | A_fcntl cmd data : astep a (OP_FCNTL (F_OTHER cmd) data) (EINVAL, OUT_NONE) a
  | A_stat st : st_size st = a_len a ->
      has_flag (st_mode st) S_IWRITE = negb (sealed a F_SEAL_ANY_WRITE) ->
      astep a OP_STAT (0, OUT_STAT st) a
  | A_mmap_refused off size prot flags e : e = mmap_refused a off size prot flags -> e <> 0 ->
      astep a (OP_MMAP off size prot flags) (e, OUT_NONE) a
  | A_mmap off size prot flags : mmap_refused a off size prot flags = 0 ->
      astep a (OP_MMAP off size prot flags) (0, OUT_NONE)
        (mk_afile (a_bytes a) (a_seals a) (a_pos a)
           (a_maps a ++ [mk_map off size prot prot (has_flag flags MAP_PRIVATE)]))
  | A_seek_bad delta w flags : seek_target a delta w = None ->
      astep a (OP_SEEK delta w flags) (EINVAL, OUT_NONE) a
  | A_seek delta w flags v : seek_target a delta w = Some v ->
      astep a (OP_SEEK delta w flags) (0, OUT_INT v)
        (mk_afile (a_bytes a) (a_seals a)
           (if has_flag flags FOF_UPDATE_OFFSET then v else a_pos a) (a_maps a))
  | A_truncate_refused len now e : e = truncate_refused a len -> e <> 0 ->
      astep a (OP_TRUNCATE len now) (e, OUT_NONE) a
  | A_truncate len now e : truncate_refused a len = 0 -> (a_len a <= len -> e = 0) ->
      astep a (OP_TRUNCATE len now) (e, OUT_NONE)
        (mk_afile (resize (Z.to_nat len) 0 (a_bytes a)) (a_seals a) (a_pos a) (a_maps a))
  | A_no_unmap i : a_maps a !! i = None -> astep a (OP_UNMAP i) (EINVAL, OUT_NONE) a
  | A_no_fork i : a_maps a !! i = None -> astep a (OP_FORK i) (EINVAL, OUT_NONE) a
  | A_no_mprotect i prot : a_maps a !! i = None -> astep a (OP_MPROTECT i prot) (EINVAL, OUT_NONE) a
  | A_unmap i m : a_maps a !! i = Some m ->
      astep a (OP_UNMAP i) (0, OUT_NONE) (mk_afile (a_bytes a) (a_seals a) (a_pos a) (delete i (a_maps a)))
  | A_fork i m : a_maps a !! i = Some m ->
      astep a (OP_FORK i) (0, OUT_NONE) (mk_afile (a_bytes a) (a_seals a) (a_pos a) (a_maps a ++ [m]))
  | A_mprotect i m prot : a_maps a !! i = Some m -> Z.land prot (Z.lnot (m_maxprot m)) = 0 ->
      astep a (OP_MPROTECT i prot) (0, OUT_NONE)
        (mk_afile (a_bytes a) (a_seals a) (a_pos a) (<[i := set_m_prot prot m]> (a_maps a)))
  | A_mprotect_refused i m prot : a_maps a !! i = Some m -> Z.land prot (Z.lnot (m_maxprot m)) <> 0 ->
      astep a (OP_MPROTECT i prot) (EACCES, OUT_NONE) a
  | A_no_store i rel data : store_at a i rel data = None ->
      astep a (OP_STORE i rel data) (0, OUT_NONE) a
  | A_store i off rel data l : store_at a i rel data = Some off -> length l = length (a_bytes a) ->
      (forall j : nat, Z.of_nat j < off \/ off + Z.of_nat (length data) <= Z.of_nat j ->
         l !! j = a_bytes a !! j) ->
      astep a (OP_STORE i rel data) (0, OUT_NONE) (mk_afile l (a_seals a) (a_pos a) (a_maps a)).

(** ** The file as the object holds it *)

Section refine.

Context `{U : Uao} {UO : UaoOk U}.

Definition obytes (o : uvm_object) (off n : Z) : list Z := ao_byte o <$> seqZ off n.

Lemma obytes_length o off n : length (obytes o off n) = Z.to_nat n.
Proof. unfold obytes. by rewrite length_fmap, length_seqZ. Qed.

Lemma obytes_ext o o' off n :
  (forall i, off <= i < off + n -> ao_byte o' i = ao_byte o i) -> obytes o' off n = obytes o off n.
Proof.
  intros H. apply list_fmap_ext. intros i x [-> Hi]%lookup_seqZ. apply H. lia.
Qed.

Lemma obytes_app o off n m : 0 <= n -> 0 <= m ->
  obytes o off (n + m) = obytes o off n ++ obytes o (off + n) m.
Proof. intros. unfold obytes. by rewrite seqZ_app, fmap_app by lia. Qed.

Lemma obytes_lookup o n j : obytes o 0 n !! j = if Z.of_nat j <? n then Some (ao_byte o (Z.of_nat j)) else None.
Proof.
  unfold obytes. rewrite list_lookup_fmap. destruct (Z.ltb_spec (Z.of_nat j) n).
  - by rewrite lookup_seqZ_lt by lia.
  - by rewrite lookup_seqZ_ge by lia.
Qed.

Lemma obytes_zero o off n : 0 <= n -> (forall i, off <= i < off + n -> ao_byte o i = 0) ->
  obytes o off n = replicate (Z.to_nat n) 0.
Proof.
  intros Hn H. apply list_eq. intros j. unfold obytes. rewrite list_lookup_fmap.
  destruct (Z.lt_ge_cases (Z.of_nat j) n).
  - rewrite lookup_seqZ_lt, lookup_replicate_2 by lia. simpl. by rewrite H by lia.
  - rewrite lookup_seqZ_ge by lia. symmetry. apply lookup_replicate_None. lia.
Qed.

(** A slice of a file. *)
Lemma obytes_slice o off n m : 0 <= off -> 0 <= n -> off + n <= m ->
  take (Z.to_nat n) (drop (Z.to_nat off) (obytes o 0 m)) = obytes o off n.
Proof.
  intros H0 H1 H2. replace m with (off + (n + (m - off - n))) by lia.
  rewrite (obytes_app o 0) by lia. rewrite drop_app_length' by (rewrite obytes_length; lia).
  rewrite obytes_app by lia. by rewrite take_app_length' by (rewrite obytes_length; lia).
Qed.

(** Shrinking and growing. *)
Lemma obytes_shrink o o' n m : 0 <= n <= m -> (forall i, 0 <= i < n -> ao_byte o' i = ao_byte o i) ->
  obytes o' 0 n = resize (Z.to_nat n) 0 (obytes o 0 m).
Proof.
  intros Hn H. rewrite (obytes_ext o o') by (intros; apply H; lia).
  replace m with (n + (m - n)) by lia. rewrite obytes_app by lia.
  rewrite resize_app_le by (rewrite obytes_length; lia).
  by rewrite resize_all_alt by (by rewrite obytes_length).
Qed.

Lemma obytes_grow o o' n m : 0 <= n <= m -> (forall i, 0 <= i < n -> ao_byte o' i = ao_byte o i) ->
  (forall i, n <= i < m -> ao_byte o' i = 0) ->
  obytes o' 0 m = resize (Z.to_nat m) 0 (obytes o 0 n).
Proof.
  intros Hn H Hz. replace m with (n + (m - n)) at 1 by lia. rewrite obytes_app by lia.
  rewrite (obytes_ext o o') by (intros; apply H; lia).
  rewrite (obytes_zero o' (0 + n)) by (try lia; intros; apply Hz; lia).
  rewrite resize_ge by (rewrite obytes_length; lia). rewrite obytes_length. f_equal. f_equal. lia.
Qed.

(** A range rewritten inside a file. *)
Lemma obytes_splice o o' off todo m : 0 <= off -> 0 <= todo -> off + todo <= m ->
  (forall i, i < off \/ off + todo <= i -> ao_byte o' i = ao_byte o i) ->
  obytes o' 0 m = splice (Z.to_nat off) (obytes o' off todo) (obytes o 0 m).
Proof.
  intros H0 H1 H2 H. unfold splice. rewrite obytes_length.
  rewrite <-(obytes_shrink o o' off m) by (try lia; intros; apply H; lia).
  replace m with (off + (todo + (m - off - todo))) by lia.
  rewrite (obytes_app o' 0), (obytes_app o' (0 + off)) by lia.
  rewrite (obytes_app o 0), (obytes_app o (0 + off)) by lia.
  rewrite (app_assoc (obytes o 0 off)), drop_app_length' by (rewrite length_app, !obytes_length; lia).
  do 2 f_equal. apply obytes_ext. intros. apply H. lia.
Qed.

(** ** Well-formed files *)

Definition AO : Z := INT64_MAX - PAGE_SIZE.

(** A mapping through which the file can be changed, now or after mprotect(2). *)
Definition may_store (m : mapping) : bool := has_flag (m_maxprot m) VM_PROT_WRITE && negb (m_private m).

Record file_wf (fp : file_t) (m : memfd) (maps : list mapping) : Prop := {
  wf_mfd : f_memfd fp = Some m;
  wf_lock : f_lock fp = false;
  wf_pos : - 2 ^ 63 <= f_offset fp < 2 ^ 63;
  wf_size : 0 <= mfd_size m <= AO;
  wf_obj : ao_size (mfd_uobj m) = AO;
  wf_refs : uo_refs (mfd_uobj m) = 1 + Z.of_nat (length maps);
  wf_seals : Z.land (mfd_seals m) (Z.lnot MFD_KNOWN_SEALS) = 0;
  wf_maps : Forall (fun mp => Z.land (m_prot mp) (Z.lnot (m_maxprot mp)) = 0) maps;
  wf_sealed : has_flag (mfd_seals m) F_SEAL_WRITE = true -> Forall (fun mp => may_store mp = false) maps
}.

Definition abs (fp : file_t) (m : memfd) (maps : list mapping) : afile :=
  mk_afile (obytes (mfd_uobj m) 0 (mfd_size m)) (mfd_seals m) (f_offset fp) maps.

(** What a call on the bytes leaves of the file. *)
Record keeps (m m' : memfd) : Prop := {
  kp_seals : mfd_seals m' = mfd_seals m;
  kp_refs : uo_refs (mfd_uobj m') = uo_refs (mfd_uobj m);
  kp_obj : ao_size (mfd_uobj m') = ao_size (mfd_uobj m)
}.

Lemma mfd_keeps_refl m : keeps m m.
Proof. by split. Qed.

Lemma mfd_keeps_trans m1 m2 m3 : keeps m1 m2 -> keeps m2 m3 -> keeps m1 m3.
Proof. intros [A1 A2 A3] [B1 B2 B3]. split; congruence. Qed.

Lemma wf_keeps fp fp' m m' maps : file_wf fp m maps -> keeps m m' -> 0 <= mfd_size m' <= AO ->
  f_memfd fp' = Some m' -> f_lock fp' = false -> - 2 ^ 63 <= f_offset fp' < 2 ^ 63 ->
  file_wf fp' m' maps.
Proof.
  intros [? ? ? ? ? ? ? ? ?] [K1 K2 K3] Hs Hm Hl Hp. split; rewrite ?K1, ?K2, ?K3; done.
Qed.

Lemma a_len_abs fp m maps : 0 <= mfd_size m -> a_len (abs fp m maps) = mfd_size m.
Proof. intros. unfold a_len, abs. simpl. rewrite obytes_length. lia. Qed.

Lemma put_memfd_same m fp : f_memfd fp = Some m -> put_memfd m fp = fp.
Proof. destruct fp; simpl. by intros ->. Qed.

Lemma abs_keeps fp fp' m m' maps l pos : keeps m m' ->
  obytes (mfd_uobj m') 0 (mfd_size m') = l -> f_offset fp' = pos ->
  abs fp' m' maps = mk_afile l (a_seals (abs fp m maps)) pos (a_maps (abs fp m maps)).
Proof. intros [K _ _] <- <-. unfold abs. simpl. by rewrite K. Qed.

Lemma mutex_exit_held fp : f_lock fp = true -> mutex_exit fp = Some (set_f_lock false fp).
Proof. unfold mutex_exit. by intros ->. Qed.

(** ** Truncation *)

Lemma truncate_locked_spec fp m maps len now : f_memfd fp = Some m -> f_lock fp = true ->
  0 <= mfd_size m <= AO -> ao_size (mfd_uobj m) = AO -> len <= AO ->
  exists e m', memfd_truncate_locked fp len now = Some (e, put_memfd m' fp) /\ keeps m m' /\
    let refused := truncate_refused (abs fp m maps) len in
    (refused <> 0 /\ e = refused /\ m' = m \/
     refused = 0 /\ 0 <= len /\ mfd_size m' = len /\ (mfd_size m <= len -> e = 0) /\
     obytes (mfd_uobj m') 0 len = resize (Z.to_nat len) 0 (obytes (mfd_uobj m) 0 (mfd_size m))).
Proof.
  intros Hm Hl Hs Ho Hlen. unfold memfd_truncate_locked, truncate_refused.
  rewrite a_len_abs by lia. rewrite Hm; simpl. rewrite Hl; simpl. unfold sealed; simpl.
  destruct (Z.ltb_spec len 0).
  { exists EINVAL, m. rewrite put_memfd_same by done. split; [done|split; [apply mfd_keeps_refl|left; by split_and!]]. }
  destruct (Z.eqb_spec len (mfd_size m)) as [->|Hne].
  { exists 0, m. rewrite put_memfd_same by done. split; [done|split; [apply mfd_keeps_refl|right]].
    rewrite Z.ltb_irrefl, !andb_false_r. split_and!; try done. apply obytes_grow; intros; lia || done. }
  destruct (has_flag (mfd_seals m) F_SEAL_SHRINK && (len <? mfd_size m)) eqn:E1.
  { exists EPERM, m. rewrite put_memfd_same by done. split; [done|split; [apply mfd_keeps_refl|left; by split_and!]]. }
  destruct (has_flag (mfd_seals m) F_SEAL_GROW && (mfd_size m <? len)) eqn:E2.
  { exists EPERM, m. rewrite put_memfd_same by done. split; [done|split; [apply mfd_keeps_refl|left; by split_and!]]. }
  destruct (Z.ltb_spec (mfd_size m) len).
  - eexists 0, _. split; [done|]. split; [split; simpl; [done|apply zerorange_refs|apply zerorange_size]|].
    right. split_and!; try done. simpl. apply obytes_grow; [lia|..]; intros i Hi;
      rewrite zerorange_bytes by lia; cmp_cases; lia || done.
  - rewrite !round_page_up by (unfold AO in *; lia).
    destruct (Z.ltb_spec (page_up len) (page_up (mfd_size m))).
    + destruct (pgo_put_free (mfd_uobj m) (page_up len) (page_up (mfd_size m))) as [e o] eqn:Ep.
      pose proof (put_refs (mfd_uobj m) (page_up len) (page_up (mfd_size m))) as P1.
      pose proof (put_size (mfd_uobj m) (page_up len) (page_up (mfd_size m))) as P2.
      pose proof (put_frame (mfd_uobj m) (page_up len) (page_up (mfd_size m))) as P3.
      rewrite Ep in P1, P2, P3; simpl in *.
      eexists e, _. split; [done|]. split; [by split|]. right. split_and!; try done; simpl; try lia.
      apply obytes_shrink; [lia|]. intros i Hi. apply P3. pose proof (page_up_ge len). lia.
    + eexists 0, _. split; [done|]. split; [by split|]. right. split_and!; try done; simpl; try lia.
      by apply obytes_shrink; [lia|].
Qed.

Lemma truncate_refines fp m maps len now : file_wf fp m maps -> len <= AO ->
  exists e fp' m', memfd_truncate fp len now = Some (e, fp') /\ file_wf fp' m' maps /\
    astep (abs fp m maps) (OP_TRUNCATE len now) (e, OUT_NONE) (abs fp' m' maps).
Proof.
  intros W Hlen. pose proof W as [Hm Hl Hp Hs Ho _ _ _ _]. unfold memfd_truncate, mutex_enter.
  rewrite Hl; simpl.
  destruct (truncate_locked_spec (set_f_lock true fp) m maps len now) as (e & m' & -> & K & C); try done.
  simpl. eexists e, _, m'. split; [done|].
  destruct C as [(C1 & C2 & ->)|(C1 & C2 & C3 & C4 & C5)].
  - split; [by apply (wf_keeps fp _ m)|]. apply (A_truncate_refused (abs fp m maps)); [exact C2|rewrite C2; exact C1].
  - split; [apply (wf_keeps fp _ m); simpl; try done; lia|].
    rewrite (abs_keeps fp _ m m' maps _ (f_offset fp) K) by (rewrite ?C3; done).
    apply A_truncate; [done|]. by rewrite a_len_abs by lia.
Qed.

(** ** Reading and writing *)

Lemma a_off_abs fp m maps offp : a_off (abs fp m maps) offp = off_get fp offp.
Proof. by destruct offp. Qed.

(** The position after a move, wherever the offset is kept. *)
Lemma off_put_pos fp m maps offp flags n :
  let r := if has_flag flags FOF_UPDATE_OFFSET then off_put (off_get fp offp + n) fp offp
           else (fp, offp) in
  f_offset (fst r) = a_moved (abs fp m maps) offp flags n /\
  f_memfd (fst r) = f_memfd fp /\ f_lock (fst r) = f_lock fp.
Proof. destruct offp; simpl; by destruct (has_flag flags FOF_UPDATE_OFFSET). Qed.

Lemma a_moved_range fp m maps offp flags n : file_wf fp m maps -> 0 <= n ->
  off_get fp offp + n < 2 ^ 63 ->
  - 2 ^ 63 <= a_moved (abs fp m maps) offp flags n < 2 ^ 63.
Proof.
  intros W Hn Ho. pose proof (wf_pos _ _ _ W).
  destruct offp; simpl in *; [destruct (has_flag flags FOF_UPDATE_OFFSET)|]; lia.
Qed.

Lemma a_moved_0 fp m maps offp flags : a_moved (abs fp m maps) offp flags 0 = f_offset fp.
Proof. destruct offp; simpl; [destruct (has_flag flags FOF_UPDATE_OFFSET)|]; lia. Qed.

Lemma abs_same fp fp' m m' maps : f_offset fp' = f_offset fp -> mfd_uobj m' = mfd_uobj m ->
  mfd_size m' = mfd_size m -> mfd_seals m' = mfd_seals m -> abs fp' m' maps = abs fp m maps.
Proof. unfold abs. by intros -> -> -> ->. Qed.

Lemma read_refines fp m maps offp resid valid flags now : file_wf fp m maps -> 0 <= resid ->
  exists e fp' offp' u' m',
    memfd_read fp offp (mk_uio 0 resid [] valid) flags now = Some (e, fp', offp', u') /\
    file_wf fp' m' maps /\
    astep (abs fp m maps) (OP_READ offp resid valid flags now) (e, OUT_BYTES (uio_buf u'))
      (abs fp' m' maps).
Proof.
  intros W Hr. pose proof W as [Hm Hl Hp Hs Ho _ _ _ _]. unfold memfd_read, mutex_enter.
  rewrite Hm; simpl. rewrite Hl; simpl.
  assert (off_get (set_f_lock true fp) offp = off_get fp offp) as -> by (by destruct offp).
  set (off := off_get fp offp).
  destruct (Z.ltb_spec off 0) as [Hneg|Hpos]; simpl.
  { eexists EINVAL, _, _, _, (set_mfd_atime now m). split; [done|]. simpl.
    split; [apply (wf_keeps fp _ m); simpl; try done; by split|].
    erewrite abs_same by done. apply A_read_neg. by rewrite a_off_abs. }
  destruct (Z.leb_spec (mfd_size m) off) as [Hend|Hin]; simpl.
  { eexists 0, _, _, _, (set_mfd_atime now m). split; [done|]. simpl.
    split; [apply (wf_keeps fp _ m); simpl; try done; by split|].
    pose proof (A_read (abs fp m maps) offp resid valid flags now off 0 0) as A.
    rewrite a_len_abs, a_off_abs, a_moved_0 in A by lia.
    erewrite abs_same by done. apply A; try done; lia. }
  set (u := set_uio_offset off _).
  set (todo := Z.min resid (mfd_size m - off)).
  assert (0 <= todo <= uio_resid u /\ off + todo <= mfd_size m) as [Ht Ht2].
  { unfold todo. simpl. lia. }
  destruct (uiomove_moves (mfd_uobj m) u todo UBC_READ) as (n & Hn & He & Mv); [done..|rewrite Ho; simpl; lia|done|].
  destruct (ubc_uiomove (mfd_uobj m) u todo UBC_READ) as [[e o] u']; simpl in *.
  destruct Mv as [M1 M2 M3 M4 M5 M6]. simpl in M1, M5.
  destruct (off_put_pos (set_f_lock true fp) m maps offp flags n) as (P1 & P2 & P3).
  rewrite M1.
  assert (off_get (set_f_lock true fp) offp = off) as Eo by (by destruct offp). rewrite Eo in P1, P2, P3.
  destruct (if has_flag flags FOF_UPDATE_OFFSET then _ else _) as [fp' offp']; simpl in *.
  rewrite mutex_exit_held by (simpl; by rewrite P3). simpl.
  eexists e, _, offp', u', _. split; [done|].
  set (m' := set_mfd_atime now (set_mfd_uobj o m)).
  assert (keeps m m') as K by (by split).
  assert (obytes o 0 (mfd_size m) = obytes (mfd_uobj m) 0 (mfd_size m)) as Eb.
  { apply obytes_ext. intros. apply M6. }
  split.
  - apply (wf_keeps fp _ m); try done. simpl. rewrite P1.
    apply (a_moved_range fp m maps); [done|lia|]. fold off. unfold AO, INT64_MAX, PAGE_SIZE in *. lia.
  - rewrite (abs_keeps fp _ m m' maps _ (a_moved (abs fp m maps) offp flags n) K Eb) by exact P1.
    rewrite M5. simpl. unfold obytes in Eb.
    pose proof (obytes_slice (mfd_uobj m) off n (mfd_size m) Hpos) as Sl.
    unfold obytes at 2 in Sl. rewrite <-Sl by lia.
    apply A_read; rewrite ?a_len_abs, ?a_off_abs by lia; try done; unfold todo in *; simpl in *; lia.
Qed.

Lemma obytes_take o off n m : 0 <= n <= m -> take (Z.to_nat n) (obytes o off m) = obytes o off n.
Proof.
  intros H. replace m with (n + (m - n)) by lia. rewrite obytes_app by lia.
  by rewrite take_app_length' by (rewrite obytes_length; lia).
Qed.

Lemma write_move_spec fp m maps offp u todo flags now : f_memfd fp = Some m -> f_lock fp = true ->
  mfd_size m <= AO -> ao_size (mfd_uobj m) = AO -> uio_offset u = off_get fp offp ->
  0 <= uio_offset u -> 0 <= todo <= uio_resid u -> todo <= Z.of_nat (length (uio_buf u)) ->
  uio_offset u + todo <= mfd_size m ->
  exists e fp' offp' u' m' n w, write_move fp offp u todo flags now = Some (e, fp', offp', u') /\
    keeps m m' /\ mfd_size m' = mfd_size m /\ (0 <= n <= todo /\ (e = 0 -> n = todo)) /\
    (Z.of_nat (length w) = todo /\ take (Z.to_nat n) w = take (Z.to_nat n) (uio_buf u)) /\
    obytes (mfd_uobj m') 0 (mfd_size m) =
      splice (Z.to_nat (uio_offset u)) w (obytes (mfd_uobj m) 0 (mfd_size m)) /\
    (f_memfd fp' = Some m' /\ f_lock fp' = false) /\
    f_offset fp' = a_moved (abs fp m maps) offp flags n /\ uio_resid u' = uio_resid u - n.
Proof.
  intros Hm Hl Hs Ho Eo Hpos Ht Hb Hin. unfold write_move. rewrite Hm; simpl.
  destruct (uiomove_moves (mfd_uobj m) u todo UBC_WRITE) as (n & Hn & He & Mv); [done..|lia|done|].
  destruct (ubc_uiomove (mfd_uobj m) u todo UBC_WRITE) as [[e o] u']; simpl in *.
  destruct Mv as [M1 M2 M3 M4 M5 [M6 M7]].
  destruct (off_put_pos fp m maps offp flags n) as (P1 & P2 & P3).
  rewrite M1, Eo.
  destruct (if has_flag flags FOF_UPDATE_OFFSET then _ else _) as [fp' offp']; simpl in *.
  rewrite mutex_exit_held by (simpl; by rewrite P3). simpl.
  eexists e, _, offp', u', (set_mfd_mtime now (set_mfd_uobj o m)), n, (obytes o (uio_offset u) todo).
  split; [done|]. rewrite Eo in *.
  split_and!; try done; try lia; simpl.
  - rewrite obytes_length. lia.
  - rewrite obytes_take by lia. exact M6.
  - apply obytes_splice; try lia. done.
Qed.

(** The write after its checks, on the file [m1] the truncation left. *)
Lemma write_finish fp m m1 maps offp data valid flags now nowmv todo off :
  file_wf fp m maps -> keeps m m1 -> 0 <= mfd_size m1 <= AO -> off = off_get fp offp -> 0 <= off ->
  write_refused (abs fp m maps) off (Z.of_nat (length data)) = 0 ->
  todo = write_room (abs fp m maps) off (Z.of_nat (length data)) ->
  0 <= todo <= Z.of_nat (length data) -> off + todo <= mfd_size m1 ->
  (forall w, Z.of_nat (length w) = todo ->
     splice (Z.to_nat off) w (obytes (mfd_uobj m1) 0 (mfd_size m1)) =
     splice (Z.to_nat off) w (obytes (mfd_uobj m) 0 (mfd_size m))) ->
  exists e fp' offp' u' m',
    write_move (put_memfd m1 (set_f_lock true fp)) offp
      (mk_uio off (Z.of_nat (length data)) data valid) todo flags nowmv = Some (e, fp', offp', u') /\
    file_wf fp' m' maps /\
    astep (abs fp m maps) (OP_WRITE offp data valid flags now)
      (e, OUT_INT (Z.of_nat (length data) - uio_resid u')) (abs fp' m' maps).
Proof.
  intros W K Hs1 Eo Hpos Hok Et Ht Hin Hw. pose proof W as [Hm Hl Hp Hs Ho _ _ _ _].
  destruct (write_move_spec (put_memfd m1 (set_f_lock true fp)) m1 maps offp
              (mk_uio off (Z.of_nat (length data)) data valid) todo flags nowmv)
    as (e & fp' & offp' & u' & m' & n & w & E & K' & S' & [Hn He] & [Lw Tw] & B & [F1 F2] & P & R);
    simpl; try done; try lia.
  { by rewrite (kp_obj _ _ K). }
  simpl in B, P, R, Tw. exists e, fp', offp', u', m'. split; [done|].
  pose proof (mfd_keeps_trans _ _ _ K K') as K2.
  assert (f_offset fp' = a_moved (abs fp m maps) offp flags n) as P'.
  { rewrite P. by destruct offp. }
  split.
  - apply (wf_keeps fp _ m); try done; [by rewrite S'|]. rewrite P'. apply a_moved_range; [done|lia|].
    rewrite <-Eo. unfold AO, INT64_MAX, PAGE_SIZE in *. lia.
  - rewrite <-S' in B at 1. rewrite (Hw w Lw) in B. rewrite (abs_keeps fp _ m m' maps _ _ K2 B P').
    replace (Z.of_nat (length data) - uio_resid u') with n by lia.
    apply A_write; rewrite ?a_off_abs; try done; rewrite ?Lw; try done; lia.
Qed.

Lemma splice_resize off w l n : (length l <= n)%nat -> n = (off + length w)%nat ->
  splice off w (resize n 0 l) = splice off w l.
Proof.
  intros Hl ->. unfold splice. rewrite resize_resize by lia. f_equal. f_equal.
  rewrite !drop_ge; [done|lia|rewrite length_resize; lia].
Qed.

(** A call that stops before it changes the file. *)
Lemma leave_refines fp m maps op e o : file_wf fp m maps ->
  astep (abs fp m maps) op (e, o) (abs fp m maps) ->
  let fp' := set_f_lock false (set_f_lock true fp) in
  mutex_exit (set_f_lock true fp) = Some fp' /\ file_wf fp' m maps /\
  astep (abs fp m maps) op (e, o) (abs fp' m maps).
Proof. intros W A. split; [done|]. split; [|exact A]. destruct W. by split. Qed.

Lemma write_leave fp m maps offp data : file_wf fp m maps -> forall e valid flags now u,
  e = write_refused (abs fp m maps) (off_get fp offp) (Z.of_nat (length data)) -> e <> 0 ->
  uio_resid u = Z.of_nat (length data) ->
  exists e' fp' offp' u' m',
    (mutex_exit (set_f_lock true fp) ≫= (fun fp => Some (e, fp, offp, u))) = Some (e', fp', offp', u') /\
    file_wf fp' m' maps /\
    astep (abs fp m maps) (OP_WRITE offp data valid flags now)
      (e', OUT_INT (Z.of_nat (length data) - uio_resid u')) (abs fp' m' maps).
Proof.
  intros W e valid flags now u He Hne Hu.
  destruct (leave_refines fp m maps (OP_WRITE offp data valid flags now) e (OUT_INT 0) W) as (E & W' & A).
  { by apply A_write_refused; [rewrite a_off_abs|]. }
  eexists e, _, offp, u, m. rewrite E. split; [done|]. split; [done|]. by rewrite Hu, Z.sub_diag.
Qed.

Lemma write_refines fp m maps offp data valid flags now :
  let off := off_get fp offp in let len := Z.of_nat (length data) in
  file_wf fp m maps -> - 2 ^ 63 <= off < 2 ^ 63 -> len < 2 ^ 63 ->
  off + len <= AO \/ INT64_MAX < off + len ->
  exists e fp' offp' u' m',
    memfd_write fp offp (mk_uio 0 len data valid) flags now = Some (e, fp', offp', u') /\
    file_wf fp' m' maps /\
    astep (abs fp m maps) (OP_WRITE offp data valid flags now) (e, OUT_INT (len - uio_resid u'))
      (abs fp' m' maps).
Proof.
  intros off len W Hoff Hlen Hfit. pose proof W as [Hm Hl Hp Hs Ho _ _ _ _].
  unfold memfd_write, mutex_enter. rewrite Hm; simpl. rewrite Hl; simpl.
  replace (off_get (set_f_lock true fp) offp) with off by (by destruct offp).
  pose proof (write_leave fp m maps offp data W) as Leave. fold off len in Leave.
  assert (put_memfd m (set_f_lock true fp) = set_f_lock true fp) as Eput by (by apply put_memfd_same).
  assert (a_len (abs fp m maps) = mfd_size m) as El by (apply a_len_abs; lia).
  unfold write_refused in Leave. unfold sealed in Leave. rewrite El in Leave. simpl in Leave.
  pose proof (write_finish fp m) as Fin. unfold write_refused, write_room, sealed in Fin.
  assert (u64 (off + len) = off + len \/ off < 0) as Eu.
  { destruct (Z.lt_ge_cases off 0); [by right|left]. unfold u64. rewrite Z.mod_small; lia. }
  destruct (has_flag (mfd_seals m) F_SEAL_ANY_WRITE) eqn:Ea; [by apply Leave|].
  destruct (Z.ltb_spec off 0) as [Hneg|Hpos]; [by apply Leave|].
  destruct Eu as [Eu|]; [rewrite Eu|lia].
  destruct (has_flag (mfd_seals m) F_SEAL_GROW) eqn:Eg.
  - destruct (Z.leb_spec (mfd_size m) off) as [Hend|Hin]; [by apply Leave|].
    rewrite <-Eput. apply (Fin m maps); rewrite ?El; simpl; rewrite ?Ea, ?Eg; try done; try apply mfd_keeps_refl.
    + destruct (Z.ltb_spec off 0); [lia|]. destruct (Z.leb_spec (mfd_size m) off); [lia|done].
    + fold len. destruct (Z.leb_spec (mfd_size m) (off + len)); lia.
    + fold len. destruct (Z.leb_spec (mfd_size m) (off + len)); lia.
    + fold len. destruct (Z.leb_spec (mfd_size m) (off + len)); lia.
  - destruct (Z.leb_spec (mfd_size m) (off + len)) as [Hgrow|Hin].
    + destruct (truncate_locked_spec (set_f_lock true fp) m maps (i64 (off + len)) (now 0%nat))
        as (e & m1 & -> & K & C); try done.
      { destruct Hfit; [rewrite i64_id; unfold AO, INT64_MAX, PAGE_SIZE in *; lia|].
        rewrite <-Eu. pose proof (i64_u64_big (off + len)). unfold AO, INT64_MAX, PAGE_SIZE in *; lia. }
      unfold truncate_refused, sealed in C. rewrite a_len_abs in C by lia. simpl in C. rewrite Eg in C.
      destruct (Z.ltb_spec INT64_MAX (off + len)) as [Hbig|Hfits].
      * pose proof (i64_u64_big (off + len)) as Hn. rewrite Eu in Hn.
        destruct (Z.ltb_spec (i64 (off + len)) 0); [|unfold INT64_MAX in *; lia].
        destruct C as [(_ & -> & ->)|[C _]]; [|done]. rewrite Eput. by apply Leave.
      * assert (off + len <= AO) as Hao by (destruct Hfit; lia).
        rewrite i64_id in * by (unfold AO, INT64_MAX, PAGE_SIZE in *; lia).
        destruct (Z.ltb_spec (off + len) 0); [lia|]. destruct (Z.ltb_spec (off + len) (mfd_size m)); [lia|].
        rewrite andb_false_r in C. destruct C as [[? _]|(_ & _ & C3 & C4 & C5)]; [done|].
        rewrite C4 by lia. simpl.
        apply (Fin m1 maps); rewrite ?El; simpl; rewrite ?Ea, ?Eg; try done; fold len; try lia.
        { destruct (Z.ltb_spec off 0); [lia|]. destruct (Z.ltb_spec INT64_MAX (off + len)); [lia|done]. }
        intros w Hw. rewrite C3, C5. apply splice_resize; [rewrite obytes_length|]; lia.
    + rewrite <-Eput. apply (Fin m maps); rewrite ?El; simpl; rewrite ?Ea, ?Eg; try done; try apply mfd_keeps_refl; fold len; try lia.
      destruct (Z.ltb_spec off 0); [lia|]. destruct (Z.ltb_spec INT64_MAX (off + len)); [|done].
      unfold AO, INT64_MAX, PAGE_SIZE in *; lia.
Qed.

(** ** Seals, attributes, mapping and seeking *)

Lemma has_flag_any_write x : has_flag x F_SEAL_WRITE = true -> has_flag x F_SEAL_ANY_WRITE = true.
Proof.
  unfold has_flag, F_SEAL_ANY_WRITE. rewrite Z.land_lor_distr_r, !negb_true_iff, !Z.eqb_neq.
  by intros H [? _]%Z.lor_eq_0_iff.
Qed.

Lemma seal_refines fp m maps data : file_wf fp m maps ->
  exists e fp' m', memfd_fcntl fp F_ADD_SEALS data = Some (e, fp', FC_NONE) /\ file_wf fp' m' maps /\
    astep (abs fp m maps) (OP_FCNTL F_ADD_SEALS data) (e, OUT_NONE) (abs fp' m' maps).
Proof.
  intros W. pose proof W as [Hm Hl Hp Hs Ho Hr Hk Hmp Hsl]. unfold memfd_fcntl, mutex_enter.
  rewrite Hm; simpl. rewrite Hl; simpl.
  pose proof (A_seal_refused (abs fp m maps) data) as R. pose proof (A_seal (abs fp m maps) data) as A.
  unfold seal_refused, sealed in R, A. simpl in R, A.
  replace (1 <? uo_refs (mfd_uobj m)) with (0 <? Z.of_nat (length maps)).
  2: { rewrite Hr. destruct (Z.ltb_spec 0 (Z.of_nat (length maps))), (Z.ltb_spec 1 (1 + Z.of_nat (length maps))); lia || done. }
  assert ((Z.land (mfd_seals m) F_SEAL_WRITE =? 0) = negb (has_flag (mfd_seals m) F_SEAL_WRITE)) as ->.
  { unfold has_flag. by rewrite negb_involutive. }
  change (nz (Z.land data F_SEAL_WRITE)) with (has_flag data F_SEAL_WRITE).
  destruct (has_flag (mfd_seals m) F_SEAL_SEAL).
  { eexists EPERM, _, m. split; [done|]. split; [by apply (wf_keeps fp _ m); [|apply mfd_keeps_refl|..]|by apply R]. }
  destruct (nz (Z.land data (Z.lnot MFD_KNOWN_SEALS))) eqn:Ek.
  { eexists EINVAL, _, m. split; [done|]. split; [by apply (wf_keeps fp _ m); [|apply mfd_keeps_refl|..]|by apply R]. }
  destruct (negb (has_flag (mfd_seals m) F_SEAL_WRITE) && has_flag data F_SEAL_WRITE && (0 <? Z.of_nat (length maps))) eqn:Eb.
  { eexists EBUSY, _, m. split; [done|]. split; [by apply (wf_keeps fp _ m); [|apply mfd_keeps_refl|..]|by apply R]. }
  eexists 0, _, (set_mfd_seals (Z.lor (mfd_seals m) data) m). split; [done|]. split; [|by apply A].
  split; try done; simpl.
  - rewrite Z.land_lor_distr_l, Hk, Z.lor_0_l. unfold nz in Ek. by apply negb_false_iff, Z.eqb_eq in Ek.
  - rewrite has_flag_lor. destruct (has_flag (mfd_seals m) F_SEAL_WRITE); [by intros _; apply Hsl|].
    simpl in *. intros Hd. rewrite Hd in Eb. simpl in Eb. apply Z.ltb_ge in Eb.
    destruct maps; simpl in *; [constructor|lia].
Qed.

Lemma fcntl_refines fp m maps cmd data : file_wf fp m maps ->
  exists e fp' m' o, memfd_fcntl fp cmd data = Some (e, fp', o) /\ file_wf fp' m' maps /\
    astep (abs fp m maps) (OP_FCNTL cmd data) (e, fcntl_answer o) (abs fp' m' maps).
Proof.
  intros W. pose proof W as [Hm Hl _ _ _ _ _ _ _]. destruct cmd.
  - unfold memfd_fcntl. rewrite Hm. simpl. eexists _, _, m, _. split; [done|]. split; [done|]. apply A_path.
  - destruct (seal_refines fp m maps data W) as (e & fp' & m' & E & W' & A). by exists e, fp', m', FC_NONE.
  - unfold memfd_fcntl, mutex_enter. rewrite Hm; simpl. rewrite Hl; simpl.
    destruct (leave_refines fp m maps _ _ _ W (A_seals (abs fp m maps) data)) as (E & W' & A).
    eexists _, _, m, (FC_INT _). split; [done|]. split; [done|]. exact A.
  - unfold memfd_fcntl. rewrite Hm. simpl. eexists _, _, m, _. split; [done|]. split; [done|]. apply A_fcntl.
Qed.

Lemma stat_refines fp m maps : file_wf fp m maps ->
  exists e fp' m' st, memfd_stat fp = Some (e, fp', st) /\ file_wf fp' m' maps /\
    astep (abs fp m maps) OP_STAT (e, OUT_STAT st) (abs fp' m' maps).
Proof.
  intros W. pose proof W as [Hm Hl _ Hs _ _ _ _ _]. unfold memfd_stat, mutex_enter.
  rewrite Hm; simpl. rewrite Hl; simpl. set (st := mk_stat _ _ _ _ _ _ _ _).
  assert (astep (abs fp m maps) OP_STAT (0, OUT_STAT st) (abs fp m maps)) as A.
  { apply A_stat; [rewrite a_len_abs by lia; done|]. unfold sealed, has_flag at 2. simpl.
    by destruct (Z.land (mfd_seals m) F_SEAL_ANY_WRITE =? 0). }
  destruct (leave_refines fp m maps _ _ _ W A) as (E & W' & A').
  eexists _, _, m, _. split; [done|]. by split.
Qed.

Lemma seek_refines fp m maps delta w flags : file_wf fp m maps -> - 2 ^ 63 <= delta < 2 ^ 63 ->
  exists e fp' m' r, memfd_seek fp delta w flags = Some (e, fp', r) /\ file_wf fp' m' maps /\
    astep (abs fp m maps) (OP_SEEK delta w flags)
      (e, match r with Some v => OUT_INT v | None => OUT_NONE end) (abs fp' m' maps).
Proof.
  intros W Hd. pose proof W as [Hm Hl Hp Hs _ _ _ _ _]. unfold memfd_seek, mutex_enter.
  rewrite Hm; simpl. rewrite Hl; simpl.
  pose proof (A_seek (abs fp m maps) delta w flags) as A. pose proof (A_seek_bad (abs fp m maps) delta w flags) as B.
  assert (forall v, seek_target (abs fp m maps) delta w = Some v -> - 2 ^ 63 <= v < 2 ^ 63) as R.
  { intros v. destruct w; simpl; intros [= <-]; try apply i64_range; lia. }
  assert (match w with
    | SEEK_SET => Some delta | SEEK_CUR => Some (i64 (f_offset fp + delta))
    | SEEK_END => Some (i64 (mfd_size m + delta)) | SEEK_OTHER _ => None end
    = seek_target (abs fp m maps) delta w) as ->.
  { destruct w; simpl; by rewrite ?a_len_abs by lia. }
  destruct (seek_target (abs fp m maps) delta w) as [v|].
  - destruct (has_flag flags FOF_UPDATE_OFFSET); simpl; (eexists _, _, m, _; split; [done|]); simpl;
      (split; [|by apply A]); apply (wf_keeps fp _ m); simpl; try done; try apply mfd_keeps_refl; by apply R.
  - destruct (leave_refines fp m maps _ _ _ W (B eq_refl)) as (E & W' & A').
    eexists _, _, m, None. split; [done|]. by split.
Qed.

Lemma mmap_refines fp m maps off size prot flags : file_wf fp m maps ->
  off = round_page off -> size = round_page size -> 0 < size < 2 ^ 63 -> off < 2 ^ 63 ->
  exists e fp' m' r, memfd_mmap fp off size prot flags = Some (e, fp', r) /\
    let maps' := match r with
                 | Some maxprot => maps ++ [mk_map off size prot maxprot (has_flag flags MAP_PRIVATE)]
                 | None => maps
                 end in
    file_wf fp' m' maps' /\
    astep (abs fp m maps) (OP_MMAP off size prot flags) (e, OUT_NONE) (abs fp' m' maps').
Proof.
  intros W Eo Es Hsz Hof. pose proof W as [Hm Hl Hp Hs Ho Hr Hk Hmp Hsl].
  unfold memfd_mmap, mutex_enter. rewrite Hm; simpl.
  rewrite <-Eo, <-Es, !Z.eqb_refl. rewrite (proj2 (Z.ltb_lt 0 size)) by lia. simpl. rewrite Hl; simpl.
  pose proof (A_mmap (abs fp m maps) off size prot flags) as A.
  pose proof (fun e H1 H2 => leave_refines fp m maps _ e _ W
    (A_mmap_refused (abs fp m maps) off size prot flags e H1 H2)) as B.
  unfold mmap_refused, sealed in A, B. rewrite a_len_abs in A, B by lia. simpl in A, B.
  destruct (Z.ltb_spec off 0).
  { destruct (B EINVAL) as (E & W' & A'); [done..|]. eexists _, _, m, None. split; [done|]. by split. }
  rewrite round_page_up by (unfold AO in *; lia).
  replace (u64 (off + size)) with (off + size) by (unfold u64; rewrite Z.mod_small; lia).
  destruct (page_up (mfd_size m) <? off + size).
  { destruct (B EINVAL) as (E & W' & A'); [done..|]. eexists _, _, m, None. split; [done|]. by split. }
  assert ((Z.land flags MAP_PRIVATE =? 0) = negb (has_flag flags MAP_PRIVATE)) as ->.
  { unfold has_flag. by rewrite negb_involutive. }
  destruct (has_flag (mfd_seals m) F_SEAL_ANY_WRITE && has_flag prot VM_PROT_WRITE &&
            negb (has_flag flags MAP_PRIVATE)) eqn:Ep.
  { destruct (B EPERM) as (E & W' & A'); [done..|]. eexists _, _, m, None. split; [done|]. by split. }
  eexists 0, _, (set_mfd_uobj (uao_reference (mfd_uobj m)) m), (Some prot). split; [done|]. simpl. split.
  - split; simpl; try done.
    + by rewrite reference_size.
    + rewrite reference_refs, length_app. simpl. lia.
    + apply Forall_app. split; [done|]. constructor; [apply Z.land_lnot_diag|constructor].
    + intros Hw. apply Forall_app. split; [by apply Hsl|]. constructor; [|constructor].
      unfold may_store. simpl. apply has_flag_any_write in Hw. rewrite Hw in Ep. exact Ep.
  - unfold abs at 2. simpl. rewrite (obytes_ext (mfd_uobj m)) by (intros; apply reference_bytes). by apply A.
Qed.

End refine.
