(* ===== verification/MemfdThms.v ===== *)
(** * What a memory file promises

    Every run of calls, faults and stores refines the abstract file of MemfdRef,
    and seals hold through every run. *)

From stdpp Require Import base numbers list strings list_numbers.
From S2P Require Import Prelude Sysctl Memfd MemfdRef.

Section runs.

Context `{U : Uao} {UO : UaoOk U}.

Definition ms_wf (s : mstate) (m : memfd) : Prop := file_wf (ms_file s) m (ms_maps s).
Definition ms_abs (s : mstate) (m : memfd) : afile := abs (ms_file s) m (ms_maps s).

(** What the callers see to: a residue is not negative, offsets are off_t and
    transfers ssize_t, uvm_mmap rounds to pages; and no file grows past the end
    of its object (into the last page of the offset range). *)
Definition op_ok (s : mstate) (op : memfd_op) : bool :=
  match op with
  | OP_READ _ resid _ _ _ => 0 <=? resid
  | OP_WRITE offp data _ _ _ =>
      let off := off_get (ms_file s) offp in
      let len := Z.of_nat (length data) in
      (- 2 ^ 63 <=? off) && (off <? 2 ^ 63) && (len <? 2 ^ 63)
      && ((off + len <=? AO) || (INT64_MAX <? off + len))
  | OP_MMAP off size _ _ =>
      (off =? round_page off) && (size =? round_page size) && (0 <? size) && (size <? 2 ^ 63)
      && (off <? 2 ^ 63)
  | OP_SEEK delta _ _ => (- 2 ^ 63 <=? delta) && (delta <? 2 ^ 63)
  | OP_TRUNCATE len _ => len <=? AO
  | _ => true
  end.

Fixpoint run_ok (s : mstate) (ops : list memfd_op) : bool :=
  match ops with
  | [] => true
  | op :: ops =>
      op_ok s op && match memfd_step s op with Some (_, s) => run_ok s ops | None => true end
  end.

(** ** Steps *)

Lemma set_obj_wf fp m maps g : file_wf fp m maps ->
  set_obj g fp = Some (put_memfd (set_mfd_uobj (g (mfd_uobj m)) m) fp).
Proof. intros W. unfold set_obj. by rewrite (wf_mfd _ _ _ W). Qed.

(** Every mapping stays below its maximum protection. *)
Definition map_below (mp : mapping) : Prop := Z.land (m_prot mp) (Z.lnot (m_maxprot mp)) = 0.

(** The object changed behind the file's back, with other mappings. *)
Lemma wf_object fp m maps maps' o : file_wf fp m maps -> ao_size o = AO ->
  uo_refs o = 1 + Z.of_nat (length maps') ->
  (Forall (fun mp => may_store mp = false) maps -> Forall (fun mp => may_store mp = false) maps') ->
  (Forall map_below maps -> Forall map_below maps') ->
  file_wf (put_memfd (set_mfd_uobj o m) fp) (set_mfd_uobj o m) maps'.
Proof. intros [? ? ? ? ? ? ? Hb Hs] Ho Hr Hf Hp. split; simpl; auto. Qed.

Lemma abs_object fp m maps maps' o : (forall i, ao_byte o i = ao_byte (mfd_uobj m) i) ->
  abs (put_memfd (set_mfd_uobj o m) fp) (set_mfd_uobj o m) maps' =
  mk_afile (a_bytes (abs fp m maps)) (a_seals (abs fp m maps)) (a_pos (abs fp m maps)) maps'.
Proof.
  intros H. unfold abs. simpl. by rewrite (obytes_ext (mfd_uobj m)) by (intros; apply H).
Qed.

Lemma step_unmap s m i : ms_wf s m -> exists e o s' m', memfd_step s (OP_UNMAP i) = Some (e, o, s') /\
  ms_wf s' m' /\ astep (ms_abs s m) (OP_UNMAP i) (e, o) (ms_abs s' m').
Proof.
  intros W. pose proof W as [_ _ _ _ Ho Hr _ _ _]. simpl. destruct (ms_maps s !! i) as [mp|] eqn:Ei.
  - rewrite (set_obj_wf _ _ _ _ W). simpl. eexists _, _, _, _. split; [done|].
    pose proof (lookup_lt_Some _ _ _ Ei) as Hi.
    split; [apply (wf_object _ _ (ms_maps s))|]; simpl; try done.
    + by rewrite detach_size.
    + rewrite detach_refs, length_delete by done. lia.
    + intros F. by apply Forall_delete.
    + intros F. by apply Forall_delete.
    + unfold ms_abs. simpl. rewrite (abs_object _ _ (ms_maps s)) by (intros; apply detach_bytes; lia).
      by apply (A_unmap (ms_abs s m) i mp).
  - eexists _, _, s, m. split; [done|]. split; [done|]. by apply A_no_unmap.
Qed.

Lemma step_fork s m i : ms_wf s m -> exists e o s' m', memfd_step s (OP_FORK i) = Some (e, o, s') /\
  ms_wf s' m' /\ astep (ms_abs s m) (OP_FORK i) (e, o) (ms_abs s' m').
Proof.
  intros W. pose proof W as [_ _ _ _ Ho Hr _ _ _]. simpl. destruct (ms_maps s !! i) as [mp|] eqn:Ei.
  - rewrite (set_obj_wf _ _ _ _ W). simpl. eexists _, _, _, _. split; [done|].
    split; [apply (wf_object _ _ (ms_maps s))|]; simpl; try done.
    + by rewrite reference_size.
    + rewrite reference_refs, length_app. simpl. lia.
    + intros F. apply Forall_app. split; [done|]. constructor; [|constructor]. by apply (Forall_lookup_1 _ _ _ _ F Ei).
    + intros F. apply Forall_app. split; [done|]. constructor; [|constructor]. by apply (Forall_lookup_1 _ _ _ _ F Ei).
    + unfold ms_abs. simpl. rewrite (abs_object _ _ (ms_maps s)) by (intros; apply reference_bytes).
      by apply (A_fork (ms_abs s m) i mp).
  - eexists _, _, s, m. split; [done|]. split; [done|]. by apply A_no_fork.
Qed.

Lemma step_mprotect s m i prot : ms_wf s m ->
  exists e o s' m', memfd_step s (OP_MPROTECT i prot) = Some (e, o, s') /\
  ms_wf s' m' /\ astep (ms_abs s m) (OP_MPROTECT i prot) (e, o) (ms_abs s' m').
Proof.
  intros W. simpl. destruct (ms_maps s !! i) as [mp|] eqn:Ei.
  - destruct (Z.eqb_spec (Z.land prot (Z.lnot (m_maxprot mp))) 0) as [Hb|Hb].
    + eexists _, _, _, m. split; [done|]. split; [|by apply (A_mprotect (ms_abs s m) i mp)].
      destruct W as [? ? ? ? ? ? ? Hm Hs]. split; simpl; try done.
      * by rewrite length_insert.
      * by apply Forall_insert.
      * intros Hw. apply Forall_insert; [by apply Hs|]. exact (Forall_lookup_1 _ _ _ _ (Hs Hw) Ei).
    + eexists _, _, s, m. split; [done|]. split; [done|]. by apply (A_mprotect_refused _ i mp).
  - eexists _, _, s, m. split; [done|]. split; [done|]. by apply A_no_mprotect.
Qed.

Lemma step_store s m i rel data : ms_wf s m ->
  exists e o s' m', memfd_step s (OP_STORE i rel data) = Some (e, o, s') /\
  ms_wf s' m' /\ astep (ms_abs s m) (OP_STORE i rel data) (e, o) (ms_abs s' m').
Proof.
  intros W. pose proof W as [_ _ _ _ Ho Hr _ _ _]. simpl.
  pose proof (A_no_store (ms_abs s m) i rel data) as N.
  pose proof (fun off => A_store (ms_abs s m) i off rel data) as A. unfold store_at, can_store in N, A.
  simpl in N, A. destruct (ms_maps s !! i) as [mp|] eqn:Ei.
  2: { eexists _, _, s, m. split; [done|]. split; [done|]. by apply N. }
  destruct (has_flag (m_prot mp) VM_PROT_WRITE && negb (m_private mp) && (0 <=? rel) &&
            (rel + Z.of_nat (length data) <=? m_size mp)) eqn:Ec.
  2: { eexists _, _, s, m. split; [done|]. split; [done|]. by apply N. }
  rewrite (set_obj_wf _ _ _ _ W). simpl. eexists _, _, _, _. split; [done|]. split.
  - apply (wf_object _ _ (ms_maps s)); simpl; try done; by rewrite ?store_size, ?store_refs.
  - unfold ms_abs at 2. unfold abs. simpl. apply (A (m_off mp + rel)); [done|by rewrite !obytes_length|].
    intros j Hj. rewrite !obytes_lookup. destruct (Z.of_nat j <? mfd_size m); [|done].
    by rewrite store_frame by done.
Qed.

Lemma memfd_step_refines s m op : ms_wf s m -> op_ok s op = true ->
  exists e o s' m', memfd_step s op = Some (e, o, s') /\ ms_wf s' m' /\
    astep (ms_abs s m) op (e, o) (ms_abs s' m').
Proof.
  intros W Hok. destruct op; try (by apply step_unmap || by apply step_fork || by apply step_mprotect || by apply step_store);
    unfold memfd_step; simpl in Hok; rewrite ?andb_true_iff, ?orb_true_iff, ?Z.eqb_eq, ?Z.leb_le, ?Z.ltb_lt in Hok.
  - destruct (read_refines _ _ _ offp resid valid flags now W Hok) as (e & fp' & p & u & m' & -> & W' & A).
    by eexists _, _, (mk_ms fp' _), m'.
  - destruct (write_refines _ _ _ offp data valid flags now W) as (e & fp' & p & u & m' & -> & W' & A); try lia.
    by eexists _, _, (mk_ms fp' _), m'.
  - eexists _, _, s, m. split; [by destruct s|]. split; [done|]. apply A_ioctl.
  - destruct (fcntl_refines _ _ _ cmd data W) as (e & fp' & m' & o & -> & W' & A).
    by eexists _, _, (mk_ms fp' _), m'.
  - destruct (stat_refines _ _ _ W) as (e & fp' & m' & st & -> & W' & A).
    by eexists _, _, (mk_ms fp' _), m'.
  - destruct (mmap_refines _ _ _ off size prot flags W) as (e & fp' & m' & r & -> & W' & A); try lia.
    by eexists _, _, (mk_ms fp' _), m'.
  - destruct (seek_refines _ _ _ delta whence flags W) as (e & fp' & m' & r & -> & W' & A); try lia.
    by eexists _, _, (mk_ms fp' _), m'.
  - destruct (truncate_refines _ _ _ length now W Hok) as (e & fp' & m' & -> & W' & A).
    by eexists _, _, (mk_ms fp' _), m'.
Qed.

(** ** Runs *)

Inductive arun : afile -> list memfd_op -> list (Z * memfd_out) -> afile -> Prop :=
  | R_nil a : arun a [] [] a
  | R_cons a op r a1 ops rs a2 : astep a op r a1 -> arun a1 ops rs a2 -> arun a (op :: ops) (r :: rs) a2.

Lemma memfd_run_refines ops : forall s m, ms_wf s m -> run_ok s ops = true ->
  exists rs s' m', memfd_run s ops = Some (rs, s') /\ ms_wf s' m' /\
    arun (ms_abs s m) ops rs (ms_abs s' m').
Proof.
  induction ops as [|op ops IH]; intros s m W Hok; simpl in *.
  - exists [], s, m. split; [done|]. split; [done|]. constructor.
  - apply andb_true_iff in Hok as [Ho Hr].
    destruct (memfd_step_refines s m op W Ho) as (e & o & s1 & m1 & E & W1 & A). rewrite E in Hr |- *. simpl.
    destruct (IH s1 m1 W1 Hr) as (rs & s2 & m2 & -> & W2 & R). simpl.
    exists ((e, o) :: rs), s2, m2. split; [done|]. split; [done|]. by econstructor.
Qed.

(** A new file is empty and unmapped. *)
Lemma create_wf flags size copy now fda euid egid d :
  cr_fd (sys_memfd_create flags size copy now fda euid egid) = Some d ->
  exists m, ms_wf (mk_ms (fd_file d) []) m /\
    ms_abs (mk_ms (fd_file d) []) m =
      mk_afile [] (if has_flag flags MFD_ALLOW_SEALING then 0 else F_SEAL_SEAL) 0 [].
Proof.
  unfold sys_memfd_create. destruct (nz (Z.land flags _)); [done|].
  destruct (copy _) as [e name]. destruct (nz e); [done|]. destruct fda as [e' fd]. destruct (nz e'); [done|].
  simpl. intros [= <-]. simpl. eexists. split.
  - split; cbn [f_memfd f_lock f_offset ms_file ms_maps mfd_size mfd_uobj mfd_seals length]; try done.
    + apply create_size.
    + apply create_refs.
    + by destruct (Z.land flags MFD_ALLOW_SEALING =? 0).
  - unfold ms_abs, abs, has_flag. simpl. by destruct (Z.land flags MFD_ALLOW_SEALING =? 0).
Qed.

(** A failed creation leaves neither the structure nor a reference of the object. *)
Lemma create_failure_frees flags size copy now fda euid egid :
  let r := sys_memfd_create flags size copy now fda euid egid in
  cr_error r <> 0 -> cr_fd r = None /\ cr_kmem r = 0 /\ forall o, cr_uobj r = Some o -> uo_refs o = 0.
Proof.
  unfold sys_memfd_create. destruct (nz (Z.land flags _)); [done|].
  destruct (copy _) as [e name]. destruct (nz e); simpl.
  { intros _. split_and!; try done. intros o [= <-]. by rewrite detach_refs, create_refs. }
  destruct fda as [e' fd]. destruct (nz e'); simpl; [|done].
  intros _. split_and!; try done. intros o [= <-]. by rewrite detach_refs, create_refs.
Qed.

(** The last close of an unmapped file drops the last reference of its object;
    mappings keep theirs. *)
Lemma close_detaches s m : ms_wf s m ->
  exists fp o, memfd_close (ms_file s) = Some (0, fp, o) /\ f_memfd fp = None /\
    uo_refs o = Z.of_nat (length (ms_maps s)) /\
    (ms_maps s <> [] -> forall i, ao_byte o i = ao_byte (mfd_uobj m) i).
Proof.
  intros W. pose proof W as [Hm _ _ _ _ Hr _ _ _]. unfold memfd_close. rewrite Hm. simpl.
  eexists _, _. split; [done|]. split; [done|]. rewrite detach_refs, Hr. split; [lia|].
  intros Hn i. apply detach_bytes. rewrite Hr. destruct (ms_maps s); simpl in *; [done|lia].
Qed.

(** ** Seals on the abstract file *)

Lemma splice_length off w l : length (splice off w l) = Nat.max (off + length w) (length l).
Proof. unfold splice. rewrite !length_app, length_resize, length_drop. lia. Qed.

Lemma astep_seals a op r a' : astep a op r a' ->
  a_seals a' = a_seals a \/ (sealed a F_SEAL_SEAL = false /\ exists d, a_seals a' = Z.lor (a_seals a) d).
Proof.
  intros A. destruct A as [| | | | | | |data Hr| | | | | | | | | | | | | | | | | |]; simpl; auto.
  right. unfold seal_refused in Hr. destruct (sealed a F_SEAL_SEAL); [done|]. eauto.
Qed.

Lemma astep_length a op r a' : astep a op r a' ->
  (sealed a F_SEAL_GROW = true -> a_len a' <= a_len a) /\
  (sealed a F_SEAL_SHRINK = true -> a_len a <= a_len a').
Proof.
  intros A. destruct A as [| | |offp data valid flags now off w n e Eo Hr Hw Hn He Hd| | | | | | | | | | | | |
    len now e Hr He| | | | | | | | |i off rel data l Hs Hl Hf]; unfold a_len in *; simpl in *; try lia.
  - rewrite splice_length. unfold write_refused, write_room, a_len in *. split; [|lia].
    intros G. rewrite G in Hr, Hw. destruct (sealed a F_SEAL_ANY_WRITE); [done|].
    destruct (Z.ltb_spec off 0); [done|]. destruct (Z.leb_spec (Z.of_nat (length (a_bytes a))) off); [done|]. lia.
  - rewrite length_resize. unfold truncate_refused, a_len in Hr. destruct (Z.ltb_spec len 0); [done|].
    split; intros G; rewrite G in Hr; simpl in Hr.
    + destruct (_ && _) in Hr; [done|]. destruct (Z.ltb_spec (Z.of_nat (length (a_bytes a))) len); [done|]. lia.
    + destruct (Z.ltb_spec len (Z.of_nat (length (a_bytes a)))); [done|]. lia.
Qed.

(** With no way to write and a fixed length, nothing changes the bytes. *)
Lemma astep_fixed a op r a' : astep a op r a' -> sealed a F_SEAL_WRITE = true ->
  sealed a F_SEAL_GROW = true -> sealed a F_SEAL_SHRINK = true ->
  Forall (fun mp => may_store mp = false) (a_maps a) -> Forall map_below (a_maps a) ->
  a_bytes a' = a_bytes a.
Proof.
  intros A SW SG SS F B. pose proof (astep_length a op r a' A) as [L1 L2].
  specialize (L1 SG). specialize (L2 SS).
  destruct A as [| | |offp data valid flags now off w n e Eo Hr| | | | | | | | | | | | |
    len now e Hr He| | | | | | | | |i off rel data l Hs Hl Hf]; simpl in *; try done.
  - unfold write_refused in Hr. unfold sealed in Hr at 1. by rewrite has_flag_any_write in Hr.
  - unfold a_len in *. simpl in *. rewrite length_resize in *. apply resize_all_alt. lia.
  - unfold store_at, can_store in Hs. destruct (a_maps a !! i) as [mp|] eqn:Ei; [|done].
    destruct (has_flag (m_prot mp) VM_PROT_WRITE && negb (m_private mp)) eqn:Ec; [|done].
    apply andb_true_iff in Ec as [Ec1 Ec2].
    pose proof (Forall_lookup_1 _ _ _ _ F Ei) as Hm. pose proof (Forall_lookup_1 _ _ _ _ B Ei) as Hb.
    unfold may_store in Hm. simpl in Hm. rewrite Ec2, (has_flag_below _ _ _ Hb Ec1) in Hm. done.
Qed.

(** What holds of a file and of any later state of it. *)
Record later (a a' : afile) : Prop := {
  lt_kept : forall k, has_flag (a_seals a) k = true -> has_flag (a_seals a') k = true;
  lt_final : sealed a F_SEAL_SEAL = true -> a_seals a' = a_seals a;
  lt_grow : sealed a F_SEAL_GROW = true -> a_len a' <= a_len a;
  lt_shrink : sealed a F_SEAL_SHRINK = true -> a_len a <= a_len a'
}.

#[local] Instance later_preorder : PreOrder later.
Proof.
  split; [by split|]. intros a b c [A1 A2 A3 A4] [B1 B2 B3 B4]. unfold sealed in *. split; unfold sealed.
  - eauto.
  - intros H. rewrite B2 by auto. auto.
  - intros H. specialize (B3 (A1 _ H)). specialize (A3 H). lia.
  - intros H. specialize (B4 (A1 _ H)). specialize (A4 H). lia.
Qed.

Lemma astep_later a op r a' : astep a op r a' -> later a a'.
Proof.
  intros A. pose proof (astep_seals _ _ _ _ A) as S. destruct (astep_length _ _ _ _ A) as [L1 L2].
  split; [| |done|done].
  - intros k H. destruct S as [->|(_ & d & ->)]; [done|]. by rewrite has_flag_lor, H.
  - intros H. destruct S as [->|(E & _)]; [done|]. by rewrite H in E.
Qed.

Lemma arun_later a ops rs a' : arun a ops rs a' -> later a a'.
Proof. induction 1 as [|????????? IH]; [done|]. etrans; [by eapply astep_later|done]. Qed.

(** Bytes read are a slice of [l]. *)
Definition read_of (l : list Z) (op : memfd_op) (r : Z * memfd_out) : Prop :=
  match op with
  | OP_READ _ _ _ _ _ => exists off n, snd r = OUT_BYTES (take n (drop off l))
  | _ => True
  end.

Lemma astep_read a op r a' : astep a op r a' -> read_of (a_bytes a) op r.
Proof.
  destruct 1; simpl; eauto. by exists 0%nat, 0%nat.
Qed.

Definition all_sealed (a : afile) : Prop :=
  sealed a F_SEAL_WRITE = true /\ sealed a F_SEAL_GROW = true /\ sealed a F_SEAL_SHRINK = true.

Lemma run_fixed ops : forall s m, ms_wf s m -> run_ok s ops = true -> all_sealed (ms_abs s m) ->
  exists rs s' m', memfd_run s ops = Some (rs, s') /\ ms_wf s' m' /\
    a_bytes (ms_abs s' m') = a_bytes (ms_abs s m) /\ Forall2 (read_of (a_bytes (ms_abs s m))) ops rs.
Proof.
  induction ops as [|op ops IH]; intros s m W Hok (SW & SG & SS); cbn [memfd_run run_ok] in *.
  - exists [], s, m. split; [done|]. split; [done|]. by split.
  - apply andb_true_iff in Hok as [Ho Hr].
    destruct (memfd_step_refines s m op W Ho) as (e & o & s1 & m1 & E & W1 & A). rewrite E in Hr |- *. simpl in Hr |- *.
    pose proof (astep_fixed _ _ _ _ A SW SG SS (wf_sealed _ _ _ W SW) (wf_maps _ _ _ W)) as Eb.
    pose proof (lt_kept _ _ (astep_later _ _ _ _ A)) as Keep.
    destruct (IH s1 m1 W1 Hr) as (rs & s2 & m2 & -> & W2 & E2 & F2).
    { split_and!; by apply Keep. }
    simpl. exists ((e, o) :: rs), s2, m2. split; [done|]. split; [done|]. split; [etrans; [exact E2|exact Eb]|].
    constructor; [by apply (astep_read _ _ _ _ A)|]. by rewrite Eb in F2.
Qed.

(** A write read back. *)
Lemma splice_read off w l : take (length w) (drop off (splice off w l)) = w.
Proof.
  unfold splice. rewrite drop_app_length' by (by rewrite length_resize). by rewrite take_app_length.
Qed.

Lemma pair_run_ok s op1 op2 : op_ok s op1 = true -> (forall s', op_ok s' op2 = true) ->
  run_ok s [op1; op2] = true.
Proof.
  intros H1 H2. cbn [run_ok]. rewrite H1. simpl. destruct (memfd_step s op1) as [[[e o] s1]|]; [|done].
  rewrite H2. simpl. by destruct (memfd_step s1 op2) as [[[e2 o2] s2]|].
Qed.

(** ** The promises *)

(** C11. Whatever calls, faulting buffers, mappings and stores follow its creation, a
    memory file never fails an assertion, takes no lock twice and stays well formed, and
    every result and effect is one of the abstract file: a list of bytes that starts
    empty, in which gaps and growth read as zero, a failed transfer changes only the
    bytes it was moving, and every refusal leaves everything as it was. *)
Theorem memfd_refines_byte_file flags size copy now fda euid egid d ops :
  cr_fd (sys_memfd_create flags size copy now fda euid egid) = Some d ->
  run_ok (mk_ms (fd_file d) []) ops = true ->
  exists rs s' m', memfd_run (mk_ms (fd_file d) []) ops = Some (rs, s') /\ ms_wf s' m' /\
    arun (mk_afile [] (if has_flag flags MFD_ALLOW_SEALING then 0 else F_SEAL_SEAL) 0 []) ops rs
      (ms_abs s' m').
Proof.
  intros Hd Hok. destruct (create_wf _ _ _ _ _ _ _ _ Hd) as (m & W & <-). by apply memfd_run_refines.
Qed.

(** C31. Through any run of calls, mappings and stores on a memory file a seal is never
    taken off, F_SEAL_SEAL freezes the set of seals, F_SEAL_GROW and F_SEAL_SHRINK bound
    the size, and while F_SEAL_WRITE is set no mapping exists that can change the file,
    nor one that mprotect could turn into such. *)
Theorem memfd_seals_enforced s m ops : ms_wf s m -> run_ok s ops = true ->
  exists rs s' m', memfd_run s ops = Some (rs, s') /\ f_memfd (ms_file s') = Some m' /\
    (forall k, has_flag (mfd_seals m) k = true -> has_flag (mfd_seals m') k = true) /\
    (has_flag (mfd_seals m) F_SEAL_SEAL = true -> mfd_seals m' = mfd_seals m) /\
    (has_flag (mfd_seals m) F_SEAL_GROW = true -> mfd_size m' <= mfd_size m) /\
    (has_flag (mfd_seals m) F_SEAL_SHRINK = true -> mfd_size m <= mfd_size m') /\
    (has_flag (mfd_seals m') F_SEAL_WRITE = true ->
       Forall (fun mp => has_flag (m_maxprot mp) VM_PROT_WRITE = false \/ m_private mp = true)
         (ms_maps s')).
Proof.
  intros W Hok. destruct (memfd_run_refines ops s m W Hok) as (rs & s' & m' & E & W' & R).
  destruct (arun_later _ _ _ _ R) as [L1 L2 L3 L4]. unfold ms_abs in L3, L4.
  rewrite !a_len_abs in L3, L4 by (apply W || apply W').
  exists rs, s', m'. split_and!; try done; [apply W'|]. intros Hw.
  apply (Forall_impl _ _ _ (wf_sealed _ _ _ W' Hw)). intros mp. unfold may_store.
  destruct (has_flag (m_maxprot mp) VM_PROT_WRITE); [|by left]. right. by destruct (m_private mp).
Qed.

(** C23. A memory file sealed against writing, growing and shrinking keeps its bytes:
    through any run of calls, forks, mprotect and stores its contents are the same in
    the end, and everything read on the way is a piece of them. *)
Theorem memfd_sealed_contents_fixed s m ops : ms_wf s m -> run_ok s ops = true ->
  has_flag (mfd_seals m) F_SEAL_WRITE = true -> has_flag (mfd_seals m) F_SEAL_GROW = true ->
  has_flag (mfd_seals m) F_SEAL_SHRINK = true ->
  exists rs s' m', memfd_run s ops = Some (rs, s') /\ f_memfd (ms_file s') = Some m' /\
    obytes (mfd_uobj m') 0 (mfd_size m') = obytes (mfd_uobj m) 0 (mfd_size m) /\
    Forall2 (read_of (obytes (mfd_uobj m) 0 (mfd_size m))) ops rs.
Proof.
  intros W Hok SW SG SS. destruct (run_fixed ops s m W Hok) as (rs & s' & m' & E & W' & Eb & F); [done|].
  exists rs, s', m'. split_and!; try done. apply W'.
Qed.

(** What a write without error puts into a file that may grow is what a read without
    error of the same range then finds, at every offset, past the end of the file too.
    *)
Theorem memfd_write_read_roundtrip s m off data v1 v2 f1 f2 t1 t2 :
  let len := Z.of_nat (length data) in
  ms_wf s m -> 0 <= off -> off + len <= INT64_MAX - PAGE_SIZE ->
  has_flag (mfd_seals m) F_SEAL_GROW = false ->
  exists e1 n e2 l s', memfd_run s [OP_WRITE (Off_local off) data v1 f1 t1; OP_READ (Off_local off) len v2 f2 t2]
    = Some ([(e1, OUT_INT n); (e2, OUT_BYTES l)], s') /\
    (e1 = 0 -> n = len) /\ (e1 = 0 -> e2 = 0 -> l = data).
Proof.
  intros len W Hoff Hend Hg. fold AO in Hend.
  assert (len < 2 ^ 63 /\ off < 2 ^ 63) as [Hl Ho] by (unfold AO, INT64_MAX, PAGE_SIZE in Hend; lia).
  destruct (memfd_run_refines [OP_WRITE (Off_local off) data v1 f1 t1; OP_READ (Off_local off) len v2 f2 t2] s m W)
    as (rs & s' & m' & E & W' & R).
  { apply pair_run_ok; simpl; fold len; rewrite ?andb_true_iff, ?orb_true_iff, ?Z.leb_le, ?Z.ltb_lt; lia. }
  inversion R as [|? ? r1 a1 ? ? ? A1 R1]; subst. inversion R1 as [|? ? r2 a2 ? ? ? A2 R2]; subst.
  inversion R2; subst. rewrite E.
  inversion A1 as [| | |? ? ? ? ? ? w n e Eo Hr Hw Hn He Hd| | | | | | | | | | | | | | | | | | | | | |]; subst.
  - inversion A2; subst; eexists _, _, _, _, _; (split; [done|]); by split; intros.
  - unfold write_room, sealed in Hw. simpl in Hw. rewrite Hg in Hw. fold len in Hw.
    inversion A2 as [|? ? ? ? ? ? n2 e2 Eo2 Hp2 Hn2 He2| | | | | | | | | | | | | | | | | | | | | | | |]; subst;
      eexists _, _, _, _, _; (split; [done|]); (split; [lia|]); intros E1; specialize (He E1); [simpl in *; lia|].
    intros E2. specialize (He2 E2). simpl in *. unfold a_len in He2. simpl in He2. rewrite splice_length in He2.
    replace n2 with (Z.of_nat (length w)) by lia. rewrite Nat2Z.id, splice_read.
    rewrite He, Nat2Z.id, !take_ge in Hd by lia. done.
Qed.

End runs.

(** ** An object of one process

    Objects whose bytes are a function, and a copy that stops where the caller's
    buffer ends: enough to run the files. *)

Record cobj := mk_cobj { co_refs : Z; co_size : Z; co_bytes : Z -> Z }.

Definition EFAULT : Z := 14.

Definition co_set (o : cobj) (off n : Z) (g : Z -> Z) : cobj :=
  mk_cobj (co_refs o) (co_size o)
    (fun i => if (off <=? i) && (i <? off + n) then g (i - off) else co_bytes o i).

Definition buf_at (l : list Z) (i : Z) : Z := nth (Z.to_nat i) l 0.

Definition co_move (o : cobj) (u : uio_t) (todo : Z) (d : ubc_dir) : Z * cobj * uio_t :=
  let n := Z.min todo (Z.max 0 (uio_valid u)) in
  let e := if n <? todo then EFAULT else 0 in
  match d with
  | UBC_READ => (e, o, mk_uio (uio_offset u + n) (uio_resid u - n)
                         (uio_buf u ++ (co_bytes o <$> seqZ (uio_offset u) n)) (uio_valid u - n))
  | UBC_WRITE => (e, co_set o (uio_offset u) n (buf_at (uio_buf u)),
                  mk_uio (uio_offset u + n) (uio_resid u - n) (drop (Z.to_nat n) (uio_buf u)) (uio_valid u - n))
  end.

#[local] Instance cobj_uao : Uao := {|
  uvm_object := cobj;
  ao_size := co_size;
  ao_byte := co_bytes;
  uo_refs := co_refs;
  uao_create := fun s => mk_cobj 1 s (fun _ => 0);
  uao_reference := fun o => mk_cobj (co_refs o + 1) (co_size o) (co_bytes o);
  uao_detach := fun o => mk_cobj (co_refs o - 1) (co_size o) (co_bytes o);
  ubc_uiomove := co_move;
  ubc_zerorange := fun o off n => co_set o off n (fun _ => 0);
  pgo_put_free := fun o s e => (0, co_set o s (e - s) (fun _ => 0));
  ao_store := fun o off l => co_set o off (Z.of_nat (length l)) (buf_at l)
|}.

Lemma co_set_frame o off n g i : i < off \/ off + n <= i -> co_bytes (co_set o off n g) i = co_bytes o i.
Proof. simpl. intros H. destruct (Z.leb_spec off i), (Z.ltb_spec i (off + n)); simpl; lia || done. Qed.

Lemma co_set_range o off n l : 0 <= n <= Z.of_nat (length l) ->
  (co_bytes (co_set o off n (buf_at l)) <$> seqZ off n) = take (Z.to_nat n) l.
Proof.
  intros Hn. apply list_eq. intros j. rewrite list_lookup_fmap.
  destruct (Z.lt_ge_cases (Z.of_nat j) n).
  - rewrite lookup_seqZ_lt, lookup_take_lt by lia. simpl.
    destruct (Z.leb_spec off (off + Z.of_nat j)), (Z.ltb_spec (off + Z.of_nat j) (off + n)); simpl; try lia.
    unfold buf_at. replace (Z.to_nat (off + Z.of_nat j - off)) with j by lia.
    rewrite nth_lookup. destruct (lookup_lt_is_Some_2 l j) as [x ->]; [lia|done].
  - rewrite lookup_seqZ_ge, lookup_take_ge by lia. done.
Qed.

#[local] Instance cobj_uao_ok : UaoOk cobj_uao.
Proof.
  split; try done; simpl.
  - intros o u todo d H0 H1 H2 H3. set (n := Z.min todo (Z.max 0 (uio_valid u))).
    exists n. split; [lia|]. unfold co_move. fold n. destruct d; simpl.
    + split; [destruct (Z.ltb_spec n todo); [done|lia]|]. by split.
    + split; [destruct (Z.ltb_spec n todo); [done|lia]|]. specialize (H3 eq_refl).
      split; try done. split; [by apply co_set_range; lia|]. intros i Hi. apply co_set_frame. lia.
  - intros o s e i H. apply (co_set_frame o s (e - s) (fun _ => 0)). lia.
  - intros o off l i H. by apply (co_set_frame o off _ (buf_at l)).
Qed.

(** A new file that may be sealed, and one page of it mapped shared. *)
Definition new_fd : option fdent :=
  cr_fd (sys_memfd_create MFD_ALLOW_SEALING 256 (fun _ => (0, "shm"%string)) 7 (0, 3) 0 0).

Definition new_file : file_t := match new_fd with Some d => fd_file d | None => mk_file false 0 0 0 0 None end.
Definition new_mfd : memfd := mk_memfd "memfd:shm" (uao_create AO) 0 0 7 0 0.
Definition new_ms : mstate := mk_ms new_file [].

Lemma new_ms_wf : ms_wf new_ms new_mfd.
Proof. split; try done; vm_compute; done. Qed.

Definition tick : nat -> Z := fun n => 10 + Z.of_nat n.
Definition PROT_READ : Z := 1.
Definition sealing : Z := Z.lor (Z.lor F_SEAL_WRITE F_SEAL_GROW) F_SEAL_SHRINK.

(** The whole life of a shared buffer: grown by a write, mapped, stored to,
    refused the seal while mapped, unmapped, sealed, read back. *)
Definition buffer_ops : list memfd_op :=
  [OP_WRITE Off_file [1; 2; 3] 3 FOF_UPDATE_OFFSET tick;
   OP_MMAP 0 4096 (Z.lor PROT_READ VM_PROT_WRITE) 1;
   OP_STORE 0 1 [9];
   OP_FCNTL F_ADD_SEALS sealing;
   OP_UNMAP 0;
   OP_FCNTL F_ADD_SEALS sealing;
   OP_WRITE (Off_local 0) [5] 1 0 tick;
   OP_TRUNCATE 8 20;
   OP_MMAP 0 4096 VM_PROT_WRITE 1;
   OP_READ (Off_local 0) 10 10 0 21].

Example buffer_results : fst <$> memfd_run new_ms buffer_ops =
  Some [(0, OUT_INT 3); (0, OUT_NONE); (0, OUT_NONE); (EBUSY, OUT_NONE); (0, OUT_NONE); (0, OUT_NONE);
        (EPERM, OUT_INT 0); (EPERM, OUT_NONE); (EPERM, OUT_NONE); (0, OUT_BYTES [1; 9; 3])].
Proof. vm_compute. reflexivity. Qed.

Lemma memfd_refines_byte_file_witness : exists rs s' m',
  memfd_run new_ms buffer_ops = Some (rs, s') /\ ms_wf s' m' /\
  arun (mk_afile [] 0 0 []) buffer_ops rs (ms_abs s' m').
Proof.
  apply (memfd_refines_byte_file MFD_ALLOW_SEALING 256 (fun _ => (0, "shm"%string)) 7 (0, 3) 0 0
           (mk_fdent 3 new_file false false) buffer_ops); vm_compute; reflexivity.
Defined.

Lemma memfd_seals_enforced_witness : run_ok new_ms buffer_ops = true /\
  exists rs s' m', memfd_run new_ms buffer_ops = Some (rs, s') /\ f_memfd (ms_file s') = Some m' /\
    (forall k, has_flag (mfd_seals new_mfd) k = true -> has_flag (mfd_seals m') k = true).
Proof.
  split; [vm_compute; reflexivity|].
  destruct (memfd_seals_enforced new_ms new_mfd buffer_ops new_ms_wf) as (rs & s' & m' & E & M & K & _).
  - vm_compute. reflexivity.
  - exists rs, s', m'. split; [exact E|]. split; [exact M|exact K].
Defined.

(** Three bytes under every seal but F_SEAL_SEAL, mapped private and writable. *)
Definition sealed_mfd : memfd :=
  mk_memfd "memfd:shm" (mk_cobj 2 AO (fun i => if i <? 3 then i + 1 else 0)) 3 sealing 7 0 11.
Definition sealed_ms : mstate :=
  mk_ms (mk_file false 0 3 0 0 (Some sealed_mfd)) [mk_map 0 4096 VM_PROT_WRITE VM_PROT_WRITE true].

Lemma sealed_ms_wf : ms_wf sealed_ms sealed_mfd.
Proof.
  split; try done; try (vm_compute; done).
  - constructor; [done|constructor].
  - intros _. constructor; [done|constructor].
Qed.

Definition attack_ops : list memfd_op :=
  [OP_STORE 0 0 [7]; OP_WRITE (Off_local 1) [8] 1 0 tick; OP_FORK 0; OP_MPROTECT 1 VM_PROT_WRITE;
   OP_STORE 1 2 [9]; OP_TRUNCATE 0 30; OP_READ Off_file 2 2 FOF_UPDATE_OFFSET 31].

Lemma memfd_sealed_contents_fixed_witness : exists rs s' m',
  memfd_run sealed_ms attack_ops = Some (rs, s') /\ f_memfd (ms_file s') = Some m' /\
  obytes (mfd_uobj m') 0 (mfd_size m') = [1; 2; 3] /\ Forall2 (read_of [1; 2; 3]) attack_ops rs.
Proof.
  apply (memfd_sealed_contents_fixed sealed_ms sealed_mfd attack_ops sealed_ms_wf);
    vm_compute; reflexivity.
Defined.

Lemma memfd_write_read_roundtrip_witness : exists e1 n e2 l s',
  memfd_run new_ms [OP_WRITE (Off_local 5) [4; 2] 2 0 tick; OP_READ (Off_local 5) 2 2 0 40]
    = Some ([(e1, OUT_INT n); (e2, OUT_BYTES l)], s') /\
  (e1 = 0 -> n = 2) /\ (e1 = 0 -> e2 = 0 -> l = [4; 2]).
Proof.
  apply (memfd_write_read_roundtrip new_ms new_mfd 5 [4; 2] 2 2 0 0 tick 40 new_ms_wf);
    [lia|vm_compute; discriminate|reflexivity].
Defined.

(** ** Corners *)

Definition ms_size (r : option (list (Z * memfd_out) * mstate)) : option Z :=
  '(_, s) ← r; mfd ← f_memfd (ms_file s); Some (mfd_size mfd).

(** lseek(2) to a negative offset succeeds; the next read is refused. *)
Example seek_negative : fst <$> memfd_run new_ms
    [OP_SEEK (-5) SEEK_SET FOF_UPDATE_OFFSET; OP_READ Off_file 1 1 FOF_UPDATE_OFFSET 8] =
  Some [(0, OUT_INT (-5)); (EINVAL, OUT_BYTES [])].
Proof. vm_compute. reflexivity. Qed.

(** A write of no bytes past the end grows the file up to its offset. *)
Example empty_write_grows : ms_size (memfd_run new_ms [OP_WRITE (Off_local 10) [] 0 0 tick]) = Some 10.
Proof. vm_compute. reflexivity. Qed.

(** A write that moves nothing because the buffer faults has grown the file. *)
Example failed_write_grows :
  let r := memfd_run new_ms [OP_WRITE (Off_local 0) [1; 2; 3] 0 0 tick] in
  fst <$> r = Some [(EFAULT, OUT_INT 0)] /\ ms_size r = Some 3.
Proof. vm_compute. split; reflexivity. Qed.

(** Shrinking inside a page leaves the bytes past the new end in it, and a
    mapping of that page shows them. *)
Example shrink_keeps_tail :
  (fun r => m ← f_memfd (ms_file (snd r)); Some (mfd_size m, ao_byte (mfd_uobj m) 2, length (ms_maps (snd r))))
    <$> memfd_run new_ms [OP_WRITE (Off_local 0) [1; 2; 3] 3 0 tick; OP_TRUNCATE 1 12;
                          OP_MMAP 0 4096 PROT_READ 1] = Some (Some (1, 3, 1%nat)).
Proof. vm_compute. reflexivity. Qed.
