(* ===== verification/Tasklet.v ===== *)
(** * Tasklets

    kernel/external/bsd/common/linux/linux_tasklet.c: the Linux tasklets that
    drm and i915 run on soft interrupts, with the parking of disabled ones.  Any
    number of threads are inside the routines at once; a thread's program
    counter names the next access to shared memory, and [tstep] performs it.
    Accesses are atomic and seen in one order by all CPUs, as on the x86 this
    tree is for, where the atomic operations are full barriers.  softint(9) and percpu(9) are the
    pending flags and queues of the state; a failed KASSERT clears
    [ts_asserts]. *)

From stdpp Require Import base numbers list.
From S2P Require Import Prelude Sysctl.

(** ** Tasklets and queues *)

Definition TASKLET_SCHEDULED : Z := 0x1.
Definition TASKLET_RUNNING : Z := 0x2.
Definition TASKLET_PARKED : Z := 0x4.
Definition TASKLET_HI : Z := 0x8.

(** [tl_runs], [tl_owned] and [tl_synced] are not in the code: how often the
    function was called, how many disables have returned and were not given up,
    and how many of these waited for the function to end. *)
Record tasklet_struct := mk_tl {
  tl_state : Z;
  tl_disablecount : Z;
  tl_runs : nat;
  tl_owned : nat;
  tl_synced : nat
}.

Definition set_tl_state (v : Z) (r : tasklet_struct) : tasklet_struct :=
  mk_tl v (tl_disablecount r) (tl_runs r) (tl_owned r) (tl_synced r).
Definition set_tl_disablecount (v : Z) (r : tasklet_struct) : tasklet_struct :=
  mk_tl (tl_state r) v (tl_runs r) (tl_owned r) (tl_synced r).
Definition set_tl_runs (v : nat) (r : tasklet_struct) : tasklet_struct :=
  mk_tl (tl_state r) (tl_disablecount r) v (tl_owned r) (tl_synced r).
Definition set_tl_owned (v : nat) (r : tasklet_struct) : tasklet_struct :=
  mk_tl (tl_state r) (tl_disablecount r) (tl_runs r) v (tl_synced r).
Definition set_tl_synced (v : nat) (r : tasklet_struct) : tasklet_struct :=
  mk_tl (tl_state r) (tl_disablecount r) (tl_runs r) (tl_owned r) v.

Definition tasklet_init : tasklet_struct := mk_tl 0 0 0 0 0.

(** Queue [tq_id cpu hi]: the list of one CPU on tasklet_hi_queue or tasklet_queue. *)
Definition tq_id (cpu : nat) (hi : bool) : nat := 2 * cpu + (if hi then 1 else 0).

(** ** Threads *)

(** A soft interrupt handler is bound to its queue; other threads call in. *)
Inductive role := SOFTINT (cpu : nat) (hi : bool) | CLIENT.

(** What follows a routine that several callers share: the loop of
    tasklet_softintr with the tasklets left in it, the wait of a kill, or the
    return to the caller. *)
Inductive cont := K_loop (th : list nat) | K_kill (t : nat) | K_return.

(** After tasklet_unlock. *)
Inductive after := U_loop (th : list nat) | U_recheck (th : list nat) | U_return.

Inductive disable_mode := NOSYNC | SYNC | SYNC_ONCE.

Inductive pc :=
  | P_idle
  (* tasklet_queue_schedule *)
  | P_sched (hi : bool) (t : nat)
  | P_sched_cas (hi : bool) (t : nat) (ostate : Z)
  (* tasklet_queue_enqueue *)
  | P_enqueue (hi : bool) (t : nat) (k : cont)
  | P_kick (q : nat) (k : cont)
  (* tasklet_unpark *)
  | P_unpark (t : nat) (k : cont)
  | P_unpark_cas (t : nat) (ostate : Z) (k : cont)
  (* tasklet_trylock, for tasklet_softintr with the rest of its list or for a client *)
  | P_try (t : nat) (w : option (list nat))
  | P_try_cas (t : nat) (state : Z) (w : option (list nat))
  | P_holds (t : nat)
  (* tasklet_unlock *)
  | P_unlock (t : nat) (u : after)
  (* tasklet_softintr *)
  | P_grab
  | P_loop (th : list nat)
  | P_check (t : nat) (th : list nat)
  | P_park (t : nat) (th : list nat)
  | P_recheck (t : nat) (th : list nat)
  | P_clear (t : nat) (th : list nat)
  | P_func (t : nat) (th : list nat)
  (* tasklet_disable and its variants, tasklet_unlock_wait *)
  | P_inc (t : nat) (m : disable_mode)
  | P_wait (t : nat)
  (* __tasklet_enable, __tasklet_enable_sync_once *)
  | P_dec (t : nat) (once : bool)
  (* tasklet_kill *)
  | P_kill (t : nat)
  | P_kill_run (t : nat).

Record thread := mk_th {
  th_role : role;
  th_pc : pc
}.

Definition set_th_role (v : role) (r : thread) : thread :=
  mk_th v (th_pc r).
Definition set_th_pc (v : pc) (r : thread) : thread :=
  mk_th (th_role r) v.

Record tsys := mk_ts {
  ts_tl : nat -> tasklet_struct;
  ts_queues : list (list nat);
  ts_pending : list bool;
  ts_threads : list thread;
  ts_asserts : bool
}.

Definition set_ts_tl (v : nat -> tasklet_struct) (r : tsys) : tsys :=
  mk_ts v (ts_queues r) (ts_pending r) (ts_threads r) (ts_asserts r).
Definition set_ts_queues (v : list (list nat)) (r : tsys) : tsys :=
  mk_ts (ts_tl r) v (ts_pending r) (ts_threads r) (ts_asserts r).
Definition set_ts_pending (v : list bool) (r : tsys) : tsys :=
  mk_ts (ts_tl r) (ts_queues r) v (ts_threads r) (ts_asserts r).
Definition set_ts_threads (v : list thread) (r : tsys) : tsys :=
  mk_ts (ts_tl r) (ts_queues r) (ts_pending r) v (ts_asserts r).
Definition set_ts_asserts (v : bool) (r : tsys) : tsys :=
  mk_ts (ts_tl r) (ts_queues r) (ts_pending r) (ts_threads r) v.

(** ** Shared memory *)

Definition on_tl (t : nat) (f : tasklet_struct -> tasklet_struct) (s : tsys) : tsys :=
  set_ts_tl (fun t' => if decide (t' = t) then f (ts_tl s t') else ts_tl s t') s.

Definition state_of (s : tsys) (t : nat) : Z := tl_state (ts_tl s t).
Definition count_of (s : tsys) (t : nat) : Z := tl_disablecount (ts_tl s t).

Definition KASSERT (b : bool) (s : tsys) : tsys := set_ts_asserts (ts_asserts s && b) s.

Definition atomic_or (t : nat) (m : Z) : tsys -> tsys :=
  on_tl t (fun x => set_tl_state (set_flag (tl_state x) m) x).
Definition atomic_and_not (t : nat) (m : Z) : tsys -> tsys :=
  on_tl t (fun x => set_tl_state (clr_flag (tl_state x) m) x).

Definition queue_of (s : tsys) (q : nat) : list nat := default [] (ts_queues s !! q).
Definition pending_of (s : tsys) (q : nat) : bool := default false (ts_pending s !! q).
Definition put_queue (q : nat) (l : list nat) (s : tsys) : tsys :=
  set_ts_queues (<[q := l]> (ts_queues s)) s.
Definition put_pending (q : nat) (b : bool) (s : tsys) : tsys :=
  set_ts_pending (<[q := b]> (ts_pending s)) s.

(** ** The calls of a client

    A client enables only what was disabled, saying whether it gives up a
    disable that has waited, and unlocks only what it locked. *)

Inductive call :=
  | C_schedule (hi : bool) (t : nat)
  | C_disable (m : disable_mode) (t : nat)
  | C_enable (once synced : bool) (t : nat)
  | C_kill (t : nat)
  | C_trylock (t : nat)
  | C_unlock.

(** The disables of a tasklet that are under way or outstanding. *)
Definition pc_disables (t : nat) (th : thread) : nat :=
  match th_pc th with
  | P_inc t' _ | P_wait t' | P_dec t' _ => if decide (t = t') then 1 else 0
  | _ => 0
  end.
Definition disables (s : tsys) (t : nat) : nat :=
  tl_owned (ts_tl s t) + sum_list_with (pc_disables t) (ts_threads s).

Definition tasklet_schedule (t : nat) : pc := P_sched false t.
Definition tasklet_hi_schedule (t : nat) : pc := P_sched true t.

Definition tasklet_disable_nosync (t : nat) : pc := P_inc t NOSYNC.
Definition tasklet_disable (t : nat) : pc := P_inc t SYNC.
Definition tasklet_disable_sync_once (t : nat) : pc := P_inc t SYNC_ONCE.
Definition tasklet_enable (t : nat) : pc := P_dec t false.
Definition tasklet_enable_sync_once (t : nat) : pc := P_dec t true.
Definition tasklet_kill (t : nat) : pc := P_kill t.
Definition tasklet_trylock (t : nat) : pc := P_try t None.

Definition start_call (c : call) (p : pc) (s : tsys) : option (pc * tsys) :=
  match c, p with
  | C_schedule hi t, P_idle => Some (if hi then tasklet_hi_schedule t else tasklet_schedule t, s)
  | C_disable m t, P_idle =>
      if Z.of_nat (disables s t) <? UINT32_MAX - 1 then Some (match m with
                 | NOSYNC => tasklet_disable_nosync t
                 | SYNC => tasklet_disable t
                 | SYNC_ONCE => tasklet_disable_sync_once t
                 end, s)
      else None
  | C_enable once synced t, P_idle =>
      let x := ts_tl s t in
      let enable := if once then tasklet_enable_sync_once t else tasklet_enable t in
      if synced
      then if (0 <? tl_synced x)%nat
           then Some (enable, on_tl t (fun x => set_tl_synced (pred (tl_synced x)) (set_tl_owned (pred (tl_owned x)) x)) s)
           else None
      else if (tl_synced x <? tl_owned x)%nat
           then Some (enable, on_tl t (fun x => set_tl_owned (pred (tl_owned x)) x) s)
           else None
  | C_kill t, P_idle => Some (tasklet_kill t, s)
  | C_trylock t, P_idle => Some (tasklet_trylock t, s)
  | C_unlock, P_holds t => Some (P_unlock t U_return, s)
  | _, _ => None
  end.

(** ** The routines, one access at a time *)

Definition resume (k : cont) : pc :=
  match k with K_loop th => P_loop th | K_kill t => P_kill t | K_return => P_idle end.

Definition schedule_load (hi : bool) (t : nat) (s : tsys) : pc * tsys :=
  let ostate := state_of s t in
  if has_flag ostate TASKLET_SCHEDULED then (P_idle, s) else (P_sched_cas hi t ostate, s).

Definition schedule_cas (hi : bool) (t : nat) (ostate : Z) (s : tsys) : pc * tsys :=
  let nstate := set_flag (set_flag (clr_flag ostate TASKLET_HI) TASKLET_SCHEDULED)
                  (if hi then TASKLET_HI else 0) in
  if state_of s t =? ostate
  then (P_enqueue hi t K_return, on_tl t (set_tl_state nstate) s)
  else (P_sched hi t, s).

Definition enqueue_insert (cpu : nat) (hi : bool) (t : nat) (k : cont) (s : tsys) : pc * tsys :=
  let s := KASSERT (has_flag (state_of s t) TASKLET_SCHEDULED) s in
  let q := tq_id cpu hi in
  (P_kick q k, put_queue q (queue_of s q ++ [t]) s).

Definition enqueue_kick (q : nat) (k : cont) (s : tsys) : pc * tsys :=
  (resume k, put_pending q true s).

Definition unpark_load (t : nat) (k : cont) (s : tsys) : pc * tsys :=
  let ostate := state_of s t in
  if has_flag ostate TASKLET_PARKED then (P_unpark_cas t ostate k, s) else (resume k, s).

Definition unpark_cas (t : nat) (ostate : Z) (k : cont) (s : tsys) : pc * tsys :=
  if state_of s t =? ostate
  then (P_enqueue (has_flag ostate TASKLET_HI) t k,
        on_tl t (set_tl_state (clr_flag ostate TASKLET_PARKED)) s)
  else (P_unpark t k, s).

Definition trylock_load (hi : bool) (t : nat) (w : option (list nat)) (s : tsys) : pc * tsys :=
  let state := state_of s t in
  if has_flag state TASKLET_RUNNING
  then (match w with Some th => P_enqueue hi t (K_loop th) | None => P_idle end, s)
  else (P_try_cas t state w, s).

Definition trylock_cas (t : nat) (state : Z) (w : option (list nat)) (s : tsys) : pc * tsys :=
  if state_of s t =? state
  then (match w with Some th => P_check t th | None => P_holds t end,
        on_tl t (set_tl_state (set_flag state TASKLET_RUNNING)) s)
  else (P_try t w, s).

Definition tasklet_unlock (t : nat) (u : after) (s : tsys) : pc * tsys :=
  let s := KASSERT (has_flag (state_of s t) TASKLET_RUNNING) s in
  (match u with U_loop th => P_loop th | U_recheck th => P_recheck t th | U_return => P_idle end,
   atomic_and_not t TASKLET_RUNNING s).

Definition softintr_grab (q : nat) (s : tsys) : pc * tsys := (P_loop (queue_of s q), put_queue q [] s).

Definition softintr_loop (th : list nat) (s : tsys) : pc * tsys :=
  match th with
  | [] => (P_idle, s)
  | t :: th => (P_try t (Some th), KASSERT (has_flag (state_of s t) TASKLET_SCHEDULED) s)
  end.

Definition softintr_check (t : nat) (th : list nat) (s : tsys) : pc * tsys :=
  if nz (count_of s t) then (P_park t th, s) else (P_clear t th, s).

Definition softintr_park (t : nat) (th : list nat) (s : tsys) : pc * tsys :=
  (P_unlock t (U_recheck th), atomic_or t TASKLET_PARKED s).

Definition softintr_recheck (t : nat) (th : list nat) (s : tsys) : pc * tsys :=
  if count_of s t =? 0 then (P_unpark t (K_loop th), s) else (P_loop th, s).

Definition softintr_clear (t : nat) (th : list nat) (s : tsys) : pc * tsys :=
  let s := KASSERT (has_flag (state_of s t) TASKLET_SCHEDULED) s in
  (P_func t th, atomic_and_not t TASKLET_SCHEDULED s).

(** The function returns; what it calls meanwhile is the work of a client. *)
Definition softintr_func (t : nat) (th : list nat) (s : tsys) : pc * tsys :=
  (P_unlock t (U_loop th), on_tl t (fun x => set_tl_runs (S (tl_runs x)) x) s).

Definition disable_inc (t : nat) (m : disable_mode) (s : tsys) : pc * tsys :=
  let nv := u32 (count_of s t + 1) in
  let s := KASSERT ((nv <? UINT32_MAX) && nz nv) (on_tl t (set_tl_disablecount nv) s) in
  let wait := match m with NOSYNC => false | SYNC => true | SYNC_ONCE => nv =? 1 end in
  if wait then (P_wait t, s)
  else (P_idle, on_tl t (fun x => set_tl_owned (S (tl_owned x)) x) s).

Definition unlock_wait (t : nat) (s : tsys) : pc * tsys :=
  if has_flag (state_of s t) TASKLET_RUNNING then (P_wait t, s)
  else (P_idle, on_tl t (fun x => set_tl_synced (S (tl_synced x)) (set_tl_owned (S (tl_owned x)) x)) s).

Definition enable_dec (t : nat) (once : bool) (s : tsys) : pc * tsys :=
  let nv := u32 (count_of s t - 1) in
  let s := on_tl t (set_tl_disablecount nv) s in
  let s := KASSERT (nv <? UINT32_MAX) s in
  (if nv =? 0 then P_unpark t (if once then K_kill t else K_return) else P_idle, s).

Definition kill_wait (t : nat) (s : tsys) : pc * tsys :=
  if has_flag (state_of s t) TASKLET_SCHEDULED then (P_kill t, s) else (P_kill_run t, s).

Definition kill_wait_run (t : nat) (s : tsys) : pc * tsys :=
  if has_flag (state_of s t) TASKLET_RUNNING then (P_kill_run t, s) else (P_idle, s).

(** The queries, which change nothing. *)
Definition tasklet_is_locked (s : tsys) (t : nat) : bool := has_flag (state_of s t) TASKLET_RUNNING.
Definition tasklet_is_enabled (s : tsys) (t : nat) : bool := count_of s t =? 0.
Definition tasklet_is_scheduled (s : tsys) (t : nat) : bool := has_flag (state_of s t) TASKLET_SCHEDULED.

(** ** Steps

    An event is a thread, the CPU it is on if it is a client, and the call it
    makes if it is outside the routines. *)
Record event := mk_ev {
  ev_thread : nat;
  ev_cpu : nat;
  ev_call : option call
}.


Definition cpu_of (r : role) (e : event) : nat :=
  match r with SOFTINT cpu _ => cpu | CLIENT => ev_cpu e end.

Definition start (r : role) (e : event) (p : pc) (s : tsys) : option (pc * tsys) :=
  match r, p with
  | SOFTINT cpu hi, P_idle =>
      if pending_of s (tq_id cpu hi) then Some (P_grab, put_pending (tq_id cpu hi) false s) else None
  | SOFTINT _ _, _ => None
  | CLIENT, _ => c ← ev_call e; start_call c p s
  end.

Definition pc_step (r : role) (e : event) (p : pc) (s : tsys) : option (pc * tsys) :=
  match p with
  | P_idle | P_holds _ => start r e p s
  | P_sched hi t => Some (schedule_load hi t s)
  | P_sched_cas hi t o => Some (schedule_cas hi t o s)
  | P_enqueue hi t k =>
      if (tq_id (cpu_of r e) hi <? length (ts_queues s))%nat
      then Some (enqueue_insert (cpu_of r e) hi t k s) else None
  | P_kick q k => Some (enqueue_kick q k s)
  | P_unpark t k => Some (unpark_load t k s)
  | P_unpark_cas t o k => Some (unpark_cas t o k s)
  | P_try t w => Some (trylock_load (match r with SOFTINT _ hi => hi | CLIENT => false end) t w s)
  | P_try_cas t o w => Some (trylock_cas t o w s)
  | P_unlock t u => Some (tasklet_unlock t u s)
  | P_grab => match r with SOFTINT cpu hi => Some (softintr_grab (tq_id cpu hi) s) | CLIENT => None end
  | P_loop th => Some (softintr_loop th s)
  | P_check t th => Some (softintr_check t th s)
  | P_park t th => Some (softintr_park t th s)
  | P_recheck t th => Some (softintr_recheck t th s)
  | P_clear t th => Some (softintr_clear t th s)
  | P_func t th => Some (softintr_func t th s)
  | P_inc t m => Some (disable_inc t m s)
  | P_wait t => Some (unlock_wait t s)
  | P_dec t once => Some (enable_dec t once s)
  | P_kill t => Some (kill_wait t s)
  | P_kill_run t => Some (kill_wait_run t s)
  end.

Definition put_pc (i : nat) (p : pc) (s : tsys) : tsys :=
  set_ts_threads (alter (set_th_pc p) i (ts_threads s)) s.

Definition tstep (s : tsys) (e : event) : option tsys :=
  th ← ts_threads s !! ev_thread e;
  '(p, s) ← pc_step (th_role th) e (th_pc th) s;
  Some (put_pc (ev_thread e) p s).

Fixpoint tsteps (s : tsys) (es : list event) : option tsys :=
  match es with
  | [] => Some s
  | e :: es => s ← tstep s e; tsteps s es
  end.

(** At the start: every tasklet initialized, the queues of [ncpu] CPUs empty with
    their two handlers, and [n] clients. *)
Definition cpu_handlers (ncpu : nat) : list thread :=
  flat_map (fun cpu => [mk_th (SOFTINT cpu false) P_idle; mk_th (SOFTINT cpu true) P_idle]) (seq 0 ncpu).

Definition ts_init (ncpu n : nat) : tsys :=
  mk_ts (fun _ => tasklet_init) (replicate (2 * ncpu) []) (replicate (2 * ncpu) false)
    (cpu_handlers ncpu ++ replicate n (mk_th CLIENT P_idle)) true.

(** ** Setting up and tearing down

    Whether softint_establish succeeds is an argument.  What is allocated of a
    queue is its state. *)
Record tasklet_queue := mk_tq {
  tq_percpu : bool;
  tq_sih : bool
}.

Definition set_tq_percpu (v : bool) (r : tasklet_queue) : tasklet_queue :=
  mk_tq v (tq_sih r).
Definition set_tq_sih (v : bool) (r : tasklet_queue) : tasklet_queue :=
  mk_tq (tq_percpu r) v.

Definition tasklet_queue_init (established : bool) (tq : tasklet_queue) : Z * tasklet_queue :=
  let tq := set_tq_sih established (set_tq_percpu true tq) in
  if tq_sih tq then (0, tq) else (ENOMEM, set_tq_percpu false tq).

Definition tasklet_queue_fini (tq : tasklet_queue) : tasklet_queue :=
  set_tq_percpu false (set_tq_sih false tq).

Definition linux_tasklets_init (est est_hi : bool) (tq tq_hi : tasklet_queue)
    : Z * tasklet_queue * tasklet_queue :=
  let '(error, tq) := tasklet_queue_init est tq in
  if nz error then (error, tq, tq_hi)
  else
    let '(error, tq_hi) := tasklet_queue_init est_hi tq_hi in
    if nz error then (error, tasklet_queue_fini tq, tq_hi) else (0, tq, tq_hi).

Definition linux_tasklets_fini (tq tq_hi : tasklet_queue) : tasklet_queue * tasklet_queue :=
  (tasklet_queue_fini tq, tasklet_queue_fini tq_hi).
