(* ===== verification/TaskletInv.v ===== *)
(** * The invariant of tasklets

    A tasklet that is scheduled has one token: on a queue, in the list of a
    handler, in the hands of a thread about to queue it, or in its PARKED bit.
    RUNNING is a lock with one holder.  Whoever may have to unpark a tasklet is
    on its way.  Each is a sum of weights over threads, which a step changes at
    one thread only. *)

From stdpp Require Import base numbers list.
From S2P Require Import Prelude Sysctl Tasklet.

(** ** Sums over threads *)

Definition b2n (b : bool) : nat := if b then 1 else 0.
Definition is_t (t t' : nat) : nat := if decide (t = t') then 1 else 0.

Fixpoint cnt (t : nat) (l : list nat) : nat :=
  match l with [] => 0 | x :: l => is_t t x + cnt t l end.

Lemma cnt_app t l k : cnt t (l ++ k) = (cnt t l + cnt t k)%nat.
Proof. induction l; simpl; lia. Qed.

Lemma sum_alter {A} (f : A -> nat) (g : A -> A) l i x : l !! i = Some x ->
  (sum_list_with f (alter g i l) + f x = sum_list_with f l + f (g x))%nat.
Proof.
  revert i. induction l as [|y l IH]; intros [|i] H; simplify_eq/=; [lia|]. specialize (IH i H). lia.
Qed.

Lemma sum_insert {A} (f : A -> nat) l i x y : l !! i = Some x ->
  (sum_list_with f (<[i := y]> l) + f x = sum_list_with f l + f y)%nat.
Proof.
  revert i. induction l as [|z l IH]; intros [|i] H; simplify_eq/=; [lia|]. specialize (IH i H). lia.
Qed.

Lemma sum_in {A} (f : A -> nat) l i x : l !! i = Some x -> (f x <= sum_list_with f l)%nat.
Proof.
  revert i. induction l as [|z l IH]; intros [|i] H; simplify_eq/=; [lia|]. specialize (IH i H). lia.
Qed.

Lemma sum_zero {A} (f : A -> nat) l : sum_list_with f l = 0%nat <-> Forall (fun x => f x = 0%nat) l.
Proof.
  induction l as [|x l IH]; simpl; [by split; constructor|]. rewrite Forall_cons, <-IH. lia.
Qed.

(** ** Weights *)

Definition cont_tokens (t : nat) (k : cont) : nat := match k with K_loop th => cnt t th | _ => 0 end.

(** The tokens of [t] a thread holds. *)
Definition tokens (t : nat) (th : thread) : nat :=
  match th_pc th with
  | P_enqueue _ t' k => is_t t t' + cont_tokens t k
  | P_kick _ k | P_unpark _ k | P_unpark_cas _ _ k => cont_tokens t k
  | P_try t' (Some l) | P_try_cas t' _ (Some l) => is_t t t' + cnt t l
  | P_unlock _ (U_loop l) | P_unlock _ (U_recheck l) => cnt t l
  | P_check t' l | P_park t' l | P_clear t' l => is_t t t' + cnt t l
  | P_loop l | P_recheck _ l | P_func _ l => cnt t l
  | _ => 0
  end.

(** Whether a thread has RUNNING of [t]. *)
Definition holding (t : nat) (th : thread) : nat :=
  match th_pc th with
  | P_check t' _ | P_park t' _ | P_clear t' _ | P_func t' _ | P_unlock t' _ | P_holds t' => is_t t t'
  | _ => 0
  end.

(** Whether a thread has found [t] enabled and calls its function. *)
Definition committed (t : nat) (th : thread) : nat :=
  match th_pc th with P_clear t' _ | P_func t' _ => is_t t t' | _ => 0 end.

(** Whether a thread is to unpark [t]. *)
Definition unparking (t : nat) (th : thread) : nat :=
  match th_pc th with
  | P_unlock t' (U_recheck _) | P_recheck t' _ | P_unpark t' _ | P_unpark_cas t' _ _ => is_t t t'
  | _ => 0
  end.

(** Whether a thread has disabled [t] and waits, or is to give a disable up. *)
Definition enabling (t : nat) (th : thread) : nat :=
  match th_pc th with P_wait t' | P_dec t' _ => is_t t t' | _ => 0 end.
Definition disabling (t : nat) (th : thread) : nat :=
  match th_pc th with P_inc t' _ => is_t t t' | _ => 0 end.

(** Whether a thread is to look at queue [q], or to have it looked at. *)
Definition kicking (q : nat) (th : thread) : nat :=
  match th_pc th with
  | P_kick q' _ => is_t q q'
  | P_grab => match th_role th with SOFTINT cpu hi => is_t q (tq_id cpu hi) | CLIENT => 0 end
  | _ => 0
  end.

Arguments tokens _ !_ /.
Arguments holding _ !_ /.
Arguments committed _ !_ /.
Arguments unparking _ !_ /.
Arguments enabling _ !_ /.
Arguments disabling _ !_ /.
Arguments kicking _ !_ /.

Definition tsum (f : thread -> nat) (s : tsys) : nat := sum_list_with f (ts_threads s).
Definition queued (t : nat) (s : tsys) : nat := sum_list_with (cnt t) (ts_queues s).

Definition flag_of (s : tsys) (t : nat) (m : Z) : bool := has_flag (state_of s t) m.

(** What a thread has read of a state word it is about to replace, and which
    thread runs handlers. *)
Definition pc_ok (th : thread) : Prop :=
  match th_pc th with
  | P_sched_cas _ _ o => has_flag o TASKLET_SCHEDULED = false
  | P_unpark_cas _ o _ => has_flag o TASKLET_PARKED = true
  | P_try_cas _ o _ => has_flag o TASKLET_RUNNING = false
  | _ => True
  end.

(** ** The invariant *)

Record tl_inv (s : tsys) (t : nat) : Prop := {
  ti_tokens : (queued t s + tsum (tokens t) s + b2n (flag_of s t TASKLET_PARKED))%nat
    = b2n (flag_of s t TASKLET_SCHEDULED);
  ti_running : tsum (holding t) s = b2n (flag_of s t TASKLET_RUNNING);
  ti_unpark : flag_of s t TASKLET_PARKED = true -> count_of s t = 0 -> (0 < tsum (unparking t) s)%nat;
  ti_count : count_of s t = Z.of_nat (tl_owned (ts_tl s t) + tsum (enabling t) s);
  ti_bound : count_of s t + Z.of_nat (tsum (disabling t) s) < UINT32_MAX;
  ti_synced : (tl_synced (ts_tl s t) <= tl_owned (ts_tl s t))%nat;
  ti_excluded : (0 < tl_synced (ts_tl s t))%nat -> tsum (committed t) s = 0%nat
}.

Record ts_inv (s : tsys) : Prop := {
  si_tl : forall t, tl_inv s t;
  si_queues : forall q, queue_of s q <> [] -> pending_of s q = true \/ (0 < tsum (kicking q) s)%nat;
  si_pending : length (ts_pending s) = length (ts_queues s);
  si_pcs : Forall pc_ok (ts_threads s);
  si_asserts : ts_asserts s = true
}.

(** ** One thread moves *)

Lemma tsum_put f i p s s1 th : ts_threads s !! i = Some th -> ts_threads s1 = ts_threads s ->
  (tsum f (put_pc i p s1) + f th = tsum f s + f (set_th_pc p th))%nat.
Proof. intros H E. unfold tsum. simpl. rewrite E. by apply sum_alter. Qed.

Lemma tsum_in f s i th : ts_threads s !! i = Some th -> (f th <= tsum f s)%nat.
Proof. apply sum_in. Qed.

Lemma pcs_put s i r p p' : Forall pc_ok (ts_threads s) -> ts_threads s !! i = Some (mk_th r p) ->
  pc_ok (mk_th r p') -> Forall pc_ok (alter (set_th_pc p') i (ts_threads s)).
Proof.
  intros F H Hp. apply Forall_lookup_2. intros j th. destruct (decide (j = i)) as [->|Hne].
  - rewrite list_lookup_alter_eq, H. by intros [= <-].
  - rewrite list_lookup_alter_ne by done. by apply Forall_lookup_1.
Qed.

Lemma is_t_refl t : is_t t t = 1%nat.
Proof. unfold is_t. by rewrite decide_True. Qed.

Lemma is_t_ne t t' : t <> t' -> is_t t t' = 0%nat.
Proof. intros. unfold is_t. by rewrite decide_False. Qed.

(** The sums of tasklet [t0] after the step, from those before. *)
Ltac weigh t0 H E p :=
  pose proof (tsum_put (tokens t0) _ p _ _ _ H E); pose proof (tsum_put (holding t0) _ p _ _ _ H E);
  pose proof (tsum_put (unparking t0) _ p _ _ _ H E); pose proof (tsum_put (committed t0) _ p _ _ _ H E);
  pose proof (tsum_put (enabling t0) _ p _ _ _ H E); pose proof (tsum_put (disabling t0) _ p _ _ _ H E);
  pose proof (tsum_in (tokens t0) _ _ _ H); pose proof (tsum_in (holding t0) _ _ _ H);
  pose proof (tsum_in (enabling t0) _ _ _ H); pose proof (tsum_in (disabling t0) _ _ _ H);
  pose proof (tsum_in (committed t0) _ _ _ H).

(** A step that leaves the queues alone. *)
Lemma inv_put s s1 i r p p' : ts_inv s -> ts_threads s !! i = Some (mk_th r p) ->
  ts_threads s1 = ts_threads s -> ts_queues s1 = ts_queues s -> ts_pending s1 = ts_pending s ->
  ts_asserts s1 = true -> (forall q, kicking q (mk_th r p) = 0%nat) -> pc_ok (mk_th r p') ->
  (forall t, tl_inv s t -> tl_inv (put_pc i p' s1) t) -> ts_inv (put_pc i p' s1).
Proof.
  intros [I1 I2 I3 I4 I5] H Et Eq Ep Ea Hk Hp Ht. split; [auto| | | |done]; simpl.
  - intros q Hq. unfold queue_of, pending_of in *. simpl in *. rewrite Eq in Hq. rewrite Ep.
    destruct (I2 q Hq) as [?|Hs]; [by left|right].
    pose proof (tsum_put (kicking q) _ p' _ _ _ H Et) as W. specialize (Hk q). simpl in *. lia.
  - by rewrite Ep, Eq.
  - rewrite Et. by eapply pcs_put.
Qed.

(** The three bits of a state word, with what the invariant says of each case. *)
Ltac bits x :=
  destruct (has_flag x TASKLET_SCHEDULED) eqn:?; try discriminate;
  destruct (has_flag x TASKLET_RUNNING) eqn:?; try discriminate;
  destruct (has_flag x TASKLET_PARKED) eqn:?; try discriminate.

(** What the guarded clauses give under the guard assumed. *)
Ltac guards :=
  repeat match goal with
  | I : ?P -> _, h : ?P |- _ => lazymatch type of P with Prop => specialize (I h) end
  end.

Ltac known :=
  repeat match goal with h : has_flag ?x ?m = _ |- context [has_flag ?x ?m] => rewrite h end.

Ltac tl_part := intros; guards; try done; try lia.

(** Every clause of the invariant of every tasklet, for a step at tasklet [t]. *)
Ltac tl_step H t :=
  let t0 := fresh "t0" in
  intros t0 [I1 I2 I3 I4 I5 I6 I7];
  match goal with |- tl_inv (put_pc ?i ?p ?s1) _ => weigh t0 H (eq_refl (ts_threads s1)) p end;
  unfold flag_of, count_of, state_of, queued in *; simpl in *; unfold is_t in *;
  destruct (decide (t0 = t)) as [->|]; simpl in *;
  [ match type of H with ts_threads ?s !! _ = _ => bits (tl_state (ts_tl s t)) end;
    try (specialize (I3 eq_refl)); simpl b2n in *; try lia | ];
  split; unfold flag_of, count_of, state_of, queued; simpl;
  rewrite ?decide_True, ?decide_False by done; simpl; flags; known; simpl b2n; tl_part.

Arguments put_pc : simpl never.

Ltac inv_step H t := eapply inv_put; [done|done|done|done|done|try done|done|try done|tl_step H t].

Lemma inv_schedule_load s i r hi t p s1 : ts_inv s -> ts_threads s !! i = Some (mk_th r (P_sched hi t)) ->
  schedule_load hi t s = (p, s1) -> ts_inv (put_pc i p s1).
Proof.
  intros I H. pose proof (si_asserts _ I). unfold schedule_load.
  destruct (has_flag (state_of s t) TASKLET_SCHEDULED) eqn:E; intros [= <- <-]; inv_step H t.
Qed.

Lemma inv_schedule_cas s i r hi t o p s1 : ts_inv s ->
  ts_threads s !! i = Some (mk_th r (P_sched_cas hi t o)) ->
  schedule_cas hi t o s = (p, s1) -> ts_inv (put_pc i p s1).
Proof.
  intros I H. pose proof (si_asserts _ I). pose proof (Forall_lookup_1 _ _ _ _ (si_pcs _ I) H) as Ho.
  unfold pc_ok in Ho; simpl in Ho. unfold schedule_cas.
  destruct (Z.eqb_spec (state_of s t) o) as [<-|]; intros [= <- <-].
  - destruct hi; inv_step H t.
  - inv_step H t.
Qed.

(** ** What a thread may assert *)

Lemma token_scheduled s i th t : ts_inv s -> ts_threads s !! i = Some th -> (0 < tokens t th)%nat ->
  has_flag (state_of s t) TASKLET_SCHEDULED = true.
Proof.
  intros I H Hp. pose proof (ti_tokens _ _ (si_tl _ I t)) as E. pose proof (tsum_in (tokens t) _ _ _ H).
  unfold flag_of in E. destruct (has_flag (state_of s t) TASKLET_SCHEDULED); [done|simpl in E; lia].
Qed.

Lemma holder_running s i th t : ts_inv s -> ts_threads s !! i = Some th -> (0 < holding t th)%nat ->
  has_flag (state_of s t) TASKLET_RUNNING = true.
Proof.
  intros I H Hp. pose proof (ti_running _ _ (si_tl _ I t)) as E. pose proof (tsum_in (holding t) _ _ _ H).
  unfold flag_of in E. destruct (has_flag (state_of s t) TASKLET_RUNNING); [done|simpl in E; lia].
Qed.

Lemma KASSERT_ok s : ts_asserts s = true -> KASSERT true s = s.
Proof. destruct s. simpl. intros ->. done. Qed.

Tactic Notation "start_step" ident(I) ident(H) :=
  intros I H; pose proof (si_asserts _ I); pose proof (Forall_lookup_1 _ _ _ _ (si_pcs _ I) H) as Ho;
  unfold pc_ok in Ho; simpl in Ho.

Lemma inv_unpark_load s i r t k p s1 : ts_inv s -> ts_threads s !! i = Some (mk_th r (P_unpark t k)) ->
  unpark_load t k s = (p, s1) -> ts_inv (put_pc i p s1).
Proof.
  start_step I H. unfold unpark_load.
  destruct (has_flag (state_of s t) TASKLET_PARKED) eqn:E; intros [= <- <-]; [inv_step H t|].
  destruct k; inv_step H t.
Qed.

Lemma inv_unpark_cas s i r t o k p s1 : ts_inv s ->
  ts_threads s !! i = Some (mk_th r (P_unpark_cas t o k)) ->
  unpark_cas t o k s = (p, s1) -> ts_inv (put_pc i p s1).
Proof.
  start_step I H. unfold unpark_cas.
  destruct (Z.eqb_spec (state_of s t) o) as [<-|]; intros [= <- <-]; inv_step H t.
Qed.

Lemma inv_trylock_load s i r hi t w p s1 : ts_inv s -> ts_threads s !! i = Some (mk_th r (P_try t w)) ->
  trylock_load hi t w s = (p, s1) -> ts_inv (put_pc i p s1).
Proof.
  start_step I H. unfold trylock_load.
  destruct (has_flag (state_of s t) TASKLET_RUNNING) eqn:E; intros [= <- <-]; destruct w; inv_step H t.
Qed.

Lemma inv_trylock_cas s i r t o w p s1 : ts_inv s ->
  ts_threads s !! i = Some (mk_th r (P_try_cas t o w)) ->
  trylock_cas t o w s = (p, s1) -> ts_inv (put_pc i p s1).
Proof.
  start_step I H. unfold trylock_cas.
  destruct (Z.eqb_spec (state_of s t) o) as [<-|]; intros [= <- <-]; destruct w; inv_step H t.
Qed.

Lemma inv_unlock s i r t u p s1 : ts_inv s -> ts_threads s !! i = Some (mk_th r (P_unlock t u)) ->
  tasklet_unlock t u s = (p, s1) -> ts_inv (put_pc i p s1).
Proof.
  start_step I H. unfold tasklet_unlock.
  assert (has_flag (state_of s t) TASKLET_RUNNING = true) as E.
  { apply (holder_running _ _ _ _ I H). simpl. rewrite is_t_refl. lia. }
  rewrite E, KASSERT_ok by done. intros [= <- <-]; destruct u; inv_step H t.
Qed.

Lemma inv_softintr_loop s i r l p s1 : ts_inv s -> ts_threads s !! i = Some (mk_th r (P_loop l)) ->
  softintr_loop l s = (p, s1) -> ts_inv (put_pc i p s1).
Proof.
  start_step I H. unfold softintr_loop. destruct l as [|t l]; [intros [= <- <-]; inv_step H 0%nat|].
  assert (has_flag (state_of s t) TASKLET_SCHEDULED = true) as E.
  { apply (token_scheduled _ _ _ _ I H). simpl. rewrite is_t_refl. lia. }
  rewrite E, KASSERT_ok by done. intros [= <- <-]; inv_step H t.
Qed.

Lemma inv_softintr_check s i r t l p s1 : ts_inv s -> ts_threads s !! i = Some (mk_th r (P_check t l)) ->
  softintr_check t l s = (p, s1) -> ts_inv (put_pc i p s1).
Proof.
  start_step I H. unfold softintr_check, nz.
  destruct (Z.eqb_spec (count_of s t) 0) as [E|E]; intros [= <- <-]; inv_step H t.
Qed.

Lemma inv_softintr_park s i r t l p s1 : ts_inv s -> ts_threads s !! i = Some (mk_th r (P_park t l)) ->
  softintr_park t l s = (p, s1) -> ts_inv (put_pc i p s1).
Proof. start_step I H. unfold softintr_park. intros [= <- <-]; inv_step H t. Qed.

Lemma inv_softintr_recheck s i r t l p s1 : ts_inv s ->
  ts_threads s !! i = Some (mk_th r (P_recheck t l)) ->
  softintr_recheck t l s = (p, s1) -> ts_inv (put_pc i p s1).
Proof.
  start_step I H. unfold softintr_recheck.
  destruct (Z.eqb_spec (count_of s t) 0) as [E|E]; intros [= <- <-]; inv_step H t.
Qed.

Lemma inv_softintr_clear s i r t l p s1 : ts_inv s -> ts_threads s !! i = Some (mk_th r (P_clear t l)) ->
  softintr_clear t l s = (p, s1) -> ts_inv (put_pc i p s1).
Proof.
  start_step I H. unfold softintr_clear.
  assert (has_flag (state_of s t) TASKLET_SCHEDULED = true) as E.
  { apply (token_scheduled _ _ _ _ I H). simpl. rewrite is_t_refl. lia. }
  rewrite E, KASSERT_ok by done. intros [= <- <-]; inv_step H t.
Qed.

Lemma inv_softintr_func s i r t l p s1 : ts_inv s -> ts_threads s !! i = Some (mk_th r (P_func t l)) ->
  softintr_func t l s = (p, s1) -> ts_inv (put_pc i p s1).
Proof. start_step I H. unfold softintr_func. intros [= <- <-]; inv_step H t. Qed.

Lemma inv_disable_inc s i r t m p s1 : ts_inv s -> ts_threads s !! i = Some (mk_th r (P_inc t m)) ->
  disable_inc t m s = (p, s1) -> ts_inv (put_pc i p s1).
Proof.
  start_step I H. unfold disable_inc.
  assert (0 <= count_of s t /\ u32 (count_of s t + 1) = count_of s t + 1 /\ count_of s t + 1 < UINT32_MAX)
    as (E0 & -> & E1).
  { pose proof (ti_count _ _ (si_tl _ I t)). pose proof (ti_bound _ _ (si_tl _ I t)).
    pose proof (tsum_in (disabling t) _ _ _ H) as W. simpl in W. rewrite is_t_refl in W.
    assert (count_of s t + 1 < UINT32_MAX) by lia.
    split; [lia|]. split; [|done]. apply u32_id. unfold in_u32, UINT32_MAX in *. lia. }
  rewrite (proj2 (Z.ltb_lt _ _)) by done. unfold nz. rewrite (proj2 (Z.eqb_neq _ 0)) by lia. simpl.
  rewrite KASSERT_ok by done.
  destruct (match m with NOSYNC => false | SYNC => true | SYNC_ONCE => _ end); intros [= <- <-]; inv_step H t.
Qed.

Lemma committed_holding s t : (tsum (committed t) s <= tsum (holding t) s)%nat.
Proof.
  unfold tsum. induction (ts_threads s) as [|[r p] l IH]; simpl; [lia|]. destruct p; simpl; lia.
Qed.

Lemma inv_unlock_wait s i r t p s1 : ts_inv s -> ts_threads s !! i = Some (mk_th r (P_wait t)) ->
  unlock_wait t s = (p, s1) -> ts_inv (put_pc i p s1).
Proof.
  start_step I H. unfold unlock_wait. pose proof (committed_holding s t).
  destruct (has_flag (state_of s t) TASKLET_RUNNING) eqn:E; intros [= <- <-]; inv_step H t.
Qed.

Lemma inv_enable_dec s i r t o p s1 : ts_inv s -> ts_threads s !! i = Some (mk_th r (P_dec t o)) ->
  enable_dec t o s = (p, s1) -> ts_inv (put_pc i p s1).
Proof.
  start_step I H. unfold enable_dec.
  assert (u32 (count_of s t - 1) = count_of s t - 1 /\ 0 <= count_of s t - 1 < UINT32_MAX) as (-> & E1).
  { pose proof (ti_count _ _ (si_tl _ I t)). pose proof (ti_bound _ _ (si_tl _ I t)).
    pose proof (tsum_in (enabling t) _ _ _ H) as W. simpl in W. rewrite is_t_refl in W.
    split; [|lia]. apply u32_id. unfold in_u32, UINT32_MAX in *. lia. }
  rewrite (proj2 (Z.ltb_lt _ _)) by lia. rewrite KASSERT_ok by done.
  destruct (Z.eqb_spec (count_of s t - 1) 0); intros [= <- <-]; [destruct o|]; inv_step H t.
Qed.

Lemma inv_kill_wait s i r t p s1 : ts_inv s -> ts_threads s !! i = Some (mk_th r (P_kill t)) ->
  kill_wait t s = (p, s1) -> ts_inv (put_pc i p s1).
Proof.
  start_step I H. unfold kill_wait.
  destruct (has_flag (state_of s t) TASKLET_SCHEDULED) eqn:E; intros [= <- <-]; inv_step H t.
Qed.

Lemma inv_kill_wait_run s i r t p s1 : ts_inv s -> ts_threads s !! i = Some (mk_th r (P_kill_run t)) ->
  kill_wait_run t s = (p, s1) -> ts_inv (put_pc i p s1).
Proof.
  start_step I H. unfold kill_wait_run.
  destruct (has_flag (state_of s t) TASKLET_RUNNING) eqn:E; intros [= <- <-]; inv_step H t.
Qed.

(** ** Calls *)

Lemma disables_sum s t : disables s t = (tl_owned (ts_tl s t) + tsum (enabling t) s + tsum (disabling t) s)%nat.
Proof.
  unfold disables, tsum. induction (ts_threads s) as [|[r p] l IH]; simpl; [lia|].
  destruct p; unfold pc_disables at 1; simpl; unfold is_t; lia.
Qed.

Lemma inv_start_call s i r c p0 p s1 : ts_inv s -> ts_threads s !! i = Some (mk_th r p0) ->
  start_call c p0 s = Some (p, s1) -> ts_inv (put_pc i p s1).
Proof.
  start_step I H. destruct c as [hi t|m t|once sync t|t|t|]; simpl; destruct p0; try done.
  - destruct hi; intros [= <- <-]; inv_step H t.
  - pose proof (disables_sum s t). destruct (Z.ltb_spec (Z.of_nat (disables s t)) (UINT32_MAX - 1)); [|done].
    destruct m; intros [= <- <-]; inv_step H t.
  - destruct sync.
    + destruct (Nat.ltb_spec 0 (tl_synced (ts_tl s t))); [|done]. destruct once; intros [= <- <-]; inv_step H t.
    + destruct (Nat.ltb_spec (tl_synced (ts_tl s t)) (tl_owned (ts_tl s t))); [|done].
      destruct once; intros [= <- <-]; inv_step H t.
  - intros [= <- <-]; inv_step H t.
  - intros [= <- <-]; inv_step H t.
  - intros [= <- <-]. inv_step H t.
Qed.

(** ** Steps on the queues *)

Lemma queue_put s q l q' :
  queue_of (put_queue q l s) q' = if decide (q' = q /\ (q < length (ts_queues s))%nat) then l else queue_of s q'.
Proof.
  unfold queue_of. simpl. rewrite list_lookup_insert.
  destruct (decide (q = q' /\ (q < length (ts_queues s))%nat)) as [[<- ?]|Hn].
  - by rewrite decide_True.
  - rewrite decide_False; [done|]. intros [-> ?]. by apply Hn.
Qed.

Lemma pending_put s q b q' : pending_of (put_pending q b s) q' =
  if decide (q' = q /\ (q < length (ts_pending s))%nat) then b else pending_of s q'.
Proof.
  unfold pending_of. simpl. rewrite list_lookup_insert.
  destruct (decide (q = q' /\ (q < length (ts_pending s))%nat)) as [[<- ?]|Hn].
  - by rewrite decide_True.
  - rewrite decide_False; [done|]. intros [-> ?]. by apply Hn.
Qed.

Lemma queued_put t s q l : (q < length (ts_queues s))%nat ->
  (sum_list_with (cnt t) (<[q := l]> (ts_queues s)) + cnt t (queue_of s q) = queued t s + cnt t l)%nat.
Proof.
  intros Hq. destruct (lookup_lt_is_Some_2 _ _ Hq) as [k Hk]. unfold queue_of, queued. rewrite Hk. simpl.
  by apply sum_insert.
Qed.

Lemma queue_nonempty_lt s q : queue_of s q <> [] -> (q < length (ts_queues s))%nat.
Proof.
  unfold queue_of. destruct (ts_queues s !! q) eqn:E; [|done]. intros _. by eapply lookup_lt_Some.
Qed.

Lemma inv_enqueue_insert s i r cpu hi t k p s1 : ts_inv s ->
  ts_threads s !! i = Some (mk_th r (P_enqueue hi t k)) -> (tq_id cpu hi < length (ts_queues s))%nat ->
  enqueue_insert cpu hi t k s = (p, s1) -> ts_inv (put_pc i p s1).
Proof.
  start_step I H. intros Hq. unfold enqueue_insert.
  assert (has_flag (state_of s t) TASKLET_SCHEDULED = true) as ->.
  { apply (token_scheduled _ _ _ _ I H). simpl. rewrite is_t_refl. lia. }
  rewrite KASSERT_ok by done. set (q := tq_id cpu hi) in *. intros [= <- <-].
  set (s1 := put_queue q (queue_of s q ++ [t]) s). split; simpl; try done.
  - intros t0. generalize (si_tl _ I t0). revert t0.
    assert (forall t0, sum_list_with (cnt t0) (<[q:=queue_of s q ++ [t]]> (ts_queues s)) =
      queued t0 s + is_t t0 t)%nat as EQ.
    { intros t0. pose proof (queued_put t0 s q (queue_of s q ++ [t]) Hq) as W.
      rewrite cnt_app in W. simpl in W. lia. }
    intros t0 [I1 I2 I3 I4 I5 I6 I7]. weigh t0 H (eq_refl (ts_threads s1)) (P_kick q k). simpl in *.
    split; unfold flag_of, count_of, state_of, queued in *; simpl; rewrite ?EQ; tl_part.
  - intros q' Hne. pose proof (tsum_put (kicking q') _ (P_kick q k) _ s1 _ H eq_refl) as W. simpl in W.
    pose proof (queue_put s q (queue_of s q ++ [t]) q') as E.
    change (queue_of (put_pc i (P_kick q k) s1) q') with (queue_of s1 q') in Hne.
    unfold s1 in Hne. rewrite E in Hne. destruct (decide (q' = q /\ _)) as [[-> _]|].
    + right. rewrite is_t_refl in W. lia.
    + destruct (si_queues _ I q' Hne) as [?|?]; [by left|right; lia].
  - unfold s1. simpl. rewrite length_insert. apply I.
  - eapply pcs_put; [apply I|done|done].
Qed.

Lemma inv_enqueue_kick s i r q k p s1 : ts_inv s -> ts_threads s !! i = Some (mk_th r (P_kick q k)) ->
  enqueue_kick q k s = (p, s1) -> ts_inv (put_pc i p s1).
Proof.
  start_step I H. unfold enqueue_kick. intros [= <- <-]. set (s1 := put_pending q true s). split; simpl; try done.
  - intros t0. generalize (si_tl _ I t0). intros [I1 I2 I3 I4 I5 I6 I7].
    weigh t0 H (eq_refl (ts_threads s1)) (resume k). destruct k; simpl in *.
    all: split; unfold flag_of, count_of, state_of, queued in *; simpl; tl_part.
  - intros q' Hne. pose proof (tsum_put (kicking q') _ (resume k) _ s1 _ H eq_refl) as W.
    pose proof (queue_nonempty_lt _ _ Hne) as Hlt.
    pose proof (pending_put s q true q') as E. change (pending_of (put_pc i (resume k) s1) q') with (pending_of s1 q').
    unfold s1 in *. rewrite E. destruct (decide (q' = q /\ _)) as [?|Hn]; [by left|].
    destruct (decide (q' = q)) as [->|Hnq].
    { exfalso. apply Hn. split; [done|]. rewrite (si_pending _ I). exact Hlt. }
    destruct (si_queues _ I q' Hne) as [?|?]; [by left|right]. simpl in W. rewrite is_t_ne in W by done. lia.
  - unfold s1. simpl. rewrite length_insert. apply I.
  - eapply pcs_put; [apply I|done|by destruct k].
Qed.

Lemma inv_softintr_start s i cpu hi : ts_inv s -> ts_threads s !! i = Some (mk_th (SOFTINT cpu hi) P_idle) ->
  ts_inv (put_pc i P_grab (put_pending (tq_id cpu hi) false s)).
Proof.
  start_step I H. set (q := tq_id cpu hi) in *. set (s1 := put_pending q false s). split; simpl; try done.
  - intros t0. generalize (si_tl _ I t0). intros [I1 I2 I3 I4 I5 I6 I7].
    weigh t0 H (eq_refl (ts_threads s1)) P_grab. simpl in *.
    split; unfold flag_of, count_of, state_of, queued in *; simpl; tl_part.
  - intros q' Hne. pose proof (tsum_put (kicking q') _ P_grab _ s1 _ H eq_refl) as W. simpl in W. fold q in W.
    pose proof (pending_put s q false q') as E. change (pending_of (put_pc i P_grab s1) q') with (pending_of s1 q').
    unfold s1 in *. rewrite E. destruct (decide (q' = q)) as [->|Hnq]; [right; rewrite is_t_refl in W; lia|].
    rewrite decide_False by tauto. destruct (si_queues _ I q' Hne) as [?|?]; [by left|right; lia].
  - unfold s1. simpl. rewrite length_insert. apply I.
  - eapply pcs_put; [apply I|done|done].
Qed.

Lemma inv_softintr_grab s i cpu hi p s1 : ts_inv s ->
  ts_threads s !! i = Some (mk_th (SOFTINT cpu hi) P_grab) ->
  softintr_grab (tq_id cpu hi) s = (p, s1) -> ts_inv (put_pc i p s1).
Proof.
  start_step I H. unfold softintr_grab. set (q := tq_id cpu hi) in *. intros [= <- <-].
  set (s1 := put_queue q [] s). set (l := queue_of s q). split; simpl; try done.
  - intros t0. generalize (si_tl _ I t0). intros [I1 I2 I3 I4 I5 I6 I7].
    weigh t0 H (eq_refl (ts_threads s1)) (P_loop l).
    assert (sum_list_with (cnt t0) (<[q:=[]]> (ts_queues s)) + cnt t0 l = queued t0 s)%nat as EQ.
    { unfold l. destruct (decide (q < length (ts_queues s))%nat) as [Hq|Hq].
      - pose proof (queued_put t0 s q [] Hq) as W. simpl in W. lia.
      - rewrite list_insert_ge by lia. unfold queue_of. rewrite lookup_ge_None_2 by lia. simpl. unfold queued. lia. }
    simpl in *. split; unfold flag_of, count_of, state_of, queued in *; simpl; tl_part.
  - intros q' Hne. pose proof (tsum_put (kicking q') _ (P_loop l) _ s1 _ H eq_refl) as W. simpl in W. fold q in W.
    pose proof (queue_put s q [] q') as E.
    change (queue_of (put_pc i (P_loop l) s1) q') with (queue_of s1 q') in Hne.
    unfold s1 in *. rewrite E in Hne. destruct (decide (q' = q /\ _)) as [|Hn]; [done|].
    destruct (decide (q' = q)) as [->|Hnq].
    { exfalso. apply Hn. split; [done|]. by apply queue_nonempty_lt. }
    rewrite is_t_ne in W by done. destruct (si_queues _ I q' Hne) as [?|?]; [by left|right; lia].
  - unfold s1. simpl. rewrite length_insert. apply I.
  - eapply pcs_put; [apply I|done|done].
Qed.

(** ** Every step *)

Lemma tstep_inv s e s' : ts_inv s -> tstep s e = Some s' -> ts_inv s'.
Proof.
  intros I. unfold tstep. destruct (ts_threads s !! ev_thread e) as [[r p0]|] eqn:H; [|done]. simpl.
  destruct (pc_step r e p0 s) as [[p s1]|] eqn:E; [|done]. simpl. intros [= <-].
  destruct p0; cbn [pc_step] in E; try apply (inj Some) in E.
  1, 10: unfold start in E; destruct r as [cpu b|];
    [ solve [ done | destruct (pending_of s (tq_id cpu b)); [|done]; injection E as <- <-; by apply inv_softintr_start ]
    | destruct (ev_call e) as [c|]; [|done]; simpl in E; by eapply inv_start_call ].
  - by eapply inv_schedule_load.
  - by eapply inv_schedule_cas.
  - destruct (Nat.ltb_spec (tq_id (cpu_of r e) hi) (length (ts_queues s))); [|done].
    apply (inj Some) in E. by eapply inv_enqueue_insert.
  - by eapply inv_enqueue_kick.
  - by eapply inv_unpark_load.
  - by eapply inv_unpark_cas.
  - by eapply inv_trylock_load.
  - by eapply inv_trylock_cas.
  - by eapply inv_unlock.
  - destruct r; [|done]. apply (inj Some) in E. by eapply inv_softintr_grab.
  - by eapply inv_softintr_loop.
  - by eapply inv_softintr_check.
  - by eapply inv_softintr_park.
  - by eapply inv_softintr_recheck.
  - by eapply inv_softintr_clear.
  - by eapply inv_softintr_func.
  - by eapply inv_disable_inc.
  - by eapply inv_unlock_wait.
  - by eapply inv_enable_dec.
  - by eapply inv_kill_wait.
  - by eapply inv_kill_wait_run.
Qed.
