(* ===== verification/TaskletThms.v ===== *)
(** * What tasklets promise

    In every state any number of CPUs and clients can reach: a tasklet runs on
    one CPU at a time, is queued once, is not run while disabled, and is never
    left behind; a handler ends and does not raise itself again for a disabled
    tasklet. *)

From stdpp Require Import base numbers list.
From S2P Require Import Prelude Sysctl Tasklet TaskletInv.

(** ** Reachable states *)

Lemma sum_all_zero {A} (f : A -> nat) l : Forall (fun x => f x = 0%nat) l -> sum_list_with f l = 0%nat.
Proof. by rewrite sum_zero. Qed.

Lemma init_threads ncpu n : Forall (fun th => th_pc th = P_idle) (ts_threads (ts_init ncpu n)).
Proof.
  simpl. apply Forall_app. split.
  - apply Forall_flat_map, Forall_true. intros cpu. by repeat constructor.
  - apply Forall_replicate. done.
Qed.

Lemma idle_sum f s : Forall (fun th => th_pc th = P_idle) (ts_threads s) ->
  (forall r, f (mk_th r P_idle) = 0%nat) -> tsum f s = 0%nat.
Proof.
  intros F Hf. apply sum_all_zero. apply (Forall_impl _ _ _ F). intros [r p]. simpl. intros ->. apply Hf.
Qed.

Lemma tinit_inv ncpu n : ts_inv (ts_init ncpu n).
Proof.
  pose proof (init_threads ncpu n) as F.
  assert (forall t, queued t (ts_init ncpu n) = 0%nat) as Eq.
  { intros t. unfold queued. simpl. apply sum_all_zero, Forall_replicate. done. }
  split; [|intros q Hq| | |done].
  - intros t. split; rewrite ?Eq, ?(idle_sum _ _ F) by done; done.
  - exfalso. apply Hq. unfold queue_of. simpl. by destruct (replicate _ _ !! q) eqn:E; [apply lookup_replicate in E as [-> _]|].
  - simpl. by rewrite !length_replicate.
  - apply (Forall_impl _ _ _ F). intros [r p]. simpl. by intros ->.
Qed.

Lemma tsteps_inv es : forall s s', ts_inv s -> tsteps s es = Some s' -> ts_inv s'.
Proof.
  induction es as [|e es IH]; intros s s' I; simpl; [by intros [= <-]|].
  destruct (tstep s e) as [s1|] eqn:E; [|done]. simpl. apply IH. by eapply tstep_inv.
Qed.

(** What [ncpu] CPUs and [n] clients can get to. *)
Definition reachable (ncpu n : nat) (s : tsys) : Prop := exists es, tsteps (ts_init ncpu n) es = Some s.

Lemma treachable_inv ncpu n s : reachable ncpu n s -> ts_inv s.
Proof. intros [es H]. eapply tsteps_inv; [apply tinit_inv|done]. Qed.

(** ** One at a time *)

Lemma sum_two {A} (f : A -> nat) l i j x y : i <> j -> l !! i = Some x -> l !! j = Some y ->
  (f x + f y <= sum_list_with f l)%nat.
Proof.
  revert i j. induction l as [|z l IH]; intros [|i] [|j] Hne Hi Hj; simplify_eq/=; try lia.
  - pose proof (sum_in f l j y Hj). lia.
  - pose proof (sum_in f l i x Hi). lia.
  - pose proof (IH i j ltac:(lia) Hi Hj). lia.
Qed.

Lemma holder_unique s t i j x y : ts_inv s -> ts_threads s !! i = Some x -> ts_threads s !! j = Some y ->
  holding t x = 1%nat -> holding t y = 1%nat -> i = j.
Proof.
  intros I Hi Hj Hx Hy. destruct (decide (i = j)) as [|Hne]; [done|].
  pose proof (sum_two (holding t) _ _ _ _ _ Hne Hi Hj). pose proof (ti_running _ _ (si_tl _ I t)) as E.
  unfold tsum in E. destruct (flag_of s t TASKLET_RUNNING); simpl in E; lia.
Qed.

(** C7. Whatever any number of CPUs and clients do at once, no assertion of the tasklet
    code fails; a scheduled tasklet is in exactly one place (a queue, the list or hands
    of one thread, or parked) and an unscheduled one in none; and its function runs on
    at most one CPU, under RUNNING. *)
Theorem tasklet_once_and_alone ncpu n s t : reachable ncpu n s ->
  ts_asserts s = true /\
  (queued t s + tsum (tokens t) s + b2n (has_flag (state_of s t) TASKLET_PARKED))%nat
    = b2n (has_flag (state_of s t) TASKLET_SCHEDULED) /\
  (forall i j r1 r2 l1 l2, ts_threads s !! i = Some (mk_th r1 (P_func t l1)) ->
     ts_threads s !! j = Some (mk_th r2 (P_func t l2)) -> i = j) /\
  (forall i r l, ts_threads s !! i = Some (mk_th r (P_func t l)) ->
     has_flag (state_of s t) TASKLET_RUNNING = true).
Proof.
  intros I%treachable_inv. split; [apply I|]. split; [apply (si_tl _ I t)|]. split.
  - intros i j r1 r2 l1 l2 Hi Hj. eapply (holder_unique s t); try done; simpl; by rewrite is_t_refl.
  - intros i r l Hi. eapply holder_running; [done|done|]. simpl. rewrite is_t_refl. lia.
Qed.

(** ** Not while disabled *)

(** What a step of a thread at [p] may do to tasklet [t]: only the return of its
    function counts a run, and only a successful schedule sets SCHEDULED. *)
Definition tl_effect (s s1 : tsys) (p : pc) (t : nat) : Prop :=
  (tl_runs (ts_tl s1 t) = tl_runs (ts_tl s t) \/ exists l, p = P_func t l) /\
  (has_flag (state_of s1 t) TASKLET_SCHEDULED = true -> has_flag (state_of s t) TASKLET_SCHEDULED = true \/
     exists hi, p = P_sched_cas hi t (state_of s t)).

Lemma tl_effect_same s s1 p t : ts_tl s1 = ts_tl s -> tl_effect s s1 p t.
Proof. intros E. unfold tl_effect, state_of. rewrite E. auto. Qed.

Ltac effect_cases :=
  repeat case_match; simplify_eq/=; try (by apply tl_effect_same);
  repeat match goal with h : (_ =? _) = true |- _ => apply Z.eqb_eq in h end;
  unfold tl_effect, state_of in *; simpl; subst;
  match goal with
  | |- context [decide (?a = ?b)] => destruct (decide (a = b)) as [->|]; simpl; [flags; naive_solver|by auto]
  end.

Lemma start_call_effect c p0 s p s1 t : start_call c p0 s = Some (p, s1) -> tl_effect s s1 p0 t.
Proof. unfold start_call. intros E. effect_cases. Qed.

Lemma pc_step_effect r e p0 s p s1 t : pc_step r e p0 s = Some (p, s1) -> tl_effect s s1 p0 t.
Proof.
  destruct p0; cbn [pc_step]; intros E; try apply (inj Some) in E.
  1, 10: unfold start in E; destruct r; [by effect_cases|];
    destruct (ev_call e); [|done]; by eapply start_call_effect.
  all: unfold schedule_load, schedule_cas, enqueue_insert, enqueue_kick, unpark_load, unpark_cas,
    trylock_load, trylock_cas, tasklet_unlock, softintr_grab, softintr_loop, softintr_check, softintr_park,
    softintr_recheck, softintr_clear, softintr_func, disable_inc, unlock_wait, enable_dec, kill_wait,
    kill_wait_run in E; effect_cases.
Qed.

Lemma tstep_effect s e s' t : tstep s e = Some s' ->
  exists th, ts_threads s !! ev_thread e = Some th /\ tl_effect s s' (th_pc th) t.
Proof.
  unfold tstep. destruct (ts_threads s !! ev_thread e) as [th|]; [|done]. simpl.
  destruct (pc_step (th_role th) e (th_pc th) s) as [[p s1]|] eqn:E; [|done]. simpl. intros [= <-].
  exists th. split; [done|]. exact (pc_step_effect _ _ _ _ _ _ t E).
Qed.

(** C24. From the return of a tasklet_disable that waited until it is given up, the
    disable count is positive, no CPU is in the tasklet's function and no step of
    anybody completes a run of it. *)
Theorem tasklet_disable_excludes ncpu n s t : reachable ncpu n s -> (0 < tl_synced (ts_tl s t))%nat ->
  0 < count_of s t /\
  (forall i r l, ts_threads s !! i <> Some (mk_th r (P_func t l))) /\
  (forall e s', tstep s e = Some s' -> tl_runs (ts_tl s' t) = tl_runs (ts_tl s t)).
Proof.
  intros I%treachable_inv Hs. destruct (si_tl _ I t) as [_ _ _ Hc _ Ho Hx].
  assert (forall i r l, ts_threads s !! i <> Some (mk_th r (P_func t l))) as Hno.
  { intros i r l H. pose proof (tsum_in (committed t) _ _ _ H) as W. simpl in W.
    rewrite (Hx Hs), is_t_refl in W. lia. }
  split; [lia|]. split; [done|]. intros e s' E.
  destruct (tstep_effect s e s' t E) as ([r p] & H & [[?|[l Hp]] _]); [done|].
  simpl in Hp. subst p. by destruct (Hno _ _ _ H).
Qed.

(** ** Never left behind *)

(** Nobody is inside the routines. *)
Definition quiet (s : tsys) : Prop :=
  Forall (fun th => th_pc th = P_idle \/ exists t, th_pc th = P_holds t) (ts_threads s).

Lemma quiet_sum f s : quiet s -> (forall r, f (mk_th r P_idle) = 0%nat) ->
  (forall r t, f (mk_th r (P_holds t)) = 0%nat) -> tsum f s = 0%nat.
Proof.
  intros F H1 H2. apply sum_all_zero. apply (Forall_impl _ _ _ F). intros [r p]. simpl.
  intros [->|[t ->]]; auto.
Qed.

Lemma cnt_pos t l : (0 < cnt t l)%nat -> t ∈ l.
Proof.
  induction l as [|x l IH]; simpl; [lia|]. unfold is_t. destruct (decide (t = x)) as [->|]; [by left|].
  intros H. right. apply IH. lia.
Qed.

Lemma queued_somewhere t s : (0 < queued t s)%nat -> exists q, t ∈ queue_of s q.
Proof.
  unfold queued, queue_of. induction (ts_queues s) as [|l k IH]; simpl; [lia|]. intros H.
  destruct (decide (0 < cnt t l)%nat) as [Hl|Hl]; [exists 0%nat; by apply cnt_pos|].
  destruct IH as [q Hq]; [lia|]. by exists (S q).
Qed.

(** C8. A parked tasklet whose disable count is zero always has a thread on its way to
    unpark it, and whenever nobody is inside the routines every scheduled tasklet is
    either disabled and parked or on a queue whose soft interrupt is pending. *)
Theorem tasklet_never_left_behind ncpu n s t : reachable ncpu n s ->
  (has_flag (state_of s t) TASKLET_PARKED = true -> count_of s t = 0 ->
     exists i th, ts_threads s !! i = Some th /\ unparking t th = 1%nat) /\
  (quiet s -> has_flag (state_of s t) TASKLET_SCHEDULED = true ->
     count_of s t <> 0 /\ has_flag (state_of s t) TASKLET_PARKED = true \/
     exists q, t ∈ queue_of s q /\ pending_of s q = true).
Proof.
  intros I%treachable_inv. destruct (si_tl _ I t) as [Ht _ Hu _ _ _ _]. unfold flag_of in *. split.
  - intros Hp Hc. specialize (Hu Hp Hc).
    destruct (decide (Forall (fun th => unparking t th = 0%nat) (ts_threads s))) as [F|F].
    { apply sum_all_zero in F. unfold tsum in Hu. lia. }
    apply not_Forall_Exists, Exists_exists in F; [|solve_decision].
    destruct F as (th & [i Hi]%list_elem_of_lookup & Hn). exists i, th. split; [done|].
    destruct th as [r p]. destruct p; simpl in *; try done; try (destruct u; simpl in *; try done);
      unfold is_t in *; by destruct (decide _).
  - intros Q Hs. rewrite Hs in Ht. rewrite (quiet_sum (tokens t)) in Ht by done.
    destruct (has_flag (state_of s t) TASKLET_PARKED) eqn:Hp.
    + left. split; [|done]. intros Hc. specialize (Hu eq_refl Hc). rewrite quiet_sum in Hu by done. lia.
    + right. simpl in Ht. destruct (queued_somewhere t s) as [q Hq]; [lia|]. exists q. split; [done|].
      destruct (si_queues _ I q) as [|Hk]; [by destruct (queue_of s q); [inversion Hq|]|done|].
      rewrite quiet_sum in Hk by done. lia.
Qed.

(** ** A handler on its own *)

Lemma tstep_at s e r p p' s1 : ts_threads s !! ev_thread e = Some (mk_th r p) ->
  pc_step r e p s = Some (p', s1) -> tstep s e = Some (put_pc (ev_thread e) p' s1).
Proof. intros H E. unfold tstep. rewrite H. simpl. by rewrite E. Qed.

Lemma alter_pc_twice (i : nat) p p' (l : list thread) :
  alter (set_th_pc p') i (alter (set_th_pc p) i l) = alter (set_th_pc p') i l.
Proof. revert i. induction l as [|x l IH]; intros [|i]; simpl; try done. f_equal. exact (IH i). Qed.

(** [s] is [s0] but for thread [i], which is at [p], and tasklet [t], which is [x]. *)
Record at_pc (s0 : tsys) (i : nat) (p : pc) (t : nat) (x : tasklet_struct) (s : tsys) : Prop := {
  at_threads : ts_threads s = alter (set_th_pc p) i (ts_threads s0);
  at_queues : ts_queues s = ts_queues s0;
  at_pending : ts_pending s = ts_pending s0;
  at_others : forall t', t' <> t -> ts_tl s t' = ts_tl s0 t';
  at_tl : ts_tl s t = x
}.

(** [s1] is [s] but for tasklet [t], which is [x]. *)
Record only_tl (t : nat) (x : tasklet_struct) (s s1 : tsys) : Prop := {
  ot_threads : ts_threads s1 = ts_threads s;
  ot_queues : ts_queues s1 = ts_queues s;
  ot_pending : ts_pending s1 = ts_pending s;
  ot_others : forall t', t' <> t -> ts_tl s1 t' = ts_tl s t';
  ot_tl : ts_tl s1 t = x
}.

Lemma only_tl_same t s : only_tl t (ts_tl s t) s s.
Proof. by split. Qed.

Lemma only_tl_assert t x s s1 b : only_tl t x s s1 -> only_tl t x s (KASSERT b s1).
Proof. by intros [? ? ? ? ?]. Qed.

Lemma only_tl_on t f s : only_tl t (f (ts_tl s t)) s (on_tl t f s).
Proof. split; simpl; try done; [intros t' Hne; by rewrite decide_False|by rewrite decide_True]. Qed.

Lemma only_tl_on_assert t f b s : only_tl t (f (ts_tl s t)) s (on_tl t f (KASSERT b s)).
Proof. split; simpl; try done; [intros t' Hne; by rewrite decide_False|by rewrite decide_True]. Qed.

(** One more step of thread [i] at tasklet [t]. *)
Lemma at_step s0 s e r p0 p p' t x x' : ts_threads s0 !! ev_thread e = Some (mk_th r p0) ->
  at_pc s0 (ev_thread e) p t x s ->
  (forall s, ts_tl s t = x -> exists s1, pc_step r e p s = Some (p', s1) /\ only_tl t x' s s1) ->
  exists s', tstep s e = Some s' /\ at_pc s0 (ev_thread e) p' t x' s'.
Proof.
  intros H [A1 A2 A3 A4 A5] Hs. destruct (Hs s A5) as (s1 & E & [O1 O2 O3 O4 O5]). eexists. split.
  - eapply tstep_at; [by rewrite A1, list_lookup_alter_eq, H|done].
  - split; simpl; try congruence.
    + by rewrite O1, A1, alter_pc_twice.
    + intros t' Hne. rewrite O4 by done. auto.
Qed.

(** What one turn of the loop does to its tasklet: it is run, or parked if it is
    disabled. *)
Definition served (x x' : tasklet_struct) : Prop :=
  tl_disablecount x' = tl_disablecount x /\ has_flag (tl_state x') TASKLET_RUNNING = false /\
  if tl_disablecount x =? 0
  then has_flag (tl_state x') TASKLET_SCHEDULED = false /\ tl_runs x' = S (tl_runs x)
  else has_flag (tl_state x') TASKLET_SCHEDULED = true /\
       has_flag (tl_state x') TASKLET_PARKED = true /\ tl_runs x' = tl_runs x.

Lemma tsteps_cons s e s1 es s' : tstep s e = Some s1 -> tsteps s1 es = Some s' -> tsteps s (e :: es) = Some s'.
Proof. intros E1 E2. simpl. by rewrite E1. Qed.


Definition unset (m : Z) (x : tasklet_struct) : tasklet_struct := set_tl_state (clr_flag (tl_state x) m) x.
Definition parked (x : tasklet_struct) : tasklet_struct := set_tl_state (set_flag (tl_state x) TASKLET_PARKED) x.
Definition ran (x : tasklet_struct) : tasklet_struct := set_tl_runs (S (tl_runs x)) x.

Section turn.

Context (s0 : tsys) (e : event) (cpu : nat) (hi : bool) (t : nat) (l : list nat) (x : tasklet_struct).
Context (Hthread : ts_threads s0 !! ev_thread e = Some (mk_th (SOFTINT cpu hi) (P_loop (t :: l)))).
Context (Hrun : has_flag (tl_state x) TASKLET_RUNNING = false).

Let locked : tasklet_struct := set_tl_state (set_flag (tl_state x) TASKLET_RUNNING) x.

(** The first four steps take RUNNING and read the disable count. *)
Lemma turn_lock s : at_pc s0 (ev_thread e) (P_loop (t :: l)) t x s ->
  exists s1 s2 s3 s4, tstep s e = Some s1 /\ tstep s1 e = Some s2 /\ tstep s2 e = Some s3 /\
    tstep s3 e = Some s4 /\
    at_pc s0 (ev_thread e) (if nz (tl_disablecount x) then P_park t l else P_clear t l) t locked s4.
Proof.
  intros A0.
  destruct (at_step _ _ _ _ _ _ (P_try t (Some l)) _ _ x Hthread A0) as (s1 & E1 & A1).
  { intros s1 <-. eexists. split; [reflexivity|]. apply only_tl_assert, only_tl_same. }
  destruct (at_step _ _ _ _ _ _ (P_try_cas t (tl_state x) (Some l)) _ _ x Hthread A1) as (s2 & E2 & A2).
  { intros s' Ex. eexists. split.
    - cbn [pc_step]. unfold trylock_load, state_of. rewrite Ex, Hrun. reflexivity.
    - rewrite <-Ex. apply only_tl_same. }
  destruct (at_step _ _ _ _ _ _ (P_check t l) _ _ locked Hthread A2) as (s3 & E3 & A3).
  { intros s' Ex. eexists. split.
    - cbn [pc_step]. unfold trylock_cas, state_of. rewrite Ex, Z.eqb_refl. reflexivity.
    - unfold locked. rewrite <-Ex at 2. apply (only_tl_on t (set_tl_state _)). }
  destruct (at_step _ _ _ _ _ _ (if nz (tl_disablecount x) then P_park t l else P_clear t l) _ _ locked Hthread A3)
    as (s4 & E4 & A4).
  { intros s' Ex. exists s'. split; [|rewrite <-Ex; apply only_tl_same].
    cbn [pc_step]. unfold softintr_check, count_of. rewrite Ex. simpl. by destruct (nz (tl_disablecount x)). }
  by exists s1, s2, s3, s4.
Qed.

(** The last three run it, or park it. *)
Lemma turn_finish s : has_flag (tl_state x) TASKLET_SCHEDULED = true ->
  at_pc s0 (ev_thread e) (if nz (tl_disablecount x) then P_park t l else P_clear t l) t locked s ->
  exists s1 s2 s3 x', tstep s e = Some s1 /\ tstep s1 e = Some s2 /\ tstep s2 e = Some s3 /\
    served x x' /\ at_pc s0 (ev_thread e) (P_loop l) t x' s3.
Proof.
  intros Hsch A0. unfold served, nz in *. destruct (Z.eqb_spec (tl_disablecount x) 0) as [Ec|Ec]; simpl in A0.
  - destruct (at_step _ _ _ _ _ _ (P_func t l) _ _ (unset TASKLET_SCHEDULED locked) Hthread A0)
      as (s1 & E1 & A1).
    { intros s' <-. eexists. split; [reflexivity|]. apply (only_tl_on_assert t (unset _)). }
    destruct (at_step _ _ _ _ _ _ (P_unlock t (U_loop l)) _ _ (ran (unset TASKLET_SCHEDULED locked)) Hthread A1)
      as (s2 & E2 & A2).
    { intros s' <-. eexists. split; [reflexivity|]. apply (only_tl_on t ran). }
    destruct (at_step _ _ _ _ _ _ (P_loop l) _ _ (unset TASKLET_RUNNING (ran (unset TASKLET_SCHEDULED locked)))
      Hthread A2) as (s3 & E3 & A3).
    { intros s' <-. eexists. split; [reflexivity|]. apply (only_tl_on_assert t (unset _)). }
    exists s1, s2, s3, (unset TASKLET_RUNNING (ran (unset TASKLET_SCHEDULED locked))).
    split_and!; try done; unfold locked; simpl; flags; done.
  - destruct (at_step _ _ _ _ _ _ (P_unlock t (U_recheck l)) _ _ (parked locked) Hthread A0) as (s1 & E1 & A1).
    { intros s' <-. eexists. split; [reflexivity|]. apply (only_tl_on t parked). }
    destruct (at_step _ _ _ _ _ _ (P_recheck t l) _ _ (unset TASKLET_RUNNING (parked locked)) Hthread A1)
      as (s2 & E2 & A2).
    { intros s' <-. eexists. split; [reflexivity|]. apply (only_tl_on_assert t (unset _)). }
    destruct (at_step _ _ _ _ _ _ (P_loop l) _ _ (unset TASKLET_RUNNING (parked locked)) Hthread A2)
      as (s3 & E3 & A3).
    { intros s' Ex. exists s'. split; [|rewrite <-Ex; apply only_tl_same].
      cbn [pc_step]. unfold softintr_recheck, count_of. rewrite Ex. simpl. by rewrite (proj2 (Z.eqb_neq _ 0)). }
    exists s1, s2, s3, (unset TASKLET_RUNNING (parked locked)).
    split_and!; try done; unfold locked; simpl; flags; done.
Qed.

End turn.

(** Seven steps a tasklet, whichever way it goes. *)
Lemma turn_alone s e cpu hi t l : let i := ev_thread e in
  ts_threads s !! i = Some (mk_th (SOFTINT cpu hi) (P_loop (t :: l))) ->
  has_flag (state_of s t) TASKLET_SCHEDULED = true -> has_flag (state_of s t) TASKLET_RUNNING = false ->
  exists s' x', tsteps s (replicate 7 e) = Some s' /\ served (ts_tl s t) x' /\
    at_pc s i (P_loop l) t x' s'.
Proof.
  intros i H Hs Hr.
  assert (at_pc s i (P_loop (t :: l)) t (ts_tl s t) s) as A.
  { split; try done. apply list_eq. intros j. rewrite list_lookup_alter. case_decide as E; [|done]. subst.
    unfold i in *. by rewrite H. }
  destruct (turn_lock s e cpu hi t l (ts_tl s t) H Hr s A) as (s1 & s2 & s3 & s4 & E1 & E2 & E3 & E4 & A4).
  destruct (turn_finish s e cpu hi t l (ts_tl s t) H s4 Hs A4) as (s5 & s6 & s7 & x' & E5 & E6 & E7 & S & A7).
  exists s7, x'. split; [|done]. simpl. by rewrite E1; simpl; rewrite E2; simpl; rewrite E3; simpl; rewrite E4; simpl;
    rewrite E5; simpl; rewrite E6; simpl; rewrite E7.
Qed.

Lemma tsteps_app s es es' : tsteps s (es ++ es') = s1 ← tsteps s es; tsteps s1 es'.
Proof. revert s. induction es as [|e es IH]; intros s; simpl; [done|]. by destruct (tstep s e); simpl. Qed.

Lemma loop_alone e cpu hi l : forall s, let i := ev_thread e in
  ts_threads s !! i = Some (mk_th (SOFTINT cpu hi) (P_loop l)) -> NoDup l ->
  (forall t, t ∈ l -> has_flag (state_of s t) TASKLET_SCHEDULED = true /\
                      has_flag (state_of s t) TASKLET_RUNNING = false) ->
  exists s', tsteps s (replicate (7 * length l + 1) e) = Some s' /\
    ts_threads s' = alter (set_th_pc P_idle) i (ts_threads s) /\
    ts_queues s' = ts_queues s /\ ts_pending s' = ts_pending s /\
    (forall t, t ∈ l -> served (ts_tl s t) (ts_tl s' t)) /\ (forall t, t ∉ l -> ts_tl s' t = ts_tl s t).
Proof.
  induction l as [|t l IH]; intros s i H ND Hl.
  - exists (put_pc i P_idle s). split_and!; try done; [|by intros t ?%elem_of_nil].
    change (7 * length [] + 1)%nat with 1%nat. simpl. by erewrite tstep_at.
  - apply NoDup_cons in ND as [Hn ND]. destruct (Hl t ltac:(left)) as [Hs Hr].
    destruct (turn_alone s e cpu hi t l H Hs Hr) as (s1 & x' & E1 & S1 & [A1 A2 A3 A4 A5]).
    destruct (IH s1) as (s' & E2 & B1 & B2 & B3 & B4 & B5); [|done|..].
    { rewrite A1, list_lookup_alter_eq. unfold i in *. by rewrite H. }
    { intros t' Ht'. unfold state_of. rewrite A4 by (by intros ->). apply Hl. by right. }
    exists s'. replace (7 * length (t :: l) + 1)%nat with (7 + (7 * length l + 1))%nat by (simpl; lia).
    rewrite replicate_add, tsteps_app, E1. simpl.
    split_and!; [done|by rewrite B1, A1, alter_pc_twice|congruence|congruence|..].
    + intros t' [->|Ht']%elem_of_cons; [by rewrite B5, A5|]. rewrite <-A4 by (by intros ->). by apply B4.
    + intros t' [Hne Ht']%not_elem_of_cons. by rewrite B5, A4.
Qed.

Lemma cnt_in t l : t ∈ l -> (0 < cnt t l)%nat.
Proof.
  induction l as [|x l IH]; [by intros ?%elem_of_nil|]. intros [->|H]%elem_of_cons; simpl.
  - rewrite is_t_refl. lia.
  - specialize (IH H). lia.
Qed.

Lemma cnt_NoDup l : (forall t, cnt t l <= 1)%nat -> NoDup l.
Proof.
  induction l as [|x l IH]; intros H; constructor.
  - intros Hx%cnt_in. specialize (H x). simpl in H. rewrite is_t_refl in H. lia.
  - apply IH. intros t. specialize (H t). simpl in H. lia.
Qed.

Lemma queue_queued t s q : (cnt t (queue_of s q) <= queued t s)%nat.
Proof.
  unfold queue_of, queued. destruct (ts_queues s !! q) as [l|] eqn:E; simpl; [|lia]. by apply (sum_in (cnt t) _ q).
Qed.

Lemma alter_pc_id (i : nat) r p (l : list thread) : l !! i = Some (mk_th r p) -> alter (set_th_pc p) i l = l.
Proof.
  intros H. apply list_eq. intros j. rewrite list_lookup_alter. case_decide; [|done]. subst. by rewrite H.
Qed.

(** C25. A handler left to itself, with no tasklet of its queue running elsewhere, ends
    after seven steps for each tasklet and three more, with the queue empty and itself
    not raised again: every enabled tasklet was run once, every disabled one is parked,
    still scheduled. *)
Theorem tasklet_softintr_ends ncpu n s i cpu hi : reachable ncpu n s ->
  let q := tq_id cpu hi in
  ts_threads s !! i = Some (mk_th (SOFTINT cpu hi) P_idle) -> pending_of s q = true ->
  (forall t, t ∈ queue_of s q -> has_flag (state_of s t) TASKLET_RUNNING = false) ->
  exists s', tsteps s (replicate (7 * length (queue_of s q) + 3) (mk_ev i cpu None)) = Some s' /\
    ts_threads s' = ts_threads s /\ queue_of s' q = [] /\ pending_of s' q = false /\
    (forall q', q' <> q -> queue_of s' q' = queue_of s q' /\ pending_of s' q' = pending_of s q') /\
    (forall t, t ∈ queue_of s q -> served (ts_tl s t) (ts_tl s' t)) /\
    (forall t, t ∉ queue_of s q -> ts_tl s' t = ts_tl s t).
Proof.
  intros I%treachable_inv q H Hp Hr. set (e := mk_ev i cpu None). set (l := queue_of s q).
  assert (forall t, cnt t l <= 1 /\ (t ∈ l -> has_flag (state_of s t) TASKLET_SCHEDULED = true))%nat as Hl.
  { intros t. pose proof (ti_tokens _ _ (si_tl _ I t)) as E. pose proof (queue_queued t s q) as Hq. fold l in Hq.
    unfold flag_of in E. destruct (has_flag (state_of s t) TASKLET_SCHEDULED); simpl in E; [by split; [lia|]|].
    split; [lia|]. intros ?%cnt_in. lia. }
  set (s1 := put_pc i P_grab (put_pending q false s)).
  assert (tstep s e = Some s1) as E1.
  { apply (tstep_at s e (SOFTINT cpu hi) P_idle); [done|]. simpl. fold q. by rewrite Hp. }
  assert (ts_threads s1 !! i = Some (mk_th (SOFTINT cpu hi) P_grab)) as H1.
  { unfold s1, put_pc. simpl. by rewrite list_lookup_alter_eq, H. }
  set (s2 := put_pc i (P_loop l) (put_queue q [] s1)).
  assert (tstep s1 e = Some s2) as E2 by (by apply (tstep_at s1 e (SOFTINT cpu hi) P_grab)).
  destruct (loop_alone e cpu hi l s2) as (s' & E & T & Q & P & S1 & S2).
  { unfold s2, s1, put_pc. simpl. by rewrite !list_lookup_alter_eq, H. }
  { apply cnt_NoDup. intros t. apply Hl. }
  { intros t Ht. split; [by apply Hl|by apply Hr]. }
  exists s'. split; [|split; [|split; [|split; [|split; [|split]]]]]; try done.
  - replace (7 * length l + 3)%nat with (S (S (7 * length l + 1))) by lia. simpl replicate.
    cbn [tsteps]. rewrite E1. simpl. by rewrite E2.
  - rewrite T. unfold s2, s1, put_pc. simpl. rewrite !alter_pc_twice. by eapply alter_pc_id.
  - unfold queue_of. rewrite Q. change (queue_of (put_queue q [] s1) q = []). rewrite queue_put.
    case_decide as Hd; [done|]. destruct (queue_of s1 q) eqn:Eq; [done|]. exfalso. apply Hd. split; [done|].
    apply queue_nonempty_lt. by rewrite Eq.
  - unfold pending_of. rewrite P. change (pending_of (put_pending q false s) q = false). rewrite pending_put.
    case_decide as Hd; [done|]. exfalso. apply Hd. split; [done|].
    unfold pending_of in Hp. destruct (ts_pending s !! q) eqn:Eq; [by eapply lookup_lt_Some|done].
  - intros q' Hne. unfold queue_of, pending_of. rewrite Q, P. split.
    + change (queue_of (put_queue q [] s1) q' = queue_of s q'). rewrite queue_put, decide_False by tauto. done.
    + change (pending_of (put_pending q false s) q' = pending_of s q'). rewrite pending_put, decide_False by tauto. done.
Qed.

(** ** Killing *)

Definition schedules (t : nat) (s : tsys) (e : event) : Prop :=
  exists r hi, ts_threads s !! ev_thread e = Some (mk_th r (P_sched_cas hi t (state_of s t))).

Fixpoint no_schedule (t : nat) (s : tsys) (es : list event) : Prop :=
  match es with
  | [] => True
  | e :: es => ~ schedules t s e /\ (forall s1, tstep s e = Some s1 -> no_schedule t s1 es)
  end.

Lemma stays_unscheduled t es : forall s s', no_schedule t s es -> tsteps s es = Some s' ->
  has_flag (state_of s t) TASKLET_SCHEDULED = false -> has_flag (state_of s' t) TASKLET_SCHEDULED = false.
Proof.
  induction es as [|e es IH]; intros s s' N; cbn [tsteps]; [by intros [= <-]|].
  destruct (tstep s e) as [s1|] eqn:E; [|done]. simpl. intros Es Hs. destruct N as [Hn N].
  apply (IH s1); [by apply N|done|]. destruct (has_flag (state_of s1 t) TASKLET_SCHEDULED) eqn:Hs1; [|done].
  exfalso. destruct (tstep_effect s e s1 t E) as ([r p] & H & _ & Hf). destruct (Hf Hs1) as [?|[hi Hp]]; [congruence|].
  apply Hn. simpl in Hp. subst p. by exists r, hi.
Qed.

(** If nobody schedules the tasklet after tasklet_kill has found it unscheduled, then
    when the kill returns it is neither scheduled nor running nor parked, on no queue
    and in no thread's hands. *)
Theorem tasklet_kill_quiesces ncpu n s es s1 e s2 t r : reachable ncpu n s ->
  has_flag (state_of s t) TASKLET_SCHEDULED = false -> no_schedule t s es -> tsteps s es = Some s1 ->
  ts_threads s1 !! ev_thread e = Some (mk_th r (P_kill_run t)) -> tstep s1 e = Some s2 ->
  ts_threads s2 !! ev_thread e = Some (mk_th r P_idle) ->
  has_flag (state_of s2 t) TASKLET_SCHEDULED = false /\ has_flag (state_of s2 t) TASKLET_RUNNING = false /\
  has_flag (state_of s2 t) TASKLET_PARKED = false /\ queued t s2 = 0%nat /\
  forall i th, ts_threads s2 !! i = Some th -> tokens t th = 0%nat /\ holding t th = 0%nat.
Proof.
  intros R Hs N E1 H E2 H2.
  assert (has_flag (state_of s2 t) TASKLET_SCHEDULED = false /\ has_flag (state_of s2 t) TASKLET_RUNNING = false)
    as [Hs2 Hr2].
  { pose proof (stays_unscheduled t es s s1 N E1 Hs) as Hs1. unfold tstep in E2. rewrite H in E2. simpl in E2.
    unfold kill_wait_run in E2. destruct (has_flag (state_of s1 t) TASKLET_RUNNING) eqn:Hr; simplify_eq/=; [|done].
    unfold put_pc in H2. simpl in H2. rewrite list_lookup_alter_eq, H in H2. simplify_eq. }
  assert (ts_inv s2) as I.
  { eapply tstep_inv; [|done]. eapply tsteps_inv; [by eapply treachable_inv|done]. }
  destruct (si_tl _ I t) as [Ht Hh _ _ _ _ _]. unfold flag_of in *. rewrite Hs2 in Ht. rewrite Hr2 in Hh.
  destruct (has_flag (state_of s2 t) TASKLET_PARKED); simpl in *; [lia|]. split_and!; try done; [lia|].
  intros i th Hi. pose proof (tsum_in (tokens t) _ _ _ Hi). pose proof (tsum_in (holding t) _ _ _ Hi). lia.
Qed.

(** ** Setting up *)

(** A failed initialization leaves nothing allocated; a finished one has both
    queues, and its undoing frees them. *)
Lemma linux_tasklets_init_spec est est_hi tq tq_hi :
  tq = mk_tq false false -> tq_hi = mk_tq false false ->
  linux_tasklets_init est est_hi tq tq_hi =
    (if est && est_hi then (0, mk_tq true true, mk_tq true true)
     else (ENOMEM, mk_tq false false, mk_tq false false)) /\
  linux_tasklets_fini (mk_tq true true) (mk_tq true true) = (tq, tq_hi).
Proof. intros -> ->. by destruct est, est_hi. Qed.

(** ** Runs

    One CPU: thread 0 handles its normal queue, thread 1 the high one, threads 2
    and 3 are clients. *)

Definition calls (i : nat) (c : call) : event := mk_ev i 0 (Some c).
Definition goes (i n : nat) : list event := replicate n (mk_ev i 0 None).
Definition after_run (es : list event) : tsys := default (ts_init 1 2) (tsteps (ts_init 1 2) es).

Lemma tsteps_one s e : tsteps s [e] = tstep s e.
Proof. simpl. by destruct (tstep s e). Qed.

Definition runs (s : tsys) (es : list event) : bool := match tsteps s es with Some _ => true | None => false end.

Lemma after_run_reachable es : runs (ts_init 1 2) es = true -> reachable 1 2 (after_run es).
Proof. unfold runs, after_run. intros H. exists es. by destruct (tsteps (ts_init 1 2) es). Qed.

Lemma after_run_app es es' : runs (ts_init 1 2) es = true -> runs (after_run es) es' = true ->
  tsteps (after_run es) es' = Some (after_run (es ++ es')).
Proof.
  unfold runs, after_run. rewrite tsteps_app. destruct (tsteps (ts_init 1 2) es); [|done]. simpl.
  by destruct (tsteps t es').
Qed.

Definition run_schedule (t : nat) : list event := calls 2 (C_schedule false t) :: goes 2 4.
Definition run_to_func : list event := run_schedule 5 ++ goes 0 7.

Lemma tasklet_once_and_alone_witness : let s := after_run run_to_func in
  ts_threads s !! 0%nat = Some (mk_th (SOFTINT 0 false) (P_func 5 [])) /\ ts_asserts s = true /\
  has_flag (state_of s 5) TASKLET_RUNNING = true.
Proof.
  split; [vm_compute; reflexivity|].
  destruct (tasklet_once_and_alone 1 2 (after_run run_to_func) 5) as (A & _ & _ & R).
  - apply after_run_reachable. vm_compute. reflexivity.
  - split; [exact A|]. apply (R 0%nat (SOFTINT 0 false) []). vm_compute. reflexivity.
Defined.

(** Tasklet 5 disabled with a wait, then scheduled, and 6 scheduled behind it. *)
Definition run_disabled : list event := calls 3 (C_disable SYNC 5) :: goes 3 2.
Definition run_queued : list event := run_disabled ++ run_schedule 5 ++ run_schedule 6.
Definition run_parked : list event := run_queued ++ goes 0 17.

Lemma tasklet_disable_excludes_witness : let s := after_run run_queued in
  tl_synced (ts_tl s 5) = 1%nat /\ 0 < count_of s 5 /\
  forall i r l, ts_threads s !! i <> Some (mk_th r (P_func 5 l)).
Proof.
  split; [vm_compute; reflexivity|].
  destruct (tasklet_disable_excludes 1 2 (after_run run_queued) 5) as (A & B & _).
  - apply after_run_reachable. vm_compute. reflexivity.
  - vm_compute. lia.
  - split; [exact A|exact B].
Defined.

Lemma tasklet_never_left_behind_witness : let s := after_run run_parked in
  has_flag (state_of s 5) TASKLET_SCHEDULED = true /\
  (count_of s 5 <> 0 /\ has_flag (state_of s 5) TASKLET_PARKED = true \/
   exists q, 5%nat ∈ queue_of s q /\ pending_of s q = true).
Proof.
  split; [vm_compute; reflexivity|].
  apply (tasklet_never_left_behind 1 2 (after_run run_parked) 5).
  - apply after_run_reachable. vm_compute. reflexivity.
  - unfold quiet. vm_compute. repeat (constructor; [by left|]). constructor.
  - vm_compute. reflexivity.
Defined.

Lemma tasklet_softintr_ends_witness : let s := after_run run_queued in
  queue_of s 0 = [5; 6]%nat /\
  exists s', tsteps s (replicate 17 (mk_ev 0 0 None)) = Some s' /\ queue_of s' 0 = [] /\
    pending_of s' 0 = false /\ served (ts_tl s 5) (ts_tl s' 5) /\ served (ts_tl s 6) (ts_tl s' 6).
Proof.
  split; [vm_compute; reflexivity|].
  destruct (tasklet_softintr_ends 1 2 (after_run run_queued) 0 0 false)
    as (s' & E & _ & Q & P & _ & S & _).
  - apply after_run_reachable. vm_compute. reflexivity.
  - vm_compute. reflexivity.
  - vm_compute. reflexivity.
  - intros t. change (queue_of (after_run run_queued) (tq_id 0 false)) with [5; 6]%nat.
    rewrite !elem_of_cons, elem_of_nil. intros [->|[->|[]]]; vm_compute; reflexivity.
  - exists s'. split; [exact E|]. split; [exact Q|]. split; [exact P|]. split; apply S; vm_compute.
    + by left.
    + by right; left.
Defined.

(** The disabled one is parked and run when it is enabled. *)
Example parked_then_run :
  (fun s => (tl_runs (ts_tl s 5), tl_runs (ts_tl s 6), queue_of s 0, pending_of s 0)) <$>
    tsteps (after_run run_parked) (calls 3 (C_enable false true 5) :: goes 3 5 ++ goes 0 10)
  = Some (1%nat, 1%nat, [], false).
Proof. vm_compute. reflexivity. Qed.

(** Client 3 kills tasklet 5 while the handler is in its function. *)
Definition run_kill : list event := run_to_func ++ [calls 3 (C_kill 5)] ++ goes 3 1.

Lemma tasklet_kill_quiesces_witness : let s := after_run (run_kill ++ goes 0 2 ++ goes 3 1) in
  ts_threads s !! 3%nat = Some (mk_th CLIENT P_idle) /\ queued 5 s = 0%nat /\
  has_flag (state_of s 5) TASKLET_RUNNING = false.
Proof.
  split; [vm_compute; reflexivity|].
  destruct (tasklet_kill_quiesces 1 2 (after_run run_kill) (goes 0 2) (after_run (run_kill ++ goes 0 2))
    (mk_ev 3 0 None) (after_run (run_kill ++ goes 0 2 ++ goes 3 1)) 5 CLIENT) as (_ & R & _ & Q & _).
  - apply after_run_reachable. vm_compute. reflexivity.
  - vm_compute. reflexivity.
  - cbn [no_schedule goes replicate]. split; [intros (r & b & H); vm_compute in H; discriminate|].
    assert (tstep (after_run run_kill) (mk_ev 0 0 None) = Some (after_run (run_kill ++ goes 0 1))) as E1.
    { rewrite <-tsteps_one. by apply (after_run_app run_kill (goes 0 1)); vm_compute. }
    intros s1 E. rewrite E1 in E. apply (inj Some) in E. subst s1.
    split; [intros (r & b & H); vm_compute in H; discriminate|done].
  - by apply after_run_app; vm_compute.
  - vm_compute. reflexivity.
  - rewrite app_assoc, <-tsteps_one. by apply after_run_app; vm_compute.
  - vm_compute. reflexivity.
  - split; [exact Q|exact R].
Defined.
