(* ===== verification/Wg.v ===== *)
(** * WireGuard: transport data messages

    kernel/net/if_wg.c: the sliding window against replays, the checks on the
    receive path of data messages in the order the code makes them, the message
    counter and the limits of a session.  The AEAD with the session's keys, the
    routing table, allocation and the clock are parameters. *)

From stdpp Require Import base numbers list.
From S2P Require Import Prelude Sysctl.

(** ** The sliding window *)

Definition SLIWIN_BITS : Z := 2048.
Definition SLIWIN_BPW : Z := 32.
Definition SLIWIN_WORDS : Z := 64.
Definition SLIWIN_NPKT : Z := SLIWIN_BITS - 32.

Definition EAUTH : Z := 80.

Record sliwin := mk_sw {
  sw_B : list Z;
  sw_T : Z
}.

Definition set_sw_B (v : list Z) (r : sliwin) : sliwin :=
  mk_sw v (sw_T r).
Definition set_sw_T (v : Z) (r : sliwin) : sliwin :=
  mk_sw (sw_B r) v.

Definition sliwin_reset : sliwin := mk_sw (replicate (Z.to_nat SLIWIN_WORDS) 0) 0.

Definition sliwin_check_fast (W : sliwin) (S : Z) : Z :=
  if u64 (S + SLIWIN_NPKT) <? sw_T W then EAUTH else 0.

(** The words [i + k + 1], for [k] below [n], are cleared. *)
Fixpoint clear_words (n : nat) (i : Z) (B : list Z) : list Z :=
  match n with
  | O => B
  | S n => <[Z.to_nat (u64 (i + Z.of_nat n + 1) mod SLIWIN_WORDS) := 0]> (clear_words n i B)
  end.

Definition sliwin_advance (W : sliwin) (S : Z) : sliwin :=
  let i := sw_T W / SLIWIN_BPW in
  let j := S / SLIWIN_BPW in
  mk_sw (clear_words (Z.to_nat (Z.min (j - i) SLIWIN_WORDS)) i (sw_B W)) S.

Definition sliwin_update (W : sliwin) (S : Z) : Z * sliwin :=
  if u64 (S + SLIWIN_NPKT) <? sw_T W then (EAUTH, W)
  else
    let W := if sw_T W <? S then sliwin_advance W S else W in
    let word := Z.to_nat ((S / SLIWIN_BPW) mod SLIWIN_WORDS) in
    let bit := S mod SLIWIN_BPW in
    let B := default 0 (sw_B W !! word) in
    if nz (Z.land B (Z.shiftl 1 bit)) then (EAUTH, W)
    else (0, set_sw_B (<[word := Z.lor B (Z.shiftl 1 bit)]> (sw_B W)) W).

(** ** Sessions and peers *)

Inductive wgs_state_t := WGS_STATE_UNKNOWN | WGS_STATE_INIT_ACTIVE | WGS_STATE_INIT_PASSIVE
  | WGS_STATE_ESTABLISHED | WGS_STATE_DESTROYING.

#[export] Instance wgs_state_dec : EqDecision wgs_state_t.
Proof. solve_decision. Defined.

Record wg_session := mk_wgs {
  wgs_state : wgs_state_t;
  wgs_time_established : Z;
  wgs_time_last_data_sent : Z;
  wgs_force_rekey : bool;
  wgs_is_initiator : bool;
  wgs_send_counter : Z;
  wgs_recvwin : sliwin
}.

Definition set_wgs_state (v : wgs_state_t) (r : wg_session) : wg_session :=
  mk_wgs v (wgs_time_established r) (wgs_time_last_data_sent r)
    (wgs_force_rekey r) (wgs_is_initiator r) (wgs_send_counter r) (wgs_recvwin
    r).
Definition set_wgs_time_established (v : Z) (r : wg_session) : wg_session :=
  mk_wgs (wgs_state r) v (wgs_time_last_data_sent r) (wgs_force_rekey r)
    (wgs_is_initiator r) (wgs_send_counter r) (wgs_recvwin r).
Definition set_wgs_time_last_data_sent (v : Z) (r : wg_session) : wg_session :=
  mk_wgs (wgs_state r) (wgs_time_established r) v (wgs_force_rekey r)
    (wgs_is_initiator r) (wgs_send_counter r) (wgs_recvwin r).
Definition set_wgs_force_rekey (v : bool) (r : wg_session) : wg_session :=
  mk_wgs (wgs_state r) (wgs_time_established r) (wgs_time_last_data_sent r) v
    (wgs_is_initiator r) (wgs_send_counter r) (wgs_recvwin r).
Definition set_wgs_is_initiator (v : bool) (r : wg_session) : wg_session :=
  mk_wgs (wgs_state r) (wgs_time_established r) (wgs_time_last_data_sent r)
    (wgs_force_rekey r) v (wgs_send_counter r) (wgs_recvwin r).
Definition set_wgs_send_counter (v : Z) (r : wg_session) : wg_session :=
  mk_wgs (wgs_state r) (wgs_time_established r) (wgs_time_last_data_sent r)
    (wgs_force_rekey r) (wgs_is_initiator r) v (wgs_recvwin r).
Definition set_wgs_recvwin (v : sliwin) (r : wg_session) : wg_session :=
  mk_wgs (wgs_state r) (wgs_time_established r) (wgs_time_last_data_sent r)
    (wgs_force_rekey r) (wgs_is_initiator r) (wgs_send_counter r) v.

(** [wgp_enqueued] counts workqueue_enqueue; addresses with their ports are
    numbers. *)
Record wg_peer := mk_wgp {
  wgp_tasks : Z;
  wgp_enqueued : nat;
  wgp_last_sent : Z;
  wgp_endpoint : Z;
  wgp_endpoint0 : Z;
  wgp_endpoint_available : bool;
  wgp_endpoint_changing : bool
}.

Definition set_wgp_tasks (v : Z) (r : wg_peer) : wg_peer :=
  mk_wgp v (wgp_enqueued r) (wgp_last_sent r) (wgp_endpoint r) (wgp_endpoint0
    r) (wgp_endpoint_available r) (wgp_endpoint_changing r).
Definition set_wgp_enqueued (v : nat) (r : wg_peer) : wg_peer :=
  mk_wgp (wgp_tasks r) v (wgp_last_sent r) (wgp_endpoint r) (wgp_endpoint0 r)
    (wgp_endpoint_available r) (wgp_endpoint_changing r).
Definition set_wgp_last_sent (v : Z) (r : wg_peer) : wg_peer :=
  mk_wgp (wgp_tasks r) (wgp_enqueued r) v (wgp_endpoint r) (wgp_endpoint0 r)
    (wgp_endpoint_available r) (wgp_endpoint_changing r).
Definition set_wgp_endpoint (v : Z) (r : wg_peer) : wg_peer :=
  mk_wgp (wgp_tasks r) (wgp_enqueued r) (wgp_last_sent r) v (wgp_endpoint0 r)
    (wgp_endpoint_available r) (wgp_endpoint_changing r).
Definition set_wgp_endpoint0 (v : Z) (r : wg_peer) : wg_peer :=
  mk_wgp (wgp_tasks r) (wgp_enqueued r) (wgp_last_sent r) (wgp_endpoint r) v
    (wgp_endpoint_available r) (wgp_endpoint_changing r).
Definition set_wgp_endpoint_available (v : bool) (r : wg_peer) : wg_peer :=
  mk_wgp (wgp_tasks r) (wgp_enqueued r) (wgp_last_sent r) (wgp_endpoint r)
    (wgp_endpoint0 r) v (wgp_endpoint_changing r).
Definition set_wgp_endpoint_changing (v : bool) (r : wg_peer) : wg_peer :=
  mk_wgp (wgp_tasks r) (wgp_enqueued r) (wgp_last_sent r) (wgp_endpoint r)
    (wgp_endpoint0 r) (wgp_endpoint_available r) v.

Definition WG_REKEY_AFTER_MESSAGES : Z := 2 ^ 60.
Definition WG_REJECT_AFTER_MESSAGES : Z := UINT64_MAX - 2 ^ 13.
Definition WG_REKEY_AFTER_TIME : Z := 120.
Definition WG_REJECT_AFTER_TIME : Z := 180.
Definition WG_REKEY_TIMEOUT : Z := 5.
Definition WG_KEEPALIVE_TIMEOUT : Z := 10.

Definition WGP_TASK_SEND_INIT_MESSAGE : Z := 0x1.
Definition WGP_TASK_ESTABLISH_SESSION : Z := 0x4.
Definition WGP_TASK_ENDPOINT_CHANGED : Z := 0x8.
Definition WGP_TASK_SEND_KEEPALIVE_MESSAGE : Z := 0x10.

Definition WG_AUTHTAG_LEN : Z := 16.
Definition SIZEOF_MSG_DATA : Z := 16.
Definition MCLBYTES : Z := 2048.

(** What wg_clear_states resets of the state modelled here. *)
Definition wg_clear_states (wgs : wg_session) : wg_session :=
  set_wgs_recvwin sliwin_reset (set_wgs_send_counter 0 wgs).

Definition wg_session_get_send_counter (wgs : wg_session) : Z := wgs_send_counter wgs.

Definition wg_session_inc_send_counter (wgs : wg_session) : Z * wg_session :=
  let nv := u64 (wgs_send_counter wgs + 1) in
  (u64 (nv - 1), set_wgs_send_counter nv wgs).

Definition wg_schedule_peer_task (task : Z) (wgp : wg_peer) : wg_peer :=
  let wgp := if wgp_tasks wgp =? 0 then set_wgp_enqueued (S (wgp_enqueued wgp)) wgp else wgp in
  set_wgp_tasks (Z.lor (wgp_tasks wgp) task) wgp.

Definition wg_change_endpoint (new : Z) (wgp : wg_peer) : wg_peer :=
  let wgp := set_wgp_endpoint0 new wgp in
  let wgsa_prev := wgp_endpoint wgp in
  let wgp := set_wgp_endpoint (wgp_endpoint0 wgp) wgp in
  let wgp := set_wgp_endpoint0 wgsa_prev wgp in
  let wgp := set_wgp_endpoint_available true wgp in
  wg_schedule_peer_task WGP_TASK_ENDPOINT_CHANGED wgp.

Definition wg_update_endpoint_if_necessary (src : Z) (wgp : wg_peer) : wg_peer :=
  if negb (src =? wgp_endpoint wgp)
  then
    let changing := wgp_endpoint_changing wgp in
    let wgp := set_wgp_endpoint_changing true wgp in
    if changing then wgp else wg_change_endpoint src wgp
  else wgp.

Definition wg_need_to_send_init_message (now : Z) (wgs : wg_session) : bool :=
  wgs_is_initiator wgs && (wgs_time_last_data_sent wgs =? 0)
  && (WG_REJECT_AFTER_TIME - WG_KEEPALIVE_TIMEOUT - WG_REKEY_TIMEOUT
      <=? u32 (now - wgs_time_established wgs)).

Definition wg_session_hit_limits (now : Z) (wgs : wg_session) : bool :=
  (WG_REJECT_AFTER_TIME <? u32 (now - wgs_time_established wgs))
  || (WG_REJECT_AFTER_MESSAGES <? wg_session_get_send_counter wgs).

(** ** The inner packet *)

Inductive af_t := AF_INET | AF_INET6.

Definition byte_at (p : list Z) (i : nat) : Z := default 0 (p !! i).
Definition be16 (p : list Z) (i : nat) : Z := byte_at p i * 256 + byte_at p (S i).

Definition wg_validate_inner_packet (packet : list Z) (decrypted_len : Z) : option af_t :=
  if decrypted_len <? 20 then None
  else
    let ip_v := byte_at packet 0 / 16 in
    if ip_v =? 4 then
      let packet_len := be16 packet 2 in
      if decrypted_len <? packet_len then None else Some AF_INET
    else if ip_v =? 6 then
      if decrypted_len <? 40 then None
      else
        let packet_len := (40 + be16 packet 4) mod 2 ^ 16 in
        if decrypted_len <? packet_len then None else Some AF_INET6
    else None.

(** ** Receiving *)

(** A data message: its source, counter and payload, with whether the buffers for it
    could be had. *)
Record data_msg := mk_msg {
  msg_src : Z;
  wgmd_counter : Z;
  wgmd_packet : list Z;
  msg_contig : bool;
  msg_encbuf : bool;
  msg_mbuf : bool
}.

Definition set_msg_src (v : Z) (r : data_msg) : data_msg :=
  mk_msg v (wgmd_counter r) (wgmd_packet r) (msg_contig r) (msg_encbuf r)
    (msg_mbuf r).
Definition set_wgmd_counter (v : Z) (r : data_msg) : data_msg :=
  mk_msg (msg_src r) v (wgmd_packet r) (msg_contig r) (msg_encbuf r) (msg_mbuf
    r).
Definition set_wgmd_packet (v : list Z) (r : data_msg) : data_msg :=
  mk_msg (msg_src r) (wgmd_counter r) v (msg_contig r) (msg_encbuf r)
    (msg_mbuf r).
Definition set_msg_contig (v : bool) (r : data_msg) : data_msg :=
  mk_msg (msg_src r) (wgmd_counter r) (wgmd_packet r) v (msg_encbuf r)
    (msg_mbuf r).
Definition set_msg_encbuf (v : bool) (r : data_msg) : data_msg :=
  mk_msg (msg_src r) (wgmd_counter r) (wgmd_packet r) (msg_contig r) v
    (msg_mbuf r).
Definition set_msg_mbuf (v : bool) (r : data_msg) : data_msg :=
  mk_msg (msg_src r) (wgmd_counter r) (wgmd_packet r) (msg_contig r)
    (msg_encbuf r) v.

(** Why a message was dropped, or what became of a genuine one: delivered to
    the network stack or not. *)
Inductive verdict :=
  | DROP_STATE | DROP_OLD | DROP_WINDOW | DROP_SHORT | DROP_NOMEM | DROP_LONG | DROP_FORGED | DROP_REPLAY
  | GENUINE (delivered : option (af_t * list Z)).

Section data.

(** wg_algo_aead_dec with the receiving key of the session, and
    wg_validate_route with the peer. *)
Context (aead_dec : Z -> list Z -> option (list Z)).
Context (validate_route : af_t -> list Z -> bool).

Definition input_packet (packet : list Z) (decrypted_len : Z) : option (af_t * list Z) :=
  match wg_validate_inner_packet packet decrypted_len with
  | Some af => if validate_route af packet then Some (af, packet) else None
  | None => None
  end.

(** The label update_state. *)
Definition update_state (state : wgs_state_t) (up : nat -> Z) (wgs : wg_session) (wgp : wg_peer) : wg_peer :=
  if bool_decide (state = WGS_STATE_INIT_PASSIVE)
  then wg_schedule_peer_task WGP_TASK_ESTABLISH_SESSION wgp
  else
    let wgp := if wg_need_to_send_init_message (up 1%nat) wgs
               then wg_schedule_peer_task WGP_TASK_SEND_INIT_MESSAGE wgp else wgp in
    let now := up 2%nat in
    if WG_KEEPALIVE_TIMEOUT <=? u32 (now - wgs_time_last_data_sent wgs)
    then wg_schedule_peer_task WGP_TASK_SEND_KEEPALIVE_MESSAGE wgp else wgp.

Definition encrypted_len (m : data_msg) : Z := Z.of_nat (length (wgmd_packet m)).
Definition decrypted_len (m : data_msg) : Z := encrypted_len m - WG_AUTHTAG_LEN.

(** The checks up to and with the decryption, which take no lock: a reason to
    drop the message, or the state read and the plaintext. *)
Definition wg_data_check (m : data_msg) (now : Z) (wgs : wg_session) : verdict + wgs_state_t * list Z :=
  let state := wgs_state wgs in
  if bool_decide (state = WGS_STATE_UNKNOWN) || bool_decide (state = WGS_STATE_INIT_ACTIVE)
  then inl DROP_STATE
  else
    let age := u32 (now - wgs_time_established wgs) in
    if WG_REJECT_AFTER_TIME <=? age then inl DROP_OLD
    else if nz (sliwin_check_fast (wgs_recvwin wgs) (wgmd_counter m)) then inl DROP_WINDOW
    else if encrypted_len m <? WG_AUTHTAG_LEN then inl DROP_SHORT
    else if negb (msg_contig m) && negb (msg_encbuf m) then inl DROP_NOMEM
    else if MCLBYTES <? decrypted_len m then inl DROP_LONG
    else if negb (msg_mbuf m) then inl DROP_NOMEM
    else
      match aead_dec (wgmd_counter m) (wgmd_packet m) with
      | None => inl DROP_FORGED
      | Some decrypted_buf => inr (state, decrypted_buf)
      end.

(** The rest, from the update of the window under its lock. *)
Definition wg_data_accept (m : data_msg) (state : wgs_state_t) (decrypted_buf : list Z) (up : nat -> Z)
    (wgs : wg_session) (wgp : wg_peer) : verdict * wg_session * wg_peer :=
  let '(error, window) := sliwin_update (wgs_recvwin wgs) (wgmd_counter m) in
  let wgs := set_wgs_recvwin window wgs in
  if nz error then (DROP_REPLAY, wgs, wgp)
  else (GENUINE (input_packet decrypted_buf (decrypted_len m)), wgs,
        update_state state up wgs (wg_update_endpoint_if_necessary (msg_src m) wgp)).

(** [up n] is time_uptime32 at its [n]th reading. *)
Definition wg_handle_msg_data (m : data_msg) (up : nat -> Z) (wgs : wg_session) (wgp : wg_peer)
    : verdict * wg_session * wg_peer :=
  match wg_data_check m (up 0%nat) wgs with
  | inl v => (v, wgs, wgp)
  | inr (state, decrypted_buf) => wg_data_accept m state decrypted_buf up wgs wgp
  end.

(** ** Sending

    [contig], [padbuf], [mbuf] and [error] answer for m_ensure_contig,
    kmem_intr_alloc, wg_get_mbuf and the send operation.  The result has the
    counter the message was sealed with; interface statistics are left out. *)
Definition wg_send_data_msg (mlen : Z) (contig padbuf mbuf : bool) (error : Z) (now : Z)
    (wgs : wg_session) (wgp : wg_peer) : option Z * wg_session * wg_peer :=
  if nz mlen && negb contig && negb padbuf then (None, wgs, wgp)
  else if negb mbuf then (None, wgs, wgp)
  else
    let '(counter, wgs) := wg_session_inc_send_counter wgs in
    if nz error then (Some counter, wgs, wgp)
    else
      let wgs := set_wgs_time_last_data_sent (Z.max now 1) wgs in
      let wgp := set_wgp_last_sent now wgp in
      let '(wgs, wgp) :=
        if wgs_is_initiator wgs && (WG_REKEY_AFTER_TIME <=? u32 (now - wgs_time_established wgs))
        then (set_wgs_force_rekey true wgs, wg_schedule_peer_task WGP_TASK_SEND_INIT_MESSAGE wgp)
        else (wgs, wgp) in
      let '(wgs, wgp) :=
        if WG_REKEY_AFTER_MESSAGES <=? wg_session_get_send_counter wgs
        then (set_wgs_force_rekey true wgs, wg_schedule_peer_task WGP_TASK_SEND_INIT_MESSAGE wgp)
        else (wgs, wgp) in
      (Some counter, wgs, wgp).

End data.

(** ** The window as a set

    [seen] is what was accepted; the word of a number in the window has its bit
    set exactly if it was. *)

Definition highest (seen : list Z) : Z := foldr Z.max 0 seen.
Definition word (B : list Z) (w : Z) : Z := default 0 (B !! Z.to_nat (w mod SLIWIN_WORDS)).

Record sw_inv (W : sliwin) (seen : list Z) : Prop := {
  sw_len : length (sw_B W) = 64%nat;
  sw_top : sw_T W = highest seen;
  sw_range : Forall in_u64 seen;
  sw_bits : forall S, 0 <= S -> sw_T W / 32 - 63 <= S / 32 <= sw_T W / 32 ->
    Z.testbit (word (sw_B W) (S / 32)) (S mod 32) = bool_decide (S ∈ seen)
}.

Lemma highest_ge seen S : S ∈ seen -> S <= highest seen.
Proof.
  unfold highest. induction seen as [|x l IH]; [by intros ?%elem_of_nil|].
  intros [->|H]%elem_of_cons; simpl; [lia|]. specialize (IH H). lia.
Qed.

Lemma highest_range seen : Forall in_u64 seen -> in_u64 (highest seen).
Proof. unfold highest. induction 1; simpl; unfold in_u64 in *; lia. Qed.

Lemma clear_words_length n i B : length (clear_words n i B) = length B.
Proof. induction n; simpl; [done|]. by rewrite length_insert. Qed.

Lemma word_insert B w v w' : length B = 64%nat -> word (<[Z.to_nat (w mod SLIWIN_WORDS) := v]> B) w' =
  if decide (w mod SLIWIN_WORDS = w' mod SLIWIN_WORDS) then v else word B w'.
Proof.
  intros L. unfold word, SLIWIN_WORDS. rewrite list_lookup_insert.
  pose proof (Z.mod_pos_bound w 64 ltac:(lia)). pose proof (Z.mod_pos_bound w' 64 ltac:(lia)).
  repeat case_decide; try done; exfalso; lia.
Qed.

(** The words after word [i] are zero after clearing, ... *)
Lemma clear_words_hit n i B w k : length B = 64%nat -> 0 <= i -> i + Z.of_nat n < 2 ^ 64 ->
  0 <= k < Z.of_nat n -> (i + k + 1) mod SLIWIN_WORDS = w mod SLIWIN_WORDS -> word (clear_words n i B) w = 0.
Proof.
  intros L Hi. revert k. induction n as [|n IH]; intros k Hn Hk Hw; [lia|]. cbn [clear_words].
  rewrite word_insert by (by rewrite clear_words_length). case_decide as Hd; [done|].
  rewrite u64_id in Hd by (unfold in_u64; lia).
  apply (IH k); [lia| |done]. destruct (decide (k = Z.of_nat n)) as [->|]; [done|lia].
Qed.

(** ... and no other word changes. *)
Lemma clear_words_miss n i B w : length B = 64%nat -> 0 <= i -> i + Z.of_nat n < 2 ^ 64 ->
  (forall k, 0 <= k < Z.of_nat n -> (i + k + 1) mod SLIWIN_WORDS <> w mod SLIWIN_WORDS) ->
  word (clear_words n i B) w = word B w.
Proof.
  intros L Hi. induction n as [|n IH]; intros Hn Hw; [done|]. cbn [clear_words].
  rewrite word_insert by (by rewrite clear_words_length). rewrite u64_id by (unfold in_u64; lia).
  rewrite decide_False by (apply Hw; lia). apply IH; [lia|]. intros k Hk. apply Hw. lia.
Qed.

Lemma mod_window a b : a - 64 < b < a -> a mod 64 <> b mod 64.
Proof. zdm. Qed.

Lemma advance_word W S w : length (sw_B W) = 64%nat -> in_u64 S -> in_u64 (sw_T W) -> sw_T W < S ->
  S / 32 - 63 <= w <= S / 32 ->
  word (sw_B (sliwin_advance W S)) w = if sw_T W / 32 <? w then 0 else word (sw_B W) w.
Proof.
  intros L HS HT Hlt Hw. unfold sliwin_advance, SLIWIN_BPW. cbn [sw_B].
  set (i := sw_T W / 32). set (j := S / 32) in *. set (n := Z.to_nat (Z.min (j - i) SLIWIN_WORDS)).
  assert (0 <= i /\ i <= j /\ j < 2 ^ 59) as (Hi & Hij & Hj) by (unfold i, j, in_u64 in *; zdm).
  assert (Z.of_nat n = Z.min (j - i) 64) as En by (unfold n, SLIWIN_WORDS; lia).
  destruct (Z.ltb_spec i w).
  - apply (clear_words_hit _ _ _ _ ((w - i - 1) mod 64)); [done..|lia| |].
    + rewrite En. destruct (decide (j - i < 64)); [rewrite Z.mod_small; lia|].
      pose proof (Z.mod_pos_bound (w - i - 1) 64). lia.
    + unfold SLIWIN_WORDS. zdm.
  - apply clear_words_miss; [done..|lia|]. intros k Hk. unfold SLIWIN_WORDS. apply mod_window. lia.
Qed.

Lemma testbit_insert B S S' : length B = 64%nat -> 0 <= S -> 0 <= S' ->
  Z.testbit (word (<[Z.to_nat ((S / 32) mod SLIWIN_WORDS) := Z.lor (word B (S / 32)) (Z.shiftl 1 (S mod 32))]> B) (S' / 32)) (S' mod 32)
  = bool_decide ((S / 32) mod 64 = (S' / 32) mod 64 /\ S mod 32 = S' mod 32)
    || Z.testbit (word B (S' / 32)) (S' mod 32).
Proof.
  intros L H H'. rewrite word_insert by done. unfold SLIWIN_WORDS. case_decide as Hd.
  - rewrite Z.lor_spec, Z.shiftl_1_l, Z.pow2_bits_eqb by zdm.
    assert (word B (S / 32) = word B (S' / 32)) as -> by (unfold word, SLIWIN_WORDS; by rewrite Hd).
    rewrite orb_comm. f_equal. destruct (Z.eqb_spec (S mod 32) (S' mod 32)).
    + by rewrite bool_decide_eq_true_2.
    + by rewrite bool_decide_eq_false_2 by tauto.
  - by rewrite bool_decide_eq_false_2 by tauto.
Qed.

Lemma land_bit B n : 0 <= n -> nz (Z.land B (Z.shiftl 1 n)) = Z.testbit B n.
Proof.
  intros Hn. unfold nz. rewrite Z.shiftl_1_l. destruct (Z.eqb_spec (Z.land B (2 ^ n)) 0) as [E|E]; simpl.
  - apply (f_equal (fun z => Z.testbit z n)) in E.
    by rewrite Z.land_spec, Z.pow2_bits_true, Z.bits_0, andb_true_r in E.
  - destruct (Z.testbit B n) eqn:Eb; [done|]. exfalso. apply E. apply Z.bits_inj_0. intros m.
    rewrite Z.land_spec, Z.pow2_bits_eqb by done. destruct (Z.eqb_spec n m) as [<-|]; [by rewrite Eb|apply andb_false_r].
Qed.

Lemma sliwin_reset_inv : sw_inv sliwin_reset [].
Proof.
  split; try done. intros S HS Hw. rewrite bool_decide_eq_false_2 by (by intros ?%elem_of_nil).
  unfold word, sliwin_reset. cbn [sw_B].
  destruct (replicate (Z.to_nat SLIWIN_WORDS) 0 !! Z.to_nat (S / 32 mod SLIWIN_WORDS)) as [x|] eqn:E; simpl;
    [|apply Z.bits_0].
  apply lookup_replicate in E as [-> _]. apply Z.bits_0.
Qed.

(** The window moved up to a number above it, which was not seen. *)
Lemma sliwin_advance_bits W seen S : sw_inv W seen -> in_u64 S -> sw_T W < S ->
  length (sw_B (sliwin_advance W S)) = 64%nat /\
  forall S', 0 <= S' -> S / 32 - 63 <= S' / 32 <= S / 32 ->
    Z.testbit (word (sw_B (sliwin_advance W S)) (S' / 32)) (S' mod 32) = bool_decide (S' ∈ seen).
Proof.
  intros [L T R Bt] HS Hlt. pose proof (highest_range _ R) as HT. rewrite <-T in HT.
  split; [simpl; by rewrite clear_words_length|]. intros S' H' Hw. rewrite advance_word by done.
  destruct (Z.ltb_spec (sw_T W / 32) (S' / 32)).
  - rewrite Z.bits_0. symmetry. apply bool_decide_eq_false_2. intros Hin%highest_ge. rewrite <-T in Hin.
    pose proof (Z.div_le_mono S' (sw_T W) 32). lia.
  - apply Bt; [done|]. pose proof (Z.div_le_mono (sw_T W) S 32). lia.
Qed.

(** An update accepts exactly the new numbers that are not too old. *)
Lemma sliwin_update_spec W seen S : sw_inv W seen -> in_u64 S ->
  if bool_decide (S ∉ seen) && (highest seen <=? u64 (S + SLIWIN_NPKT))
  then exists W', sliwin_update W S = (0, W') /\ sw_inv W' (S :: seen)
  else sliwin_update W S = (EAUTH, W).
Proof.
  intros I HS. pose proof I as [L T R Bt]. unfold sliwin_update. rewrite T.
  destruct (Z.ltb_spec (u64 (S + SLIWIN_NPKT)) (highest seen)) as [Hold|Hnew].
  { rewrite (proj2 (Z.leb_gt _ _)) by done. by rewrite andb_false_r. }
  rewrite (proj2 (Z.leb_le _ _)) by done. rewrite andb_true_r.
  pose proof (highest_range _ R) as HT.
  set (W1 := if highest seen <? S then sliwin_advance W S else W).
  assert (length (sw_B W1) = 64%nat /\ sw_T W1 = Z.max S (highest seen) /\
    (forall S', 0 <= S' -> sw_T W1 / 32 - 63 <= S' / 32 <= sw_T W1 / 32 ->
       Z.testbit (word (sw_B W1) (S' / 32)) (S' mod 32) = bool_decide (S' ∈ seen)) /\
    sw_T W1 / 32 - 63 <= S / 32 <= sw_T W1 / 32) as (L1 & T1 & B1 & HS1).
  { unfold W1. destruct (Z.ltb_spec (highest seen) S).
    - destruct (sliwin_advance_bits W seen S I HS) as [? ?]; [lia|]. simpl. split_and!; try done; lia.
    - split; [done|]. split; [lia|]. split; [done|]. rewrite T. unfold SLIWIN_NPKT, SLIWIN_BITS, u64, in_u64 in *.
      split; [|by apply Z.div_le_mono].
      assert (S + (2048 - 32) < 2 ^ 64) by zdm. rewrite Z.mod_small in Hnew by lia. zdm. }
  change (default 0 (sw_B W1 !! Z.to_nat ((S / SLIWIN_BPW) mod SLIWIN_WORDS))) with (word (sw_B W1) (S / 32)).
  unfold SLIWIN_BPW. rewrite land_bit by zdm. rewrite B1 by (unfold in_u64 in *; lia || done).
  destruct (decide (S ∈ seen)) as [Hin|Hin].
  - rewrite (bool_decide_eq_true_2 (S ∈ seen)), (bool_decide_eq_false_2 (S ∉ seen)) by tauto.
    unfold W1. by rewrite (proj2 (Z.ltb_ge _ _)) by (by apply highest_ge).
  - rewrite (bool_decide_eq_false_2 (S ∈ seen)), (bool_decide_eq_true_2 (S ∉ seen)) by tauto.
    eexists. split; [done|]. split; simpl.
    + by rewrite length_insert.
    + exact T1.
    + by constructor.
    + intros S' H' Hw. rewrite testbit_insert by (unfold in_u64 in *; lia || done). rewrite B1 by done.
      apply eq_true_iff_eq. rewrite orb_true_iff, !bool_decide_eq_true, elem_of_cons. split; [|intros [->|?]; auto].
      intros [[E1 E2]|?]; [left|by right]. unfold in_u64 in HS. zdm.
Qed.

(** ** Promises *)

Fixpoint sliwin_run (W : sliwin) (l : list Z) : list bool :=
  match l with
  | [] => []
  | x :: l => let '(e, W) := sliwin_update W x in negb (nz e) :: sliwin_run W l
  end.

(** The window as it is meant: a number is accepted if it was not before and is
    at most SLIWIN_NPKT below the highest one accepted. *)
Fixpoint set_run (seen : list Z) (l : list Z) : list bool :=
  match l with
  | [] => []
  | x :: l =>
      let ok := bool_decide (x ∉ seen) && (highest seen <=? x + SLIWIN_NPKT) in
      ok :: set_run (if ok then x :: seen else seen) l
  end.

(** The counters a peer may use: far from the end of 64 bits. *)
Definition usable (S : Z) : Prop := 0 <= S <= WG_REJECT_AFTER_MESSAGES.

Lemma usable_u64 S : usable S -> in_u64 S /\ u64 (S + SLIWIN_NPKT) = S + SLIWIN_NPKT.
Proof.
  unfold usable, WG_REJECT_AFTER_MESSAGES, UINT64_MAX, SLIWIN_NPKT, SLIWIN_BITS. intros H. split; [unfold in_u64; lia|].
  apply u64_id. unfold in_u64. lia.
Qed.

Lemma sliwin_run_set l : forall W seen, sw_inv W seen -> Forall usable l -> sliwin_run W l = set_run seen l.
Proof.
  induction l as [|S l IH]; intros W seen I F; [done|]. inversion_clear F as [|? ? HS Fl].
  cbn [sliwin_run set_run]. destruct (usable_u64 S HS) as [Hu E]. pose proof (sliwin_update_spec W seen S I Hu) as Up. rewrite E in Up.
  destruct (bool_decide (S ∉ seen) && (highest seen <=? S + SLIWIN_NPKT)).
  - destruct Up as (W' & -> & I'). simpl. f_equal. by apply IH.
  - rewrite Up. simpl. f_equal. by apply IH.
Qed.

(** C13. For any sequence of message counters up to WG_REJECT_AFTER_MESSAGES the sliding
    window accepts exactly those that a set would: the ones not accepted before and not
    more than SLIWIN_NPKT below the highest accepted. (In the last SLIWIN_NPKT counters
    of 64 bits the sum in the check wraps and new counters are refused: sliwin_wraps.)
    *)
Theorem sliwin_refines_set l : Forall usable l -> sliwin_run sliwin_reset l = set_run [] l.
Proof. intros F. by apply sliwin_run_set; [apply sliwin_reset_inv|]. Qed.

(** Past that the sum of the check wraps around: a counter that is new and the
    highest is refused. *)
Example sliwin_wraps : sliwin_run sliwin_reset [2 ^ 64 - 100; 2 ^ 64 - 50] = [true; false] /\
  set_run [] [2 ^ 64 - 100; 2 ^ 64 - 50] = [true; true].
Proof. vm_compute. done. Qed.

(** What check_fast rejects without the lock, update rejects then and later. *)
Lemma sliwin_check_fast_final W W' S : sliwin_check_fast W S <> 0 -> sw_T W <= sw_T W' ->
  sliwin_update W' S = (EAUTH, W').
Proof.
  unfold sliwin_check_fast, sliwin_update. destruct (Z.ltb_spec (u64 (S + SLIWIN_NPKT)) (sw_T W)); [|done].
  intros _ H'. by rewrite (proj2 (Z.ltb_lt _ _)) by lia.
Qed.

(** ** Sessions at work

    Receivers run on several CPUs and share the session with senders: the checks
    of a message and its acceptance are separate steps, in any order with those
    of other messages; tasks and handshakes change the state of the session and
    everything of the peer in between.  The counters and the window are reset
    only where nobody uses the session. *)

Record wsys := mk_wsys {
  ws_wgs : wg_session;
  ws_wgp : wg_peer;
  ws_flying : list (data_msg * (wgs_state_t * list Z));
  ws_log : list (data_msg * verdict);
  ws_sent : list Z
}.

Definition set_ws_wgs (v : wg_session) (r : wsys) : wsys :=
  mk_wsys v (ws_wgp r) (ws_flying r) (ws_log r) (ws_sent r).
Definition set_ws_wgp (v : wg_peer) (r : wsys) : wsys :=
  mk_wsys (ws_wgs r) v (ws_flying r) (ws_log r) (ws_sent r).
Definition set_ws_flying (v : list (data_msg * (wgs_state_t * list Z))) (r : wsys) : wsys :=
  mk_wsys (ws_wgs r) (ws_wgp r) v (ws_log r) (ws_sent r).
Definition set_ws_log (v : list (data_msg * verdict)) (r : wsys) : wsys :=
  mk_wsys (ws_wgs r) (ws_wgp r) (ws_flying r) v (ws_sent r).
Definition set_ws_sent (v : list Z) (r : wsys) : wsys :=
  mk_wsys (ws_wgs r) (ws_wgp r) (ws_flying r) (ws_log r) v.

Inductive wg_event :=
  | EvCheck (m : data_msg) (now : Z)
  | EvAccept (k : nat) (up : nat -> Z)
  | EvSend (mlen : Z) (contig padbuf mbuf : bool) (error now : Z)
  | EvOther (state : wgs_state_t) (established last_data_sent : Z) (wgp : wg_peer).

Section messages.

Context (aead_dec : Z -> list Z -> option (list Z)).
Context (validate_route : af_t -> list Z -> bool).

Definition wg_exec (s : wsys) (ev : wg_event) : wsys :=
  match ev with
  | EvCheck m now =>
      match wg_data_check aead_dec m now (ws_wgs s) with
      | inl v => set_ws_log ((m, v) :: ws_log s) s
      | inr sp => set_ws_flying ((m, sp) :: ws_flying s) s
      end
  | EvAccept k up =>
      match ws_flying s !! k with
      | None => s
      | Some (m, (state, p)) =>
          let '(v, wgs, wgp) := wg_data_accept validate_route m state p up (ws_wgs s) (ws_wgp s) in
          mk_wsys wgs wgp (delete k (ws_flying s)) ((m, v) :: ws_log s) (ws_sent s)
      end
  | EvSend mlen contig padbuf mbuf error now =>
      let '(c, wgs, wgp) := wg_send_data_msg mlen contig padbuf mbuf error now (ws_wgs s) (ws_wgp s) in
      mk_wsys wgs wgp (ws_flying s) (ws_log s) (option_list c ++ ws_sent s)
  | EvOther state established last_data_sent wgp =>
      set_ws_wgs (set_wgs_time_last_data_sent last_data_sent (set_wgs_time_established established
        (set_wgs_state state (ws_wgs s)))) (set_ws_wgp wgp s)
  end.

Definition wg_execs (evs : list wg_event) (s : wsys) : wsys := foldl wg_exec s evs.

Definition wsys_start (wgs : wg_session) (wgp : wg_peer) : wsys := mk_wsys (wg_clear_states wgs) wgp [] [] [].

(** The counters of the messages taken for genuine, in a log with the newest
    first. *)
Fixpoint genuine (log : list (data_msg * verdict)) : list Z :=
  match log with
  | [] => []
  | (m, GENUINE _) :: log => wgmd_counter m :: genuine log
  | _ :: log => genuine log
  end.

Definition too_old (seen : list Z) (S : Z) : Prop := S + SLIWIN_NPKT < highest seen.

(** ... or taken for it, since the sum wraps around. *)
Definition passes_for_old (seen : list Z) (S : Z) : Prop :=
  too_old seen S \/ (2 ^ 64 <= S + SLIWIN_NPKT /\ S + SLIWIN_NPKT - 2 ^ 64 < highest seen).

Lemma wrapped_old seen S : in_u64 S -> u64 (S + SLIWIN_NPKT) < highest seen -> passes_for_old seen S.
Proof.
  unfold passes_for_old, too_old, in_u64, u64, SLIWIN_NPKT, SLIWIN_BITS. intros HS H.
  destruct (decide (S + (2048 - 32) < 2 ^ 64)); [rewrite Z.mod_small in H by lia; by left|right]. split; [lia|].
  replace ((S + (2048 - 32)) mod 2 ^ 64) with (S + (2048 - 32) - 2 ^ 64) in H; [lia|].
  rewrite <-(Z.mod_small (S + (2048 - 32) - 2 ^ 64) (2 ^ 64)) by lia. zdm.
Qed.

Lemma wrapped_new seen S : in_u64 S -> highest seen <= u64 (S + SLIWIN_NPKT) -> ~ too_old seen S.
Proof. unfold too_old, in_u64, u64, SLIWIN_NPKT, SLIWIN_BITS. intros HS H. pose proof (Z.mod_le (S + (2048 - 32)) (2 ^ 64)). lia. Qed.

(** What a verdict says of its message, after [seen] were taken for genuine. *)
Definition verdict_ok (seen : list Z) (m : data_msg) (v : verdict) : Prop :=
  match v with
  | GENUINE d =>
      wgmd_counter m ∉ seen /\ ~ too_old seen (wgmd_counter m) /\
      exists p, aead_dec (wgmd_counter m) (wgmd_packet m) = Some p /\
      d = match wg_validate_inner_packet p (decrypted_len m) with
          | Some af => if validate_route af p then Some (af, p) else None
          | None => None
          end
  | DROP_REPLAY => wgmd_counter m ∈ seen \/ passes_for_old seen (wgmd_counter m)
  | DROP_WINDOW => passes_for_old seen (wgmd_counter m)
  | DROP_FORGED => aead_dec (wgmd_counter m) (wgmd_packet m) = None
  | DROP_SHORT => encrypted_len m < WG_AUTHTAG_LEN
  | DROP_LONG => MCLBYTES < decrypted_len m
  | DROP_STATE | DROP_OLD | DROP_NOMEM => True
  end.

Fixpoint log_ok (log : list (data_msg * verdict)) : Prop :=
  match log with
  | [] => True
  | (m, v) :: log => verdict_ok (genuine log) m v /\ log_ok log
  end.

Record ws_inv (s : wsys) : Prop := {
  wsi_win : sw_inv (wgs_recvwin (ws_wgs s)) (genuine (ws_log s));
  wsi_log : log_ok (ws_log s);
  wsi_flying : Forall (fun x => in_u64 (wgmd_counter (fst x)) /\
    aead_dec (wgmd_counter (fst x)) (wgmd_packet (fst x)) = Some (snd (snd x))) (ws_flying s);
  wsi_counter : wgs_send_counter (ws_wgs s) = Z.of_nat (length (ws_sent s));
  wsi_sent : NoDup (ws_sent s);
  wsi_below : Forall (fun c => c < wgs_send_counter (ws_wgs s)) (ws_sent s)
}.

(** The checks drop a message for the reason they give, or it authenticates. *)
Lemma data_check_spec m now wgs seen : sw_inv (wgs_recvwin wgs) seen -> in_u64 (wgmd_counter m) ->
  match wg_data_check aead_dec m now wgs with
  | inl v => verdict_ok seen m v /\ (forall d, v <> GENUINE d)
  | inr (_, p) => aead_dec (wgmd_counter m) (wgmd_packet m) = Some p
  end.
Proof.
  intros I Hc. unfold wg_data_check. destruct (_ || _); [done|]. destruct (WG_REJECT_AFTER_TIME <=? _); [done|].
  destruct (nz (sliwin_check_fast _ _)) eqn:Ef.
  { split; [|done]. unfold sliwin_check_fast in Ef. rewrite (sw_top _ _ I) in Ef. simpl. apply wrapped_old; [done|].
    by destruct (Z.ltb_spec (u64 (wgmd_counter m + SLIWIN_NPKT)) (highest seen)). }
  destruct (Z.ltb_spec (encrypted_len m) WG_AUTHTAG_LEN); [done|]. destruct (negb _ && negb _); [done|].
  destruct (Z.ltb_spec MCLBYTES (decrypted_len m)); [done|]. destruct (negb (msg_mbuf m)); [done|].
  by destruct (aead_dec (wgmd_counter m) (wgmd_packet m)) eqn:E; simpl.
Qed.

(** The acceptance takes a new message and records it, or changes nothing. *)
Lemma data_accept_spec m state p up wgs wgp seen v wgs' wgp' :
  sw_inv (wgs_recvwin wgs) seen -> in_u64 (wgmd_counter m) ->
  aead_dec (wgmd_counter m) (wgmd_packet m) = Some p ->
  wg_data_accept validate_route m state p up wgs wgp = (v, wgs', wgp') ->
  verdict_ok seen m v /\ wgs_send_counter wgs' = wgs_send_counter wgs /\
  sw_inv (wgs_recvwin wgs') (if v is GENUINE _ then wgmd_counter m :: seen else seen).
Proof.
  intros I Hc Ed E. unfold wg_data_accept in E. pose proof (sliwin_update_spec _ _ _ I Hc) as U.
  destruct (bool_decide_reflect (wgmd_counter m ∉ seen)) as [Hn|Hn]; simpl in U.
  2: { rewrite U in E. simplify_eq/=. split; [left; by apply dec_stable|]. by destruct wgs. }
  destruct (Z.leb_spec (highest seen) (u64 (wgmd_counter m + SLIWIN_NPKT))).
  2: { rewrite U in E. simplify_eq/=. split; [right; by apply wrapped_old|]. by destruct wgs. }
  destruct U as (W' & EW & I'). rewrite EW in E. simplify_eq/=. split; [|done].
  split; [done|]. split; [by apply wrapped_new|]. by exists p.
Qed.

(** The counters of messages sent are the numbers of messages before them. *)
Lemma wg_send_counter_fresh mlen contig padbuf mbuf error now wgs wgp c wgs' wgp' :
  0 <= wgs_send_counter wgs < UINT64_MAX ->
  wg_send_data_msg mlen contig padbuf mbuf error now wgs wgp = (c, wgs', wgp') ->
  wgs_recvwin wgs' = wgs_recvwin wgs /\
  match c with
  | Some n => n = wgs_send_counter wgs /\ wgs_send_counter wgs' = wgs_send_counter wgs + 1
  | None => wgs' = wgs /\ wgp' = wgp
  end.
Proof.
  intros Hc. unfold wg_send_data_msg, wg_session_inc_send_counter.
  rewrite (u64_id (wgs_send_counter wgs + 1)) by (unfold in_u64, UINT64_MAX in *; lia).
  rewrite u64_id by (unfold in_u64, UINT64_MAX in *; lia).
  repeat case_match; intros; simplify_eq/=; try done; split; try done; split; lia.
Qed.

Definition ev_ok (ev : wg_event) : Prop :=
  match ev with EvCheck m _ => in_u64 (wgmd_counter m) | _ => True end.

Lemma genuine_cons m v log :
  genuine ((m, v) :: log) = if v is GENUINE _ then wgmd_counter m :: genuine log else genuine log.
Proof. by destruct v. Qed.

Lemma wg_exec_inv s ev : ws_inv s -> ev_ok ev -> Z.of_nat (length (ws_sent s)) < UINT64_MAX ->
  ws_inv (wg_exec s ev) /\ (length (ws_sent (wg_exec s ev)) <= S (length (ws_sent s)))%nat.
Proof.
  intros I Hev Hb. pose proof I as [Iw Il If Ic Is Ib]. destruct ev as [m now|k up|mlen c1 c2 c3 e now|st te tl wgp]; simpl.
  - pose proof (data_check_spec m now _ _ Iw Hev) as H. destruct (wg_data_check aead_dec m now (ws_wgs s)) as [v|[st p]]; simpl.
    + destruct H as [Hv Hg]. split; [|lia]. split; simpl; try done.
      destruct v; try done. by destruct (Hg delivered).
    + split; [|lia]. split; simpl; try done. by constructor.
  - destruct (ws_flying s !! k) as [[m [st p]]|] eqn:Ek; [|split; [done|lia]].
    destruct (proj1 (Forall_lookup _ _) If k _ Ek) as [Hc Hp]; simpl in Hc, Hp.
    destruct (wg_data_accept validate_route m st p up (ws_wgs s) (ws_wgp s)) as [[v wgs'] wgp'] eqn:E.
    destruct (data_accept_spec _ _ _ _ _ _ _ _ _ _ Iw Hc Hp E) as (Hv & Hs & Hw). simpl. split; [|lia].
    split; simpl; rewrite ?genuine_cons, ?Hs; try done. by apply Forall_delete.
  - destruct (wg_send_data_msg mlen c1 c2 c3 e now (ws_wgs s) (ws_wgp s)) as [[c wgs'] wgp'] eqn:E.
    destruct (wg_send_counter_fresh _ _ _ _ _ _ _ _ _ _ _ ltac:(rewrite Ic; lia) E) as [Er H].
    destruct c as [n|]; simpl.
    + destruct H as [-> Hc]. split; [|lia]. split; simpl; rewrite ?Er, ?Hc; try done; [lia| |].
      * constructor; [|done]. intros Hin. apply (proj1 (Forall_forall _ _) Ib) in Hin. lia.
      * constructor; [lia|]. eapply Forall_impl; [exact Ib|]. simpl. lia.
    + destruct H as [-> ->]. split; [|lia]. by split.
  - split; [|lia]. by split.
Qed.

Lemma wg_execs_inv evs : forall s, ws_inv s -> Forall ev_ok evs ->
  Z.of_nat (length (ws_sent s) + length evs) <= UINT64_MAX -> ws_inv (wg_execs evs s).
Proof.
  induction evs as [|ev evs IH]; intros s I F Hb; [done|]. inversion_clear F as [|? ? Hev Fe]. simpl in *.
  destruct (wg_exec_inv s ev I Hev) as [I' L]; [lia|]. apply IH; [done..|lia].
Qed.

Lemma wsys_start_inv wgs wgp : ws_inv (wsys_start wgs wgp).
Proof. split; try apply NoDup_nil_2; try apply Forall_nil_2; try done. apply sliwin_reset_inv. Qed.

Lemma log_ok_genuine log : log_ok log -> NoDup (genuine log).
Proof.
  induction log as [|[m v] log IH]; [constructor|]. intros [Hv Hl]. rewrite genuine_cons.
  destruct v; try by apply IH. constructor; [apply Hv|by apply IH].
Qed.


(** A message handled at one go is its two steps one after the other. *)
Lemma wg_exec_handle m up s : let '(v, wgs, wgp) :=
    wg_handle_msg_data aead_dec validate_route m up (ws_wgs s) (ws_wgp s) in
  wg_execs (EvCheck m (up 0%nat) ::
    if wg_data_check aead_dec m (up 0%nat) (ws_wgs s) is inr _ then [EvAccept 0 up] else []) s =
  mk_wsys wgs wgp (ws_flying s) ((m, v) :: ws_log s) (ws_sent s).
Proof.
  unfold wg_handle_msg_data. cbn [wg_execs foldl wg_exec].
  destruct (wg_data_check aead_dec m (up 0%nat) (ws_wgs s)) as [v|[st p]]; destruct s; simpl; [done|].
  by destruct (wg_data_accept _ _ _ _ _ _ _) as [[v wgs'] wgp'].
Qed.

End messages.

(** ** At work *)

(** A plaintext is its ciphertext without the tag, if the tag is [1]. *)
Definition toy_dec (counter : Z) (c : list Z) : option (list Z) :=
  if nth 0 c 0 =? 1 then Some (drop 16 c) else None.

Definition wgs_ex : wg_session := mk_wgs WGS_STATE_ESTABLISHED 1000 0 false true 0 sliwin_reset.
Definition wgp_ex : wg_peer := mk_wgp 0 0 0 42 0 true false.
Definition msg_ex (S : Z) : data_msg :=
  mk_msg 42 S (1 :: replicate 15 0 ++ [69; 0; 0; 20] ++ replicate 16 0) true true true.

(** Two copies of one message pass the checks before either is accepted; then
    messages out of order, replays, a jump past the window, and two messages
    sent. *)
Definition evs_ex : list wg_event :=
  let ck S := EvCheck (msg_ex S) 1001 in
  let ac k := EvAccept (Z.to_nat k) (fun _ => 1001) in
  let tx := EvSend 60 true true true 0 1002 in
  [ck 0; ck 0; ac 1; ac 0; ck 5; ac 0; ck 3; tx; ck 4000; ac 0; ac 0; ck 3; ck 1985; ac 0; ck 1985; ac 0; tx].

Definition wsys_ex : wsys := wg_execs toy_dec (fun _ _ => true) evs_ex (wsys_start wgs_ex wgp_ex).

Definition no_payload (v : verdict) : verdict := if v is GENUINE _ then GENUINE None else v.

Lemma sliwin_refines_set_witness : sliwin_run sliwin_reset [0; 1; 1; 5; 3; 4000; 1984; 1983; 1984] =
  set_run [] [0; 1; 1; 5; 3; 4000; 1984; 1983; 1984] /\
  set_run [] [0; 1; 1; 5; 3; 4000; 1984; 1983; 1984] =
    [true; true; false; true; true; true; true; false; false].
Proof.
  split; [|vm_compute; reflexivity]. apply (sliwin_refines_set [0; 1; 1; 5; 3; 4000; 1984; 1983; 1984]).
  repeat (constructor; [unfold usable, WG_REJECT_AFTER_MESSAGES, UINT64_MAX; lia|]). constructor.
Defined.

Example evs_ex_log :
  rev (map (fun x => (wgmd_counter (fst x), no_payload (snd x))) (ws_log wsys_ex)) =
    [(0, GENUINE None); (0, DROP_REPLAY); (5, GENUINE None); (4000, GENUINE None); (3, DROP_REPLAY);
     (3, DROP_WINDOW); (1985, GENUINE None); (1985, DROP_REPLAY)] /\ ws_sent wsys_ex = [1; 0].
Proof. vm_compute. done. Qed.


(** An IPv6 header that claims 65535 bytes of payload passes the length check on
    a packet of 40 bytes: the sum is kept in 16 bits. *)
Example inner_length_wraps :
  wg_validate_inner_packet ([96; 0; 0; 0; 255; 255] ++ replicate 34 0) 40 = Some AF_INET6.
Proof. vm_compute. reflexivity. Qed.
